(* ===== verification/_CoqProject ===== *)
-Q . S2P
Prelude.v
RustStr.v
Json.v
Inputs.v
Names.v
Text.v
Float.v
Domain.v
Auth.v
Recurrence.v
Workflow.v
Db.v
Snapshot.v
TxLogic.v
Store.v
Planner.v
WorkflowStore.v
Catalog.v
Queries.v
WorkflowDefinitions.v
Lifecycle.v
Refinement.v
WorkflowRefinement.v
StoreSystem.v
CatalogTheorems.v
Scenario.v
StoreTheorems.v
StoreBehaviour.v
PlannerTheorems.v
Orchestration.v
Launch.v
LaunchOnce.v
Completion.v
WorkflowCatalog.v
CatalogHistory.v
Pagination.v
Access.v
Validation.v
Application.v
ApplicationSystem.v
Authority.v
Accepted.v
Service.v
Futures.v
Dispatcher.v
WorkerControl.v
Publication.v
Server.v
Redaction.v
ExecutionOutput.v
Runner.v
Worker.v
WorkerStart.v
Cluster.v
Nats.v
ApiTypes.v
Authentication.v
Processes.v
Web.v
Resources.v
Handlers.v
Api.v
ApiTheorems.v
ApiResponses.v
ApiExample.v
Layout.v
WebClient.v
WebRoutes.v
Forms.v
JobForm.v
JobPreview.v
ResourceForms.v
Navigation.v
RunPages.v
CatalogPages.v
WorkflowPages.v
WorkflowEditor.v
EditorTheorems.v
EditorDrafts.v
PagesExample.v
