(* ===== verification/Prelude.v ===== *)
(** * Crono: a verification development of the scheduler's core

    Crono is a distributed job scheduler.  A control-plane server keeps a catalog
    (Namespaces, Queues, Jobs, Targets, Target Sets, Schedules, Workflows) in
    PostgreSQL, plans the occurrences of Schedules, and records every intended
    execution as a Run with numbered attempts and an outbox row; a dispatcher
    publishes the outbox to NATS; workers claim an attempt under a lease, stream
    output and report completion; a reconciler repairs expired leases, due retries
    and passed deadlines, and turns the completion of Runs into the progress of
    Workflow invocations.  Every server and worker is stateless: the database is the
    only shared state, so the order of calls, their clocks and their faults are
    arbitrary.  Callers are authorized by grants on capabilities and Namespaces; they
    reach the server over HTTP, from a web console that runs in the browser.

    ** How the program is modelled

    - A pure Rust function is a Rocq function; [Result] is [result] and [?] is [let?].
      Integers are [Z] with the width's bounds checked where the code checks or
      saturates; binary64 numbers are [spec_float]; strings are byte strings with
      their UTF-8 structure; JSON is an inductive type; typed identifiers are numbers.
    - The database is a record of finite maps, one per table (Db).  [tx] is the
      monad of code that runs SQL: it threads the database, and an environment gives
      what the program does not choose: each statement's timestamp, the faults of
      the connection, fresh UUIDs, the wall clock, the rows other transactions hold
      locked ([SKIP LOCKED]), and whether a commit whose answer was lost took
      effect.  A constraint of db/sql/*.sql is a check of the statements that write
      the table, with the error class [classify_sqlstate] gives it; the trigger
      [runs_workflow_completion] runs in [update_run].
    - A history is a sequence of whole calls ([StoreSystem.store_step], reflexive and
      transitive closure), each with its own environment: transactions lock the rows
      they decide on, so calls interleave as wholes.
    - Asynchronous code is a [future]: a value, or an awaited call and what follows its
      answer.  A property of it speaks of every answer: [obeys] says what must have
      happened before each call, [ends] what is known at the end.  Processes that
      interact are step relations over the database, the messages in flight and the
      futures that are left (Server, Cluster): calls, deliveries, losses and crashes
      interleave freely.
    - A page of the browser is the record of its signals; an event is a function on it
      that may answer the request it sends, and the answer is another function.
    - Loops without a structural argument have fuel.  For the trimming, decoding,
      splitting and replacing of texts it is the text's length, since a round consumes a
      byte.  Otherwise a theorem or lemma shows that the fuel suffices: the template
      scanner (the template's length), the cron scan (the minutes of the window),
      Kahn's algorithm (one round per node, plus one, in the server and in the preview's
      layout), the catch-up loop (the room left below [max_catchup_runs]), propagation
      (queue length plus number of edges; [propagation_terminates]) and the pages a
      client follows (the number of visible rows, [listings_complete]; the browser's own
      bound is 100 pages).  The heartbeat, upload and presence loops run until they are
      stopped: their fuel is the number of ticks before that, and theorems hold for all.

    ** Parameters

    Third-party code is a class whose methods the definitions take as arguments, with
    what is documented of it, where a theorem needs it, as a class of laws:
    [Json.SerdeJson] (number text, encoded size), [Inputs.RustFmt] (debug text),
    [Recurrence.CronCrates] with [CronLaws] (cron-parser, chrono, chrono-tz; that the
    parser's answers lie after what it is asked is a hypothesis of its own,
    [parser_advances], where a theorem needs it),
    [Snapshot.PostgresServer] with [Pagination.TextOrder] ([jsonb] equality, text
    collation), [Store.TimeCrate] (seconds from a binary64 number),
    [WorkflowStore.SnapshotEncoding] (encoded size of a snapshot), [Auth.GrantJson] with
    [GrantJsonLaws] (grant documents), [Queries.DiagnosticsJson], [WorkerControl.WireJson]
    and [Worker.EnvelopeJson] (messages as JSON), [Authentication.HeaderValues] with its
    laws, [Web.Axum] with [AxumLaws] and [WebRoutes.ApiCodec] (routing, extraction, the
    encoding both ends share), [Resources.Rfc3339] (texts of instants), [Handlers.Build]
    (the version), [Nats.NKeys] (keys and signatures), [Forms.JsonText] (JSON as text),
    [Processes.Sockets], [Processes.UrlCrate] and [Processes.ConsoleText] with
    [ConsoleLaws] (sockets, URLs, escaped texts).  What the operating system and the
    child do is an argument or an answer.  Two ports of the source are classes as well:
    [Auth.ResourceNamespaceResolver] and [Auth.Authorizer].  Scenario, PlannerTheorems,
    Access, ApiExample, Processes and PagesExample have concrete instances, at which the
    witnesses evaluate.

    ** Files

    Language and data:
    - Prelude: [result], bounds of integers, sorting, generic lemmas.
    - RustStr, Text, Json, Float: the standard library's strings, UUIDs and separators,
      serde_json's values, binary64 arithmetic and its decimal texts.
    - Inputs: crates/execution/src/lib.rs, the merging of Inputs and the argument
      templates.
    - Names: crates/api/src/lib.rs and domain/name.rs, canonical names.
    - Domain: domain/*.rs, the entities, stored names, pages and bounded texts.
    - Workflow: domain/workflow.rs, validation of graphs and the join rule.
    - Recurrence, Planner: scheduler/*.rs, the next cron occurrence, the plan of a Schedule.

    The store:
    - Db: db/sql/*.sql, the tables, constraints, the trigger and the transaction monad;
      TxLogic: what an operation keeps and how it is inverted.
    - Snapshot, Store: infrastructure/postgres.rs, executions, Runs, outbox, claims,
      leases, completion, reconciliation, claiming and enabling Schedules.
    - Catalog, Queries: infrastructure/postgres.rs, the catalog's writes and listings, the
      history, the workers and the operator's samples.
    - WorkflowStore, WorkflowDefinitions: infrastructure/postgres/workflows.rs.
    - Lifecycle: the abstract specification of Runs, attempts and dispatches: a step
      relation on the three tables and its invariant.  Refinement, WorkflowRefinement,
      StoreSystem: every store call is a sequence of abstract steps.
    - Scenario: a concrete history used by the witnesses.
    - StoreTheorems, StoreBehaviour, PlannerTheorems: execution and planning.
    - Orchestration, Launch, LaunchOnce, Completion: launched Workflows.
    - CatalogTheorems, WorkflowCatalog, CatalogHistory, Pagination: the catalog's
      invariant, what it reads back, complete listings.

    The server:
    - Auth, Access: application/auth.rs, auth/*.rs and postgres/authorization.rs.
    - Validation, Application: application/*.rs, every service as a program of calls to
      its ports.  ApplicationSystem, Authority, Accepted: its executions against any
      answers.  Service: run by the policy and the store.
    - Futures: asynchronous code and the background loops.  Dispatcher, WorkerControl:
      infrastructure/dispatcher.rs and worker_control.rs.  Publication, Server: servers
      over one database and one stream, which removes what is acknowledged and
      recognises a message published again within its duplicate window.
    - Nats: crates/nats and infrastructure/nats.rs.  Processes: the pool, the start, the
      listener and the end of the server (database.rs, cli/actions/server.rs, the rest of
      api/mod.rs), the loop of worker_control.rs, the worker's [execute], the command
      line client, the telemetry's settings, the worker's console (execution/output.rs).
    - ApiTypes, Authentication, Web, Resources, Handlers, Api: crates/api, authentication
      and api/*, contracts, credentials, extraction and errors, conversions, handlers,
      routes.  ApiTheorems, ApiResponses, ApiExample: what the boundary guarantees.

    The worker:
    - Redaction, ExecutionOutput, Runner: execution/*.rs.  Worker, WorkerStart:
      cli/actions/run.rs and cli/dispatch.  Cluster: servers, NATS and workers together.

    The web console (apps/web/src):
    - WebClient, WebRoutes: api.rs and its calls at the server's routes.
    - Forms, JobForm, JobPreview, ResourceForms: components/*.rs and the forms of Jobs,
      Targets, Target Sets, Schedules and Runs.
    - Navigation, RunPages, CatalogPages, WorkflowPages: navigation.rs and the state of
      the other pages.
    - Layout, WorkflowEditor, EditorTheorems, EditorDrafts: workflow_layout.rs and
      pages/workflows, the draft of a Workflow.
    - PagesExample: concrete inputs.

    ** What the theorems show

    - Execution: the store refines the abstract life cycle in every history
      ([store_refines_lifecycle]); terminal Runs never change; an attempt is granted
      to one worker and completed once; statuses move along the diagram; attempts are
      numbered within the budget and at most one runs; occurrences are unique; requests
      are idempotent; claims, lease loss, output and publication failures behave as
      specified on each branch.
    - Planning: plans are bounded and complete and, where the parser advances, ordered
      and past now; misfire decisions and deadlines; the next occurrence is the first
      match or the parser's answer.
    - Workflows: validation accepts exactly the acyclic well-formed graphs; in every
      history each pending node waits for an open predecessor, no completion is
      lost, no invocation is stuck, propagation terminates, and a launch sent again
      starts nothing ([launched_once]).
    - Catalog: its constraints hold in every history and reading never fails; definitions
      read back as written; listings are complete ([listings_complete]).
    - Authorization: a decision is allowed exactly by an assignment that covers the
      resource; every call of every service was permitted first
      ([services_authorized]) and carries validated data ([services_validate]); a request
      over HTTP reaches a service only for the caller its credential names
      ([requests_guarded]); failures are envelopes.
    - Composition: a served request is a history of the store ([requests_served]); under
      any interleaving of servers queued attempts are published
      ([queued_attempts_published]); with workers, losses, duplicates and crashes no
      attempt is executed twice ([executed_at_most_once]) and every delivery is settled;
      messages of workers act within their subjects ([handlers_guarded]).
    - Worker: an execution is reported; reading a pipe agrees with its reference; secrets
      do not leave, with the stated exceptions; the console prints one line an event,
      without a control character but in the inputs' JSON ([console_line_quiet]).
    - Processes: nothing is touched before the configuration is accepted
      ([startup_order]); tasks are cancelled and joined ([serve_lifecycle]); a worker
      leaves nothing it received unhandled ([worker_lifecycle]); no control message is
      taken before all subscriptions stand ([control_loop_rule]); a NATS
      identity is unambiguous; a client keeps only safe addresses.
    - Console: its calls reach the handlers they are named for ([client_calls_served]);
      what a form checked the server accepts ([forms_pass_validation]); the Job's preview is
      what a Run does ([preview_matches_run]); the Workflow's preview shows the server's
      verdict; skipped nodes are explained by the join rule ([skip_explained]).
    - Behaviour that differs from the documentation or defeats the purpose is proved as
      such: [catchup_skip_never_executes], [nul_output_never_completes],
      [late_window_never_dispatched], [repeated_hour_stays_due], [lease_loss_outcome],
      [editor_roundtrip], [rejected_field_blocks_form].

    ** Not modelled

    The OpenAPI document, tracing spans and log lines, the registry of metrics and its
    encoding, the subscribers and the OTLP exporter: their effect is in other libraries.
    What the console's views render, focus, timers' durations and the browser's storage.
    Clap's descriptions of the command lines.  The deferred triggers that repeat the
    validation of Workflow graphs in SQL, and the pages that only show what was loaded
    (the overview, the monitor, the workers, the settings). *)

From stdpp Require Import base numbers strings sorting gmap list relations.
From Stdlib Require Import ZArith Lia.

#[global] Open Scope Z_scope.
#[global] Open Scope list_scope.

(** ** Rust's [Result] and its [?] operator *)

Inductive result (A E : Type) : Type :=
| Ok (a : A)
| Err (e : E).
Arguments Ok {A E} a.
Arguments Err {A E} e.

Declare Scope crono_scope.
Delimit Scope crono_scope with crono.
#[global] Open Scope crono_scope.

Definition result_bind {A B E : Type} (m : result A E) (k : A -> result B E) : result B E :=
  match m with
  | Ok a => k a
  | Err e => Err e
  end.

Notation "'let?' x := m 'in' k" := (result_bind m (fun x => k))
  (at level 10, x pattern, m at level 100, k at level 200)
  : crono_scope.

Definition map_err {A E F : Type} (f : E -> F) (m : result A E) : result A F :=
  match m with
  | Ok a => Ok a
  | Err e => Err (f e)
  end.

Definition ok_or {A E : Type} (o : option A) (e : E) : result A E :=
  match o with
  | Some a => Ok a
  | None => Err e
  end.

Definition is_ok {A E : Type} (m : result A E) : bool :=
  match m with Ok _ => true | Err _ => false end.

Definition is_err {A E : Type} (m : result A E) : bool := negb (is_ok m).

(** [iter().map(f).collect::<Result<Vec<_>, _>>()]: stops at the first error. *)
Fixpoint collect {A B E : Type} (f : A -> result B E) (l : list A) : result (list B) E :=
  match l with
  | [] => Ok []
  | x :: l' =>
      let? y := f x in
      let? ys := collect f l' in
      Ok (y :: ys)
  end.

(** ** Machine-width integers *)

Definition u8_max : Z := 255.
Definition u16_max : Z := 65535.
Definition i32_min : Z := -2147483648.
Definition i32_max : Z := 2147483647.
Definition u32_max : Z := 4294967295.
Definition i64_min : Z := -9223372036854775808.
Definition i64_max : Z := 9223372036854775807.
Definition u64_max : Z := 18446744073709551615.

Definition in_range (lo hi z : Z) : bool := (lo <=? z) && (z <=? hi).
Definition in_u16 := in_range 0 u16_max.
Definition in_i32 := in_range i32_min i32_max.
Definition in_u32 := in_range 0 u32_max.
Definition in_i64 := in_range i64_min i64_max.
Definition in_u64 := in_range 0 u64_max.

(** [T::try_from(z)] for an integer type with the given bounds. *)
Definition try_from {E : Type} (inside : Z -> bool) (e : E) (z : Z) : result Z E :=
  if inside z then Ok z else Err e.

(** [saturating_add], [saturating_mul]. *)
Definition saturate (lo hi z : Z) : Z := Z.max lo (Z.min hi z).

(** ** [ORDER BY key LIMIT n] *)

Section Sorting.
Context {A : Type} (le : A -> A -> bool).

Fixpoint insert_by (x : A) (l : list A) : list A :=
  match l with
  | [] => [x]
  | y :: l' => if le x y then x :: l else y :: insert_by x l'
  end.

Fixpoint sort_by (l : list A) : list A :=
  match l with
  | [] => []
  | x :: l' => insert_by x (sort_by l')
  end.

Lemma insert_by_Permutation x l : insert_by x l ≡ₚ x :: l.
Proof.
  induction l as [|y l IH]; simpl; [done|].
  destruct (le x y); [done|]. rewrite IH. apply Permutation_swap.
Qed.

Lemma sort_by_Permutation l : sort_by l ≡ₚ l.
Proof.
  induction l as [|x l IH]; simpl; [done|].
  by rewrite insert_by_Permutation, IH.
Qed.

Lemma elem_of_sort_by x l : x ∈ sort_by l <-> x ∈ l.
Proof. by rewrite sort_by_Permutation. Qed.

End Sorting.

(** ** Proof automation *)

Create HintDb crono discriminated.

(** Split the conjunctions, existentials and boolean tests of the context. *)
Ltac simp_bool :=
  repeat match goal with
  | H : ?a && ?b = true |- _ => apply andb_true_iff in H; destruct H
  | H : ?a || ?b = false |- _ => apply orb_false_iff in H; destruct H
  | H : negb ?a = true |- _ => apply negb_true_iff in H
  | H : negb ?a = false |- _ => apply negb_false_iff in H
  | H : (_ <=? _)%Z = true |- _ => apply Z.leb_le in H
  | H : (_ <=? _)%Z = false |- _ => apply Z.leb_gt in H
  | H : (_ <? _)%Z = true |- _ => apply Z.ltb_lt in H
  | H : (_ <? _)%Z = false |- _ => apply Z.ltb_ge in H
  | H : (_ =? _)%Z = true |- _ => apply Z.eqb_eq in H
  | H : (_ =? _)%Z = false |- _ => apply Z.eqb_neq in H
  | H : bool_decide _ = true |- _ => apply bool_decide_eq_true in H
  | H : bool_decide _ = false |- _ => apply bool_decide_eq_false in H
  end.

(** Case analysis on every test that blocks the computation of a hypothesis. *)
Ltac inv_result H :=
  repeat (simplify_eq/=; match type of H with
  | context [match ?x with _ => _ end] => destruct x eqn:?
  end); simplify_eq/=.

(** ** Shared lemmas *)

Lemma result_bind_ok {A B E} (m : result A E) (k : A -> result B E) b :
  result_bind m k = Ok b <-> exists a, m = Ok a /\ k a = Ok b.
Proof. destruct m as [a|e]; simpl; [split; [eauto|by intros (? & [= <-] & ?)]|split; [done|by intros (? & ? & ?)]]. Qed.

Lemma collect_ok {A B E} (f : A -> result B E) l ys :
  collect f l = Ok ys <-> Forall2 (fun x y => f x = Ok y) l ys.
Proof.
  revert ys; induction l as [|x l IH]; intros ys; simpl.
  - split; [intros [= <-]; constructor|by inversion 1].
  - rewrite result_bind_ok. split.
    + intros (y & Hy & (ys' & Hys & [= <-])%result_bind_ok).
      constructor; [done|by apply IH].
    + inversion 1 as [|? y ? ys' Hy Hys]; subst. exists y; split; [done|].
      apply IH in Hys. by rewrite Hys.
Qed.

Lemma collect_length {A B E} (f : A -> result B E) l ys :
  collect f l = Ok ys -> length ys = length l.
Proof. intros H%collect_ok. symmetry. by eapply Forall2_length. Qed.

Lemma in_range_spec lo hi z : in_range lo hi z = true <-> lo <= z <= hi.
Proof. unfold in_range. rewrite andb_true_iff, !Z.leb_le. lia. Qed.

Lemma filter_iff_in {A} (P Q : A -> Prop) `{!forall x, Decision (P x)} `{!forall x, Decision (Q x)} (l : list A) :
  (forall x, x ∈ l -> P x <-> Q x) -> filter P l = filter Q l.
Proof.
  intros Hpq. induction l as [|x l IH]; [done|]. assert (P x <-> Q x) as Hx by (apply Hpq; left).
  rewrite !filter_cons, (decide_ext (P x) (Q x)), IH by (try done; intros y Hy; apply Hpq; by right). done.
Qed.

Lemma filter_all {A} (P : A -> Prop) `{!forall x, Decision (P x)} (l : list A) : (forall x, x ∈ l -> P x) -> filter P l = l.
Proof.
  induction l as [|x l IH]; intros Hin; [done|]. rewrite filter_cons, decide_True by (apply Hin; left). f_equal.
  apply IH. intros y Hy. apply Hin. by right.
Qed.

(** *** Finite descent: a finite set in which everything has a predecessor holds a cycle *)

Fixpoint descends {A} (R : A -> A -> Prop) (x : A) (l : list A) : Prop :=
  match l with [] => True | y :: l' => R y x /\ descends R y l' end.

Lemma descends_tc {A} (R : A -> A -> Prop) x l z : descends R x l -> z ∈ l -> tc R z x.
Proof.
  revert x. induction l as [|y l IH]; intros x H Hz; [by apply elem_of_nil in Hz|]. destruct H as [Hy H].
  apply elem_of_cons in Hz as [->|Hz]; [by apply tc_once|]. eapply tc_r; [by apply IH|done].
Qed.

Lemma descends_cycle {A} `{EqDecision A} (R : A -> A -> Prop) x l :
  descends R x l -> NoDup (x :: l) \/ exists z, tc R z z.
Proof.
  revert x. induction l as [|y l IH]; intros x H; [left; apply NoDup_singleton|].
  destruct (decide (x ∈ y :: l)) as [Hin|Hin]; [right; exists x; by eapply descends_tc|].
  destruct H as [_ H]. destruct (IH y H) as [Hd|?]; [left; by constructor|by right].
Qed.

Lemma descends_grow {A} (R : A -> A -> Prop) (u : list A) k x :
  (forall y, y ∈ u -> exists p, p ∈ u /\ R p y) -> x ∈ u ->
  exists l, length l = k /\ descends R x l /\ (forall y, y ∈ l -> y ∈ u).
Proof.
  intros Hp. revert x. induction k as [|k IH]; intros x Hx; [exists []; split; [done|]; split; [done|set_solver]|].
  destruct (Hp x Hx) as (p & Hpu & He). destruct (IH p Hpu) as (l & Hl & Hd & Hu).
  exists (p :: l). split; [simpl; lia|]. split; [done|]. set_solver.
Qed.

Lemma finite_descent {A} `{EqDecision A} (R : A -> A -> Prop) (u : list A) x :
  (forall y, y ∈ u -> exists p, p ∈ u /\ R p y) -> x ∈ u -> exists z, tc R z z.
Proof.
  intros Hp Hx. destruct (descends_grow R u (S (length u)) x Hp Hx) as (l & Hl & Hd & Hu).
  destruct (descends_cycle R x l Hd) as [Hn|?]; [|done]. apply NoDup_cons in Hn as [_ Hn].
  assert (length l <= length u)%nat; [|lia]. by apply submseteq_length, NoDup_submseteq.
Qed.
