(* ===== verification/RustStr.v ===== *)
(** * Rust [str] values

    A Rust string is its UTF-8 byte sequence, here a [string] of bytes: [len]
    is the number of bytes, and the byte-lexicographic [String.compare] is Rust's [Ord].
    [next_char] decodes the first scalar value the way [str::chars] does, so
    the character-based operations the code uses ([char_indices], [trim], [chars().count()],
    [chars().take(n)]) and the byte-based ones ([is_char_boundary], [find],
    [split]) live on one representation.  These are standard-library
    operations; the files that model crono code call them. *)

From S2P Require Import Prelude.
From Stdlib Require Import Ascii String.
From stdpp Require Import base numbers strings sorting gmap list.

Local Open Scope string_scope.
Local Open Scope Z_scope.

(** [str::len], in bytes. *)
Definition slen (s : string) : Z := Z.of_nat (String.length s).

Definition byte_of (a : ascii) : Z := Z.of_N (N_of_ascii a).

(** ** Decoding *)

(** A continuation byte of UTF-8: [10xxxxxx]. *)
Definition is_continuation (a : ascii) : bool :=
  Z.land (byte_of a) 192 =? 128.

(** The first scalar value of a valid UTF-8 string and what follows it. *)
Definition next_char (s : string) : option (Z * string) :=
  match s with
  | EmptyString => None
  | String a s1 =>
      let b := byte_of a in
      if b <? 128 then Some (b, s1)
      else match s1 with
      | EmptyString => Some (b, s1)
      | String a1 s2 =>
          let c1 := Z.land (byte_of a1) 63 in
          if b <? 224 then Some (Z.lor (Z.shiftl (Z.land b 31) 6) c1, s2)
          else match s2 with
          | EmptyString => Some (b, s2)
          | String a2 s3 =>
              let c2 := Z.land (byte_of a2) 63 in
              if b <? 240
              then Some (Z.lor (Z.shiftl (Z.land b 15) 12) (Z.lor (Z.shiftl c1 6) c2), s3)
              else match s3 with
              | EmptyString => Some (b, s3)
              | String a3 s4 =>
                  let c3 := Z.land (byte_of a3) 63 in
                  Some (Z.lor (Z.shiftl (Z.land b 7) 18)
                          (Z.lor (Z.shiftl c1 12) (Z.lor (Z.shiftl c2 6) c3)), s4)
              end
          end
      end
  end.

(** The strings a Rust [str] can hold: well-formed UTF-8. *)
Fixpoint utf8_fuel (fuel : nat) (s : string) : bool :=
  match fuel with
  | O => true
  | S fuel' =>
      match s with
      | EmptyString => true
      | String a s1 =>
          match next_char s with
          | None => true
          | Some (c, rest) =>
              let width := (String.length s - String.length rest)%nat in
              let b := byte_of a in
              negb (is_continuation a)
              && match width with
                 | 1%nat => b <? 128
                 | 2%nat => (194 <=? b) && (b <? 224) && (128 <=? c)
                 | 3%nat => (2048 <=? c) && negb ((55296 <=? c) && (c <=? 57343))
                 | _ => (65536 <=? c) && (c <=? 1114111)
                 end
              && forallb is_continuation (list_ascii_of_string (substring 0 (width - 1) s1))
              && utf8_fuel fuel' rest
          end
      end
  end.

Definition is_utf8 (s : string) : bool := utf8_fuel (String.length s) s.

(** [str::char_indices]: scalar values with their byte offsets. *)
Fixpoint char_indices_from (fuel : nat) (pos : Z) (s : string) : list (Z * Z) :=
  match fuel with
  | O => []
  | S fuel' =>
      match next_char s with
      | None => []
      | Some (c, rest) =>
          (pos, c) :: char_indices_from fuel' (pos + (slen s - slen rest)) rest
      end
  end.

Definition char_indices (s : string) : list (Z * Z) :=
  char_indices_from (String.length s) 0 s.

Definition chars (s : string) : list Z := map snd (char_indices s).

Definition chars_count (s : string) : Z := Z.of_nat (length (chars s)).

(** [char::is_ascii_lowercase], [char::is_ascii_digit], [char::is_whitespace] (Unicode
    [White_Space]), [char::is_control] (category Cc). *)
Definition is_ascii_lowercase (c : Z) : bool := (97 <=? c) && (c <=? 122).
Definition is_ascii_uppercase (c : Z) : bool := (65 <=? c) && (c <=? 90).
Definition is_ascii_digit (c : Z) : bool := (48 <=? c) && (c <=? 57).
Definition is_ascii_alphanumeric (c : Z) : bool :=
  is_ascii_lowercase c || is_ascii_uppercase c || is_ascii_digit c.
Definition is_control (c : Z) : bool := (c <=? 31) || ((127 <=? c) && (c <=? 159)).
Definition is_whitespace (c : Z) : bool :=
  ((9 <=? c) && (c <=? 13)) || (c =? 32) || (c =? 133) || (c =? 160) || (c =? 5760)
  || ((8192 <=? c) && (c <=? 8202)) || (c =? 8232) || (c =? 8233) || (c =? 8239)
  || (c =? 8287) || (c =? 12288).

(** ** [str::trim] *)

Fixpoint trim_start_fuel (fuel : nat) (s : string) : string :=
  match fuel with
  | O => s
  | S fuel' =>
      match next_char s with
      | Some (c, rest) => if is_whitespace c then trim_start_fuel fuel' rest else s
      | None => s
      end
  end.

Definition trim_start (s : string) : string := trim_start_fuel (String.length s) s.

(** The bytes of [s] that precede its suffix [rest]. *)
Definition before (s rest : string) : string :=
  substring 0 (String.length s - String.length rest) s.

Fixpoint trim_end_fuel (fuel : nat) (s : string) : string :=
  match fuel with
  | O => s
  | S fuel' =>
      match next_char s with
      | None => EmptyString
      | Some (c, rest) =>
          let t := trim_end_fuel fuel' rest in
          if is_whitespace c && (t =? "")%string then EmptyString
          else before s rest ++ t
      end
  end.

Definition trim_end (s : string) : string := trim_end_fuel (String.length s) s.

Definition trim (s : string) : string := trim_end (trim_start s).

(** ** Searching and splitting on ASCII patterns *)

(** [str::find(pat)]: the text before the first occurrence and the text after it. *)
Fixpoint split_once (pat s : string) : option (string * string) :=
  if String.prefix pat s
  then Some (EmptyString, substring (String.length pat) (String.length s - String.length pat) s)
  else match s with
  | EmptyString => None
  | String a s' =>
      match split_once pat s' with
      | Some (p, q) => Some (String a p, q)
      | None => None
      end
  end.

Definition contains (pat s : string) : bool :=
  match split_once pat s with Some _ => true | None => false end.

(** [str::split(c)] for a character separator: at least one piece. *)
Fixpoint split_on (sep : ascii) (s : string) : list string :=
  match s with
  | EmptyString => [EmptyString]
  | String a s' =>
      if Ascii.eqb a sep then EmptyString :: split_on sep s'
      else match split_on sep s' with
      | [] => [String a EmptyString]
      | p :: ps => String a p :: ps
      end
  end.

(** [str::contains('\0')]. *)
Fixpoint contains_byte (b : ascii) (s : string) : bool :=
  match s with
  | EmptyString => false
  | String a s' => Ascii.eqb a b || contains_byte b s'
  end.

Definition nul : ascii := "000"%char.

(** [str::strip_suffix(c)] for a one-byte suffix. *)
Fixpoint strip_last (b : ascii) (s : string) : option string :=
  match s with
  | EmptyString => None
  | String a EmptyString => if Ascii.eqb a b then Some EmptyString else None
  | String a s' => option_map (String a) (strip_last b s')
  end.

(** [str::trim_end_matches] of one byte. *)
Fixpoint trim_end_matches (b : ascii) (s : string) : string :=
  match s with
  | EmptyString => EmptyString
  | String a s =>
      let rest := trim_end_matches b s in
      if (rest =? "")%string && Ascii.eqb a b then EmptyString else String a rest
  end.

(** [str::trim_start_matches] and [str::trim_matches] of one byte *)
Fixpoint trim_start_matches (b : ascii) (s : string) : string :=
  match s with
  | EmptyString => EmptyString
  | String a rest => if Ascii.eqb a b then trim_start_matches b rest else s
  end.

Definition trim_matches (b : ascii) (s : string) : string := trim_end_matches b (trim_start_matches b s).

(** [char::to_ascii_lowercase] *)
Definition to_ascii_lowercase (c : Z) : Z := if is_ascii_uppercase c then c + 32 else c.

(** [str::eq_ignore_ascii_case] *)
Fixpoint eq_ignore_ascii_case (s t : string) : bool :=
  match s, t with
  | EmptyString, EmptyString => true
  | String a s, String b t =>
      (to_ascii_lowercase (byte_of a) =? to_ascii_lowercase (byte_of b)) && eq_ignore_ascii_case s t
  | _, _ => false
  end.

(** ** Byte slicing at character boundaries *)

(** [str::is_char_boundary]. *)
Definition is_char_boundary (s : string) (i : nat) : bool :=
  (i =? 0)%nat || (i =? String.length s)%nat
  || match String.get i s with Some a => negb (is_continuation a) | None => false end.

(** [&s[i..]]. *)
Definition drop_bytes (i : nat) (s : string) : string :=
  substring i (String.length s - i) s.

(** [while !s.is_char_boundary(start) { start += 1 }]. *)
Fixpoint next_boundary (fuel : nat) (s : string) (start : nat) : nat :=
  match fuel with
  | O => start
  | S fuel' => if is_char_boundary s start then start else next_boundary fuel' s (S start)
  end.

(** [s.chars().take(n).collect::<String>()]. *)
Fixpoint take_chars (n : nat) (s : string) : string :=
  match n with
  | O => EmptyString
  | S n' =>
      match next_char s with
      | None => EmptyString
      | Some (_, rest) => before s rest ++ take_chars n' rest
      end
  end.

(** ** Order *)

Definition string_ltb (a b : string) : bool :=
  match String.compare a b with Lt => true | _ => false end.

(** ** [Uuid]'s hyphenated lower-case text *)

Definition hex_digit (n : N) : string :=
  String (ascii_of_N (if (n <? 10)%N then 48 + n else 87 + n)) EmptyString.

Fixpoint hex_digits (count : nat) (n : N) (acc : string) : string :=
  match count with
  | O => acc
  | S count' => hex_digits count' (N.div n 16) (hex_digit (N.modulo n 16) ++ acc)
  end.

Definition uuid_to_string (u : N) : string :=
  hex_digits 8 (N.shiftr u 96) "" ++ "-" ++ hex_digits 4 (N.shiftr u 80) "" ++ "-"
  ++ hex_digits 4 (N.shiftr u 64) "" ++ "-" ++ hex_digits 4 (N.shiftr u 48) "" ++ "-"
  ++ hex_digits 12 u "".

(** ** Lemmas *)

Lemma slen_nonneg s : 0 <= slen s.
Proof. unfold slen. lia. Qed.

Lemma string_length_app s t :
  String.length (s ++ t) = (String.length s + String.length t)%nat.
Proof. induction s as [|a s IH]; simpl; [done|by rewrite IH]. Qed.

Lemma string_app_assoc s t u : s ++ t ++ u = (s ++ t) ++ u.
Proof. induction s as [|a s IH]; [done|]. exact (f_equal (String a) IH). Qed.

Lemma string_app_nil_r s : s ++ "" = s.
Proof. induction s as [|a s IH]; [done|]. exact (f_equal (String a) IH). Qed.

Lemma slen_app s t : slen (s ++ t) = slen s + slen t.
Proof. unfold slen. rewrite string_length_app. lia. Qed.

Lemma next_char_shorter s c rest :
  next_char s = Some (c, rest) -> (String.length rest < String.length s)%nat.
Proof.
  unfold next_char. intros H.
  repeat case_match; simplify_eq/=; lia.
Qed.

Lemma next_char_none s : next_char s = None <-> s = EmptyString.
Proof.
  split; [|by intros ->].
  destruct s as [|a s]; [done|]. simpl. repeat case_match; done.
Qed.

Lemma substring_full s : substring 0 (String.length s) s = s.
Proof. induction s as [|a s IH]; simpl; [done|by f_equal]. Qed.

Lemma prefix_split pat s :
  String.prefix pat s = true ->
  s = pat ++ substring (String.length pat) (String.length s - String.length pat) s.
Proof.
  revert s; induction pat as [|b pat IH]; intros s Hp.
  - simpl. by rewrite Nat.sub_0_r, substring_full.
  - destruct s as [|c s]; simpl in Hp; [done|].
    destruct (ascii_dec b c) as [->|]; [|done]. exact (f_equal (String c) (IH s Hp)).
Qed.

Lemma split_once_app pat s p q :
  split_once pat s = Some (p, q) -> s = p ++ pat ++ q.
Proof.
  revert p q. induction s as [|a s IH]; intros p q H; cbn [split_once] in H.
  - destruct (String.prefix pat "") eqn:Hp; [|done].
    apply prefix_split in Hp. injection H as <- <-. done.
  - destruct (String.prefix pat (String a s)) eqn:Hp.
    + apply prefix_split in Hp. injection H as <- <-. done.
    + destruct (split_once pat s) as [[p' q']|] eqn:Hs; [|done].
      injection H as <- <-. exact (f_equal (String a) (IH _ _ eq_refl)).
Qed.

Lemma split_once_length pat s p q :
  split_once pat s = Some (p, q) ->
  String.length s = (String.length p + String.length pat + String.length q)%nat.
Proof.
  intros ->%split_once_app. rewrite !string_length_app. lia.
Qed.

Lemma next_boundary_ge fuel s start : (start <= next_boundary fuel s start)%nat.
Proof.
  revert start; induction fuel as [|fuel IH]; intros start; simpl; [lia|].
  destruct (is_char_boundary s start); [lia|]. specialize (IH (S start)). lia.
Qed.

Lemma next_boundary_le fuel s start :
  (start <= String.length s)%nat -> (next_boundary fuel s start <= String.length s)%nat.
Proof.
  revert start; induction fuel as [|fuel IH]; intros start Hle; simpl; [lia|].
  destruct (is_char_boundary s start) eqn:Hb; [lia|].
  apply IH. unfold is_char_boundary in Hb.
  destruct (decide (start = String.length s)) as [->|]; [|lia].
  rewrite Nat.eqb_refl, orb_true_r in Hb. done.
Qed.

Lemma next_boundary_is_boundary fuel s start :
  (start <= String.length s)%nat -> (String.length s - start < fuel)%nat ->
  is_char_boundary s (next_boundary fuel s start) = true.
Proof.
  revert start; induction fuel as [|fuel IH]; intros start Hle Hf; simpl; [lia|].
  destruct (is_char_boundary s start) eqn:Hb; [done|].
  apply IH; destruct (decide (start = String.length s)) as [->|]; try lia;
    unfold is_char_boundary in Hb; rewrite Nat.eqb_refl, orb_true_r in Hb; done.
Qed.

Lemma substring_length n m s :
  (n + m <= String.length s)%nat -> String.length (substring n m s) = m.
Proof.
  revert n m; induction s as [|a s IH]; intros [|n] [|m] Hle; simpl in *; try lia.
  - rewrite IH; lia.
  - apply IH. lia.
  - apply IH. lia.
Qed.

Lemma drop_bytes_length i s :
  (i <= String.length s)%nat -> String.length (drop_bytes i s) = (String.length s - i)%nat.
Proof. intros Hle. unfold drop_bytes. apply substring_length. lia. Qed.

(** A character below 128 is one byte. *)
Lemma next_char_ascii fuel s c rest :
  utf8_fuel (S fuel) s = true -> next_char s = Some (c, rest) -> c < 128 ->
  exists a, s = String a rest /\ byte_of a = c.
Proof.
  destruct s as [|a s1]; [done|]. intros Hu Hn Hc. cbn [utf8_fuel] in Hu. rewrite Hn in Hu.
  apply andb_true_iff in Hu as [Hu _]. apply andb_true_iff in Hu as [Hu _].
  apply andb_true_iff in Hu as [_ Hu].
  assert (byte_of a < 128 -> exists a0, String a s1 = String a0 rest /\ byte_of a0 = c) as Hone.
  { intros Hb. unfold next_char in Hn. apply Z.ltb_lt in Hb. rewrite Hb in Hn.
    injection Hn as <- <-. eauto. }
  pose proof (next_char_shorter _ _ _ Hn).
  destruct (String.length (String a s1) - String.length rest)%nat as [|[|[|[|n]]]] eqn:Hw;
    simp_bool; try lia; auto.
Qed.

Lemma utf8_fuel_tail fuel s c rest :
  utf8_fuel (S fuel) s = true -> next_char s = Some (c, rest) -> utf8_fuel fuel rest = true.
Proof.
  destruct s as [|a s1]; [done|]. intros Hu Hn. cbn [utf8_fuel] in Hu. rewrite Hn in Hu.
  by apply andb_true_iff in Hu as [_ Hu].
Qed.

Lemma next_char_of_ascii a rest : byte_of a < 128 -> next_char (String a rest) = Some (byte_of a, rest).
Proof. intros H. simpl. by apply Z.ltb_lt in H as ->. Qed.

(** A well-formed string whose characters all satisfy an ASCII predicate is
    the sequence of its bytes. *)
Lemma ascii_chars (P : Z -> bool) fuel : forall pos s,
  (String.length s <= fuel)%nat -> utf8_fuel fuel s = true ->
  (forall c, P c = true -> c < 128) ->
  forallb (fun pc => P pc.2) (char_indices_from fuel pos s) = true ->
  map snd (char_indices_from fuel pos s) = map byte_of (list_ascii_of_string s).
Proof.
  induction fuel as [|fuel IH]; intros pos s Hlen Hu HP Hall.
  { destruct s; [done|simpl in Hlen; lia]. }
  cbn [char_indices_from] in *. destruct (next_char s) as [[c rest]|] eqn:Hn.
  - simpl in Hall. apply andb_true_iff in Hall as [Hc Hall].
    destruct (next_char_ascii _ _ _ _ Hu Hn (HP _ Hc)) as (a & -> & Hb).
    simpl. rewrite Hb. f_equal. simpl in Hlen.
    apply IH; [lia|by eapply utf8_fuel_tail|done|done].
  - apply next_char_none in Hn as ->. done.
Qed.

Lemma ascii_bytes_chars (P : Z -> bool) fuel : forall pos s,
  (String.length s <= fuel)%nat -> (forall c, P c = true -> c < 128) ->
  forallb P (map byte_of (list_ascii_of_string s)) = true ->
  map snd (char_indices_from fuel pos s) = map byte_of (list_ascii_of_string s).
Proof.
  induction fuel as [|fuel IH]; intros pos s Hlen HP Hall.
  { destruct s; [done|simpl in Hlen; lia]. }
  destruct s as [|a rest]; [done|]. cbn [list_ascii_of_string map forallb] in Hall |- *.
  apply andb_true_iff in Hall as [Ha Hall]. cbn [char_indices_from].
  rewrite next_char_of_ascii by auto. cbn [map snd]. f_equal. simpl in Hlen. apply IH; [lia|done|done].
Qed.

(** ** Trimming keeps a string well formed *)

Lemma byte_of_bounds a : 0 <= byte_of a < 256.
Proof. unfold byte_of. pose proof (N_ascii_bounded a). lia. Qed.

Lemma substring_0_0 s : substring 0 0 s = ""%string.
Proof. by destruct s. Qed.

(** The bytes of the first character, and what depends on them alone. *)
Lemma utf8_head fuel s c rest :
  utf8_fuel (S fuel) s = true -> next_char s = Some (c, rest) ->
  exists w, s = w ++ rest /\ w <> ""%string
    /\ (forall t, next_char (w ++ t) = Some (c, t))
    /\ (forall n t, utf8_fuel (S n) (w ++ t) = utf8_fuel n t).
Proof.
  destruct s as [|a s1]; [done|]. intros Hu Hn.
  assert (forall w, (exists t0, String a s1 = w ++ t0) -> (forall t, next_char (w ++ t) = Some (c, t)) ->
    w <> ""%string ->
    (forall n t, utf8_fuel (S n) (w ++ t) =
       match w with
       | EmptyString => true
       | String a w1 =>
           negb (is_continuation a)
           && match String.length w with
              | 1%nat => byte_of a <? 128
              | 2%nat => (194 <=? byte_of a) && (byte_of a <? 224) && (128 <=? c)
              | 3%nat => (2048 <=? c) && negb ((55296 <=? c) && (c <=? 57343))
              | _ => (65536 <=? c) && (c <=? 1114111)
              end
           && forallb is_continuation (list_ascii_of_string w1) && utf8_fuel n t
       end)) as Hw.
  { intros w _ Hc Hne n t. destruct w as [|b w1]; [done|]. specialize (Hc t).
    change (String b w1 ++ t) with (String b (w1 ++ t)) in Hc |- *. cbn [utf8_fuel].
    rewrite Hc. cbn [String.length].
    replace (S (String.length (w1 ++ t)) - String.length t)%nat with (S (String.length w1)) by (rewrite string_length_app; lia).
    replace (S (String.length w1) - 1)%nat with (String.length w1) by lia.
    replace (substring 0 (String.length w1) (w1 ++ t)) with w1; [by destruct (String.length w1) as [|[|[]]]|].
    clear. induction w1 as [|x w1 IH]; simpl; [by rewrite substring_0_0|by f_equal]. }
  assert (forall w, String a s1 = w ++ rest -> (forall t, next_char (w ++ t) = Some (c, t)) -> w <> ""%string ->
    exists w, String a s1 = w ++ rest /\ w <> ""%string
      /\ (forall t, next_char (w ++ t) = Some (c, t))
      /\ (forall n t, utf8_fuel (S n) (w ++ t) = utf8_fuel n t)) as Hdone.
  { intros w E Hc Hne. exists w. split_and!; try done. intros n t. rewrite (Hw w) by (try done; by exists rest).
    rewrite E, (Hw w) in Hu by (try done; by exists rest). destruct w as [|b w1]; [done|].
    apply andb_true_iff in Hu as [Hu _]. by rewrite Hu. }
  assert ((byte_of a <? 128)%Z = false -> (String.length (String a s1) - String.length rest <> 1)%nat) as Hone.
  { intros Hb E. cbn [utf8_fuel] in Hu. rewrite Hn, E in Hu. simp_bool. lia. }
  unfold next_char in Hn. destruct (byte_of a <? 128) eqn:H1.
  { injection Hn as <- <-. apply (Hdone (String a "")); [done| |done]. intros t. simpl. by rewrite H1. }
  specialize (Hone eq_refl).
  destruct s1 as [|a1 s2]; [injection Hn as <- <-; exfalso; simpl in *; lia|].
  destruct (byte_of a <? 224) eqn:H2.
  { injection Hn as <- <-. apply (Hdone (String a (String a1 ""))); [done| |done]. intros t. simpl. by rewrite H1, H2. }
  destruct s2 as [|a2 s3]; [injection Hn as <- <-; exfalso|].
  { cbn [utf8_fuel] in Hu. simpl in Hu. rewrite H1, H2 in Hu. simpl in Hu. simp_bool. lia. }
  destruct (byte_of a <? 240) eqn:H3.
  { injection Hn as <- <-. apply (Hdone (String a (String a1 (String a2 "")))); [done| |done]. intros t. simpl. by rewrite H1, H2, H3. }
  destruct s3 as [|a3 s4]; [injection Hn as <- <-; exfalso|].
  { cbn [utf8_fuel] in Hu. simpl in Hu. rewrite H1, H2, H3 in Hu. simpl in Hu. simp_bool. pose proof (byte_of_bounds a). lia. }
  injection Hn as <- <-. apply (Hdone (String a (String a1 (String a2 (String a3 ""))))); [done| |done].
  intros t. simpl. by rewrite H1, H2, H3.
Qed.

Lemma utf8_fuel_any n : forall s m,
  utf8_fuel n s = true -> (String.length s <= n)%nat -> utf8_fuel m s = true.
Proof.
  induction n as [|n IH]; intros s m Hu Hl.
  { destruct s; [by destruct m|simpl in Hl; lia]. }
  destruct m as [|m]; [done|]. destruct (next_char s) as [[c rest]|] eqn:Hn; [|apply next_char_none in Hn as ->; done].
  destruct (utf8_head _ _ _ _ Hu Hn) as (w & -> & _ & _ & Hw). rewrite Hw in *. apply IH; [done|].
  pose proof (next_char_shorter _ _ _ Hn). lia.
Qed.

Lemma trim_start_utf8 fuel : forall s, is_utf8 s = true -> is_utf8 (trim_start_fuel fuel s) = true.
Proof.
  induction fuel as [|fuel IH]; intros s Hu; [done|]. cbn [trim_start_fuel].
  destruct (next_char s) as [[c rest]|] eqn:Hn; [|done]. destruct (is_whitespace c); [|done]. apply IH.
  pose proof (next_char_shorter _ _ _ Hn) as Hlt. unfold is_utf8 in *.
  destruct (String.length s) as [|n] eqn:Hl; [lia|]. eapply utf8_fuel_any; [by eapply utf8_fuel_tail|lia].
Qed.

Lemma before_app w rest : before (w ++ rest) rest = w.
Proof.
  unfold before. rewrite string_length_app. replace (String.length w + String.length rest - String.length rest)%nat
    with (String.length w) by lia.
  induction w as [|x w IH]; simpl; [apply substring_0_0|by f_equal].
Qed.

Lemma trim_end_utf8 fuel : forall s, utf8_fuel fuel s = true -> (String.length s <= fuel)%nat ->
  is_utf8 (trim_end_fuel fuel s) = true /\ (String.length (trim_end_fuel fuel s) <= String.length s)%nat.
Proof.
  induction fuel as [|fuel IH]; intros s Hu Hl; [by destruct s; [|simpl in Hl; lia]|]. cbn [trim_end_fuel].
  destruct (next_char s) as [[c rest]|] eqn:Hn; [|split; [done|simpl; lia]].
  destruct (is_whitespace c && _); [split; [done|simpl; lia]|].
  destruct (utf8_head _ _ _ _ Hu Hn) as (w & -> & Hne & _ & Hw). rewrite before_app.
  pose proof (next_char_shorter _ _ _ Hn) as Hlt. rewrite Hw in Hu. destruct (IH rest Hu ltac:(lia)) as [Hr Hle].
  split; [|rewrite !string_length_app; lia]. unfold is_utf8 in *. rewrite string_length_app.
  destruct (String.length w) as [|n] eqn:Ew; [by destruct w|]. cbn [Nat.add]. rewrite Hw.
  by eapply utf8_fuel_any.
Qed.

Lemma trim_utf8 s : is_utf8 s = true -> is_utf8 (trim s) = true.
Proof.
  intros Hu. unfold trim, trim_end. apply trim_end_utf8; [|done]. by apply trim_start_utf8.
Qed.

#[export] Hint Resolve slen_nonneg : crono.

(** ** NUL in a well-formed string *)

Lemma contains_byte_cons b a s : contains_byte b (String a s) = Ascii.eqb a b || contains_byte b s.
Proof. done. Qed.

Lemma utf8_nul fuel s c rest :
  utf8_fuel (S fuel) s = true -> next_char s = Some (c, rest) ->
  contains_byte nul s = true -> c = 0 \/ contains_byte nul rest = true.
Proof.
  destruct s as [|a s1]; [done|]. intros Hu Hn Hc.
  assert (forall x, is_continuation x = true -> Ascii.eqb x nul = false) as Hcont
    by (intros x Hx; destruct (Ascii.eqb_spec x nul) as [->|]; done).
  assert ((byte_of a <? 128) = false -> Ascii.eqb a nul = false) as Hhigh
    by (intros Hx; destruct (Ascii.eqb_spec a nul) as [->|]; done).
  cbn [utf8_fuel] in Hu. rewrite Hn in Hu. apply andb_true_iff in Hu as [Hu _].
  apply andb_true_iff in Hu as [_ Hcs]. rewrite contains_byte_cons in Hc. unfold next_char in Hn.
  destruct (byte_of a <? 128) eqn:H1.
  { injection Hn as <- <-. destruct (Ascii.eqb_spec a nul) as [->|]; [by left|by right]. }
  rewrite (Hhigh eq_refl) in Hc. simpl orb in Hc.
  destruct s1 as [|a1 s2]; [done|]. rewrite contains_byte_cons in Hc.
  assert (forall n t, substring 0 (S n) (String a1 t) = String a1 (substring 0 n t)) as Hsub by done.
  destruct (byte_of a <? 224).
  { injection Hn as _ <-. simpl in Hcs. replace (S (S (String.length s2)) - String.length s2 - 1)%nat with 1%nat in Hcs by lia.
    simpl in Hcs. rewrite substring_0_0 in Hcs. simpl in Hcs. rewrite andb_true_r in Hcs. rewrite Hcont in Hc by done. by right. }
  destruct s2 as [|a2 s3].
  { injection Hn as _ <-. simpl in Hcs. rewrite andb_true_r in Hcs. rewrite Hcont in Hc by done. by right. }
  rewrite contains_byte_cons in Hc. destruct (byte_of a <? 240).
  { injection Hn as _ <-. simpl in Hcs. replace (S (S (S (String.length s3))) - String.length s3 - 1)%nat with 2%nat in Hcs by lia.
    simpl in Hcs. rewrite substring_0_0 in Hcs. simpl in Hcs. rewrite andb_true_r in Hcs.
    apply andb_true_iff in Hcs as [Hc1 Hc2]. rewrite !Hcont in Hc by done. by right. }
  destruct s3 as [|a3 s4].
  { injection Hn as _ <-. simpl in Hcs. rewrite andb_true_r in Hcs. apply andb_true_iff in Hcs as [Hc1 Hc2].
    rewrite !Hcont in Hc by done. by right. }
  rewrite contains_byte_cons in Hc. injection Hn as _ <-. simpl in Hcs.
  replace (S (S (S (S (String.length s4)))) - String.length s4 - 1)%nat with 3%nat in Hcs by lia.
  simpl in Hcs. rewrite substring_0_0 in Hcs. simpl in Hcs. rewrite andb_true_r in Hcs.
  apply andb_true_iff in Hcs as [Hc1 [Hc2 Hc3]%andb_true_iff]. rewrite !Hcont in Hc by done. by right.
Qed.

Lemma nul_char fuel : forall pos s,
  utf8_fuel fuel s = true -> (String.length s <= fuel)%nat -> contains_byte nul s = true ->
  0 ∈ map snd (char_indices_from fuel pos s).
Proof.
  induction fuel as [|fuel IH]; intros pos s Hu Hl Hc; [destruct s; [done|simpl in Hl; lia]|].
  cbn [char_indices_from]. destruct (next_char s) as [[c rest]|] eqn:Hn; [|apply next_char_none in Hn as ->; done].
  cbn [map snd]. destruct (utf8_nul _ _ _ _ Hu Hn Hc) as [->|Hr]; [by left|]. right.
  apply IH; [by eapply utf8_fuel_tail| |done]. pose proof (next_char_shorter _ _ _ Hn). lia.
Qed.

Lemma chars_count_le s : chars_count s <= slen s.
Proof.
  unfold chars_count, chars, slen, char_indices. rewrite length_map. apply Nat2Z.inj_le.
  generalize 0 as pos, (String.length s) as fuel. intros pos fuel. revert pos s.
  induction fuel as [|fuel IH]; intros pos s; simpl; [done|]. destruct (next_char s) as [[c rest]|]; simpl; [|lia].
  specialize (IH (pos + (slen s - slen rest)) rest). lia.
Qed.

Lemma chars_count_pos s : s <> ""%string -> 1 <= chars_count s.
Proof.
  intros Hs. unfold chars_count, chars, char_indices. rewrite length_map. destruct s as [|a s]; [done|].
  cbn [String.length char_indices_from]. destruct (next_char (String a s)) as [[c rest]|] eqn:Hn; [simpl; lia|].
  by apply next_char_none in Hn.
Qed.
