(* ===== verification/Json.v ===== *)
(** * JSON values as [serde_json] represents them

    [serde_json::Value] with the default (ordered) map: an object is a
    [BTreeMap<String, Value>], here an association list in ascending byte
    order of its keys.  [Number] has [serde_json]'s three representations; a
    binary64 number is a [spec_float] of the Standard Library.  How the library prints a number
    and encodes a value is not part of the program: the two functions are
    the parameters of [Class SerdeJson]. *)

From S2P Require Import Prelude RustStr.
From Stdlib Require Import SpecFloat String.
From stdpp Require Import base numbers strings sorting gmap list.

Local Open Scope string_scope.
Local Open Scope Z_scope.

Inductive number : Type :=
| PosInt (n : N)
| NegInt (z : Z)
| Float (f : spec_float).

Inductive value : Type :=
| VNull
| VBool (b : bool)
| VNumber (n : number)
| VString (s : string)
| VArray (l : list value)
| VObject (m : list (string * value)).

(** The parts of [serde_json] the code calls and whose text is not under src/:
    [Number::to_string], [serde_json::to_vec] (the number of bytes it produces)
    and the text of the error of [from_value::<Vec<String>>]. *)
Class SerdeJson : Type := {
  number_to_string : number -> string;
  encoded_len : value -> Z;
  from_value_error : value -> string;
}.

(** ** Ordered maps *)

Fixpoint obj_get {A : Type} (k : string) (m : list (string * A)) : option A :=
  match m with
  | [] => None
  | (k', v) :: m' => if (k =? k')%string then Some v else obj_get k m'
  end.

(** [BTreeMap::insert]: keeps the keys ascending, replaces an equal key. *)
Fixpoint obj_insert {A : Type} (k : string) (v : A) (m : list (string * A)) : list (string * A) :=
  match m with
  | [] => [(k, v)]
  | (k', v') :: m' =>
      match String.compare k k' with
      | Lt => (k, v) :: m
      | Eq => (k, v) :: m'
      | Gt => (k', v') :: obj_insert k v m'
      end
  end.

(** [Value]'s [PartialEq]: numbers are equal only in the same representation. *)
Definition number_eqb (a b : number) : bool :=
  match a, b with
  | PosInt x, PosInt y => (x =? y)%N
  | NegInt x, NegInt y => (x =? y)%Z
  | Float x, Float y => SFeqb x y
  | _, _ => false
  end.

Fixpoint value_eqb (a b : value) {struct a} : bool :=
  match a, b with
  | VNull, VNull => true
  | VBool x, VBool y => Bool.eqb x y
  | VNumber x, VNumber y => number_eqb x y
  | VString x, VString y => (x =? y)%string
  | VArray x, VArray y =>
      (fix go (x y : list value) : bool :=
         match x, y with
         | [], [] => true
         | v :: x', w :: y' => value_eqb v w && go x' y'
         | _, _ => false
         end) x y
  | VObject x, VObject y =>
      (fix go (x y : list (string * value)) : bool :=
         match x, y with
         | [], [] => true
         | (k, v) :: x', (k', w) :: y' => (k =? k')%string && value_eqb v w && go x' y'
         | _, _ => false
         end) x y
  | _, _ => false
  end.

(** [json!] of an integer. *)
Definition json_int (z : Z) : value :=
  VNumber (if 0 <=? z then PosInt (Z.to_N z) else NegInt z).

Definition json_opt_string (o : option string) : value :=
  match o with Some s => VString s | None => VNull end.

(** [serde_json::from_value::<Vec<String>>]. *)
Fixpoint strings_of_values (l : list value) : option (list string) :=
  match l with
  | [] => Some []
  | VString s :: l' => option_map (cons s) (strings_of_values l')
  | _ :: _ => None
  end.

Definition strings_of_value (v : value) : option (list string) :=
  match v with
  | VArray l => strings_of_values l
  | _ => None
  end.

(** ** Induction that reaches the values nested in arrays and objects *)

Section ValueInd.
Variable P : value -> Prop.
Hypothesis Hnull : P VNull.
Hypothesis Hbool : forall b, P (VBool b).
Hypothesis Hnumber : forall n, P (VNumber n).
Hypothesis Hstring : forall s, P (VString s).
Hypothesis Harray : forall l, Forall P l -> P (VArray l).
Hypothesis Hobject : forall m, Forall (fun kv => P kv.2) m -> P (VObject m).

Fixpoint value_nested_ind (v : value) : P v :=
  match v with
  | VNull => Hnull
  | VBool b => Hbool b
  | VNumber n => Hnumber n
  | VString s => Hstring s
  | VArray l =>
      Harray l ((fix go l : Forall P l := match l with
        | [] => Forall_nil_2 P
        | x :: l' => Forall_cons_2 P x l' (value_nested_ind x) (go l')
        end) l)
  | VObject m =>
      Hobject m ((fix go m : Forall (fun kv => P kv.2) m := match m with
        | [] => Forall_nil_2 (fun kv => P kv.2)
        | kv :: m' => Forall_cons_2 (fun kv => P kv.2) kv m' (value_nested_ind kv.2) (go m')
        end) m)
  end.
End ValueInd.

(** ** Lemmas on ordered maps *)

Lemma string_eqb_compare a b : (a =? b)%string = true <-> String.compare a b = Eq.
Proof.
  split.
  - intros ->%String.eqb_eq. induction b as [|c b IH]; simpl; [done|].
    unfold Ascii.compare. by rewrite N.compare_refl.
  - intros H%String.compare_eq_iff. by apply String.eqb_eq.
Qed.

Lemma compare_refl a : String.compare a a = Eq.
Proof. apply string_eqb_compare, String.eqb_refl. Qed.

Lemma obj_get_insert {A} k k' (v : A) m :
  obj_get k (obj_insert k' v m) = if (k =? k')%string then Some v else obj_get k m.
Proof.
  induction m as [|[k1 v1] m IH]; simpl; [done|].
  destruct (String.compare k' k1) eqn:Hc; simpl.
  - apply String.compare_eq_iff in Hc as ->. by destruct (k =? k1)%string.
  - done.
  - rewrite IH. destruct (k =? k1)%string eqn:H1; [|done].
    apply String.eqb_eq in H1 as ->. destruct (k1 =? k')%string eqn:H2; [|done].
    apply String.eqb_eq in H2 as ->. by rewrite compare_refl in Hc.
Qed.

Lemma obj_get_elem {A} k (v : A) m : obj_get k m = Some v -> (k, v) ∈ m.
Proof.
  induction m as [|[k' v'] m IH]; simpl; [done|].
  destruct (k =? k')%string eqn:He.
  - apply String.eqb_eq in He as ->. intros [= ->]. left.
  - intros H. right. by apply IH.
Qed.

Lemma elem_of_obj_insert {A} k (v : A) m kv :
  kv ∈ obj_insert k v m -> kv = (k, v) \/ kv ∈ m.
Proof.
  induction m as [|[k' v'] m IH]; simpl.
  - rewrite list_elem_of_singleton. auto.
  - destruct (String.compare k k'); rewrite !elem_of_cons; naive_solver.
Qed.
