(* ===== verification/Inputs.v ===== *)
(** * Execution inputs and argument templates (crates/execution/src/lib.rs)

    Validation of input objects, the layered merge
    (Job < Target Set < Target < invocation), and the one-pass template
    parser that renders [{{ path }}] placeholders into argv items.  A
    template message is represented by the constructor of [template_fault]
    it is built from, and [display_input_error] gives the texts. *)

From S2P Require Import Prelude RustStr Json.
From Stdlib Require Import Ascii String.
From stdpp Require Import base numbers strings sorting gmap list.

Local Open Scope string_scope.
Local Open Scope Z_scope.

Definition MAX_INPUT_BYTES : Z := 65536.

(** The messages [InvalidTemplate] is built with. *)
Inductive template_fault : Type :=
| PlaceholderNotClosed
| PathNotDotted (path : string)
| LoopExhausted.

Inductive InputError : Type :=
| NotObject
| TooLarge
| InvalidKey (key : string)
| NulCharacter
| InvalidTemplate (fault : template_fault)
| MissingVariable (path : string)
| NonScalarVariable (path : string).

(** [{:?}] of a [str] and of a [char]: the escapes follow the Unicode tables of the Standard Library. *)
Class RustFmt : Type := { debug_str : string -> string; debug_char : Z -> string }.

Definition display_template_fault `{RustFmt} (fault : template_fault) : string :=
  match fault with
  | PlaceholderNotClosed => "template placeholder is not closed"
  | PathNotDotted path =>
      "template path " ++ debug_str path ++ " must contain dot-separated input keys"
  | LoopExhausted => ""
  end.

Definition display_input_error `{RustFmt} (error : InputError) : string :=
  match error with
  | NotObject => "inputs must be a JSON object"
  | TooLarge => "inputs must not exceed 65536 encoded bytes"
  | InvalidKey key =>
      "input key " ++ debug_str key
      ++ " must start with a lowercase letter or '_' and contain only lowercase letters, numbers, '_' and '-'"
  | NulCharacter => "input string values must not contain NUL characters"
  | InvalidTemplate fault => display_template_fault fault
  | MissingVariable path => "template variable " ++ debug_str path ++ " is not defined"
  | NonScalarVariable path =>
      "template variable " ++ debug_str path ++ " must resolve to a string, number, or boolean"
  end.

(** ** Validation *)

Definition valid_segment (segment : string) : bool :=
  match chars segment with
  | [] => false
  | first :: rest =>
      (is_ascii_lowercase first || (first =? 95))
      && forallb (fun c => is_ascii_lowercase c || is_ascii_digit c || (c =? 95) || (c =? 45)) rest
  end.

Fixpoint validate_entries (v : value) : result unit InputError :=
  match v with
  | VObject values =>
      (fix go (m : list (string * value)) : result unit InputError :=
         match m with
         | [] => Ok ()
         | (key, nested) :: m' =>
             if negb (valid_segment key) then Err (InvalidKey key)
             else let? _ := validate_entries nested in go m'
         end) values
  | VArray values =>
      (fix go (l : list value) : result unit InputError :=
         match l with
         | [] => Ok ()
         | nested :: l' => let? _ := validate_entries nested in go l'
         end) values
  | VString text => if contains_byte nul text then Err NulCharacter else Ok ()
  | VNull | VBool _ | VNumber _ => Ok ()
  end.

Definition is_object (v : value) : bool :=
  match v with VObject _ => true | _ => false end.

Section WithSerde.
Context {SJ : SerdeJson}.

Definition validate_inputs (v : value) : result unit InputError :=
  if negb (is_object v) then Err NotObject
  else
    let? _ := validate_entries v in
    if encoded_len v >? MAX_INPUT_BYTES then Err TooLarge else Ok ().

(** ** Merging *)

Fixpoint merge_value (base overlay : value) {struct overlay} : value :=
  match base, overlay with
  | VObject base_values, VObject overlay_values =>
      VObject
        ((fix go (om acc : list (string * value)) : list (string * value) :=
            match om with
            | [] => acc
            | (key, v) :: om' =>
                go om'
                  (match obj_get key acc with
                   | Some existing => obj_insert key (merge_value existing v) acc
                   | None => obj_insert key v acc
                   end)
            end) overlay_values base_values)
  | _, _ => overlay
  end.

Fixpoint merge_layers (merged : value) (layers : list value) : result value InputError :=
  match layers with
  | [] => Ok merged
  | layer :: rest =>
      let? _ := validate_inputs layer in
      merge_layers (merge_value merged layer) rest
  end.

Definition merge_inputs (layers : list value) : result value InputError :=
  let? merged := merge_layers (VObject []) layers in
  let? _ := validate_inputs merged in
  Ok merged.

(** ** Templates *)

Definition dot : ascii := "."%char.
Definition backslash : ascii := "092"%char.

Definition validate_path (path : string) : result unit InputError :=
  if (path =? "")%string || negb (forallb valid_segment (split_on dot path))
  then Err (InvalidTemplate (PathNotDotted path))
  else Ok ().

(** [value.as_object().and_then(|o| o.get(segment))] *)
Definition get_member (v : value) (segment : string) : option value :=
  match v with
  | VObject m => obj_get segment m
  | _ => None
  end.

Fixpoint walk (v : value) (segments : list string) : option value :=
  match segments with
  | [] => Some v
  | segment :: rest =>
      match get_member v segment with
      | Some v' => walk v' rest
      | None => None
      end
  end.

Definition bool_to_string (b : bool) : string := if b then "true" else "false".

Definition render_path (inputs : value) (path : string) : result string InputError :=
  match walk inputs (split_on dot path) with
  | None => Err (MissingVariable path)
  | Some (VString s) => Ok s
  | Some (VNumber n) => Ok (number_to_string n)
  | Some (VBool b) => Ok (bool_to_string b)
  | Some VNull | Some (VArray _) | Some (VObject _) => Err (NonScalarVariable path)
  end.

(** One iteration of the [while let Some(open) = remaining.find] loop per
    unit of fuel; [LoopExhausted] is never produced with [parse_template]'s fuel. *)
Fixpoint template_loop (fuel : nat) (inputs : option value) (output remaining : string)
  : result string InputError :=
  match fuel with
  | O => Err (InvalidTemplate LoopExhausted)
  | S fuel' =>
      match split_once "{{" remaining with
      | None => Ok (output ++ remaining)
      | Some (prefix, after_open) =>
          match strip_last backslash prefix with
          | Some literal_prefix =>
              template_loop fuel' inputs (output ++ literal_prefix ++ "{{") after_open
          | None =>
              let? (path_text, rest) :=
                ok_or (split_once "}}" after_open) (InvalidTemplate PlaceholderNotClosed) in
              let path := trim path_text in
              let? _ := validate_path path in
              let? text :=
                match inputs with
                | Some values => render_path values path
                | None => Ok ("{{" ++ path ++ "}}")
                end in
              template_loop fuel' inputs (output ++ prefix ++ text) rest
          end
      end
  end.

Definition parse_template (template : string) (inputs : option value) : result string InputError :=
  template_loop (S (String.length template)) inputs "" template.

Definition validate_argument_templates (arguments : list string) : result unit InputError :=
  let? _ := collect (fun a => parse_template a None) arguments in Ok ().

Definition render_arguments (arguments : list string) (inputs : value)
  : result (list string) InputError :=
  let? _ := validate_inputs inputs in
  collect (fun a => parse_template a (Some inputs)) arguments.

(** ** Renderable leaf paths *)

Definition is_scalar (v : value) : bool :=
  match v with VString _ | VNumber _ | VBool _ => true | _ => false end.

Fixpoint collect_scalar_paths (v : value) (prefix : string) : list string :=
  match v with
  | VObject values =>
      (fix go (m : list (string * value)) : list string :=
         match m with
         | [] => []
         | (key, nested) :: m' =>
             let path := if (prefix =? "")%string then key else prefix ++ "." ++ key in
             ((if is_scalar nested then [path] else collect_scalar_paths nested path) ++ go m')%list
         end) values
  | _ => []
  end.

Definition scalar_paths (inputs : value) : list string := collect_scalar_paths inputs "".

(** ** Specification vocabulary *)

(** The keys of a [BTreeMap] are distinct, at every level of a value. *)
Fixpoint wf_value (v : value) : Prop :=
  match v with
  | VObject m =>
      NoDup (map fst m)
      /\ (fix go (m : list (string * value)) : Prop :=
            match m with
            | [] => True
            | (_, v') :: m' => wf_value v' /\ go m'
            end) m
  | VArray l =>
      (fix go (l : list value) : Prop :=
         match l with
         | [] => True
         | v' :: l' => wf_value v' /\ go l'
         end) l
  | _ => True
  end.

(** A layer touches a path when it defines it or puts a non-object on the way to it. *)
Fixpoint touches (v : value) (path : list string) : bool :=
  match v, path with
  | VObject m, segment :: path' =>
      match obj_get segment m with
      | None => false
      | Some v' => touches v' path'
      end
  | _, _ => true
  end.

(** Templates in two phases: the pieces first, then their text. *)
Inductive piece : Type :=
| Literal (text : string)
| Variable_ (path : string).

Fixpoint template_pieces (fuel : nat) (remaining : string) : option (list piece) :=
  match fuel with
  | O => None
  | S fuel' =>
      match split_once "{{" remaining with
      | None => Some [Literal remaining]
      | Some (prefix, after_open) =>
          match strip_last backslash prefix with
          | Some literal_prefix =>
              ps ← template_pieces fuel' after_open;
              Some (Literal literal_prefix :: Literal "{{" :: ps)
          | None =>
              '(path_text, rest) ← split_once "}}" after_open;
              if is_ok (validate_path (trim path_text)) then
                ps ← template_pieces fuel' rest;
                Some (Literal prefix :: Variable_ (trim path_text) :: ps)
              else None
          end
      end
  end.

Definition pieces (template : string) : option (list piece) :=
  template_pieces (S (String.length template)) template.

Definition render_piece (inputs : value) (p : piece) : result string InputError :=
  match p with
  | Literal text => Ok text
  | Variable_ path => render_path inputs path
  end.

Definition string_concat (l : list string) : string := foldr String.append "" l.

(** ** Lemmas on the merge *)

(** The loop of [merge_value] over the overlay's entries. *)
Definition merge_entry (acc : list (string * value)) (kv : string * value) : list (string * value) :=
  obj_insert kv.1 (match obj_get kv.1 acc with
                   | Some existing => merge_value existing kv.2
                   | None => kv.2
                   end) acc.

Lemma merge_objects b o :
  merge_value (VObject b) (VObject o) = VObject (fold_left merge_entry o b).
Proof.
  simpl. f_equal. revert b; induction o as [|[k v] o IH]; intros b; simpl; [done|].
  rewrite IH. f_equal. unfold merge_entry; simpl. by destruct (obj_get k b).
Qed.

Lemma merge_not_objects b o :
  is_object b && is_object o = false -> merge_value b o = o.
Proof. by destruct b, o. Qed.

Lemma obj_get_none {A} k (m : list (string * A)) : k ∉ map fst m -> obj_get k m = None.
Proof.
  induction m as [|[k' v] m IH]; simpl; [done|]. rewrite not_elem_of_cons.
  intros [H1 H2]. apply String.eqb_neq in H1 as ->. auto.
Qed.

Lemma obj_get_fold k o b :
  NoDup (map fst o) ->
  obj_get k (fold_left merge_entry o b) =
  match obj_get k o, obj_get k b with
  | None, r => r
  | Some v, Some e => Some (merge_value e v)
  | Some v, None => Some v
  end.
Proof.
  revert b; induction o as [|[k' v] o IH]; intros b Hnd; simpl; [done|].
  inversion Hnd as [|?? Hk Hnd']; subst. rewrite IH by done.
  unfold merge_entry; simpl. rewrite obj_get_insert.
  destruct (k =? k')%string eqn:He; [|done].
  apply String.eqb_eq in He as ->. rewrite obj_get_none by done.
  by destruct (obj_get k' b).
Qed.

Lemma wf_object_inv m :
  wf_value (VObject m) -> NoDup (map fst m) /\ Forall (fun kv => wf_value kv.2) m.
Proof.
  intros [Hnd H]. split; [done|]. clear Hnd.
  induction m as [|[k v] m IH]; [constructor|]. destruct H as [Hv H].
  constructor; [done|by apply IH].
Qed.

Lemma wf_object_get m k v : wf_value (VObject m) -> obj_get k m = Some v -> wf_value v.
Proof.
  intros Hwf Hg. apply wf_object_inv in Hwf as [_ H]. apply obj_get_elem in Hg.
  rewrite Forall_forall in H. by apply (H (k, v)).
Qed.

Lemma untouched_walk o p : touches o p = false -> walk o p = None.
Proof.
  revert o; induction p as [|s p IH]; intros o; destruct o; simpl; try done.
  destruct (obj_get s m); [apply IH|done].
Qed.

Lemma get_member_merge b o s :
  wf_value o -> is_object b && is_object o = true ->
  get_member (merge_value b o) s =
  match get_member o s, get_member b s with
  | None, r => r
  | Some v, Some e => Some (merge_value e v)
  | Some v, None => Some v
  end.
Proof.
  destruct b as [| | | | |b], o as [| | | | |o]; try done. intros [Hnd _] _.
  rewrite merge_objects. simpl. by apply obj_get_fold.
Qed.

Lemma touches_cons o s p :
  touches o (s :: p) = match get_member o s with Some v => touches v p | None => negb (is_object o) end.
Proof. by destruct o. Qed.

Lemma get_member_wf o s v : wf_value o -> get_member o s = Some v -> wf_value v.
Proof. destruct o; try done. apply wf_object_get. Qed.

Lemma merge_keeps p : forall b o,
  wf_value o -> touches o p = false -> walk (merge_value b o) p = walk b p.
Proof.
  induction p as [|s p IH]; intros b o Hwf; [by destruct o|].
  rewrite touches_cons. intros Ht.
  destruct (is_object o) eqn:Ho; [|destruct o; done].
  destruct (is_object b) eqn:Hb.
  - simpl. rewrite get_member_merge by (done || by rewrite Hb).
    destruct (get_member o s) as [v|] eqn:Hg; [|done].
    destruct (get_member b s) as [e|]; [|by apply untouched_walk].
    apply IH; [by eapply get_member_wf|done].
  - rewrite merge_not_objects by (by rewrite Hb). simpl.
    replace (get_member b s) with (@None value) by (by destruct b).
    destruct (get_member o s); [by apply untouched_walk|done].
Qed.

Lemma merge_overrides p : forall b o v,
  wf_value o -> is_object v = false -> touches o p = true ->
  walk (merge_value b o) p = Some v <-> walk o p = Some v.
Proof.
  induction p as [|s p IH]; intros b o v Hwf Hv Ht;
    (destruct (is_object b && is_object o) eqn:Hbo; [|by rewrite merge_not_objects]).
  - destruct b, o; try done. rewrite merge_objects. simpl. split; intros [= <-]; done.
  - simpl. rewrite get_member_merge by done. rewrite touches_cons in Ht. simp_bool.
    destruct (get_member o s) as [w|] eqn:Hg; [|by destruct o].
    destruct (get_member b s) as [e|]; [|done].
    apply IH; [by eapply get_member_wf|done|done].
Qed.

Lemma merge_layers_ok layers : forall b m,
  merge_layers b layers = Ok m -> m = fold_left merge_value layers b.
Proof.
  induction layers as [|l ls IH]; intros b m; simpl; [by intros [= ->]|].
  intros (u & _ & H)%result_bind_ok. by apply IH.
Qed.

Lemma fold_merge_walk p v layers : forall b,
  Forall wf_value layers -> is_object v = false ->
  walk (fold_left merge_value layers b) p = Some v <->
  (walk b p = Some v /\ Forall (fun l => touches l p = false) layers) \/
  exists pre l post, layers = (pre ++ l :: post)%list /\ walk l p = Some v /\ touches l p = true
    /\ Forall (fun l => touches l p = false) post.
Proof.
  induction layers as [|l ls IH]; intros b Hwf Hv; simpl.
  { split; [auto|]. intros [[? _]|(pre & l & post & H & _)]; [done|by destruct pre]. }
  inversion Hwf; subst. rewrite IH by done. clear IH.
  destruct (touches l p) eqn:Ht.
  - rewrite merge_overrides by done. split.
    + intros [[H Hall]|(pre & l' & post & -> & H)]; right.
      * exists [], l, ls. auto.
      * exists (l :: pre), l', post. naive_solver.
    + intros [[_ H]|(pre & l' & post & Heq & H)]; [inversion H; congruence|].
      destruct pre as [|l0 pre]; simplify_eq/=; [left; naive_solver|].
      right. exists pre, l', post. naive_solver.
  - rewrite merge_keeps by done. split.
    + intros [[H Hall]|(pre & l' & post & -> & H)]; [left; auto|].
      right. exists (l :: pre), l', post. naive_solver.
    + intros [[H Hall]|(pre & l' & post & Heq & H)]; [inversion Hall; auto|].
      destruct pre as [|l0 pre]; simplify_eq/=; [destruct H as (_ & ? & _); congruence|].
      right. exists pre, l', post. naive_solver.
Qed.

Lemma walk_touches v p w : walk v p = Some w -> touches v p = true.
Proof.
  revert v; induction p as [|s p IH]; intros v; destruct v; simpl; try done.
  destruct (obj_get s m); [apply IH|done].
Qed.

(** The value at a scalar or array leaf of the merged inputs is the one of
    the most specific layer that says anything about the leaf's path. *)
Theorem merge_inputs_leaf layers m p v :
  Forall wf_value layers -> merge_inputs layers = Ok m -> p <> [] -> is_object v = false ->
  walk m p = Some v <->
  exists pre l post, layers = (pre ++ l :: post)%list /\ walk l p = Some v
    /\ Forall (fun l' => touches l' p = false) post.
Proof.
  intros Hwf (m' & Hm & (? & _ & [= ->])%result_bind_ok)%result_bind_ok Hp Hv.
  apply merge_layers_ok in Hm as ->. rewrite fold_merge_walk by done. split.
  - intros [[H _]|(pre & l & post & H)]; [by destruct p|]. exists pre, l, post. naive_solver.
  - intros (pre & l & post & -> & Hw & Hall). right. exists pre, l, post.
    eauto using walk_touches.
Qed.

(** ** Validation is preserved by the merge *)

Lemma validate_object m :
  validate_entries (VObject m) = Ok () <->
  Forall (fun kv => valid_segment kv.1 = true /\ validate_entries kv.2 = Ok ()) m.
Proof.
  induction m as [|[k v] m IH]; [split; [constructor|done]|].
  rewrite Forall_cons, <- IH. simpl.
  destruct (valid_segment k); simpl; [|naive_solver].
  destruct (validate_entries v) as [[]|e]; simpl; naive_solver.
Qed.

Lemma merge_entry_valid acc kv :
  (forall b, validate_entries b = Ok () -> validate_entries (merge_value b kv.2) = Ok ()) ->
  valid_segment kv.1 = true -> validate_entries kv.2 = Ok () ->
  validate_entries (VObject acc) = Ok () -> validate_entries (VObject (merge_entry acc kv)) = Ok ().
Proof.
  intros Hm Hk Hv Hacc%validate_object. apply validate_object, Forall_forall.
  rewrite Forall_forall in Hacc.
  intros kv' [->|Hin]%elem_of_obj_insert; [|by apply Hacc]. split; [done|]. simpl.
  destruct (obj_get kv.1 acc) as [e|] eqn:Hg; [|done].
  apply Hm. apply obj_get_elem in Hg. by apply (Hacc (kv.1, e)).
Qed.

Lemma merge_valid o b :
  validate_entries o = Ok () -> validate_entries b = Ok () ->
  validate_entries (merge_value b o) = Ok ().
Proof.
  revert b. induction o as [| | | | |m IH] using value_nested_ind; intros base Ho Hb;
    try (by destruct base).
  destruct base as [| | | | |acc]; try done. rewrite merge_objects.
  apply validate_object in Ho. revert acc Hb.
  induction m as [|kv m IHm]; intros acc Hacc; [done|].
  apply Forall_cons in IH as [IHkv IH]. apply Forall_cons in Ho as [[Hk Hv] Ho].
  apply IHm; [done..|]. by apply merge_entry_valid; auto.
Qed.

Lemma validate_inputs_ok v :
  validate_inputs v = Ok () <->
  is_object v = true /\ validate_entries v = Ok () /\ encoded_len v <= MAX_INPUT_BYTES.
Proof.
  unfold validate_inputs. destruct (is_object v); simpl; [|naive_solver].
  destruct (validate_entries v) as [[]|e]; simpl; [|naive_solver].
  rewrite Z.gtb_ltb. destruct (MAX_INPUT_BYTES <? encoded_len v) eqn:He; simp_bool; naive_solver lia.
Qed.

Lemma merge_is_object b o :
  is_object b = true -> is_object o = true -> is_object (merge_value b o) = true.
Proof. by destruct b, o. Qed.

Lemma merge_layers_valid layers : forall b,
  is_object b = true -> validate_entries b = Ok () ->
  Forall (fun l => validate_inputs l = Ok ()) layers ->
  let m := fold_left merge_value layers b in
  merge_layers b layers = Ok m /\ is_object m = true /\ validate_entries m = Ok ().
Proof.
  induction layers as [|l ls IH]; intros b Hb Hv Hall; simpl; [done|].
  apply Forall_cons in Hall as [Hl Hall]. rewrite Hl. simpl.
  apply validate_inputs_ok in Hl as (Ho & He & _).
  apply IH; eauto using merge_is_object, merge_valid.
Qed.

(** Merging layers that were each accepted fails in one way only: the merged
    object is too large.  Otherwise it is the fold of the layers. *)
Theorem merge_inputs_valid_layers layers :
  Forall (fun l => validate_inputs l = Ok ()) layers ->
  merge_inputs layers =
  let m := fold_left merge_value layers (VObject []) in
  if encoded_len m >? MAX_INPUT_BYTES then Err TooLarge else Ok m.
Proof.
  intros Hall. unfold merge_inputs.
  destruct (merge_layers_valid layers (VObject []) eq_refl eq_refl Hall) as (-> & Ho & Hv).
  simpl. unfold validate_inputs. rewrite Ho, Hv. simpl.
  by destruct (encoded_len _ >? MAX_INPUT_BYTES).
Qed.

(** ** Lemmas on templates *)

Lemma template_loop_pieces inputs fuel : forall output remaining ps,
  template_pieces fuel remaining = Some ps ->
  template_loop fuel (Some inputs) output remaining =
  (let? texts := collect (render_piece inputs) ps in Ok (output ++ string_concat texts)).
Proof.
  induction fuel as [|fuel IH]; intros output remaining ps; cbn [template_pieces template_loop]; [done|].
  destruct (split_once "{{" remaining) as [[prefix after_open]|].
  - destruct (strip_last backslash prefix) as [lp|].
    + intros (ps' & Hps & [= <-])%bind_Some. rewrite (IH _ _ _ Hps). simpl.
      destruct (collect (render_piece inputs) ps') as [texts|e]; simpl; [|done].
      by rewrite <- !string_app_assoc.
    + intros ([path_text rest] & -> & H)%bind_Some. simpl.
      destruct (validate_path (trim path_text)) as [[]|e]; simpl in H |- *; [|done].
      apply bind_Some in H as (ps' & Hps & [= <-]). simpl.
      destruct (render_path inputs (trim path_text)) as [text|e]; simpl; [|done].
      rewrite (IH _ _ _ Hps).
      destruct (collect (render_piece inputs) ps') as [texts|e]; simpl; [|done].
      by rewrite <- !string_app_assoc.
  - intros [= <-]. simpl. by rewrite string_app_nil_r.
Qed.

Lemma template_loop_checks fuel : forall output remaining,
  is_ok (template_loop fuel None output remaining) = true <->
  is_Some (template_pieces fuel remaining).
Proof.
  induction fuel as [|fuel IH]; intros output remaining; cbn [template_pieces template_loop].
  { split; [done|by intros [??]]. }
  destruct (split_once "{{" remaining) as [[prefix after_open]|]; [|split; [eauto|done]].
  destruct (strip_last backslash prefix) as [lp|].
  - rewrite IH. destruct (template_pieces fuel after_open); simpl; rewrite ?is_Some_alt; done.
  - destruct (split_once "}}" after_open) as [[path_text rest]|]; simpl; [|split; [done|by intros [??]]].
    destruct (validate_path (trim path_text)) as [[]|e]; simpl; [|split; [done|by intros [??]]].
    rewrite IH. destruct (template_pieces fuel rest); simpl; rewrite ?is_Some_alt; done.
Qed.

Lemma template_loop_fuel inputs fuel : forall output remaining,
  (String.length remaining < fuel)%nat ->
  template_loop fuel inputs output remaining <> Err (InvalidTemplate LoopExhausted).
Proof.
  induction fuel as [|fuel IH]; intros output remaining Hlt; [lia|]. cbn [template_loop].
  destruct (split_once "{{" remaining) as [[prefix after_open]|] eqn:Ho; [|done].
  apply split_once_length in Ho. simpl in Ho.
  destruct (strip_last backslash prefix) as [lp|]; [apply IH; lia|].
  destruct (split_once "}}" after_open) as [[path_text rest]|] eqn:Hc; simpl; [|done].
  apply split_once_length in Hc. simpl in Hc.
  destruct (validate_path (trim path_text)) as [[]|e] eqn:Hp; simpl.
  - destruct inputs as [values|]; simpl; [|apply IH; lia].
    destruct (render_path values (trim path_text)) as [text|e] eqn:Hr; simpl; [apply IH; lia|].
    unfold render_path in Hr. repeat case_match; naive_solver.
  - unfold validate_path in Hp. case_match; naive_solver.
Qed.

Lemma render_path_errors inputs path e :
  render_path inputs path = Err e -> e = MissingVariable path \/ e = NonScalarVariable path.
Proof. unfold render_path. intros H. repeat case_match; naive_solver. Qed.

Lemma collect_err {A B E} (f : A -> result B E) l e :
  collect f l = Err e -> exists x, x ∈ l /\ f x = Err e.
Proof.
  induction l as [|x l IH]; simpl; [done|].
  destruct (f x) as [y|e'] eqn:Hf; simpl.
  - destruct (collect f l) as [ys|e']; simpl; [done|]. intros [= ->].
    destruct IH as (x' & ? & ?); [done|]. exists x'. rewrite elem_of_cons. auto.
  - intros [= ->]. exists x. rewrite elem_of_cons. auto.
Qed.

(** The one-pass renderer agrees with splitting the template first and
    rendering its pieces; a template is accepted when its pieces exist, and
    the loop always reaches a result. *)
Theorem parse_template_two_phase template inputs :
  match pieces template with
  | Some ps =>
      is_ok (parse_template template None) = true
      /\ parse_template template (Some inputs) =
         (let? texts := collect (render_piece inputs) ps in Ok (string_concat texts))
  | None => is_ok (parse_template template None) = false
  end
  /\ parse_template template (Some inputs) <> Err (InvalidTemplate LoopExhausted).
Proof.
  split; [|apply template_loop_fuel; lia].
  unfold pieces, parse_template.
  pose proof (template_loop_checks (S (String.length template)) "" template) as Hc.
  destruct (template_pieces _ template) as [ps|] eqn:Hp.
  - split; [apply Hc; eauto|]. by rewrite (template_loop_pieces _ _ _ _ _ Hp).
  - destruct (is_ok _); [|done]. destruct (proj1 Hc eq_refl) as [? ?]. done.
Qed.

(** Arguments whose templates were accepted when the Job was stored can only
    fail to render on a variable that is missing or not a scalar, and a
    rendering keeps the number of argv items. *)
Theorem accepted_templates_render arguments inputs :
  validate_argument_templates arguments = Ok () -> validate_inputs inputs = Ok () ->
  (exists argv, render_arguments arguments inputs = Ok argv /\ length argv = length arguments)
  \/ exists path, render_arguments arguments inputs = Err (MissingVariable path)
              \/ render_arguments arguments inputs = Err (NonScalarVariable path).
Proof.
  unfold validate_argument_templates, render_arguments.
  intros (checked & Hc & _)%result_bind_ok ->. simpl.
  destruct (collect (fun a => parse_template a (Some inputs)) arguments) as [argv|e] eqn:Hr; [left; eauto using collect_length|right].
  apply collect_err in Hr as (t & Hin & Hr). apply collect_ok in Hc.
  destruct (list_elem_of_lookup_1 _ _ Hin) as [i Hi].
  destruct (Forall2_lookup_l _ _ _ _ _ Hc Hi) as (out & _ & Hok).
  assert (is_Some (pieces t)) as [ps Hps].
  { apply (template_loop_checks _ ""). unfold parse_template in Hok. by rewrite Hok. }
  unfold parse_template in Hr. rewrite (template_loop_pieces _ _ _ _ _ Hps) in Hr.
  destruct (collect (render_piece inputs) ps) as [texts|e'] eqn:Hcol; simpl in Hr; [done|].
  injection Hr as ->. apply collect_err in Hcol as ([text|path] & _ & Hp); [done|].
  exists path. destruct (render_path_errors _ _ _ Hp) as [-> | ->]; auto.
Qed.

End WithSerde.

(** ** Witnesses *)

#[local] Instance serde_plain : SerdeJson := {|
  number_to_string := fun _ => "0"%string;
  encoded_len := fun _ => 2;
  from_value_error := fun _ => "invalid type"%string;
|}.

Definition job_layer : value := VObject [("db"%string, VObject [("host"%string, VString "a"); ("port"%string, VString "1")])].
Definition target_layer : value := VObject [("db"%string, VObject [("host"%string, VString "b")])].

(** The more specific layer wins on its own leaf. *)
Lemma merge_inputs_leaf_witness :
  exists m, merge_inputs [job_layer; target_layer] = Ok m
    /\ walk m ["db"%string; "host"%string] = Some (VString "b").
Proof.
  destruct (merge_inputs [job_layer; target_layer]) as [m|] eqn:Hm; [|discriminate].
  exists m. split; [reflexivity|].
  apply (merge_inputs_leaf [job_layer; target_layer] m ["db"%string; "host"%string] (VString "b")); try done.
  - repeat constructor; simpl; set_solver.
  - exists [job_layer], target_layer, []. by repeat split.
Defined.

Lemma merge_inputs_valid_layers_witness :
  merge_inputs [job_layer; target_layer] = Ok (merge_value (merge_value (VObject []) job_layer) target_layer).
Proof. rewrite merge_inputs_valid_layers; [reflexivity|by repeat constructor]. Defined.

Lemma accepted_templates_render_witness :
  (exists argv, render_arguments ["--host={{ db.host }}"%string] job_layer = Ok argv /\ length argv = 1%nat)
  \/ exists path, render_arguments ["--host={{ db.host }}"%string] job_layer = Err (MissingVariable path)
              \/ render_arguments ["--host={{ db.host }}"%string] job_layer = Err (NonScalarVariable path).
Proof. apply (accepted_templates_render ["--host={{ db.host }}"%string] job_layer); vm_compute; reflexivity. Defined.
