(* ===== verification/Names.v ===== *)
(** * Canonical names

    The shared DNS-1123 label rule ([validate_resource_name] in
    crates/api/src/lib.rs) and the three validated name types of
    services/server/src/domain/name.rs, with [Namespace::qualify] and
    [TargetSet::add_target], the domain checks built on them. *)

From S2P Require Import Prelude RustStr.
From Stdlib Require Import Ascii String.
From stdpp Require Import base numbers strings sorting gmap list.

Local Open Scope Z_scope.

Definition RESOURCE_NAME_MAX_LENGTH : Z := 63.

Inductive ResourceNameError : Type :=
| Empty
| InvalidBoundary
| InvalidCharacter (position character : Z)
| TooLong.

Definition is_name_boundary (character : Z) : bool :=
  is_ascii_lowercase character || is_ascii_digit character.

Definition is_name_character (character : Z) : bool :=
  is_name_boundary character || (character =? 45).

(** The loop over the characters after the first one; [last] is its local variable. *)
Fixpoint name_loop (last : Z) (characters : list (Z * Z)) : result Z ResourceNameError :=
  match characters with
  | [] => Ok last
  | (position, character) :: rest =>
      if negb (is_name_character character) then Err (InvalidCharacter position character)
      else name_loop character rest
  end.

Definition validate_resource_name (value : string) : result unit ResourceNameError :=
  if slen value >? RESOURCE_NAME_MAX_LENGTH then Err TooLong
  else match char_indices value with
  | [] => Err Empty
  | (_, first) :: characters =>
      if negb (is_name_boundary first) then Err InvalidBoundary
      else
        let? last := name_loop first characters in
        if negb (is_name_boundary last) then Err InvalidBoundary else Ok ()
  end.

(** ** The validated name types *)

Inductive NamespaceName : Type := MkNamespaceName (value : string).
Inductive ResourceName : Type := MkResourceName (value : string).
Inductive QueueName : Type := MkQueueName (value : string).

#[global] Instance namespace_name_eq : EqDecision NamespaceName.
Proof. solve_decision. Defined.
#[global] Instance resource_name_eq : EqDecision ResourceName.
Proof. solve_decision. Defined.
#[global] Instance queue_name_eq : EqDecision QueueName.
Proof. solve_decision. Defined.

Module NamespaceNameM.
Definition parse (value : string) : result NamespaceName ResourceNameError :=
  let? _ := validate_resource_name value in Ok (MkNamespaceName value).
Definition as_str (n : NamespaceName) : string := let 'MkNamespaceName v := n in v.
End NamespaceNameM.

Module ResourceNameM.
Definition parse (value : string) : result ResourceName ResourceNameError :=
  let? _ := validate_resource_name value in Ok (MkResourceName value).
Definition as_str (n : ResourceName) : string := let 'MkResourceName v := n in v.
End ResourceNameM.

Module QueueNameM.
Definition SYSTEM : string := "default".
Definition parse (value : string) : result QueueName ResourceNameError :=
  let? _ := validate_resource_name value in Ok (MkQueueName value).
Definition as_str (n : QueueName) : string := let 'MkQueueName v := n in v.
Definition is_system (n : QueueName) : bool := (as_str n =? SYSTEM)%string.
End QueueNameM.

(** ** Specification: the label rule the database repeats in its CHECKs,
    [^[a-z0-9]([a-z0-9-]{0,61}[a-z0-9])?$], on the bytes of the text. *)

Definition bytes (s : string) : list Z := map byte_of (list_ascii_of_string s).

Definition canonical_label (s : string) : bool :=
  match bytes s with
  | [] => false
  | first :: rest =>
      is_name_boundary first
      && match last rest with
         | None => true
         | Some l =>
             forallb is_name_character (removelast rest) && is_name_boundary l
             && (Z.of_nat (length (removelast rest)) <=? 61)
         end
  end.

(** ** Lemmas *)

Lemma name_character_ascii c : is_name_character c = true -> c < 128.
Proof.
  unfold is_name_character, is_name_boundary, is_ascii_lowercase, is_ascii_digit.
  rewrite !orb_true_iff, !andb_true_iff, !Z.leb_le, Z.eqb_eq. lia.
Qed.

Lemma boundary_character c : is_name_boundary c = true -> is_name_character c = true.
Proof. unfold is_name_character. by intros ->. Qed.

Lemma name_loop_ok l0 cs l :
  name_loop l0 cs = Ok l <->
  forallb (fun pc => is_name_character pc.2) cs = true /\ l = List.last (map snd cs) l0.
Proof.
  revert l0; induction cs as [|[p c] cs IH]; intros l0; simpl; [naive_solver|].
  destruct (is_name_character c); simpl; [|naive_solver].
  rewrite IH. destruct cs as [|[p' c'] cs]; [done|]. simpl.
  assert (forall d, List.last (c' :: map snd cs) d = List.last (c' :: map snd cs) l0) as Hd.
  { intros d. clear. revert c'; induction (map snd cs) as [|x xs IH]; intros c'; simpl in *; [done|apply IH]. }
  specialize (Hd c). simpl in Hd. by rewrite Hd.
Qed.

Lemma forallb_snd (P : Z -> bool) (cs : list (Z * Z)) :
  forallb (fun pc => P pc.2) cs = forallb P (map snd cs).
Proof. induction cs as [|pc cs IH]; simpl; [done|by rewrite IH]. Qed.

Lemma length_bytes s : Z.of_nat (length (bytes s)) = slen s.
Proof.
  unfold bytes, slen. rewrite length_map. f_equal. induction s as [|a s IH]; simpl; [done|by rewrite IH].
Qed.

(** The validator's answer as a test on the characters. *)
Lemma validate_resource_name_chars s :
  validate_resource_name s = Ok () <->
  slen s <= 63 /\
  match chars s with
  | [] => False
  | first :: rest =>
      is_name_boundary first = true /\ forallb is_name_character rest = true
      /\ is_name_boundary (List.last rest first) = true
  end.
Proof.
  unfold validate_resource_name, chars, RESOURCE_NAME_MAX_LENGTH. rewrite Z.gtb_ltb.
  destruct (63 <? slen s) eqn:Hl; simp_bool; [split; [done|lia]|].
  destruct (char_indices s) as [|[p first] cs]; simpl; [naive_solver|].
  destruct (is_name_boundary first); simpl; [|naive_solver].
  rewrite <- forallb_snd. rewrite result_bind_ok. split.
  - intros (l & [Hall ->]%name_loop_ok & Hb).
    destruct (is_name_boundary (List.last (map snd cs) first)); naive_solver.
  - intros (_ & _ & Hall & Hb). exists (List.last (map snd cs) first). split; [by apply name_loop_ok|].
    by rewrite Hb.
Qed.

Lemma last_removelast_split (l : list Z) x :
  last l = Some x -> l = removelast l ++ [x] /\ List.last l 0 = x.
Proof.
  revert x; induction l as [|y l IH]; intros x; [done|].
  destruct l as [|z l]; [by intros [= ->]|]. intros H. destruct (IH x H) as [H1 H2].
  split; [simpl in *; congruence|done].
Qed.

Lemma last_default (l : list Z) d d' : l <> [] -> List.last l d = List.last l d'.
Proof.
  induction l as [|x l IH]; [done|]. intros _. destruct l as [|y l]; [done|]. simpl. by apply IH.
Qed.

(** The three-part test of the label rule. *)
Lemma canonical_label_spec s :
  canonical_label s = true <->
  slen s <= 63 /\
  match bytes s with
  | [] => False
  | first :: rest =>
      is_name_boundary first = true /\ forallb is_name_character rest = true
      /\ is_name_boundary (List.last rest first) = true
  end.
Proof.
  unfold canonical_label. rewrite <- length_bytes.
  destruct (bytes s) as [|first rest]; [naive_solver|].
  destruct (last rest) as [l|] eqn:Hl.
  - destruct (last_removelast_split _ _ Hl) as [Hr Hlast].
    assert (rest <> []) by (by destruct rest).
    rewrite (last_default rest first 0), Hlast by done.
    assert (length rest = S (length (removelast rest))) as Hlen
      by (rewrite Hr at 1; rewrite length_app; simpl; lia).
    assert (forallb is_name_character rest
            = forallb is_name_character (removelast rest) && is_name_character l) as Hf
      by (rewrite Hr at 1; rewrite forallb_app; simpl; by rewrite andb_true_r).
    rewrite Hf. cbn [length]. rewrite Hlen, !andb_true_iff, Z.leb_le.
    pose proof (boundary_character l). intuition (auto; lia).
  - apply last_None in Hl as ->. simpl. rewrite andb_true_r. intuition (auto; lia).
Qed.

(** Both tests are one test on lists: of the characters, of the bytes. *)
Definition label_list (l : list Z) : Prop :=
  match l with
  | [] => False
  | first :: rest =>
      is_name_boundary first = true /\ forallb is_name_character rest = true
      /\ is_name_boundary (List.last rest first) = true
  end.

Lemma label_list_characters l : label_list l -> forallb is_name_character l = true.
Proof. destruct l as [|c l]; [done|]. intros (Hc & Hl & _). simpl. by rewrite boundary_character, Hl. Qed.

Lemma canonical_label_valid s : canonical_label s = true -> validate_resource_name s = Ok ().
Proof.
  rewrite validate_resource_name_chars, canonical_label_spec. intros [Hl H]. split; [done|].
  change (label_list (bytes s)) in H. change (label_list (chars s)). pose proof (label_list_characters _ H) as Hall.
  replace (chars s) with (bytes s); [done|]. symmetry.
  by apply (ascii_bytes_chars is_name_character _ _ _ (le_n _) name_character_ascii Hall).
Qed.

Lemma valid_name_canonical s : is_utf8 s = true -> validate_resource_name s = Ok () -> canonical_label s = true.
Proof.
  intros Hu. rewrite validate_resource_name_chars, canonical_label_spec. intros [Hl H]. split; [done|].
  change (label_list (chars s)) in H. change (label_list (bytes s)). pose proof (label_list_characters _ H) as Hall.
  replace (bytes s) with (chars s); [done|]. unfold chars in *. rewrite <- forallb_snd in Hall.
  by apply (ascii_chars is_name_character _ _ _ (le_n _) Hu name_character_ascii Hall).
Qed.

(** Every name the domain accepts is one the database's CHECK accepts, and
    conversely: the validator decides the label rule. *)
Theorem validate_resource_name_canonical s :
  is_utf8 s = true -> validate_resource_name s = Ok () <-> canonical_label s = true.
Proof. intros Hu. split; [by apply valid_name_canonical|apply canonical_label_valid]. Qed.

Lemma validate_resource_name_canonical_witness :
  validate_resource_name "nightly-sync" = Ok () <-> canonical_label "nightly-sync" = true.
Proof. apply validate_resource_name_canonical. vm_compute. reflexivity. Defined.
