(* ===== verification/Text.v ===== *)
(** * Texts: separators, UUIDs and trimming

    Splitting at one byte, the hyphenated text of a UUID and its inverse, and
    the texts that [str::trim] leaves alone; shared by the components that
    build subjects, URLs and names. *)

From S2P Require Import Prelude RustStr Names.
From Stdlib Require Import Ascii String.
From stdpp Require Import base numbers strings list.
Local Open Scope string_scope.
Local Open Scope Z_scope.

(** ** Separators *)

Lemma canonical_without c s : canonical_label s = true -> is_name_character (byte_of c) = false -> contains_byte c s = false.
Proof.
  intros Hc Hn. apply canonical_label_spec in Hc as [_ Hc]. change (label_list (bytes s)) in Hc.
  apply label_list_characters in Hc. unfold bytes in Hc. induction s as [|a s IH]; [done|]. simpl in *. simp_bool.
  rewrite IH by done. destruct (Ascii.eqb_spec a c) as [->|]; [congruence|done].
Qed.

Lemma split_on_sep c x y : contains_byte c x = false -> split_on c (x ++ String c y) = x :: split_on c y.
Proof.
  induction x as [|a x IH]; intros Hx.
  - change ("" ++ String c y) with (String c y). cbn [split_on]. by rewrite Ascii.eqb_refl.
  - rewrite contains_byte_cons, orb_false_iff in Hx. destruct Hx as [Ha Hx].
    change (String a x ++ String c y) with (String a (x ++ String c y)). cbn [split_on]. by rewrite Ha, IH.
Qed.

Lemma split_on_last c x : contains_byte c x = false -> split_on c x = [x].
Proof.
  induction x as [|a x IH]; intros Hx; [done|]. rewrite contains_byte_cons, orb_false_iff in Hx. destruct Hx as [Ha Hx].
  cbn [split_on]. by rewrite Ha, IH.
Qed.

Lemma contains_byte_app c s t : contains_byte c (s ++ t) = contains_byte c s || contains_byte c t.
Proof.
  induction s as [|a s IH]; [done|]. change (String a s ++ t) with (String a (s ++ t)). cbn [contains_byte].
  by rewrite IH, orb_assoc.
Qed.

Lemma split_once_byte c p q : contains_byte c p = false -> split_once (String c "") (p ++ String c q) = Some (p, q).
Proof.
  induction p as [|a p IH]; intros Hp.
  - change ("" ++ String c q) with (String c q). cbn [split_once String.prefix]. destruct (ascii_dec c c); [|done].
    replace (String.prefix "" q) with true by (by destruct q). simpl. by rewrite Nat.sub_0_r, substring_full.
  - cbn [contains_byte] in Hp. apply orb_false_iff in Hp as [Ha Hp]. change (String a p ++ String c q) with (String a (p ++ String c q)).
    cbn [split_once String.prefix]. destruct (ascii_dec c a) as [->|]; [by rewrite Ascii.eqb_refl in Ha|]. by rewrite IH.
Qed.

Lemma split_once_absent c p : contains_byte c p = false -> split_once (String c "") p = None.
Proof.
  induction p as [|a p IH]; intros Hp; [done|]. cbn [contains_byte] in Hp. apply orb_false_iff in Hp as [Ha Hp].
  cbn [split_once String.prefix]. destruct (ascii_dec c a) as [->|]; [by rewrite Ascii.eqb_refl in Ha|]. by rewrite IH.
Qed.

(** The bytes of a UUID's text. *)
Definition is_uuid_byte (b : Z) : bool := is_ascii_digit b || ((97 <=? b) && (b <=? 102)) || (b =? 45).

Lemma hex_digit_byte n : (n < 16)%N -> exists a, hex_digit n = String a "" /\ is_uuid_byte (byte_of a) = true /\ byte_of a <> 45
  /\ N_of_ascii a = (if n <? 10 then 48 + n else 87 + n)%N.
Proof.
  intros Hn. unfold hex_digit. eexists. split; [reflexivity|]. unfold is_uuid_byte, is_ascii_digit, byte_of.
  destruct (N.ltb_spec n 10); rewrite N_ascii_embedding by lia; split_and!; try lia.
  - apply orb_true_iff; left; apply orb_true_iff; left; apply andb_true_iff; split; apply Z.leb_le; lia.
  - apply orb_true_iff; left; apply orb_true_iff; right; apply andb_true_iff; split; apply Z.leb_le; lia.
Qed.

Lemma hex_digits_acc count : forall n acc, hex_digits count n acc = hex_digits count n "" ++ acc.
Proof.
  induction count as [|count IH]; intros n acc; [done|]. cbn [hex_digits]. rewrite IH, (IH _ (hex_digit _ ++ "")), string_app_nil_r.
  by rewrite string_app_assoc.
Qed.

Lemma hex_digits_split a b : forall n, hex_digits (a + b) n "" = hex_digits a (n / 16 ^ N.of_nat b) "" ++ hex_digits b n "".
Proof.
  induction b as [|b IH]; intros n; [by rewrite Nat.add_0_r, N.div_1_r, string_app_nil_r|].
  rewrite Nat.add_succ_r. cbn [hex_digits]. rewrite (hex_digits_acc (a + b)), IH, (hex_digits_acc b), string_app_nil_r, <- string_app_assoc.
  rewrite N.Div0.div_div, Nat2N.inj_succ, N.pow_succ_r'. by rewrite (hex_digits_acc b _ (hex_digit _ ++ "")), !string_app_assoc.
Qed.

Lemma hex_digits_free count c : is_uuid_byte (byte_of c) = false -> forall n, contains_byte c (hex_digits count n "") = false.
Proof.
  intros Hc. induction count as [|count IH]; intros n; [done|]. cbn [hex_digits]. rewrite hex_digits_acc, contains_byte_app, IH, string_app_nil_r.
  destruct (hex_digit_byte (n mod 16)) as (a & -> & Ha & _); [by apply N.mod_lt|]. cbn. rewrite orb_false_r.
  destruct (Ascii.eqb_spec a c) as [->|]; [congruence|done].
Qed.

Lemma uuid_free c u : is_uuid_byte (byte_of c) = false -> contains_byte c (uuid_to_string u) = false.
Proof.
  intros Hc. assert (Hd : contains_byte c "-" = false).
  { cbn [contains_byte]. rewrite orb_false_r. destruct (Ascii.eqb_spec "-" c) as [<-|]; [by vm_compute in Hc|done]. }
  unfold uuid_to_string. by rewrite !contains_byte_app, !hex_digits_free, Hd.
Qed.

Lemma hex_digits_length count : forall n, String.length (hex_digits count n "") = count.
Proof.
  induction count as [|count IH]; intros n; [done|]. cbn [hex_digits]. rewrite hex_digits_acc, string_length_app, IH.
  rewrite string_app_nil_r. unfold hex_digit. cbn [String.length]. lia.
Qed.

(** ** Reading a UUID back *)

Definition hex_value (a : ascii) : option N :=
  let n := N_of_ascii a in
  if ((48 <=? n) && (n <=? 57))%N then Some (n - 48)%N else if ((97 <=? n) && (n <=? 102))%N then Some (n - 87)%N else None.

Fixpoint hex_number (acc : N) (s : string) : option N :=
  match s with
  | EmptyString => Some acc
  | String a s => if Ascii.eqb a "-" then hex_number acc s else v ← hex_value a; hex_number (acc * 16 + v)%N s
  end.

(** The hyphenated lower-case form. *)
Definition uuid_of_string (s : string) : option N := if (String.length s =? 36)%nat then hex_number 0 s else None.

Lemma hex_number_app s t acc : hex_number acc (s ++ t) = (v ← hex_number acc s; hex_number v t).
Proof.
  revert acc. induction s as [|a s IH]; intros acc; [done|]. change (String a s ++ t) with (String a (s ++ t)). cbn [hex_number].
  destruct (Ascii.eqb a "-"); [apply IH|]. destruct (hex_value a); cbn; [apply IH|done].
Qed.

Lemma hex_value_digit n a : (n < 16)%N -> N_of_ascii a = (if n <? 10 then 48 + n else 87 + n)%N -> hex_value a = Some n.
Proof.
  intros Hn Ha. unfold hex_value. rewrite Ha. destruct (N.ltb_spec n 10).
  - destruct (N.leb_spec 48 (48 + n)), (N.leb_spec (48 + n) 57); cbn; try lia. f_equal. lia.
  - destruct (N.leb_spec 48 (87 + n)), (N.leb_spec (87 + n) 57), (N.leb_spec 97 (87 + n)), (N.leb_spec (87 + n) 102); cbn; try lia. f_equal. lia.
Qed.

Lemma hex_number_digits count : forall n acc,
  hex_number acc (hex_digits count n "") = Some (acc * 16 ^ N.of_nat count + n mod 16 ^ N.of_nat count)%N.
Proof.
  induction count as [|count IH]; intros n acc.
  - cbn. f_equal. rewrite N.mod_1_r. lia.
  - cbn [hex_digits]. rewrite hex_digits_acc, hex_number_app, IH, string_app_nil_r. cbn [mbind option_bind].
    destruct (hex_digit_byte (n mod 16)) as (a & -> & _ & Hd & Hv); [by apply N.mod_lt|]. cbn [hex_number].
    destruct (Ascii.eqb_spec a "-") as [->|_]; [done|]. rewrite (hex_value_digit (n mod 16) a) by (done || by apply N.mod_lt).
    cbn [mbind option_bind]. f_equal. rewrite Nat2N.inj_succ, N.pow_succ_r', (N.Div0.mod_mul_r n 16). lia.
Qed.

Lemma hex_number_dash v s : hex_number v ("-" ++ s) = hex_number v s.
Proof. done. Qed.

Lemma uuid_text_digits u acc : hex_number acc (uuid_to_string u) = hex_number acc (hex_digits 32 u "").
Proof.
  unfold uuid_to_string. rewrite !N.shiftr_div_pow2.
  change 32%nat with (8 + 24)%nat. rewrite hex_digits_split. change 24%nat with (4 + 20)%nat. rewrite hex_digits_split.
  change 20%nat with (4 + 16)%nat. rewrite hex_digits_split. change 16%nat with (4 + 12)%nat. rewrite hex_digits_split.
  change (16 ^ N.of_nat 24)%N with (2 ^ 96)%N. change (16 ^ N.of_nat 20)%N with (2 ^ 80)%N.
  change (16 ^ N.of_nat 16)%N with (2 ^ 64)%N. change (16 ^ N.of_nat 12)%N with (2 ^ 48)%N.
  do 4 (rewrite !hex_number_app, !hex_number_digits; cbn [mbind option_bind]; rewrite ?hex_number_dash). reflexivity.
Qed.

Lemma uuid_text_length u : String.length (uuid_to_string u) = 36%nat.
Proof. unfold uuid_to_string. by rewrite !string_length_app, !hex_digits_length. Qed.

(** A UUID is read back from its text. *)
Lemma uuid_of_to u : (u < 2 ^ 128)%N -> uuid_of_string (uuid_to_string u) = Some u.
Proof.
  intros Hu. unfold uuid_of_string. rewrite uuid_text_length. cbn [Nat.eqb].
  rewrite uuid_text_digits, hex_number_digits, N.mul_0_l, N.add_0_l, N.mod_small; [done|exact Hu].
Qed.

Lemma uuid_to_string_inj u v : (u < 2 ^ 128)%N -> (v < 2 ^ 128)%N -> uuid_to_string u = uuid_to_string v -> u = v.
Proof. intros Hu Hv H. pose proof (uuid_of_to u Hu) as E. rewrite H, (uuid_of_to v Hv) in E. by injection E. Qed.

(** Trimming leaves a text without white space alone. *)
Definition is_plain (b : Z) : bool := (b <? 128) && negb (is_whitespace b).

Lemma trim_start_plain s : forallb is_plain (map byte_of (list_ascii_of_string s)) = true -> trim_start s = s.
Proof.
  destruct s as [|a s]; [done|]. cbn [list_ascii_of_string map forallb]. intros [[Ha Hw]%andb_true_iff _]%andb_true_iff. unfold trim_start. cbn [String.length].
  cbn [trim_start_fuel]. rewrite next_char_of_ascii by (by apply Z.ltb_lt). apply negb_true_iff in Hw. by rewrite Hw.
Qed.

Lemma trim_end_plain fuel : forall s, (String.length s <= fuel)%nat ->
  forallb is_plain (map byte_of (list_ascii_of_string s)) = true -> trim_end_fuel fuel s = s.
Proof.
  induction fuel as [|fuel IH]; intros s Hl; [by destruct s; [|cbn in Hl; lia]|]. destruct s as [|a s]; [done|].
  cbn [list_ascii_of_string map forallb]. intros [[Ha Hw]%andb_true_iff Hs]%andb_true_iff. cbn [trim_end_fuel].
  rewrite next_char_of_ascii by (by apply Z.ltb_lt). apply negb_true_iff in Hw. rewrite Hw. cbn [andb].
  rewrite IH by (done || cbn in Hl; lia). unfold before. replace (String.length (String a s) - String.length s)%nat with 1%nat by (cbn; lia).
  cbn. by destruct s.
Qed.

Lemma trim_plain s : forallb is_plain (map byte_of (list_ascii_of_string s)) = true -> trim s = s.
Proof. intros H. unfold trim, trim_end. rewrite trim_start_plain by done. by apply trim_end_plain. Qed.

Lemma canonical_plain s : canonical_label s = true -> forallb is_plain (bytes s) = true.
Proof.
  intros Hc. apply canonical_label_spec in Hc as [_ Hc]. change (label_list (bytes s)) in Hc. apply label_list_characters in Hc.
  eapply forallb_forall. intros b Hb. eapply forallb_forall in Hc; [|exact Hb]. revert Hc.
  unfold is_name_character, is_name_boundary, is_ascii_lowercase, is_ascii_digit, is_plain, is_whitespace.
  rewrite !orb_true_iff, !andb_true_iff, negb_true_iff, !orb_false_iff, !andb_false_iff, !Z.leb_le, !Z.leb_gt, Z.ltb_lt, !Z.eqb_neq, Z.eqb_eq. lia.
Qed.

Lemma trim_canonical s : canonical_label s = true -> trim s = s.
Proof. intros H. by apply trim_plain, canonical_plain. Qed.

(** ** Trimming twice *)

(** The first character of a text is read from its own bytes. *)
Lemma next_char_before s c rest t :
  next_char s = Some (c, rest) -> (rest = "" -> t = "") -> next_char (before s rest ++ t) = Some (c, t).
Proof.
  destruct s as [|a s1]; [done|]. unfold before. cbn [next_char]. destruct (byte_of a <? 128) eqn:Ha.
  { intros [= <- <-] Ht. replace (substring _ _ _) with (String a "")
      by (cbn [String.length]; replace (S (String.length s1) - String.length s1)%nat with 1%nat by lia; by destruct s1).
    change (String a "" ++ t) with (String a t). cbn [next_char]. by rewrite Ha. }
  destruct s1 as [|a1 s2].
  { intros [= <- <-] Ht. rewrite Ht by done. change (next_char (String a "") = Some (byte_of a, "")). cbn [next_char]. by rewrite Ha. }
  destruct (byte_of a <? 224) eqn:H2.
  { intros [= <- <-] Ht. replace (substring _ _ _) with (String a (String a1 ""))
      by (cbn [String.length]; replace (S (S (String.length s2)) - String.length s2)%nat with 2%nat by lia; by destruct s2).
    change (String a (String a1 "") ++ t) with (String a (String a1 t)). cbn [next_char]. by rewrite Ha, H2. }
  destruct s2 as [|a2 s3].
  { intros [= <- <-] Ht. rewrite Ht by done. change (next_char (String a (String a1 "")) = Some (byte_of a, "")). cbn [next_char]. by rewrite Ha, H2. }
  destruct (byte_of a <? 240) eqn:H3.
  { intros [= <- <-] Ht. replace (substring _ _ _) with (String a (String a1 (String a2 "")))
      by (cbn [String.length]; replace (S (S (S (String.length s3))) - String.length s3)%nat with 3%nat by lia; by destruct s3).
    change (String a (String a1 (String a2 "")) ++ t) with (String a (String a1 (String a2 t))). cbn [next_char]. by rewrite Ha, H2, H3. }
  destruct s3 as [|a3 s4].
  { intros [= <- <-] Ht. rewrite Ht by done. change (next_char (String a (String a1 (String a2 ""))) = Some (byte_of a, "")).
    cbn [next_char]. by rewrite Ha, H2, H3. }
  intros [= <- <-] Ht. replace (substring _ _ _) with (String a (String a1 (String a2 (String a3 ""))))
    by (cbn [String.length]; replace (S (S (S (S (String.length s4)))) - String.length s4)%nat with 4%nat by lia; by destruct s4).
  change (String a (String a1 (String a2 (String a3 ""))) ++ t) with (String a (String a1 (String a2 (String a3 t)))).
  cbn [next_char]. by rewrite Ha, H2, H3.
Qed.

Lemma before_nonempty s c rest : next_char s = Some (c, rest) -> before s rest <> "".
Proof.
  intros H. pose proof (next_char_shorter _ _ _ H). unfold before. destruct s as [|a s]; [done|].
  destruct (String.length (String a s) - String.length rest)%nat eqn:E; [lia|]. done.
Qed.

Lemma trim_end_fuel_any f : forall g s, (String.length s <= f)%nat -> (String.length s <= g)%nat -> trim_end_fuel f s = trim_end_fuel g s.
Proof.
  induction f as [|f IH]; intros g s Hf Hg.
  - destruct s; [|cbn in Hf; lia]. by destruct g.
  - destruct g as [|g]; [destruct s; [done|cbn in Hg; lia]|]. cbn [trim_end_fuel].
    destruct (next_char s) as [[c rest]|] eqn:E; [|done]. pose proof (next_char_shorter _ _ _ E). by rewrite (IH g rest) by lia.
Qed.

Lemma trim_end_step s c rest : next_char s = Some (c, rest) ->
  trim_end s = if is_whitespace c && (trim_end rest =? "")%string then "" else before s rest ++ trim_end rest.
Proof.
  intros E. pose proof (next_char_shorter _ _ _ E) as Hs. unfold trim_end at 1. destruct s as [|a s]; [done|].
  cbn [String.length] in *. cbn [trim_end_fuel]. rewrite E. unfold trim_end. by rewrite (trim_end_fuel_any _ (String.length rest) rest) by lia.
Qed.

(** What is left starts as the text does, and has no white space at its end. *)
Lemma trim_end_idem s : trim_end (trim_end s) = trim_end s
  /\ (trim_end s = "" \/ exists c rest rest', next_char s = Some (c, rest) /\ next_char (trim_end s) = Some (c, rest')).
Proof.
  remember (String.length s) as n eqn:Hn. revert s Hn. induction (lt_wf n) as [n _ IH]. intros s ->.
  destruct (next_char s) as [[c rest]|] eqn:E; [|apply next_char_none in E as ->; by split; [|left]].
  pose proof (next_char_shorter _ _ _ E) as Hs. destruct (IH _ Hs rest eq_refl) as [Hr _].
  rewrite (trim_end_step s c rest E). destruct (is_whitespace c && _) eqn:Hw; [by split; [|left]|].
  assert (Hnext : next_char (before s rest ++ trim_end rest) = Some (c, trim_end rest)).
  { apply next_char_before; [done|]. by intros ->. }
  split; [|right; by exists c, rest, (trim_end rest)].
  rewrite (trim_end_step _ _ _ Hnext), Hr, Hw, before_app. done.
Qed.

Lemma trim_start_stops_at s : trim_start s = "" \/ exists c rest, next_char (trim_start s) = Some (c, rest) /\ is_whitespace c = false.
Proof.
  unfold trim_start. generalize (le_n (String.length s)). generalize (String.length s) at 2 3 4. intros fuel. revert s.
  induction fuel as [|fuel IH]; intros s Hl; [left; by destruct s; [|cbn in Hl; lia]|]. cbn [trim_start_fuel].
  destruct (next_char s) as [[c rest]|] eqn:E; [|left; by apply next_char_none].
  destruct (is_whitespace c) eqn:Hw; [|right; eauto]. apply IH. pose proof (next_char_shorter _ _ _ E). lia.
Qed.

Lemma trim_start_at s c rest : next_char s = Some (c, rest) -> is_whitespace c = false -> trim_start s = s.
Proof. intros E Hw. unfold trim_start. destruct s as [|a s]; [done|]. cbn [String.length]. cbn [trim_start_fuel]. by rewrite E, Hw. Qed.

Lemma trim_idem s : trim (trim s) = trim s.
Proof.
  unfold trim. destruct (trim_end_idem (trim_start s)) as [Hi [->|(c & rest & rest' & H1 & H2)]]; [done|].
  destruct (trim_start_stops_at s) as [H0|(c' & r' & H0 & Hw)]; [by rewrite H0 in H1|].
  rewrite H0 in H1. injection H1 as -> _. by rewrite (trim_start_at _ _ _ H2 Hw).
Qed.
