(* ===== verification/Float.v ===== *)
(** * Binary64 numbers

    The operations of [f64] that [retry_delay] uses, on the Standard
    Library's [spec_float] at precision 53 and exponent range 1024.
    [f64::mul_add] rounds once, so it is written out on the exact sum;
    [f64::powi] is the multiply-and-square loop of the compiler's runtime.
    Then [f64::from_str] and the [Display] of [f64], which the forms use for
    a retry policy: reading rounds the exact decimal once, printing writes
    the shortest decimal that reads back, the closest of them, without an
    exponent. *)

From S2P Require Import Prelude RustStr.
From Stdlib Require Import ZArith SpecFloat Ascii String.
From stdpp Require Import base numbers list strings pretty.

Local Open Scope Z_scope.

Definition prec : Z := 53.
Definition emax : Z := 1024.

Definition f64_mul (x y : spec_float) : spec_float := SFmul prec emax x y.
Definition f64_div (x y : spec_float) : spec_float := SFdiv prec emax x y.
Definition f64_of_Z (z : Z) : spec_float := binary_normalize prec emax z 0 false.

Definition f64_one : spec_float := f64_of_Z 1.

(** [f64::min]: the other operand when one is NaN. *)
Definition f64_min (x y : spec_float) : spec_float :=
  match x, y with
  | S754_nan, _ => y
  | _, S754_nan => x
  | _, _ => if SFltb y x then y else x
  end.

Definition signed (s : bool) (m : positive) : Z := if s then Z.neg m else Z.pos m.

(** The exact value [m * 2^e] plus a finite number, rounded once. *)
Definition add_exact (m e : Z) (z : spec_float) : spec_float :=
  match z with
  | S754_finite sz mz ez =>
      let e' := Z.min e ez in
      binary_normalize prec emax
        (m * 2 ^ (e - e') + signed sz mz * 2 ^ (ez - e')) e' false
  | S754_zero _ => binary_normalize prec emax m e false
  | _ => z
  end.

(** [x.mul_add(y, z)]: [x * y + z]. *)
Definition f64_mul_add (x y z : spec_float) : spec_float :=
  match x, y with
  | S754_finite sx mx ex, S754_finite sy my ey =>
      add_exact (signed (xorb sx sy) (mx * my)) (ex + ey) z
  | _, _ => SFadd prec emax (f64_mul x y) z
  end.

Fixpoint powi_loop (fuel : nat) (r a : spec_float) (b : Z) : spec_float :=
  match fuel with
  | O => r
  | S fuel' =>
      let r := if Z.odd b then f64_mul r a else r in
      let b := Z.quot b 2 in
      if b =? 0 then r else powi_loop fuel' r (f64_mul a a) b
  end.

(** 32 halvings exhaust an [i32] exponent. *)
Definition f64_powi (a : spec_float) (b : Z) : spec_float :=
  let r := powi_loop 32 f64_one a b in
  if b <? 0 then f64_div f64_one r else r.

(** The halving loop ends before its fuel does: more fuel gives the same power. *)
Lemma powi_loop_fuel fuel fuel' r a b :
  Z.abs b < 2 ^ Z.of_nat fuel -> (0 < fuel)%nat -> (fuel <= fuel')%nat ->
  powi_loop fuel' r a b = powi_loop fuel r a b.
Proof.
  revert fuel' r a b; induction fuel as [|fuel IH]; intros fuel' r a b Hb Hpos Hle; [lia|].
  destruct fuel' as [|fuel']; [lia|]. cbn [powi_loop].
  destruct (Z.quot b 2 =? 0) eqn:Hq; [done|]. apply Z.eqb_neq in Hq.
  assert (Z.abs (Z.quot b 2) < 2 ^ Z.of_nat fuel).
  { rewrite <- Z.quot_abs by lia. simpl Z.abs at 2. rewrite Z.quot_div_nonneg by lia.
    apply Z.div_lt_upper_bound; [lia|]. rewrite Nat2Z.inj_succ, Z.pow_succ_r in Hb by lia. lia. }
  apply IH; [done| |lia].
  destruct fuel; [|lia]. simpl in *. lia.
Qed.

Local Open Scope Z_scope.

(** ** Reading *)

(** The digits a text starts with, after those of [acc], how many they are, and the rest. *)
Fixpoint take_digits (acc : Z) (count : Z) (s : string) : Z * Z * string :=
  match s with
  | String a rest => if is_ascii_digit (byte_of a) then take_digits (acc * 10 + (byte_of a - 48)) (count + 1) rest else (acc, count, s)
  | EmptyString => (acc, count, EmptyString)
  end.

(** [m * 10^e], rounded to nearest even. *)
Definition f64_of_decimal (negative : bool) (m e : Z) : spec_float :=
  match m with
  | Z.pos p =>
      if 0 <=? e then binary_normalize prec emax (signed negative p * 10 ^ e) 0 negative
      else SFdiv prec emax (S754_finite negative p 0) (S754_finite false (Z.to_pos (10 ^ (- e))) 0)
  | _ => S754_zero negative
  end.

(** An exponent part, or none. *)
Definition parse_exponent (s : string) : option Z :=
  match s with
  | EmptyString => Some 0
  | String a rest =>
      if (byte_of a =? 101) || (byte_of a =? 69) then
        let '(negative, rest) := match rest with
          | String "-"%char rest => (true, rest)
          | String "+"%char rest => (false, rest)
          | _ => (false, rest)
          end in
        let '(e, count, rest) := take_digits 0 0 rest in
        if (0 <? count) && (rest =? "")%string then Some (if negative then - e else e) else None
      else None
  end.

Definition parse_decimal (negative : bool) (s : string) : option spec_float :=
  let '(integral, whole, s) := take_digits 0 0 s in
  let '(m, fraction, s) := match s with
    | String "."%char rest => take_digits integral 0 rest
    | _ => (integral, 0, s)
    end in
  if whole + fraction =? 0 then None
  else (e ← parse_exponent s; Some (f64_of_decimal negative m (e - fraction))).

(** [f64::from_str] *)
Definition parse_f64 (s : string) : option spec_float :=
  let '(negative, body) := match s with
    | String "-"%char rest => (true, rest)
    | String "+"%char rest => (false, rest)
    | _ => (false, s)
    end in
  if eq_ignore_ascii_case body "inf" || eq_ignore_ascii_case body "infinity" then Some (S754_infinity negative)
  else if eq_ignore_ascii_case body "nan" then Some S754_nan
  else parse_decimal negative body.

(** ** Printing *)

(** The place of the first digit of [n / d]: the [k] with [10^(k-1) <= n/d < 10^k]; [fuel] digits. *)
Fixpoint decimal_places (fuel : nat) (k n d : Z) : Z :=
  match fuel with
  | O => k
  | S fuel =>
      if d <=? n then decimal_places fuel (k + 1) n (d * 10)
      else if n * 10 <? d then decimal_places fuel (k - 1) (n * 10) d
      else k
  end.

(** The decimals of [digits] digits next to [n / d], the closest first. *)
Definition candidates (n d k digits : Z) : list Z :=
  let e := k - digits in
  let '(n, d) := if 0 <=? e then (n, d * 10 ^ e) else (n * 10 ^ (- e), d) in
  let q := n / d in
  if 2 * (n mod d) <? d then [q; q + 1] else [q + 1; q].

Definition f64_eqb (x y : spec_float) : bool :=
  match x, y with
  | S754_zero s, S754_zero t => Bool.eqb s t
  | S754_infinity s, S754_infinity t => Bool.eqb s t
  | S754_nan, S754_nan => true
  | S754_finite s m e, S754_finite t n f => Bool.eqb s t && (Pos.eqb m n) && (e =? f)
  | _, _ => false
  end.

(** The shortest decimal [m * 10^e] that reads back as [x = n / d]. *)
Definition shortest (x : spec_float) (n d k : Z) : option (Z * Z) :=
  head (omap (fun digits => m ← List.find (fun m => f64_eqb (f64_of_decimal false m (k - digits)) x) (candidates n d k digits);
                            Some (m, k - digits)) (seqZ 1 17)).

Fixpoint zeros (count : nat) : string := match count with O => "" | S count => String "0" (zeros count) end.

(** The digits [m] with the point before the last [- e] of them. *)
Definition positional (m e : Z) : string :=
  let text := pretty m in
  let length := Z.of_nat (String.length text) in
  if 0 <=? e then (text ++ zeros (Z.to_nat e))%string
  else if - e <? length
  then (substring 0 (Z.to_nat (length + e)) text ++ "." ++ substring (Z.to_nat (length + e)) (Z.to_nat (- e)) text)%string
  else ("0." ++ zeros (Z.to_nat (- e - length)) ++ text)%string.

(** [Display] of [f64]; 17 digits are enough for every one, and 400 steps find the first. *)
Definition display_f64 (x : spec_float) : string :=
  match x with
  | S754_nan => "NaN"
  | S754_infinity s => if s then "-inf" else "inf"
  | S754_zero s => if s then "-0" else "0"
  | S754_finite s m e =>
      let n := Z.pos m * 2 ^ Z.max 0 e in
      let d := 2 ^ Z.max 0 (- e) in
      let k := decimal_places 400 0 n d in
      match shortest (S754_finite false m e) n d k with
      | Some (digits, e) => ((if s then "-" else "") ++ positional digits e)%string
      | None => ""
      end
  end.

(** A number whose text reads back, as every one but NaN does. *)
Definition reads_back (x : spec_float) : bool :=
  match parse_f64 (display_f64 x) with Some y => f64_eqb x y | None => false end.

Lemma f64_eqb_eq x y : f64_eqb x y = true -> x = y.
Proof.
  destruct x, y; simpl; try done; rewrite ?andb_true_iff; intros H.
  - by rewrite (Bool.eqb_prop _ _ H).
  - by rewrite (Bool.eqb_prop _ _ H).
  - destruct H as [[H1 H2] H3]. apply Bool.eqb_prop in H1. apply Pos.eqb_eq in H2. apply Z.eqb_eq in H3. by subst.
Qed.

Lemma reads_back_eq x : reads_back x = true -> parse_f64 (display_f64 x) = Some x.
Proof. unfold reads_back. destruct (parse_f64 _) as [y|]; [|done]. by intros <-%f64_eqb_eq. Qed.

Example display_of_jitter : option_map display_f64 (parse_f64 "0.2") = Some "0.2"%string /\ option_map display_f64 (parse_f64 "2.50e0") = Some "2.5"%string
  /\ option_map display_f64 (parse_f64 "1e22") = Some "10000000000000000000000"%string /\ parse_f64 "." = None /\ parse_f64 "1e" = None
  /\ option_map display_f64 (parse_f64 "9007199254740993") = Some "9007199254740992"%string
  /\ option_map display_f64 (parse_f64 "5e-324") = Some ("0." ++ zeros 323 ++ "5")%string
  /\ option_map reads_back (parse_f64 "0.1") = Some true /\ parse_f64 "-Infinity" = Some (S754_infinity true).
Proof. vm_compute. repeat split. Qed.
