(* ===== verification/Domain.v ===== *)
(** * The domain entities and their stored forms

    services/server/src/domain/{id,run,schedule,job,target,target_set,queue,
    namespace}.rs, the persistence vocabulary of application/store.rs and the
    row conversions of infrastructure/postgres.rs.

    Every typed identifier is a [Uuid], a 128-bit number; an instant is a
    number of nanoseconds; a binary64 number is a [spec_float].  Getters of a
    Rust struct are the projections of its record. *)

From S2P Require Import Prelude RustStr Json Inputs Names.
From Stdlib Require Import SpecFloat Ascii String.
From stdpp Require Import base numbers strings sorting gmap list.

Local Open Scope Z_scope.

Notation Uuid := N (only parsing).
Notation Instant := Z (only parsing).

Definition second : Z := 1000000000.

(** ** Errors of the persistence port *)

Inductive StoreError : Type :=
| NotFound
| Conflict
| InUse
| IdempotencyConflict
| StaleRevision
| QueueDisabled
| InvalidData
| WorkflowLaunchTooLarge
| Unavailable
| Internal.

#[global] Instance store_error_eq : EqDecision StoreError.
Proof. solve_decision. Defined.

Definition classify_sqlstate (code : option string) : option StoreError :=
  match code with
  | None => None
  | Some c =>
      if (c =? "23505")%string then Some Conflict
      else if (c =? "23001")%string || (c =? "23503")%string then Some InUse
      else if (c =? "22021")%string || (c =? "22P05")%string then Some InvalidData
      else None
  end.

(** ** Runs *)

Inductive RunStatus : Type :=
| PendingDispatch
| Queued
| Running
| RetryWait
| Succeeded
| Failed
| Dead
| Skipped
| Cancelled
| Unknown.

#[global] Instance run_status_eq : EqDecision RunStatus.
Proof. solve_decision. Defined.

Definition is_terminal (s : RunStatus) : bool :=
  match s with
  | Succeeded | Failed | Dead | Skipped | Cancelled | Unknown => true
  | _ => false
  end.

Definition is_repeatable (s : RunStatus) : bool :=
  is_terminal s && negb (match s with Unknown => true | _ => false end).

Definition parse_run_status (value : string) : result RunStatus StoreError :=
  if (value =? "pending_dispatch")%string then Ok PendingDispatch
  else if (value =? "queued")%string then Ok Queued
  else if (value =? "running")%string then Ok Running
  else if (value =? "retry_wait")%string then Ok RetryWait
  else if (value =? "succeeded")%string then Ok Succeeded
  else if (value =? "failed")%string then Ok Failed
  else if (value =? "dead")%string then Ok Dead
  else if (value =? "skipped")%string then Ok Skipped
  else if (value =? "cancelled")%string then Ok Cancelled
  else if (value =? "unknown")%string then Ok Unknown
  else Err Internal.

Definition run_status_name (value : RunStatus) : string :=
  match value with
  | PendingDispatch => "pending_dispatch"
  | Queued => "queued"
  | Running => "running"
  | RetryWait => "retry_wait"
  | Succeeded => "succeeded"
  | Failed => "failed"
  | Dead => "dead"
  | Skipped => "skipped"
  | Cancelled => "cancelled"
  | Unknown => "unknown"
  end.

Record Run : Type := mkRun {
  run_id : Uuid;
  run_request_id : option Uuid;
  run_rerun_of_run_id : option Uuid;
  run_schedule_id : option Uuid;
  run_job_id : Uuid;
  run_target_id : Uuid;
  run_queue_id : Uuid;
  run_status : RunStatus;
  run_scheduled_at : Instant;
  run_created_at : Instant;
  run_queued_at : option Instant;
  run_started_at : option Instant;
  run_completed_at : option Instant;
  run_attempt_count : Z;
  run_max_attempts : Z;
  run_lateness_seconds : Z;
  run_terminal_reason : option string;
}.

(** ** Jobs and execution snapshots *)

Inductive ExecutorKind : Type := Noop | Process | Shell.

Definition parse_executor (value : string) : result ExecutorKind StoreError :=
  if (value =? "noop")%string then Ok Noop
  else if (value =? "process")%string then Ok Process
  else if (value =? "shell")%string then Ok Shell
  else Err Internal.

Definition executor_name (value : ExecutorKind) : string :=
  match value with
  | Noop => "noop"
  | Process => "process"
  | Shell => "shell"
  end.

Record Job : Type := mkJob {
  job_id : Uuid;
  job_namespace_id : Uuid;
  job_name : ResourceName;
  job_executor : ExecutorKind;
  job_queue_id : Uuid;
  job_executable : option string;
  job_shell_command : option string;
  job_arguments : list string;
  job_inputs : value;
  job_idempotent : bool;
  job_dry_run : bool;
  job_max_attempts : Z;
  job_retry_initial_seconds : Z;
  job_retry_max_seconds : Z;
  job_retry_multiplier : spec_float;
  job_retry_jitter : spec_float;
  job_created_at : Instant;
  job_updated_at : Instant;
}.

Inductive ExecutionTrigger : Type := Schedule_ | Manual | Rerun.

Record ExecutionSnapshot : Type := mkExecutionSnapshot {
  es_executor : ExecutorKind;
  es_executable : option string;
  es_shell_command : option string;
  es_argument_templates : list string;
  es_arguments : list string;
  es_inputs : value;
  es_job_id : option Uuid;
  es_trigger : option ExecutionTrigger;
  es_scheduled_at : option Instant;
  es_idempotency_key : Uuid;
  es_queue_id : Uuid;
  es_queue : string;
  es_idempotent : bool;
  es_dry_run : bool;
  es_retry_initial_seconds : Z;
  es_retry_max_seconds : Z;
  es_retry_multiplier : spec_float;
  es_retry_jitter : spec_float;
}.

(** ** Schedules *)

Inductive MisfirePolicy : Type := RunLate | MisfireSkip | GracePeriod.
Inductive CatchupPolicy : Type := CatchupSkip | RunOnce | CatchUp.

Inductive ScheduleTiming : Type :=
| Cron (expression timezone : string)
| Once (execute_at : Instant).

Inductive TargetSelection : Type :=
| SelTarget (id : Uuid)
| SelTargetSet (id : Uuid).

Record Schedule : Type := mkSchedule {
  sch_id : Uuid;
  sch_namespace_id : Uuid;
  sch_name : ResourceName;
  sch_job_id : Uuid;
  sch_target : TargetSelection;
  sch_inputs : value;
  sch_timing : ScheduleTiming;
  sch_enabled : bool;
  sch_next_run_at : option Instant;
  sch_last_run_at : option Instant;
  sch_misfire_policy : MisfirePolicy;
  sch_misfire_grace_seconds : option Z;
  sch_catchup_policy : CatchupPolicy;
  sch_max_catchup_runs : Z;
  sch_max_catchup_age_seconds : Z;
  sch_revision : Z;
  sch_created_at : Instant;
  sch_updated_at : Instant;
}.

Definition misfire_name (value : MisfirePolicy) : string :=
  match value with
  | RunLate => "run_late"
  | MisfireSkip => "skip"
  | GracePeriod => "grace_period"
  end.

Definition parse_misfire (value : string) : result MisfirePolicy StoreError :=
  if (value =? "run_late")%string then Ok RunLate
  else if (value =? "skip")%string then Ok MisfireSkip
  else if (value =? "grace_period")%string then Ok GracePeriod
  else Err Internal.

Definition catchup_name (value : CatchupPolicy) : string :=
  match value with
  | CatchupSkip => "skip"
  | RunOnce => "run_once"
  | CatchUp => "catch_up"
  end.

Definition parse_catchup (value : string) : result CatchupPolicy StoreError :=
  if (value =? "skip")%string then Ok CatchupSkip
  else if (value =? "run_once")%string then Ok RunOnce
  else if (value =? "catch_up")%string then Ok CatchUp
  else Err Internal.

Definition selection_ids (target : TargetSelection) : option Uuid * option Uuid :=
  match target with
  | SelTarget id => (Some id, None)
  | SelTargetSet id => (None, Some id)
  end.

Definition target_selection (target_id target_set_id : option Uuid)
  : result TargetSelection StoreError :=
  match target_id, target_set_id with
  | Some id, None => Ok (SelTarget id)
  | None, Some id => Ok (SelTargetSet id)
  | _, _ => Err Internal
  end.

(** What the planner hands to the store. *)
Record PlannedOccurrence : Type := mkPlannedOccurrence {
  po_scheduled_at : Instant;
  po_execute : bool;
  po_lateness_seconds : Z;
  po_reason : option string;
  po_dispatch_deadline : option Instant;
}.

Record SchedulePlan : Type := mkSchedulePlan {
  sp_schedule_id : Uuid;
  sp_owner : Uuid;
  sp_occurrences : list PlannedOccurrence;
  sp_next_run_at : option Instant;
  sp_disable : bool;
}.

(** ** Namespaces, Targets and Target Sets *)

Record Namespace : Type := mkNamespace {
  ns_id : Uuid;
  ns_name : NamespaceName;
  ns_created_at : Instant;
}.

Record NamespaceMismatch : Type := mkNamespaceMismatch {
  nm_expected : Uuid;
  nm_actual : Uuid;
}.

Record QualifiedName : Type := mkQualifiedName {
  qn_namespace : NamespaceName;
  qn_resource : ResourceName;
}.

Definition qualify (self : Namespace) (resource_namespace_id : Uuid) (resource_name : ResourceName)
  : result QualifiedName NamespaceMismatch :=
  if bool_decide (ns_id self = resource_namespace_id)
  then Ok {| qn_namespace := ns_name self; qn_resource := resource_name |}
  else Err {| nm_expected := ns_id self; nm_actual := resource_namespace_id |}.

Record Target : Type := mkTarget {
  tgt_id : Uuid;
  tgt_namespace_id : Uuid;
  tgt_name : ResourceName;
  tgt_arguments : list string;
  tgt_inputs : value;
  tgt_created_at : Instant;
  tgt_updated_at : Instant;
}.

Record TargetSet : Type := mkTargetSet {
  ts_id : Uuid;
  ts_namespace_id : Uuid;
  ts_name : ResourceName;
  ts_members : gset Uuid;
  ts_inputs : value;
  ts_created_at : Instant;
  ts_updated_at : Instant;
}.

(** The new membership and what [BTreeSet::insert] answers. *)
Definition add_target (self : TargetSet) (target : Target)
  : result (bool * TargetSet) NamespaceMismatch :=
  if bool_decide (ts_namespace_id self <> tgt_namespace_id target)
  then Err {| nm_expected := ts_namespace_id self; nm_actual := tgt_namespace_id target |}
  else Ok (bool_decide (tgt_id target ∉ ts_members self),
           {| ts_id := ts_id self; ts_namespace_id := ts_namespace_id self; ts_name := ts_name self;
              ts_members := {[tgt_id target]} ∪ ts_members self; ts_inputs := ts_inputs self;
              ts_created_at := ts_created_at self; ts_updated_at := ts_updated_at self |}).

Record Queue : Type := mkQueue {
  q_id : Uuid;
  q_name : QueueName;
  q_description : option string;
  q_enabled : bool;
  q_system : bool;
  q_created_at : Instant;
  q_updated_at : Instant;
}.

(** ** Pages *)

Record Page (T : Type) : Type := mkPage {
  items : list T;
  next_cursor : option string;
}.
Arguments mkPage {T}.
Arguments items {T}.
Arguments next_cursor {T}.

Definition page {R T : Type} (rows : list R) (limit : Z) (mapper : R -> result T StoreError)
    (cursor : T -> string) : result (Page T) StoreError :=
  let has_more := limit <? Z.of_nat (length rows) in
  let rows := if has_more then removelast rows else rows in
  let? items := collect mapper rows in
  Ok {| items := items;
        next_cursor := if has_more then option_map cursor (last items) else None |}.

Definition empty_page (T : Type) : Page T := {| items := []; next_cursor := None |}.

(** ** Bounded values *)

Definition count (value : Z) : result Z StoreError := try_from in_u64 Internal value.

(** [value.as_secs()] of a [std::time::Duration], here in nanoseconds. *)
Definition duration_seconds (value : Z) : result Z StoreError :=
  try_from in_i32 Internal (value / second).

Definition stored_revision (revision : Z) : result Z StoreError :=
  try_from in_i64 StaleRevision revision.

Definition TAIL_LIMIT : nat := 65536.

Definition bounded_tail (value : string) : string :=
  if (String.length value <=? TAIL_LIMIT)%nat then value
  else
    let start := (String.length value - TAIL_LIMIT)%nat in
    drop_bytes (next_boundary (S (String.length value)) value start) value.

Definition bounded_error (value : string) : string := take_chars 1024 value.

(** ** Round trips of the stored names *)

Lemma parse_run_status_name s : parse_run_status (run_status_name s) = Ok s.
Proof. by destruct s. Qed.

(** Chains of [if text =? literal then Ok _ else ...]. *)
Ltac invert_names H :=
  repeat match type of H with
  | (if (?a =? ?b)%string then _ else _) = _ =>
      let E := fresh "E" in
      destruct (a =? b)%string eqn:E; [apply String.eqb_eq in E; injection H as <-; exact E|clear E]
  end; discriminate H.

Lemma run_status_name_parse v s : parse_run_status v = Ok s -> v = run_status_name s.
Proof. unfold parse_run_status. intros H. invert_names H. Qed.

(** Each enumeration and its stored text determine one another: what the
    writer names the reader parses back, and no other text is accepted. *)
Theorem stored_names_roundtrip :
  (forall v s, parse_run_status v = Ok s <-> v = run_status_name s)
  /\ (forall v e, parse_executor v = Ok e <-> v = executor_name e)
  /\ (forall v m, parse_misfire v = Ok m <-> v = misfire_name m)
  /\ (forall v c, parse_catchup v = Ok c <-> v = catchup_name c).
Proof.
  repeat split.
  - apply run_status_name_parse.
  - intros ->. apply parse_run_status_name.
  - unfold parse_executor. intros H. invert_names H.
  - intros ->. by destruct e.
  - unfold parse_misfire. intros H. invert_names H.
  - intros ->. by destruct m.
  - unfold parse_catchup. intros H. invert_names H.
  - intros ->. by destruct c.
Qed.

Lemma selection_roundtrip t :
  let '(a, b) := selection_ids t in target_selection a b = Ok t.
Proof. by destruct t. Qed.

(** ** Pages *)

(** Over the first [limit + 1] rows of an ordered result, a page carries the
    first [limit] of them, and a cursor exactly when one was left over: the
    cursor of the page's last item. *)
Theorem page_spec {R T} (rows : list R) limit (mapper : R -> result T StoreError) cursor all :
  1 <= limit -> collect mapper (take (Z.to_nat limit + 1) rows) = Ok all ->
  page (take (Z.to_nat limit + 1) rows) limit mapper cursor =
  Ok {| items := take (Z.to_nat limit) all;
        next_cursor := if limit <? Z.of_nat (length rows)
                       then option_map cursor (last (take (Z.to_nat limit) all)) else None |}.
Proof.
  intros Hl Hall. unfold page. rewrite length_take.
  pose proof (collect_length _ _ _ Hall) as Hlen. rewrite length_take in Hlen.
  destruct (limit <? Z.of_nat (length rows)) eqn:Hmore; simp_bool.
  - destruct (limit <? Z.of_nat ((Z.to_nat limit + 1) `min` length rows)) eqn:Hm; simp_bool; [|lia].
    assert (removelast (take (Z.to_nat limit + 1) rows) = take (Z.to_nat limit) rows) as ->.
    { rewrite removelast_firstn_len, length_take, take_take. f_equal. lia. }
    assert (collect mapper (take (Z.to_nat limit) rows) = Ok (take (Z.to_nat limit) all)) as ->; [|done].
    apply collect_ok. apply collect_ok in Hall.
    replace (take (Z.to_nat limit) rows) with (take (Z.to_nat limit) (take (Z.to_nat limit + 1) rows))
      by (rewrite take_take; f_equal; lia).
    by apply Forall2_take.
  - destruct (limit <? Z.of_nat ((Z.to_nat limit + 1) `min` length rows)) eqn:Hm; simp_bool; [lia|].
    rewrite Hall. simpl. rewrite take_ge by lia. done.
Qed.

(** ** Bounded output tails *)

Lemma next_boundary_bounds (value : string) start :
  (start <= String.length value)%nat ->
  let b := next_boundary (S (String.length value)) value start in
  (start <= b <= String.length value)%nat /\ is_char_boundary value b = true.
Proof.
  intros H. cbv zeta. split; [split|].
  - apply next_boundary_ge.
  - by apply next_boundary_le.
  - apply next_boundary_is_boundary; lia.
Qed.

(** A stored tail has at most 65536 bytes and is the text from a character
    boundary to its end: the column's CHECK accepts it. *)
Theorem bounded_tail_spec (value : string) :
  (String.length (bounded_tail value) <= TAIL_LIMIT)%nat
  /\ exists start, is_char_boundary value start = true /\ bounded_tail value = drop_bytes start value.
Proof.
  unfold bounded_tail. destruct (String.length value <=? TAIL_LIMIT)%nat eqn:Hl.
  - apply Nat.leb_le in Hl. split; [done|]. exists 0%nat. split; [done|].
    unfold drop_bytes. rewrite Nat.sub_0_r. symmetry. apply substring_full.
  - apply Nat.leb_gt in Hl.
    pose proof (next_boundary_bounds value (String.length value - TAIL_LIMIT) ltac:(lia)) as [Hb Hc].
    split; [|by eauto]. rewrite drop_bytes_length by lia. lia.
Qed.

(** Three rows on a page of two: the cursor is the second row. *)
Lemma page_spec_witness :
  page (take 3 [1; 2; 3]) 2 (fun z => Ok z) (fun _ => "2"%string)
  = Ok {| items := [1; 2]; next_cursor := Some "2"%string |}.
Proof.
  exact (page_spec [1; 2; 3] 2 (fun z => Ok z) (fun _ => "2"%string) [1; 2; 3] ltac:(lia) eq_refl).
Defined.
