(* ===== verification/Auth.v ===== *)
(** * Capabilities, grants and the authorization policy

    services/server/src/application/auth.rs and auth/{capabilities,grants,policy}.rs:
    the registry of permissions, the normalized authority of a caller, and the
    deny-by-default decision on a resource.  [ResourceNamespaceResolver] and
    [Authorizer] are the two ports of the source, as classes; the decision is proved
    against the resolver's interface alone.  serde_json's reading and writing of a
    grant document is a parameter. *)

From S2P Require Import Prelude RustStr Json Inputs Names Domain.
From Stdlib Require Import Ascii String.
From stdpp Require Import base numbers strings sorting gmap list.

Local Open Scope Z_scope.

(** ** Callers *)

Inductive PrincipalKind : Type :=
| Development
| Human
| Service
| System.

Record Principal : Type := mkPrincipal {
  pr_id : string;
  pr_issuer : option string;
  pr_kind : PrincipalKind;
}.

Definition principal_new (id : string) (kind : PrincipalKind) : Principal := mkPrincipal id None kind.
Definition from_issuer (issuer subject : string) (kind : PrincipalKind) : Principal :=
  mkPrincipal subject (Some issuer) kind.

(** ** Resources *)

Inductive ResourceScope : Type :=
| RSControlPlane
| RSNamespace (id : Uuid)
| RSQueue (id : Uuid)
| RSJob (id : Uuid)
| RSTarget (id : Uuid)
| RSTargetSet (id : Uuid)
| RSSchedule (id : Uuid)
| RSWorkflow (id : Uuid)
| RSWorkflowRun (id : Uuid)
| RSRun (id : Uuid).

Inductive ResourceKind : Type :=
| RKControlPlane
| RKNamespace
| RKQueue
| RKJob
| RKTarget
| RKTargetSet
| RKSchedule
| RKWorkflow
| RKWorkflowRun
| RKRun.

#[export] Instance resource_kind_eq : EqDecision ResourceKind.
Proof. solve_decision. Defined.

Definition resource_kind (self : ResourceScope) : ResourceKind :=
  match self with
  | RSControlPlane => RKControlPlane
  | RSNamespace _ => RKNamespace
  | RSQueue _ => RKQueue
  | RSJob _ => RKJob
  | RSTarget _ => RKTarget
  | RSTargetSet _ => RKTargetSet
  | RSSchedule _ => RKSchedule
  | RSWorkflow _ => RKWorkflow
  | RSWorkflowRun _ => RKWorkflowRun
  | RSRun _ => RKRun
  end.

Inductive VisibilityScope : Type :=
| VisAll
| VisNamespaces (ids : gset Uuid)
| VisNone.

Inductive AuthorizationError : Type :=
| Unauthenticated
| Forbidden
| Hidden
| PolicyUnavailable.

Definition display_authorization_error (self : AuthorizationError) : string :=
  match self with
  | Unauthenticated => "authentication is required"
  | Forbidden => "operation is not authorized"
  | Hidden => "resource was not found"
  | PolicyUnavailable => "authorization policy is unavailable"
  end.

(** ** The registry of permissions *)

Inductive PermissionScope : Type := Global | Namespaced.

#[export] Instance permission_scope_eq : EqDecision PermissionScope.
Proof. solve_decision. Defined.

Inductive Capability : Type :=
| NamespaceCreate
| NamespaceRead
| NamespaceDelete
| QueueCreate
| QueueRead
| QueueUpdate
| QueueDelete
| JobCreate
| JobRead
| JobUpdate
| JobExecute
| TargetCreate
| TargetRead
| TargetUpdate
| TargetDelete
| TargetUse
| TargetSetCreate
| TargetSetRead
| TargetSetUpdate
| TargetSetUse
| ScheduleCreate
| ScheduleRead
| ScheduleUpdate
| WorkflowCreate
| WorkflowRead
| WorkflowUpdate
| WorkflowDelete
| WorkflowExecute
| WorkflowRunRead
| WorkflowRunCancel
| RunCreate
| RunRead
| WorkerRead
| MonitorRead
| OverviewRead.

#[export] Instance capability_eq : EqDecision Capability.
Proof. solve_decision. Defined.

Record PermissionDefinition : Type := mkPermissionDefinition {
  pd_capability : Capability;
  pd_identifier : string;
  pd_scope : PermissionScope;
  pd_resources : list ResourceKind;
  pd_description : string;
}.

Definition definition (self : Capability) : PermissionDefinition :=
  match self with
  | NamespaceCreate => mkPermissionDefinition self "crono.namespace.create" Global [RKControlPlane]
      "Create a Namespace; does not assign access to it."
  | NamespaceRead => mkPermissionDefinition self "crono.namespace.read" Namespaced [RKNamespace]
      "Read Namespace metadata; does not expose workload counts."
  | NamespaceDelete => mkPermissionDefinition self "crono.namespace.delete" Namespaced [RKNamespace]
      "Delete an empty Namespace subject to bootstrap protections."
  | QueueCreate => mkPermissionDefinition self "crono.queue.create" Global [RKControlPlane]
      "Create a global worker Queue."
  | QueueRead => mkPermissionDefinition self "crono.queue.read" Global [RKControlPlane; RKQueue]
      "Read global Queues, including selecting a Queue for a Job."
  | QueueUpdate => mkPermissionDefinition self "crono.queue.update" Global [RKQueue]
      "Edit or enable a global Queue."
  | QueueDelete => mkPermissionDefinition self "crono.queue.delete" Global [RKQueue]
      "Delete an unused non-system Queue."
  | JobCreate => mkPermissionDefinition self "crono.job.create" Namespaced [RKNamespace]
      "Create executable Job definitions in a Namespace."
  | JobRead => mkPermissionDefinition self "crono.job.read" Namespaced [RKNamespace; RKJob]
      "Read Job definitions and execution configuration."
  | JobUpdate => mkPermissionDefinition self "crono.job.update" Namespaced [RKJob]
      "Replace executable configuration for future executions."
  | JobExecute => mkPermissionDefinition self "crono.job.execute" Namespaced [RKJob]
      "Execute a Job; Run creation and selected Target use are checked separately."
  | TargetCreate => mkPermissionDefinition self "crono.target.create" Namespaced [RKNamespace]
      "Create a Target's arguments and inputs."
  | TargetRead => mkPermissionDefinition self "crono.target.read" Namespaced [RKNamespace; RKTarget]
      "Read Target arguments and inputs."
  | TargetUpdate => mkPermissionDefinition self "crono.target.update" Namespaced [RKTarget]
      "Replace a Target's arguments and inputs for future executions."
  | TargetDelete => mkPermissionDefinition self "crono.target.delete" Namespaced [RKTarget]
      "Delete an unused Target subject to starter protections."
  | TargetUse => mkPermissionDefinition self "crono.target.use" Namespaced [RKTarget]
      "Use a Target's arguments and inputs for execution."
  | TargetSetCreate => mkPermissionDefinition self "crono.target_set.create" Namespaced [RKNamespace]
      "Create a Target Set; member Target reads are checked separately."
  | TargetSetRead => mkPermissionDefinition self "crono.target_set.read" Namespaced [RKNamespace; RKTargetSet]
      "Read Target Set configuration and membership."
  | TargetSetUpdate => mkPermissionDefinition self "crono.target_set.update" Namespaced [RKTargetSet]
      "Replace Target Set membership and inputs, affecting future scheduled executions."
  | TargetSetUse => mkPermissionDefinition self "crono.target_set.use" Namespaced [RKTargetSet]
      "Use a Target Set; each selected Target requires its own use grant."
  | ScheduleCreate => mkPermissionDefinition self "crono.schedule.create" Namespaced [RKNamespace]
      "Create recurring or deferred execution; underlying execution grants are required."
  | ScheduleRead => mkPermissionDefinition self "crono.schedule.read" Namespaced [RKNamespace; RKSchedule]
      "Read Schedule timing, references, and policy."
  | ScheduleUpdate => mkPermissionDefinition self "crono.schedule.update" Namespaced [RKSchedule]
      "Enable or disable a Schedule; enabling requires execution grants."
  | WorkflowCreate => mkPermissionDefinition self "crono.workflow.create" Namespaced [RKNamespace]
      "Create a Workflow graph; referenced Job reads are checked separately."
  | WorkflowRead => mkPermissionDefinition self "crono.workflow.read" Namespaced [RKNamespace; RKWorkflow]
      "Read Workflow graphs in visible Namespaces."
  | WorkflowUpdate => mkPermissionDefinition self "crono.workflow.update" Namespaced [RKWorkflow]
      "Replace a Workflow graph at its expected revision."
  | WorkflowDelete => mkPermissionDefinition self "crono.workflow.delete" Namespaced [RKWorkflow]
      "Delete a Workflow subject to invocation references."
  | WorkflowExecute => mkPermissionDefinition self "crono.workflow.execute" Namespaced [RKWorkflow]
      "Launch a Workflow; all underlying execution grants are checked separately."
  | WorkflowRunRead => mkPermissionDefinition self "crono.workflow_run.read" Namespaced [RKWorkflow; RKWorkflowRun]
      "Read invocation graphs and child Run identities; output needs Run read."
  | WorkflowRunCancel => mkPermissionDefinition self "crono.workflow_run.cancel" Namespaced [RKWorkflowRun]
      "Cancel pending Workflow work; invocation read is also required, with no process-kill authority."
  | RunCreate => mkPermissionDefinition self "crono.run.create" Namespaced [RKNamespace]
      "Commit execution intent in a Namespace; Job and Target grants remain required."
  | RunRead => mkPermissionDefinition self "crono.run.read" Namespaced [RKRun]
      "Read Run history, Attempt output, and lifecycle events."
  | WorkerRead => mkPermissionDefinition self "crono.worker.read" Global [RKControlPlane]
      "Read global worker presence and bounded diagnostics."
  | MonitorRead => mkPermissionDefinition self "crono.monitor.read" Global [RKControlPlane]
      "Read global operational and database monitoring."
  | OverviewRead => mkPermissionDefinition self "crono.overview.read" Namespaced [RKNamespace]
      "Read aggregate workload counts for assigned Namespaces."
  end.

Definition ALL_CAPABILITIES : list Capability :=
  [NamespaceCreate; NamespaceRead; NamespaceDelete; QueueCreate; QueueRead;
   QueueUpdate; QueueDelete; JobCreate; JobRead; JobUpdate;
   JobExecute; TargetCreate; TargetRead; TargetUpdate; TargetDelete;
   TargetUse; TargetSetCreate; TargetSetRead; TargetSetUpdate; TargetSetUse;
   ScheduleCreate; ScheduleRead; ScheduleUpdate; WorkflowCreate; WorkflowRead;
   WorkflowUpdate; WorkflowDelete; WorkflowExecute; WorkflowRunRead; WorkflowRunCancel;
   RunCreate; RunRead; WorkerRead; MonitorRead; OverviewRead].

(** The order of the declaration, which is Rust's derived order. *)
Definition capability_index (self : Capability) : nat :=
  (fix go (l : list Capability) (i : nat) : nat :=
     match l with
     | [] => i
     | c :: l => if bool_decide (c = self) then i else go l (S i)
     end) ALL_CAPABILITIES O.

#[export] Instance capability_countable : Countable Capability.
Proof.
  apply (inj_countable capability_index (fun i => nth_error ALL_CAPABILITIES i)). intros []; reflexivity.
Defined.

Definition from_permission_id (identifier : string) : option Capability :=
  List.find (fun capability => (pd_identifier (definition capability) =? identifier)%string) ALL_CAPABILITIES.

Definition accepts_resource (self : Capability) (resource : ResourceScope) : bool :=
  bool_decide (resource_kind resource ∈ pd_resources (definition self)).

(** ** Grants *)

Definition MAX_GRANT_DOCUMENT_BYTES : Z := 64 * 1024.
Definition MAX_GRANT_ENTRIES : Z := 256.

Inductive GrantScope : Type :=
| GlobalScope
| AllNamespaces
| NamespaceScope (namespace_id : Uuid).

#[export] Instance grant_scope_eq : EqDecision GrantScope.
Proof. solve_decision. Defined.

(** Also the derived order: [Global < AllNamespaces < Namespace { .. }]. *)
Definition scope_key (s : GrantScope) : N :=
  match s with GlobalScope => 0 | AllNamespaces => 1 | NamespaceScope id => id + 2 end%N.

#[export] Instance grant_scope_countable : Countable GrantScope.
Proof.
  apply (inj_countable scope_key
    (fun k => Some (if (k =? 0)%N then GlobalScope else if (k =? 1)%N then AllNamespaces else NamespaceScope (k - 2)%N))).
  intros [| |id]; [reflexivity|reflexivity|]. unfold scope_key.
  destruct (N.eqb_spec (id + 2) 0); [lia|]. destruct (N.eqb_spec (id + 2) 1); [lia|]. do 2 f_equal. lia.
Defined.

Inductive GrantError : Type :=
| InvalidDocument
| UnsupportedVersion
| UnknownPermission
| IncompatibleScope
| TooLarge.

Definition display_grant_error (self : GrantError) : string :=
  match self with
  | InvalidDocument => "invalid grant document"
  | UnsupportedVersion => "unsupported grant contract version"
  | UnknownPermission => "unknown permission identifier"
  | IncompatibleScope => "permission is incompatible with its assignment scope"
  | TooLarge => "grant document exceeds its size or assignment bound"
  end.

Record Assignment : Type := mkAssignment { as_scope : GrantScope; as_permissions : list string }.

Record GrantDocument : Type := mkGrantDocument { gd_version : Z; gd_grants : list Assignment }.

(** [BTreeMap<GrantScope, BTreeSet<Capability>>]. *)
Record GrantSet : Type := mkGrantSet { assignments : gmap GrantScope (gset Capability) }.

Definition grants_default : GrantSet := mkGrantSet ∅.

Definition compatible (scope : GrantScope) (permission : PermissionScope) : bool :=
  match scope, permission with
  | GlobalScope, Global => true
  | NamespaceScope _, Namespaced | AllNamespaces, Namespaced => true
  | _, _ => false
  end.

(** [assignments.entry(scope).or_default().insert(permission)] *)
Definition assign (scope : GrantScope) (permission : Capability) (m : gmap GrantScope (gset Capability))
  : gmap GrantScope (gset Capability) :=
  <[scope := {[permission]} ∪ default ∅ (m !! scope)]> m.

Fixpoint insert_permissions (scope : GrantScope) (permissions : list Capability)
    (m : gmap GrantScope (gset Capability)) : result (gmap GrantScope (gset Capability)) GrantError :=
  match permissions with
  | [] => Ok m
  | permission :: permissions =>
      if negb (compatible scope (pd_scope (definition permission))) then Err IncompatibleScope
      else insert_permissions scope permissions (assign scope permission m)
  end.

Fixpoint insert_entries (index : Z) (entries : list (GrantScope * list Capability))
    (m : gmap GrantScope (gset Capability)) : result (gmap GrantScope (gset Capability)) GrantError :=
  match entries with
  | [] => Ok m
  | (scope, permissions) :: entries =>
      if MAX_GRANT_ENTRIES <=? index then Err TooLarge
      else
        let? m := insert_permissions scope permissions m in
        insert_entries (index + 1) entries m
  end.

Definition grants_new (entries : list (GrantScope * list Capability)) : result GrantSet GrantError :=
  let? m := insert_entries 0 entries ∅ in
  Ok (mkGrantSet m).

(** serde_json on a grant document. *)
Class GrantJson : Type := {
  document_from_slice : string -> option GrantDocument;
  document_to_vec : GrantDocument -> string;
}.

(** What the derived implementations promise: a document that was written reads back. *)
Class GrantJsonLaws `{GrantJson} : Prop := {
  document_roundtrip : forall d, 0 <= gd_version d <= u16_max -> document_from_slice (document_to_vec d) = Some d;
}.

Definition permission_capabilities (assignment : Assignment) : result (GrantScope * list Capability) GrantError :=
  let? permissions := collect (fun identifier => ok_or (from_permission_id identifier) UnknownPermission)
                        (as_permissions assignment) in
  Ok (as_scope assignment, permissions).

Definition from_verified_json `{GrantJson} (document : option string) : result GrantSet GrantError :=
  match document with
  | None => Ok grants_default
  | Some bytes =>
      if MAX_GRANT_DOCUMENT_BYTES <? slen bytes then Err TooLarge
      else
        let? document := ok_or (document_from_slice bytes) InvalidDocument in
        if negb (gd_version document =? 1) then Err UnsupportedVersion
        else if MAX_GRANT_ENTRIES <? Z.of_nat (length (gd_grants document)) then Err TooLarge
        else
          let? entries := collect permission_capabilities (gd_grants document) in
          grants_new entries
  end.

(** The iteration order of the maps: by key. *)
Definition sorted_assignments (self : GrantSet) : list (GrantScope * gset Capability) :=
  sort_by (fun a b => (scope_key a.1 <=? scope_key b.1)%N) (map_to_list (assignments self)).
Definition sorted_capabilities (s : gset Capability) : list Capability :=
  sort_by (fun a b => (capability_index a <=? capability_index b)%nat) (elements s).

Definition grant_document (self : GrantSet) : GrantDocument :=
  mkGrantDocument 1 (map (fun kv => mkAssignment kv.1
    (map (fun permission => pd_identifier (definition permission)) (sorted_capabilities kv.2))) (sorted_assignments self)).

Definition to_json `{GrantJson} (self : GrantSet) : result string GrantError :=
  let bytes := document_to_vec (grant_document self) in
  if MAX_GRANT_DOCUMENT_BYTES <? slen bytes then Err TooLarge else Ok bytes.

Definition development : GrantSet :=
  mkGrantSet (fold_left (fun m permission =>
    assign (match pd_scope (definition permission) with Global => GlobalScope | Namespaced => AllNamespaces end) permission m)
    ALL_CAPABILITIES ∅).

Definition grants_contain (self : GrantSet) (scope : GrantScope) (capability : Capability) : bool :=
  match assignments self !! scope with
  | Some permissions => bool_decide (capability ∈ permissions)
  | None => false
  end.

Definition allows_global (self : GrantSet) (capability : Capability) : bool := grants_contain self GlobalScope capability.

Definition allows_namespace (self : GrantSet) (capability : Capability) (namespace_id : Uuid) : bool :=
  grants_contain self AllNamespaces capability || grants_contain self (NamespaceScope namespace_id) capability.

Definition granted_namespaces (self : GrantSet) (capability : Capability) : gset Uuid :=
  list_to_set (omap (fun kv : GrantScope * gset Capability =>
    match kv.1 with
    | NamespaceScope id => if bool_decide (capability ∈ kv.2) then Some id else None
    | _ => None
    end) (map_to_list (assignments self))).

Definition grants_visibility (self : GrantSet) (capability : Capability) : VisibilityScope :=
  if grants_contain self AllNamespaces capability then VisAll
  else
    let ids := granted_namespaces self capability in
    if bool_decide (ids = ∅) then VisNone else VisNamespaces ids.

(** ** The request's context *)

Record AuthenticatedCaller : Type := mkAuthenticatedCaller { ac_principal : Principal; ac_grants : GrantSet }.

(** [From<Principal>]: identity alone supplies no permissions. *)
Definition caller_from_principal (principal : Principal) : AuthenticatedCaller :=
  mkAuthenticatedCaller principal grants_default.

Record RequestContext : Type := mkRequestContext { rc_request_id : Uuid; rc_caller : AuthenticatedCaller }.

Definition context_grants (self : RequestContext) : GrantSet := ac_grants (rc_caller self).

(** ** The ports *)

Class ResourceNamespaceResolver : Type := {
  namespace_for : ResourceScope -> result (option Uuid) AuthorizationError;
}.

Class Authorizer : Type := {
  authorize : RequestContext -> Capability -> ResourceScope -> result unit AuthorizationError;
  visibility : RequestContext -> Capability -> result VisibilityScope AuthorizationError;
}.

(** ** The policy *)

Definition denial (capability : Capability) : AuthorizationError :=
  match capability with
  | RunRead | WorkflowRead | WorkflowRunRead => Hidden
  | _ => Forbidden
  end.

Section Policy.
Context {RN : ResourceNamespaceResolver}.

Definition grant_authorize (context : RequestContext) (capability : Capability) (resource : ResourceScope)
  : result unit AuthorizationError :=
  if negb (accepts_resource capability resource) then Err Forbidden
  else
    let grants := context_grants context in
    if bool_decide (pd_scope (definition capability) = Global)
    then if allows_global grants capability then Ok () else Err Forbidden
    else
      match grants_visibility grants capability with
      | VisNone => Err (denial capability)
      | VisAll => Ok ()
      | VisNamespaces _ =>
          let? namespace :=
            match resource with
            | RSNamespace id => Ok id
            | _ => let? owner := namespace_for resource in ok_or owner Hidden
            end in
          if allows_namespace grants capability namespace then Ok () else Err (denial capability)
      end.

(** The last segment of the identifier: [rsplit('.').next()]. *)
Definition last_segment (s : string) : string :=
  List.last (split_on "."%char s) s.

Definition grant_visibility (context : RequestContext) (capability : Capability) : result VisibilityScope AuthorizationError :=
  if bool_decide (pd_scope (definition capability) <> Namespaced)
     || negb (last_segment (pd_identifier (definition capability)) =? "read")%string
  then Err Forbidden
  else Ok (grants_visibility (context_grants context) capability).

#[export] Instance GrantAuthorizer : Authorizer := {| authorize := grant_authorize; visibility := grant_visibility |}.

End Policy.

(** ** What a caller was assigned *)

(** Some assignment of the scope lists the capability. *)
Definition assigned (entries : list (GrantScope * list Capability)) (scope : GrantScope) (capability : Capability) : Prop :=
  exists permissions, (scope, permissions) ∈ entries /\ capability ∈ permissions.

(** The Namespace that owns a resource, as the resolver answers. *)
Definition owned_by `{ResourceNamespaceResolver} (resource : ResourceScope) (namespace : Uuid) : Prop :=
  match resource with
  | RSNamespace id => namespace = id
  | _ => namespace_for resource = Ok (Some namespace)
  end.

(** What the assignments allow on a resource. *)
Definition entitled `{ResourceNamespaceResolver} (entries : list (GrantScope * list Capability)) (capability : Capability)
    (resource : ResourceScope) : Prop :=
  match pd_scope (definition capability) with
  | Global => assigned entries GlobalScope capability
  | Namespaced => assigned entries AllNamespaces capability
      \/ exists namespace, owned_by resource namespace /\ assigned entries (NamespaceScope namespace) capability
  end.

(** ** Lemmas: normalization *)

Definition holds (m : gmap GrantScope (gset Capability)) (scope : GrantScope) (capability : Capability) : Prop :=
  exists s, m !! scope = Some s /\ capability ∈ s.

Lemma contain_holds g scope c : grants_contain g scope c = true <-> holds (assignments g) scope c.
Proof.
  unfold grants_contain, holds. destruct (assignments g !! scope) as [s|]; [|split; [done|by intros (? & ? & _)]].
  rewrite bool_decide_eq_true. split; [eauto|]. intros (s' & [= <-] & H). done.
Qed.

Lemma holds_assign m scope p scope' c :
  holds (assign scope p m) scope' c <-> (scope' = scope /\ c = p) \/ holds m scope' c.
Proof.
  unfold holds, assign. destruct (decide (scope' = scope)) as [->|Hne].
  - rewrite lookup_insert_eq. split.
    + intros (s & [= <-] & [->%elem_of_singleton|Hc]%elem_of_union); [by left|]. right.
      destruct (m !! scope) as [s|]; [eauto|]. simpl in Hc. by apply not_elem_of_empty in Hc.
    + intros [[_ ->]|(s & Hs & Hc)]; (eexists; split; [done|]); [set_solver|]. rewrite Hs. simpl. set_solver.
  - rewrite lookup_insert_ne by done. split; [by right|]. intros [[? _]|?]; [done|done].
Qed.

(** No scope is kept without a capability. *)
Definition no_empty (m : gmap GrantScope (gset Capability)) : Prop := forall scope s, m !! scope = Some s -> s <> ∅.

Lemma no_empty_assign m scope p : no_empty m -> no_empty (assign scope p m).
Proof.
  intros Hm k s Hk. unfold assign in Hk. apply lookup_insert_Some in Hk as [[-> <-]|[_ Hk]]; [set_solver|by eapply Hm].
Qed.

Lemma insert_permissions_spec scope l : forall m,
  match insert_permissions scope l m with
  | Ok m' => (forall c, c ∈ l -> compatible scope (pd_scope (definition c)) = true)
      /\ (forall k c, holds m' k c <-> (k = scope /\ c ∈ l) \/ holds m k c)
      /\ (no_empty m -> no_empty m') /\ (forall k, is_Some (m' !! k) -> is_Some (m !! k) \/ k = scope)
  | Err e => e = IncompatibleScope /\ exists c, c ∈ l /\ compatible scope (pd_scope (definition c)) = false
  end.
Proof.
  induction l as [|p l IH]; intros m; simpl.
  - split; [by intros c Hc%elem_of_nil|]. split; [|auto]. intros k c. split; [by right|]. intros [[_ Hc%elem_of_nil]|?]; done.
  - destruct (compatible scope (pd_scope (definition p))) eqn:Hp; simpl.
    2:{ split; [done|]. exists p. split; [left|done]. }
    specialize (IH (assign scope p m)). destruct (insert_permissions scope l (assign scope p m)) as [m'|e].
    + destruct IH as (Hc & Hh & He & Hk). split; [|split; [|split]].
      * intros c [->|Hin]%elem_of_cons; [done|by apply Hc].
      * intros k c. rewrite Hh, holds_assign, elem_of_cons. naive_solver.
      * intros Hm. by apply He, no_empty_assign.
      * intros k Hs. destruct (Hk k Hs) as [Hs'|]; [|by right]. unfold assign in Hs'.
        destruct (decide (k = scope)); [by right|]. rewrite lookup_insert_ne in Hs' by done. by left.
    + destruct IH as (He & c & Hin & Hc). split; [done|]. exists c. split; [by right|done].
Qed.

Lemma insert_entries_spec l : forall index m,
  match insert_entries index l m with
  | Ok m' => (l = [] \/ index + Z.of_nat (length l) <= MAX_GRANT_ENTRIES)
      /\ (forall k ps c, (k, ps) ∈ l -> c ∈ ps -> compatible k (pd_scope (definition c)) = true)
      /\ (forall k c, holds m' k c <-> assigned l k c \/ holds m k c)
      /\ (no_empty m -> no_empty m') /\ (forall k, is_Some (m' !! k) -> is_Some (m !! k) \/ k ∈ map fst l)
  | Err e => MAX_GRANT_ENTRIES < index + Z.of_nat (length l)
      \/ exists k ps c, (k, ps) ∈ l /\ c ∈ ps /\ compatible k (pd_scope (definition c)) = false
  end.
Proof.
  induction l as [|[scope ps] l IH]; intros index m; cbn [insert_entries].
  - split; [by left|]. split; [by intros k ps c Hin%elem_of_nil|]. split; [|auto].
    intros k c. split; [by right|]. intros [(ps & Hin%elem_of_nil & _)|?]; done.
  - destruct (Z.leb_spec MAX_GRANT_ENTRIES index); [left; simpl length; lia|].
    pose proof (insert_permissions_spec scope ps m) as Hp. destruct (insert_permissions scope ps m) as [m1|e]; cbn [result_bind].
    2:{ destruct Hp as (_ & c & Hin & Hc). right. exists scope, ps, c. split; [left|done]. }
    destruct Hp as (Hc1 & Hh1 & He1 & Hk1). specialize (IH (index + 1) m1).
    destruct (insert_entries (index + 1) l m1) as [m'|e].
    + destruct IH as (Hlen & Hc & Hh & He & Hk). split; [|split; [|split; [|split]]].
      * right. destruct Hlen as [->|Hlen]; simpl length; lia.
      * intros k qs c [[= -> ->]|Hin]%elem_of_cons Hcq; [by apply Hc1|by eapply Hc].
      * intros k c. rewrite Hh, Hh1. unfold assigned. setoid_rewrite elem_of_cons. naive_solver.
      * auto.
      * intros k Hs. cbn [map fst]. rewrite elem_of_cons. destruct (Hk k Hs) as [Hs'|]; [|by right; right].
        destruct (Hk1 k Hs') as [?| ->]; [by left|right; by left].
    + destruct IH as [Hlt|(k & qs & c & Hin & ?)]; [left; simpl length; lia|]. right. exists k, qs, c. split; [by right|done].
Qed.

Lemma grants_new_spec entries g :
  grants_new entries = Ok g ->
  (forall k c, grants_contain g k c = true <-> assigned entries k c) /\ no_empty (assignments g)
  /\ (forall k, is_Some (assignments g !! k) -> k ∈ map fst entries)
  /\ (forall k ps c, (k, ps) ∈ entries -> c ∈ ps -> compatible k (pd_scope (definition c)) = true)
  /\ Z.of_nat (length entries) <= MAX_GRANT_ENTRIES.
Proof.
  intros H. unfold grants_new in H. pose proof (insert_entries_spec entries 0 ∅) as Hs.
  destruct (insert_entries 0 entries ∅) as [m|e]; [|done]. simpl in H. injection H as <-.
  destruct Hs as (Hlen & Hc & Hh & He & Hk). split; [|split; [|split; [|split]]].
  - intros k c. rewrite contain_holds. simpl. rewrite Hh. split; [|by left]. intros [?|(s & Hs & _)]; [done|].
    by rewrite lookup_empty in Hs.
  - apply He. intros k s Hs. by rewrite lookup_empty in Hs.
  - intros k Hs. destruct (Hk k Hs) as [[s Hs']|?]; [by rewrite lookup_empty in Hs'|done].
  - exact Hc.
  - destruct Hlen as [->|?]; [done|lia].
Qed.

(** ** Lemmas: visibility *)

Lemma elem_of_granted g c id : id ∈ granted_namespaces g c <-> grants_contain g (NamespaceScope id) c = true.
Proof.
  unfold granted_namespaces. rewrite elem_of_list_to_set, list_elem_of_omap, contain_holds. split.
  - intros ([[| |id'] s] & Hin%elem_of_map_to_list & H); simpl in H; [done|done|].
    destruct (bool_decide_reflect (c ∈ s)); [|done]. injection H as ->. by exists s.
  - intros (s & Hs & Hc). exists (NamespaceScope id, s). split; [by apply elem_of_map_to_list|]. simpl.
    by rewrite bool_decide_true.
Qed.

Lemma visibility_cases g c :
  match grants_visibility g c with
  | VisAll => grants_contain g AllNamespaces c = true
  | VisNone => grants_contain g AllNamespaces c = false /\ forall id, grants_contain g (NamespaceScope id) c = false
  | VisNamespaces ids => grants_contain g AllNamespaces c = false
      /\ forall id, id ∈ ids <-> grants_contain g (NamespaceScope id) c = true
  end.
Proof.
  unfold grants_visibility. destruct (grants_contain g AllNamespaces c) eqn:Ha; [done|].
  destruct (bool_decide_reflect (granted_namespaces g c = ∅)) as [He|]; [|split; [done|]; intros id; apply elem_of_granted].
  split; [done|]. intros id. apply not_true_is_false. intros Hc%elem_of_granted. by rewrite He in Hc.
Qed.

Lemma allows_namespace_spec g c id :
  allows_namespace g c id = true
  <-> grants_contain g AllNamespaces c = true \/ grants_contain g (NamespaceScope id) c = true.
Proof. unfold allows_namespace. apply orb_true_iff. Qed.

(** The owner the policy uses: the named Namespace, or the resolver's answer. *)
Definition owner_of `{ResourceNamespaceResolver} (resource : ResourceScope) : result Uuid AuthorizationError :=
  match resource with
  | RSNamespace id => Ok id
  | _ => let? owner := namespace_for resource in ok_or owner Hidden
  end.

Lemma owner_of_spec `{ResourceNamespaceResolver} resource ns : owner_of resource = Ok ns <-> owned_by resource ns.
Proof.
  destruct resource; simpl; try (split; [by intros [= <-]|by intros ->]);
    destruct (namespace_for _) as [[o|]|e]; simpl; split; congruence.
Qed.

(** The decision in terms of the normalized grants. *)
Lemma authorize_spec `{ResourceNamespaceResolver} context c resource :
  authorize context c resource = Ok ()
  <-> accepts_resource c resource = true
      /\ match pd_scope (definition c) with
         | Global => grants_contain (context_grants context) GlobalScope c = true
         | Namespaced => grants_contain (context_grants context) AllNamespaces c = true
             \/ exists ns, owned_by resource ns /\ grants_contain (context_grants context) (NamespaceScope ns) c = true
         end.
Proof.
  simpl. unfold grant_authorize. destruct (accepts_resource c resource); [|split; [done|by intros [? _]]]. simpl.
  destruct (pd_scope (definition c)); [rewrite bool_decide_true by done|rewrite bool_decide_false by done].
  { unfold allows_global. destruct (grants_contain _ GlobalScope c); split; [done|done|done|by intros [_ ?]]. }
  fold (owner_of resource). pose proof (visibility_cases (context_grants context) c) as Hv.
  destruct (grants_visibility (context_grants context) c) as [|ids|].
  - split; [|done]. intros _. split; [done|by left].
  - destruct Hv as [Ha Hids]. pose proof (owner_of_spec resource) as Ho.
    destruct (owner_of resource) as [ns|e]; cbn [result_bind].
    + destruct (allows_namespace _ c ns) eqn:Hn.
      * split; [|done]. intros _. split; [done|]. apply allows_namespace_spec in Hn as [?|?]; [by left|right].
        exists ns. split; [by apply Ho|done].
      * split; [done|]. intros [_ [?|(ns' & Hns & Hc)]]; [congruence|]. apply Ho in Hns. injection Hns as <-.
        assert (allows_namespace (context_grants context) c ns = true); [|congruence]. apply allows_namespace_spec. by right.
    + split; [done|]. intros [_ [?|(ns' & Hns & Hc)]]; [congruence|]. by apply Ho in Hns.
  - destruct Hv as [Ha Hn]. split; [done|]. intros [_ [?|(ns & _ & Hc)]]; [congruence|]. rewrite Hn in Hc. done.
Qed.

(** ** The policy's guarantees *)

Section Guarantees.
Context {RN : ResourceNamespaceResolver}.

(** C18: Authority comes only from the assignments: a caller with normalized grants is
    allowed a capability on a resource exactly when the capability applies to this
    kind of resource and an assignment lists it for the control plane, for all
    Namespaces, or for the Namespace the resolver names as the resource's owner; a
    resolver that fails or knows no owner allows nothing beyond the first two. *)
Theorem authorization_decision entries g context c resource :
  grants_new entries = Ok g -> context_grants context = g ->
  authorize context c resource = Ok () <-> accepts_resource c resource = true /\ entitled entries c resource.
Proof.
  intros Hg Hctx. apply grants_new_spec in Hg as (Hc & _). rewrite authorize_spec, Hctx. unfold entitled.
  destruct (pd_scope (definition c)); rewrite Hc; [done|]. setoid_rewrite Hc. done.
Qed.

End Guarantees.

(** Read-protected history does not reveal its existence: for a caller without a
    grant in the owner's Namespace, reading a Run, a Workflow or an invocation that
    exists is answered exactly as reading one that does not. *)
Theorem hidden_like_missing (exists_ missing : ResourceNamespaceResolver) context c resource namespace :
  c ∈ [RunRead; WorkflowRead; WorkflowRunRead] -> (forall id, resource <> RSNamespace id) ->
  @namespace_for exists_ resource = Ok (Some namespace) -> @namespace_for missing resource = Ok None ->
  allows_namespace (context_grants context) c namespace = false ->
  @authorize (@GrantAuthorizer exists_) context c resource = @authorize (@GrantAuthorizer missing) context c resource.
Proof.
  intros Hc Hr H1 H2 Ha. simpl. unfold grant_authorize. destruct (negb _); [done|]. destruct (bool_decide _); [done|].
  destruct (grants_visibility _ c); [done| |done].
  assert (denial c = Hidden) as Hd by (rewrite !elem_of_cons in Hc; by destruct Hc as [->|[->|[->|?%elem_of_nil]]]).
  destruct resource as [|id|id|id|id|id|id|id|id|id]; try (by destruct (Hr id));
    rewrite H1, H2; cbn [result_bind ok_or]; by rewrite Ha, Hd.
Qed.

(** ** Identifiers and documents *)

(** The registry of permissions is unambiguous: an identifier parses to a capability
    exactly when it is that capability's identifier. *)
Theorem permission_identifiers identifier c :
  from_permission_id identifier = Some c <-> identifier = pd_identifier (definition c).
Proof.
  split.
  - intros [_ H%String.eqb_eq]%List.find_some. done.
  - intros ->. by destruct c.
Qed.

Lemma collect_permissions l :
  collect (fun identifier => ok_or (from_permission_id identifier) UnknownPermission)
    (map (fun p => pd_identifier (definition p)) l) = Ok l.
Proof. induction l as [|c l IH]; [done|]. cbn [map collect]. rewrite IH. by destruct c. Qed.

Lemma collect_assignments (l : list (GrantScope * gset Capability)) :
  collect permission_capabilities (map (fun kv => mkAssignment kv.1
    (map (fun permission => pd_identifier (definition permission)) (sorted_capabilities kv.2))) l)
  = Ok (map (fun kv => (kv.1, sorted_capabilities kv.2)) l).
Proof.
  induction l as [|kv l IH]; [done|]. cbn [map collect]. unfold permission_capabilities at 1. cbn [as_scope as_permissions].
  rewrite collect_permissions. cbn [result_bind]. rewrite IH. done.
Qed.

Lemma assigned_document g k c :
  assigned (map (fun kv => (kv.1, sorted_capabilities kv.2)) (sorted_assignments g)) k c <-> grants_contain g k c = true.
Proof.
  rewrite contain_holds. unfold assigned, holds. split.
  - intros (ps & Hin & Hc). apply list_elem_of_fmap in Hin as ([k' s] & [= -> ->] & Hin).
    unfold sorted_assignments in Hin. rewrite elem_of_sort_by, elem_of_map_to_list in Hin.
    exists s. split; [done|]. unfold sorted_capabilities in Hc. by rewrite elem_of_sort_by, elem_of_elements in Hc.
  - intros (s & Hs & Hc). exists (sorted_capabilities s). split.
    + apply list_elem_of_fmap. exists (k, s). split; [done|]. unfold sorted_assignments. by rewrite elem_of_sort_by, elem_of_map_to_list.
    + unfold sorted_capabilities. by rewrite elem_of_sort_by, elem_of_elements.
Qed.

(** Grants are determined by what they contain. *)
Lemma grants_eq g g' :
  no_empty (assignments g) -> no_empty (assignments g') ->
  (forall k c, grants_contain g k c = true <-> grants_contain g' k c = true) -> g = g'.
Proof.
  intros H1 H2 Hc. destruct g as [m], g' as [m']. f_equal. simpl in *. setoid_rewrite contain_holds in Hc. unfold holds in Hc. simpl in Hc.
  apply map_eq. intros k. destruct (m !! k) as [s|] eqn:Hs, (m' !! k) as [s'|] eqn:Hs'; [| | |done].
  - f_equal. apply set_eq. intros c. specialize (Hc k c). rewrite Hs, Hs' in Hc. naive_solver.
  - exfalso. apply (H1 k s Hs), set_eq. intros c. split; [|by intros ?%not_elem_of_empty]. intros Hin.
    destruct (proj1 (Hc k c)) as (? & ? & _); [by exists s|congruence].
  - exfalso. apply (H2 k s' Hs'), set_eq. intros c. split; [|by intros ?%not_elem_of_empty]. intros Hin.
    destruct (proj2 (Hc k c)) as (? & ? & _); [by exists s'|congruence].
Qed.

Lemma grants_new_accepts entries :
  Z.of_nat (length entries) <= MAX_GRANT_ENTRIES ->
  (forall k ps c, (k, ps) ∈ entries -> c ∈ ps -> compatible k (pd_scope (definition c)) = true) ->
  exists g, grants_new entries = Ok g.
Proof.
  intros Hl Hc. unfold grants_new. pose proof (insert_entries_spec entries 0 ∅) as Hs.
  destruct (insert_entries 0 entries ∅) as [m|e]; [by eexists|]. exfalso.
  destruct Hs as [?|(k & ps & c & Hin & Hcp & Hf)]; [lia|]. rewrite (Hc _ _ _ Hin Hcp) in Hf. done.
Qed.

Lemma assigned_scopes_bound g entries :
  grants_new entries = Ok g -> (length (sorted_assignments g) <= length entries)%nat.
Proof.
  intros H. apply grants_new_spec in H as (_ & _ & Hk & _). unfold sorted_assignments.
  rewrite (Permutation_length (sort_by_Permutation _ _)).
  rewrite <- (length_map fst (map_to_list (assignments g))), <- (length_map fst entries).
  apply submseteq_length, NoDup_submseteq; [apply NoDup_fst_map_to_list|].
  intros k Hin. apply Hk. apply list_elem_of_fmap in Hin as ([k' s] & -> & Hin%elem_of_map_to_list). eauto.
Qed.

(** Grants survive interchange: normalized authority that fits the size bound and is
    written as a document reads back as the same authority, whatever duplicates and
    order the assignments had. *)
Theorem grants_json_roundtrip `{GrantJsonLaws} entries g bytes :
  grants_new entries = Ok g -> to_json g = Ok bytes -> from_verified_json (Some bytes) = Ok g.
Proof.
  intros Hg Hb. unfold to_json in Hb. unfold from_verified_json.
  destruct (MAX_GRANT_DOCUMENT_BYTES <? slen (document_to_vec (grant_document g))) eqn:Hsize; [done|]. injection Hb as <-.
  rewrite Hsize, document_roundtrip by done. cbn [result_bind ok_or gd_version gd_grants grant_document].
  change (negb (1 =? 1)) with false. cbv iota. rewrite length_map. pose proof (assigned_scopes_bound _ _ Hg) as Hlen.
  pose proof (grants_new_spec _ _ Hg) as (Hc & Hne & _ & Hcomp & Hmax).
  rewrite (proj2 (Z.ltb_ge _ _)) by lia. rewrite collect_assignments. cbn [result_bind].
  destruct (grants_new_accepts (map (fun kv => (kv.1, sorted_capabilities kv.2)) (sorted_assignments g))) as [g' Hg'].
  - rewrite length_map. lia.
  - intros k ps c Hin Hcp. assert (grants_contain g k c = true) as (qs & Hin' & Hcq)%Hc by (apply assigned_document; by exists ps). by eapply Hcomp.
  - rewrite Hg'. f_equal. apply grants_new_spec in Hg' as (Hc' & Hne' & _).
    apply grants_eq; [done|done|]. intros k c. rewrite Hc'. apply assigned_document.
Qed.
