(* ===== verification/Recurrence.v ===== *)
(** * Cron recurrence (scheduler/recurrence.rs)

    The next occurrence of a five-field expression: the library's answer,
    corrected by a minute-by-minute scan over the hours after a backward clock
    change, in which a local time occurs twice. *)

From S2P Require Import Prelude RustStr Json Inputs Names Domain.
From Stdlib Require Import Ascii String.
From stdpp Require Import base numbers strings sorting gmap list.

Local Open Scope Z_scope.

Inductive RecurrenceError : Type := InvalidExpression | InvalidTimezone | OutOfRange.

(** A zone's civil time at an instant, as chrono's accessors report it. *)
Record Civil : Type := mkCivil {
  minute : Z;
  hour : Z;
  day : Z;
  month : Z;
  num_days_from_sunday : Z;
}.

(** What the code uses of the crates chrono, chrono-tz, cron-parser and time.
    An instant is its number of nanoseconds since the epoch. *)
Class CronCrates : Type := {
  Tz : Type;
  parse_tz : string -> option Tz;
  civil : Tz -> Instant -> Civil;
  parse_cron : string -> Tz -> Instant -> option Instant;
  parse_field : string -> Z -> Z -> option (gset Z);
  chrono_range : Instant -> bool;
  time_range : Instant -> bool;
}.

Definition chrono_bound : Z := 10000000000000 * second.

(** Documented behaviour: chrono's years end at 262143. *)
Class CronLaws `{CronCrates} : Prop := {
  chrono_bounded t : chrono_range t = true -> Z.abs t <= chrono_bound;
}.

(** [str::split_whitespace]: the words of a text. *)
Fixpoint words_fuel (fuel : nat) (word s : string) : list string :=
  let flush (l : list string) := if (word =? "")%string then l else word :: l in
  match fuel with
  | O => flush []
  | S fuel =>
      match next_char s with
      | None => flush []
      | Some (c, rest) =>
          if is_whitespace c then flush (words_fuel fuel "" rest)
          else words_fuel fuel (String.append word (before s rest)) rest
      end
  end.

Definition split_whitespace (s : string) : list string := words_fuel (String.length s) "" s.

Record CronFields : Type := mkCronFields {
  minutes : gset Z;
  hours : gset Z;
  days_of_month : gset Z;
  months : gset Z;
  days_of_week : gset Z;
}.

Definition matches (self : CronFields) (candidate : Civil) : bool :=
  bool_decide (minute candidate ∈ minutes self) && bool_decide (hour candidate ∈ hours self)
  && bool_decide (day candidate ∈ days_of_month self) && bool_decide (month candidate ∈ months self)
  && bool_decide (num_days_from_sunday candidate ∈ days_of_week self).

Definition minute_ns : Z := 60 * second.
Definition OVERLAP_SEARCH_HOURS : Z := 26.

Section Recurrence.
Context {CC : CronCrates}.

Definition parsed_fields (expression : string) : result CronFields RecurrenceError :=
  match split_whitespace expression with
  | [f1; f2; f3; f4; f5] =>
      let? minutes := ok_or (parse_field f1 0 59) InvalidExpression in
      let? hours := ok_or (parse_field f2 0 23) InvalidExpression in
      let? days_of_month := ok_or (parse_field f3 1 31) InvalidExpression in
      let? months := ok_or (parse_field f4 1 12) InvalidExpression in
      let? days_of_week := ok_or (parse_field f5 0 6) InvalidExpression in
      Ok (mkCronFields minutes hours days_of_month months days_of_week)
  | _ => Err InvalidExpression
  end.

(** [DateTime::from_timestamp] and [checked_add_signed]. *)
Definition in_chrono (t : Instant) : option Instant := if chrono_range t then Some t else None.

(** The [while] of [first_utc_match]; [None] when the fuel runs out. *)
Fixpoint scan (fuel : nat) (fields : CronFields) (zone : Tz) (search_end library_next candidate : Instant)
  : option (result Instant RecurrenceError) :=
  match fuel with
  | O => None
  | S fuel =>
      if candidate <=? search_end then
        if matches fields (civil zone candidate) then Some (Ok candidate)
        else match in_chrono (candidate + minute_ns) with
             | None => Some (Err OutOfRange)
             | Some next => scan fuel fields zone search_end library_next next
             end
      else Some (Ok library_next)
  end.

(** Iterations that pass from [candidate] beyond [search_end]. *)
Definition scan_fuel (search_end candidate : Instant) : nat :=
  S (Z.to_nat ((search_end - candidate) / minute_ns + 1)).

Definition search_end (after library_next : Instant) : Instant :=
  match in_chrono (after + OVERLAP_SEARCH_HOURS * 3600 * second) with
  | Some end_ => Z.min end_ library_next
  | None => library_next
  end.

Definition first_candidate (after : Instant) : Instant :=
  saturate i64_min i64_max (saturate i64_min i64_max (after / second / 60 + 1) * 60) * second.

Definition first_utc_match (fields : CronFields) (zone : Tz) (after library_next : Instant)
  : result Instant RecurrenceError :=
  let? candidate := ok_or (in_chrono (first_candidate after)) OutOfRange in
  let search_end := search_end after library_next in
  default (Err OutOfRange) (scan (scan_fuel search_end candidate) fields zone search_end library_next candidate).

Definition validate_cron (expression timezone : string) (now : Instant) : result unit RecurrenceError :=
  let? _ := parsed_fields expression in
  let? zone := ok_or (parse_tz timezone) InvalidTimezone in
  let? _ := ok_or (parse_cron expression zone now) InvalidExpression in
  Ok ().

Definition next_cron_occurrence (expression timezone : string) (after : Instant) : result Instant RecurrenceError :=
  let? fields := parsed_fields expression in
  let? zone := ok_or (parse_tz timezone) InvalidTimezone in
  let? utc := ok_or (in_chrono after) OutOfRange in
  let? library_next := ok_or (parse_cron expression zone utc) InvalidExpression in
  let? next := first_utc_match fields zone utc library_next in
  if in_i64 next && time_range next then Ok next else Err OutOfRange.

(** ** Lemmas *)

(** [m] is the first matching minute of the scan that starts at [candidate]. *)
Definition first_match (fields : CronFields) (zone : Tz) (candidate m : Instant) : Prop :=
  matches fields (civil zone m) = true /\ exists k, m = candidate + Z.of_nat k * minute_ns
    /\ forall j, (j < k)%nat -> matches fields (civil zone (candidate + Z.of_nat j * minute_ns)) = false.

Definition no_match (fields : CronFields) (zone : Tz) (candidate last : Instant) : Prop :=
  forall j, candidate + Z.of_nat j * minute_ns <= last ->
    matches fields (civil zone (candidate + Z.of_nat j * minute_ns)) = false.

Lemma scan_shift fields zone candidate k :
  matches fields (civil zone candidate) = false ->
  (forall j, (j < k)%nat -> matches fields (civil zone (candidate + minute_ns + Z.of_nat j * minute_ns)) = false) ->
  forall j, (j < S k)%nat -> matches fields (civil zone (candidate + Z.of_nat j * minute_ns)) = false.
Proof.
  intros H0 H [|j] Hj.
  - by replace (candidate + Z.of_nat 0 * minute_ns) with candidate by lia.
  - replace (candidate + Z.of_nat (S j) * minute_ns) with (candidate + minute_ns + Z.of_nat j * minute_ns) by lia.
    apply H. lia.
Qed.

Lemma scan_spec fuel fields zone end_ library_next candidate :
  (Z.to_nat ((end_ - candidate) / minute_ns + 1) < fuel)%nat ->
  match scan fuel fields zone end_ library_next candidate with
  | Some (Ok next) => (first_match fields zone candidate next /\ next <= end_)
                      \/ (next = library_next /\ no_match fields zone candidate end_)
  | Some (Err e) => e = OutOfRange
  | None => False
  end.
Proof.
  revert candidate. induction fuel as [|fuel IH]; intros candidate Hf; [lia|]. simpl.
  destruct (Z.leb_spec candidate end_) as [Hle|Hgt].
  2:{ right. split; [done|]. intros j Hj. unfold minute_ns, second in *. lia. }
  destruct (matches _ _) eqn:Hm.
  { left. split; [|done]. split; [done|]. exists 0%nat. split; [lia|]. intros j Hj. lia. }
  unfold in_chrono. destruct (chrono_range _); [|done].
  assert (((end_ - (candidate + minute_ns)) / minute_ns + 1) = (end_ - candidate) / minute_ns) as Hq.
  { replace (end_ - (candidate + minute_ns)) with (end_ - candidate + (-1) * minute_ns) by lia.
    rewrite Z_div_plus_full; unfold minute_ns, second; lia. }
  assert (0 <= (end_ - candidate) / minute_ns) by (apply Z.div_pos; unfold minute_ns, second; lia).
  specialize (IH (candidate + minute_ns) ltac:(lia)).
  destruct (scan _ _ _ _ _ _) as [[next|e]|]; [|done|done].
  destruct IH as [((Hmn & k & -> & Hk) & Hend)|[-> Hno]].
  - left. split; [|done]. split; [done|]. exists (S k). split; [lia|]. by apply scan_shift.
  - right. split; [done|]. intros [|j] Hj; [by replace (candidate + Z.of_nat 0 * minute_ns) with candidate by lia|].
    replace (candidate + Z.of_nat (S j) * minute_ns) with (candidate + minute_ns + Z.of_nat j * minute_ns) in * by lia.
    by apply Hno.
Qed.

Lemma first_candidate_after after :
  Z.abs after <= chrono_bound ->
  first_candidate after = (after / second / 60 + 1) * minute_ns
  /\ after < first_candidate after <= after + minute_ns.
Proof.
  intros H. unfold first_candidate, saturate, minute_ns. unfold chrono_bound, second in *.
  pose proof (Z.div_mod after 1000000000 ltac:(lia)) as Hd.
  pose proof (Z.mod_pos_bound after 1000000000 ltac:(lia)) as Hr.
  revert Hd Hr. generalize (after / 1000000000) (after mod 1000000000). intros q r Hd Hr.
  pose proof (Z.div_mod q 60 ltac:(lia)) as He. pose proof (Z.mod_pos_bound q 60 ltac:(lia)) as Hm.
  revert He Hm. generalize (q / 60) (q mod 60). intros m n He Hm.
  unfold i64_min, i64_max. rewrite (Z.min_r _ (m + 1)), (Z.max_r _ (m + 1)) by lia.
  rewrite Z.min_r, Z.max_r by lia. lia.
Qed.

Lemma first_utc_match_spec fields zone after library_next :
  match first_utc_match fields zone after library_next with
  | Ok next => (first_match fields zone (first_candidate after) next /\ next <= search_end after library_next)
      \/ (next = library_next /\ no_match fields zone (first_candidate after) (search_end after library_next))
  | Err e => e = OutOfRange
  end.
Proof.
  unfold first_utc_match, in_chrono. destruct (chrono_range (first_candidate after)); [|done].
  cbn [ok_or result_bind].
  pose proof (scan_spec (scan_fuel (search_end after library_next) (first_candidate after)) fields zone
    (search_end after library_next) library_next (first_candidate after) ltac:(unfold scan_fuel; lia)) as H.
  by destruct (scan _ _ _ _ _ _) as [[next|e]|].
Qed.

(** The minutes the code looks at are those of the 26 hours after [after]. *)
Definition in_window (after t : Instant) : Prop :=
  chrono_range (after + 26 * 3600 * second) = true -> t <= after + 26 * 3600 * second.

Lemma search_end_window after library_next t :
  t <= search_end after library_next <-> t <= library_next /\ in_window after t.
Proof.
  unfold search_end, in_chrono, in_window, OVERLAP_SEARCH_HOURS. destruct (chrono_range _); [|naive_solver].
  rewrite Z.min_glb_iff. naive_solver.
Qed.

(** The parser's answers for an expression in a zone lie after the instants
    it is asked about.  It chooses the earlier instant of a local minute that
    occurs twice, so this fails in the second pass of a repeated hour. *)
Definition parser_advances (expression timezone : string) : Prop := forall zone t t',
  parse_tz timezone = Some zone -> parse_cron expression zone t = Some t' -> t < t'.

(** Every whole minute after an instant is one of the scan's candidates. *)
Lemma minute_index after m :
  first_candidate after = (after / second / 60 + 1) * minute_ns ->
  after < m -> m mod minute_ns = 0 ->
  exists j, m = first_candidate after + Z.of_nat j * minute_ns.
Proof.
  intros -> Hlt Hm. rewrite Z.div_div by (unfold second; lia). change (second * 60) with minute_ns.
  pose proof (Z.div_mod m minute_ns ltac:(unfold minute_ns, second; lia)) as Hd. rewrite Hm in Hd.
  assert (after / minute_ns < m / minute_ns) as Hq.
  { apply Z.div_lt_upper_bound; [unfold minute_ns, second; lia|]. unfold minute_ns, second in *. lia. }
  exists (Z.to_nat (m / minute_ns - (after / minute_ns + 1))). unfold minute_ns, second in *. lia.
Qed.

Lemma whole_minute after k :
  first_candidate after = (after / second / 60 + 1) * minute_ns ->
  (first_candidate after + Z.of_nat k * minute_ns) mod minute_ns = 0.
Proof.
  intros ->. rewrite <- Z.mul_add_distr_r. apply Z.mod_mul. unfold minute_ns, second. lia.
Qed.

Context {CL : CronLaws}.

(** What the next occurrence is, beside the parser's answer [library_next]. *)
Definition next_after (fields : CronFields) (zone : Tz) (after library_next next : Instant) : Prop :=
  (after < next <= library_next /\ in_window after next /\ matches fields (civil zone next) = true
   /\ next mod minute_ns = 0
   /\ forall m, after < m < next -> m mod minute_ns = 0 -> matches fields (civil zone m) = false)
  \/ (next = library_next
      /\ forall m, after < m <= library_next -> in_window after m -> m mod minute_ns = 0 ->
          matches fields (civil zone m) = false).

Lemma next_cron_cases expression timezone after next :
  next_cron_occurrence expression timezone after = Ok next ->
  exists fields zone library_next,
    parsed_fields expression = Ok fields /\ parse_tz timezone = Some zone
    /\ parse_cron expression zone after = Some library_next /\ next_after fields zone after library_next next.
Proof.
  intros H. unfold next_cron_occurrence in H.
  apply result_bind_ok in H as (fields & Hf & H).
  apply result_bind_ok in H as (zone & Hz & H). apply result_bind_ok in H as (utc & Hutc & H).
  apply result_bind_ok in H as (lib & Hlib & H). apply result_bind_ok in H as (next' & Hnext & H).
  destruct (_ && _); [injection H as <-|done]. unfold in_chrono in Hutc.
  destruct (chrono_range after) eqn:Hr; [injection Hutc as <-|done].
  destruct (parse_tz timezone) as [z|]; [injection Hz as ->|done].
  destruct (parse_cron _ _ _) as [t|] eqn:Hp; [injection Hlib as ->|done].
  exists fields, zone, lib. do 3 (split; [done|]).
  pose proof (first_candidate_after after (chrono_bounded _ Hr)) as Hc.
  pose proof (first_utc_match_spec fields zone after lib) as Hs. rewrite Hnext in Hs.
  destruct Hs as [[(Hm & k & -> & Hno) [Hend Hw]%search_end_window]|[-> Hno]]; [left|right].
  - split_and!; [unfold minute_ns, second in *; lia|done|done|done|by apply whole_minute; apply Hc|].
    intros m Hm1 Hm2. destruct (minute_index after m) as (j & ->); [apply Hc|lia|done|].
    apply Hno. unfold minute_ns, second in *. lia.
  - split; [done|]. intros m Hm1 Hw Hm2. destruct (minute_index after m) as (j & ->); [apply Hc|lia|done|].
    apply Hno. apply search_end_window. split; [lia|done].
Qed.

Lemma next_cron_after expression timezone after next :
  parser_advances expression timezone -> next_cron_occurrence expression timezone after = Ok next -> after < next.
Proof.
  intros Hp (fields & zone & lib & _ & Hz & Hl & [[H _]|[-> _]])%next_cron_cases; [lia|by eapply Hp].
Qed.

(** C24: The next occurrence is the first whole minute after the given instant
    whose local time matches, looked for up to the parser's answer and within
    the 26 hours a clock change can repeat, or, when no such minute matches,
    the parser's answer itself.  So it is later than the given instant exactly
    when the parser's answer is. *)
Theorem next_cron_occurrence_spec expression timezone after next :
  next_cron_occurrence expression timezone after = Ok next ->
  exists fields zone library_next,
    parsed_fields expression = Ok fields /\ parse_tz timezone = Some zone
    /\ parse_cron expression zone after = Some library_next
    /\ ((after < next <= library_next
         /\ (chrono_range (after + 26 * 3600 * second) = true -> next <= after + 26 * 3600 * second)
         /\ matches fields (civil zone next) = true /\ next mod minute_ns = 0
         /\ forall m, after < m < next -> m mod minute_ns = 0 -> matches fields (civil zone m) = false)
        \/ (next = library_next
            /\ forall m, after < m <= library_next ->
                (chrono_range (after + 26 * 3600 * second) = true -> m <= after + 26 * 3600 * second) ->
                m mod minute_ns = 0 -> matches fields (civil zone m) = false))
    /\ (after < next <-> after < library_next).
Proof.
  intros (fields & zone & lib & Hf & Hz & Hl & H)%next_cron_cases. exists fields, zone, lib.
  split_and!; [done|done|done|exact H|]. destruct H as [[Hn _]|[-> _]]; [lia|done].
Qed.

End Recurrence.
