(* ===== verification/Workflow.v ===== *)
(** * Workflow graphs (domain/workflow.rs)

    Definitions, their validation by Kahn's algorithm, and the rule that decides
    when a node of a running Workflow may start. *)

From S2P Require Import Prelude RustStr Json Inputs Names Domain.
From Stdlib Require Import String.
From stdpp Require Import base numbers strings sorting gmap list relations.

Local Open Scope Z_scope.

Inductive DependencyCondition : Type := Success | Failure | Always.

Record WorkflowNode : Type := mkWorkflowNode {
  wn_name : ResourceName;
  wn_job_id : Uuid;
}.

Record WorkflowEdge : Type := mkWorkflowEdge {
  we_from : ResourceName;
  we_to : ResourceName;
  we_condition : DependencyCondition;
}.

Record WorkflowDefinition : Type := mkWorkflowDefinition {
  wd_name : ResourceName;
  wd_description : option string;
  wd_nodes : list WorkflowNode;
  wd_edges : list WorkflowEdge;
}.

(** ** Validation *)

Definition node_names (self : WorkflowDefinition) : list string :=
  map (fun n => ResourceNameM.as_str (wn_name n)) (wd_nodes self).
Definition edge_pairs (self : WorkflowDefinition) : list (string * string) :=
  map (fun e => (ResourceNameM.as_str (we_from e), ResourceNameM.as_str (we_to e))) (wd_edges self).

(** The loop that fills [incoming]. *)
Fixpoint insert_nodes (names : list string) (incoming : gmap string nat) : result (gmap string nat) string :=
  match names with
  | [] => Ok incoming
  | name :: names =>
      if bool_decide (is_Some (incoming !! name)) then Err "node names must be unique within the Workflow"%string
      else insert_nodes names (<[name := O]> incoming)
  end.

Record Graph : Type := mkGraph {
  g_incoming : gmap string nat;
  g_pairs : gset (string * string);
  g_outgoing : gmap string (list string);
}.

(** One round of the loop over the edges. *)
Definition insert_edge (g : Graph) (edge : string * string) : result Graph string :=
  let '(from, to) := edge in
  if (from =? to)%string || negb (bool_decide (is_Some (g_incoming g !! from)))
     || negb (bool_decide (is_Some (g_incoming g !! to)))
  then Err "edges must reference distinct existing nodes in this Workflow"%string
  else if bool_decide ((from, to) ∈ g_pairs g)
  then Err "duplicate dependency endpoints are not allowed"%string
  else Ok {| g_incoming := alter S to (g_incoming g); g_pairs := {[(from, to)]} ∪ g_pairs g;
             g_outgoing := <[from := default [] (g_outgoing g !! from) ++ [to]]> (g_outgoing g) |}.

Fixpoint insert_edges (edges : list (string * string)) (g : Graph) : result Graph string :=
  match edges with
  | [] => Ok g
  | edge :: edges => let? g := insert_edge g edge in insert_edges edges g
  end.

(** The inner loop; [None] when a count would go below zero. *)
Fixpoint relax (downstream : list string) (incoming : gmap string nat) (ready : list string)
  : option (gmap string nat * list string) :=
  match downstream with
  | [] => Some (incoming, ready)
  | d :: ds =>
      match incoming !! d with
      | None => relax ds incoming ready
      | Some O => None
      | Some (S count) =>
          relax ds (<[d := count]> incoming) (if (count =? 0)%nat then ready ++ [d] else ready)
      end
  end.

(** The [while let]; [None] when the fuel runs out. *)
Fixpoint kahn (fuel : nat) (outgoing : gmap string (list string)) (incoming : gmap string nat)
    (ready : list string) (visited : nat) : option nat :=
  match fuel with
  | O => None
  | S fuel =>
      match ready with
      | [] => Some visited
      | node :: ready =>
          '(incoming, ready) ← relax (default [] (outgoing !! node)) incoming ready;
          kahn fuel outgoing incoming ready (S visited)
      end
  end.

Definition roots (incoming : gmap string nat) : list string :=
  sort_by (fun a b => negb (string_ltb b a))
    (omap (fun kv => if (kv.2 =? 0)%nat then Some kv.1 else None) (map_to_list incoming)).

Definition description_ok (d : option string) : bool :=
  match d with
  | None => true
  | Some value => negb (contains_byte nul value || (500 <? chars_count value))
  end.

(** [None] stands for a loop that does not end or a count below zero. *)
Definition try_validate (self : WorkflowDefinition) : option (result unit string) :=
  let nodes := length (wd_nodes self) in
  if (nodes =? 0)%nat || (64 <? nodes)%nat || (256 <? length (wd_edges self))%nat
  then Some (Err "a Workflow requires 1–64 nodes and at most 256 edges"%string)
  else if negb (description_ok (wd_description self))
  then Some (Err "description must be NUL-free and at most 500 characters"%string)
  else
    match insert_nodes (node_names self) ∅ with
    | Err e => Some (Err e)
    | Ok incoming =>
        match insert_edges (edge_pairs self) (mkGraph incoming ∅ ∅) with
        | Err e => Some (Err e)
        | Ok g =>
            visited ← kahn (S nodes) (g_outgoing g) (g_incoming g) (roots (g_incoming g)) 0;
            Some (if (visited =? nodes)%nat then Ok ()
                  else Err "Workflow dependencies must not contain cycles"%string)
        end
    end.

Definition validate (self : WorkflowDefinition) : result unit string :=
  default (Err ""%string) (try_validate self).

(** ** Node states *)

Inductive WorkflowNodeState : Type :=
| NPending | NReady | NRunning | NSucceeded | NFailed | NSkipped | NCancelled | NUnknown.

Definition node_terminal (s : WorkflowNodeState) : bool :=
  match s with NPending | NReady | NRunning => false | _ => true end.

Inductive WorkflowState : Type := WPending | WRunning | WSucceeded | WFailed | WCancelled.

Inductive DependencyDecision : Type := Waiting | Ready | Skipped_.

Definition condition_matches (condition : DependencyCondition) (state : WorkflowNodeState) : bool :=
  match condition, state with
  | Success, NSucceeded => true
  | Failure, (NFailed | NUnknown) => true
  | Always, _ => true
  | _, _ => false
  end.

Fixpoint decide_from (waiting : bool) (incoming : list (DependencyCondition * WorkflowNodeState)) : DependencyDecision :=
  match incoming with
  | [] => if waiting then Waiting else Ready
  | (condition, state) :: rest =>
      if negb (node_terminal state) then decide_from true rest
      else if condition_matches condition state then decide_from waiting rest
      else Skipped_
  end.

Definition dependency_decision (incoming : list (DependencyCondition * WorkflowNodeState)) : DependencyDecision :=
  decide_from false incoming.

#[export] Instance node_state_eq : EqDecision WorkflowNodeState.
Proof. solve_decision. Defined.
#[export] Instance workflow_state_eq : EqDecision WorkflowState.
Proof. solve_decision. Defined.

(** ** The abstract graph *)

Definition edge_rel (es : list (string * string)) (a b : string) : Prop := (a, b) ∈ es.

Definition acyclic (es : list (string * string)) : Prop := forall n, ~ tc (edge_rel es) n n.

(** What the two loops before Kahn's algorithm check. *)
Definition well_formed (names : list string) (es : list (string * string)) : Prop :=
  NoDup names /\ NoDup es /\ Forall (fun e => e.1 ∈ names /\ e.2 ∈ names /\ e.1 <> e.2) es.

(** Predecessors of [n] that are not yet visited. *)
Definition open_edges (es : list (string * string)) (seen : list string) (n : string) : nat :=
  length (filter (fun e => e.2 = n /\ e.1 ∉ seen) es).

Definition successors (es : list (string * string)) (n : string) : list string :=
  map snd (filter (fun e => e.1 = n) es).

(** Every predecessor of an element comes before it. *)
Definition topological (es : list (string * string)) (l : list string) : Prop :=
  forall l1 n l2, l = l1 ++ n :: l2 -> forall p, (p, n) ∈ es -> p ∈ l1.

(** ** Lemmas: the loops before the algorithm *)

Lemma insert_nodes_ok names incoming :
  (forall n, n ∈ names -> incoming !! n = None) -> NoDup names ->
  exists inc, insert_nodes names incoming = Ok inc
    /\ forall n, inc !! n = if decide (n ∈ names) then Some O else incoming !! n.
Proof.
  revert incoming. induction names as [|x names IH]; intros incoming Hn Hd.
  - exists incoming. split; [done|]. intros n. by rewrite decide_False by set_solver.
  - apply NoDup_cons in Hd as [Hx Hd]. simpl. rewrite bool_decide_false by (rewrite Hn; [by intros [? ?]|set_solver]).
    destruct (IH (<[x := O]> incoming)) as (inc & -> & Hinc); [|done|].
    { intros n Hin. rewrite lookup_insert_ne by set_solver. apply Hn. set_solver. }
    exists inc. split; [done|]. intros n. rewrite Hinc.
    destruct (decide (n ∈ names)); [by rewrite decide_True by set_solver|].
    destruct (decide (n = x)) as [->|]; [by rewrite lookup_insert_eq, decide_True by set_solver|].
    by rewrite lookup_insert_ne, decide_False by set_solver.
Qed.

Lemma insert_nodes_nodup names incoming inc :
  insert_nodes names incoming = Ok inc -> NoDup names /\ forall n, n ∈ names -> incoming !! n = None.
Proof.
  revert incoming. induction names as [|x names IH]; intros incoming H; simpl in H; [by split; [constructor|set_solver]|].
  destruct (bool_decide_reflect (is_Some (incoming !! x))) as [|Hx]; [done|]. apply IH in H as [Hd Hn].
  split.
  - constructor; [|done]. intros Hin. specialize (Hn x Hin). by rewrite lookup_insert_eq in Hn.
  - intros n [->|Hin]%elem_of_cons; [by apply eq_None_not_Some|]. specialize (Hn n Hin).
    by apply lookup_insert_None in Hn as [? _].
Qed.

(** The tables after the edges [es] of a graph with nodes [names]. *)
Definition graph_of (names : list string) (es : list (string * string)) (g : Graph) : Prop :=
  (forall n, g_incoming g !! n = if decide (n ∈ names) then Some (open_edges es [] n) else None)
  /\ (forall p, p ∈ g_pairs g <-> p ∈ es)
  /\ (forall n, default [] (g_outgoing g !! n) = successors es n).

Lemma open_edges_snoc es seen a b n :
  open_edges (es ++ [(a, b)]) seen n
  = (open_edges es seen n + if decide (b = n /\ a ∉ seen) then 1 else 0)%nat.
Proof. unfold open_edges. rewrite filter_app, length_app, filter_cons. simpl. by destruct (decide _). Qed.

Lemma successors_snoc es a b n :
  successors (es ++ [(a, b)]) n = successors es n ++ if decide (a = n) then [b] else [].
Proof. unfold successors. rewrite filter_app, map_app, filter_cons. simpl. by destruct (decide _). Qed.

Lemma insert_edge_ok names es g a b :
  graph_of names es g -> a ∈ names -> b ∈ names -> a <> b -> (a, b) ∉ es ->
  exists g', insert_edge g (a, b) = Ok g' /\ graph_of names (es ++ [(a, b)]) g'.
Proof.
  intros (Hi & Hp & Ho) Ha Hb Hab Hnew. unfold insert_edge.
  rewrite (proj2 (String.eqb_neq a b)), !bool_decide_true by (rewrite ?Hi, ?decide_True by done; eauto). simpl.
  rewrite bool_decide_false by (by rewrite Hp). eexists. split; [done|]. split; [|split]; simpl.
  - intros n. rewrite open_edges_snoc. destruct (decide (b = n)) as [->|Hbn].
    + rewrite lookup_alter_eq, Hi. rewrite !(decide_True (P := n ∈ names)) by done.
      rewrite (decide_True (P := n = n /\ _)) by (split; [done|set_solver]). simpl. f_equal. lia.
    + rewrite lookup_alter_ne, Hi by done. rewrite (decide_False (P := b = n /\ _)) by naive_solver.
      by rewrite Nat.add_0_r.
  - intros p. rewrite elem_of_union, elem_of_singleton, Hp, elem_of_app, list_elem_of_singleton. tauto.
  - intros n. rewrite successors_snoc. destruct (decide (a = n)) as [->|].
    + rewrite lookup_insert_eq. simpl. by rewrite Ho.
    + rewrite lookup_insert_ne, Ho by done. by rewrite app_nil_r.
Qed.

Lemma insert_edge_inv names es g a b g' :
  graph_of names es g -> insert_edge g (a, b) = Ok g' -> a ∈ names /\ b ∈ names /\ a <> b /\ (a, b) ∉ es.
Proof.
  intros (Hi & Hp & _) H. unfold insert_edge in H.
  destruct (String.eqb_spec a b) as [|Hab]; [done|]. simpl in H.
  destruct (bool_decide_reflect (is_Some (g_incoming g !! a))) as [Ha|]; [|done].
  destruct (bool_decide_reflect (is_Some (g_incoming g !! b))) as [Hb|]; [|done]. simpl in H.
  destruct (bool_decide_reflect ((a, b) ∈ g_pairs g)) as [|Hn]; [done|]. rewrite Hp in Hn.
  rewrite Hi in Ha, Hb. repeat split; [..|done|done].
  - destruct (decide (a ∈ names)); [done|by destruct Ha].
  - destruct (decide (b ∈ names)); [done|by destruct Hb].
Qed.

Lemma insert_edges_spec names es done_ g :
  graph_of names done_ g ->
  match insert_edges es g with
  | Ok g' => graph_of names (done_ ++ es) g'
             /\ Forall (fun e => e.1 ∈ names /\ e.2 ∈ names /\ e.1 <> e.2) es
             /\ NoDup es /\ (forall e, e ∈ es -> e ∉ done_)
  | Err _ => ~ (Forall (fun e => e.1 ∈ names /\ e.2 ∈ names /\ e.1 <> e.2) es
                /\ NoDup es /\ (forall e, e ∈ es -> e ∉ done_))
  end.
Proof.
  revert done_ g. induction es as [|[a b] es IH]; intros done_ g Hg; cbn [insert_edges].
  { rewrite app_nil_r. split; [done|]. split; [constructor|]. split; [constructor|set_solver]. }
  destruct (insert_edge g (a, b)) as [g'|e] eqn:He; cbn [result_bind].
  - destruct (insert_edge_inv _ _ _ _ _ _ Hg He) as (Ha & Hb & Hab & Hn).
    destruct (insert_edge_ok _ _ _ _ _ Hg Ha Hb Hab Hn) as (g2 & He2 & Hg2). rewrite He in He2. injection He2 as <-.
    specialize (IH _ _ Hg2). destruct (insert_edges es g').
    + destruct IH as (H1 & H2 & H3 & H4). rewrite <- app_assoc in H1. split; [done|]. split; [by constructor|].
      split; [constructor; [|done]; intros Hin; apply (H4 _ Hin); set_solver|].
      intros e [->|Hin]%elem_of_cons; [done|]. specialize (H4 _ Hin). set_solver.
    + intros (H1 & H2 & H3). apply IH. inversion H1; subst. apply NoDup_cons in H2 as [H2 H2'].
      split; [done|]. split; [done|]. intros e' Hin. specialize (H3 e' ltac:(set_solver)).
      rewrite elem_of_app, list_elem_of_singleton. intros [?| ->]; done.
  - intros (H1 & H2 & H3). inversion H1 as [|? ? (Ha & Hb & Hab)]; subst.
    destruct (insert_edge_ok _ _ _ a b Hg Ha Hb Hab (H3 (a, b) ltac:(set_solver))) as (g2 & He2 & _). rewrite He in He2. discriminate.
Qed.

(** ** Lemmas: Kahn's algorithm *)

Section Kahn.
Context (names : list string) (es : list (string * string)).
Hypothesis Hwf : well_formed names es.

Lemma edge_ends a b : (a, b) ∈ es -> a ∈ names /\ b ∈ names.
Proof. destruct Hwf as (_ & _ & Hf). rewrite Forall_forall in Hf. intros H. by destruct (Hf _ H) as (? & ? & _). Qed.

Lemma elem_of_successors a b : b ∈ successors es a <-> (a, b) ∈ es.
Proof.
  unfold successors. rewrite list_elem_of_fmap. split.
  - intros ([x y] & -> & [Hx Hin]%list_elem_of_filter). simpl in *. by subst.
  - intros H. exists (a, b). split; [done|]. by apply list_elem_of_filter.
Qed.

Lemma successors_nodup a : NoDup (successors es a).
Proof.
  unfold successors. destruct Hwf as (_ & Hd & _). revert Hd. generalize es as l.
  induction l as [|[x y] l IH]; intros Hd; [constructor|]. apply NoDup_cons in Hd as [Hn Hd].
  rewrite filter_cons. destruct (decide _) as [<-|]; [|auto]. simpl. constructor; [|auto].
  intros ([u v] & Hv & [Hu Hin]%list_elem_of_filter)%list_elem_of_fmap. simpl in *. by subst.
Qed.

(** Visiting [x] closes exactly its own edge into [n]. *)
Lemma open_edges_visit seen x n :
  x ∉ seen ->
  open_edges es seen n = (open_edges es (seen ++ [x]) n + if decide ((x, n) ∈ es) then 1 else 0)%nat.
Proof.
  intros Hx. unfold open_edges. destruct Hwf as (_ & Hd & _). revert Hd. generalize es as l.
  induction l as [|[a b] l IH]; intros Hd; [by rewrite decide_False by set_solver|].
  apply NoDup_cons in Hd as [Hn Hd]. specialize (IH Hd). rewrite !filter_cons. simpl.
  destruct (decide ((a, b) = (x, n))) as [[= -> ->]|Hne].
  - rewrite (decide_True (P := n = n /\ x ∉ seen)) by done.
    rewrite (decide_False (P := n = n /\ x ∉ seen ++ [x])) by set_solver.
    rewrite (decide_False (P := (x, n) ∈ l)) in IH by done.
    rewrite (decide_True (P := (x, n) ∈ (x, n) :: l)) by set_solver. simpl. lia.
  - assert (b = n /\ a ∉ seen <-> b = n /\ a ∉ seen ++ [x]) as Hiff.
    { rewrite elem_of_app, list_elem_of_singleton. split; [|tauto]. intros [-> ?]. split; [done|]. intros [?| ->]; done. }
    rewrite (decide_ext (b = n /\ a ∉ seen) _ _ _ Hiff).
    rewrite (decide_ext ((x, n) ∈ (a, b) :: l) ((x, n) ∈ l)) by (rewrite elem_of_cons; naive_solver).
    destruct (decide (b = n /\ a ∉ seen ++ [x])); simpl; lia.
Qed.

Lemma open_edges_zero seen n : open_edges es seen n = O <-> forall p, (p, n) ∈ es -> p ∈ seen.
Proof.
  unfold open_edges. rewrite length_zero_iff_nil. split.
  - intros H p Hp. destruct (decide (p ∈ seen)) as [|Hn]; [done|].
    assert ((p, n) ∈ filter (fun e => e.2 = n /\ e.1 ∉ seen) es) as Hin by (by apply list_elem_of_filter).
    rewrite H in Hin. by apply elem_of_nil in Hin.
  - intros H. destruct (filter _ es) as [|[a b] l] eqn:Hf; [done|].
    assert ((a, b) ∈ filter (fun e => e.2 = n /\ e.1 ∉ seen) es) as Hin by (rewrite Hf; set_solver).
    apply list_elem_of_filter in Hin as [[Hb Ha] Hin]. simpl in *. subst. by destruct Ha; apply H.
Qed.

(** Between rounds: [seen] was visited, [ready] waits. *)
Definition kahn_inv (seen ready : list string) (incoming : gmap string nat) : Prop :=
  NoDup (seen ++ ready)
  /\ (forall n, incoming !! n = if decide (n ∈ names) then Some (open_edges es seen n) else None)
  /\ (forall n, n ∈ seen ++ ready <-> n ∈ names /\ open_edges es seen n = O)
  /\ topological es seen.

Lemma relax_spec ds incoming ready :
  NoDup ds -> (forall d, d ∈ ds -> exists c, incoming !! d = Some (S c)) ->
  exists incoming', relax ds incoming ready
      = Some (incoming', ready ++ filter (fun d => incoming !! d = Some 1%nat) ds)
    /\ forall n, incoming' !! n = if decide (n ∈ ds) then pred <$> incoming !! n else incoming !! n.
Proof.
  revert incoming ready. induction ds as [|d ds IH]; intros incoming ready Hd Hpos.
  { exists incoming. rewrite filter_nil, app_nil_r. split; [done|]. intros n. by rewrite decide_False by set_solver. }
  apply NoDup_cons in Hd as [Hn Hd]. destruct (Hpos d ltac:(set_solver)) as [c Hc]. cbn [relax]. rewrite Hc.
  destruct (IH (<[d := c]> incoming) (if (c =? 0)%nat then ready ++ [d] else ready) Hd) as (inc & Hr & Hinc).
  { intros d' Hd'. rewrite lookup_insert_ne by set_solver. apply Hpos. set_solver. }
  exists inc. rewrite Hr, filter_cons. split.
  - f_equal. f_equal.
    assert (filter (fun d' => <[d:=c]> incoming !! d' = Some 1%nat) ds = filter (fun d' => incoming !! d' = Some 1%nat) ds) as ->.
    { apply filter_iff_in. intros x Hx. by rewrite lookup_insert_ne by set_solver. }
    destruct (decide (incoming !! d = Some 1%nat)) as [H1|H1]; rewrite Hc in H1.
    + injection H1 as ->. simpl. by rewrite <- app_assoc.
    + destruct c; [done|]. done.
  - intros n. rewrite Hinc. destruct (decide (n = d)) as [->|Hne].
    + rewrite decide_False, decide_True, lookup_insert_eq, Hc by set_solver. done.
    + rewrite lookup_insert_ne by done.
      rewrite (decide_ext (n ∈ d :: ds) (n ∈ ds)) by (rewrite elem_of_cons; naive_solver). done.
Qed.

Lemma topological_snoc seen x :
  topological es seen -> (forall p, (p, x) ∈ es -> p ∈ seen) -> topological es (seen ++ [x]).
Proof.
  intros Ht Hx l1 n l2 Heq p Hp. destruct l2 as [|y l2' _] using rev_ind.
  - apply app_inj_tail in Heq as [-> ->]. auto.
  - rewrite app_comm_cons, app_assoc in Heq. apply app_inj_tail in Heq as [-> _]. by eapply Ht.
Qed.

Lemma kahn_round seen x ready incoming (outgoing : gmap string (list string)) :
  (forall n, default [] (outgoing !! n) = successors es n) -> kahn_inv seen (x :: ready) incoming ->
  exists incoming' ready', relax (default [] (outgoing !! x)) incoming ready = Some (incoming', ready')
    /\ kahn_inv (seen ++ [x]) ready' incoming'.
Proof.
  intros Hout (Hnd & Hinc & Hiff & Htop). rewrite Hout.
  assert (x ∉ seen) as Hx by (apply NoDup_app in Hnd as (_ & H & _); intros Hin; apply (H x Hin); set_solver).
  pose proof (open_edges_visit seen x) as Hvisit.
  destruct (relax_spec (successors es x) incoming ready (successors_nodup x)) as (inc & Hr & Hinc').
  { intros d Hd%elem_of_successors. exists (open_edges es (seen ++ [x]) d). rewrite Hinc, decide_True by (by apply (edge_ends x)).
    rewrite (Hvisit d Hx), decide_True by done. f_equal. lia. }
  eexists inc, _. split; [exact Hr|].
  assert (forall n, inc !! n = if decide (n ∈ names) then Some (open_edges es (seen ++ [x]) n) else None) as Hi.
  { intros n. rewrite Hinc', Hinc. rewrite (decide_ext _ _ _ _ (elem_of_successors x n)). specialize (Hvisit n Hx).
    destruct (decide (n ∈ names)) as [|Hnn].
    - rewrite Hvisit. destruct (decide ((x, n) ∈ es)); simpl; f_equal; lia.
    - by destruct (decide _). }
  set (fresh := filter (fun d => incoming !! d = Some 1%nat) (successors es x)).
  assert (forall n, n ∈ fresh <-> (x, n) ∈ es /\ open_edges es seen n = 1%nat) as Hfresh.
  { intros n. unfold fresh. rewrite list_elem_of_filter, elem_of_successors, Hinc. split.
    - intros [H1 H2]. destruct (edge_ends _ _ H2). rewrite decide_True in H1 by done. split; [done|congruence].
    - intros [H1 H2]. destruct (edge_ends _ _ H1). by rewrite decide_True, H2 by done. }
  split; [|split; [exact Hi|split]].
  - rewrite app_assoc, <- (app_assoc seen). apply NoDup_app. split; [done|]. split; [|by apply NoDup_filter, successors_nodup].
    intros n Hn [_ H1]%Hfresh. apply Hiff in Hn as [_ H0]. lia.
  - intros n. specialize (Hvisit n Hx). rewrite app_assoc, <- (app_assoc seen), elem_of_app. simpl. rewrite Hiff, Hfresh. split.
    + intros [[Hin H0]|[He H1]].
      * split; [done|]. rewrite H0 in Hvisit. lia.
      * split; [by apply (edge_ends x)|]. rewrite decide_True in Hvisit by done. lia.
    + intros [Hin H0]. destruct (decide ((x, n) ∈ es)); [|left; split; [done|lia]].
      destruct (decide (open_edges es seen n = 0)%nat); [by left|]. right. split; [done|lia].
  - apply topological_snoc; [done|]. apply open_edges_zero, Hiff. set_solver.
Qed.

Lemma kahn_terminates fuel (outgoing : gmap string (list string)) incoming seen ready :
  (forall n, default [] (outgoing !! n) = successors es n) -> kahn_inv seen ready incoming ->
  (length names < fuel + length seen)%nat ->
  exists final incoming', kahn fuel outgoing incoming ready (length seen) = Some (length final)
    /\ kahn_inv final [] incoming'.
Proof.
  intros Hout. revert incoming seen ready. induction fuel as [|fuel IH]; intros incoming seen ready Hinv Hf.
  { exfalso. destruct Hinv as (Hnd & _ & Hiff & _). assert (length (seen ++ ready) <= length names)%nat as Hle.
    { apply submseteq_length, NoDup_submseteq; [done|]. intros n Hn. by apply Hiff in Hn as [? _]. }
    rewrite length_app in Hle. lia. }
  destruct ready as [|x ready]; [by exists seen, incoming|]. cbn [kahn].
  destruct (kahn_round _ _ _ _ _ Hout Hinv) as (inc & r & -> & Hinv'). simpl.
  destruct (IH inc (seen ++ [x]) r Hinv') as (final & inc' & Hk & Hfin); [rewrite length_app; simpl; lia|].
  rewrite length_app in Hk. simpl in Hk. rewrite Nat.add_1_r in Hk. eauto.
Qed.

(** A list in topological order has no way back. *)
Lemma topological_path l a b :
  topological es l -> (forall n, n ∈ names -> n ∈ l) -> tc (edge_rel es) a b ->
  forall l1 l2, l = l1 ++ b :: l2 -> a ∈ l1.
Proof.
  intros Ht Hall H. induction H as [x y Hxy|x y z Hxy _ IH]; intros l1 l2 Heq; [by eapply Ht|].
  specialize (IH _ _ Heq). apply list_elem_of_split in IH as (m1 & m2 & ->).
  rewrite <- app_assoc in Heq. simpl in Heq. specialize (Ht _ _ _ Heq x Hxy). set_solver.
Qed.

Lemma visited_all_acyclic final incoming :
  kahn_inv final [] incoming -> length final = length names -> acyclic es.
Proof.
  intros (Hnd & _ & Hiff & Htop) Hlen n Hn. rewrite app_nil_r in *. destruct Hwf as (Hd & _).
  assert (forall m, m ∈ names -> m ∈ final) as Hall.
  { intros m Hm. assert (final ≡ₚ names) as Hp.
    { apply submseteq_length_Permutation; [|lia]. apply NoDup_submseteq; [done|]. intros k Hk. by apply Hiff in Hk as [? _]. }
    by rewrite Hp. }
  assert (n ∈ names) as Hnn.
  { clear -Hn Hwf. assert (exists m, edge_rel es n m) as [m Hm].
    { inversion Hn; eauto. } by apply edge_ends in Hm as [? _]. }
  destruct (list_elem_of_split _ _ (Hall _ Hnn)) as (l1 & l2 & Heq).
  pose proof (topological_path _ _ _ Htop Hall Hn _ _ Heq) as Hin. rewrite Heq in Hnd.
  apply NoDup_app in Hnd as (_ & H & _). apply (H n Hin). set_solver.
Qed.

Lemma acyclic_visits_all final incoming :
  kahn_inv final [] incoming -> acyclic es -> length final = length names.
Proof.
  intros (Hnd & _ & Hiff & _) Ha. rewrite app_nil_r in *. destruct Hwf as (Hd & _).
  assert (length final <= length names)%nat as Hle.
  { apply submseteq_length, NoDup_submseteq; [done|]. intros k Hk. by apply Hiff in Hk as [? _]. }
  destruct (decide (length final = length names)) as [|Hne]; [done|exfalso].
  set (u := filter (fun n => n ∉ final) names).
  assert (exists x, x ∈ u) as [x Hx].
  { destruct u as [|x l] eqn:Hu; [|exists x; set_solver]. exfalso. apply Hne. apply Nat.le_antisymm; [done|].
    apply submseteq_length, NoDup_submseteq; [done|]. intros n Hn.
    destruct (decide (n ∈ final)); [done|]. assert (n ∈ u) as Hin by (by apply list_elem_of_filter).
    rewrite Hu in Hin. by apply elem_of_nil in Hin. }
  destruct (finite_descent (edge_rel es) u x) as [z Hz]; [|done|by apply (Ha z)].
  intros y [Hy Hyn]%list_elem_of_filter. destruct (decide (Exists (fun e => e.2 = y /\ e.1 ∉ final) es)) as [He|He].
  - apply Exists_exists in He as ([p y'] & Hin & Hy' & Hp). simpl in *. subst y'. exists p. split; [|done].
    apply list_elem_of_filter. split; [done|]. by apply (edge_ends p y).
  - destruct Hy. apply Hiff. split; [done|]. apply open_edges_zero. intros p Hp.
    destruct (decide (p ∈ final)); [done|]. destruct He. apply Exists_exists. by exists (p, y).
Qed.

End Kahn.

(** ** Lemmas: the start of the algorithm *)

Lemma omap_keys_nodup {A} (f : string * A -> option string) (l : list (string * A)) :
  (forall kv k, f kv = Some k -> k = kv.1) -> NoDup (map fst l) -> NoDup (omap f l).
Proof.
  intros Hf. induction l as [|kv l IH]; intros Hd; [constructor|]. apply NoDup_cons in Hd as [Hn Hd]. simpl.
  destruct (f kv) as [k|] eqn:E; [|auto]. constructor; [|auto]. intros (kv' & Hin & E')%list_elem_of_omap.
  apply Hf in E, E'. subst. apply Hn. rewrite E'. apply list_elem_of_fmap. eauto.
Qed.

Lemma roots_spec (incoming : gmap string nat) :
  NoDup (roots incoming) /\ forall n, n ∈ roots incoming <-> incoming !! n = Some O.
Proof.
  unfold roots. split.
  - rewrite sort_by_Permutation. apply omap_keys_nodup; [|apply NoDup_fst_map_to_list].
    intros [k c] k' H. simpl in H. destruct (_ =? _)%nat; [by injection H as <-|done].
  - intros n. rewrite elem_of_sort_by, list_elem_of_omap. split.
    + intros ([k c] & Hin%elem_of_map_to_list & H). simpl in H.
      destruct (Nat.eqb_spec c 0) as [->|]; [by injection H as <-|done].
    + intros H. exists (n, O). split; [by apply elem_of_map_to_list|done].
Qed.

Lemma graph_of_empty names incoming :
  (forall n, incoming !! n = if decide (n ∈ names) then Some O else (∅ : gmap string nat) !! n) ->
  graph_of names [] (mkGraph incoming ∅ ∅).
Proof.
  intros H. split; [intros n; simpl; rewrite H; by destruct (decide _); [|rewrite lookup_empty]|]. split; [set_solver|]. intros n. simpl. by rewrite lookup_empty.
Qed.

Lemma kahn_inv_start names es incoming :
  (forall n, incoming !! n = if decide (n ∈ names) then Some (open_edges es [] n) else None) ->
  kahn_inv names es [] (roots incoming) incoming.
Proof.
  intros H. destruct (roots_spec incoming) as [Hnd Hr]. split; [done|]. split; [done|]. split.
  - intros n. simpl. rewrite Hr, H. destruct (decide (n ∈ names)); naive_solver congruence.
  - intros [|x l1] n l2 Heq; discriminate.
Qed.

Lemma insert_edges_start names es incoming :
  NoDup names -> (forall n, incoming !! n = if decide (n ∈ names) then Some O else (∅ : gmap string nat) !! n) ->
  match insert_edges es (mkGraph incoming ∅ ∅) with
  | Ok g => graph_of names es g /\ well_formed names es
  | Err _ => ~ well_formed names es
  end.
Proof.
  intros Hd Hi. pose proof (insert_edges_spec names es [] _ (graph_of_empty _ _ Hi)) as H.
  destruct (insert_edges es _).
  - destruct H as (H1 & H2 & H3 & _). split; [exact H1|]. split; [exact Hd|]. split; [exact H3|exact H2].
  - intros (_ & H2 & H3). apply H. split; [done|]. split; [done|]. set_solver.
Qed.

(** What a definition must satisfy to be stored. *)
Definition admissible (self : WorkflowDefinition) : Prop :=
  (1 <= length (wd_nodes self) <= 64)%nat /\ (length (wd_edges self) <= 256)%nat
  /\ description_ok (wd_description self) = true
  /\ well_formed (node_names self) (edge_pairs self) /\ acyclic (edge_pairs self).

Lemma try_validate_spec self :
  exists r, try_validate self = Some r /\ (r = Ok () <-> admissible self).
Proof.
  unfold try_validate, admissible.
  destruct ((length (wd_nodes self) =? 0)%nat || _ || _) eqn:Hb.
  { eexists. split; [done|]. split; [done|]. intros (H1 & H2 & _).
    apply orb_true_iff in Hb as [[H%Nat.eqb_eq|H%Nat.ltb_lt]%orb_true_iff|H%Nat.ltb_lt]; lia. }
  apply orb_false_iff in Hb as [[H1%Nat.eqb_neq H2%Nat.ltb_ge]%orb_false_iff H3%Nat.ltb_ge].
  destruct (description_ok _) eqn:Hdesc; cbn [negb].
  2:{ eexists. split; [done|]. split; [done|]. by intros (_ & _ & ? & _). }
  destruct (insert_nodes (node_names self) ∅) as [inc|e] eqn:Hn.
  2:{ exists (Err e). split; [done|]. split; [done|]. intros (_ & _ & _ & (Hd & _) & _).
      destruct (insert_nodes_ok (node_names self) ∅) as (inc & Hok & _); [intros; apply lookup_empty|done|].
      rewrite Hn in Hok. discriminate. }
  pose proof (insert_nodes_nodup _ _ _ Hn) as [Hd _].
  destruct (insert_nodes_ok (node_names self) ∅) as (inc' & Hok & Hinc); [intros; apply lookup_empty|done|].
  rewrite Hn in Hok. injection Hok as <-.
  pose proof (insert_edges_start _ (edge_pairs self) _ Hd Hinc) as He.
  destruct (insert_edges _ _) as [g|e].
  2:{ exists (Err e). split; [done|]. split; [done|]. by intros (_ & _ & _ & ? & _). }
  destruct He as [(Hi & _ & Ho) Hwf].
  destruct (kahn_terminates _ _ Hwf (S (length (wd_nodes self))) (g_outgoing g) (g_incoming g) [] (roots (g_incoming g))
    Ho (kahn_inv_start _ _ _ Hi)) as (final & inc' & Hk & Hinv); [unfold node_names; rewrite length_map; simpl; lia|].
  simpl length in Hk. rewrite Hk. cbn [mbind option_bind].
  assert (length (node_names self) = length (wd_nodes self)) as Hlen by apply length_map.
  destruct (Nat.eqb_spec (length final) (length (wd_nodes self))) as [Heq|Hne]; (eexists; split; [reflexivity|]).
  - split; [|done]. intros _. split; [lia|]. split; [lia|]. split; [done|]. split; [done|].
    eapply visited_all_acyclic; [done|done|lia].
  - split; [done|]. intros (_ & _ & _ & _ & Ha). destruct Hne. rewrite <- Hlen. by eapply acyclic_visits_all.
Qed.

(** C11: Validation terminates without a count falling below zero, and accepts exactly
    the definitions with 1 to 64 distinct nodes, at most 256 distinct edges between
    distinct existing nodes, an acceptable description and no cycle. *)
Theorem validate_correct self :
  (exists r, try_validate self = Some r) /\ (validate self = Ok () <-> admissible self).
Proof.
  destruct (try_validate_spec self) as (r & Hr & Hiff). unfold validate. rewrite Hr. split; [eauto|]. exact Hiff.
Qed.

(** ** Dependency decisions *)

(** A predecessor whose outcome rules the node out. *)
Definition mismatch (e : DependencyCondition * WorkflowNodeState) : Prop :=
  node_terminal e.2 = true /\ condition_matches e.1 e.2 = false.

Lemma decide_from_spec waiting incoming :
  match decide_from waiting incoming with
  | Skipped_ => exists e, e ∈ incoming /\ mismatch e
  | Ready => waiting = false /\ forall e, e ∈ incoming -> node_terminal e.2 = true /\ condition_matches e.1 e.2 = true
  | Waiting => (forall e, e ∈ incoming -> ~ mismatch e)
               /\ (waiting = true \/ exists e, e ∈ incoming /\ node_terminal e.2 = false)
  end.
Proof.
  revert waiting. induction incoming as [|[c s] l IH]; intros waiting; simpl.
  { destruct waiting; [split; [set_solver|by left]|split; [done|set_solver]]. }
  destruct (node_terminal s) eqn:Ht; simpl.
  - destruct (condition_matches c s) eqn:Hm; [|exists (c, s); split; [set_solver|by split]].
    specialize (IH waiting). destruct (decide_from waiting l).
    + destruct IH as [H1 H2]. split.
      * intros e [->|He]%elem_of_cons; [intros [_ H]; simpl in H; congruence|auto].
      * destruct H2 as [?|(e & ? & ?)]; [by left|right; exists e; set_solver].
    + destruct IH as [H1 H2]. split; [done|]. intros e [->|He]%elem_of_cons; auto.
    + destruct IH as (e & ? & ?). exists e. set_solver.
  - specialize (IH true). destruct (decide_from true l).
    + destruct IH as [H1 _]. split; [|right; exists (c, s); set_solver].
      intros e [->|He]%elem_of_cons; [intros [H _]; simpl in H; congruence|auto].
    + by destruct IH.
    + destruct IH as (e & ? & ?). exists e. set_solver.
Qed.

Lemma decision_cases l :
  (dependency_decision l = Skipped_ <-> exists e, e ∈ l /\ mismatch e)
  /\ (dependency_decision l = Ready <-> forall e, e ∈ l -> node_terminal e.2 = true /\ condition_matches e.1 e.2 = true).
Proof.
  unfold dependency_decision. pose proof (decide_from_spec false l) as H. destruct (decide_from false l).
  - destruct H as [H1 [?|(e & He & Ht)]]; [done|]. split; (split; [done|]); [naive_solver|].
    intros Hall. destruct (Hall _ He). congruence.
  - destruct H as [_ H]. split; split; try done. intros (e & He & Ht & Hm). destruct (H _ He). congruence.
  - destruct H as (e & He & Ht & Hm). split; split; try done; [intros _; exists e; by repeat split|].
    intros Hall. destruct (Hall _ He). congruence.
Qed.

(** Predecessors are a multiset: the queries' order is immaterial. *)
#[export] Instance dependency_decision_proper : Proper ((≡ₚ) ==> eq) dependency_decision.
Proof.
  intros l l' Hp. destruct (decision_cases l) as [H1 H2]. destruct (decision_cases l') as [H3 H4].
  assert (forall e, e ∈ l <-> e ∈ l') as Hin by (intros e; by rewrite Hp).
  assert (dependency_decision l = Skipped_ <-> dependency_decision l' = Skipped_) by (rewrite H1, H3; naive_solver).
  assert (dependency_decision l = Ready <-> dependency_decision l' = Ready) by (rewrite H2, H4; naive_solver).
  destruct (dependency_decision l), (dependency_decision l'); naive_solver.
Qed.

(** The AND join: a node is skipped exactly when some terminal predecessor rules
    it out, even while others run; it starts exactly when all predecessors are
    terminal and match; and the order of the predecessors does not matter. *)
Theorem dependency_decision_spec incoming :
  (dependency_decision incoming = Skipped_ <-> exists e, e ∈ incoming /\ mismatch e)
  /\ (dependency_decision incoming = Ready <->
      forall e, e ∈ incoming -> node_terminal e.2 = true /\ condition_matches e.1 e.2 = true)
  /\ (forall incoming', incoming' ≡ₚ incoming -> dependency_decision incoming' = dependency_decision incoming).
Proof. split; [apply decision_cases|]. split; [apply decision_cases|]. by intros l ->. Qed.
