(* ===== verification/Db.v ===== *)
(** * The PostgreSQL state and its transactions

    The tables of db/sql/01_crono.sql and 02_workflows.sql as the store of
    services/server/src/infrastructure/postgres.rs uses them: one finite map
    per table, keyed by primary key, with the constraints and triggers as
    checks of the writing statements.  A status column is the enumeration its
    CHECK lists ([Domain.stored_names_roundtrip] relates the two).

    [tx] is the monad of code that runs SQL.  The environment of a call gives
    what the program does not choose: the timestamp of each statement,
    the faults of the connection, fresh UUIDs, the wall clock, and the rows
    other transactions hold locked.  A statement outside a transaction commits
    by itself; [transaction] commits its body's changes together, drops them
    when the body fails, and may lose the answer of the commit. *)

From S2P Require Import Prelude RustStr Json Inputs Names Float Domain Workflow.
From Stdlib Require Import SpecFloat Ascii String.
From stdpp Require Import base numbers strings sorting gmap list.

Local Open Scope Z_scope.

(** ** Rows *)

Inductive AttemptStatus : Type :=
| APendingDispatch
| AQueued
| ARunning
| ASucceeded
| ASkipped
| AFailed
| ADead
| AUnknown.

#[global] Instance attempt_status_eq : EqDecision AttemptStatus.
Proof. solve_decision. Defined.

(** [execution_snapshot] holds an [ExecutionSnapshot] or a render error. *)
Inductive StoredSnapshot : Type :=
| Rendered (snapshot : ExecutionSnapshot)
| RenderError (message : string) (inputs : value).

Record RunRow : Type := mkRunRow {
  r_request_id : option Uuid;
  r_rerun_of_run_id : option Uuid;
  r_schedule_id : option Uuid;
  r_job_id : Uuid;
  r_target_id : Uuid;
  r_queue_id : Uuid;
  r_scheduled_at : Instant;
  r_status : RunStatus;
  r_execution_snapshot : StoredSnapshot;
  r_attempt_count : Z;
  r_max_attempts : Z;
  r_next_retry_at : option Instant;
  r_lateness_seconds : Z;
  r_terminal_reason : option string;
  r_created_at : Instant;
  r_queued_at : option Instant;
  r_started_at : option Instant;
  r_completed_at : option Instant;
}.

Record AttemptRow : Type := mkAttemptRow {
  a_run_id : Uuid;
  a_attempt : Z;
  a_status : AttemptStatus;
  a_worker_id : option string;
  a_started_at : option Instant;
  a_heartbeat_at : option Instant;
  a_lease_expires_at : option Instant;
  a_completed_at : option Instant;
  a_exit_code : option Z;
  a_stdout_tail : option string;
  a_stderr_tail : option string;
  a_output_sequence : Z;
  a_error : option string;
  a_created_at : Instant;
}.

Record DispatchEnvelope : Type := mkDispatchEnvelope {
  de_dispatch_id : Uuid;
  de_run_id : Uuid;
  de_attempt_id : Uuid;
  de_queue_id : Uuid;
}.

Record OutboxRow : Type := mkOutboxRow {
  o_run_id : Uuid;
  o_attempt_id : Uuid;
  o_subject : string;
  o_payload : DispatchEnvelope;
  o_dispatch_deadline : option Instant;
  o_attempt_count : Z;
  o_next_attempt_at : Instant;
  o_claimed_by : option Uuid;
  o_claim_expires_at : option Instant;
  o_last_error : option string;
  o_created_at : Instant;
  o_published_at : option Instant;
  o_cancelled_at : option Instant;
  o_nats_stream_sequence : option Z;
}.

Record RunEventRow : Type := mkRunEventRow {
  re_run_id : Uuid;
  re_event_type : string;
  re_detail : value;
  re_created_at : Instant;
}.

Record ScheduleEventRow : Type := mkScheduleEventRow {
  se_schedule_id : Uuid;
  se_event_type : string;
  se_scheduled_at : option Instant;
  se_detail : value;
  se_created_at : Instant;
}.

Record NamespaceRow : Type := mkNamespaceRow {
  n_name : string;
  n_created_at : Instant;
}.

Record QueueRow : Type := mkQueueRow {
  qr_name : string;
  qr_description : option string;
  qr_enabled : bool;
  qr_system : bool;
  qr_created_at : Instant;
  qr_updated_at : Instant;
}.

Record JobRow : Type := mkJobRow {
  j_namespace_id : Uuid;
  j_name : string;
  j_executor : string;
  j_queue_id : Uuid;
  j_executable : option string;
  j_shell_command : option string;
  j_arguments : value;
  j_inputs : value;
  j_idempotent : bool;
  j_dry_run : bool;
  j_max_attempts : Z;
  j_retry_initial_seconds : Z;
  j_retry_max_seconds : Z;
  j_retry_multiplier : spec_float;
  j_retry_jitter : spec_float;
  j_created_at : Instant;
  j_updated_at : Instant;
}.

Record TargetRow : Type := mkTargetRow {
  t_namespace_id : Uuid;
  t_name : string;
  t_arguments : value;
  t_inputs : value;
  t_created_at : Instant;
  t_updated_at : Instant;
}.

Record TargetSetRow : Type := mkTargetSetRow {
  tsr_namespace_id : Uuid;
  tsr_name : string;
  tsr_inputs : value;
  tsr_created_at : Instant;
  tsr_updated_at : Instant;
}.

Record ScheduleRow : Type := mkScheduleRow {
  s_namespace_id : Uuid;
  s_job_id : Uuid;
  s_target_id : option Uuid;
  s_target_set_id : option Uuid;
  s_inputs : value;
  s_name : string;
  s_schedule_type : string;
  s_cron_expression : option string;
  s_execute_at : option Instant;
  s_timezone : string;
  s_enabled : bool;
  s_next_run_at : option Instant;
  s_last_run_at : option Instant;
  s_misfire_policy : string;
  s_misfire_grace_seconds : option Z;
  s_catchup_policy : string;
  s_max_catchup_runs : Z;
  s_max_catchup_age_seconds : Z;
  s_revision : Z;
  s_claim_owner : option Uuid;
  s_claim_expires_at : option Instant;
  s_created_at : Instant;
  s_updated_at : Instant;
}.

Record RunRequestRow : Type := mkRunRequestRow {
  rr_namespace_id : Uuid;
  rr_job_id : Uuid;
  rr_target_id : option Uuid;
  rr_target_set_id : option Uuid;
  rr_inputs : value;
  rr_created_at : Instant;
}.

Record WorkerPresenceRow : Type := mkWorkerPresenceRow {
  wp_session_id : Uuid;
  wp_queue_id : Uuid;
  wp_concurrency : Z;
  wp_version : string;
  wp_diagnostics : option value;
  wp_started_at : Instant;
  wp_last_seen_at : Instant;
}.

(** The workflow tables.  Columns under a CHECK on their names hold the enumeration. *)
Record StoredNode : Type := mkStoredNode {
  sn_id : Uuid;
  sn_name : string;
  sn_job_id : Uuid;
}.

Record StoredEdge : Type := mkStoredEdge {
  se_from : string;
  se_to : string;
  se_condition : string;
}.

Record StoredWorkflow : Type := mkStoredWorkflow {
  sw_id : Uuid;
  sw_namespace_id : Uuid;
  sw_namespace : string;
  sw_name : string;
  sw_description : option string;
  sw_revision : Z;
  sw_created_at : Instant;
  sw_updated_at : Instant;
  sw_nodes : list StoredNode;
  sw_edges : list StoredEdge;
}.

Record WorkflowRow : Type := mkWorkflowRow {
  w_namespace_id : Uuid;
  w_name : string;
  w_description : option string;
  w_revision : Z;
  w_created_at : Instant;
  w_updated_at : Instant;
}.

Record WorkflowNodeRow : Type := mkWorkflowNodeRow {
  wnr_workflow_id : Uuid;
  wnr_name : string;
  wnr_job_id : Uuid;
}.

Record InvocationRow : Type := mkInvocationRow {
  wr_request_id : Uuid;
  wr_workflow_id : Uuid;
  wr_namespace_id : Uuid;
  wr_definition_snapshot : StoredWorkflow;
  wr_target_id : option Uuid;
  wr_target_set_id : option Uuid;
  wr_inputs : value;
  wr_state : WorkflowState;
  wr_cancellation_requested : bool;
  wr_created_at : Instant;
  wr_started_at : option Instant;
  wr_finished_at : option Instant;
}.

Record NodeRunRow : Type := mkNodeRunRow {
  nr_workflow_run_id : Uuid;
  nr_workflow_node_id : Uuid;
  nr_name : string;
  nr_job_id : Uuid;
  nr_state : WorkflowNodeState;
  nr_started_at : option Instant;
  nr_finished_at : option Instant;
}.

Record NodeExecutionRow : Type := mkNodeExecutionRow {
  ne_prospective_run_id : Uuid;
  ne_run_id : option Uuid;
  ne_queue_id : Uuid;
  ne_max_attempts : Z;
  ne_execution_snapshot : ExecutionSnapshot;
}.

Record CompletionEventRow : Type := mkCompletionEventRow {
  ce_workflow_run_id : Uuid;
  ce_node_run_id : Uuid;
  ce_created_at : Instant;
}.

(** Edges are keyed by their graph, origin and destination. *)
Record WorkflowTables : Type := mkWorkflowTables {
  wt_workflows : gmap Uuid WorkflowRow;
  wt_nodes : gmap Uuid WorkflowNodeRow;
  wt_edges : gmap (Uuid * Uuid * Uuid) DependencyCondition;
  wt_runs : gmap Uuid InvocationRow;
  wt_node_runs : gmap Uuid NodeRunRow;
  wt_run_edges : gmap (Uuid * Uuid * Uuid) DependencyCondition;
  wt_node_executions : gmap (Uuid * Uuid) NodeExecutionRow;
  wt_completion_events : gmap Uuid CompletionEventRow;
}.

(** ** The database *)

(** The tables Run execution writes. *)
Record CoreTables : Type := mkCoreTables {
  runs : gmap Uuid RunRow;
  run_attempts : gmap Uuid AttemptRow;
  outbox : gmap Uuid OutboxRow;
}.

Record DB : Type := mkDB {
  core : CoreTables;
  run_events : list RunEventRow;
  schedule_events : list ScheduleEventRow;
  namespaces : gmap Uuid NamespaceRow;
  queues : gmap Uuid QueueRow;
  jobs : gmap Uuid JobRow;
  targets : gmap Uuid TargetRow;
  target_sets : gmap Uuid TargetSetRow;
  target_set_members : gset (Uuid * Uuid);
  schedules : gmap Uuid ScheduleRow;
  run_requests : gmap Uuid RunRequestRow;
  worker_presence : gmap string WorkerPresenceRow;
  workflow_tables : WorkflowTables;
}.

Definition workflow_runs (d : DB) := wt_runs (workflow_tables d).
Definition workflow_node_runs (d : DB) := wt_node_runs (workflow_tables d).
Definition workflow_run_edges (d : DB) := wt_run_edges (workflow_tables d).
Definition workflow_node_executions (d : DB) := wt_node_executions (workflow_tables d).
Definition workflow_completion_events (d : DB) := wt_completion_events (workflow_tables d).

Definition set_core (f : CoreTables -> CoreTables) (d : DB) : DB :=
  mkDB (f (core d)) (run_events d) (schedule_events d) (namespaces d) (queues d) (jobs d)
    (targets d) (target_sets d) (target_set_members d) (schedules d) (run_requests d)
    (worker_presence d) (workflow_tables d).
Definition set_runs (f : gmap Uuid RunRow -> gmap Uuid RunRow) : DB -> DB :=
  set_core (fun c => mkCoreTables (f (runs c)) (run_attempts c) (outbox c)).
Definition set_attempts (f : gmap Uuid AttemptRow -> gmap Uuid AttemptRow) : DB -> DB :=
  set_core (fun c => mkCoreTables (runs c) (f (run_attempts c)) (outbox c)).
Definition set_outbox (f : gmap Uuid OutboxRow -> gmap Uuid OutboxRow) : DB -> DB :=
  set_core (fun c => mkCoreTables (runs c) (run_attempts c) (f (outbox c))).
Definition set_run_events (f : list RunEventRow -> list RunEventRow) (d : DB) : DB :=
  mkDB (core d) (f (run_events d)) (schedule_events d) (namespaces d) (queues d) (jobs d)
    (targets d) (target_sets d) (target_set_members d) (schedules d) (run_requests d)
    (worker_presence d) (workflow_tables d).
Definition set_schedule_events (f : list ScheduleEventRow -> list ScheduleEventRow) (d : DB) : DB :=
  mkDB (core d) (run_events d) (f (schedule_events d)) (namespaces d) (queues d) (jobs d)
    (targets d) (target_sets d) (target_set_members d) (schedules d) (run_requests d)
    (worker_presence d) (workflow_tables d).
Definition set_namespaces (f : gmap Uuid NamespaceRow -> gmap Uuid NamespaceRow) (d : DB) : DB :=
  mkDB (core d) (run_events d) (schedule_events d) (f (namespaces d)) (queues d) (jobs d)
    (targets d) (target_sets d) (target_set_members d) (schedules d) (run_requests d)
    (worker_presence d) (workflow_tables d).
Definition set_queues (f : gmap Uuid QueueRow -> gmap Uuid QueueRow) (d : DB) : DB :=
  mkDB (core d) (run_events d) (schedule_events d) (namespaces d) (f (queues d)) (jobs d)
    (targets d) (target_sets d) (target_set_members d) (schedules d) (run_requests d)
    (worker_presence d) (workflow_tables d).
Definition set_jobs (f : gmap Uuid JobRow -> gmap Uuid JobRow) (d : DB) : DB :=
  mkDB (core d) (run_events d) (schedule_events d) (namespaces d) (queues d) (f (jobs d))
    (targets d) (target_sets d) (target_set_members d) (schedules d) (run_requests d)
    (worker_presence d) (workflow_tables d).
Definition set_targets (f : gmap Uuid TargetRow -> gmap Uuid TargetRow) (d : DB) : DB :=
  mkDB (core d) (run_events d) (schedule_events d) (namespaces d) (queues d) (jobs d)
    (f (targets d)) (target_sets d) (target_set_members d) (schedules d) (run_requests d)
    (worker_presence d) (workflow_tables d).
Definition set_target_sets (f : gmap Uuid TargetSetRow -> gmap Uuid TargetSetRow) (d : DB) : DB :=
  mkDB (core d) (run_events d) (schedule_events d) (namespaces d) (queues d) (jobs d)
    (targets d) (f (target_sets d)) (target_set_members d) (schedules d) (run_requests d)
    (worker_presence d) (workflow_tables d).
Definition set_target_set_members (f : gset (Uuid * Uuid) -> gset (Uuid * Uuid)) (d : DB) : DB :=
  mkDB (core d) (run_events d) (schedule_events d) (namespaces d) (queues d) (jobs d)
    (targets d) (target_sets d) (f (target_set_members d)) (schedules d) (run_requests d)
    (worker_presence d) (workflow_tables d).
Definition set_schedules (f : gmap Uuid ScheduleRow -> gmap Uuid ScheduleRow) (d : DB) : DB :=
  mkDB (core d) (run_events d) (schedule_events d) (namespaces d) (queues d) (jobs d)
    (targets d) (target_sets d) (target_set_members d) (f (schedules d)) (run_requests d)
    (worker_presence d) (workflow_tables d).
Definition set_run_requests (f : gmap Uuid RunRequestRow -> gmap Uuid RunRequestRow) (d : DB) : DB :=
  mkDB (core d) (run_events d) (schedule_events d) (namespaces d) (queues d) (jobs d)
    (targets d) (target_sets d) (target_set_members d) (schedules d) (f (run_requests d))
    (worker_presence d) (workflow_tables d).
Definition set_worker_presence (f : gmap string WorkerPresenceRow -> gmap string WorkerPresenceRow)
  (d : DB) : DB :=
  mkDB (core d) (run_events d) (schedule_events d) (namespaces d) (queues d) (jobs d)
    (targets d) (target_sets d) (target_set_members d) (schedules d) (run_requests d)
    (f (worker_presence d)) (workflow_tables d).
Definition set_workflow_tables (f : WorkflowTables -> WorkflowTables) (d : DB) : DB :=
  mkDB (core d) (run_events d) (schedule_events d) (namespaces d) (queues d) (jobs d)
    (targets d) (target_sets d) (target_set_members d) (schedules d) (run_requests d)
    (worker_presence d) (f (workflow_tables d)).
Definition set_workflows (f : gmap Uuid WorkflowRow -> gmap Uuid WorkflowRow) : DB -> DB :=
  set_workflow_tables (fun t => mkWorkflowTables (f (wt_workflows t)) (wt_nodes t) (wt_edges t) (wt_runs t) (wt_node_runs t) (wt_run_edges t) (wt_node_executions t) (wt_completion_events t)).
Definition set_workflow_nodes (f : gmap Uuid WorkflowNodeRow -> gmap Uuid WorkflowNodeRow) : DB -> DB :=
  set_workflow_tables (fun t => mkWorkflowTables (wt_workflows t) (f (wt_nodes t)) (wt_edges t) (wt_runs t) (wt_node_runs t) (wt_run_edges t) (wt_node_executions t) (wt_completion_events t)).
Definition set_workflow_edges (f : gmap (Uuid * Uuid * Uuid) DependencyCondition -> gmap (Uuid * Uuid * Uuid) DependencyCondition) : DB -> DB :=
  set_workflow_tables (fun t => mkWorkflowTables (wt_workflows t) (wt_nodes t) (f (wt_edges t)) (wt_runs t) (wt_node_runs t) (wt_run_edges t) (wt_node_executions t) (wt_completion_events t)).
Definition set_workflow_runs (f : gmap Uuid InvocationRow -> gmap Uuid InvocationRow) : DB -> DB :=
  set_workflow_tables (fun t => mkWorkflowTables (wt_workflows t) (wt_nodes t) (wt_edges t) (f (wt_runs t)) (wt_node_runs t) (wt_run_edges t) (wt_node_executions t) (wt_completion_events t)).
Definition set_node_runs (f : gmap Uuid NodeRunRow -> gmap Uuid NodeRunRow) : DB -> DB :=
  set_workflow_tables (fun t => mkWorkflowTables (wt_workflows t) (wt_nodes t) (wt_edges t) (wt_runs t) (f (wt_node_runs t)) (wt_run_edges t) (wt_node_executions t) (wt_completion_events t)).
Definition set_run_edges (f : gmap (Uuid * Uuid * Uuid) DependencyCondition -> gmap (Uuid * Uuid * Uuid) DependencyCondition) : DB -> DB :=
  set_workflow_tables (fun t => mkWorkflowTables (wt_workflows t) (wt_nodes t) (wt_edges t) (wt_runs t) (wt_node_runs t) (f (wt_run_edges t)) (wt_node_executions t) (wt_completion_events t)).
Definition set_node_executions (f : gmap (Uuid * Uuid) NodeExecutionRow -> gmap (Uuid * Uuid) NodeExecutionRow) : DB -> DB :=
  set_workflow_tables (fun t => mkWorkflowTables (wt_workflows t) (wt_nodes t) (wt_edges t) (wt_runs t) (wt_node_runs t) (wt_run_edges t) (f (wt_node_executions t)) (wt_completion_events t)).
Definition set_completion_events (f : gmap Uuid CompletionEventRow -> gmap Uuid CompletionEventRow) : DB -> DB :=
  set_workflow_tables (fun t => mkWorkflowTables (wt_workflows t) (wt_nodes t) (wt_edges t) (wt_runs t) (wt_node_runs t) (wt_run_edges t) (wt_node_executions t) (f (wt_completion_events t))).

(** ** Transactions *)

Record Env : Type := mkEnv {
  e_timestamp : nat -> Instant;
  e_fault : nat -> option StoreError;
  e_commit_applied : nat -> bool;
  e_uuid : nat -> Uuid;
  e_wall : nat -> Instant;
  e_locked : nat -> Uuid -> bool;
}.

Record Tx : Type := mkTx {
  tx_db : DB;
  tx_statements : nat;
  tx_uuids : nat;
}.

Definition tx (A : Type) : Type := Env -> Tx -> result A StoreError * Tx.

Definition tx_ret {A} (a : A) : tx A := fun _ s => (Ok a, s).
Definition tx_fail {A} (e : StoreError) : tx A := fun _ s => (Err e, s).
Definition tx_bind {A B} (m : tx A) (k : A -> tx B) : tx B := fun env s =>
  match m env s with
  | (Ok a, s') => k a env s'
  | (Err e, s') => (Err e, s')
  end.
Definition tx_lift {A} (r : result A StoreError) : tx A := fun _ s => (r, s).
Definition tx_get : tx DB := fun _ s => (Ok (tx_db s), s).
Definition tx_modify (f : DB -> DB) : tx unit := fun _ s =>
  (Ok (), mkTx (f (tx_db s)) (tx_statements s) (tx_uuids s)).

Notation "'let!' x := m 'in' k" := (tx_bind m (fun x => k))
  (at level 10, x pattern, m at level 100, k at level 200) : crono_scope.

(** One round trip to the server: its timestamp, or the fault that ends it. *)
Definition statement : tx Instant := fun env s =>
  let n := tx_statements s in
  let s' := mkTx (tx_db s) (S n) (tx_uuids s) in
  match e_fault env n with
  | Some e => (Err e, s')
  | None => (Ok (e_timestamp env n), s')
  end.

(** [Uuid::now_v7()] *)
Definition fresh_uuid : tx Uuid := fun env s =>
  (Ok (e_uuid env (tx_uuids s)), mkTx (tx_db s) (tx_statements s) (S (tx_uuids s))).

(** [OffsetDateTime::now_utc()] *)
Definition now_utc : tx Instant := fun env s => (Ok (e_wall env (tx_statements s)), s).

(** The rows the current statement's [SKIP LOCKED] passes over. *)
Definition locked_rows : tx (Uuid -> bool) := fun env s => (Ok (e_locked env (tx_statements s)), s).

Inductive outcome (A : Type) : Type := Commit (a : A) | Rollback (a : A) | Dropped (a : A).
Arguments Commit {A} a.
Arguments Rollback {A} a.
Arguments Dropped {A} a.

(** [begin], the body, then [commit] or [rollback]; a failing body or an early
    return drops the transaction, which rolls it back.  When the answer of a commit is lost the
    changes may or may not be there. *)
Definition transaction {A} (body : tx (outcome A)) : tx A := fun env s =>
  match tx_bind statement (fun _ => body) env s with
  | (Ok (Commit a), s') =>
      let n := tx_statements s' in
      match e_fault env n with
      | None => (Ok a, mkTx (tx_db s') (S n) (tx_uuids s'))
      | Some e =>
          (Err e, mkTx (if e_commit_applied env n then tx_db s' else tx_db s) (S n) (tx_uuids s'))
      end
  | (Ok (Rollback a), s') =>
      let n := tx_statements s' in
      (match e_fault env n with None => Ok a | Some e => Err e end,
       mkTx (tx_db s) (S n) (tx_uuids s'))
  | (Ok (Dropped a), s') => (Ok a, mkTx (tx_db s) (tx_statements s') (tx_uuids s'))
  | (Err e, s') => (Err e, mkTx (tx_db s) (tx_statements s') (tx_uuids s'))
  end.

(** [for x in l { f(x).await? }] *)
Fixpoint tx_for {A} (l : list A) (f : A -> tx unit) : tx unit :=
  match l with
  | [] => tx_ret ()
  | x :: l' => let! _ := f x in tx_for l' f
  end.

(** ** Constraints *)

Definition check (b : bool) (e : StoreError) : tx unit :=
  if b then tx_ret () else tx_fail e.

Definition has {K A} `{Countable K} (m : gmap K A) (k : K) : bool := bool_decide (is_Some (m !! k)).

(** A nullable foreign key. *)
Definition has_opt {K A} `{Countable K} (m : gmap K A) (k : option K) : bool :=
  match k with None => true | Some k => has m k end.

(** [ORDER BY key, id] *)
Definition by_key_id (a b : Instant * Uuid) : bool :=
  (fst a <? fst b) || ((fst a =? fst b) && (snd a <=? snd b)%N).

Definition opt_le (o : option Instant) (t : Instant) : bool :=
  match o with Some x => x <=? t | None => false end.
Definition opt_lt (o : option Instant) (t : Instant) : bool :=
  match o with Some x => x <? t | None => false end.
Definition opt_gt (o : option Instant) (t : Instant) : bool :=
  match o with Some x => t <? x | None => false end.
Definition is_null {A} (o : option A) : bool := match o with None => true | Some _ => false end.

(** The keys of the unlocked rows that satisfy a condition, in the order of
    a sort key and the primary key, at most [limit] of them. *)
Definition select_ids {A} (m : gmap Uuid A) (locked : Uuid -> bool)
    (cond : Uuid -> A -> option Instant) (limit : Z) : list Uuid :=
  take (Z.to_nat limit)
    (map snd (sort_by by_key_id
       (omap (fun kv => if locked kv.1 then None
                        else option_map (fun key => (key, kv.1)) (cond kv.1 kv.2))
          (map_to_list m)))).

(** ** The trigger [runs_workflow_completion] *)

Definition executions_of_run (d : DB) (run : Uuid) : list (Uuid * Uuid) :=
  omap (fun kv => if bool_decide (ne_run_id kv.2 = Some run) then Some kv.1 else None)
    (map_to_list (workflow_node_executions d)).

Definition enqueue_workflow_completion (now : Instant) (id : Uuid) (old new : RunStatus) (d : DB) : DB :=
  if bool_decide (old <> new) && is_terminal new then
    match executions_of_run d id with
    | (node, _) :: _ =>
        match workflow_node_runs d !! node, workflow_completion_events d !! id with
        | Some n, None =>
            set_completion_events (<[id := mkCompletionEventRow (nr_workflow_run_id n) node now]>) d
        | _, _ => d
        end
    | [] => d
    end
  else d.

(** ** Guarded updates of one row: the row before the update when the [WHERE] holds

    [texts] are the text parameters of the statement; the server refuses one
    with a NUL (SQLSTATE 22021) before it looks at any row. *)

Definition storable (text : string) : bool := negb (contains_byte nul text).

Definition bind_texts (texts : list string) : tx unit := check (forallb storable texts) InvalidData.

Definition opt_text (o : option string) : list string :=
  match o with Some s => [s] | None => [] end.

(** [jsonb] refuses a NUL in any of its strings or keys (SQLSTATE 22P05). *)
Fixpoint json_storable (v : value) : bool :=
  match v with
  | VString s => storable s
  | VArray l => forallb json_storable l
  | VObject m => (fix members (m : list (string * value)) : bool :=
      match m with
      | [] => true
      | (k, v) :: m => storable k && json_storable v && members m
      end) m
  | _ => true
  end.

Definition bind_jsons (values : list value) : tx unit := check (forallb json_storable values) InvalidData.

Definition update_run (texts : list string) (id : Uuid) (cond : RunRow -> bool) (f : Instant -> RunRow -> RunRow)
  : tx (option RunRow) :=
  let! now := statement in
  let! _ := bind_texts texts in
  let! d := tx_get in
  match runs (core d) !! id with
  | Some r =>
      if cond r then
        let r' := f now r in
        let! _ := check ((0 <=? r_attempt_count r') && (r_attempt_count r' <=? r_max_attempts r'))
                    Internal in
        let! _ := tx_modify (fun d =>
          enqueue_workflow_completion now id (r_status r) (r_status r') (set_runs (<[id := r']>) d)) in
        tx_ret (Some r)
      else tx_ret None
  | None => tx_ret None
  end.

Definition attempt_checks (a : AttemptRow) : bool :=
  (0 <? a_attempt a) && (0 <=? a_output_sequence a)
  && match a_stdout_tail a with Some s => slen s <=? 65536 | None => true end
  && match a_stderr_tail a with Some s => slen s <=? 65536 | None => true end
  && match a_error a with Some s => chars_count s <=? 1024 | None => true end.

Definition update_attempt (texts : list string) (id : Uuid) (cond : Instant -> AttemptRow -> bool)
    (f : Instant -> AttemptRow -> AttemptRow) : tx (option AttemptRow) :=
  let! now := statement in
  let! _ := bind_texts texts in
  let! d := tx_get in
  match run_attempts (core d) !! id with
  | Some a =>
      if cond now a then
        let! _ := check (attempt_checks (f now a)) Internal in
        let! _ := tx_modify (set_attempts (<[id := f now a]>)) in
        tx_ret (Some a)
      else tx_ret None
  | None => tx_ret None
  end.

Definition outbox_checks (o : OutboxRow) : bool :=
  (0 <=? o_attempt_count o) && (o_attempt_count o <=? i32_max)
  && match o_last_error o with Some s => chars_count s <=? 1024 | None => true end.

Definition update_outbox (texts : list string) (id : Uuid) (cond : Instant -> OutboxRow -> bool)
    (f : Instant -> OutboxRow -> OutboxRow) : tx (option OutboxRow) :=
  let! now := statement in
  let! _ := bind_texts texts in
  let! d := tx_get in
  match outbox (core d) !! id with
  | Some o =>
      if cond now o then
        let! _ := check (outbox_checks (f now o)) Internal in
        let! _ := tx_modify (set_outbox (<[id := f now o]>)) in
        tx_ret (Some o)
      else tx_ret None
  | None => tx_ret None
  end.

(** ** Inserts *)

Definition run_checks (r : RunRow) : bool :=
  (0 <=? r_attempt_count r) && (1 <=? r_max_attempts r) && (r_max_attempts r <=? 100)
  && (r_attempt_count r <=? r_max_attempts r) && (0 <=? r_lateness_seconds r).

(** The key of [runs_schedule_occurrence_target_unique]. *)
Definition same_occurrence (a b : RunRow) : bool :=
  match r_schedule_id a, r_schedule_id b with
  | Some x, Some y =>
      (x =? y)%N && (r_scheduled_at a =? r_scheduled_at b) && (r_target_id a =? r_target_id b)%N
  | _, _ => false
  end.

Definition occurrence_taken (d : DB) (r : RunRow) : bool :=
  existsb (fun kv => same_occurrence r kv.2) (map_to_list (runs (core d))).

Definition run_references (d : DB) (r : RunRow) : bool :=
  has_opt (run_requests d) (r_request_id r) && has_opt (runs (core d)) (r_rerun_of_run_id r)
  && has_opt (schedules d) (r_schedule_id r) && has (jobs d) (r_job_id r)
  && has (targets d) (r_target_id r) && has (queues d) (r_queue_id r).

(** [enforce_run_namespace_match] *)
Definition run_namespace_match (d : DB) (r : RunRow) : bool :=
  match jobs d !! r_job_id r, targets d !! r_target_id r with
  | Some j, Some t => (j_namespace_id j =? t_namespace_id t)%N
  | _, _ => false
  end.

(** [INSERT INTO crono.runs]; [None] when [ON CONFLICT DO NOTHING] skips the row. *)
Definition insert_run (id : Uuid) (do_nothing : bool) (row : Instant -> RunRow) : tx (option Uuid) :=
  let! now := statement in
  let! d := tx_get in
  let r := row now in
  let! _ := bind_texts (opt_text (r_terminal_reason r)) in
  let! _ := check (run_checks r) Internal in
  if do_nothing && occurrence_taken d r then tx_ret None else
  let! _ := check (negb (has (runs (core d)) id)) Conflict in
  let! _ := check (negb (occurrence_taken d r)) Conflict in
  let! _ := check (run_references d r) InUse in
  let! _ := check (run_namespace_match d r) Internal in
  let! _ := tx_modify (set_runs (<[id := r]>)) in
  tx_ret (Some id).

Definition insert_attempt (id : Uuid) (row : Instant -> AttemptRow) : tx unit :=
  let! now := statement in
  let! d := tx_get in
  let a := row now in
  let! _ := check (attempt_checks a) Internal in
  let! _ := check (negb (has (run_attempts (core d)) id)) Conflict in
  let! _ := check (negb (existsb (fun kv => (a_run_id kv.2 =? a_run_id a)%N
                                            && (a_attempt kv.2 =? a_attempt a))
                           (map_to_list (run_attempts (core d))))) Conflict in
  let! _ := check (has (runs (core d)) (a_run_id a)) InUse in
  tx_modify (set_attempts (<[id := a]>)).

Definition insert_outbox (id : Uuid) (row : Instant -> OutboxRow) : tx unit :=
  let! now := statement in
  let! d := tx_get in
  let o := row now in
  let! _ := check (outbox_checks o) Internal in
  let! _ := check (negb (has (outbox (core d)) id)) Conflict in
  let! _ := check (negb (existsb (fun kv => (o_attempt_id kv.2 =? o_attempt_id o)%N)
                           (map_to_list (outbox (core d))))) Conflict in
  let! _ := check (has (runs (core d)) (o_run_id o) && has (run_attempts (core d)) (o_attempt_id o))
              InUse in
  tx_modify (set_outbox (<[id := o]>)).

Definition insert_run_event (run : Uuid) (event_type : string) (detail : value) : tx unit :=
  let! now := statement in
  let! d := tx_get in
  let! _ := check (has (runs (core d)) run) InUse in
  tx_modify (set_run_events (fun l => l ++ [mkRunEventRow run event_type detail now])).

Definition insert_schedule_event (schedule : Uuid) (event_type : string) (at_ : Instant)
    (detail : value) : tx unit :=
  let! now := statement in
  let! d := tx_get in
  let! _ := check (has (schedules d) schedule) InUse in
  tx_modify (set_schedule_events
    (fun l => l ++ [mkScheduleEventRow schedule event_type (Some at_) detail now])).
