(* ===== verification/Snapshot.v ===== *)
(** * Loading executions and rendering their immutable snapshots

    The first half of Run creation in infrastructure/postgres.rs: which
    (Job, Target) pairs an invocation covers, and the snapshot each of them
    is rendered into before anything is dispatched. *)

From S2P Require Import Prelude RustStr Json Inputs Names Float Domain Db.
From Stdlib Require Import SpecFloat Ascii String.
From stdpp Require Import base numbers strings sorting gmap list.

Local Open Scope Z_scope.

(** What the store leaves to the database server: equality of [jsonb] values
    and the collation of [text]. *)
Class PostgresServer : Type := {
  jsonb_eq : value -> value -> bool;
  text_le : string -> string -> bool;
}.

Record ExecutionRow : Type := mkExecutionRow {
  x_namespace_id : Uuid;
  x_job_id : Uuid;
  x_target_id : Uuid;
  x_executor : string;
  x_queue_id : Uuid;
  x_queue_name : string;
  x_executable : option string;
  x_shell_command : option string;
  x_job_arguments : value;
  x_target_arguments : value;
  x_job_inputs : value;
  x_target_inputs : value;
  x_idempotent : bool;
  x_dry_run : bool;
  x_max_attempts : Z;
  x_retry_initial_seconds : Z;
  x_retry_max_seconds : Z;
  x_retry_multiplier : spec_float;
  x_retry_jitter : spec_float;
}.

(** The join of [load_execution_ids]. *)
Definition execution_row (d : DB) (job_id target_id : Uuid) : option ExecutionRow :=
  j ← jobs d !! job_id;
  q ← queues d !! j_queue_id j;
  t ← targets d !! target_id;
  if (t_namespace_id t =? j_namespace_id j)%N then
    Some {| x_namespace_id := j_namespace_id j; x_job_id := job_id; x_target_id := target_id;
            x_executor := j_executor j; x_queue_id := j_queue_id j; x_queue_name := qr_name q;
            x_executable := j_executable j; x_shell_command := j_shell_command j;
            x_job_arguments := j_arguments j; x_target_arguments := t_arguments t;
            x_job_inputs := j_inputs j; x_target_inputs := t_inputs t;
            x_idempotent := j_idempotent j; x_dry_run := j_dry_run j;
            x_max_attempts := j_max_attempts j;
            x_retry_initial_seconds := j_retry_initial_seconds j;
            x_retry_max_seconds := j_retry_max_seconds j;
            x_retry_multiplier := j_retry_multiplier j; x_retry_jitter := j_retry_jitter j |}
  else None.

Definition load_execution_ids (job_id target_id : Uuid) : tx ExecutionRow :=
  let! _ := statement in
  let! d := tx_get in
  tx_lift (ok_or (execution_row d job_id target_id) NotFound).

Fixpoint tx_collect {A B} (f : A -> tx B) (l : list A) : tx (list B) :=
  match l with
  | [] => tx_ret []
  | x :: l' =>
      let! y := f x in
      let! ys := tx_collect f l' in
      tx_ret (y :: ys)
  end.

Section Snapshot.
Context {SJ : SerdeJson} {RF : RustFmt} {PG : PostgresServer}.

(** [ORDER BY t.name, t.id] *)
Definition by_name_id (a b : string * Uuid) : bool :=
  text_le a.1 b.1 && (negb (text_le b.1 a.1) || (a.2 <=? b.2)%N).

Definition member_targets (d : DB) (set_id : Uuid) : list Uuid :=
  map snd (sort_by by_name_id
    (omap (fun kv => if bool_decide ((set_id, kv.1) ∈ target_set_members d)
                     then Some (t_name kv.2, kv.1) else None)
       (map_to_list (targets d)))).

Definition load_selection_executions (job_id : Uuid) (target : TargetSelection)
  : tx (list ExecutionRow * option value) :=
  match target with
  | SelTarget target_id =>
      let! x := load_execution_ids job_id target_id in
      tx_ret ([x], None)
  | SelTargetSet target_set_id =>
      let! _ := statement in
      let! d := tx_get in
      let! inputs := tx_lift (ok_or (
        ts ← target_sets d !! target_set_id;
        j ← jobs d !! job_id;
        if (j_namespace_id j =? tsr_namespace_id ts)%N then Some (tsr_inputs ts) else None) NotFound) in
      let! _ := statement in
      let! d := tx_get in
      let target_ids := member_targets d target_set_id in
      if is_null (head target_ids) then tx_fail NotFound
      else
        let! executions := tx_collect (load_execution_ids job_id) target_ids in
        tx_ret (executions, Some inputs)
  end.

(** ** Rendering *)

Definition empty_object : value := VObject [].

Definition effective_inputs (execution : ExecutionRow) (target_set_inputs : option value)
    (invocation_inputs : value) : result value InputError :=
  merge_inputs [x_job_inputs execution; default empty_object target_set_inputs;
                x_target_inputs execution; invocation_inputs].

Definition execution_snapshot_with_inputs (run_id : Uuid) (execution : ExecutionRow)
    (target_set_inputs : option value) (invocation_inputs : value) (trigger : ExecutionTrigger)
    (scheduled_at : option Instant) : result ExecutionSnapshot string :=
  let? job_arguments := ok_or (strings_of_value (x_job_arguments execution))
                          (from_value_error (x_job_arguments execution)) in
  let? target_arguments := ok_or (strings_of_value (x_target_arguments execution))
                             (from_value_error (x_target_arguments execution)) in
  let arguments := (job_arguments ++ target_arguments)%list in
  let? inputs := map_err display_input_error
                   (effective_inputs execution target_set_inputs invocation_inputs) in
  let? rendered_arguments := map_err display_input_error (render_arguments arguments inputs) in
  let? executor :=
    (if (x_executor execution =? "noop")%string then Ok Noop
     else if (x_executor execution =? "process")%string then Ok Process
     else if (x_executor execution =? "shell")%string then Ok Shell
     else Err "unsupported persisted executor"%string) in
  let? retry_initial := try_from in_u32 "invalid persisted retry delay"%string
                          (x_retry_initial_seconds execution) in
  let? retry_max := try_from in_u32 "invalid persisted maximum retry delay"%string
                      (x_retry_max_seconds execution) in
  Ok {| es_executor := executor; es_executable := x_executable execution;
        es_shell_command := x_shell_command execution; es_argument_templates := arguments;
        es_arguments := rendered_arguments; es_inputs := inputs;
        es_job_id := Some (x_job_id execution); es_trigger := Some trigger;
        es_scheduled_at := scheduled_at; es_idempotency_key := run_id;
        es_queue_id := x_queue_id execution; es_queue := x_queue_name execution;
        es_idempotent := x_idempotent execution; es_dry_run := x_dry_run execution;
        es_retry_initial_seconds := retry_initial; es_retry_max_seconds := retry_max;
        es_retry_multiplier := x_retry_multiplier execution;
        es_retry_jitter := x_retry_jitter execution |}.

Definition scheduled_snapshot (run_id : Uuid) (execution : ExecutionRow)
    (target_set_inputs : option value) (schedule_inputs : value) (scheduled_at : Instant)
  : result ExecutionSnapshot string :=
  execution_snapshot_with_inputs run_id execution target_set_inputs schedule_inputs Schedule_
    (Some scheduled_at).

(** ** Idempotency of requests *)

(** Equal Rust values need no round trip. *)
Definition json_inputs_equal (stored incoming : value) : tx bool :=
  if value_eqb stored incoming then tx_ret true
  else
    let! _ := statement in
    tx_ret (jsonb_eq stored incoming).

(** A stored request and whether a workflow node owns its identity. *)
Definition find_run_request (request_id : Uuid) : tx (option (RunRequestRow * bool)) :=
  let! _ := statement in
  let! d := tx_get in
  tx_ret (option_map (fun r => (r, has (workflow_node_runs d) request_id)) (run_requests d !! request_id)).

Definition compare_run_request (existing : RunRequestRow * bool) (job_id : Uuid)
    (target : TargetSelection) (inputs : value) : tx unit :=
  let '(target_id, target_set_id) := selection_ids target in
  if negb existing.2 && (rr_job_id existing.1 =? job_id)%N
     && bool_decide (rr_target_id existing.1 = target_id)
     && bool_decide (rr_target_set_id existing.1 = target_set_id)
  then
    let! same := json_inputs_equal (rr_inputs existing.1) inputs in
    if same then tx_ret () else tx_fail IdempotencyConflict
  else tx_fail IdempotencyConflict.

(** ** Run records *)

Record RunRecord : Type := mkRunRecord {
  rec_has_execution_snapshot : bool;
  rec_run : Run;
  rec_job_namespace : NamespaceName;
  rec_job_name : ResourceName;
  rec_target_namespace : NamespaceName;
  rec_target_name : ResourceName;
  rec_target_set_name : option ResourceName;
  rec_queue_name : QueueName;
}.

(** The columns the Run queries select beside the table's own. *)
Record RunJoin : Type := mkRunJoin {
  jn_id : Uuid;
  jn_row : RunRow;
  jn_job_namespace : string;
  jn_job_name : string;
  jn_target_namespace : string;
  jn_target_name : string;
  jn_target_set_id : option Uuid;
  jn_target_set_name : option string;
  jn_queue_name : string;
  jn_job_namespace_id : Uuid;
}.

Definition run_target_set (d : DB) (r : RunRow) : option Uuid :=
  let of_request := (id ← r_request_id r; rr ← run_requests d !! id; rr_target_set_id rr) in
  let of_schedule := (id ← r_schedule_id r; s ← schedules d !! id; s_target_set_id s) in
  match of_request with Some id => Some id | None => of_schedule end.

Definition run_join (d : DB) (id : Uuid) (r : RunRow) : option RunJoin :=
  j ← jobs d !! r_job_id r;
  jn ← namespaces d !! j_namespace_id j;
  t ← targets d !! r_target_id r;
  tn ← namespaces d !! t_namespace_id t;
  q ← queues d !! r_queue_id r;
  let ts := (i ← run_target_set d r; row ← target_sets d !! i; Some (i, row)) in
  Some {| jn_id := id; jn_row := r; jn_job_namespace := n_name jn; jn_job_name := j_name j;
          jn_target_namespace := n_name tn; jn_target_name := t_name t;
          jn_target_set_id := option_map fst ts;
          jn_target_set_name := option_map (fun p => tsr_name p.2) ts;
          jn_queue_name := qr_name q; jn_job_namespace_id := j_namespace_id j |}.

(** [execution_snapshot ? 'executor'] *)
Definition has_executor (s : StoredSnapshot) : bool :=
  match s with Rendered _ => true | RenderError _ _ => false end.

Definition name_error {A} (m : result A ResourceNameError) : result A StoreError :=
  map_err (fun _ => Internal) m.

Definition run_from_row (row : RunJoin) : result RunRecord StoreError :=
  let r := jn_row row in
  let? status := parse_run_status (run_status_name (r_status r)) in
  let? attempt_count := try_from in_u16 Internal (r_attempt_count r) in
  let? max_attempts := try_from in_u16 Internal (r_max_attempts r) in
  let? lateness := try_from in_u64 Internal (r_lateness_seconds r) in
  let? job_namespace := name_error (NamespaceNameM.parse (jn_job_namespace row)) in
  let? job_name := name_error (ResourceNameM.parse (jn_job_name row)) in
  let? target_namespace := name_error (NamespaceNameM.parse (jn_target_namespace row)) in
  let? target_name := name_error (ResourceNameM.parse (jn_target_name row)) in
  let? target_set_name :=
    match jn_target_set_name row with
    | None => Ok None
    | Some n => let? n := name_error (ResourceNameM.parse n) in Ok (Some n)
    end in
  let? queue_name := name_error (QueueNameM.parse (jn_queue_name row)) in
  Ok {| rec_has_execution_snapshot := has_executor (r_execution_snapshot r);
        rec_run := {|
          run_id := jn_id row; run_request_id := r_request_id r;
          run_rerun_of_run_id := r_rerun_of_run_id r; run_schedule_id := r_schedule_id r;
          run_job_id := r_job_id r; run_target_id := r_target_id r; run_queue_id := r_queue_id r;
          run_status := status; run_scheduled_at := r_scheduled_at r;
          run_created_at := r_created_at r; run_queued_at := r_queued_at r;
          run_started_at := r_started_at r; run_completed_at := r_completed_at r;
          run_attempt_count := attempt_count; run_max_attempts := max_attempts;
          run_lateness_seconds := lateness; run_terminal_reason := r_terminal_reason r |};
        rec_job_namespace := job_namespace; rec_job_name := job_name;
        rec_target_namespace := target_namespace; rec_target_name := target_name;
        rec_target_set_name := target_set_name; rec_queue_name := queue_name |}.

Definition request_rows (d : DB) (request_id : Uuid) : list RunJoin :=
  map snd (sort_by (fun a b => by_name_id a.1 b.1)
    (omap (fun kv =>
       if bool_decide (r_request_id kv.2 = Some request_id)
       then option_map (fun j => ((jn_target_name j, kv.1), j)) (run_join d kv.1 kv.2)
       else None) (map_to_list (runs (core d))))).

Definition runs_for_request (request_id : Uuid) : tx (list RunRecord) :=
  let! _ := statement in
  let! d := tx_get in
  tx_lift (collect run_from_row (request_rows d request_id)).

End Snapshot.
