(* ===== verification/TxLogic.v ===== *)
(** * Reasoning about transactions

    Inversion of successful code, what an operation leaves alone ([keeps]) and
    which properties it preserves ([pres] when it succeeds, [all_pres] always). *)

From S2P Require Import Prelude Domain Db Snapshot.
From stdpp Require Import base numbers strings sorting gmap list.

Local Open Scope Z_scope.

(** ** Successful code *)

Lemma tx_bind_ok {A B} (m : tx A) (k : A -> tx B) env s b s2 :
  tx_bind m k env s = (Ok b, s2) ->
  exists a s1, m env s = (Ok a, s1) /\ k a env s1 = (Ok b, s2).
Proof. unfold tx_bind. destruct (m env s) as [[a|e] s1]; [eauto|done]. Qed.

Lemma statement_db env s res s' : statement env s = (res, s') -> tx_db s' = tx_db s.
Proof. unfold statement. destruct (e_fault env (tx_statements s)); by intros [= <- <-]. Qed.

Lemma check_ok b e env s u s' : check b e env s = (Ok u, s') -> b = true /\ s' = s.
Proof. unfold check. destruct b; by intros [= <- <-]. Qed.

Lemma tx_lift_ok {A} (r : result A StoreError) env s a s' :
  tx_lift r env s = (Ok a, s') -> r = Ok a /\ s' = s.
Proof. by intros [= -> ->]. Qed.

Lemma fresh_uuid_ok env s u s' : fresh_uuid env s = (Ok u, s') -> tx_db s' = tx_db s.
Proof. by intros [= <- <-]. Qed.

(** ** Runs without faults *)

Definition fault_free (env : Env) : Prop := forall n, e_fault env n = None.

Lemma statement_runs env s :
  fault_free env ->
  statement env s = (Ok (e_timestamp env (tx_statements s)), mkTx (tx_db s) (S (tx_statements s)) (tx_uuids s)).
Proof. intros Hf. unfold statement. by rewrite Hf. Qed.

Lemma transaction_commits {A} (body : tx (outcome A)) env s a s' :
  fault_free env -> body env (mkTx (tx_db s) (S (tx_statements s)) (tx_uuids s)) = (Ok (Commit a), s') ->
  transaction body env s = (Ok a, mkTx (tx_db s') (S (tx_statements s')) (tx_uuids s')).
Proof. intros Hf H. unfold transaction, tx_bind. by rewrite statement_runs, H, Hf. Qed.

(** ** What code leaves alone *)

(** [m] leaves what [f] reads of the database alone. *)
Definition keeps {A X} (f : DB -> X) (m : tx A) : Prop := forall env s res s',
  m env s = (res, s') -> f (tx_db s') = f (tx_db s).

Section Keeps.
Context {X : Type} (f : DB -> X).

Lemma keeps_bind {A B} (m : tx A) (k : A -> tx B) :
  keeps f m -> (forall a, keeps f (k a)) -> keeps f (tx_bind m k).
Proof.
  intros Hm Hk env s res s' H. unfold tx_bind in H. destruct (m env s) as [[a|e] s1] eqn:H1.
  - rewrite (Hk _ _ _ _ _ H). by eapply Hm.
  - injection H as <- <-. by eapply Hm.
Qed.

Lemma keeps_step {A} (m : tx A) : (forall env s, tx_db (snd (m env s)) = tx_db s) -> keeps f m.
Proof. intros Hm env s res s' H. specialize (Hm env s). rewrite H in Hm. simpl in Hm. by rewrite Hm. Qed.

Lemma keeps_modify g : (forall d, f (g d) = f d) -> keeps f (tx_modify g).
Proof. intros Hg env s res s' [= <- <-]. apply Hg. Qed.

Lemma keeps_statement : keeps f statement.
Proof. apply keeps_step. intros env s. unfold statement. by case_match. Qed.

Lemma keeps_check b e : keeps f (check b e).
Proof. apply keeps_step. intros env s. unfold check. by case_match. Qed.

Lemma keeps_for {A} (l : list A) (g : A -> tx unit) : (forall x, keeps f (g x)) -> keeps f (tx_for l g).
Proof. intros Hg. induction l as [|x l IH]; [by apply keeps_step|]. by apply keeps_bind. Qed.

End Keeps.

Ltac keeps_tac := repeat first
  [ apply keeps_statement | apply keeps_check | apply keeps_bind; [|intros ?]
  | apply keeps_for; intros ? | apply keeps_modify; intros ?; reflexivity
  | case_match | apply keeps_step; intros ? ?; reflexivity ].

Lemma keeps_transaction {A X} (f : DB -> X) (body : tx (outcome A)) :
  keeps f body -> keeps f (transaction body).
Proof.
  intros Hb env s res s' H. unfold transaction in H.
  destruct (tx_bind statement _ env s) as [[out|e] s2] eqn:Hs.
  - assert (f (tx_db s2) = f (tx_db s)) as Heq.
    { eapply (keeps_bind f statement); [apply keeps_statement|intros ?; exact Hb|exact Hs]. }
    destruct out; simpl in H.
    + destruct (e_fault env _); injection H as <- <-; simpl; [by destruct (e_commit_applied env _)|done].
    + injection H as <- <-. done.
    + injection H as <- <-. done.
  - injection H as <- <-. done.
Qed.

Lemma keeps_for_in {A X} (f : DB -> X) (l : list A) (g : A -> tx unit) :
  Forall (fun x => keeps f (g x)) l -> keeps f (tx_for l g).
Proof. intros H. induction H as [|x l Hx _ IH]; [by apply keeps_step|]. by apply keeps_bind. Qed.

(** ** Preservation by code that runs SQL *)

(** Every successful execution preserves [P]. *)
Definition pres {A} (P : DB -> Prop) (m : tx A) : Prop := forall env s a s',
  m env s = (Ok a, s') -> P (tx_db s) -> P (tx_db s').

(** Every execution preserves [P]. *)
Definition all_pres {A} (P : DB -> Prop) (m : tx A) : Prop := forall env s res s',
  m env s = (res, s') -> P (tx_db s) -> P (tx_db s').

Section Preservation.
Context (P : DB -> Prop).

Lemma pres_bind {A B} (m : tx A) (k : A -> tx B) : pres P m -> (forall a, pres P (k a)) -> pres P (tx_bind m k).
Proof. intros Hm Hk env s b s' H Hp. apply tx_bind_ok in H as (a & s1 & H1 & H). eapply Hk; [exact H|]. by eapply Hm. Qed.

Lemma pres_for {A} (l : list A) (f : A -> tx unit) : (forall x, pres P (f x)) -> pres P (tx_for l f).
Proof.
  intros Hf. induction l as [|x l IH]; [by intros env s a s' [= <- <-]|]. apply pres_bind; [apply Hf|intros []; exact IH].
Qed.

Lemma all_pres_pres {A} (m : tx A) : all_pres P m -> pres P m.
Proof. intros Hm env s a s' H. by eapply Hm. Qed.

Lemma all_pres_bind {A B} (m : tx A) (k : A -> tx B) :
  all_pres P m -> (forall a, all_pres P (k a)) -> all_pres P (tx_bind m k).
Proof.
  intros Hm Hk env s res s' H Hp. unfold tx_bind in H. destruct (m env s) as [[a|e] s1] eqn:H1.
  - eapply Hk; [exact H|]. by eapply Hm.
  - injection H as <- <-. by eapply Hm.
Qed.

Lemma all_pres_transaction {A} (body : tx (outcome A)) : pres P body -> all_pres P (transaction body).
Proof.
  intros Hb env s res s' H Hp. unfold transaction in H. destruct (tx_bind statement _ env s) as [[out|e] s1] eqn:H1.
  2:{ by injection H as <- <-. }
  assert (P (tx_db s1)) as Hp1.
  { apply tx_bind_ok in H1 as (now & s0 & H0%(keeps_statement (fun d => d)) & H1). eapply Hb; [exact H1|]. by rewrite H0. }
  destruct out as [a|a|a].
  - destruct (e_fault env _); injection H as <- <-; [|done]. by destruct (e_commit_applied env _).
  - by injection H as <- <-.
  - by injection H as <- <-.
Qed.

End Preservation.
