(* ===== verification/Store.v ===== *)
(** * The execution store (infrastructure/postgres.rs)

    Run creation, the outbox, worker claims, leases, completion and
    reconciliation: every operation of [ControlPlaneStore] that writes the
    tables [runs], [run_attempts] and [outbox], statement by statement. *)

From S2P Require Import Prelude RustStr Json Inputs Names Float Domain Db Snapshot.
From Stdlib Require Import SpecFloat Ascii String.
From stdpp Require Import base numbers strings sorting gmap list.

Local Open Scope Z_scope.

(** [time::Duration::seconds_f64], in nanoseconds. *)
Class TimeCrate : Type := { seconds_f64 : spec_float -> Z }.

(** ** Column updates *)

Definition run_set (r : RunRow) (status : RunStatus) (attempt_count : Z)
    (next_retry_at queued_at started_at completed_at : option Instant)
    (terminal_reason : option string) : RunRow :=
  {| r_request_id := r_request_id r; r_rerun_of_run_id := r_rerun_of_run_id r;
     r_schedule_id := r_schedule_id r; r_job_id := r_job_id r; r_target_id := r_target_id r;
     r_queue_id := r_queue_id r; r_scheduled_at := r_scheduled_at r; r_status := status;
     r_execution_snapshot := r_execution_snapshot r; r_attempt_count := attempt_count;
     r_max_attempts := r_max_attempts r; r_next_retry_at := next_retry_at;
     r_lateness_seconds := r_lateness_seconds r; r_terminal_reason := terminal_reason;
     r_created_at := r_created_at r; r_queued_at := queued_at; r_started_at := started_at;
     r_completed_at := completed_at |}.

Definition attempt_set (a : AttemptRow) (status : AttemptStatus) (worker_id : option string)
    (started_at heartbeat_at lease_expires_at completed_at : option Instant)
    (exit_code : option Z) (stdout_tail stderr_tail : option string) (output_sequence : Z)
    (error : option string) : AttemptRow :=
  {| a_run_id := a_run_id a; a_attempt := a_attempt a; a_status := status;
     a_worker_id := worker_id; a_started_at := started_at; a_heartbeat_at := heartbeat_at;
     a_lease_expires_at := lease_expires_at; a_completed_at := completed_at;
     a_exit_code := exit_code; a_stdout_tail := stdout_tail; a_stderr_tail := stderr_tail;
     a_output_sequence := output_sequence; a_error := error; a_created_at := a_created_at a |}.

Definition outbox_set (o : OutboxRow) (attempt_count : Z) (next_attempt_at : Instant)
    (claimed_by : option Uuid) (claim_expires_at : option Instant) (last_error : option string)
    (published_at cancelled_at : option Instant) (sequence : option Z) : OutboxRow :=
  {| o_run_id := o_run_id o; o_attempt_id := o_attempt_id o; o_subject := o_subject o;
     o_payload := o_payload o; o_dispatch_deadline := o_dispatch_deadline o;
     o_attempt_count := attempt_count; o_next_attempt_at := next_attempt_at;
     o_claimed_by := claimed_by; o_claim_expires_at := claim_expires_at;
     o_last_error := last_error; o_created_at := o_created_at o; o_published_at := published_at;
     o_cancelled_at := cancelled_at; o_nats_stream_sequence := sequence |}.

(** ** Creating Runs *)

Definition dispatch_subject (queue_id : Uuid) : string :=
  String.append "crono.dispatch." (uuid_to_string queue_id).

Definition new_attempt (run_id : Uuid) (attempt : Z) (now : Instant) : AttemptRow :=
  {| a_run_id := run_id; a_attempt := attempt; a_status := APendingDispatch; a_worker_id := None;
     a_started_at := None; a_heartbeat_at := None; a_lease_expires_at := None;
     a_completed_at := None; a_exit_code := None; a_stdout_tail := None; a_stderr_tail := None;
     a_output_sequence := 0; a_error := None; a_created_at := now |}.

Definition new_outbox (dispatch_id run_id attempt_id queue_id : Uuid) (deadline : option Instant)
    (now : Instant) : OutboxRow :=
  {| o_run_id := run_id; o_attempt_id := attempt_id; o_subject := dispatch_subject queue_id;
     o_payload := {| de_dispatch_id := dispatch_id; de_run_id := run_id;
                     de_attempt_id := attempt_id; de_queue_id := queue_id |};
     o_dispatch_deadline := deadline; o_attempt_count := 0; o_next_attempt_at := now;
     o_claimed_by := None; o_claim_expires_at := None; o_last_error := None; o_created_at := now;
     o_published_at := None; o_cancelled_at := None; o_nats_stream_sequence := None |}.

Definition create_attempt_and_outbox (run_id : Uuid) (attempt : Z) (queue_id : Uuid)
    (dispatch_deadline : option Instant) : tx unit :=
  let! attempt_id := fresh_uuid in
  let! dispatch_id := fresh_uuid in
  let! _ := insert_attempt attempt_id (new_attempt run_id attempt) in
  insert_outbox dispatch_id (new_outbox dispatch_id run_id attempt_id queue_id dispatch_deadline).

Record PreparedRun : Type := mkPreparedRun {
  p_id : Uuid;
  p_request_id : Uuid;
  p_job_id : Uuid;
  p_target_id : Uuid;
  p_queue_id : Uuid;
  p_max_attempts : Z;
  p_snapshot : ExecutionSnapshot;
}.

(** A Run row as an [INSERT] with the columns' defaults leaves it. *)
Definition new_run (request_id rerun_of schedule_id : option Uuid) (job_id target_id queue_id : Uuid)
    (scheduled_at : Instant) (status : RunStatus) (snapshot : StoredSnapshot)
    (attempt_count max_attempts lateness : Z) (reason : option string)
    (completed_at : option Instant) (now : Instant) : RunRow :=
  {| r_request_id := request_id; r_rerun_of_run_id := rerun_of; r_schedule_id := schedule_id;
     r_job_id := job_id; r_target_id := target_id; r_queue_id := queue_id;
     r_scheduled_at := scheduled_at; r_status := status; r_execution_snapshot := snapshot;
     r_attempt_count := attempt_count; r_max_attempts := max_attempts; r_next_retry_at := None;
     r_lateness_seconds := lateness; r_terminal_reason := reason; r_created_at := now;
     r_queued_at := None; r_started_at := None; r_completed_at := completed_at |}.

Definition create_normal_run (prepared : PreparedRun) : tx unit :=
  let! _ := insert_run (p_id prepared) false (fun now =>
    new_run (Some (p_request_id prepared)) None None (p_job_id prepared) (p_target_id prepared)
      (p_queue_id prepared) now PendingDispatch (Rendered (p_snapshot prepared)) 1
      (p_max_attempts prepared) 0 None None now) in
  let! _ := create_attempt_and_outbox (p_id prepared) 1 (p_queue_id prepared) None in
  insert_run_event (p_id prepared) "created" (VObject []).

(** [INSERT INTO crono.run_requests]: the constraint that failed, if any. *)
Definition insert_run_request (request_id namespace_id job_id : Uuid)
    (target_id target_set_id : option Uuid) (inputs : value) : tx (result unit StoreError) :=
  let! now := statement in
  let! d := tx_get in
  if negb (json_storable inputs) then tx_ret (Err InvalidData)
  else if negb (is_object inputs)
     || Bool.eqb (is_null target_id) (is_null target_set_id) then tx_ret (Err Internal)
  else if has (run_requests d) request_id then tx_ret (Err Conflict)
  else if negb (has (namespaces d) namespace_id && has (jobs d) job_id
                && has_opt (targets d) target_id && has_opt (target_sets d) target_set_id)
  then tx_ret (Err InUse)
  else
    let! _ := tx_modify (set_run_requests
      (<[request_id := mkRunRequestRow namespace_id job_id target_id target_set_id inputs now]>)) in
    tx_ret (Ok ()).

Section Store.
Context {SJ : SerdeJson} {RF : RustFmt} {PG : PostgresServer} {TC : TimeCrate}.

(** The snapshots of the executions, each with the identity of its Run. *)
Definition render_executions (executions : list ExecutionRow) (set_inputs : option value)
    (inputs : value) : tx (list (ExecutionRow * (Uuid * ExecutionSnapshot))) :=
  tx_collect (fun execution =>
    let! run_id := fresh_uuid in
    let! snapshot := tx_lift (map_err (fun _ => Internal)
      (execution_snapshot_with_inputs run_id execution set_inputs inputs Manual None)) in
    tx_ret (execution, (run_id, snapshot))) executions.

Definition prepared_run (request_id : Uuid) (e : ExecutionRow * (Uuid * ExecutionSnapshot))
  : PreparedRun :=
  let '(execution, (run_id, snapshot)) := e in
  {| p_id := run_id; p_request_id := request_id; p_job_id := x_job_id execution;
     p_target_id := x_target_id execution; p_queue_id := x_queue_id execution;
     p_max_attempts := x_max_attempts execution; p_snapshot := snapshot |}.

(** The transaction of [create_runs]: whether this call created the request. *)
Definition create_runs_transaction (request_id job_id : Uuid) (target : TargetSelection)
    (inputs : value) : tx bool :=
  transaction (
    let! (executions, set_inputs) := load_selection_executions job_id target in
    let! snapshots := render_executions executions set_inputs inputs in
    let '(target_id, target_set_id) := selection_ids target in
    let! namespace_id := tx_lift (ok_or (option_map x_namespace_id (head executions)) NotFound) in
    let! inserted := insert_run_request request_id namespace_id job_id target_id target_set_id inputs in
    match inserted with
    | Err Conflict => tx_ret (Rollback false)
    | Err e => tx_fail e
    | Ok _ =>
        let! _ := tx_for snapshots (fun e => create_normal_run (prepared_run request_id e)) in
        tx_ret (Commit true)
    end).

Definition create_runs (request_id job_id : Uuid) (target : TargetSelection) (inputs : value)
  : tx (list RunRecord * bool) :=
  let! existing := find_run_request request_id in
  match existing with
  | Some existing =>
      let! _ := compare_run_request existing job_id target inputs in
      let! records := runs_for_request request_id in
      tx_ret (records, false)
  | None =>
      let! created := create_runs_transaction request_id job_id target inputs in
      if created then
        let! records := runs_for_request request_id in
        tx_ret (records, true)
      else
        let! existing := find_run_request request_id in
        let! existing := tx_lift (ok_or existing Internal) in
        let! _ := compare_run_request existing job_id target inputs in
        let! records := runs_for_request request_id in
        tx_ret (records, false)
  end.

(** ** Re-runs *)

Definition existing_rerun (request_id source_id : Uuid) : tx (option RunRecord) :=
  let! request := find_run_request request_id in
  match request with
  | None => tx_ret None
  | Some _ =>
      let! records := runs_for_request request_id in
      match records with
      | [r] =>
          if bool_decide (run_rerun_of_run_id (rec_run r) = Some source_id) then tx_ret (Some r)
          else tx_fail IdempotencyConflict
      | _ => tx_fail IdempotencyConflict
      end
  end.

Record RerunSourceRow : Type := mkRerunSourceRow {
  src_namespace_id : Uuid;
  src_job_id : Uuid;
  src_target_id : Uuid;
  src_queue_id : Uuid;
  src_queue_enabled : bool;
  src_max_attempts : Z;
  src_execution_snapshot : StoredSnapshot;
  src_invocation_inputs : value;
}.

Definition rerun_source (d : DB) (source_id : Uuid) : option RerunSourceRow :=
  r ← runs (core d) !! source_id;
  j ← jobs d !! r_job_id r;
  q ← queues d !! r_queue_id r;
  let of_request := (id ← r_request_id r; rr ← run_requests d !! id; Some (rr_inputs rr)) in
  let of_schedule := (id ← r_schedule_id r; s ← schedules d !! id; Some (s_inputs s)) in
  Some {| src_namespace_id := j_namespace_id j; src_job_id := r_job_id r;
          src_target_id := r_target_id r; src_queue_id := r_queue_id r;
          src_queue_enabled := qr_enabled q; src_max_attempts := r_max_attempts r;
          src_execution_snapshot := r_execution_snapshot r;
          src_invocation_inputs :=
            match of_request with
            | Some v => v
            | None => default empty_object of_schedule
            end |}.

(** The source's snapshot under a new identity and origin. *)
Definition rerun_snapshot (s : ExecutionSnapshot) (run_id job_id queue_id : Uuid) : ExecutionSnapshot :=
  {| es_executor := es_executor s; es_executable := es_executable s;
     es_shell_command := es_shell_command s; es_argument_templates := es_argument_templates s;
     es_arguments := es_arguments s; es_inputs := es_inputs s; es_job_id := Some job_id;
     es_trigger := Some Rerun; es_scheduled_at := None; es_idempotency_key := run_id;
     es_queue_id := queue_id; es_queue := es_queue s; es_idempotent := es_idempotent s;
     es_dry_run := es_dry_run s; es_retry_initial_seconds := es_retry_initial_seconds s;
     es_retry_max_seconds := es_retry_max_seconds s;
     es_retry_multiplier := es_retry_multiplier s; es_retry_jitter := es_retry_jitter s |}.

Definition insert_rerun_transaction (source_id request_id : Uuid) : tx bool :=
  transaction (
    let! _ := statement in
    let! d := tx_get in
    let! source := tx_lift (ok_or (rerun_source d source_id) NotFound) in
    if negb (src_queue_enabled source) then tx_fail QueueDisabled
    else
      let! run_id := fresh_uuid in
      let! snapshot := tx_lift (match src_execution_snapshot source with
                                | Rendered s => Ok s
                                | RenderError _ _ => Err Internal
                                end) in
      let snapshot := rerun_snapshot snapshot run_id (src_job_id source) (src_queue_id source) in
      let! inserted := insert_run_request request_id (src_namespace_id source) (src_job_id source)
                         (Some (src_target_id source)) None (src_invocation_inputs source) in
      match inserted with
      | Err Conflict => tx_ret (Rollback false)
      | Err e => tx_fail e
      | Ok _ =>
          let! _ := insert_run run_id false (fun now =>
            new_run (Some request_id) (Some source_id) None (src_job_id source)
              (src_target_id source) (src_queue_id source) now PendingDispatch (Rendered snapshot) 1
              (src_max_attempts source) 0 None None now) in
          let! _ := create_attempt_and_outbox run_id 1 (src_queue_id source) None in
          let! _ := insert_run_event run_id "created"
                      (VObject [("rerun_of_run_id"%string, VString (uuid_to_string source_id))]) in
          tx_ret (Commit true)
      end).

Definition insert_rerun (source_id request_id : Uuid) : tx (RunRecord * bool) :=
  let! existing := existing_rerun request_id source_id in
  match existing with
  | Some r => tx_ret (r, false)
  | None =>
      let! created := insert_rerun_transaction source_id request_id in
      let! r := existing_rerun request_id source_id in
      let! r := tx_lift (ok_or r Internal) in
      tx_ret (r, created)
  end.

(** ** Schedule occurrences *)

Definition schedule_set (s : ScheduleRow) (enabled : bool) (next_run_at last_run_at : option Instant)
    (revision : Z) (claim_owner : option Uuid) (claim_expires_at : option Instant)
    (updated_at : Instant) : ScheduleRow :=
  {| s_namespace_id := s_namespace_id s; s_job_id := s_job_id s; s_target_id := s_target_id s;
     s_target_set_id := s_target_set_id s; s_inputs := s_inputs s; s_name := s_name s;
     s_schedule_type := s_schedule_type s; s_cron_expression := s_cron_expression s;
     s_execute_at := s_execute_at s; s_timezone := s_timezone s; s_enabled := enabled;
     s_next_run_at := next_run_at; s_last_run_at := last_run_at;
     s_misfire_policy := s_misfire_policy s; s_misfire_grace_seconds := s_misfire_grace_seconds s;
     s_catchup_policy := s_catchup_policy s; s_max_catchup_runs := s_max_catchup_runs s;
     s_max_catchup_age_seconds := s_max_catchup_age_seconds s; s_revision := revision;
     s_claim_owner := claim_owner; s_claim_expires_at := claim_expires_at;
     s_created_at := s_created_at s; s_updated_at := updated_at |}.

Definition opt_u32 (o : option Z) : result (option Z) StoreError :=
  match o with
  | None => Ok None
  | Some z => let? z := try_from in_u32 Internal z in Ok (Some z)
  end.

Definition schedule_entity (id : Uuid) (row : ScheduleRow) : result Schedule StoreError :=
  let? timing :=
    (if (s_schedule_type row =? "cron")%string then
       let? e := ok_or (s_cron_expression row) Internal in Ok (Cron e (s_timezone row))
     else if (s_schedule_type row =? "once")%string then
       let? t := ok_or (s_execute_at row) Internal in Ok (Once t)
     else Err Internal) in
  let? name := name_error (ResourceNameM.parse (s_name row)) in
  let? target := target_selection (s_target_id row) (s_target_set_id row) in
  let? misfire := parse_misfire (s_misfire_policy row) in
  let? grace := opt_u32 (s_misfire_grace_seconds row) in
  let? catchup := parse_catchup (s_catchup_policy row) in
  let? runs := try_from in_u16 Internal (s_max_catchup_runs row) in
  let? age := try_from in_u32 Internal (s_max_catchup_age_seconds row) in
  let? revision := try_from in_u64 Internal (s_revision row) in
  Ok {| sch_id := id; sch_namespace_id := s_namespace_id row; sch_name := name;
        sch_job_id := s_job_id row; sch_target := target; sch_inputs := s_inputs row;
        sch_timing := timing; sch_enabled := s_enabled row; sch_next_run_at := s_next_run_at row;
        sch_last_run_at := s_last_run_at row; sch_misfire_policy := misfire;
        sch_misfire_grace_seconds := grace; sch_catchup_policy := catchup;
        sch_max_catchup_runs := runs; sch_max_catchup_age_seconds := age;
        sch_revision := revision; sch_created_at := s_created_at row;
        sch_updated_at := s_updated_at row |}.

Record ScheduleRecord : Type := mkScheduleRecord {
  srec_schedule : Schedule;
  srec_namespace : NamespaceName;
  srec_job_name : ResourceName;
  srec_target_name : ResourceName;
}.

Definition schedule_from_row (id : Uuid) (row : ScheduleRow)
    (namespace_name job_name target_name : option string) : result ScheduleRecord StoreError :=
  let? schedule := schedule_entity id row in
  let? namespace := name_error (NamespaceNameM.parse (default "unknown"%string namespace_name)) in
  let? job_name := name_error (ResourceNameM.parse (default "unknown"%string job_name)) in
  let? target_name := name_error (ResourceNameM.parse (default "unknown"%string target_name)) in
  Ok {| srec_schedule := schedule; srec_namespace := namespace; srec_job_name := job_name;
        srec_target_name := target_name |}.

(** [COALESCE(t.name, ts.name)] over the outer joins. *)
Definition schedule_target_name (d : DB) (s : ScheduleRow) : option string :=
  match (id ← s_target_id s; t ← targets d !! id; Some (t_name t)) with
  | Some n => Some n
  | None => id ← s_target_set_id s; ts ← target_sets d !! id; Some (tsr_name ts)
  end.

(** [enabled = true AND next_run_at <= now AND (claim_expires_at IS NULL OR claim_expires_at < now)] *)
Definition schedule_due (now : Instant) (s : ScheduleRow) : bool :=
  s_enabled s && opt_le (s_next_run_at s) now
  && (is_null (s_claim_expires_at s) || opt_lt (s_claim_expires_at s) now).

Definition claim_schedule (owner : Uuid) (expires : Instant) (s : ScheduleRow) : ScheduleRow :=
  schedule_set s (s_enabled s) (s_next_run_at s) (s_last_run_at s) (s_revision s) (Some owner)
    (Some expires) (s_updated_at s).

Definition alter_all {A} (f : A -> A) (ids : list Uuid) (m : gmap Uuid A) : gmap Uuid A :=
  foldr (alter f) m ids.

Definition claim_due_schedules (owner : Uuid) (limit lease : Z) : tx (list Schedule) :=
  let! lease_seconds := tx_lift (duration_seconds lease) in
  let! now := statement in
  let! locked := locked_rows in
  let! d := tx_get in
  let ids := select_ids (schedules d) locked
               (fun _ s => if schedule_due now s then s_next_run_at s else None) limit in
  let! _ := tx_modify (set_schedules
              (alter_all (claim_schedule owner (now + lease_seconds * second)) ids)) in
  let! d := tx_get in
  tx_lift (collect (fun kv => schedule_entity kv.1 kv.2)
    (omap (fun id => option_map (pair id) (schedules d !! id)) ids)).

(** Status, snapshot and reason of an occurrence's Run. *)
Definition occurrence_outcome (occurrence : PlannedOccurrence) (execution : ExecutionRow)
    (set_inputs : option value) (schedule_inputs : value)
    (rendered : result ExecutionSnapshot string) : StoredSnapshot * RunStatus * option string :=
  match po_execute occurrence, rendered with
  | true, Ok snapshot => (Rendered snapshot, PendingDispatch, None)
  | false, Ok snapshot => (Rendered snapshot, Skipped, po_reason occurrence)
  | _, Err message =>
      (RenderError message
         (match effective_inputs execution set_inputs schedule_inputs with
          | Ok v => v
          | Err _ => empty_object
          end),
       Failed,
       Some (String.append "execution template could not be rendered: " message))
  end.

Definition insert_scheduled_occurrence (schedule_id : Uuid) (occurrence : PlannedOccurrence)
    (execution : ExecutionRow) (set_inputs : option value) (schedule_inputs : value) : tx unit :=
  let! run_id := fresh_uuid in
  let rendered := scheduled_snapshot run_id execution set_inputs schedule_inputs
                    (po_scheduled_at occurrence) in
  let '(snapshot, status, reason) :=
    occurrence_outcome occurrence execution set_inputs schedule_inputs rendered in
  let pending := bool_decide (status = PendingDispatch) in
  let lateness := if in_i64 (po_lateness_seconds occurrence)
                  then po_lateness_seconds occurrence else i64_max in
  let! inserted := insert_run run_id true (fun now =>
    new_run None None (Some schedule_id) (x_job_id execution) (x_target_id execution)
      (x_queue_id execution) (po_scheduled_at occurrence) status snapshot
      (if pending then 1 else 0) (x_max_attempts execution) lateness reason
      (if bool_decide (status = Skipped) || bool_decide (status = Failed) then Some now else None)
      now) in
  match inserted with
  | None => tx_ret ()
  | Some _ =>
      let! _ := (if pending
                 then create_attempt_and_outbox run_id 1 (x_queue_id execution)
                        (po_dispatch_deadline occurrence)
                 else tx_ret ()) in
      let event := match status with
                   | PendingDispatch => "created"%string
                   | Failed => "failed"%string
                   | _ => "skipped"%string
                   end in
      let! _ := insert_run_event run_id event
                  (VObject [("lateness_seconds"%string, json_int (po_lateness_seconds occurrence))]) in
      insert_schedule_event schedule_id event (po_scheduled_at occurrence)
        (VObject [("lateness_seconds"%string, json_int (po_lateness_seconds occurrence));
                  ("reason"%string, json_opt_string (po_reason occurrence));
                  ("run_id"%string, VString (uuid_to_string run_id));
                  ("target_id"%string, VString (uuid_to_string (x_target_id execution)));
                  ("terminal_reason"%string, json_opt_string reason)])
  end.

Definition commit_schedule_plan (plan : SchedulePlan) : tx unit :=
  transaction (
    let id := sp_schedule_id plan in
    let! now := statement in
    let! d := tx_get in
    let! schedule := tx_lift (ok_or (
      s ← schedules d !! id;
      if bool_decide (s_claim_owner s = Some (sp_owner plan)) && opt_gt (s_claim_expires_at s) now
      then Some s else None) Conflict) in
    let! selection := tx_lift (target_selection (s_target_id schedule) (s_target_set_id schedule)) in
    let! (executions, set_inputs) := load_selection_executions (s_job_id schedule) selection in
    let! _ := tx_for (sp_occurrences plan) (fun occurrence =>
      tx_for executions (fun execution =>
        insert_scheduled_occurrence id occurrence execution set_inputs (s_inputs schedule))) in
    let! now := statement in
    let! d := tx_get in
    match schedules d !! id with
    | Some s =>
        if bool_decide (s_claim_owner s = Some (sp_owner plan)) then
          let last := match last (sp_occurrences plan) with
                      | Some o => Some (po_scheduled_at o)
                      | None => s_last_run_at s
                      end in
          let! _ := tx_modify (set_schedules (<[id :=
            schedule_set s (if sp_disable plan then false else s_enabled s) (sp_next_run_at plan)
              last (s_revision s) None None now]>)) in
          tx_ret (Commit ())
        else tx_fail Conflict
    | None => tx_fail Conflict
    end).

(** ** The outbox *)

Record OutboxRecord : Type := mkOutboxRecord {
  or_id : Uuid;
  or_run_id : Uuid;
  or_attempt_id : Uuid;
  or_subject : string;
  or_payload : DispatchEnvelope;
  or_attempt_count : Z;
}.

Definition outbox_pending (o : OutboxRow) : bool :=
  is_null (o_published_at o) && is_null (o_cancelled_at o).

Definition outbox_claimable (now : Instant) (o : OutboxRow) : bool :=
  outbox_pending o && (o_next_attempt_at o <=? now)
  && match o_dispatch_deadline o with None => true | Some t => now <=? t end
  && (is_null (o_claim_expires_at o) || opt_lt (o_claim_expires_at o) now).

Definition outbox_claim (owner : Uuid) (expires : Instant) (o : OutboxRow) : OutboxRow :=
  outbox_set o (o_attempt_count o) (o_next_attempt_at o) (Some owner) (Some expires)
    (o_last_error o) (o_published_at o) (o_cancelled_at o) (o_nats_stream_sequence o).

Definition outbox_record (id : Uuid) (o : OutboxRow) : result OutboxRecord StoreError :=
  let? attempt_count := try_from in_u32 Internal (o_attempt_count o) in
  Ok {| or_id := id; or_run_id := o_run_id o; or_attempt_id := o_attempt_id o;
        or_subject := o_subject o; or_payload := o_payload o; or_attempt_count := attempt_count |}.

Definition claim_outbox (owner : Uuid) (limit lease : Z) : tx (list OutboxRecord) :=
  let! lease_seconds := tx_lift (duration_seconds lease) in
  let! now := statement in
  let! locked := locked_rows in
  let! d := tx_get in
  let ids := select_ids (outbox (core d)) locked
               (fun _ o => if outbox_claimable now o then Some (o_next_attempt_at o) else None) limit in
  let! _ := tx_modify (set_outbox (alter_all (outbox_claim owner (now + lease_seconds * second)) ids)) in
  let! d := tx_get in
  tx_lift (collect (fun kv => outbox_record kv.1 kv.2)
    (omap (fun id => option_map (pair id) (outbox (core d) !! id)) ids)).

Definition mark_published (owner : Uuid) (record : OutboxRecord) (stream_sequence : Z) : tx unit :=
  let! sequence := tx_lift (try_from in_i64 Internal stream_sequence) in
  transaction (
    let! updated := update_outbox [] (or_id record)
      (fun _ o => (o_run_id o =? or_run_id record)%N && bool_decide (o_claimed_by o = Some owner)
                  && is_null (o_published_at o))
      (fun now o => outbox_set o (o_attempt_count o) (o_next_attempt_at o) None None None (Some now)
                      (o_cancelled_at o) (Some sequence)) in
    match updated with
    | None => tx_fail Conflict
    | Some _ =>
        let! _ := update_attempt [] (or_attempt_id record)
          (fun _ a => bool_decide (a_status a = APendingDispatch))
          (fun _ a => attempt_set a AQueued (a_worker_id a) (a_started_at a) (a_heartbeat_at a)
                        (a_lease_expires_at a) (a_completed_at a) (a_exit_code a) (a_stdout_tail a)
                        (a_stderr_tail a) (a_output_sequence a) (a_error a)) in
        let! _ := update_run [] (or_run_id record)
          (fun r => bool_decide (r_status r = PendingDispatch))
          (fun now r => run_set r Queued (r_attempt_count r) (r_next_retry_at r) (Some now)
                          (r_started_at r) (r_completed_at r) (r_terminal_reason r)) in
        let! _ := insert_run_event (or_run_id record) "queued"
                    (VObject [("stream_sequence"%string, json_int sequence)]) in
        tx_ret (Commit ())
    end).

Definition record_publish_failure (owner dispatch_id : Uuid) (message : string)
    (next_attempt_at : Instant) : tx unit :=
  let! _ := update_outbox [take_chars 1024 message] dispatch_id
    (fun _ o => bool_decide (o_claimed_by o = Some owner) && is_null (o_published_at o))
    (fun _ o => outbox_set o (o_attempt_count o + 1) next_attempt_at None None
                  (Some (take_chars 1024 message)) (o_published_at o) (o_cancelled_at o)
                  (o_nats_stream_sequence o)) in
  tx_ret ().

(** ** Workers *)

Record ClaimRequest : Type := mkClaimRequest {
  cl_run_id : Uuid;
  cl_attempt_id : Uuid;
  cl_queue_id : Uuid;
  cl_worker_id : string;
}.

Record ClaimResponse : Type := mkClaimResponse {
  cr_claimed : bool;
  cr_lease_seconds : Z;
  cr_execution : option ExecutionSnapshot;
}.

Definition run_queue (d : DB) (id : Uuid) : option Uuid := option_map r_queue_id (runs (core d) !! id).

Definition claim_attempt (request : ClaimRequest) : tx ClaimResponse :=
  let! claimed := transaction (
    let! d := tx_get in
    let! claimed := update_attempt [cl_worker_id request] (cl_attempt_id request)
      (fun _ a => (a_run_id a =? cl_run_id request)%N && bool_decide (a_status a = AQueued)
                  && bool_decide (run_queue d (a_run_id a) = Some (cl_queue_id request)))
      (fun now a => attempt_set a ARunning (Some (cl_worker_id request)) (Some now) (Some now)
                      (Some (now + 60 * second)) (a_completed_at a) (a_exit_code a)
                      (a_stdout_tail a) (a_stderr_tail a) (a_output_sequence a) (a_error a)) in
    match claimed with
    | None => tx_ret (Rollback None)
    | Some a =>
        let! run := update_run [] (a_run_id a)
          (fun r => bool_decide (r_status r = Queued))
          (fun now r => run_set r Running (r_attempt_count r) (r_next_retry_at r) (r_queued_at r)
                          (match r_started_at r with Some t => Some t | None => Some now end)
                          (r_completed_at r) (r_terminal_reason r)) in
        let! r := tx_lift (ok_or run Conflict) in
        let! _ := insert_run_event (a_run_id a) "running"
                    (VObject [("worker_id"%string, VString (cl_worker_id request))]) in
        tx_ret (Commit (Some (r_execution_snapshot r)))
    end) in
  match claimed with
  | None => tx_ret {| cr_claimed := false; cr_lease_seconds := 60; cr_execution := None |}
  | Some (Rendered execution) =>
      tx_ret {| cr_claimed := true; cr_lease_seconds := 60; cr_execution := Some execution |}
  | Some (RenderError _ _) => tx_fail Internal
  end.

(** The lease test of every worker report. *)
Definition holds_lease (worker_id : string) (now : Instant) (a : AttemptRow) : bool :=
  bool_decide (a_worker_id a = Some worker_id) && bool_decide (a_status a = ARunning)
  && opt_gt (a_lease_expires_at a) now.

Record LeaseRequest : Type := mkLeaseRequest {
  le_attempt_id : Uuid;
  le_worker_id : string;
}.

Definition renew_lease (request : LeaseRequest) : tx bool :=
  let! updated := update_attempt [le_worker_id request] (le_attempt_id request) (holds_lease (le_worker_id request))
    (fun now a => attempt_set a (a_status a) (a_worker_id a) (a_started_at a) (Some now)
                    (Some (now + 60 * second)) (a_completed_at a) (a_exit_code a) (a_stdout_tail a)
                    (a_stderr_tail a) (a_output_sequence a) (a_error a)) in
  tx_ret (negb (is_null updated)).

Record OutputSnapshotRequest : Type := mkOutputSnapshotRequest {
  ou_attempt_id : Uuid;
  ou_worker_id : string;
  ou_sequence : Z;
  ou_stdout_tail : string;
  ou_stderr_tail : string;
}.

Definition record_attempt_output (request : OutputSnapshotRequest) : tx bool :=
  let! sequence := tx_lift (try_from in_i64 Internal (ou_sequence request)) in
  let! updated := update_attempt
    [ou_worker_id request; ou_stdout_tail request; ou_stderr_tail request] (ou_attempt_id request)
    (fun now a => holds_lease (ou_worker_id request) now a && (a_output_sequence a <? sequence))
    (fun _ a => attempt_set a (a_status a) (a_worker_id a) (a_started_at a) (a_heartbeat_at a)
                  (a_lease_expires_at a) (a_completed_at a) (a_exit_code a)
                  (Some (ou_stdout_tail request)) (Some (ou_stderr_tail request)) sequence
                  (a_error a)) in
  tx_ret (negb (is_null updated)).

(** *** Retries *)

Record RetryRow : Type := mkRetryRow {
  rt_attempt_count : Z;
  rt_max_attempts : Z;
  rt_idempotent : bool;
  rt_retry_initial_seconds : Z;
  rt_retry_max_seconds : Z;
  rt_retry_multiplier : spec_float;
  rt_retry_jitter : spec_float;
}.

(** [COALESCE((execution_snapshot->>'idempotent')::boolean, false)] *)
Definition snapshot_idempotent (s : StoredSnapshot) : bool :=
  match s with Rendered e => es_idempotent e | RenderError _ _ => false end.

(** [(execution_snapshot->>'queue_id')::uuid]; a NULL does not decode. *)
Definition snapshot_queue_id (s : StoredSnapshot) : result Uuid StoreError :=
  match s with Rendered e => Ok (es_queue_id e) | RenderError _ _ => Err Internal end.

Definition retry_row (r : RunRow) : result RetryRow StoreError :=
  match r_execution_snapshot r with
  | Rendered e =>
      Ok {| rt_attempt_count := r_attempt_count r; rt_max_attempts := r_max_attempts r;
            rt_idempotent := es_idempotent e;
            rt_retry_initial_seconds := es_retry_initial_seconds e;
            rt_retry_max_seconds := es_retry_max_seconds e;
            rt_retry_multiplier := es_retry_multiplier e; rt_retry_jitter := es_retry_jitter e |}
  | RenderError _ _ => Err Internal
  end.

Definition retry_delay (run_id : Uuid) (retry : RetryRow) : Z :=
  let exponent := saturate i32_min i32_max (rt_attempt_count retry - 1) in
  let initial := f64_of_Z (rt_retry_initial_seconds retry) in
  let maximum := f64_of_Z (rt_retry_max_seconds retry) in
  let base := f64_min (f64_mul initial (f64_powi (rt_retry_multiplier retry) exponent)) maximum in
  let seed := Z.of_N (N.modulo run_id 256) in
  let unit := f64_mul_add (f64_div (f64_of_Z seed) (f64_of_Z 255)) (f64_of_Z 2) (f64_of_Z (-1)) in
  seconds_f64 (f64_mul_add base (f64_mul (rt_retry_jitter retry) unit) base).

(** *** Completion *)

Record CompletionRequest : Type := mkCompletionRequest {
  co_attempt_id : Uuid;
  co_worker_id : string;
  co_succeeded : bool;
  co_skipped : bool;
  co_exit_code : option Z;
  co_stdout_tail : string;
  co_stderr_tail : string;
  co_error : option string;
}.

Definition completion_attempt_status (request : CompletionRequest) : AttemptStatus :=
  if co_skipped request then ASkipped
  else if co_succeeded request then ASucceeded else AFailed.

Definition should_retry (request : CompletionRequest) (retry : RetryRow) : bool :=
  negb (co_succeeded request) && negb (co_skipped request) && rt_idempotent retry
  && (rt_attempt_count retry <? rt_max_attempts retry).

Definition completion_run_status (request : CompletionRequest) (retry : RetryRow) : RunStatus :=
  if co_skipped request then Skipped
  else if co_succeeded request then Succeeded
  else if should_retry request retry then RetryWait else Failed.

Definition completion_texts (request : CompletionRequest) : list string :=
  [co_worker_id request; bounded_tail (co_stdout_tail request); bounded_tail (co_stderr_tail request)]
  ++ opt_text (option_map bounded_error (co_error request)).

Definition completion_reason (request : CompletionRequest) : option string :=
  if co_skipped request then Some "dry run"%string
  else option_map bounded_error (co_error request).

Definition complete_attempt (request : CompletionRequest) : tx bool :=
  if co_skipped request && negb (co_succeeded request) then tx_fail Internal
  else
    transaction (
      let! completed := update_attempt (completion_texts request) (co_attempt_id request)
        (holds_lease (co_worker_id request))
        (fun now a => attempt_set a (completion_attempt_status request) (a_worker_id a)
                        (a_started_at a) (a_heartbeat_at a) None (Some now) (co_exit_code request)
                        (Some (bounded_tail (co_stdout_tail request)))
                        (Some (bounded_tail (co_stderr_tail request))) (a_output_sequence a)
                        (option_map bounded_error (co_error request))) in
      match completed with
      | None => tx_ret (Rollback false)
      | Some a =>
          let run_id := a_run_id a in
          let! _ := statement in
          let! d := tx_get in
          let! r := tx_lift (ok_or (runs (core d) !! run_id) Internal) in
          let! retry := tx_lift (retry_row r) in
          let run_status := completion_run_status request retry in
          let! wall := now_utc in
          let next_retry_at :=
            if should_retry request retry then Some (wall + retry_delay run_id retry) else None in
          let! _ := update_run (opt_text (completion_reason request)) run_id
            (fun r => bool_decide (r_status r = Running))
            (fun now r => run_set r run_status (r_attempt_count r) next_retry_at (r_queued_at r)
                            (r_started_at r)
                            (if bool_decide (run_status = RetryWait) then None else Some now)
                            (completion_reason request)) in
          let! _ := insert_run_event run_id (run_status_name run_status)
                      (VObject [("attempt_id"%string, VString (uuid_to_string (co_attempt_id request)))]) in
          tx_ret (Commit true)
      end).

(** ** Presence *)

(** Bounded facts of a worker; its process environment is never sent. *)
Record WorkerDiagnostics : Type := mkWorkerDiagnostics {
  wd_hostname : string;
  wd_os : string;
  wd_architecture : string;
  wd_default_shell_path : string;
  wd_default_shell_present : bool;
  wd_dry_run : bool;
  wd_lang : option string;
  wd_lc_all : option string;
  wd_tz : option string;
}.

Definition opt_string_value (s : option string) : value :=
  match s with Some s => VString s | None => VNull end.

(** [serde_json::to_value] at the derived [Serialize]: one member per field. *)
Definition diagnostics_to_value (x : WorkerDiagnostics) : value :=
  VObject
    [("architecture"%string, VString (wd_architecture x));
     ("default_shell_path"%string, VString (wd_default_shell_path x));
     ("default_shell_present"%string, VBool (wd_default_shell_present x));
     ("dry_run"%string, VBool (wd_dry_run x));
     ("hostname"%string, VString (wd_hostname x));
     ("lang"%string, opt_string_value (wd_lang x));
     ("lc_all"%string, opt_string_value (wd_lc_all x));
     ("os"%string, VString (wd_os x));
     ("tz"%string, opt_string_value (wd_tz x))].

Record WorkerHeartbeatRequest : Type := mkWorkerHeartbeatRequest {
  hb_worker_id : string;
  hb_session_id : Uuid;
  hb_queue_id : Uuid;
  hb_concurrency : Z;
  hb_version : string;
  hb_diagnostics : option WorkerDiagnostics;
}.

Definition presence_checks (worker_id : string) (p : WorkerPresenceRow) : bool :=
  canonical_label worker_id && (1 <=? wp_concurrency p) && (wp_concurrency p <=? 256)
  && (1 <=? chars_count (wp_version p)) && (chars_count (wp_version p) <=? 128)
  && match wp_diagnostics p with None => true | Some v => is_object v end
  && (wp_started_at p <=? wp_last_seen_at p).

Definition record_worker_heartbeat (request : WorkerHeartbeatRequest) : tx unit :=
  let! now := statement in
  let! _ := bind_texts [hb_worker_id request; hb_version request] in
  let diagnostics := option_map diagnostics_to_value (hb_diagnostics request) in
  let! _ := bind_jsons (match diagnostics with Some v => [v] | None => [] end) in
  let! d := tx_get in
  let started :=
    match worker_presence d !! hb_worker_id request with
    | Some p => if (wp_session_id p =? hb_session_id request)%N then wp_started_at p else now
    | None => now
    end in
  let row := {| wp_session_id := hb_session_id request; wp_queue_id := hb_queue_id request;
                wp_concurrency := hb_concurrency request; wp_version := hb_version request;
                wp_diagnostics := diagnostics; wp_started_at := started;
                wp_last_seen_at := now |} in
  let! _ := check (presence_checks (hb_worker_id request) row) Internal in
  let! _ := check (has (queues d) (hb_queue_id request)) InUse in
  tx_modify (set_worker_presence (<[hb_worker_id request := row]>)).

(** [locked] here names workers; no other table is keyed by text. *)
Definition remove_expired_worker_presence (locked : string -> bool) (limit : Z) : tx Z :=
  let! now := statement in
  let! d := tx_get in
  let expired := take (Z.to_nat limit)
    (map snd (sort_by (fun a b => a.1 <=? b.1)
       (omap (fun kv : string * WorkerPresenceRow =>
                if negb (locked kv.1) && (wp_last_seen_at kv.2 <? now - 7 * 86400 * second)
                then Some (wp_last_seen_at kv.2, kv.1) else None)
          (map_to_list (worker_presence d))))) in
  let! _ := tx_modify (set_worker_presence (fun m => foldr delete m expired)) in
  tx_ret (Z.of_nat (length expired)).

(** ** Reconciliation *)

Definition deadline_expired : string := "misfire dispatch deadline expired".

Definition expire_dispatch (o : Uuid * OutboxRow) : tx unit :=
  let! _ := update_outbox [] o.1 (fun _ o => outbox_pending o)
    (fun now o => outbox_set o (o_attempt_count o) (o_next_attempt_at o) None None
                    (Some deadline_expired) (o_published_at o) (Some now) (o_nats_stream_sequence o)) in
  let! _ := update_attempt [] (o_attempt_id o.2)
    (fun _ a => bool_decide (a_status a = APendingDispatch))
    (fun now a => attempt_set a ADead (a_worker_id a) (a_started_at a) (a_heartbeat_at a)
                    (a_lease_expires_at a) (Some now) (a_exit_code a) (a_stdout_tail a)
                    (a_stderr_tail a) (a_output_sequence a) (Some deadline_expired)) in
  let! _ := update_run [] (o_run_id o.2)
    (fun r => bool_decide (r_status r = PendingDispatch))
    (fun now r => run_set r Skipped (r_attempt_count r) (r_next_retry_at r) (r_queued_at r)
                    (r_started_at r) (Some now) (Some deadline_expired)) in
  insert_run_event (o_run_id o.2) "skipped" (VObject [("reason"%string, VString deadline_expired)]).

Definition rows_of {A} (m : gmap Uuid A) (ids : list Uuid) : list (Uuid * A) :=
  omap (fun id => option_map (pair id) (m !! id)) ids.

Definition reconcile_expired_dispatches (limit : Z) : tx Z :=
  let! now := statement in
  let! locked := locked_rows in
  let! d := tx_get in
  let rows := rows_of (outbox (core d)) (select_ids (outbox (core d)) locked
    (fun _ o => if outbox_pending o && opt_lt (o_dispatch_deadline o) now
                then o_dispatch_deadline o else None) limit) in
  let! _ := tx_for rows expire_dispatch in
  tx_ret (Z.of_nat (length rows)).

Definition start_retry (from : RunStatus) (run_id : Uuid) (attempt_count : Z) (queue_id : Uuid) : tx unit :=
  let next_attempt := attempt_count + 1 in
  let! _ := update_run [] run_id (fun r => bool_decide (r_status r = from))
    (fun _ r => run_set r PendingDispatch next_attempt None (r_queued_at r) None (r_completed_at r)
                  (r_terminal_reason r)) in
  create_attempt_and_outbox run_id next_attempt queue_id None.

Definition decode_queue (kv : Uuid * RunRow) : result (Uuid * Z * Uuid) StoreError :=
  let? queue_id := snapshot_queue_id (r_execution_snapshot kv.2) in
  Ok (kv.1, r_attempt_count kv.2, queue_id).

Definition reconcile_due_retries (limit : Z) : tx Z :=
  let! now := statement in
  let! locked := locked_rows in
  let! d := tx_get in
  let! rows := tx_lift (collect decode_queue (rows_of (runs (core d)) (select_ids (runs (core d)) locked
    (fun _ r => if bool_decide (r_status r = RetryWait) && opt_le (r_next_retry_at r) now
                then r_next_retry_at r else None) limit))) in
  let! _ := tx_for rows (fun row =>
    let '(run_id, attempt_count, queue_id) := row in
    start_retry RetryWait run_id attempt_count queue_id) in
  tx_ret (Z.of_nat (length rows)).

Record ExpiredLeaseRow : Type := mkExpiredLeaseRow {
  el_attempt_id : Uuid;
  el_run_id : Uuid;
  el_idempotent : bool;
  el_attempt_count : Z;
  el_max_attempts : Z;
  el_queue_id : Uuid;
}.

Definition expired_lease_row (d : DB) (kv : Uuid * AttemptRow) : result ExpiredLeaseRow StoreError :=
  let? r := ok_or (runs (core d) !! a_run_id kv.2) Internal in
  let? queue_id := snapshot_queue_id (r_execution_snapshot r) in
  Ok {| el_attempt_id := kv.1; el_run_id := a_run_id kv.2;
        el_idempotent := snapshot_idempotent (r_execution_snapshot r);
        el_attempt_count := r_attempt_count r; el_max_attempts := r_max_attempts r;
        el_queue_id := queue_id |}.

Definition expire_lease (row : ExpiredLeaseRow) : tx unit :=
  let retry := el_idempotent row && (el_attempt_count row <? el_max_attempts row) in
  let! _ := update_attempt [] (el_attempt_id row)
    (fun _ a => bool_decide (a_status a = ARunning))
    (fun now a => attempt_set a (if retry then AFailed else AUnknown) (a_worker_id a)
                    (a_started_at a) (a_heartbeat_at a) None (Some now) (a_exit_code a)
                    (a_stdout_tail a) (a_stderr_tail a) (a_output_sequence a)
                    (Some "worker lease expired"%string)) in
  if retry then start_retry Running (el_run_id row) (el_attempt_count row) (el_queue_id row)
  else
    let! _ := update_run [] (el_run_id row) (fun r => bool_decide (r_status r = Running))
      (fun now r => run_set r Unknown (r_attempt_count r) (r_next_retry_at r) (r_queued_at r)
                      (r_started_at r) (Some now)
                      (Some "worker lease expired after an ambiguous execution"%string)) in
    tx_ret ().

Definition lease_expired (now : Instant) (a : AttemptRow) : bool :=
  bool_decide (a_status a = ARunning) && opt_lt (a_lease_expires_at a) now.

(** The join keeps the attempts whose Run exists; either row's lock skips both. *)
Definition reconcile_expired_leases (limit : Z) : tx Z :=
  let! now := statement in
  let! locked := locked_rows in
  let! d := tx_get in
  let! rows := tx_lift (collect (expired_lease_row d) (rows_of (run_attempts (core d))
    (select_ids (run_attempts (core d)) locked
       (fun _ a => if lease_expired now a && has (runs (core d)) (a_run_id a)
                      && negb (locked (a_run_id a))
                   then a_lease_expires_at a else None) limit))) in
  let! _ := tx_for rows expire_lease in
  tx_ret (Z.of_nat (length rows)).

Definition release_claim (now : Instant) (o : OutboxRow) : OutboxRow :=
  if outbox_pending o && opt_lt (o_claim_expires_at o) now then
    outbox_set o (o_attempt_count o) (o_next_attempt_at o) None None (o_last_error o)
      (o_published_at o) (o_cancelled_at o) (o_nats_stream_sequence o)
  else o.

Definition release_expired_claims : tx unit :=
  let! now := statement in
  tx_modify (set_outbox (fmap (release_claim now))).

(** The first transaction of [reconcile], which repairs Runs, attempts and the outbox. *)
Definition reconcile_transaction (locked_workers : string -> bool) (limit : Z) : tx Z :=
  transaction (
    let! expired_dispatches := reconcile_expired_dispatches limit in
    let! due_retries := reconcile_due_retries limit in
    let! expired_leases := reconcile_expired_leases limit in
    let! expired_workers := remove_expired_worker_presence locked_workers limit in
    let! _ := release_expired_claims in
    tx_ret (Commit (saturate 0 u64_max (expired_leases + due_retries + expired_dispatches
                                        + expired_workers)))).

(** ** Enabling Schedules *)

Definition set_schedule_enabled (id : Uuid) (revision : Z) (enabled : bool)
    (next_run_at : option Instant) : tx ScheduleRecord :=
  let! revision := tx_lift (stored_revision revision) in
  let! now := statement in
  let! d := tx_get in
  match schedules d !! id with
  | Some s =>
      if s_revision s =? revision then
        let! _ := check (s_revision s + 1 <=? i64_max) Internal in
        let s' := schedule_set s enabled next_run_at (s_last_run_at s) (s_revision s + 1) None None now in
        let! _ := tx_modify (set_schedules (<[id := s']>)) in
        match namespaces d !! s_namespace_id s, jobs d !! s_job_id s with
        | Some n, Some j =>
            tx_lift (schedule_from_row id s' (Some (n_name n)) (Some (j_name j))
                       (schedule_target_name d s))
        | _, _ => tx_fail StaleRevision
        end
      else tx_fail StaleRevision
  | None => tx_fail StaleRevision
  end.

End Store.
