(* ===== verification/Planner.v ===== *)
(** * The planner (scheduler/misfire.rs, scheduler/planner.rs)

    The pure part of the scheduler loop: what a due Schedule creates at an
    instant, under its misfire and catch-up policies, and when it is due next. *)

From S2P Require Import Prelude RustStr Json Inputs Names Domain Recurrence Db Snapshot Store.
From Stdlib Require Import String.
From stdpp Require Import base numbers strings sorting gmap list.

Local Open Scope Z_scope.

(** ** Late occurrences *)

Inductive MisfireDecision : Type :=
| Execute (lateness_seconds : Z)
| Skip (lateness_seconds : Z).

(** [u64::try_from((now - scheduled_at).whole_seconds().max(0)).unwrap_or(u64::MAX)];
    [whole_seconds] truncates towards zero. *)
Definition lateness_seconds (scheduled_at now : Instant) : Z :=
  let lateness := Z.max (Z.quot (now - scheduled_at) second) 0 in
  if in_u64 lateness then lateness else u64_max.

Definition decide_misfire (policy : MisfirePolicy) (grace_seconds : option Z) (scheduled_at now : Instant)
  : MisfireDecision :=
  let lateness_seconds := lateness_seconds scheduled_at now in
  let execute :=
    match policy with
    | RunLate => true
    | MisfireSkip => lateness_seconds <=? 30
    | GracePeriod => match grace_seconds with Some grace => lateness_seconds <=? grace | None => false end
    end in
  if execute then Execute lateness_seconds else Skip lateness_seconds.

Definition dispatch_deadline (policy : MisfirePolicy) (grace_seconds : option Z) (scheduled_at : Instant)
  : option Instant :=
  match policy with
  | RunLate => None
  | MisfireSkip => Some (scheduled_at + 30 * second)
  | GracePeriod => option_map (fun seconds => scheduled_at + seconds * second) grace_seconds
  end.

(** ** Plans *)

Definition occurrence (schedule : Schedule) (scheduled_at now : Instant) (reason : option string)
  : PlannedOccurrence :=
  match decide_misfire (sch_misfire_policy schedule) (sch_misfire_grace_seconds schedule) scheduled_at now with
  | Execute lateness =>
      {| po_scheduled_at := scheduled_at; po_execute := true; po_lateness_seconds := lateness;
         po_reason := reason;
         po_dispatch_deadline := dispatch_deadline (sch_misfire_policy schedule)
                                   (sch_misfire_grace_seconds schedule) scheduled_at |}
  | Skip lateness =>
      {| po_scheduled_at := scheduled_at; po_execute := false; po_lateness_seconds := lateness;
         po_reason := Some "misfire policy rejected the late occurrence"%string;
         po_dispatch_deadline := None |}
  end.

Definition skipped (scheduled_at now : Instant) (reason : string) : PlannedOccurrence :=
  {| po_scheduled_at := scheduled_at; po_execute := false;
     po_lateness_seconds := lateness_seconds scheduled_at now; po_reason := Some reason;
     po_dispatch_deadline := None |}.

Section Planner.
Context {CC : CronCrates}.

(** The [while] of the catch-up branch; [room] is [limit - occurrences.len()],
    so the loop's own bound is its measure. *)
Fixpoint catch_up_loop (schedule : Schedule) (expression timezone : string) (now : Instant) (room : nat)
    (cursor : Instant) (occurrences : list PlannedOccurrence)
  : result (Instant * list PlannedOccurrence) RecurrenceError :=
  match room with
  | O => Ok (cursor, occurrences)
  | S room =>
      if cursor <=? now then
        let occurrences := occurrences ++ [occurrence schedule cursor now None] in
        let? cursor := next_cron_occurrence expression timezone cursor in
        catch_up_loop schedule expression timezone now room cursor occurrences
      else Ok (cursor, occurrences)
  end.

Definition catch_up (schedule : Schedule) (expression timezone : string) (now first_due : Instant)
  : result (Instant * list PlannedOccurrence) RecurrenceError :=
  let oldest := now - sch_max_catchup_age_seconds schedule * second in
  let? (cursor, occurrences) :=
    (if first_due <? oldest then
       let? cursor := next_cron_occurrence expression timezone oldest in
       Ok (cursor, [skipped first_due now "occurrences older than max_catchup_age were summarized"])
     else Ok (first_due, [])) in
  let limit := Z.to_nat (sch_max_catchup_runs schedule) in
  let? (cursor, occurrences) :=
    catch_up_loop schedule expression timezone now (limit - length occurrences) cursor occurrences in
  if cursor <=? now then
    let? next := next_cron_occurrence expression timezone now in
    Ok (next, occurrences ++ [skipped cursor now "occurrences exceeding max_catchup_runs were summarized"])
  else Ok (cursor, occurrences).

Definition plan_cron (schedule : Schedule) (owner : Uuid) (now first_due : Instant)
    (expression timezone : string) : result SchedulePlan RecurrenceError :=
  let? (next_run_at, occurrences) :=
    match sch_catchup_policy schedule with
    | CatchupSkip =>
        let? next := next_cron_occurrence expression timezone now in
        Ok (next, [skipped first_due now "catch-up policy skipped missed occurrences"])
    | RunOnce =>
        let? next := next_cron_occurrence expression timezone now in
        Ok (next, [occurrence schedule first_due now (Some "coalesced missed occurrences"%string)])
    | CatchUp => catch_up schedule expression timezone now first_due
    end in
  Ok {| sp_schedule_id := sch_id schedule; sp_owner := owner; sp_occurrences := occurrences;
        sp_next_run_at := Some next_run_at; sp_disable := false |}.

Definition plan (schedule : Schedule) (owner : Uuid) (now : Instant) : result SchedulePlan RecurrenceError :=
  match sch_next_run_at schedule with
  | None =>
      Ok {| sp_schedule_id := sch_id schedule; sp_owner := owner; sp_occurrences := [];
            sp_next_run_at := None; sp_disable := true |}
  | Some first_due =>
      match sch_timing schedule with
      | Once _ =>
          Ok {| sp_schedule_id := sch_id schedule; sp_owner := owner;
                sp_occurrences := [occurrence schedule first_due now None];
                sp_next_run_at := None; sp_disable := true |}
      | Cron expression timezone => plan_cron schedule owner now first_due expression timezone
      end
  end.

(** ** What a plan satisfies *)

(** The occurrences' instants. *)
Definition instants (l : list PlannedOccurrence) : list Instant := map po_scheduled_at l.

(** Each instant is the cron occurrence that follows the previous one. *)
Fixpoint consecutive (expression timezone : string) (from : Instant) (l : list Instant) (next : Instant) : Prop :=
  match l with
  | [] => from = next
  | t :: l' => t = from /\ exists t', next_cron_occurrence expression timezone t = Ok t'
               /\ consecutive expression timezone t' l' next
  end.

(** ** Lemmas *)

Lemma occurrence_at schedule t now reason : po_scheduled_at (occurrence schedule t now reason) = t.
Proof. unfold occurrence. by destruct (decide_misfire _ _ _ _). Qed.

Lemma catch_up_loop_spec schedule e z now room cursor acc cursor' acc' :
  catch_up_loop schedule e z now room cursor acc = Ok (cursor', acc') ->
  exists l, acc' = acc ++ l /\ l = map (fun t => occurrence schedule t now None) (instants l)
    /\ consecutive e z cursor (instants l) cursor' /\ (length l <= room)%nat
    /\ Forall (fun t => t <= now) (instants l)
    /\ (cursor' <= now -> length l = room).
Proof.
  revert cursor acc. induction room as [|room IH]; intros cursor acc H; simpl in H.
  - injection H as <- <-. exists []. rewrite app_nil_r. simpl. by repeat split.
  - destruct (Z.leb_spec cursor now) as [Hle|Hgt].
    + apply result_bind_ok in H as (c & Hc & H). apply IH in H as (l & -> & Hl & Hcons & Hlen & Hall & Hfull).
      exists (occurrence schedule cursor now None :: l). rewrite <- app_assoc. simpl. rewrite occurrence_at.
      repeat split; try done.
      * f_equal. exact Hl.
      * eauto.
      * lia.
      * by constructor.
      * intros Hc'. f_equal. auto.
    + injection H as <- <-. exists []. rewrite app_nil_r. simpl. repeat split; try done; lia.
Qed.

Context {CL : CronLaws}.

Lemma consecutive_sorted e z from l next :
  parser_advances e z -> consecutive e z from l next -> StronglySorted Z.lt (l ++ [next]) /\ Forall (fun t => from <= t) (l ++ [next]).
Proof.
  intros Hp. revert from. induction l as [|t l IH]; intros from; simpl.
  - intros ->. repeat constructor; lia.
  - intros (-> & t' & Ht & H). apply IH in H as [Hs Hf]. apply next_cron_after in Ht; [|done].
    split; [constructor; [done|]|constructor; [lia|]]; (eapply Forall_impl; [exact Hf|]); simpl; lia.
Qed.

Lemma consecutive_app e z from l next :
  parser_advances e z -> consecutive e z from l next -> forall t, t < from -> StronglySorted Z.lt (t :: l ++ [next]).
Proof.
  intros Hp H t Ht. apply consecutive_sorted in H as [Hs Hf]; [|done]. constructor; [done|].
  eapply Forall_impl; [exact Hf|]. simpl. lia.
Qed.

End Planner.
