(* ===== verification/WorkflowStore.v ===== *)
(** * The Workflow store (infrastructure/postgres/workflows.rs)

    Definitions and their replacement, launching a Workflow with its pinned
    executions, and the orchestrator that turns Run completions into node
    states, skips and new Runs. *)

From S2P Require Import Prelude RustStr Json Inputs Names Float Domain Auth Workflow Db Snapshot Store.
From Stdlib Require Import String.
From stdpp Require Import base numbers strings sorting gmap list.

Local Open Scope Z_scope.

(** ** Stored names *)

Definition condition_name (value : DependencyCondition) : string :=
  match value with
  | Success => "success"
  | Failure => "failure"
  | Always => "always"
  end.

Definition condition (value : string) : result DependencyCondition StoreError :=
  if (value =? "success")%string then Ok Success
  else if (value =? "failure")%string then Ok Failure
  else if (value =? "always")%string then Ok Always
  else Err Internal.

(** The texts of the CHECK on [workflow_node_runs.state] and [workflow_runs.state]. *)
Definition node_state_text (value : WorkflowNodeState) : string :=
  match value with
  | NPending => "pending" | NReady => "ready" | NRunning => "running" | NSucceeded => "succeeded"
  | NFailed => "failed" | NSkipped => "skipped" | NCancelled => "cancelled" | NUnknown => "unknown"
  end.

Definition node_state (value : string) : result WorkflowNodeState StoreError :=
  if (value =? "pending")%string then Ok NPending
  else if (value =? "ready")%string then Ok NReady
  else if (value =? "running")%string then Ok NRunning
  else if (value =? "succeeded")%string then Ok NSucceeded
  else if (value =? "failed")%string then Ok NFailed
  else if (value =? "skipped")%string then Ok NSkipped
  else if (value =? "cancelled")%string then Ok NCancelled
  else if (value =? "unknown")%string then Ok NUnknown
  else Err Internal.

Definition workflow_state_text (value : WorkflowState) : string :=
  match value with
  | WPending => "pending" | WRunning => "running" | WSucceeded => "succeeded"
  | WFailed => "failed" | WCancelled => "cancelled"
  end.

Definition workflow_state (value : string) : result WorkflowState StoreError :=
  if (value =? "pending")%string then Ok WPending
  else if (value =? "running")%string then Ok WRunning
  else if (value =? "succeeded")%string then Ok WSucceeded
  else if (value =? "failed")%string then Ok WFailed
  else if (value =? "cancelled")%string then Ok WCancelled
  else Err Internal.

Definition resource_name (value : string) : result ResourceName StoreError :=
  map_err (fun _ => Internal) (ResourceNameM.parse value).

(** ** Records *)

Record WorkflowRecord : Type := mkWorkflowRecord {
  wrec_id : Uuid;
  wrec_namespace_id : Uuid;
  wrec_namespace : NamespaceName;
  wrec_revision : Z;
  wrec_definition : WorkflowDefinition;
  wrec_node_ids : gmap string Uuid;
  wrec_created_at : Instant;
  wrec_updated_at : Instant;
}.

Definition stored_definition (self : StoredWorkflow) : result WorkflowDefinition StoreError :=
  let? name := resource_name (sw_name self) in
  let? nodes := collect (fun node =>
    let? name := resource_name (sn_name node) in
    Ok (mkWorkflowNode name (sn_job_id node))) (sw_nodes self) in
  let? edges := collect (fun edge =>
    let? from := resource_name (se_from edge) in
    let? to := resource_name (se_to edge) in
    let? c := condition (se_condition edge) in
    Ok (mkWorkflowEdge from to c)) (sw_edges self) in
  Ok (mkWorkflowDefinition name (sw_description self) nodes edges).

Definition record (self : StoredWorkflow) : result WorkflowRecord StoreError :=
  let node_ids := list_to_map (rev (map (fun node => (sn_name node, sn_id node)) (sw_nodes self))) in
  let? definition := stored_definition self in
  let? _ := map_err (fun _ => Internal) (validate definition) in
  let? namespace := map_err (fun _ => Internal) (NamespaceNameM.parse (sw_namespace self)) in
  Ok {| wrec_id := sw_id self; wrec_namespace_id := sw_namespace_id self; wrec_namespace := namespace;
        wrec_revision := sw_revision self; wrec_definition := definition; wrec_node_ids := node_ids;
        wrec_created_at := sw_created_at self; wrec_updated_at := sw_updated_at self |}.

Record WorkflowChildRun : Type := mkWorkflowChildRun { wc_target_id : Uuid; wc_run_id : Uuid }.

Record WorkflowNodeRunRecord : Type := mkWorkflowNodeRunRecord {
  nrr_id : Uuid;
  nrr_workflow_node_id : Uuid;
  nrr_name : ResourceName;
  nrr_job_id : Uuid;
  nrr_state : WorkflowNodeState;
  nrr_runs : list WorkflowChildRun;
  nrr_started_at : option Instant;
  nrr_finished_at : option Instant;
}.

Record WorkflowRunRecord : Type := mkWorkflowRunRecord {
  wrr_id : Uuid;
  wrr_request_id : Uuid;
  wrr_workflow : WorkflowRecord;
  wrr_target : TargetSelection;
  wrr_inputs : value;
  wrr_state : WorkflowState;
  wrr_cancellation_requested : bool;
  wrr_nodes : list WorkflowNodeRunRecord;
  wrr_created_at : Instant;
  wrr_started_at : option Instant;
  wrr_finished_at : option Instant;
}.

Definition visible (visibility : VisibilityScope) (id : Uuid) : bool :=
  match visibility with
  | VisAll => true
  | VisNamespaces ids => bool_decide (id ∈ ids)
  | VisNone => false
  end.

(** ** Updates of node rows *)

Definition node_set (n : NodeRunRow) (state : WorkflowNodeState) (started finished : option Instant) : NodeRunRow :=
  {| nr_workflow_run_id := nr_workflow_run_id n; nr_workflow_node_id := nr_workflow_node_id n;
     nr_name := nr_name n; nr_job_id := nr_job_id n; nr_state := state; nr_started_at := started;
     nr_finished_at := finished |}.

Definition invocation_set (w : InvocationRow) (state : WorkflowState) (cancellation : bool)
    (finished : option Instant) : InvocationRow :=
  {| wr_request_id := wr_request_id w; wr_workflow_id := wr_workflow_id w;
     wr_namespace_id := wr_namespace_id w; wr_definition_snapshot := wr_definition_snapshot w;
     wr_target_id := wr_target_id w; wr_target_set_id := wr_target_set_id w; wr_inputs := wr_inputs w;
     wr_state := state; wr_cancellation_requested := cancellation; wr_created_at := wr_created_at w;
     wr_started_at := wr_started_at w; wr_finished_at := finished |}.

(** [UPDATE crono.workflow_node_runs ... WHERE id = $1 AND ...]: the row before. *)
Definition update_node (id : Uuid) (cond : DB -> NodeRunRow -> bool) (f : Instant -> NodeRunRow -> NodeRunRow)
  : tx (option NodeRunRow) :=
  let! now := statement in
  let! d := tx_get in
  match workflow_node_runs d !! id with
  | Some n =>
      if cond d n then
        let! _ := tx_modify (set_node_runs (<[id := f now n]>)) in
        tx_ret (Some n)
      else tx_ret None
  | None => tx_ret None
  end.

Definition start_node (now : Instant) (n : NodeRunRow) : NodeRunRow := node_set n NRunning (Some now) (nr_finished_at n).
Definition end_node (state : WorkflowNodeState) (now : Instant) (n : NodeRunRow) : NodeRunRow :=
  node_set n state (nr_started_at n) (Some now).

(** ** Activation *)

(** The join of [activate]'s update. *)
Definition may_start (d : DB) (n : NodeRunRow) : bool :=
  match workflow_runs d !! nr_workflow_run_id n with
  | Some w =>
      (bool_decide (nr_state n = NPending) || bool_decide (nr_state n = NReady))
      && negb (wr_cancellation_requested w) && bool_decide (wr_state w = WRunning)
  | None => false
  end.

(** [WHERE node_run_id = $1 ORDER BY target_id] *)
Definition node_executions (d : DB) (node : Uuid) : list (Uuid * NodeExecutionRow) :=
  sort_by (fun a b => (a.1 <=? b.1)%N)
    (omap (fun kv => if (kv.1.1 =? node)%N then Some (kv.1.2, kv.2) else None)
       (map_to_list (workflow_node_executions d))).

Definition execution_started (e : NodeExecutionRow) : NodeExecutionRow :=
  match ne_run_id e with
  | Some _ => e
  | None => {| ne_prospective_run_id := ne_prospective_run_id e; ne_run_id := Some (ne_prospective_run_id e);
               ne_queue_id := ne_queue_id e; ne_max_attempts := ne_max_attempts e;
               ne_execution_snapshot := ne_execution_snapshot e |}
  end.

Definition start_execution (node job : Uuid) (e : Uuid * NodeExecutionRow) : tx unit :=
  let! _ := create_normal_run
    {| p_id := ne_prospective_run_id e.2; p_request_id := node; p_job_id := job; p_target_id := e.1;
       p_queue_id := ne_queue_id e.2; p_max_attempts := ne_max_attempts e.2;
       p_snapshot := ne_execution_snapshot e.2 |} in
  let! _ := statement in
  tx_modify (set_node_executions (alter execution_started (node, e.1))).

Definition activate (node_id : Uuid) : tx unit :=
  let! started := update_node node_id may_start start_node in
  match started with
  | None => tx_ret ()
  | Some n =>
      let! _ := statement in
      let! d := tx_get in
      tx_for (node_executions d node_id) (start_execution node_id (nr_job_id n))
  end.

(** ** Completion *)

(** The statuses of a node's children, by the inner join with [runs]. *)
Definition child_statuses (d : DB) (node : Uuid) : list RunStatus :=
  omap (fun kv => if (kv.1.1 =? node)%N
                  then id ← ne_run_id kv.2; option_map r_status (runs (core d) !! id) else None)
    (map_to_list (workflow_node_executions d)).

Definition status_in (l : list RunStatus) (s : RunStatus) : bool := existsb (fun x => bool_decide (x = s)) l.

Definition open_status (s : RunStatus) : bool :=
  match s with PendingDispatch | Queued | Running | RetryWait => true | _ => false end.

Definition node_outcome (statuses : list RunStatus) : option WorkflowNodeState :=
  if is_null (head statuses) || existsb open_status statuses then None
  else Some (if status_in statuses Unknown then NUnknown
             else if status_in statuses Failed || status_in statuses Dead then NFailed
             else if status_in statuses Cancelled then NCancelled
             else if status_in statuses Skipped then NSkipped
             else NSucceeded).

Definition complete_node (node_id : Uuid) : tx bool :=
  let! _ := statement in
  let! d := tx_get in
  match node_outcome (child_statuses d node_id) with
  | None => tx_ret false
  | Some state =>
      let! changed := update_node node_id (fun _ n => bool_decide (nr_state n = NRunning)) (end_node state) in
      tx_ret (negb (is_null changed))
  end.

(** ** Propagation *)

Definition edges_from (d : DB) (id : Uuid) : list Uuid :=
  sort_by N.leb (omap (fun kv : (Uuid * Uuid * Uuid) * DependencyCondition =>
    if (kv.1.1.2 =? id)%N then Some kv.1.2 else None) (map_to_list (workflow_run_edges d))).

Definition outgoing (id : Uuid) : tx (list Uuid) :=
  let! _ := statement in
  let! d := tx_get in
  tx_ret (edges_from d id).

(** [ORDER BY e.from_node_run_id] over the join with the origins' rows. *)
Definition edges_into (d : DB) (id : Uuid) : list (DependencyCondition * WorkflowNodeState) :=
  map snd (sort_by (fun a b => (a.1 <=? b.1)%N)
    (omap (fun kv : (Uuid * Uuid * Uuid) * DependencyCondition =>
       if (kv.1.2 =? id)%N
       then option_map (fun n => (kv.1.1.2, (kv.2, nr_state n))) (workflow_node_runs d !! kv.1.1.2)
       else None) (map_to_list (workflow_run_edges d)))).

(** The texts of the two columns, parsed back. *)
Definition decode_dependency (e : DependencyCondition * WorkflowNodeState)
  : result (DependencyCondition * WorkflowNodeState) StoreError :=
  let? c := condition (condition_name e.1) in
  let? s := node_state (node_state_text e.2) in
  Ok (c, s).

(** [fetch_one] of [n.state = 'pending' AND NOT w.cancellation_requested]. *)
Definition node_active (d : DB) (id : Uuid) : result bool StoreError :=
  ok_or (n ← workflow_node_runs d !! id; w ← workflow_runs d !! nr_workflow_run_id n;
         Some (bool_decide (nr_state n = NPending) && negb (wr_cancellation_requested w))) Internal.

(** One round of [propagate]: what it appends to the queue. *)
Definition propagate_one (id : Uuid) : tx (list Uuid) :=
  let! _ := statement in
  let! d := tx_get in
  let! active := tx_lift (node_active d id) in
  if negb active then tx_ret []
  else
    let! _ := statement in
    let! d := tx_get in
    let! values := tx_lift (collect decode_dependency (edges_into d id)) in
    match dependency_decision values with
    | Waiting => tx_ret []
    | Ready => let! _ := activate id in tx_ret []
    | Skipped_ =>
        let! _ := update_node id (fun _ n => bool_decide (nr_state n = NPending)) (end_node NSkipped) in
        outgoing id
    end.

(** The [while let]; [false] when the fuel runs out before the queue is empty. *)
Fixpoint propagate (fuel : nat) (downstream : list Uuid) : tx bool :=
  match fuel with
  | O => tx_ret (is_null (head downstream))
  | S fuel =>
      match downstream with
      | [] => tx_ret true
      | id :: downstream =>
          let! more := propagate_one id in
          propagate fuel (downstream ++ more)
      end
  end.

(** A skip happens once per node and queues its edges, so the queue and all
    edges bound the rounds. *)
Definition propagate_fuel (d : DB) (downstream : list Uuid) : nat :=
  length downstream + size (workflow_run_edges d).

(** ** The result of an invocation *)

Definition nodes_of (d : DB) (run : Uuid) : list NodeRunRow :=
  omap (fun kv : Uuid * NodeRunRow => if (nr_workflow_run_id kv.2 =? run)%N then Some kv.2 else None)
    (map_to_list (workflow_node_runs d)).

Definition open_node (n : NodeRunRow) : bool := negb (node_terminal (nr_state n)).

Definition bad_node (n : NodeRunRow) : bool :=
  match nr_state n with NFailed | NUnknown | NCancelled => true | _ => false end.

Definition final_state (d : DB) (id : Uuid) (w : InvocationRow) : WorkflowState :=
  if wr_cancellation_requested w then WCancelled
  else if existsb bad_node (nodes_of d id) then WFailed else WSucceeded.

Definition finish (id : Uuid) : tx unit :=
  let! now := statement in
  let! d := tx_get in
  match workflow_runs d !! id with
  | Some w =>
      if bool_decide (wr_state w = WRunning) && negb (existsb open_node (nodes_of d id))
      then tx_modify (set_workflow_runs
             (<[id := invocation_set w (final_state d id w) (wr_cancellation_requested w) (Some now)]>))
      else tx_ret ()
  | None => tx_ret ()
  end.

(** ** Reconciliation *)

(** The invocations with queued events, at most 100 of them, ascending. *)
Definition pending_invocations (d : DB) : list Uuid :=
  take 100 (sort_by N.leb (remove_dups (map (fun kv => ce_workflow_run_id kv.2)
    (map_to_list (workflow_completion_events d))))).

Definition next_invocation (d : DB) (locked : Uuid -> bool) : option Uuid :=
  head (filter (fun id => is_Some (workflow_runs d !! id) /\ locked id = false) (pending_invocations d)).

Definition events_of (d : DB) (id : Uuid) : list (Uuid * CompletionEventRow) :=
  filter (fun kv => ce_workflow_run_id kv.2 = id) (map_to_list (workflow_completion_events d)).

Fixpoint complete_nodes (nodes : list Uuid) : tx (list Uuid) :=
  match nodes with
  | [] => tx_ret []
  | node :: nodes =>
      let! changed := complete_node node in
      let! here := (if changed then outgoing node else tx_ret []) in
      let! rest := complete_nodes nodes in
      tx_ret (here ++ rest)
  end.

Definition reconcile_invocation : tx bool :=
  transaction (
    let! _ := statement in
    let! locked := locked_rows in
    let! d := tx_get in
    match next_invocation d locked with
    | None => tx_ret (Dropped false)
    | Some id =>
        let! _ := statement in
        let! d := tx_get in
        let events := events_of d id in
        let affected := sort_by N.leb (remove_dups (map (fun kv => ce_node_run_id kv.2) events)) in
        let! downstream := complete_nodes affected in
        let! d := tx_get in
        let! _ := propagate (propagate_fuel d downstream) downstream in
        let! _ := finish id in
        let! _ := statement in
        let! _ := tx_modify (set_completion_events (fun m => foldr delete m (map fst events))) in
        tx_ret (Commit true)
    end).

Fixpoint reconcile_workflows (limit : nat) : tx Z :=
  match limit with
  | O => tx_ret 0
  | S limit =>
      let! progressed := reconcile_invocation in
      if progressed then
        let! count := reconcile_workflows limit in
        tx_ret (count + 1)
      else tx_ret 0
  end.

(** [PostgresStore::reconcile]: the repairs of one transaction, then the Workflows. *)
Definition reconcile (locked_workers : string -> bool) (limit : Z) : tx Z :=
  let! repaired := reconcile_transaction locked_workers limit in
  let! workflow_changes := reconcile_workflows (Z.to_nat limit) in
  tx_ret (saturate 0 u64_max (repaired + workflow_changes)).

(** [serde_json::to_vec] of a snapshot: the number of bytes. *)
Class SnapshotEncoding : Type := { snapshot_len : ExecutionSnapshot -> Z }.

Section WorkflowStore.
Context {SJ : SerdeJson} {RF : RustFmt} {PG : PostgresServer} {SE : SnapshotEncoding}.

(** ** Reading an invocation *)

Definition node_record (d : DB) (kv : Uuid * NodeRunRow) : result WorkflowNodeRunRecord StoreError :=
  let children := omap (fun e : Uuid * NodeExecutionRow =>
    option_map (mkWorkflowChildRun e.1) (ne_run_id e.2)) (node_executions d kv.1) in
  let? name := resource_name (nr_name kv.2) in
  let? state := node_state (node_state_text (nr_state kv.2)) in
  Ok {| nrr_id := kv.1; nrr_workflow_node_id := nr_workflow_node_id kv.2; nrr_name := name;
        nrr_job_id := nr_job_id kv.2; nrr_state := state; nrr_runs := children;
        nrr_started_at := nr_started_at kv.2; nrr_finished_at := nr_finished_at kv.2 |}.

(** [ORDER BY name] *)
Definition invocation_nodes (d : DB) (id : Uuid) : list (Uuid * NodeRunRow) :=
  sort_by (fun a b => text_le (nr_name a.2) (nr_name b.2))
    (filter (fun kv => nr_workflow_run_id kv.2 = id) (map_to_list (workflow_node_runs d))).

(** One statement reads each node's children. *)
Fixpoint node_records (nodes : list (Uuid * NodeRunRow)) : tx (list WorkflowNodeRunRecord) :=
  match nodes with
  | [] => tx_ret []
  | node :: nodes =>
      let! _ := statement in
      let! d := tx_get in
      let! r := tx_lift (node_record d node) in
      let! rs := node_records nodes in
      tx_ret (r :: rs)
  end.

Definition invocation (id : Uuid) (visibility : VisibilityScope) : tx WorkflowRunRecord :=
  let! _ := statement in
  let! d := tx_get in
  let! row := tx_lift (ok_or (workflow_runs d !! id) NotFound) in
  let stored := wr_definition_snapshot row in
  if negb (visible visibility (sw_namespace_id stored)) then tx_fail NotFound
  else
    let! _ := statement in
    let! d := tx_get in
    let! nodes := node_records (invocation_nodes d id) in
    let! workflow := tx_lift (record stored) in
    let! target := tx_lift (target_selection (wr_target_id row) (wr_target_set_id row)) in
    let! state := tx_lift (workflow_state (workflow_state_text (wr_state row))) in
    tx_ret {| wrr_id := id; wrr_request_id := wr_request_id row; wrr_workflow := workflow;
              wrr_target := target; wrr_inputs := wr_inputs row; wrr_state := state;
              wrr_cancellation_requested := wr_cancellation_requested row; wrr_nodes := nodes;
              wrr_created_at := wr_created_at row; wrr_started_at := wr_started_at row;
              wrr_finished_at := wr_finished_at row |}.

(** ** Cancellation *)

Definition cancel_node (run : Uuid) (now : Instant) (n : NodeRunRow) : NodeRunRow :=
  if (nr_workflow_run_id n =? run)%N
     && (bool_decide (nr_state n = NPending) || bool_decide (nr_state n = NReady))
  then end_node NCancelled now n else n.

Definition cancel_run (id : Uuid) : tx WorkflowRunRecord :=
  transaction (
    let! _ := statement in
    let! d := tx_get in
    let! row := tx_lift (ok_or (workflow_runs d !! id) NotFound) in
    let! _ :=
      (if (workflow_state_text (wr_state row) =? "running")%string then
         let! _ := statement in
         let! _ := tx_modify (set_workflow_runs (alter (fun w =>
                     invocation_set w (wr_state w) true (wr_finished_at w)) id)) in
         let! now := statement in
         let! _ := tx_modify (set_node_runs (fmap (cancel_node id now))) in
         finish id
       else tx_ret ()) in
    let! r := invocation id VisAll in
    tx_ret (Commit r)).

(** ** The catalog *)

Definition catalog_nodes (d : DB) (id : Uuid) : list StoredNode :=
  sort_by (fun a b => text_le (sn_name a) (sn_name b))
    (omap (fun kv : Uuid * WorkflowNodeRow =>
       if (wnr_workflow_id kv.2 =? id)%N then Some (mkStoredNode kv.1 (wnr_name kv.2) (wnr_job_id kv.2)) else None)
       (map_to_list (wt_nodes (workflow_tables d)))).

(** [ORDER BY a.name, b.name] over the joins with the ends. *)
Definition catalog_edges (d : DB) (id : Uuid) : list StoredEdge :=
  let t := workflow_tables d in
  sort_by (fun a b => text_le (se_from a) (se_from b)
                      && (negb (text_le (se_from b) (se_from a)) || text_le (se_to a) (se_to b)))
    (omap (fun kv : (Uuid * Uuid * Uuid) * DependencyCondition =>
       if (kv.1.1.1 =? id)%N then
         a ← wt_nodes t !! kv.1.1.2; b ← wt_nodes t !! kv.1.2;
         Some (mkStoredEdge (wnr_name a) (wnr_name b) (condition_name kv.2))
       else None) (map_to_list (wt_edges t))).

Definition catalog (id : Uuid) : tx StoredWorkflow :=
  let! _ := statement in
  let! d := tx_get in
  let! (row, namespace) := tx_lift (ok_or (
    row ← wt_workflows (workflow_tables d) !! id;
    ns ← namespaces d !! w_namespace_id row; Some (row, n_name ns)) NotFound) in
  let! _ := statement in
  let! d := tx_get in
  let nodes := catalog_nodes d id in
  let! _ := statement in
  let! d := tx_get in
  let edges := catalog_edges d id in
  let! revision := tx_lift (try_from in_u64 Internal (w_revision row)) in
  tx_ret {| sw_id := id; sw_namespace_id := w_namespace_id row; sw_namespace := namespace;
            sw_name := w_name row; sw_description := w_description row; sw_revision := revision;
            sw_created_at := w_created_at row; sw_updated_at := w_updated_at row; sw_nodes := nodes;
            sw_edges := edges |}.

Definition get_workflow (id : Uuid) : tx WorkflowRecord :=
  transaction (
    let! stored := catalog id in
    let! r := tx_lift (record stored) in
    tx_ret (Commit r)).

(** ** Launching *)

Record WorkflowLaunch : Type := mkWorkflowLaunch {
  wl_workflow_id : Uuid;
  wl_revision : Z;
  wl_request_id : Uuid;
  wl_target : TargetSelection;
  wl_inputs : value;
  wl_authorized_targets : list Uuid;
}.

Definition launch_byte_budget : Z := 8 * 1024 * 1024.
Definition launch_execution_budget : Z := 4096.

Definition insert_node_run (node_id run : Uuid) (node : StoredNode) : tx unit :=
  let! _ := statement in
  let! d := tx_get in
  let row := {| nr_workflow_run_id := run; nr_workflow_node_id := sn_id node; nr_name := sn_name node;
                nr_job_id := sn_job_id node; nr_state := NPending; nr_started_at := None; nr_finished_at := None |} in
  let! _ := check (negb (has (workflow_node_runs d) node_id)) Conflict in
  let! _ := check (negb (existsb (fun kv : Uuid * NodeRunRow =>
                     (nr_workflow_run_id kv.2 =? run)%N && (nr_workflow_node_id kv.2 =? sn_id node)%N)
                     (map_to_list (workflow_node_runs d)))) Conflict in
  let! _ := check (has (workflow_runs d) run && has (jobs d) (sn_job_id node)) InUse in
  tx_modify (set_node_runs (<[node_id := row]>)).

(** [INSERT INTO crono.run_requests], with the constraint's error returned. *)
Definition require_run_request (request_id namespace_id job_id : Uuid) (target : TargetSelection) (inputs : value)
  : tx unit :=
  let '(target_id, target_set_id) := selection_ids target in
  let! inserted := insert_run_request request_id namespace_id job_id target_id target_set_id inputs in
  tx_lift inserted.

Definition insert_node_execution (node_id : Uuid) (execution : ExecutionRow) (run_id : Uuid)
    (snapshot : ExecutionSnapshot) : tx unit :=
  let! _ := statement in
  let! d := tx_get in
  let! _ := check ((1 <=? x_max_attempts execution) && (x_max_attempts execution <=? 100)) Internal in
  let! _ := check (negb (has (workflow_node_executions d) (node_id, x_target_id execution))) Conflict in
  let! _ := check (negb (existsb (fun kv : (Uuid * Uuid) * NodeExecutionRow =>
                     (ne_prospective_run_id kv.2 =? run_id)%N) (map_to_list (workflow_node_executions d)))) Conflict in
  let! _ := check (has (workflow_node_runs d) node_id && has (targets d) (x_target_id execution)
                   && has (queues d) (x_queue_id execution)) InUse in
  tx_modify (set_node_executions (<[(node_id, x_target_id execution) :=
    {| ne_prospective_run_id := run_id; ne_run_id := None; ne_queue_id := x_queue_id execution;
       ne_max_attempts := x_max_attempts execution; ne_execution_snapshot := snapshot |}]>)).

(** The loop over a node's executions; the bytes prepared so far. *)
Fixpoint prepare_executions (node_id namespace_id : Uuid) (set_inputs : option value) (inputs : value)
    (executions : list ExecutionRow) (bytes : Z) : tx Z :=
  match executions with
  | [] => tx_ret bytes
  | execution :: rest =>
      if negb (x_namespace_id execution =? namespace_id)%N then tx_fail InvalidData
      else
        let! run_id := fresh_uuid in
        let! snapshot := tx_lift (map_err (fun _ => InvalidData)
          (execution_snapshot_with_inputs run_id execution set_inputs inputs Manual None)) in
        let bytes := bytes + snapshot_len snapshot in
        if launch_byte_budget <? bytes then tx_fail WorkflowLaunchTooLarge
        else
          let! _ := insert_node_execution node_id execution run_id snapshot in
          prepare_executions node_id namespace_id set_inputs inputs rest bytes
  end.

Fixpoint prepare_nodes_loop (id namespace_id : Uuid) (launch : WorkflowLaunch) (nodes : list StoredNode)
    (node_ids : gmap string Uuid) (bytes count : Z) : tx (gmap string Uuid) :=
  match nodes with
  | [] => tx_ret node_ids
  | node :: nodes =>
      let! node_id := fresh_uuid in
      let! _ := insert_node_run node_id id node in
      let! _ := require_run_request node_id namespace_id (sn_job_id node) (wl_target launch) (wl_inputs launch) in
      let! (executions, set_inputs) := load_selection_executions (sn_job_id node) (wl_target launch) in
      let! _ := check (bool_decide ((list_to_set (map x_target_id executions) : gset Uuid)
                                    = list_to_set (wl_authorized_targets launch))) StaleRevision in
      let count := count + Z.of_nat (length executions) in
      let! _ := check (count <=? launch_execution_budget) WorkflowLaunchTooLarge in
      let! bytes := prepare_executions node_id namespace_id set_inputs (wl_inputs launch) executions bytes in
      prepare_nodes_loop id namespace_id launch nodes (<[sn_name node := node_id]> node_ids) bytes count
  end.

Definition prepare_nodes (id : Uuid) (definition : StoredWorkflow) (launch : WorkflowLaunch) : tx (gmap string Uuid) :=
  prepare_nodes_loop id (sw_namespace_id definition) launch (sw_nodes definition) ∅ 0 0.

Definition insert_invocation (id : Uuid) (definition : StoredWorkflow) (launch : WorkflowLaunch) : tx unit :=
  let '(target_id, target_set_id) := selection_ids (wl_target launch) in
  let! now := statement in
  let! _ := bind_jsons [wl_inputs launch] in
  let! d := tx_get in
  let! _ := check (is_object (wl_inputs launch)) Internal in
  let! _ := check (negb (has (workflow_runs d) id)
                   && negb (existsb (fun kv : Uuid * InvocationRow => (wr_request_id kv.2 =? wl_request_id launch)%N)
                              (map_to_list (workflow_runs d)))) Conflict in
  let! _ := check (has (wt_workflows (workflow_tables d)) (wl_workflow_id launch)
                   && has (namespaces d) (sw_namespace_id definition) && has_opt (targets d) target_id
                   && has_opt (target_sets d) target_set_id) InUse in
  tx_modify (set_workflow_runs (<[id :=
    {| wr_request_id := wl_request_id launch; wr_workflow_id := wl_workflow_id launch;
       wr_namespace_id := sw_namespace_id definition; wr_definition_snapshot := definition;
       wr_target_id := target_id; wr_target_set_id := target_set_id; wr_inputs := wl_inputs launch;
       wr_state := WRunning; wr_cancellation_requested := false; wr_created_at := now;
       wr_started_at := Some now; wr_finished_at := None |}]>)).

(** The foreign key on an invocation and its node. *)
Definition node_belongs (d : DB) (id node : Uuid) : bool :=
  match workflow_node_runs d !! node with Some n => (nr_workflow_run_id n =? id)%N | None => false end.

Definition insert_run_edge (id : Uuid) (node_ids : gmap string Uuid) (edge : StoredEdge) : tx unit :=
  let! from := tx_lift (ok_or (node_ids !! se_from edge) Internal) in
  let! to := tx_lift (ok_or (node_ids !! se_to edge) Internal) in
  let! _ := statement in
  let! d := tx_get in
  let! c := tx_lift (condition (se_condition edge)) in
  let! _ := check (negb (has (workflow_run_edges d) (id, from, to))) Conflict in
  let! _ := check (node_belongs d id from && node_belongs d id to) InUse in
  tx_modify (set_run_edges (<[(id, from, to) := c]>)).

Definition is_root (definition : StoredWorkflow) (node : StoredNode) : bool :=
  negb (existsb (fun edge => (se_to edge =? sn_name node)%string) (sw_edges definition)).

Definition invocation_for_request (d : DB) (request_id : Uuid) : option Uuid :=
  head (omap (fun kv : Uuid * InvocationRow =>
          if (wr_request_id kv.2 =? request_id)%N then Some kv.1 else None) (map_to_list (workflow_runs d))).

Definition same_selection (a b : TargetSelection) : bool :=
  match a, b with
  | SelTarget x, SelTarget y | SelTargetSet x, SelTargetSet y => (x =? y)%N
  | _, _ => false
  end.

(** A request that was launched before. *)
Definition replay (launch : WorkflowLaunch) (id : Uuid) : tx WorkflowRunRecord :=
  let! r := invocation id VisAll in
  if negb (wrec_id (wrr_workflow r) =? wl_workflow_id launch)%N || negb (same_selection (wrr_target r) (wl_target launch))
  then tx_fail IdempotencyConflict
  else
    let! same := json_inputs_equal (wrr_inputs r) (wl_inputs launch) in
    if same then tx_ret r else tx_fail IdempotencyConflict.

Definition start (launch : WorkflowLaunch) : tx (WorkflowRunRecord * bool) :=
  transaction (
    let! _ := statement in
    let! _ := statement in
    let! d := tx_get in
    match invocation_for_request d (wl_request_id launch) with
    | Some id =>
        let! r := replay launch id in
        tx_ret (Commit (r, false))
    | None =>
        let! definition := catalog (wl_workflow_id launch) in
        if negb (sw_revision definition =? wl_revision launch) then tx_fail StaleRevision
        else
          let! id := fresh_uuid in
          let! _ := insert_invocation id definition launch in
          let! _ := statement in
          let! _ := statement in
          let! node_ids := prepare_nodes id definition launch in
          let! _ := tx_for (sw_edges definition) (insert_run_edge id node_ids) in
          let! _ := tx_for (filter (fun node => is_root definition node = true) (sw_nodes definition)) (fun node =>
            let! node_id := tx_lift (ok_or (node_ids !! sn_name node) Internal) in
            activate node_id) in
          let! r := invocation id VisAll in
          tx_ret (Commit (r, true))
    end).

End WorkflowStore.
