(* ===== verification/Catalog.v ===== *)
(** * The catalog (infrastructure/postgres.rs)

    Namespaces, Queues, Jobs, Targets, Target Sets and Schedules: the writes and
    reads of the store, each statement with the constraints of
    db/sql/01_crono.sql, and the conversions of rows into entities.  A CHECK fails
    as [Internal] (SQLSTATE 23514 is not classified), a unique key as [Conflict], a
    foreign key as [InUse]; a CHECK whose value is NULL passes.  A [jsonb] column
    holds the value it was given. *)

From S2P Require Import Prelude RustStr Json Inputs Names Float Domain Auth Workflow Db Snapshot Store WorkflowStore.
From Stdlib Require Import SpecFloat Ascii String.
From stdpp Require Import base numbers strings sorting gmap list.

Local Open Scope Z_scope.

(** ** Records of application/model.rs and application/store.rs *)

Record JobRecord : Type := mkJobRecord {
  jr_namespace : NamespaceName;
  jr_queue_name : QueueName;
  jr_job : Job;
}.

Record TargetRecord : Type := mkTargetRecord {
  tr_namespace : NamespaceName;
  tr_target : Target;
}.

Record TargetSetRecord : Type := mkTargetSetRecord {
  tsrec_namespace : NamespaceName;
  tsrec_target_set : TargetSet;
  tsrec_targets : list Target;
}.

Record JobDefinition : Type := mkJobDefinition {
  jd_executor : ExecutorKind;
  jd_queue_id : Uuid;
  jd_executable : option string;
  jd_shell_command : option string;
  jd_arguments : list string;
  jd_inputs : value;
  jd_idempotent : bool;
  jd_dry_run : bool;
  jd_max_attempts : Z;
  jd_retry_initial_seconds : Z;
  jd_retry_max_seconds : Z;
  jd_retry_multiplier : spec_float;
  jd_retry_jitter : spec_float;
}.

Record TargetDefinition : Type := mkTargetDefinition {
  td_arguments : list string;
  td_inputs : value;
}.

Record NewSchedule : Type := mkNewSchedule {
  new_namespace_id : Uuid;
  new_name : ResourceName;
  new_job_id : Uuid;
  new_target : TargetSelection;
  new_inputs : value;
  new_cron_expression : option string;
  new_execute_at : option Instant;
  new_timezone : string;
  new_next_run_at : Instant;
  new_misfire_policy : MisfirePolicy;
  new_misfire_grace_seconds : option Z;
  new_catchup_policy : CatchupPolicy;
  new_max_catchup_runs : Z;
  new_max_catchup_age_seconds : Z;
}.

(** ** Constraints of the tables *)

Definition namespace_checks (n : NamespaceRow) : bool := canonical_label (n_name n).

Definition queue_checks (q : QueueRow) : bool :=
  canonical_label (qr_name q)
  && match qr_description q with Some s => chars_count s <=? 500 | None => true end
  && (negb (qr_system q) || qr_enabled q)
  && Bool.eqb (qr_name q =? "default")%string (qr_system q).

(** [text LIKE '/%'], unknown on NULL. *)
Definition like_absolute (o : option string) : bool :=
  match o with
  | None => true
  | Some EmptyString => false
  | Some (String a _) => Ascii.eqb a "/"
  end.

(** [<=] of [double precision]: NaN is the greatest value. *)
Definition pg_f64_le (x y : spec_float) : bool :=
  match x, y with
  | _, S754_nan => true
  | S754_nan, _ => false
  | _, _ => SFleb x y
  end.

Definition is_array (v : value) : bool := match v with VArray _ => true | _ => false end.

Definition job_process_configuration (j : JobRow) : bool :=
  if (j_executor j =? "noop")%string then is_null (j_executable j) && is_null (j_shell_command j)
  else if (j_executor j =? "process")%string then like_absolute (j_executable j) && is_null (j_shell_command j)
  else if (j_executor j =? "shell")%string then
    like_absolute (j_executable j)
    && match j_shell_command j with Some s => (1 <=? slen s) && (slen s <=? 65536) | None => false end
  else false.

Definition job_checks (j : JobRow) : bool :=
  canonical_label (j_name j) && job_process_configuration j && is_array (j_arguments j) && is_object (j_inputs j)
  && in_range 1 100 (j_max_attempts j) && in_range 1 86400 (j_retry_initial_seconds j)
  && in_range (j_retry_initial_seconds j) 86400 (j_retry_max_seconds j)
  && pg_f64_le f64_one (j_retry_multiplier j)
  && pg_f64_le (f64_of_Z 0) (j_retry_jitter j) && pg_f64_le (j_retry_jitter j) f64_one.

Definition target_checks (t : TargetRow) : bool :=
  canonical_label (t_name t) && is_array (t_arguments t) && is_object (t_inputs t).

Definition target_set_checks (t : TargetSetRow) : bool := canonical_label (tsr_name t) && is_object (tsr_inputs t).

Definition schedule_checks (s : ScheduleRow) : bool :=
  canonical_label (s_name s)
  && negb (Bool.eqb (is_null (s_target_id s)) (is_null (s_target_set_id s)))
  && is_object (s_inputs s)
  && (((s_schedule_type s =? "cron")%string && negb (is_null (s_cron_expression s)) && is_null (s_execute_at s))
      || ((s_schedule_type s =? "once")%string && is_null (s_cron_expression s) && negb (is_null (s_execute_at s))))
  && existsb (String.eqb (s_misfire_policy s)) ["run_late"%string; "skip"%string; "grace_period"%string]
  && (if (s_misfire_policy s =? "grace_period")%string
      then match s_misfire_grace_seconds s with Some g => 0 <=? g | None => true end
      else is_null (s_misfire_grace_seconds s))
  && existsb (String.eqb (s_catchup_policy s)) ["skip"%string; "run_once"%string; "catch_up"%string]
  && in_range 1 1000 (s_max_catchup_runs s) && in_range 60 31536000 (s_max_catchup_age_seconds s)
  && (0 <? s_revision s).

(** [UNIQUE (namespace_id, name)], taken by another row. *)
Definition scoped_name_taken {A} (m : gmap Uuid A) (ns : A -> Uuid) (nm : A -> string) (id : Uuid) (row : A) : bool :=
  existsb (fun kv : Uuid * A => negb (kv.1 =? id)%N && (ns kv.2 =? ns row)%N && (nm kv.2 =? nm row)%string)
    (map_to_list m).

(** [UNIQUE (name)]. *)
Definition name_taken {A} (m : gmap Uuid A) (nm : A -> string) (id : Uuid) (row : A) : bool :=
  existsb (fun kv : Uuid * A => negb (kv.1 =? id)%N && (nm kv.2 =? nm row)%string) (map_to_list m).

(** A row that a restricting foreign key still refers to. *)
Definition any_row {K A} `{Countable K} (m : gmap K A) (f : A -> bool) : bool :=
  existsb (fun kv : K * A => f kv.2) (map_to_list m).

Definition is_id (id : Uuid) (o : option Uuid) : bool := bool_decide (o = Some id).

Definition namespace_referenced (d : DB) (id : Uuid) : bool :=
  any_row (jobs d) (fun j => (j_namespace_id j =? id)%N) || any_row (targets d) (fun t => (t_namespace_id t =? id)%N)
  || any_row (target_sets d) (fun t => (tsr_namespace_id t =? id)%N)
  || any_row (schedules d) (fun s => (s_namespace_id s =? id)%N)
  || any_row (run_requests d) (fun r => (rr_namespace_id r =? id)%N)
  || any_row (wt_workflows (workflow_tables d)) (fun w => (w_namespace_id w =? id)%N)
  || any_row (workflow_runs d) (fun w => (wr_namespace_id w =? id)%N).

Definition queue_referenced (d : DB) (id : Uuid) : bool :=
  any_row (jobs d) (fun j => (j_queue_id j =? id)%N) || any_row (runs (core d)) (fun r => (r_queue_id r =? id)%N)
  || any_row (worker_presence d) (fun w => (wp_queue_id w =? id)%N)
  || any_row (workflow_node_executions d) (fun e => (ne_queue_id e =? id)%N).

Definition target_referenced (d : DB) (id : Uuid) : bool :=
  existsb (fun m : Uuid * Uuid => (m.2 =? id)%N) (elements (target_set_members d))
  || any_row (schedules d) (fun s => is_id id (s_target_id s))
  || any_row (run_requests d) (fun r => is_id id (rr_target_id r))
  || any_row (runs (core d)) (fun r => (r_target_id r =? id)%N)
  || any_row (workflow_runs d) (fun w => is_id id (wr_target_id w))
  || existsb (fun kv : (Uuid * Uuid) * NodeExecutionRow => (kv.1.2 =? id)%N) (map_to_list (workflow_node_executions d)).

(** ** Rows as the queries return them *)

Record JobJoin : Type := mkJobJoin { jj_id : Uuid; jj_row : JobRow; jj_queue : string; jj_namespace : string }.

Definition job_join (d : DB) (id : Uuid) (j : JobRow) : option JobJoin :=
  n ← namespaces d !! j_namespace_id j;
  q ← queues d !! j_queue_id j;
  Some (mkJobJoin id j (qr_name q) (n_name n)).

Record TargetJoin : Type := mkTargetJoin { tj_id : Uuid; tj_row : TargetRow; tj_namespace : string }.

Definition target_join (d : DB) (id : Uuid) (t : TargetRow) : option TargetJoin :=
  n ← namespaces d !! t_namespace_id t; Some (mkTargetJoin id t (n_name n)).

Record TargetSetJoin : Type := mkTargetSetJoin { tsj_id : Uuid; tsj_row : TargetSetRow; tsj_namespace : string }.

Definition target_set_join (d : DB) (id : Uuid) (t : TargetSetRow) : option TargetSetJoin :=
  n ← namespaces d !! tsr_namespace_id t; Some (mkTargetSetJoin id t (n_name n)).

Record ScheduleJoin : Type := mkScheduleJoin {
  sj_id : Uuid;
  sj_row : ScheduleRow;
  sj_namespace : string;
  sj_job : string;
  sj_target : option string;
}.

Definition schedule_join (d : DB) (id : Uuid) (s : ScheduleRow) : option ScheduleJoin :=
  n ← namespaces d !! s_namespace_id s;
  j ← jobs d !! s_job_id s;
  Some (mkScheduleJoin id s (n_name n) (j_name j) (schedule_target_name d s)).

(** ** Entities from rows *)

Definition namespace_from_row (row : Uuid * NamespaceRow) : result Namespace StoreError :=
  let? name := name_error (NamespaceNameM.parse (n_name row.2)) in
  Ok {| ns_id := row.1; ns_name := name; ns_created_at := n_created_at row.2 |}.

Definition queue_from_row (row : Uuid * QueueRow) : result Queue StoreError :=
  let? name := name_error (QueueNameM.parse (qr_name row.2)) in
  Ok {| q_id := row.1; q_name := name; q_description := qr_description row.2; q_enabled := qr_enabled row.2;
        q_system := qr_system row.2; q_created_at := qr_created_at row.2; q_updated_at := qr_updated_at row.2 |}.

(** [serde_json::to_value] of a [Vec<String>]; [from_value] is [strings_of_value]. *)
Definition value_of_strings (l : list string) : value := VArray (map VString l).

Definition job_from_row (row : JobJoin) : result JobRecord StoreError :=
  let j := jj_row row in
  let? executor := parse_executor (j_executor j) in
  let? arguments := ok_or (strings_of_value (j_arguments j)) Internal in
  let? max_attempts := try_from in_u16 Internal (j_max_attempts j) in
  let? retry_initial_seconds := try_from in_u32 Internal (j_retry_initial_seconds j) in
  let? retry_max_seconds := try_from in_u32 Internal (j_retry_max_seconds j) in
  let? namespace := name_error (NamespaceNameM.parse (jj_namespace row)) in
  let? queue_name := name_error (QueueNameM.parse (jj_queue row)) in
  let? name := name_error (ResourceNameM.parse (j_name j)) in
  Ok {| jr_namespace := namespace; jr_queue_name := queue_name;
        jr_job := {|
          job_id := jj_id row; job_namespace_id := j_namespace_id j; job_name := name; job_executor := executor;
          job_queue_id := j_queue_id j; job_executable := j_executable j; job_shell_command := j_shell_command j;
          job_arguments := arguments; job_inputs := j_inputs j; job_idempotent := j_idempotent j;
          job_dry_run := j_dry_run j; job_max_attempts := max_attempts;
          job_retry_initial_seconds := retry_initial_seconds; job_retry_max_seconds := retry_max_seconds;
          job_retry_multiplier := j_retry_multiplier j; job_retry_jitter := j_retry_jitter j;
          job_created_at := j_created_at j; job_updated_at := j_updated_at j |} |}.

Definition target_from_row (row : TargetJoin) : result TargetRecord StoreError :=
  let t := tj_row row in
  let? arguments := ok_or (strings_of_value (t_arguments t)) Internal in
  let? namespace := name_error (NamespaceNameM.parse (tj_namespace row)) in
  let? name := name_error (ResourceNameM.parse (t_name t)) in
  Ok {| tr_namespace := namespace;
        tr_target := {| tgt_id := tj_id row; tgt_namespace_id := t_namespace_id t; tgt_name := name;
                        tgt_arguments := arguments; tgt_inputs := t_inputs t; tgt_created_at := t_created_at t;
                        tgt_updated_at := t_updated_at t |} |}.

(** The loop of [target_set_from_rows]: the set and the Targets read so far. *)
Fixpoint add_members (set : TargetSet) (targets : list Target) (rows : list TargetJoin)
  : result (TargetSet * list Target) StoreError :=
  match rows with
  | [] => Ok (set, targets)
  | row :: rows =>
      let? record := target_from_row row in
      let? added := map_err (fun _ => Internal) (add_target set (tr_target record)) in
      add_members added.2 (targets ++ [tr_target record]) rows
  end.

Definition target_set_from_rows (row : TargetSetJoin) (target_rows : list TargetJoin)
  : result TargetSetRecord StoreError :=
  let t := tsj_row row in
  let? name := name_error (ResourceNameM.parse (tsr_name t)) in
  let? (set, targets) := add_members
    {| ts_id := tsj_id row; ts_namespace_id := tsr_namespace_id t; ts_name := name; ts_members := ∅;
       ts_inputs := tsr_inputs t; ts_created_at := tsr_created_at t; ts_updated_at := tsr_updated_at t |}
    [] target_rows in
  let? namespace := name_error (NamespaceNameM.parse (tsj_namespace row)) in
  Ok {| tsrec_namespace := namespace; tsrec_target_set := set; tsrec_targets := targets |}.

Definition schedule_record (row : ScheduleJoin) : result ScheduleRecord StoreError :=
  schedule_from_row (sj_id row) (sj_row row) (Some (sj_namespace row)) (Some (sj_job row)) (sj_target row).

(** ** Namespaces *)

Definition create_namespace (name : NamespaceName) : tx Namespace :=
  let! now := statement in
  let! _ := bind_texts [NamespaceNameM.as_str name] in
  let! d := tx_get in
  let! id := fresh_uuid in
  let row := {| n_name := NamespaceNameM.as_str name; n_created_at := now |} in
  let! _ := check (namespace_checks row) Internal in
  let! _ := check (negb (has (namespaces d) id) && negb (name_taken (namespaces d) n_name id row)) Conflict in
  let! _ := tx_modify (set_namespaces (<[id := row]>)) in
  tx_lift (namespace_from_row (id, row)).

Definition get_namespace (id : Uuid) : tx Namespace :=
  let! _ := statement in
  let! d := tx_get in
  let! row := tx_lift (ok_or (namespaces d !! id) NotFound) in
  tx_lift (namespace_from_row (id, row)).

Definition delete_namespace (id : Uuid) : tx unit :=
  let! _ := statement in
  let! d := tx_get in
  if has (namespaces d) id then
    let! _ := check (negb (namespace_referenced d id)) InUse in
    tx_modify (set_namespaces (delete id))
  else tx_fail NotFound.

(** ** Queues *)

Definition create_queue (name : QueueName) (description : option string) : tx Queue :=
  let! now := statement in
  let! _ := bind_texts (QueueNameM.as_str name :: opt_text description) in
  let! d := tx_get in
  let! id := fresh_uuid in
  let row := {| qr_name := QueueNameM.as_str name; qr_description := description; qr_enabled := true;
                qr_system := false; qr_created_at := now; qr_updated_at := now |} in
  let! _ := check (queue_checks row) Internal in
  let! _ := check (negb (has (queues d) id) && negb (name_taken (queues d) qr_name id row)) Conflict in
  let! _ := tx_modify (set_queues (<[id := row]>)) in
  tx_lift (queue_from_row (id, row)).

Definition get_queue (id : Uuid) : tx Queue :=
  let! _ := statement in
  let! d := tx_get in
  let! row := tx_lift (ok_or (queues d !! id) NotFound) in
  tx_lift (queue_from_row (id, row)).

(** The row of a name; the name is unique. *)
Definition queue_named (d : DB) (name : string) : option (Uuid * QueueRow) :=
  head (List.filter (fun kv : Uuid * QueueRow => (qr_name kv.2 =? name)%string) (map_to_list (queues d))).

Definition get_queue_by_name (name : QueueName) : tx Queue :=
  let! _ := statement in
  let! _ := bind_texts [QueueNameM.as_str name] in
  let! d := tx_get in
  let! row := tx_lift (ok_or (queue_named d (QueueNameM.as_str name)) NotFound) in
  tx_lift (queue_from_row row).

Definition update_queue (id : Uuid) (name : QueueName) (description : option string) (enabled : bool) : tx Queue :=
  let! now := statement in
  let! _ := bind_texts (QueueNameM.as_str name :: opt_text description) in
  let! d := tx_get in
  let! q := tx_lift (ok_or (queues d !! id) NotFound) in
  let row := {| qr_name := QueueNameM.as_str name; qr_description := description; qr_enabled := enabled;
                qr_system := qr_system q; qr_created_at := qr_created_at q; qr_updated_at := now |} in
  let! _ := check (queue_checks row) Internal in
  let! _ := check (negb (name_taken (queues d) qr_name id row)) Conflict in
  let! _ := tx_modify (set_queues (<[id := row]>)) in
  tx_lift (queue_from_row (id, row)).

Definition delete_queue (id : Uuid) : tx unit :=
  let! _ := statement in
  let! d := tx_get in
  if has (queues d) id then
    let! _ := check (negb (queue_referenced d id)) InUse in
    tx_modify (set_queues (delete id))
  else tx_fail NotFound.

(** ** Jobs *)

(** The columns a definition sets. *)
Definition job_row (namespace_id : Uuid) (name : ResourceName) (definition : JobDefinition)
    (created_at updated_at : Instant) : JobRow :=
  {| j_namespace_id := namespace_id; j_name := ResourceNameM.as_str name;
     j_executor := executor_name (jd_executor definition); j_queue_id := jd_queue_id definition;
     j_executable := jd_executable definition; j_shell_command := jd_shell_command definition;
     j_arguments := value_of_strings (jd_arguments definition); j_inputs := jd_inputs definition;
     j_idempotent := jd_idempotent definition; j_dry_run := jd_dry_run definition;
     j_max_attempts := jd_max_attempts definition;
     j_retry_initial_seconds := jd_retry_initial_seconds definition;
     j_retry_max_seconds := jd_retry_max_seconds definition;
     j_retry_multiplier := jd_retry_multiplier definition; j_retry_jitter := jd_retry_jitter definition;
     j_created_at := created_at; j_updated_at := updated_at |}.

(** The parameters of both statements: the delays must fit an [integer]. *)
Definition bind_job (name : ResourceName) (definition : JobDefinition) : tx Instant :=
  let! _ := tx_lift (try_from in_i32 Internal (jd_retry_initial_seconds definition)) in
  let! _ := tx_lift (try_from in_i32 Internal (jd_retry_max_seconds definition)) in
  let! now := statement in
  let! _ := bind_texts (ResourceNameM.as_str name :: opt_text (jd_executable definition)
                        ++ opt_text (jd_shell_command definition)) in
  let! _ := bind_jsons [value_of_strings (jd_arguments definition); jd_inputs definition] in
  tx_ret now.

Definition create_job (namespace_id : Uuid) (name : ResourceName) (definition : JobDefinition) : tx JobRecord :=
  let! now := bind_job name definition in
  let! d := tx_get in
  match namespaces d !! namespace_id, queues d !! jd_queue_id definition with
  | Some n, Some q =>
      if qr_enabled q then
        let! id := fresh_uuid in
        let row := job_row namespace_id name definition now now in
        let! _ := check (job_checks row) Internal in
        let! _ := check (negb (has (jobs d) id) && negb (scoped_name_taken (jobs d) j_namespace_id j_name id row))
                    Conflict in
        let! _ := tx_modify (set_jobs (<[id := row]>)) in
        tx_lift (job_from_row (mkJobJoin id row (qr_name q) (n_name n)))
      else tx_fail NotFound
  | _, _ => tx_fail NotFound
  end.

Definition get_job (id : Uuid) : tx JobRecord :=
  let! _ := statement in
  let! d := tx_get in
  let! row := tx_lift (ok_or (j ← jobs d !! id; job_join d id j) NotFound) in
  tx_lift (job_from_row row).

Definition update_job (id : Uuid) (name : ResourceName) (definition : JobDefinition) : tx JobRecord :=
  let! now := bind_job name definition in
  let! d := tx_get in
  match jobs d !! id, queues d !! jd_queue_id definition with
  | Some j, Some q =>
      if qr_enabled q || (jd_queue_id definition =? j_queue_id j)%N then
        let row := job_row (j_namespace_id j) name definition (j_created_at j) now in
        let! _ := check (job_checks row) Internal in
        let! _ := check (negb (scoped_name_taken (jobs d) j_namespace_id j_name id row)) Conflict in
        let! _ := tx_modify (set_jobs (<[id := row]>)) in
        let! row := tx_lift (ok_or (job_join d id row) NotFound) in
        tx_lift (job_from_row row)
      else tx_fail NotFound
  | _, _ => tx_fail NotFound
  end.

(** ** Targets *)

Definition target_row (namespace_id : Uuid) (name : ResourceName) (definition : TargetDefinition)
    (created_at updated_at : Instant) : TargetRow :=
  {| t_namespace_id := namespace_id; t_name := ResourceNameM.as_str name;
     t_arguments := value_of_strings (td_arguments definition); t_inputs := td_inputs definition;
     t_created_at := created_at; t_updated_at := updated_at |}.

Definition bind_target (name : ResourceName) (definition : TargetDefinition) : tx Instant :=
  let! now := statement in
  let! _ := bind_texts [ResourceNameM.as_str name] in
  let! _ := bind_jsons [value_of_strings (td_arguments definition); td_inputs definition] in
  tx_ret now.

Definition create_target (namespace_id : Uuid) (name : ResourceName) (definition : TargetDefinition) : tx TargetRecord :=
  let! now := bind_target name definition in
  let! d := tx_get in
  let! n := tx_lift (ok_or (namespaces d !! namespace_id) NotFound) in
  let! id := fresh_uuid in
  let row := target_row namespace_id name definition now now in
  let! _ := check (target_checks row) Internal in
  let! _ := check (negb (has (targets d) id) && negb (scoped_name_taken (targets d) t_namespace_id t_name id row))
              Conflict in
  let! _ := tx_modify (set_targets (<[id := row]>)) in
  tx_lift (target_from_row (mkTargetJoin id row (n_name n))).

Definition get_target (id : Uuid) : tx TargetRecord :=
  let! _ := statement in
  let! d := tx_get in
  let! row := tx_lift (ok_or (t ← targets d !! id; target_join d id t) NotFound) in
  tx_lift (target_from_row row).

(** The trigger [default_target_name]. *)
Definition protect_default_target_name (d : DB) (old : TargetRow) (new_name : string) : bool :=
  negb ((t_name old =? "default")%string && negb (new_name =? t_name old)%string
        && match namespaces d !! t_namespace_id old with Some n => (n_name n =? "default")%string | None => false end).

Definition update_target (id : Uuid) (name : ResourceName) (definition : TargetDefinition) : tx TargetRecord :=
  let! now := bind_target name definition in
  let! d := tx_get in
  let! t := tx_lift (ok_or (targets d !! id) NotFound) in
  let row := target_row (t_namespace_id t) name definition (t_created_at t) now in
  let! _ := check (protect_default_target_name d t (t_name row)) Internal in
  let! _ := check (target_checks row) Internal in
  let! _ := check (negb (scoped_name_taken (targets d) t_namespace_id t_name id row)) Conflict in
  let! _ := tx_modify (set_targets (<[id := row]>)) in
  let! row := tx_lift (ok_or (target_join d id row) NotFound) in
  tx_lift (target_from_row row).

Definition delete_target (id : Uuid) : tx unit :=
  let! _ := statement in
  let! d := tx_get in
  if has (targets d) id then
    let! _ := check (negb (target_referenced d id)) InUse in
    tx_modify (set_targets (delete id))
  else tx_fail NotFound.

(** ** Schedules *)

Definition schedule_row (s : NewSchedule) (now : Instant) : ScheduleRow :=
  let '(target_id, target_set_id) := selection_ids (new_target s) in
  {| s_namespace_id := new_namespace_id s; s_job_id := new_job_id s; s_target_id := target_id;
     s_target_set_id := target_set_id; s_inputs := new_inputs s; s_name := ResourceNameM.as_str (new_name s);
     s_schedule_type := if is_null (new_cron_expression s) then "once" else "cron";
     s_cron_expression := new_cron_expression s; s_execute_at := new_execute_at s; s_timezone := new_timezone s;
     s_enabled := true; s_next_run_at := Some (new_next_run_at s); s_last_run_at := None;
     s_misfire_policy := misfire_name (new_misfire_policy s);
     s_misfire_grace_seconds := new_misfire_grace_seconds s;
     s_catchup_policy := catchup_name (new_catchup_policy s); s_max_catchup_runs := new_max_catchup_runs s;
     s_max_catchup_age_seconds := new_max_catchup_age_seconds s; s_revision := 1; s_claim_owner := None;
     s_claim_expires_at := None; s_created_at := now; s_updated_at := now |}.

Definition schedule_references (d : DB) (s : ScheduleRow) : bool :=
  has (namespaces d) (s_namespace_id s) && has (jobs d) (s_job_id s) && has_opt (targets d) (s_target_id s)
  && has_opt (target_sets d) (s_target_set_id s).

(** [enforce_schedule_namespace_match] *)
Definition schedule_namespace_match (d : DB) (s : ScheduleRow) : bool :=
  match jobs d !! s_job_id s,
        match s_target_id s with
        | Some id => option_map t_namespace_id (targets d !! id)
        | None => id ← s_target_set_id s; option_map tsr_namespace_id (target_sets d !! id)
        end with
  | Some j, Some ns => (s_namespace_id s =? j_namespace_id j)%N && (j_namespace_id j =? ns)%N
  | _, _ => false
  end.

(** Bound as [bigint], assigned to an [integer] column. *)
Definition opt_i32 (o : option Z) : bool := match o with Some z => in_i32 z | None => true end.

Definition create_schedule (s : NewSchedule) : tx ScheduleRecord :=
  let! now := statement in
  let! _ := bind_texts (ResourceNameM.as_str (new_name s) :: opt_text (new_cron_expression s) ++ [new_timezone s]) in
  let! _ := bind_jsons [new_inputs s] in
  let! d := tx_get in
  let! id := fresh_uuid in
  let row := schedule_row s now in
  let! _ := check (opt_i32 (new_misfire_grace_seconds s) && in_i32 (new_max_catchup_age_seconds s)) Internal in
  let! _ := check (schedule_checks row) Internal in
  let! _ := check (negb (has (schedules d) id)
                   && negb (scoped_name_taken (schedules d) s_namespace_id s_name id row)) Conflict in
  let! _ := check (schedule_references d row) InUse in
  let! _ := check (schedule_namespace_match d row) Internal in
  let! _ := tx_modify (set_schedules (<[id := row]>)) in
  let! row := tx_lift (ok_or (schedule_join d id row) NotFound) in
  tx_lift (schedule_record row).

Definition get_schedule (id : Uuid) : tx ScheduleRecord :=
  let! _ := statement in
  let! d := tx_get in
  let! row := tx_lift (ok_or (s ← schedules d !! id; schedule_join d id s) NotFound) in
  tx_lift (schedule_record row).

Section WithServer.
Context {PG : PostgresServer}.

(** ** Target Sets *)

(** [ORDER BY name] *)
Definition by_name {A} (nm : A -> string) (a b : A) : bool := text_le (nm a) (nm b).

Definition ordered_targets (d : DB) (keep : Uuid -> TargetRow -> bool) : list TargetJoin :=
  sort_by (by_name (fun j => t_name (tj_row j)))
    (omap (fun kv : Uuid * TargetRow => if keep kv.1 kv.2 then target_join d kv.1 kv.2 else None)
       (map_to_list (targets d))).

Definition target_rows_for_ids (namespace_id : Uuid) (ids : list Uuid) : tx (list TargetJoin) :=
  let! _ := statement in
  let! d := tx_get in
  tx_ret (ordered_targets d (fun id t => (t_namespace_id t =? namespace_id)%N && bool_decide (id ∈ ids))).

(** [INSERT INTO crono.target_set_members ... FROM unnest($2)] with its trigger. *)
Definition insert_members (set_id : Uuid) (ids : list Uuid) : tx unit :=
  let! _ := statement in
  let! d := tx_get in
  let! _ := check (bool_decide (NoDup ids)
                   && forallb (fun id => negb (bool_decide ((set_id, id) ∈ target_set_members d))) ids) Conflict in
  let! _ := check (forallb (fun id => has (target_sets d) set_id && has (targets d) id) ids) InUse in
  let! _ := check (forallb (fun id => match target_sets d !! set_id, targets d !! id with
                                      | Some ts, Some t => (tsr_namespace_id ts =? t_namespace_id t)%N
                                      | _, _ => false
                                      end) ids) Internal in
  tx_modify (set_target_set_members (union (list_to_set (map (pair set_id) ids)))).

Definition create_target_set (namespace_id : Uuid) (name : ResourceName) (ids : list Uuid) (inputs : value)
  : tx TargetSetRecord :=
  let! (row, targets) := transaction (
    let! now := statement in
    let! _ := bind_texts [ResourceNameM.as_str name] in
    let! _ := bind_jsons [inputs] in
    let! d := tx_get in
    let! n := tx_lift (ok_or (namespaces d !! namespace_id) NotFound) in
    let! id := fresh_uuid in
    let row := {| tsr_namespace_id := namespace_id; tsr_name := ResourceNameM.as_str name; tsr_inputs := inputs;
                  tsr_created_at := now; tsr_updated_at := now |} in
    let! _ := check (target_set_checks row) Internal in
    let! _ := check (negb (has (target_sets d) id)
                     && negb (scoped_name_taken (target_sets d) tsr_namespace_id tsr_name id row)) Conflict in
    let! _ := tx_modify (set_target_sets (<[id := row]>)) in
    let! targets := target_rows_for_ids namespace_id ids in
    if negb (length targets =? length ids)%nat then tx_fail NotFound
    else
      let! _ := insert_members id ids in
      tx_ret (Commit (mkTargetSetJoin id row (n_name n), targets))) in
  tx_lift (target_set_from_rows row targets).

(** The members of a set, ordered by name. *)
Definition load_target_set_record (row : TargetSetJoin) : tx TargetSetRecord :=
  let! _ := statement in
  let! d := tx_get in
  tx_lift (target_set_from_rows row
    (ordered_targets d (fun id _ => bool_decide ((tsj_id row, id) ∈ target_set_members d)))).

Definition get_target_set (id : Uuid) : tx TargetSetRecord :=
  let! _ := statement in
  let! d := tx_get in
  let! row := tx_lift (ok_or (t ← target_sets d !! id; target_set_join d id t) NotFound) in
  load_target_set_record row.

Definition update_target_set (id : Uuid) (name : ResourceName) (ids : list Uuid) (inputs : value) : tx TargetSetRecord :=
  let! (row, targets) := transaction (
    let! now := statement in
    let! _ := bind_texts [ResourceNameM.as_str name] in
    let! _ := bind_jsons [inputs] in
    let! d := tx_get in
    let! ts := tx_lift (ok_or (target_sets d !! id) NotFound) in
    let row := {| tsr_namespace_id := tsr_namespace_id ts; tsr_name := ResourceNameM.as_str name;
                  tsr_inputs := inputs; tsr_created_at := tsr_created_at ts; tsr_updated_at := now |} in
    let! _ := check (target_set_checks row) Internal in
    let! _ := check (negb (scoped_name_taken (target_sets d) tsr_namespace_id tsr_name id row)) Conflict in
    let! _ := tx_modify (set_target_sets (<[id := row]>)) in
    let! row := tx_lift (ok_or (target_set_join d id row) NotFound) in
    let! targets := target_rows_for_ids (tsr_namespace_id ts) ids in
    if negb (length targets =? length ids)%nat then tx_fail NotFound
    else
      let! _ := statement in
      let! _ := tx_modify (set_target_set_members (filter (fun m : Uuid * Uuid => m.1 <> id))) in
      let! _ := insert_members id ids in
      tx_ret (Commit (row, targets))) in
  tx_lift (target_set_from_rows row targets).

(** ** Listings *)

(** [NOT restrict OR namespace_id = ANY(ids)]; [VisNone] never reaches the query. *)
Definition restricted (visibility : VisibilityScope) (namespace_id : Uuid) : bool :=
  match visibility with VisNamespaces ids => bool_decide (namespace_id ∈ ids) | _ => true end.

(** [$1::text IS NULL OR name > $1] *)
Definition past (after : option string) (name : string) : bool :=
  match after with None => true | Some a => negb (text_le name a) end.

(** [WHERE ... ORDER BY name LIMIT limit + 1] over the joined rows. *)
Definition name_page {A J} (m : gmap Uuid A) (join : Uuid -> A -> option J) (keep : Uuid -> A -> bool) (nm : A -> string)
    (limit : Z) (after : option string) : list J :=
  take (Z.to_nat limit + 1) (map snd (sort_by (fun a b : string * J => text_le a.1 b.1)
    (omap (fun kv : Uuid * A =>
       if keep kv.1 kv.2 && past after (nm kv.2) then option_map (pair (nm kv.2)) (join kv.1 kv.2) else None)
       (map_to_list m)))).

(** One query, then a page of its rows. *)
Definition list_page {R T} (rows : DB -> list R) (limit : Z) (after : option string) (mapper : R -> result T StoreError)
    (cursor : T -> string) : tx (Page T) :=
  let! _ := statement in
  let! _ := bind_texts (opt_text after) in
  let! d := tx_get in
  tx_lift (page (rows d) limit mapper cursor).

Definition list_namespaces (visibility : VisibilityScope) (limit : Z) (after : option string) : tx (Page Namespace) :=
  match visibility with
  | VisNone => tx_ret (empty_page Namespace)
  | _ => list_page (fun d => name_page (namespaces d) (fun id n => Some (id, n)) (fun id _ => restricted visibility id)
                               n_name limit after)
           limit after namespace_from_row (fun n => NamespaceNameM.as_str (ns_name n))
  end.

Definition list_queues (limit : Z) (after : option string) : tx (Page Queue) :=
  list_page (fun d => name_page (queues d) (fun id q => Some (id, q)) (fun _ _ => true) qr_name limit after)
    limit after queue_from_row (fun q => QueueNameM.as_str (q_name q)).

Definition list_jobs (namespace_id : Uuid) (visibility : VisibilityScope) (limit : Z) (after : option string)
  : tx (Page JobRecord) :=
  match visibility with
  | VisNone => tx_ret (empty_page JobRecord)
  | _ => list_page (fun d => name_page (jobs d) (job_join d)
                     (fun _ j => (j_namespace_id j =? namespace_id)%N && restricted visibility (j_namespace_id j))
                     j_name limit after)
           limit after job_from_row (fun r => ResourceNameM.as_str (job_name (jr_job r)))
  end.

Definition list_targets (namespace_id : Uuid) (visibility : VisibilityScope) (limit : Z) (after : option string)
  : tx (Page TargetRecord) :=
  match visibility with
  | VisNone => tx_ret (empty_page TargetRecord)
  | _ => list_page (fun d => name_page (targets d) (target_join d)
                     (fun _ t => (t_namespace_id t =? namespace_id)%N && restricted visibility (t_namespace_id t))
                     t_name limit after)
           limit after target_from_row (fun r => ResourceNameM.as_str (tgt_name (tr_target r)))
  end.

Definition list_schedules (namespace_id : Uuid) (visibility : VisibilityScope) (limit : Z) (after : option string)
  : tx (Page ScheduleRecord) :=
  match visibility with
  | VisNone => tx_ret (empty_page ScheduleRecord)
  | _ => list_page (fun d => name_page (schedules d) (schedule_join d)
                     (fun _ s => (s_namespace_id s =? namespace_id)%N && restricted visibility (s_namespace_id s))
                     s_name limit after)
           limit after schedule_record (fun r => ResourceNameM.as_str (sch_name (srec_schedule r)))
  end.

(** Each set of the page is loaded by a query of its own. *)
Definition list_target_sets (namespace_id : Uuid) (visibility : VisibilityScope) (limit : Z) (after : option string)
  : tx (Page TargetSetRecord) :=
  match visibility with
  | VisNone => tx_ret (empty_page TargetSetRecord)
  | _ =>
      let! _ := statement in
      let! _ := bind_texts (opt_text after) in
      let! d := tx_get in
      let rows := name_page (target_sets d) (target_set_join d)
                    (fun _ t => (tsr_namespace_id t =? namespace_id)%N && restricted visibility (tsr_namespace_id t))
                    tsr_name limit after in
      let has_more := limit <? Z.of_nat (length rows) in
      let! records := tx_collect load_target_set_record (take (Z.to_nat limit) rows) in
      tx_ret {| items := records;
                next_cursor := if has_more
                  then option_map (fun r => ResourceNameM.as_str (ts_name (tsrec_target_set r))) (last records)
                  else None |}
  end.

End WithServer.
