(* ===== verification/Queries.v ===== *)
(** * Queries on history and presence (infrastructure/postgres.rs)

    Run history, attempts and events under Namespace visibility, the presence of
    workers, the workload counts and the operator's samples.  None of them writes. *)

From S2P Require Import Prelude RustStr Json Inputs Names Float Domain Auth Workflow Db Snapshot Store WorkflowStore Catalog.
From Stdlib Require Import String.
From stdpp Require Import base numbers strings sorting gmap list.

Local Open Scope Z_scope.

(** ** Records of application/model.rs and application/store.rs *)

Record RunListFilter : Type := mkRunListFilter {
  rf_namespace_id : option Uuid;
  rf_status : option RunStatus;
  rf_job_id : option Uuid;
  rf_target_id : option Uuid;
  rf_target_set_id : option Uuid;
}.

Record RunAttemptRecord : Type := mkRunAttemptRecord {
  ra_id : Uuid;
  ra_worker_id : option string;
  ra_attempt : Z;
  ra_status : string;
  ra_started_at : option Instant;
  ra_completed_at : option Instant;
  ra_exit_code : option Z;
  ra_stdout_tail : option string;
  ra_stderr_tail : option string;
  ra_error : option string;
}.

Record RunEventRecord : Type := mkRunEventRecord { ev_event_type : string; ev_created_at : Instant }.

(** [serde_json::from_value] at the derived implementation. *)
Class DiagnosticsJson : Type := { diagnostics_from_value : value -> option WorkerDiagnostics }.

Record WorkerRecord : Type := mkWorkerRecord {
  wk_worker_id : string;
  wk_queue_id : Uuid;
  wk_queue : string;
  wk_concurrency : Z;
  wk_version : string;
  wk_started_at : Instant;
  wk_last_seen_at : Instant;
  wk_active_executions : Z;
  wk_diagnostics : option WorkerDiagnostics;
}.

Record Overview : Type := mkOverview {
  ov_namespaces : Z;
  ov_jobs : Z;
  ov_targets : Z;
  ov_target_sets : Z;
  ov_schedules : Z;
  ov_runs : Z;
}.

Record MetricsSnapshot : Type := mkMetricsSnapshot {
  ms_outbox_pending : Z;
  ms_outbox_oldest_seconds : Z;
  ms_execution_queued : Z;
  ms_execution_running : Z;
  ms_worker_active : Z;
}.

Record MonitorSnapshot : Type := mkMonitorSnapshot {
  mo_database_size_bytes : Z;
  mo_database_connections : Z;
  mo_pool_connections : Z;
  mo_pool_idle_connections : Z;
  mo_pool_max_connections : Z;
  mo_enabled_schedules : Z;
  mo_due_schedules : Z;
  mo_earliest_next_run_at : option Instant;
  mo_online_workers : Z;
  mo_metrics : MetricsSnapshot;
}.

(** ** Run history *)

Definition is_opt {A} `{EqDecision A} (filter : option A) (x : A) : bool :=
  match filter with None => true | Some y => bool_decide (x = y) end.

(** [ts.id = $8] over the outer join. *)
Definition is_set (filter : option Uuid) (set : option Uuid) : bool :=
  match filter with None => true | Some y => bool_decide (set = Some y) end.

Definition run_matches (visibility : VisibilityScope) (filter : RunListFilter) (j : RunJoin) : bool :=
  restricted visibility (jn_job_namespace_id j)
  && is_opt (rf_namespace_id filter) (jn_job_namespace_id j)
  && is_opt (rf_status filter) (r_status (jn_row j))
  && is_opt (rf_job_id filter) (r_job_id (jn_row j))
  && is_opt (rf_target_id filter) (r_target_id (jn_row j))
  && is_set (rf_target_set_id filter) (jn_target_set_id j).

(** Newest identifier first. *)
Definition run_page (d : DB) (visibility : VisibilityScope) (filter : RunListFilter) (limit : Z) (before : option Uuid)
  : list RunJoin :=
  take (Z.to_nat limit + 1) (sort_by (fun a b => (jn_id b <=? jn_id a)%N)
    (omap (fun kv : Uuid * RunRow =>
       j ← run_join d kv.1 kv.2;
       if match before with None => true | Some b => (kv.1 <? b)%N end && run_matches visibility filter j
       then Some j else None) (map_to_list (runs (core d))))).

Definition list_runs (visibility : VisibilityScope) (filter : RunListFilter) (limit : Z) (before : option Uuid)
  : tx (Page RunRecord) :=
  match visibility with
  | VisNone => tx_ret (empty_page RunRecord)
  | _ =>
      let! _ := statement in
      let! d := tx_get in
      tx_lift (page (run_page d visibility filter limit before) limit run_from_row
                 (fun r => uuid_to_string (run_id (rec_run r))))
  end.

Definition get_run (id : Uuid) (visibility : VisibilityScope) : tx RunRecord :=
  match visibility with
  | VisNone => tx_fail NotFound
  | _ =>
      let! _ := statement in
      let! d := tx_get in
      let! row := tx_lift (ok_or (
        r ← runs (core d) !! id;
        j ← run_join d id r;
        if restricted visibility (jn_job_namespace_id j) then Some j else None) NotFound) in
      tx_lift (run_from_row row)
  end.

Definition attempt_status_name (s : AttemptStatus) : string :=
  match s with
  | APendingDispatch => "pending_dispatch"
  | AQueued => "queued"
  | ARunning => "running"
  | ASucceeded => "succeeded"
  | ASkipped => "skipped"
  | AFailed => "failed"
  | ADead => "dead"
  | AUnknown => "unknown"
  end.

Definition attempt_record (kv : Uuid * AttemptRow) : result RunAttemptRecord StoreError :=
  let a := kv.2 in
  let? attempt := try_from in_u16 Internal (a_attempt a) in
  Ok {| ra_id := kv.1; ra_worker_id := a_worker_id a; ra_attempt := attempt;
        ra_status := attempt_status_name (a_status a); ra_started_at := a_started_at a;
        ra_completed_at := a_completed_at a; ra_exit_code := a_exit_code a; ra_stdout_tail := a_stdout_tail a;
        ra_stderr_tail := a_stderr_tail a; ra_error := a_error a |}.

(** Latest attempt first, at most 100. *)
Definition attempt_rows (d : DB) (id : Uuid) (visibility : VisibilityScope) : list (Uuid * AttemptRow) :=
  take 100 (sort_by (fun a b : Uuid * AttemptRow => a_attempt b.2 <=? a_attempt a.2)
    (omap (fun kv : Uuid * AttemptRow =>
       if (a_run_id kv.2 =? id)%N then
         r ← runs (core d) !! id;
         j ← jobs d !! r_job_id r;
         if restricted visibility (j_namespace_id j) then Some kv else None
       else None) (map_to_list (run_attempts (core d))))).

Definition list_run_attempts (id : Uuid) (visibility : VisibilityScope) : tx (list RunAttemptRecord) :=
  let! _ := get_run id visibility in
  let! _ := statement in
  let! d := tx_get in
  tx_lift (collect attempt_record (attempt_rows d id visibility)).

(** [ORDER BY created_at, id LIMIT 1000]; events of one instant in the order they were written. *)
Definition list_run_events (id : Uuid) (visibility : VisibilityScope) : tx (list RunEventRecord) :=
  let! _ := get_run id visibility in
  let! _ := statement in
  let! d := tx_get in
  tx_ret (map (fun e => mkRunEventRecord (re_event_type e) (re_created_at e))
    (take 1000 (sort_by (fun a b => re_created_at a <=? re_created_at b)
       (List.filter (fun e => (re_run_id e =? id)%N) (run_events d))))).

(** ** Workers *)

Record WorkerJoin : Type := mkWorkerJoin {
  wj_worker_id : string;
  wj_row : WorkerPresenceRow;
  wj_queue : string;
  wj_active_executions : Z;
}.

(** [count( * ) FILTER (WHERE ...)] *)
Definition count_rows {K A} `{Countable K} (m : gmap K A) (f : A -> bool) : Z :=
  Z.of_nat (length (List.filter (fun kv : K * A => f kv.2) (map_to_list m))).

Definition leased (now : Instant) (a : AttemptRow) : bool :=
  bool_decide (a_status a = ARunning) && opt_gt (a_lease_expires_at a) now.

Definition worker_join (d : DB) (now : Instant) (worker : string) (p : WorkerPresenceRow) : option WorkerJoin :=
  q ← queues d !! wp_queue_id p;
  Some {| wj_worker_id := worker; wj_row := p; wj_queue := qr_name q;
          wj_active_executions := count_rows (run_attempts (core d))
            (fun a => bool_decide (a_worker_id a = Some worker) && leased now a) |}.

Section WithServer.
Context {PG : PostgresServer} {DJ : DiagnosticsJson}.

Definition worker_from_row (row : WorkerJoin) : result WorkerRecord StoreError :=
  let p := wj_row row in
  let? concurrency := try_from in_u16 Internal (wp_concurrency p) in
  let? active_executions := try_from in_u64 Internal (wj_active_executions row) in
  let? diagnostics :=
    match wp_diagnostics p with
    | None => Ok None
    | Some v => let? x := ok_or (diagnostics_from_value v) Internal in Ok (Some x)
    end in
  Ok {| wk_worker_id := wj_worker_id row; wk_queue_id := wp_queue_id p; wk_queue := wj_queue row;
        wk_concurrency := concurrency; wk_version := wp_version p; wk_started_at := wp_started_at p;
        wk_last_seen_at := wp_last_seen_at p; wk_active_executions := active_executions;
        wk_diagnostics := diagnostics |}.

Definition worker_page (d : DB) (now : Instant) (limit : Z) (after : option string) : list WorkerJoin :=
  take (Z.to_nat limit + 1) (sort_by (by_name wj_worker_id)
    (omap (fun kv : string * WorkerPresenceRow => if past after kv.1 then worker_join d now kv.1 kv.2 else None)
       (map_to_list (worker_presence d)))).

Definition list_workers (limit : Z) (after : option string) : tx (Page WorkerRecord) :=
  let! now := statement in
  let! _ := bind_texts (opt_text after) in
  let! d := tx_get in
  tx_lift (page (worker_page d now limit after) limit worker_from_row wk_worker_id).

Definition get_worker (worker_id : string) : tx WorkerRecord :=
  let! now := statement in
  let! _ := bind_texts [worker_id] in
  let! d := tx_get in
  let! row := tx_lift (ok_or (p ← worker_presence d !! worker_id; worker_join d now worker_id p) NotFound) in
  tx_lift (worker_from_row row).

End WithServer.

(** ** Counts *)

Definition overview (visibility : VisibilityScope) : tx Overview :=
  match visibility with
  | VisNone => tx_ret (mkOverview 0 0 0 0 0 0)
  | _ =>
      let! _ := statement in
      let! d := tx_get in
      let seen := restricted visibility in
      let! n := tx_lift (count (Z.of_nat (length (List.filter (fun kv : Uuid * NamespaceRow => seen kv.1)
                                                   (map_to_list (namespaces d)))))) in
      let! j := tx_lift (count (count_rows (jobs d) (fun j => seen (j_namespace_id j)))) in
      let! t := tx_lift (count (count_rows (targets d) (fun t => seen (t_namespace_id t)))) in
      let! ts := tx_lift (count (count_rows (target_sets d) (fun t => seen (tsr_namespace_id t)))) in
      let! s := tx_lift (count (count_rows (schedules d) (fun s => seen (s_namespace_id s)))) in
      let! r := tx_lift (count (count_rows (runs (core d)) (fun r =>
                  match jobs d !! r_job_id r with Some j => seen (j_namespace_id j) | None => false end))) in
      tx_ret (mkOverview n j t ts s r)
  end.

(** ** The operator's samples *)

(** [extract(epoch FROM interval)::bigint]: to the nearest second, halves away from zero. *)
Definition epoch_seconds (interval : Z) : Z :=
  if 0 <=? interval then (interval + second / 2) / second else - ((- interval + second / 2) / second).

Definition min_opt (l : list Instant) : option Instant :=
  match l with [] => None | x :: l => Some (fold_left Z.min l x) end.

Definition metrics_snapshot : tx MetricsSnapshot :=
  let! now := statement in
  let! d := tx_get in
  let pending := List.filter (fun kv : Uuid * OutboxRow => outbox_pending kv.2) (map_to_list (outbox (core d))) in
  tx_ret {| ms_outbox_pending := Z.of_nat (length pending);
            ms_outbox_oldest_seconds :=
              match min_opt (map (fun kv => o_created_at kv.2) pending) with
              | Some t => epoch_seconds (now - t)
              | None => 0
              end;
            ms_execution_queued := count_rows (runs (core d)) (fun r => bool_decide (r_status r = Queued));
            ms_execution_running := count_rows (runs (core d)) (fun r => bool_decide (r_status r = Running));
            ms_worker_active := count_rows (run_attempts (core d)) (leased now) |}.

(** What the server's statistics and the connection pool report, and whether the sample
    took longer than three seconds. *)
Record Probe : Type := mkProbe {
  pb_database_size : Z;
  pb_connections : Z;
  pb_pool_size : Z;
  pb_pool_idle : Z;
  pb_pool_max : Z;
  pb_timed_out : bool;
}.

Definition next_runs (d : DB) : list Instant :=
  omap (fun kv : Uuid * ScheduleRow => if s_enabled kv.2 then s_next_run_at kv.2 else None) (map_to_list (schedules d)).

Definition monitor_snapshot (probe : Probe) : tx MonitorSnapshot :=
  if pb_timed_out probe then tx_fail Unavailable
  else
    let! metrics := metrics_snapshot in
    let! now := statement in
    let! d := tx_get in
    let! idle := tx_lift (try_from in_u32 Internal (pb_pool_idle probe)) in
    tx_ret {| mo_database_size_bytes := pb_database_size probe; mo_database_connections := pb_connections probe;
              mo_pool_connections := pb_pool_size probe;
              mo_pool_idle_connections := Z.min idle (pb_pool_size probe);
              mo_pool_max_connections := pb_pool_max probe;
              mo_enabled_schedules := Z.of_nat (length (next_runs d));
              mo_due_schedules := Z.of_nat (length (List.filter (fun t => t <=? now) (next_runs d)));
              mo_earliest_next_run_at := min_opt (next_runs d);
              mo_online_workers := count_rows (worker_presence d)
                (fun w => now - 30 * second <=? wp_last_seen_at w);
              mo_metrics := metrics |}.

(** [SELECT 1] succeeds. *)
Definition ready : tx bool := fun env s =>
  let '(res, s') := statement env s in (Ok (is_ok res), s').
