(* ===== verification/WorkflowDefinitions.v ===== *)
(** * Workflow definitions and listings (infrastructure/postgres/workflows.rs)

    Creating, replacing, reading, listing and deleting Workflow definitions, and
    the queries on invocations.  The deferred triggers of 02_workflows.sql
    repeat, at the commit, what [validate] has already checked here. *)

From S2P Require Import Prelude RustStr Json Inputs Names Float Domain Auth Workflow Db Snapshot Store WorkflowStore.
From Stdlib Require Import String.
From stdpp Require Import base numbers strings sorting gmap list relations.

Local Open Scope Z_scope.

(** ** Statements *)

(** The key of [UNIQUE (namespace_id, name)], taken by another row. *)
Definition workflow_name_taken (d : DB) (id namespace_id : Uuid) (name : string) : bool :=
  existsb (fun kv : Uuid * WorkflowRow => negb (kv.1 =? id)%N && (w_namespace_id kv.2 =? namespace_id)%N
                                          && (w_name kv.2 =? name)%string)
    (map_to_list (wt_workflows (workflow_tables d))).

(** [UPDATE crono.workflows ... WHERE id = $1 AND namespace_id = $5 AND revision = $2] *)
Definition update_workflow (id namespace_id : Uuid) (revision : Z) (definition : WorkflowDefinition) : tx unit :=
  let! revision := tx_lift (try_from in_i64 StaleRevision revision) in
  let name := ResourceNameM.as_str (wd_name definition) in
  let! now := statement in
  let! _ := bind_texts (name :: opt_text (wd_description definition)) in
  let! d := tx_get in
  match wt_workflows (workflow_tables d) !! id with
  | Some w =>
      if (w_namespace_id w =? namespace_id)%N && (w_revision w =? revision) then
        let! _ := check (w_revision w + 1 <=? i64_max) Internal in
        let! _ := check (negb (workflow_name_taken d id namespace_id name)) Conflict in
        tx_modify (set_workflows (<[id :=
          {| w_namespace_id := w_namespace_id w; w_name := name; w_description := wd_description definition;
             w_revision := w_revision w + 1; w_created_at := w_created_at w; w_updated_at := now |}]>))
      else tx_fail StaleRevision
  | None => tx_fail StaleRevision
  end.

(** [DELETE FROM crono.workflow_nodes WHERE workflow_id = $1]; the edges cascade. *)
Definition without_graph (id : Uuid) (d : DB) : DB :=
  set_workflow_edges (filter (fun kv => kv.1.1.1 <> id))
    (set_workflow_nodes (filter (fun kv => wnr_workflow_id kv.2 <> id)) d).

Definition delete_workflow_nodes (id : Uuid) : tx unit :=
  let! _ := statement in
  tx_modify (without_graph id).

(** [INSERT INTO crono.workflows]; the identifier is the column's default. *)
Definition insert_workflow (namespace_id : Uuid) (definition : WorkflowDefinition) : tx Uuid :=
  let name := ResourceNameM.as_str (wd_name definition) in
  let! now := statement in
  let! _ := bind_texts (name :: opt_text (wd_description definition)) in
  let! d := tx_get in
  let! id := fresh_uuid in
  let! _ := check (negb (has (wt_workflows (workflow_tables d)) id)
                   && negb (workflow_name_taken d id namespace_id name)) Conflict in
  let! _ := check (has (namespaces d) namespace_id) InUse in
  let! _ := tx_modify (set_workflows (<[id :=
    {| w_namespace_id := namespace_id; w_name := name; w_description := wd_description definition;
       w_revision := 1; w_created_at := now; w_updated_at := now |}]>)) in
  tx_ret id.

(** [INSERT INTO crono.workflow_nodes] *)
Definition insert_workflow_node (id : Uuid) (node : WorkflowNode) : tx Uuid :=
  let name := ResourceNameM.as_str (wn_name node) in
  let! _ := statement in
  let! d := tx_get in
  let! node_id := fresh_uuid in
  let! _ := check (negb (has (wt_nodes (workflow_tables d)) node_id)
                   && negb (existsb (fun kv : Uuid * WorkflowNodeRow => (wnr_workflow_id kv.2 =? id)%N
                                       && (wnr_name kv.2 =? name)%string)
                              (map_to_list (wt_nodes (workflow_tables d))))) Conflict in
  let! _ := check (has (wt_workflows (workflow_tables d)) id && has (jobs d) (wn_job_id node)) InUse in
  let! _ := tx_modify (set_workflow_nodes (<[node_id := mkWorkflowNodeRow id name (wn_job_id node)]>)) in
  tx_ret node_id.

(** The foreign key on a Workflow and its node. *)
Definition catalog_node_belongs (d : DB) (id node : Uuid) : bool :=
  match wt_nodes (workflow_tables d) !! node with Some n => (wnr_workflow_id n =? id)%N | None => false end.

(** [INSERT INTO crono.workflow_edges] *)
Definition insert_workflow_edge (id from to : Uuid) (c : DependencyCondition) : tx unit :=
  let! _ := statement in
  let! d := tx_get in
  let! _ := check (negb (from =? to)%N) Internal in
  let! _ := check (negb (has (wt_edges (workflow_tables d)) (id, from, to))) Conflict in
  let! _ := check (has (wt_workflows (workflow_tables d)) id && catalog_node_belongs d id from
                   && catalog_node_belongs d id to) InUse in
  tx_modify (set_workflow_edges (<[(id, from, to) := c]>)).

(** ** Writing a definition *)

Fixpoint write_nodes (id namespace_id : Uuid) (nodes : list WorkflowNode) (ids : gmap string Uuid)
  : tx (gmap string Uuid) :=
  match nodes with
  | [] => tx_ret ids
  | node :: nodes =>
      let! _ := statement in
      let! d := tx_get in
      let! job_namespace := tx_lift (ok_or (option_map j_namespace_id (jobs d !! wn_job_id node)) NotFound) in
      if negb (job_namespace =? namespace_id)%N then tx_fail InvalidData
      else
        let! node_id := insert_workflow_node id node in
        write_nodes id namespace_id nodes (<[ResourceNameM.as_str (wn_name node) := node_id]> ids)
  end.

Definition write_edge (id : Uuid) (ids : gmap string Uuid) (edge : WorkflowEdge) : tx unit :=
  let! from := tx_lift (ok_or (ids !! ResourceNameM.as_str (we_from edge)) InvalidData) in
  let! to := tx_lift (ok_or (ids !! ResourceNameM.as_str (we_to edge)) InvalidData) in
  insert_workflow_edge id from to (we_condition edge).

(** The Workflow's row: replaced at the expected revision, or new. *)
Definition write_row (namespace_id : Uuid) (existing : option (Uuid * Z)) (definition : WorkflowDefinition) : tx Uuid :=
  match existing with
  | Some (id, revision) =>
      let! _ := update_workflow id namespace_id revision definition in
      let! _ := delete_workflow_nodes id in
      tx_ret id
  | None => insert_workflow namespace_id definition
  end.

Section Catalog.
Context {PG : PostgresServer}.

Definition write (namespace_id : Uuid) (existing : option (Uuid * Z)) (definition : WorkflowDefinition)
  : tx WorkflowRecord :=
  let! _ := tx_lift (map_err (fun _ => InvalidData) (validate definition)) in
  transaction (
    let! id := write_row namespace_id existing definition in
    let! ids := write_nodes id namespace_id (wd_nodes definition) ∅ in
    let! _ := tx_for (wd_edges definition) (write_edge id ids) in
    let! stored := WorkflowStore.catalog id in
    let! r := tx_lift (record stored) in
    tx_ret (Commit r)).

(** ** Deleting a definition *)

Definition delete_workflow (id : Uuid) : tx unit :=
  let! _ := statement in
  let! d := tx_get in
  if has (wt_workflows (workflow_tables d)) id then
    let! _ := check (negb (existsb (fun kv : Uuid * InvocationRow => (wr_workflow_id kv.2 =? id)%N)
                       (map_to_list (workflow_runs d)))) InUse in
    tx_modify (fun d => set_workflows (delete id) (without_graph id d))
  else tx_fail NotFound.

(** ** Listings *)

(** [if more { ids.pop() }] on [limit + 1] rows, and the cursor of the last row kept. *)
Definition cut_page {A} (rows : list A) (limit : Z) (cursor : A -> string) : list A * option string :=
  let more := limit <? Z.of_nat (length rows) in
  let rows := if more then removelast rows else rows in
  (rows, if more then option_map cursor (last rows) else None).

(** [WHERE namespace_id = $1 AND ($2::text IS NULL OR name > $2) ORDER BY name LIMIT $3] *)
Definition workflow_page (d : DB) (namespace_id : Uuid) (limit : Z) (after : option string) : list (Uuid * string) :=
  take (Z.to_nat limit + 1) (sort_by (fun a b : Uuid * string => text_le a.2 b.2)
    (omap (fun kv : Uuid * WorkflowRow =>
       if (w_namespace_id kv.2 =? namespace_id)%N
          && match after with None => true | Some a => negb (text_le (w_name kv.2) a) end
       then Some (kv.1, w_name kv.2) else None)
       (map_to_list (wt_workflows (workflow_tables d))))).

Definition read_workflow (id : Uuid) : tx WorkflowRecord :=
  let! stored := WorkflowStore.catalog id in tx_lift (record stored).

Definition list_workflows (namespace_id : Uuid) (visibility : VisibilityScope) (limit : Z) (after : option string)
  : tx (Page WorkflowRecord) :=
  if negb (visible visibility namespace_id) then tx_ret (empty_page WorkflowRecord)
  else transaction (
    let! _ := statement in
    let! _ := bind_texts (opt_text after) in
    let! d := tx_get in
    let '(ids, cursor) := cut_page (workflow_page d namespace_id limit after) limit snd in
    let! items := tx_collect (fun kv : Uuid * string => read_workflow kv.1) ids in
    tx_ret (Commit (mkPage items cursor))).

End Catalog.

(** ** Queries on invocations *)

Section Invocations.
Context {PG : PostgresServer}.

Definition get_run (id : Uuid) (visibility : VisibilityScope) : tx WorkflowRunRecord :=
  transaction (let! r := invocation id visibility in tx_ret (Commit r)).

Definition for_request (request_id : Uuid) (inputs : value) : tx (option WorkflowRunRecord) :=
  let! _ := statement in
  let! d := tx_get in
  match invocation_for_request d request_id with
  | Some id =>
      let! r := get_run id VisAll in
      let! same := json_inputs_equal (wrr_inputs r) inputs in
      if same then tx_ret (Some r) else tx_fail IdempotencyConflict
  | None => tx_ret None
  end.

(** [SELECT DISTINCT e.target_id ... WHERE n.workflow_run_id = $1 ORDER BY e.target_id] *)
Definition invocation_targets (d : DB) (id : Uuid) : list Uuid :=
  sort_by N.leb (remove_dups (omap (fun kv : (Uuid * Uuid) * NodeExecutionRow =>
    n ← workflow_node_runs d !! kv.1.1; if (nr_workflow_run_id n =? id)%N then Some kv.1.2 else None)
    (map_to_list (workflow_node_executions d)))).

Definition run_targets (id : Uuid) : tx (list Uuid) :=
  let! _ := statement in
  let! d := tx_get in
  tx_ret (invocation_targets d id).

(** [NOT restrict OR namespace_id = ANY(namespaces)] *)
Definition invocation_visible (visibility : VisibilityScope) (w : InvocationRow) : bool :=
  match visibility with
  | VisAll => true
  | VisNamespaces ids => bool_decide (wr_namespace_id w ∈ ids)
  | VisNone => false
  end.

Definition invocation_page (d : DB) (workflow : Uuid) (visibility : VisibilityScope) (limit : Z) (before : option Uuid)
  : list Uuid :=
  take (Z.to_nat limit + 1) (sort_by (fun a b => (b <=? a)%N)
    (omap (fun kv : Uuid * InvocationRow =>
       if (wr_workflow_id kv.2 =? workflow)%N
          && match before with None => true | Some b => (kv.1 <? b)%N end && invocation_visible visibility kv.2
       then Some kv.1 else None) (map_to_list (workflow_runs d)))).

Definition list_runs (workflow : Uuid) (visibility : VisibilityScope) (limit : Z) (before : option Uuid)
  : tx (Page WorkflowRunRecord) :=
  transaction (
    let! _ := statement in
    let! d := tx_get in
    let '(ids, cursor) := cut_page (invocation_page d workflow visibility limit before) limit uuid_to_string in
    let! items := tx_collect (fun id => invocation id visibility) ids in
    tx_ret (Commit (mkPage items cursor))).

End Invocations.
