(* ===== verification/Lifecycle.v ===== *)
(** * The life cycle of Runs, attempts and dispatches

    The abstract specification of the execution store: a step relation over
    the tables [runs], [run_attempts] and [outbox], and the invariant that ties
    a Run to its attempts and each attempt to its dispatch.  Store.v's operations
    refine these steps (file Refinement). *)

From S2P Require Import Prelude RustStr Json Inputs Names Domain Db Snapshot Store.
From Stdlib Require Import String.
From stdpp Require Import base numbers strings sorting gmap list relations.

Local Open Scope Z_scope.

(** ** Columns that never change *)

Definition run_frame (r r' : RunRow) : Prop :=
  r_request_id r' = r_request_id r /\ r_rerun_of_run_id r' = r_rerun_of_run_id r
  /\ r_schedule_id r' = r_schedule_id r /\ r_job_id r' = r_job_id r
  /\ r_target_id r' = r_target_id r /\ r_queue_id r' = r_queue_id r
  /\ r_scheduled_at r' = r_scheduled_at r /\ r_execution_snapshot r' = r_execution_snapshot r
  /\ r_max_attempts r' = r_max_attempts r /\ r_lateness_seconds r' = r_lateness_seconds r
  /\ r_created_at r' = r_created_at r.

Definition attempt_frame (a a' : AttemptRow) : Prop :=
  a_run_id a' = a_run_id a /\ a_attempt a' = a_attempt a /\ a_created_at a' = a_created_at a.

Definition outbox_frame (o o' : OutboxRow) : Prop :=
  o_run_id o' = o_run_id o /\ o_attempt_id o' = o_attempt_id o /\ o_subject o' = o_subject o
  /\ o_payload o' = o_payload o /\ o_dispatch_deadline o' = o_dispatch_deadline o
  /\ o_created_at o' = o_created_at o.

(** ** The states of a dispatch and of an attempt *)

Definition undispatched (o : OutboxRow) : Prop := o_published_at o = None /\ o_cancelled_at o = None.

Definition dispatched (o : OutboxRow) : Prop :=
  is_Some (o_published_at o) /\ o_cancelled_at o = None /\ o_claimed_by o = None.

Definition dispatch_cancelled (o : OutboxRow) : Prop :=
  o_published_at o = None /\ is_Some (o_cancelled_at o) /\ o_claimed_by o = None.

Definition leased (a : AttemptRow) : Prop :=
  a_status a = ARunning /\ is_Some (a_worker_id a) /\ is_Some (a_lease_expires_at a).

Definition unleased (a : AttemptRow) (s : AttemptStatus) : Prop :=
  a_status a = s /\ a_lease_expires_at a = None.

Definition idempotent (r : RunRow) : Prop := snapshot_idempotent (r_execution_snapshot r) = true.

(** A Run, its latest attempt and that attempt's dispatch agree. *)
Definition coupled (r : RunRow) (a : AttemptRow) (o : OutboxRow) : Prop :=
  match r_status r with
  | PendingDispatch => unleased a APendingDispatch /\ undispatched o
  | Queued => unleased a AQueued /\ dispatched o
  | Running => leased a /\ dispatched o
  | RetryWait =>
      unleased a AFailed /\ dispatched o /\ idempotent r /\ r_attempt_count r < r_max_attempts r
  | Succeeded => unleased a ASucceeded /\ dispatched o
  | Failed => unleased a AFailed /\ dispatched o
  | Skipped =>
      (unleased a ASkipped /\ dispatched o) \/ (unleased a ADead /\ dispatch_cancelled o)
  | Unknown => unleased a AUnknown /\ dispatched o
  | Dead | Cancelled => False
  end.

(** What a Run row satisfies by itself. *)
Definition run_ok (r : RunRow) : Prop :=
  0 <= r_attempt_count r <= r_max_attempts r /\ 1 <= r_max_attempts r <= 100
  /\ (r_attempt_count r = 0 -> r_status r = Skipped \/ r_status r = Failed)
  /\ (r_attempt_count r <> 0 -> has_executor (r_execution_snapshot r) = true)
  /\ (2 <= r_attempt_count r -> idempotent r)
  /\ (is_Some (r_completed_at r) <-> is_terminal (r_status r) = true).

(** ** The invariant *)

(** Identities: every attempt belongs to its Run, the attempts of a Run are
    numbered 1 to [attempt_count], and attempts and dispatches correspond. *)
Record core_shape (c : CoreTables) : Prop := {
  inv_run : forall id r, runs c !! id = Some r -> run_ok r;
  inv_attempt_run : forall aid a, run_attempts c !! aid = Some a ->
    exists r, runs c !! a_run_id a = Some r /\ 1 <= a_attempt a <= r_attempt_count r;
  inv_attempt_unique : forall aid1 aid2 a1 a2,
    run_attempts c !! aid1 = Some a1 -> run_attempts c !! aid2 = Some a2 ->
    a_run_id a1 = a_run_id a2 -> a_attempt a1 = a_attempt a2 -> aid1 = aid2;
  inv_attempt_gapless : forall id r k, runs c !! id = Some r -> 1 <= k <= r_attempt_count r ->
    exists aid a, run_attempts c !! aid = Some a /\ a_run_id a = id /\ a_attempt a = k;
  inv_dispatch_attempt : forall oid o, outbox c !! oid = Some o ->
    exists a, run_attempts c !! o_attempt_id o = Some a /\ a_run_id a = o_run_id o;
  inv_dispatch_unique : forall oid1 oid2 o1 o2,
    outbox c !! oid1 = Some o1 -> outbox c !! oid2 = Some o2 ->
    o_attempt_id o1 = o_attempt_id o2 -> oid1 = oid2;
  inv_attempt_dispatch : forall aid a, run_attempts c !! aid = Some a ->
    exists oid o, outbox c !! oid = Some o /\ o_attempt_id o = aid;
  inv_occurrence : forall id1 id2 r1 r2, runs c !! id1 = Some r1 -> runs c !! id2 = Some r2 ->
    same_occurrence r1 r2 = true -> id1 = id2;
}.

(** The latest attempt agrees with its Run; earlier ones failed and were dispatched. *)
Definition core_coupling (c : CoreTables) : Prop :=
  forall id r aid a oid o,
    runs c !! id = Some r -> run_attempts c !! aid = Some a -> outbox c !! oid = Some o ->
    a_run_id a = id -> o_attempt_id o = aid ->
    (a_attempt a = r_attempt_count r -> coupled r a o)
    /\ (a_attempt a < r_attempt_count r -> unleased a AFailed /\ dispatched o).

Definition core_inv (c : CoreTables) : Prop := core_shape c /\ core_coupling c.

(** No Run has the occurrence key of a row. *)
Definition occurrence_free (c : CoreTables) (r : RunRow) : Prop :=
  forall id' r', runs c !! id' = Some r' -> same_occurrence r r' = false.

(** ** Steps of one Run *)

(** What may happen to a Run, its latest attempt and its dispatch. *)
Inductive local_step : RunRow * AttemptRow * OutboxRow -> RunRow * AttemptRow * OutboxRow -> Prop :=
| LSDispatchMeta r a o o' :
    undispatched o -> undispatched o' -> outbox_frame o o' ->
    local_step (r, a, o) (r, a, o')
| LSPublish r a o r' a' o' :
    r_status r = PendingDispatch -> r_status r' = Queued ->
    r_attempt_count r' = r_attempt_count r -> r_completed_at r' = r_completed_at r ->
    a_status a = APendingDispatch -> unleased a' AQueued -> dispatched o' ->
    run_frame r r' -> attempt_frame a a' -> outbox_frame o o' ->
    local_step (r, a, o) (r', a', o')
| LSClaim r a o r' a' :
    r_status r = Queued -> r_status r' = Running ->
    r_attempt_count r' = r_attempt_count r -> r_completed_at r' = r_completed_at r ->
    a_status a = AQueued -> leased a' -> run_frame r r' -> attempt_frame a a' ->
    local_step (r, a, o) (r', a', o)
| LSWorkerReport r a o a' :
    a_status a = ARunning -> leased a' -> a_worker_id a' = a_worker_id a -> attempt_frame a a' ->
    local_step (r, a, o) (r, a', o)
| LSComplete r a o r' a' :
    r_status r = Running -> a_status a = ARunning ->
    (r_status r', a_status a')
      ∈ [(Succeeded, ASucceeded); (Skipped, ASkipped); (Failed, AFailed); (RetryWait, AFailed)] ->
    (r_status r' = RetryWait -> idempotent r /\ r_attempt_count r < r_max_attempts r) ->
    r_attempt_count r' = r_attempt_count r ->
    (is_Some (r_completed_at r') <-> r_status r' <> RetryWait) ->
    a_lease_expires_at a' = None -> run_frame r r' -> attempt_frame a a' ->
    local_step (r, a, o) (r', a', o)
| LSExpireDispatch r a o r' a' o' :
    r_status r = PendingDispatch -> r_status r' = Skipped ->
    r_attempt_count r' = r_attempt_count r -> is_Some (r_completed_at r') ->
    a_status a = APendingDispatch -> unleased a' ADead -> dispatch_cancelled o' ->
    run_frame r r' -> attempt_frame a a' -> outbox_frame o o' ->
    local_step (r, a, o) (r', a', o')
| LSLoseLease r a o r' a' :
    r_status r = Running -> r_status r' = Unknown -> a_status a = ARunning ->
    ~ (idempotent r /\ r_attempt_count r < r_max_attempts r) ->
    r_attempt_count r' = r_attempt_count r -> is_Some (r_completed_at r') ->
    unleased a' AUnknown -> run_frame r r' -> attempt_frame a a' ->
    local_step (r, a, o) (r', a', o).

(** The latest attempt of a Run and its dispatch. *)
Definition latest (c : CoreTables) (id : Uuid) (r : RunRow) (aid : Uuid) (a : AttemptRow)
    (oid : Uuid) (o : OutboxRow) : Prop :=
  runs c !! id = Some r /\ run_attempts c !! aid = Some a /\ outbox c !! oid = Some o
  /\ a_run_id a = id /\ a_attempt a = r_attempt_count r /\ o_attempt_id o = aid.

Definition put (c : CoreTables) (id : Uuid) (r : RunRow) (aid : Uuid) (a : AttemptRow)
    (oid : Uuid) (o : OutboxRow) : CoreTables :=
  mkCoreTables (<[id := r]> (runs c)) (<[aid := a]> (run_attempts c)) (<[oid := o]> (outbox c)).

(** A first dispatch, as [create_attempt_and_outbox] inserts it. *)
Definition fresh_dispatch (c : CoreTables) (id : Uuid) (k : Z) (aid : Uuid) (a : AttemptRow)
    (oid : Uuid) (o : OutboxRow) : Prop :=
  run_attempts c !! aid = None /\ outbox c !! oid = None
  /\ a_run_id a = id /\ a_attempt a = k /\ unleased a APendingDispatch
  /\ o_run_id o = id /\ o_attempt_id o = aid /\ undispatched o.

Inductive core_step : CoreTables -> CoreTables -> Prop :=
| CSLocal c id r aid a oid o r' a' o' :
    latest c id r aid a oid o -> local_step (r, a, o) (r', a', o') ->
    core_step c (put c id r' aid a' oid o')
| CSNewRun c id r aid a oid o :
    runs c !! id = None -> r_status r = PendingDispatch -> r_attempt_count r = 1 ->
    1 <= r_max_attempts r <= 100 -> has_executor (r_execution_snapshot r) = true ->
    r_completed_at r = None -> occurrence_free c r ->
    fresh_dispatch c id 1 aid a oid o ->
    core_step c (put c id r aid a oid o)
| CSNewTerminal c id r :
    runs c !! id = None -> r_status r = Skipped \/ r_status r = Failed -> r_attempt_count r = 0 ->
    1 <= r_max_attempts r <= 100 -> is_Some (r_completed_at r) -> occurrence_free c r ->
    core_step c (mkCoreTables (<[id := r]> (runs c)) (run_attempts c) (outbox c))
| CSRetry c id r r' aid a oid o :
    runs c !! id = Some r -> r_status r = RetryWait -> r_status r' = PendingDispatch ->
    r_attempt_count r' = r_attempt_count r + 1 -> r_completed_at r' = None -> run_frame r r' ->
    fresh_dispatch c id (r_attempt_count r + 1) aid a oid o ->
    core_step c (put c id r' aid a oid o)
| CSLeaseRetry c id r r' aid0 a0 a0' oid0 o0 aid a oid o :
    latest c id r aid0 a0 oid0 o0 -> r_status r = Running -> a_status a0 = ARunning ->
    idempotent r -> r_attempt_count r < r_max_attempts r ->
    unleased a0' AFailed -> attempt_frame a0 a0' ->
    r_status r' = PendingDispatch -> r_attempt_count r' = r_attempt_count r + 1 ->
    r_completed_at r' = None -> run_frame r r' ->
    fresh_dispatch c id (r_attempt_count r + 1) aid a oid o ->
    core_step c (put (mkCoreTables (runs c) (<[aid0 := a0']> (run_attempts c)) (outbox c))
                   id r' aid a oid o).

(** ** Preservation *)

Lemma run_frame_refl r : run_frame r r.
Proof. by repeat split. Qed.
Lemma attempt_frame_refl a : attempt_frame a a.
Proof. by repeat split. Qed.
Lemma outbox_frame_refl o : outbox_frame o o.
Proof. by repeat split. Qed.
#[export] Hint Resolve run_frame_refl attempt_frame_refl outbox_frame_refl : crono.

Lemma run_frame_idempotent r r' : run_frame r r' -> idempotent r <-> idempotent r'.
Proof. intros (_ & _ & _ & _ & _ & _ & _ & H & _). unfold idempotent. by rewrite H. Qed.

Lemma run_frame_max r r' : run_frame r r' -> r_max_attempts r' = r_max_attempts r.
Proof. by intros (_ & _ & _ & _ & _ & _ & _ & _ & H & _). Qed.

Lemma run_frame_executor r r' :
  run_frame r r' -> has_executor (r_execution_snapshot r') = has_executor (r_execution_snapshot r).
Proof. intros (_ & _ & _ & _ & _ & _ & _ & H & _). by rewrite H. Qed.

Lemma run_frame_occurrence r r' x : run_frame r r' -> same_occurrence r' x = same_occurrence r x.
Proof. intros (_ & _ & H1 & _ & H2 & _ & H3 & _). unfold same_occurrence. by rewrite H1, H2, H3. Qed.

Lemma same_occurrence_sym a b : same_occurrence a b = same_occurrence b a.
Proof.
  unfold same_occurrence. destruct (r_schedule_id a), (r_schedule_id b); try done.
  by rewrite (N.eqb_sym n), (Z.eqb_sym (r_scheduled_at a)), (N.eqb_sym (r_target_id a)).
Qed.

(** Replacing a row by one with its key, or adding one with a free key. *)
Lemma occurrence_insert c id r' :
  (forall id1 id2 r1 r2, runs c !! id1 = Some r1 -> runs c !! id2 = Some r2 ->
     same_occurrence r1 r2 = true -> id1 = id2) ->
  match runs c !! id with Some r => run_frame r r' | None => occurrence_free c r' end ->
  forall id1 id2 r1 r2, <[id := r']> (runs c) !! id1 = Some r1 -> <[id := r']> (runs c) !! id2 = Some r2 ->
    same_occurrence r1 r2 = true -> id1 = id2.
Proof.
  intros Hu Hcase id1 id2 r1 r2 [[<- <-]|[? L1]]%lookup_insert_Some
    [[<- <-]|[? L2]]%lookup_insert_Some Hs; [done|..|eauto].
  - destruct (runs c !! id) as [r|] eqn:Hr.
    + rewrite (run_frame_occurrence _ _ _ Hcase) in Hs. eauto.
    + specialize (Hcase _ _ L2). congruence.
  - rewrite same_occurrence_sym in Hs. destruct (runs c !! id) as [r|] eqn:Hr.
    + rewrite (run_frame_occurrence _ _ _ Hcase) in Hs. symmetry. eauto.
    + specialize (Hcase _ _ L1). congruence.
Qed.

(** A Run with at least one attempt stays well formed when only its progress changes. *)
Lemma run_ok_progress r r' :
  run_ok r -> run_frame r r' -> r_attempt_count r' = r_attempt_count r -> r_attempt_count r <> 0 ->
  (is_Some (r_completed_at r') <-> is_terminal (r_status r') = true) -> run_ok r'.
Proof.
  intros (Hc & Hm & H0 & Hs & Hi & _) Hf Hcnt Hne Hcomp. unfold run_ok.
  rewrite Hcnt, (run_frame_max _ _ Hf), (run_frame_executor _ _ Hf), <- (run_frame_idempotent _ _ Hf).
  repeat split; try tauto; try lia.
Qed.

Ltac done_step :=
  repeat match goal with
  | H : r_status ?r = _ |- context [r_status ?r] => rewrite H
  | H : _ /\ _ |- _ => destruct H
  end.

Lemma local_step_frames r a o r' a' o' :
  local_step (r, a, o) (r', a', o') ->
  run_frame r r' /\ attempt_frame a a' /\ outbox_frame o o' /\ r_attempt_count r' = r_attempt_count r.
Proof. inversion 1; subst; auto with crono. Qed.

Lemma status_of_pending r a o : coupled r a o -> a_status a = APendingDispatch -> r_status r = PendingDispatch.
Proof.
  unfold coupled, unleased, leased.
  destruct (r_status r); intros; destruct_and?; destruct_or?; destruct_and?; congruence.
Qed.

Lemma status_of_running r a o : coupled r a o -> a_status a = ARunning -> r_status r = Running.
Proof.
  unfold coupled, unleased, leased.
  destruct (r_status r); intros; destruct_and?; destruct_or?; destruct_and?; congruence.
Qed.

Lemma status_of_undispatched r a o : coupled r a o -> undispatched o -> r_status r = PendingDispatch.
Proof.
  unfold coupled, undispatched, dispatched, dispatch_cancelled.
  destruct (r_status r); intros H [Hp Hc]; try done;
    destruct_and?; destruct_or?; destruct_and?; rewrite ?Hp, ?Hc in *;
    by match goal with H : is_Some None |- _ => destruct H end.
Qed.

Lemma coupled_complete r a o r' a' :
  coupled r a o -> r_status r = Running ->
  (r_status r', a_status a')
    ∈ [(Succeeded, ASucceeded); (Skipped, ASkipped); (Failed, AFailed); (RetryWait, AFailed)] ->
  (r_status r' = RetryWait -> idempotent r /\ r_attempt_count r < r_max_attempts r) ->
  r_attempt_count r' = r_attempt_count r -> a_lease_expires_at a' = None -> run_frame r r' ->
  coupled r' a' o.
Proof.
  unfold coupled. intros Hc Hr Hin Hretry Hcnt Hl Hf. rewrite Hr in Hc. destruct Hc as [_ Ho].
  rewrite !elem_of_cons, elem_of_nil in Hin. unfold unleased.
  destruct Hin as [[= H1 H2]|[[= H1 H2]|[[= H1 H2]|[[= H1 H2]|[]]]]]; rewrite H1; auto.
  rewrite <- (run_frame_idempotent _ _ Hf), Hcnt, (run_frame_max _ _ Hf). naive_solver.
Qed.

Lemma coupled_local r a o r' a' o' :
  coupled r a o -> local_step (r, a, o) (r', a', o') -> coupled r' a' o'.
Proof.
  intros Hc. inversion 1; subst.
  - pose proof (status_of_undispatched _ _ _ Hc ltac:(done)) as Hr.
    unfold coupled in *. rewrite Hr in *. naive_solver.
  - unfold coupled. by match goal with H : r_status r' = _ |- _ => rewrite H end.
  - unfold coupled in *. match goal with H : r_status r = _ |- _ => rewrite H in Hc end.
    match goal with H : r_status r' = _ |- _ => rewrite H end. naive_solver.
  - pose proof (status_of_running _ _ _ Hc ltac:(done)) as Hr.
    unfold coupled in *. rewrite Hr in *. naive_solver.
  - by eapply coupled_complete.
  - unfold coupled. match goal with H : r_status r' = _ |- _ => rewrite H end. auto.
  - unfold coupled in *. match goal with H : r_status r = _ |- _ => rewrite H in Hc end.
    match goal with H : r_status r' = _ |- _ => rewrite H end. naive_solver.
Qed.

Lemma run_ok_local r a o r' a' o' :
  run_ok r -> r_attempt_count r <> 0 -> local_step (r, a, o) (r', a', o') -> run_ok r'.
Proof.
  intros Hok Hne Hs. pose proof (local_step_frames _ _ _ _ _ _ Hs) as (Hf & _ & _ & Hcnt).
  pose proof Hok as (_ & _ & _ & _ & _ & Hcomp).
  inversion Hs as [|? ? ? ? ? ? Hr Hr' _ Hcp|? ? ? ? ? Hr Hr' _ Hcp| |? ? ? ? ? Hr _ Hin _ _ Hcp
    |? ? ? ? ? ? Hr Hr' _ Hcp|? ? ? ? ? Hr Hr' _ _ _ Hcp]; subst; try done;
    (eapply run_ok_progress; [done..|]).
  - by rewrite Hcp, Hcomp, Hr, Hr'.
  - by rewrite Hcp, Hcomp, Hr, Hr'.
  - rewrite Hcp. rewrite !elem_of_cons, elem_of_nil in Hin.
    destruct Hin as [[= E1 E2]|[[= E1 E2]|[[= E1 E2]|[[= E1 E2]|[]]]]]; by rewrite E1.
  - by rewrite Hr'.
  - by rewrite Hr'.
Qed.

(** Writing a Run, its latest attempt and its dispatch back. *)
Section PutLatest.
Context (c : CoreTables) (id : Uuid) (r : RunRow) (aid : Uuid) (a : AttemptRow) (oid : Uuid)
  (o : OutboxRow) (r' : RunRow) (a' : AttemptRow) (o' : OutboxRow).
Hypothesis Hlatest : latest c id r aid a oid o.
Hypothesis Hrf : run_frame r r'.
Hypothesis Haf : attempt_frame a a'.
Hypothesis Hof : outbox_frame o o'.
Hypothesis Hcnt : r_attempt_count r' = r_attempt_count r.

Lemma shape_put_latest : core_shape c -> run_ok r' -> core_shape (put c id r' aid a' oid o').
Proof.
  destruct Hlatest as (Hr & Ha & Ho & Hid & Hlat & Hoa), Haf as (Hf1 & Hf2 & _), Hof as (Hg1 & Hg2 & _).
  intros [I1 I2 I3 I4 I5 I6 I7 I8] Hok. constructor; simpl.
  - intros i r0 [[<- <-]|[? ?]]%lookup_insert_Some; eauto.
  - intros i a0 [[<- <-]|[? L]]%lookup_insert_Some.
    + rewrite Hf1, Hid, lookup_insert_eq. exists r'. split; [done|].
      rewrite Hf2, Hcnt. destruct (I2 _ _ Ha) as (r1 & Hr1 & ?).
      by replace r with r1 by congruence.
    + destruct (I2 _ _ L) as (r1 & Hr1 & ?). destruct (decide (a_run_id a0 = id)) as [Hi|].
      * rewrite Hi, lookup_insert_eq. exists r'. rewrite Hcnt. by replace r with r1 by congruence.
      * rewrite lookup_insert_ne by done. eauto.
  - intros i1 i2 a1 a2 [[<- <-]|[? L1]]%lookup_insert_Some [[<- <-]|[? L2]]%lookup_insert_Some;
      rewrite ?Hf1, ?Hf2; eauto.
  - intros i r0 k Lr Hk.
    assert (exists r1, runs c !! i = Some r1 /\ r_attempt_count r1 = r_attempt_count r0) as (r1 & Hr1 & Hc1)
      by (apply lookup_insert_Some in Lr as [[<- <-]|[_ ?]]; eauto).
    rewrite <- Hc1 in Hk. destruct (I4 _ _ _ Hr1 Hk) as (aid1 & a1 & Ha1 & ? & ?).
    destruct (decide (aid1 = aid)) as [->|].
    + exists aid, a'. rewrite lookup_insert_eq, Hf1, Hf2. by replace a with a1 by congruence.
    + exists aid1, a1. by rewrite lookup_insert_ne.
  - intros i o0 [[<- <-]|[? L]]%lookup_insert_Some.
    + rewrite Hg1, Hg2, Hoa, lookup_insert_eq. exists a'. split; [done|].
      destruct (I5 _ _ Ho) as (a1 & Ha1 & ?). congruence.
    + destruct (I5 _ _ L) as (a1 & Ha1 & ?). destruct (decide (o_attempt_id o0 = aid)) as [Hi|].
      * rewrite Hi, lookup_insert_eq. exists a'. split; [done|congruence].
      * rewrite lookup_insert_ne by done. eauto.
  - intros i1 i2 o1 o2 [[<- <-]|[? L1]]%lookup_insert_Some [[<- <-]|[? L2]]%lookup_insert_Some;
      rewrite ?Hg2; eauto.
  - intros i a0 Hi.
    assert (is_Some (run_attempts c !! i)) as [a1 Ha1]
      by (apply lookup_insert_Some in Hi as [[<- _]|[_ ?]]; eauto).
    destruct (I7 _ _ Ha1) as (oid1 & o1 & Ho1 & ?). destruct (decide (oid1 = oid)) as [->|].
    + exists oid, o'. rewrite lookup_insert_eq. simplify_eq. auto.
    + exists oid1, o1. by rewrite lookup_insert_ne.
  - apply occurrence_insert; [done|]. by rewrite Hr.
Qed.

Lemma coupling_put_latest :
  core_inv c -> coupled r' a' o' -> core_coupling (put c id r' aid a' oid o').
Proof.
  destruct Hlatest as (Hr & Ha & Ho & Hid & Hlat & Hoa), Haf as (Hf1 & Hf2 & _), Hof as (Hg1 & Hg2 & _).
  intros [Hsh Hcp] Hcoup i r0 aid1 a1 oid1 o1 Lr La Lo Hi Hd. simpl in *.
  destruct (decide (aid1 = aid)) as [->|Hne].
  - rewrite lookup_insert_eq in La. injection La as <-.
    assert (i = id) as -> by congruence. rewrite lookup_insert_eq in Lr. injection Lr as <-.
    split; [|lia]. intros _. destruct (decide (oid1 = oid)) as [->|Hno].
    + rewrite lookup_insert_eq in Lo. by injection Lo as <-.
    + rewrite lookup_insert_ne in Lo by done. destruct Hno.
      by apply (inv_dispatch_unique _ Hsh _ _ o1 o); [..|congruence].
  - rewrite lookup_insert_ne in La by done.
    assert (oid1 <> oid) by (intros ->; rewrite lookup_insert_eq in Lo; congruence).
    rewrite lookup_insert_ne in Lo by done. destruct (decide (i = id)) as [->|].
    + rewrite lookup_insert_eq in Lr. injection Lr as <-. rewrite Hcnt.
      split; [|by apply (Hcp id r aid1 a1 oid1 o1)]. intros Hk. destruct Hne.
      apply (inv_attempt_unique _ Hsh _ _ a1 a); congruence.
    + rewrite lookup_insert_ne in Lr by done. by apply (Hcp i r0 aid1 a1 oid1 o1).
Qed.

Lemma inv_put_latest :
  core_inv c -> coupled r' a' o' -> run_ok r' -> core_inv (put c id r' aid a' oid o').
Proof. intros Hinv Hc Hok. split; [apply shape_put_latest; [apply Hinv|done]|by apply coupling_put_latest]. Qed.

End PutLatest.

(** Adding the next attempt of a Run, new or not. *)
Definition attempts_so_far (c : CoreTables) (id : Uuid) : Z :=
  match runs c !! id with Some r => r_attempt_count r | None => 0 end.

Section AddAttempt.
Context (c : CoreTables) (id : Uuid) (r' : RunRow) (aid : Uuid) (a : AttemptRow) (oid : Uuid)
  (o : OutboxRow).
Hypothesis Hfresh : fresh_dispatch c id (r_attempt_count r') aid a oid o.
Hypothesis Hcnt : r_attempt_count r' = attempts_so_far c id + 1.
Hypothesis Hocc : match runs c !! id with Some r => run_frame r r' | None => occurrence_free c r' end.

Lemma attempts_below : core_shape c -> forall aid1 a1,
  run_attempts c !! aid1 = Some a1 -> a_run_id a1 = id -> a_attempt a1 < r_attempt_count r'.
Proof.
  intros Hsh aid1 a1 Ha1 Hid. destruct (inv_attempt_run _ Hsh _ _ Ha1) as (r1 & Hr1 & ?).
  rewrite Hid in Hr1. rewrite Hcnt. unfold attempts_so_far. rewrite Hr1. lia.
Qed.

Lemma attempts_so_far_nonneg : core_shape c -> 0 <= attempts_so_far c id.
Proof.
  intros Hsh. unfold attempts_so_far. destruct (runs c !! id) as [r|] eqn:Hr; [|done].
  pose proof (inv_run _ Hsh _ _ Hr) as [? _]. lia.
Qed.

Lemma shape_add_attempt : core_shape c -> run_ok r' -> core_shape (put c id r' aid a oid o).
Proof.
  destruct Hfresh as (Hna & Hno & Hid & Hk & _ & Hod & Hoa & _). intros Hsh Hok.
  pose proof (attempts_below Hsh) as Hbelow. pose proof (attempts_so_far_nonneg Hsh) as Hnn.
  destruct Hsh as [I1 I2 I3 I4 I5 I6 I7 I8]. constructor; simpl.
  - intros i r0 [[<- <-]|[? ?]]%lookup_insert_Some; eauto.
  - intros i a0 [[<- <-]|[? L]]%lookup_insert_Some.
    + rewrite Hid, lookup_insert_eq. exists r'. split; [done|lia].
    + destruct (decide (a_run_id a0 = id)) as [Hi|].
      * rewrite Hi, lookup_insert_eq. exists r'. pose proof (Hbelow _ _ L Hi).
        destruct (I2 _ _ L) as (? & ? & ?). split; [done|lia].
      * rewrite lookup_insert_ne by done. eauto.
  - intros i1 i2 a1 a2 [[<- <-]|[? L1]]%lookup_insert_Some [[<- <-]|[? L2]]%lookup_insert_Some Hr Ha;
      [done|..|eauto].
    + pose proof (Hbelow _ _ L2 ltac:(congruence)). lia.
    + pose proof (Hbelow _ _ L1 ltac:(congruence)). lia.
  - intros i r0 k [[<- <-]|[? L]]%lookup_insert_Some Hrange.
    + destruct (decide (k = r_attempt_count r')) as [->|].
      * exists aid, a. by rewrite lookup_insert_eq.
      * unfold attempts_so_far in Hcnt. destruct (runs c !! id) as [r|] eqn:Hr; [|lia].
        destruct (I4 _ _ k Hr ltac:(lia)) as (aid1 & a1 & Ha1 & ? & ?).
        exists aid1, a1. by rewrite lookup_insert_ne by congruence.
    + destruct (I4 _ _ _ L Hrange) as (aid1 & a1 & Ha1 & ? & ?).
      exists aid1, a1. by rewrite lookup_insert_ne by congruence.
  - intros i o0 [[<- <-]|[? L]]%lookup_insert_Some.
    + rewrite Hoa, lookup_insert_eq. exists a. split; [done|congruence].
    + destruct (I5 _ _ L) as (a1 & Ha1 & ?). exists a1. by rewrite lookup_insert_ne by congruence.
  - intros i1 i2 o1 o2 [[<- <-]|[? L1]]%lookup_insert_Some [[<- <-]|[? L2]]%lookup_insert_Some He;
      [done|..|eauto].
    + destruct (I5 _ _ L2) as (? & ? & _). congruence.
    + destruct (I5 _ _ L1) as (? & ? & _). congruence.
  - intros i a0 [[<- <-]|[? L]]%lookup_insert_Some.
    + exists oid, o. by rewrite lookup_insert_eq.
    + destruct (I7 _ _ L) as (oid1 & o1 & ? & ?). exists oid1, o1. by rewrite lookup_insert_ne by congruence.
  - by apply occurrence_insert.
Qed.

Lemma coupling_add_attempt :
  core_inv c -> r_status r' = PendingDispatch ->
  (forall r aid1 a1 oid1 o1, latest c id r aid1 a1 oid1 o1 -> unleased a1 AFailed /\ dispatched o1) ->
  core_coupling (put c id r' aid a oid o).
Proof.
  destruct Hfresh as (Hna & Hno & Hid & Hk & Hul & Hod & Hoa & Hud).
  intros [Hsh Hcp] Hst Hlast i r0 aid1 a1 oid1 o1 Lr La Lo Hi Hd. simpl in *.
  destruct (decide (aid1 = aid)) as [->|Hne].
  - rewrite lookup_insert_eq in La. injection La as <-.
    assert (i = id) as -> by congruence. rewrite lookup_insert_eq in Lr. injection Lr as <-.
    split; [|lia]. intros _. unfold coupled. rewrite Hst.
    destruct (decide (oid1 = oid)) as [->|Hnoid].
    + rewrite lookup_insert_eq in Lo. by injection Lo as <-.
    + rewrite lookup_insert_ne in Lo by done.
      destruct (inv_dispatch_attempt _ Hsh _ _ Lo) as (? & ? & _). congruence.
  - rewrite lookup_insert_ne in La by done.
    assert (oid1 <> oid) by (intros ->; rewrite lookup_insert_eq in Lo; congruence).
    rewrite lookup_insert_ne in Lo by done. destruct (decide (i = id)) as [->|].
    + rewrite lookup_insert_eq in Lr. injection Lr as <-.
      pose proof (attempts_below Hsh _ _ La Hi). split; [lia|]. intros _.
      destruct (inv_attempt_run _ Hsh _ _ La) as (r & Hr & Hra). rewrite Hi in Hr.
      destruct (decide (a_attempt a1 = r_attempt_count r)).
      * by apply (Hlast r aid1 a1 oid1 o1).
      * apply (Hcp id r aid1 a1 oid1 o1); try done. lia.
    + rewrite lookup_insert_ne in Lr by done. by apply (Hcp i r0 aid1 a1 oid1 o1).
Qed.

Lemma inv_add_attempt :
  core_inv c -> run_ok r' -> r_status r' = PendingDispatch ->
  (forall r aid1 a1 oid1 o1, latest c id r aid1 a1 oid1 o1 -> unleased a1 AFailed /\ dispatched o1) ->
  core_inv (put c id r' aid a oid o).
Proof.
  intros Hinv Hok Hst Hl. split; [apply shape_add_attempt; [apply Hinv|done]|by apply coupling_add_attempt].
Qed.

End AddAttempt.

Lemma inv_new_terminal c id r :
  core_inv c -> runs c !! id = None -> r_attempt_count r = 0 -> occurrence_free c r -> run_ok r ->
  core_inv (mkCoreTables (<[id := r]> (runs c)) (run_attempts c) (outbox c)).
Proof.
  intros [[I1 I2 I3 I4 I5 I6 I7 I8] Hcp] Hnone H0 Hocc Hok.
  assert (forall aid a, run_attempts c !! aid = Some a -> a_run_id a <> id) as Hno.
  { intros aid a Ha Hi. destruct (I2 _ _ Ha) as (? & ? & _). congruence. }
  split; [constructor|]; simpl; try done.
  - intros i r0 [[<- <-]|[? ?]]%lookup_insert_Some; eauto.
  - intros aid a Ha. rewrite lookup_insert_ne by (apply not_eq_sym; eauto). eauto.
  - intros i r0 k [[<- <-]|[? L]]%lookup_insert_Some Hk; [lia|eauto].
  - apply occurrence_insert; [done|]. by rewrite Hnone.
  - intros i r0 aid a oid o Lr La Lo Hi Hd. simpl in *. rewrite lookup_insert_ne in Lr.
    + by apply (Hcp i r0 aid a oid o).
    + intros ->. by apply (Hno aid a).
Qed.

Lemma latest_coupled c id r aid a oid o : core_inv c -> latest c id r aid a oid o -> coupled r a o.
Proof. intros [_ Hcp] (Hr & Ha & Ho & Hid & Hk & Hoa). by apply (Hcp id r aid a oid o). Qed.

Lemma latest_run_ok c id r aid a oid o :
  core_inv c -> latest c id r aid a oid o -> run_ok r /\ r_attempt_count r <> 0.
Proof.
  intros [Hsh _] (Hr & Ha & Ho & Hid & Hk & Hoa). split; [by eapply inv_run|].
  destruct (inv_attempt_run _ Hsh _ _ Ha) as (? & ? & ?). lia.
Qed.

Lemma run_ok_new r :
  r_status r = PendingDispatch -> r_attempt_count r = 1 -> 1 <= r_max_attempts r <= 100 ->
  has_executor (r_execution_snapshot r) = true -> r_completed_at r = None -> run_ok r.
Proof.
  intros Hs Hc Hm He Hcomp. unfold run_ok. rewrite Hs, Hc, Hcomp.
  repeat split; try done; try (intros; lia); by intros [??].
Qed.

Lemma run_ok_next r r' :
  run_ok r -> run_frame r r' -> idempotent r -> r_attempt_count r < r_max_attempts r ->
  r_attempt_count r <> 0 -> r_status r' = PendingDispatch ->
  r_attempt_count r' = r_attempt_count r + 1 -> r_completed_at r' = None -> run_ok r'.
Proof.
  intros (Hc & Hm & _ & Hs & _ & _) Hf Hi Hlt Hne Hst Hcnt Hcomp. unfold run_ok.
  rewrite Hst, Hcnt, Hcomp, (run_frame_max _ _ Hf), (run_frame_executor _ _ Hf),
    <- (run_frame_idempotent _ _ Hf).
  repeat split; try tauto; try done; try (intros; lia); by intros [??].
Qed.

(** Leaving [RetryWait]: the invariant, whatever brought the Run there. *)
Lemma inv_retry c id r r' aid a oid o :
  core_inv c -> runs c !! id = Some r -> r_status r = RetryWait -> r_status r' = PendingDispatch ->
  r_attempt_count r' = r_attempt_count r + 1 -> r_completed_at r' = None -> run_frame r r' ->
  fresh_dispatch c id (r_attempt_count r + 1) aid a oid o ->
  core_inv (put c id r' aid a oid o).
Proof.
  intros Hinv Hr Hst Hst' Hcnt Hcomp Hf Hfr. pose proof Hinv as [Hsh _].
  pose proof (inv_run _ Hsh _ _ Hr) as Hok.
  assert (r_attempt_count r <> 0) as Hne.
  { intros H0. destruct Hok as (_ & _ & Hz & _). destruct (Hz H0); congruence. }
  destruct (inv_attempt_gapless _ Hsh _ _ (r_attempt_count r) Hr) as (aid0 & a0 & Ha0 & Hi0 & Hk0);
    [destruct Hok as [? _]; lia|].
  destruct (inv_attempt_dispatch _ Hsh _ _ Ha0) as (oid0 & o0 & Ho0 & Hoa0).
  assert (coupled r a0 o0) as Hcp by (apply (latest_coupled c id r aid0 a0 oid0 o0); [done|by repeat split]).
  unfold coupled in Hcp. rewrite Hst in Hcp. destruct Hcp as (_ & _ & Hid & Hlt).
  apply inv_add_attempt; [by rewrite Hcnt| | |done|by eapply run_ok_next|done|].
  - unfold attempts_so_far. by rewrite Hr.
  - by rewrite Hr.
  - intros r1 aid1 a1 oid1 o1 Hl. pose proof (latest_coupled _ _ _ _ _ _ _ Hinv Hl) as Hcp1.
    destruct Hl as (Hr1 & _). assert (r1 = r) as -> by congruence.
    unfold coupled in Hcp1. rewrite Hst in Hcp1. tauto.
Qed.

Lemma inv_lease_retry c id r r' aid0 a0 a0' oid0 o0 aid a oid o :
  core_inv c -> latest c id r aid0 a0 oid0 o0 -> r_status r = Running ->
  idempotent r -> r_attempt_count r < r_max_attempts r ->
  unleased a0' AFailed -> attempt_frame a0 a0' ->
  r_status r' = PendingDispatch -> r_attempt_count r' = r_attempt_count r + 1 ->
  r_completed_at r' = None -> run_frame r r' ->
  fresh_dispatch c id (r_attempt_count r + 1) aid a oid o ->
  core_inv (put (mkCoreTables (runs c) (<[aid0 := a0']> (run_attempts c)) (outbox c)) id r' aid a oid o).
Proof.
  intros Hinv Hl Hst Hi Hlt Hul Haf Hst' Hcnt Hcomp Hf Hfr.
  set (r1 := run_set r RetryWait (r_attempt_count r) (r_next_retry_at r) (r_queued_at r)
               (r_started_at r) None (r_terminal_reason r)).
  pose proof (latest_run_ok _ _ _ _ _ _ _ Hinv Hl) as [Hok Hne].
  pose proof (latest_coupled _ _ _ _ _ _ _ Hinv Hl) as Hcp.
  assert (core_inv (put c id r1 aid0 a0' oid0 o0)) as Hinv1.
  { apply (inv_put_latest c id r aid0 a0 oid0 o0); auto with crono; [by repeat split|..].
    - unfold coupled in *. rewrite Hst in Hcp. simpl. tauto.
    - eapply run_ok_progress; [done|by repeat split|done|done|].
      simpl. split; [by intros [??]|done]. }
  assert (put (mkCoreTables (runs c) (<[aid0 := a0']> (run_attempts c)) (outbox c)) id r' aid a oid o
          = put (put c id r1 aid0 a0' oid0 o0) id r' aid a oid o) as ->.
  { unfold put. simpl. rewrite insert_insert_eq.
    rewrite (insert_id (outbox c) oid0 o0); [done|]. by destruct Hl as (_ & _ & ? & _). }
  apply (inv_retry _ id r1); auto.
  - unfold put. simpl. by rewrite lookup_insert_eq.
  - destruct Hfr as (H1 & H2 & Hrest), Hl as (_ & Ha & Ho & _). unfold put. split; [|split]; simpl; [..|done].
    + rewrite lookup_insert_ne by congruence. done.
    + rewrite lookup_insert_ne by congruence. done.
Qed.

(** Every step preserves the invariant. *)
Lemma core_step_inv c c' : core_inv c -> core_step c c' -> core_inv c'.
Proof.
  intros Hinv Hstep. destruct Hstep as
    [c id r aid a oid o r' a' o' Hl Hs|c id r aid a oid o Hn Hst Hc Hm He Hcp Hoc Hfr
    |c id r Hn Hst Hc Hm Hcp Hoc|c id r r' aid a oid o|].
  - pose proof (latest_run_ok _ _ _ _ _ _ _ Hinv Hl) as [Hok Hne].
    pose proof (local_step_frames _ _ _ _ _ _ Hs) as (Hrf & Haf & Hof & Hcnt).
    apply (inv_put_latest c id r aid a oid o); auto.
    + eapply coupled_local; [by eapply latest_coupled|done].
    + by eapply run_ok_local.
  - apply inv_add_attempt; [by rewrite Hc| | |done|by apply run_ok_new|done|].
    + unfold attempts_so_far. by rewrite Hn, Hc.
    + by rewrite Hn.
    + intros ? ? ? ? ? (? & _). congruence.
  - apply inv_new_terminal; auto. unfold run_ok. rewrite Hc.
    repeat split; try done; try lia. intros _. by destruct Hst as [-> | ->].
  - by eapply inv_retry.
  - by eapply inv_lease_retry.
Qed.

Lemma core_steps_inv c c' : core_inv c -> rtc core_step c c' -> core_inv c'.
Proof. intros H Hs. induction Hs; eauto using core_step_inv. Qed.

Lemma core_inv_empty : core_inv (mkCoreTables ∅ ∅ ∅).
Proof. split; [constructor|]; simpl; intros *; rewrite ?lookup_empty; done. Qed.
