(* ===== verification/Refinement.v ===== *)
(** * The store refines the life cycle

    Every operation of Store.v that writes the execution tables moves them by
    a sequence of [Lifecycle.core_step]s, whatever the statements' timestamps,
    the faults of the connection and the rows other transactions hold. *)

From S2P Require Import Prelude RustStr Json Inputs Names Domain Db Snapshot TxLogic Store Lifecycle.
From Stdlib Require Import String.
From stdpp Require Import base numbers strings sorting gmap list relations.

Local Open Scope Z_scope.

Definition core_of (s : Tx) : CoreTables := core (tx_db s).

(** A transaction body: when it succeeds, its changes are steps. *)
Definition body_refines {A} (m : tx A) : Prop := forall env s a s',
  core_inv (core_of s) -> m env s = (Ok a, s') -> rtc core_step (core_of s) (core_of s').

(** A whole operation: its changes are steps, whatever it answers. *)
Definition op_refines {A} (m : tx A) : Prop := forall env s res s',
  core_inv (core_of s) -> m env s = (res, s') -> rtc core_step (core_of s) (core_of s').

(** ** The monad *)

Lemma body_op {A} (m : tx A) : op_refines m -> body_refines m.
Proof. intros H env s a s' Hi Hm. by eapply H. Qed.

Lemma body_bind {A B} (m : tx A) (k : A -> tx B) :
  body_refines m -> (forall a, body_refines (k a)) -> body_refines (tx_bind m k).
Proof.
  intros Hm Hk env s b s2 Hi (a & s1 & H1 & H2)%tx_bind_ok.
  pose proof (Hm _ _ _ _ Hi H1) as Hs1.
  etrans; [done|]. eapply Hk; [by eapply core_steps_inv|done].
Qed.

Lemma op_bind {A B} (m : tx A) (k : A -> tx B) :
  op_refines m -> (forall a, op_refines (k a)) -> op_refines (tx_bind m k).
Proof.
  intros Hm Hk env s res s2 Hi. unfold tx_bind. destruct (m env s) as [[a|e] s1] eqn:H1; intros H2.
  - pose proof (Hm _ _ _ _ Hi H1). etrans; [done|].
    eapply Hk; [by eapply core_steps_inv|done].
  - injection H2 as <- <-. by eapply Hm.
Qed.

(** Code that leaves the tables alone. *)
Definition reads_only {A} (m : tx A) : Prop := forall env s res s',
  m env s = (res, s') -> core_of s' = core_of s.

Lemma op_reads {A} (m : tx A) : reads_only m -> op_refines m.
Proof. intros H env s res s' _ Hm. by rewrite (H _ _ _ _ Hm). Qed.

Lemma reads_bind {A B} (m : tx A) (k : A -> tx B) :
  reads_only m -> (forall a, reads_only (k a)) -> reads_only (tx_bind m k).
Proof.
  intros Hm Hk env s res s2. unfold tx_bind. destruct (m env s) as [[a|e] s1] eqn:H1; intros H2.
  - rewrite (Hk _ _ _ _ _ H2). by eapply Hm.
  - injection H2 as <- <-. by eapply Hm.
Qed.

Lemma reads_ret {A} (a : A) : reads_only (tx_ret a).
Proof. by intros env s res s' [= <- <-]. Qed.
Lemma reads_fail {A} e : reads_only (@tx_fail A e).
Proof. by intros env s res s' [= <- <-]. Qed.
Lemma reads_lift {A} (r : result A StoreError) : reads_only (tx_lift r).
Proof. by intros env s res s' [= <- <-]. Qed.
Lemma reads_get : reads_only tx_get.
Proof. by intros env s res s' [= <- <-]. Qed.
Lemma reads_statement : reads_only statement.
Proof. intros env s res s' H. unfold core_of. by rewrite (statement_db _ _ _ _ H). Qed.
Lemma reads_fresh : reads_only fresh_uuid.
Proof. by intros env s res s' [= <- <-]. Qed.
Lemma reads_now : reads_only now_utc.
Proof. by intros env s res s' [= <- <-]. Qed.
Lemma reads_locked : reads_only locked_rows.
Proof. by intros env s res s' [= <- <-]. Qed.
Lemma reads_check b e : reads_only (check b e).
Proof. unfold check. destruct b; [apply reads_ret|apply reads_fail]. Qed.

(** A write to another table. *)
Lemma reads_modify f : (forall d, core (f d) = core d) -> reads_only (tx_modify f).
Proof. intros H env s res s' [= <- <-]. unfold core_of. simpl. apply H. Qed.

#[export] Hint Resolve reads_bind reads_ret reads_fail reads_lift reads_get reads_statement
  reads_fresh reads_now reads_locked reads_check reads_modify : crono.

Ltac reads :=
  repeat first
    [ progress intros
    | apply reads_bind
    | apply reads_ret | apply reads_fail | apply reads_lift | apply reads_get
    | apply reads_statement | apply reads_fresh | apply reads_now | apply reads_locked
    | apply reads_check | (apply reads_modify; intros; reflexivity) | eassumption | case_match ].

Lemma reads_collect {A B} (f : A -> tx B) l : (forall x, reads_only (f x)) -> reads_only (tx_collect f l).
Proof. intros Hf. induction l as [|x l IH]; simpl; reads; auto. Qed.

Lemma reads_run_event run ty detail : reads_only (insert_run_event run ty detail).
Proof. unfold insert_run_event. reads. Qed.

Lemma reads_schedule_event sid ty t detail : reads_only (insert_schedule_event sid ty t detail).
Proof. unfold insert_schedule_event. reads. Qed.

Lemma reads_run_request a b c d e f : reads_only (insert_run_request a b c d e f).
Proof. unfold insert_run_request. reads. Qed.

Lemma transaction_refines {A} (body : tx (outcome A)) :
  body_refines body -> op_refines (transaction body).
Proof.
  intros Hb env s res s' Hi. unfold transaction.
  assert (body_refines (tx_bind statement (fun _ => body))) as Hb'
    by (apply body_bind; [apply body_op, op_reads, reads_statement|done]).
  destruct (tx_bind statement (fun _ => body) env s) as [[[a|a|a]|e] s1] eqn:H1.
  - pose proof (Hb' _ _ _ _ Hi H1) as Hs. destruct (e_fault env (tx_statements s1)).
    + destruct (e_commit_applied env (tx_statements s1)); by intros [= <- <-].
    + by intros [= <- <-].
  - by intros [= <- <-].
  - by intros [= <- <-].
  - by intros [= <- <-].
Qed.

Lemma body_for {A} (l : list A) (f : A -> tx unit) :
  (forall x, body_refines (f x)) -> body_refines (tx_for l f).
Proof.
  intros Hf. induction l as [|x l IH]; simpl.
  - by apply body_op, op_reads, reads_ret.
  - by apply body_bind.
Qed.

(** ** What each statement does to the tables *)

Definition with_run (c : CoreTables) (id : Uuid) (r : RunRow) : CoreTables :=
  mkCoreTables (<[id := r]> (runs c)) (run_attempts c) (outbox c).
Definition with_attempt (c : CoreTables) (id : Uuid) (a : AttemptRow) : CoreTables :=
  mkCoreTables (runs c) (<[id := a]> (run_attempts c)) (outbox c).
Definition with_outbox (c : CoreTables) (id : Uuid) (o : OutboxRow) : CoreTables :=
  mkCoreTables (runs c) (run_attempts c) (<[id := o]> (outbox c)).

Lemma trigger_core now id old new d : core (enqueue_workflow_completion now id old new d) = core d.
Proof. unfold enqueue_workflow_completion. repeat case_match; reflexivity. Qed.

(** Unfold a statement down to its tests and case on each of them. *)
Ltac run_statement :=
  unfold tx_bind, bind_texts, check, tx_get, tx_modify, tx_ret, tx_fail, statement in *;
  repeat (case_match; simplify_eq/=).

Lemma update_run_spec texts id cond f env s res s' :
  update_run texts id cond f env s = (res, s') ->
  match res with
  | Err _ => core_of s' = core_of s
  | Ok None => core_of s' = core_of s /\ forall r, runs (core_of s) !! id = Some r -> cond r = false
  | Ok (Some r) =>
      runs (core_of s) !! id = Some r /\ cond r = true
      /\ exists now, core_of s' = with_run (core_of s) id (f now r)
  end.
Proof.
  unfold update_run, core_of. intros H. run_statement; try done; try (split; [done|naive_solver]).
  split; [done|]. split; [done|]. exists (e_timestamp env (tx_statements s)). by rewrite trigger_core.
Qed.

Lemma update_attempt_spec texts id cond f env s res s' :
  update_attempt texts id cond f env s = (res, s') ->
  match res with
  | Err _ => core_of s' = core_of s
  | Ok None =>
      core_of s' = core_of s
      /\ forall a, run_attempts (core_of s) !! id = Some a ->
         cond (e_timestamp env (tx_statements s)) a = false
  | Ok (Some a) =>
      let now := e_timestamp env (tx_statements s) in
      run_attempts (core_of s) !! id = Some a /\ cond now a = true
      /\ core_of s' = with_attempt (core_of s) id (f now a)
  end.
Proof.
  unfold update_attempt, core_of. intros H. run_statement; try done; try (split; [done|naive_solver]).
Qed.

Lemma update_outbox_spec texts id cond f env s res s' :
  update_outbox texts id cond f env s = (res, s') ->
  match res with
  | Err _ => core_of s' = core_of s
  | Ok None =>
      core_of s' = core_of s
      /\ forall o, outbox (core_of s) !! id = Some o ->
         cond (e_timestamp env (tx_statements s)) o = false
  | Ok (Some o) =>
      let now := e_timestamp env (tx_statements s) in
      outbox (core_of s) !! id = Some o /\ cond now o = true
      /\ core_of s' = with_outbox (core_of s) id (f now o)
  end.
Proof.
  unfold update_outbox, core_of. intros H. run_statement; try done; try (split; [done|naive_solver]).
Qed.

Lemma has_false {A} (m : gmap Uuid A) k : negb (has m k) = true -> m !! k = None.
Proof. unfold has. intros H%negb_true_iff%bool_decide_eq_false. by apply eq_None_not_Some. Qed.

Lemma occurrence_taken_free d r : occurrence_taken d r = false -> occurrence_free (core d) r.
Proof.
  unfold occurrence_taken, occurrence_free. intros H id' r' Hr.
  destruct (same_occurrence r r') eqn:Hs; [|done].
  assert (existsb (fun kv : N * RunRow => same_occurrence r kv.2) (map_to_list (runs (core d))) = true);
    [|congruence].
  apply existsb_exists. exists (id', r'). split; [|done].
  by apply list_elem_of_In, elem_of_map_to_list.
Qed.

Lemma insert_run_spec id dn row env s res s' :
  insert_run id dn row env s = (Ok res, s') ->
  match res with
  | None => core_of s' = core_of s
  | Some i => i = id /\ runs (core_of s) !! id = None
      /\ exists now, core_of s' = with_run (core_of s) id (row now) /\ run_checks (row now) = true
         /\ occurrence_free (core_of s) (row now)
  end.
Proof.
  unfold insert_run, core_of. intros H. run_statement; try done.
  all: split; [done|]; split; [by apply has_false|]; eexists; split; [done|]; split; [done|];
    by apply occurrence_taken_free, negb_true_iff.
Qed.

Lemma insert_attempt_spec id row env s u s' :
  insert_attempt id row env s = (Ok u, s') ->
  run_attempts (core_of s) !! id = None
  /\ core_of s' = with_attempt (core_of s) id (row (e_timestamp env (tx_statements s))).
Proof.
  unfold insert_attempt, core_of. intros H. run_statement; try done.
  split; [by apply has_false|done].
Qed.

Lemma insert_outbox_spec id row env s u s' :
  insert_outbox id row env s = (Ok u, s') ->
  outbox (core_of s) !! id = None
  /\ core_of s' = with_outbox (core_of s) id (row (e_timestamp env (tx_statements s))).
Proof.
  unfold insert_outbox, core_of. intros H. run_statement; try done.
  split; [by apply has_false|done].
Qed.

(** ** Finding the latest attempt *)

Lemma attempt_triple c aid a :
  core_inv c -> run_attempts c !! aid = Some a ->
  exists r oid o, runs c !! a_run_id a = Some r /\ outbox c !! oid = Some o /\ o_attempt_id o = aid
    /\ o_run_id o = a_run_id a
    /\ (latest c (a_run_id a) r aid a oid o \/ (unleased a AFailed /\ dispatched o)).
Proof.
  intros [Hsh Hcp] Ha. destruct (inv_attempt_run _ Hsh _ _ Ha) as (r & Hr & Hk).
  destruct (inv_attempt_dispatch _ Hsh _ _ Ha) as (oid & o & Ho & Hoa).
  destruct (inv_dispatch_attempt _ Hsh _ _ Ho) as (a1 & Ha1 & Hra).
  assert (a1 = a) as -> by congruence.
  exists r, oid, o. split; [done|]. split; [done|]. split; [done|]. split; [done|].
  destruct (decide (a_attempt a = r_attempt_count r)); [left; by repeat split|right].
  apply (Hcp (a_run_id a) r aid a oid o); try done. lia.
Qed.

Lemma attempt_latest c aid a :
  core_inv c -> run_attempts c !! aid = Some a -> a_status a <> AFailed ->
  exists r oid o, latest c (a_run_id a) r aid a oid o /\ coupled r a o /\ o_run_id o = a_run_id a.
Proof.
  intros Hi Ha Hne. destruct (attempt_triple _ _ _ Hi Ha) as (r & oid & o & _ & _ & _ & Hor & [Hl|[[? _] _]]);
    [|done]. exists r, oid, o. eauto using latest_coupled.
Qed.

Lemma undispatched_latest c oid o :
  core_inv c -> outbox c !! oid = Some o -> undispatched o ->
  exists r a, latest c (o_run_id o) r (o_attempt_id o) a oid o
    /\ r_status r = PendingDispatch /\ unleased a APendingDispatch.
Proof.
  intros Hi Ho Hu. pose proof Hi as [Hsh _].
  destruct (inv_dispatch_attempt _ Hsh _ _ Ho) as (a & Ha & Hra).
  destruct (attempt_triple _ _ _ Hi Ha) as (r & oid1 & o1 & Hr & Ho1 & Hoa & _ & Hcase).
  assert (oid1 = oid) as -> by (by apply (inv_dispatch_unique _ Hsh _ _ o1 o)).
  assert (o1 = o) as -> by congruence. rewrite Hra in *.
  destruct Hcase as [Hl|[_ ([? Hp] & _)]]; [|destruct Hu; congruence].
  pose proof (latest_coupled _ _ _ _ _ _ _ Hi Hl) as Hcp.
  pose proof (status_of_undispatched _ _ _ Hcp Hu) as Hst.
  exists r, a. split; [done|]. split; [done|]. unfold coupled in Hcp. rewrite Hst in Hcp. tauto.
Qed.

(** A dispatch someone holds is undispatched: publication, expiry and failure
    all give the claim back. *)
Lemma claimed_undispatched c oid o owner :
  core_inv c -> outbox c !! oid = Some o -> o_claimed_by o = Some owner -> undispatched o.
Proof.
  intros Hi Ho Hcl. pose proof Hi as [Hsh _].
  destruct (inv_dispatch_attempt _ Hsh _ _ Ho) as (a & Ha & Hra).
  destruct (attempt_triple _ _ _ Hi Ha) as (r & oid1 & o1 & Hr & Ho1 & Hoa & _ & Hcase).
  assert (oid1 = oid) as -> by (by apply (inv_dispatch_unique _ Hsh _ _ o1 o)).
  assert (o1 = o) as -> by congruence.
  destruct Hcase as [Hl|[_ (_ & _ & Hn)]]; [|congruence].
  pose proof (latest_coupled _ _ _ _ _ _ _ Hi Hl) as Hcp. unfold coupled, dispatched, dispatch_cancelled in Hcp.
  destruct (r_status r); destruct_and?; try done; destruct_or?; destruct_and?; congruence.
Qed.

(** ** Dispatch metadata *)

Lemma put_outbox_only c id r aid a oid o o' :
  latest c id r aid a oid o -> put c id r aid a oid o' = with_outbox c oid o'.
Proof.
  intros (Hr & Ha & _). unfold put, with_outbox. by rewrite (insert_id (runs c)), (insert_id (run_attempts c)).
Qed.

Lemma put_attempt_only c id r aid a a' oid o :
  latest c id r aid a oid o -> put c id r aid a' oid o = with_attempt c aid a'.
Proof.
  intros (Hr & _ & Ho & _). unfold put, with_attempt. by rewrite (insert_id (runs c)), (insert_id (outbox c)).
Qed.

Lemma put_run_attempt c id r aid a r' a' oid o :
  latest c id r aid a oid o -> put c id r' aid a' oid o = with_run (with_attempt c aid a') id r'.
Proof. intros (_ & _ & Ho & _). unfold put, with_run, with_attempt. simpl. by rewrite (insert_id (outbox c)). Qed.

Lemma step_dispatch_meta c oid o o' :
  core_inv c -> outbox c !! oid = Some o -> undispatched o -> undispatched o' -> outbox_frame o o' ->
  core_step c (with_outbox c oid o').
Proof.
  intros Hi Ho Hu Hu' Hf. destruct (undispatched_latest _ _ _ Hi Ho Hu) as (r & a & Hl & _).
  rewrite <- (put_outbox_only _ _ _ _ _ _ _ _ Hl). eapply CSLocal; [done|by constructor].
Qed.

(** A bulk update that touches only undispatched rows' bookkeeping. *)
Definition meta_update (f : OutboxRow -> OutboxRow) (o : OutboxRow) : Prop :=
  f o = o \/ (undispatched o /\ undispatched (f o) /\ outbox_frame o (f o)).

Lemma steps_alter_all f ids : forall c,
  core_inv c -> (forall oid o, oid ∈ ids -> outbox c !! oid = Some o -> meta_update f o) ->
  NoDup ids ->
  rtc core_step c (mkCoreTables (runs c) (run_attempts c) (alter_all f ids (outbox c))).
Proof.
  unfold alter_all. induction ids as [|i ids IH]; intros c Hi Hall Hnd; simpl; [by destruct c|].
  inversion Hnd as [|? ? Hnot Hnd']; subst.
  set (c1 := mkCoreTables (runs c) (run_attempts c) (foldr (alter f) (outbox c) ids)).
  assert (rtc core_step c c1) as Hs by (apply IH; [done|set_solver|done]).
  etrans; [done|]. pose proof (core_steps_inv _ _ Hi Hs) as Hi1.
  assert (foldr (alter f) (outbox c) ids !! i = outbox c !! i) as Hlk.
  { clear -Hnot. induction ids as [|j ids IH]; simpl; [done|].
    rewrite lookup_alter_ne by set_solver. apply IH. set_solver. }
  destruct (outbox c !! i) as [o|] eqn:Ho.
  - assert (alter f i (outbox c1) = <[i := f o]> (outbox c1)) as Ha.
    { apply map_eq. intros j. destruct (decide (i = j)) as [<-|].
      - rewrite lookup_alter_eq, lookup_insert_eq. simpl. by rewrite Hlk.
      - by rewrite lookup_alter_ne, lookup_insert_ne. }
    simpl in Ha. rewrite Ha. destruct (Hall i o) as [Heq|(H1 & H2 & H3)]; [set_solver|done|..].
    + rewrite Heq, insert_id by done. done.
    + apply rtc_once. by apply (step_dispatch_meta c1 i o).
  - rewrite alter_id; [done|]. intros x Hx. congruence.
Qed.

(** ** The rows a query selects *)

Section Select.
Context {A : Type} (m : gmap Uuid A) (locked : Uuid -> bool) (cond : Uuid -> A -> option Instant).

Lemma select_ids_elem limit id :
  id ∈ select_ids m locked cond limit ->
  exists x key, m !! id = Some x /\ locked id = false /\ cond id x = Some key.
Proof.
  unfold select_ids. intros H%elem_of_take. destruct H as (i & H & _).
  apply list_elem_of_lookup_2 in H. apply list_elem_of_fmap in H as ([key id'] & -> & H).
  apply elem_of_sort_by, list_elem_of_omap in H as ([id x] & Hin & H).
  apply elem_of_map_to_list in Hin. simpl in H. destruct (locked id) eqn:Hl; [done|].
  destruct (cond id x) as [key'|] eqn:Hc; simplify_eq/=. eauto.
Qed.

Lemma select_ids_nodup limit : NoDup (select_ids m locked cond limit).
Proof.
  unfold select_ids. eapply sublist_NoDup; [|apply sublist_take].
  rewrite (sort_by_Permutation by_key_id).
  pose proof (NoDup_fst_map_to_list m) as Hnd. induction (map_to_list m) as [|[id x] l IH]; simpl; [constructor|].
  simpl in Hnd. inversion Hnd as [|? ? Hnot Hnd']; subst.
  destruct (locked id); simpl; [by apply IH|].
  destruct (cond id x); simpl; [|by apply IH].
  constructor; [|by apply IH].
  intros H%list_elem_of_fmap. destruct H as ([k' id'] & Heq & H). simpl in Heq. subst id'.
  apply list_elem_of_omap in H as ([id' x'] & Hin & H). simpl in H.
  apply Hnot, list_elem_of_fmap. exists (id', x'). split; [|done]. simpl.
  destruct (locked id'); [done|]. destruct (cond id' x'); by simplify_eq/=.
Qed.

End Select.

Lemma rows_of_elem {A} (m : gmap Uuid A) ids kv :
  kv ∈ rows_of m ids <-> kv.1 ∈ ids /\ m !! kv.1 = Some kv.2.
Proof.
  unfold rows_of. rewrite list_elem_of_omap. split.
  - intros (id & Hin & H). destruct (m !! id) as [x|] eqn:Hx; [|done]. by simplify_eq/=.
  - intros [Hin Hm]. exists kv.1. rewrite Hm. by destruct kv.
Qed.

Lemma rows_of_nodup {A} (m : gmap Uuid A) ids : NoDup ids -> NoDup (map fst (rows_of m ids)).
Proof.
  unfold rows_of. induction 1 as [|id ids Hnot Hnd IH]; simpl; [constructor|].
  destruct (m !! id) as [x|] eqn:Hx; simpl; [|done]. constructor; [|done].
  intros H%list_elem_of_fmap. destruct H as ([id' x'] & Heq & H). simpl in Heq. subst id'.
  apply (rows_of_elem m ids (id, x')) in H as [H _]. done.
Qed.

(** ** The outbox *)

Lemma outbox_pending_spec o : outbox_pending o = true <-> undispatched o.
Proof.
  unfold outbox_pending, undispatched, is_null.
  destruct (o_published_at o), (o_cancelled_at o); simpl; naive_solver.
Qed.

Lemma claim_outbox_refines owner limit lease : op_refines (claim_outbox owner limit lease).
Proof.
  unfold claim_outbox. apply op_bind; [apply op_reads; reads|]. intros secs.
  intros env s res s' Hi. unfold tx_bind, locked_rows, tx_get, tx_modify, tx_lift.
  destruct (statement env s) as [[now|e] s1] eqn:Hst; pose proof (statement_db _ _ _ _ Hst) as Hdb.
  - intros [= _ <-]. unfold core_of. simpl. rewrite Hdb. set (d := tx_db s) in *.
    apply steps_alter_all; [done| |apply select_ids_nodup].
    intros oid o Hin Ho. apply select_ids_elem in Hin as (o1 & key & Ho1 & _ & Hc).
    assert (o1 = o) as -> by congruence.
    destruct (outbox_claimable now o) eqn:Hcl; [|done]. unfold outbox_claimable in Hcl.
    rewrite !andb_true_iff, outbox_pending_spec in Hcl. destruct Hcl as [[[[Hp Hc'] _] _] _].
    right. by repeat split.
  - intros [= _ <-]. unfold core_of. by rewrite Hdb.
Qed.

Lemma record_publish_failure_refines owner id message at_ :
  op_refines (record_publish_failure owner id message at_).
Proof.
  unfold record_publish_failure. apply op_bind; [|intros; apply op_reads; reads].
  intros env s res s' Hi H. apply update_outbox_spec in H.
  destruct res as [[o|]|e]; [|by destruct H as [-> _]|by rewrite H].
  destruct H as (Ho & Hc & ->). simp_bool. apply rtc_once.
  pose proof (claimed_undispatched _ _ _ _ Hi Ho H) as Hu.
  eapply step_dispatch_meta; [done|done|done|done|by repeat split].
Qed.

Lemma alter_all_lookup {A} (f : A -> A) ids (m : gmap Uuid A) i :
  NoDup ids -> alter_all f ids m !! i = if decide (i ∈ ids) then f <$> m !! i else m !! i.
Proof.
  unfold alter_all. induction 1 as [|j ids Hnot Hnd IH]; simpl; [done|].
  destruct (decide (j = i)) as [->|Hne].
  - rewrite lookup_alter_eq, IH. by rewrite !decide_False, decide_True by set_solver.
  - rewrite lookup_alter_ne, IH by done.
    destruct (decide (i ∈ ids)); [rewrite decide_True by set_solver|rewrite decide_False by set_solver]; done.
Qed.

Lemma fmap_alter_all {A} (f : A -> A) (m : gmap Uuid A) :
  f <$> m = alter_all f (map fst (map_to_list m)) m.
Proof.
  apply map_eq. intros i. rewrite lookup_fmap, alter_all_lookup by apply NoDup_fst_map_to_list.
  destruct (decide (i ∈ map fst (map_to_list m))) as [|Hno]; [done|].
  destruct (m !! i) as [x|] eqn:Hx; [|done]. destruct Hno.
  apply list_elem_of_fmap. exists (i, x). split; [done|by apply elem_of_map_to_list].
Qed.

Lemma release_expired_claims_refines : op_refines release_expired_claims.
Proof.
  intros env s res s' Hi. unfold release_expired_claims, tx_bind.
  destruct (statement env s) as [[now|e] s1] eqn:Hst; pose proof (statement_db _ _ _ _ Hst) as Hdb.
  - intros [= _ <-]. unfold core_of. simpl. rewrite Hdb, fmap_alter_all.
    apply steps_alter_all; [done| |apply NoDup_fst_map_to_list].
    intros oid o _ _. unfold meta_update, release_claim.
    destruct (outbox_pending o) eqn:Hp; simpl; [|by left].
    destruct (opt_lt (o_claim_expires_at o) now); [right|by left].
    apply outbox_pending_spec in Hp. by repeat split; try apply Hp.
  - intros [= _ <-]. unfold core_of. by rewrite Hdb.
Qed.

(** ** Creating Runs *)

Lemma create_attempt_spec run k queue deadline env s u s' :
  create_attempt_and_outbox run k queue deadline env s = (Ok u, s') ->
  exists aid a oid o,
    core_of s' = with_outbox (with_attempt (core_of s) aid a) oid o
    /\ fresh_dispatch (core_of s) run k aid a oid o.
Proof.
  unfold create_attempt_and_outbox. intros H.
  apply tx_bind_ok in H as (aid & s1 & H1 & H). apply tx_bind_ok in H as (oid & s2 & H2 & H).
  apply tx_bind_ok in H as (u1 & s3 & H3 & H).
  apply insert_attempt_spec in H3 as [Hna H3]. apply insert_outbox_spec in H as [Hno H].
  assert (core_of s2 = core_of s) as Hc.
  { unfold core_of. by rewrite (fresh_uuid_ok _ _ _ _ H2), (fresh_uuid_ok _ _ _ _ H1). }
  rewrite H3, Hc in *. eexists aid, _, oid, _. split; [done|]. by repeat split.
Qed.

Lemma reads_ok {A} (m : tx A) env s a s' : reads_only m -> m env s = (Ok a, s') -> core_of s' = core_of s.
Proof. intros Hr Hm. by eapply Hr. Qed.

(** Inserting a pending Run and its first dispatch. *)
Lemma new_run_step id row dn queue deadline env s i s1 u s2 :
  insert_run id dn row env s = (Ok (Some i), s1) ->
  create_attempt_and_outbox id 1 queue deadline env s1 = (Ok u, s2) ->
  (forall now, r_status (row now) = PendingDispatch /\ r_attempt_count (row now) = 1
     /\ has_executor (r_execution_snapshot (row now)) = true /\ r_completed_at (row now) = None) ->
  core_step (core_of s) (core_of s2).
Proof.
  intros Hins Hatt Hrow. apply insert_run_spec in Hins as (_ & Hnone & now & Hc1 & Hck & Hoc).
  apply create_attempt_spec in Hatt as (aid & a & oid & o & Hc2 & Hfr).
  destruct (Hrow now) as (H1 & H2 & H3 & H4). unfold run_checks in Hck. simp_bool.
  replace (core_of s2) with (put (core_of s) id (row now) aid a oid o)
    by (by rewrite Hc2, Hc1).
  apply CSNewRun; try done. by rewrite Hc1 in Hfr.
Qed.

Lemma create_normal_run_refines p : body_refines (create_normal_run p).
Proof.
  intros env s u s' Hi H. unfold create_normal_run in H.
  apply tx_bind_ok in H as (res & s1 & H1 & H). apply tx_bind_ok in H as (u2 & s2 & H2 & H3).
  rewrite (reads_ok _ _ _ _ _ (reads_run_event _ _ _) H3).
  destruct res as [i|].
  - apply rtc_once. by eapply new_run_step.
  - exfalso. unfold insert_run in H1. run_statement.
Qed.

Section Creation.
Context {SJ : SerdeJson} {RF : RustFmt} {PG : PostgresServer} {TC : TimeCrate}.

Lemma reads_load_execution j t : reads_only (load_execution_ids j t).
Proof. unfold load_execution_ids. reads. Qed.

Lemma reads_selection j t : reads_only (load_selection_executions j t).
Proof.
  unfold load_selection_executions.
  destruct t; reads; try apply reads_load_execution; apply reads_collect; apply reads_load_execution.
Qed.

Lemma reads_render l si i : reads_only (render_executions l si i).
Proof. unfold render_executions. apply reads_collect. intros x. reads. Qed.

Lemma create_runs_transaction_refines request job target inputs :
  op_refines (create_runs_transaction request job target inputs).
Proof.
  apply transaction_refines.
  apply body_bind; [apply body_op, op_reads, reads_selection|]. intros [executions set_inputs].
  apply body_bind; [apply body_op, op_reads, reads_render|]. intros snapshots.
  destruct (selection_ids target) as [tid tsid].
  apply body_bind; [apply body_op, op_reads; reads|]. intros ns.
  apply body_bind; [apply body_op, op_reads, reads_run_request|]. intros [u|[]];
    try (apply body_op, op_reads; solve [reads]).
  apply body_bind; [|intros; apply body_op, op_reads; reads].
  apply body_for. intros x. apply create_normal_run_refines.
Qed.

Lemma reads_find_request id : reads_only (find_run_request id).
Proof. unfold find_run_request. reads. Qed.

Lemma reads_compare ex j t i : reads_only (compare_run_request ex j t i).
Proof. unfold compare_run_request, json_inputs_equal. reads. Qed.

Lemma reads_runs_for_request id : reads_only (runs_for_request id).
Proof. unfold runs_for_request. reads. Qed.

Lemma create_runs_refines request job target inputs : op_refines (create_runs request job target inputs).
Proof.
  unfold create_runs.
  apply op_bind; [apply op_reads, reads_find_request|]. intros [ex|].
  - apply op_reads. reads; auto using reads_compare, reads_runs_for_request.
  - apply op_bind; [apply create_runs_transaction_refines|]. intros [|]; apply op_reads;
      reads; auto using reads_find_request, reads_compare, reads_runs_for_request.
Qed.

Lemma reads_existing_rerun rq src : reads_only (existing_rerun rq src).
Proof. unfold existing_rerun. reads; auto using reads_find_request, reads_runs_for_request. Qed.

Lemma insert_rerun_transaction_refines src rq : op_refines (insert_rerun_transaction src rq).
Proof.
  apply transaction_refines.
  apply body_bind; [apply body_op, op_reads; reads|]. intros _.
  apply body_bind; [apply body_op, op_reads; reads|]. intros d.
  apply body_bind; [apply body_op, op_reads; reads|]. intros source.
  destruct (negb (src_queue_enabled source)); [apply body_op, op_reads; reads|].
  apply body_bind; [apply body_op, op_reads; reads|]. intros run_id.
  apply body_bind; [apply body_op, op_reads; reads|]. intros snapshot.
  apply body_bind; [apply body_op, op_reads, reads_run_request|]. intros [u|[]];
    try (apply body_op, op_reads; solve [reads]).
  intros env s a s' Hi H.
  apply tx_bind_ok in H as (res & s1 & H1 & H). apply tx_bind_ok in H as (u2 & s2 & H2 & H).
  apply tx_bind_ok in H as (u3 & s3 & H3 & [= <- <-]).
  rewrite (reads_ok _ _ _ _ _ (reads_run_event _ _ _) H3).
  destruct res as [i|]; [apply rtc_once; by eapply new_run_step|].
  exfalso. clear -H1. unfold insert_run in H1. run_statement.
Qed.

Lemma insert_rerun_refines src rq : op_refines (insert_rerun src rq).
Proof.
  unfold insert_rerun. apply op_bind; [apply op_reads, reads_existing_rerun|]. intros [r|].
  - apply op_reads. reads.
  - apply op_bind; [apply insert_rerun_transaction_refines|]. intros b. apply op_reads.
    reads; auto using reads_existing_rerun.
Qed.

(** ** Schedule occurrences *)

Lemma insert_scheduled_occurrence_refines sid oc x si inputs :
  body_refines (insert_scheduled_occurrence sid oc x si inputs).
Proof.
  intros env s u s' Hi H. unfold insert_scheduled_occurrence in H.
  apply tx_bind_ok in H as (run_id & s0 & H0 & H).
  pose proof (fresh_uuid_ok _ _ _ _ H0) as Hdb.
  assert (core_of s0 = core_of s) as Hc0 by (unfold core_of; by rewrite Hdb).
  destruct (occurrence_outcome _ _ _ _ _) as [[snapshot status] reason] eqn:Hout.
  assert ((status = PendingDispatch /\ has_executor snapshot = true) \/ status = Skipped \/ status = Failed)
    as Hst.
  { unfold occurrence_outcome in Hout. repeat case_match; simplify_eq/=; auto. }
  apply tx_bind_ok in H as (res & s1 & H1 & H). rewrite <- Hc0.
  destruct res as [i|].
  2:{ apply insert_run_spec in H1. injection H as _ <-. by rewrite H1. }
  apply tx_bind_ok in H as (u2 & s2 & H2 & H). apply tx_bind_ok in H as (u3 & s3 & H3 & H4).
  rewrite (reads_ok _ _ _ _ _ (reads_schedule_event _ _ _ _) H4), (reads_ok _ _ _ _ _ (reads_run_event _ _ _) H3).
  destruct Hst as [[-> Hex]|Hst].
  - rewrite bool_decide_true in H2 by done. apply rtc_once.
    eapply new_run_step; [done|done|]. intros now. by simpl.
  - assert (bool_decide (status = PendingDispatch) = false) as Hf
      by (apply bool_decide_eq_false; destruct Hst; congruence).
    rewrite Hf in H1, H2. injection H2 as _ <-. apply rtc_once.
    apply insert_run_spec in H1 as (_ & Hnone & now & Hc1 & Hck & Hoc). rewrite Hc1.
    unfold run_checks in Hck. simp_bool. apply CSNewTerminal; try done.
    destruct Hst as [-> | ->]; simpl; eauto.
Qed.

Lemma commit_schedule_plan_refines plan : op_refines (commit_schedule_plan plan).
Proof.
  apply transaction_refines.
  do 4 (apply body_bind; [apply body_op, op_reads; reads|]; intros ?).
  apply body_bind; [apply body_op, op_reads, reads_selection|]. intros [executions si].
  apply body_bind; [do 2 (apply body_for; intros ?); apply insert_scheduled_occurrence_refines|].
  intros _. apply body_op, op_reads. reads.
Qed.

Lemma claim_due_schedules_reads owner limit lease : reads_only (claim_due_schedules owner limit lease).
Proof. unfold claim_due_schedules. reads. Qed.

Lemma set_schedule_enabled_reads id rev en nx : reads_only (set_schedule_enabled id rev en nx).
Proof. unfold set_schedule_enabled. reads. Qed.

End Creation.

(** ** Publication *)

Lemma transaction_steps {A} (body : tx (outcome A)) env s res s' :
  (forall s1 a s2, core_of s1 = core_of s -> body env s1 = (Ok a, s2) ->
     rtc core_step (core_of s) (core_of s2)) ->
  transaction body env s = (res, s') -> rtc core_step (core_of s) (core_of s').
Proof.
  intros Hb. unfold transaction.
  destruct (tx_bind statement (fun _ => body) env s) as [[out|e] s1] eqn:H1; [|by intros [= <- <-]].
  apply tx_bind_ok in H1 as (now & s0 & H0 & H1).
  pose proof (Hb _ _ _ (reads_statement _ _ _ _ H0) H1) as Hs.
  destruct out as [a|a|a]; [|by intros [= <- <-]..].
  destruct (e_fault env (tx_statements s1)); [|by intros [= <- <-]].
  destruct (e_commit_applied env (tx_statements s1)); by intros [= <- <-].
Qed.

(** A record that names the attempt its dispatch row names; rows keep their
    attempt, so a claimed record stays faithful. *)
Definition record_faithful (c : CoreTables) (record : OutboxRecord) : Prop :=
  forall o, outbox c !! or_id record = Some o -> o_attempt_id o = or_attempt_id record.

Lemma mark_published_refines owner record seq env s res s' :
  core_inv (core_of s) -> record_faithful (core_of s) record ->
  mark_published owner record seq env s = (res, s') -> rtc core_step (core_of s) (core_of s').
Proof.
  intros Hi Hrec. unfold mark_published, tx_bind at 1, tx_lift.
  destruct (try_from in_i64 Internal seq) as [sequence|e]; [|by intros [= _ <-]].
  apply transaction_steps. clear s' res. intros s1 out s2 Hc H. rewrite <- Hc in *. clear s Hc.
  apply tx_bind_ok in H as (res & s3 & H3 & H). apply update_outbox_spec in H3.
  destruct res as [o|]; [|by destruct H3 as [_ _]; inversion H].
  destruct H3 as (Ho & Hcond & Hc3). apply andb_true_iff in Hcond as [Hcond Hpub].
  apply andb_true_iff in Hcond as [Hrun%N.eqb_eq Hclaim%bool_decide_eq_true].
  pose proof (claimed_undispatched _ _ _ _ Hi Ho Hclaim) as Hu.
  destruct (undispatched_latest _ _ _ Hi Ho Hu) as (r & a & Hl & Hst & Hul).
  pose proof Hl as (Hr & Ha & _ & Hid & _).
  apply tx_bind_ok in H as (res & s4 & H4 & H). apply update_attempt_spec in H4.
  rewrite Hc3 in H4. simpl in H4. rewrite <- (Hrec _ Ho), Ha in H4.
  destruct res as [a0|]; [|destruct H4 as [_ H4]; specialize (H4 a eq_refl); simp_bool; by destruct Hul].
  destruct H4 as ([= <-] & _ & Hc4).
  apply tx_bind_ok in H as (res & s5 & H5 & H). apply update_run_spec in H5.
  rewrite Hc4 in H5. simpl in H5. rewrite <- Hrun, Hr in H5.
  destruct res as [r0|]; [|destruct H5 as [_ H5]; specialize (H5 r eq_refl); by simp_bool].
  destruct H5 as ([= <-] & _ & now5 & Hc5).
  apply tx_bind_ok in H as (u6 & s6 & H6 & [= _ <-]).
  rewrite (reads_ok _ _ _ _ _ (reads_run_event _ _ _) H6), Hc5. apply rtc_once.
  eapply (CSLocal _ (o_run_id o) r (o_attempt_id o) a (or_id record) o _ _ _ Hl).
  destruct Hul as [Hs Hle], Hu as [Hp Hcn].
  apply LSPublish; simpl; try done.
Qed.

(** ** Workers *)

Lemma op_post {A B} (m : tx A) (k : A -> tx B) :
  op_refines m -> (forall a, reads_only (k a)) -> op_refines (tx_bind m k).
Proof. intros Hm Hk. apply op_bind; [done|]. intros a. by apply op_reads. Qed.

Lemma claim_attempt_refines request : op_refines (claim_attempt request).
Proof.
  unfold claim_attempt. apply op_post; [|intros [[]|]; reads].
  intros env s res s' Hi. apply transaction_steps. clear s' res. intros s1 out s2 Hc H.
  rewrite <- Hc in *. clear s Hc.
  apply tx_bind_ok in H as (d & s1' & [= <- <-] & H).
  apply tx_bind_ok in H as (res & s3 & H3 & H). apply update_attempt_spec in H3.
  destruct res as [a|]; [|destruct H3 as [H3 _]; injection H as _ <-; by rewrite H3].
  destruct H3 as (Ha & Hcond & Hc3). apply andb_true_iff in Hcond as [Hcond _].
  apply andb_true_iff in Hcond as [_ Hst%bool_decide_eq_true].
  destruct (attempt_latest _ _ _ Hi Ha ltac:(congruence)) as (r & oid & o & Hl & Hcp & _).
  pose proof Hl as (Hr & _).
  apply tx_bind_ok in H as (res & s4 & H4 & H). apply update_run_spec in H4.
  rewrite Hc3 in H4. simpl in H4. rewrite Hr in H4.
  apply tx_bind_ok in H as (r0 & s5 & H5 & H). apply tx_lift_ok in H5 as [H5 ->].
  destruct res as [r1|]; [|done]. injection H5 as ->.
  destruct H4 as ([= <-] & Hrs%bool_decide_eq_true & now4 & Hc4).
  apply tx_bind_ok in H as (u6 & s6 & H6 & [= _ <-]).
  rewrite (reads_ok _ _ _ _ _ (reads_run_event _ _ _) H6), Hc4. apply rtc_once.
  rewrite <- (put_run_attempt _ _ _ _ _ _ _ _ _ Hl).
  eapply CSLocal; [done|]. apply LSClaim; try done; by repeat split.
Qed.

Lemma holds_lease_spec w now a :
  holds_lease w now a = true -> a_worker_id a = Some w /\ a_status a = ARunning
  /\ exists t, a_lease_expires_at a = Some t /\ now < t.
Proof.
  unfold holds_lease, opt_gt. intros H. apply andb_true_iff in H as [H Hl].
  apply andb_true_iff in H as [Hw%bool_decide_eq_true Hs%bool_decide_eq_true].
  split; [done|]. split; [done|]. destruct (a_lease_expires_at a) as [t|]; [|done].
  exists t. split; [done|by apply Z.ltb_lt].
Qed.

(** A worker's report that keeps the lease. *)
Lemma worker_report_steps texts id cond f env s res s' :
  core_inv (core_of s) ->
  (forall now a, cond now a = true -> a_status a = ARunning /\ attempt_frame a (f now a)
     /\ leased (f now a) /\ a_worker_id (f now a) = a_worker_id a) ->
  update_attempt texts id cond f env s = (res, s') -> rtc core_step (core_of s) (core_of s').
Proof.
  intros Hi Hf H. apply update_attempt_spec in H.
  destruct res as [[a|]|e]; [|by destruct H as [-> _]|by rewrite H].
  destruct H as (Ha & Hcond & ->). destruct (Hf _ _ Hcond) as (Hst & Haf & Hle & Hw).
  destruct (attempt_latest _ _ _ Hi Ha ltac:(congruence)) as (r & oid & o & Hl & _).
  apply rtc_once. rewrite <- (put_attempt_only _ _ _ _ _ _ _ _ Hl).
  eapply CSLocal; [done|]. by apply LSWorkerReport.
Qed.

Lemma renew_lease_refines request : op_refines (renew_lease request).
Proof.
  unfold renew_lease. apply op_post; [|intros; reads].
  intros env s res s' Hi. apply worker_report_steps; [done|].
  intros now a (Hw & Hst & _)%holds_lease_spec. unfold leased. simpl. rewrite Hw. by repeat split; eauto.
Qed.

Lemma record_attempt_output_refines request : op_refines (record_attempt_output request).
Proof.
  unfold record_attempt_output. apply op_bind; [apply op_reads; reads|]. intros sequence.
  apply op_post; [|intros; reads].
  intros env s res s' Hi. apply worker_report_steps; [done|].
  intros now a Hc. apply andb_true_iff in Hc as [(Hw & Hst & t & Ht & _)%holds_lease_spec _].
  unfold leased. simpl. rewrite Hw, Ht. by repeat split; eauto.
Qed.

Section Completion.
Context {TC : TimeCrate}.

Lemma completion_status_pairs request retry :
  (completion_run_status request retry, completion_attempt_status request)
    ∈ [(Succeeded, ASucceeded); (Skipped, ASkipped); (Failed, AFailed); (RetryWait, AFailed)].
Proof.
  unfold completion_run_status, completion_attempt_status.
  destruct (co_skipped request), (co_succeeded request), (should_retry request retry); set_solver.
Qed.

Lemma completion_retries request retry :
  completion_run_status request retry = RetryWait ->
  rt_idempotent retry = true /\ rt_attempt_count retry < rt_max_attempts retry.
Proof.
  unfold completion_run_status. destruct (co_skipped request); [done|].
  destruct (co_succeeded request); [done|].
  destruct (should_retry request retry) eqn:H; [|done]. intros _.
  unfold should_retry in H. by simp_bool.
Qed.

Lemma retry_row_spec r retry :
  retry_row r = Ok retry ->
  rt_attempt_count retry = r_attempt_count r /\ rt_max_attempts retry = r_max_attempts r
  /\ rt_idempotent retry = snapshot_idempotent (r_execution_snapshot r).
Proof. unfold retry_row. destruct (r_execution_snapshot r); [|done]. by intros [= <-]. Qed.

(** The step of a completed attempt and its Run. *)
Lemma completion_step request retry c r a oid o next_retry now now' tail1 tail2 seq err reason :
  core_inv c -> latest c (a_run_id a) r (co_attempt_id request) a oid o ->
  a_status a = ARunning -> retry_row r = Ok retry ->
  let status := completion_run_status request retry in
  let a' := attempt_set a (completion_attempt_status request) (a_worker_id a) (a_started_at a)
              (a_heartbeat_at a) None (Some now) (co_exit_code request) tail1 tail2 seq err in
  let r' := run_set r status (r_attempt_count r) next_retry (r_queued_at r) (r_started_at r)
              (if bool_decide (status = RetryWait) then None else Some now') reason in
  core_step c (with_run (with_attempt c (co_attempt_id request) a') (a_run_id a) r').
Proof.
  intros Hi Hl Hst Hrt status a' r'. pose proof (latest_coupled _ _ _ _ _ _ _ Hi Hl) as Hcp.
  rewrite <- (put_run_attempt _ _ _ _ _ _ _ _ _ Hl). eapply CSLocal; [done|].
  apply retry_row_spec in Hrt as (Hc & Hm & Hid).
  apply LSComplete; try done; try (by repeat split).
  - by eapply status_of_running.
  - apply completion_status_pairs.
  - intros [Hi' Hlt]%completion_retries. unfold idempotent. by rewrite <- Hid, <- Hc, <- Hm.
  - simpl. destruct (bool_decide_reflect (status = RetryWait)); split; try done; by intros [??].
Qed.

Lemma complete_attempt_refines request : op_refines (complete_attempt request).
Proof.
  unfold complete_attempt. destruct (_ && _); [apply op_reads; reads|].
  intros env s res s' Hi. apply transaction_steps. clear s' res. intros s1 out s2 Hc H.
  rewrite <- Hc in *. clear s Hc.
  apply tx_bind_ok in H as (res & s3 & H3 & H). apply update_attempt_spec in H3.
  destruct res as [a|]; [|destruct H3 as [H3 _]; injection H as _ <-; by rewrite H3].
  destruct H3 as (Ha & (_ & Hst & _)%holds_lease_spec & Hc3).
  destruct (attempt_latest _ _ _ Hi Ha ltac:(congruence)) as (r & oid & o & Hl & Hcp & _).
  pose proof Hl as (Hr & _). pose proof (status_of_running _ _ _ Hcp Hst) as Hrs.
  apply tx_bind_ok in H as (now4 & s4 & H4%reads_statement & H).
  apply tx_bind_ok in H as (d & s4' & [= <- <-] & H).
  apply tx_bind_ok in H as (r0 & s5 & H5 & H). apply tx_lift_ok in H5 as [H5 ->].
  fold (core_of s4) in H5. rewrite H4, Hc3 in H5. simpl in H5. rewrite Hr in H5. injection H5 as <-.
  apply tx_bind_ok in H as (retry & s6 & H6 & H). apply tx_lift_ok in H6 as [Hrt ->].
  apply tx_bind_ok in H as (wall & s7 & [= <- <-] & H).
  apply tx_bind_ok in H as (res & s8 & H8 & H). apply update_run_spec in H8.
  rewrite H4, Hc3 in H8. simpl in H8. rewrite Hr in H8.
  destruct res as [r1|]; [|destruct H8 as [_ H8]; specialize (H8 r eq_refl); by simp_bool].
  destruct H8 as ([= <-] & _ & now8 & Hc8).
  apply tx_bind_ok in H as (u9 & s9 & H9 & [= _ <-]).
  rewrite (reads_ok _ _ _ _ _ (reads_run_event _ _ _) H9), Hc8. apply rtc_once.
  by eapply completion_step.
Qed.

End Completion.

(** ** Reconciliation *)

(** Two states that agree outside one Run. *)
Definition same_except (id : Uuid) (c c' : CoreTables) : Prop :=
  (forall i, i <> id -> runs c' !! i = runs c !! i)
  /\ (forall aid a, run_attempts c !! aid = Some a -> a_run_id a <> id -> run_attempts c' !! aid = Some a)
  /\ (forall oid o, outbox c !! oid = Some o -> o_run_id o <> id -> outbox c' !! oid = Some o).

(** A loop over rows of distinct Runs: each iteration needs [P] of its row,
    which the iterations for other Runs leave true. *)
Lemma steps_for {A} (rid : A -> Uuid) (P : A -> CoreTables -> Prop) (f : A -> tx unit) env :
  (forall x y c c', P y c -> rid x <> rid y -> same_except (rid x) c c' -> P y c') ->
  (forall x s u s', core_inv (core_of s) -> P x (core_of s) -> f x env s = (Ok u, s') ->
     core_step (core_of s) (core_of s') /\ same_except (rid x) (core_of s) (core_of s')) ->
  forall l s u s', NoDup (map rid l) -> core_inv (core_of s) -> Forall (fun x => P x (core_of s)) l ->
  tx_for l f env s = (Ok u, s') -> rtc core_step (core_of s) (core_of s').
Proof.
  intros Hstable Hf. induction l as [|x l IH]; intros s u s' Hnd Hi Hall H; simpl in H.
  - injection H as _ <-. done.
  - apply tx_bind_ok in H as (u1 & s1 & H1 & H). simpl in Hnd.
    inversion Hnd as [|? ? Hnot Hnd']; subst. apply Forall_cons in Hall as [Hx Hall].
    destruct (Hf _ _ _ _ Hi Hx H1) as [Hs Hsame]. eapply rtc_l; [done|].
    eapply IH; [done|by eapply core_step_inv| |done].
    apply Forall_forall. intros y Hy. rewrite Forall_forall in Hall. eapply Hstable; [by apply Hall| |done].
    intros Heq. apply Hnot. rewrite Heq. by apply list_elem_of_fmap_2.
Qed.

Lemma same_except_local c id r' aid a' oid o' a o :
  run_attempts c !! aid = Some a -> a_run_id a = id -> outbox c !! oid = Some o -> o_run_id o = id ->
  same_except id c (put c id r' aid a' oid o').
Proof.
  intros Ha Hid Ho Hod. repeat split; simpl.
  - intros i Hne. by rewrite lookup_insert_ne.
  - intros aid1 a1 H1 Hne. rewrite lookup_insert_ne; [done|]. intros ->. congruence.
  - intros oid1 o1 H1 Hne. rewrite lookup_insert_ne; [done|]. intros ->. congruence.
Qed.

Lemma same_except_fresh c id r' aid a oid o k :
  fresh_dispatch c id k aid a oid o -> same_except id c (put c id r' aid a oid o).
Proof.
  intros (Ha & Ho & _). repeat split; simpl.
  - intros i Hne. by rewrite lookup_insert_ne.
  - intros aid1 a1 H1 Hne. rewrite lookup_insert_ne; [done|]. intros ->. congruence.
  - intros oid1 o1 H1 Hne. rewrite lookup_insert_ne; [done|]. intros ->. congruence.
Qed.

(** *** Expired dispatches *)

Definition expirable (x : Uuid * OutboxRow) (c : CoreTables) : Prop :=
  outbox c !! x.1 = Some x.2 /\ undispatched x.2.

Lemma expire_dispatch_step x env s u s' :
  core_inv (core_of s) -> expirable x (core_of s) -> expire_dispatch x env s = (Ok u, s') ->
  core_step (core_of s) (core_of s') /\ same_except (o_run_id x.2) (core_of s) (core_of s').
Proof.
  destruct x as [oid o]. simpl. intros Hi [Ho Hu] H. simpl in *. unfold expire_dispatch in H. simpl in H.
  destruct (undispatched_latest _ _ _ Hi Ho Hu) as (r & a & Hl & Hst & Hs & Hle).
  pose proof Hl as (Hr & Ha & _ & Hid & _).
  apply tx_bind_ok in H as (res & s3 & H3 & H). apply update_outbox_spec in H3. rewrite Ho in H3.
  destruct res as [o0|].
  2:{ destruct H3 as [_ H3]. specialize (H3 o eq_refl). apply outbox_pending_spec in Hu. congruence. }
  destruct H3 as ([= <-] & _ & Hc3).
  apply tx_bind_ok in H as (res & s4 & H4 & H). apply update_attempt_spec in H4.
  rewrite Hc3 in H4. simpl in H4. rewrite Ha in H4.
  destruct res as [a0|]; [|destruct H4 as [_ H4]; specialize (H4 a eq_refl); by simp_bool].
  destruct H4 as ([= <-] & _ & Hc4).
  apply tx_bind_ok in H as (res & s5 & H5 & H). apply update_run_spec in H5.
  rewrite Hc4 in H5. simpl in H5. rewrite Hr in H5.
  destruct res as [r0|]; [|destruct H5 as [_ H5]; specialize (H5 r eq_refl); by simp_bool].
  destruct H5 as ([= <-] & _ & now5 & Hc5).
  rewrite (reads_ok _ _ _ _ _ (reads_run_event _ _ _) H), Hc5.
  split; [|by eapply (same_except_local (core_of s) (o_run_id o) _ (o_attempt_id o) _ oid)].
  eapply (CSLocal _ (o_run_id o) r (o_attempt_id o) a oid o _ _ _ Hl).
  destruct Hu as [Hp Hcn]. apply LSExpireDispatch; simpl; eauto; by repeat split.
Qed.

Lemma undispatched_distinct c rows :
  core_inv c -> Forall (fun x => expirable x c) rows -> NoDup (map fst rows) ->
  NoDup (map (fun x => o_run_id x.2) rows).
Proof.
  intros Hi Hall Hnd. induction rows as [|[oid o] rows IH]; simpl; [constructor|].
  simpl in Hnd. inversion Hnd as [|? ? Hnot Hnd']; subst. apply Forall_cons in Hall as [[Ho Hu] Hall].
  constructor; [|by apply IH]. intros H. apply list_elem_of_fmap in H as ([oid1 o1] & Heq & Hin).
  rewrite Forall_forall in Hall. destruct (Hall _ Hin) as [Ho1 Hu1]. simpl in *.
  destruct (undispatched_latest _ _ _ Hi Ho Hu) as (r & a & (Hr & Ha & _ & Hid & Hk & _) & _).
  destruct (undispatched_latest _ _ _ Hi Ho1 Hu1) as (r1 & a1 & (Hr1 & Ha1 & _ & Hid1 & Hk1 & _) & _).
  destruct Hi as [Hsh _].
  assert (o_attempt_id o = o_attempt_id o1) by (apply (inv_attempt_unique _ Hsh _ _ a a1); congruence).
  apply Hnot, list_elem_of_fmap. exists (oid1, o1). split; [|done]. simpl.
  by apply (inv_dispatch_unique _ Hsh _ _ o o1).
Qed.

Lemma reconcile_expired_dispatches_refines limit : body_refines (reconcile_expired_dispatches limit).
Proof.
  intros env s n s' Hi H. unfold reconcile_expired_dispatches in H.
  apply tx_bind_ok in H as (now & s1 & H1%reads_statement & H).
  apply tx_bind_ok in H as (locked & s1' & [= <- <-] & H).
  apply tx_bind_ok in H as (d & s1' & [= <- <-] & H). fold (core_of s1) in H. rewrite H1 in H.
  apply tx_bind_ok in H as (u & s2 & H2 & [= _ <-]).
  match type of H2 with tx_for ?l _ _ _ = _ => set (rows := l) in * end.
  assert (Forall (fun x => expirable x (core_of s)) rows) as Hall.
  { apply Forall_forall. intros [oid o] [Hin Ho]%rows_of_elem. split; [done|].
    apply select_ids_elem in Hin as (o1 & key & Ho1 & _ & Hc). simpl in *.
    assert (o1 = o) as -> by congruence.
    apply outbox_pending_spec. by destruct (outbox_pending o). }
  rewrite <- H1. rewrite <- H1 in Hi, Hall.
  eapply (steps_for (fun x => o_run_id x.2) expirable); [..|done].
  - intros x y c c' [Ho Hu] Hne (_ & _ & Hsame). split; [|done]. by apply Hsame.
  - intros x s3 u3 s3'. apply expire_dispatch_step.
  - apply (undispatched_distinct (core_of s1)); [done|done|]. apply rows_of_nodup, select_ids_nodup.
  - done.
  - done.
Qed.

(** *** Due retries *)

Definition retriable (x : Uuid * Z * Uuid) (c : CoreTables) : Prop :=
  exists r, runs c !! x.1.1 = Some r /\ r_status r = RetryWait /\ r_attempt_count r = x.1.2.

(** The row a retry leaves, and the dispatch it adds. *)
Lemma start_retry_spec from id k queue env s u s' r :
  runs (core_of s) !! id = Some r -> r_status r = from ->
  start_retry from id k queue env s = (Ok u, s') ->
  exists r' aid a oid o, core_of s' = put (core_of s) id r' aid a oid o
    /\ fresh_dispatch (core_of s) id (k + 1) aid a oid o
    /\ r_status r' = PendingDispatch /\ r_attempt_count r' = k + 1
    /\ r_completed_at r' = r_completed_at r /\ run_frame r r'.
Proof.
  intros Hr Hst H. unfold start_retry in H.
  apply tx_bind_ok in H as (res & s1 & H1 & H2). apply update_run_spec in H1. rewrite Hr in H1.
  destruct res as [r0|]; [|destruct H1 as [_ H1]; specialize (H1 r eq_refl); by simp_bool].
  destruct H1 as ([= <-] & _ & now & Hc1).
  apply create_attempt_spec in H2 as (aid & a & oid & o & Hc2 & Hfr). rewrite Hc1 in Hc2, Hfr.
  eexists _, aid, a, oid, o. split; [exact Hc2|]. split; [exact Hfr|]. by repeat split.
Qed.

Lemma completed_of_live c id r :
  core_inv c -> runs c !! id = Some r -> is_terminal (r_status r) = false -> r_completed_at r = None.
Proof.
  intros [Hsh _] Hr Ht. pose proof (inv_run _ Hsh _ _ Hr) as (_ & _ & _ & _ & _ & Hc).
  destruct (r_completed_at r); [|done]. rewrite (proj1 Hc) in Ht; eauto. done.
Qed.

Lemma retry_step x env s u s' :
  core_inv (core_of s) -> retriable x (core_of s) ->
  (let '(run_id, attempt_count, queue_id) := x in start_retry RetryWait run_id attempt_count queue_id)
    env s = (Ok u, s') ->
  core_step (core_of s) (core_of s') /\ same_except x.1.1 (core_of s) (core_of s').
Proof.
  destruct x as [[id k] queue]. simpl. intros Hi (r & Hr & Hst & Hk) H. simpl in *.
  destruct (start_retry_spec _ _ _ _ _ _ _ _ _ Hr Hst H)
    as (r' & aid & a & oid & o & -> & Hfr & Hst' & Hcnt & Hcomp & Hf).
  split; [|by eapply same_except_fresh]. subst k. eapply CSRetry; try done.
  rewrite Hcomp. by eapply completed_of_live; [done|done|rewrite Hst].
Qed.

Lemma collect_elem {A B E} (f : A -> result B E) l ys y :
  collect f l = Ok ys -> y ∈ ys -> exists x, x ∈ l /\ f x = Ok y.
Proof.
  intros H%collect_ok Hin. apply list_elem_of_lookup in Hin as [i Hi].
  destruct (Forall2_lookup_r _ _ _ _ _ H Hi) as (x & Hx & Hf).
  exists x. split; [by eapply list_elem_of_lookup_2|done].
Qed.

Lemma collect_map {A B E C} (f : A -> result B E) (g : A -> C) (h : B -> C) l ys :
  (forall x y, f x = Ok y -> h y = g x) -> collect f l = Ok ys -> map h ys = map g l.
Proof. intros Hf H%collect_ok. induction H; simpl; [done|]. f_equal; auto. Qed.

Lemma reconcile_due_retries_refines limit : body_refines (reconcile_due_retries limit).
Proof.
  intros env s n s' Hi H. unfold reconcile_due_retries in H.
  apply tx_bind_ok in H as (now & s1 & H1%reads_statement & H).
  apply tx_bind_ok in H as (locked & s1' & [= <- <-] & H).
  apply tx_bind_ok in H as (d & s1' & [= <- <-] & H). fold (core_of s1) in H.
  apply tx_bind_ok in H as (rows & s2 & H2 & H). apply tx_lift_ok in H2 as [Hrows ->].
  apply tx_bind_ok in H as (u & s3 & H3 & [= _ <-]). rewrite <- H1 in *.
  eapply (steps_for (fun x => x.1.1) retriable); [..|exact H3].
  - intros x y c c' (r & Hr & ?) Hne (Hsame & _). exists r. split; [|done]. by rewrite Hsame.
  - intros x s4 u4 s4' Hi4 Hx H. by eapply retry_step.
  - rewrite (collect_map decode_queue fst (fun x : N * Z * N => x.1.1) _ _ ltac:(
      intros [i r] y; unfold decode_queue; simpl; destruct (snapshot_queue_id _); simpl; [by intros [= <-]|done]) Hrows).
    apply rows_of_nodup, select_ids_nodup.
  - done.
  - apply Forall_forall. intros y Hy. destruct (collect_elem _ _ _ _ Hrows Hy) as ([id r] & Hin & Hd).
    apply rows_of_elem in Hin as [Hin Hr]. apply select_ids_elem in Hin as (r1 & key & Hr1 & _ & Hc).
    simpl in *. assert (r1 = r) as -> by congruence.
    unfold decode_queue in Hd. simpl in Hd. destruct (snapshot_queue_id _); simplify_eq/=.
    exists r. split; [done|]. split; [|done].
    destruct (bool_decide_reflect (r_status r = RetryWait)); [done|]. simpl in Hc. done.
Qed.

(** *** Expired leases *)

Definition lease_lost (x : ExpiredLeaseRow) (c : CoreTables) : Prop :=
  exists r a, runs c !! el_run_id x = Some r /\ run_attempts c !! el_attempt_id x = Some a
    /\ a_run_id a = el_run_id x /\ a_status a = ARunning
    /\ el_attempt_count x = r_attempt_count r /\ el_max_attempts x = r_max_attempts r
    /\ el_idempotent x = snapshot_idempotent (r_execution_snapshot r).

Lemma latest_with_attempt c id r aid a oid o a' :
  latest c id r aid a oid o -> attempt_frame a a' ->
  latest (with_attempt c aid a') id r aid a' oid o.
Proof.
  intros (Hr & Ha & Ho & Hid & Hk & Hoa) (H1 & H2 & _).
  repeat split; simpl; try done; [by rewrite lookup_insert_eq|congruence..].
Qed.

(** The branch that starts the next attempt. *)
Lemma expire_lease_retry c id r aid0 a0 a0' oid0 o0 r' aid a oid o :
  core_inv c -> latest c id r aid0 a0 oid0 o0 -> a_status a0 = ARunning ->
  idempotent r -> r_attempt_count r < r_max_attempts r ->
  unleased a0' AFailed -> attempt_frame a0 a0' -> r_status r' = PendingDispatch ->
  r_attempt_count r' = r_attempt_count r + 1 -> r_completed_at r' = r_completed_at r ->
  run_frame r r' ->
  fresh_dispatch (with_attempt c aid0 a0') id (r_attempt_count r + 1) aid a oid o ->
  core_step c (put (with_attempt c aid0 a0') id r' aid a oid o)
  /\ same_except id c (put (with_attempt c aid0 a0') id r' aid a oid o).
Proof.
  intros Hi Hl Hst0 Hid Hlt Hul Haf Hst Hcnt Hcomp Hf Hfr.
  pose proof (latest_coupled _ _ _ _ _ _ _ Hi Hl) as Hcp.
  pose proof (status_of_running _ _ _ Hcp Hst0) as Hrs. pose proof Hl as (Hr & Ha & _ & Hrid & _).
  assert (fresh_dispatch c id (r_attempt_count r + 1) aid a oid o) as Hfr'.
  { destruct Hfr as (Hn & Hrest). split; [|done]. simpl in Hn.
    by apply lookup_insert_None in Hn as [? _]. }
  split.
  - eapply CSLeaseRetry; try done. rewrite Hcomp. by eapply completed_of_live; [done|done|rewrite Hrs].
  - destruct Hfr as (Hn & Hno & _). repeat split; simpl.
    + intros i Hne. by rewrite lookup_insert_ne.
    + intros aid1 a1 H1 Hne. simpl in Hn. apply lookup_insert_None in Hn as [Hn _].
      rewrite !lookup_insert_ne; [done|congruence|congruence].
    + intros oid1 o1 H1 Hne. simpl in Hno. by rewrite lookup_insert_ne by congruence.
Qed.

Lemma expire_lease_step x env s u s' :
  core_inv (core_of s) -> lease_lost x (core_of s) -> expire_lease x env s = (Ok u, s') ->
  core_step (core_of s) (core_of s') /\ same_except (el_run_id x) (core_of s) (core_of s').
Proof.
  intros Hi (r & a & Hr & Ha & Hrid & Hst & Hk & Hm & Hid) H. unfold expire_lease in H.
  destruct (attempt_latest _ _ _ Hi Ha ltac:(congruence)) as (r1 & oid & o & Hl & Hcp & Hor).
  rewrite Hrid in *. pose proof Hl as (Hr1 & _ & Ho & _). assert (r1 = r) as -> by congruence.
  pose proof (status_of_running _ _ _ Hcp Hst) as Hrs.
  apply tx_bind_ok in H as (res & s3 & H3 & H). apply update_attempt_spec in H3. rewrite Ha in H3.
  destruct res as [a0|]; [|destruct H3 as [_ H3]; specialize (H3 a eq_refl); by simp_bool].
  destruct H3 as ([= <-] & _ & Hc3). rewrite Hk, Hm, Hid in *.
  destruct (snapshot_idempotent _ && _) eqn:Hretry.
  - apply andb_true_iff in Hretry as [Hidem Hlt%Z.ltb_lt].
    assert (runs (core_of s3) !! el_run_id x = Some r) as Hr3 by (by rewrite Hc3).
    destruct (start_retry_spec _ _ _ _ _ _ _ _ _ Hr3 Hrs H)
      as (r' & aid & a1 & oid1 & o1 & -> & Hfr & Hst' & Hcnt & Hcomp & Hf).
    rewrite Hc3 in Hfr |- *. eapply expire_lease_retry; try done; by repeat split.
  - apply tx_bind_ok in H as (res & s4 & H4 & [= _ <-]). apply update_run_spec in H4.
    rewrite Hc3 in H4. simpl in H4. rewrite Hr in H4.
    destruct res as [r0|]; [|destruct H4 as [_ H4]; specialize (H4 r eq_refl); by simp_bool].
    destruct H4 as ([= <-] & _ & now4 & ->).
    rewrite <- (put_run_attempt _ _ _ _ _ _ _ _ _ Hl).
    split; [|by eapply same_except_local].
    eapply CSLocal; [done|]. apply LSLoseLease; try done; try (by repeat split).
    intros [Hidem Hlt]. unfold idempotent in Hidem. rewrite Hidem in Hretry. simpl in Hretry.
    apply Z.ltb_ge in Hretry. lia.
Qed.

Lemma running_distinct c rows :
  core_inv c -> Forall (fun x => lease_lost x c) rows -> NoDup (map el_attempt_id rows) ->
  NoDup (map el_run_id rows).
Proof.
  intros Hi Hall Hnd. induction rows as [|x rows IH]; simpl; [constructor|].
  simpl in Hnd. inversion Hnd as [|? ? Hnot Hnd']; subst. apply Forall_cons in Hall as [Hx Hall].
  constructor; [|by apply IH]. intros H. apply list_elem_of_fmap in H as (y & Heq & Hin).
  rewrite Forall_forall in Hall. pose proof (Hall _ Hin) as Hy.
  destruct Hx as (r & a & _ & Ha & Hrid & Hst & _), Hy as (r1 & a1 & _ & Ha1 & Hrid1 & Hst1 & _).
  destruct (attempt_latest _ _ _ Hi Ha ltac:(congruence)) as (r2 & ? & ? & (Hr2 & _ & _ & _ & Hk & _) & _).
  destruct (attempt_latest _ _ _ Hi Ha1 ltac:(congruence)) as (r3 & ? & ? & (Hr3 & _ & _ & _ & Hk1 & _) & _).
  destruct Hi as [Hsh _]. apply Hnot, list_elem_of_fmap. exists y. split; [|done].
  apply (inv_attempt_unique _ Hsh _ _ a a1); congruence.
Qed.

Lemma reconcile_expired_leases_refines limit : body_refines (reconcile_expired_leases limit).
Proof.
  intros env s n s' Hi H. unfold reconcile_expired_leases in H.
  apply tx_bind_ok in H as (now & s1 & H1%reads_statement & H).
  apply tx_bind_ok in H as (locked & s1' & [= <- <-] & H).
  apply tx_bind_ok in H as (d & s1' & [= <- <-] & H). fold (core_of s1) in H.
  apply tx_bind_ok in H as (rows & s2 & H2 & H). apply tx_lift_ok in H2 as [Hrows ->].
  apply tx_bind_ok in H as (u & s3 & H3 & [= _ <-]). rewrite <- H1 in *.
  assert (Forall (fun x => lease_lost x (core_of s1)) rows) as Hall.
  { apply Forall_forall. intros y Hy. destruct (collect_elem _ _ _ _ Hrows Hy) as ([aid a] & Hin & Hd).
    apply rows_of_elem in Hin as [Hin Ha]. apply select_ids_elem in Hin as (a1 & key & Ha1 & _ & Hc).
    simpl in *. assert (a1 = a) as -> by congruence.
    unfold expired_lease_row in Hd. simpl in Hd. fold (core_of s1) in Hd.
    destruct (runs (core_of s1) !! a_run_id a) as [r|] eqn:Hr; simpl in Hd; [|done].
    destruct (snapshot_queue_id _); simplify_eq/=. exists r, a. repeat split; try done.
    unfold lease_expired in Hc. destruct (bool_decide_reflect (a_status a = ARunning)); done. }
  eapply (steps_for el_run_id lease_lost); [..|exact H3].
  - intros x y c c' (r & a & Hr & Ha & Hrid & Hrest) Hne (Hs1 & Hs2 & _). exists r, a.
    rewrite Hs1 by done. split; [done|]. split; [|done]. apply Hs2; [done|congruence].
  - intros x s4 u4 s4' Hi4 Hx H. by eapply expire_lease_step.
  - apply (running_distinct (core_of s1)); [done|done|].
    rewrite (collect_map (expired_lease_row (tx_db s1)) fst el_attempt_id _ _ ltac:(
      intros [i a] y; unfold expired_lease_row; simpl;
      destruct (ok_or _ _); simpl; [destruct (snapshot_queue_id _); simpl; [by intros [= <-]|done]|done]) Hrows).
    apply rows_of_nodup, select_ids_nodup.
  - done.
  - done.
Qed.

Lemma reconcile_transaction_refines locked limit : op_refines (reconcile_transaction locked limit).
Proof.
  apply transaction_refines.
  apply body_bind; [apply reconcile_expired_dispatches_refines|]. intros n1.
  apply body_bind; [apply reconcile_due_retries_refines|]. intros n2.
  apply body_bind; [apply reconcile_expired_leases_refines|]. intros n3.
  apply body_bind; [apply body_op, op_reads; unfold remove_expired_worker_presence; reads|]. intros n4.
  apply body_bind; [apply body_op, release_expired_claims_refines|]. intros n5.
  apply body_op, op_reads. reads.
Qed.
