(* ===== verification/WorkflowRefinement.v ===== *)
(** * The Workflow store refines the life cycle

    Launching, cancelling and reconciling Workflows touch Runs only through
    [create_normal_run], so they move the execution tables by life cycle steps. *)

From S2P Require Import Prelude RustStr Json Inputs Names Float Domain Auth Workflow Db Snapshot TxLogic Store WorkflowStore Lifecycle Refinement.
From Stdlib Require Import String.
From stdpp Require Import base numbers strings sorting gmap list relations.

Local Open Scope Z_scope.

Lemma reads_update_node id cond f : reads_only (update_node id cond f).
Proof. unfold update_node. reads. Qed.

Lemma reads_outgoing id : reads_only (outgoing id).
Proof. unfold outgoing. reads. Qed.

Lemma reads_complete_node id : reads_only (complete_node id).
Proof.
  unfold complete_node. apply reads_bind; [apply reads_statement|intros now].
  apply reads_bind; [apply reads_get|intros d]. destruct (node_outcome _); [|apply reads_ret].
  apply reads_bind; [apply reads_update_node|intros ?; apply reads_ret].
Qed.

Lemma reads_complete_nodes l : reads_only (complete_nodes l).
Proof.
  induction l as [|x l IH]; [apply reads_ret|]. simpl. apply reads_bind; [apply reads_complete_node|intros c].
  apply reads_bind; [destruct c; [apply reads_outgoing|apply reads_ret]|intros h].
  apply reads_bind; [exact IH|intros r; apply reads_ret].
Qed.

Lemma start_execution_refines node job e : body_refines (start_execution node job e).
Proof.
  unfold start_execution. apply body_bind; [apply create_normal_run_refines|intros []].
  apply body_op, op_reads. reads.
Qed.

Lemma activate_refines id : body_refines (activate id).
Proof.
  unfold activate. apply body_bind; [apply body_op, op_reads, reads_update_node|intros [n|]].
  - apply body_bind; [apply body_op, op_reads, reads_statement|intros now].
    apply body_bind; [apply body_op, op_reads, reads_get|intros d]. apply body_for. intros x. apply start_execution_refines.
  - apply body_op, op_reads, reads_ret.
Qed.

Lemma propagate_one_refines id : body_refines (propagate_one id).
Proof.
  unfold propagate_one. apply body_bind; [apply body_op, op_reads, reads_statement|intros now].
  apply body_bind; [apply body_op, op_reads, reads_get|intros d].
  apply body_bind; [apply body_op, op_reads, reads_lift|intros active]. destruct (negb active); [apply body_op, op_reads, reads_ret|].
  apply body_bind; [apply body_op, op_reads, reads_statement|intros now'].
  apply body_bind; [apply body_op, op_reads, reads_get|intros d'].
  apply body_bind; [apply body_op, op_reads, reads_lift|intros values]. destruct (dependency_decision values).
  - apply body_op, op_reads, reads_ret.
  - apply body_bind; [apply activate_refines|intros []; apply body_op, op_reads, reads_ret].
  - apply body_op, op_reads, reads_bind; [apply reads_update_node|intros _; apply reads_outgoing].
Qed.

Lemma propagate_refines fuel l : body_refines (propagate fuel l).
Proof.
  revert l. induction fuel as [|fuel IH]; intros l; [apply body_op, op_reads, reads_ret|].
  destruct l as [|x l]; [apply body_op, op_reads, reads_ret|]. simpl.
  apply body_bind; [apply propagate_one_refines|intros more; apply IH].
Qed.

Lemma reads_finish id : reads_only (finish id).
Proof. unfold finish. reads. Qed.

Lemma reconcile_invocation_refines : op_refines reconcile_invocation.
Proof.
  apply transaction_refines. apply body_bind; [apply body_op, op_reads, reads_statement|intros now].
  apply body_bind; [apply body_op, op_reads, reads_locked|intros locked].
  apply body_bind; [apply body_op, op_reads, reads_get|intros d].
  destruct (next_invocation d locked) as [id|]; [|apply body_op, op_reads, reads_ret].
  apply body_bind; [apply body_op, op_reads, reads_statement|intros now'].
  apply body_bind; [apply body_op, op_reads, reads_get|intros d'].
  apply body_bind; [apply body_op, op_reads, reads_complete_nodes|intros down].
  apply body_bind; [apply body_op, op_reads, reads_get|intros d''].
  apply body_bind; [apply propagate_refines|intros done_].
  apply body_op, op_reads. apply reads_bind; [apply reads_finish|intros []]. reads.
Qed.

Lemma reconcile_workflows_refines limit : op_refines (reconcile_workflows limit).
Proof.
  induction limit as [|limit IH]; [apply op_reads, reads_ret|]. simpl.
  apply op_bind; [apply reconcile_invocation_refines|intros []; [|apply op_reads, reads_ret]].
  apply op_bind; [exact IH|intros count; apply op_reads, reads_ret].
Qed.

Lemma reconcile_refines locked limit : op_refines (reconcile locked limit).
Proof.
  apply op_bind; [apply reconcile_transaction_refines|intros n]. apply op_bind; [apply reconcile_workflows_refines|intros m].
  apply op_reads, reads_ret.
Qed.

Section Launch.
Context {SJ : SerdeJson} {RF : RustFmt} {PG : PostgresServer} {SE : SnapshotEncoding}.

Lemma reads_node_records l : reads_only (node_records l).
Proof. induction l as [|x l IH]; simpl; reads. Qed.

Lemma reads_invocation id v : reads_only (invocation id v).
Proof.
  unfold invocation. apply reads_bind; [apply reads_statement|intros now]. apply reads_bind; [apply reads_get|intros d].
  apply reads_bind; [apply reads_lift|intros row]. destruct (negb _); [apply reads_fail|].
  apply reads_bind; [apply reads_statement|intros now']. apply reads_bind; [apply reads_get|intros d'].
  apply reads_bind; [apply reads_node_records|intros nodes]. reads.
Qed.

Lemma reads_catalog id : reads_only (catalog id).
Proof. unfold catalog. reads. Qed.

Lemma cancel_refines id : op_refines (cancel_run id).
Proof.
  apply transaction_refines, body_op, op_reads. apply reads_bind; [apply reads_statement|intros now].
  apply reads_bind; [apply reads_get|intros d]. apply reads_bind; [apply reads_lift|intros row]. apply reads_bind.
  - destruct (_ =? _)%string; [|apply reads_ret]. apply reads_bind; [apply reads_statement|intros n1].
    apply reads_bind; [by apply reads_modify|intros []]. apply reads_bind; [apply reads_statement|intros n2].
    apply reads_bind; [by apply reads_modify|intros []]. apply reads_finish.
  - intros []. apply reads_bind; [apply reads_invocation|intros r; apply reads_ret].
Qed.

Lemma reads_prepare_executions node ns si inputs l bytes : reads_only (prepare_executions node ns si inputs l bytes).
Proof.
  revert bytes. induction l as [|x l IH]; intros bytes; [apply reads_ret|]. cbn [prepare_executions].
  destruct (negb _); [apply reads_fail|]. apply reads_bind; [apply reads_fresh|intros id].
  apply reads_bind; [apply reads_lift|intros snap]. destruct (_ <? _); [apply reads_fail|].
  apply reads_bind; [unfold insert_node_execution; reads|intros []; apply IH].
Qed.

Lemma reads_prepare_nodes id ns launch nodes ids bytes count :
  reads_only (prepare_nodes_loop id ns launch nodes ids bytes count).
Proof.
  revert ids bytes count. induction nodes as [|x nodes IH]; intros ids bytes count; [apply reads_ret|].
  cbn [prepare_nodes_loop]. apply reads_bind; [apply reads_fresh|intros node].
  apply reads_bind; [unfold insert_node_run; reads|intros []].
  apply reads_bind; [unfold require_run_request; destruct (selection_ids _); apply reads_bind;
    [apply reads_run_request|intros ?; apply reads_lift]|intros []].
  apply reads_bind; [apply reads_selection|intros [ex si]]. apply reads_bind; [apply reads_check|intros []].
  apply reads_bind; [apply reads_check|intros []]. apply reads_bind; [apply reads_prepare_executions|intros b; apply IH].
Qed.

Lemma reads_replay launch id : reads_only (replay launch id).
Proof.
  unfold replay. apply reads_bind; [apply reads_invocation|intros r]. destruct (_ || _); [apply reads_fail|].
  apply reads_bind; [unfold json_inputs_equal; reads|intros []; [apply reads_ret|apply reads_fail]].
Qed.

Lemma start_refines launch : op_refines (start launch).
Proof.
  apply transaction_refines. apply body_bind; [apply body_op, op_reads, reads_statement|intros n0].
  apply body_bind; [apply body_op, op_reads, reads_statement|intros n1].
  apply body_bind; [apply body_op, op_reads, reads_get|intros d].
  destruct (invocation_for_request d (wl_request_id launch)) as [id|].
  { apply body_op, op_reads, reads_bind; [apply reads_replay|intros r; apply reads_ret]. }
  apply body_bind; [apply body_op, op_reads, reads_catalog|intros def].
  destruct (negb _); [apply body_op, op_reads, reads_fail|].
  apply body_bind; [apply body_op, op_reads, reads_fresh|intros id].
  apply body_bind; [apply body_op, op_reads; unfold insert_invocation; destruct (selection_ids _); reads|intros []].
  apply body_bind; [apply body_op, op_reads, reads_statement|intros n2].
  apply body_bind; [apply body_op, op_reads, reads_statement|intros n3].
  apply body_bind; [apply body_op, op_reads, reads_prepare_nodes|intros ids].
  apply body_bind; [apply body_for; intros e; apply body_op, op_reads; unfold insert_run_edge; reads|intros []].
  apply body_bind.
  - apply body_for. intros node. apply body_bind; [apply body_op, op_reads, reads_lift|intros nid; apply activate_refines].
  - intros []. apply body_op, op_reads, reads_bind; [apply reads_invocation|intros r; apply reads_ret].
Qed.

End Launch.
