(* ===== verification/StoreSystem.v ===== *)
(** * Histories of the store

    Sequences of store calls by any number of servers and workers, in any
    order, with any timestamps, faults and locks, and what every such history
    preserves: terminal Runs, the status diagram, one execution per attempt. *)

From S2P Require Import Prelude RustStr Json Inputs Names Float Domain Auth Workflow Db Snapshot TxLogic Store WorkflowStore Catalog WorkflowDefinitions Lifecycle Refinement WorkflowRefinement.
From Stdlib Require Import String.
From stdpp Require Import base numbers strings sorting gmap list relations.

Local Open Scope Z_scope.

(** One call of an operation: its answer and the database it leaves. *)
Definition call {A} (m : tx A) (d : DB) (res : result A StoreError) (d' : DB) : Prop :=
  exists env n u s', m env (mkTx d n u) = (res, s') /\ tx_db s' = d'.

(** The tables of launched Workflows; the catalog's own calls write none of them. *)
Definition launched (d : DB) :=
  (workflow_runs d, workflow_node_runs d, workflow_run_edges d, workflow_node_executions d, workflow_completion_events d).

Section System.
Context {SJ : SerdeJson} {RF : RustFmt} {PG : PostgresServer} {TC : TimeCrate} {SE : SnapshotEncoding}.

(** The catalog's writes. *)
Inductive catalog_call (d d' : DB) : Prop :=
| CCCreateNamespace name res : call (create_namespace name) d res d' -> catalog_call d d'
| CCDeleteNamespace id res : call (delete_namespace id) d res d' -> catalog_call d d'
| CCCreateQueue name description res : call (create_queue name description) d res d' -> catalog_call d d'
| CCUpdateQueue id name description enabled res :
    call (update_queue id name description enabled) d res d' -> catalog_call d d'
| CCDeleteQueue id res : call (delete_queue id) d res d' -> catalog_call d d'
| CCCreateJob namespace_id name definition res : call (create_job namespace_id name definition) d res d' -> catalog_call d d'
| CCUpdateJob id name definition res : call (update_job id name definition) d res d' -> catalog_call d d'
| CCCreateTarget namespace_id name definition res :
    call (create_target namespace_id name definition) d res d' -> catalog_call d d'
| CCUpdateTarget id name definition res : call (update_target id name definition) d res d' -> catalog_call d d'
| CCDeleteTarget id res : call (delete_target id) d res d' -> catalog_call d d'
| CCCreateTargetSet namespace_id name ids inputs res :
    call (create_target_set namespace_id name ids inputs) d res d' -> catalog_call d d'
| CCUpdateTargetSet id name ids inputs res : call (update_target_set id name ids inputs) d res d' -> catalog_call d d'
| CCCreateSchedule schedule res : call (create_schedule schedule) d res d' -> catalog_call d d'
| CCWriteWorkflow namespace_id existing definition res :
    call (write namespace_id existing definition) d res d' -> catalog_call d d'
| CCDeleteWorkflow id res : call (delete_workflow id) d res d' -> catalog_call d d'.

Inductive store_step (d d' : DB) : Prop :=
| SSCreateRuns request job target inputs res :
    call (create_runs request job target inputs) d res d' -> store_step d d'
| SSRerun source request res : call (insert_rerun source request) d res d' -> store_step d d'
| SSClaimSchedules owner limit lease res :
    call (claim_due_schedules owner limit lease) d res d' -> store_step d d'
| SSCommitPlan plan res : call (commit_schedule_plan plan) d res d' -> store_step d d'
| SSSetEnabled id revision enabled next res :
    call (set_schedule_enabled id revision enabled next) d res d' -> store_step d d'
| SSClaimOutbox owner limit lease res : call (claim_outbox owner limit lease) d res d' -> store_step d d'
| SSMarkPublished owner record sequence res :
    record_faithful (core d) record -> call (mark_published owner record sequence) d res d' ->
    store_step d d'
| SSPublishFailure owner id message next res :
    call (record_publish_failure owner id message next) d res d' -> store_step d d'
| SSClaimAttempt request res : call (claim_attempt request) d res d' -> store_step d d'
| SSRenewLease request res : call (renew_lease request) d res d' -> store_step d d'
| SSOutput request res : call (record_attempt_output request) d res d' -> store_step d d'
| SSComplete request res : call (complete_attempt request) d res d' -> store_step d d'
| SSHeartbeat request res : call (record_worker_heartbeat request) d res d' -> store_step d d'
| SSReconcile locked limit res : call (reconcile locked limit) d res d' -> store_step d d'
| SSWorkflowStart launch res : call (start launch) d res d' -> store_step d d'
| SSWorkflowCancel id res : call (cancel_run id) d res d' -> store_step d d'
| SSCatalog : catalog_call d d' -> store_step d d'.

(** ** What one step leaves alone *)

(** Everything the tables say about one Run. *)
Definition frozen (id : Uuid) (c c' : CoreTables) : Prop :=
  runs c' !! id = runs c !! id
  /\ (forall aid a, a_run_id a = id -> run_attempts c !! aid = Some a <-> run_attempts c' !! aid = Some a)
  /\ (forall oid o, o_run_id o = id -> outbox c !! oid = Some o <-> outbox c' !! oid = Some o).

(** ** The status diagrams *)

Inductive run_edge : RunStatus -> RunStatus -> Prop :=
| EPublish : run_edge PendingDispatch Queued
| EDeadline : run_edge PendingDispatch Skipped
| EClaim : run_edge Queued Running
| ESucceed : run_edge Running Succeeded
| EDryRun : run_edge Running Skipped
| EFail : run_edge Running Failed
| ERetryWait : run_edge Running RetryWait
| EUnknown : run_edge Running Unknown
| ERetryDue : run_edge RetryWait PendingDispatch
| ELeaseRetry : run_edge Running PendingDispatch.

Inductive attempt_edge : AttemptStatus -> AttemptStatus -> Prop :=
| AEPublish : attempt_edge APendingDispatch AQueued
| AEDeadline : attempt_edge APendingDispatch ADead
| AEClaim : attempt_edge AQueued ARunning
| AESucceed : attempt_edge ARunning ASucceeded
| AEDryRun : attempt_edge ARunning ASkipped
| AEFail : attempt_edge ARunning AFailed
| AEUnknown : attempt_edge ARunning AUnknown.

Definition attempt_rank (s : AttemptStatus) : nat :=
  match s with APendingDispatch => 0 | AQueued => 1 | ARunning => 2 | _ => 3 end.

(** ** Lemmas: which Run a step is about *)

Lemma frozen_refl id c : frozen id c c.
Proof. by repeat split. Qed.

Lemma frozen_trans id c1 c2 c3 : frozen id c1 c2 -> frozen id c2 c3 -> frozen id c1 c3.
Proof.
  intros (H1 & H2 & H3) (G1 & G2 & G3). split; [congruence|]. split; intros.
  - by rewrite H2, G2.
  - by rewrite H3, G3.
Qed.

Lemma frozen_put c id id0 r' aid a' oid o' :
  id <> id0 -> a_run_id a' = id0 -> o_run_id o' = id0 ->
  (forall a, run_attempts c !! aid = Some a -> a_run_id a = id0) ->
  (forall o, outbox c !! oid = Some o -> o_run_id o = id0) ->
  frozen id c (put c id0 r' aid a' oid o').
Proof.
  intros Hne Ha Ho Hoa Hoo. split; [|split]; simpl.
  - by rewrite lookup_insert_ne.
  - intros aid1 a1 Hid. destruct (decide (aid1 = aid)) as [->|].
    + rewrite lookup_insert_eq. split; [intros H%Hoa|intros [= ->]]; congruence.
    + by rewrite lookup_insert_ne.
  - intros oid1 o1 Hid. destruct (decide (oid1 = oid)) as [->|].
    + rewrite lookup_insert_eq. split; [intros H%Hoo|intros [= ->]]; congruence.
    + by rewrite lookup_insert_ne.
Qed.

Lemma frozen_put_fresh c id id0 k r' aid a oid o :
  id <> id0 -> fresh_dispatch c id0 k aid a oid o -> frozen id c (put c id0 r' aid a oid o).
Proof.
  intros Hne (Hn1 & Hn2 & H1 & _ & _ & H2 & _).
  apply frozen_put; [done|done|done|intros ? H; congruence..].
Qed.

Lemma latest_dispatch_run c id r aid a oid o :
  core_inv c -> latest c id r aid a oid o -> o_run_id o = id.
Proof.
  intros [Hsh _] (_ & Ha & Ho & Hid & _ & Hoa).
  destruct (inv_dispatch_attempt _ Hsh _ _ Ho) as (a1 & Ha1 & H). congruence.
Qed.

Lemma local_step_live r a o r' a' o' :
  coupled r a o -> local_step (r, a, o) (r', a', o') -> is_terminal (r_status r) = false.
Proof.
  intros Hc. inversion 1; subst; try (by match goal with H : r_status r = _ |- _ => rewrite H end).
  - by rewrite (status_of_undispatched _ _ _ Hc).
  - by rewrite (status_of_running _ _ _ Hc).
Qed.

Lemma core_step_subject c c' :
  core_inv c -> core_step c c' ->
  exists id0, (forall id, id <> id0 -> frozen id c c')
    /\ (forall r, runs c !! id0 = Some r -> is_terminal (r_status r) = false).
Proof.
  intros Hi Hs. destruct Hs as
    [c id r aid a oid o r' a' o' Hl Hs|c id r aid a oid o Hn Hst Hc Hm He Hcp Hoc Hfr
    |c id r Hn Hst Hc Hm Hcp Hoc|c id r r' aid a oid o Hr Hst Hst' Hcnt Hcp Hf Hfr
    |c id r r' aid0 a0 a0' oid0 o0 aid a oid o Hl Hst Hst0 Hid Hlt Hul Haf Hst' Hcnt Hcp Hf Hfr].
  - exists id. pose proof (latest_coupled _ _ _ _ _ _ _ Hi Hl) as Hcp.
    pose proof (latest_dispatch_run _ _ _ _ _ _ _ Hi Hl) as Hor.
    pose proof (local_step_frames _ _ _ _ _ _ Hs) as (_ & (Hf1 & _) & (Hg1 & _) & _).
    pose proof Hl as (Hr & Ha & Ho & Hid & _). split.
    + intros id1 Hne. apply frozen_put; try congruence; intros ? H; congruence.
    + intros r1 Hr1. assert (r1 = r) as -> by congruence. by eapply local_step_live.
  - exists id. split; [|congruence]. intros id1 Hne. by eapply frozen_put_fresh.
  - exists id. split; [|congruence]. intros id1 Hne. split; [|done]. simpl. by rewrite lookup_insert_ne.
  - exists id. split; [|intros r1 Hr1; assert (r1 = r) as -> by congruence; by rewrite Hst].
    intros id1 Hne. by eapply frozen_put_fresh.
  - exists id. pose proof Hl as (Hr & Ha & Ho & Hid0 & _).
    split; [|intros r1 Hr1; assert (r1 = r) as -> by congruence; by rewrite Hst].
    intros id1 Hne. destruct Hfr as (Hn1 & Hn2 & H1 & _ & _ & H2 & _), Haf as (Hf1 & _).
    apply (frozen_trans _ _ (put c id r aid0 a0' oid0 o0)).
    + apply frozen_put; [done|congruence|by eapply latest_dispatch_run|intros ? H; congruence|].
      intros ? H. assert (o1 = o0) as -> by congruence. by eapply latest_dispatch_run.
    + rewrite (put_attempt_only _ _ _ _ _ _ _ _ Hl).
      apply frozen_put; try done; simpl; [|congruence].
      intros a1 H. rewrite lookup_insert_ne in H by congruence. congruence.
Qed.

(** ** Lemmas: the diagrams *)

Lemma local_step_edges r a o r' a' o' :
  coupled r a o -> local_step (r, a, o) (r', a', o') ->
  rtc run_edge (r_status r) (r_status r') /\ rtc attempt_edge (a_status a) (a_status a').
Proof.
  intros Hc Hs. inversion Hs as [|? ? ? ? ? ? E1 E2 _ _ E3 [E4 _]|? ? ? ? ? E1 E2 _ _ E3 [E4 _]
    |? ? ? ? E3 [E4 _]|? ? ? ? ? E1 E3 Hin|? ? ? ? ? ? E1 E2 _ _ E3 [E4 _]|? ? ? ? ? E1 E2 E3 _ _ _ [E4 _]]; subst;
    rewrite ?E1, ?E2, ?E3, ?E4; try (split; first [done | apply rtc_once; constructor]).
  rewrite !elem_of_cons, elem_of_nil in Hin.
  destruct Hin as [[= -> ->]|[[= -> ->]|[[= -> ->]|[[= -> ->]|[]]]]];
    split; apply rtc_once; constructor.
Qed.

(** A row that survives a step: same identity, a step of its diagram. *)
Definition run_moves (r r' : RunRow) : Prop := run_frame r r' /\ rtc run_edge (r_status r) (r_status r').
Definition attempt_moves (a a' : AttemptRow) : Prop :=
  attempt_frame a a' /\ rtc attempt_edge (a_status a) (a_status a').

Lemma run_moves_refl r : run_moves r r.
Proof. split; [apply run_frame_refl|done]. Qed.
Lemma attempt_moves_refl a : attempt_moves a a.
Proof. split; [apply attempt_frame_refl|done]. Qed.

Lemma run_frame_trans r1 r2 r3 : run_frame r1 r2 -> run_frame r2 r3 -> run_frame r1 r3.
Proof. unfold run_frame. intros. destruct_and!. repeat split; congruence. Qed.

Lemma attempt_frame_trans a1 a2 a3 : attempt_frame a1 a2 -> attempt_frame a2 a3 -> attempt_frame a1 a3.
Proof. unfold attempt_frame. intros. destruct_and!. repeat split; congruence. Qed.

Lemma core_step_run c c' id r :
  core_inv c -> core_step c c' -> runs c !! id = Some r ->
  exists r', runs c' !! id = Some r' /\ run_moves r r'.
Proof.
  intros Hi Hs Hr. destruct Hs as
    [c i r0 aid a oid o r' a' o' Hl Hs|c i r0 aid a oid o Hn|c i r0 Hn
    |c i r0 r' aid a oid o Hr0 Hst Hst' Hcnt Hcp Hf Hfr
    |c i r0 r' aid0 a0 a0' oid0 o0 aid a oid o Hl Hst Hst0 Hid Hlt Hul Haf Hst' Hcnt Hcp Hf Hfr]; simpl;
    (destruct (decide (id = i)) as [->|Hne];
      [rewrite lookup_insert_eq|rewrite lookup_insert_ne by done; eauto using run_moves_refl]);
    try congruence; exists r'; (split; [done|]).
  - pose proof Hl as (Hr0 & _). assert (r0 = r) as -> by congruence.
    split; [by eapply local_step_frames|]. eapply local_step_edges; [by eapply latest_coupled|done].
  - assert (r0 = r) as -> by congruence. split; [done|]. rewrite Hst, Hst'. apply rtc_once. constructor.
  - pose proof Hl as (Hr0 & _). assert (r0 = r) as -> by congruence.
    split; [done|]. rewrite Hst, Hst'. apply rtc_once. constructor.
Qed.

Lemma core_step_attempt c c' aid a :
  core_inv c -> core_step c c' -> run_attempts c !! aid = Some a ->
  exists a', run_attempts c' !! aid = Some a' /\ attempt_moves a a'.
Proof.
  intros Hi Hs Ha. destruct Hs as
    [c i r0 aid0 a0 oid o r' a' o' Hl Hs|c i r0 aid0 a0 oid o Hn _ _ _ _ _ _ (Hn1 & _)|c i r0 Hn
    |c i r0 r' aid0 a0 oid o Hr0 Hst Hst' Hcnt Hcp Hf (Hn1 & _)
    |c i r0 r' aid0 a0 a0' oid0 o0 aid1 a1 oid o Hl Hst Hst0 Hid Hlt Hul Haf Hst' Hcnt Hcp Hf (Hn1 & _)]; simpl.
  - destruct (decide (aid = aid0)) as [->|]; [|rewrite lookup_insert_ne by done; eauto using attempt_moves_refl].
    rewrite lookup_insert_eq. exists a'. split; [done|]. pose proof Hl as (_ & Ha0 & _).
    assert (a0 = a) as -> by congruence.
    split; [by eapply local_step_frames|]. eapply local_step_edges; [by eapply latest_coupled|done].
  - rewrite lookup_insert_ne by congruence. eauto using attempt_moves_refl.
  - eauto using attempt_moves_refl.
  - rewrite lookup_insert_ne by congruence. eauto using attempt_moves_refl.
  - rewrite lookup_insert_ne by congruence.
    destruct (decide (aid = aid0)) as [->|]; [|rewrite lookup_insert_ne by done; eauto using attempt_moves_refl].
    rewrite lookup_insert_eq. exists a0'. split; [done|]. pose proof Hl as (_ & Ha0 & _).
    assert (a0 = a) as -> by congruence. split; [done|]. destruct Hul as [-> _]. rewrite Hst0.
    apply rtc_once. constructor.
Qed.

Lemma core_step_dispatch c c' oid o :
  core_step c c' -> outbox c !! oid = Some o ->
  exists o', outbox c' !! oid = Some o' /\ outbox_frame o o'.
Proof.
  intros Hs Ho. destruct Hs as
    [c i r0 aid0 a0 oid0 o0 r' a' o' Hl Hs|c i r0 aid0 a0 oid0 o0 Hn _ _ _ _ _ _ (_ & Hn1 & _)|c i r0 Hn
    |c i r0 r' aid0 a0 oid0 o0 Hr0 Hst Hst' Hcnt Hcp Hf (_ & Hn1 & _)
    |c i r0 r' aid0 a0 a0' oid0 o0 aid1 a1 oid1 o1 Hl Hst Hst0 Hid Hlt Hul Haf Hst' Hcnt Hcp Hf (_ & Hn1 & _)]; simpl.
  - destruct (decide (oid = oid0)) as [->|]; [|rewrite lookup_insert_ne by done; eauto using outbox_frame_refl].
    rewrite lookup_insert_eq. exists o'. split; [done|]. destruct Hl as (_ & _ & Ho0 & _).
    destruct (local_step_frames _ _ _ _ _ _ Hs) as (_ & _ & H & _). assert (o0 = o) as -> by congruence. exact H.
  - rewrite lookup_insert_ne by congruence. eauto using outbox_frame_refl.
  - eauto using outbox_frame_refl.
  - rewrite lookup_insert_ne by congruence. eauto using outbox_frame_refl.
  - rewrite lookup_insert_ne by congruence. eauto using outbox_frame_refl.
Qed.

(** ** Lemmas: histories *)

Lemma call_refines {A} (m : tx A) d res d' :
  op_refines m -> core_inv (core d) -> call m d res d' -> rtc core_step (core d) (core d').
Proof.
  intros Hm Hi (env & n & u & s' & Hc & <-). exact (Hm _ _ _ _ (Hi : core_inv (core_of (mkTx d n u))) Hc).
Qed.

Lemma reads_heartbeat request : reads_only (record_worker_heartbeat request).
Proof. unfold record_worker_heartbeat, bind_texts. reads. Qed.

(** ** Lemmas: the catalog's writes leave execution alone *)

(** What no catalog write touches: Runs, launched Workflows, requests, events and presence. *)
Definition executions (d : DB) :=
  (core d, launched d, run_requests d, run_events d, schedule_events d, worker_presence d).

Lemma keeps_bind_texts {X} (f : DB -> X) l : keeps f (bind_texts l).
Proof. apply keeps_check. Qed.

Lemma keeps_bind_jsons {X} (f : DB -> X) l : keeps f (bind_jsons l).
Proof. apply keeps_check. Qed.

Lemma keeps_write_row ns existing def : keeps executions (write_row ns existing def).
Proof.
  unfold write_row, update_workflow, delete_workflow_nodes, insert_workflow, bind_texts. keeps_tac.
Qed.

Lemma keeps_write_nodes id ns nodes : forall ids, keeps executions (write_nodes id ns nodes ids).
Proof.
  induction nodes as [|node nodes IH]; intros ids; simpl; [by apply keeps_step|]. unfold insert_workflow_node.
  keeps_tac. apply IH.
Qed.

Lemma catalog_call_frame d d' : catalog_call d d' -> executions d' = executions d.
Proof.
  assert (forall A (m : tx A) res, keeps executions m -> call m d res d' -> executions d' = executions d) as Hk.
  { intros A m res Hm (env & n & u & s' & H & <-). exact (Hm _ _ _ _ H). }
  intros Hc. destruct Hc; (match goal with H : call ?m _ _ _ |- _ => refine (Hk _ m _ _ H); clear H end).
  - unfold create_namespace, bind_texts. keeps_tac.
  - unfold delete_namespace. keeps_tac.
  - unfold create_queue, bind_texts. keeps_tac.
  - unfold update_queue, bind_texts. keeps_tac.
  - unfold delete_queue. keeps_tac.
  - unfold create_job, bind_job, bind_texts, bind_jsons. keeps_tac.
  - unfold update_job, bind_job, bind_texts, bind_jsons. keeps_tac.
  - unfold create_target, bind_target, bind_texts, bind_jsons. keeps_tac.
  - unfold update_target, bind_target, bind_texts, bind_jsons. keeps_tac.
  - unfold delete_target. keeps_tac.
  - unfold create_target_set. apply keeps_bind; [apply keeps_transaction|intros [row l]; by apply keeps_step].
    unfold target_rows_for_ids, insert_members, bind_texts, bind_jsons. keeps_tac.
  - unfold update_target_set. apply keeps_bind; [apply keeps_transaction|intros [row l]; by apply keeps_step].
    unfold target_rows_for_ids, insert_members, bind_texts, bind_jsons. keeps_tac.
  - unfold create_schedule, bind_texts, bind_jsons. keeps_tac.
  - unfold write. apply keeps_bind; [by apply keeps_step|intros ?]. apply keeps_transaction.
    apply keeps_bind; [apply keeps_write_row|intros id]. apply keeps_bind; [apply keeps_write_nodes|intros ids].
    unfold write_edge, insert_workflow_edge, WorkflowStore.catalog. keeps_tac.
  - unfold delete_workflow. keeps_tac.
Qed.

Lemma store_step_core d d' :
  core_inv (core d) -> store_step d d' -> rtc core_step (core d) (core d').
Proof.
  intros Hi Hs. destruct Hs as [? ? ? ? ? H|? ? ? H|? ? ? ? H|? ? H|? ? ? ? ? H|? ? ? ? H|? ? ? ? Hr H
    |? ? ? ? ? H|? ? H|? ? H|? ? H|? ? H|? ? H|? ? ? H|? ? H|? ? H|H].
  - eapply call_refines; [apply create_runs_refines|done|done].
  - eapply call_refines; [apply insert_rerun_refines|done|done].
  - eapply call_refines; [apply op_reads, claim_due_schedules_reads|done|done].
  - eapply call_refines; [apply commit_schedule_plan_refines|done|done].
  - eapply call_refines; [apply op_reads, set_schedule_enabled_reads|done|done].
  - eapply call_refines; [apply claim_outbox_refines|done|done].
  - destruct H as (env & n & u & s' & Hc & <-).
    eapply (mark_published_refines _ _ _ env (mkTx d n u)); [done|done|exact Hc].
  - eapply call_refines; [apply record_publish_failure_refines|done|done].
  - eapply call_refines; [apply claim_attempt_refines|done|done].
  - eapply call_refines; [apply renew_lease_refines|done|done].
  - eapply call_refines; [apply record_attempt_output_refines|done|done].
  - eapply call_refines; [apply complete_attempt_refines|done|done].
  - eapply call_refines; [apply op_reads, reads_heartbeat|done|done].
  - eapply call_refines; [apply reconcile_refines|done|done].
  - eapply call_refines; [apply start_refines|done|done].
  - eapply call_refines; [apply cancel_refines|done|done].
  - apply catalog_call_frame in H. injection H as -> _ _ _ _. reflexivity.
Qed.

Lemma history_core d d' :
  core_inv (core d) -> rtc store_step d d' -> rtc core_step (core d) (core d').
Proof.
  intros Hi Hs. induction Hs as [|d1 d2 d3 H1 _ IH]; [done|].
  pose proof (store_step_core _ _ Hi H1) as Hc. etrans; [done|].
  apply IH. by eapply core_steps_inv.
Qed.

Lemma history_inv d d' : core_inv (core d) -> rtc store_step d d' -> core_inv (core d').
Proof. intros Hi Hs. eapply core_steps_inv; [done|]. by apply history_core. Qed.

(** A fact of a row that each step carries over holds along a history. *)
Lemma core_steps_run c c' id r :
  core_inv c -> rtc core_step c c' -> runs c !! id = Some r ->
  exists r', runs c' !! id = Some r' /\ run_moves r r'.
Proof.
  intros Hi Hs. revert r. induction Hs as [c|c1 c2 c3 H1 _ IH]; intros r Hr; [eauto using run_moves_refl|].
  destruct (core_step_run _ _ _ _ Hi H1 Hr) as (r2 & Hr2 & Hf2 & He2).
  destruct (IH (core_step_inv _ _ Hi H1) _ Hr2) as (r3 & Hr3 & Hf3 & He3).
  exists r3. split; [done|]. split; [by eapply run_frame_trans|by etrans].
Qed.

Lemma core_steps_attempt c c' aid a :
  core_inv c -> rtc core_step c c' -> run_attempts c !! aid = Some a ->
  exists a', run_attempts c' !! aid = Some a' /\ attempt_moves a a'.
Proof.
  intros Hi Hs. revert a. induction Hs as [c|c1 c2 c3 H1 _ IH]; intros a Ha; [eauto using attempt_moves_refl|].
  destruct (core_step_attempt _ _ _ _ Hi H1 Ha) as (a2 & Ha2 & Hf2 & He2).
  destruct (IH (core_step_inv _ _ Hi H1) _ Ha2) as (a3 & Ha3 & Hf3 & He3).
  exists a3. split; [done|]. split; [by eapply attempt_frame_trans|by etrans].
Qed.

Lemma outbox_frame_trans o1 o2 o3 : outbox_frame o1 o2 -> outbox_frame o2 o3 -> outbox_frame o1 o3.
Proof. unfold outbox_frame. intros. destruct_and!. repeat split; congruence. Qed.

Lemma core_steps_dispatch c c' oid o :
  rtc core_step c c' -> outbox c !! oid = Some o ->
  exists o', outbox c' !! oid = Some o' /\ outbox_frame o o'.
Proof.
  intros Hs. revert o. induction Hs as [c|c1 c2 c3 H1 _ IH]; intros o Ho; [eauto using outbox_frame_refl|].
  destruct (core_step_dispatch _ _ _ _ H1 Ho) as (o2 & Ho2 & H2).
  destruct (IH _ Ho2) as (o3 & Ho3 & H3). exists o3. split; [done|by eapply outbox_frame_trans].
Qed.

Lemma core_steps_frozen c c' id r :
  core_inv c -> rtc core_step c c' -> runs c !! id = Some r -> is_terminal (r_status r) = true ->
  frozen id c c'.
Proof.
  intros Hi Hs. induction Hs as [c|c1 c2 c3 H1 _ IH]; intros Hr Ht; [apply frozen_refl|].
  destruct (core_step_subject _ _ Hi H1) as (id0 & Hfr & Hlive).
  assert (id <> id0) as Hne by (intros ->; specialize (Hlive _ Hr); congruence).
  pose proof (Hfr _ Hne) as Hf. eapply frozen_trans; [done|].
  apply IH; [by eapply core_step_inv| |done]. destruct Hf as (-> & _). done.
Qed.

Lemma attempt_edges_rank s s' : rtc attempt_edge s s' -> (attempt_rank s <= attempt_rank s')%nat.
Proof. induction 1 as [|s1 s2 s3 H _ IH]; [done|]. destruct H; simpl in *; lia. Qed.

(** An attempt that reached a rank never goes back below it. *)
Lemma history_attempt_rank d d' aid a :
  core_inv (core d) -> rtc store_step d d' -> run_attempts (core d) !! aid = Some a ->
  exists a', run_attempts (core d') !! aid = Some a' /\ (attempt_rank (a_status a) <= attempt_rank (a_status a'))%nat.
Proof.
  intros Hi Hs Ha. destruct (core_steps_attempt _ _ _ _ Hi (history_core _ _ Hi Hs) Ha) as (a' & Ha' & _ & He).
  exists a'. split; [done|by apply attempt_edges_rank].
Qed.

(** *** What the worker calls answer *)

Lemma transaction_ok {A} (body : tx (outcome A)) env s a s' :
  transaction body env s = (Ok a, s') ->
  exists s1 out s2, core_of s1 = core_of s /\ body env s1 = (Ok out, s2)
    /\ match out with
       | Commit b => b = a /\ core_of s' = core_of s2
       | Rollback b | Dropped b => b = a /\ core_of s' = core_of s
       end.
Proof.
  unfold transaction. destruct (tx_bind statement (fun _ => body) env s) as [[out|e] s2] eqn:H; [|done].
  apply tx_bind_ok in H as (now & s1 & H1%reads_statement & H). intros Hr.
  exists s1, out, s2. split; [done|]. split; [done|].
  destruct out; destruct (e_fault env (tx_statements s2)); by simplify_eq.
Qed.

Lemma claimed_moves request d res d' :
  call (claim_attempt request) d (Ok res) d' -> cr_claimed res = true ->
  exists a a', run_attempts (core d) !! cl_attempt_id request = Some a /\ a_status a = AQueued
    /\ run_attempts (core d') !! cl_attempt_id request = Some a' /\ a_status a' = ARunning
    /\ a_worker_id a' = Some (cl_worker_id request)
    /\ exists exec r, cr_execution res = Some exec /\ runs (core d') !! a_run_id a' = Some r /\ r_execution_snapshot r = Rendered exec.
Proof.
  intros (env & n & u & s' & H & <-) Hcl. unfold claim_attempt in H.
  apply tx_bind_ok in H as (claimed & s1 & H & Hres).
  apply transaction_ok in H as (s2 & out & s3 & Hc2 & H & Hout).
  apply tx_bind_ok in H as (d0 & s2' & [= <- <-] & H).
  apply tx_bind_ok in H as (r1 & s4 & H4 & H). apply update_attempt_spec in H4.
  destruct r1 as [a|].
  2:{ injection H as <- _. destruct Hout as [<- _]. injection Hres as <- _. done. }
  destruct H4 as (Ha & Hcond & Hc4). apply andb_true_iff in Hcond as [Hcond _].
  apply andb_true_iff in Hcond as [_ Hst%bool_decide_eq_true].
  apply tx_bind_ok in H as (r2 & s5 & H5 & H). apply update_run_spec in H5.
  apply tx_bind_ok in H as (r3 & s6 & H6 & H). apply tx_lift_ok in H6 as [H6 ->].
  destruct r2 as [r2|]; [|done]. destruct H5 as (_ & _ & now5 & Hc5).
  apply tx_bind_ok in H as (u7 & s7 & H7%reads_run_event & [= <- <-]).
  destruct Hout as [<- Hc1]. simpl in Hc2. rewrite Hc2 in Ha.
  assert (core (tx_db s') = core_of s1) as Hc'.
  { destruct (r_execution_snapshot r3); [injection Hres as _ <-|]; done. }
  eexists a, _. split; [exact Ha|]. split; [done|].
  rewrite Hc', Hc1, H7, Hc5, Hc4. simpl. split; [by rewrite lookup_insert_eq|]. split_and!; [done|done|].
  injection H6 as <-. destruct (r_execution_snapshot r2) as [exec|] eqn:Hx; [|done]. injection Hres as <- _.
  exists exec. eexists. split_and!; [done|by rewrite lookup_insert_eq|done].
Qed.

Lemma completed_moves request d d' :
  call (complete_attempt request) d (Ok true) d' ->
  exists a a', run_attempts (core d) !! co_attempt_id request = Some a /\ a_status a = ARunning
    /\ a_worker_id a = Some (co_worker_id request)
    /\ run_attempts (core d') !! co_attempt_id request = Some a'
    /\ a_status a' = completion_attempt_status request /\ a_lease_expires_at a' = None.
Proof.
  intros (env & n & u & s' & H & <-). unfold complete_attempt in H. destruct (_ && _); [done|].
  apply transaction_ok in H as (s2 & out & s3 & Hc2 & H & Hout).
  apply tx_bind_ok in H as (r1 & s4 & H4 & H). apply update_attempt_spec in H4.
  destruct r1 as [a|]; [|injection H as <- _; by destruct Hout].
  destruct H4 as (Ha & (Hw & Hst & _)%holds_lease_spec & Hc4). simpl in Hc2. rewrite Hc2 in Ha.
  apply tx_bind_ok in H as (now5 & s5 & H5%reads_statement & H).
  apply tx_bind_ok in H as (d0 & s5' & [= <- <-] & H).
  apply tx_bind_ok in H as (r & s6 & H6 & H). apply tx_lift_ok in H6 as [_ ->].
  apply tx_bind_ok in H as (retry & s7 & H7 & H). apply tx_lift_ok in H7 as [_ ->].
  apply tx_bind_ok in H as (wall & s8 & [= <- <-] & H).
  apply tx_bind_ok in H as (r2 & s9 & H9 & H). apply update_run_spec in H9.
  apply tx_bind_ok in H as (u10 & s10 & H10%reads_run_event & [= <- <-]). destruct Hout as [_ Hc1].
  assert (run_attempts (core_of s9) = run_attempts (core_of s5)) as Hra.
  { destruct r2 as [r2|]; [destruct H9 as (_ & _ & now9 & ->)|destruct H9 as [-> _]]; done. }
  eexists a, _. do 3 (split; [done|]).
  change (core (tx_db s')) with (core_of s'). rewrite Hc1, H10, Hra, H5, Hc4. simpl.
  rewrite lookup_insert_eq. done.
Qed.

End System.
