(* ===== verification/CatalogTheorems.v ===== *)
(** * The catalog's invariant

    Every row of the catalog satisfies its constraints, refers to rows that
    exist and converts into an entity: an invariant of all histories. *)

From S2P Require Import Prelude RustStr Json Inputs Names Float Domain Auth Workflow Db Snapshot TxLogic Store WorkflowStore Catalog WorkflowDefinitions Lifecycle Refinement WorkflowRefinement StoreSystem.
From Stdlib Require Import SpecFloat Ascii String.
From stdpp Require Import base numbers strings sorting gmap list relations.

Local Open Scope Z_scope.

(** ** The invariant *)

Definition job_typed (namespaces : gmap Uuid NamespaceRow) (queues : gmap Uuid QueueRow) (j : JobRow) : Prop :=
  job_checks j = true /\ is_Some (strings_of_value (j_arguments j))
  /\ is_Some (namespaces !! j_namespace_id j) /\ is_Some (queues !! j_queue_id j).

Definition target_typed (namespaces : gmap Uuid NamespaceRow) (t : TargetRow) : Prop :=
  target_checks t = true /\ is_Some (strings_of_value (t_arguments t)) /\ is_Some (namespaces !! t_namespace_id t).

Definition target_set_typed (namespaces : gmap Uuid NamespaceRow) (t : TargetSetRow) : Prop :=
  target_set_checks t = true /\ is_Some (namespaces !! tsr_namespace_id t).

Definition schedule_typed (d : DB) (s : ScheduleRow) : Prop :=
  schedule_checks s = true /\ opt_i32 (s_misfire_grace_seconds s) = true /\ s_revision s <= i64_max
  /\ schedule_references d s = true /\ schedule_namespace_match d s = true.

(** A unique key. *)
Definition distinct_keys {A K} (m : gmap Uuid A) (key : A -> K) : Prop :=
  forall x y a b, m !! x = Some a -> m !! y = Some b -> key a = key b -> x = y.

Definition job_key (j : JobRow) := (j_namespace_id j, j_name j).
Definition target_key (t : TargetRow) := (t_namespace_id t, t_name t).
Definition target_set_key (t : TargetSetRow) := (tsr_namespace_id t, tsr_name t).
Definition schedule_key (s : ScheduleRow) := (s_namespace_id s, s_name s).

Record catalog_typed (d : DB) : Prop := {
  ct_namespace : forall id n, namespaces d !! id = Some n -> namespace_checks n = true;
  ct_queue : forall id q, queues d !! id = Some q -> queue_checks q = true;
  ct_job : forall id j, jobs d !! id = Some j -> job_typed (namespaces d) (queues d) j;
  ct_target : forall id t, targets d !! id = Some t -> target_typed (namespaces d) t;
  ct_target_set : forall id t, target_sets d !! id = Some t -> target_set_typed (namespaces d) t;
  ct_member : forall a b, (a, b) ∈ target_set_members d ->
    exists ts t, target_sets d !! a = Some ts /\ targets d !! b = Some t /\ tsr_namespace_id ts = t_namespace_id t;
  ct_schedule : forall id s, schedules d !! id = Some s -> schedule_typed d s;
  ct_keys : distinct_keys (namespaces d) n_name /\ distinct_keys (queues d) qr_name
    /\ distinct_keys (jobs d) job_key /\ distinct_keys (targets d) target_key
    /\ distinct_keys (target_sets d) target_set_key /\ distinct_keys (schedules d) schedule_key;
}.

(** ** Lemmas: unique keys *)

Lemma distinct_insert {A K} (m : gmap Uuid A) (key : A -> K) id row :
  distinct_keys m key -> (forall x a, m !! x = Some a -> x <> id -> key a <> key row) ->
  distinct_keys (<[id := row]> m) key.
Proof.
  intros Hd Hf x y a b Hx Hy Hk. apply lookup_insert_Some in Hx as [[<- <-]|[Hx1 Hx]];
    apply lookup_insert_Some in Hy as [[<- <-]|[Hy1 Hy]].
  - done.
  - exfalso. by apply (Hf y b).
  - exfalso. by apply (Hf x a).
  - by eapply Hd.
Qed.

Lemma distinct_delete {A K} (m : gmap Uuid A) (key : A -> K) id : distinct_keys m key -> distinct_keys (delete id m) key.
Proof. intros Hd x y a b [_ Hx]%lookup_delete_Some [_ Hy]%lookup_delete_Some. by eapply Hd. Qed.

Lemma any_row_false {K A} `{Countable K} (m : gmap K A) f k a : any_row m f = false -> m !! k = Some a -> f a = false.
Proof.
  intros Hf Ha. destruct (f a) eqn:Hfa; [|done]. rewrite <- Hf. symmetry. apply existsb_exists.
  exists (k, a). split; [by apply list_elem_of_In, elem_of_map_to_list|done].
Qed.

Lemma name_free {A} (m : gmap Uuid A) nm id row :
  name_taken m nm id row = false -> forall x a, m !! x = Some a -> x <> id -> nm a <> nm row.
Proof.
  intros Hf x a Ha Hx Hn. assert (name_taken m nm id row = true); [|congruence]. apply existsb_exists. exists (x, a).
  split; [by apply list_elem_of_In, elem_of_map_to_list|]. simpl. rewrite (proj2 (N.eqb_neq x id)) by done. by rewrite Hn, String.eqb_refl.
Qed.

Lemma scoped_name_free {A} (m : gmap Uuid A) ns nm id row :
  scoped_name_taken m ns nm id row = false ->
  forall x a, m !! x = Some a -> x <> id -> (ns a, nm a) <> (ns row, nm row).
Proof.
  intros Hf x a Ha Hx [= Hs Hn]. assert (scoped_name_taken m ns nm id row = true); [|congruence]. apply existsb_exists. exists (x, a).
  split; [by apply list_elem_of_In, elem_of_map_to_list|]. simpl. rewrite (proj2 (N.eqb_neq x id)) by done.
  by rewrite Hs, Hn, N.eqb_refl, String.eqb_refl.
Qed.

Lemma has_spec {K A} `{Countable K} (m : gmap K A) k : has m k = true <-> is_Some (m !! k).
Proof. apply bool_decide_eq_true. Qed.

(** A row replaced in place keeps every reference to its table. *)
Lemma is_Some_insert {K A} `{Countable K} (m : gmap K A) k x k' : is_Some (m !! k') -> is_Some (<[k := x]> m !! k').
Proof. intros H'. destruct (decide (k = k')) as [->|]; [by rewrite lookup_insert_eq|by rewrite lookup_insert_ne]. Qed.

Lemma has_insert {A} (m : gmap Uuid A) k x k' : has m k' = true -> has (<[k := x]> m) k' = true.
Proof. rewrite !has_spec. apply is_Some_insert. Qed.

Lemma has_opt_insert {A} (m : gmap Uuid A) k x k' : has_opt m k' = true -> has_opt (<[k := x]> m) k' = true.
Proof. destruct k'; [apply has_insert|done]. Qed.

Lemma strings_roundtrip l : strings_of_value (value_of_strings l) = Some l.
Proof. simpl. induction l as [|x l IH]; [done|]. simpl. by rewrite IH. Qed.

(** ** Lemmas: one change of a table *)

Lemma typed_insert_namespace d id row :
  catalog_typed d -> namespace_checks row = true -> name_taken (namespaces d) n_name id row = false ->
  catalog_typed (set_namespaces (<[id := row]>) d).
Proof.
  intros [H1 H2 H3 H4 H5 H6 H7 (K1 & K2 & K3 & K4 & K5 & K6)] Hc Hf. split; simpl; try done.
  - intros x n [[_ <-]|[_ Hn]]%lookup_insert_Some; [done|by eapply H1].
  - intros x j Hj. destruct (H3 x j Hj) as (? & ? & ? & ?). split_and!; try done. by apply is_Some_insert.
  - intros x t Ht. destruct (H4 x t Ht) as (? & ? & ?). split_and!; try done. by apply is_Some_insert.
  - intros x t Ht. destruct (H5 x t Ht) as (? & ?). split; [done|]. by apply is_Some_insert.
  - intros x s Hs. destruct (H7 x s Hs) as (? & ? & ? & Hr & ?). split_and!; try done.
    unfold schedule_references in *. simpl. simp_bool. rewrite has_insert by done.
    repeat match goal with H : _ = true |- _ => rewrite H; clear H end. done.
  - split_and!; try done. apply distinct_insert; [done|]. by apply name_free.
Qed.

Lemma referenced_ne {A} (m : gmap Uuid A) f id (x : Uuid) k a :
  any_row m f = false -> m !! k = Some a -> (f a = (x =? id)%N) -> x <> id.
Proof. intros Hf Ha Hfa. rewrite (any_row_false _ _ _ _ Hf Ha) in Hfa. symmetry in Hfa. by apply N.eqb_neq in Hfa. Qed.

Lemma is_Some_delete {A} (m : gmap Uuid A) id x : x <> id -> is_Some (m !! x) -> is_Some (delete id m !! x).
Proof. intros Hx H. by rewrite lookup_delete_ne. Qed.

Lemma typed_delete_namespace d id :
  catalog_typed d -> namespace_referenced d id = false -> catalog_typed (set_namespaces (delete id) d).
Proof.
  intros [H1 H2 H3 H4 H5 H6 H7 (K1 & K2 & K3 & K4 & K5 & K6)] Hf. unfold namespace_referenced in Hf. simp_bool.
  split; simpl; try done.
  - intros x n [_ Hn]%lookup_delete_Some. by eapply H1.
  - intros x j Hj. destruct (H3 x j Hj) as (? & ? & ? & ?). split_and!; try done. apply is_Some_delete; [|done].
    by eapply (referenced_ne (jobs d)).
  - intros x t Ht. destruct (H4 x t Ht) as (? & ? & ?). split_and!; try done. apply is_Some_delete; [|done].
    by eapply (referenced_ne (targets d)).
  - intros x t Ht. destruct (H5 x t Ht) as (? & ?). split; [done|]. apply is_Some_delete; [|done].
    by eapply (referenced_ne (target_sets d)).
  - intros x s Hs. destruct (H7 x s Hs) as (? & ? & ? & Hr & ?). split_and!; try done.
    unfold schedule_references in *. simpl. simp_bool. rewrite !andb_true_iff. split_and!; try done.
    rewrite has_spec in *. apply is_Some_delete; [|done]. by eapply (referenced_ne (schedules d)).
  - split_and!; try done. by apply distinct_delete.
Qed.

Lemma typed_insert_queue d id row :
  catalog_typed d -> queue_checks row = true -> name_taken (queues d) qr_name id row = false ->
  catalog_typed (set_queues (<[id := row]>) d).
Proof.
  intros [H1 H2 H3 H4 H5 H6 H7 (K1 & K2 & K3 & K4 & K5 & K6)] Hc Hf. split; simpl; try done.
  - intros x n [[_ <-]|[_ Hn]]%lookup_insert_Some; [done|by eapply H2].
  - intros x j Hj. destruct (H3 x j Hj) as (? & ? & ? & ?). split_and!; try done. by apply is_Some_insert.
  - split_and!; try done. apply distinct_insert; [done|]. by apply name_free.
Qed.

Lemma typed_delete_queue d id :
  catalog_typed d -> queue_referenced d id = false -> catalog_typed (set_queues (delete id) d).
Proof.
  intros [H1 H2 H3 H4 H5 H6 H7 (K1 & K2 & K3 & K4 & K5 & K6)] Hf. unfold queue_referenced in Hf. simp_bool.
  split; simpl; try done.
  - intros x n [_ Hn]%lookup_delete_Some. by eapply H2.
  - intros x j Hj. destruct (H3 x j Hj) as (? & ? & ? & ?). split_and!; try done. apply is_Some_delete; [|done].
    by eapply (referenced_ne (jobs d)).
  - split_and!; try done. by apply distinct_delete.
Qed.

(** A table whose new row, if it replaces one, stays in the same Namespace. *)
Definition same_home {A} (m : gmap Uuid A) (ns : A -> Uuid) (id : Uuid) (row : A) : Prop :=
  forall old, m !! id = Some old -> ns old = ns row.

Lemma home_insert {A} (m : gmap Uuid A) (ns : A -> Uuid) id row k n :
  same_home m ns id row -> option_map ns (m !! k) = Some n -> option_map ns (<[id := row]> m !! k) = Some n.
Proof.
  intros Hh Hk. destruct (decide (id = k)) as [->|]; [|by rewrite lookup_insert_ne]. rewrite lookup_insert_eq. simpl.
  destruct (m !! k) as [old|] eqn:Ho; [|done]. simpl in *. by rewrite <- (Hh old).
Qed.

(** The Schedule's three Namespaces, as lookups. *)
Lemma schedule_match_spec d s :
  schedule_namespace_match d s = true <->
  option_map j_namespace_id (jobs d !! s_job_id s) = Some (s_namespace_id s)
  /\ match s_target_id s with
     | Some id => option_map t_namespace_id (targets d !! id) = Some (s_namespace_id s)
     | None => exists id, s_target_set_id s = Some id
                 /\ option_map tsr_namespace_id (target_sets d !! id) = Some (s_namespace_id s)
     end.
Proof.
  unfold schedule_namespace_match. destruct (jobs d !! s_job_id s) as [j|]; simpl; [|by split; [|intros [? _]]].
  destruct (s_target_id s) as [id|].
  - destruct (targets d !! id) as [t|]; simpl; [|by split; [|intros [_ ?]]]. rewrite andb_true_iff, !N.eqb_eq.
    split; [intros [-> ->]; done|intros [[= ->] [= ->]]; done].
  - destruct (s_target_set_id s) as [id|]; simpl; [|split; [done|intros [_ (? & ? & _)]; done]].
    destruct (target_sets d !! id) as [t|] eqn:Ht; simpl.
    + rewrite andb_true_iff, !N.eqb_eq. split; [intros [-> ->]; split; [done|exists id; by rewrite Ht]|].
      intros [[= ->] (? & [= <-] & Hi)]. rewrite Ht in Hi. by injection Hi as ->.
    + split; [done|]. intros [_ (? & [= <-] & Hi)]. by rewrite Ht in Hi.
Qed.

(** Replacing a row of a table that Schedules refer to. *)
Lemma schedule_typed_ext d d' s :
  schedule_typed d s ->
  (forall k, has (namespaces d) k = true -> has (namespaces d') k = true) ->
  (forall k n, option_map j_namespace_id (jobs d !! k) = Some n -> option_map j_namespace_id (jobs d' !! k) = Some n) ->
  (forall k n, option_map t_namespace_id (targets d !! k) = Some n -> s_target_id s = Some k ->
     option_map t_namespace_id (targets d' !! k) = Some n) ->
  (forall k n, option_map tsr_namespace_id (target_sets d !! k) = Some n ->
     option_map tsr_namespace_id (target_sets d' !! k) = Some n) ->
  schedule_typed d' s.
Proof.
  intros (Hc & Hg & Hv & Hr & Hm) Hn Hj Ht Hts. split_and!; try done; [|].
  - unfold schedule_references in *. simp_bool. rewrite !andb_true_iff. split_and!.
    + auto.
    + apply has_spec. rewrite has_spec in *.
      match goal with H : is_Some (jobs d !! _) |- _ => destruct H as [j Hj0] end.
      specialize (Hj _ (j_namespace_id j) ltac:(by rewrite Hj0)). by destruct (jobs d' !! _).
    + destruct (s_target_id s) as [k|]; [|done]. simpl in *. apply has_spec. rewrite has_spec in *.
      match goal with H : is_Some (targets d !! _) |- _ => destruct H as [t Ht0] end.
      specialize (Ht _ (t_namespace_id t) ltac:(by rewrite Ht0) eq_refl). by destruct (targets d' !! _).
    + destruct (s_target_set_id s) as [k|]; [|done]. simpl in *. apply has_spec. rewrite has_spec in *.
      match goal with H : is_Some (target_sets d !! _) |- _ => destruct H as [t Ht0] end.
      specialize (Hts _ (tsr_namespace_id t) ltac:(by rewrite Ht0)). by destruct (target_sets d' !! _).
  - apply schedule_match_spec in Hm as [Hm1 Hm2]. apply schedule_match_spec. split; [by apply Hj|].
    destruct (s_target_id s) as [k|]; [by apply Ht|]. destruct Hm2 as (k & Hk & Hm2). exists k. split; [done|]. by apply Hts.
Qed.

Lemma typed_insert_job d id row :
  catalog_typed d -> job_typed (namespaces d) (queues d) row -> same_home (jobs d) j_namespace_id id row ->
  scoped_name_taken (jobs d) j_namespace_id j_name id row = false ->
  catalog_typed (set_jobs (<[id := row]>) d).
Proof.
  intros [H1 H2 H3 H4 H5 H6 H7 (K1 & K2 & K3 & K4 & K5 & K6)] Hc Hh Hf. split; simpl; try done.
  - intros x j [[_ <-]|[_ Hj]]%lookup_insert_Some; [done|by eapply H3].
  - intros x s Hs. apply (schedule_typed_ext d); [by eapply H7|done| |done|done]. intros k n. by apply home_insert.
  - split_and!; try done. apply distinct_insert; [done|]. by apply scoped_name_free.
Qed.

Lemma typed_insert_target d id row :
  catalog_typed d -> target_typed (namespaces d) row -> same_home (targets d) t_namespace_id id row ->
  scoped_name_taken (targets d) t_namespace_id t_name id row = false ->
  catalog_typed (set_targets (<[id := row]>) d).
Proof.
  intros [H1 H2 H3 H4 H5 H6 H7 (K1 & K2 & K3 & K4 & K5 & K6)] Hc Hh Hf. split; simpl; try done.
  - intros x j [[_ <-]|[_ Hj]]%lookup_insert_Some; [done|by eapply H4].
  - intros a b Hab. destruct (H6 a b Hab) as (ts & t & Hts & Ht & Hn). exists ts.
    destruct (decide (id = b)) as [->|].
    + exists row. rewrite lookup_insert_eq. split_and!; try done. by rewrite Hn, (Hh t).
    + exists t. by rewrite lookup_insert_ne.
  - intros x s Hs. apply (schedule_typed_ext d); [by eapply H7|done|done| |done]. intros k n ? _. by apply home_insert.
  - split_and!; try done. apply distinct_insert; [done|]. by apply scoped_name_free.
Qed.

Lemma typed_delete_target d id :
  catalog_typed d -> target_referenced d id = false -> catalog_typed (set_targets (delete id) d).
Proof.
  intros [H1 H2 H3 H4 H5 H6 H7 (K1 & K2 & K3 & K4 & K5 & K6)] Hf. unfold target_referenced in Hf. simp_bool.
  split; simpl; try done.
  - intros x t [_ Ht]%lookup_delete_Some. by eapply H4.
  - intros a b Hab. destruct (H6 a b Hab) as (ts & t & Hts & Ht & Hn). exists ts, t. split_and!; try done.
    rewrite lookup_delete_ne; [done|]. intros <-.
    assert (existsb (fun m : Uuid * Uuid => (m.2 =? id)%N) (elements (target_set_members d)) = true); [|congruence].
    apply existsb_exists. exists (a, id). split; [by apply list_elem_of_In, elem_of_elements|apply N.eqb_refl].
  - intros x s Hs. apply (schedule_typed_ext d); [by eapply H7|done|done| |done].
    intros k n Hk Hsk. simpl. destruct (decide (id = k)) as [->|]; [|by rewrite lookup_delete_ne].
    exfalso. assert (is_id k (s_target_id s) = false) as Hi by (by apply (any_row_false (schedules d) (fun s => is_id k (s_target_id s)) x s)).
    apply bool_decide_eq_false in Hi. done.
  - split_and!; try done. by apply distinct_delete.
Qed.

Lemma typed_insert_target_set d id row :
  catalog_typed d -> target_set_typed (namespaces d) row -> same_home (target_sets d) tsr_namespace_id id row ->
  scoped_name_taken (target_sets d) tsr_namespace_id tsr_name id row = false ->
  catalog_typed (set_target_sets (<[id := row]>) d).
Proof.
  intros [H1 H2 H3 H4 H5 H6 H7 (K1 & K2 & K3 & K4 & K5 & K6)] Hc Hh Hf. split; simpl; try done.
  - intros x j [[_ <-]|[_ Hj]]%lookup_insert_Some; [done|by eapply H5].
  - intros a b Hab. destruct (H6 a b Hab) as (ts & t & Hts & Ht & Hn).
    destruct (decide (id = a)) as [->|].
    + exists row, t. rewrite lookup_insert_eq. split_and!; try done. by rewrite <- (Hh ts).
    + exists ts, t. by rewrite lookup_insert_ne.
  - intros x s Hs. apply (schedule_typed_ext d); [by eapply H7|done|done|done|]. intros k n. by apply home_insert.
  - split_and!; try done. apply distinct_insert; [done|]. by apply scoped_name_free.
Qed.

Lemma typed_members (d : DB) (f : gset (Uuid * Uuid) -> gset (Uuid * Uuid)) :
  catalog_typed d ->
  (forall a b, (a, b) ∈ f (target_set_members d) -> (a, b) ∈ target_set_members d \/
     exists ts t, target_sets d !! a = Some ts /\ targets d !! b = Some t /\ tsr_namespace_id ts = t_namespace_id t) ->
  catalog_typed (set_target_set_members f d).
Proof.
  intros [H1 H2 H3 H4 H5 H6 H7 K] Hf. split; simpl; try done. intros a b Hab. destruct (Hf a b Hab) as [?|?]; [by apply H6|done].
Qed.

Lemma typed_schedules d m :
  catalog_typed d -> (forall id s, m !! id = Some s -> schedule_typed d s) -> distinct_keys m schedule_key ->
  catalog_typed (set_schedules (fun _ => m) d).
Proof. intros [H1 H2 H3 H4 H5 H6 H7 (K1 & K2 & K3 & K4 & K5 & K6)] Hm Hk. split; simpl; done. Qed.

(** ** Lemmas: every catalog write preserves the invariant *)

(** A Schedule's row after the planner or an operator moved it. *)
Lemma typed_schedule_set d s enabled next last revision owner expires updated :
  schedule_typed d s -> 0 < revision <= i64_max ->
  schedule_typed d (schedule_set s enabled next last revision owner expires updated).
Proof.
  intros (Hc & Hg & Hv & Hr & Hm) [Hp Hq]. split_and!; try done.
  unfold schedule_checks in *. apply andb_true_iff in Hc as [Hc _]. apply andb_true_iff. split; [exact Hc|by apply Z.ltb_lt].
Qed.

Lemma schedule_revision d s : schedule_typed d s -> 0 < s_revision s <= i64_max.
Proof.
  intros (Hc & _ & Hv & _). split; [|done]. unfold schedule_checks in Hc. apply andb_true_iff in Hc as [_ Hc].
  by apply Z.ltb_lt.
Qed.

Lemma typed_replace_schedule d id s s' :
  catalog_typed d -> schedules d !! id = Some s -> schedule_typed d s' -> schedule_key s' = schedule_key s ->
  catalog_typed (set_schedules (<[id := s']>) d).
Proof.
  intros Ht Hs Hs' Hk. apply (typed_schedules d (<[id := s']> (schedules d))); [done| |].
  - intros x r [[_ <-]|[_ Hr]]%lookup_insert_Some; [done|by eapply (ct_schedule d Ht)].
  - apply distinct_insert; [apply (ct_keys d Ht)|]. intros x a Ha Hx. rewrite Hk. intros He.
    by apply Hx, (proj2 (proj2 (proj2 (proj2 (proj2 (ct_keys d Ht))))) x id a s).
Qed.

Ltac run_call H :=
  unfold bind_job, bind_target, bind_texts, bind_jsons in H;
  unfold tx_bind, check, tx_get, tx_modify, tx_ret, tx_fail, tx_lift,
    fresh_uuid, statement, ok_or, try_from in H;
  repeat (case_match; simplify_eq/=); simp_bool.

Local Arguments namespace_from_row : simpl never.
Local Arguments queue_from_row : simpl never.
Local Arguments job_from_row : simpl never.
Local Arguments target_from_row : simpl never.
Local Arguments schedule_record : simpl never.
Local Arguments job_row : simpl never.
Local Arguments job_checks : simpl never.
Local Arguments target_checks : simpl never.
Local Arguments queue_checks : simpl never.
Local Arguments schedule_checks : simpl never.
Local Arguments schedule_row : simpl never.
Local Arguments name_taken : simpl never.
Local Arguments scoped_name_taken : simpl never.
Local Arguments has : simpl never.

Lemma fresh_row {A} (m : gmap Uuid A) (ns : A -> Uuid) id row : has m id = false -> same_home m ns id row.
Proof. intros Hf old Ho. unfold has in Hf. rewrite bool_decide_eq_false, Ho in Hf. by destruct Hf. Qed.

Lemma create_namespace_typed name : all_pres catalog_typed (create_namespace name).
Proof.
  intros env s res s' H Ht. unfold create_namespace in H. run_call H; try done; by apply typed_insert_namespace.
Qed.

Lemma delete_namespace_typed id : all_pres catalog_typed (delete_namespace id).
Proof. intros env s res s' H Ht. unfold delete_namespace in H. run_call H; try done. by apply typed_delete_namespace. Qed.

Lemma create_queue_typed name description : all_pres catalog_typed (create_queue name description).
Proof. intros env s res s' H Ht. unfold create_queue in H. run_call H; try done; by apply typed_insert_queue. Qed.

Lemma update_queue_typed id name description enabled : all_pres catalog_typed (update_queue id name description enabled).
Proof. intros env s res s' H Ht. unfold update_queue in H. run_call H; try done; by apply typed_insert_queue. Qed.

Lemma delete_queue_typed id : all_pres catalog_typed (delete_queue id).
Proof. intros env s res s' H Ht. unfold delete_queue in H. run_call H; try done. by apply typed_delete_queue. Qed.

Lemma job_row_typed ns qs namespace_id name def t u :
  job_checks (job_row namespace_id name def t u) = true -> is_Some (ns !! namespace_id) ->
  is_Some (qs !! jd_queue_id def) -> job_typed ns qs (job_row namespace_id name def t u).
Proof. intros Hc Hn Hq. split; [done|]. split; [|by split]. simpl j_arguments. by rewrite strings_roundtrip. Qed.

Lemma create_job_typed ns name def : all_pres catalog_typed (create_job ns name def).
Proof.
  intros env s res s' H Ht. unfold create_job in H. run_call H; try done;
    (apply typed_insert_job; [done|by apply job_row_typed|by apply fresh_row|done]).
Qed.

Lemma update_job_typed id name def : all_pres catalog_typed (update_job id name def).
Proof.
  intros env s res s' H Ht. unfold update_job in H. run_call H; try done;
    match goal with Hj : jobs (tx_db s) !! id = Some ?j |- _ => destruct (ct_job _ Ht _ _ Hj) as (_ & _ & Hn & _) end;
    (apply typed_insert_job; [done|by apply job_row_typed|intros old Ho; simpl in *; congruence|done]).
Qed.

Lemma target_row_typed ns namespace_id name def t u :
  target_checks (target_row namespace_id name def t u) = true -> is_Some (ns !! namespace_id) ->
  target_typed ns (target_row namespace_id name def t u).
Proof. intros Hc Hn. split; [done|]. split; [|done]. simpl t_arguments. by rewrite strings_roundtrip. Qed.

Local Arguments target_row : simpl never.

Lemma create_target_typed ns name def : all_pres catalog_typed (create_target ns name def).
Proof.
  intros env s res s' H Ht. unfold create_target in H. run_call H; try done;
    (apply typed_insert_target; [done|by apply target_row_typed|by apply fresh_row|done]).
Qed.

Lemma update_target_typed id name def : all_pres catalog_typed (update_target id name def).
Proof.
  intros env s res s' H Ht. unfold update_target in H. run_call H; try done;
    match goal with Hj : targets (tx_db s) !! id = Some ?j |- _ => destruct (ct_target _ Ht _ _ Hj) as (_ & _ & Hn) end;
    (apply typed_insert_target; [done|by apply target_row_typed|intros old Ho; simpl in *; congruence|done]).
Qed.

Lemma delete_target_typed id : all_pres catalog_typed (delete_target id).
Proof. intros env s res s' H Ht. unfold delete_target in H. run_call H; try done. by apply typed_delete_target. Qed.

Lemma insert_members_typed id ids : pres catalog_typed (insert_members id ids).
Proof.
  intros env s a s' H Ht. apply tx_bind_ok in H as (now & s1 & H1%statement_db & H). rewrite <- H1 in Ht.
  apply tx_bind_ok in H as (d & s2 & [= <- <-] & H). apply tx_bind_ok in H as ([] & s2 & [_ ->]%check_ok & H).
  apply tx_bind_ok in H as ([] & s2 & [_ ->]%check_ok & H). apply tx_bind_ok in H as ([] & s2 & [Hf ->]%check_ok & [= _ <-]).
  apply typed_members; [done|]. intros x y [Hxy|Hxy]%elem_of_union; [right|by left].
  apply elem_of_list_to_set, list_elem_of_fmap in Hxy as (t & [= -> ->] & Hid).
  rewrite forallb_forall in Hf. specialize (Hf t ltac:(by apply list_elem_of_In)).
  destruct (target_sets (tx_db s1) !! id) as [ts|]; [|done]. destruct (targets (tx_db s1) !! t) as [tr|]; [|done].
  exists ts, tr. split_and!; try done. by apply N.eqb_eq.
Qed.

Section WithServer.
Context {PG : PostgresServer}.

Lemma target_rows_kept ns ids : pres catalog_typed (target_rows_for_ids ns ids).
Proof. intros env s a s' H Ht. unfold target_rows_for_ids in H. run_call H; done. Qed.

Lemma target_set_row_typed ns namespace_id name inputs t u :
  target_set_checks (mkTargetSetRow namespace_id name inputs t u) = true -> is_Some (ns !! namespace_id) ->
  target_set_typed ns (mkTargetSetRow namespace_id name inputs t u).
Proof. by split. Qed.

Lemma members_written_typed {A} ns ids (m : list TargetJoin -> tx A) :
  (forall l, pres catalog_typed (m l)) ->
  pres catalog_typed (let! targets := target_rows_for_ids ns ids in
    if negb (length targets =? length ids)%nat then tx_fail NotFound else m targets).
Proof.
  intros Hm. apply pres_bind; [apply target_rows_kept|]. intros l. destruct (negb _); [by intros ? ? ? ? [=]|apply Hm].
Qed.

Lemma create_target_set_typed ns name ids inputs : all_pres catalog_typed (create_target_set ns name ids inputs).
Proof.
  apply all_pres_bind; [|intros [row l] env s res s' H; by injection H as <- <-].
  apply all_pres_transaction. intros env s a s' H Ht.
  apply tx_bind_ok in H as (now & s1 & H1%statement_db & H). rewrite <- H1 in Ht.
  apply tx_bind_ok in H as ([] & s2 & [_ ->]%check_ok & H). apply tx_bind_ok in H as ([] & s2 & [_ ->]%check_ok & H).
  apply tx_bind_ok in H as (d & s2 & [= <- <-] & H). apply tx_bind_ok in H as (n & s2 & [Hn ->]%tx_lift_ok & H).
  apply tx_bind_ok in H as (id & s2 & [= <- <-] & H). apply tx_bind_ok in H as ([] & s2 & [Hc ->]%check_ok & H).
  apply tx_bind_ok in H as ([] & s2 & [Hf ->]%check_ok & H). apply tx_bind_ok in H as ([] & s2 & [= <-] & H). simp_bool.
  refine (members_written_typed ns ids _ _ _ _ _ _ H _).
  - intros l. apply pres_bind; [apply insert_members_typed|]. intros [] env' t b t' [= _ <-]. done.
  - simpl. apply typed_insert_target_set; [done| |by apply fresh_row|done]. apply target_set_row_typed; [done|]. by destruct (_ !! ns).
Qed.

Lemma update_target_set_typed id name ids inputs : all_pres catalog_typed (update_target_set id name ids inputs).
Proof.
  apply all_pres_bind; [|intros [row l] env s res s' H; by injection H as <- <-].
  apply all_pres_transaction. intros env s a s' H Ht.
  apply tx_bind_ok in H as (now & s1 & H1%statement_db & H). rewrite <- H1 in Ht.
  apply tx_bind_ok in H as ([] & s2 & [_ ->]%check_ok & H). apply tx_bind_ok in H as ([] & s2 & [_ ->]%check_ok & H).
  apply tx_bind_ok in H as (d & s2 & [= <- <-] & H). apply tx_bind_ok in H as (ts & s2 & [Hn ->]%tx_lift_ok & H).
  apply tx_bind_ok in H as ([] & s2 & [Hc ->]%check_ok & H). apply tx_bind_ok in H as ([] & s2 & [Hf ->]%check_ok & H).
  apply tx_bind_ok in H as ([] & s2 & [= <-] & H). apply tx_bind_ok in H as (row & s2 & [_ ->]%tx_lift_ok & H). simp_bool.
  refine (members_written_typed (tsr_namespace_id ts) ids _ _ _ _ _ _ H _).
  - intros l. apply pres_bind; [intros ? ? ? ? Hst; apply statement_db in Hst; by rewrite Hst|intros now2].
    apply pres_bind; [|intros []; apply pres_bind; [apply insert_members_typed|]; intros [] env' t b t' [= _ <-]; done].
    intros env' t b t' [= _ <-] Hp. simpl. apply typed_members; [done|]. intros x y Hxy. left. set_solver.
  - simpl. destruct (target_sets (tx_db _) !! id) as [old|] eqn:Ho; [|done]. injection Hn as ->.
    destruct (ct_target_set _ Ht _ _ Ho) as [_ Hns].
    apply typed_insert_target_set; [done|by apply target_set_row_typed| |done]. intros old Hold. rewrite Ho in Hold. by injection Hold as ->.
Qed.

End WithServer.

Lemma typed_insert_schedule d id row :
  catalog_typed d -> schedule_typed d row -> scoped_name_taken (schedules d) s_namespace_id s_name id row = false ->
  catalog_typed (set_schedules (<[id := row]>) d).
Proof.
  intros Ht Hr Hf. apply (typed_schedules d (<[id := row]> (schedules d))); [done| |].
  - intros x r [[_ <-]|[_ Hx]]%lookup_insert_Some; [done|by eapply (ct_schedule _ Ht)].
  - apply distinct_insert; [apply (ct_keys _ Ht)|]. by apply scoped_name_free.
Qed.

Lemma schedule_row_grace schedule now :
  s_misfire_grace_seconds (schedule_row schedule now) = new_misfire_grace_seconds schedule
  /\ s_revision (schedule_row schedule now) = 1.
Proof. unfold schedule_row. by destruct (selection_ids _). Qed.

Lemma create_schedule_typed schedule : all_pres catalog_typed (create_schedule schedule).
Proof.
  intros env s res s' H Ht. unfold create_schedule in H. run_call H; try done;
    (apply typed_insert_schedule; [done| |done];
     match goal with |- schedule_typed _ (schedule_row _ ?t) => destruct (schedule_row_grace schedule t) as [Hg Hr] end;
     split_and!; [done|by rewrite Hg|by rewrite Hr|done|done]).
Qed.
