(* ===== verification/Scenario.v ===== *)
(** * A concrete history

    One Namespace, Queue, Job and Target, and the calls that create, publish,
    claim and complete a Run: the inputs at which the theorems about
    histories are exercised. *)

From S2P Require Import Prelude RustStr Json Inputs Names Float Domain Workflow Db Snapshot TxLogic Store WorkflowStore Lifecycle Refinement WorkflowRefinement StoreSystem.
From Stdlib Require Import SpecFloat String.
From stdpp Require Import base numbers strings sorting gmap list relations.

Local Open Scope Z_scope.

(** Concrete stand-ins for the libraries and the server. *)
#[export] Instance serde_example : SerdeJson := {|
  number_to_string := fun _ => "0"%string;
  encoded_len := fun _ => 2;
  from_value_error := fun _ => "invalid type"%string;
|}.
#[export] Instance fmt_example : RustFmt := {| debug_str := fun s => s; debug_char := fun _ => "?"%string |}.
#[export] Instance postgres_example : PostgresServer := {|
  jsonb_eq := value_eqb;
  text_le := fun a b => negb (string_ltb b a);
|}.
#[export] Instance encoding_example : SnapshotEncoding := {| snapshot_len := fun _ => 2 |}.
#[export] Instance time_example : TimeCrate := {| seconds_f64 := fun _ => second |}.

Definition example_job (idem : bool) : JobRow :=
  {| j_namespace_id := 1; j_name := "sync"; j_executor := "process"; j_queue_id := 2;
     j_executable := Some "/bin/true"%string; j_shell_command := None;
     j_arguments := VArray [VString "--name={{ name }}"]; j_inputs := VObject [("name"%string, VString "crono")];
     j_idempotent := idem; j_dry_run := false; j_max_attempts := 3; j_retry_initial_seconds := 1;
     j_retry_max_seconds := 60; j_retry_multiplier := f64_of_Z 2; j_retry_jitter := f64_of_Z 0;
     j_created_at := 0; j_updated_at := 0 |}.

Definition example_schedule : ScheduleRow :=
  {| s_namespace_id := 1; s_job_id := 3; s_target_id := Some 4%N; s_target_set_id := None;
     s_inputs := VObject []; s_name := "nightly"; s_schedule_type := "cron";
     s_cron_expression := Some "0 3 * * *"%string; s_execute_at := None; s_timezone := "UTC";
     s_enabled := true; s_next_run_at := Some (900 * second); s_last_run_at := None;
     s_misfire_policy := "run_late"; s_misfire_grace_seconds := None; s_catchup_policy := "run_once";
     s_max_catchup_runs := 100; s_max_catchup_age_seconds := 86400; s_revision := 1;
     s_claim_owner := None; s_claim_expires_at := None; s_created_at := 0; s_updated_at := 0 |}.

(** The catalog, before any Run. *)
Definition catalog (idem : bool) : DB :=
  mkDB (mkCoreTables ∅ ∅ ∅) [] []
    {[ 1%N := mkNamespaceRow "default" 0 ]}
    {[ 2%N := mkQueueRow "default" None true true 0 0 ]}
    {[ 3%N := example_job idem ]}
    {[ 4%N := mkTargetRow 1 "host" (VArray []) (VObject []) 0 0 ]}
    ∅ ∅ {[ 6%N := example_schedule ]} ∅ ∅ (mkWorkflowTables ∅ ∅ ∅ ∅ ∅ ∅ ∅ ∅).

(** Statements at 1000 s, 1001 s, ...; no faults, no locks; fresh identifiers from [base]. *)
Definition quiet (start : Z) (base : N) : Env :=
  {| e_timestamp := fun n => (start + Z.of_nat n) * second; e_fault := fun _ => None;
     e_commit_applied := fun _ => true; e_uuid := fun n => (base + N.of_nat n)%N;
     e_wall := fun n => (start + Z.of_nat n) * second; e_locked := fun _ _ => false |}.

Definition after {A} (m : tx A) (env : Env) (d : DB) : DB := tx_db (snd (m env (mkTx d 0 0))).
Definition answer {A} (m : tx A) (env : Env) (d : DB) : result A StoreError := fst (m env (mkTx d 0 0)).

Lemma call_after {A} (m : tx A) env d : call m d (answer m env d) (after m env d).
Proof.
  exists env, 0%nat, 0%nat, (snd (m env (mkTx d 0 0))). split; [|done].
  unfold answer. by destruct (m env (mkTx d 0 0)).
Qed.

Lemma call_ok {A} (m : tx A) env d a : answer m env d = Ok a -> call m d (Ok a) (after m env d).
Proof. intros <-. apply call_after. Qed.

Definition d_created (idem : bool) : DB :=
  after (create_runs 50 3 (SelTarget 4) (VObject [])) (quiet 1000 100) (catalog idem).
Definition d_claimed (idem : bool) : DB :=
  after (claim_outbox 7 10 (60 * second)) (quiet 1010 200) (d_created idem).
Definition example_record : OutboxRecord :=
  {| or_id := 102; or_run_id := 100; or_attempt_id := 101; or_subject := dispatch_subject 2;
     or_payload := mkDispatchEnvelope 102 100 101 2; or_attempt_count := 0 |}.
Definition d_published (idem : bool) : DB :=
  after (mark_published 7 example_record 1) (quiet 1020 200) (d_claimed idem).
Definition example_claim : ClaimRequest := mkClaimRequest 100 101 2 "worker-a".
Definition d_running (idem : bool) : DB := after (claim_attempt example_claim) (quiet 1030 200) (d_published idem).
Definition example_completion (ok : bool) : CompletionRequest :=
  mkCompletionRequest 101 "worker-a" ok false (Some (if ok then 0 else 1)) "out" "" None.
Definition d_done (idem ok : bool) : DB :=
  after (complete_attempt (example_completion ok)) (quiet 1040 200) (d_running idem).

(** The Schedule's occurrence at 900 s, planned at 1000 s. *)
Definition d_schedule_claimed : DB := after (claim_due_schedules 9 10 (60 * second)) (quiet 1000 100) (catalog true).
Definition example_plan : SchedulePlan :=
  {| sp_schedule_id := 6; sp_owner := 9;
     sp_occurrences := [{| po_scheduled_at := 900 * second; po_lateness_seconds := 100; po_execute := true;
                           po_reason := None; po_dispatch_deadline := None |}];
     sp_next_run_at := Some (4500 * second); sp_disable := false |}.
Definition d_planned : DB := after (commit_schedule_plan example_plan) (quiet 1001 100) d_schedule_claimed.

Definition status_of (d : DB) : option RunStatus := option_map r_status (runs (core d) !! 100%N).

Example history_statuses :
  map status_of [d_created true; d_published true; d_running true; d_done true true; d_done true false;
                 d_done false false]
  = [Some PendingDispatch; Some Queued; Some Running; Some Succeeded; Some RetryWait; Some Failed].
Proof. vm_compute. reflexivity. Qed.

(** ** The example history, as calls *)

Lemma catalog_inv idem : core_inv (core (catalog idem)).
Proof. apply core_inv_empty. Qed.

Lemma example_to_claimed idem : rtc store_step (catalog idem) (d_claimed idem).
Proof.
  eapply rtc_l; [|apply rtc_once].
  - exact (SSCreateRuns _ _ _ _ _ _ _ (call_after (create_runs 50 3 (SelTarget 4) (VObject []))
             (quiet 1000 100) (catalog idem))).
  - exact (SSClaimOutbox _ _ _ _ _ _ (call_after (claim_outbox 7 10 (60 * second)) (quiet 1010 200)
             (d_created idem))).
Qed.

Lemma example_record_faithful idem : record_faithful (core (d_claimed idem)) example_record.
Proof. destruct idem; intros o; vm_compute; by intros [= <-]. Qed.

Lemma example_to_published idem : rtc store_step (catalog idem) (d_published idem).
Proof.
  eapply rtc_r; [apply example_to_claimed|].
  exact (SSMarkPublished _ _ _ _ _ _ (example_record_faithful idem)
           (call_after (mark_published 7 example_record 1) (quiet 1020 200) (d_claimed idem))).
Qed.

Lemma example_to_running idem : rtc store_step (catalog idem) (d_running idem).
Proof.
  eapply rtc_r; [apply example_to_published|].
  exact (SSClaimAttempt _ _ _ _ (call_after (claim_attempt example_claim) (quiet 1030 200) (d_published idem))).
Qed.

Lemma example_completes idem ok : store_step (d_running idem) (d_done idem ok).
Proof.
  exact (SSComplete _ _ _ _ (call_after (complete_attempt (example_completion ok)) (quiet 1040 200)
           (d_running idem))).
Qed.

Lemma example_to_done idem ok : rtc store_step (catalog idem) (d_done idem ok).
Proof. eapply rtc_r; [apply example_to_running|apply example_completes]. Qed.

Lemma example_inv_published idem : core_inv (core (d_published idem)).
Proof. eapply history_inv; [apply catalog_inv|apply example_to_published]. Qed.

Lemma example_inv_running idem : core_inv (core (d_running idem)).
Proof. eapply history_inv; [apply catalog_inv|apply example_to_running]. Qed.

Lemma example_to_planned : rtc store_step (catalog true) d_planned.
Proof.
  eapply rtc_l; [|apply rtc_once].
  - exact (SSClaimSchedules _ _ _ _ _ _ (call_after (claim_due_schedules 9 10 (60 * second)) (quiet 1000 100)
             (catalog true))).
  - exact (SSCommitPlan _ _ _ _ (call_after (commit_schedule_plan example_plan) (quiet 1001 100) d_schedule_claimed)).
Qed.
