(* ===== verification/StoreTheorems.v ===== *)
(** * Properties of the execution store

    What the operations of Store.v guarantee along every history of calls,
    and what the individual operations do. *)

From S2P Require Import Prelude RustStr Json Inputs Names Float Domain Workflow Db Snapshot TxLogic Store WorkflowStore Lifecycle Refinement WorkflowRefinement StoreSystem Scenario.
From Stdlib Require Import String.
From stdpp Require Import base numbers strings sorting gmap list relations.

Local Open Scope Z_scope.

Section Histories.
Context {SJ : SerdeJson} {RF : RustFmt} {PG : PostgresServer} {TC : TimeCrate} {SE : SnapshotEncoding}.

(** C1: Every history of store calls refines the life cycle: whatever the
    order of the calls, their timestamps, the connection faults and the rows
    held by others, the execution tables move by steps of the abstract
    specification and the invariant tying Runs, attempts and dispatches holds. *)
Theorem store_refines_lifecycle d d' :
  core_inv (core d) -> rtc store_step d d' ->
  rtc core_step (core d) (core d') /\ core_inv (core d').
Proof. intros Hi Hs. split; [by apply history_core|by eapply history_inv]. Qed.

(** C2: Terminal Runs are immutable: no later call changes the Run, its
    attempts or its dispatches, nor adds one. *)
Theorem terminal_runs_immutable d d' id r :
  core_inv (core d) -> rtc store_step d d' ->
  runs (core d) !! id = Some r -> is_terminal (r_status r) = true ->
  frozen id (core d) (core d').
Proof. intros Hi Hs. by apply core_steps_frozen, history_core. Qed.

(** A Run is never lost, keeps its identity, execution snapshot and retry
    budget, and its status moves along the edges of the diagram. *)
Theorem run_status_follows_diagram d d' id r :
  core_inv (core d) -> rtc store_step d d' -> runs (core d) !! id = Some r ->
  exists r', runs (core d') !! id = Some r' /\ run_frame r r' /\ rtc run_edge (r_status r) (r_status r').
Proof. intros Hi Hs. apply core_steps_run; [done|]. by apply history_core. Qed.

(** An attempt is executed at most once: after a claim was granted, no
    later claim of the same attempt is granted, to any worker. *)
Theorem attempt_claimed_once request request' d1 d2 d3 d4 res res' :
  core_inv (core d1) ->
  call (claim_attempt request) d1 (Ok res) d2 -> cr_claimed res = true ->
  rtc store_step d2 d3 ->
  call (claim_attempt request') d3 (Ok res') d4 -> cl_attempt_id request' = cl_attempt_id request ->
  cr_claimed res' = false.
Proof.
  intros Hi H1 Hcl Hs H2 Heq. destruct (cr_claimed res') eqn:Hcl'; [|done]. exfalso.
  destruct (claimed_moves _ _ _ _ H1 Hcl) as (_ & a & _ & _ & Ha & Hst & _).
  destruct (claimed_moves _ _ _ _ H2 Hcl') as (a' & _ & Ha' & Hst' & _). rewrite Heq in Ha'.
  assert (core_inv (core d2)) as Hi2.
  { eapply core_steps_inv; [done|]. eapply call_refines; [apply claim_attempt_refines|done|done]. }
  destruct (history_attempt_rank _ _ _ _ Hi2 Hs Ha) as (a'' & Ha'' & Hrank).
  assert (a'' = a') as -> by congruence. rewrite Hst, Hst' in Hrank. simpl in Hrank. lia.
Qed.

(** A result is recorded at most once: after a completion was accepted,
    no completion of the same attempt is accepted and no claim of it granted,
    so a redelivered dispatch neither overwrites the outcome nor runs again. *)
Theorem attempt_completed_once request d1 d2 d3 d4 :
  core_inv (core d1) -> call (complete_attempt request) d1 (Ok true) d2 -> rtc store_step d2 d3 ->
  (forall request', co_attempt_id request' = co_attempt_id request ->
     ~ call (complete_attempt request') d3 (Ok true) d4)
  /\ (forall request' res, cl_attempt_id request' = co_attempt_id request ->
     call (claim_attempt request') d3 (Ok res) d4 -> cr_claimed res = false).
Proof.
  intros Hi H1 Hs. destruct (completed_moves _ _ _ H1) as (_ & a & _ & _ & _ & Ha & Hst & _).
  assert (core_inv (core d2)) as Hi2.
  { eapply core_steps_inv; [done|]. eapply call_refines; [apply complete_attempt_refines|done|done]. }
  destruct (history_attempt_rank _ _ _ _ Hi2 Hs Ha) as (a' & Ha' & Hrank).
  assert (attempt_rank (a_status a) = 3%nat) as H3.
  { rewrite Hst. unfold completion_attempt_status. by destruct (co_skipped request), (co_succeeded request). }
  rewrite H3 in Hrank. split.
  - intros request' Heq H2. destruct (completed_moves _ _ _ H2) as (b & _ & Hb & Hbs & _).
    rewrite Heq in Hb. assert (b = a') as -> by congruence. rewrite Hbs in Hrank. simpl in Hrank. lia.
  - intros request' res Heq H2. destruct (cr_claimed res) eqn:Hcl; [|done].
    destruct (claimed_moves _ _ _ _ H2 Hcl) as (b & _ & Hb & Hbs & _).
    rewrite Heq in Hb. assert (b = a') as -> by congruence. rewrite Hbs in Hrank. simpl in Hrank. lia.
Qed.

(** Concurrency and retry budget: in every reachable state a Run has at
    most one running attempt, which is its latest; attempts are numbered
    within the Run's budget of at most 100, and a Run whose snapshot is not
    idempotent never gets a second attempt. *)
Theorem attempts_bounded d d' aid a :
  core_inv (core d) -> rtc store_step d d' -> run_attempts (core d') !! aid = Some a ->
  exists r, runs (core d') !! a_run_id a = Some r
    /\ 1 <= a_attempt a <= r_attempt_count r /\ r_attempt_count r <= r_max_attempts r <= 100
    /\ (snapshot_idempotent (r_execution_snapshot r) = false -> a_attempt a = 1)
    /\ (a_status a = ARunning -> r_status r = Running /\ a_attempt a = r_attempt_count r
        /\ forall aid' a', run_attempts (core d') !! aid' = Some a' -> a_run_id a' = a_run_id a ->
           a_status a' = ARunning -> aid' = aid).
Proof.
  intros Hi Hs Ha. pose proof (history_inv _ _ Hi Hs) as Hi'. pose proof Hi' as [Hsh _].
  destruct (inv_attempt_run _ Hsh _ _ Ha) as (r & Hr & Hk). exists r.
  pose proof (inv_run _ Hsh _ _ Hr) as (Hc & Hm & _ & _ & Hidem & _).
  split; [done|]. split; [done|]. split; [lia|]. split.
  - intros Hno. destruct (decide (2 <= r_attempt_count r)) as [H2|]; [|lia].
    apply Hidem in H2. unfold idempotent in H2. congruence.
  - intros Hst. destruct (attempt_latest _ _ _ Hi' Ha ltac:(congruence)) as (r1 & oid & o & Hl & Hcp & _).
    pose proof Hl as (Hr1 & _ & _ & _ & Hlat & _). assert (r1 = r) as -> by congruence.
    split; [by eapply status_of_running|]. split; [done|]. intros aid' a' Ha' Hid Hst'.
    destruct (attempt_latest _ _ _ Hi' Ha' ltac:(congruence)) as (r2 & ? & ? & (Hr2 & _ & _ & _ & Hlat2 & _) & _).
    rewrite Hid in Hr2. assert (r2 = r) as -> by congruence.
    apply (inv_attempt_unique _ Hsh _ _ a' a); congruence.
Qed.

(** An occurrence of a Schedule creates at most one Run per Target: no
    reachable state has two Runs with the same Schedule, instant and Target,
    however often servers retry or repeat a plan. *)
Theorem occurrence_unique d d' id1 id2 r1 r2 sid :
  core_inv (core d) -> rtc store_step d d' ->
  runs (core d') !! id1 = Some r1 -> runs (core d') !! id2 = Some r2 ->
  r_schedule_id r1 = Some sid -> r_schedule_id r2 = Some sid ->
  r_scheduled_at r1 = r_scheduled_at r2 -> r_target_id r1 = r_target_id r2 -> id1 = id2.
Proof.
  intros Hi Hs H1 H2 Hs1 Hs2 Ht Htg. destruct (history_inv _ _ Hi Hs) as [Hsh _].
  apply (inv_occurrence _ Hsh _ _ r1 r2); [done|done|].
  unfold same_occurrence. by rewrite Hs1, Hs2, Ht, Htg, !N.eqb_refl, Z.eqb_refl.
Qed.

(** Publication failures never consume an execution attempt: they leave
    every Run and attempt as it was, whatever the answer. *)
Theorem publish_failure_keeps_attempts owner id message next d res d' :
  call (record_publish_failure owner id message next) d res d' ->
  runs (core d') = runs (core d) /\ run_attempts (core d') = run_attempts (core d).
Proof.
  intros (env & n & u & s' & H & <-). unfold record_publish_failure, tx_bind in H.
  destruct (update_outbox _ _ _ _ _ _) as [[r|e] s1] eqn:Hu.
  - injection H as _ <-. apply update_outbox_spec in Hu. unfold core_of in Hu. simpl in Hu.
    destruct r as [o|]; [destruct Hu as (_ & _ & ->)|destruct Hu as [-> _]]; done.
  - injection H as _ <-. apply update_outbox_spec in Hu. unfold core_of in Hu. by rewrite Hu.
Qed.

End Histories.

(** ** Witnesses *)

Lemma store_refines_lifecycle_witness :
  rtc core_step (core (catalog true)) (core (d_done true true)) /\ core_inv (core (d_done true true)).
Proof. apply (store_refines_lifecycle (catalog true)); [apply catalog_inv|apply example_to_done]. Defined.

Lemma terminal_runs_immutable_witness :
  frozen 100 (core (d_done true true))
    (core (after (reconcile (fun _ => false) 10) (quiet 2000 300) (d_done true true))).
Proof.
  eapply terminal_runs_immutable.
  - eapply history_inv; [apply catalog_inv|apply example_to_done].
  - apply rtc_once. exact (SSReconcile _ _ _ _ _ (call_after (reconcile (fun _ => false) 10)
      (quiet 2000 300) (d_done true true))).
  - vm_compute. reflexivity.
  - reflexivity.
Defined.

Lemma run_status_follows_diagram_witness :
  exists r', runs (core (d_done true true)) !! 100%N = Some r'
    /\ rtc run_edge Running (r_status r').
Proof.
  destruct (run_status_follows_diagram (d_running true) (d_done true true) 100
    (match runs (core (d_running true)) !! 100%N with Some r => r | None => new_run None None None 0 0 0 0 Dead (RenderError "" VNull) 0 0 0 None None 0 end))
    as (r' & Hr' & _ & He).
  - apply example_inv_running.
  - apply rtc_once, example_completes.
  - vm_compute. reflexivity.
  - exists r'. split; [exact Hr'|exact He].
Defined.

Lemma attempt_claimed_once_witness :
  exists res, answer (claim_attempt (mkClaimRequest 100 101 2 "worker-b")) (quiet 1035 200) (d_running true) = Ok res
    /\ cr_claimed res = false.
Proof.
  destruct (answer (claim_attempt (mkClaimRequest 100 101 2 "worker-b")) (quiet 1035 200) (d_running true))
    as [res|] eqn:Hb; [|by vm_compute in Hb].
  destruct (answer (claim_attempt example_claim) (quiet 1030 200) (d_published true)) as [res0|] eqn:Ha;
    [|by vm_compute in Ha].
  assert (cr_claimed res0 = true) as Hcl by (vm_compute in Ha; by injection Ha as <-).
  exists res. split; [reflexivity|].
  exact (attempt_claimed_once example_claim (mkClaimRequest 100 101 2 "worker-b") _ _ _ _ res0 res
           (example_inv_published true) (call_ok (claim_attempt example_claim) _ _ _ Ha) Hcl (rtc_refl _ _)
           (call_ok (claim_attempt (mkClaimRequest 100 101 2 "worker-b")) _ _ _ Hb) eq_refl).
Defined.

Lemma attempt_completed_once_witness :
  ~ call (complete_attempt (example_completion false)) (d_done true true) (Ok true) (d_done true true).
Proof.
  assert (answer (complete_attempt (example_completion true)) (quiet 1040 200) (d_running true) = Ok true) as Ha
    by (vm_compute; reflexivity).
  exact (proj1 (attempt_completed_once (example_completion true) _ _ _ (d_done true true) (example_inv_running true)
           (call_ok (complete_attempt (example_completion true)) _ _ _ Ha) (rtc_refl _ _)) (example_completion false)
           eq_refl).
Defined.

Lemma attempts_bounded_witness :
  exists a r, run_attempts (core (d_running true)) !! 101%N = Some a /\ a_status a = ARunning
    /\ runs (core (d_running true)) !! a_run_id a = Some r /\ r_status r = Running /\ r_max_attempts r <= 100.
Proof.
  destruct (run_attempts (core (d_running true)) !! 101%N) as [a|] eqn:Ha; [|by vm_compute in Ha].
  destruct (attempts_bounded (catalog true) (d_running true) 101 a (catalog_inv true) (example_to_running true) Ha)
    as (r & Hr & _ & [_ Hm] & _ & Hrun).
  assert (a_status a = ARunning) as Hst by (vm_compute in Ha; by injection Ha as <-).
  destruct (Hrun Hst) as (Hrs & _). eauto 10.
Defined.

Lemma occurrence_unique_witness :
  exists id r, runs (core d_planned) !! id = Some r /\ r_schedule_id r = Some 6%N /\ id = 100%N.
Proof.
  destruct (runs (core d_planned) !! 100%N) as [r0|] eqn:Hr0; [|by vm_compute in Hr0].
  assert (r_schedule_id r0 = Some 6%N) as Hs by (vm_compute in Hr0; injection Hr0 as <-; reflexivity).
  exists 100%N, r0. split; [exact Hr0|]. split; [exact Hs|].
  exact (occurrence_unique (catalog true) d_planned 100 100 r0 r0 6 (catalog_inv true) example_to_planned Hr0 Hr0 Hs Hs
           eq_refl eq_refl).
Defined.

Lemma publish_failure_keeps_attempts_witness :
  runs (core (after (record_publish_failure 7 102 "no responders" 0) (quiet 1020 200) (d_claimed true)))
  = runs (core (d_claimed true)).
Proof.
  exact (proj1 (publish_failure_keeps_attempts 7 102 "no responders" 0 (d_claimed true) _ _
    (call_after (record_publish_failure 7 102 "no responders" 0) (quiet 1020 200) (d_claimed true)))).
Defined.
