(* ===== verification/StoreBehaviour.v ===== *)
(** * What single store operations do

    The answers and effects of individual operations of Store.v: when a claim
    is granted, what the loss of a lease does, replayed requests, refused
    results. *)

From S2P Require Import Prelude RustStr Json Inputs Names Float Domain Workflow Db Snapshot TxLogic Store WorkflowStore Lifecycle Refinement WorkflowRefinement StoreSystem Scenario.
From Stdlib Require Import Ascii String.
From stdpp Require Import base numbers strings sorting gmap list relations.

Local Open Scope Z_scope.

(** The row a granted claim leaves. *)
Definition claimed_row (worker : string) (now : Instant) (a : AttemptRow) : AttemptRow :=
  attempt_set a ARunning (Some worker) (Some now) (Some now) (Some (now + 60 * second)) (a_completed_at a)
    (a_exit_code a) (a_stdout_tail a) (a_stderr_tail a) (a_output_sequence a) (a_error a).

(** A request that this call's comparison accepts. *)
Definition request_matches `{PostgresServer} (d : DB) (request_id job_id : Uuid) (target : TargetSelection) (inputs : value) : Prop :=
  exists row, run_requests d !! request_id = Some row /\ has (workflow_node_runs d) request_id = false
    /\ rr_job_id row = job_id /\ (rr_target_id row, rr_target_set_id row) = selection_ids target
    /\ (value_eqb (rr_inputs row) inputs = true \/ jsonb_eq (rr_inputs row) inputs = true).

(** ** Lemmas: successful statements *)

Lemma update_attempt_hit texts id cond f env s a :
  fault_free env -> forallb storable texts = true -> run_attempts (core_of s) !! id = Some a ->
  cond (e_timestamp env (tx_statements s)) a = true ->
  attempt_checks (f (e_timestamp env (tx_statements s)) a) = true ->
  update_attempt texts id cond f env s
  = (Ok (Some a), mkTx (set_attempts (<[id := f (e_timestamp env (tx_statements s)) a]>) (tx_db s))
                    (S (tx_statements s)) (tx_uuids s)).
Proof.
  intros Hf Ht Ha Hc Hk. unfold core_of in Ha. unfold update_attempt, tx_bind. rewrite statement_runs by done.
  unfold bind_texts, check. rewrite Ht. cbn. rewrite Ha, Hc, Hk. done.
Qed.

Lemma update_run_hit texts id cond f env s r :
  fault_free env -> forallb storable texts = true -> runs (core_of s) !! id = Some r -> cond r = true ->
  0 <= r_attempt_count (f (e_timestamp env (tx_statements s)) r)
    <= r_max_attempts (f (e_timestamp env (tx_statements s)) r) ->
  update_run texts id cond f env s
  = (Ok (Some r), mkTx (enqueue_workflow_completion (e_timestamp env (tx_statements s)) id (r_status r)
                          (r_status (f (e_timestamp env (tx_statements s)) r))
                          (set_runs (<[id := f (e_timestamp env (tx_statements s)) r]>) (tx_db s)))
                    (S (tx_statements s)) (tx_uuids s)).
Proof.
  intros Hf Ht Hr Hc [Hk1 Hk2]. unfold core_of in Hr. unfold update_run, tx_bind. rewrite statement_runs by done.
  unfold bind_texts, check. rewrite Ht. cbn. rewrite Hr, Hc.
  rewrite (proj2 (Z.leb_le _ _) Hk1), (proj2 (Z.leb_le _ _) Hk2). done.
Qed.

Lemma run_event_hit run ty detail env s r :
  fault_free env -> runs (core_of s) !! run = Some r ->
  insert_run_event run ty detail env s
  = (Ok (), mkTx (set_run_events (fun l => l ++ [mkRunEventRow run ty detail (e_timestamp env (tx_statements s))])
                    (tx_db s)) (S (tx_statements s)) (tx_uuids s)).
Proof.
  intros Hf Hr. unfold core_of in Hr. unfold insert_run_event, tx_bind. rewrite statement_runs by done.
  unfold check, has. cbn. rewrite Hr. done.
Qed.

Lemma queued_attempt c aid a :
  core_inv c -> run_attempts c !! aid = Some a -> a_status a = AQueued ->
  exists r exec, runs c !! a_run_id a = Some r /\ r_status r = Queued
    /\ r_execution_snapshot r = Rendered exec /\ 0 <= r_attempt_count r <= r_max_attempts r.
Proof.
  intros Hi Ha Hst. destruct (attempt_latest _ _ _ Hi Ha ltac:(congruence)) as (r & oid & o & Hl & Hcp & _).
  pose proof Hl as (Hr & _ & _ & _ & Hk & _). destruct Hi as [Hsh _].
  pose proof (inv_run _ Hsh _ _ Hr) as (Hc & _ & _ & Hex & _).
  destruct (inv_attempt_run _ Hsh _ _ Ha) as (r1 & Hr1 & Hk1). assert (r1 = r) as -> by congruence.
  exists r. destruct (r_execution_snapshot r) as [exec|] eqn:Hs; [|by specialize (Hex ltac:(lia))].
  exists exec. split; [done|]. split; [|done].
  unfold coupled, unleased, leased in Hcp. rewrite Hst in Hcp. destruct (r_status r); naive_solver.
Qed.

(** ** Lemmas: what creation leaves alone *)

Lemma keeps_create_normal_run {X} (f : DB -> X) p :
  (forall g d, f (set_core g d) = f d) -> (forall g d, f (set_run_events g d) = f d) ->
  keeps f (create_normal_run p).
Proof.
  intros H1 H2. unfold create_normal_run, create_attempt_and_outbox, insert_run, insert_attempt, insert_outbox,
    insert_run_event, bind_texts. keeps_tac; apply keeps_modify; intros d; unfold set_runs, set_attempts, set_outbox; auto.
Qed.

Section Replays.
Context {SJ : SerdeJson} {RF : RustFmt} {PG : PostgresServer} {TC : TimeCrate}.

Lemma keeps_load_selection {X} (f : DB -> X) job target : keeps f (load_selection_executions job target).
Proof.
  unfold load_selection_executions, load_execution_ids.
  assert (forall j l, keeps f (tx_collect (load_execution_ids j) l)) as Hc.
  { intros j l. induction l as [|x l IH]; [by apply keeps_step|]. simpl. unfold load_execution_ids.
    keeps_tac. exact IH. }
  destruct target; keeps_tac. apply Hc.
Qed.

Lemma keeps_render {X} (f : DB -> X) l si i : keeps f (render_executions l si i).
Proof.
  unfold render_executions. induction l as [|x l IH]; [by apply keeps_step|]. simpl. keeps_tac. exact IH.
Qed.

Lemma inserted_request request ns job tid tsid inputs env s s' :
  insert_run_request request ns job tid tsid inputs env s = (Ok (Ok ()), s') ->
  (exists row, run_requests (tx_db s') !! request = Some row /\ rr_job_id row = job
     /\ rr_target_id row = tid /\ rr_target_set_id row = tsid /\ rr_inputs row = inputs)
  /\ workflow_node_runs (tx_db s') = workflow_node_runs (tx_db s).
Proof.
  unfold insert_run_request. intros H. run_statement; try done.
  split; [|done]. eexists. rewrite lookup_insert_eq. done.
Qed.

Lemma created_request request job target inputs env s s' :
  has (workflow_node_runs (tx_db s)) request = false -> jsonb_eq inputs inputs = true ->
  create_runs_transaction request job target inputs env s = (Ok true, s') ->
  request_matches (tx_db s') request job target inputs.
Proof.
  intros Hw Hj H. unfold create_runs_transaction, transaction in H.
  destruct (tx_bind statement _ env s) as [[out|e] s2] eqn:Hb; [|done].
  apply tx_bind_ok in Hb as (now & s3 & H3%(keeps_statement workflow_node_runs) & Hb).
  apply tx_bind_ok in Hb as ([ex si] & s4 & H4%(keeps_load_selection workflow_node_runs) & Hb).
  apply tx_bind_ok in Hb as (snaps & s5 & H5%(keeps_render workflow_node_runs) & Hb).
  destruct (selection_ids target) as [tid tsid] eqn:Hsel.
  apply tx_bind_ok in Hb as (ns & s6 & H6 & Hb). apply tx_lift_ok in H6 as [_ ->].
  apply tx_bind_ok in Hb as (ins & s7 & H7 & Hb).
  destruct ins as [[]|[]]; try done.
  2:{ injection Hb as <- <-. destruct (e_fault env _); done. }
  apply tx_bind_ok in Hb as (u & s8 & H8 & [= <- <-]).
  assert (tx_db s' = tx_db s8) as Hdb by (by destruct (e_fault env _); simplify_eq/=).
  apply inserted_request in H7 as ((row & Hrow & <- & <- & <- & <-) & Hw7).
  assert (forall X (f : DB -> X), (forall g d, f (set_core g d) = f d) ->
    (forall g d, f (set_run_events g d) = f d) -> f (tx_db s8) = f (tx_db s7)) as Hk.
  { intros X f Hf1 Hf2. eapply keeps_for; [|exact H8]. intros x. by apply keeps_create_normal_run. }
  exists row. rewrite Hdb, (Hk _ run_requests), (Hk _ workflow_node_runs), Hw7, H5, H4, H3 by done.
  rewrite Hsel. eauto 10.
Qed.

Lemma compared_request request job target inputs env s s1 row s' :
  find_run_request request env s = (Ok (Some row), s1) ->
  compare_run_request row job target inputs env s1 = (Ok (), s') ->
  request_matches (tx_db s') request job target inputs.
Proof.
  intros H1 H2. apply tx_bind_ok in H1 as (now & s2 & H3%(keeps_statement id) & H1). simpl in H3.
  apply tx_bind_ok in H1 as (d & s2' & [= <- <-] & [= H1 <-]).
  destruct (run_requests (tx_db s2) !! request) as [r|] eqn:Hr; [|done]. injection H1 as <-.
  unfold compare_run_request in H2. destruct (selection_ids target) as [tid tsid] eqn:Hsel. simpl in H2.
  destruct (_ && _) eqn:Hc; [|done]. simp_bool.
  apply tx_bind_ok in H2 as (same & s3 & Hj4 & H2). destruct same; [|done]. injection H2 as <-.
  assert (tx_db s3 = tx_db s2 /\ (value_eqb (rr_inputs r) inputs = true \/ jsonb_eq (rr_inputs r) inputs = true)) as [Hdb He].
  { unfold json_inputs_equal in Hj4. destruct (value_eqb _ _) eqn:Hv; [injection Hj4 as <-; eauto|].
    apply tx_bind_ok in Hj4 as (n4 & s4 & Hj5%(keeps_statement id) & [= Hj <-]). eauto. }
  exists r. rewrite Hdb, Hsel. repeat split; try done; [by apply N.eqb_eq|congruence].
Qed.

Lemma matching_request_accepted request job target inputs env s :
  fault_free env -> request_matches (tx_db s) request job target inputs ->
  exists row s1 s', find_run_request request env s = (Ok (Some row), s1)
    /\ compare_run_request row job target inputs env s1 = (Ok (), s') /\ tx_db s' = tx_db s.
Proof.
  intros Hf (row & Hrow & Hw & Hj & Hsel & He). eexists (row, false), _.
  unfold find_run_request, tx_bind. rewrite statement_runs by done. cbn. rewrite Hrow. cbn. rewrite Hw.
  unfold compare_run_request. rewrite <- Hsel. cbn. rewrite Hj, N.eqb_refl, !bool_decide_true by done. cbn.
  unfold tx_bind, json_inputs_equal. destruct (value_eqb _ _) eqn:Hv; [eauto|].
  destruct He as [He|He]; [congruence|]. unfold tx_bind. rewrite statement_runs by done. cbn. rewrite He. eauto.
Qed.

Lemma records_read request env s records s' :
  runs_for_request request env s = (Ok records, s') ->
  tx_db s' = tx_db s /\ forall env2 s2, fault_free env2 -> tx_db s2 = tx_db s ->
    exists s2', runs_for_request request env2 s2 = (Ok records, s2') /\ tx_db s2' = tx_db s.
Proof.
  intros H. unfold runs_for_request in H. apply tx_bind_ok in H as (now & s3 & H3%(keeps_statement id) & H).
  apply tx_bind_ok in H as (d & s3' & [= <- <-] & H). apply tx_lift_ok in H as [H ->]. simpl in H3.
  split; [done|]. intros env2 s2 Hf Hdb. eexists. unfold runs_for_request, tx_bind. rewrite statement_runs by done.
  cbn. rewrite Hdb, <- H3. unfold tx_lift. rewrite H. done.
Qed.

Lemma create_runs_leaves_match request job target inputs env s records created s' :
  has (workflow_node_runs (tx_db s)) request = false -> jsonb_eq inputs inputs = true ->
  create_runs request job target inputs env s = (Ok (records, created), s') ->
  request_matches (tx_db s') request job target inputs
  /\ exists s1, runs_for_request request env s1 = (Ok records, s').
Proof.
  intros Hw Hj H. unfold create_runs in H. apply tx_bind_ok in H as (found & s1 & H1 & H).
  destruct found as [row|].
  - apply tx_bind_ok in H as ([] & s2 & H2 & H). apply tx_bind_ok in H as (rs & s3 & H3 & [= <- <- <-]).
    split; [|eauto]. rewrite (proj1 (records_read _ _ _ _ _ H3)). by eapply compared_request.
  - assert (tx_db s1 = tx_db s) as Hdb.
    { apply tx_bind_ok in H1 as (n2 & s2 & H2%(keeps_statement id) & H1). apply tx_bind_ok in H1 as (d & s2' & [= <- <-] & [= _ <-]). done. }
    apply tx_bind_ok in H as (b & s2 & H2 & H). destruct b.
    + apply tx_bind_ok in H as (rs & s3 & H3 & [= <- <- <-]). split; [|eauto].
      rewrite (proj1 (records_read _ _ _ _ _ H3)). eapply created_request; [|done|done]. by rewrite Hdb.
    + apply tx_bind_ok in H as (found & s3 & H3 & H). apply tx_bind_ok in H as (row & s4 & H4 & H).
      apply tx_lift_ok in H4 as [H4 ->]. destruct found; [|done]. injection H4 as ->.
      apply tx_bind_ok in H as ([] & s5 & H5 & H). apply tx_bind_ok in H as (rs & s6 & H6 & [= <- <- <-]).
      split; [|eauto]. rewrite (proj1 (records_read _ _ _ _ _ H6)). by eapply compared_request.
Qed.

(** Run requests are idempotent: once a request was answered, repeating it
    with the same Job, Target and inputs answers with the same Runs, says that
    it created none, and writes nothing. *)
Theorem create_runs_idempotent request job target inputs env env' d n u n' u' records created s :
  workflow_node_runs d !! request = None -> jsonb_eq inputs inputs = true ->
  create_runs request job target inputs env (mkTx d n u) = (Ok (records, created), s) ->
  fault_free env' ->
  exists s', create_runs request job target inputs env' (mkTx (tx_db s) n' u') = (Ok (records, false), s')
    /\ tx_db s' = tx_db s.
Proof.
  intros Hw Hj H Hf. assert (has (workflow_node_runs d) request = false) as Hw'.
  { unfold has. rewrite Hw. by apply bool_decide_false; intros [? ?]. }
  destruct (create_runs_leaves_match _ _ _ _ _ (mkTx d n u) _ _ _ Hw' Hj H) as (Hm & s1 & Hr).
  destruct (records_read _ _ _ _ _ Hr) as [Hdb1 Hread].
  destruct (matching_request_accepted _ _ _ _ env' (mkTx (tx_db s) n' u') Hf Hm) as (row & s2 & s3 & H2 & H3 & Hdb3).
  destruct (Hread env' s3 Hf) as (s4 & H4 & Hdb4); [simpl in Hdb3; congruence|].
  exists s4. unfold create_runs, tx_bind. rewrite H2, H3, H4. split; [done|congruence].
Qed.

End Replays.

Section Behaviour.
Context {SJ : SerdeJson} {RF : RustFmt} {PG : PostgresServer} {TC : TimeCrate}.

Lemma claim_attempt_runs request env s a :
  core_inv (core_of s) -> fault_free env -> storable (cl_worker_id request) = true ->
  run_attempts (core_of s) !! cl_attempt_id request = Some a -> a_status a = AQueued ->
  a_run_id a = cl_run_id request -> attempt_checks a = true ->
  run_queue (tx_db s) (cl_run_id request) = Some (cl_queue_id request) ->
  exists r exec r' now s',
    claim_attempt request env s = (Ok (mkClaimResponse true 60 (Some exec)), s')
    /\ runs (core_of s) !! cl_run_id request = Some r /\ r_execution_snapshot r = Rendered exec
    /\ r_status r' = Running /\ run_frame r r'
    /\ core_of s' = with_run (with_attempt (core_of s) (cl_attempt_id request)
                                (claimed_row (cl_worker_id request) now a)) (cl_run_id request) r'.
Proof.
  intros Hi Hf Hw Ha Hst Hid Hck Hq.
  destruct (queued_attempt _ _ _ Hi Ha Hst) as (r & exec & Hr & Hrs & Hex & Hcnt). rewrite Hid in Hr.
  unfold claim_attempt, tx_bind at 1. erewrite transaction_commits; [|done|].
  2:{ unfold tx_bind at 1, tx_get at 1. unfold tx_bind at 1.
      erewrite update_attempt_hit; [|done|by simpl; rewrite Hw|exact Ha| |exact Hck].
      2:{ cbn. rewrite Hid, N.eqb_refl, Hst, Hq. cbn. by rewrite !bool_decide_true. }
      rewrite Hid. unfold tx_bind at 1. erewrite update_run_hit; [|done|done|exact Hr|by rewrite Hrs|exact Hcnt].
      unfold tx_bind at 1, tx_lift at 1. cbn -[insert_run_event enqueue_workflow_completion].
      unfold tx_bind at 1. erewrite run_event_hit; [reflexivity|done|].
      unfold core_of. cbn -[enqueue_workflow_completion]. rewrite trigger_core. cbn. by rewrite lookup_insert_eq. }
  rewrite Hex. eexists r, exec, _, _, _. split; [reflexivity|]. split; [done|]. split; [done|].
  split; [|split; [|unfold core_of; cbn -[enqueue_workflow_completion]; rewrite trigger_core; reflexivity]]; done.
Qed.

(** A queued attempt is granted to the first worker of its queue that asks:
    the claim answers with the Run's immutable snapshot and a 60 s lease, and
    changes nothing but the attempt and its Run, which is then running. *)
Theorem claim_attempt_grants request env d n u a :
  core_inv (core d) -> fault_free env -> storable (cl_worker_id request) = true ->
  run_attempts (core d) !! cl_attempt_id request = Some a -> a_status a = AQueued ->
  a_run_id a = cl_run_id request -> attempt_checks a = true ->
  run_queue d (cl_run_id request) = Some (cl_queue_id request) ->
  exists r exec r' now s',
    claim_attempt request env (mkTx d n u) = (Ok (mkClaimResponse true 60 (Some exec)), s')
    /\ runs (core d) !! cl_run_id request = Some r /\ r_execution_snapshot r = Rendered exec
    /\ r_status r' = Running /\ run_frame r r'
    /\ core (tx_db s') = with_run (with_attempt (core d) (cl_attempt_id request)
                                (claimed_row (cl_worker_id request) now a)) (cl_run_id request) r'.
Proof. apply (claim_attempt_runs request env (mkTx d n u)). Qed.

(** C23: A result whose output holds a NUL byte is refused on every report: the
    worker's completion is never accepted and nothing of it is stored. *)
Theorem nul_output_never_completes request d res d' :
  contains_byte nul (bounded_tail (co_stdout_tail request)) = true
    \/ contains_byte nul (bounded_tail (co_stderr_tail request)) = true ->
  call (complete_attempt request) d res d' -> (exists e, res = Err e) /\ d' = d.
Proof.
  intros Hnul (env & n & u & s' & H & <-). unfold complete_attempt in H.
  destruct (_ && _); [injection H as <- <-; eauto|].
  assert (forallb storable (completion_texts request) = false) as Ht.
  { unfold completion_texts, storable. simpl. destruct Hnul as [-> | ->]; simpl; by rewrite ?andb_false_r. }
  unfold transaction, update_attempt in H. unfold tx_bind in H at 1.
  destruct (statement env _) as [[now|e] s1] eqn:Hs; [|injection H as <- <-; eauto].
  unfold tx_bind in H at 1. unfold tx_bind in H at 1.
  destruct (statement env s1) as [[now1|e] s2]; [|injection H as <- <-; eauto].
  unfold tx_bind, bind_texts, check in H. rewrite Ht in H. cbn in H. injection H as <- <-. eauto.
Qed.

(** A stale or replayed output snapshot is ignored: an accepted one comes
    from the worker that holds the lease, carries a larger sequence number
    than the stored one, and leaves every Run and dispatch as it was. *)
Theorem output_snapshots_ordered request d d' :
  call (record_attempt_output request) d (Ok true) d' ->
  exists a a', run_attempts (core d) !! ou_attempt_id request = Some a
    /\ a_status a = ARunning /\ a_worker_id a = Some (ou_worker_id request)
    /\ a_output_sequence a < ou_sequence request
    /\ run_attempts (core d') = <[ou_attempt_id request := a']> (run_attempts (core d))
    /\ a_output_sequence a' = ou_sequence request /\ a_status a' = ARunning
    /\ a_stdout_tail a' = Some (ou_stdout_tail request) /\ a_lease_expires_at a' = a_lease_expires_at a
    /\ runs (core d') = runs (core d) /\ outbox (core d') = outbox (core d).
Proof.
  intros (env & n & u & s' & H & <-). unfold record_attempt_output in H.
  apply tx_bind_ok in H as (seq & s1 & H1 & H). apply tx_lift_ok in H1 as [Hseq ->].
  unfold try_from in Hseq. destruct (in_i64 _); [injection Hseq as <-|done].
  apply tx_bind_ok in H as (res & s2 & H2 & H). apply update_attempt_spec in H2. injection H as Hres <-.
  destruct res as [a|]; [|done]. destruct H2 as (Ha & Hc & Hc2). apply andb_true_iff in Hc as [Hl Hlt%Z.ltb_lt].
  apply holds_lease_spec in Hl as (Hw & Hst & _). change (core (tx_db s2)) with (core_of s2). rewrite Hc2.
  eexists a, _. do 4 (split; [done|]). split; [reflexivity|]. by repeat split.
Qed.

(** The rows a dispatch is created with. *)
Lemma create_attempt_rows run k queue deadline env s u s' :
  create_attempt_and_outbox run k queue deadline env s = (Ok u, s') ->
  exists aid oid now now', run_attempts (core_of s) !! aid = None /\ outbox (core_of s) !! oid = None
    /\ core_of s' = with_outbox (with_attempt (core_of s) aid (new_attempt run k now)) oid
                      (new_outbox oid run aid queue deadline now').
Proof.
  unfold create_attempt_and_outbox. intros H.
  apply tx_bind_ok in H as (aid & s1 & H1%fresh_uuid_ok & H). apply tx_bind_ok in H as (oid & s2 & H2%fresh_uuid_ok & H).
  apply tx_bind_ok in H as (u1 & s3 & H3 & H).
  apply insert_attempt_spec in H3 as [Hna H3]. apply insert_outbox_spec in H as [Hno H].
  assert (core_of s2 = core_of s) as Hc by (unfold core_of; by rewrite H2, H1).
  rewrite H3, Hc in *. by eexists aid, oid, _, _.
Qed.

(** What the loss of a lease adds for a retry: a pending attempt with the next
    number and its dispatch to the Queue, beside every row there was. *)
Definition next_dispatch (c c' : CoreTables) (run lost : Uuid) (k : Z) (queue : Uuid) : Prop := exists aid oid now now',
  run_attempts c !! aid = None /\ outbox c !! oid = None
  /\ run_attempts c' !! aid = Some (new_attempt run (k + 1) now)
  /\ outbox c' = <[oid := new_outbox oid run aid queue None now']> (outbox c)
  /\ forall other, other <> aid -> other <> lost -> run_attempts c' !! other = run_attempts c !! other.

(** C22: The loss of a lease: an idempotent Run with attempts left goes back to
    dispatch, its old attempt failed, with a new attempt of the next number and
    a dispatch for it to the Run's Queue, and nothing else added; any other Run
    ends as unknown, with no new attempt and no new dispatch. *)
Theorem lease_loss_outcome x env s u s' r a :
  core_inv (core_of s) -> lease_lost x (core_of s) ->
  runs (core_of s) !! el_run_id x = Some r -> run_attempts (core_of s) !! el_attempt_id x = Some a ->
  expire_lease x env s = (Ok u, s') ->
  exists r' a', runs (core_of s') !! el_run_id x = Some r' /\ run_attempts (core_of s') !! el_attempt_id x = Some a'
    /\ run_frame r r' /\ a_lease_expires_at a' = None
    /\ if snapshot_idempotent (r_execution_snapshot r) && (r_attempt_count r <? r_max_attempts r)
       then r_status r' = PendingDispatch /\ r_attempt_count r' = r_attempt_count r + 1 /\ a_status a' = AFailed
            /\ next_dispatch (core_of s) (core_of s') (el_run_id x) (el_attempt_id x) (r_attempt_count r) (el_queue_id x)
       else r_status r' = Unknown /\ r_attempt_count r' = r_attempt_count r /\ a_status a' = AUnknown
            /\ dom (run_attempts (core_of s')) = dom (run_attempts (core_of s))
            /\ outbox (core_of s') = outbox (core_of s).
Proof.
  intros Hi (r1 & a1 & Hr1 & Ha1 & Hrid & Hst & Hk & Hm & Hid) Hr Ha H.
  assert (r1 = r) as -> by congruence. assert (a1 = a) as -> by congruence.
  destruct (attempt_latest _ _ _ Hi Ha ltac:(congruence)) as (r2 & oid & o & Hl & Hcp & _).
  rewrite Hrid in *. pose proof Hl as (Hr2 & _). assert (r2 = r) as -> by congruence.
  pose proof (status_of_running _ _ _ Hcp Hst) as Hrs. unfold expire_lease in H. rewrite Hk, Hm, Hid in H.
  apply tx_bind_ok in H as (res & s3 & H3 & H). apply update_attempt_spec in H3. rewrite Ha in H3.
  destruct res as [a0|]; [|destruct H3 as [_ H3]; specialize (H3 a eq_refl); by simp_bool].
  destruct H3 as ([= <-] & _ & Hc3).
  destruct (snapshot_idempotent _ && _) eqn:Hretry.
  - assert (runs (core_of s3) !! el_run_id x = Some r) as Hr3 by (by rewrite Hc3).
    unfold start_retry in H. apply tx_bind_ok in H as (res & s4 & H4 & H). apply update_run_spec in H4. rewrite Hr3 in H4.
    destruct res as [r0|]; [|destruct H4 as [_ H4]; specialize (H4 r eq_refl); by simp_bool].
    destruct H4 as ([= <-] & _ & now4 & Hc4).
    apply create_attempt_rows in H as (aid & oid1 & now & now' & Hn & Ho & ->).
    rewrite Hc4, Hc3 in *. simpl in *. apply lookup_insert_None in Hn as [Hn Hne].
    eexists _, _. rewrite lookup_insert_eq, lookup_insert_ne, lookup_insert_eq by done.
    do 4 (split; [done|]). do 3 (split; [done|]). exists aid, oid1, now, now'.
    split_and!; [done|done|apply lookup_insert_eq|done|]. intros other H1 H2. cbn. by rewrite !lookup_insert_ne by congruence.
  - apply tx_bind_ok in H as (res & s4 & H4 & [= _ <-]). apply update_run_spec in H4.
    rewrite Hc3 in H4. simpl in H4. rewrite Hr in H4.
    destruct res as [r0|]; [|destruct H4 as [_ H4]; specialize (H4 r eq_refl); by simp_bool].
    destruct H4 as ([= <-] & _ & now4 & ->). simpl. eexists _, _. rewrite !lookup_insert_eq.
    repeat (split; [done|]). split; [|done]. rewrite dom_insert_L.
    assert (el_attempt_id x ∈ dom (run_attempts (core_of s))); [|set_solver]. apply elem_of_dom; eauto.
Qed.

End Behaviour.

(** ** Witnesses *)

Lemma claim_attempt_grants_witness :
  exists r exec r' now s', claim_attempt example_claim (quiet 1030 200) (mkTx (d_published false) 0 0)
      = (Ok (mkClaimResponse true 60 (Some exec)), s')
    /\ runs (core (d_published false)) !! 100%N = Some r /\ r_execution_snapshot r = Rendered exec
    /\ r_status r' = Running /\ run_frame r r'
    /\ exists a, core (tx_db s') = with_run (with_attempt (core (d_published false)) 101
                                (claimed_row "worker-a" now a)) 100 r'.
Proof.
  destruct (run_attempts (core (d_published false)) !! 101%N) as [a|] eqn:Ha; [|by vm_compute in Ha].
  assert (a_status a = AQueued /\ a_run_id a = 100%N /\ attempt_checks a = true) as (Hst & Hid & Hck)
    by (vm_compute in Ha; injection Ha as <-; repeat split; reflexivity).
  assert (run_queue (d_published false) 100 = Some 2%N) as Hq by (vm_compute; reflexivity).
  destruct (claim_attempt_grants example_claim (quiet 1030 200) (d_published false) 0 0 a
              (example_inv_published false) (fun _ => eq_refl) eq_refl Ha Hst Hid Hck Hq)
    as (r & exec & r' & now & s' & H1 & H2 & H3 & H4 & H5 & H6).
  exists r, exec, r', now, s'. do 5 (split; [assumption|]). exists a. exact H6.
Defined.

Lemma nul_output_never_completes_witness :
  after (complete_attempt (mkCompletionRequest 101 "worker-a" true false (Some 0) (String nul EmptyString) "" None))
    (quiet 1040 200) (d_running true) = d_running true.
Proof.
  assert (contains_byte nul (bounded_tail (String nul EmptyString)) = true) as Hn by (vm_compute; reflexivity).
  exact (proj2 (nul_output_never_completes
    (mkCompletionRequest 101 "worker-a" true false (Some 0) (String nul EmptyString) "" None) _ _ _ (or_introl Hn)
    (call_after (complete_attempt (mkCompletionRequest 101 "worker-a" true false (Some 0) (String nul EmptyString) "" None))
       (quiet 1040 200) (d_running true)))).
Defined.

Lemma output_snapshots_ordered_witness :
  exists a, run_attempts (core (d_running true)) !! 101%N = Some a /\ a_output_sequence a < 5.
Proof.
  set (request := mkOutputSnapshotRequest 101 "worker-a" 5 "out" "").
  assert (answer (record_attempt_output request) (quiet 1035 200) (d_running true) = Ok true) as Ha
    by (vm_compute; reflexivity).
  destruct (output_snapshots_ordered request _ _ (call_ok (record_attempt_output request) _ _ _ Ha))
    as (a & _ & H1 & _ & _ & H2 & _). eauto.
Defined.

(** The lease of the running attempt of an idempotent Job, expired. *)
Lemma lease_loss_outcome_witness :
  exists r' c', runs c' !! 100%N = Some r' /\ r_status r' = PendingDispatch
    /\ next_dispatch (core (d_running true)) c' 100 101 1 2.
Proof.
  set (x := mkExpiredLeaseRow 101 100 true 1 3 2). set (s := mkTx (d_running true) 0 0).
  destruct (runs (core_of s) !! 100%N) as [r|] eqn:Hr; [|by vm_compute in Hr].
  destruct (run_attempts (core_of s) !! 101%N) as [a|] eqn:Ha; [|by vm_compute in Ha].
  destruct (expire_lease x (quiet 2000 300) s) as [[u|] s'] eqn:He; [|by vm_compute in He].
  assert (lease_lost x (core_of s)) as Hl.
  { exists r, a. split; [exact Hr|]. split; [exact Ha|]. vm_compute in Hr, Ha. injection Hr as <-. injection Ha as <-.
    by repeat split. }
  assert (snapshot_idempotent (r_execution_snapshot r) && (r_attempt_count r <? r_max_attempts r) = true
    /\ r_attempt_count r = 1) as [Hyes Hk]
    by (vm_compute in Hr; injection Hr as <-; split; vm_compute; reflexivity).
  destruct (lease_loss_outcome x _ s u s' r a (example_inv_running true) Hl Hr Ha He) as (r' & a' & Hr' & _ & _ & _ & Hif).
  rewrite Hyes in Hif. destruct Hif as (Hst & _ & _ & Hd). rewrite Hk in Hd. exists r', (core_of s').
  split; [exact Hr'|]. split; [exact Hst|exact Hd].
Defined.

Lemma create_runs_idempotent_witness :
  exists records s', create_runs 50 3 (SelTarget 4) (VObject []) (quiet 1500 400) (mkTx (d_created true) 0 0)
    = (Ok (records, false), s') /\ tx_db s' = d_created true.
Proof.
  destruct (create_runs 50 3 (SelTarget 4) (VObject []) (quiet 1000 100) (mkTx (catalog true) 0 0))
    as [[[records created]|] s] eqn:H; [|by vm_compute in H].
  assert (d_created true = tx_db s) as Hs by (unfold d_created, after; rewrite H; reflexivity).
  assert (jsonb_eq (VObject []) (VObject []) = true) as Hj by reflexivity.
  destruct (create_runs_idempotent 50 3 (SelTarget 4) (VObject []) (quiet 1000 100) (quiet 1500 400) (catalog true)
    0 0 0 0 records created s eq_refl Hj H (fun _ => eq_refl)) as (s' & H1 & H2).
  rewrite Hs. exists records, s'. split; [exact H1|exact H2].
Defined.
