(* ===== verification/PlannerTheorems.v ===== *)
(** * Properties of the planner *)

From S2P Require Import Prelude RustStr Json Inputs Names Float Domain Recurrence Workflow Db Snapshot TxLogic Store Planner WorkflowStore Lifecycle Refinement WorkflowRefinement StoreSystem Scenario StoreBehaviour.
From Stdlib Require Import String.
From stdpp Require Import base numbers strings sorting gmap list.

Local Open Scope Z_scope.

(** Occurrences a plan executes. *)
Definition executed (l : list PlannedOccurrence) : list PlannedOccurrence := filter (fun o => po_execute o = true) l.

(** The seconds of lateness a policy tolerates. *)
Definition tolerance (policy : MisfirePolicy) (grace : option Z) : option Z :=
  match policy with RunLate => None | MisfireSkip => Some 30 | GracePeriod => grace end.

(** A plan's shape: from the due instant, nothing in the future, and a
    bounded number of occurrences of each kind. *)
Definition well_planned (first_due now : Instant) (limit : nat) (l : list PlannedOccurrence) : Prop :=
  head (instants l) = Some first_due /\ Forall (fun t => t <= now) (instants l)
  /\ (length l <= S (Nat.max 1 limit))%nat /\ (length (executed l) <= Nat.max 1 limit)%nat.

(** It goes forward: strictly increasing instants, and the next one to come. *)
Definition moves_on (now next : Instant) (l : list PlannedOccurrence) : Prop :=
  StronglySorted Z.lt (instants l ++ [next]) /\ now < next.

Lemma executed_length l : (length (executed l) <= length l)%nat.
Proof. unfold executed. apply length_filter. Qed.

Lemma executed_skip l o : po_execute o = false -> executed (l ++ [o]) = executed l.
Proof. intros H. unfold executed. rewrite filter_app, filter_cons, decide_False by congruence. apply app_nil_r. Qed.

Lemma executed_none l : Forall (fun o => po_execute o = false) l -> executed l = [].
Proof.
  unfold executed. induction 1 as [|o l Ho _ IH]; [done|]. by rewrite filter_cons, decide_False by congruence.
Qed.

Lemma sorted_snoc (l : list Z) y :
  StronglySorted Z.lt l -> Forall (fun t => t < y) l -> StronglySorted Z.lt (l ++ [y]).
Proof.
  induction l as [|x l IH]; intros Hs Hf; [repeat constructor|].
  inversion Hs; inversion Hf; subst. simpl. constructor; [auto|].
  apply Forall_app. split; [done|]. by repeat constructor.
Qed.

Lemma instants_app l1 l2 : instants (l1 ++ l2) = instants l1 ++ instants l2.
Proof. apply map_app. Qed.

Lemma well_planned_single first_due now limit o :
  po_scheduled_at o = first_due -> first_due <= now -> well_planned first_due now limit [o].
Proof.
  intros <- Hd. unfold well_planned. simpl. pose proof (executed_length [o]) as Hx. simpl in Hx.
  repeat split; try lia; repeat constructor; lia.
Qed.

Lemma moves_on_single now next o : po_scheduled_at o <= now -> now < next -> moves_on now next [o].
Proof. intros Hd Hn. split; [simpl; repeat constructor; lia|done]. Qed.

(** The summary of what exceeds the limit closes a plan. *)
Lemma moves_on_summary now next l cursor reason :
  StronglySorted Z.lt (instants l ++ [cursor]) -> Forall (fun t => t <= now) (instants l ++ [cursor]) -> now < next ->
  moves_on now next (l ++ [skipped cursor now reason]).
Proof.
  intros Hs Hf Hn. split; [|done]. rewrite instants_app. simpl. apply sorted_snoc; [done|].
  eapply Forall_impl; [exact Hf|]. simpl. lia.
Qed.

(** What a committed plan leaves of the row: the recorded next instant, and no claim. *)
Lemma commit_plan_row {SJ : SerdeJson} {RF : RustFmt} {PG : PostgresServer} {TC : TimeCrate} p d d' :
  call (commit_schedule_plan p) d (Ok ()) d' ->
  exists s, schedules d' !! sp_schedule_id p = Some s /\ s_next_run_at s = sp_next_run_at p /\ s_claim_expires_at s = None.
Proof.
  intros (env & n & u & s' & H & <-). unfold commit_schedule_plan, transaction in H.
  destruct (tx_bind statement _ env _) as [[out|e] s2] eqn:E; [|done].
  do 5 apply tx_bind_ok in E as (? & ? & _ & E). apply tx_bind_ok in E as ([ex si] & ? & _ & E).
  do 3 apply tx_bind_ok in E as (? & ? & _ & E). destruct (schedules _ !! _) as [s|]; [|done].
  destruct (bool_decide _); [|done].
  apply tx_bind_ok in E as (? & s3 & E1 & E). injection E as <- <-. injection E1 as _ <-.
  destruct (e_fault _ _); [done|]. injection H as <-. simpl.
  eexists. split; [apply lookup_insert_eq|done].
Qed.

Section PlannerTheorems.
Context {CC : CronCrates} {CL : CronLaws}.

(** The first part of a catch-up: the summary of what is too old, if any, and
    the occurrences from there on. *)
Record caught_up (schedule : Schedule) (e z : string) (now first_due cursor : Instant) (pre l : list PlannedOccurrence) : Prop := {
  caught_head : head (instants (pre ++ l) ++ [cursor]) = Some first_due;
  caught_past : Forall (fun t => t <= now) (instants (pre ++ l));
  caught_summary : (length pre <= 1)%nat /\ Forall (fun o => po_execute o = false) pre;
  caught_length : (length l <= Z.to_nat (sch_max_catchup_runs schedule) - length pre)%nat;
  caught_sorted : parser_advances e z -> StronglySorted Z.lt (instants (pre ++ l) ++ [cursor]);
}.

Lemma catch_up_parts schedule e z now first_due next l :
  first_due <= now -> catch_up schedule e z now first_due = Ok (next, l) ->
  exists cursor pre l', caught_up schedule e z now first_due cursor pre l'
    /\ ((now < cursor /\ next = cursor /\ l = pre ++ l')
        \/ (cursor <= now /\ next_cron_occurrence e z now = Ok next
            /\ l = (pre ++ l') ++ [skipped cursor now "occurrences exceeding max_catchup_runs were summarized"])).
Proof.
  intros Hdue H. unfold catch_up in H. apply result_bind_ok in H as ([cursor pre] & Hpre & H).
  apply result_bind_ok in H as ([cursor' l'] & Hloop & H).
  apply catch_up_loop_spec in Hloop as (l1 & -> & _ & Hcons & Hlen & Hall & _). exists cursor', pre, l1. split.
  - destruct (Z.ltb_spec first_due (now - sch_max_catchup_age_seconds schedule * second)) as [Hold|_].
    + apply result_bind_ok in Hpre as (c & Hc & [= <- <-]). split; try done; [by constructor|by repeat constructor|].
      intros Hp. eapply (consecutive_app e z); [done|exact Hcons|]. apply next_cron_after in Hc; [simpl; lia|done].
    + injection Hpre as <- <-. split; try done.
      * destruct l1; simpl in *; [congruence|]. by destruct Hcons as [-> _].
      * split; [simpl; lia|constructor].
      * intros Hp. by eapply consecutive_sorted.
  - destruct (Z.leb_spec cursor' now) as [Hc|Hc].
    + apply result_bind_ok in H as (n & Hn & [= <- <-]). by right.
    + injection H as <- <-. by left.
Qed.

Lemma executed_parts pre l : Forall (fun o => po_execute o = false) pre -> executed (pre ++ l) = executed l.
Proof.
  intros H. unfold executed at 1. rewrite filter_app. fold (executed pre) (executed l). by rewrite (executed_none pre).
Qed.

Lemma catch_up_well_planned schedule e z now first_due next l :
  first_due <= now -> catch_up schedule e z now first_due = Ok (next, l) ->
  well_planned first_due now (Z.to_nat (sch_max_catchup_runs schedule)) l
  /\ (now < next \/ next_cron_occurrence e z now = Ok next) /\ (parser_advances e z -> moves_on now next l).
Proof.
  intros Hdue H. destruct (catch_up_parts _ _ _ _ _ _ _ Hdue H) as (cursor & pre & l' & [Hh Hf [Hp Hno] Hlen Hs] & Hcase).
  pose proof (executed_length l') as Hx. unfold well_planned.
  destruct Hcase as [(Hc & -> & ->)|(Hc & Hn & ->)].
  - rewrite executed_parts, length_app by done. split; [|split; [by left|intros Ha; split; [by apply Hs|done]]].
    split_and!; try done; try lia. destruct (pre ++ l'); [|done]. simpl in Hh. injection Hh as ->. lia.
  - rewrite executed_skip, executed_parts, !length_app, instants_app by done. simpl.
    assert (Forall (fun t => t <= now) (instants (pre ++ l') ++ [cursor])) as Hf' by (apply Forall_app; by repeat constructor).
    split; [|split; [by right|]].
    + split_and!; try done; try lia.
    + intros Ha. apply moves_on_summary; [by apply Hs|done|by eapply next_cron_after].
Qed.

(** C10: A plan of a due cron Schedule: it starts at the due instant, none of its
    instants lies in the future, it executes at most max(1, max_catchup_runs)
    of them and records at most one more; the Schedule stays enabled and is
    next due at a later instant than now, or at what [next_cron_occurrence]
    answers for now.  Where the cron parser's answers are later than what it is
    asked, the instants increase strictly and the next one is later than now,
    so the Schedule always moves on. *)
Theorem plan_cron_bounded schedule owner now first_due e z p :
  first_due <= now -> plan_cron schedule owner now first_due e z = Ok p ->
  exists next, sp_next_run_at p = Some next /\ sp_disable p = false
    /\ well_planned first_due now (Z.to_nat (sch_max_catchup_runs schedule)) (sp_occurrences p)
    /\ (now < next \/ next_cron_occurrence e z now = Ok next)
    /\ (parser_advances e z -> moves_on now next (sp_occurrences p)).
Proof.
  intros Hdue H. unfold plan_cron in H. apply result_bind_ok in H as ([next l] & H & [= <-]). exists next.
  split; [done|]. split; [done|]. simpl. destruct (sch_catchup_policy schedule).
  1,2: apply result_bind_ok in H as (n & Hn & [= <- <-]); split_and!;
    [apply well_planned_single; [rewrite ?occurrence_at; done|done]|by right
    |intros Ha; apply moves_on_single; [rewrite ?occurrence_at; done|by eapply next_cron_after]].
  by apply (catch_up_well_planned _ e z).
Qed.

(** C25: In the second pass of a repeated local hour, where the cron parser
    answers with an instant that has passed, no plan moves the Schedule on:
    [next_cron_occurrence] hands the parser's answer on, whatever minutes to
    come match, so a plan that skips or coalesces leaves the Schedule due at an
    instant that is not later than now, and committing it leaves it claimable
    again at once. *)
Theorem repeated_hour_stays_due {SJ : SerdeJson} {RF : RustFmt} {PG : PostgresServer} {TC : TimeCrate} schedule owner now first_due e z fields zone library_next :
  parsed_fields e = Ok fields -> parse_tz z = Some zone -> parse_cron e zone now = Some library_next ->
  library_next <= now -> chrono_range now = true -> chrono_range (first_candidate now) = true ->
  in_i64 library_next = true -> time_range library_next = true -> sch_catchup_policy schedule <> CatchUp ->
  next_cron_occurrence e z now = Ok library_next
  /\ exists p, plan_cron schedule owner now first_due e z = Ok p /\ sp_next_run_at p = Some library_next
     /\ forall d d', call (commit_schedule_plan p) d (Ok ()) d' ->
          exists s, schedules d' !! sch_id schedule = Some s
            /\ (s_enabled s = true -> forall later, now <= later -> schedule_due later s = true).
Proof.
  intros Hf Hz Hl Hle Hr Hc Hi Ht Hpol.
  assert (next_cron_occurrence e z now = Ok library_next) as Hn.
  { unfold next_cron_occurrence. rewrite Hf, Hz. unfold in_chrono. rewrite Hr. cbn [ok_or result_bind]. rewrite Hl. cbn [ok_or result_bind].
    unfold first_utc_match, in_chrono. rewrite Hc. cbn [ok_or result_bind].
    destruct (first_candidate_after now (chrono_bounded _ Hr)) as [_ Hcand].
    unfold scan_fuel. simpl. rewrite (proj2 (Z.leb_gt _ _)); [simpl; by rewrite Hi, Ht|].
    assert (search_end now library_next <= library_next) by (by apply (proj1 (search_end_window _ _ _) (Z.le_refl _))). lia. }
  split; [done|]. unfold plan_cron. rewrite Hn.
  destruct (sch_catchup_policy schedule); [..|done]; cbn [result_bind]; (eexists; split_and!; [done|done|]);
    intros d d' Hcall; destruct (commit_plan_row _ _ _ Hcall) as (s & Hs & Hnext & H1); exists s; (split; [done|]);
    intros He later Hlater; unfold schedule_due; rewrite He, Hnext, H1; simpl; lia.
Qed.

(** Catching up loses no occurrence: when none is older than
    max_catchup_age_seconds, the plan holds every cron occurrence from the due one on,
    each the successor of the previous, until the next one in the future, or,
    at max_catchup_runs of them, one summary of the rest. *)
Theorem catch_up_complete schedule owner now first_due e z p :
  sch_catchup_policy schedule = CatchUp -> now - sch_max_catchup_age_seconds schedule * second <= first_due ->
  plan_cron schedule owner now first_due e z = Ok p ->
  exists ts cursor, consecutive e z first_due ts cursor /\ Forall (fun t => t <= now) ts
    /\ ((now < cursor /\ sp_next_run_at p = Some cursor
         /\ sp_occurrences p = map (fun t => occurrence schedule t now None) ts)
        \/ (cursor <= now /\ Z.of_nat (length ts) = Z.max 0 (sch_max_catchup_runs schedule)
            /\ sp_occurrences p = map (fun t => occurrence schedule t now None) ts
                 ++ [skipped cursor now "occurrences exceeding max_catchup_runs were summarized"])).
Proof.
  intros Hpol Hage H. unfold plan_cron in H. rewrite Hpol in H.
  apply result_bind_ok in H as ([next l] & H & [= <-]). unfold catch_up in H.
  destruct (Z.ltb_spec first_due (now - sch_max_catchup_age_seconds schedule * second)) as [|_]; [lia|].
  cbn [result_bind] in H. rewrite Nat.sub_0_r in H.
  apply result_bind_ok in H as ([cursor' l'] & Hloop & H).
  apply catch_up_loop_spec in Hloop as (l1 & -> & Hl1 & Hcons & Hlen & Hall & Hfull). simpl in H.
  exists (instants l1), cursor'. split; [done|]. split; [done|]. rewrite <- Hl1.
  destruct (Z.leb_spec cursor' now) as [Hc|Hc].
  - apply result_bind_ok in H as (n & Hn & [= <- <-]). right. split; [done|]. split; [|done].
    unfold instants. rewrite length_map, Hfull by done. lia.
  - injection H as <- <-. left. done.
Qed.

End PlannerTheorems.

(** ** Misfires *)

Lemma lateness_window t now : t <= now -> (now - t) / second <= u64_max -> lateness_seconds t now = (now - t) / second.
Proof.
  intros H Hb. unfold lateness_seconds. rewrite Z.quot_div_nonneg by (unfold second; lia).
  pose proof (Z.div_pos (now - t) second ltac:(lia) ltac:(unfold second; lia)).
  rewrite Z.max_l by done. unfold in_u64. rewrite (proj2 (in_range_spec _ _ _)); [done|lia].
Qed.

Lemma lateness_within t now s :
  t <= now -> (now - t) / second <= u64_max ->
  (lateness_seconds t now <=? s) = true <-> now < t + (s + 1) * second.
Proof.
  intros Ht Hb. rewrite lateness_window by done. rewrite Z.leb_le.
  pose proof (Z.div_mod (now - t) second ltac:(unfold second; lia)).
  pose proof (Z.mod_pos_bound (now - t) second ltac:(unfold second; lia)). unfold second in *. lia.
Qed.

(** Misfire decisions: an occurrence that is not early executes exactly when its
    policy sets no bound or it is less than one second beyond the tolerated
    number of seconds; its dispatch deadline is the tolerated instant itself. *)
Theorem misfire_decision policy grace t now :
  t <= now -> (now - t) / second <= u64_max -> (policy = GracePeriod -> is_Some grace) ->
  (exists l, decide_misfire policy grace t now = Execute l
     /\ match tolerance policy grace with
        | None => dispatch_deadline policy grace t = None
        | Some s => now < t + (s + 1) * second /\ dispatch_deadline policy grace t = Some (t + s * second)
        end)
  \/ (exists l s, decide_misfire policy grace t now = Skip l /\ tolerance policy grace = Some s
        /\ t + (s + 1) * second <= now).
Proof.
  intros Ht Hb Hg. unfold decide_misfire.
  assert (forall s, tolerance policy grace = Some s ->
    (exists l, (if lateness_seconds t now <=? s then Execute (lateness_seconds t now)
                else Skip (lateness_seconds t now)) = Execute l /\ now < t + (s + 1) * second)
    \/ (exists l, (if lateness_seconds t now <=? s then Execute (lateness_seconds t now)
                else Skip (lateness_seconds t now)) = Skip l /\ t + (s + 1) * second <= now)) as Hcase.
  { intros s _. pose proof (lateness_within t now s Ht Hb) as Hw. destruct (_ <=? s).
    - left. eexists. split; [done|]. by apply Hw.
    - right. eexists. split; [done|]. destruct (Z.le_gt_cases (t + (s + 1) * second) now) as [|Hgt]; [done|].
      discriminate (proj2 Hw Hgt). }
  destruct policy; simpl in *; [eauto|..].
  - destruct (Hcase 30 eq_refl) as [(l & -> & H)|(l & -> & H)]; [left|right]; eauto.
  - destruct grace as [s|]; [|by destruct (Hg eq_refl)].
    destruct (Hcase s eq_refl) as [(l & -> & H)|(l & -> & H)]; [left|right]; eauto.
Qed.

(** C26: Within the truncated second an occurrence is planned for execution with a
    deadline that has already passed: no later claim of the outbox takes it. *)
Theorem late_window_never_dispatched schedule t now reason o later s :
  tolerance (sch_misfire_policy schedule) (sch_misfire_grace_seconds schedule) = Some s -> 0 <= s <= u32_max ->
  t + s * second < now < t + (s + 1) * second ->
  o_dispatch_deadline o = po_dispatch_deadline (occurrence schedule t now reason) -> now <= later ->
  po_execute (occurrence schedule t now reason) = true /\ outbox_claimable later o = false.
Proof.
  intros Htol Hs Hnow Ho Hlater.
  assert (t <= now /\ (now - t) / second <= u64_max) as [Ht Hb].
  { unfold u32_max, u64_max, second in *. split; [lia|]. apply Z.div_le_upper_bound; lia. }
  pose proof (proj2 (lateness_within t now s Ht Hb) ltac:(lia)) as Hle.
  assert (occurrence schedule t now reason = mkPlannedOccurrence t true (lateness_seconds t now) reason
            (Some (t + s * second))) as Hocc.
  { unfold occurrence, decide_misfire, dispatch_deadline. unfold tolerance in Htol.
    destruct (sch_misfire_policy schedule); simplify_eq; rewrite ?Htol, Hle; done. }
  rewrite Hocc in *. split; [done|]. unfold outbox_claimable. rewrite Ho. simpl.
  rewrite (proj2 (Z.leb_gt later _)) by lia. by rewrite andb_false_r.
Qed.

(** ** Plans that execute nothing *)

Section NoExecution.
Context {SJ : SerdeJson} {RF : RustFmt} {PG : PostgresServer} {TC : TimeCrate}.

Lemma keeps_skipped_occurrence {X} (f : DB -> X) id oc x si inputs :
  (forall g d, f (set_runs g d) = f d) -> (forall g d, f (set_run_events g d) = f d) ->
  (forall g d, f (set_schedule_events g d) = f d) -> po_execute oc = false ->
  keeps f (insert_scheduled_occurrence id oc x si inputs).
Proof.
  intros H1 H2 H3 Hex. unfold insert_scheduled_occurrence. apply keeps_bind; [by apply keeps_step|]. intros rid.
  unfold occurrence_outcome. rewrite Hex.
  destruct (scheduled_snapshot _ _ _ _ _); (apply keeps_bind;
    [unfold insert_run, bind_texts; keeps_tac; apply keeps_modify; intros d; apply H1|]); intros [i|];
    [|by apply keeps_step| |by apply keeps_step]; (rewrite bool_decide_false by done);
    (apply keeps_bind; [by apply keeps_step|]); intros [];
    unfold insert_run_event, insert_schedule_event; keeps_tac; apply keeps_modify; auto.
Qed.

Lemma commit_skipped_plan {X} (f : DB -> X) p :
  (forall g d, f (set_runs g d) = f d) -> (forall g d, f (set_run_events g d) = f d) ->
  (forall g d, f (set_schedule_events g d) = f d) -> (forall g d, f (set_schedules g d) = f d) ->
  Forall (fun o => po_execute o = false) (sp_occurrences p) -> keeps f (commit_schedule_plan p).
Proof.
  intros H1 H2 H3 H4 Hno. unfold commit_schedule_plan. apply keeps_transaction.
  apply keeps_bind; [apply keeps_statement|intros now]. apply keeps_bind; [by apply keeps_step|intros d].
  apply keeps_bind; [by apply keeps_step|intros sch]. apply keeps_bind; [by apply keeps_step|intros sel].
  apply keeps_bind; [apply keeps_load_selection|intros [ex si]]. apply keeps_bind.
  - apply keeps_for_in. eapply Forall_impl; [exact Hno|]. intros oc Hoc. simpl. apply keeps_for. intros x.
    by apply keeps_skipped_occurrence.
  - intros []. apply keeps_bind; [apply keeps_statement|intros now']. apply keeps_bind; [by apply keeps_step|intros d'].
    destruct (schedules d' !! _); [|by apply keeps_step]. destruct (bool_decide _); [|by apply keeps_step].
    apply keeps_bind; [by apply keeps_modify|intros []; by apply keeps_step].
Qed.

(** C27: A cron Schedule whose catch-up policy is [skip] never executes: every plan
    made for it, also one made at the very instant it is due, holds only skipped
    occurrences, and committing it creates no attempt and no dispatch. *)
Theorem catchup_skip_never_executes `{CronCrates} schedule e z owner now p d res d' :
  sch_timing schedule = Cron e z -> sch_catchup_policy schedule = CatchupSkip ->
  plan schedule owner now = Ok p -> call (commit_schedule_plan p) d res d' ->
  Forall (fun o => po_execute o = false) (sp_occurrences p)
  /\ run_attempts (core d') = run_attempts (core d) /\ outbox (core d') = outbox (core d).
Proof.
  intros Ht Hc Hp (env & n & u & s' & Hcall & <-).
  assert (Forall (fun o => po_execute o = false) (sp_occurrences p)) as Hno.
  { unfold plan in Hp. destruct (sch_next_run_at schedule); [|injection Hp as <-; constructor].
    rewrite Ht in Hp. unfold plan_cron in Hp. rewrite Hc in Hp.
    apply result_bind_ok in Hp as ([next l] & Hl & [= <-]).
    apply result_bind_ok in Hl as (n' & _ & [= <- <-]). by repeat constructor. }
  split; [done|]. split;
    [refine (commit_skipped_plan (fun d => run_attempts (core d)) p _ _ _ _ Hno _ _ _ _ Hcall)
    |refine (commit_skipped_plan (fun d => outbox (core d)) p _ _ _ _ Hno _ _ _ _ Hcall)]; done.
Qed.

End NoExecution.

(** ** Witnesses: an hourly Schedule in UTC *)

Definition hour_ns : Z := 3600 * second.

#[export] Instance hourly : CronCrates := {|
  Tz := unit;
  parse_tz := fun _ => Some ();
  civil := fun _ t => mkCivil (t / minute_ns mod 60) (t / hour_ns mod 24) 1 1 0;
  parse_cron := fun _ _ t => Some ((t / hour_ns + 1) * hour_ns);
  parse_field := fun _ lo hi => Some (if hi =? 59 then {[0]} else list_to_set (seqZ lo (hi - lo + 1)));
  chrono_range := fun t => Z.abs t <=? chrono_bound;
  time_range := fun _ => true;
|}.

#[export] Instance hourly_laws : CronLaws.
Proof. split. intros t H. by apply Z.leb_le in H. Qed.

Lemma hourly_advances e z : parser_advances e z.
Proof.
  intros zone t t' _ [= <-]. pose proof (Z.div_mod t hour_ns ltac:(unfold hour_ns, second; lia)).
  pose proof (Z.mod_pos_bound t hour_ns ltac:(unfold hour_ns, second; lia)). unfold hour_ns, second in *. lia.
Qed.

(** A zone whose clock goes back from 02:00 to 01:00 at 06:00 UTC, with a
    Schedule every half hour; of a local minute that occurs twice the parser
    takes the earlier instant. *)
Definition earlier_instant (local : Z) : Instant :=
  if local + 4 * hour_ns <? 6 * hour_ns then local + 4 * hour_ns else local + 5 * hour_ns.

Definition local_time (t : Instant) : Z := if t <? 6 * hour_ns then t - 4 * hour_ns else t - 5 * hour_ns.

Definition fall_back : CronCrates := {|
  Tz := unit;
  parse_tz := fun _ => Some ();
  civil := fun _ t => mkCivil (local_time t / minute_ns mod 60) (local_time t / hour_ns mod 24) 1 1 0;
  parse_cron := fun _ _ t => Some (earlier_instant ((local_time t / (30 * minute_ns) + 1) * (30 * minute_ns)));
  parse_field := fun _ lo hi => Some (if hi =? 59 then {[0; 30]} else list_to_set (seqZ lo (hi - lo + 1)));
  chrono_range := fun t => Z.abs t <=? chrono_bound;
  time_range := fun _ => true;
|}.

Lemma fall_back_laws : @CronLaws fall_back.
Proof. split. intros t H. by apply Z.leb_le in H. Qed.

Definition hourly_schedule (misfire : MisfirePolicy) (catchup : CatchupPolicy) : Schedule :=
  {| sch_id := 6; sch_namespace_id := 1; sch_name := MkResourceName "nightly"; sch_job_id := 3;
     sch_target := SelTarget 4; sch_inputs := VObject []; sch_timing := Cron "0 * * * *" "UTC"; sch_enabled := true;
     sch_next_run_at := Some (10 * hour_ns); sch_last_run_at := None; sch_misfire_policy := misfire;
     sch_misfire_grace_seconds := None; sch_catchup_policy := catchup; sch_max_catchup_runs := 3;
     sch_max_catchup_age_seconds := 86400; sch_revision := 1; sch_created_at := 0; sch_updated_at := 0 |}.

(** From 01:30 before the clock goes back the parser goes to 02:00, and the
    scan finds the second 01:00. *)
Lemma next_cron_occurrence_spec_witness :
  @parse_cron fall_back "*/30 * * * *" () (11 * (30 * minute_ns)) = Some (7 * hour_ns)
  /\ exists fields, @matches fields (@civil fall_back () (6 * hour_ns)) = true.
Proof.
  split; [vm_compute; reflexivity|].
  assert (@next_cron_occurrence fall_back "*/30 * * * *" "zone" (11 * (30 * minute_ns)) = Ok (6 * hour_ns)) as H
    by (vm_compute; reflexivity).
  destruct (@next_cron_occurrence_spec fall_back fall_back_laws _ _ _ _ H) as (fields & [] & lib & _ & _ & Hl & [(_ & _ & Hm & _)|[Hn _]] & _).
  - exists fields. exact Hm.
  - exfalso. vm_compute in Hl. rewrite <- Hn in Hl. discriminate Hl.
Defined.

(** Six hours late with three runs allowed: three Runs and one summary. *)
Lemma plan_cron_bounded_witness :
  exists p, plan_cron (hourly_schedule RunLate CatchUp) 9 (16 * hour_ns + 1) (10 * hour_ns) "0 * * * *" "UTC" = Ok p
    /\ instants (sp_occurrences p) = [10 * hour_ns; 11 * hour_ns; 12 * hour_ns; 13 * hour_ns]
    /\ sp_next_run_at p = Some (17 * hour_ns)
    /\ well_planned (10 * hour_ns) (16 * hour_ns + 1) 3 (sp_occurrences p)
    /\ moves_on (16 * hour_ns + 1) (17 * hour_ns) (sp_occurrences p).
Proof.
  destruct (plan_cron (hourly_schedule RunLate CatchUp) 9 (16 * hour_ns + 1) (10 * hour_ns) "0 * * * *" "UTC")
    as [p|] eqn:Hp; [|by vm_compute in Hp].
  exists p. assert (instants (sp_occurrences p) = [10 * hour_ns; 11 * hour_ns; 12 * hour_ns; 13 * hour_ns]
    /\ sp_next_run_at p = Some (17 * hour_ns)) as [H1 H2] by (vm_compute in Hp; injection Hp as <-; split; reflexivity).
  destruct (plan_cron_bounded (hourly_schedule RunLate CatchUp) 9 (16 * hour_ns + 1) (10 * hour_ns) "0 * * * *" "UTC" p
    ltac:(vm_compute; discriminate) Hp) as (next & H3 & _ & Hw & _ & Hm).
  rewrite H2 in H3. injection H3 as <-. repeat split; try assumption; try apply Hw; apply Hm, hourly_advances.
Defined.

(** At the second 01:00 the parser answers the first 01:30, half an hour ago:
    the committed plan leaves the Schedule due at once. *)
Lemma repeated_hour_stays_due_witness :
  exists p d' s, @plan_cron fall_back (hourly_schedule RunLate RunOnce) 9 (6 * hour_ns) (6 * hour_ns) "*/30 * * * *" "zone" = Ok p
    /\ sp_next_run_at p = Some (11 * (30 * minute_ns))
    /\ call (commit_schedule_plan p) d_schedule_claimed (Ok ()) d'
    /\ schedules d' !! 6%N = Some s /\ schedule_due (6 * hour_ns) s = true.
Proof.
  destruct (@parsed_fields fall_back "*/30 * * * *") as [fields|] eqn:Hf; [|by vm_compute in Hf].
  destruct (@repeated_hour_stays_due fall_back fall_back_laws _ _ _ _ (hourly_schedule RunLate RunOnce) 9 (6 * hour_ns) (6 * hour_ns)
    "*/30 * * * *" "zone" fields () (11 * (30 * minute_ns)) Hf eq_refl eq_refl) as (_ & p & Hp & Hn & Hc);
    [vm_compute; discriminate|reflexivity|reflexivity|reflexivity|reflexivity|discriminate|].
  assert (answer (commit_schedule_plan p) (quiet 1001 100) d_schedule_claimed = Ok ()) as Ha
    by (vm_compute in Hp; injection Hp as <-; vm_compute; reflexivity).
  pose proof (call_ok (commit_schedule_plan p) (quiet 1001 100) d_schedule_claimed () Ha) as Hcall.
  destruct (Hc _ _ Hcall) as (s & Hs & Hdue). exists p, (after (commit_schedule_plan p) (quiet 1001 100) d_schedule_claimed), s.
  repeat split; try assumption. apply Hdue; [|reflexivity].
  vm_compute in Hp. injection Hp as <-. vm_compute in Hs. injection Hs as <-. reflexivity.
Defined.

Lemma catch_up_complete_witness :
  exists p ts cursor, plan_cron (hourly_schedule RunLate CatchUp) 9 (12 * hour_ns + 1) (10 * hour_ns) "0 * * * *" "UTC" = Ok p
    /\ consecutive "0 * * * *" "UTC" (10 * hour_ns) ts cursor.
Proof.
  destruct (plan_cron (hourly_schedule RunLate CatchUp) 9 (12 * hour_ns + 1) (10 * hour_ns) "0 * * * *" "UTC")
    as [p|] eqn:Hp; [|by vm_compute in Hp].
  destruct (catch_up_complete (hourly_schedule RunLate CatchUp) 9 (12 * hour_ns + 1) (10 * hour_ns) "0 * * * *" "UTC" p
    eq_refl ltac:(vm_compute; discriminate) Hp) as (ts & cursor & Hc & _).
  exists p, ts, cursor. split; [reflexivity|exact Hc].
Defined.

Lemma misfire_decision_witness :
  (exists l, decide_misfire MisfireSkip None 0 (31 * second) = Execute l) \/ 31 * second <= 31 * second.
Proof.
  destruct (misfire_decision MisfireSkip None 0 (31 * second)) as [(l & H & _)|(l & s & _ & [= <-] & H)];
    [vm_compute; discriminate|vm_compute; discriminate|discriminate|left; eauto|right; exact H].
Defined.

(** Half a second beyond the 30 seconds: planned, and never dispatched. *)
Lemma late_window_never_dispatched_witness :
  po_execute (occurrence (hourly_schedule MisfireSkip RunOnce) 0 (30 * second + 500000000) None) = true
  /\ outbox_claimable (30 * second + 600000000) (new_outbox 102 100 101 2 (Some (30 * second)) (30 * second)) = false.
Proof.
  apply (late_window_never_dispatched (hourly_schedule MisfireSkip RunOnce) 0 (30 * second + 500000000) None
    (new_outbox 102 100 101 2 (Some (30 * second)) (30 * second)) (30 * second + 600000000) 30);
    [reflexivity|unfold u32_max; lia|unfold second; lia|vm_compute; reflexivity|lia].
Defined.

(** On time, and skipped. *)
Lemma catchup_skip_never_executes_witness :
  exists p d', plan (hourly_schedule RunLate CatchupSkip) 9 (10 * hour_ns) = Ok p
    /\ call (commit_schedule_plan p) d_schedule_claimed (Ok ()) d'
    /\ run_attempts (core d') = run_attempts (core d_schedule_claimed).
Proof.
  destruct (plan (hourly_schedule RunLate CatchupSkip) 9 (10 * hour_ns)) as [p|] eqn:Hp; [|by vm_compute in Hp].
  assert (answer (commit_schedule_plan p) (quiet 1001 100) d_schedule_claimed = Ok ()) as Ha
    by (vm_compute in Hp; injection Hp as <-; vm_compute; reflexivity).
  pose proof (call_ok (commit_schedule_plan p) (quiet 1001 100) d_schedule_claimed () Ha) as Hc.
  destruct (catchup_skip_never_executes (hourly_schedule RunLate CatchupSkip) "0 * * * *" "UTC" 9 (10 * hour_ns) p
    d_schedule_claimed (Ok ()) (after (commit_schedule_plan p) (quiet 1001 100) d_schedule_claimed) eq_refl eq_refl Hp Hc)
    as (_ & H1 & _).
  exists p, (after (commit_schedule_plan p) (quiet 1001 100) d_schedule_claimed). split; [reflexivity|]. split; assumption.
Defined.
