(* ===== verification/Orchestration.v ===== *)
(** * The orchestrator's invariant

    Between calls every pending node of an invocation that is not cancelled waits
    for a predecessor that is not terminal: no completion is lost, and an
    invocation with open nodes always has a running one. *)

From S2P Require Import Prelude RustStr Json Inputs Names Float Domain Auth Workflow Db Snapshot TxLogic Store WorkflowStore Lifecycle Refinement WorkflowRefinement StoreSystem Scenario StoreBehaviour PlannerTheorems.
From Stdlib Require Import String.
From stdpp Require Import base numbers strings sorting gmap list relations.

Local Open Scope Z_scope.

(** The tables the orchestrator's decisions depend on. *)
Record Orch : Type := mkOrch {
  o_runs : gmap Uuid InvocationRow;
  o_nodes : gmap Uuid NodeRunRow;
  o_edges : gmap (Uuid * Uuid * Uuid) DependencyCondition;
}.

Definition orch (d : DB) : Orch := mkOrch (workflow_runs d) (workflow_node_runs d) (workflow_run_edges d).

Definition with_node (o : Orch) (id : Uuid) (n : NodeRunRow) : Orch :=
  mkOrch (o_runs o) (<[id := n]> (o_nodes o)) (o_edges o).
Definition with_invocation (o : Orch) (id : Uuid) (w : InvocationRow) : Orch :=
  mkOrch (<[id := w]> (o_runs o)) (o_nodes o) (o_edges o).

(** [b] depends on [a] in some invocation. *)
Definition depends (o : Orch) (a b : Uuid) : Prop := exists w, is_Some (o_edges o !! (w, a, b)).

(** A predecessor of [id] with its condition and state. *)
Definition predecessor (o : Orch) (id : Uuid) (e : DependencyCondition * WorkflowNodeState) : Prop :=
  exists w a n, o_edges o !! (w, a, id) = Some e.1 /\ o_nodes o !! a = Some n /\ nr_state n = e.2.

(** No predecessor rules the node out and one is still open. *)
Definition waits (o : Orch) (id : Uuid) : Prop :=
  (forall e, predecessor o id e -> ~ mismatch e) /\ exists e, predecessor o id e /\ node_terminal e.2 = false.

(** A pending node of an invocation that is not cancelled. *)
Definition undecided (o : Orch) (id : Uuid) : Prop :=
  exists n w, o_nodes o !! id = Some n /\ nr_state n = NPending
    /\ o_runs o !! nr_workflow_run_id n = Some w /\ wr_cancellation_requested w = false.

(** Everything outside the queue is settled. *)
Record orchestrated_but (queue : list Uuid) (o : Orch) : Prop := {
  or_settled : forall id, undecided o id -> id ∈ queue \/ waits o id;
  or_closed : forall id n w, o_nodes o !! id = Some n -> o_runs o !! nr_workflow_run_id n = Some w ->
    wr_state w <> WRunning -> node_terminal (nr_state n) = true;
  or_local : forall w a b, is_Some (o_edges o !! (w, a, b)) ->
    exists na nb, o_nodes o !! a = Some na /\ o_nodes o !! b = Some nb
      /\ nr_workflow_run_id na = w /\ nr_workflow_run_id nb = w;
  or_states : forall id n, o_nodes o !! id = Some n -> nr_state n <> NReady;
  or_cancelled : forall id n w, o_nodes o !! id = Some n -> o_runs o !! nr_workflow_run_id n = Some w ->
    wr_cancellation_requested w = true -> nr_state n <> NPending;
  or_owned : forall id n, o_nodes o !! id = Some n -> is_Some (o_runs o !! nr_workflow_run_id n);
}.

Definition orchestrated (o : Orch) : Prop := orchestrated_but [] o.

(** ** Lemmas: reading the graph *)

Lemma elem_of_edges_into d id e : e ∈ edges_into d id <-> predecessor (orch d) id e.
Proof.
  unfold edges_into, predecessor. simpl. rewrite list_elem_of_fmap. split.
  - intros ([a [c s]] & -> & Hin). rewrite elem_of_sort_by in Hin. apply list_elem_of_omap in Hin as ([[[w a'] b] c'] & Hin & H).
    simpl in H. destruct (N.eqb_spec b id) as [->|]; [|done].
    destruct (workflow_node_runs d !! a') as [n|] eqn:Hn; [|done]. injection H as -> -> <-.
    apply elem_of_map_to_list in Hin. exists w, a, n. done.
  - intros (w & a & n & He & Hn & Hs). exists (a, e). split; [done|]. rewrite elem_of_sort_by. apply list_elem_of_omap.
    exists ((w, a, id), e.1). split; [by apply elem_of_map_to_list|]. simpl. rewrite N.eqb_refl, Hn. simpl. rewrite Hs.
    by destruct e.
Qed.

Lemma elem_of_edges_from d a b : b ∈ edges_from d a <-> depends (orch d) a b.
Proof.
  unfold edges_from, depends. simpl. rewrite elem_of_sort_by, list_elem_of_omap. split.
  - intros ([[[w a'] b'] c] & Hin%elem_of_map_to_list & H). simpl in H.
    destruct (N.eqb_spec a' a) as [->|]; [|done]. injection H as ->. eauto.
  - intros (w & c & He). exists ((w, a, b), c). split; [by apply elem_of_map_to_list|]. simpl. by rewrite N.eqb_refl.
Qed.

Lemma decode_dependencies l : collect decode_dependency l = Ok l.
Proof.
  induction l as [|[c s] l IH]; [done|]. simpl. rewrite IH. by destruct c, s.
Qed.

Lemma decision_waits d id : dependency_decision (edges_into d id) = Waiting <-> waits (orch d) id.
Proof.
  unfold waits. setoid_rewrite <- elem_of_edges_into. unfold dependency_decision.
  pose proof (decide_from_spec false (edges_into d id)) as H. destruct (decide_from false (edges_into d id)).
  - destruct H as [H1 [?|H2]]; [done|]. split; [done|]. done.
  - destruct H as [_ H]. split; [done|]. intros [_ (e & He & Ht)]. destruct (H _ He). congruence.
  - destruct H as (e & He & Hm). split; [done|]. intros [Hno _]. by destruct (Hno _ He).
Qed.

(** ** Lemmas: changing one node *)

Lemma predecessor_other o x n id e :
  ~ depends o x id -> predecessor (with_node o x n) id e <-> predecessor o id e.
Proof.
  intros Hd. unfold predecessor. simpl. split; intros (w & a & n0 & He & Hn & Hs); exists w, a, n0;
    (assert (a <> x) as Hne by (intros ->; apply Hd; exists w; eauto)).
  - by rewrite lookup_insert_ne in Hn by done.
  - by rewrite lookup_insert_ne by done.
Qed.

Lemma waits_other o x n id : ~ depends o x id -> waits o id -> waits (with_node o x n) id.
Proof.
  intros Hd [H1 (e & He & Ht)]. split.
  - intros e' He'. apply H1. by eapply predecessor_other.
  - exists e. split; [by apply predecessor_other|done].
Qed.

(** Replacing an open state by another open state changes no decision. *)
Lemma waits_open o x n n' id :
  o_nodes o !! x = Some n -> node_terminal (nr_state n) = false -> node_terminal (nr_state n') = false ->
  waits o id -> waits (with_node o x n') id.
Proof.
  intros Hx Ho Ho' [H1 ([c s] & (w & a & na & He & Hn & Hs) & Ht)]. split.
  - intros [c' s'] (w' & a' & n2 & He' & Hn' & Hs') [Hm1 Hm2]. simpl in *. destruct (decide (a' = x)) as [->|Hne].
    + rewrite lookup_insert_eq in Hn'. injection Hn' as <-. congruence.
    + rewrite lookup_insert_ne in Hn' by done. apply (H1 (c', s')); [|done]. by exists w', a', n2.
  - simpl in *. destruct (decide (a = x)) as [->|Hne].
    + exists (c, nr_state n'). split; [|done]. exists w, x, n'. simpl. by rewrite lookup_insert_eq.
    + exists (c, s). split; [|done]. exists w, a, na. simpl. by rewrite lookup_insert_ne.
Qed.

Lemma undecided_with_node o x n n' id :
  o_nodes o !! x = Some n -> nr_state n' <> NPending -> undecided (with_node o x n') id -> undecided o id /\ id <> x.
Proof.
  intros Hx Hn' (m & w & Hm & Hp & Hw & Hc). simpl in *. destruct (decide (id = x)) as [->|Hne].
  - rewrite lookup_insert_eq in Hm. injection Hm as <-. done.
  - rewrite lookup_insert_ne in Hm by done. split; [|done]. by exists m, w.
Qed.

(** The parts of the invariant beside the settled one. *)
Lemma orchestrated_node q q' o x n n' :
  orchestrated_but q o -> o_nodes o !! x = Some n -> nr_workflow_run_id n' = nr_workflow_run_id n ->
  nr_state n' <> NPending -> nr_state n' <> NReady ->
  (node_terminal (nr_state n') = false ->
     exists w, o_runs o !! nr_workflow_run_id n = Some w /\ wr_state w = WRunning) ->
  (forall id, undecided (with_node o x n') id -> id ∈ q' \/ waits (with_node o x n') id) ->
  orchestrated_but q' (with_node o x n').
Proof.
  intros [_ Hcl Hloc Hst Hca Hown] Hx Hid Hp Hr Hopen Hs. split; simpl; [done|..].
  - intros id m w Hm Hw Hne. destruct (decide (id = x)) as [->|].
    + rewrite lookup_insert_eq in Hm. injection Hm as <-. rewrite Hid in Hw.
      destruct (node_terminal (nr_state n')) eqn:Ht; [done|]. destruct (Hopen eq_refl) as (w' & Hw' & ?). congruence.
    + rewrite lookup_insert_ne in Hm by done. by eapply Hcl.
  - intros w a b He. destruct (Hloc w a b He) as (na & nb & Ha & Hb & Hwa & Hwb).
    exists (if decide (a = x) then n' else na), (if decide (b = x) then n' else nb).
    repeat split.
    + destruct (decide (a = x)) as [->|]; [by rewrite lookup_insert_eq|by rewrite lookup_insert_ne].
    + destruct (decide (b = x)) as [->|]; [by rewrite lookup_insert_eq|by rewrite lookup_insert_ne].
    + destruct (decide (a = x)) as [->|]; [|done]. congruence.
    + destruct (decide (b = x)) as [->|]; [|done]. congruence.
  - intros id m Hm. destruct (decide (id = x)) as [->|].
    + rewrite lookup_insert_eq in Hm. by injection Hm as <-.
    + rewrite lookup_insert_ne in Hm by done. by eapply Hst.
  - intros id m w Hm Hw Hc. destruct (decide (id = x)) as [->|].
    + rewrite lookup_insert_eq in Hm. by injection Hm as <-.
    + rewrite lookup_insert_ne in Hm by done. by eapply Hca.
  - intros id m Hm. destruct (decide (id = x)) as [->|].
    + rewrite lookup_insert_eq in Hm. injection Hm as <-. rewrite Hid. by eapply Hown.
    + rewrite lookup_insert_ne in Hm by done. by eapply Hown.
Qed.

(** A node ends: its successors join the queue. *)
Lemma node_ends q o x n n' succ :
  orchestrated_but q o -> o_nodes o !! x = Some n -> nr_workflow_run_id n' = nr_workflow_run_id n ->
  node_terminal (nr_state n') = true -> (forall b, depends o x b -> b ∈ succ) ->
  orchestrated_but (filter (fun id => id <> x) q ++ succ) (with_node o x n').
Proof.
  intros Ho Hx Hid Ht Hsucc. pose proof Ho as [Hs _ _ _ _ _]. eapply orchestrated_node; try done.
  - by destruct (nr_state n').
  - by destruct (nr_state n').
  - congruence.
  - intros id Hu. apply (undecided_with_node _ _ n) in Hu as [Hu Hne]; [|done|by destruct (nr_state n')].
    destruct (Hs id Hu) as [Hq|Hw]; [left; apply elem_of_app; left; by apply list_elem_of_filter|].
    destruct (decide (id ∈ succ)); [left; apply elem_of_app; by right|]. right. apply waits_other; [|done]. auto.
Qed.

(** A node starts. *)
Lemma node_starts q o x n n' w :
  orchestrated_but (x :: q) o -> o_nodes o !! x = Some n -> nr_workflow_run_id n' = nr_workflow_run_id n ->
  node_terminal (nr_state n) = false -> nr_state n' = NRunning ->
  o_runs o !! nr_workflow_run_id n = Some w -> wr_state w = WRunning ->
  orchestrated_but q (with_node o x n').
Proof.
  intros Ho Hx Hid Ht Hst Hw Hws. pose proof Ho as [Hs _ _ _ _ _]. eapply orchestrated_node; try done; try congruence; [eauto|].
  intros id Hu. apply (undecided_with_node _ _ n) in Hu as [Hu Hne]; [|done|congruence].
  destruct (Hs id Hu) as [[->|Hq]%elem_of_cons|Hwt]; [done|by left|]. right.
  eapply waits_open; [done|done|by rewrite Hst|done].
Qed.

(** A queued node that needs no change leaves the queue. *)
Lemma queue_drop q o x :
  orchestrated_but (x :: q) o -> (undecided o x -> waits o x) -> orchestrated_but q o.
Proof.
  intros [Hs Hcl Hloc Hst Hca Hown] Hx. split; try done. intros id Hu.
  destruct (Hs id Hu) as [[->|Hq]%elem_of_cons|Hw]; [right; auto|by left|by right].
Qed.

Lemma queue_weaken q q' o : (forall x, x ∈ q -> x ∈ q') -> orchestrated_but q o -> orchestrated_but q' o.
Proof. intros Hq [Hs Hcl Hloc Hst Hca Hown]. split; try done. intros id Hu. destruct (Hs id Hu); auto. Qed.

(** ** Lemmas: the tables after an update *)

Lemma orch_set_workflow_runs g d :
  orch (set_workflow_runs g d) = mkOrch (g (o_runs (orch d))) (o_nodes (orch d)) (o_edges (orch d)).
Proof. done. Qed.

Lemma orch_set_node_runs g d :
  orch (set_node_runs g d) = mkOrch (o_runs (orch d)) (g (o_nodes (orch d))) (o_edges (orch d)).
Proof. done. Qed.

Lemma orch_set_run_edges g d :
  orch (set_run_edges g d) = mkOrch (o_runs (orch d)) (o_nodes (orch d)) (g (o_edges (orch d))).
Proof. done. Qed.

(** ** Lemmas: the operations *)

Definition orch_of (s : Tx) : Orch := orch (tx_db s).

Lemma update_node_spec id cond f env s res s' :
  update_node id cond f env s = (res, s') ->
  match res with
  | Err _ => orch_of s' = orch_of s
  | Ok None => orch_of s' = orch_of s
      /\ forall n, o_nodes (orch_of s) !! id = Some n -> exists d, orch d = orch_of s /\ cond d n = false
  | Ok (Some n) => o_nodes (orch_of s) !! id = Some n
      /\ exists now d, orch d = orch_of s /\ cond d n = true /\ orch_of s' = with_node (orch_of s) id (f now n)
  end.
Proof.
  unfold update_node, tx_bind, orch_of. destruct (statement env s) as [[now|e] s1] eqn:Hst.
  2:{ intros [= <- <-]. by rewrite (keeps_statement orch _ _ _ _ Hst). }
  apply (keeps_statement (fun d => d)) in Hst. cbn. rewrite Hst.
  destruct (workflow_node_runs (tx_db s) !! id) as [n|] eqn:Hn.
  - destruct (cond (tx_db s) n) eqn:Hc.
    + intros [= <- <-]. split; [done|]. exists now, (tx_db s). split; [done|]. split; [done|].
      cbn. by rewrite Hst.
    + intros [= <- <-]. rewrite Hst. split; [done|]. intros n' Hn'. exists (tx_db s). split; [done|].
      cbn in Hn'. congruence.
  - intros [= <- <-]. rewrite Hst. split; [done|]. intros n' Hn'. cbn in Hn'. congruence.
Qed.

Lemma keeps_start_execution node job e : keeps orch (start_execution node job e).
Proof.
  unfold start_execution. apply keeps_bind; [by apply keeps_create_normal_run|intros []].
  apply keeps_bind; [apply keeps_statement|intros now]. by apply keeps_modify.
Qed.

Lemma activate_spec id env s s' :
  activate id env s = (Ok (), s') ->
  (orch_of s' = orch_of s
   /\ forall n, o_nodes (orch_of s) !! id = Some n -> exists d, orch d = orch_of s /\ may_start d n = false)
  \/ exists n d now, o_nodes (orch_of s) !! id = Some n /\ orch d = orch_of s /\ may_start d n = true
       /\ orch_of s' = with_node (orch_of s) id (start_node now n).
Proof.
  intros H. unfold activate in H. apply tx_bind_ok in H as (r & s1 & H1 & H). apply update_node_spec in H1.
  destruct r as [n|]; [right|left; injection H as <-; done].
  destruct H1 as (Hn & now & d & Hd & Hc & Ho). exists n, d, now. do 3 (split; [done|]).
  apply tx_bind_ok in H as (n2 & s2 & H2%(keeps_statement orch) & H).
  apply tx_bind_ok in H as (d3 & s3 & [= <- <-] & H). apply (keeps_for orch) in H; [|intros; apply keeps_start_execution].
  unfold orch_of in *. congruence.
Qed.

(** Activating a queued node settles it. *)
Lemma activate_orchestrated x q env s s' :
  orchestrated_but (x :: q) (orch_of s) -> activate x env s = (Ok (), s') -> orchestrated_but q (orch_of s').
Proof.
  intros Ho H. apply activate_spec in H as [[-> Hno]|(n & d & now & Hn & Hd & Hms & ->)].
  - eapply queue_drop; [done|]. intros (n & w & Hn & Hp & Hw & Hc). exfalso.
    assert (wr_state w = WRunning) as Hws.
    { destruct (decide (wr_state w = WRunning)) as [|Hne]; [done|]. pose proof (or_closed _ _ Ho _ _ _ Hn Hw Hne) as Ht.
      by rewrite Hp in Ht. }
    destruct (Hno n Hn) as (d & Hd & Hms). unfold may_start in Hms.
    change (workflow_runs d) with (o_runs (orch d)) in Hms. by rewrite Hd, Hw, Hp, Hc, Hws in Hms.
  - unfold may_start in Hms. change (workflow_runs d) with (o_runs (orch d)) in Hms. rewrite Hd in Hms.
    destruct (o_runs (orch_of s) !! nr_workflow_run_id n) as [w|] eqn:Hw; [|done].
    apply andb_true_iff in Hms as [[Hms _]%andb_true_iff Hws%bool_decide_eq_true].
    eapply node_starts; try done. apply orb_true_iff in Hms as [->%bool_decide_eq_true| ->%bool_decide_eq_true]; done.
Qed.

Lemma complete_node_spec id env s b s' :
  complete_node id env s = (Ok b, s') ->
  if b then exists n n', o_nodes (orch_of s) !! id = Some n /\ nr_state n = NRunning
              /\ nr_workflow_run_id n' = nr_workflow_run_id n /\ node_terminal (nr_state n') = true
              /\ orch_of s' = with_node (orch_of s) id n'
  else orch_of s' = orch_of s.
Proof.
  intros H. unfold complete_node in H. apply tx_bind_ok in H as (now & s1 & H1%(keeps_statement orch) & H).
  apply tx_bind_ok in H as (d & s1' & [= <- <-] & H). unfold orch_of in *.
  destruct (node_outcome _) as [st|] eqn:Hout; [|by injection H as <- <-].
  apply tx_bind_ok in H as (r & s2 & H2 & [= <- <-]). apply update_node_spec in H2. unfold orch_of in *. rewrite H1 in H2.
  destruct r as [n|]; simpl; [|by destruct H2].
  destruct H2 as (Hn & now2 & d & _ & Hc%bool_decide_eq_true & Ho). eexists n, _. split; [done|]. split; [done|].
  split; [|split; [|exact Ho]]; [done|]. simpl. unfold node_outcome in Hout.
  destruct (_ || _); [done|]. injection Hout as <-. by repeat case_match.
Qed.

Lemma outgoing_spec id env s l s' :
  outgoing id env s = (Ok l, s') -> orch_of s' = orch_of s /\ forall b, depends (orch_of s) id b -> b ∈ l.
Proof.
  intros H. unfold outgoing in H. apply tx_bind_ok in H as (now & s1 & H1%(keeps_statement orch) & H).
  apply tx_bind_ok in H as (d & s1' & [= <- <-] & [= <- <-]). split; [done|]. intros b Hb.
  apply elem_of_edges_from. by rewrite H1.
Qed.

Lemma complete_nodes_spec l : forall q env s down s',
  orchestrated_but q (orch_of s) -> complete_nodes l env s = (Ok down, s') ->
  orchestrated_but (q ++ down) (orch_of s') /\ o_edges (orch_of s') = o_edges (orch_of s).
Proof.
  induction l as [|x l IH]; intros q env s down s' Ho H; simpl in H.
  { injection H as <- <-. by rewrite app_nil_r. }
  apply tx_bind_ok in H as (b & s1 & H1 & H). apply complete_node_spec in H1.
  apply tx_bind_ok in H as (here & s2 & H2 & H). apply tx_bind_ok in H as (rest & s3 & H3 & [= <- <-]).
  assert (orchestrated_but (q ++ here) (orch_of s2) /\ o_edges (orch_of s2) = o_edges (orch_of s)) as [Ho2 He2].
  { destruct b.
    - destruct H1 as (n & n' & Hn & _ & Hid & Ht & Ho1). apply outgoing_spec in H2 as [-> Hout]. rewrite Ho1 in *.
      split; [|done]. eapply queue_weaken; [|apply (node_ends q _ _ n n' here); [done|exact Hn|done|done|]].
      + intros y. rewrite !elem_of_app, list_elem_of_filter. naive_solver.
      + intros b Hb. apply Hout. exact Hb.
    - injection H2 as <- <-. rewrite H1, app_nil_r. done. }
  apply (IH _ _ _ _ _ Ho2) in H3 as [Ho3 He3]. rewrite <- app_assoc in Ho3. split; [done|congruence].
Qed.

Lemma propagate_one_spec x q env s more s' :
  orchestrated_but (x :: q) (orch_of s) -> propagate_one x env s = (Ok more, s') ->
  orchestrated_but (q ++ more) (orch_of s').
Proof.
  intros Ho H. unfold propagate_one in H. apply tx_bind_ok in H as (now & s1 & H1%(keeps_statement orch) & H).
  apply tx_bind_ok in H as (d & s1' & [= <- <-] & H). apply tx_bind_ok in H as (active & s1' & H2 & H).
  apply tx_lift_ok in H2 as [Hact ->]. fold (orch_of s1) (orch_of s) in H1. rewrite <- H1 in Ho.
  unfold node_active in Hact. change (workflow_node_runs (tx_db s1)) with (o_nodes (orch_of s1)) in Hact.
  change (workflow_runs (tx_db s1)) with (o_runs (orch_of s1)) in Hact.
  destruct (o_nodes (orch_of s1) !! x) as [n|] eqn:Hn; [|discriminate Hact].
  cbn [mbind option_bind] in Hact.
  destruct (o_runs (orch_of s1) !! nr_workflow_run_id n) as [w|] eqn:Hw; [|discriminate Hact]. injection Hact as <-.
  destruct (bool_decide (nr_state n = NPending) && negb (wr_cancellation_requested w)) eqn:Hb; simpl in H.
  2:{ injection H as <- <-. rewrite app_nil_r. eapply queue_drop; [done|]. intros (m & w' & Hm & Hp & Hw' & Hc).
      assert (m = n) as -> by congruence. assert (w' = w) as -> by congruence. rewrite Hc, bool_decide_true in Hb; done. }
  apply andb_true_iff in Hb as [Hp%bool_decide_eq_true Hc%negb_true_iff].
  apply tx_bind_ok in H as (now2 & s2 & H2%(keeps_statement orch) & H). fold (orch_of s2) (orch_of s1) in H2.
  apply tx_bind_ok in H as (d2 & s2' & [= <- <-] & H). apply tx_bind_ok in H as (values & s2' & H3 & H).
  apply tx_lift_ok in H3 as [Hv ->]. rewrite decode_dependencies in Hv. injection Hv as <-. rewrite <- H2 in *.
  destruct (dependency_decision (edges_into (tx_db s2) x)) eqn:Hdec.
  - injection H as <- <-. rewrite app_nil_r. eapply queue_drop; [done|]. intros _. by apply decision_waits.
  - apply tx_bind_ok in H as ([] & s3 & H3 & [= <- <-]). rewrite app_nil_r.
    by eapply activate_orchestrated.
  - apply tx_bind_ok in H as (r & s3 & H3 & H). apply update_node_spec in H3.
    destruct r as [n'|]; [|destruct H3 as [_ Hno]; destruct (Hno n Hn) as (d & _ & Hf); by rewrite bool_decide_true in Hf].
    destruct H3 as (Hn' & now3 & d & _ & _ & Ho3). assert (n' = n) as -> by congruence.
    apply outgoing_spec in H as [-> Hout]. rewrite Ho3 in Hout |- *.
    eapply queue_weaken; [|apply (node_ends (x :: q) _ _ n _ more); [done|exact Hn|done|done|exact Hout]].
    intros y. rewrite !elem_of_app, list_elem_of_filter, elem_of_cons. naive_solver.
Qed.

Lemma propagate_spec fuel : forall l env s b s',
  orchestrated_but l (orch_of s) -> propagate fuel l env s = (Ok b, s') ->
  b = true -> orchestrated (orch_of s').
Proof.
  induction fuel as [|fuel IH]; intros l env s b s' Ho H Hb; simpl in H.
  { injection H as <- <-. by destruct l. }
  destruct l as [|x l]; [by injection H as <- <-|]. apply tx_bind_ok in H as (more & s1 & H1 & H).
  eapply IH; [|exact H|done]. by eapply propagate_one_spec.
Qed.

(** ** Lemmas: propagation ends *)

Definition pending_origin (o : Orch) (kv : (Uuid * Uuid * Uuid) * DependencyCondition) : Prop :=
  exists n, o_nodes o !! kv.1.1.2 = Some n /\ nr_state n = NPending.

#[export] Instance pending_origin_dec o kv : Decision (pending_origin o kv).
Proof.
  unfold pending_origin. destruct (o_nodes o !! kv.1.1.2) as [n|]; [|right; by intros (? & ? & _)].
  destruct (decide (nr_state n = NPending)); [left; eauto|right; naive_solver].
Defined.

(** The edges that may still be queued. *)
Definition potential (o : Orch) : nat := length (filter (pending_origin o) (map_to_list (o_edges o))).

Lemma filter_split {A} (P Q R : A -> Prop) `{!forall x, Decision (P x)} `{!forall x, Decision (Q x)}
    `{!forall x, Decision (R x)} (l : list A) :
  (forall x, P x -> R x) -> (forall x, Q x -> R x) -> (forall x, P x -> Q x -> False) ->
  (length (filter P l) + length (filter Q l) <= length (filter R l))%nat.
Proof.
  intros Hpr Hqr Hpq. induction l as [|x l IH]; [done|]. rewrite !filter_cons.
  destruct (decide (P x)), (decide (Q x)), (decide (R x)); simpl; try lia; naive_solver.
Qed.

Lemma edges_from_length d id :
  length (edges_from d id) = length (filter (fun kv => kv.1.1.2 = id) (map_to_list (workflow_run_edges d))).
Proof.
  unfold edges_from. rewrite (Permutation_length (sort_by_Permutation _ _)).
  induction (map_to_list (workflow_run_edges d)) as [|kv l IH]; [done|]. rewrite filter_cons. simpl.
  destruct (N.eqb_spec kv.1.1.2 id).
  - rewrite decide_True by done. simpl. f_equal. exact IH.
  - rewrite decide_False by done. exact IH.
Qed.

Lemma potential_node o x n n' :
  o_nodes o !! x = Some n -> nr_state n' <> NPending -> (potential (with_node o x n') <= potential o)%nat.
Proof.
  intros Hx Hn'. unfold potential. simpl.
  pose proof (filter_split (pending_origin (with_node o x n')) (fun _ => False) (pending_origin o)
    (map_to_list (o_edges o))) as H. etrans; [|apply H]; [lia|..|done|done].
  intros kv (m & Hm & Hp). simpl in Hm. destruct (decide (kv.1.1.2 = x)) as [Heq|].
  - rewrite Heq, lookup_insert_eq in Hm. by injection Hm as <-.
  - rewrite lookup_insert_ne in Hm by done. by exists m.
Qed.

Lemma potential_skip d x n n' :
  o_nodes (orch d) !! x = Some n -> nr_state n = NPending -> nr_state n' <> NPending ->
  (length (edges_from d x) + potential (with_node (orch d) x n') <= potential (orch d))%nat.
Proof.
  intros Hx Hp Hn'. rewrite edges_from_length. unfold potential. simpl. rewrite Nat.add_comm.
  apply filter_split.
  - intros kv (m & Hm & Hpm). simpl in Hm. destruct (decide (kv.1.1.2 = x)) as [Heq|].
    + rewrite Heq, lookup_insert_eq in Hm. by injection Hm as <-.
    + rewrite lookup_insert_ne in Hm by done. by exists m.
  - intros kv Heq. exists n. by rewrite Heq.
  - intros kv (m & Hm & Hpm) Hkv. simpl in Hm. rewrite Hkv, lookup_insert_eq in Hm. by injection Hm as <-.
Qed.

Lemma node_active_pending s x :
  node_active (tx_db s) x = Ok true -> exists n, o_nodes (orch_of s) !! x = Some n /\ nr_state n = NPending.
Proof.
  unfold node_active. intros H. change (workflow_node_runs (tx_db s)) with (o_nodes (orch_of s)) in H.
  destruct (o_nodes (orch_of s) !! x) as [n|]; [|discriminate H]. cbn [mbind option_bind] in H.
  destruct (workflow_runs (tx_db s) !! nr_workflow_run_id n) as [w|]; [|discriminate H]. injection H as H.
  apply andb_true_iff in H as [H%bool_decide_eq_true _]. eauto.
Qed.

Lemma propagate_one_potential x env s more s' :
  propagate_one x env s = (Ok more, s') -> (length more + potential (orch_of s') <= potential (orch_of s))%nat.
Proof.
  intros H. unfold propagate_one in H. apply tx_bind_ok in H as (now & s1 & H1%(keeps_statement orch) & H).
  apply tx_bind_ok in H as (d & s1' & [= <- <-] & H). apply tx_bind_ok in H as (active & s1' & H2 & H).
  apply tx_lift_ok in H2 as [Hact ->]. fold (orch_of s1) (orch_of s) in H1. rewrite <- H1.
  destruct active; [|by injection H as <- <-]. apply node_active_pending in Hact as (n0 & Hn0 & Hp0). simpl in H.
  apply tx_bind_ok in H as (now2 & s2 & H2%(keeps_statement orch) & H). fold (orch_of s2) (orch_of s1) in H2. rewrite <- H2.
  apply tx_bind_ok in H as (d2 & s2' & [= <- <-] & H). apply tx_bind_ok in H as (values & s2' & H3 & H).
  apply tx_lift_ok in H3 as [_ ->]. destruct (dependency_decision values).
  - by injection H as <- <-.
  - apply tx_bind_ok in H as ([] & s3 & H3 & [= <- <-]). simpl.
    apply activate_spec in H3 as [[-> _]|(n & d & now3 & Hn & _ & _ & ->)]; [done|]. by eapply potential_node.
  - apply tx_bind_ok in H as (r & s3 & H3 & H). apply update_node_spec in H3.
    unfold outgoing in H. apply tx_bind_ok in H as (now4 & s4 & H4%(keeps_statement orch) & H).
    apply tx_bind_ok in H as (d4 & s4' & [= <- <-] & [= <- <-]). fold (orch_of s4) (orch_of s3) in H4.
    assert (edges_from (tx_db s4) x = edges_from (tx_db s2) x) as Heq.
    { unfold edges_from. change (workflow_run_edges (tx_db s4)) with (o_edges (orch_of s4)).
      change (workflow_run_edges (tx_db s2)) with (o_edges (orch_of s2)). rewrite H4.
      destruct r as [n|]; [destruct H3 as (_ & ? & ? & _ & _ & ->)|destruct H3 as [-> _]]; done. }
    rewrite Heq, H4. destruct r as [n|].
    + destruct H3 as (Hn & now5 & d & _ & Hp%bool_decide_eq_true & ->). by eapply potential_skip.
    + destruct H3 as [_ Hno]. rewrite <- H2 in Hn0. destruct (Hno _ Hn0) as (d & _ & Hf).
      by rewrite bool_decide_true in Hf.
Qed.

Lemma propagate_ends fuel : forall l env s b s',
  (length l + potential (orch_of s) <= fuel)%nat -> propagate fuel l env s = (Ok b, s') -> b = true.
Proof.
  induction fuel as [|fuel IH]; intros l env s b s' Hf H; simpl in H.
  { injection H as <- _. destruct l; [done|simpl in Hf; lia]. }
  destruct l as [|x l]; [by injection H as <- _|]. apply tx_bind_ok in H as (more & s1 & H1 & H).
  apply propagate_one_potential in H1. eapply IH; [|exact H]. rewrite length_app. simpl in Hf. lia.
Qed.

Lemma potential_bound o : (potential o <= size (o_edges o))%nat.
Proof. unfold potential. rewrite <- length_map_to_list. apply length_filter. Qed.

(** ** Lemmas: the calls *)

Lemma finish_spec id env s s' :
  finish id env s = (Ok (), s') ->
  orch_of s' = orch_of s
  \/ exists w state now, o_runs (orch_of s) !! id = Some w
       /\ (forall x n, o_nodes (orch_of s) !! x = Some n -> nr_workflow_run_id n = id -> node_terminal (nr_state n) = true)
       /\ orch_of s' = with_invocation (orch_of s) id (invocation_set w state (wr_cancellation_requested w) (Some now)).
Proof.
  intros H. unfold finish in H. apply tx_bind_ok in H as (now & s1 & H1%(keeps_statement orch) & H).
  apply tx_bind_ok in H as (d & s1' & [= <- <-] & H). fold (orch_of s1) (orch_of s) in H1. rewrite <- H1.
  change (workflow_runs (tx_db s1)) with (o_runs (orch_of s1)) in H.
  destruct (o_runs (orch_of s1) !! id) as [w|] eqn:Hw; [|left; by injection H as <-].
  destruct (bool_decide _ && _) eqn:Hc; [|left; by injection H as <-]. right. injection H as <-.
  apply andb_true_iff in Hc as [_ Hc%negb_true_iff]. eexists w, _, now. split; [done|]. split; [|reflexivity].
  intros x n Hn Hid. destruct (node_terminal (nr_state n)) eqn:Ht; [done|].
  assert (existsb open_node (nodes_of (tx_db s1) id) = true) as He; [|congruence].
  apply existsb_exists. exists n. split; [|unfold open_node; by rewrite Ht].
  apply list_elem_of_In. unfold nodes_of. apply list_elem_of_omap. exists (x, n).
  split; [by apply elem_of_map_to_list|]. simpl. by rewrite Hid, N.eqb_refl.
Qed.

(** An invocation whose nodes are all terminal may end. *)
Lemma invocation_ends o id w w' :
  orchestrated o -> o_runs o !! id = Some w -> wr_cancellation_requested w' = wr_cancellation_requested w ->
  (forall x n, o_nodes o !! x = Some n -> nr_workflow_run_id n = id -> node_terminal (nr_state n) = true) ->
  orchestrated (with_invocation o id w').
Proof.
  intros [Hs Hcl Hloc Hst Hca Hown] Hw Hc Hall. split; simpl; try done.
  - intros x (n & v & Hn & Hp & Hv & Hcv). simpl in *. destruct (decide (nr_workflow_run_id n = id)) as [Heq|Hne].
    + specialize (Hall _ _ Hn Heq). by rewrite Hp in Hall.
    + rewrite lookup_insert_ne in Hv by done. apply Hs. by exists n, v.
  - intros x n v Hn Hv Hne. destruct (decide (nr_workflow_run_id n = id)) as [Heq|]; [by eapply Hall|].
    rewrite lookup_insert_ne in Hv by done. by eapply Hcl.
  - intros x n v Hn Hv Hcv. destruct (decide (nr_workflow_run_id n = id)) as [Heq|].
    + rewrite Heq, lookup_insert_eq in Hv. injection Hv as <-. eapply Hca; [done|by rewrite Heq|congruence].
    + rewrite lookup_insert_ne in Hv by done. by eapply Hca.
  - intros x n Hn. destruct (decide (nr_workflow_run_id n = id)) as [->|]; [by rewrite lookup_insert_eq|].
    rewrite lookup_insert_ne by done. by eapply Hown.
Qed.

Lemma finish_orchestrated id env s s' :
  orchestrated (orch_of s) -> finish id env s = (Ok (), s') -> orchestrated (orch_of s').
Proof.
  intros Ho H. apply finish_spec in H as [->|(w & st & now & Hw & Hall & ->)]; [done|]. by eapply invocation_ends.
Qed.

(** A transaction whose committed body keeps a property of the database. *)
Lemma transaction_keeps {A} (P : Orch -> Prop) (body : tx (outcome A)) env s res s' :
  (forall s1 a s2, orch_of s1 = orch_of s -> body env s1 = (Ok (Commit a), s2) -> P (orch_of s2)) ->
  P (orch_of s) -> transaction body env s = (res, s') -> P (orch_of s').
Proof.
  intros Hb Hp H. unfold transaction in H. destruct (tx_bind statement _ env s) as [[out|e] s1] eqn:H1.
  2:{ injection H as <- <-. exact Hp. }
  apply tx_bind_ok in H1 as (now & s0 & H0%(keeps_statement orch) & H1). destruct out as [a|a|a].
  - pose proof (Hb _ _ _ H0 H1) as Hp'. destruct (e_fault env _); injection H as <- <-; [|done].
    by destruct (e_commit_applied env _).
  - injection H as <- <-. exact Hp.
  - injection H as <- <-. exact Hp.
Qed.

Lemma reconcile_invocation_orchestrated env s res s' :
  orchestrated (orch_of s) -> reconcile_invocation env s = (res, s') -> orchestrated (orch_of s').
Proof.
  intros Ho. apply transaction_keeps; [|done]. clear s' res. intros s1 a s' Hs1 H. rewrite <- Hs1 in Ho.
  apply tx_bind_ok in H as (now & s2 & H2%(keeps_statement orch) & H).
  apply tx_bind_ok in H as (locked & s2' & [= <- <-] & H). apply tx_bind_ok in H as (d & s2' & [= <- <-] & H).
  destruct (next_invocation _ _) as [id|]; [|done].
  apply tx_bind_ok in H as (now3 & s3 & H3%(keeps_statement orch) & H).
  apply tx_bind_ok in H as (d3 & s3' & [= <- <-] & H). apply tx_bind_ok in H as (down & s4 & H4 & H).
  fold (orch_of s2) (orch_of s1) (orch_of s3) in H2, H3. rewrite <- H2, <- H3 in Ho.
  destruct (complete_nodes_spec _ _ _ _ _ _ Ho H4) as [Ho4 _].
  apply tx_bind_ok in H as (d4 & s4' & [= <- <-] & H). apply tx_bind_ok in H as (b & s5 & H5 & H).
  assert (b = true) as Hb.
  { eapply propagate_ends; [|exact H5]. unfold propagate_fuel. pose proof (potential_bound (orch_of s4)). simpl in *. lia. }
  pose proof (propagate_spec _ _ _ _ _ _ Ho4 H5 Hb) as Ho5. apply tx_bind_ok in H as ([] & s6 & H6 & H).
  pose proof (finish_orchestrated _ _ _ _ Ho5 H6) as Ho6. apply tx_bind_ok in H as (now7 & s7 & H7%(keeps_statement orch) & H).
  apply tx_bind_ok in H as ([] & s8 & [= <-] & [= _ <-]). fold (orch_of s7) (orch_of s6) in H7.
  rewrite <- H7 in Ho6. exact Ho6.
Qed.

Lemma reconcile_workflows_orchestrated limit env s res s' :
  orchestrated (orch_of s) -> reconcile_workflows limit env s = (res, s') -> orchestrated (orch_of s').
Proof.
  revert s res s'. induction limit as [|limit IH]; intros s res s' Ho H; simpl in H; [by injection H as <- <-|].
  unfold tx_bind in H at 1. destruct (reconcile_invocation env s) as [[b|e] s1] eqn:H1.
  - apply reconcile_invocation_orchestrated in H1; [|done]. destruct b; [|by injection H as <- <-].
    unfold tx_bind in H. destruct (reconcile_workflows limit env s1) as [[c|e] s2] eqn:H2; injection H as <- <-; eauto.
  - injection H as <- <-. by apply reconcile_invocation_orchestrated in H1.
Qed.

(** The tables right after a cancellation marked its nodes. *)
Definition cancelled_orch (o : Orch) (id : Uuid) (now : Instant) : Orch :=
  mkOrch (alter (fun w => invocation_set w (wr_state w) true (wr_finished_at w)) id (o_runs o))
    (cancel_node id now <$> o_nodes o) (o_edges o).

Lemma cancel_node_run id now n : nr_workflow_run_id (cancel_node id now n) = nr_workflow_run_id n.
Proof. unfold cancel_node. by case_match. Qed.

Lemma cancel_node_other id now n : nr_workflow_run_id n <> id -> cancel_node id now n = n.
Proof. intros H. unfold cancel_node. by rewrite (proj2 (N.eqb_neq _ _) H). Qed.

Lemma cancel_node_terminal id now n :
  node_terminal (nr_state n) = true -> node_terminal (nr_state (cancel_node id now n)) = true.
Proof. unfold cancel_node. by case_match. Qed.

Lemma cancel_node_pending id now n : nr_workflow_run_id n = id -> nr_state (cancel_node id now n) <> NPending.
Proof.
  intros H. unfold cancel_node. rewrite H, N.eqb_refl. simpl.
  destruct (decide (nr_state n = NPending)) as [Hp|Hp]; [by rewrite bool_decide_true|].
  rewrite bool_decide_false by done. by case_match.
Qed.

Lemma cancelled_orchestrated o id now : orchestrated o -> orchestrated (cancelled_orch o id now).
Proof.
  intros [Hs Hcl Hloc Hst Hca Hown].
  assert (forall x m, (cancel_node id now <$> o_nodes o) !! x = Some m ->
    exists n, o_nodes o !! x = Some n /\ m = cancel_node id now n) as Hinv.
  { intros x m Hm. rewrite lookup_fmap in Hm. apply fmap_Some in Hm as (n & Hn & ->). eauto. }
  split; simpl.
  - intros x (m & w & Hm & Hp & Hw & Hc). simpl in *. destruct (Hinv _ _ Hm) as (n & Hn & ->). rewrite cancel_node_run in Hw.
    destruct (decide (nr_workflow_run_id n = id)) as [Heq|Hne]; [by destruct (cancel_node_pending id now n Heq)|].
    rewrite cancel_node_other in Hp by done. rewrite lookup_alter_ne in Hw by done.
    destruct (Hs x ltac:(by exists n, w)) as [Hq|[H1 (e & He & Ht)]]; [by left|right].
    assert (forall e, predecessor (cancelled_orch o id now) x e <-> predecessor o x e) as Hpred; [|split].
    { intros e'. unfold predecessor. simpl. split; intros (v & a & na & Hev & Hna & Hsa); exists v, a.
      - destruct (Hinv _ _ Hna) as (na' & Hna' & ->). exists na'. split; [done|]. split; [done|].
        destruct (Hloc v a x ltac:(eauto)) as (p & q & Hp1 & Hq1 & Hp2 & Hq2).
        rewrite cancel_node_other in Hsa; [done|]. congruence.
      - exists na. split; [done|]. rewrite lookup_fmap, Hna. simpl. split; [|done].
        destruct (Hloc v a x ltac:(eauto)) as (p & q & Hp1 & Hq1 & Hp2 & Hq2). rewrite cancel_node_other; [done|]. congruence. }
    + intros e' He'. by apply H1, Hpred.
    + exists e. by rewrite Hpred.
  - intros x m w Hm Hw Hne. destruct (Hinv _ _ Hm) as (n & Hn & ->). rewrite cancel_node_run in Hw.
    apply cancel_node_terminal. destruct (decide (nr_workflow_run_id n = id)) as [Heq|].
    + rewrite Heq, lookup_alter_eq in Hw. apply fmap_Some in Hw as (w0 & Hw0 & ->). eapply Hcl; [done|by rewrite Heq|done].
    + rewrite lookup_alter_ne in Hw by done. by eapply Hcl.
  - intros w a b He. destruct (Hloc w a b He) as (na & nb & Ha & Hb & Hwa & Hwb).
    exists (cancel_node id now na), (cancel_node id now nb). rewrite !lookup_fmap, Ha, Hb, !cancel_node_run. done.
  - intros x m Hm. destruct (Hinv _ _ Hm) as (n & Hn & ->). unfold cancel_node. case_match; [done|by eapply Hst].
  - intros x m w Hm Hw Hc. destruct (Hinv _ _ Hm) as (n & Hn & ->). rewrite cancel_node_run in Hw.
    destruct (decide (nr_workflow_run_id n = id)) as [Heq|]; [by apply cancel_node_pending|].
    rewrite lookup_alter_ne in Hw by done. rewrite cancel_node_other by done. by eapply Hca.
  - intros x m Hm. destruct (Hinv _ _ Hm) as (n & Hn & ->). rewrite cancel_node_run.
    destruct (decide (nr_workflow_run_id n = id)) as [Heq|]; [|rewrite lookup_alter_ne by done; by eapply Hown].
    rewrite Heq, lookup_alter_eq. apply fmap_is_Some. rewrite <- Heq. by eapply Hown.
Qed.

Section Calls.
Context {SJ : SerdeJson} {RF : RustFmt} {PG : PostgresServer}.

Lemma keeps_node_records {X} (f : DB -> X) l : keeps f (node_records l).
Proof. induction l as [|x l IH]; simpl; keeps_tac. exact IH. Qed.

Lemma keeps_invocation {X} (f : DB -> X) id v : keeps f (invocation id v).
Proof. unfold invocation. keeps_tac. apply keeps_node_records. Qed.

Lemma cancel_orchestrated id env s res s' :
  orchestrated (orch_of s) -> cancel_run id env s = (res, s') -> orchestrated (orch_of s').
Proof.
  intros Ho. apply transaction_keeps; [|done]. clear s' res. intros s1 a s' Hs1 H. rewrite <- Hs1 in Ho.
  apply tx_bind_ok in H as (now & s2 & H2%(keeps_statement orch) & H).
  apply tx_bind_ok in H as (d & s2' & [= <- <-] & H). apply tx_bind_ok in H as (row & s2' & H3 & H).
  apply tx_lift_ok in H3 as [_ ->]. fold (orch_of s2) (orch_of s1) in H2. rewrite <- H2 in Ho.
  apply tx_bind_ok in H as ([] & s4 & H4 & H). apply tx_bind_ok in H as (r & s5 & H5%(keeps_invocation orch) & [= _ <-]).
  unfold orch_of in *. rewrite H5. clear H5. destruct (_ =? _)%string; [|by injection H4 as <-].
  apply tx_bind_ok in H4 as (n1 & s6 & H6%(keeps_statement orch) & H4).
  apply tx_bind_ok in H4 as ([] & s7 & [= <-] & H4).
  apply tx_bind_ok in H4 as (n2 & s8 & H8%(keeps_statement orch) & H4).
  apply tx_bind_ok in H4 as ([] & s9 & [= <-] & H4). eapply finish_orchestrated; [|exact H4].
  match goal with |- orchestrated ?o => assert (o = cancelled_orch (orch (tx_db s2)) id n2) as -> end;
    [|by apply cancelled_orchestrated].
  unfold orch_of, cancelled_orch. simpl tx_db in *. by rewrite orch_set_node_runs, H8, orch_set_workflow_runs, H6.
Qed.

End Calls.
