(* ===== verification/Launch.v ===== *)
(** * Launching a Workflow and what every history keeps

    [start] lays out an invocation whose graph is the validated definition; with
    the orchestrator's invariant this shows that no reachable invocation is
    stuck. *)

From S2P Require Import Prelude RustStr Json Inputs Names Float Domain Auth Workflow Db Snapshot TxLogic Store WorkflowStore Lifecycle Refinement WorkflowRefinement StoreSystem Scenario StoreBehaviour PlannerTheorems Orchestration.
From Stdlib Require Import String.
From stdpp Require Import base numbers strings sorting gmap list relations.

Local Open Scope Z_scope.

(** No invocation's graph has a cycle. *)
Definition no_cycles (o : Orch) : Prop := forall x, ~ tc (depends o) x x.

Lemma no_cycles_edges o o' : o_edges o' = o_edges o -> no_cycles o -> no_cycles o'.
Proof. intros He Hno x. unfold no_cycles, depends in *. rewrite He. apply Hno. Qed.

(** ** Lemmas: adding an invocation *)

Lemma invocation_added o id w :
  orchestrated o -> o_runs o !! id = None -> orchestrated (with_invocation o id w).
Proof.
  intros [Hs Hcl Hloc Hst Hca Hown] Hid.
  assert (forall x n v, o_nodes o !! x = Some n -> <[id:=w]> (o_runs o) !! nr_workflow_run_id n = Some v ->
    o_runs o !! nr_workflow_run_id n = Some v) as Hold.
  { intros x n v Hn Hv. destruct (Hown _ _ Hn) as [v' Hv']. rewrite lookup_insert_ne in Hv; [done|]. congruence. }
  split; simpl; try done.
  - intros x (n & v & Hn & Hp & Hv & Hc). apply Hs. exists n, v. simpl in *. eauto.
  - eauto.
  - eauto.
  - intros x n Hn. destruct (Hown _ _ Hn) as [v Hv]. rewrite lookup_insert_ne; [done|congruence].
Qed.

(** The nodes a launch adds, by name. *)
Record added (id : Uuid) (names : list string) (new : gmap Uuid NodeRunRow) (node_ids : gmap string Uuid) : Prop := {
  ad_row : forall x n, new !! x = Some n -> nr_workflow_run_id n = id /\ nr_state n = NPending;
  ad_name : forall x n, new !! x = Some n -> nr_name n ∈ names /\ node_ids !! nr_name n = Some x;
  ad_id : forall k, k ∈ names -> exists x n, node_ids !! k = Some x /\ new !! x = Some n /\ nr_name n = k;
}.

Definition with_nodes (o : Orch) (new : gmap Uuid NodeRunRow) : Orch := mkOrch (o_runs o) (new ∪ o_nodes o) (o_edges o).

(** The edges a launch adds. *)
Record linked (id : Uuid) (ids : gmap string Uuid) (edges : list StoredEdge)
    (old es : gmap (Uuid * Uuid * Uuid) DependencyCondition) : Prop := {
  lk_from : forall k, is_Some (es !! k) -> is_Some (old !! k)
    \/ exists e a b, e ∈ edges /\ ids !! se_from e = Some a /\ ids !! se_to e = Some b /\ k = (id, a, b);
  lk_old : forall k, is_Some (old !! k) -> es !! k = old !! k;
  lk_new : forall e, e ∈ edges ->
    exists a b, ids !! se_from e = Some a /\ ids !! se_to e = Some b /\ is_Some (es !! (id, a, b));
}.

Section Layout.
Variables (o : Orch) (id : Uuid) (w : InvocationRow) (names : list string) (new : gmap Uuid NodeRunRow)
  (ids : gmap string Uuid) (edges : list StoredEdge) (es : gmap (Uuid * Uuid * Uuid) DependencyCondition).
Hypothesis Ho : orchestrated o.
Hypothesis Hnone : forall x n, o_nodes o !! x = Some n -> nr_workflow_run_id n <> id.
Hypothesis Hw : o_runs o !! id = Some w.
Hypothesis Hrun : wr_state w = WRunning.
Hypothesis Hopen : wr_cancellation_requested w = false.
Hypothesis Hdis : new ##ₘ o_nodes o.
Hypothesis Had : added id names new ids.
Hypothesis Hlk : linked id ids edges (o_edges o) es.
Hypothesis Hends : forall e, e ∈ edges -> se_from e ∈ names /\ se_to e ∈ names.

Definition laid_out : Orch := mkOrch (o_runs o) (new ∪ o_nodes o) es.

Lemma laid_node x n : o_nodes laid_out !! x = Some n <-> new !! x = Some n \/ o_nodes o !! x = Some n.
Proof. simpl. by apply lookup_union_Some. Qed.

Lemma new_not_old x n n' : new !! x = Some n -> o_nodes o !! x = Some n' -> False.
Proof. intros H1 H2. by apply (map_disjoint_spec new (o_nodes o)) with x n n' in Hdis. Qed.

(** An edge joins two old nodes by an old edge or two new ones by an edge of the definition. *)
Lemma laid_edge v a b : is_Some (es !! (v, a, b)) ->
  (is_Some (o_edges o !! (v, a, b)) /\ exists na nb, o_nodes o !! a = Some na /\ o_nodes o !! b = Some nb
     /\ nr_workflow_run_id na = v /\ nr_workflow_run_id nb = v)
  \/ (v = id /\ exists e na nb, e ∈ edges /\ new !! a = Some na /\ new !! b = Some nb
        /\ nr_name na = se_from e /\ nr_name nb = se_to e).
Proof.
  intros [He|(e & a' & b' & He & Ha & Hb & [= -> -> ->])]%(lk_from _ _ _ _ _ Hlk).
  - left. split; [done|]. by apply (or_local _ _ Ho).
  - right. split; [done|]. destruct (Hends e He) as [Hf Ht].
    destruct (ad_id _ _ _ _ Had _ Hf) as (x & na & Hx & Hna & Hka).
    destruct (ad_id _ _ _ _ Had _ Ht) as (y & nb & Hy & Hnb & Hkb).
    assert (x = a') as -> by congruence. assert (y = b') as -> by congruence. by exists e, na, nb.
Qed.

Lemma laid_pred_old x n e : o_nodes o !! x = Some n -> predecessor laid_out x e <-> predecessor o x e.
Proof.
  intros Hx. split; intros (v & a & na & He & Hna & Hs).
  - destruct (laid_edge v a x ltac:(eauto)) as [[Hold (na' & _ & Hna' & _)]|(_ & _ & _ & nb & _ & _ & Hnb & _)].
    + exists v, a, na. simpl in He. rewrite (lk_old _ _ _ _ _ Hlk _ Hold) in He. split; [done|]. split; [|done].
      apply laid_node in Hna as [Hna|Hna]; [|done]. by destruct (new_not_old _ _ _ Hna Hna').
    + by destruct (new_not_old _ _ _ Hnb Hx).
  - exists v, a, na. split; [simpl; by rewrite (lk_old _ _ _ _ _ Hlk) by eauto|]. split; [|done].
    apply laid_node. by right.
Qed.

(** Only pending nodes precede a new one. *)
Lemma laid_pred_new x n e : new !! x = Some n -> predecessor laid_out x e -> e.2 = NPending.
Proof.
  intros Hx (v & a & na & He & Hna & Hs).
  destruct (laid_edge v a x ltac:(eauto)) as [[_ (_ & nb & _ & Hnb & _)]|(_ & e' & na' & _ & _ & Hna' & _)].
  - by destruct (new_not_old _ _ _ Hx Hnb).
  - rewrite <- Hs. apply laid_node in Hna as [Hna|Hna]; [|by destruct (new_not_old _ _ _ Hna' Hna)].
    by eapply (ad_row _ _ _ _ Had).
Qed.

Lemma laid_waits_new x n e : new !! x = Some n -> e ∈ edges -> se_to e = nr_name n -> waits laid_out x.
Proof.
  intros Hx He Hto. split.
  - intros p Hp [Ht _]. by rewrite (laid_pred_new _ _ _ Hx Hp) in Ht.
  - destruct (lk_new _ _ _ _ _ Hlk e He) as (a & b & Ha & Hb & [c Hc]). destruct (Hends e He) as [Hf _].
    destruct (ad_id _ _ _ _ Had _ Hf) as (a' & na & Ha' & Hna & _). assert (a' = a) as -> by congruence.
    destruct (ad_name _ _ _ _ Had _ _ Hx) as [_ Hid]. assert (b = x) as -> by congruence.
    destruct (ad_row _ _ _ _ Had _ _ Hna) as [_ Hp]. exists (c, NPending). split; [|done].
    exists id, a, na. split; [done|]. split; [|done]. apply laid_node. by left.
Qed.

Lemma laid_orchestrated queue :
  (forall x n, new !! x = Some n -> x ∈ queue \/ exists e, e ∈ edges /\ se_to e = nr_name n) ->
  orchestrated_but queue laid_out.
Proof.
  intros Hq. pose proof Ho as [Hs Hcl Hloc Hst Hca Hown]. split.
  - intros x (n & v & Hn & Hp & Hv & Hc). apply laid_node in Hn as [Hn|Hn].
    + destruct (Hq _ _ Hn) as [?|(e & He & Hto)]; [by left|right]. by eapply laid_waits_new.
    + right. destruct (Hs x) as [Hf|[H1 (e & He & Ht)]]; [by exists n, v|by apply elem_of_nil in Hf|].
      split; [intros e'; rewrite laid_pred_old by done; apply H1|]. exists e. by rewrite laid_pred_old.
  - intros x n v [Hn|Hn]%laid_node Hv; [|by eapply Hcl]. destruct (ad_row _ _ _ _ Had _ _ Hn) as [Hid _].
    simpl in Hv. rewrite Hid in Hv. congruence.
  - intros v a b He. destruct (laid_edge v a b He) as [[_ (na & nb & Ha & Hb & ?)]|(-> & _ & na & nb & _ & Ha & Hb & _)].
    + exists na, nb. rewrite !laid_node. auto.
    + exists na, nb. rewrite !laid_node. destruct (ad_row _ _ _ _ Had _ _ Ha), (ad_row _ _ _ _ Had _ _ Hb). auto.
  - intros x n [Hn|Hn]%laid_node; [|by eapply Hst]. by rewrite (proj2 (ad_row _ _ _ _ Had _ _ Hn)).
  - intros x n v [Hn|Hn]%laid_node Hv; [|by eapply Hca]. destruct (ad_row _ _ _ _ Had _ _ Hn) as [Hid _].
    simpl in Hv. rewrite Hid in Hv. congruence.
  - intros x n [Hn|Hn]%laid_node; [|by eapply Hown]. simpl. by rewrite (proj1 (ad_row _ _ _ _ Had _ _ Hn)), Hw.
Qed.

(** A path of the extended graph stays on one side. *)
Lemma laid_path a b : tc (depends laid_out) a b ->
  (exists na nb, new !! a = Some na /\ new !! b = Some nb
     /\ tc (edge_rel (map (fun e => (se_from e, se_to e)) edges)) (nr_name na) (nr_name nb))
  \/ (is_Some (o_nodes o !! a) /\ is_Some (o_nodes o !! b) /\ tc (depends o) a b).
Proof.
  assert (forall a b, depends laid_out a b ->
    (exists na nb, new !! a = Some na /\ new !! b = Some nb
       /\ edge_rel (map (fun e => (se_from e, se_to e)) edges) (nr_name na) (nr_name nb))
    \/ (is_Some (o_nodes o !! a) /\ is_Some (o_nodes o !! b) /\ depends o a b)) as Hone.
  { intros x y [v He]. destruct (laid_edge v x y He) as [[Hold (na & nb & Ha & Hb & _)]|(_ & e & na & nb & He' & Ha & Hb & Hna & Hnb)].
    - right. split; [eauto|]. split; [eauto|]. by exists v.
    - left. exists na, nb. do 2 (split; [done|]). rewrite Hna, Hnb. apply list_elem_of_fmap. by exists e. }
  induction 1 as [a b Hab|a b c Hab Hbc IH].
  - destruct (Hone _ _ Hab) as [(na & nb & ? & ? & ?)|(? & ? & ?)]; [left|right]; eauto 6 using tc_once.
  - destruct (Hone _ _ Hab) as [(na & nb & Ha & Hb & He)|(Ha & [nb Hb] & He)],
      IH as [(nb' & nc & Hb' & Hc & Ht)|([nb' Hb'] & Hc & Ht)].
    + left. exists na, nc. assert (nb' = nb) as -> by congruence. eauto using tc_l.
    + by destruct (new_not_old _ _ _ Hb Hb').
    + by destruct (new_not_old _ _ _ Hb' Hb).
    + right. eauto using tc_l.
Qed.

Lemma laid_no_cycles :
  no_cycles o -> acyclic (map (fun e => (se_from e, se_to e)) edges) -> no_cycles laid_out.
Proof.
  intros Hno Hac x [(na & nb & Ha & Hb & Ht)|(_ & _ & Ht)]%laid_path; [|by apply (Hno x)].
  assert (nb = na) as -> by congruence. by apply (Hac (nr_name na)).
Qed.

End Layout.

Section Launch.
Context {SJ : SerdeJson} {RF : RustFmt} {PG : PostgresServer} {SE : SnapshotEncoding}.

Lemma keeps_fresh_uuid {X} (f : DB -> X) : keeps f fresh_uuid.
Proof. by apply keeps_step. Qed.

Lemma keeps_require_run_request {X} (f : DB -> X) r ns j t i :
  (forall g d, f (set_run_requests g d) = f d) -> keeps f (require_run_request r ns j t i).
Proof.
  intros Hf. unfold require_run_request, insert_run_request. destruct (selection_ids t). keeps_tac.
  apply keeps_modify. auto.
Qed.

Lemma keeps_prepare_executions {X} (f : DB -> X) node ns si i l : forall bytes,
  (forall g d, f (set_node_executions g d) = f d) -> keeps f (prepare_executions node ns si i l bytes).
Proof.
  induction l as [|x l IH]; intros bytes Hf; simpl; [by apply keeps_step|].
  unfold insert_node_execution. keeps_tac; try (by apply keeps_modify); try (by apply IH).
Qed.

Lemma insert_node_run_spec node_id id node env s s' :
  insert_node_run node_id id node env s = (Ok (), s') ->
  o_nodes (orch_of s) !! node_id = None
  /\ exists n, nr_workflow_run_id n = id /\ nr_state n = NPending /\ nr_name n = sn_name node
       /\ orch_of s' = with_node (orch_of s) node_id n.
Proof.
  intros H. unfold insert_node_run in H. apply tx_bind_ok in H as (now & s1 & H1%(keeps_statement orch) & H).
  apply tx_bind_ok in H as (d & s1' & [= <- <-] & H).
  apply tx_bind_ok in H as ([] & s2 & [Hfree ->]%check_ok & H). apply tx_bind_ok in H as ([] & s2' & [_ ->]%check_ok & H).
  apply tx_bind_ok in H as ([] & s2' & [_ ->]%check_ok & [= <-]).
  unfold orch_of. rewrite <- H1. split.
  - apply negb_true_iff, bool_decide_eq_false in Hfree. by apply eq_None_not_Some.
  - eexists. split; [|split; [|split; [|reflexivity]]]; done.
Qed.

Lemma added_cons id k names x n new ids :
  added id names new ids -> new !! x = None -> k ∉ names -> ids !! k = Some x ->
  nr_workflow_run_id n = id -> nr_state n = NPending -> nr_name n = k -> added id (k :: names) (<[x := n]> new) ids.
Proof.
  intros [Hr Hn Hi] Hx Hk Hkx Hid Hp Hname. split.
  - intros y m [[-> <-]|[? Hm]]%lookup_insert_Some; [done|by eapply Hr].
  - intros y m [[-> <-]|[? Hm]]%lookup_insert_Some; [rewrite Hname; split; [left|done]|].
    destruct (Hn _ _ Hm). split; [by right|done].
  - intros k' [->|Hk']%elem_of_cons.
    + exists x, n. by rewrite lookup_insert_eq.
    + destruct (Hi _ Hk') as (y & m & Hy & Hm & Hmk). exists y, m. rewrite lookup_insert_ne by congruence. done.
Qed.

Lemma prepare_nodes_loop_spec id ns launch nodes : forall ids bytes count env s ids' s',
  NoDup (map sn_name nodes) -> prepare_nodes_loop id ns launch nodes ids bytes count env s = (Ok ids', s') ->
  exists new, new ##ₘ o_nodes (orch_of s) /\ orch_of s' = with_nodes (orch_of s) new
    /\ added id (map sn_name nodes) new ids' /\ forall k, k ∉ map sn_name nodes -> ids' !! k = ids !! k.
Proof.
  induction nodes as [|node nodes IH]; intros ids bytes count env s ids' s' Hnd H.
  { injection H as <- <-. exists ∅. split; [apply map_disjoint_empty_l|]. split; [|split; [|done]].
    - unfold with_nodes. rewrite map_empty_union. by destruct (orch_of s).
    - split; [done|done|]. intros k Hk. by apply elem_of_nil in Hk. }
  cbn [map] in Hnd. apply NoDup_cons in Hnd as [Hk Hnd]. cbn [prepare_nodes_loop] in H.
  apply tx_bind_ok in H as (x & s1 & H1%(keeps_fresh_uuid orch) & H).
  apply tx_bind_ok in H as ([] & s2 & H2%insert_node_run_spec & H).
  apply tx_bind_ok in H as ([] & s3 & H3%(keeps_require_run_request orch) & H); [|done].
  apply tx_bind_ok in H as ([ex si] & s4 & H4%(keeps_load_selection orch) & H).
  apply tx_bind_ok in H as ([] & s5 & [_ ->]%check_ok & H). apply tx_bind_ok in H as ([] & s6 & [_ ->]%check_ok & H).
  apply tx_bind_ok in H as (bytes' & s7 & H7%(keeps_prepare_executions orch) & H); [|done].
  apply IH in H as (new & Hdis & Ho & Had & Hids); [|done]. destruct H2 as (Hx & n & Hid & Hp & Hname & Ho2).
  fold (orch_of s1) (orch_of s) in H1. rewrite H1 in *.
  assert (orch_of s7 = with_node (orch_of s) x n) as Ho7 by (unfold orch_of in *; congruence). rewrite Ho7 in *. simpl in Hdis.
  apply map_disjoint_insert_r in Hdis as [Hnew Hdis]. exists (<[x := n]> new). split; [by apply map_disjoint_insert_l|].
  split; [rewrite Ho; unfold with_nodes, with_node; simpl; by rewrite <- insert_union_r, insert_union_l|].
  split.
  - apply added_cons; try done. rewrite Hids by done. apply lookup_insert_eq.
  - intros k Hk'. apply not_elem_of_cons in Hk' as [Hne Hk']. rewrite Hids by done. by apply lookup_insert_ne.
Qed.

Lemma insert_run_edges_spec id ids edges : forall env s s',
  tx_for edges (insert_run_edge id ids) env s = (Ok (), s') ->
  exists es, orch_of s' = mkOrch (o_runs (orch_of s)) (o_nodes (orch_of s)) es
    /\ linked id ids edges (o_edges (orch_of s)) es.
Proof.
  induction edges as [|e edges IH]; intros env s s' H; cbn [tx_for] in H.
  { injection H as <-. exists (o_edges (orch_of s)). split; [by destruct (orch_of s)|]. split; [by left|done|].
    intros e He. by apply elem_of_nil in He. }
  apply tx_bind_ok in H as ([] & s1 & H1 & H). unfold insert_run_edge in H1.
  apply tx_bind_ok in H1 as (a & s2 & [Ha ->]%tx_lift_ok & H1). apply tx_bind_ok in H1 as (b & s2 & [Hb ->]%tx_lift_ok & H1).
  apply tx_bind_ok in H1 as (now & s2 & H2%(keeps_statement orch) & H1). apply tx_bind_ok in H1 as (d & s2' & [= <- <-] & H1).
  apply tx_bind_ok in H1 as (c & s2' & [_ ->]%tx_lift_ok & H1). apply tx_bind_ok in H1 as ([] & s2' & [Hfree ->]%check_ok & H1).
  apply tx_bind_ok in H1 as ([] & s2' & [_ ->]%check_ok & [= <-]).
  apply negb_true_iff, bool_decide_eq_false, eq_None_not_Some in Hfree.
  apply IH in H as (es & Ho & [Hfrom Hold Hnew]). unfold orch_of in *. simpl tx_db in *. rewrite orch_set_run_edges, H2 in *.
  simpl in Hfrom, Hold. change (workflow_run_edges (tx_db s2)) with (o_edges (orch (tx_db s2))) in Hfree. rewrite H2 in Hfree.
  assert (ids !! se_from e = Some a) as Ha' by (destruct (ids !! se_from e); naive_solver).
  assert (ids !! se_to e = Some b) as Hb' by (destruct (ids !! se_to e); naive_solver).
  exists es. split; [done|]. split.
  - intros k Hk. destruct (Hfrom k Hk) as [Hk'|(e' & x & y & He' & ? & ? & ?)].
    + destruct (decide (k = (id, a, b))) as [->|Hne]; [right; exists e, a, b; split; [left|done]|].
      rewrite lookup_insert_ne in Hk' by done. by left.
    + right. exists e', x, y. split; [by right|done].
  - intros k Hk. assert (k <> (id, a, b)) as Hne by (intros ->; rewrite Hfree in Hk; by destruct Hk).
    rewrite Hold by (by rewrite lookup_insert_ne). by rewrite lookup_insert_ne.
  - intros e' [->|He']%elem_of_cons; [|by apply Hnew]. exists a, b. do 2 (split; [done|]).
    rewrite Hold by (by rewrite lookup_insert_eq). by rewrite lookup_insert_eq.
Qed.

(** ** Lemmas: the stored definition *)

Lemma resource_name_ok v n : resource_name v = Ok n -> ResourceNameM.as_str n = v.
Proof.
  unfold resource_name, ResourceNameM.parse. destruct (validate_resource_name v) as [[]|]; [|done]. by intros [= <-].
Qed.

Definition stored_pairs (st : StoredWorkflow) : list (string * string) :=
  map (fun e => (se_from e, se_to e)) (sw_edges st).

(** What a stored definition that reads back satisfies. *)
Lemma record_admits st r : record st = Ok r ->
  well_formed (map sn_name (sw_nodes st)) (stored_pairs st) /\ acyclic (stored_pairs st).
Proof.
  unfold record. intros H. apply result_bind_ok in H as (def & Hdef & H). apply result_bind_ok in H as ([] & Hv & _).
  assert (validate def = Ok ()) as Hval by (by destruct (validate def) as [[]|]).
  destruct (try_validate_spec def) as (res & Hr & Hiff). unfold validate in Hval. rewrite Hr in Hval.
  apply Hiff in Hval as (_ & _ & _ & Hw & Ha). unfold stored_definition in Hdef.
  apply result_bind_ok in Hdef as (name & _ & Hdef). apply result_bind_ok in Hdef as (nodes & Hn & Hdef).
  apply result_bind_ok in Hdef as (edges & He & [= <-]). unfold node_names, edge_pairs in Hw, Ha. simpl in Hw, Ha.
  assert (map (fun n => ResourceNameM.as_str (wn_name n)) nodes = map sn_name (sw_nodes st)) as Hns.
  { eapply collect_map; [|exact Hn]. intros x y Hy. apply result_bind_ok in Hy as (n & Hname & [= <-]).
    by apply resource_name_ok. }
  assert (map (fun e => (ResourceNameM.as_str (we_from e), ResourceNameM.as_str (we_to e))) edges = stored_pairs st) as Hes.
  { eapply collect_map; [|exact He]. intros x y Hy. apply result_bind_ok in Hy as (f & Hf%resource_name_ok & Hy).
    apply result_bind_ok in Hy as (t & Ht%resource_name_ok & Hy). apply result_bind_ok in Hy as (c & _ & [= <-]).
    simpl. by rewrite Hf, Ht. }
  rewrite Hns, Hes in Hw. rewrite Hes in Ha. done.
Qed.

(** ** Lemmas: the launch *)

Lemma insert_invocation_spec id def launch env s s' :
  insert_invocation id def launch env s = (Ok (), s') ->
  o_runs (orch_of s) !! id = None
  /\ exists w, wr_definition_snapshot w = def /\ wr_state w = WRunning /\ wr_cancellation_requested w = false
       /\ orch_of s' = with_invocation (orch_of s) id w.
Proof.
  intros H. unfold insert_invocation in H. destruct (selection_ids (wl_target launch)) as [tid tsid].
  apply tx_bind_ok in H as (now & s1 & H1%(keeps_statement orch) & H). apply tx_bind_ok in H as ([] & s1' & [_ ->]%check_ok & H).
  apply tx_bind_ok in H as (d & s1' & [= <- <-] & H).
  apply tx_bind_ok in H as ([] & s2 & [_ ->]%check_ok & H). apply tx_bind_ok in H as ([] & s2 & [Hfree ->]%check_ok & H).
  apply tx_bind_ok in H as ([] & s2 & [_ ->]%check_ok & [= <-]). unfold orch_of. rewrite <- H1. split.
  - apply andb_true_iff in Hfree as [Hfree _]. apply negb_true_iff, bool_decide_eq_false in Hfree. by apply eq_None_not_Some.
  - eexists. split; [|split; [|split; [|reflexivity]]]; done.
Qed.

Lemma invocation_reads id env s r s' :
  invocation id VisAll env s = (Ok r, s') ->
  exists row, o_runs (orch_of s) !! id = Some row /\ record (wr_definition_snapshot row) = Ok (wrr_workflow r).
Proof.
  intros H. unfold invocation in H. apply tx_bind_ok in H as (now & s1 & H1%(keeps_statement orch) & H).
  apply tx_bind_ok in H as (d & s1' & [= <- <-] & H). apply tx_bind_ok in H as (row & s1' & [Hrow ->]%tx_lift_ok & H).
  simpl in H. apply tx_bind_ok in H as (now2 & s2 & _ & H). apply tx_bind_ok in H as (d2 & s2' & [= <- <-] & H).
  apply tx_bind_ok in H as (nodes & s3 & _ & H). apply tx_bind_ok in H as (wf & s4 & [Hwf ->]%tx_lift_ok & H).
  apply tx_bind_ok in H as (t & s5 & [_ ->]%tx_lift_ok & H). apply tx_bind_ok in H as (st & s6 & [_ ->]%tx_lift_ok & [= <- <-]).
  exists row. split; [|done]. fold (orch_of s1) (orch_of s) in H1. rewrite <- H1.
  change (o_runs (orch_of s1)) with (workflow_runs (tx_db s1)). by destruct (workflow_runs (tx_db s1) !! id); simplify_eq/=.
Qed.

Lemma keeps_activate {X} (f : DB -> X) id :
  (forall g d, f (set_core g d) = f d) -> (forall g d, f (set_run_events g d) = f d) ->
  (forall g d, f (set_node_runs g d) = f d) -> (forall g d, f (set_node_executions g d) = f d) ->
  keeps f (activate id).
Proof.
  intros H1 H2 H3 H4. apply keeps_bind; [unfold update_node; keeps_tac; by apply keeps_modify|intros [n|]; [|by apply keeps_step]].
  apply keeps_bind; [apply keeps_statement|intros now]. apply keeps_bind; [by apply keeps_step|intros d].
  apply keeps_for. intros e. apply keeps_bind; [by apply keeps_create_normal_run|intros []].
  apply keeps_bind; [apply keeps_statement|intros now2; by apply keeps_modify].
Qed.

Lemma keeps_prepare_nodes id ns launch nodes : forall ids bytes count,
  keeps workflow_runs (prepare_nodes_loop id ns launch nodes ids bytes count).
Proof.
  induction nodes as [|node nodes IH]; intros ids bytes count; [by apply keeps_step|]. cbn [prepare_nodes_loop].
  apply keeps_bind; [apply keeps_fresh_uuid|intros x]. apply keeps_bind; [unfold insert_node_run; keeps_tac|intros []].
  apply keeps_bind; [by apply keeps_require_run_request|intros []].
  apply keeps_bind; [apply keeps_load_selection|intros [ex si]]. do 2 (apply keeps_bind; [apply keeps_check|intros []]).
  apply keeps_bind; [by apply keeps_prepare_executions|intros b]. apply IH.
Qed.

(** What [start] does with the roots. *)
Definition activate_named (ids : gmap string Uuid) (node : StoredNode) : tx unit :=
  let! node_id := tx_lift (ok_or (ids !! sn_name node) Internal) in activate node_id.

Lemma activate_roots_frame ids nodes env s res s' :
  tx_for nodes (activate_named ids) env s = (res, s') ->
  o_runs (orch_of s') = o_runs (orch_of s) /\ o_edges (orch_of s') = o_edges (orch_of s).
Proof.
  intros H. split; [refine (keeps_for workflow_runs _ _ _ _ _ _ _ H)|refine (keeps_for workflow_run_edges _ _ _ _ _ _ _ H)];
    intros x; (apply keeps_bind; [by apply keeps_step|intros y; by apply keeps_activate]).
Qed.

Lemma activate_roots_spec ids nodes : forall env s s',
  orchestrated_but (omap (fun n => ids !! sn_name n) nodes) (orch_of s) ->
  tx_for nodes (activate_named ids) env s = (Ok (), s') -> orchestrated (orch_of s').
Proof.
  induction nodes as [|node nodes IH]; intros env s s' Ho H; cbn [tx_for] in H; [by injection H as <-|].
  apply tx_bind_ok in H as ([] & s1 & H1 & H). apply tx_bind_ok in H1 as (x & s0 & [Hx ->]%tx_lift_ok & H1).
  simpl in Ho. destruct (ids !! sn_name node) as [y|]; [|done]. injection Hx as ->.
  eapply IH; [|exact H]. by eapply activate_orchestrated.
Qed.

Lemma keeps_catalog {X} (f : DB -> X) id : keeps f (WorkflowStore.catalog id).
Proof. unfold WorkflowStore.catalog. keeps_tac. Qed.

Lemma keeps_replay {X} (f : DB -> X) launch id : keeps f (replay launch id).
Proof.
  unfold replay, json_inputs_equal. apply keeps_bind; [apply keeps_invocation|intros r]. keeps_tac.
Qed.

(** The layout of an invocation with the definition it was launched from. *)
Lemma layout_orchestrated o id w st new ids es :
  orchestrated o -> no_cycles o -> o_runs o !! id = None -> wr_state w = WRunning ->
  wr_cancellation_requested w = false -> new ##ₘ o_nodes o -> added id (map sn_name (sw_nodes st)) new ids ->
  linked id ids (sw_edges st) (o_edges o) es ->
  well_formed (map sn_name (sw_nodes st)) (stored_pairs st) -> acyclic (stored_pairs st) ->
  let o' := mkOrch (<[id := w]> (o_runs o)) (new ∪ o_nodes o) es in
  orchestrated_but (omap (fun n => ids !! sn_name n) (filter (fun n => is_root st n = true) (sw_nodes st))) o'
  /\ no_cycles o'.
Proof.
  intros Ho Hno Hid Hws Hwc Hdis Had Hlk (_ & _ & Hends) Hac o'.
  assert (forall e, e ∈ sw_edges st -> se_from e ∈ map sn_name (sw_nodes st) /\ se_to e ∈ map sn_name (sw_nodes st)) as Hends'.
  { intros e He. rewrite Forall_forall in Hends. destruct (Hends (se_from e, se_to e)) as (? & ? & _); [|done].
    apply list_elem_of_fmap. by exists e. }
  pose proof (invocation_added o id w Ho Hid) as Ho1.
  split; [|by apply (laid_no_cycles (with_invocation o id w) id (map sn_name (sw_nodes st)) new ids (sw_edges st) es)].
  apply (laid_orchestrated (with_invocation o id w) id w (map sn_name (sw_nodes st)) new ids (sw_edges st) es); try done.
  - apply lookup_insert_eq.
  - intros x n Hx. destruct (ad_name _ _ _ _ Had _ _ Hx) as [Hk Hkx]. apply list_elem_of_fmap in Hk as (node & Hk & Hin).
    destruct (is_root st node) eqn:Hroot.
    + left. apply list_elem_of_omap. exists node. split; [by apply list_elem_of_filter|]. by rewrite <- Hk.
    + right. apply negb_false_iff, existsb_exists in Hroot as (e & He%list_elem_of_In & Heq%String.eqb_eq).
      exists e. split; [done|]. by rewrite Heq.
Qed.

Lemma start_orchestrated launch env s res s' :
  orchestrated (orch_of s) /\ no_cycles (orch_of s) -> start launch env s = (res, s') ->
  orchestrated (orch_of s') /\ no_cycles (orch_of s').
Proof.
  intros Ho. apply (transaction_keeps (fun o => orchestrated o /\ no_cycles o)); [|done]. clear s' res.
  intros s1 a s' Hs1 H. rewrite <- Hs1 in Ho. clear Hs1.
  apply tx_bind_ok in H as (n1 & s2 & H2%(keeps_statement orch) & H). apply tx_bind_ok in H as (n2 & s3 & H3%(keeps_statement orch) & H).
  apply tx_bind_ok in H as (d & s3' & [= <- <-] & H). assert (orch_of s3 = orch_of s1) as H13 by (unfold orch_of; congruence).
  rewrite <- H13 in Ho. destruct (invocation_for_request _ _) as [old|].
  { apply tx_bind_ok in H as (r & s4 & H4%(keeps_replay orch) & [= _ <-]). unfold orch_of in *. by rewrite H4. }
  apply tx_bind_ok in H as (st & s4 & H4%(keeps_catalog orch) & H). fold (orch_of s4) (orch_of s3) in H4. rewrite <- H4 in Ho.
  destruct (negb _); [done|]. apply tx_bind_ok in H as (id & s5 & H5%(keeps_fresh_uuid orch) & H).
  fold (orch_of s5) (orch_of s4) in H5. rewrite <- H5 in Ho.
  apply tx_bind_ok in H as ([] & s6 & (Hid & w & Hdef & Hws & Hwc & H6)%insert_invocation_spec & H).
  apply tx_bind_ok in H as (n7 & s7 & H7%(keeps_statement orch) & H). apply tx_bind_ok in H as (n8 & s8 & H8%(keeps_statement orch) & H).
  apply tx_bind_ok in H as (ids & s9 & H9 & H). apply tx_bind_ok in H as ([] & s10 & (es & H10 & Hlk)%insert_run_edges_spec & H).
  apply tx_bind_ok in H as ([] & s11 & H11 & H). apply tx_bind_ok in H as (r & s12 & H12 & [= _ <-]).
  assert (orch_of s8 = with_invocation (orch_of s5) id w) as Ho8 by (unfold orch_of in *; congruence).
  pose proof (invocation_reads _ _ _ _ _ H12) as (row & Hrow & Hrec). apply (keeps_invocation orch) in H12.
  fold (orch_of s12) (orch_of s11) in H12. rewrite H12. clear H12.
  change (tx_for _ _) with (tx_for (filter (fun n => is_root st n = true) (sw_nodes st)) (activate_named ids)) in H11.
  pose proof (activate_roots_frame _ _ _ _ _ _ H11) as [Hr11 He11].
  assert (wr_definition_snapshot row = st) as Hst.
  { rewrite Hr11, H10 in Hrow. simpl in Hrow. pose proof (keeps_prepare_nodes _ _ _ _ _ _ _ _ _ _ _ H9) as Hr9.
    change (o_runs (orch_of s8)) with (workflow_runs (tx_db s8)) in *. rewrite Hr9 in Hrow.
    change (workflow_runs (tx_db s8)) with (o_runs (orch_of s8)) in Hrow. rewrite Ho8 in Hrow. simpl in Hrow.
    rewrite lookup_insert_eq in Hrow. by injection Hrow as <-. }
  rewrite Hst in Hrec. apply record_admits in Hrec as [Hwf Hac].
  apply prepare_nodes_loop_spec in H9 as (new & Hdis & Ho9 & Had & _); [|by destruct Hwf].
  rewrite Ho9, Ho8 in H10, Hlk. rewrite Ho8 in Hdis. simpl in Hlk, Hdis, H10.
  destruct Ho as [Ho Hno]. destruct (layout_orchestrated _ id w st new ids es Ho Hno) as [Hl Hc]; try done.
  change (orchestrated_but (omap (fun n => ids !! sn_name n) (filter (fun n => is_root st n = true) (sw_nodes st)))
    (mkOrch (<[id := w]> (workflow_runs (tx_db s5))) (new ∪ workflow_node_runs (tx_db s5)) es)) in Hl.
  rewrite <- H10 in Hl. split; [by eapply activate_roots_spec|]. by eapply no_cycles_edges; [rewrite He11, H10|].
Qed.

End Launch.

(** ** Lemmas: the Run operations leave the graphs alone *)

Section RunOperations.
Context {SJ : SerdeJson} {RF : RustFmt} {PG : PostgresServer} {TC : TimeCrate} {SE : SnapshotEncoding}.

Lemma orch_enqueue now id old new d : orch (enqueue_workflow_completion now id old new d) = orch d.
Proof. unfold enqueue_workflow_completion. by repeat case_match. Qed.

Lemma keeps_update_run texts id cond f : keeps orch (update_run texts id cond f).
Proof. unfold update_run, bind_texts. keeps_tac. apply keeps_modify. intros d. by rewrite orch_enqueue. Qed.

Lemma keeps_update_attempt texts id cond f : keeps orch (update_attempt texts id cond f).
Proof. unfold update_attempt, bind_texts. keeps_tac. Qed.

Lemma keeps_update_outbox texts id cond f : keeps orch (update_outbox texts id cond f).
Proof. unfold update_outbox, bind_texts. keeps_tac. Qed.

Lemma keeps_dispatch run attempt queue deadline : keeps orch (create_attempt_and_outbox run attempt queue deadline).
Proof. unfold create_attempt_and_outbox, insert_attempt, insert_outbox. keeps_tac. Qed.

Ltac keeps_ops := repeat first
  [ apply keeps_statement | apply keeps_check | apply keeps_update_run | apply keeps_update_attempt
  | apply keeps_update_outbox | apply keeps_dispatch
  | apply keeps_create_normal_run; intros; reflexivity | apply keeps_load_selection | apply keeps_render
  | apply keeps_transaction | apply keeps_bind; [|intros ?]
  | apply keeps_for; intros ? | apply keeps_modify; intros ?; reflexivity
  | case_match | apply keeps_step; intros ? ?; reflexivity ].

Lemma keeps_claim_attempt request : keeps orch (claim_attempt request).
Proof. unfold claim_attempt, insert_run_event. keeps_ops. Qed.

Lemma keeps_worker_calls :
  (forall r, keeps orch (renew_lease r)) /\ (forall r, keeps orch (record_attempt_output r))
  /\ (forall r, keeps orch (complete_attempt r)) /\ (forall r, keeps orch (record_worker_heartbeat r)).
Proof.
  repeat split; intros r; [unfold renew_lease|unfold record_attempt_output|unfold complete_attempt|unfold record_worker_heartbeat];
    unfold insert_run_event, bind_texts; keeps_ops.
Qed.

Lemma keeps_outbox_calls :
  (forall o l n, keeps orch (claim_outbox o l n)) /\ (forall o r n, keeps orch (mark_published o r n))
  /\ (forall o i m n, keeps orch (record_publish_failure o i m n)).
Proof.
  repeat split; intros; [unfold claim_outbox|unfold mark_published|unfold record_publish_failure];
    unfold insert_run_event, bind_texts; keeps_ops.
Qed.

Lemma keeps_schedule_calls :
  (forall o l n, keeps orch (claim_due_schedules o l n)) /\ (forall p, keeps orch (commit_schedule_plan p))
  /\ (forall i r e n, keeps orch (set_schedule_enabled i r e n)).
Proof.
  repeat split; intros; [unfold claim_due_schedules|unfold commit_schedule_plan, insert_scheduled_occurrence|unfold set_schedule_enabled];
    unfold insert_run, insert_run_event, insert_schedule_event, bind_texts; keeps_ops.
Qed.

Lemma keeps_request_calls :
  (forall r j t i, keeps orch (create_runs r j t i)) /\ (forall x r, keeps orch (insert_rerun x r)).
Proof.
  assert (forall r ns j a b i, keeps orch (insert_run_request r ns j a b i)) as Hq
    by (intros; unfold insert_run_request; keeps_ops).
  repeat split; intros; [unfold create_runs, create_runs_transaction|unfold insert_rerun, insert_rerun_transaction];
    unfold existing_rerun, find_run_request, compare_run_request, runs_for_request, json_inputs_equal, insert_run, bind_texts, insert_run_event; keeps_ops; try apply Hq; keeps_ops.
Qed.

Lemma keeps_reconcile_transaction locked limit : keeps orch (reconcile_transaction locked limit).
Proof.
  unfold reconcile_transaction, reconcile_expired_dispatches, reconcile_due_retries, reconcile_expired_leases,
    remove_expired_worker_presence, release_expired_claims, expire_dispatch, expire_lease, start_retry,
    insert_run_event. keeps_ops.
Qed.

End RunOperations.

(** ** Histories *)

Section Histories.
Context {SJ : SerdeJson} {RF : RustFmt} {PG : PostgresServer} {TC : TimeCrate} {SE : SnapshotEncoding}.

Lemma keeps_reconcile_edges limit : keeps workflow_run_edges (reconcile_workflows limit).
Proof.
  assert (forall l, keeps workflow_run_edges (complete_nodes l)) as H1.
  { induction l as [|x l IH]; simpl; unfold complete_node, update_node, outgoing; keeps_tac; exact IH. }
  assert (forall fuel l, keeps workflow_run_edges (propagate fuel l)) as H2.
  { induction fuel as [|fuel IH]; intros l; simpl; [by apply keeps_step|]. destruct l as [|x l]; [by apply keeps_step|].
    apply keeps_bind; [|intros more; apply IH]. unfold propagate_one, update_node, outgoing.
    keeps_tac. }
  induction limit as [|limit IH]; simpl; [by apply keeps_step|]. apply keeps_bind; [|intros []; keeps_tac; exact IH].
  apply keeps_transaction. unfold finish. keeps_tac; auto.
Qed.

Lemma keeps_cancel_edges id : keeps workflow_run_edges (cancel_run id).
Proof. apply keeps_transaction. unfold finish. keeps_tac; apply keeps_node_records. Qed.

Lemma reconcile_orchestrated locked limit env s res s' :
  orchestrated (orch_of s) /\ no_cycles (orch_of s) -> reconcile locked limit env s = (res, s') ->
  orchestrated (orch_of s') /\ no_cycles (orch_of s').
Proof.
  intros Ho H. unfold reconcile, tx_bind in H. destruct (reconcile_transaction locked limit env s) as [[n|e] s1] eqn:H1;
    apply keeps_reconcile_transaction in H1; fold (orch_of s1) (orch_of s) in H1; rewrite <- H1 in Ho;
    [|by injection H as <- <-].
  destruct (reconcile_workflows (Z.to_nat limit) env s1) as [r s2] eqn:H2. assert (s' = s2) as -> by (destruct r; by injection H).
  destruct Ho as [Ho Hno]. split; [by eapply reconcile_workflows_orchestrated|].
  refine (no_cycles_edges _ _ _ Hno). exact (keeps_reconcile_edges _ _ _ _ _ H2).
Qed.

Lemma store_step_orch d d' :
  store_step d d' -> orchestrated (orch d) /\ no_cycles (orch d) -> orchestrated (orch d') /\ no_cycles (orch d').
Proof.
  pose proof keeps_worker_calls as (W1 & W2 & W3 & W4). pose proof keeps_outbox_calls as (B1 & B2 & B3).
  pose proof keeps_schedule_calls as (S1 & S2 & S3). pose proof keeps_request_calls as (R1 & R2).
  assert (forall A (m : tx A) res, keeps orch m -> call m d res d' -> orch d' = orch d) as Hk.
  { intros A m res Hm (env & n & u & s' & H & <-). exact (Hm _ _ _ _ H). }
  intros [| | | | | | | | | | | | |locked limit res (env & n & u & s' & H & <-)|launch res (env & n & u & s' & H & <-)
    |id res (env & n & u & s' & H & <-)|Hc%catalog_call_frame] Ho.
  all: try (match goal with H : call ?m _ _ _ |- _ =>
    rewrite (Hk _ m _ ltac:(auto using keeps_claim_attempt) H) end; exact Ho).
  - exact (reconcile_orchestrated _ _ _ (mkTx d n u) _ _ Ho H).
  - exact (start_orchestrated _ _ (mkTx d n u) _ _ Ho H).
  - destruct Ho as [Ho Hno]. split; [exact (cancel_orchestrated _ _ (mkTx d n u) _ _ Ho H)|].
    refine (no_cycles_edges _ _ _ Hno). exact (keeps_cancel_edges _ _ _ _ _ H).
  - unfold orch, executions, launched in *. injection Hc as _ -> -> -> _ _ _ _ _ _. exact Ho.
Qed.

Lemma history_orch d d' :
  rtc store_step d d' -> orchestrated (orch d) /\ no_cycles (orch d) -> orchestrated (orch d') /\ no_cycles (orch d').
Proof. induction 1 as [|d1 d2 d3 H _ IH]; [done|]. intros Ho. by eapply IH, store_step_orch. Qed.

Lemma orchestrated_empty : orchestrated (mkOrch ∅ ∅ ∅) /\ no_cycles (mkOrch ∅ ∅ ∅).
Proof.
  assert (forall a b, ~ depends (mkOrch ∅ ∅ ∅) a b) as Hd by (intros a b [w [c Hc]]; done).
  split; [split; simpl; try done|].
  - by intros x (n & w & Hn & _).
  - by intros w a b [c Hc].
  - intros x Hx. inversion Hx; by eapply Hd.
Qed.

(** An invocation with a pending node has a node that is neither pending nor terminal. *)
Lemma pending_needs_running o id w x n :
  orchestrated o -> no_cycles o -> o_runs o !! id = Some w -> o_nodes o !! x = Some n ->
  nr_workflow_run_id n = id -> nr_state n = NPending ->
  exists y m, o_nodes o !! y = Some m /\ nr_workflow_run_id m = id /\ nr_state m = NRunning.
Proof.
  intros Ho Hno Hw Hx Hid Hp.
  set (pending := filter (fun kv : Uuid * NodeRunRow => nr_workflow_run_id kv.2 = id /\ nr_state kv.2 = NPending)
    (map_to_list (o_nodes o))).
  assert (forall y, y ∈ map fst pending <-> exists m, o_nodes o !! y = Some m /\ nr_workflow_run_id m = id
    /\ nr_state m = NPending) as Hin.
  { intros y. rewrite list_elem_of_fmap. split.
    - intros ([y' m] & -> & [? Hm%elem_of_map_to_list]%list_elem_of_filter). by exists m.
    - intros (m & Hm & ?). exists (y, m). split; [done|]. apply list_elem_of_filter. by rewrite elem_of_map_to_list. }
  destruct (existsb (fun kv : Uuid * NodeRunRow => (nr_workflow_run_id kv.2 =? id)%N && bool_decide (nr_state kv.2 = NRunning))
    (map_to_list (o_nodes o))) eqn:He.
  - apply existsb_exists in He as ([y m] & Hy%list_elem_of_In%elem_of_map_to_list & [Hm%N.eqb_eq Hs%bool_decide_eq_true]%andb_true_iff).
    by exists y, m.
  - exfalso. destruct (finite_descent (depends o) (map fst pending) x) as [z Hz]; [|apply Hin; eauto|by apply (Hno z)].
    intros y (m & Hm & Hmid & Hmp)%Hin. rewrite <- Hmid in Hw.
    assert (wr_cancellation_requested w = false) as Hc.
    { destruct (wr_cancellation_requested w) eqn:Hc; [|done]. by destruct (or_cancelled _ _ Ho _ _ _ Hm Hw Hc). }
    destruct (or_settled _ _ Ho y) as [Hq|[_ ([c st] & (v & a & na & Hea & Hna & Hsa) & Ht)]]; [by exists m, w|by apply elem_of_nil in Hq|].
    simpl in *. exists a. split; [|by exists v]. apply Hin. exists na. split; [done|].
    destruct (or_local _ _ Ho v a y) as (na' & m' & Hna' & Hm' & Hv1 & Hv2); [eauto|].
    assert (nr_workflow_run_id na = id) as Hia by congruence. split; [done|].
    pose proof (or_states _ _ Ho _ _ Hna) as Hnr. destruct (nr_state na) eqn:Hst; try (subst; done).
    assert (existsb (fun kv : Uuid * NodeRunRow => (nr_workflow_run_id kv.2 =? id)%N && bool_decide (nr_state kv.2 = NRunning))
      (map_to_list (o_nodes o)) = true) as Hf; [|congruence].
    apply existsb_exists. exists (a, na). split; [by apply list_elem_of_In, elem_of_map_to_list|].
    simpl. by rewrite Hia, N.eqb_refl, Hst.
Qed.

(** C14: Orchestration loses no completion: in every history of store calls that starts
    before any launch, in any order and with any faults, each pending node of an
    invocation that is not cancelled waits for an open predecessor and is ruled out by
    none, no invocation ends with open nodes, no cancelled one keeps a pending
    node, and the graph of every invocation is acyclic. *)
Theorem orchestration_settles d d' :
  orch d = mkOrch ∅ ∅ ∅ -> rtc store_step d d' -> orchestrated (orch d') /\ no_cycles (orch d').
Proof. intros He Hr. eapply history_orch; [exact Hr|]. rewrite He. exact orchestrated_empty. Qed.

(** Enough fuel makes further fuel useless. *)
Lemma propagate_more k fuel : forall l env s,
  (length l + potential (orch_of s) <= fuel)%nat -> propagate (fuel + k) l env s = propagate fuel l env s.
Proof.
  induction fuel as [|fuel IH]; intros l env s Hf; simpl.
  { destruct l; [|simpl in Hf; lia]. by destruct k. }
  destruct l as [|x l]; [done|]. unfold tx_bind. destruct (propagate_one x env s) as [[more|e] s1] eqn:H1; [|done].
  apply propagate_one_potential in H1. apply IH. rewrite length_app. simpl in Hf. lia.
Qed.

(** C28: Propagation terminates: with the rounds [propagate_fuel] allows, the queue is
    empty at the end unless the database failed, and more rounds change nothing. *)
Theorem propagation_terminates downstream env s fuel :
  (propagate_fuel (tx_db s) downstream <= fuel)%nat ->
  propagate fuel downstream env s = propagate (propagate_fuel (tx_db s) downstream) downstream env s
  /\ fst (propagate fuel downstream env s) <> Ok false.
Proof.
  intros Hf. assert (length downstream + potential (orch_of s) <= propagate_fuel (tx_db s) downstream)%nat as Hp.
  { unfold propagate_fuel. pose proof (potential_bound (orch_of s)). simpl in *. lia. }
  replace fuel with (propagate_fuel (tx_db s) downstream + (fuel - propagate_fuel (tx_db s) downstream))%nat by lia.
  rewrite propagate_more by done. split; [done|].
  destruct (propagate _ downstream env s) as [res s'] eqn:H. simpl. intros ->.
  by apply propagate_ends in H.
Qed.

End Histories.

(** ** Witnesses: a Workflow of two Jobs in sequence *)

Definition example_workflow : DB :=
  set_workflow_tables (fun _ => mkWorkflowTables
    {[ 20%N := {| w_namespace_id := 1; w_name := "nightly"; w_description := None; w_revision := 1;
                  w_created_at := 0; w_updated_at := 0 |} ]}
    {[ 21%N := {| wnr_workflow_id := 20; wnr_name := "extract"; wnr_job_id := 3 |};
       22%N := {| wnr_workflow_id := 20; wnr_name := "load"; wnr_job_id := 3 |} ]}
    {[ (20%N, 21%N, 22%N) := Success ]} ∅ ∅ ∅ ∅ ∅) (Scenario.catalog false).

Definition example_launch : WorkflowLaunch :=
  mkWorkflowLaunch 20 1 60 (SelTarget 4) (VObject []) [4%N].

(** The first Job runs and ends; the orchestrator takes its completion up. *)
Definition w_launched : DB := after (start example_launch) (quiet 1000 100) example_workflow.
Definition w_claimed : DB := after (claim_outbox 7 10 (60 * second)) (quiet 1040 200) w_launched.
Definition w_record : OutboxRecord :=
  {| or_id := 106; or_run_id := 102; or_attempt_id := 105; or_subject := dispatch_subject 2;
     or_payload := mkDispatchEnvelope 106 102 105 2; or_attempt_count := 0 |}.
Definition w_published : DB := after (mark_published 7 w_record 1) (quiet 1050 200) w_claimed.
Definition w_running : DB := after (claim_attempt (mkClaimRequest 102 105 2 "worker-a")) (quiet 1060 200) w_published.
Definition w_completion (ok : bool) : CompletionRequest :=
  mkCompletionRequest 105 "worker-a" ok false (Some (if ok then 0 else 1)) "out" "" None.
Definition w_done (ok : bool) : DB := after (complete_attempt (w_completion ok)) (quiet 1070 200) w_running.
Definition w_reconciled (ok : bool) : DB := after (reconcile (fun _ => false) 10) (quiet 1080 300) (w_done ok).

Definition node_states (d : DB) : list (string * WorkflowNodeState) :=
  map (fun kv : Uuid * NodeRunRow => (nr_name kv.2, nr_state kv.2)) (map_to_list (workflow_node_runs d)).
Definition invocation_state (d : DB) : option WorkflowState := option_map wr_state (workflow_runs d !! 100%N).

Open Scope string_scope.

Example workflow_states :
  map (fun d => (node_states d, invocation_state d)) [w_launched; w_done true; w_reconciled true; w_reconciled false]
  = [([("extract", NRunning); ("load", NPending)], Some WRunning);
     ([("extract", NRunning); ("load", NPending)], Some WRunning);
     ([("extract", NSucceeded); ("load", NRunning)], Some WRunning);
     ([("extract", NFailed); ("load", NSkipped)], Some WFailed)].
Proof. vm_compute. reflexivity. Qed.

Lemma w_record_faithful : record_faithful (core w_claimed) w_record.
Proof. intros o. vm_compute. by intros [= <-]. Qed.

Lemma example_to_done_workflow ok : rtc store_step example_workflow (w_done ok).
Proof.
  eapply rtc_l; [exact (SSWorkflowStart _ _ _ _ (call_after (start example_launch) (quiet 1000 100) example_workflow))|].
  eapply rtc_l; [exact (SSClaimOutbox _ _ _ _ _ _ (call_after (claim_outbox 7 10 (60 * second)) (quiet 1040 200) w_launched))|].
  eapply rtc_l; [exact (SSMarkPublished _ _ _ _ _ _ w_record_faithful
    (call_after (mark_published 7 w_record 1) (quiet 1050 200) w_claimed))|].
  eapply rtc_l; [exact (SSClaimAttempt _ _ _ _ (call_after (claim_attempt (mkClaimRequest 102 105 2 "worker-a"))
    (quiet 1060 200) w_published))|].
  apply rtc_once. exact (SSComplete _ _ _ _ (call_after (complete_attempt (w_completion ok)) (quiet 1070 200) w_running)).
Qed.

Lemma example_to_reconciled ok : rtc store_step example_workflow (w_reconciled ok).
Proof.
  eapply rtc_r; [apply example_to_done_workflow|].
  exact (SSReconcile _ _ _ _ _ (call_after (reconcile (fun _ => false) 10) (quiet 1080 300) (w_done ok))).
Qed.

Lemma orchestration_settles_witness :
  orchestrated (orch (w_reconciled true)) /\ no_cycles (orch (w_reconciled true)).
Proof. apply (orchestration_settles example_workflow); [reflexivity|exact (example_to_reconciled true)]. Defined.

Definition w_tx : Tx := mkTx (w_done false) 0 0.

Lemma propagation_terminates_witness :
  propagate 5 [103%N] (quiet 1080 300) w_tx
  = propagate (propagate_fuel (tx_db w_tx) [103%N]) [103%N] (quiet 1080 300) w_tx
  /\ fst (propagate 5 [103%N] (quiet 1080 300) w_tx) <> Ok false.
Proof.
  assert (propagate_fuel (tx_db w_tx) [103%N] <= 5)%nat as H by (vm_compute; lia).
  exact (propagation_terminates [103%N] (quiet 1080 300) w_tx 5 H).
Defined.
