(* ===== verification/LaunchOnce.v ===== *)
(** * Launch identities of Workflow invocations

    A launch carries an identifier that the client chose.  Whatever calls are
    made, an invocation keeps the identifier it was launched with and no two
    invocations have the same one, so a launch that is sent again is answered
    with the invocation it started. *)

From S2P Require Import Prelude RustStr Json Inputs Names Float Domain Auth Workflow Db Snapshot TxLogic Store WorkflowStore Lifecycle Refinement WorkflowRefinement StoreSystem Scenario StoreBehaviour PlannerTheorems Orchestration Launch.
From Stdlib Require Import String.
From stdpp Require Import base numbers strings gmap list relations.

Local Open Scope Z_scope.

(** The invocations and what they were launched with. *)
Definition requested (d : DB) : gmap Uuid Uuid := wr_request_id <$> workflow_runs d.

Definition one_launch (d : DB) : Prop := forall i j r, requested d !! i = Some r -> requested d !! j = Some r -> i = j.

(** The invariant from a state on: the invocations of that state are still there. *)
Definition launches_kept (old : gmap Uuid Uuid) (d : DB) : Prop := one_launch d /\ old ⊆ requested d.

Lemma launches_kept_same old d d' : requested d' = requested d -> launches_kept old d -> launches_kept old d'.
Proof. unfold launches_kept, one_launch. by intros ->. Qed.

Lemma requested_orch d d' : orch d' = orch d -> requested d' = requested d.
Proof. intros H. unfold requested. change (workflow_runs d') with (o_runs (orch d')). by rewrite H. Qed.

Lemma requested_alter f id d : (forall w, wr_request_id (f w) = wr_request_id w) ->
  requested (set_workflow_runs (alter f id) d) = requested d.
Proof.
  intros Hf. unfold requested. change (workflow_runs (set_workflow_runs (alter f id) d)) with (alter f id (workflow_runs d)).
  apply map_eq. intros i. rewrite !lookup_fmap. destruct (decide (id = i)) as [->|Hne].
  - rewrite lookup_alter_eq. destruct (workflow_runs d !! i); simpl; [by rewrite Hf|done].
  - by rewrite lookup_alter_ne.
Qed.

Section LaunchOnce.
Context {SJ : SerdeJson} {RF : RustFmt} {PG : PostgresServer} {TC : TimeCrate} {SE : SnapshotEncoding}.

Lemma keeps_requested {A} (m : tx A) : keeps orch m -> keeps requested m.
Proof. intros Hm env s res s' H. apply requested_orch. by eapply Hm. Qed.

Lemma invocation_set_row d id w state c fin :
  workflow_runs d !! id = Some w -> requested (set_workflow_runs (<[id := invocation_set w state c fin]>) d) = requested d.
Proof.
  intros Hw. unfold requested. change (workflow_runs (set_workflow_runs (<[id := ?x]>) d)) with (<[id := x]> (workflow_runs d)).
  rewrite fmap_insert. apply insert_id. by rewrite lookup_fmap, Hw.
Qed.

Lemma keeps_finish id : keeps requested (finish id).
Proof.
  intros env s res s' H. unfold finish, tx_bind in H. destruct (statement env s) as [[now|e] s1] eqn:Hs;
    apply statement_db in Hs; [|injection H as <- <-; by rewrite Hs]. simpl in H. rewrite <- Hs. clear Hs.
  destruct (workflow_runs (tx_db s1) !! id) as [w|] eqn:Hw; [|by injection H as <- <-].
  destruct (_ && _); injection H as <- <-; [|done]. by apply invocation_set_row.
Qed.

#[local] Opaque finish.

Lemma keeps_reconcile_requested limit : keeps requested (reconcile_workflows limit).
Proof.
  assert (forall l, keeps requested (complete_nodes l)) as H1.
  { induction l as [|x l IH]; simpl; unfold complete_node, update_node, outgoing; keeps_tac; exact IH. }
  assert (forall fuel l, keeps requested (propagate fuel l)) as H2.
  { induction fuel as [|fuel IH]; intros l; simpl; [by apply keeps_step|]. destruct l as [|x l]; [by apply keeps_step|].
    apply keeps_bind; [|intros more; apply IH]. unfold propagate_one, update_node, outgoing. keeps_tac. }
  induction limit as [|limit IH]; simpl; [by apply keeps_step|]. apply keeps_bind; [|intros []; keeps_tac; exact IH].
  apply keeps_transaction. keeps_tac; auto using keeps_finish.
Qed.

Lemma keeps_cancel_requested id : keeps requested (cancel_run id).
Proof.
  apply keeps_transaction. keeps_tac; first [apply keeps_finish | apply keeps_node_records | idtac].
  apply keeps_modify. intros d. by apply requested_alter.
Qed.

(** ** What a launch does to the identities *)

Definition launch_effect (launch : WorkflowLaunch) (m m' : gmap Uuid Uuid) (answer : WorkflowRunRecord * bool) : Prop :=
  let '(r, created) := answer in
  if created then (forall i, m !! i <> Some (wl_request_id launch)) /\ m !! wrr_id r = None
                  /\ m' = <[wrr_id r := wl_request_id launch]> m
  else m' = m /\ m !! wrr_id r = Some (wl_request_id launch).

Lemma launch_effect_found launch m m' answer : launch_effect launch m m' answer ->
  m' !! wrr_id answer.1 = Some (wl_request_id launch).
Proof. destruct answer as [r []]; simpl; [intros (_ & _ & ->); apply lookup_insert_eq|by intros [-> H]]. Qed.

Lemma launch_effect_kept launch old d d' answer :
  launch_effect launch (requested d) (requested d') answer -> launches_kept old d -> launches_kept old d'.
Proof.
  destruct answer as [r []]; simpl; [|by intros [H _]; apply launches_kept_same].
  intros (Hfree & Hid & H) [Hone Hold]. unfold launches_kept, one_launch. rewrite H. split.
  - intros i j q. rewrite !lookup_insert_Some. intros [[<- <-]|[_ Hi]] [[<- Hj]|[_ Hj]]; [done|by apply Hfree in Hj|subst; by apply Hfree in Hi|].
    by eapply Hone.
  - etrans; [exact Hold|]. by apply insert_subseteq.
Qed.

Lemma invocation_for_request_some d q id : invocation_for_request d q = Some id -> requested d !! id = Some q.
Proof.
  unfold invocation_for_request, requested. rewrite lookup_fmap. intros H%head_Some_elem_of.
  apply list_elem_of_omap in H as ([i w] & Hi%elem_of_map_to_list & H). simpl in H. destruct (N.eqb_spec (wr_request_id w) q) as [<-|]; [|done].
  injection H as ->. by rewrite Hi.
Qed.

Lemma invocation_id id v env s r s' : invocation id v env s = (Ok r, s') -> wrr_id r = id.
Proof.
  intros H. unfold invocation in H. do 3 (apply tx_bind_ok in H as (? & ? & _ & H)). simpl in H. destruct (negb _); [done|].
  do 6 (apply tx_bind_ok in H as (? & ? & _ & H)). by injection H as <- _.
Qed.

Lemma insert_invocation_effect id def launch env s s' :
  insert_invocation id def launch env s = (Ok (), s') ->
  (forall i, requested (tx_db s) !! i <> Some (wl_request_id launch)) /\ requested (tx_db s) !! id = None
  /\ requested (tx_db s') = <[id := wl_request_id launch]> (requested (tx_db s)).
Proof.
  intros H. unfold insert_invocation in H. destruct (selection_ids (wl_target launch)) as [tid tsid].
  apply tx_bind_ok in H as (now & s1 & H1%(keeps_statement (fun d => d)) & H). apply tx_bind_ok in H as ([] & s1' & [_ ->]%check_ok & H).
  apply tx_bind_ok in H as (d & s1' & [= <- <-] & H).
  apply tx_bind_ok in H as ([] & s2 & [_ ->]%check_ok & H). apply tx_bind_ok in H as ([] & s2 & [Hfree ->]%check_ok & H).
  apply tx_bind_ok in H as ([] & s2 & [_ ->]%check_ok & [= <-]). rewrite <- H1. clear H1.
  apply andb_true_iff in Hfree as [Hid Hq]. apply negb_true_iff in Hid, Hq. apply bool_decide_eq_false in Hid.
  unfold requested. split; [|split].
  - intros i Hi. rewrite lookup_fmap in Hi. destruct (workflow_runs (tx_db s1) !! i) as [w|] eqn:Hw; [|done]. injection Hi as Hi.
    eapply not_true_iff_false in Hq. apply Hq, existsb_exists. exists (i, w). split; [|by apply N.eqb_eq].
    by apply list_elem_of_In, elem_of_map_to_list.
  - rewrite lookup_fmap. by apply eq_None_not_Some in Hid as ->.
  - etrans; [exact (fmap_insert wr_request_id (workflow_runs (tx_db s1)) id _)|reflexivity].
Qed.

Lemma keeps_launch_edges id ids edges : keeps requested (tx_for edges (insert_run_edge id ids)).
Proof. apply keeps_for. intros e. unfold insert_run_edge. keeps_tac. Qed.

Lemma keeps_launch_roots ids nodes : keeps requested (tx_for nodes (activate_named ids)).
Proof. apply keeps_for. intros n. unfold activate_named. apply keeps_bind; [by apply keeps_step|intros x]. by apply keeps_activate. Qed.

Lemma keeps_launch_nodes id def launch : keeps requested (prepare_nodes id def launch).
Proof. intros env s res s' H. unfold requested. by rewrite (keeps_prepare_nodes _ _ _ _ _ _ _ _ _ _ _ H). Qed.

Lemma replay_effect launch id env s r s' :
  replay launch id env s = (Ok r, s') -> requested (tx_db s') = requested (tx_db s) /\ wrr_id r = id.
Proof.
  intros H. split; [exact (keeps_replay requested _ _ _ _ _ _ H)|]. unfold replay in H.
  apply tx_bind_ok in H as (r0 & s1 & H1%invocation_id & H). destruct (_ || _); [done|].
  apply tx_bind_ok in H as (same & s2 & _ & H). destruct same; [|done]. by injection H as <- _.
Qed.

(** The body of [start]. *)
Lemma start_body launch : exists body, start launch = transaction body
  /\ forall env s out s', body env s = (Ok out, s') ->
       exists answer, out = Commit answer /\ launch_effect launch (requested (tx_db s)) (requested (tx_db s')) answer.
Proof.
  eexists. split; [reflexivity|]. intros env s out s' H.
  apply tx_bind_ok in H as (n1 & s2 & H2%(keeps_statement requested) & H). apply tx_bind_ok in H as (n2 & s3 & H3%(keeps_statement requested) & H).
  apply tx_bind_ok in H as (d & s3' & [= <- <-] & H). rewrite <- H2, <- H3. clear H2 H3.
  destruct (invocation_for_request (tx_db s3) (wl_request_id launch)) as [old|] eqn:Hold.
  { apply invocation_for_request_some in Hold. apply tx_bind_ok in H as (r & s4 & [H4 <-]%replay_effect & [= <- <-]).
    exists (r, false). by rewrite H4. }
  apply tx_bind_ok in H as (st & s4 & <-%(keeps_catalog requested) & H). destruct (negb _); [done|].
  apply tx_bind_ok in H as (id & s5 & <-%(keeps_fresh_uuid requested) & H).
  apply tx_bind_ok in H as ([] & s6 & (Hfree & Hid & H6)%insert_invocation_effect & H).
  apply tx_bind_ok in H as (n7 & s7 & H7%(keeps_statement requested) & H). apply tx_bind_ok in H as (n8 & s8 & H8%(keeps_statement requested) & H).
  apply tx_bind_ok in H as (ids & s9 & H9%keeps_launch_nodes & H). apply tx_bind_ok in H as ([] & s10 & H10%keeps_launch_edges & H).
  apply tx_bind_ok in H as ([] & s11 & H11%keeps_launch_roots & H). apply tx_bind_ok in H as (r & s12 & H12 & [= <- <-]).
  exists (r, true). split; [done|]. simpl. rewrite (invocation_id _ _ _ _ _ _ H12). apply (keeps_invocation requested) in H12.
  split; [done|]. split; [done|]. congruence.
Qed.

(** A transaction that answered without an error has committed what its body did. *)
Lemma transaction_answer {A} (body : tx (outcome A)) env s a s' :
  (forall s1 out s2, body env s1 = (Ok out, s2) -> exists b, out = Commit b) -> transaction body env s = (Ok a, s') ->
  exists s1 s2, tx_db s1 = tx_db s /\ body env s1 = (Ok (Commit a), s2) /\ tx_db s' = tx_db s2.
Proof.
  intros Hb. unfold transaction. destruct (tx_bind statement (fun _ => body) env s) as [[out|e] s2] eqn:H; [|done].
  apply tx_bind_ok in H as (now & s1 & H1%statement_db & H). destruct (Hb _ _ _ H) as [b ->].
  destruct (e_fault env (tx_statements s2)); [done|]. intros [= -> <-]. by exists s1, s2.
Qed.

Lemma start_effect launch d answer d' :
  call (start launch) d (Ok answer) d' -> launch_effect launch (requested d) (requested d') answer.
Proof.
  intros (env & n & u & s' & H & <-). destruct (start_body launch) as (body & Heq & Hbody). rewrite Heq in H.
  apply transaction_answer in H as (s1 & s2 & Hs1 & H & ->).
  - apply Hbody in H as (b & [= <-] & H). by rewrite Hs1 in H.
  - intros s1 out s2 (b & -> & _)%Hbody. by exists b.
Qed.

Lemma start_kept old launch : all_pres (launches_kept old) (start launch).
Proof.
  destruct (start_body launch) as (body & -> & Hbody). apply all_pres_transaction. intros env s out s' H.
  apply Hbody in H as (answer & _ & H). by apply (launch_effect_kept _ _ _ _ _ H).
Qed.

(** ** Histories *)

Lemma keeps_reconcile_all locked limit : keeps requested (reconcile locked limit).
Proof.
  apply keeps_bind; [apply keeps_requested, keeps_reconcile_transaction|intros n].
  apply keeps_bind; [apply keeps_reconcile_requested|intros m; by apply keeps_step].
Qed.

Lemma store_step_launches old d d' : store_step d d' -> launches_kept old d -> launches_kept old d'.
Proof.
  pose proof keeps_worker_calls as (W1 & W2 & W3 & W4). pose proof keeps_outbox_calls as (B1 & B2 & B3).
  pose proof keeps_schedule_calls as (S1 & S2 & S3). pose proof keeps_request_calls as (R1 & R2).
  assert (forall A (m : tx A) res, keeps requested m -> call m d res d' -> launches_kept old d -> launches_kept old d') as Hk.
  { intros A m res Hm (env & n & u & s' & H & <-). apply launches_kept_same. exact (Hm _ _ _ _ H). }
  intros [| | | | | | | | | | | | | |launch res (env & n & u & s' & H & <-)| |Hc%catalog_call_frame].
  all: try (match goal with H : call ?m _ _ _ |- _ =>
    exact (Hk _ m _ ltac:(auto using keeps_requested, keeps_claim_attempt, keeps_reconcile_all, keeps_cancel_requested) H) end).
  - exact (start_kept old launch _ (mkTx d n u) _ _ H).
  - apply launches_kept_same, requested_orch. unfold orch, executions, launched in *. injection Hc as _ -> -> -> _ _ _ _ _ _. done.
Qed.

Lemma history_launches old d d' : rtc store_step d d' -> launches_kept old d -> launches_kept old d'.
Proof. induction 1 as [|d1 d2 d3 H _ IH]; [done|]. intros Hd. eapply IH, store_step_launches; done. Qed.

(** C15: In every history that starts where no two invocations share a launch
    identifier, no two ever do; and when a launch was answered, sending it again
    (the same identifier, however much later and with whatever other calls in
    between) is either refused or answered with that same invocation, marked as
    not created, and starts no other one. *)
Theorem launched_once d0 d launch answer d1 d2 again answer' d3 :
  workflow_runs d0 = ∅ -> rtc store_step d0 d -> call (start launch) d (Ok answer) d1 -> rtc store_step d1 d2 ->
  wl_request_id again = wl_request_id launch -> call (start again) d2 (Ok answer') d3 ->
  one_launch d3 /\ wrr_id answer'.1 = wrr_id answer.1 /\ answer'.2 = false /\ requested d3 = requested d2.
Proof.
  intros H0 Hpre Hfirst Hmid Hsame Hagain.
  assert (launches_kept ∅ d) as [Hd _].
  { eapply history_launches; [exact Hpre|]. unfold launches_kept, one_launch, requested. rewrite H0. split; [done|apply map_empty_subseteq]. }
  apply start_effect in Hfirst, Hagain.
  assert (launches_kept (requested d1) d1) as Hd1.
  { split; [|done]. by apply (launch_effect_kept _ ∅ _ _ _ Hfirst); split; [|apply map_empty_subseteq]. }
  apply (history_launches _ _ _ Hmid) in Hd1 as [Hone Hsub].
  assert (requested d2 !! wrr_id answer.1 = Some (wl_request_id launch)) as Hkept
    by (eapply lookup_weaken; [by eapply launch_effect_found|done]).
  assert (one_launch d3) as Hd3.
  { by apply (launch_effect_kept _ ∅ _ _ _ Hagain); split; [|apply map_empty_subseteq]. }
  destruct answer' as [r' []]; simpl in *; rewrite Hsame in Hagain.
  - destruct Hagain as (Hno & _). by apply Hno in Hkept.
  - destruct Hagain as [Heq Hr]. split; [done|]. split; [|done]. by eapply Hone.
Qed.
End LaunchOnce.

(** ** An instance *)

Definition w_again : DB := after (start example_launch) (quiet 1090 300) (w_reconciled true).

Lemma w_after_launch : rtc store_step w_launched (w_reconciled true).
Proof.
  eapply rtc_l; [exact (SSClaimOutbox _ _ _ _ _ _ (call_after (claim_outbox 7 10 (60 * second)) (quiet 1040 200) w_launched))|].
  eapply rtc_l; [exact (SSMarkPublished _ _ _ _ _ _ w_record_faithful
    (call_after (mark_published 7 w_record 1) (quiet 1050 200) w_claimed))|].
  eapply rtc_l; [exact (SSClaimAttempt _ _ _ _ (call_after (claim_attempt (mkClaimRequest 102 105 2 "worker-a"))
    (quiet 1060 200) w_published))|].
  eapply rtc_l; [exact (SSComplete _ _ _ _ (call_after (complete_attempt (w_completion true)) (quiet 1070 200) w_running))|].
  apply rtc_once. exact (SSReconcile _ _ _ _ _ (call_after (reconcile (fun _ => false) 10) (quiet 1080 300) (w_done true))).
Qed.

Lemma launched_once_witness :
  exists first second, Scenario.answer (start example_launch) (quiet 1000 100) example_workflow = Ok first
  /\ Scenario.answer (start example_launch) (quiet 1090 300) (w_reconciled true) = Ok second
  /\ first.2 = true /\ second.2 = false /\ wrr_id second.1 = wrr_id first.1
  /\ requested w_again = {[100%N := wl_request_id example_launch]}.
Proof.
  destruct (Scenario.answer (start example_launch) (quiet 1000 100) example_workflow) as [first|e] eqn:H1; [|vm_compute in H1; discriminate].
  destruct (Scenario.answer (start example_launch) (quiet 1090 300) (w_reconciled true)) as [second|e] eqn:H2; [|vm_compute in H2; discriminate].
  exists first, second. split; [done|]. split; [done|].
  destruct (launched_once example_workflow example_workflow example_launch first w_launched (w_reconciled true) example_launch
    second w_again) as (_ & Hid & Hcreated & Hreq).
  - reflexivity.
  - apply rtc_refl.
  - by apply call_ok.
  - apply w_after_launch.
  - reflexivity.
  - by apply call_ok.
  - split; [vm_compute in H1; by injection H1 as <-|]. split; [done|]. split; [done|]. rewrite Hreq. vm_compute. reflexivity.
Defined.
