(* ===== verification/Completion.v ===== *)
(** * No completion is lost

    The trigger [runs_workflow_completion], the activation of nodes and the
    orchestrator together keep every running node either with an open Run or
    with a completion event in the queue, whatever the other calls do. *)

From S2P Require Import Prelude RustStr Json Inputs Names Float Domain Auth Workflow Db Snapshot TxLogic Store WorkflowStore Lifecycle Refinement WorkflowRefinement StoreSystem Scenario StoreBehaviour PlannerTheorems Orchestration Launch.
From Stdlib Require Import String.
From stdpp Require Import base numbers strings sorting gmap list relations.

Local Open Scope Z_scope.

(** ** The invariant *)

(** A Run of the node that has not ended. *)
Definition open_child (d : DB) (node : Uuid) : Prop :=
  exists t e r row, workflow_node_executions d !! (node, t) = Some e /\ ne_run_id e = Some r
    /\ runs (core d) !! r = Some row /\ is_terminal (r_status row) = false.

(** A completion event of the node, other than the events [E]. *)
Definition queued_event (E : list Uuid) (d : DB) (node : Uuid) : Prop :=
  exists r ev, workflow_completion_events d !! r = Some ev /\ r ∉ E /\ ce_node_run_id ev = node.

(** Up to the events [E], the nodes [N] that need an event and the nodes [U] without executions. *)
Record completions_but (E N U : list Uuid) (d : DB) : Prop := {
  cq_unique : forall k k' e e', workflow_node_executions d !! k = Some e -> workflow_node_executions d !! k' = Some e' ->
    ne_prospective_run_id e = ne_prospective_run_id e' -> k = k';
  cq_run : forall k e r, workflow_node_executions d !! k = Some e -> ne_run_id e = Some r ->
    r = ne_prospective_run_id e /\ is_Some (runs (core d) !! r);
  cq_node : forall k e, workflow_node_executions d !! k = Some e -> is_Some (workflow_node_runs d !! k.1);
  cq_prepared : forall node n, workflow_node_runs d !! node = Some n ->
    node ∈ U \/ exists t, is_Some (workflow_node_executions d !! (node, t));
  cq_event : forall r ev, workflow_completion_events d !! r = Some ev ->
    exists t e n, workflow_node_executions d !! (ce_node_run_id ev, t) = Some e /\ ne_run_id e = Some r
      /\ workflow_node_runs d !! ce_node_run_id ev = Some n /\ nr_workflow_run_id n = ce_workflow_run_id ev;
  cq_queued : forall node n, workflow_node_runs d !! node = Some n -> nr_state n = NRunning ->
    open_child d node \/ queued_event E d node \/ node ∈ N;
}.

Definition completions_ok (d : DB) : Prop := completions_but [] [] [] d.

(** The tables the invariant reads. *)
Definition followed (d : DB) :=
  (runs (core d), workflow_node_runs d, workflow_node_executions d, workflow_completion_events d).

Lemma completions_ext E N U d d' : followed d' = followed d -> completions_but E N U d -> completions_but E N U d'.
Proof.
  unfold followed. intros [= H1 H2 H3 H4] [Hu Hr Hn Hp He Hq]. split; unfold open_child, queued_event.
  all: rewrite ?H1, ?H2, ?H3, ?H4; done.
Qed.

Lemma keeps_pres {A} E N U (m : tx A) : keeps followed m -> all_pres (completions_but E N U) m.
Proof. intros Hm env s res s' H. apply completions_ext. by eapply Hm. Qed.

(** ** Lemmas: the statements that write Runs *)

Lemma open_child_insert d node id row :
  open_child d node -> runs (core d) !! id = None -> open_child (set_runs (<[id := row]>) d) node.
Proof.
  intros (t & e & r & row0 & He & Hr & Hrow & Ht) Hid. exists t, e, r, row0. split; [done|]. split; [done|].
  split; [|done]. simpl. rewrite lookup_insert_ne; [done|congruence].
Qed.

Lemma completions_insert_run E N U d id row :
  completions_but E N U d -> runs (core d) !! id = None -> completions_but E N U (set_runs (<[id := row]>) d).
Proof.
  intros [Hu Hr Hn Hp He Hq] Hid. split; [exact Hu| |exact Hn|exact Hp|exact He|].
  - intros k e r Hk He'. destruct (Hr k e r Hk He') as [-> Hs]. split; [done|]. simpl.
    destruct (decide (ne_prospective_run_id e = id)) as [->|]; [by rewrite lookup_insert_eq|by rewrite lookup_insert_ne].
  - intros node n Hnode Hst. destruct (Hq node n Hnode Hst) as [Ho|[Ho|Ho]]; [left|right; left|right; right].
    + by apply open_child_insert.
    + exact Ho.
    + exact Ho.
Qed.

Lemma executions_of_run_elem d run k :
  k ∈ executions_of_run d run <-> exists e, workflow_node_executions d !! k = Some e /\ ne_run_id e = Some run.
Proof.
  unfold executions_of_run. rewrite list_elem_of_omap. split.
  - intros ([k' e] & Hin%elem_of_map_to_list & H). simpl in H. case_bool_decide as Hr; [|done]. injection H as <-. eauto.
  - intros (e & Hk & Hr). exists (k, e). split; [by apply elem_of_map_to_list|]. simpl. by rewrite bool_decide_true.
Qed.

Section Update.
Variables (d : DB) (now : Instant) (id : Uuid) (r r' : RunRow).
Hypothesis Hok : completions_ok d.
Hypothesis Hid : runs (core d) !! id = Some r.

Definition updated : DB := enqueue_workflow_completion now id (r_status r) (r_status r') (set_runs (<[id := r']>) d).

Lemma updated_tables :
  runs (core updated) = <[id := r']> (runs (core d)) /\ workflow_node_runs updated = workflow_node_runs d
  /\ workflow_node_executions updated = workflow_node_executions d
  /\ (workflow_completion_events updated = workflow_completion_events d
      \/ exists node t e n, workflow_node_executions d !! (node, t) = Some e /\ ne_run_id e = Some id
           /\ workflow_node_runs d !! node = Some n /\ workflow_completion_events d !! id = None
           /\ workflow_completion_events updated
              = <[id := mkCompletionEventRow (nr_workflow_run_id n) node now]> (workflow_completion_events d)).
Proof.
  unfold updated, enqueue_workflow_completion. destruct (_ && _); [|auto].
  pose proof (executions_of_run_elem (set_runs (<[id:=r']>) d) id) as Hel.
  destruct (executions_of_run (set_runs (<[id:=r']>) d) id) as [|[node t] l]; [auto|].
  destruct (proj1 (Hel (node, t))) as (e & He & Hr); [left|].
  change (workflow_node_runs (set_runs (<[id:=r']>) d)) with (workflow_node_runs d).
  change (workflow_completion_events (set_runs (<[id:=r']>) d)) with (workflow_completion_events d).
  destruct (workflow_node_runs d !! node) as [n|] eqn:Hn; [|auto].
  destruct (workflow_completion_events d !! id) as [ev|] eqn:Hev; [auto|].
  split; [done|]. split; [done|]. split; [done|]. right. by exists node, t, e, n.
Qed.

(** A Run of a node that ends leaves an event for the node. *)
Lemma updated_event node t e n :
  workflow_node_executions d !! (node, t) = Some e -> ne_run_id e = Some id -> workflow_node_runs d !! node = Some n ->
  r_status r <> r_status r' -> is_terminal (r_status r') = true -> queued_event [] updated node.
Proof.
  intros He Hr Hn Hne Hterm. pose proof Hok as [Hu Hrun _ _ Hevent _].
  assert (forall k e', workflow_node_executions d !! k = Some e' -> ne_run_id e' = Some id -> k = (node, t)) as Huniq.
  { intros k e' Hk Hr'. apply (Hu k (node, t) e' e Hk He). destruct (Hrun _ _ _ Hk Hr'), (Hrun _ _ _ He Hr). congruence. }
  unfold queued_event. destruct (workflow_completion_events d !! id) as [ev|] eqn:Hev.
  - destruct (Hevent id ev Hev) as (t' & e' & n' & He' & Hr' & _). pose proof (Huniq _ _ He' Hr') as [= Hnode _].
    exists id, ev. split; [|split; [apply not_elem_of_nil|done]].
    destruct updated_tables as (_ & _ & _ & [->|(x & y & ? & ? & _ & _ & _ & Hnone & _)]); [done|congruence].
  - exists id, (mkCompletionEventRow (nr_workflow_run_id n) node now). split; [|split; [apply not_elem_of_nil|done]].
    unfold updated, enqueue_workflow_completion. rewrite bool_decide_true, Hterm by done. simpl.
    pose proof (executions_of_run_elem (set_runs (<[id:=r']>) d) id) as Hel.
    destruct (executions_of_run (set_runs (<[id:=r']>) d) id) as [|k l].
    + exfalso. by apply (not_elem_of_nil (node, t)), Hel; exists e.
    + destruct (proj1 (Hel k)) as (e' & He' & Hr'); [left|]. pose proof (Huniq k e' He' Hr') as ->.
      change (workflow_node_runs (set_runs (<[id:=r']>) d)) with (workflow_node_runs d).
      change (workflow_completion_events (set_runs (<[id:=r']>) d)) with (workflow_completion_events d). rewrite Hn, Hev.
      apply lookup_insert_eq.
Qed.

Lemma completions_update_run : completions_ok updated.
Proof.
  pose proof Hok as [Hu Hrun Hnd Hp Hevent Hq]. pose proof updated_tables as (Hruns & Hnodes & Hexec & Hev).
  split; rewrite ?Hnodes, ?Hexec; [exact Hu| |exact Hnd|exact Hp| |].
  - intros k e x Hk Hx. destruct (Hrun k e x Hk Hx) as [-> Hs]. split; [done|]. rewrite Hruns.
    destruct (decide (ne_prospective_run_id e = id)) as [->|]; [by rewrite lookup_insert_eq|by rewrite lookup_insert_ne].
  - intros x ev Hx. destruct Hev as [Hsame|(node & t & e & n & He & Hr & Hn & _ & Hins)]; [rewrite Hsame in Hx; by apply Hevent|].
    rewrite Hins in Hx. apply lookup_insert_Some in Hx as [[<- <-]|[_ Hx]]; [|by apply Hevent]. simpl. by exists t, e, n.
  - intros node n Hn Hst. destruct (Hq node n Hn Hst) as [(t & e & x & row & He & Hx & Hrow & Hopen)|[(x & ev & Hx & _ & Hnode)|Hf]].
    + destruct (decide (x = id)) as [->|Hne].
      * assert (row = r) as -> by congruence. destruct (is_terminal (r_status r')) eqn:Ht.
        -- right. left. eapply updated_event; [done|done|done| |done]. intros Heq. rewrite Heq in Hopen. congruence.
        -- left. exists t, e, id, r'. rewrite Hexec, Hruns, lookup_insert_eq. done.
      * left. exists t, e, x, row. rewrite Hexec, Hruns, lookup_insert_ne by done. done.
    + right. left. exists x, ev. split; [|split; [apply not_elem_of_nil|done]].
      destruct Hev as [->|(y & t & e & m & _ & _ & _ & Hnone & ->)]; [done|]. rewrite lookup_insert_ne; [done|congruence].
    + by apply elem_of_nil in Hf.
Qed.

End Update.

Lemma pres_update_run texts id cond f : pres completions_ok (update_run texts id cond f).
Proof.
  intros env s a s' H Hok. unfold update_run in H. apply tx_bind_ok in H as (now & s1 & H1%(keeps_statement (fun d => d)) & H).
  apply tx_bind_ok in H as ([] & s2 & [_ ->]%check_ok & H). apply tx_bind_ok in H as (d & s2 & [= <- <-] & H).
  rewrite H1 in H. destruct (runs (core (tx_db s)) !! id) as [r|] eqn:Hr; [|injection H as <- <-; by rewrite H1].
  destruct (cond r); [|injection H as <- <-; by rewrite H1]. apply tx_bind_ok in H as ([] & s3 & [_ ->]%check_ok & H).
  apply tx_bind_ok in H as ([] & s3 & [= <-] & [= <- <-]). simpl. rewrite H1. by apply completions_update_run.
Qed.

Lemma pres_insert_run E N U id dn row : pres (completions_but E N U) (insert_run id dn row).
Proof.
  intros env s a s' H Hok. unfold insert_run in H. apply tx_bind_ok in H as (now & s1 & H1%(keeps_statement (fun d => d)) & H).
  apply tx_bind_ok in H as (d & s2 & [= <- <-] & H). apply tx_bind_ok in H as ([] & s2 & [_ ->]%check_ok & H).
  apply tx_bind_ok in H as ([] & s2 & [_ ->]%check_ok & H). destruct (dn && _); [injection H as <- <-; by rewrite H1|].
  apply tx_bind_ok in H as ([] & s2 & [Hf ->]%check_ok & H). apply tx_bind_ok in H as ([] & s2 & [_ ->]%check_ok & H).
  apply tx_bind_ok in H as ([] & s2 & [_ ->]%check_ok & H). apply tx_bind_ok in H as ([] & s2 & [_ ->]%check_ok & H).
  apply tx_bind_ok in H as ([] & s2 & [= <-] & [= <- <-]). simpl. rewrite H1 in *.
  apply completions_insert_run; [done|]. by apply negb_true_iff, bool_decide_eq_false, eq_None_not_Some in Hf.
Qed.

(** Statements that leave Runs and launched Workflows alone. *)
Ltac keeps_pres := apply all_pres_pres, keeps_pres; unfold insert_attempt, insert_outbox, insert_run_event,
  insert_schedule_event, insert_run_request, bind_texts, update_attempt, update_outbox; keeps_tac.

Lemma pres_step {A} E N U (m : tx A) : (forall env s, tx_db (snd (m env s)) = tx_db s) -> pres (completions_but E N U) m.
Proof. intros Hm. by apply all_pres_pres, keeps_pres, keeps_step. Qed.

Lemma pres_dispatch E N U run attempt queue deadline :
  pres (completions_but E N U) (create_attempt_and_outbox run attempt queue deadline).
Proof. unfold create_attempt_and_outbox. keeps_pres. Qed.

Lemma pres_create_normal_run E N U p : pres (completions_but E N U) (create_normal_run p).
Proof.
  apply pres_bind; [apply pres_insert_run|intros i]. apply pres_bind; [apply pres_dispatch|intros []]. keeps_pres.
Qed.

Lemma pres_update_attempt E N U texts id cond f : pres (completions_but E N U) (update_attempt texts id cond f).
Proof. keeps_pres. Qed.

Lemma pres_update_outbox E N U texts id cond f : pres (completions_but E N U) (update_outbox texts id cond f).
Proof. keeps_pres. Qed.

Lemma pres_run_event E N U run event detail : pres (completions_but E N U) (insert_run_event run event detail).
Proof. keeps_pres. Qed.

Lemma pres_schedule_event E N U s event t detail : pres (completions_but E N U) (insert_schedule_event s event t detail).
Proof. keeps_pres. Qed.

Lemma pres_run_request E N U r ns j a b i : pres (completions_but E N U) (insert_run_request r ns j a b i).
Proof. keeps_pres. Qed.

Lemma pres_statement E N U : pres (completions_but E N U) statement.
Proof. apply all_pres_pres, keeps_pres, keeps_statement. Qed.

Lemma pres_check E N U b e : pres (completions_but E N U) (check b e).
Proof. apply all_pres_pres, keeps_pres, keeps_check. Qed.

Lemma pres_modify E N U g : (forall d, followed (g d) = followed d) -> pres (completions_but E N U) (tx_modify g).
Proof. intros H. by apply all_pres_pres, keeps_pres, keeps_modify. Qed.

Ltac pres_ops := repeat first
  [ apply pres_statement | apply pres_check | apply pres_update_run | apply pres_update_attempt | apply pres_update_outbox
  | apply pres_dispatch | apply pres_create_normal_run | apply pres_insert_run | apply pres_run_event
  | apply pres_schedule_event | apply pres_run_request | apply pres_bind; [|intros ?] | apply pres_for; intros ?
  | apply pres_modify; intros ?; reflexivity | case_match | apply pres_step; intros ? ?; reflexivity ].

Section Operations.
Context {SJ : SerdeJson} {RF : RustFmt} {PG : PostgresServer} {TC : TimeCrate} {SE : SnapshotEncoding}.

Lemma pres_selection E N U job target : pres (completions_but E N U) (load_selection_executions job target).
Proof. apply all_pres_pres, keeps_pres, keeps_load_selection. Qed.

Lemma create_runs_completions r j t i : all_pres completions_ok (create_runs r j t i).
Proof.
  assert (all_pres completions_ok (create_runs_transaction r j t i)) as Hc.
  { apply all_pres_transaction. apply pres_bind; [apply pres_selection|intros [ex si]].
    apply pres_bind; [apply all_pres_pres, keeps_pres, keeps_render|intros snaps]. pres_ops. }
  unfold create_runs. apply all_pres_bind; [apply keeps_pres; unfold find_run_request; keeps_tac|intros [x|]].
  - apply keeps_pres. unfold compare_run_request, runs_for_request, json_inputs_equal. keeps_tac.
  - apply all_pres_bind; [exact Hc|intros b]. apply keeps_pres.
    unfold find_run_request, compare_run_request, runs_for_request, json_inputs_equal. keeps_tac.
Qed.

Lemma rerun_completions x r : all_pres completions_ok (insert_rerun x r).
Proof.
  unfold insert_rerun. apply all_pres_bind.
  { apply keeps_pres. unfold existing_rerun, find_run_request, runs_for_request. keeps_tac. }
  intros [e|]; [apply keeps_pres; keeps_tac|]. apply all_pres_bind.
  - apply all_pres_transaction. pres_ops.
  - intros b. apply keeps_pres. unfold existing_rerun, find_run_request, runs_for_request. keeps_tac.
Qed.

Lemma commit_plan_completions p : all_pres completions_ok (commit_schedule_plan p).
Proof.
  apply all_pres_transaction. apply pres_bind; [apply pres_statement|intros now]. apply pres_bind; [by apply pres_step|intros d].
  apply pres_bind; [by apply pres_step|intros sch]. apply pres_bind; [by apply pres_step|intros sel].
  apply pres_bind; [apply pres_selection|intros [ex si]]. apply pres_bind.
  - apply pres_for. intros oc. apply pres_for. intros x. unfold insert_scheduled_occurrence. pres_ops.
  - intros []. pres_ops.
Qed.

Lemma published_completions o r n : all_pres completions_ok (mark_published o r n).
Proof.
  apply all_pres_bind; [apply keeps_pres; keeps_tac|intros q]. apply all_pres_transaction. pres_ops.
Qed.

Lemma claim_completions r : all_pres completions_ok (claim_attempt r).
Proof.
  apply all_pres_bind; [apply all_pres_transaction; pres_ops|intros c; apply keeps_pres; keeps_tac].
Qed.

Lemma complete_completions r : all_pres completions_ok (complete_attempt r).
Proof.
  unfold complete_attempt. destruct (_ && _); [apply keeps_pres; keeps_tac|]. apply all_pres_transaction. pres_ops.
Qed.

Lemma repair_completions locked limit : all_pres completions_ok (reconcile_transaction locked limit).
Proof.
  apply all_pres_transaction. unfold reconcile_expired_dispatches, reconcile_due_retries, reconcile_expired_leases,
    remove_expired_worker_presence, release_expired_claims, expire_dispatch, expire_lease, start_retry. pres_ops.
Qed.

Lemma quiet_completions :
  (forall o l n, all_pres completions_ok (claim_outbox o l n)) /\ (forall o i m n, all_pres completions_ok (record_publish_failure o i m n))
  /\ (forall o l n, all_pres completions_ok (claim_due_schedules o l n))
  /\ (forall i r e n, all_pres completions_ok (set_schedule_enabled i r e n)) /\ (forall r, all_pres completions_ok (renew_lease r))
  /\ (forall r, all_pres completions_ok (record_attempt_output r)) /\ (forall r, all_pres completions_ok (record_worker_heartbeat r)).
Proof.
  refine (conj _ (conj _ (conj _ (conj _ (conj _ (conj _ _)))))); intros; apply keeps_pres; first [unfold claim_outbox|unfold record_publish_failure|unfold claim_due_schedules
    |unfold set_schedule_enabled|unfold renew_lease|unfold record_attempt_output|unfold record_worker_heartbeat];
    unfold update_attempt, update_outbox, bind_texts; keeps_tac.
Qed.

End Operations.

(** ** Lemmas: changing a node *)

Lemma node_runs_set g d : workflow_node_runs (set_node_runs g d) = g (workflow_node_runs d).
Proof. done. Qed.

Lemma executions_set g d : workflow_node_executions (set_node_executions g d) = g (workflow_node_executions d).
Proof. done. Qed.

Lemma completions_node E N N' U d x n n' :
  completions_but E N U d -> workflow_node_runs d !! x = Some n -> nr_workflow_run_id n' = nr_workflow_run_id n ->
  (nr_state n' = NRunning -> x ∈ N') -> (forall y, y ∈ N -> y <> x -> y ∈ N') ->
  completions_but E N' U (set_node_runs (<[x := n']>) d).
Proof.
  intros [Hu Hr Hn Hp He Hq] Hx Hid Hrun Hsub. split; rewrite ?node_runs_set; [exact Hu|exact Hr| | | |].
  - intros k e Hk. destruct (decide (x = k.1)) as [->|]; [by rewrite lookup_insert_eq|].
    rewrite lookup_insert_ne by done. by eapply Hn.
  - intros node m [[<- <-]|[_ Hm]]%lookup_insert_Some; by eapply Hp.
  - intros r ev Hev. destruct (He r ev Hev) as (t & e & m & Hk & Hre & Hm & Hw).
    destruct (decide (x = ce_node_run_id ev)) as [Heq|Hne].
    + exists t, e, n'. rewrite <- Heq, lookup_insert_eq. rewrite <- Heq in Hk, Hm. split; [done|]. split; [done|]. split; [done|]. congruence.
    + exists t, e, m. by rewrite lookup_insert_ne.
  - intros node m Hm Hst. apply lookup_insert_Some in Hm as [[<- <-]|[Hne Hm]]; [right; right; auto|].
    destruct (Hq node m Hm Hst) as [Ho|[Ho|Ho]]; [by left|right; by left|right; right; auto].
Qed.

(** A node with an open Run needs no event. *)
Lemma completions_settled E N U d x :
  completions_but E (x :: N) U d -> (forall n, workflow_node_runs d !! x = Some n -> nr_state n = NRunning -> open_child d x) ->
  completions_but E N U d.
Proof.
  intros [Hu Hr Hn Hp He Hq] Hx. split; try done. intros node n Hnode Hst.
  destruct (Hq node n Hnode Hst) as [?|[?|[->|?]%elem_of_cons]]; [by left|right; by left| |right; by right].
  left. by eapply Hx.
Qed.

Lemma update_node_db id cond f env s res s' :
  update_node id cond f env s = (Ok res, s') ->
  match res with
  | Some n => workflow_node_runs (tx_db s) !! id = Some n /\ cond (tx_db s) n = true
      /\ exists now, tx_db s' = set_node_runs (<[id := f now n]>) (tx_db s)
  | None => tx_db s' = tx_db s /\ forall n, workflow_node_runs (tx_db s) !! id = Some n -> cond (tx_db s) n = false
  end.
Proof.
  intros H. unfold update_node in H. apply tx_bind_ok in H as (now & s1 & H1%(keeps_statement (fun d => d)) & H).
  apply tx_bind_ok in H as (d & s1' & [= <- <-] & H). rewrite H1 in H.
  destruct (workflow_node_runs (tx_db s) !! id) as [n|] eqn:Hn; [|injection H as <- <-; by rewrite H1].
  destruct (cond (tx_db s) n) eqn:Hc.
  - apply tx_bind_ok in H as ([] & s2 & [= <-] & [= <- <-]). split; [done|]. split; [done|]. exists now. simpl. by rewrite H1.
  - injection H as <- <-. split; [done|]. intros m [= <-]. done.
Qed.

(** ** Lemmas: activation *)

Lemma create_normal_run_creates p env s s' :
  create_normal_run p env s = (Ok (), s') ->
  exists row, r_status row = PendingDispatch /\ runs (core (tx_db s')) = <[p_id p := row]> (runs (core (tx_db s)))
    /\ launched (tx_db s') = launched (tx_db s).
Proof.
  intros H. pose proof (keeps_create_normal_run launched p (fun _ _ => eq_refl) (fun _ _ => eq_refl) _ _ _ _ H) as Hl.
  unfold create_normal_run in H. apply tx_bind_ok in H as (i & s1 & H1 & H).
  assert (runs (core (tx_db s')) = runs (core (tx_db s1))) as Hr.
  { refine (keeps_bind (fun d => runs (core d)) _ _ _ _ _ _ _ _ H);
      [unfold create_attempt_and_outbox, insert_attempt, insert_outbox; keeps_tac|intros []; unfold insert_run_event; keeps_tac]. }
  unfold insert_run in H1. apply tx_bind_ok in H1 as (now & s2 & H2%(keeps_statement (fun d => d)) & H1).
  apply tx_bind_ok in H1 as (d & s3 & [= <- <-] & H1). do 2 (apply tx_bind_ok in H1 as ([] & s3 & [_ ->]%check_ok & H1)).
  simpl in H1. do 4 (apply tx_bind_ok in H1 as ([] & s3 & [_ ->]%check_ok & H1)).
  apply tx_bind_ok in H1 as ([] & s3 & [= <-] & [= <- <-]). eexists. split; [|split; [rewrite Hr; simpl; by rewrite H2|done]]. done.
Qed.

(** The prepared Runs of a list of executions are those of the table. *)
Definition matches_executions (d : DB) (node : Uuid) (l : list (Uuid * NodeExecutionRow)) : Prop :=
  forall te, te ∈ l -> exists e, workflow_node_executions d !! (node, te.1) = Some e
    /\ ne_prospective_run_id e = ne_prospective_run_id te.2.

Lemma execution_started_prospective e : ne_prospective_run_id (execution_started e) = ne_prospective_run_id e.
Proof. unfold execution_started. by destruct (ne_run_id e). Qed.

Lemma execution_started_run e r : ne_run_id e = Some r -> ne_run_id (execution_started e) = Some r.
Proof. intros H. unfold execution_started. by rewrite H. Qed.

Lemma alter_started_lookup (m : gmap (Uuid * Uuid) NodeExecutionRow) k k' e :
  alter execution_started k m !! k' = Some e ->
  exists e0, m !! k' = Some e0 /\ ne_prospective_run_id e = ne_prospective_run_id e0
    /\ (forall r, ne_run_id e0 = Some r -> ne_run_id e = Some r)
    /\ (forall r, ne_run_id e = Some r -> ne_run_id e0 = Some r \/ (k' = k /\ r = ne_prospective_run_id e0)).
Proof.
  destruct (decide (k' = k)) as [->|Hne].
  - rewrite lookup_alter_eq. intros (e0 & H0 & ->)%fmap_Some. exists e0. split; [done|].
    split; [apply execution_started_prospective|]. split; [intros r; apply execution_started_run|].
    intros r Hr. unfold execution_started in Hr. destruct (ne_run_id e0) eqn:He; [left; congruence|right].
    simpl in Hr. by injection Hr as <-.
  - rewrite lookup_alter_ne by done. intros He. exists e. auto.
Qed.

Lemma alter_started_keeps (m : gmap (Uuid * Uuid) NodeExecutionRow) k k' e :
  m !! k' = Some e -> exists e', alter execution_started k m !! k' = Some e'
    /\ ne_prospective_run_id e' = ne_prospective_run_id e /\ (forall r, ne_run_id e = Some r -> ne_run_id e' = Some r).
Proof.
  intros He. destruct (decide (k' = k)) as [->|Hne].
  - exists (execution_started e). rewrite lookup_alter_eq, He. split; [done|]. split; [apply execution_started_prospective|].
    intros r. apply execution_started_run.
  - exists e. by rewrite lookup_alter_ne.
Qed.

(** The execution whose Run exists is marked as started. *)
Lemma completions_started E N U d k e :
  completions_but E N U d -> workflow_node_executions d !! k = Some e -> is_Some (runs (core d) !! ne_prospective_run_id e) ->
  completions_but E N U (set_node_executions (alter execution_started k) d).
Proof.
  intros [Hu Hr Hn Hp He Hq] Hk Hrun. split; unfold open_child; rewrite ?executions_set.
  - intros k1 k2 e1 e2 (e1' & H1 & P1 & _)%alter_started_lookup (e2' & H2 & P2 & _)%alter_started_lookup Heq.
    apply (Hu k1 k2 e1' e2'); [done|done|]. unfold workflow_node_executions in *. congruence.
  - intros k1 e1 r (e1' & H1 & P1 & _ & Hback)%alter_started_lookup Hr1. destruct (Hback r Hr1) as [Hold|[-> ->]].
    + destruct (Hr k1 e1' r H1 Hold) as [-> ?]. auto.
    + assert (e1' = e) as -> by (unfold workflow_node_executions in *; congruence). auto.
  - intros k1 e1 (e1' & H1 & _)%alter_started_lookup. by eapply Hn.
  - intros node n Hnode. destruct (Hp node n Hnode) as [?|(t & [e1 H1])]; [by left|right]. exists t.
    destruct (alter_started_keeps _ k _ _ H1) as (e2 & -> & _). eauto.
  - intros r ev Hev. destruct (He r ev Hev) as (t & e1 & n & H1 & Hr1 & Hn1 & Hw).
    destruct (alter_started_keeps _ k _ _ H1) as (e2 & H2 & _ & Hk2). exists t, e2, n. auto.
  - intros node n Hnode Hst. destruct (Hq node n Hnode Hst) as [(t & e1 & r & row & H1 & Hr1 & Hrow & Ht)|[?|?]]; [left|auto|auto].
    destruct (alter_started_keeps _ k _ _ H1) as (e2 & H2 & _ & Hk2). exists t, e2, r, row. auto.
Qed.

Lemma start_execution_spec E N U node job te env s s' :
  start_execution node job te env s = (Ok (), s') -> completions_but E N U (tx_db s) ->
  (exists e, workflow_node_executions (tx_db s) !! (node, te.1) = Some e /\ ne_prospective_run_id e = ne_prospective_run_id te.2) ->
  completions_but E N U (tx_db s') /\ open_child (tx_db s') node
  /\ (forall l, matches_executions (tx_db s) node l -> matches_executions (tx_db s') node l).
Proof.
  intros H Hok (e & He & Hpr). unfold start_execution in H. apply tx_bind_ok in H as ([] & s1 & H1 & H).
  apply tx_bind_ok in H as (now & s2 & H2%(keeps_statement (fun d => d)) & [= <-]). cbn [tx_db]. rewrite H2.
  pose proof (pres_create_normal_run E N U _ _ _ _ _ H1 Hok) as Hok1.
  apply create_normal_run_creates in H1 as (row & Hrow & Hruns & Hl). cbn [p_id] in Hruns.
  assert (workflow_node_executions (tx_db s1) = workflow_node_executions (tx_db s)) as Hex by (unfold launched in Hl; congruence).
  rewrite <- Hex in He. assert (runs (core (tx_db s1)) !! ne_prospective_run_id e = Some row) as Hin.
  { rewrite Hruns, Hpr. apply lookup_insert_eq. }
  split; [by eapply completions_started; eauto|]. split.
  - exists te.1, (execution_started e), (ne_prospective_run_id e), row. rewrite executions_set, lookup_alter_eq, He.
    split; [done|]. split; [|split; [exact Hin|by rewrite Hrow]]. unfold execution_started.
    destruct (ne_run_id e) as [r|] eqn:Hr; [|done]. destruct (cq_run _ _ _ _ Hok1 _ _ _ He Hr) as [-> _]. done.
  - intros l Hl' te' Hin'. destruct (Hl' te' Hin') as (e' & He' & Hp'). rewrite executions_set. rewrite <- Hex in He'.
    destruct (alter_started_keeps _ (node, te.1) _ _ He') as (e2 & -> & Hp2 & _). exists e2. split; [done|]. congruence.
Qed.

Lemma start_executions_spec E N U node job l : forall env s s',
  tx_for l (start_execution node job) env s = (Ok (), s') -> completions_but E N U (tx_db s) ->
  matches_executions (tx_db s) node l ->
  completions_but E N U (tx_db s') /\ (open_child (tx_db s) node \/ l <> [] -> open_child (tx_db s') node).
Proof.
  induction l as [|te l IH]; intros env s s' H Hok Hm; cbn [tx_for] in H.
  { injection H as <-. split; [done|]. by intros [?|?]. }
  apply tx_bind_ok in H as ([] & s1 & H1 & H).
  destruct (start_execution_spec _ _ _ _ _ _ _ _ _ H1 Hok) as (Hok1 & Ho1 & Hm1); [by apply Hm; left|].
  apply IH in H as [Hok' Ho']; [|done|apply Hm1; intros te' Hin; apply Hm; by right].
  split; [done|]. intros _. apply Ho'. by left.
Qed.

Lemma elem_of_node_executions d node t e :
  (t, e) ∈ node_executions d node <-> workflow_node_executions d !! (node, t) = Some e.
Proof.
  unfold node_executions. rewrite elem_of_sort_by, list_elem_of_omap. split.
  - intros ([[x t'] e'] & Hin%elem_of_map_to_list & H). simpl in H. destruct (N.eqb_spec x node) as [->|]; [|done].
    by injection H as -> ->.
  - intros H. exists ((node, t), e). split; [by apply elem_of_map_to_list|]. simpl. by rewrite N.eqb_refl.
Qed.

(** Activating a node whose executions are prepared keeps the invariant. *)
Lemma activate_completions E N x : pres (completions_but E N []) (activate x).
Proof.
  intros env s [] s' H Hok. unfold activate in H. apply tx_bind_ok in H as (r & s1 & H1 & H). apply update_node_db in H1.
  destruct r as [n|]; [|injection H as <-; by destruct H1 as [-> _]]. destruct H1 as (Hn & _ & now & Hs1).
  apply tx_bind_ok in H as (now2 & s2 & H2%(keeps_statement (fun d => d)) & H). apply tx_bind_ok in H as (d & s2' & [= <- <-] & H).
  rewrite H2 in H. assert (completions_but E (x :: N) [] (tx_db s1)) as Hok1.
  { rewrite Hs1. eapply completions_node; [exact Hok|exact Hn|done|intros _; left|intros y Hy _; by right]. }
  rewrite <- H2 in Hok1. apply (start_executions_spec E (x :: N) []) in H as [Hok' Ho]; [|done|].
  - eapply completions_settled; [exact Hok'|]. intros _ _ _. apply Ho. right. rewrite <- H2.
    destruct (cq_prepared _ _ _ _ Hok1 x (start_node now n)) as [Hf|(t & [e He])].
    + rewrite H2, Hs1, node_runs_set. apply lookup_insert_eq.
    + by apply elem_of_nil in Hf.
    + apply elem_of_node_executions in He. intros Hnil. rewrite Hnil in He. by apply elem_of_nil in He.
  - intros [t e] Hin. apply elem_of_node_executions in Hin. exists e. by rewrite H2.
Qed.

(** ** Lemmas: completion and propagation *)

(** The node has a Run. *)
Definition has_child (d : DB) (node : Uuid) : Prop :=
  exists t e r, workflow_node_executions d !! (node, t) = Some e /\ ne_run_id e = Some r /\ is_Some (runs (core d) !! r).

Lemma elem_of_child_statuses d node st :
  st ∈ child_statuses d node <-> exists t e r row, workflow_node_executions d !! (node, t) = Some e /\ ne_run_id e = Some r
    /\ runs (core d) !! r = Some row /\ r_status row = st.
Proof.
  unfold child_statuses. rewrite list_elem_of_omap. split.
  - intros ([[x t] e] & Hin%elem_of_map_to_list & H). simpl in H. destruct (N.eqb_spec x node) as [->|]; [|done].
    destruct (ne_run_id e) as [r|] eqn:Hr; [|done]. simpl in H. destruct (runs (core d) !! r) as [row|] eqn:Hrow; [|done].
    injection H as <-. by exists t, e, r, row.
  - intros (t & e & r & row & He & Hr & Hrow & <-). exists ((node, t), e). split; [by apply elem_of_map_to_list|].
    simpl. rewrite N.eqb_refl, Hr. simpl. by rewrite Hrow.
Qed.

Lemma undecided_outcome d node : node_outcome (child_statuses d node) = None -> has_child d node -> open_child d node.
Proof.
  intros H (t & e & r & He & Hr & [row Hrow]). unfold node_outcome in H. destruct (_ || _) eqn:Hc; [|done].
  apply orb_true_iff in Hc as [Hc|Hc].
  - assert (r_status row ∈ child_statuses d node) as Hin by (apply elem_of_child_statuses; by exists t, e, r, row).
    destruct (child_statuses d node); [by apply elem_of_nil in Hin|done].
  - apply existsb_exists in Hc as (st & Hin%list_elem_of_In & Hopen). apply elem_of_child_statuses in Hin as (t' & e' & r' & row' & ? & ? & ? & <-).
    exists t', e', r', row'. do 3 (split; [done|]). by destruct (r_status row').
Qed.

Lemma complete_node_completions E N x env s b s' :
  complete_node x env s = (Ok b, s') -> completions_but E (x :: N) [] (tx_db s) -> has_child (tx_db s) x ->
  completions_but E N [] (tx_db s') /\ (forall y, has_child (tx_db s) y -> has_child (tx_db s') y).
Proof.
  intros H Hok Hch. unfold complete_node in H. apply tx_bind_ok in H as (now & s1 & H1%(keeps_statement (fun d => d)) & H).
  apply tx_bind_ok in H as (d & s1' & [= <- <-] & H). rewrite <- H1 in Hok, Hch |- *.
  destruct (node_outcome (child_statuses (tx_db s1) x)) as [st|] eqn:Hout.
  - apply tx_bind_ok in H as (r & s2 & H2 & [= <- <-]). apply update_node_db in H2. destruct r as [n|].
    + destruct H2 as (Hn & _ & now2 & ->). split; [|done]. eapply completions_node; [exact Hok|exact Hn|done| |].
      * simpl. unfold node_outcome in Hout. destruct (_ || _); [done|]. injection Hout as <-. by repeat case_match.
      * intros y [->|Hy]%elem_of_cons Hne; [done|done].
    + destruct H2 as [-> Hno]. split; [|done]. eapply completions_settled; [exact Hok|]. intros n Hn Hst.
      specialize (Hno n Hn). by rewrite bool_decide_true in Hno.
  - injection H as <- <-. split; [|done]. eapply completions_settled; [exact Hok|]. intros n Hn Hst. by apply undecided_outcome.
Qed.

Lemma complete_nodes_completions E l : forall env s down s',
  complete_nodes l env s = (Ok down, s') -> completions_but E l [] (tx_db s) ->
  (forall x, x ∈ l -> has_child (tx_db s) x) -> completions_but E [] [] (tx_db s').
Proof.
  induction l as [|x l IH]; intros env s down s' H Hok Hch; cbn [complete_nodes] in H; [by injection H as <- <-|].
  apply tx_bind_ok in H as (b & s1 & H1 & H). apply tx_bind_ok in H as (here & s2 & H2 & H).
  apply tx_bind_ok in H as (rest & s3 & H3 & [= <- <-]).
  destruct (complete_node_completions E l x _ _ _ _ H1 Hok) as [Hok1 Hch1]; [apply Hch; left|].
  assert (tx_db s2 = tx_db s1) as H21.
  { destruct b; [|by injection H2 as <- <-]. unfold outgoing in H2.
    apply tx_bind_ok in H2 as (now & t1 & Ht%(keeps_statement (fun d => d)) & H2). by apply tx_bind_ok in H2 as (d & t2 & [= <- <-] & [= <- <-]). }
  eapply IH; [exact H3|by rewrite H21|]. intros y Hy. rewrite H21. apply Hch1, Hch. by right.
Qed.

Lemma propagate_completions E fuel : forall l, pres (completions_but E [] []) (propagate fuel l).
Proof.
  induction fuel as [|fuel IH]; intros l; cbn [propagate]; [by apply pres_step|]. destruct l as [|x l]; [by apply pres_step|].
  apply pres_bind; [|intros more; apply IH]. unfold propagate_one. apply pres_bind; [apply pres_statement|intros now].
  apply pres_bind; [by apply pres_step|intros d]. apply pres_bind; [by apply pres_step|intros active].
  destruct (negb active); [by apply pres_step|]. apply pres_bind; [apply pres_statement|intros now2].
  apply pres_bind; [by apply pres_step|intros d2]. apply pres_bind; [by apply pres_step|intros values].
  destruct (dependency_decision values); [by apply pres_step| |].
  - apply pres_bind; [apply activate_completions|intros []; by apply pres_step].
  - apply pres_bind; [|intros r; unfold outgoing; apply all_pres_pres, keeps_pres; keeps_tac].
    intros env s r s' H Hok. apply update_node_db in H. destruct r as [n|]; [|by destruct H as [-> _]].
    destruct H as (Hn & _ & now3 & ->). eapply completions_node; [exact Hok|exact Hn|done|done|]. by intros y Hy%elem_of_nil.
Qed.

(** ** Lemmas: the orchestrator *)

Lemma lookup_deleted (m : gmap Uuid CompletionEventRow) l r ev :
  foldr delete m l !! r = Some ev <-> m !! r = Some ev /\ r ∉ l.
Proof.
  induction l as [|x l IH]; simpl.
  - split; [intros H; split; [done|apply not_elem_of_nil]|by intros [? _]].
  - rewrite lookup_delete_Some, IH, not_elem_of_cons. naive_solver.
Qed.

Lemma events_set g d : workflow_completion_events (set_completion_events g d) = g (workflow_completion_events d).
Proof. done. Qed.

Lemma completions_taken l d :
  completions_but l [] [] d -> completions_ok (set_completion_events (fun m => foldr delete m l) d).
Proof.
  intros [Hu Hr Hn Hp He Hq]. split; [exact Hu|exact Hr|exact Hn|exact Hp| |].
  - intros r ev [Hev _]%lookup_deleted. by apply He.
  - intros node n Hnode Hst. destruct (Hq node n Hnode Hst) as [Ho|[(r & ev & Hev & Hl & Hx)|Hf]]; [by left| |by apply elem_of_nil in Hf].
    right. left. exists r, ev. split; [|split; [apply not_elem_of_nil|done]]. rewrite events_set. by apply lookup_deleted.
Qed.

(** The events an invocation's reconciliation takes, and their nodes. *)
Lemma completions_affected d id :
  completions_ok d ->
  let affected := sort_by N.leb (remove_dups (map (fun kv => ce_node_run_id kv.2) (events_of d id))) in
  completions_but (map fst (events_of d id)) affected [] d /\ forall x, x ∈ affected -> has_child d x.
Proof.
  intros [Hu Hr Hn Hp He Hq] affected.
  assert (forall x, x ∈ affected <-> exists r ev, (r, ev) ∈ events_of d id /\ ce_node_run_id ev = x) as Ha.
  { intros x. unfold affected. rewrite elem_of_sort_by, elem_of_remove_dups, list_elem_of_fmap. split.
    - intros ([r ev] & -> & Hin). by exists r, ev.
    - intros (r & ev & Hin & <-). by exists (r, ev). }
  assert (forall r ev, (r, ev) ∈ events_of d id -> workflow_completion_events d !! r = Some ev) as Hevs.
  { intros r ev Hin. apply list_elem_of_filter in Hin as [_ Hin]. by apply elem_of_map_to_list. }
  split.
  - split; [exact Hu|exact Hr|exact Hn|exact Hp|exact He|]. intros node n Hnode Hst.
    destruct (Hq node n Hnode Hst) as [Ho|[(r & ev & Hev & _ & Hx)|Hf]]; [by left| |by apply elem_of_nil in Hf]. right.
    destruct (decide (r ∈ map fst (events_of d id))) as [Hin|Hout]; [right|left; by exists r, ev].
    apply list_elem_of_fmap in Hin as ([r' ev'] & -> & Hin). apply Ha. exists r', ev'. split; [done|].
    pose proof (Hevs _ _ Hin). simpl in Hev. congruence.
  - intros x (r & ev & Hin & <-)%Ha. destruct (He r ev (Hevs _ _ Hin)) as (t & e & n & Hk & Hre & _).
    exists t, e, r. split; [done|]. split; [done|]. by eapply Hr.
Qed.

Lemma reconcile_invocation_completions : all_pres completions_ok reconcile_invocation.
Proof.
  apply all_pres_transaction. intros env s out s' H Hok.
  apply tx_bind_ok in H as (now & s2 & H2%(keeps_statement (fun d => d)) & H).
  apply tx_bind_ok in H as (locked & s2' & [= <- <-] & H). apply tx_bind_ok in H as (d & s2' & [= <- <-] & H).
  destruct (next_invocation _ _) as [id|]; [|injection H as <- <-; by rewrite H2].
  apply tx_bind_ok in H as (now3 & s3 & H3%(keeps_statement (fun d => d)) & H).
  apply tx_bind_ok in H as (d3 & s3' & [= <- <-] & H). apply tx_bind_ok in H as (down & s4 & H4 & H).
  rewrite <- H2, <- H3 in Hok. destruct (completions_affected _ id Hok) as [Hok3 Hch].
  pose proof (complete_nodes_completions _ _ _ _ _ _ H4 Hok3 Hch) as Hok4.
  apply tx_bind_ok in H as (d4 & s4' & [= <- <-] & H). apply tx_bind_ok in H as (b & s5 & H5 & H).
  pose proof (propagate_completions _ _ _ _ _ _ _ H5 Hok4) as Hok5. apply tx_bind_ok in H as ([] & s6 & H6 & H).
  assert (completions_but (map fst (events_of (tx_db s3) id)) [] [] (tx_db s6)) as Hok6.
  { eapply completions_ext; [|exact Hok5].
    refine ((_ : keeps followed (finish id)) _ _ _ _ H6). unfold finish. keeps_tac. }
  apply tx_bind_ok in H as (now7 & s7 & H7%(keeps_statement (fun d => d)) & H). apply tx_bind_ok in H as ([] & s8 & [= <-] & [= _ <-]).
  cbn [tx_db]. rewrite H7. by apply completions_taken.
Qed.

Lemma reconcile_workflows_completions limit : all_pres completions_ok (reconcile_workflows limit).
Proof.
  induction limit as [|limit IH]; cbn [reconcile_workflows]; [apply keeps_pres; keeps_tac|].
  apply all_pres_bind; [apply reconcile_invocation_completions|intros []]; [|apply keeps_pres; keeps_tac].
  apply all_pres_bind; [exact IH|intros n; apply keeps_pres; keeps_tac].
Qed.

Lemma completions_cancelled id now d : completions_ok d -> completions_ok (set_node_runs (fmap (cancel_node id now)) d).
Proof.
  intros [Hu Hr Hn Hp He Hq]. split; rewrite ?node_runs_set; [exact Hu|exact Hr| | | |].
  - intros k e Hk. rewrite lookup_fmap. apply fmap_is_Some. by eapply Hn.
  - intros node m Hm. rewrite lookup_fmap in Hm. apply fmap_Some in Hm as (n & Hnode & _). by eapply Hp.
  - intros r ev Hev. destruct (He r ev Hev) as (t & e & n & Hk & Hre & Hnode & Hw). exists t, e, (cancel_node id now n).
    rewrite lookup_fmap, Hnode, cancel_node_run. done.
  - intros node m Hm Hst. rewrite lookup_fmap in Hm. apply fmap_Some in Hm as (n & Hnode & ->).
    unfold cancel_node in Hst. case_match; [done|]. exact (Hq node n Hnode Hst).
Qed.

Section WorkflowCalls.
Context {SJ : SerdeJson} {RF : RustFmt} {PG : PostgresServer} {TC : TimeCrate} {SE : SnapshotEncoding}.

Lemma cancel_completions id : all_pres completions_ok (cancel_run id).
Proof.
  apply all_pres_transaction. apply pres_bind; [apply pres_statement|intros now]. apply pres_bind; [by apply pres_step|intros d].
  apply pres_bind; [by apply pres_step|intros row]. apply pres_bind.
  - destruct (_ =? _)%string; [|by apply pres_step]. apply pres_bind; [apply pres_statement|intros n1].
    apply pres_bind; [by apply pres_modify|intros []]. apply pres_bind; [apply pres_statement|intros n2].
    apply pres_bind; [|intros []; apply all_pres_pres, keeps_pres; unfold finish; keeps_tac].
    intros env s a s' [= <- <-] Hok. by apply completions_cancelled.
  - intros []. apply pres_bind; [apply all_pres_pres, keeps_pres, keeps_invocation|intros r; by apply pres_step].
Qed.

(** ** Lemmas: preparing an invocation *)

Lemma completions_new_node E N U d x n :
  completions_but E N U d -> workflow_node_runs d !! x = None -> nr_state n = NPending ->
  completions_but E N (x :: U) (set_node_runs (<[x := n]>) d).
Proof.
  intros [Hu Hr Hn Hp He Hq] Hx Hst. split; rewrite ?node_runs_set; [exact Hu|exact Hr| | | |].
  - intros k e Hk. destruct (decide (x = k.1)) as [->|]; [by rewrite lookup_insert_eq|]. rewrite lookup_insert_ne by done. by eapply Hn.
  - intros node m [[<- <-]|[_ Hm]]%lookup_insert_Some; [left; left|]. destruct (Hp node m Hm); [left; by right|by right].
  - intros r ev Hev. destruct (He r ev Hev) as (t & e & m & Hk & Hre & Hm & Hw). exists t, e, m. rewrite lookup_insert_ne; [done|congruence].
  - intros node m [[<- <-]|[_ Hm]]%lookup_insert_Some Hrun; [congruence|]. exact (Hq node m Hm Hrun).
Qed.

Lemma completions_execution E N U d k e :
  completions_but E N U d -> workflow_node_executions d !! k = None -> is_Some (workflow_node_runs d !! k.1) ->
  (forall k' e', workflow_node_executions d !! k' = Some e' -> ne_prospective_run_id e' <> ne_prospective_run_id e) ->
  ne_run_id e = None -> completions_but E N U (set_node_executions (<[k := e]>) d).
Proof.
  intros [Hu Hr Hn Hp He Hq] Hk Hnode Huniq Hnone. split; unfold open_child; rewrite ?executions_set.
  - intros k1 k2 e1 e2 [[<- <-]|[_ H1]]%lookup_insert_Some [[<- <-]|[_ H2]]%lookup_insert_Some Heq; [done| | |by eapply Hu].
    + by destruct (Huniq _ _ H2).
    + by destruct (Huniq _ _ H1).
  - intros k1 e1 r [[<- <-]|[_ H1]]%lookup_insert_Some Hr1; [congruence|by eapply Hr].
  - intros k1 e1 [[<- <-]|[_ H1]]%lookup_insert_Some; [done|by eapply Hn].
  - intros node n Hx. destruct (Hp node n Hx) as [?|(t & [e1 H1])]; [by left|right]. exists t. rewrite lookup_insert_ne; [eauto|congruence].
  - intros r ev Hev. destruct (He r ev Hev) as (t & e1 & n & H1 & ?). exists t, e1, n. rewrite lookup_insert_ne; [done|congruence].
  - intros node n Hx Hst. destruct (Hq node n Hx Hst) as [(t & e1 & r & row & H1 & ?)|?]; [left|by right].
    exists t, e1, r, row. rewrite lookup_insert_ne; [done|congruence].
Qed.

Lemma completions_prepared E N U d x :
  completions_but E N (x :: U) d -> (exists t, is_Some (workflow_node_executions d !! (x, t))) -> completions_but E N U d.
Proof.
  intros [Hu Hr Hn Hp He Hq] Hx. split; try done. intros node n Hnode.
  destruct (Hp node n Hnode) as [[->|?]%elem_of_cons|?]; [by right|by left|by right].
Qed.

Lemma insert_node_execution_spec E N U node x run snapshot env s s' :
  insert_node_execution node x run snapshot env s = (Ok (), s') -> completions_but E N U (tx_db s) ->
  completions_but E N U (tx_db s') /\ (forall y, (exists t, is_Some (workflow_node_executions (tx_db s) !! (y, t))) \/ y = node ->
    exists t, is_Some (workflow_node_executions (tx_db s') !! (y, t))).
Proof.
  intros H Hok. unfold insert_node_execution in H. apply tx_bind_ok in H as (now & s1 & H1%(keeps_statement (fun d => d)) & H).
  apply tx_bind_ok in H as (d & s1' & [= <- <-] & H). apply tx_bind_ok in H as ([] & s2 & [_ ->]%check_ok & H).
  apply tx_bind_ok in H as ([] & s2 & [Hf ->]%check_ok & H). apply tx_bind_ok in H as ([] & s2 & [Hu ->]%check_ok & H).
  apply tx_bind_ok in H as ([] & s2 & [Hfk ->]%check_ok & [= <-]). cbn [tx_db]. rewrite H1 in *.
  apply negb_true_iff, bool_decide_eq_false, eq_None_not_Some in Hf. apply negb_true_iff in Hu.
  apply andb_true_iff in Hfk as [[Hnode%bool_decide_eq_true _]%andb_true_iff _]. split.
  - apply completions_execution; [done|done|done| |done]. intros k' e' Hk' Heq. simpl in Heq.
    assert (existsb (fun kv : (Uuid * Uuid) * NodeExecutionRow => (ne_prospective_run_id kv.2 =? run)%N)
      (map_to_list (workflow_node_executions (tx_db s))) = true) as Ht; [|congruence].
    apply existsb_exists. exists (k', e'). split; [by apply list_elem_of_In, elem_of_map_to_list|]. simpl. by rewrite Heq, N.eqb_refl.
  - intros y Hy. rewrite executions_set. destruct (decide (y = node)) as [->|Hne].
    + exists (x_target_id x). by rewrite lookup_insert_eq.
    + destruct Hy as [[t Ht]|?]; [|done]. exists t. rewrite lookup_insert_ne; [done|congruence].
Qed.

Lemma prepare_executions_spec E N U node ns si i l : forall bytes env s b s',
  prepare_executions node ns si i l bytes env s = (Ok b, s') -> completions_but E N U (tx_db s) ->
  completions_but E N U (tx_db s')
  /\ ((exists t, is_Some (workflow_node_executions (tx_db s) !! (node, t))) \/ l <> [] ->
      exists t, is_Some (workflow_node_executions (tx_db s') !! (node, t))).
Proof.
  induction l as [|x l IH]; intros bytes env s b s' H Hok; cbn [prepare_executions] in H.
  { injection H as <- <-. split; [done|]. by intros [?|?]. }
  destruct (negb _); [done|]. apply tx_bind_ok in H as (run & s1 & [= <- <-] & H).
  apply tx_bind_ok in H as (snap & s2 & [_ ->]%tx_lift_ok & H). destruct (_ <? _); [done|].
  apply tx_bind_ok in H as ([] & s2 & H2 & H). apply (insert_node_execution_spec E N U) in H2 as [Hok2 Hex]; [|exact Hok].
  apply IH in H as [Hok' Hex']; [|done]. split; [done|]. intros _. apply Hex'. left. apply Hex. by right.
Qed.

Lemma collect_nonempty {A B} (f : A -> tx B) l env s ys s' :
  tx_collect f l env s = (Ok ys, s') -> l <> [] -> ys <> [].
Proof.
  destruct l as [|x l]; [done|]. cbn [tx_collect]. intros H _. apply tx_bind_ok in H as (y & s1 & _ & H).
  apply tx_bind_ok in H as (zs & s2 & _ & [= <- _]). done.
Qed.

Lemma selection_not_empty job target env s ex si s' :
  load_selection_executions job target env s = (Ok (ex, si), s') -> ex <> [].
Proof.
  unfold load_selection_executions. destruct target as [t|t]; intros H.
  - apply tx_bind_ok in H as (x & s1 & _ & [= <- _ _]). done.
  - apply tx_bind_ok in H as (now & s1 & _ & H). apply tx_bind_ok in H as (d & s2 & _ & H).
    apply tx_bind_ok in H as (inputs & s3 & _ & H). apply tx_bind_ok in H as (now2 & s4 & _ & H).
    apply tx_bind_ok in H as (d2 & s5 & _ & H). destruct (is_null (head (member_targets d2 t))) eqn:Hn; [done|].
    apply tx_bind_ok in H as (ys & s6 & H6 & [= <- _ _]). eapply collect_nonempty; [exact H6|].
    intros Hnil. by rewrite Hnil in Hn.
Qed.

Lemma insert_node_run_db x id node env s s' :
  insert_node_run x id node env s = (Ok (), s') ->
  workflow_node_runs (tx_db s) !! x = None
  /\ exists n, nr_state n = NPending /\ tx_db s' = set_node_runs (<[x := n]>) (tx_db s).
Proof.
  intros H. unfold insert_node_run in H. apply tx_bind_ok in H as (now & s1 & H1%(keeps_statement (fun d => d)) & H).
  apply tx_bind_ok in H as (d & s1' & [= <- <-] & H). apply tx_bind_ok in H as ([] & s2 & [Hf ->]%check_ok & H).
  do 2 (apply tx_bind_ok in H as ([] & s2 & [_ ->]%check_ok & H)). injection H as <-. rewrite H1 in *. split.
  - by apply negb_true_iff, bool_decide_eq_false, eq_None_not_Some in Hf.
  - eexists. split; [|cbn [tx_db]; by rewrite ?H1]. done.
Qed.

Lemma prepare_nodes_completions E N id ns launch nodes : forall ids bytes count,
  pres (completions_but E N []) (prepare_nodes_loop id ns launch nodes ids bytes count).
Proof.
  induction nodes as [|node nodes IH]; intros ids bytes count; [by apply pres_step|].
  intros env s ids' s' H Hok. cbn [prepare_nodes_loop] in H. apply tx_bind_ok in H as (x & s1 & [= <- <-] & H).
  apply tx_bind_ok in H as ([] & s2 & (Hx & n & Hn & H2)%insert_node_run_db & H). cbn [tx_db] in Hx, H2.
  apply tx_bind_ok in H as ([] & s3 & H3%(keeps_require_run_request followed) & H); [|done].
  apply tx_bind_ok in H as ([ex si] & s4 & H4 & H). pose proof (selection_not_empty _ _ _ _ _ _ _ H4) as Hne.
  apply (keeps_load_selection followed) in H4. do 2 (apply tx_bind_ok in H as ([] & s5 & [_ ->]%check_ok & H)).
  apply tx_bind_ok in H as (b & s6 & H6 & H).
  assert (completions_but E N [e_uuid env (tx_uuids s)] (tx_db s4)) as Hok4.
  { apply (completions_ext _ _ _ (tx_db s2)); [congruence|]. rewrite H2. by apply completions_new_node. }
  apply (prepare_executions_spec E N [e_uuid env (tx_uuids s)]) in H6 as [Hok6 Hex]; [|exact Hok4].
  eapply IH; [exact H|]. eapply completions_prepared; [exact Hok6|]. apply Hex. by right.
Qed.

Lemma start_completions launch : all_pres completions_ok (start launch).
Proof.
  apply all_pres_transaction. apply pres_bind; [apply pres_statement|intros n0]. apply pres_bind; [apply pres_statement|intros n1].
  apply pres_bind; [by apply pres_step|intros d]. destruct (invocation_for_request _ _) as [old|].
  { apply pres_bind; [apply all_pres_pres, keeps_pres, keeps_replay|intros r; by apply pres_step]. }
  apply pres_bind; [apply all_pres_pres, keeps_pres, keeps_catalog|intros st]. destruct (negb _); [by apply pres_step|].
  apply pres_bind; [by apply pres_step|intros id].
  apply pres_bind; [apply all_pres_pres, keeps_pres; unfold insert_invocation; destruct (selection_ids _); keeps_tac|intros []].
  apply pres_bind; [apply pres_statement|intros n2]. apply pres_bind; [apply pres_statement|intros n3].
  apply pres_bind; [apply prepare_nodes_completions|intros ids].
  apply pres_bind; [apply pres_for; intros e; apply all_pres_pres, keeps_pres; unfold insert_run_edge; keeps_tac|intros []].
  apply pres_bind; [apply pres_for; intros node; apply pres_bind; [by apply pres_step|intros x; apply activate_completions]|intros []].
  apply pres_bind; [apply all_pres_pres, keeps_pres, keeps_invocation|intros r; by apply pres_step].
Qed.

(** ** Histories *)

Lemma store_step_completions d d' : store_step d d' -> completions_ok d -> completions_ok d'.
Proof.
  pose proof quiet_completions as (Q1 & Q2 & Q3 & Q4 & Q5 & Q6 & Q7).
  assert (forall A (m : tx A) res, all_pres completions_ok m -> call m d res d' -> completions_ok d -> completions_ok d') as Hk.
  { intros A m res Hm (env & n & u & s' & H & <-). exact (Hm _ _ _ _ H). }
  assert (forall locked limit, all_pres completions_ok (reconcile locked limit)) as Hrec.
  { intros locked limit. apply all_pres_bind; [apply repair_completions|intros n].
    apply all_pres_bind; [apply reconcile_workflows_completions|intros m; apply keeps_pres; keeps_tac]. }
  intros Hs. destruct Hs.
  all: try (match goal with H : call ?m _ _ _ |- _ => refine (Hk _ m _ _ H) end;
    auto using create_runs_completions, rerun_completions, commit_plan_completions, published_completions, claim_completions,
      complete_completions, start_completions, cancel_completions).
  apply completions_ext. match goal with H : catalog_call _ _ |- _ => apply catalog_call_frame in H end.
  unfold followed, executions, launched in *. congruence.
Qed.

Lemma history_completions d d' : rtc store_step d d' -> completions_ok d -> completions_ok d'.
Proof. induction 1 as [|d1 d2 d3 H _ IH]; [done|]. intros Hok. by eapply IH, store_step_completions. Qed.

Lemma completions_empty d : launched d = (∅, ∅, ∅, ∅, ∅) -> completions_ok d.
Proof.
  unfold launched. intros [= H1 H2 H3 H4 H5]. split; unfold open_child, queued_event; rewrite ?H1, ?H2, ?H4, ?H5; done.
Qed.

(** C12: No completion is lost: in every history of store calls that starts before any
    launch, with any faults, lost commits and interleaving of workers, schedulers and
    orchestrators, every running node has a Run that has not ended or a completion
    event in the orchestrator's queue. *)
Theorem no_completion_lost d d' node n :
  launched d = (∅, ∅, ∅, ∅, ∅) -> rtc store_step d d' -> workflow_node_runs d' !! node = Some n -> nr_state n = NRunning ->
  open_child d' node \/ queued_event [] d' node.
Proof.
  intros He Hr Hn Hst. pose proof (history_completions _ _ Hr (completions_empty _ He)) as Hok.
  destruct (cq_queued _ _ _ _ Hok node n Hn Hst) as [?|[?|Hf]]; [by left|by right|by apply elem_of_nil in Hf].
Qed.

(** C13: No invocation is stuck: whenever a node of an invocation is not terminal, some
    node of it is running, with a Run that has not ended or a completion in the
    queue, so that the invocation always has an event to come. *)
Theorem workflow_never_stuck d d' id w x n :
  launched d = (∅, ∅, ∅, ∅, ∅) -> rtc store_step d d' ->
  workflow_runs d' !! id = Some w -> workflow_node_runs d' !! x = Some n -> nr_workflow_run_id n = id ->
  node_terminal (nr_state n) = false ->
  exists y m, workflow_node_runs d' !! y = Some m /\ nr_workflow_run_id m = id /\ nr_state m = NRunning
    /\ (open_child d' y \/ queued_event [] d' y).
Proof.
  intros He Hr Hw Hx Hid Ht.
  assert (exists y m, workflow_node_runs d' !! y = Some m /\ nr_workflow_run_id m = id /\ nr_state m = NRunning) as (y & m & Hy & Hm & Hst).
  { destruct (history_orch d d' Hr) as [Ho Hno].
    { unfold orch. unfold launched in He. injection He as -> -> -> _ _. exact orchestrated_empty. }
    pose proof (or_states _ _ Ho x n Hx) as Hns. destruct (nr_state n) eqn:Hs; try done; [|by exists x, n].
    by eapply (pending_needs_running (orch d')). }
  exists y, m. do 3 (split; [done|]). pose proof (history_completions _ _ Hr (completions_empty _ He)) as Hok.
  destruct (cq_queued _ _ _ _ Hok y m Hy Hst) as [?|[?|Hf]]; [by left|by right|by apply elem_of_nil in Hf].
Qed.

End WorkflowCalls.

(** ** Witnesses *)

Lemma no_completion_lost_witness : open_child (w_done true) 101 \/ queued_event [] (w_done true) 101.
Proof.
  destruct (workflow_node_runs (w_done true) !! 101%N) as [n|] eqn:Hn; [|vm_compute in Hn; discriminate].
  refine (no_completion_lost example_workflow (w_done true) 101 n eq_refl (example_to_done_workflow true) Hn _).
  vm_compute in Hn. injection Hn as <-. reflexivity.
Defined.

Lemma workflow_never_stuck_witness :
  exists y m, workflow_node_runs w_launched !! y = Some m /\ nr_workflow_run_id m = 100%N /\ nr_state m = NRunning
    /\ (open_child w_launched y \/ queued_event [] w_launched y).
Proof.
  destruct (workflow_runs w_launched !! 100%N) as [w|] eqn:Hw; [|vm_compute in Hw; discriminate].
  destruct (workflow_node_runs w_launched !! 103%N) as [n|] eqn:Hn; [|vm_compute in Hn; discriminate].
  apply (workflow_never_stuck example_workflow w_launched 100 w 103 n); [reflexivity| |exact Hw|exact Hn| |].
  - apply rtc_once. exact (SSWorkflowStart _ _ _ _ (call_after (start example_launch) (quiet 1000 100) example_workflow)).
  - vm_compute in Hn. injection Hn as <-. reflexivity.
  - vm_compute in Hn. injection Hn as <-. reflexivity.
Defined.
