(* ===== verification/WorkflowCatalog.v ===== *)
(** * The catalog of Workflows

    The foreign keys and names every write keeps, the round trip of a definition
    and the serialization of edits. *)

From S2P Require Import Prelude RustStr Json Inputs Names Float Domain Auth Workflow Db Snapshot TxLogic Store WorkflowStore WorkflowDefinitions Lifecycle Refinement WorkflowRefinement StoreSystem Scenario StoreBehaviour PlannerTheorems Orchestration Launch.
From Stdlib Require Import String.
From stdpp Require Import base numbers strings sorting gmap list relations.

Local Open Scope Z_scope.

(** ** The stored graph *)

Definition graph_nodes (d : DB) (id : Uuid) : list (string * Uuid) :=
  omap (fun kv : Uuid * WorkflowNodeRow =>
    if (wnr_workflow_id kv.2 =? id)%N then Some (wnr_name kv.2, wnr_job_id kv.2) else None)
    (map_to_list (wt_nodes (workflow_tables d))).

Definition graph_edges (d : DB) (id : Uuid) : list (string * string * DependencyCondition) :=
  omap (fun kv : (Uuid * Uuid * Uuid) * DependencyCondition =>
    if (kv.1.1.1 =? id)%N then
      a ← wt_nodes (workflow_tables d) !! kv.1.1.2; b ← wt_nodes (workflow_tables d) !! kv.1.2;
      Some (wnr_name a, wnr_name b, kv.2)
    else None) (map_to_list (wt_edges (workflow_tables d))).

(** The foreign keys and the unique names of the catalog. *)
Record catalog_ok (d : DB) : Prop := {
  co_node : forall x n, wt_nodes (workflow_tables d) !! x = Some n ->
    is_Some (wt_workflows (workflow_tables d) !! wnr_workflow_id n);
  co_edge : forall w a b, is_Some (wt_edges (workflow_tables d) !! (w, a, b)) ->
    is_Some (wt_workflows (workflow_tables d) !! w) /\ a <> b
    /\ exists na nb, wt_nodes (workflow_tables d) !! a = Some na /\ wt_nodes (workflow_tables d) !! b = Some nb
      /\ wnr_workflow_id na = w /\ wnr_workflow_id nb = w;
  co_name : forall x y n m, wt_nodes (workflow_tables d) !! x = Some n -> wt_nodes (workflow_tables d) !! y = Some m ->
    wnr_workflow_id n = wnr_workflow_id m -> wnr_name n = wnr_name m -> x = y;
}.

(** ** Lemmas: lists of optional values *)

Lemma omap_none {A B} (f : A -> option B) l : (forall x, x ∈ l -> f x = None) -> omap f l = [].
Proof.
  induction l as [|x l IH]; intros H; [done|]. simpl. rewrite (H x) by left. apply IH. intros y Hy. apply H. by right.
Qed.

Lemma map_omap {A B C} (f : A -> option B) (g : B -> C) l : map g (omap f l) = omap (fun x => option_map g (f x)) l.
Proof. induction l as [|x l IH]; [done|]. simpl. destruct (f x); simpl; [f_equal|]; exact IH. Qed.

(** ** Lemmas: one statement of a write *)

Lemma graph_nodes_insert d id x n :
  wt_nodes (workflow_tables d) !! x = None -> wnr_workflow_id n = id ->
  graph_nodes (set_workflow_nodes (<[x := n]>) d) id ≡ₚ (wnr_name n, wnr_job_id n) :: graph_nodes d id.
Proof.
  intros Hx Hid. unfold graph_nodes. simpl. rewrite map_to_list_insert by done. simpl. by rewrite Hid, N.eqb_refl.
Qed.

Lemma graph_edges_insert d id a b c na nb :
  wt_edges (workflow_tables d) !! (id, a, b) = None -> wt_nodes (workflow_tables d) !! a = Some na ->
  wt_nodes (workflow_tables d) !! b = Some nb ->
  graph_edges (set_workflow_edges (<[(id, a, b) := c]>) d) id ≡ₚ (wnr_name na, wnr_name nb, c) :: graph_edges d id.
Proof.
  intros He Ha Hb. unfold graph_edges. simpl. rewrite map_to_list_insert by done. simpl. rewrite N.eqb_refl, Ha. simpl. by rewrite Hb.
Qed.

Lemma graph_edges_none d id :
  (forall a b, wt_edges (workflow_tables d) !! (id, a, b) = None) -> graph_edges d id = [].
Proof.
  intros H. apply omap_none. intros [[[w a] b] c] Hin%elem_of_map_to_list. simpl. destruct (N.eqb_spec w id) as [->|]; [|done].
  rewrite H in Hin. done.
Qed.

Lemma insert_workflow_node_spec id node env s x s' :
  insert_workflow_node id node env s = (Ok x, s') ->
  wt_nodes (workflow_tables (tx_db s)) !! x = None
  /\ tx_db s' = set_workflow_nodes (<[x := mkWorkflowNodeRow id (ResourceNameM.as_str (wn_name node)) (wn_job_id node)]>) (tx_db s)
  /\ is_Some (wt_workflows (workflow_tables (tx_db s)) !! id)
  /\ forall y m, wt_nodes (workflow_tables (tx_db s)) !! y = Some m -> wnr_workflow_id m = id ->
       wnr_name m <> ResourceNameM.as_str (wn_name node).
Proof.
  intros H. unfold insert_workflow_node in H. apply tx_bind_ok in H as (now & s1 & H1%(keeps_statement (fun d => d)) & H).
  apply tx_bind_ok in H as (d & s1' & [= <- <-] & H). apply tx_bind_ok in H as (y & s2 & [= Hy <-] & H).
  apply tx_bind_ok in H as ([] & s3 & [Hc ->]%check_ok & H). apply tx_bind_ok in H as ([] & s3 & [Hf ->]%check_ok & H).
  apply tx_bind_ok in H as ([] & s3 & [= <-] & [= -> <-]). simpl. rewrite <- H1.
  apply andb_true_iff in Hc as [Hc%negb_true_iff%bool_decide_eq_false Hu%negb_true_iff].
  apply andb_true_iff in Hf as [Hw%bool_decide_eq_true _].
  split; [by apply eq_None_not_Some|]. split; [done|]. split; [done|].
  intros z m Hz Hm Hn. assert (existsb (fun kv : Uuid * WorkflowNodeRow => (wnr_workflow_id kv.2 =? id)%N
    && (wnr_name kv.2 =? ResourceNameM.as_str (wn_name node))%string) (map_to_list (wt_nodes (workflow_tables (tx_db s1)))) = true)
    as Ht; [|congruence].
  apply existsb_exists. exists (z, m). split; [by apply list_elem_of_In, elem_of_map_to_list|]. simpl.
  by rewrite Hm, Hn, N.eqb_refl, String.eqb_refl.
Qed.

(** ** Lemmas: the catalog's constraints *)

Lemma catalog_ok_node d x n :
  catalog_ok d -> wt_nodes (workflow_tables d) !! x = None ->
  is_Some (wt_workflows (workflow_tables d) !! wnr_workflow_id n) ->
  (forall y m, wt_nodes (workflow_tables d) !! y = Some m -> wnr_workflow_id m = wnr_workflow_id n -> wnr_name m <> wnr_name n) ->
  catalog_ok (set_workflow_nodes (<[x := n]>) d).
Proof.
  intros [Hn He Hu] Hx Hw Hnew. split; simpl.
  - intros y m [[-> <-]|[_ Hm]]%lookup_insert_Some; [done|by eapply Hn].
  - intros w a b Hab. destruct (He w a b Hab) as (Hwf & Hne & na & nb & Ha & Hb & ?). split; [done|]. split; [done|].
    exists na, nb. rewrite !lookup_insert_ne by congruence. done.
  - intros y z m m' [[-> <-]|[_ Hm]]%lookup_insert_Some [[-> <-]|[_ Hm']]%lookup_insert_Some Hid Hname; [done|..].
    + by destruct (Hnew _ _ Hm').
    + by destruct (Hnew _ _ Hm).
    + by eapply Hu.
Qed.

Lemma catalog_ok_edge d id a b c na nb :
  catalog_ok d -> a <> b -> is_Some (wt_workflows (workflow_tables d) !! id) ->
  wt_nodes (workflow_tables d) !! a = Some na -> wt_nodes (workflow_tables d) !! b = Some nb ->
  wnr_workflow_id na = id -> wnr_workflow_id nb = id -> catalog_ok (set_workflow_edges (<[(id, a, b) := c]>) d).
Proof.
  intros [Hn He Hu] Hne Hw Ha Hb Hia Hib. split; simpl; [done| |done]. intros w a' b' Hab.
  destruct (decide ((w, a', b') = (id, a, b))) as [[= -> -> ->]|Hk]; [|rewrite lookup_insert_ne in Hab by done; by apply He].
  split; [done|]. split; [done|]. by exists na, nb.
Qed.

Lemma catalog_ok_row d id w : catalog_ok d -> catalog_ok (set_workflows (<[id := w]>) d).
Proof.
  intros [Hn He Hu].
  assert (forall v, is_Some (wt_workflows (workflow_tables d) !! v) -> is_Some (<[id := w]> (wt_workflows (workflow_tables d)) !! v)) as Hm.
  { intros v Hv. destruct (decide (v = id)) as [->|]; [by rewrite lookup_insert_eq|by rewrite lookup_insert_ne]. }
  split; simpl; [by eauto| |done]. intros v a b Hab. destruct (He v a b Hab) as (Hv & ?). auto.
Qed.

Lemma node_without d id x n :
  wt_nodes (workflow_tables (without_graph id d)) !! x = Some n
  <-> wt_nodes (workflow_tables d) !! x = Some n /\ wnr_workflow_id n <> id.
Proof. simpl. by rewrite map_lookup_filter_Some. Qed.

Lemma edge_without d id k :
  is_Some (wt_edges (workflow_tables (without_graph id d)) !! k) -> is_Some (wt_edges (workflow_tables d) !! k) /\ k.1.1 <> id.
Proof. simpl. intros [c [? ?]%map_lookup_filter_Some]. eauto. Qed.

Lemma catalog_ok_without d id : catalog_ok d -> catalog_ok (without_graph id d).
Proof.
  intros [Hn He Hu]. split.
  - intros x n [Hx _]%node_without. by eapply Hn.
  - intros w a b [Hab Hw]%edge_without. destruct (He w a b Hab) as (Hwf & Hne & na & nb & Ha & Hb & Hia & Hib).
    split; [done|]. split; [done|]. exists na, nb. rewrite !node_without. simpl in Hw. rewrite Hia, Hib. done.
  - intros x y n m [Hx _]%node_without [Hy _]%node_without. by apply Hu.
Qed.

Lemma catalog_ok_delete d id : catalog_ok d -> catalog_ok (set_workflows (delete id) (without_graph id d)).
Proof.
  intros H. pose proof (catalog_ok_without d id H) as [Hn He Hu]. split; simpl.
  - intros x n Hx. pose proof Hx as [_ Hne]%node_without. rewrite lookup_delete_ne by done. by eapply Hn.
  - intros w a b Hab. pose proof Hab as [_ Hne]%edge_without. simpl in Hne. destruct (He w a b Hab) as (? & ?).
    rewrite lookup_delete_ne by done. done.
  - exact Hu.
Qed.

Lemma insert_workflow_edge_spec id a b c env s s' :
  insert_workflow_edge id a b c env s = (Ok (), s') ->
  wt_edges (workflow_tables (tx_db s)) !! (id, a, b) = None /\ a <> b
  /\ is_Some (wt_workflows (workflow_tables (tx_db s)) !! id)
  /\ tx_db s' = set_workflow_edges (<[(id, a, b) := c]>) (tx_db s)
  /\ exists na nb, wt_nodes (workflow_tables (tx_db s)) !! a = Some na /\ wt_nodes (workflow_tables (tx_db s)) !! b = Some nb
       /\ wnr_workflow_id na = id /\ wnr_workflow_id nb = id.
Proof.
  intros H. unfold insert_workflow_edge in H. apply tx_bind_ok in H as (now & s1 & H1%(keeps_statement (fun d => d)) & H).
  apply tx_bind_ok in H as (d & s1' & [= <- <-] & H). apply tx_bind_ok in H as ([] & s2 & [Hne ->]%check_ok & H).
  apply tx_bind_ok in H as ([] & s2 & [Hf ->]%check_ok & H). apply tx_bind_ok in H as ([] & s2 & [Hb ->]%check_ok & [= <-]).
  simpl. rewrite <- H1. apply negb_true_iff, N.eqb_neq in Hne. apply negb_true_iff, bool_decide_eq_false, eq_None_not_Some in Hf.
  apply andb_true_iff in Hb as [[Hw%bool_decide_eq_true Ha]%andb_true_iff Hb]. unfold catalog_node_belongs in Ha, Hb.
  destruct (wt_nodes (workflow_tables (tx_db s1)) !! a) as [na|] eqn:Hna; [|done].
  destruct (wt_nodes (workflow_tables (tx_db s1)) !! b) as [nb|] eqn:Hnb; [|done].
  apply N.eqb_eq in Ha, Hb. do 4 (split; [done|]). by exists na, nb.
Qed.

(** ** Lemmas: the loops of a write *)

Definition node_pair (n : WorkflowNode) : string * Uuid := (ResourceNameM.as_str (wn_name n), wn_job_id n).
Definition edge_triple (e : WorkflowEdge) : string * string * DependencyCondition :=
  (ResourceNameM.as_str (we_from e), ResourceNameM.as_str (we_to e), we_condition e).

(** The identifiers name nodes of the Workflow. *)
Definition names_nodes (d : DB) (id : Uuid) (ids : gmap string Uuid) : Prop :=
  forall k x, ids !! k = Some x -> exists n, wt_nodes (workflow_tables d) !! x = Some n /\ wnr_workflow_id n = id /\ wnr_name n = k.

Lemma write_nodes_spec id ns nodes : forall ids env s ids' s',
  names_nodes (tx_db s) id ids -> write_nodes id ns nodes ids env s = (Ok ids', s') ->
  names_nodes (tx_db s') id ids' /\ graph_nodes (tx_db s') id ≡ₚ map node_pair nodes ++ graph_nodes (tx_db s) id
  /\ (catalog_ok (tx_db s) -> catalog_ok (tx_db s'))
  /\ wt_edges (workflow_tables (tx_db s')) = wt_edges (workflow_tables (tx_db s))
  /\ wt_workflows (workflow_tables (tx_db s')) = wt_workflows (workflow_tables (tx_db s))
  /\ namespaces (tx_db s') = namespaces (tx_db s).
Proof.
  induction nodes as [|node nodes IH]; intros ids env s ids' s' Hids H; cbn [write_nodes] in H; [by injection H as <- <-|].
  apply tx_bind_ok in H as (now & s1 & H1%(keeps_statement (fun d => d)) & H). apply tx_bind_ok in H as (d & s1' & [= <- <-] & H).
  apply tx_bind_ok in H as (jn & s2 & [_ ->]%tx_lift_ok & H). destruct (negb _); [done|].
  apply tx_bind_ok in H as (x & s2 & (Hx & Hdb & Hw & Hu)%insert_workflow_node_spec & H). rewrite H1 in *.
  set (row := mkWorkflowNodeRow id (ResourceNameM.as_str (wn_name node)) (wn_job_id node)) in *.
  apply IH in H as (Hn' & Hg & Hok & He & Hwf & Hns).
  - split; [done|]. rewrite Hdb in *. split; [|split; [|done]].
    + rewrite Hg, (graph_nodes_insert _ _ _ row) by done. by rewrite <- Permutation_middle.
    + intros Hc. apply Hok. by apply catalog_ok_node.
  - intros k y Hk. rewrite Hdb. simpl. destruct (decide (k = ResourceNameM.as_str (wn_name node))) as [->|Hne].
    + rewrite lookup_insert_eq in Hk. injection Hk as <-. exists row. by rewrite lookup_insert_eq.
    + rewrite lookup_insert_ne in Hk by done. destruct (Hids _ _ Hk) as (n & Hn & ?). exists n.
      rewrite lookup_insert_ne by congruence. done.
Qed.

Lemma write_edges_spec id ids edges : forall env s s',
  names_nodes (tx_db s) id ids -> tx_for edges (write_edge id ids) env s = (Ok (), s') ->
  graph_edges (tx_db s') id ≡ₚ map edge_triple edges ++ graph_edges (tx_db s) id
  /\ (catalog_ok (tx_db s) -> catalog_ok (tx_db s'))
  /\ wt_nodes (workflow_tables (tx_db s')) = wt_nodes (workflow_tables (tx_db s))
  /\ wt_workflows (workflow_tables (tx_db s')) = wt_workflows (workflow_tables (tx_db s))
  /\ namespaces (tx_db s') = namespaces (tx_db s).
Proof.
  induction edges as [|e edges IH]; intros env s s' Hids H; cbn [tx_for] in H; [by injection H as <-|].
  apply tx_bind_ok in H as ([] & s1 & H1 & H). unfold write_edge in H1.
  apply tx_bind_ok in H1 as (a & s0 & [Ha ->]%tx_lift_ok & H1). apply tx_bind_ok in H1 as (b & s0 & [Hb ->]%tx_lift_ok & H1).
  apply insert_workflow_edge_spec in H1 as (Hfree & Hne & Hw & Hdb & na & nb & Hna & Hnb & Hia & Hib).
  destruct (ids !! ResourceNameM.as_str (we_from e)) as [a'|] eqn:Hka; [|done]. injection Ha as ->.
  destruct (ids !! ResourceNameM.as_str (we_to e)) as [b'|] eqn:Hkb; [|done]. injection Hb as ->.
  apply Hids in Hka as (na' & Hna' & _ & Hfrom), Hkb as (nb' & Hnb' & _ & Hto).
  assert (na' = na) as -> by congruence. assert (nb' = nb) as -> by congruence.
  apply IH in H as (Hg & Hok & Hn & Hwf & Hns); rewrite Hdb in *; [|exact Hids].
  split; [|split; [|done]].
  - rewrite Hg, (graph_edges_insert _ _ _ _ _ na nb) by done. rewrite Hfrom, Hto. by rewrite <- Permutation_middle.
  - intros Hc. apply Hok. by eapply catalog_ok_edge.
Qed.

(** ** Lemmas: the row of a write *)

Definition written_revision (existing : option (Uuid * Z)) : Z :=
  match existing with Some (_, revision) => revision + 1 | None => 1 end.

(** What a write finds: the expected revision of the Workflow, or no such row. *)
Definition expected (d : DB) (namespace_id : Uuid) (existing : option (Uuid * Z)) (id : Uuid) : Prop :=
  match existing with
  | Some (i, revision) => id = i /\ exists w, wt_workflows (workflow_tables d) !! i = Some w
      /\ w_namespace_id w = namespace_id /\ w_revision w = revision
  | None => wt_workflows (workflow_tables d) !! id = None
  end.

(** The Workflow has no node and no edge. *)
Definition no_graph (d : DB) (id : Uuid) : Prop :=
  graph_nodes d id = [] /\ forall a b, wt_edges (workflow_tables d) !! (id, a, b) = None.

Lemma graph_without d id : no_graph (without_graph id d) id.
Proof.
  split.
  - apply omap_none. intros [x n] [_ Hn]%elem_of_map_to_list%node_without. simpl. by rewrite (proj2 (N.eqb_neq _ _) Hn).
  - intros a b. apply eq_None_not_Some. intros [_ Hne]%edge_without. done.
Qed.

Lemma graph_unknown d id :
  catalog_ok d -> wt_workflows (workflow_tables d) !! id = None -> no_graph d id.
Proof.
  intros [Hn He _] Hid. split.
  - apply omap_none. intros [x n] Hx%elem_of_map_to_list. simpl. destruct (N.eqb_spec (wnr_workflow_id n) id) as [Heq|]; [|done].
    destruct (Hn _ _ Hx) as [w Hw]. congruence.
  - intros a b. apply eq_None_not_Some. intros [[w Hw] _]%He. congruence.
Qed.

Lemma write_row_spec ns existing def env s id s' :
  write_row ns existing def env s = (Ok id, s') ->
  exists w, wt_workflows (workflow_tables (tx_db s')) = <[id := w]> (wt_workflows (workflow_tables (tx_db s)))
    /\ w_namespace_id w = ns /\ w_name w = ResourceNameM.as_str (wd_name def) /\ w_description w = wd_description def
    /\ w_revision w = written_revision existing /\ expected (tx_db s) ns existing id
    /\ (catalog_ok (tx_db s) -> catalog_ok (tx_db s') /\ no_graph (tx_db s') id).
Proof.
  intros H. destruct existing as [[i rev]|]; unfold write_row in H.
  - apply tx_bind_ok in H as ([] & s1 & H1 & H). apply tx_bind_ok in H as ([] & s2 & H2 & [= <- <-]). unfold update_workflow in H1.
    apply tx_bind_ok in H1 as (r & s0 & [Hr ->]%tx_lift_ok & H1). apply tx_bind_ok in H1 as (now & s3 & H3%(keeps_statement (fun d => d)) & H1).
    apply tx_bind_ok in H1 as ([] & s4 & [_ ->]%check_ok & H1). apply tx_bind_ok in H1 as (d & s4 & [= <- <-] & H1). rewrite H3 in H1.
    destruct (wt_workflows (workflow_tables (tx_db s)) !! i) as [w|] eqn:Hw; [|done].
    destruct (_ && _) eqn:Hc in H1; [|done]. apply andb_true_iff in Hc as [Hns%N.eqb_eq Hrev%Z.eqb_eq].
    apply tx_bind_ok in H1 as ([] & s4 & [_ ->]%check_ok & H1). apply tx_bind_ok in H1 as ([] & s4 & [_ ->]%check_ok & [= <-]).
    apply tx_bind_ok in H2 as (now2 & s5 & H5%(keeps_statement (fun d => d)) & [= <-]). simpl tx_db in *. rewrite H5, H3.
    unfold try_from in Hr. destruct (in_i64 rev); [|done]. injection Hr as <-.
    eexists. split; [reflexivity|]. split; [done|]. split; [done|]. split; [done|]. split; [simpl; by rewrite Hrev|].
    split; [split; [done|by exists w]|]. intros Hok. split; [by apply catalog_ok_without, catalog_ok_row|]. apply graph_without.
  - unfold insert_workflow in H. apply tx_bind_ok in H as (now & s3 & H3%(keeps_statement (fun d => d)) & H).
    apply tx_bind_ok in H as ([] & s4 & [_ ->]%check_ok & H). apply tx_bind_ok in H as (d & s4 & [= <- <-] & H).
    apply tx_bind_ok in H as (x & s4 & [= Hx <-] & H). apply tx_bind_ok in H as ([] & s5 & [Hf ->]%check_ok & H).
    apply tx_bind_ok in H as ([] & s5 & [_ ->]%check_ok & H). apply tx_bind_ok in H as ([] & s5 & [= <-] & [= -> <-]).
    apply andb_true_iff in Hf as [Hf%negb_true_iff%bool_decide_eq_false%eq_None_not_Some _]. simpl tx_db. rewrite H3 in *.
    eexists. split; [reflexivity|]. do 4 (split; [done|]). split; [done|]. intros Hok. split; [by apply catalog_ok_row|].
    exact (graph_unknown _ _ Hok Hf).
Qed.

(** ** Lemmas: reading a definition *)

Section Reading.
Context {PG : PostgresServer}.

Lemma catalog_reads id env s st s' :
  WorkflowStore.catalog id env s = (Ok st, s') ->
  tx_db s' = tx_db s
  /\ exists row ns, wt_workflows (workflow_tables (tx_db s)) !! id = Some row
       /\ namespaces (tx_db s) !! w_namespace_id row = Some ns
       /\ st = {| sw_id := id; sw_namespace_id := w_namespace_id row; sw_namespace := n_name ns; sw_name := w_name row;
                  sw_description := w_description row; sw_revision := w_revision row; sw_created_at := w_created_at row;
                  sw_updated_at := w_updated_at row; sw_nodes := catalog_nodes (tx_db s) id;
                  sw_edges := catalog_edges (tx_db s) id |}.
Proof.
  intros H. split; [exact (keeps_catalog (fun d => d) _ _ _ _ _ H)|]. unfold WorkflowStore.catalog in H.
  apply tx_bind_ok in H as (n1 & s1 & H1%(keeps_statement (fun d => d)) & H). apply tx_bind_ok in H as (d & s1' & [= <- <-] & H).
  apply tx_bind_ok in H as ([row nm] & s2 & [Hrow ->]%tx_lift_ok & H). apply tx_bind_ok in H as (n2 & s2 & H2%(keeps_statement (fun d => d)) & H).
  apply tx_bind_ok in H as (d2 & s2' & [= <- <-] & H). apply tx_bind_ok in H as (n3 & s3 & H3%(keeps_statement (fun d => d)) & H).
  apply tx_bind_ok in H as (d3 & s3' & [= <- <-] & H). apply tx_bind_ok in H as (rev & s4 & [Hrev ->]%tx_lift_ok & [= <- _]).
  rewrite H3, H2, H1 in *. destruct (wt_workflows (workflow_tables (tx_db s)) !! id) as [row'|] eqn:Hw; [|done].
  cbn [mbind option_bind] in Hrow. destruct (namespaces (tx_db s) !! w_namespace_id row') as [ns|] eqn:Hns; [|done].
  injection Hrow as <- <-. unfold try_from in Hrev. destruct (in_u64 _); [|done]. injection Hrev as <-. by exists row', ns.
Qed.

Lemma catalog_nodes_pairs d id : map (fun n => (sn_name n, sn_job_id n)) (catalog_nodes d id) ≡ₚ graph_nodes d id.
Proof.
  unfold catalog_nodes. rewrite sort_by_Permutation, map_omap. unfold graph_nodes.
  apply reflexive_eq. apply list_omap_ext, Forall_Forall2_diag, Forall_true. intros kv. by destruct (_ =? _)%N.
Qed.

Definition stored_triple (e : string * string * DependencyCondition) : string * string * string := (e.1, condition_name e.2).

Lemma catalog_edges_triples d id :
  map (fun e => (se_from e, se_to e, se_condition e)) (catalog_edges d id) ≡ₚ map stored_triple (graph_edges d id).
Proof.
  unfold catalog_edges. rewrite sort_by_Permutation, map_omap. unfold graph_edges. rewrite map_omap.
  apply reflexive_eq. apply list_omap_ext, Forall_Forall2_diag, Forall_true. intros kv. destruct (_ =? _)%N; [|done].
  destruct (wt_nodes _ !! kv.1.1.2); [|done]. simpl. by destruct (wt_nodes _ !! kv.1.2).
Qed.

Lemma condition_ok v c : condition v = Ok c -> condition_name c = v.
Proof.
  unfold condition. destruct (String.eqb_spec v "success") as [->|]; [by intros [= <-]|].
  destruct (String.eqb_spec v "failure") as [->|]; [by intros [= <-]|].
  destruct (String.eqb_spec v "always") as [->|]; [by intros [= <-]|done].
Qed.

Lemma record_reads st r : record st = Ok r ->
  wrec_id r = sw_id st /\ wrec_namespace_id r = sw_namespace_id st /\ wrec_revision r = sw_revision st
  /\ ResourceNameM.as_str (wd_name (wrec_definition r)) = sw_name st /\ wd_description (wrec_definition r) = sw_description st
  /\ map node_pair (wd_nodes (wrec_definition r)) = map (fun n => (sn_name n, sn_job_id n)) (sw_nodes st)
  /\ map (fun e => stored_triple (edge_triple e)) (wd_edges (wrec_definition r))
     = map (fun e => (se_from e, se_to e, se_condition e)) (sw_edges st).
Proof.
  intros H. unfold record in H. apply result_bind_ok in H as (def & Hdef & H). apply result_bind_ok in H as ([] & _ & H).
  apply result_bind_ok in H as (ns & _ & [= <-]). unfold stored_definition in Hdef.
  apply result_bind_ok in Hdef as (name & Hname%resource_name_ok & Hdef). apply result_bind_ok in Hdef as (nodes & Hn & Hdef).
  apply result_bind_ok in Hdef as (edges & He & [= <-]). cbn. do 5 (split; [done|]). split.
  - eapply collect_map; [|exact Hn]. intros x y Hy. apply result_bind_ok in Hy as (n & Hx%resource_name_ok & [= <-]).
    unfold node_pair. simpl. by rewrite Hx.
  - eapply collect_map; [|exact He]. intros x y Hy. apply result_bind_ok in Hy as (f & Hf%resource_name_ok & Hy).
    apply result_bind_ok in Hy as (t & Ht%resource_name_ok & Hy). apply result_bind_ok in Hy as (c & Hc%condition_ok & [= <-]).
    unfold stored_triple, edge_triple. simpl. by rewrite Hf, Ht, Hc.
Qed.

(** ** Lemmas: definitions are determined by their texts *)

Lemma map_inverse_Permutation {A B} (f : A -> B) (g : B -> A) l l' :
  (forall x, g (f x) = x) -> map f l ≡ₚ map f l' -> l ≡ₚ l'.
Proof.
  intros Hg H. apply (Permutation_map g) in H. rewrite !map_map in H.
  rewrite (map_ext _ (fun x => x)), map_id in H by done. by rewrite (map_ext _ (fun x => x)), map_id in H by done.
Qed.

Lemma as_str_inj (a b : ResourceName) : ResourceNameM.as_str a = ResourceNameM.as_str b -> a = b.
Proof. destruct a, b. simpl. congruence. Qed.

Lemma node_pairs_determine l l' : map node_pair l ≡ₚ map node_pair l' -> l ≡ₚ l'.
Proof.
  apply (map_inverse_Permutation _ (fun p => mkWorkflowNode (MkResourceName p.1) p.2)). by intros [[n] j].
Qed.

Lemma edge_triples_determine l l' :
  map (fun e => stored_triple (edge_triple e)) l ≡ₚ map (fun e => stored_triple (edge_triple e)) l' -> l ≡ₚ l'.
Proof.
  apply (map_inverse_Permutation _ (fun p => mkWorkflowEdge (MkResourceName p.1.1) (MkResourceName p.1.2)
    (match condition p.2 with Ok c => c | Err _ => Success end))). by intros [[f] [t] []].
Qed.

(** The definition a record carries is the one written, up to the order of rows. *)
Definition same_definition (a b : WorkflowDefinition) : Prop :=
  wd_name a = wd_name b /\ wd_description a = wd_description b /\ wd_nodes a ≡ₚ wd_nodes b /\ wd_edges a ≡ₚ wd_edges b.

#[export] Instance same_definition_equivalence : Equivalence same_definition.
Proof.
  split.
  - intros a. done.
  - intros a b (? & ? & ? & ?). done.
  - intros a b c (? & ? & ? & ?) (? & ? & ? & ?). repeat split; etrans; eauto.
Qed.

(** ** Lemmas: the transaction of a write *)

Lemma transaction_committed {A} (body : tx (outcome A)) env s a s' :
  (forall s1 b s2, body env s1 <> (Ok (Rollback b), s2)) -> (forall s1 b s2, body env s1 <> (Ok (Dropped b), s2)) ->
  transaction body env s = (Ok a, s') ->
  exists s1 s2, tx_db s1 = tx_db s /\ body env s1 = (Ok (Commit a), s2) /\ tx_db s' = tx_db s2.
Proof.
  intros Hr Hd H. unfold transaction in H. destruct (tx_bind statement _ env s) as [[out|e] s2] eqn:H1; [|done].
  apply tx_bind_ok in H1 as (now & s1 & H0%(keeps_statement (fun d => d)) & H1). destruct out as [b|b|b].
  - destruct (e_fault env _); [done|]. injection H as <- <-. by exists s1, s2.
  - by apply Hr in H1.
  - by apply Hd in H1.
Qed.

Lemma write_spec ns existing def env s r s' :
  write ns existing def env s = (Ok r, s') -> catalog_ok (tx_db s) ->
  catalog_ok (tx_db s') /\ same_definition (wrec_definition r) def /\ wrec_namespace_id r = ns
  /\ wrec_revision r = written_revision existing /\ expected (tx_db s) ns existing (wrec_id r)
  /\ exists st, record st = Ok r /\ exists env1 s1 s2, tx_db s1 = tx_db s' /\ WorkflowStore.catalog (wrec_id r) env1 s1 = (Ok st, s2).
Proof.
  intros H Hok. unfold write in H. apply tx_bind_ok in H as ([] & s0 & [_ ->]%tx_lift_ok & H).
  apply transaction_committed in H as (s1 & s9 & Hs1 & H & Hs9).
  2:{ intros x b y Hx. repeat (apply tx_bind_ok in Hx as (? & ? & _ & Hx)). done. }
  2:{ intros x b y Hx. repeat (apply tx_bind_ok in Hx as (? & ? & _ & Hx)). done. }
  rewrite <- Hs1 in Hok |- *. rewrite Hs9. clear Hs1 Hs9 s s'.
  apply tx_bind_ok in H as (id & s2 & (w & Hw & Hns & Hname & Hdesc & Hrev & Hexp & Hgraph)%write_row_spec & H).
  destruct (Hgraph Hok) as (Hok2 & Hn2 & He2). apply tx_bind_ok in H as (ids & s3 & H3%write_nodes_spec & H); [|done].
  destruct H3 as (Hids & Hgn & Hok3 & Hed & Hwf3 & Hns3). apply tx_bind_ok in H as ([] & s4 & H4%write_edges_spec & H); [|done].
  destruct H4 as (Hge & Hok4 & Hnd & Hwf4 & Hns4). apply tx_bind_ok in H as (st & s5 & H5 & H).
  apply tx_bind_ok in H as (r' & s6 & [Hrec ->]%tx_lift_ok & [= -> ->]).
  pose proof (catalog_reads _ _ _ _ _ H5) as (Hdb5 & row & nsr & Hrow & Hnsr & Hst). rewrite Hdb5.
  pose proof (record_reads _ _ Hrec) as (Hid & Hnsid & Hrevr & Hnr & Hdr & Hnodes & Hedges). rewrite Hst in *. simpl in *.
  rewrite Hwf4, Hwf3, Hw, lookup_insert_eq in Hrow. injection Hrow as <-.
  split; [auto|]. split; [|split; [congruence|split; [congruence|split; [by rewrite Hid|]]]].
  - split; [apply as_str_inj; congruence|]. split; [congruence|]. split.
    + apply node_pairs_determine. rewrite Hnodes, catalog_nodes_pairs. unfold graph_nodes in Hgn |- *. rewrite Hnd, Hgn.
      fold (graph_nodes (tx_db s2) id). by rewrite Hn2, app_nil_r.
    + apply edge_triples_determine. rewrite Hedges, catalog_edges_triples, Hge, graph_edges_none, app_nil_r by (by rewrite Hed).
      by rewrite map_map.
  - eexists. split; [exact Hrec|]. rewrite Hid. exists env, s4. eexists. split; [|exact H5]. done.
Qed.

End Reading.

(** ** Histories of the catalog *)

Section Theorems.
Context {PG : PostgresServer}.

Inductive catalog_step (d d' : DB) : Prop :=
| CSWrite ns existing def res : call (write ns existing def) d res d' -> catalog_step d d'
| CSDelete id res : call (delete_workflow id) d res d' -> catalog_step d d'.

(** A call that only writes. *)
Definition write_step (d d' : DB) : Prop := exists ns existing def res, call (write ns existing def) d res d'.

(** A transaction whose committed body keeps a property of the database keeps it. *)
Lemma transaction_preserves {A} (P : DB -> Prop) (body : tx (outcome A)) env s res s' :
  (forall s1 a s2, tx_db s1 = tx_db s -> body env s1 = (Ok (Commit a), s2) -> P (tx_db s2)) ->
  P (tx_db s) -> transaction body env s = (res, s') -> P (tx_db s').
Proof.
  intros Hb Hp H. unfold transaction in H. destruct (tx_bind statement _ env s) as [[out|e] s1] eqn:H1.
  2:{ by injection H as <- <-. }
  apply tx_bind_ok in H1 as (now & s0 & H0%(keeps_statement (fun d => d)) & H1). destruct out as [a|a|a].
  - pose proof (Hb _ _ _ H0 H1) as Hp'. destruct (e_fault env _); injection H as <- <-; [|done].
    by destruct (e_commit_applied env _).
  - by injection H as <- <-.
  - by injection H as <- <-.
Qed.

(** What a committed write leaves. *)
Lemma write_commits ns existing def env s a s' :
  (let! id := write_row ns existing def in
   let! ids := write_nodes id ns (wd_nodes def) ∅ in
   let! _ := tx_for (wd_edges def) (write_edge id ids) in
   let! stored := WorkflowStore.catalog id in
   let! r := tx_lift (record stored) in
   tx_ret (Commit r)) env s = (Ok (Commit a), s') ->
  (catalog_ok (tx_db s) -> catalog_ok (tx_db s'))
  /\ exists id w, expected (tx_db s) ns existing id /\ w_revision w = written_revision existing
       /\ wt_workflows (workflow_tables (tx_db s')) = <[id := w]> (wt_workflows (workflow_tables (tx_db s))).
Proof.
  intros H. apply tx_bind_ok in H as (id & s2 & (w & Hw & _ & _ & _ & Hrev & Hexp & Hgraph)%write_row_spec & H).
  apply tx_bind_ok in H as (ids & s3 & H3%write_nodes_spec & H); [|done]. destruct H3 as (Hids & _ & Hok3 & _ & Hwf3 & _).
  apply tx_bind_ok in H as ([] & s4 & H4%write_edges_spec & H); [|done]. destruct H4 as (_ & Hok4 & _ & Hwf4 & _).
  apply tx_bind_ok in H as (st & s5 & H5%(keeps_catalog (fun d => d)) & H). apply tx_bind_ok in H as (r' & s6 & [_ ->]%tx_lift_ok & [= _ <-]).
  rewrite H5. split; [intros Hok; apply Hok4, Hok3; by apply Hgraph|]. exists id, w. split; [done|]. split; [done|]. congruence.
Qed.

Lemma write_preserves (P : DB -> Prop) ns existing def env s res s' :
  (forall d d' id w, P d -> expected d ns existing id -> w_revision w = written_revision existing ->
     wt_workflows (workflow_tables d') = <[id := w]> (wt_workflows (workflow_tables d)) ->
     (catalog_ok d -> catalog_ok d') -> P d') ->
  P (tx_db s) -> write ns existing def env s = (res, s') -> P (tx_db s').
Proof.
  intros Hstep Hp H. unfold write in H. unfold tx_bind in H at 1.
  destruct (map_err _ (validate def)) as [[]|e]; [|by injection H as <- <-]. simpl in H.
  eapply transaction_preserves; [|exact Hp|exact H]. clear H. intros s1 a s2 Hs1 H.
  apply write_commits in H as (Hok & id & w & Hexp & Hrev & Hwf). rewrite <- Hs1 in Hp. by eapply Hstep.
Qed.

Lemma catalog_step_ok d d' : catalog_step d d' -> catalog_ok d -> catalog_ok d'.
Proof.
  intros [ns existing def res (env & n & u & s' & H & <-)|id res (env & n & u & s' & H & <-)] Hok.
  - exact (write_preserves catalog_ok ns existing def env (mkTx d n u) res s' (fun _ _ _ _ Hd _ _ _ Hk => Hk Hd) Hok H).
  - unfold delete_workflow in H. unfold tx_bind in H at 1. destruct (statement env (mkTx d n u)) as [[now|e] s1] eqn:H1;
      apply (keeps_statement (fun d => d)) in H1; simpl in H1; [|injection H as _ <-; by rewrite H1].
    cbn in H. rewrite H1 in H. destruct (has _ id); [|injection H as _ <-; by rewrite H1].
    unfold check, tx_bind in H. destruct (negb _); simpl in H; injection H as _ <-; simpl; rewrite H1; [|done].
    by apply catalog_ok_delete.
Qed.

(** The catalog of Workflows keeps its constraints: after any sequence of creations,
    replacements and deletions, with any faults and lost commits, every node belongs
    to an existing Workflow, every edge joins two distinct nodes of its own Workflow,
    and the names of a Workflow's nodes are distinct. *)
Theorem catalog_constraints_kept d d' : rtc catalog_step d d' -> catalog_ok d -> catalog_ok d'.
Proof. induction 1 as [|d1 d2 d3 H _ IH]; [done|]. intros Hok. eapply IH, catalog_step_ok; eauto. Qed.

(** Writing and reading a Workflow are inverse: the record a creation or a
    replacement answers with carries the definition written, up to the order of
    rows, the next revision and the Namespace, and a later read answers with exactly
    that record. *)
Theorem write_read_roundtrip ns existing def d r d' r' d'' :
  catalog_ok d -> call (write ns existing def) d (Ok r) d' -> call (get_workflow (wrec_id r)) d' (Ok r') d'' ->
  r' = r /\ d'' = d' /\ same_definition (wrec_definition r) def /\ wrec_namespace_id r = ns
  /\ wrec_revision r = written_revision existing.
Proof.
  intros Hok (env & n & u & s' & H & <-) (env2 & n2 & u2 & s2 & H2 & <-).
  destruct (write_spec _ _ _ _ (mkTx d n u) _ _ H Hok) as (_ & Hsame & Hns & Hrev & _ & st & Hrec & env1 & t1 & t2 & Hdb & Hcat).
  unfold get_workflow in H2. apply transaction_committed in H2 as (v1 & v2 & Hv1 & H2 & Hv2).
  2,3: intros x b y Hx; repeat (apply tx_bind_ok in Hx as (? & ? & _ & Hx)); done.
  apply tx_bind_ok in H2 as (st2 & v3 & Hcat2 & H2). apply tx_bind_ok in H2 as (r2 & v4 & [Hrec2 ->]%tx_lift_ok & [= <- <-]).
  apply catalog_reads in Hcat as (_ & row & nsr & Hrow & Hnsr & ->), Hcat2 as (Hdb2 & row2 & nsr2 & Hrow2 & Hnsr2 & ->).
  simpl in Hv1. rewrite Hv1, <- Hdb in *. assert (row2 = row) as -> by congruence. assert (nsr2 = nsr) as -> by congruence.
  split; [congruence|]. split; [congruence|]. done.
Qed.

(** Writes only raise revisions. *)
Lemma revision_grows id revision d d' :
  write_step d d' -> (exists w, wt_workflows (workflow_tables d) !! id = Some w /\ revision < w_revision w) ->
  exists w, wt_workflows (workflow_tables d') !! id = Some w /\ revision < w_revision w.
Proof.
  intros (ns & existing & def & res & env & n & u & s' & H & <-) Hw.
  refine (write_preserves (fun d => exists w, wt_workflows (workflow_tables d) !! id = Some w /\ revision < w_revision w)
    ns existing def env (mkTx d n u) res s' _ Hw H).
  clear. intros d d' x w' (w & Hw & Hlt) Hexp Hrev Hwf _. rewrite Hwf. destruct (decide (x = id)) as [->|Hne].
  - exists w'. rewrite lookup_insert_eq. split; [done|]. unfold expected, written_revision in *.
    destruct existing as [[i r]|]; [|congruence]. destruct Hexp as (-> & w0 & Hw0 & _ & <-). assert (w0 = w) as -> by congruence. lia.
  - exists w. by rewrite lookup_insert_ne.
Qed.

(** Editors cannot overwrite one another: after a replacement at some revision was
    accepted, and whatever is written afterwards, a replacement that names the
    same revision is refused and changes nothing. *)
Theorem edits_serialized ns id revision def d1 r d2 d3 ns' def' res d4 :
  call (write ns (Some (id, revision)) def) d1 (Ok r) d2 -> rtc write_step d2 d3 ->
  call (write ns' (Some (id, revision)) def') d3 res d4 -> is_err res = true /\ d4 = d3.
Proof.
  intros (env & n & u & s' & H & <-) Hsteps (env2 & n2 & u2 & s2 & H2 & <-).
  assert (exists w, wt_workflows (workflow_tables d3) !! id = Some w /\ revision < w_revision w) as (w & Hw & Hlt).
  { assert (exists w, wt_workflows (workflow_tables (tx_db s')) !! id = Some w /\ revision < w_revision w) as Hs.
    - unfold write in H. apply tx_bind_ok in H as ([] & s0 & [_ ->]%tx_lift_ok & H).
      apply transaction_committed in H as (t1 & t2 & Ht1 & H & ->);
        [|intros x b y Hx; repeat (apply tx_bind_ok in Hx as (? & ? & _ & Hx)); done..].
      apply write_commits in H as (_ & x & w & [-> _] & Hrev & ->). exists w. rewrite lookup_insert_eq. split; [done|].
      rewrite Hrev. simpl. lia.
    - revert Hs. clear H H2. induction Hsteps as [|e1 e2 e3 Hstep _ IH]; [done|]. intros Hs. eapply IH, revision_grows; eauto. }
  unfold write in H2. unfold tx_bind in H2 at 1. destruct (map_err _ (validate def')) as [[]|e]; [|by injection H2 as <- <-].
  simpl in H2. unfold transaction in H2. destruct (tx_bind statement _ env2 _) as [[out|e] t1] eqn:Ht.
  - exfalso. apply tx_bind_ok in Ht as (now & t0 & H0%(keeps_statement (fun d => d)) & Ht).
    apply tx_bind_ok in Ht as (x & t2 & Hx & _).
    apply (write_row_spec ns' (Some (id, revision)) def') in Hx as (w' & _ & _ & _ & _ & _ & (-> & w0 & Hw0 & _ & Hr) & _).
    simpl in H0. rewrite H0 in Hw0. assert (w0 = w) as -> by congruence. lia.
  - by injection H2 as <- <-.
Qed.

End Theorems.

(** ** Witnesses *)

Definition example_definition (job : Uuid) : WorkflowDefinition :=
  {| wd_name := MkResourceName "nightly"; wd_description := None;
     wd_nodes := [mkWorkflowNode (MkResourceName "load") job; mkWorkflowNode (MkResourceName "extract") job];
     wd_edges := [mkWorkflowEdge (MkResourceName "extract") (MkResourceName "load") Success] |}.

Definition write_example : tx WorkflowRecord := write 1 None (example_definition 3).
Definition c_written : DB := after write_example (quiet 1000 100) (Scenario.catalog true).
Definition edit_example : tx WorkflowRecord := write 1 (Some (100%N, 1)) (example_definition 3).
Definition c_edited : DB := after edit_example (quiet 1100 200) c_written.

Lemma catalog_ok_empty idem : catalog_ok (Scenario.catalog idem).
Proof. split; simpl; [done| |done]. by intros w a b [c Hc]. Qed.

Lemma catalog_constraints_kept_witness : catalog_ok c_edited.
Proof.
  apply (catalog_constraints_kept (Scenario.catalog true) c_edited); [|apply catalog_ok_empty].
  eapply rtc_l; [exact (CSWrite _ _ _ _ _ _ (call_after write_example (quiet 1000 100) (Scenario.catalog true)))|].
  apply rtc_once. exact (CSWrite _ _ _ _ _ _ (call_after edit_example (quiet 1100 200) c_written)).
Defined.

Lemma write_read_roundtrip_witness :
  exists r, answer write_example (quiet 1000 100) (Scenario.catalog true) = Ok r /\ wrec_revision r = 1
    /\ same_definition (wrec_definition r) (example_definition 3).
Proof.
  destruct (answer write_example (quiet 1000 100) (Scenario.catalog true)) as [r|e] eqn:Hr; [|vm_compute in Hr; discriminate].
  destruct (answer (get_workflow (wrec_id r)) (quiet 1200 300) c_written) as [r'|e] eqn:Hg.
  2:{ vm_compute in Hr. injection Hr as <-. vm_compute in Hg. discriminate. }
  exists r. split; [reflexivity|].
  destruct (write_read_roundtrip _ _ _ _ _ _ _ _ (catalog_ok_empty true) (call_ok write_example _ _ _ Hr)
    (call_ok (get_workflow (wrec_id r)) _ _ _ Hg)) as (_ & _ & Hs & _ & Hrev).
  split; [exact Hrev|exact Hs].
Defined.

Lemma edits_serialized_witness :
  is_err (answer edit_example (quiet 1300 400) c_edited) = true /\ after edit_example (quiet 1300 400) c_edited = c_edited.
Proof.
  destruct (answer edit_example (quiet 1100 200) c_written) as [r|e] eqn:Hr; [|vm_compute in Hr; discriminate].
  exact (edits_serialized 1 100 1 (example_definition 3) c_written r c_edited c_edited 1 (example_definition 3) _ _
    (call_ok edit_example _ _ _ Hr) (rtc_refl _ _) (call_after edit_example (quiet 1300 400) c_edited)).
Defined.
