(* ===== verification/CatalogHistory.v ===== *)
(** * The catalog in every history

    Execution leaves the catalog alone, planning moves only the state of a
    Schedule, and each catalog write preserves its invariant: rows are well
    typed after any sequence of calls, so reading one never fails internally. *)

From S2P Require Import Prelude RustStr Json Inputs Names Float Domain Auth Workflow Db Snapshot TxLogic Store WorkflowStore Catalog Queries WorkflowDefinitions Lifecycle Refinement WorkflowRefinement StoreSystem CatalogTheorems Scenario StoreBehaviour PlannerTheorems Orchestration Launch.
From Stdlib Require Import String.
From stdpp Require Import base numbers strings sorting gmap list relations.

Local Open Scope Z_scope.

Definition catalog_tables (d : DB) :=
  (namespaces d, queues d, jobs d, targets d, target_sets d, target_set_members d, schedules d).

Lemma typed_ext d d' : catalog_tables d' = catalog_tables d -> catalog_typed d -> catalog_typed d'.
Proof.
  intros [= H1 H2 H3 H4 H5 H6 H7] [? ? ? ? ? ? Hs ?]. split; rewrite ?H1, ?H2, ?H3, ?H4, ?H5, ?H6, ?H7; try done.
  intros id s Hid. specialize (Hs id s Hid).
  unfold schedule_typed, schedule_references, schedule_namespace_match in *. by rewrite H1, H3, H4, H5.
Qed.

Lemma keeps_typed {A} (m : tx A) : keeps catalog_tables m -> all_pres catalog_typed m.
Proof. intros Hm env s res s' H. apply typed_ext. by eapply Hm. Qed.

(** ** Lemmas: execution leaves the catalog alone *)

Lemma tables_enqueue now id old new d : catalog_tables (enqueue_workflow_completion now id old new d) = catalog_tables d.
Proof. unfold enqueue_workflow_completion. by repeat case_match. Qed.

Section Execution.
Context {SJ : SerdeJson} {RF : RustFmt} {PG : PostgresServer} {TC : TimeCrate} {SE : SnapshotEncoding}.

Lemma tables_update_run texts id cond f : keeps catalog_tables (update_run texts id cond f).
Proof. unfold update_run, bind_texts. keeps_tac. apply keeps_modify. intros d. by rewrite tables_enqueue. Qed.

Lemma tables_update_attempt texts id cond f : keeps catalog_tables (update_attempt texts id cond f).
Proof. unfold update_attempt, bind_texts. keeps_tac. Qed.

Lemma tables_update_outbox texts id cond f : keeps catalog_tables (update_outbox texts id cond f).
Proof. unfold update_outbox, bind_texts. keeps_tac. Qed.

Lemma tables_dispatch run attempt queue deadline : keeps catalog_tables (create_attempt_and_outbox run attempt queue deadline).
Proof. unfold create_attempt_and_outbox, insert_attempt, insert_outbox. keeps_tac. Qed.

Lemma tables_run_request r ns j a b i : keeps catalog_tables (insert_run_request r ns j a b i).
Proof. unfold insert_run_request. keeps_tac. Qed.

Ltac tables_ops := repeat first
  [ apply keeps_statement | apply keeps_check | apply tables_update_run | apply tables_update_attempt
  | apply tables_update_outbox | apply tables_dispatch | apply tables_run_request
  | apply keeps_create_normal_run; intros; reflexivity | apply keeps_load_selection | apply keeps_render
  | apply keeps_transaction | apply keeps_bind; [|intros ?]
  | apply keeps_for; intros ? | apply keeps_modify; intros ?; reflexivity
  | case_match | apply keeps_step; intros ? ?; reflexivity ].

Lemma tables_worker_calls :
  (forall r, keeps catalog_tables (claim_attempt r)) /\ (forall r, keeps catalog_tables (renew_lease r))
  /\ (forall r, keeps catalog_tables (record_attempt_output r)) /\ (forall r, keeps catalog_tables (complete_attempt r))
  /\ (forall r, keeps catalog_tables (record_worker_heartbeat r)).
Proof.
  split_and!; intros r; [unfold claim_attempt|unfold renew_lease|unfold record_attempt_output|unfold complete_attempt
    |unfold record_worker_heartbeat]; unfold insert_run_event, bind_texts, bind_jsons; tables_ops.
Qed.

Lemma tables_outbox_calls :
  (forall o l n, keeps catalog_tables (claim_outbox o l n)) /\ (forall o r n, keeps catalog_tables (mark_published o r n))
  /\ (forall o i m n, keeps catalog_tables (record_publish_failure o i m n)).
Proof.
  split_and!; intros; [unfold claim_outbox|unfold mark_published|unfold record_publish_failure];
    unfold insert_run_event, bind_texts; tables_ops.
Qed.

Lemma tables_request_calls :
  (forall r j t i, keeps catalog_tables (create_runs r j t i)) /\ (forall x r, keeps catalog_tables (insert_rerun x r)).
Proof.
  split; intros; [unfold create_runs, create_runs_transaction|unfold insert_rerun, insert_rerun_transaction];
    unfold existing_rerun, find_run_request, compare_run_request, runs_for_request, json_inputs_equal, insert_run,
      bind_texts, insert_run_event; tables_ops.
Qed.

Lemma tables_activate id : keeps catalog_tables (activate id).
Proof. by apply keeps_activate. Qed.

Lemma tables_reconcile locked limit : keeps catalog_tables (reconcile locked limit).
Proof.
  assert (forall l, keeps catalog_tables (complete_nodes l)) as H1.
  { induction l as [|x l IH]; simpl; unfold complete_node, update_node, outgoing; keeps_tac; exact IH. }
  assert (forall fuel l, keeps catalog_tables (propagate fuel l)) as H2.
  { induction fuel as [|fuel IH]; intros l; simpl; [by apply keeps_step|]. destruct l as [|x l]; [by apply keeps_step|].
    apply keeps_bind; [|intros more; apply IH]. unfold propagate_one, update_node, outgoing. keeps_tac; apply tables_activate. }
  assert (forall n, keeps catalog_tables (reconcile_workflows n)) as H3.
  { induction n as [|n IH]; simpl; [by apply keeps_step|]. apply keeps_bind; [|intros []; keeps_tac; exact IH].
    apply keeps_transaction. unfold finish. keeps_tac; auto. }
  unfold reconcile. apply keeps_bind; [|intros n; apply keeps_bind; [apply H3|intros m; by apply keeps_step]].
  unfold reconcile_transaction, reconcile_expired_dispatches, reconcile_due_retries, reconcile_expired_leases,
    remove_expired_worker_presence, release_expired_claims, expire_dispatch, expire_lease, start_retry,
    insert_run_event. tables_ops.
Qed.

Lemma tables_cancel id : keeps catalog_tables (cancel_run id).
Proof. apply keeps_transaction. unfold finish. keeps_tac; apply keeps_node_records. Qed.

Lemma tables_prepare_nodes id ns launch nodes : forall ids bytes count,
  keeps catalog_tables (prepare_nodes_loop id ns launch nodes ids bytes count).
Proof.
  induction nodes as [|node nodes IH]; intros ids bytes count; [by apply keeps_step|]. cbn [prepare_nodes_loop].
  apply keeps_bind; [apply keeps_fresh_uuid|intros x]. apply keeps_bind; [unfold insert_node_run; keeps_tac|intros []].
  apply keeps_bind; [by apply keeps_require_run_request|intros []].
  apply keeps_bind; [apply keeps_load_selection|intros [ex si]]. do 2 (apply keeps_bind; [apply keeps_check|intros []]).
  apply keeps_bind; [by apply keeps_prepare_executions|intros b]. apply IH.
Qed.

End Execution.

(** ** Lemmas: planning moves only the state of a Schedule *)

Lemma alter_all_case {A} (f : A -> A) (P : A -> Prop) ids (m : gmap Uuid A) id x :
  (forall a, P a -> P (f a)) -> (forall k a, m !! k = Some a -> P a) -> alter_all f ids m !! id = Some x -> P x.
Proof.
  intros Hf Hm. revert id x. induction ids as [|i ids IH]; intros id x; simpl; [apply Hm|].
  destruct (decide (i = id)) as [->|]; [|rewrite lookup_alter_ne by done; apply IH].
  rewrite lookup_alter_eq. intros (a & Ha & ->)%fmap_Some. by eapply Hf, IH.
Qed.

Lemma alter_all_keys {A K} (f : A -> A) (key : A -> K) ids (m : gmap Uuid A) :
  (forall a, key (f a) = key a) -> distinct_keys m key -> distinct_keys (alter_all f ids m) key.
Proof.
  intros Hf Hd. assert (forall id x, alter_all f ids m !! id = Some x -> exists a, m !! id = Some a /\ key a = key x) as H.
  { induction ids as [|i ids IH]; intros id x; simpl; [eauto|].
    destruct (decide (i = id)) as [->|]; [|rewrite lookup_alter_ne by done; apply IH].
    rewrite lookup_alter_eq. intros (a & Ha & ->)%fmap_Some. rewrite Hf. by apply IH. }
  intros x y a b (a' & Ha & Hka)%H (b' & Hb & Hkb)%H Hk. eapply Hd; [exact Ha|exact Hb|congruence].
Qed.

Section Planning.
Context {SJ : SerdeJson} {RF : RustFmt} {PG : PostgresServer} {TC : TimeCrate} {SE : SnapshotEncoding}.

Lemma claim_due_schedules_typed owner limit lease : all_pres catalog_typed (claim_due_schedules owner limit lease).
Proof.
  apply all_pres_bind; [by apply keeps_typed, keeps_step|intros seconds].
  apply all_pres_bind; [apply keeps_typed, keeps_statement|intros now].
  apply all_pres_bind; [by apply keeps_typed, keeps_step|intros locked].
  apply all_pres_bind; [by apply keeps_typed, keeps_step|intros d].
  apply all_pres_bind; [|intros []; apply keeps_typed; keeps_tac].
  intros env s res s' [= <- <-] Ht. simpl.
  set (ids := select_ids _ _ _ _). set (g := claim_schedule _ _).
  apply (typed_schedules (tx_db s) (alter_all g ids (schedules (tx_db s)))); [done| |].
  - intros id x. apply alter_all_case; [|intros k a; apply (ct_schedule _ Ht)].
    intros a Ha. apply typed_schedule_set; [done|]. by eapply schedule_revision.
  - apply alter_all_keys; [done|apply (ct_keys _ Ht)].
Qed.

Lemma set_schedule_enabled_typed id revision enabled next : all_pres catalog_typed (set_schedule_enabled id revision enabled next).
Proof.
  intros env s res s' H Ht. unfold set_schedule_enabled, stored_revision in H.
  unfold tx_bind, check, tx_get, tx_modify, tx_ret, tx_fail, tx_lift, statement, try_from in H.
  repeat (case_match; simplify_eq/=); try done; simp_bool;
    (eapply typed_replace_schedule; [done|eassumption|apply typed_schedule_set; [by eapply ct_schedule|]|done]);
    match goal with Hs : schedules _ !! _ = Some ?r |- _ =>
      pose proof (schedule_revision _ _ (ct_schedule _ Ht _ _ Hs)) end; lia.
Qed.

Lemma commit_schedule_plan_typed plan : all_pres catalog_typed (commit_schedule_plan plan).
Proof.
  apply all_pres_transaction.
  apply pres_bind; [apply all_pres_pres, keeps_typed, keeps_statement|intros now].
  apply pres_bind; [by apply all_pres_pres, keeps_typed, keeps_step|intros d].
  apply pres_bind; [by apply all_pres_pres, keeps_typed, keeps_step|intros schedule].
  apply pres_bind; [by apply all_pres_pres, keeps_typed, keeps_step|intros selection].
  apply pres_bind; [apply all_pres_pres, keeps_typed, keeps_load_selection|intros [executions inputs]].
  apply pres_bind.
  { apply all_pres_pres, keeps_typed, keeps_for. intros oc. apply keeps_for. intros x.
    unfold insert_scheduled_occurrence, insert_run, insert_run_event, insert_schedule_event, bind_texts. keeps_tac; apply tables_dispatch. }
  intros []. apply pres_bind; [apply all_pres_pres, keeps_typed, keeps_statement|intros now2].
  intros env s a s' H Ht. apply tx_bind_ok in H as (d2 & s1 & [= <- <-] & H).
  destruct (schedules (tx_db s) !! sp_schedule_id plan) as [r|] eqn:Hr; [|done].
  destruct (bool_decide _); [|done]. apply tx_bind_ok in H as ([] & s2 & [= <-] & [= _ <-]).
  pose proof (ct_schedule _ Ht _ _ Hr) as Hty.
  apply (typed_replace_schedule _ _ r); [done|done| |done]. apply typed_schedule_set; [done|]. by eapply schedule_revision.
Qed.

Lemma start_typed launch : all_pres catalog_typed (start launch).
Proof.
  apply keeps_typed, keeps_transaction. apply keeps_bind; [apply keeps_statement|intros n1].
  apply keeps_bind; [apply keeps_statement|intros n2]. apply keeps_bind; [by apply keeps_step|intros d].
  destruct (invocation_for_request _ _) as [id|].
  - apply keeps_bind; [apply keeps_replay|intros r; by apply keeps_step].
  - apply keeps_bind; [apply keeps_catalog|intros definition]. destruct (negb _); [by apply keeps_step|].
    apply keeps_bind; [apply keeps_fresh_uuid|intros id].
    apply keeps_bind; [unfold insert_invocation, bind_jsons; destruct (selection_ids _); keeps_tac|intros []].
    apply keeps_bind; [apply keeps_statement|intros n3]. apply keeps_bind; [apply keeps_statement|intros n4].
    apply keeps_bind; [apply tables_prepare_nodes|intros ids].
    apply keeps_bind; [apply keeps_for; intros e; unfold insert_run_edge; keeps_tac|intros []].
    apply keeps_bind; [apply keeps_for; intros node; apply keeps_bind; [by apply keeps_step|intros x; apply tables_activate]|intros []].
    apply keeps_bind; [apply keeps_invocation|intros r; by apply keeps_step].
Qed.

Lemma write_tables ns existing def : keeps catalog_tables (write ns existing def).
Proof.
  unfold write. apply keeps_bind; [by apply keeps_step|intros ?]. apply keeps_transaction.
  apply keeps_bind.
  { unfold write_row, update_workflow, delete_workflow_nodes, insert_workflow, bind_texts. keeps_tac. }
  intros id. apply keeps_bind; [|intros ids; unfold write_edge, insert_workflow_edge, WorkflowStore.catalog; keeps_tac].
  generalize (∅ : gmap string Uuid). induction (wd_nodes def) as [|node nodes IH]; intros ids; simpl; [by apply keeps_step|].
  unfold insert_workflow_node. keeps_tac. apply IH.
Qed.

(** One call, catalog or execution. *)
Lemma store_step_typed d d' : store_step d d' -> catalog_typed d -> catalog_typed d'.
Proof.
  pose proof tables_worker_calls as (W1 & W2 & W3 & W4 & W5). pose proof tables_outbox_calls as (B1 & B2 & B3).
  pose proof tables_request_calls as (R1 & R2).
  assert (forall A (m : tx A) res, all_pres catalog_typed m -> call m d res d' -> catalog_typed d -> catalog_typed d') as Hk.
  { intros A m res Hm (env & n & u & s' & H & <-). exact (Hm _ _ _ _ H). }
  intros Hs. destruct Hs; try (match goal with H : call ?m _ _ _ |- _ => refine (Hk _ m _ _ H) end;
    auto using claim_due_schedules_typed, commit_schedule_plan_typed, set_schedule_enabled_typed, start_typed, keeps_typed,
      tables_reconcile, tables_cancel).
  match goal with H : catalog_call _ _ |- _ => destruct H end;
    (match goal with H : call ?m _ _ _ |- _ => refine (Hk _ m _ _ H) end;
    auto using create_namespace_typed, delete_namespace_typed, create_queue_typed, update_queue_typed, delete_queue_typed,
      create_job_typed, update_job_typed, create_target_typed, update_target_typed, delete_target_typed,
      create_target_set_typed, update_target_set_typed, create_schedule_typed, keeps_typed, write_tables).
  apply keeps_typed. unfold delete_workflow. keeps_tac.
Qed.

Lemma history_typed d d' : rtc store_step d d' -> catalog_typed d -> catalog_typed d'.
Proof. induction 1 as [|d1 d2 d3 H _ IH]; [done|]. intros Ht. by eapply IH, store_step_typed. Qed.

End Planning.

(** ** Lemmas: well-typed rows convert *)

Definition converts {A} (m : result A StoreError) : Prop := exists a, m = Ok a.

Lemma parse_namespace_ok s : canonical_label s = true -> name_error (NamespaceNameM.parse s) = Ok (MkNamespaceName s).
Proof. intros H. unfold name_error, NamespaceNameM.parse. by rewrite canonical_label_valid. Qed.

Lemma parse_queue_ok s : canonical_label s = true -> name_error (QueueNameM.parse s) = Ok (MkQueueName s).
Proof. intros H. unfold name_error, QueueNameM.parse. by rewrite canonical_label_valid. Qed.

Lemma parse_resource_ok s : canonical_label s = true -> name_error (ResourceNameM.parse s) = Ok (MkResourceName s).
Proof. intros H. unfold name_error, ResourceNameM.parse. by rewrite canonical_label_valid. Qed.

Lemma try_from_ok inside z : inside z = true -> @try_from StoreError inside Internal z = Ok z.
Proof. unfold try_from. by intros ->. Qed.

Lemma job_executor_parses j : job_process_configuration j = true -> converts (parse_executor (j_executor j)).
Proof.
  unfold job_process_configuration, parse_executor, converts. intros H.
  repeat (destruct (_ =? _)%string; [eauto|]). done.
Qed.

Lemma namespace_converts id n : namespace_checks n = true -> converts (namespace_from_row (id, n)).
Proof. intros H. unfold converts, namespace_from_row. simpl. rewrite parse_namespace_ok by done. simpl. eauto. Qed.

Lemma queue_name_canonical q : queue_checks q = true -> canonical_label (qr_name q) = true.
Proof. unfold queue_checks. intros H. by simp_bool. Qed.

Lemma queue_converts id q : queue_checks q = true -> converts (queue_from_row (id, q)).
Proof.
  intros H%queue_name_canonical. unfold converts, queue_from_row. simpl. rewrite parse_queue_ok by done. simpl. eauto.
Qed.

Lemma job_numbers j :
  job_checks j = true ->
  canonical_label (j_name j) = true /\ job_process_configuration j = true /\ in_u16 (j_max_attempts j) = true
  /\ in_u32 (j_retry_initial_seconds j) = true /\ in_u32 (j_retry_max_seconds j) = true
  /\ in_i32 (j_retry_initial_seconds j) = true /\ in_i32 (j_retry_max_seconds j) = true.
Proof.
  unfold job_checks. intros H. simp_bool.
  repeat match goal with H : in_range _ _ _ = true |- _ => apply in_range_spec in H end.
  split_and!; try done; apply in_range_spec; unfold u16_max, u32_max, i32_min, i32_max; lia.
Qed.

Lemma job_converts d id j row :
  catalog_typed d -> job_typed (namespaces d) (queues d) j -> job_join d id j = Some row -> converts (job_from_row row).
Proof.
  intros Ht (Hc & [l Hl] & [n Hn] & [q Hq]) Hj. unfold job_join in Hj. rewrite Hn, Hq in Hj. injection Hj as <-.
  destruct (job_numbers j Hc) as (Hname & Hexec & H1 & H2 & H3 & _). destruct (job_executor_parses j Hexec) as [e He].
  pose proof (ct_namespace d Ht _ _ Hn) as Hcn. pose proof (queue_name_canonical _ (ct_queue d Ht _ _ Hq)) as Hcq.
  unfold converts, job_from_row. simpl. rewrite He, Hl. simpl. rewrite !try_from_ok by done. simpl.
  rewrite parse_namespace_ok by done. simpl. rewrite parse_queue_ok by done. simpl. rewrite parse_resource_ok by done. simpl. eauto.
Qed.

Lemma target_record_of d id t row :
  catalog_typed d -> target_typed (namespaces d) t -> target_join d id t = Some row ->
  exists r, target_from_row row = Ok r /\ tgt_namespace_id (tr_target r) = t_namespace_id t /\ tgt_id (tr_target r) = id.
Proof.
  intros Ht (Hc & [l Hl] & [n Hn]) Hj. unfold target_join in Hj. rewrite Hn in Hj. injection Hj as <-.
  pose proof (ct_namespace d Ht _ _ Hn) as Hcn. unfold target_checks in Hc. simp_bool.
  unfold target_from_row. simpl. rewrite Hl. simpl. rewrite parse_namespace_ok by done. simpl.
  rewrite parse_resource_ok by done. simpl. eauto.
Qed.

Lemma schedule_entity_converts d id s :
  schedule_typed d s -> converts (schedule_entity id s).
Proof.
  intros (Hc & Hg & Hv & Hr & Hm). unfold schedule_checks in Hc. simp_bool.
  repeat match goal with H : in_range _ _ _ = true |- _ => apply in_range_spec in H end.
  unfold converts, schedule_entity. rewrite parse_resource_ok by done.
  assert (exists t, (if (s_schedule_type s =? "cron")%string
       then let? e := ok_or (s_cron_expression s) Internal in Ok (Cron e (s_timezone s))
       else if (s_schedule_type s =? "once")%string then let? t := ok_or (s_execute_at s) Internal in Ok (Once t)
       else Err Internal) = Ok t) as [timing ->].
  { destruct (String.eqb_spec (s_schedule_type s) "cron") as [E|_]; [rewrite E in *|];
      (destruct (s_schedule_type s =? "once")%string eqn:E2; [try (rewrite E in E2; done)|]); simpl in *;
      destruct (s_cron_expression s), (s_execute_at s); try done; simpl; eauto. }
  assert (exists t, target_selection (s_target_id s) (s_target_set_id s) = Ok t) as [t ->].
  { destruct (s_target_id s), (s_target_set_id s); try done; simpl; eauto. }
  assert (exists m, parse_misfire (s_misfire_policy s) = Ok m) as [m ->].
  { unfold parse_misfire. match goal with H : existsb _ ["run_late"%string; _; _] = true |- _ => simpl in H end.
    destruct (s_misfire_policy s =? "run_late")%string; [eauto|]. destruct (s_misfire_policy s =? "skip")%string; [eauto|].
    destruct (s_misfire_policy s =? "grace_period")%string; [eauto|done]. }
  assert (exists c, parse_catchup (s_catchup_policy s) = Ok c) as [c ->].
  { unfold parse_catchup. match goal with H : existsb _ ["skip"%string; _; _] = true |- _ => simpl in H end.
    destruct (s_catchup_policy s =? "skip")%string; [eauto|]. destruct (s_catchup_policy s =? "run_once")%string; [eauto|].
    destruct (s_catchup_policy s =? "catch_up")%string; [eauto|done]. }
  assert (exists g, opt_u32 (s_misfire_grace_seconds s) = Ok g) as [g ->].
  { unfold opt_u32. destruct (s_misfire_grace_seconds s) as [g|]; [|eauto]. unfold opt_i32 in Hg. apply in_range_spec in Hg.
    unfold i32_min, i32_max in Hg. rewrite try_from_ok; [simpl; eauto|]. apply in_range_spec.
    destruct (s_misfire_policy s =? "grace_period")%string; simpl in *; simp_bool; [|done]. unfold u32_max. lia. }
  simpl. rewrite !try_from_ok; [simpl; eauto|apply in_range_spec; unfold u64_max, i64_max in *; lia
    |apply in_range_spec; unfold u32_max; lia|apply in_range_spec; unfold u16_max; lia].
Qed.

Lemma schedule_converts d id s row :
  catalog_typed d -> schedule_typed d s -> schedule_join d id s = Some row -> converts (schedule_record row).
Proof.
  intros Ht Hs Hj. destruct (schedule_entity_converts d id s Hs) as [e He]. destruct Hs as (_ & _ & _ & _ & Hm).
  unfold schedule_join in Hj.
  destruct (namespaces d !! s_namespace_id s) as [n|] eqn:Hn; [|done]. destruct (jobs d !! s_job_id s) as [j|] eqn:Hjob; [|done].
  injection Hj as <-. unfold converts, schedule_record, schedule_from_row. simpl. rewrite He. simpl.
  rewrite parse_namespace_ok by (by eapply ct_namespace). simpl.
  destruct (ct_job d Ht _ _ Hjob) as [Hc _]. rewrite parse_resource_ok by (by apply job_numbers). simpl.
  apply schedule_match_spec in Hm as [_ Hm]. unfold schedule_target_name. destruct (s_target_id s) as [t|]; simpl.
  - destruct (targets d !! t) as [tr|] eqn:Htr; [|done]. simpl. destruct (ct_target d Ht _ _ Htr) as [Hct _].
    unfold target_checks in Hct. simp_bool. rewrite parse_resource_ok by done. simpl. eauto.
  - destruct Hm as (t & -> & Hm). simpl. destruct (target_sets d !! t) as [tr|] eqn:Htr; [|done]. simpl.
    destruct (ct_target_set d Ht _ _ Htr) as [Hct _]. unfold target_set_checks in Hct. simp_bool.
    rewrite parse_resource_ok by done. simpl. eauto.
Qed.

Lemma add_members_converts d ns rows : forall set targets,
  catalog_typed d -> ts_namespace_id set = ns ->
  Forall (fun row => exists id t, target_typed (namespaces d) t /\ target_join d id t = Some row /\ t_namespace_id t = ns) rows ->
  converts (add_members set targets rows).
Proof.
  induction rows as [|row rows IH]; intros set targets Ht Hns Hall; simpl; [unfold converts; eauto|].
  apply Forall_cons in Hall as [(id & t & Htt & Hj & Hn) Hall].
  destruct (target_record_of d id t row Ht Htt Hj) as (r & -> & Hrn & _). simpl. unfold add_target.
  rewrite bool_decide_false by congruence. simpl. by apply IH.
Qed.

Lemma ordered_targets_elem `{PostgresServer} d keep row :
  row ∈ ordered_targets d keep <-> exists id t, targets d !! id = Some t /\ keep id t = true /\ target_join d id t = Some row.
Proof.
  unfold ordered_targets. rewrite elem_of_sort_by, list_elem_of_omap. split.
  - intros ([id t] & Hin%elem_of_map_to_list & Hr). simpl in Hr. destruct (keep id t) eqn:Hk; [|done]. eauto 6.
  - intros (id & t & Ht & Hk & Hj). exists (id, t). split; [by apply elem_of_map_to_list|]. simpl. by rewrite Hk.
Qed.

Lemma target_set_converts `{PostgresServer} d id ts row :
  catalog_typed d -> target_sets d !! id = Some ts -> target_set_join d id ts = Some row ->
  converts (target_set_from_rows row (ordered_targets d (fun t _ => bool_decide ((id, t) ∈ target_set_members d)))).
Proof.
  intros Ht Hts Hj. destruct (ct_target_set d Ht _ _ Hts) as [Hc [n Hn]]. unfold target_set_join in Hj. rewrite Hn in Hj.
  injection Hj as <-. unfold target_set_checks in Hc. simp_bool. unfold converts, target_set_from_rows. simpl.
  rewrite parse_resource_ok by done. simpl.
  destruct (add_members_converts d (tsr_namespace_id ts)
    (ordered_targets d (fun t _ => bool_decide ((id, t) ∈ target_set_members d)))
    {| ts_id := id; ts_namespace_id := tsr_namespace_id ts; ts_name := MkResourceName (tsr_name ts); ts_members := ∅;
       ts_inputs := tsr_inputs ts; ts_created_at := tsr_created_at ts; ts_updated_at := tsr_updated_at ts |} [] Ht eq_refl)
    as [[set l] ->].
  - apply Forall_forall. intros row (t & tr & Htr & Hm & Hj)%ordered_targets_elem. exists t, tr.
    apply bool_decide_eq_true in Hm. destruct (ct_member d Ht _ _ Hm) as (ts' & tr' & Hts' & Htr' & Hns).
    split; [by eapply ct_target|]. split; [done|]. congruence.
  - simpl. rewrite parse_namespace_ok by (by eapply ct_namespace). simpl. eauto.
Qed.

(** ** Lemmas: pages of convertible rows *)

Lemma collect_converts {A B} (f : A -> result B StoreError) l : Forall (fun x => converts (f x)) l -> converts (collect f l).
Proof.
  induction 1 as [|x l [y Hy] _ [ys IH]]; [by exists []|]. exists (y :: ys). simpl. by rewrite Hy, IH.
Qed.

Lemma Forall_removelast {A} (P : A -> Prop) l : Forall P l -> Forall P (removelast l).
Proof. rewrite removelast_firstn_len. apply Forall_take. Qed.

Lemma page_converts {R T} (rows : list R) limit (mapper : R -> result T StoreError) cursor :
  Forall (fun x => converts (mapper x)) rows -> converts (page rows limit mapper cursor).
Proof.
  intros H. unfold page. assert (converts (collect mapper (if limit <? Z.of_nat (length rows) then removelast rows else rows)))
    as [l Hl] by (apply collect_converts; destruct (_ <? _); [by apply Forall_removelast|done]).
  rewrite Hl. unfold converts. simpl. eauto.
Qed.

Lemma name_page_elem `{PostgresServer} {A J} (m : gmap Uuid A) (join : Uuid -> A -> option J) keep nm limit after row :
  row ∈ name_page m join keep nm limit after -> exists id a, m !! id = Some a /\ keep id a = true /\ join id a = Some row.
Proof.
  unfold name_page. intros (i & Hi & _)%elem_of_take. apply list_elem_of_lookup_2, list_elem_of_fmap in Hi as (j & -> & Hj).
  apply elem_of_sort_by in Hj.
  apply list_elem_of_omap in Hj as ([id a] & Hin%elem_of_map_to_list & Hr). simpl in Hr.
  destruct (keep id a && past after (nm a)) eqn:Hk; [|done]. simp_bool. destruct (join id a) as [x|] eqn:Hx; [|done].
  simpl in Hr. injection Hr as <-. eauto.
Qed.

(** The example catalog is well typed. *)
Lemma example_catalog_typed idem : catalog_typed (catalog idem).
Proof.
  assert (forall (A : Type) (k : Uuid) (row : A) id a, ({[ k := row ]} : gmap Uuid A) !! id = Some a -> id = k /\ a = row) as Hone.
  { intros A k row id a [-> ->]%lookup_singleton_Some. done. }
  split; simpl.
  1-5: intros id a Ha; try (apply Hone in Ha as [-> ->]).
  - by vm_compute.
  - by vm_compute.
  - destruct idem; split_and!; vm_compute; eauto.
  - split_and!; vm_compute; eauto.
  - by rewrite lookup_empty in Ha.
  - intros a b Hab. set_solver.
  - intros id s Hs. apply Hone in Hs as [-> ->]. split_and!; vm_compute; congruence || reflexivity.
  - split_and!; intros x y a b Hx Hy _; try (by rewrite lookup_empty in Hx); apply Hone in Hx as [-> _], Hy as [-> _]; done.
Qed.

(** ** Reading *)

(** A lookup answers with an entity exactly when the row is there. *)
Definition answers {A B} (res : result A StoreError) (row : option B) : Prop :=
  match row with None => res = Err NotFound | Some _ => converts res end.

Section Reading.
Context {SJ : SerdeJson} {RF : RustFmt} {PG : PostgresServer} {TC : TimeCrate} {SE : SnapshotEncoding}.

(** A read of one statement. *)
Lemma answer_read {A} (f : DB -> result A StoreError) env d :
  fault_free env -> answer (let! _ := statement in let! d := tx_get in tx_lift (f d)) env d = f d.
Proof. intros Hf. unfold answer, tx_bind. rewrite statement_runs by done. done. Qed.

Lemma answer_lookup {A B} (row : DB -> option B) (f : B -> result A StoreError) env d :
  fault_free env ->
  answer (let! _ := statement in let! d := tx_get in let! r := tx_lift (ok_or (row d) NotFound) in tx_lift (f r)) env d
  = match row d with Some r => f r | None => Err NotFound end.
Proof. intros Hf. unfold answer, tx_bind. rewrite statement_runs by done. simpl. by destruct (row d). Qed.

Lemma answer_page {R T} (rows : DB -> list R) limit after (mapper : R -> result T StoreError) cursor env d :
  fault_free env -> forallb storable (opt_text after) = true ->
  answer (list_page rows limit after mapper cursor) env d = page (rows d) limit mapper cursor.
Proof.
  intros Hf Ha. unfold answer, list_page, tx_bind, bind_texts, check. rewrite statement_runs by done. by rewrite Ha.
Qed.

Lemma lookups_answer d env :
  catalog_typed d -> fault_free env ->
  (forall id, answers (answer (get_namespace id) env d) (namespaces d !! id))
  /\ (forall id, answers (answer (get_queue id) env d) (queues d !! id))
  /\ (forall id, answers (answer (get_job id) env d) (jobs d !! id))
  /\ (forall id, answers (answer (get_target id) env d) (targets d !! id))
  /\ (forall id, answers (answer (get_schedule id) env d) (schedules d !! id)).
Proof.
  intros Ht Hf. unfold answers. split_and!; intros id.
  - unfold get_namespace. rewrite (answer_lookup (fun d => namespaces d !! id) (fun r => namespace_from_row (id, r))) by done.
    destruct (namespaces d !! id) as [n|] eqn:Hn; [|done]. by eapply namespace_converts, ct_namespace.
  - unfold get_queue. rewrite (answer_lookup (fun d => queues d !! id) (fun r => queue_from_row (id, r))) by done.
    destruct (queues d !! id) as [n|] eqn:Hn; [|done]. by eapply queue_converts, ct_queue.
  - unfold get_job. rewrite (answer_lookup (fun d => j ← jobs d !! id; job_join d id j) job_from_row) by done.
    destruct (jobs d !! id) as [j|] eqn:Hj; [|done]. pose proof (ct_job _ Ht _ _ Hj) as Hty.
    simpl. destruct (job_join d id j) as [row|] eqn:Hr; [by eapply job_converts|].
    destruct Hty as (_ & _ & [n Hn] & [q Hq]). unfold job_join in Hr. by rewrite Hn, Hq in Hr.
  - unfold get_target. rewrite (answer_lookup (fun d => t ← targets d !! id; target_join d id t) target_from_row) by done.
    destruct (targets d !! id) as [t|] eqn:Hj; [|done]. pose proof (ct_target _ Ht _ _ Hj) as Hty.
    simpl. destruct (target_join d id t) as [row|] eqn:Hr.
    + destruct (target_record_of d id t row) as (r & Hr' & _); [done..|]. by exists r.
    + destruct Hty as (_ & _ & [n Hn]). unfold target_join in Hr. by rewrite Hn in Hr.
  - unfold get_schedule. rewrite (answer_lookup (fun d => s ← schedules d !! id; schedule_join d id s) schedule_record) by done.
    destruct (schedules d !! id) as [s|] eqn:Hs; [|done]. pose proof (ct_schedule _ Ht _ _ Hs) as Hty.
    simpl. destruct (schedule_join d id s) as [row|] eqn:Hr; [by eapply schedule_converts|].
    destruct Hty as (_ & _ & _ & Hrf & _). unfold schedule_references in Hrf. simp_bool. rewrite !has_spec in *.
    unfold schedule_join in Hr. repeat match goal with H : is_Some _ |- _ => destruct H as [? H]; rewrite H in Hr end. done.
Qed.

Lemma get_target_set_answers d env id :
  catalog_typed d -> fault_free env -> answers (answer (get_target_set id) env d) (target_sets d !! id).
Proof.
  intros Ht Hf. unfold answers, answer, get_target_set, load_target_set_record, tx_bind. rewrite statement_runs by done. simpl.
  destruct (target_sets d !! id) as [ts|] eqn:Hts; [|done]. simpl. destruct (target_set_join d id ts) as [row|] eqn:Hj.
  - simpl. rewrite statement_runs by done. simpl.
    assert (tsj_id row = id) as ->; [|by eapply target_set_converts].
    unfold target_set_join in Hj. destruct (namespaces d !! _); [|done]. by injection Hj as <-.
  - destruct (ct_target_set _ Ht _ _ Hts) as [_ [n Hn]]. unfold target_set_join in Hj. by rewrite Hn in Hj.
Qed.

Lemma listings_answer d env after :
  catalog_typed d -> fault_free env -> forallb storable (opt_text after) = true ->
  (forall v limit, converts (answer (list_namespaces v limit after) env d))
  /\ (forall limit, converts (answer (list_queues limit after) env d))
  /\ (forall ns v limit, converts (answer (list_jobs ns v limit after) env d))
  /\ (forall ns v limit, converts (answer (list_targets ns v limit after) env d))
  /\ (forall ns v limit, converts (answer (list_schedules ns v limit after) env d)).
Proof.
  intros Ht Hf Ha. split_and!; intros.
  all: try (destruct v; [|..|eexists; reflexivity]).
  all: unfold list_namespaces, list_queues, list_jobs, list_targets, list_schedules.
  all: rewrite answer_page by done; apply page_converts, Forall_forall;
    intros row (id & a & Hid & _ & Hj)%name_page_elem.
  1-2: injection Hj as <-; by eapply namespace_converts, ct_namespace.
  1: injection Hj as <-; by eapply queue_converts, ct_queue.
  1-2: by eapply job_converts, Hj; [|eapply ct_job].
  1-2: destruct (target_record_of d id a row) as (r & Hr' & _); [done|by eapply ct_target|done|by exists r].
  all: by eapply schedule_converts, Hj; [|eapply ct_schedule].
Qed.

Lemma tx_collect_answers {A B} (f : A -> tx B) env d l : forall s,
  tx_db s = d -> (forall x s, x ∈ l -> tx_db s = d -> exists b s', f x env s = (Ok b, s') /\ tx_db s' = d) ->
  exists bs s', tx_collect f l env s = (Ok bs, s').
Proof.
  induction l as [|x l IH]; intros s Hs Hf; [by eexists _, _|]. simpl. unfold tx_bind.
  destruct (Hf x s) as (b & s1 & -> & H1); [by left|done|].
  destruct (IH s1) as (bs & s2 & ->); [done| |by eexists _, _]. intros y t Hy. apply Hf. by right.
Qed.

Lemma list_target_sets_answers d env ns v limit after :
  catalog_typed d -> fault_free env -> forallb storable (opt_text after) = true ->
  converts (answer (list_target_sets ns v limit after) env d).
Proof.
  intros Ht Hf Ha. destruct v; [|..|eexists; reflexivity].
  all: unfold converts, answer, list_target_sets, tx_bind, bind_texts, check; rewrite statement_runs by done; rewrite Ha; simpl.
  all: match goal with |- context [tx_collect ?g ?l ?e ?s] => destruct (tx_collect_answers g e d l s) as (bs & s2 & ->);
    [done| |by eexists] end.
  all: intros row t (i & Hi & _)%elem_of_take Htd.
  all: apply list_elem_of_lookup_2, name_page_elem in Hi as (id & ts & Hts & _ & Hj).
  all: destruct (target_set_converts d id ts row Ht Hts Hj) as [r Hr].
  all: assert (tsj_id row = id) as Hid by (unfold target_set_join in Hj; destruct (namespaces d !! _); [|done]; by injection Hj as <-).
  all: unfold load_target_set_record, tx_bind; rewrite statement_runs by done; simpl; rewrite Htd, Hid, Hr; by eexists _, _.
Qed.

(** C19: From a well-typed catalog, after any history of calls, every stored row is read
    back as an entity: a lookup without faults answers with a record exactly when the row
    exists and [NotFound] otherwise, and every listing answers with a page.  No stored
    row ever makes a read fail internally. *)
Theorem catalog_reads_never_fail d d' env :
  catalog_typed d -> rtc store_step d d' -> fault_free env ->
  (forall id, answers (answer (get_namespace id) env d') (namespaces d' !! id)
    /\ answers (answer (get_queue id) env d') (queues d' !! id)
    /\ answers (answer (get_job id) env d') (jobs d' !! id)
    /\ answers (answer (get_target id) env d') (targets d' !! id)
    /\ answers (answer (get_target_set id) env d') (target_sets d' !! id)
    /\ answers (answer (get_schedule id) env d') (schedules d' !! id))
  /\ (forall ns v limit after, forallb storable (opt_text after) = true ->
    converts (answer (list_namespaces v limit after) env d') /\ converts (answer (list_queues limit after) env d')
    /\ converts (answer (list_jobs ns v limit after) env d') /\ converts (answer (list_targets ns v limit after) env d')
    /\ converts (answer (list_target_sets ns v limit after) env d')
    /\ converts (answer (list_schedules ns v limit after) env d')).
Proof.
  intros Ht Hs Hf. pose proof (history_typed _ _ Hs Ht) as Ht'. split.
  - intros id. destruct (lookups_answer d' env Ht' Hf) as (H1 & H2 & H3 & H4 & H5). split_and!; auto using get_target_set_answers.
  - intros ns v limit after Ha. destruct (listings_answer d' env after Ht' Hf Ha) as (H1 & H2 & H3 & H4 & H5).
    split_and!; auto using list_target_sets_answers.
Qed.

End Reading.

Lemma catalog_reads_never_fail_witness :
  catalog_typed (catalog true) /\ rtc store_step (catalog true) (d_claimed true)
  /\ answers (answer (get_job 3%N) (quiet 2000 500) (d_claimed true)) (jobs (d_claimed true) !! 3%N).
Proof.
  pose proof (catalog_reads_never_fail (catalog true) (d_claimed true) (quiet 2000 500) (example_catalog_typed true)
    (example_to_claimed true) (fun _ => eq_refl)) as [H _].
  split_and!; [apply example_catalog_typed|apply example_to_claimed|].
  destruct (H 3%N) as (_ & _ & Hj & _). exact Hj.
Defined.

(** ** What was written is read back *)

Definition job_carries (r : JobRecord) (namespace_id : Uuid) (name : ResourceName) (def : JobDefinition) : Prop :=
  let j := jr_job r in
  job_namespace_id j = namespace_id /\ ResourceNameM.as_str (job_name j) = ResourceNameM.as_str name
  /\ job_executor j = jd_executor def /\ job_queue_id j = jd_queue_id def /\ job_executable j = jd_executable def
  /\ job_shell_command j = jd_shell_command def /\ job_arguments j = jd_arguments def /\ job_inputs j = jd_inputs def
  /\ job_idempotent j = jd_idempotent def /\ job_dry_run j = jd_dry_run def /\ job_max_attempts j = jd_max_attempts def
  /\ job_retry_initial_seconds j = jd_retry_initial_seconds def /\ job_retry_max_seconds j = jd_retry_max_seconds def
  /\ job_retry_multiplier j = jd_retry_multiplier def /\ job_retry_jitter j = jd_retry_jitter def.

Lemma job_from_row_inv row r :
  job_from_row row = Ok r ->
  job_id (jr_job r) = jj_id row
  /\ forall ns name def t u, jj_row row = job_row ns name def t u -> job_carries r ns name def.
Proof.
  intros H. unfold job_from_row in H.
  repeat (apply result_bind_ok in H as (? & ? & H)). injection H as <-. split; [done|].
  intros ns name def t u Hr. rewrite Hr in *. unfold job_carries, try_from, name_error, ok_or in *. cbn in *.
  repeat match goal with
  | H : parse_executor (executor_name ?e) = Ok ?x |- _ =>
      assert (x = e) by (destruct e; by injection H as <-); clear H
  | H : map_err _ (ResourceNameM.parse ?s) = Ok ?x |- _ =>
      assert (ResourceNameM.as_str x = s) by (unfold ResourceNameM.parse in H;
        destruct (validate_resource_name s); [by injection H as <-|done]); clear H
  | H : match strings_of_values (map VString ?l) with _ => _ end = Ok ?x |- _ =>
      assert (x = l) by (pose proof (strings_roundtrip l) as Hl; simpl in Hl; rewrite Hl in H; by injection H); clear H
  | H : (if _ then Ok _ else Err _) = Ok _ |- _ => case_match; [injection H as <-|done]
  end. subst. split_and!; done.
Qed.

Lemma create_job_writes ns name def env s r s' :
  create_job ns name def env s = (Ok r, s') ->
  exists row, jobs (tx_db s') !! jj_id row = Some (jj_row row) /\ job_join (tx_db s') (jj_id row) (jj_row row) = Some row
    /\ job_from_row row = Ok r /\ exists now, jj_row row = job_row ns name def now now.
Proof.
  intros H. apply tx_bind_ok in H as (now & s1 & _ & H). apply tx_bind_ok in H as (d & s2 & [= <- <-] & H).
  destruct (namespaces (tx_db s1) !! ns) as [n|] eqn:Hn; [|done].
  destruct (queues (tx_db s1) !! jd_queue_id def) as [q|] eqn:Hq; [|done]. destruct (qr_enabled q); [|done].
  apply tx_bind_ok in H as (id & s2 & [= _ <-] & H). apply tx_bind_ok in H as ([] & s3 & [_ ->]%check_ok & H).
  apply tx_bind_ok in H as ([] & s3 & [_ ->]%check_ok & H). apply tx_bind_ok in H as ([] & s3 & [= <-] & [Hr ->]%tx_lift_ok).
  eexists. split_and!; [..|exact Hr|by eexists]; simpl; [by rewrite lookup_insert_eq|].
  unfold job_join. simpl. by rewrite Hn, Hq.
Qed.

Lemma update_job_writes id name def env s r s' :
  update_job id name def env s = (Ok r, s') ->
  exists row old, jobs (tx_db s) !! id = Some old /\ jj_id row = id
    /\ jobs (tx_db s') !! jj_id row = Some (jj_row row) /\ job_join (tx_db s') (jj_id row) (jj_row row) = Some row
    /\ job_from_row row = Ok r /\ exists now, jj_row row = job_row (j_namespace_id old) name def (j_created_at old) now.
Proof.
  intros H. apply tx_bind_ok in H as (now & s1 & Hb & H). apply tx_bind_ok in H as (d & s2 & [= <- <-] & H).
  assert (tx_db s1 = tx_db s) as Hs.
  { assert (keeps (fun d => d) (bind_job name def)) as Hk by (unfold bind_job, bind_texts, bind_jsons; keeps_tac). exact (Hk _ _ _ _ Hb). }
  destruct (jobs (tx_db s1) !! id) as [old|] eqn:Hj; [|done].
  destruct (queues (tx_db s1) !! jd_queue_id def) as [q|] eqn:Hq; [|done]. destruct (_ || _); [|done].
  apply tx_bind_ok in H as ([] & s3 & [_ ->]%check_ok & H). apply tx_bind_ok in H as ([] & s3 & [_ ->]%check_ok & H).
  apply tx_bind_ok in H as ([] & s3 & [= <-] & H). apply tx_bind_ok in H as (row & s3 & [Hrow ->]%tx_lift_ok & [Hr ->]%tx_lift_ok).
  simpl in *. destruct (job_join _ _ _) as [row'|] eqn:Hjoin; [|done]. injection Hrow as ->.
  unfold job_join in Hjoin. simpl in Hjoin.
  destruct (namespaces (tx_db s1) !! j_namespace_id old) as [n|] eqn:Hn; [|done]. rewrite Hq in Hjoin. injection Hjoin as <-.
  exists (mkJobJoin id (job_row (j_namespace_id old) name def (j_created_at old) now) (qr_name q) (n_name n)), old.
  rewrite <- Hs. split_and!; [done|done|..|exact Hr|by eexists]; simpl; [by rewrite lookup_insert_eq|].
  unfold job_join. simpl. by rewrite Hn, Hq.
Qed.

Lemma get_job_row d env row r :
  fault_free env -> jobs d !! jj_id row = Some (jj_row row) -> job_join d (jj_id row) (jj_row row) = Some row ->
  job_from_row row = Ok r -> answer (get_job (jj_id row)) env d = Ok r.
Proof.
  intros Hf Hj Hjoin Hr. unfold get_job.
  rewrite (answer_lookup (fun d => j ← jobs d !! jj_id row; job_join d (jj_id row) j) job_from_row) by done.
  rewrite Hj. simpl. by rewrite Hjoin.
Qed.

(** A Job that was created or replaced is read back as answered: the next lookup returns the
    very record the write returned, which carries every field of the definition; a replacement
    keeps the Job's Namespace. *)
Theorem job_write_read (env env' : Env) ns id name def s r s' :
  fault_free env' ->
  (create_job ns name def env s = (Ok r, s') ->
     answer (get_job (job_id (jr_job r))) env' (tx_db s') = Ok r /\ job_carries r ns name def)
  /\ (update_job id name def env s = (Ok r, s') ->
     answer (get_job id) env' (tx_db s') = Ok r
     /\ exists old, jobs (tx_db s) !! id = Some old /\ job_carries r (j_namespace_id old) name def).
Proof.
  intros Hf. split.
  - intros (row & Hj & Hjoin & Hr & now & Hrow)%create_job_writes. destruct (job_from_row_inv _ _ Hr) as [Hid Hc].
    rewrite Hid. split; [by apply get_job_row|by eapply Hc].
  - intros (row & old & Hold & Hid & Hj & Hjoin & Hr & now & Hrow)%update_job_writes.
    destruct (job_from_row_inv _ _ Hr) as [_ Hc]. rewrite <- Hid. split; [by apply get_job_row|].
    exists old. rewrite Hid. split; [done|by eapply Hc].
Qed.

Definition example_job_definition : JobDefinition :=
  {| jd_executor := Process; jd_queue_id := 2; jd_executable := Some "/bin/echo"%string; jd_shell_command := None;
     jd_arguments := ["{{ name }}"%string]; jd_inputs := VObject [("name"%string, VString "crono")];
     jd_idempotent := true; jd_dry_run := false; jd_max_attempts := 5; jd_retry_initial_seconds := 2;
     jd_retry_max_seconds := 30; jd_retry_multiplier := f64_of_Z 2; jd_retry_jitter := f64_of_Z 0 |}.

Definition example_update : result JobRecord StoreError * Tx :=
  update_job 3 (MkResourceName "resync") example_job_definition (quiet 1000 100) (mkTx (catalog true) 0 0).

Lemma example_update_ok : match fst example_update with Ok _ => true | Err _ => false end = true.
Proof. vm_compute. reflexivity. Qed.

Lemma job_write_read_witness :
  exists r s', example_update = (Ok r, s') /\ answer (get_job 3%N) (quiet 2000 500) (tx_db s') = Ok r.
Proof.
  pose proof example_update_ok as Hok. destruct example_update as [[r|e] s'] eqn:E; [|discriminate Hok].
  exists r, s'. split; [reflexivity|].
  exact (proj1 (proj2 (job_write_read (quiet 1000 100) (quiet 2000 500) 1 3 (MkResourceName "resync")
    example_job_definition (mkTx (catalog true) 0 0) r s' (fun _ => eq_refl)) E)).
Defined.
