(* ===== verification/Pagination.v ===== *)
(** * Listings are complete

    A client that follows the cursors of a listing sees every visible row
    exactly once, in the order of their names, whatever the page size. *)

From S2P Require Import Prelude RustStr Json Inputs Names Float Domain Auth Workflow Db Snapshot TxLogic Store WorkflowStore Catalog Queries WorkflowDefinitions Lifecycle Refinement WorkflowRefinement StoreSystem CatalogTheorems Scenario StoreBehaviour PlannerTheorems Orchestration Launch CatalogHistory.
From Stdlib Require Import String OrdersEx.
From stdpp Require Import base numbers strings sorting gmap list relations.

Local Open Scope Z_scope.

(** A deterministic collation orders texts totally. *)
Class TextOrder `{PostgresServer} : Prop := {
  text_le_total : forall a b, text_le a b = true \/ text_le b a = true;
  text_le_trans : forall a b c, text_le a b = true -> text_le b c = true -> text_le a c = true;
  text_le_antisym : forall a b, text_le a b = true -> text_le b a = true -> a = b;
}.

(** A client's loop: pages are requested until one has no cursor. *)
Fixpoint follow {T} (fuel : nat) (list_from : option string -> result (Page T) StoreError) (after : option string)
  : option (list T) :=
  match fuel with
  | O => None
  | S fuel =>
      match list_from after with
      | Err _ => None
      | Ok p =>
          match next_cursor p with
          | None => Some (items p)
          | Some c => option_map (app (items p)) (follow fuel list_from (Some c))
          end
      end
  end.

(** All the rows of a listing, in the order of their names. *)
Definition rows_in_order `{PostgresServer} {A J} (m : gmap Uuid A) (join : Uuid -> A -> option J)
    (keep : Uuid -> A -> bool) (nm : A -> string) : list (string * J) :=
  sort_by (fun a b : string * J => text_le a.1 b.1)
    (omap (fun kv : Uuid * A => if keep kv.1 kv.2 then option_map (pair (nm kv.2)) (join kv.1 kv.2) else None)
       (map_to_list m)).

Lemma omap_eq {A B} (f g : A -> option B) (l : list A) : (forall x, f x = g x) -> omap f l = omap g l.
Proof. intros Hfg. induction l as [|x l IH]; [done|]. simpl. rewrite Hfg. destruct (g x); [f_equal|]; exact IH. Qed.

Lemma NoDup_names_filter {J} (P : string * J -> Prop) `{!forall x, Decision (P x)} (l : list (string * J)) :
  NoDup (map fst l) -> NoDup (map fst (filter P l)).
Proof.
  induction l as [|x l IH]; intros Hd; [done|]. apply NoDup_cons in Hd as [Hx Hd]. rewrite filter_cons.
  destruct (decide (P x)); [|auto]. simpl. constructor; [|auto]. intros (y & Hy & [_ Hin]%list_elem_of_filter)%list_elem_of_fmap.
  apply Hx. rewrite Hy. by apply list_elem_of_fmap_2.
Qed.

Section Order.
Context `{TextOrder}.

Definition le_name {J} (a b : string * J) : Prop := text_le a.1 b.1 = true.

Lemma insert_by_sorted {J} (x : string * J) l :
  StronglySorted le_name l -> StronglySorted le_name (insert_by (fun a b : string * J => text_le a.1 b.1) x l).
Proof.
  induction 1 as [|y l Hl IH Hy]; simpl; [by repeat constructor|]. destruct (text_le x.1 y.1) eqn:Hxy.
  - constructor; [by constructor|]. constructor; [done|]. eapply Forall_impl; [exact Hy|]. intros z. by apply text_le_trans.
  - constructor; [done|]. rewrite insert_by_Permutation. constructor; [|done]. unfold le_name.
    destruct (text_le_total x.1 y.1); congruence.
Qed.

Lemma sort_by_sorted {J} (l : list (string * J)) :
  StronglySorted le_name (sort_by (fun a b : string * J => text_le a.1 b.1) l).
Proof. induction l as [|x l IH]; simpl; [constructor|by apply insert_by_sorted]. Qed.

(** Lists in order with distinct names are determined by their elements. *)
Lemma sorted_unique {J} (l k : list (string * J)) :
  StronglySorted le_name l -> StronglySorted le_name k -> NoDup (map fst l) -> l ≡ₚ k -> l = k.
Proof.
  intros Hl Hk Hd Hp. apply (StronglySorted_unique_strong le_name); [|done|done|done].
  intros a b Ha Hb Hab Hba. rewrite <- Hp in Hb. unfold le_name in *.
  assert (a.1 = b.1) as Hab1 by (by apply text_le_antisym).
  apply list_elem_of_lookup in Ha as [i Hi]. apply list_elem_of_lookup in Hb as [j Hj].
  assert (i = j) as ->; [|congruence]. eapply (NoDup_lookup (map fst l)); [done|..].
  - rewrite list_lookup_fmap, Hi. reflexivity.
  - rewrite list_lookup_fmap, Hj. simpl. by rewrite Hab1.
Qed.

Lemma sorted_filter {J} (P : string * J -> Prop) `{!forall x, Decision (P x)} (l : list (string * J)) :
  StronglySorted le_name l -> StronglySorted le_name (filter P l).
Proof.
  induction 1 as [|x l Hl IH Hx]; [constructor|]. rewrite filter_cons. destruct (decide (P x)); [|done].
  constructor; [done|]. rewrite Forall_forall in *. intros y [_ Hy]%list_elem_of_filter. auto.
Qed.

(** Past the name of the [k]th row of a list in order. *)
Lemma filter_past {J} (l : list (string * J)) : forall k x,
  StronglySorted le_name l -> NoDup (map fst l) -> l !! k = Some x ->
  filter (fun y => past (Some x.1) y.1 = true) l = drop (S k) l.
Proof.
  induction l as [|y l IH]; intros k x Hs Hd Hk; [done|]. apply NoDup_cons in Hd as [Hy Hd].
  apply StronglySorted_inv in Hs as [Hs Hall]. rewrite filter_cons. destruct k as [|k]; simpl in Hk.
  - injection Hk as <-. simpl. rewrite drop_0. unfold past. rewrite decide_False.
    2:{ destruct (text_le_total y.1 y.1) as [->| ->]; done. }
    apply filter_all. intros z Hz. apply negb_true_iff. destruct (text_le z.1 y.1) eqn:Hzy; [|done].
    exfalso. apply Hy. rewrite Forall_forall in Hall.
    assert (y.1 = z.1) as -> by (apply text_le_antisym; [by apply Hall|done]). by apply list_elem_of_fmap_2.
  - simpl. unfold past. rewrite decide_False; [by apply IH|]. apply list_elem_of_lookup_2 in Hk as Hx.
    rewrite Forall_forall in Hall. pose proof (Hall x Hx) as Hle. unfold le_name in Hle. by rewrite Hle.
Qed.

End Order.

(** ** Following the cursors *)

Section Follow.
Context `{TextOrder}.
Context {A J T : Type} (m : gmap Uuid A) (join : Uuid -> A -> option J) (keep : Uuid -> A -> bool) (nm : A -> string).
Context (mapper : J -> result T StoreError) (cursor : T -> string).

Local Notation rows := (rows_in_order m join keep nm).

(** The names of the listed rows are distinct, and the cursor of a record is the name of its row. *)
Context (Hnames : NoDup (map fst rows)).
Context (Hcursor : forall x r, x ∈ rows -> mapper x.2 = Ok r -> cursor r = x.1).

Lemma name_page_all limit : name_page m join keep nm limit None = take (Z.to_nat limit + 1) (map snd rows).
Proof.
  unfold name_page, rows_in_order. do 3 f_equal. apply omap_eq. intros kv. by rewrite andb_true_r.
Qed.

Lemma past_rows (l : list (Uuid * A)) a :
  omap (fun kv : Uuid * A => if keep kv.1 kv.2 && past (Some a) (nm kv.2) then option_map (pair (nm kv.2)) (join kv.1 kv.2) else None) l
  = filter (fun y : string * J => past (Some a) y.1 = true)
      (omap (fun kv : Uuid * A => if keep kv.1 kv.2 then option_map (pair (nm kv.2)) (join kv.1 kv.2) else None) l).
Proof.
  induction l as [|[id x] l IH]; [done|]. cbn [omap list_omap]. simpl.
  destruct (keep id x); simpl; [|exact IH]. destruct (join id x) as [j|]; simpl; [|destruct (negb _); exact IH].
  rewrite filter_cons. simpl. destruct (negb (text_le (nm x) a)); simpl; [f_equal|]; exact IH.
Qed.

Lemma name_page_past limit k x :
  rows !! k = Some x ->
  name_page m join keep nm limit (Some x.1) = take (Z.to_nat limit + 1) (map snd (drop (S k) rows)).
Proof.
  intros Hk. rewrite <- (filter_past rows k x (sort_by_sorted _) Hnames Hk). unfold name_page. f_equal. f_equal.
  rewrite past_rows. symmetry. apply sorted_unique; [apply sorted_filter, sort_by_sorted|apply sort_by_sorted| |].
  - by apply NoDup_names_filter.
  - unfold rows_in_order. by rewrite !sort_by_Permutation.
Qed.

(** Where a request stands: before the first row, or past the name of row [k - 1]. *)
Definition position (k : nat) (after : option string) : Prop :=
  match k with
  | O => after = None
  | S k => exists x, rows !! k = Some x /\ after = Some x.1
  end.

Lemma name_page_at limit k after :
  position k after -> name_page m join keep nm limit after = take (Z.to_nat limit + 1) (map snd (drop k rows)).
Proof.
  destruct k as [|k]; simpl; [intros ->; rewrite drop_0; apply name_page_all|]. intros (x & Hk & ->). by apply name_page_past.
Qed.

Lemma collect_take {B C} (f : B -> result C StoreError) l r n : collect f l = Ok r -> collect f (take n l) = Ok (take n r).
Proof. rewrite !collect_ok. apply Forall2_take. Qed.

Lemma collect_drop {B C} (f : B -> result C StoreError) l r n : collect f l = Ok r -> collect f (drop n l) = Ok (drop n r).
Proof. rewrite !collect_ok. apply Forall2_drop. Qed.

Lemma collect_lookup {B C} (f : B -> result C StoreError) l r i y :
  collect f l = Ok r -> r !! i = Some y -> exists x, l !! i = Some x /\ f x = Ok y.
Proof. rewrite collect_ok. intros H2 Hy. by eapply Forall2_lookup_r in H2. Qed.

Lemma follow_rows limit list_from all :
  1 <= limit -> collect mapper (map snd rows) = Ok all ->
  (forall k after, position k after -> list_from after = page (name_page m join keep nm limit after) limit mapper cursor) ->
  forall fuel k after, position k after -> (length rows - k < fuel)%nat -> follow fuel list_from after = Some (drop k all).
Proof.
  intros Hl Hall Hfrom. induction fuel as [|fuel IH]; intros k after Hpos Hfuel; [lia|]. cbn [follow].
  rewrite (Hfrom k), (name_page_at _ k) by done. rewrite <- skipn_map.
  pose proof (collect_drop _ _ _ k Hall) as Hrest. pose proof (collect_length _ _ _ Hall) as Hlen. rewrite length_map in Hlen.
  erewrite page_spec; [|done|by apply collect_take]. cbn [next_cursor items]. rewrite take_take.
  replace (Z.to_nat limit `min` (Z.to_nat limit + 1))%nat with (Z.to_nat limit) by lia. rewrite length_drop, length_map.
  destruct (limit <? Z.of_nat (length rows - k)) eqn:Hmore; simp_bool; [|rewrite take_ge; [done|rewrite length_drop; lia]].
  destruct (last (take (Z.to_nat limit) (drop k all))) as [r|] eqn:Hr.
  2:{ apply last_None in Hr. apply (f_equal length) in Hr. rewrite length_take, length_drop in Hr. simpl in Hr. lia. }
  cbn [option_map]. rewrite last_lookup, length_take, length_drop in Hr.
  replace (pred (Z.to_nat limit `min` (length all - k))) with (pred (Z.to_nat limit)) in Hr by lia.
  rewrite lookup_take_lt, lookup_drop in Hr by lia.
  destruct (collect_lookup _ _ _ _ _ Hall Hr) as (j & Hj & Hm). rewrite list_lookup_fmap in Hj.
  destruct (rows !! (k + pred (Z.to_nat limit))%nat) as [x|] eqn:Hx; [|done]. simpl in Hj. injection Hj as <-.
  rewrite (Hcursor x r) by (try done; by eapply list_elem_of_lookup_2).
  rewrite (IH (k + Z.to_nat limit)%nat).
  - simpl. f_equal. rewrite <- drop_drop. apply take_drop.
  - replace (k + Z.to_nat limit)%nat with (S (k + pred (Z.to_nat limit))) by lia. simpl. eauto.
  - lia.
Qed.

End Follow.

(** ** The catalog's listings *)

Lemma canonical_storable s : canonical_label s = true -> storable s = true.
Proof.
  intros Hc. apply canonical_label_spec in Hc as [_ Hc]. change (label_list (bytes s)) in Hc.
  apply label_list_characters in Hc. unfold storable. apply negb_true_iff. unfold bytes in Hc.
  induction s as [|a s IH]; [done|]. simpl in *. simp_bool. destruct (Ascii.eqb a nul) eqn:Ha; [|by apply IH].
  apply Ascii.eqb_eq in Ha as ->. done.
Qed.

Lemma omap_names_distinct {A J} (join : Uuid -> A -> option J) (keep : Uuid -> A -> bool) (nm : A -> string) (l : list (Uuid * A)) :
  NoDup (l.*1) ->
  (forall x y a b, (x, a) ∈ l -> (y, b) ∈ l -> keep x a = true -> keep y b = true -> nm a = nm b -> x = y) ->
  NoDup (map fst (omap (fun kv : Uuid * A => if keep kv.1 kv.2 then option_map (pair (nm kv.2)) (join kv.1 kv.2) else None) l)).
Proof.
  induction l as [|[x a] l IH]; intros Hd Hk; [constructor|]. apply NoDup_cons in Hd as [Hx Hd].
  assert (NoDup (map fst (omap (fun kv : Uuid * A => if keep kv.1 kv.2 then option_map (pair (nm kv.2)) (join kv.1 kv.2) else None) l)))
    as IHl by (apply IH; [done|]; intros y z b c Hy Hz; apply Hk; by right).
  cbn [omap list_omap]. simpl. destruct (keep x a) eqn:Hkeep; [|done]. destruct (join x a) as [j|]; [|done]. simpl.
  constructor; [|done]. intros (r & Hr & Hin)%list_elem_of_fmap. apply list_elem_of_omap in Hin as ([y b] & Hy & Hb).
  simpl in Hb. destruct (keep y b) eqn:Hkb; [|done]. destruct (join y b); [|done]. simpl in Hb. injection Hb as <-. simpl in Hr.
  apply Hx. assert (x = y) as -> by (eapply Hk; [by left|by right|done|done|done]). change (y ∈ l.*1). apply list_elem_of_fmap. by exists (y, b).
Qed.

Lemma rows_distinct `{PostgresServer} {A J} (m : gmap Uuid A) (join : Uuid -> A -> option J) keep nm :
  (forall x y a b, m !! x = Some a -> m !! y = Some b -> keep x a = true -> keep y b = true -> nm a = nm b -> x = y) ->
  NoDup (map fst (rows_in_order m join keep nm)).
Proof.
  intros Hk. unfold rows_in_order. rewrite sort_by_Permutation. apply omap_names_distinct; [apply NoDup_fst_map_to_list|].
  intros x y a b Hx%elem_of_map_to_list Hy%elem_of_map_to_list. by apply Hk.
Qed.

Lemma rows_elem `{PostgresServer} {A J} (m : gmap Uuid A) (join : Uuid -> A -> option J) keep nm x :
  x ∈ rows_in_order m join keep nm <->
  exists id a, m !! id = Some a /\ keep id a = true /\ join id a = Some x.2 /\ x.1 = nm a.
Proof.
  unfold rows_in_order. rewrite elem_of_sort_by, list_elem_of_omap. split.
  - intros ([id a] & Hin%elem_of_map_to_list & Hr). simpl in Hr. destruct (keep id a) eqn:Hk; [|done].
    destruct (join id a) as [j|] eqn:Hj; [|done]. simpl in Hr. injection Hr as <-. exists id, a. done.
  - intros (id & a & Hid & Hk & Hj & Hn). exists (id, a). split; [by apply elem_of_map_to_list|]. simpl. rewrite Hk, Hj.
    simpl. rewrite <- Hn. by destruct x.
Qed.

(** A listing whose client sees the rows, each once and in order. *)
Definition complete `{PostgresServer} {J T} (env : Env) (d : DB) (list_from : option string -> tx (Page T))
    (rows : list (string * J)) (mapper : J -> result T StoreError) : Prop :=
  exists all, collect mapper (map snd rows) = Ok all
    /\ follow (S (length rows)) (fun after => answer (list_from after) env d) None = Some all.

Lemma complete_listing `{TextOrder} {A J T} env d limit (m : DB -> gmap Uuid A) (join : DB -> Uuid -> A -> option J) keep nm
    (mapper : J -> result T StoreError) cursor :
  fault_free env -> 1 <= limit ->
  (forall id a, m d !! id = Some a -> canonical_label (nm a) = true) ->
  (forall x y a b, m d !! x = Some a -> m d !! y = Some b -> keep x a = true -> keep y b = true -> nm a = nm b -> x = y) ->
  (forall id a j, m d !! id = Some a -> join d id a = Some j -> exists r, mapper j = Ok r /\ cursor r = nm a) ->
  complete env d (fun after => list_page (fun d => name_page (m d) (join d) keep nm limit after) limit after mapper cursor)
    (rows_in_order (m d) (join d) keep nm) mapper.
Proof.
  intros Hf Hl Hnm Hk Hm.
  destruct (collect_converts mapper (map snd (rows_in_order (m d) (join d) keep nm))) as [all Hall].
  { apply Forall_forall. intros j (x & -> & (id & a & Ha & _ & Hj & _)%rows_elem)%list_elem_of_fmap.
    destruct (Hm id a x.2 Ha Hj) as (r & Hr & _). by exists r. }
  exists all. split; [done|]. rewrite <- (drop_0 all).
  apply (follow_rows (m d) (join d) keep nm mapper cursor (rows_distinct _ _ _ _ Hk)) with (limit := limit); [|done|done| |done|lia].
  - intros x r (id & a & Ha & _ & Hj & ->)%rows_elem Hr. destruct (Hm id a x.2 Ha Hj) as (r' & Hr' & Hc). congruence.
  - intros k after Hp.
    refine (answer_page (fun d => name_page (m d) (join d) keep nm limit after) limit after mapper cursor env d Hf _).
    destruct k as [|k]; [by rewrite Hp|]. destruct Hp as (x & Hx & ->).
    apply list_elem_of_lookup_2, rows_elem in Hx as (id & a & Ha & _ & _ & ->). simpl.
    rewrite canonical_storable by (by eapply Hnm). done.
Qed.

Lemma rows_none `{PostgresServer} {A J} (m : gmap Uuid A) (join : Uuid -> A -> option J) keep nm :
  (forall id a, keep id a = false) -> rows_in_order m join keep nm = [].
Proof.
  intros Hk. destruct (rows_in_order m join keep nm) as [|x l] eqn:E; [done|exfalso].
  assert (x ∈ rows_in_order m join keep nm) as (id & a & _ & Ha & _)%rows_elem by (rewrite E; by left). by rewrite Hk in Ha.
Qed.

(** A listing that answers nothing when nothing is visible, and otherwise runs its query. *)
Lemma complete_visible `{TextOrder} {A J T} env d limit v (m : DB -> gmap Uuid A) (join : DB -> Uuid -> A -> option J) keep scope nm
    (mapper : J -> result T StoreError) cursor (list_from : VisibilityScope -> option string -> tx (Page T)) :
  (forall after, list_from VisNone after = tx_ret (empty_page T)) ->
  (v <> VisNone -> forall after, list_from v after
     = list_page (fun d => name_page (m d) (join d) (fun id a => keep id a && restricted v (scope id a)) nm limit after)
         limit after mapper cursor) ->
  fault_free env -> 1 <= limit ->
  (forall id a, m d !! id = Some a -> canonical_label (nm a) = true) ->
  (forall x y a b, m d !! x = Some a -> m d !! y = Some b -> keep x a = true -> keep y b = true -> nm a = nm b -> x = y) ->
  (forall id a j, m d !! id = Some a -> join d id a = Some j -> exists r, mapper j = Ok r /\ cursor r = nm a) ->
  complete env d (list_from v)
    (rows_in_order (m d) (join d) (fun id a => keep id a && visible v (scope id a)) nm) mapper.
Proof.
  intros Hnone Hsome Hf Hl Hnm Hk Hm. assert (v = VisNone \/ v <> VisNone) as [->|Hv] by (destruct v; auto; by right).
  - rewrite rows_none by (intros id a; apply andb_false_r). exists []. split; [done|]. simpl. by rewrite Hnone.
  - assert (restricted v = visible v) as Hr by (by destruct v). rewrite Hr in Hsome.
    destruct (complete_listing env d limit m join (fun id a => keep id a && visible v (scope id a)) nm mapper cursor Hf Hl Hnm)
      as (all & Hall & Hfollow); [|done|exists all; split; [done|]].
    + intros x y a b Hx Hy [Hkx _]%andb_true_iff [Hky _]%andb_true_iff. by apply Hk.
    + rewrite <- Hfollow. generalize (None : option string). generalize (S (length (rows_in_order (m d) (join d) (fun id a => keep id a && visible v (scope id a)) nm))).
      intros fuel. induction fuel as [|fuel IH]; intros after; [done|]. cbn [follow]. rewrite Hsome by done.
      destruct (answer _ env d) as [p|]; [|done]. destruct (next_cursor p) as [c|]; [|done]. by rewrite IH.
Qed.

Lemma as_str_resource s x : name_error (ResourceNameM.parse s) = Ok x -> ResourceNameM.as_str x = s.
Proof. unfold name_error, ResourceNameM.parse. destruct (validate_resource_name s); [|done]. by intros [= <-]. Qed.

Lemma as_str_namespace s x : name_error (NamespaceNameM.parse s) = Ok x -> NamespaceNameM.as_str x = s.
Proof. unfold name_error, NamespaceNameM.parse. destruct (validate_resource_name s); [|done]. by intros [= <-]. Qed.

Lemma as_str_queue s x : name_error (QueueNameM.parse s) = Ok x -> QueueNameM.as_str x = s.
Proof. unfold name_error, QueueNameM.parse. destruct (validate_resource_name s); [|done]. by intros [= <-]. Qed.

(** The name in a record is the name in its row. *)
Lemma record_names :
  (forall id n r, namespace_from_row (id, n) = Ok r -> NamespaceNameM.as_str (ns_name r) = n_name n)
  /\ (forall id q r, queue_from_row (id, q) = Ok r -> QueueNameM.as_str (q_name r) = qr_name q)
  /\ (forall d id j row r, job_join d id j = Some row -> job_from_row row = Ok r -> ResourceNameM.as_str (job_name (jr_job r)) = j_name j)
  /\ (forall d id t row r, target_join d id t = Some row -> target_from_row row = Ok r -> ResourceNameM.as_str (tgt_name (tr_target r)) = t_name t)
  /\ (forall d id s row r, schedule_join d id s = Some row -> schedule_record row = Ok r -> ResourceNameM.as_str (sch_name (srec_schedule r)) = s_name s).
Proof.
  split_and!; intros.
  - unfold namespace_from_row in *. apply result_bind_ok in H as (x & Hx%as_str_namespace & [= <-]). done.
  - unfold queue_from_row in *. apply result_bind_ok in H as (x & Hx%as_str_queue & [= <-]). done.
  - unfold job_join in H. destruct (namespaces d !! _); [|done]. destruct (queues d !! _); [|done]. injection H as <-.
    unfold job_from_row in H0. repeat (apply result_bind_ok in H0 as (? & ? & H0)). injection H0 as <-. by apply as_str_resource.
  - unfold target_join in H. destruct (namespaces d !! _); [|done]. injection H as <-.
    unfold target_from_row in H0. repeat (apply result_bind_ok in H0 as (? & ? & H0)). injection H0 as <-. by apply as_str_resource.
  - unfold schedule_join in H. destruct (namespaces d !! _); [|done]. destruct (jobs d !! _); [|done]. injection H as <-.
    unfold schedule_record, schedule_from_row in H0. apply result_bind_ok in H0 as (e & He & H0).
    repeat (apply result_bind_ok in H0 as (? & ? & H0)). injection H0 as <-. simpl in *.
    unfold schedule_entity in He. repeat (apply result_bind_ok in He as (? & ? & He)). injection He as <-. by apply as_str_resource.
Qed.

(** C21: A client that follows the cursors of a catalog listing from the first page, whatever the
    page size, receives every row visible to it exactly once, in the order of the names, and
    stops: for Namespaces, Queues, and a Namespace's Jobs, Targets and Schedules. *)
Theorem listings_complete `{TextOrder} env d limit ns v :
  catalog_typed d -> fault_free env -> 1 <= limit ->
  complete env d (list_namespaces v limit)
    (rows_in_order (namespaces d) (fun id n => Some (id, n)) (fun id _ => visible v id) n_name) namespace_from_row
  /\ complete env d (list_queues limit)
    (rows_in_order (queues d) (fun id q => Some (id, q)) (fun _ _ => true) qr_name) queue_from_row
  /\ complete env d (list_jobs ns v limit)
    (rows_in_order (jobs d) (job_join d) (fun _ j => (j_namespace_id j =? ns)%N && visible v (j_namespace_id j)) j_name) job_from_row
  /\ complete env d (list_targets ns v limit)
    (rows_in_order (targets d) (target_join d) (fun _ t => (t_namespace_id t =? ns)%N && visible v (t_namespace_id t)) t_name)
    target_from_row
  /\ complete env d (list_schedules ns v limit)
    (rows_in_order (schedules d) (schedule_join d) (fun _ s => (s_namespace_id s =? ns)%N && visible v (s_namespace_id s)) s_name)
    schedule_record.
Proof.
  intros Ht Hf Hl. destruct record_names as (N1 & N2 & N3 & N4 & N5).
  destruct (ct_keys d Ht) as (K1 & K2 & K3 & K4 & K5 & K6).
  split_and!.
  - apply (complete_visible env d limit v namespaces (fun _ id n => Some (id, n)) (fun _ _ => true) (fun id _ => id) n_name
      namespace_from_row (fun n => NamespaceNameM.as_str (ns_name n)) (fun v => list_namespaces v limit)); try done.
    + by intros Hv after; destruct v.
    + intros id n Hn. by apply (ct_namespace d Ht) in Hn.
    + intros x y a b Hx Hy _ _. by apply K1.
    + intros id n j Hn [= <-]. destruct (namespace_converts id n) as [r Hr]; [by eapply ct_namespace|]. eauto.
  - apply (complete_listing env d limit queues (fun _ id q => Some (id, q)) (fun _ _ => true) qr_name); try done.
    + intros id q Hq. by eapply queue_name_canonical, ct_queue.
    + intros x y a b Hx Hy _ _. by apply K2.
    + intros id q j Hq [= <-]. destruct (queue_converts id q) as [r Hr]; [by eapply ct_queue|]. eauto.
  - apply (complete_visible env d limit v jobs job_join (fun _ j => (j_namespace_id j =? ns)%N) (fun _ j => j_namespace_id j) j_name
      job_from_row (fun r => ResourceNameM.as_str (job_name (jr_job r))) (fun v => list_jobs ns v limit)); try done.
    + by intros Hv after; destruct v.
    + intros id j Hj. destruct (ct_job d Ht _ _ Hj) as [Hc _]. by apply job_numbers.
    + intros x y a b Hx Hy Ha%N.eqb_eq Hb%N.eqb_eq Hn. apply (K3 x y a b Hx Hy). unfold job_key. congruence.
    + intros id j row Hj Hjoin. destruct (job_converts d id j row) as [r Hr]; [done|by eapply ct_job|done|]. eauto.
  - apply (complete_visible env d limit v targets target_join (fun _ t => (t_namespace_id t =? ns)%N) (fun _ t => t_namespace_id t) t_name
      target_from_row (fun r => ResourceNameM.as_str (tgt_name (tr_target r))) (fun v => list_targets ns v limit)); try done.
    + by intros Hv after; destruct v.
    + intros id t Hj. destruct (ct_target d Ht _ _ Hj) as [Hc _]. unfold target_checks in Hc. by simp_bool.
    + intros x y a b Hx Hy Ha%N.eqb_eq Hb%N.eqb_eq Hn. apply (K4 x y a b Hx Hy). unfold target_key. congruence.
    + intros id t row Hj Hjoin. destruct (target_record_of d id t row) as (r & Hr & _); [done|by eapply ct_target|done|]. eauto.
  - apply (complete_visible env d limit v schedules schedule_join (fun _ s => (s_namespace_id s =? ns)%N) (fun _ s => s_namespace_id s) s_name
      schedule_record (fun r => ResourceNameM.as_str (sch_name (srec_schedule r))) (fun v => list_schedules ns v limit)); try done.
    + by intros Hv after; destruct v.
    + intros id s Hs. destruct (ct_schedule d Ht _ _ Hs) as [Hc _]. unfold schedule_checks in Hc. by simp_bool.
    + intros x y a b Hx Hy Ha%N.eqb_eq Hb%N.eqb_eq Hn. apply (K6 x y a b Hx Hy). unfold schedule_key. congruence.
    + intros id s row Hs Hjoin. destruct (schedule_converts d id s row) as [r Hr]; [done|by eapply ct_schedule|done|]. eauto.
Qed.

(** Texts in byte order are totally ordered. *)
#[export] Instance byte_order : @TextOrder postgres_example.
Proof.
  assert (forall a b, negb (string_ltb b a) = true <-> String.compare b a <> Lt) as Hle.
  { intros a b. unfold string_ltb. by destruct (String.compare b a). }
  split; simpl.
  - intros a b. rewrite !Hle, (compare_antisym a b). destruct (String.compare b a); simpl; auto; by right.
  - intros a b c. rewrite !Hle. intros H1 H2 H3. destruct (OrdersEx.String_as_OT.compare_spec b a) as [->|E|E]; [by apply H2|done|].
    assert (OrdersEx.String_as_OT.lt c b) as Hcb by (eapply transitivity; [exact H3|exact E]). by apply H2.
  - intros a b. rewrite !Hle, (compare_antisym a b). destruct (String.compare b a) eqn:E; simpl; try done.
    intros _ _. symmetry. by apply compare_eq_iff.
Qed.

Lemma listings_complete_witness :
  catalog_typed (catalog true)
  /\ complete (quiet 2000 500) (catalog true) (list_jobs 1 (VisNamespaces {[1%N]}) 1)
       (rows_in_order (jobs (catalog true)) (job_join (catalog true))
          (fun _ j => (j_namespace_id j =? 1)%N && visible (VisNamespaces {[1%N]}) (j_namespace_id j)) j_name) job_from_row.
Proof.
  assert (1 <= 1) as Hl by lia.
  pose proof (listings_complete (quiet 2000 500) (catalog true) 1 1 (VisNamespaces {[1%N]}) (example_catalog_typed true)
    (fun _ => eq_refl) Hl) as (_ & _ & Hj & _).
  split; [apply example_catalog_typed|exact Hj].
Defined.
