(* ===== verification/Access.v ===== *)
(** * Authorization over the store (infrastructure/postgres/authorization.rs)

    The store as the policy's resolver of ownership, and the agreement of
    the decision on one resource with the visibility that listings apply. *)

From S2P Require Import Prelude RustStr Json Inputs Names Float Domain Auth Workflow Db Snapshot TxLogic Store WorkflowStore Lifecycle Refinement WorkflowRefinement StoreSystem Scenario.
From Stdlib Require Import Ascii String.
From stdpp Require Import base numbers strings sorting gmap list relations.

Local Open Scope Z_scope.

(** The query of each kind of resource. *)
Definition owner_query (d : DB) (resource : ResourceScope) : option Uuid :=
  match resource with
  | RSJob id => option_map j_namespace_id (jobs d !! id)
  | RSTarget id => option_map t_namespace_id (targets d !! id)
  | RSTargetSet id => option_map tsr_namespace_id (target_sets d !! id)
  | RSSchedule id => option_map s_namespace_id (schedules d !! id)
  | RSWorkflow id => option_map w_namespace_id (wt_workflows (workflow_tables d) !! id)
  | RSWorkflowRun id => option_map wr_namespace_id (workflow_runs d !! id)
  | RSRun id => r ← runs (core d) !! id; option_map j_namespace_id (jobs d !! r_job_id r)
  | RSNamespace _ | RSControlPlane | RSQueue _ => None
  end.

(** [failed]: the query's own fault. *)
Definition store_namespace_for (d : DB) (failed : bool) (resource : ResourceScope) : result (option Uuid) AuthorizationError :=
  match resource with
  | RSNamespace id => Ok (Some id)
  | RSControlPlane | RSQueue _ => Err Forbidden
  | _ => if failed then Err PolicyUnavailable else Ok (owner_query d resource)
  end.

Definition store_resolver (d : DB) (failed : bool) : ResourceNamespaceResolver :=
  {| namespace_for := store_namespace_for d failed |}.

Lemma owned_by_store d failed resource ns :
  @owned_by (store_resolver d failed) resource ns
  <-> resource = RSNamespace ns \/ (failed = false /\ owner_query d resource = Some ns).
Proof.
  destruct resource; simpl; try (split; [done|intros [?|[_ ?]]; done]).
  1: split; [intros ->; by left|intros [[= ->]|[_ ?]]; done].
  all: destruct failed; split; [done|intros [?|[? _]]; done|intros [= H]; by right|intros [?|[_ H]]; [done|by rewrite H]].
Qed.

(** A capability the listings filter by: a Namespace permission to read. *)
Definition read_capability (c : Capability) : bool :=
  bool_decide (pd_scope (definition c) = Namespaced) && (last_segment (pd_identifier (definition c)) =? "read")%string.

(** Listing and reading agree: for every permission to read Namespace resources, the
    visibility a listing filters by shows exactly the Namespaces whose resources the
    caller may read one by one, and no other permission yields a visibility. *)
Theorem visibility_agrees d failed context c :
  match @visibility (@GrantAuthorizer (store_resolver d failed)) context c with
  | Ok v => read_capability c = true
      /\ forall resource ns, accepts_resource c resource = true -> @owned_by (store_resolver d failed) resource ns ->
           (@authorize (@GrantAuthorizer (store_resolver d failed)) context c resource = Ok () <-> visible v ns = true)
  | Err e => read_capability c = false /\ e = Forbidden
  end.
Proof.
  set (R := store_resolver d failed). simpl. unfold grant_visibility, read_capability.
  destruct (pd_scope (definition c)) eqn:Hs; [by rewrite bool_decide_true, bool_decide_false by done|].
  rewrite (bool_decide_false (Namespaced <> Namespaced)), (bool_decide_true (Namespaced = Namespaced)) by (done || (intros H; by apply H)).
  simpl. destruct (last_segment _ =? "read")%string; [|done]. simpl. split; [done|]. intros resource ns Hacc Hown.
  pose proof (@authorize_spec R context c resource) as Ha. simpl in Ha. rewrite Ha, Hs. clear Ha.
  pose proof (visibility_cases (context_grants context) c) as Hv.
  assert (forall ns', owned_by resource ns' -> ns' = ns) as Huniq.
  { intros ns' Hns'. apply owner_of_spec in Hns', Hown. congruence. }
  destruct (grants_visibility (context_grants context) c) as [|ids|]; simpl.
  - naive_solver.
  - destruct Hv as [Hall Hids]. rewrite bool_decide_eq_true, Hids. split; [|eauto 6].
    intros [_ [?|(ns' & ->%Huniq & ?)]]; [congruence|done].
  - destruct Hv as [Hall Hn]. split; [|done]. intros [_ [?|(ns' & _ & Hc)]]; [congruence|]. by rewrite Hn in Hc.
Qed.

(** ** Witnesses *)

(** Two assignments for one Namespace and one for the control plane. *)
Definition example_entries : list (GrantScope * list Capability) :=
  [(NamespaceScope 1, [JobRead; RunRead; JobRead]); (GlobalScope, [QueueRead]); (NamespaceScope 1, [WorkflowRead])].

Definition example_grants : GrantSet := match grants_new example_entries with Ok g => g | Err _ => grants_default end.

Definition example_context : RequestContext :=
  mkRequestContext 1 (mkAuthenticatedCaller (from_issuer "https://issuer.example" "alice" Human) example_grants).

Lemma authorization_decision_witness :
  @authorize (@GrantAuthorizer (store_resolver (Scenario.catalog true) false)) example_context JobRead (RSJob 3) = Ok ()
  <-> accepts_resource JobRead (RSJob 3) = true
      /\ @entitled (store_resolver (Scenario.catalog true) false) example_entries JobRead (RSJob 3).
Proof.
  apply (@authorization_decision (store_resolver (Scenario.catalog true) false) example_entries example_grants); reflexivity.
Defined.

Example example_decisions :
  map (fun q => @authorize (@GrantAuthorizer (store_resolver (Scenario.catalog true) q.1.1)) example_context q.1.2 q.2)
    [(false, JobRead, RSJob 3); (true, JobRead, RSJob 3); (false, JobUpdate, RSJob 3); (false, RunRead, RSRun 77);
     (false, QueueRead, RSControlPlane); (false, JobRead, RSNamespace 2); (false, WorkflowRead, RSNamespace 2)]
  = [Ok (); Err PolicyUnavailable; Err Forbidden; Err Hidden; Ok (); Err Forbidden; Err Hidden].
Proof. vm_compute. reflexivity. Qed.

(** A Namespace where the caller may not read Runs. *)
Definition foreign_resolver : ResourceNamespaceResolver := {| namespace_for := fun _ => Ok (Some 2%N) |}.

Lemma hidden_like_missing_witness :
  @authorize (@GrantAuthorizer foreign_resolver) example_context RunRead (RSRun 77)
  = @authorize (@GrantAuthorizer (store_resolver (Scenario.catalog true) false)) example_context RunRead (RSRun 77).
Proof.
  apply (hidden_like_missing foreign_resolver (store_resolver (Scenario.catalog true) false) example_context RunRead
    (RSRun 77) 2); [left|discriminate|reflexivity|reflexivity|vm_compute; reflexivity].
Defined.

(** A document format that reads back what it writes: binary digits of a code. *)
Fixpoint digits (p : positive) : string :=
  match p with
  | xH => EmptyString
  | xO p => String "0" (digits p)
  | xI p => String "1" (digits p)
  end.

Fixpoint undigits (s : string) : positive :=
  match s with
  | EmptyString => xH
  | String a s => if Ascii.eqb a "0" then xO (undigits s) else xI (undigits s)
  end.

Lemma undigits_digits p : undigits (digits p) = p.
Proof. by induction p as [p IH|p IH|]; simpl; rewrite ?IH. Qed.

Definition document_code (d : GrantDocument) : Z * list (GrantScope * list string) :=
  (gd_version d, map (fun a => (as_scope a, as_permissions a)) (gd_grants d)).

Definition document_of_code (c : Z * list (GrantScope * list string)) : GrantDocument :=
  mkGrantDocument c.1 (map (fun p => mkAssignment p.1 p.2) c.2).

#[export] Instance digits_json : GrantJson := {|
  document_from_slice := fun s => option_map document_of_code (decode (undigits s));
  document_to_vec := fun d => digits (encode (document_code d));
|}.

#[export] Instance digits_json_laws : GrantJsonLaws.
Proof.
  split. intros [v l] _. simpl. rewrite undigits_digits, decode_encode. simpl. unfold document_of_code, document_code. simpl.
  do 2 f_equal. rewrite map_map. rewrite <- (map_id l) at 2. apply map_ext. by intros [].
Qed.

Lemma grants_json_roundtrip_witness :
  exists bytes, to_json example_grants = Ok bytes /\ from_verified_json (Some bytes) = Ok example_grants.
Proof.
  destruct (to_json example_grants) as [bytes|e] eqn:H; [|vm_compute in H; discriminate].
  exists bytes. split; [reflexivity|]. apply (grants_json_roundtrip example_entries); [vm_compute; reflexivity|exact H].
Defined.
