(* ===== verification/Validation.v ===== *)
(** * Errors and validation of the application layer

    [ApplicationError] (application/error.rs) with its conversions, and the
    checks the services apply to a request before and between their calls
    (the functions at the end of application/service.rs). *)

From S2P Require Import Prelude RustStr Json Inputs Names Float Domain Auth Recurrence Workflow Db WorkflowStore Catalog.
From Stdlib Require Import SpecFloat Ascii String.
From stdpp Require Import base numbers strings pretty sorting gmap list.

Local Open Scope Z_scope.

(** ** [ApplicationError] *)

Inductive ApplicationError : Type :=
| AppInvalidInput (field : option string) (message : string)
| AppNotFound
| AppConflict
| AppInUse
| AppIdempotencyConflict
| AppAuthorization (error : AuthorizationError)
| AppUnavailable
| AppInternal.

Definition invalid (field message : string) : ApplicationError := AppInvalidInput (Some field) message.
Definition invalid_request (message : string) : ApplicationError := AppInvalidInput None message.

(** [From<StoreError>] *)
Definition from_store_error (value : StoreError) : ApplicationError :=
  match value with
  | NotFound => AppNotFound
  | Conflict | StaleRevision => AppConflict
  | InUse => AppInUse
  | IdempotencyConflict => AppIdempotencyConflict
  | QueueDisabled => invalid_request "The original Run's Queue is disabled; enable it before re-running."
  | InvalidData =>
      invalid_request "request contains text that cannot be stored; remove NUL characters or invalid encoding"
  | WorkflowLaunchTooLarge =>
      invalid_request "Workflow launch exceeds 4,096 child executions or 8 MiB of prepared snapshots; reduce the graph, Target Set, or Inputs"
  | Unavailable => AppUnavailable
  | Internal => AppInternal
  end.

Definition display_application_error (self : ApplicationError) : string :=
  match self with
  | AppInvalidInput _ message => message
  | AppNotFound => "resource was not found"
  | AppConflict => "resource already exists"
  | AppInUse => "resource is still in use"
  | AppIdempotencyConflict => "request ID was reused with different inputs"
  | AppAuthorization error => display_authorization_error error
  | AppUnavailable => "application dependency is unavailable"
  | AppInternal => "internal application error"
  end.

(** [Display for RecurrenceError] *)
Definition display_recurrence_error (self : RecurrenceError) : string :=
  match self with
  | InvalidExpression => "cron expression must contain five valid fields"
  | InvalidTimezone => "timezone must be a valid IANA identifier"
  | OutOfRange => "timestamp is outside the supported range"
  end.

(** ** Inputs of the services (application/model.rs) *)

Record CreateQueueInput : Type := mkCreateQueueInput { cq_name : string; cq_description : option string }.

Record UpdateQueueInput : Type := mkUpdateQueueInput {
  uq_name : string;
  uq_description : option string;
  uq_enabled : bool;
}.

Record CreateJobInput : Type := mkCreateJobInput {
  cj_name : string;
  cj_queue_id : Uuid;
  cj_executor : ExecutorKind;
  cj_executable : option string;
  cj_shell_command : option string;
  cj_arguments : list string;
  cj_inputs : value;
  cj_idempotent : bool;
  cj_dry_run : bool;
  cj_max_attempts : Z;
  cj_retry_initial_seconds : Z;
  cj_retry_max_seconds : Z;
  cj_retry_multiplier : spec_float;
  cj_retry_jitter : spec_float;
}.

Record CreateScheduleInput : Type := mkCreateScheduleInput {
  cs_name : string;
  cs_job_id : Uuid;
  cs_target : TargetSelection;
  cs_inputs : value;
  cs_timing : ScheduleTiming;
  cs_misfire_policy : MisfirePolicy;
  cs_misfire_grace_seconds : option Z;
  cs_catchup_policy : CatchupPolicy;
  cs_max_catchup_runs : Z;
  cs_max_catchup_age_seconds : Z;
}.

(** Names, Jobs by identity, and dependencies by name (application/workflows.rs). *)
Record WorkflowInput : Type := mkWorkflowInput {
  wi_name : string;
  wi_description : option string;
  wi_nodes : list (string * Uuid);
  wi_edges : list (string * string * DependencyCondition);
}.

(** ** Checks *)

Definition DEFAULT_LIMIT : Z := 50.
Definition MAX_LIMIT : Z := 100.
Definition MAX_TARGET_SET_MEMBERS : nat := 1000.
Definition MAX_QUEUE_DESCRIPTION_CHARACTERS : Z := 500.

Definition ensure_queue_name_available (name : QueueName) (is_system_queue : bool) : result unit ApplicationError :=
  if QueueNameM.is_system name && negb is_system_queue then Err AppConflict else Ok ().

Definition page_cursor (after : option string) : result (option string) ApplicationError :=
  match after with
  | Some cursor =>
      match validate_resource_name cursor with
      | Err _ => Err (invalid "after" "after must be a cursor returned by a previous page")
      | Ok _ => Ok (Some cursor)
      end
  | None => Ok None
  end.

Definition stored_worker_id (worker_id : string) : result string ApplicationError :=
  match validate_resource_name worker_id with
  | Ok _ => Ok worker_id
  | Err _ => Err AppNotFound
  end.

Definition page_limit (limit : option Z) : result Z ApplicationError :=
  let limit := default DEFAULT_LIMIT limit in
  if (limit =? 0) || (MAX_LIMIT <? limit)
  then Err (invalid "limit" "limit must be between 1 and 100")
  else Ok limit.

(** [str::contains('\0')] *)
Definition contains_nul (s : string) : bool := contains_byte nul s.

Definition validate_queue_description (description : option string) : result unit ApplicationError :=
  match description with
  | Some value =>
      if contains_nul value || (MAX_QUEUE_DESCRIPTION_CHARACTERS <? chars_count value)
      then Err (invalid "description" "description must be NUL-free and no longer than 500 characters")
      else Ok ()
  | None => Ok ()
  end.

Definition validate_target_ids (target_ids : list Uuid) : result unit ApplicationError :=
  if (length target_ids =? 0)%nat || (MAX_TARGET_SET_MEMBERS <? length target_ids)%nat
  then Err (invalid "target_ids" "target_ids must contain between 1 and 1000 values")
  else if negb (size (list_to_set target_ids : gset Uuid) =? length target_ids)%nat
  then Err (invalid "target_ids" "target_ids must not contain duplicates")
  else Ok ().

Definition is_grace_period (policy : MisfirePolicy) : bool :=
  match policy with GracePeriod => true | _ => false end.

Definition validate_schedule_policy (policy : MisfirePolicy) (grace_seconds : option Z)
    (max_catchup_runs max_catchup_age_seconds : Z) : result unit ApplicationError :=
  if negb (Bool.eqb (is_grace_period policy) (negb (is_null grace_seconds)))
  then Err (invalid "misfire_grace_seconds" "grace_period requires grace seconds and other policies forbid it")
  else if match grace_seconds with Some seconds => negb (in_i32 seconds) | None => false end
  then Err (invalid "misfire_grace_seconds" "misfire_grace_seconds must not exceed 2147483647")
  else if negb (in_range 1 1000 max_catchup_runs) || negb (in_range 60 31536000 max_catchup_age_seconds)
  then Err (invalid_request "catch-up limits are outside supported bounds")
  else Ok ().

(** Only an executable's path is normalized; the other fields are literal. *)
Definition normalize_job_input (input : CreateJobInput) : CreateJobInput :=
  {| cj_name := cj_name input; cj_queue_id := cj_queue_id input; cj_executor := cj_executor input;
     cj_executable := option_map trim (cj_executable input); cj_shell_command := cj_shell_command input;
     cj_arguments := cj_arguments input; cj_inputs := cj_inputs input; cj_idempotent := cj_idempotent input;
     cj_dry_run := cj_dry_run input; cj_max_attempts := cj_max_attempts input;
     cj_retry_initial_seconds := cj_retry_initial_seconds input; cj_retry_max_seconds := cj_retry_max_seconds input;
     cj_retry_multiplier := cj_retry_multiplier input; cj_retry_jitter := cj_retry_jitter input |}.

(** [f64::is_finite] *)
Definition is_finite (x : spec_float) : bool :=
  match x with S754_zero _ | S754_finite _ _ _ => true | _ => false end.

Definition path_valid (executable : option string) : bool :=
  match executable with
  | Some path => String.prefix "/" path && negb (contains_nul path) && (slen path <=? 4096)
  | None => false
  end.

(** [visible_namespace] of application/workflows.rs *)
Definition visible_namespace (visibility : VisibilityScope) (id : Uuid) : result unit ApplicationError :=
  match visibility with
  | VisAll => Ok ()
  | VisNamespaces ids => if bool_decide (id ∈ ids) then Ok () else Err AppNotFound
  | VisNone => Err AppNotFound
  end.

Section WithCrates.
Context {SJ : SerdeJson} {RF : RustFmt}.

(** [Display for ResourceNameError] *)
Definition display_name_error (self : ResourceNameError) : string :=
  match self with
  | Names.Empty => "name must contain at least one character"
  | InvalidBoundary => "name must start and end with a lowercase letter or number"
  | InvalidCharacter position character =>
      "name contains invalid character " ++ debug_char character ++ " at byte " ++ pretty position
      ++ "; use lowercase letters, numbers, and '-'"
  | TooLong => "name must not exceed 63 characters"
  end.

Definition invalid_name (error : ResourceNameError) : ApplicationError := invalid "name" (display_name_error error).

Definition validate_arguments (arguments : list string) : result unit ApplicationError :=
  if (128 <? length arguments)%nat || existsb (fun a => (4096 <? slen a) || contains_nul a) arguments
  then Err (invalid "arguments" "arguments must contain at most 128 bounded, NUL-free values")
  else map_err (fun e => invalid "arguments" (display_input_error e)) (validate_argument_templates arguments).

Definition validate_input_object (inputs : value) : result unit ApplicationError :=
  map_err (fun e => invalid "inputs" (display_input_error e)) (validate_inputs inputs).

Definition validate_rendered_execution (job : Job) (target_set_inputs : option value) (target : Target)
    (invocation_inputs : value) : result unit ApplicationError :=
  let? merged := map_err (fun e => invalid "inputs" (display_input_error e))
    (merge_inputs [job_inputs job; default (VObject []) target_set_inputs; tgt_inputs target; invocation_inputs]) in
  let? _ := map_err (fun e => invalid "arguments" (display_input_error e))
    (render_arguments (job_arguments job ++ tgt_arguments target) merged) in
  Ok ().

(** The last [match] of [validate_job]. *)
Definition validate_executor (input : CreateJobInput) : result unit ApplicationError :=
  let executable_error :=
    Err (invalid "executable" "Process and Shell Jobs require one absolute executable path; No-op Jobs require none.") in
  match cj_executor input with
  | Noop =>
      if is_null (cj_executable input) && is_null (cj_shell_command input) then Ok () else executable_error
  | Process =>
      if path_valid (cj_executable input) && is_null (cj_shell_command input) then Ok () else executable_error
  | Shell =>
      if path_valid (cj_executable input) then
        match cj_shell_command input with
        | None => Err (invalid "shell_command" "Shell Jobs require a script.")
        | Some script =>
            if (trim script =? "")%string || (65536 <? slen script) || contains_nul script
            then Err (invalid "shell_command" "Shell script must be nonempty, NUL-free, and at most 64 KiB.")
            else if contains "{{" script
            then Err (invalid "shell_command" "Pass input templates as Arguments and read them using $1, $2, etc.; shell source is literal.")
            else Ok ()
        end
      else executable_error
  end.

Definition validate_job (input : CreateJobInput) : result unit ApplicationError :=
  let? _ := validate_arguments (cj_arguments input) in
  let? _ := validate_input_object (cj_inputs input) in
  if negb (in_range 1 100 (cj_max_attempts input))
  then Err (invalid "max_attempts" "max_attempts must be between 1 and 100")
  else if negb (in_range 1 86400 (cj_retry_initial_seconds input))
    || (cj_retry_max_seconds input <? cj_retry_initial_seconds input)
    || (86400 <? cj_retry_max_seconds input)
    || negb (is_finite (cj_retry_multiplier input))
    || SFltb (cj_retry_multiplier input) f64_one
    || negb (is_finite (cj_retry_jitter input))
    || negb (SFleb (f64_of_Z 0) (cj_retry_jitter input) && SFleb (cj_retry_jitter input) f64_one)
  then Err (invalid_request "execution retry policy is outside supported bounds")
  else validate_executor input.

Definition parse_resource_name (value : string) : result ResourceName ApplicationError :=
  map_err invalid_name (ResourceNameM.parse (trim value)).

(** [WorkflowInput::definition] *)
Definition workflow_definition (self : WorkflowInput) : result WorkflowDefinition ApplicationError :=
  let? name := parse_resource_name (wi_name self) in
  let? nodes := collect (fun '(name, job_id) =>
    let? name := parse_resource_name name in
    Ok {| wn_name := name; wn_job_id := job_id |}) (wi_nodes self) in
  let? edges := collect (fun '(from, to, condition) =>
    let? from := parse_resource_name from in
    let? to := parse_resource_name to in
    Ok {| we_from := from; we_to := to; we_condition := condition |}) (wi_edges self) in
  let definition := {| wd_name := name; wd_description := wi_description self; wd_nodes := nodes; wd_edges := edges |} in
  let? _ := map_err invalid_request (validate definition) in
  Ok definition.

End WithCrates.
