(* ===== verification/Application.v ===== *)
(** * The application services (application/service.rs, application/workflows.rs)

    A service is a program of calls: to the authorizer, to the clock and to
    the methods of [ControlPlaneStore], the two ports an [Application] holds.
    The program says what is called, in which order and with which answers it
    goes on; [ApplicationSystem] gives the calls their meaning. *)

From S2P Require Import Prelude RustStr Json Inputs Names Float Domain Auth Recurrence Workflow Db Snapshot Store WorkflowStore Catalog Queries Validation.
From Stdlib Require Import String.
From stdpp Require Import base numbers strings sorting gmap list.

Local Open Scope string_scope.
Local Open Scope Z_scope.

(** ** The ports *)

(** The methods of [ControlPlaneStore] the services call. *)
Inductive StoreCall : Type -> Type :=
| WriteWorkflow (namespace_id : Uuid) (existing : option (Uuid * Z)) (definition : WorkflowDefinition)
  : StoreCall WorkflowRecord
| GetWorkflow (id : Uuid) : StoreCall WorkflowRecord
| ListWorkflows (namespace_id : Uuid) (visibility : VisibilityScope) (limit : Z) (after : option string)
  : StoreCall (Page WorkflowRecord)
| DeleteWorkflow (id : Uuid) : StoreCall unit
| StartWorkflow (launch : WorkflowLaunch) : StoreCall (WorkflowRunRecord * bool)
| WorkflowRunForRequest (request_id : Uuid) (inputs : value) : StoreCall (option WorkflowRunRecord)
| WorkflowRunTargets (id : Uuid) : StoreCall (list Uuid)
| GetWorkflowRun (id : Uuid) (visibility : VisibilityScope) : StoreCall WorkflowRunRecord
| ListWorkflowRuns (id : Uuid) (visibility : VisibilityScope) (limit : Z) (before : option Uuid)
  : StoreCall (Page WorkflowRunRecord)
| CancelWorkflowRun (id : Uuid) : StoreCall WorkflowRunRecord
| CreateNamespace (name : NamespaceName) : StoreCall Namespace
| ListNamespaces (visibility : VisibilityScope) (limit : Z) (after : option string) : StoreCall (Page Namespace)
| GetNamespace (id : Uuid) : StoreCall Namespace
| DeleteNamespace (id : Uuid) : StoreCall unit
| CreateQueue (name : QueueName) (description : option string) : StoreCall Queue
| ListQueues (limit : Z) (after : option string) : StoreCall (Page Queue)
| GetQueue (id : Uuid) : StoreCall Queue
| UpdateQueue (id : Uuid) (name : QueueName) (description : option string) (enabled : bool) : StoreCall Queue
| DeleteQueue (id : Uuid) : StoreCall unit
| CreateJob (namespace_id : Uuid) (name : ResourceName) (definition : JobDefinition) : StoreCall JobRecord
| ListJobs (namespace_id : Uuid) (visibility : VisibilityScope) (limit : Z) (after : option string)
  : StoreCall (Page JobRecord)
| GetJob (id : Uuid) : StoreCall JobRecord
| UpdateJob (id : Uuid) (name : ResourceName) (definition : JobDefinition) : StoreCall JobRecord
| CreateTarget (namespace_id : Uuid) (name : ResourceName) (definition : TargetDefinition) : StoreCall TargetRecord
| ListTargets (namespace_id : Uuid) (visibility : VisibilityScope) (limit : Z) (after : option string)
  : StoreCall (Page TargetRecord)
| GetTarget (id : Uuid) : StoreCall TargetRecord
| UpdateTarget (id : Uuid) (name : ResourceName) (definition : TargetDefinition) : StoreCall TargetRecord
| DeleteTarget (id : Uuid) : StoreCall unit
| CreateTargetSet (namespace_id : Uuid) (name : ResourceName) (target_ids : list Uuid) (inputs : value)
  : StoreCall TargetSetRecord
| ListTargetSets (namespace_id : Uuid) (visibility : VisibilityScope) (limit : Z) (after : option string)
  : StoreCall (Page TargetSetRecord)
| GetTargetSet (id : Uuid) : StoreCall TargetSetRecord
| UpdateTargetSet (id : Uuid) (name : ResourceName) (target_ids : list Uuid) (inputs : value)
  : StoreCall TargetSetRecord
| CreateSchedule (schedule : NewSchedule) : StoreCall ScheduleRecord
| ListSchedules (namespace_id : Uuid) (visibility : VisibilityScope) (limit : Z) (after : option string)
  : StoreCall (Page ScheduleRecord)
| GetSchedule (id : Uuid) : StoreCall ScheduleRecord
| SetScheduleEnabled (id : Uuid) (revision : Z) (enabled : bool) (next_run_at : option Instant)
  : StoreCall ScheduleRecord
| CreateRuns (request_id job_id : Uuid) (target : TargetSelection) (inputs : value)
  : StoreCall (list RunRecord * bool)
| ListRuns (visibility : VisibilityScope) (filter : RunListFilter) (limit : Z) (before : option Uuid)
  : StoreCall (Page RunRecord)
| RerunRun (source_id request_id : Uuid) : StoreCall (RunRecord * bool)
| GetRun (id : Uuid) (visibility : VisibilityScope) : StoreCall RunRecord
| ListRunAttempts (id : Uuid) (visibility : VisibilityScope) : StoreCall (list RunAttemptRecord)
| ListRunEvents (id : Uuid) (visibility : VisibilityScope) : StoreCall (list RunEventRecord)
| ListWorkers (limit : Z) (after : option string) : StoreCall (Page WorkerRecord)
| GetWorker (worker_id : string) : StoreCall WorkerRecord
| ReadOverview (visibility : VisibilityScope) : StoreCall Overview
| ReadMonitor : StoreCall MonitorSnapshot.

(** A call of a port, by the type of its answer. *)
Inductive Call : Type -> Type :=
| Authorize (context : RequestContext) (capability : Capability) (resource : ResourceScope)
  : Call (result unit AuthorizationError)
| Visible (context : RequestContext) (capability : Capability) : Call (result VisibilityScope AuthorizationError)
| NowUtc : Call Instant
| CallStore {A : Type} (m : StoreCall A) : Call (result A StoreError).

(** A service: what it answers, or its next call and how it goes on. *)
Inductive prog (A : Type) : Type :=
| Ret (answer : result A ApplicationError)
| Do {B : Type} (c : Call B) (k : B -> prog A).
Arguments Ret {A} answer.
Arguments Do {A B} c k.

Fixpoint bind {A B} (p : prog A) (k : A -> prog B) : prog B :=
  match p with
  | Ret (Ok a) => k a
  | Ret (Err e) => Ret (Err e)
  | Do c h => Do c (fun x => bind (h x) k)
  end.

Notation "'let^' x := m 'in' k" := (bind m (fun x => k))
  (at level 10, x pattern, m at level 100, k at level 200) : crono_scope.

Definition done_with {A} (a : A) : prog A := Ret (Ok a).
Definition fail {A} (e : ApplicationError) : prog A := Ret (Err e).

(** [?] on a result. *)
Definition lift {A} (r : result A ApplicationError) : prog A := Ret r.

(** [self.authorizer.authorize(...).await?] *)
Definition require (context : RequestContext) (capability : Capability) (resource : ResourceScope) : prog unit :=
  Do (Authorize context capability resource) (fun r => Ret (map_err AppAuthorization r)).

(** [self.authorizer.visibility(...).await?] *)
Definition visibility_for (context : RequestContext) (capability : Capability) : prog VisibilityScope :=
  Do (Visible context capability) (fun r => Ret (map_err AppAuthorization r)).

(** [self.store....await.map_err(f)?] *)
Definition store_or {A} (f : StoreError -> ApplicationError) (m : StoreCall A) : prog A :=
  Do (CallStore m) (fun r => Ret (map_err f r)).

(** [self.store....await?] *)
Definition store {A} (m : StoreCall A) : prog A := store_or from_store_error m.

Definition now_utc : prog Instant := Do NowUtc (fun t => Ret (Ok t)).

(** [for x in l { ... }] with [?] inside. *)
Fixpoint for_each {A} (l : list A) (f : A -> prog unit) : prog unit :=
  match l with
  | [] => done_with ()
  | x :: l => let^ _ := f x in for_each l f
  end.

(** The error of a reference that is gone. *)
Definition or_invalid (field message : string) (error : StoreError) : ApplicationError :=
  match error with NotFound => invalid field message | e => from_store_error e end.

Record CreateRunOutcome : Type := mkCreateRunOutcome { cro_runs : list RunRecord; cro_created : bool }.

Section Services.
Context {SJ : SerdeJson} {RF : RustFmt} {CC : CronCrates}.

Definition parse_queue_name (value : string) : result QueueName ApplicationError :=
  map_err invalid_name (QueueNameM.parse (trim value)).

(** ** Namespaces *)

Definition create_namespace (context : RequestContext) (value : string) : prog Namespace :=
  let^ _ := require context NamespaceCreate RSControlPlane in
  let^ name := lift (map_err invalid_name (NamespaceNameM.parse (trim value))) in
  store (CreateNamespace name).

Definition list_namespaces (context : RequestContext) (limit : option Z) (after : option string) : prog (Page Namespace) :=
  let^ visibility := visibility_for context NamespaceRead in
  let^ limit := lift (page_limit limit) in
  let^ after := lift (page_cursor after) in
  store (ListNamespaces visibility limit after).

Definition get_namespace (context : RequestContext) (id : Uuid) : prog Namespace :=
  let^ _ := require context NamespaceRead (RSNamespace id) in
  store (GetNamespace id).

Definition delete_namespace (context : RequestContext) (id : Uuid) : prog unit :=
  let^ _ := require context NamespaceDelete (RSNamespace id) in
  let^ namespace := store (GetNamespace id) in
  if (NamespaceNameM.as_str (ns_name namespace) =? "default")%string
  then fail (AppInvalidInput None "The default Namespace cannot be deleted")
  else store (DeleteNamespace id).

(** ** Queues *)

Definition create_queue (context : RequestContext) (input : CreateQueueInput) : prog Queue :=
  let^ _ := require context QueueCreate RSControlPlane in
  let^ name := lift (parse_queue_name (cq_name input)) in
  let^ _ := lift (validate_queue_description (cq_description input)) in
  let^ _ := lift (ensure_queue_name_available name false) in
  store (CreateQueue name (cq_description input)).

Definition list_queues (context : RequestContext) (limit : option Z) (after : option string) : prog (Page Queue) :=
  let^ _ := require context QueueRead RSControlPlane in
  let^ limit := lift (page_limit limit) in
  let^ after := lift (page_cursor after) in
  store (ListQueues limit after).

Definition get_queue (context : RequestContext) (id : Uuid) : prog Queue :=
  let^ _ := require context QueueRead (RSQueue id) in
  store (GetQueue id).

Definition update_queue (context : RequestContext) (id : Uuid) (input : UpdateQueueInput) : prog Queue :=
  let^ name := lift (parse_queue_name (uq_name input)) in
  let^ _ := lift (validate_queue_description (uq_description input)) in
  let^ _ := require context QueueUpdate (RSQueue id) in
  let^ current := store (GetQueue id) in
  if q_system current && negb (QueueNameM.as_str name =? QueueNameM.as_str (q_name current))%string
  then fail (invalid "name" "the system default Queue cannot be renamed")
  else if q_system current && negb (uq_enabled input)
  then fail (invalid "enabled" "the system default Queue cannot be disabled")
  else
    let^ _ := lift (ensure_queue_name_available name (q_system current)) in
    store (UpdateQueue id name (uq_description input) (uq_enabled input)).

Definition delete_queue (context : RequestContext) (id : Uuid) : prog unit :=
  let^ _ := require context QueueDelete (RSQueue id) in
  let^ queue := store (GetQueue id) in
  if q_system queue then fail (invalid_request "the system default Queue cannot be deleted")
  else store (DeleteQueue id).

(** ** Jobs *)

Definition job_definition (input : CreateJobInput) : JobDefinition :=
  {| jd_executor := cj_executor input; jd_queue_id := cj_queue_id input; jd_executable := cj_executable input;
     jd_shell_command := cj_shell_command input; jd_arguments := cj_arguments input; jd_inputs := cj_inputs input;
     jd_idempotent := cj_idempotent input; jd_dry_run := cj_dry_run input; jd_max_attempts := cj_max_attempts input;
     jd_retry_initial_seconds := cj_retry_initial_seconds input; jd_retry_max_seconds := cj_retry_max_seconds input;
     jd_retry_multiplier := cj_retry_multiplier input; jd_retry_jitter := cj_retry_jitter input |}.

Definition create_job (context : RequestContext) (namespace_id : Uuid) (input : CreateJobInput) : prog JobRecord :=
  let input := normalize_job_input input in
  let^ name := lift (parse_resource_name (cj_name input)) in
  let^ _ := lift (validate_job input) in
  let^ _ := require context JobCreate (RSNamespace namespace_id) in
  let queue_id := cj_queue_id input in
  let^ _ := require context QueueRead (RSQueue queue_id) in
  let^ queue := store_or (or_invalid "queue_id" "Select an existing Queue.") (GetQueue queue_id) in
  if negb (q_enabled queue) then fail (invalid "queue_id" "Select an enabled Queue.")
  else store (CreateJob namespace_id name (job_definition input)).

Definition update_job (context : RequestContext) (id : Uuid) (input : CreateJobInput) : prog JobRecord :=
  let input := normalize_job_input input in
  let^ name := lift (parse_resource_name (cj_name input)) in
  let^ _ := lift (validate_job input) in
  let^ _ := require context JobUpdate (RSJob id) in
  let^ existing := store (GetJob id) in
  let queue_id := cj_queue_id input in
  let^ _ := require context QueueRead (RSQueue queue_id) in
  let^ queue := store_or (or_invalid "queue_id" "Select an existing Queue.") (GetQueue queue_id) in
  if negb (q_enabled queue) && negb (queue_id =? job_queue_id (jr_job existing))%N
  then fail (invalid "queue_id" "Select an enabled Queue.")
  else store (UpdateJob id name (job_definition input)).

Definition list_jobs (context : RequestContext) (namespace_id : Uuid) (limit : option Z) (after : option string)
  : prog (Page JobRecord) :=
  let^ _ := require context JobRead (RSNamespace namespace_id) in
  let^ visibility := visibility_for context JobRead in
  let^ limit := lift (page_limit limit) in
  let^ after := lift (page_cursor after) in
  let^ _ := store (GetNamespace namespace_id) in
  store (ListJobs namespace_id visibility limit after).

Definition get_job (context : RequestContext) (id : Uuid) : prog JobRecord :=
  let^ _ := require context JobRead (RSJob id) in
  store (GetJob id).

(** ** Targets *)

Definition create_target (context : RequestContext) (namespace_id : Uuid) (name : string) (arguments : list string)
    (inputs : value) : prog TargetRecord :=
  let^ name := lift (parse_resource_name name) in
  let^ _ := lift (validate_arguments arguments) in
  let^ _ := lift (validate_input_object inputs) in
  let^ _ := require context TargetCreate (RSNamespace namespace_id) in
  store (CreateTarget namespace_id name {| td_arguments := arguments; td_inputs := inputs |}).

Definition list_targets (context : RequestContext) (namespace_id : Uuid) (limit : option Z) (after : option string)
  : prog (Page TargetRecord) :=
  let^ _ := require context TargetRead (RSNamespace namespace_id) in
  let^ visibility := visibility_for context TargetRead in
  let^ limit := lift (page_limit limit) in
  let^ after := lift (page_cursor after) in
  let^ _ := store (GetNamespace namespace_id) in
  store (ListTargets namespace_id visibility limit after).

Definition get_target (context : RequestContext) (id : Uuid) : prog TargetRecord :=
  let^ _ := require context TargetRead (RSTarget id) in
  store (GetTarget id).

(** The starter Target: [default] of the Namespace [default]. *)
Definition is_starter (current : TargetRecord) : bool :=
  (NamespaceNameM.as_str (tr_namespace current) =? "default")%string
  && (ResourceNameM.as_str (tgt_name (tr_target current)) =? "default")%string.

Definition update_target (context : RequestContext) (id : Uuid) (name : string) (arguments : list string)
    (inputs : value) : prog TargetRecord :=
  let^ name := lift (parse_resource_name name) in
  let^ _ := lift (validate_arguments arguments) in
  let^ _ := lift (validate_input_object inputs) in
  let^ _ := require context TargetUpdate (RSTarget id) in
  let^ current := store (GetTarget id) in
  if is_starter current && negb (ResourceNameM.as_str name =? "default")%string
  then fail (invalid "name" "the default Target cannot be renamed")
  else store (UpdateTarget id name {| td_arguments := arguments; td_inputs := inputs |}).

Definition delete_target (context : RequestContext) (id : Uuid) : prog unit :=
  let^ _ := require context TargetDelete (RSTarget id) in
  let^ current := store (GetTarget id) in
  if is_starter current then fail (invalid_request "the default Target cannot be deleted")
  else store (DeleteTarget id).

(** ** Target Sets *)

Definition validate_target_members (context : RequestContext) (namespace_id : Uuid) (ids : list Uuid) : prog unit :=
  for_each ids (fun id =>
    let^ _ := require context TargetRead (RSTarget id) in
    let^ target := store_or (or_invalid "target_ids" "one or more selected Targets no longer exist") (GetTarget id) in
    if negb (tgt_namespace_id (tr_target target) =? namespace_id)%N
    then fail (invalid "target_ids" "all selected Targets must belong to the Target Set Namespace")
    else done_with ()).

Definition create_target_set (context : RequestContext) (namespace_id : Uuid) (name : string) (target_ids : list Uuid)
    (inputs : value) : prog TargetSetRecord :=
  let^ name := lift (parse_resource_name name) in
  let^ _ := lift (validate_input_object inputs) in
  if (length target_ids =? 0)%nat || (MAX_TARGET_SET_MEMBERS <? length target_ids)%nat
  then fail (invalid "target_ids" "target_ids must contain between 1 and 1000 values")
  else if negb (size (list_to_set target_ids : gset Uuid) =? length target_ids)%nat
  then fail (invalid "target_ids" "target_ids must not contain duplicates")
  else
    let^ _ := require context TargetSetCreate (RSNamespace namespace_id) in
    let^ _ := for_each target_ids (fun id =>
      let^ _ := require context TargetRead (RSTarget id) in
      let^ target := store_or (or_invalid "target_ids" "one or more selected Targets no longer exist") (GetTarget id) in
      if negb (tgt_namespace_id (tr_target target) =? namespace_id)%N
      then fail (invalid "target_ids" "all selected Targets must belong to the Target Set Namespace")
      else done_with ()) in
    store (CreateTargetSet namespace_id name target_ids inputs).

Definition list_target_sets (context : RequestContext) (namespace_id : Uuid) (limit : option Z) (after : option string)
  : prog (Page TargetSetRecord) :=
  let^ _ := require context TargetSetRead (RSNamespace namespace_id) in
  let^ visibility := visibility_for context TargetSetRead in
  let^ limit := lift (page_limit limit) in
  let^ after := lift (page_cursor after) in
  let^ _ := store (GetNamespace namespace_id) in
  store (ListTargetSets namespace_id visibility limit after).

Definition get_target_set (context : RequestContext) (id : Uuid) : prog TargetSetRecord :=
  let^ _ := require context TargetSetRead (RSTargetSet id) in
  store (GetTargetSet id).

Definition update_target_set (context : RequestContext) (id : Uuid) (name : string) (target_ids : list Uuid)
    (inputs : value) : prog TargetSetRecord :=
  let^ name := lift (parse_resource_name name) in
  let^ _ := lift (validate_input_object inputs) in
  let^ _ := lift (validate_target_ids target_ids) in
  let^ _ := require context TargetSetUpdate (RSTargetSet id) in
  let^ existing := store (GetTargetSet id) in
  let^ _ := validate_target_members context (ts_namespace_id (tsrec_target_set existing)) target_ids in
  store (UpdateTargetSet id name target_ids inputs).

(** ** The Targets of an execution *)

Definition execution_targets (context : RequestContext) (selection : TargetSelection)
  : prog (Uuid * option value * list Target) :=
  match selection with
  | SelTarget id =>
      let^ _ := require context TargetUse (RSTarget id) in
      let^ record := store (GetTarget id) in
      done_with (tgt_namespace_id (tr_target record), None, [tr_target record])
  | SelTargetSet id =>
      let^ _ := require context TargetSetUse (RSTargetSet id) in
      let^ record := store (GetTargetSet id) in
      let^ _ := for_each (tsrec_targets record) (fun target => require context TargetUse (RSTarget (tgt_id target))) in
      done_with (ts_namespace_id (tsrec_target_set record), Some (ts_inputs (tsrec_target_set record)),
                 tsrec_targets record)
  end.

(** ** Schedules *)

Definition create_schedule (context : RequestContext) (namespace_id : Uuid) (input : CreateScheduleInput)
  : prog ScheduleRecord :=
  let^ name := lift (parse_resource_name (cs_name input)) in
  let^ _ := lift (validate_input_object (cs_inputs input)) in
  let^ _ := require context ScheduleCreate (RSNamespace namespace_id) in
  let^ _ := require context JobRead (RSJob (cs_job_id input)) in
  let^ _ := require context JobExecute (RSJob (cs_job_id input)) in
  let^ _ := require context RunCreate (RSNamespace namespace_id) in
  let^ job := store (GetJob (cs_job_id input)) in
  let^ (selection_namespace, target_set_inputs, targets) := execution_targets context (cs_target input) in
  if negb (job_namespace_id (jr_job job) =? namespace_id)%N || negb (selection_namespace =? namespace_id)%N
  then fail (invalid_request "Schedule, Job, and execution target must belong to the same Namespace")
  else
    let^ _ := for_each targets (fun selected_target =>
      lift (validate_rendered_execution (jr_job job) target_set_inputs selected_target (cs_inputs input))) in
    let^ _ := lift (validate_schedule_policy (cs_misfire_policy input) (cs_misfire_grace_seconds input)
                      (cs_max_catchup_runs input) (cs_max_catchup_age_seconds input)) in
    let^ now := now_utc in
    let^ (cron_expression, execute_at, timezone, next_run_at) :=
      match cs_timing input with
      | Cron expression timezone =>
          let expression := trim expression in
          let timezone := trim timezone in
          let^ next := lift (map_err (fun e => invalid "cron_expression" (display_recurrence_error e))
                               (next_cron_occurrence expression timezone now)) in
          done_with (Some expression, None, timezone, next)
      | Once execute_at => done_with (None, Some execute_at, "UTC"%string, execute_at)
      end in
    store (CreateSchedule
      {| new_namespace_id := namespace_id; new_name := name; new_job_id := cs_job_id input; new_target := cs_target input;
         new_inputs := cs_inputs input; new_cron_expression := cron_expression; new_execute_at := execute_at;
         new_timezone := timezone; new_next_run_at := next_run_at; new_misfire_policy := cs_misfire_policy input;
         new_misfire_grace_seconds := cs_misfire_grace_seconds input; new_catchup_policy := cs_catchup_policy input;
         new_max_catchup_runs := cs_max_catchup_runs input;
         new_max_catchup_age_seconds := cs_max_catchup_age_seconds input |}).

Definition list_schedules (context : RequestContext) (namespace_id : Uuid) (limit : option Z) (after : option string)
  : prog (Page ScheduleRecord) :=
  let^ _ := require context ScheduleRead (RSNamespace namespace_id) in
  let^ visibility := visibility_for context ScheduleRead in
  let^ limit := lift (page_limit limit) in
  let^ after := lift (page_cursor after) in
  let^ _ := store (GetNamespace namespace_id) in
  store (ListSchedules namespace_id visibility limit after).

Definition get_schedule (context : RequestContext) (id : Uuid) : prog ScheduleRecord :=
  let^ _ := require context ScheduleRead (RSSchedule id) in
  store (GetSchedule id).

Definition set_schedule_enabled (context : RequestContext) (id : Uuid) (revision : Z) (enabled : bool)
  : prog ScheduleRecord :=
  let^ record := get_schedule context id in
  let schedule := srec_schedule record in
  let^ _ := require context ScheduleUpdate (RSSchedule id) in
  let^ next :=
    if enabled then
      let^ _ := for_each [JobRead; JobExecute] (fun capability =>
        require context capability (RSJob (sch_job_id schedule))) in
      let^ _ := require context RunCreate (RSNamespace (sch_namespace_id schedule)) in
      let^ (namespace_id, _, _) := execution_targets context (sch_target schedule) in
      if negb (namespace_id =? sch_namespace_id schedule)%N
      then fail (invalid_request "Schedule and execution target must belong to the same Namespace")
      else
        match sch_timing schedule with
        | Cron expression timezone =>
            let^ now := now_utc in
            let^ next := lift (map_err (fun e => invalid "cron_expression" (display_recurrence_error e))
                                 (next_cron_occurrence expression timezone now)) in
            done_with (Some next)
        | Once execute_at => done_with (Some execute_at)
        end
    else done_with None in
  store (SetScheduleEnabled (sch_id schedule) revision enabled next).

(** ** Runs *)

Definition create_run (context : RequestContext) (request_id job_id : Uuid) (target : TargetSelection) (inputs : value)
  : prog CreateRunOutcome :=
  let^ _ := lift (validate_input_object inputs) in
  let^ _ := require context JobExecute (RSJob job_id) in
  let^ job := store (GetJob job_id) in
  let^ (selection_namespace, target_set_inputs, targets) := execution_targets context target in
  if negb (job_namespace_id (jr_job job) =? selection_namespace)%N
  then fail (invalid_request "Job and execution target must belong to the same Namespace")
  else
    let^ _ := for_each targets (fun selected_target =>
      lift (validate_rendered_execution (jr_job job) target_set_inputs selected_target inputs)) in
    let^ _ := require context RunCreate (RSNamespace (job_namespace_id (jr_job job))) in
    let^ (runs, created) := store (CreateRuns request_id job_id target inputs) in
    done_with {| cro_runs := runs; cro_created := created |}.

Definition list_runs (context : RequestContext) (filter : RunListFilter) (limit : option Z) (before : option Uuid)
  : prog (Page RunRecord) :=
  let^ visibility := visibility_for context RunRead in
  let^ limit := lift (page_limit limit) in
  store (ListRuns visibility filter limit before).

Definition get_run (context : RequestContext) (id : Uuid) : prog RunRecord :=
  let^ _ := require context RunRead (RSRun id) in
  let^ visibility := visibility_for context RunRead in
  store (GetRun id visibility).

Definition rerun_run (context : RequestContext) (source_id request_id : Uuid) : prog CreateRunOutcome :=
  let^ source := get_run context source_id in
  let run := rec_run source in
  if negb (is_repeatable (run_status run))
  then fail (invalid_request "Only Runs with a confirmed terminal outcome can be re-run.")
  else if negb (rec_has_execution_snapshot source)
  then fail (invalid_request "This Run failed before an executable snapshot was created and cannot be re-run.")
  else
    let^ _ := require context JobExecute (RSJob (run_job_id run)) in
    let^ job := store (GetJob (run_job_id run)) in
    let^ _ := require context TargetUse (RSTarget (run_target_id run)) in
    let^ _ := require context RunCreate (RSNamespace (job_namespace_id (jr_job job))) in
    let^ (run, created) := store (RerunRun (run_id run) request_id) in
    done_with {| cro_runs := [run]; cro_created := created |}.

Definition list_run_attempts (context : RequestContext) (id : Uuid) : prog (list RunAttemptRecord) :=
  let^ _ := require context RunRead (RSRun id) in
  let^ visibility := visibility_for context RunRead in
  store (ListRunAttempts id visibility).

Definition list_run_events (context : RequestContext) (id : Uuid) : prog (list RunEventRecord) :=
  let^ _ := require context RunRead (RSRun id) in
  let^ visibility := visibility_for context RunRead in
  store (ListRunEvents id visibility).

(** ** Operations *)

Definition list_workers (context : RequestContext) (limit : option Z) (after : option string) : prog (Page WorkerRecord) :=
  let^ _ := require context WorkerRead RSControlPlane in
  let^ limit := lift (page_limit limit) in
  let^ after := lift (page_cursor after) in
  store (ListWorkers limit after).

Definition get_worker (context : RequestContext) (worker_id : string) : prog WorkerRecord :=
  let^ _ := require context WorkerRead RSControlPlane in
  let^ worker_id := lift (stored_worker_id worker_id) in
  store (GetWorker worker_id).

Definition overview (context : RequestContext) : prog Overview :=
  let^ visibility := visibility_for context OverviewRead in
  store (ReadOverview visibility).

(** A failed sample is absent. *)
Definition monitor_snapshot (context : RequestContext) : prog (option MonitorSnapshot) :=
  let^ _ := require context MonitorRead RSControlPlane in
  Do (CallStore ReadMonitor) (fun r => match r with Ok snapshot => done_with (Some snapshot) | Err _ => done_with None end).

(** ** Workflows *)

Definition validate_workflow_jobs (context : RequestContext) (namespace_id : Uuid) (definition : WorkflowDefinition)
    (capability : Capability) : prog unit :=
  for_each (wd_nodes definition) (fun node =>
    let^ _ := require context capability (RSJob (wn_job_id node)) in
    let^ job := store (GetJob (wn_job_id node)) in
    if negb (job_namespace_id (jr_job job) =? namespace_id)%N
    then fail (invalid_request "every Workflow Job must belong to its Namespace")
    else done_with ()).

Definition create_workflow (context : RequestContext) (namespace_id : Uuid) (input : WorkflowInput) : prog WorkflowRecord :=
  let^ _ := require context WorkflowCreate (RSNamespace namespace_id) in
  let^ definition := lift (workflow_definition input) in
  let^ _ := validate_workflow_jobs context namespace_id definition JobRead in
  store (WriteWorkflow namespace_id None definition).

Definition update_workflow (context : RequestContext) (id : Uuid) (revision : Z) (input : WorkflowInput)
  : prog WorkflowRecord :=
  let^ _ := require context WorkflowUpdate (RSWorkflow id) in
  let^ existing := store (GetWorkflow id) in
  let^ definition := lift (workflow_definition input) in
  let^ _ := validate_workflow_jobs context (wrec_namespace_id existing) definition JobRead in
  store (WriteWorkflow (wrec_namespace_id existing) (Some (id, revision)) definition).

Definition get_workflow (context : RequestContext) (id : Uuid) : prog WorkflowRecord :=
  let^ _ := require context WorkflowRead (RSWorkflow id) in
  let^ record := store (GetWorkflow id) in
  let^ visibility := visibility_for context WorkflowRead in
  let^ _ := lift (visible_namespace visibility (wrec_namespace_id record)) in
  done_with record.

Definition list_workflows (context : RequestContext) (namespace_id : Uuid) (limit : option Z) (after : option string)
  : prog (Page WorkflowRecord) :=
  let^ _ := require context WorkflowRead (RSNamespace namespace_id) in
  let^ visibility := visibility_for context WorkflowRead in
  let^ _ := lift (visible_namespace visibility namespace_id) in
  let^ _ := store (GetNamespace namespace_id) in
  let^ limit := lift (page_limit limit) in
  let^ after := lift (page_cursor after) in
  store (ListWorkflows namespace_id visibility limit after).

Definition delete_workflow (context : RequestContext) (id : Uuid) : prog unit :=
  let^ _ := require context WorkflowDelete (RSWorkflow id) in
  store (DeleteWorkflow id).

Definition authorize_workflow_replay (context : RequestContext) (run : WorkflowRunRecord) : prog unit :=
  let^ _ := for_each (wrr_nodes run) (fun node => require context JobExecute (RSJob (nrr_job_id node))) in
  let^ _ :=
    match wrr_target run with
    | SelTargetSet id => require context TargetSetUse (RSTargetSet id)
    | SelTarget _ => done_with ()
    end in
  let^ targets := store (WorkflowRunTargets (wrr_id run)) in
  let^ _ := for_each targets (fun id => require context TargetUse (RSTarget id)) in
  require context RunCreate (RSNamespace (wrec_namespace_id (wrr_workflow run))).

Definition start_workflow (context : RequestContext) (id request_id : Uuid) (target : TargetSelection) (inputs : value)
  : prog (WorkflowRunRecord * bool) :=
  let^ _ := require context WorkflowExecute (RSWorkflow id) in
  let^ _ := lift (validate_input_object inputs) in
  let^ existing := store (WorkflowRunForRequest request_id inputs) in
  match existing with
  | Some existing =>
      if negb (wrec_id (wrr_workflow existing) =? id)%N || negb (same_selection (wrr_target existing) target)
      then fail AppIdempotencyConflict
      else
        let^ _ := authorize_workflow_replay context existing in
        done_with (existing, false)
  | None =>
      let^ workflow := store (GetWorkflow id) in
      let^ (namespace_id, set_inputs, targets) := execution_targets context target in
      if negb (namespace_id =? wrec_namespace_id workflow)%N
      then fail (invalid_request "Workflow and execution target must belong to the same Namespace")
      else
        let^ _ := validate_workflow_jobs context namespace_id (wrec_definition workflow) JobExecute in
        let^ _ := for_each (wd_nodes (wrec_definition workflow)) (fun node =>
          let^ job := store (GetJob (wn_job_id node)) in
          for_each targets (fun target =>
            lift (validate_rendered_execution (jr_job job) set_inputs target inputs))) in
        let^ _ := require context RunCreate (RSNamespace namespace_id) in
        let^ (record, created) := store (StartWorkflow
          {| wl_workflow_id := id; wl_revision := wrec_revision workflow; wl_request_id := request_id; wl_target := target;
             wl_inputs := inputs; wl_authorized_targets := map tgt_id targets |}) in
        let^ _ := if negb created then authorize_workflow_replay context record else done_with () in
        done_with (record, created)
  end.

Definition get_workflow_run (context : RequestContext) (id : Uuid) : prog WorkflowRunRecord :=
  let^ _ := require context WorkflowRunRead (RSWorkflowRun id) in
  let^ visibility := visibility_for context WorkflowRunRead in
  store (GetWorkflowRun id visibility).

Definition list_workflow_runs (context : RequestContext) (id : Uuid) (limit : option Z) (before : option Uuid)
  : prog (Page WorkflowRunRecord) :=
  let^ _ := require context WorkflowRunRead (RSWorkflow id) in
  let^ workflow := store (GetWorkflow id) in
  let^ visibility := visibility_for context WorkflowRunRead in
  let^ _ := lift (visible_namespace visibility (wrec_namespace_id workflow)) in
  let^ limit := lift (page_limit limit) in
  store (ListWorkflowRuns id visibility limit before).

Definition cancel_workflow_run (context : RequestContext) (id : Uuid) : prog WorkflowRunRecord :=
  let^ record := get_workflow_run context id in
  let^ _ := require context WorkflowRunCancel (RSWorkflowRun (wrr_id record)) in
  store (CancelWorkflowRun (wrr_id record)).

End Services.
