(* ===== verification/ApplicationSystem.v ===== *)
(** * Executions of the services

    The executions of a service against arbitrary answers of its ports, what a
    service has learnt at each point of one, and the proof rules for what must
    hold at each of its calls. *)

From S2P Require Import Prelude RustStr Json Inputs Names Float Domain Auth Recurrence Workflow Db Snapshot Store WorkflowStore Catalog Queries Validation Application.
From Stdlib Require Import String.
From stdpp Require Import base numbers strings sorting gmap list.

Local Open Scope Z_scope.

(** ** Executions *)

(** A call and its answer. *)
Inductive event : Type :=
| Ev {B : Type} (c : Call B) (answer : B).

(** A service run to its end, whatever the answers. *)
Inductive executes {A} : prog A -> list event -> result A ApplicationError -> Prop :=
| executes_ret r : executes (Ret r) [] r
| executes_do {B} (c : Call B) (k : B -> prog A) (x : B) tr r : executes (k x) tr r -> executes (Do c k) (Ev c x :: tr) r.

(** What an answer tells. *)
Inductive known : Type :=
| Granted (context : RequestContext) (capability : Capability) (resource : ResourceScope)
| Sees (context : RequestContext) (capability : Capability) (visibility : VisibilityScope)
| IsQueue (id : Uuid) (record : Queue)
| IsJob (id : Uuid) (record : JobRecord)
| IsTarget (id : Uuid) (record : TargetRecord)
| IsTargetSet (id : Uuid) (record : TargetSetRecord)
| IsSchedule (id : Uuid) (record : ScheduleRecord)
| IsWorkflow (id : Uuid) (record : WorkflowRecord)
| IsRun (id : Uuid) (record : RunRecord).

Definition if_ok {A E} (f : A -> known) (r : result A E) : list known :=
  match r with Ok a => [f a] | Err _ => [] end.

Definition learn_store {A} (m : StoreCall A) : result A StoreError -> list known :=
  match m with
  | GetQueue id => if_ok (IsQueue id)
  | GetJob id => if_ok (IsJob id)
  | GetTarget id => if_ok (IsTarget id)
  | GetTargetSet id => if_ok (IsTargetSet id)
  | GetSchedule id => if_ok (IsSchedule id)
  | GetWorkflow id => if_ok (IsWorkflow id)
  | GetRun id _ => if_ok (IsRun id)
  | _ => fun _ => []
  end.

Definition learn {B} (c : Call B) : B -> list known :=
  match c with
  | Authorize context capability resource => if_ok (fun _ => Granted context capability resource)
  | Visible context capability => if_ok (Sees context capability)
  | NowUtc => fun _ => []
  | CallStore m => learn_store m
  end.

Definition learn_event (e : event) : list known := let 'Ev c x := e in learn c x.

(** What is known after a list of events. *)
Definition facts (tr : list event) : list known := concat (map learn_event (rev tr)).

(** A record read by its identity carries it. *)
Definition faithful_store {A} (m : StoreCall A) : result A StoreError -> Prop :=
  match m with
  | GetTarget id => fun r => match r with Ok t => tgt_id (tr_target t) = id | Err _ => True end
  | GetSchedule id => fun r => match r with Ok s => sch_id (srec_schedule s) = id | Err _ => True end
  | GetRun id _ => fun r => match r with Ok x => run_id (rec_run x) = id | Err _ => True end
  | GetWorkflowRun id _ => fun r => match r with Ok w => wrr_id w = id | Err _ => True end
  | GetQueue _ => fun r => match r with Ok q => q_system q = QueueNameM.is_system (q_name q) | Err _ => True end
  | _ => fun _ => True
  end.

Definition faithful {B} (c : Call B) : B -> Prop :=
  match c with CallStore m => faithful_store m | _ => fun _ => True end.

Definition faithful_event (e : event) : Prop := let 'Ev c x := e in faithful c x.

(** ** What must hold at the calls of a service *)

Section Rules.
Context (allowed : forall B, list known -> Call B -> Prop).

(** [p], started with the facts [h], makes only allowed calls, and [Q] holds when it succeeds. *)
Fixpoint wp {A} (h : list known) (p : prog A) (Q : A -> list known -> Prop) : Prop :=
  match p with
  | Ret (Ok a) => Q a h
  | Ret (Err _) => True
  | Do c k => allowed _ h c /\ forall x, faithful c x -> wp (learn c x ++ h) (k x) Q
  end.

Definition safe {A} (p : prog A) : Prop := wp [] p (fun _ _ => True).

Lemma wp_mono {A} (p : prog A) : forall h (Q R : A -> list known -> Prop),
  (forall a h', h ⊆ h' -> Q a h' -> R a h') -> wp h p Q -> wp h p R.
Proof.
  induction p as [[a|e]|B c k IH]; intros h Q R HQ; simpl; [by apply HQ|done|].
  intros [Hc Hk]. split; [done|]. intros x Hx. eapply IH; [|by apply Hk].
  intros a h' Hh. apply HQ. set_solver.
Qed.

Lemma wp_bind {A B} (p : prog A) (k : A -> prog B) : forall h Q,
  wp h p (fun a h' => wp h' (k a) Q) -> wp h (bind p k) Q.
Proof.
  induction p as [[a|e]|C c f IH]; intros h Q; simpl; [done|done|].
  intros [Hc Hk]. split; [done|]. intros x Hx. by apply IH, Hk.
Qed.

(** The rule of a sub-service: the facts only grow. *)
Lemma wp_use {A B} (p : prog A) (k : A -> prog B) h (Q : A -> list known -> Prop) R :
  wp h p Q -> (forall a h', h ⊆ h' -> Q a h' -> wp h' (k a) R) -> wp h (bind p k) R.
Proof. intros Hp Hk. apply wp_bind. eapply wp_mono; [|exact Hp]. exact Hk. Qed.

Lemma wp_for_each {A} (f : A -> prog unit) (P : A -> list known -> Prop) :
  (forall x h h', h ⊆ h' -> P x h -> P x h') ->
  forall l h, (forall x h', x ∈ l -> h ⊆ h' -> wp h' (f x) (fun _ => P x)) ->
  wp h (for_each l f) (fun _ h' => forall x, x ∈ l -> P x h').
Proof.
  intros Hmono. induction l as [|y l IH]; intros h Hf; simpl; [set_solver|].
  eapply (wp_use _ _ _ (fun _ => P y)); [apply Hf; [by left|done]|]. intros u h' Hh Hy.
  assert (wp h' (for_each l f) (fun _ h'' => forall x, x ∈ l -> P x h'')) as Hl.
  { apply IH. intros x h'' Hx Hh'. apply Hf; [by right|]. etrans; eauto. }
  eapply wp_mono; [|exact Hl]. intros v h'' Hh' Hall x [->|Hx]%elem_of_cons; [by eapply Hmono|by apply Hall].
Qed.

Lemma wp_lift {A} (r : result A ApplicationError) h (Q : A -> list known -> Prop) :
  (forall a, r = Ok a -> Q a h) -> wp h (lift r) Q.
Proof. destruct r; simpl; auto. Qed.

Lemma wp_require {A} context c r (k : unit -> prog A) h Q :
  allowed _ h (Authorize context c r) -> wp (Granted context c r :: h) (k ()) Q -> wp h (bind (require context c r) k) Q.
Proof. intros Hm Hk. split; [done|]. intros [[]|e] _; [exact Hk|done]. Qed.

Lemma wp_require_end context c r h (Q : unit -> list known -> Prop) :
  allowed _ h (Authorize context c r) -> Q () (Granted context c r :: h) -> wp h (require context c r) Q.
Proof. intros Hm Hk. split; [done|]. intros [[]|e] _; [exact Hk|done]. Qed.

Lemma wp_visibility {A} context c (k : VisibilityScope -> prog A) h Q :
  allowed _ h (Visible context c) -> (forall v, wp (Sees context c v :: h) (k v) Q) ->
  wp h (bind (visibility_for context c) k) Q.
Proof. intros Hm Hk. split; [done|]. intros [v|e] _; [exact (Hk v)|done]. Qed.

Lemma wp_lift_bind {A B} (r : result A ApplicationError) (k : A -> prog B) h Q :
  (forall a, r = Ok a -> wp h (k a) Q) -> wp h (bind (lift r) k) Q.
Proof. destruct r; simpl; auto. Qed.

Lemma wp_store_bind {A B} f (m : StoreCall A) (k : A -> prog B) h Q :
  allowed _ h (CallStore m) ->
  (forall a, faithful_store m (Ok a) -> wp (learn_store m (Ok a) ++ h) (k a) Q) -> wp h (bind (store_or f m) k) Q.
Proof. intros Hm Hk. split; [done|]. intros [a|e] Hx; [by apply Hk|done]. Qed.

Lemma wp_store_end {A} f (m : StoreCall A) h (Q : A -> list known -> Prop) :
  allowed _ h (CallStore m) -> (forall a, faithful_store m (Ok a) -> Q a (learn_store m (Ok a) ++ h)) ->
  wp h (store_or f m) Q.
Proof. intros Hm Hk. split; [done|]. intros [a|e] Hx; [by apply Hk|done]. Qed.

Lemma wp_now {A} (k : Instant -> prog A) h Q :
  allowed _ h NowUtc -> (forall t, wp h (k t) Q) -> wp h (bind now_utc k) Q.
Proof. intros Hm Hk. split; [done|]. intros t _. apply Hk. Qed.

(** A loop that only checks. *)
Lemma wp_checks {A} h (l : list A) (f : A -> result unit ApplicationError) :
  wp h (for_each l (fun x => lift (f x))) (fun _ _ => forall x, x ∈ l -> f x = Ok ()).
Proof. apply (wp_for_each _ (fun x _ => f x = Ok ())); [done|]. intros x h' _ _. apply wp_lift. by intros []. Qed.

Lemma facts_cons c tr : forall B (x : B) (k : Call B), c = Ev k x -> facts (c :: tr) = facts tr ++ learn k x.
Proof.
  intros B x k ->. unfold facts. simpl. rewrite map_app, concat_app. simpl. by rewrite app_nil_r.
Qed.

(** Every call of every execution is allowed by what was learnt before it. *)
Lemma wp_executes {A} (p : prog A) : forall tr r h Q,
  wp h p Q -> executes p tr r -> Forall faithful_event tr ->
  (forall pre B (c : Call B) x post, tr = pre ++ Ev c x :: post -> allowed B (facts pre ++ h) c)
  /\ (forall a, r = Ok a -> Q a (facts tr ++ h)).
Proof.
  intros tr r h Q Hp Hr. revert h Hp. induction Hr as [r|B c k x tr r Hr IH]; intros h Hp Hf.
  - split; [by intros []|]. intros a ->. exact Hp.
  - destruct Hp as [Hc Hk]. apply Forall_cons in Hf as [Hx Hf]. destruct (IH (learn c x ++ h) (Hk x Hx) Hf) as [H1 H2].
    split.
    + intros pre B' c' x' post E. destruct pre as [|e pre].
      * assert (Ev c x = Ev c' x') as E' by exact (f_equal (fun l => match l with e :: _ => e | [] => Ev c x end) E).
        change (match Ev c' x' with @Ev B0 c0 _ => allowed B0 h c0 end). by rewrite <- E'.
      * assert (e = Ev c x) as -> by exact (eq_sym (f_equal (fun l => match l with e :: _ => e | [] => e end) E)).
        assert (tr = pre ++ Ev c' x' :: post) as Etr by exact (f_equal (@List.tl event) E).
        rewrite (facts_cons _ pre B x c eq_refl), <- (assoc_L app). by eapply H1.
    + intros a Ha. rewrite (facts_cons _ tr B x c eq_refl), <- (assoc_L app). by apply H2.
Qed.

Lemma safe_executes {A} (p : prog A) tr r :
  safe p -> executes p tr r -> Forall faithful_event tr ->
  forall pre B (c : Call B) x post, tr = pre ++ Ev c x :: post -> allowed B (facts pre) c.
Proof.
  intros Hp Hr Hf pre B c x post E. rewrite <- (app_nil_r (facts pre)).
  by eapply (proj1 (wp_executes p tr r [] _ Hp Hr Hf)).
Qed.

End Rules.

(** One step of a service; [reduce_call] unfolds what the call requires. *)
Ltac service_step reduce_call :=
  match goal with
  | |- wp _ _ (bind (require _ _ _) _) _ => apply wp_require; [try done|]
  | |- wp _ _ (require _ _ _) _ => apply wp_require_end; [try done|]
  | |- wp _ _ (bind (visibility_for _ _) _) _ => apply wp_visibility; [try done|let v := fresh "v" in intros v]
  | |- wp _ _ (bind (lift _) _) _ => apply wp_lift_bind; let x := fresh "x" in let H := fresh "Hx" in intros x H
  | |- wp _ _ (bind (store_or _ _) _) _ =>
      apply wp_store_bind; [reduce_call|cbn [learn_store if_ok app]; let r := fresh "rec" in let H := fresh "Hf" in intros r H]
  | |- wp _ _ (bind (store _) _) _ =>
      apply wp_store_bind; [reduce_call|cbn [learn_store if_ok app]; let r := fresh "rec" in let H := fresh "Hf" in intros r H]
  | |- wp _ _ (store _) _ =>
      apply wp_store_end; [reduce_call|cbn [learn_store if_ok app]; try (intros; exact I); let r := fresh "rec" in let H := fresh "Hf" in intros r H]
  | |- wp _ _ (bind now_utc _) _ => apply wp_now; [try done|intros ?]
  | |- wp _ _ (if ?b then _ else _) _ => destruct b eqn:?
  | |- wp _ _ (fail _) _ => exact I
  | |- wp _ _ (done_with _) _ => unfold done_with; cbn [wp]
  end; cbv beta.
Ltac service_with reduce_call := repeat service_step reduce_call.

(** ** The services *)

(** What the types of the parameters say. *)
Definition str (s : string) : Prop := is_utf8 s = true.
Definition ostr (o : option string) : Prop := match o with Some s => str s | None => True end.
Definition u16 (o : option Z) : Prop := match o with Some z => in_u16 z = true | None => True end.
Definition u32 (o : option Z) : Prop := match o with Some z => in_u32 z = true | None => True end.

Definition workflow_strs (input : WorkflowInput) : Prop :=
  str (wi_name input) /\ ostr (wi_description input) /\ (forall n, n ∈ wi_nodes input -> str n.1)
  /\ (forall e, e ∈ wi_edges input -> str e.1.1 /\ str e.1.2).

Section Operations.
Context {SJ : SerdeJson} {RF : RustFmt} {CC : CronCrates}.
Context (context : RequestContext).

(** Every entry point of [Application], with arguments of its parameters' types. *)
Inductive operation : forall {A : Type}, prog A -> Prop :=
| OpCreateNamespace value : str value -> operation (create_namespace context value)
| OpListNamespaces limit after : u16 limit -> ostr after -> operation (list_namespaces context limit after)
| OpGetNamespace id : operation (get_namespace context id)
| OpDeleteNamespace id : operation (delete_namespace context id)
| OpCreateQueue input : str (cq_name input) -> operation (create_queue context input)
| OpListQueues limit after : u16 limit -> ostr after -> operation (list_queues context limit after)
| OpGetQueue id : operation (get_queue context id)
| OpUpdateQueue id input : str (uq_name input) -> operation (update_queue context id input)
| OpDeleteQueue id : operation (delete_queue context id)
| OpCreateJob ns input : str (cj_name input) -> operation (create_job context ns input)
| OpUpdateJob id input : str (cj_name input) -> operation (update_job context id input)
| OpListJobs ns limit after : u16 limit -> ostr after -> operation (list_jobs context ns limit after)
| OpGetJob id : operation (get_job context id)
| OpCreateTarget ns name arguments inputs : str name -> operation (create_target context ns name arguments inputs)
| OpListTargets ns limit after : u16 limit -> ostr after -> operation (list_targets context ns limit after)
| OpGetTarget id : operation (get_target context id)
| OpUpdateTarget id name arguments inputs : str name -> operation (update_target context id name arguments inputs)
| OpDeleteTarget id : operation (delete_target context id)
| OpCreateTargetSet ns name ids inputs : str name -> operation (create_target_set context ns name ids inputs)
| OpListTargetSets ns limit after : u16 limit -> ostr after -> operation (list_target_sets context ns limit after)
| OpGetTargetSet id : operation (get_target_set context id)
| OpUpdateTargetSet id name ids inputs : str name -> operation (update_target_set context id name ids inputs)
| OpCreateSchedule ns input :
    str (cs_name input) -> u32 (cs_misfire_grace_seconds input) -> operation (create_schedule context ns input)
| OpListSchedules ns limit after : u16 limit -> ostr after -> operation (list_schedules context ns limit after)
| OpGetSchedule id : operation (get_schedule context id)
| OpSetScheduleEnabled id revision enabled : operation (set_schedule_enabled context id revision enabled)
| OpCreateRun request job target inputs : operation (create_run context request job target inputs)
| OpListRuns filter limit before : u16 limit -> operation (list_runs context filter limit before)
| OpGetRun id : operation (get_run context id)
| OpRerunRun source request : operation (rerun_run context source request)
| OpListRunAttempts id : operation (list_run_attempts context id)
| OpListRunEvents id : operation (list_run_events context id)
| OpListWorkers limit after : u16 limit -> ostr after -> operation (list_workers context limit after)
| OpGetWorker worker : str worker -> operation (get_worker context worker)
| OpOverview : operation (overview context)
| OpMonitorSnapshot : operation (monitor_snapshot context)
| OpCreateWorkflow ns input : workflow_strs input -> operation (create_workflow context ns input)
| OpUpdateWorkflow id revision input : workflow_strs input -> operation (update_workflow context id revision input)
| OpGetWorkflow id : operation (get_workflow context id)
| OpListWorkflows ns limit after : u16 limit -> ostr after -> operation (list_workflows context ns limit after)
| OpDeleteWorkflow id : operation (delete_workflow context id)
| OpStartWorkflow id request target inputs : operation (start_workflow context id request target inputs)
| OpGetWorkflowRun id : operation (get_workflow_run context id)
| OpListWorkflowRuns id limit before : u16 limit -> operation (list_workflow_runs context id limit before)
| OpCancelWorkflowRun id : operation (cancel_workflow_run context id).

End Operations.
