(* ===== verification/Authority.v ===== *)
(** * Authority of the services' calls

    What the caller must have been granted before each call that a service
    makes to the store, and the proof that every service respects it on every
    execution, whatever the answers and however requests interleave. *)

From S2P Require Import Prelude RustStr Json Inputs Names Float Domain Auth Recurrence Workflow Db Snapshot Store WorkflowStore Catalog Queries Validation Application ApplicationSystem.
From Stdlib Require Import String.
From stdpp Require Import base numbers strings sorting gmap list.

Local Open Scope Z_scope.

(** ** What each call requires *)

Section Spec.
Context (context : RequestContext).

(** Some permission on the resource. *)
Definition some_grant (h : list known) (resource : ResourceScope) : Prop := exists c, Granted context c resource ∈ h.

Definition grant (h : list known) (c : Capability) (resource : ResourceScope) : Prop := Granted context c resource ∈ h.

Definition job_in (h : list known) (job ns : Uuid) : Prop :=
  exists r, IsJob job r ∈ h /\ job_namespace_id (jr_job r) = ns.

Definition target_in (h : list known) (target ns : Uuid) : Prop :=
  exists r, IsTarget target r ∈ h /\ tgt_namespace_id (tr_target r) = ns.

(** The caller may execute on the selection, which lies in the Namespace and has these Targets. *)
Definition may_execute_on (h : list known) (selection : TargetSelection) (ns : Uuid) (targets : list Uuid) : Prop :=
  match selection with
  | SelTarget id => grant h TargetUse (RSTarget id) /\ target_in h id ns /\ targets = [id]
  | SelTargetSet id =>
      grant h TargetSetUse (RSTargetSet id)
      /\ exists r, IsTargetSet id r ∈ h /\ ts_namespace_id (tsrec_target_set r) = ns
           /\ targets = map tgt_id (tsrec_targets r) /\ forall t, t ∈ targets -> grant h TargetUse (RSTarget t)
  end.

(** Every Job of the graph lies in the Namespace and is covered by the permission. *)
Definition jobs_covered (h : list known) (c : Capability) (ns : Uuid) (definition : WorkflowDefinition) : Prop :=
  forall node, node ∈ wd_nodes definition -> grant h c (RSJob (wn_job_id node)) /\ job_in h (wn_job_id node) ns.

(** The members of a Target Set: readable, and in its Namespace. *)
Definition members_covered (h : list known) (ns : Uuid) (ids : list Uuid) : Prop :=
  forall id, id ∈ ids -> grant h TargetRead (RSTarget id) /\ target_in h id ns.

Definition store_permitted {A} (h : list known) (m : StoreCall A) : Prop :=
  match m with
  (* reads: no row is looked up without a permission on it *)
  | GetNamespace id => some_grant h (RSNamespace id)
  | GetQueue id => some_grant h (RSQueue id)
  | GetJob id => some_grant h (RSJob id)
  | GetTarget id => some_grant h (RSTarget id)
  | GetTargetSet id => some_grant h (RSTargetSet id)
  | GetSchedule id => grant h ScheduleRead (RSSchedule id)
  | GetWorkflow id => some_grant h (RSWorkflow id)
  | GetRun id v | ListRunAttempts id v | ListRunEvents id v => grant h RunRead (RSRun id) /\ Sees context RunRead v ∈ h
  | GetWorkflowRun id v => grant h WorkflowRunRead (RSWorkflowRun id) /\ Sees context WorkflowRunRead v ∈ h
  | WorkflowRunForRequest _ _ | WorkflowRunTargets _ => exists id, grant h WorkflowExecute (RSWorkflow id)
  | ListNamespaces v _ _ => Sees context NamespaceRead v ∈ h
  | ListQueues _ _ => grant h QueueRead RSControlPlane
  | ListJobs ns v _ _ => grant h JobRead (RSNamespace ns) /\ Sees context JobRead v ∈ h
  | ListTargets ns v _ _ => grant h TargetRead (RSNamespace ns) /\ Sees context TargetRead v ∈ h
  | ListTargetSets ns v _ _ => grant h TargetSetRead (RSNamespace ns) /\ Sees context TargetSetRead v ∈ h
  | ListSchedules ns v _ _ => grant h ScheduleRead (RSNamespace ns) /\ Sees context ScheduleRead v ∈ h
  | ListWorkflows ns v _ _ => grant h WorkflowRead (RSNamespace ns) /\ Sees context WorkflowRead v ∈ h
  | ListWorkflowRuns id v _ _ => grant h WorkflowRunRead (RSWorkflow id) /\ Sees context WorkflowRunRead v ∈ h
  | ListRuns v _ _ _ => Sees context RunRead v ∈ h
  | ListWorkers _ _ | GetWorker _ => grant h WorkerRead RSControlPlane
  | ReadOverview v => Sees context OverviewRead v ∈ h
  | ReadMonitor => grant h MonitorRead RSControlPlane
  (* changes *)
  | CreateNamespace _ => grant h NamespaceCreate RSControlPlane
  | DeleteNamespace id => grant h NamespaceDelete (RSNamespace id)
  | CreateQueue _ _ => grant h QueueCreate RSControlPlane
  | UpdateQueue id _ _ _ => grant h QueueUpdate (RSQueue id)
  | DeleteQueue id => grant h QueueDelete (RSQueue id)
  | CreateJob ns _ def => grant h JobCreate (RSNamespace ns) /\ grant h QueueRead (RSQueue (jd_queue_id def))
  | UpdateJob id _ def => grant h JobUpdate (RSJob id) /\ grant h QueueRead (RSQueue (jd_queue_id def))
  | CreateTarget ns _ _ => grant h TargetCreate (RSNamespace ns)
  | UpdateTarget id _ _ => grant h TargetUpdate (RSTarget id)
  | DeleteTarget id => grant h TargetDelete (RSTarget id)
  | CreateTargetSet ns _ ids _ => grant h TargetSetCreate (RSNamespace ns) /\ members_covered h ns ids
  | UpdateTargetSet id _ ids _ =>
      grant h TargetSetUpdate (RSTargetSet id)
      /\ exists r, IsTargetSet id r ∈ h /\ members_covered h (ts_namespace_id (tsrec_target_set r)) ids
  | CreateSchedule s =>
      let ns := new_namespace_id s in
      grant h ScheduleCreate (RSNamespace ns) /\ grant h RunCreate (RSNamespace ns)
      /\ grant h JobRead (RSJob (new_job_id s)) /\ grant h JobExecute (RSJob (new_job_id s)) /\ job_in h (new_job_id s) ns
      /\ exists targets, may_execute_on h (new_target s) ns targets
  | SetScheduleEnabled id _ enabled _ =>
      grant h ScheduleRead (RSSchedule id) /\ grant h ScheduleUpdate (RSSchedule id)
      /\ (enabled = true -> exists r targets, IsSchedule id r ∈ h
          /\ grant h JobRead (RSJob (sch_job_id (srec_schedule r))) /\ grant h JobExecute (RSJob (sch_job_id (srec_schedule r)))
          /\ grant h RunCreate (RSNamespace (sch_namespace_id (srec_schedule r)))
          /\ may_execute_on h (sch_target (srec_schedule r)) (sch_namespace_id (srec_schedule r)) targets)
  | CreateRuns _ job target _ =>
      grant h JobExecute (RSJob job)
      /\ exists ns targets, job_in h job ns /\ may_execute_on h target ns targets /\ grant h RunCreate (RSNamespace ns)
  | RerunRun source _ =>
      grant h RunRead (RSRun source) /\ exists r ns, IsRun source r ∈ h
        /\ is_repeatable (run_status (rec_run r)) = true /\ rec_has_execution_snapshot r = true
        /\ grant h JobExecute (RSJob (run_job_id (rec_run r))) /\ grant h TargetUse (RSTarget (run_target_id (rec_run r)))
        /\ job_in h (run_job_id (rec_run r)) ns /\ grant h RunCreate (RSNamespace ns)
  | WriteWorkflow ns None def => grant h WorkflowCreate (RSNamespace ns) /\ jobs_covered h JobRead ns def
  | WriteWorkflow ns (Some (id, _)) def =>
      grant h WorkflowUpdate (RSWorkflow id) /\ (exists r, IsWorkflow id r ∈ h /\ wrec_namespace_id r = ns)
      /\ jobs_covered h JobRead ns def
  | DeleteWorkflow id => grant h WorkflowDelete (RSWorkflow id)
  | StartWorkflow launch =>
      let id := wl_workflow_id launch in
      grant h WorkflowExecute (RSWorkflow id) /\ exists r, IsWorkflow id r ∈ h /\ wrec_revision r = wl_revision launch
        /\ let ns := wrec_namespace_id r in
           jobs_covered h JobExecute ns (wrec_definition r)
           /\ may_execute_on h (wl_target launch) ns (wl_authorized_targets launch) /\ grant h RunCreate (RSNamespace ns)
  | CancelWorkflowRun id => grant h WorkflowRunRead (RSWorkflowRun id) /\ grant h WorkflowRunCancel (RSWorkflowRun id)
  end.

(** Decisions are asked for the request's own caller. *)
Definition permitted (B : Type) (h : list known) (c : Call B) : Prop :=
  match c with
  | Authorize ctx _ _ => ctx = context
  | Visible ctx _ => ctx = context
  | NowUtc => True
  | CallStore m => store_permitted h m
  end.

(** ** Facts stay *)

Lemma grant_mono h h' c r : h ⊆ h' -> grant h c r -> grant h' c r.
Proof. unfold grant. set_solver. Qed.

Lemma target_in_mono h h' t ns : h ⊆ h' -> target_in h t ns -> target_in h' t ns.
Proof. intros Hs (r & Hr & Hn). exists r. set_solver. Qed.

Lemma job_in_mono h h' t ns : h ⊆ h' -> job_in h t ns -> job_in h' t ns.
Proof. intros Hs (r & Hr & Hn). exists r. set_solver. Qed.

Lemma may_execute_on_mono h h' sel ns l : h ⊆ h' -> may_execute_on h sel ns l -> may_execute_on h' sel ns l.
Proof.
  intros Hs. destruct sel as [id|id]; simpl.
  - intros (H1 & H2 & H3). split_and!; eauto using grant_mono, target_in_mono.
  - intros (H1 & r & H2 & H3 & H4 & H5). split; [by eapply grant_mono|]. exists r. split_and!; eauto using grant_mono.
Qed.

Lemma jobs_covered_mono h h' c ns def : h ⊆ h' -> jobs_covered h c ns def -> jobs_covered h' c ns def.
Proof. intros Hs H n Hn. destruct (H n Hn). eauto using grant_mono, job_in_mono. Qed.

Lemma members_covered_mono h h' ns ids : h ⊆ h' -> members_covered h ns ids -> members_covered h' ns ids.
Proof. intros Hs H n Hn. destruct (H n Hn). eauto using grant_mono, target_in_mono. Qed.

End Spec.

(** ** The services respect it *)

(** A known fact, in the list of the facts or in one it extends. *)
Ltac known := solve [unfold grant, some_grant; try eexists; repeat first
  [ assumption | apply list_elem_of_here | apply list_elem_of_further
  | match goal with H : ?h ⊆ ?h' |- _ ∈ ?h' => apply H end ]].

Ltac service := service_with ltac:(cbn [permitted store_permitted]).

(** Compared identities are the same. *)
Ltac same_ids := simp_bool; repeat match goal with H : (_ =? _)%N = true |- _ => apply N.eqb_eq in H end.

Section Operations.
Context {SJ : SerdeJson} {RF : RustFmt} {CC : CronCrates}.
Context (context : RequestContext).

Lemma execution_targets_authority h sel :
  wp (permitted context) h (execution_targets context sel)
    (fun '(ns, _, targets) h' => may_execute_on context h' sel ns (map tgt_id targets)).
Proof.
  unfold execution_targets. destruct sel as [id|id]; service; try known.
  - simpl in Hf. split; [known|]. split; [eexists; split; [known|done]|]. simpl. by rewrite Hf.
  - eapply wp_use with (Q := fun _ h' => forall t, t ∈ tsrec_targets rec -> grant context h' TargetUse (RSTarget (tgt_id t))).
    + eapply wp_for_each; [intros t h1 h2; apply grant_mono|]. intros t h' Ht Hh. service. known.
    + intros [] h' Hh Hall. simpl. split; [known|]. exists rec. split_and!; [known|done|done|].
      intros t (t' & -> & Ht)%list_elem_of_fmap. by apply Hall.
Qed.

Lemma members_authority h ns ids :
  wp (permitted context) h
    (for_each ids (fun id =>
       let^ _ := require context TargetRead (RSTarget id) in
       let^ target := store_or (or_invalid "target_ids" "one or more selected Targets no longer exist") (GetTarget id) in
       if negb (tgt_namespace_id (tr_target target) =? ns)%N
       then fail (invalid "target_ids" "all selected Targets must belong to the Target Set Namespace")
       else done_with ()))
    (fun _ h' => members_covered context h' ns ids).
Proof.
  eapply wp_for_each.
  - intros id h1 h2 Hs [H1 H2]. split; [by eapply grant_mono|by eapply target_in_mono].
  - intros id h' Hid Hs. service; [known|]. split; [known|]. exists rec. split; [known|]. by same_ids.
Qed.

Lemma workflow_jobs_authority h ns def c :
  wp (permitted context) h (validate_workflow_jobs context ns def c) (fun _ h' => jobs_covered context h' c ns def).
Proof.
  eapply wp_for_each.
  - intros id h1 h2 Hs [H1 H2]. split; [by eapply grant_mono|by eapply job_in_mono].
  - intros node h' Hn Hs. service; [known|]. split; [known|]. exists rec. split; [known|]. by same_ids.
Qed.

Lemma replay_authority h id run :
  grant context h WorkflowExecute (RSWorkflow id) ->
  wp (permitted context) h (authorize_workflow_replay context run) (fun _ _ => True).
Proof.
  intros Hg. unfold authorize_workflow_replay.
  eapply (wp_use _ _ _ _ (fun _ _ => True)).
  { eapply wp_mono; [|apply (wp_for_each _ _ (fun _ _ => True)); [done|]]; [done|]. intros node h' _ _. by service. }
  intros _ h1 H1 _. eapply (wp_use _ _ _ _ (fun _ _ => True)); [destruct (wrr_target run); [done|by service]|].
  intros _ h2 H2 _. service; [exists id; by apply H2, H1|].
  eapply (wp_use _ _ _ _ (fun _ _ => True)); [|intros _ h3 _ _; by service].
  eapply wp_mono; [|apply (wp_for_each _ _ (fun _ _ => True)); [done|]]; [done|]. intros t h' _ _. by service.
Qed.

Lemma schedules_authority :
  (forall ns input, safe (permitted context) (create_schedule context ns input))
  /\ (forall id revision enabled, safe (permitted context) (set_schedule_enabled context id revision enabled)).
Proof.
  split; intros; unfold safe.
  - unfold create_schedule. service; [known|].
    eapply wp_use; [apply execution_targets_authority|]. intros [[sel set_inputs] targets] h Hs Hex. service. same_ids. subst sel.
    eapply wp_use; [apply wp_checks|]. intros [] h1 H1 _. service.
    assert (store_permitted context h1 (CreateSchedule (mkNewSchedule ns x (cs_job_id input) (cs_target input) (cs_inputs input)
      None None "" 0 (cs_misfire_policy input) (cs_misfire_grace_seconds input) (cs_catchup_policy input)
      (cs_max_catchup_runs input) (cs_max_catchup_age_seconds input)))) as Hp.
    { simpl. split_and!; try known; [exists rec; split; [known|done]|]. exists (map tgt_id targets). by eapply may_execute_on_mono. }
    destruct (cs_timing input) as [expression timezone|at_]; [apply wp_bind; service; exact Hp|by apply (wp_store_end _ from_store_error)].
  - unfold set_schedule_enabled, get_schedule. apply wp_bind. service; [known|]. simpl in Hf. service.
    eapply (wp_use _ _ _ _ (fun _ h => enabled = true -> exists targets, let s := srec_schedule rec in
      grant context h JobRead (RSJob (sch_job_id s)) /\ grant context h JobExecute (RSJob (sch_job_id s))
      /\ grant context h RunCreate (RSNamespace (sch_namespace_id s))
      /\ may_execute_on context h (sch_target s) (sch_namespace_id s) targets)).
    + destruct enabled; [|done]. unfold for_each. repeat (apply wp_bind; service).
      eapply wp_mono; [|apply execution_targets_authority]. intros [[ns set_inputs] targets] h Hs Hex. service. same_ids. subst ns.
      destruct (sch_timing (srec_schedule rec)); service; intros _; exists (map tgt_id targets); split_and!; known || done.
    + intros next h Hs Hex. service. rewrite Hf. split_and!; [known|known|]. intros He.
      destruct (Hex He) as (targets & H1 & H2 & H3 & H4). exists rec, targets. split_and!; try done. known.
Qed.

Lemma runs_authority :
  (forall request job target inputs, safe (permitted context) (create_run context request job target inputs))
  /\ (forall source request, safe (permitted context) (rerun_run context source request)).
Proof.
  split; intros; unfold safe.
  - unfold create_run. service; [known|]. eapply wp_use; [apply execution_targets_authority|].
    intros [[sel set_inputs] targets] h Hs Hex. service. same_ids.
    eapply wp_use; [apply wp_checks|]. intros [] h1 H1 _. service; [|by destruct rec0].
    split; [known|]. exists sel, (map tgt_id targets). split_and!; [exists rec; split; [known|by same_ids]| |].
    + eapply may_execute_on_mono; [|exact Hex]. set_solver.
    + rewrite Heqb. known.
  - unfold rerun_run, get_run. apply wp_bind. service; try known; [|by destruct rec1].
    simpl in Hf. rewrite Hf. simp_bool. split; [known|]. exists rec, (job_namespace_id (jr_job rec0)).
    split_and!; try known; try done. exists rec0. split; [known|done].
Qed.

Lemma workflow_writes_authority :
  (forall ns input, safe (permitted context) (create_workflow context ns input))
  /\ (forall id revision input, safe (permitted context) (update_workflow context id revision input)).
Proof.
  split; intros; unfold safe; [unfold create_workflow|unfold update_workflow]; service; try known.
  - eapply wp_use; [apply workflow_jobs_authority|]. intros [] h Hs Hc. service. split; [known|done].
  - eapply wp_use; [apply workflow_jobs_authority|]. intros [] h Hs Hc. service. split_and!; [known| |done].
    exists rec. split; [known|done].
Qed.

Lemma start_authority id request target inputs : safe (permitted context) (start_workflow context id request target inputs).
Proof.
  unfold safe, start_workflow. service; [by exists id; known|]. destruct rec as [existing|].
  - service. eapply wp_use; [apply (replay_authority _ id); known|]. intros _ h Hs _. by service.
  - service; [known|]. eapply wp_use; [apply execution_targets_authority|].
    intros [[ns set_inputs] targets] h Hs Hex. service. same_ids. subst ns.
    eapply wp_use; [apply workflow_jobs_authority|]. intros [] h1 H1 Hjobs.
    eapply (wp_use _ _ _ _ (fun _ _ => True)).
    { eapply wp_mono; [|apply (wp_for_each _ _ (fun _ _ => True)); [done|]]; [done|].
      intros node h' Hn Hs'. service; [|by eapply wp_mono; [|apply wp_checks]]. eexists. by apply Hs', Hjobs. }
    intros _ h2 H2 _. service.
    + simpl. split; [known|]. exists rec. split_and!; [known|done|..].
      * eapply jobs_covered_mono; [|exact Hjobs]. set_solver.
      * eapply may_execute_on_mono; [|exact Hex]. set_solver.
      * known.
    + destruct rec0 as [record created]. eapply (wp_use _ _ _ _ (fun _ _ => True)); [|intros _ h3 _ _; by service].
      destruct created; [done|]. apply (replay_authority _ id). known.
Qed.

(** Every service makes only permitted calls. *)
Lemma operation_authority {A} (p : prog A) : operation context p -> safe (permitted context) p.
Proof.
  intros Hp. destruct Hp;
    try (by apply schedules_authority); try (by apply runs_authority); try (by apply workflow_writes_authority);
    try (by apply start_authority); unfold safe.
  all: try (unfold create_namespace, list_namespaces, get_namespace, delete_namespace, create_queue, list_queues, get_queue,
    update_queue, delete_queue, list_jobs, get_job, create_target, list_targets, get_target,
    update_target, delete_target, list_target_sets, get_target_set, list_schedules, get_schedule, list_runs, get_run,
    list_run_attempts, list_run_events, list_workers, get_worker, overview, get_workflow, list_workflows, delete_workflow,
    get_workflow_run, list_workflow_runs; solve [service; known]).
  - unfold create_job. service; known.
  - unfold update_job. service; known.
  - unfold create_target_set. service. eapply wp_use; [apply members_authority|]. intros [] h Hs Hm. service. split; [known|done].
  - unfold update_target_set. service; [known|]. eapply wp_use; [apply members_authority|]. intros [] h Hs Hm. service.
    split; [known|]. exists rec. split; [known|done].
  - unfold monitor_snapshot. service. split; [simpl; known|]. by intros [r|e] _.
  - unfold cancel_workflow_run, get_workflow_run. apply wp_bind. service; try known. simpl in Hf. rewrite Hf. split; known.
Qed.

(** C5: No service acts without authority.  On every execution of every service, whatever the
    answers of the authorizer and the store, as long as a lookup answers with the row it was asked
    for, and however requests interleave between its calls, each call to the store comes after the grants it needs: a row is looked up only after a grant
    on it, listings carry the visibility the policy gave the caller, and each change only after
    all the permissions it needs on every Job, Target, Target Set and Namespace it involves, whose
    ownership was read from the store. *)
Theorem services_authorized {A} (p : prog A) tr r :
  operation context p -> executes p tr r -> Forall faithful_event tr ->
  forall pre B (c : Call B) x post, tr = pre ++ Ev c x :: post -> permitted context B (facts pre) c.
Proof. intros Hp%operation_authority. by apply safe_executes. Qed.

End Operations.
