(* ===== verification/Accepted.v ===== *)
(** * What the services accept

    The data a service passes on to the store satisfies the constraints of the
    tables it is written to: validation and the schema agree. *)

From S2P Require Import Prelude RustStr Json Inputs Names Float Domain Auth Recurrence Workflow Db Snapshot Store WorkflowStore Catalog Queries Pagination Validation Application ApplicationSystem.
From Stdlib Require Import SpecFloat Ascii String.
From stdpp Require Import base numbers strings sorting gmap list.

Local Open Scope Z_scope.

(** ** What each call carries *)

Definition page_valid (limit : Z) (after : option string) : Prop :=
  1 <= limit <= 100 /\ match after with Some a => canonical_label a = true | None => True end.

Definition queue_row_valid (name : QueueName) (description : option string) (enabled system : bool) : Prop :=
  forallb storable (QueueNameM.as_str name :: opt_text description) = true
  /\ forall t u, queue_checks {| qr_name := QueueNameM.as_str name; qr_description := description; qr_enabled := enabled;
                                 qr_system := system; qr_created_at := t; qr_updated_at := u |} = true.

Definition set_valid (name : ResourceName) (ids : list Uuid) (inputs : value) : Prop :=
  NoDup ids /\ (1 <= length ids <= 1000)%nat
  /\ forall ns t u, target_set_checks {| tsr_namespace_id := ns; tsr_name := ResourceNameM.as_str name; tsr_inputs := inputs;
                                         tsr_created_at := t; tsr_updated_at := u |} = true.

Section Accepted.
Context {SJ : SerdeJson} {RF : RustFmt} {CC : CronCrates}.

Definition store_valid {A} (h : list known) (m : StoreCall A) : Prop :=
  match m with
  | CreateNamespace name => forall t, namespace_checks (mkNamespaceRow (NamespaceNameM.as_str name) t) = true
  | CreateQueue name description => queue_row_valid name description true false
  | UpdateQueue id name description enabled =>
      exists q, IsQueue id q ∈ h /\ queue_row_valid name description enabled (q_system q)
  | CreateJob _ name definition | UpdateJob _ name definition =>
      in_i32 (jd_retry_initial_seconds definition) = true /\ in_i32 (jd_retry_max_seconds definition) = true
      /\ forallb storable (ResourceNameM.as_str name :: opt_text (jd_executable definition)
                           ++ opt_text (jd_shell_command definition)) = true
      /\ forall ns t u, job_checks (job_row ns name definition t u) = true
  | CreateTarget _ name definition | UpdateTarget _ name definition =>
      forall ns t u, target_checks (target_row ns name definition t u) = true
  | CreateTargetSet _ name ids inputs | UpdateTargetSet _ name ids inputs => set_valid name ids inputs
  | CreateSchedule s =>
      opt_i32 (new_misfire_grace_seconds s) = true /\ in_i32 (new_max_catchup_age_seconds s) = true
      /\ forall t, schedule_checks (schedule_row s t) = true
  | CreateRuns _ _ _ inputs => validate_inputs inputs = Ok ()
  | WriteWorkflow _ _ definition => validate definition = Ok ()
  | StartWorkflow launch => validate_inputs (wl_inputs launch) = Ok ()
  | ListNamespaces _ limit after | ListQueues limit after | ListJobs _ _ limit after | ListTargets _ _ limit after
  | ListTargetSets _ _ limit after | ListSchedules _ _ limit after | ListWorkflows _ _ limit after
  | ListWorkers limit after => page_valid limit after
  | ListRuns _ _ limit _ | ListWorkflowRuns _ _ limit _ => 1 <= limit <= 100
  | GetWorker worker => canonical_label worker = true
  | _ => True
  end.

Definition acceptable (B : Type) (h : list known) (c : Call B) : Prop :=
  match c with CallStore m => store_valid h m | _ => True end.

(** ** Lemmas: the checks *)

Lemma parse_name_canonical s x : str s -> parse_resource_name s = Ok x -> canonical_label (ResourceNameM.as_str x) = true.
Proof.
  unfold parse_resource_name, ResourceNameM.parse. intros Hs H. destruct (validate_resource_name (trim s)) as [[]|] eqn:E; [|done].
  injection H as <-. simpl. apply valid_name_canonical; [by apply trim_utf8|done].
Qed.

Lemma parse_namespace_canonical s x :
  str s -> map_err invalid_name (NamespaceNameM.parse (trim s)) = Ok x -> canonical_label (NamespaceNameM.as_str x) = true.
Proof.
  unfold NamespaceNameM.parse. intros Hs H. destruct (validate_resource_name (trim s)) as [[]|] eqn:E; [|done].
  injection H as <-. simpl. apply valid_name_canonical; [by apply trim_utf8|done].
Qed.

Lemma parse_queue_canonical s x : str s -> parse_queue_name s = Ok x -> canonical_label (QueueNameM.as_str x) = true.
Proof.
  unfold parse_queue_name, QueueNameM.parse. intros Hs H. destruct (validate_resource_name (trim s)) as [[]|] eqn:E; [|done].
  injection H as <-. simpl. apply valid_name_canonical; [by apply trim_utf8|done].
Qed.

Lemma page_limit_bounds limit n : u16 limit -> page_limit limit = Ok n -> 1 <= n <= 100.
Proof.
  unfold page_limit. intros Hu H. destruct (_ || _) eqn:E; [done|]. injection H as <-. simp_bool. unfold MAX_LIMIT in *.
  destruct limit as [z|]; simpl in *; [apply in_range_spec in Hu; lia|unfold DEFAULT_LIMIT; lia].
Qed.

Lemma page_cursor_canonical after a :
  ostr after -> page_cursor after = Ok a -> match a with Some a => canonical_label a = true | None => True end.
Proof.
  destruct after as [s|]; simpl; [|by intros _ [= <-]]. intros Hs. destruct (validate_resource_name s) as [[]|] eqn:E; [|done].
  intros [= <-]. by apply valid_name_canonical.
Qed.

Lemma input_object inputs : validate_input_object inputs = Ok () -> validate_inputs inputs = Ok () /\ is_object inputs = true.
Proof.
  unfold validate_input_object. destruct (validate_inputs inputs) as [[]|] eqn:E; [|done]. intros _. split; [done|].
  unfold validate_inputs in E. by destruct (is_object inputs).
Qed.

Lemma target_ids_valid ids : validate_target_ids ids = Ok () -> NoDup ids /\ (1 <= length ids <= 1000)%nat.
Proof.
  unfold validate_target_ids. destruct (_ || _) eqn:E; [done|]. destruct (negb _) eqn:E2; [done|]. intros _.
  simp_bool. apply Nat.eqb_eq in E2. apply Nat.eqb_neq in H. apply Nat.ltb_ge in H0. unfold MAX_TARGET_SET_MEMBERS in H0.
  split; [|lia]. revert E2. clear. induction ids as [|x ids IH]; [constructor|]. simpl. intros E.
  destruct (decide (x ∈ ids)) as [Hin|Hnin].
  - exfalso. assert (size (list_to_set ids : gset Uuid) <= length ids)%nat as Hle.
    { clear. induction ids as [|y ids IH]; [done|]. simpl. rewrite size_union_alt, size_singleton.
      assert (size (list_to_set ids ∖ {[y]} : gset Uuid) <= size (list_to_set ids : gset Uuid))%nat by (apply subseteq_size; set_solver). lia. }
    replace ({[x]} ∪ list_to_set ids : gset Uuid) with (list_to_set ids : gset Uuid) in E by set_solver. lia.
  - constructor; [done|]. apply IH. rewrite size_union, size_singleton in E by set_solver. lia.
Qed.

Lemma sf_compare_swap x y : SFcompare y x = option_map CompOpp (SFcompare x y).
Proof.
  destruct x as [[]|[]| |[] mx ex], y as [[]|[]| |[] my ey]; try done; simpl;
    rewrite (Z.compare_antisym ex ey); destruct (Z.compare ex ey) eqn:E; simpl; try done;
    rewrite (Pos.compare_cont_antisym mx my Eq); simpl; by destruct (Pos.compare_cont Eq mx my).
Qed.

Lemma sf_not_lt_le x y : is_finite x = true -> is_finite y = true -> SFltb x y = false -> pg_f64_le y x = true.
Proof.
  intros Hx Hy. unfold SFltb. assert (pg_f64_le y x = SFleb y x) as -> by (by destruct x, y). unfold SFleb.
  rewrite (sf_compare_swap x y). destruct (SFcompare x y) as [[]|] eqn:E; simpl; try done.
  exfalso. destruct x as [[]|[]| |[] mx ex], y as [[]|[]| |[] my ey]; try done; simpl in E; by destruct (Z.compare ex ey).
Qed.

(** The executor's settings: an absolute path without NUL, a script without NUL. *)
Lemma path_valid_spec o : path_valid o = true -> like_absolute o = true /\ forallb storable (opt_text o) = true.
Proof.
  destruct o as [p|]; [|done]. cbn [path_valid]. intros H. simp_bool. split; [|by unfold storable, contains_nul in *; simpl; rewrite H1].
  destruct p as [|a p]; [done|]. cbn [String.prefix] in H. destruct (ascii_dec "/" a) as [<-|]; done.
Qed.

Lemma validate_executor_valid input : validate_executor input = Ok () ->
  job_process_configuration (job_row 0 (MkResourceName "") (job_definition input) 0 0) = true
  /\ forallb storable (opt_text (cj_executable input) ++ opt_text (cj_shell_command input)) = true.
Proof.
  unfold validate_executor, job_process_configuration. simpl. destruct (cj_executor input); simpl.
  - by destruct (cj_executable input), (cj_shell_command input).
  - destruct (path_valid _) eqn:Hp; [|done]. destruct (cj_shell_command input); [done|]. intros _.
    apply path_valid_spec in Hp as [-> Hs]. by rewrite app_nil_r.
  - destruct (path_valid _) eqn:Hp; [|done]. apply path_valid_spec in Hp as [-> Hs].
    destruct (cj_shell_command input) as [script|]; [|done]. destruct (_ || _) eqn:E; [done|]. intros _. simp_bool.
    rewrite forallb_app, Hs. simpl. unfold storable. unfold contains_nul in *. rewrite H0. split; [|done].
    rewrite !andb_true_iff, !Z.leb_le. split; [|lia]. destruct script; [done|]. unfold slen. simpl. lia.
Qed.

Lemma validate_job_valid input : validate_job input = Ok () ->
  in_i32 (cj_retry_initial_seconds input) = true /\ in_i32 (cj_retry_max_seconds input) = true
  /\ forallb storable (opt_text (cj_executable input) ++ opt_text (cj_shell_command input)) = true
  /\ forall ns name t u, canonical_label (ResourceNameM.as_str name) = true ->
       job_checks (job_row ns name (job_definition input) t u) = true.
Proof.
  unfold validate_job. intros H. apply result_bind_ok in H as ([] & Ha & H). apply result_bind_ok in H as ([] & Hi & H).
  apply input_object in Hi as [_ Hobj]. destruct (negb _) eqn:H1; [done|]. destruct (_ || _) eqn:H2; [done|].
  simp_bool. assert (cj_retry_initial_seconds input <= 86400 /\ 1 <= cj_retry_initial_seconds input) as [Hr1 Hr2]
    by (match goal with H : in_range 1 86400 _ = true |- _ => apply in_range_spec in H end; lia).
  destruct (validate_executor_valid input H) as [Hp Hs].
  split_and!; [apply in_range_spec; unfold i32_min, i32_max; lia..|done|].
  intros ns name t u Hn. unfold job_checks. simpl. rewrite Hn, Hobj. simpl.
  change (job_process_configuration (job_row ns name (job_definition input) t u)) with
    (job_process_configuration (job_row 0 (MkResourceName "") (job_definition input) 0 0)). rewrite Hp. simpl.
  rewrite H1. simpl. rewrite !andb_true_iff. split_and!; try done; try (apply in_range_spec; lia).
  - exact (sf_not_lt_le (cj_retry_multiplier input) f64_one H5 eq_refl H4).
  - by destruct (cj_retry_jitter input).
  - by destruct (cj_retry_jitter input).
Qed.

Lemma schedule_valid h s :
  validate_schedule_policy (new_misfire_policy s) (new_misfire_grace_seconds s) (new_max_catchup_runs s)
    (new_max_catchup_age_seconds s) = Ok () ->
  u32 (new_misfire_grace_seconds s) -> is_object (new_inputs s) = true ->
  canonical_label (ResourceNameM.as_str (new_name s)) = true ->
  is_null (new_cron_expression s) = negb (is_null (new_execute_at s)) -> store_valid h (CreateSchedule s).
Proof.
  unfold validate_schedule_policy. intros Hp Hu Ho Hn Ht. destruct (negb (Bool.eqb _ _)) eqn:E1; [done|].
  destruct (match new_misfire_grace_seconds s with Some _ => _ | None => _ end) eqn:E2; [done|].
  destruct (_ || _) eqn:E3; [done|]. simp_bool.
  assert (opt_i32 (new_misfire_grace_seconds s) = true) as Hg
    by (destruct (new_misfire_grace_seconds s); simpl; [by apply negb_false_iff|done]).
  split_and!; [done| |].
  - apply in_range_spec in H0. apply in_range_spec. unfold i32_min, i32_max. lia.
  - intros t. unfold schedule_checks, schedule_row. apply eqb_prop in E1.
    destruct (new_target s); simpl; rewrite Hn, Ho, H, H0; simpl;
    (destruct (new_cron_expression s), (new_execute_at s); try done; simpl);
    (destruct (new_misfire_policy s), (new_misfire_grace_seconds s) as [g|]; try done; simpl);
    (destruct (new_catchup_policy s); simpl; try done);
    rewrite ?andb_true_r; apply Z.leb_le; simpl in Hu; apply in_range_spec in Hu; lia.
Qed.

End Accepted.

Ltac accept := service_with ltac:(cbn [acceptable]; unfold store_valid).

Section Operations.
Context {SJ : SerdeJson} {RF : RustFmt} {CC : CronCrates}.
Context (context : RequestContext).

Lemma execution_targets_accepted h sel : wp acceptable h (execution_targets context sel) (fun _ _ => True).
Proof.
  unfold execution_targets. destruct sel as [id|id]; accept; try done.
  eapply wp_use; [eapply (wp_for_each _ _ (fun _ _ => True)); [done|]|intros [] h' _ _; by accept].
  intros t h' _ _. by accept.
Qed.

Lemma members_accepted h ids (f : Uuid -> prog unit) :
  (forall id h', wp acceptable h' (f id) (fun _ _ => True)) -> wp acceptable h (for_each ids f) (fun _ _ => True).
Proof.
  intros Hf. eapply wp_mono; [|apply (wp_for_each _ _ (fun _ _ => True)); [done|]]; [done|]. intros x h' _ _. apply Hf.
Qed.

Lemma queues_accepted :
  (forall input, str (cq_name input) -> safe acceptable (create_queue context input))
  /\ (forall id input, str (uq_name input) -> safe acceptable (update_queue context id input)).
Proof.
  assert (forall name description enabled system,
    canonical_label (QueueNameM.as_str name) = true -> validate_queue_description description = Ok () ->
    (system = true -> enabled = true) -> QueueNameM.is_system name = system ->
    queue_row_valid name description enabled system) as Hrow.
  { intros name description enabled system Hn Hd He Hsys. unfold queue_row_valid, queue_checks. simpl.
    assert (match description with Some s => contains_nul s = false /\ chars_count s <= 500 | None => True end) as Hd'.
    { destruct description as [s|]; [|done]. simpl in Hd. destruct (_ || _) eqn:E; [done|]. by simp_bool. }
    unfold QueueNameM.is_system, QueueNameM.SYSTEM in Hsys. rewrite canonical_storable, Hn by done. simpl.
    split; [|intros t u].
    - destruct description as [s|]; [|done]. simpl. unfold storable, contains_nul in *. destruct Hd' as [-> _]. done.
    - rewrite Hsys, eqb_reflx, andb_true_r. apply andb_true_iff. split.
      + destruct description; [|done]. apply Z.leb_le. by destruct Hd'.
      + destruct system; simpl; [by apply He|done]. }
  split; intros; unfold safe; [unfold create_queue|unfold update_queue]; accept; try done.
  - apply Hrow; [by eapply parse_queue_canonical|by destruct x0|done|]. unfold ensure_queue_name_available in Hx1.
    by destruct (QueueNameM.is_system x).
  - exists rec. split; [left|]. apply Hrow; [by eapply parse_queue_canonical|by destruct x0| |].
    + intros Hs. rewrite Hs in Heqb0. simpl in Heqb0. by apply negb_false_iff.
    + unfold ensure_queue_name_available in Hx1. simpl in Hf. destruct (q_system rec) eqn:Es; simpl in *.
      * apply negb_false_iff, String.eqb_eq in Heqb. unfold QueueNameM.is_system in *. congruence.
      * by destruct (QueueNameM.is_system x).
Qed.

Lemma job_accepted input x :
  str (cj_name input) -> parse_resource_name (cj_name input) = Ok x -> validate_job (normalize_job_input input) = Ok () ->
  forall h ns, store_valid h (CreateJob ns x (job_definition (normalize_job_input input))).
Proof.
  intros Hs Hx Hv h ns. apply validate_job_valid in Hv as (H1 & H2 & H3 & H4). apply parse_name_canonical in Hx; [|done].
  split_and!; [done|done| |intros; by apply H4]. simpl. rewrite canonical_storable by done. exact H3.
Qed.

Lemma jobs_accepted :
  (forall ns input, str (cj_name input) -> safe acceptable (create_job context ns input))
  /\ (forall id input, str (cj_name input) -> safe acceptable (update_job context id input)).
Proof.
  split; intros; unfold safe; [unfold create_job|unfold update_job]; accept; try done; destruct x0.
  - by eapply (job_accepted input x) with (h := []) (ns := ns).
  - by eapply (job_accepted input x) with (h := []) (ns := id).
Qed.

Lemma targets_accepted :
  (forall ns name arguments inputs, str name -> safe acceptable (create_target context ns name arguments inputs))
  /\ (forall id name arguments inputs, str name -> safe acceptable (update_target context id name arguments inputs)).
Proof.
  split; intros; unfold safe; [unfold create_target|unfold update_target]; accept; try done; destruct x1.
  all: apply input_object in Hx1 as [_ Ho]; intros; unfold target_checks; rewrite !andb_true_iff;
    split_and!; [by eapply (parse_name_canonical name)|done|done].
Qed.

Lemma target_sets_accepted :
  (forall ns name ids inputs, str name -> safe acceptable (create_target_set context ns name ids inputs))
  /\ (forall id name ids inputs, str name -> safe acceptable (update_target_set context id name ids inputs)).
Proof.
  assert (forall name ids inputs x, str name -> parse_resource_name name = Ok x -> validate_input_object inputs = Ok () ->
    validate_target_ids ids = Ok () -> set_valid x ids inputs) as Hset.
  { intros name ids inputs x Hs Hx [_ Ho]%input_object Hi%target_ids_valid. destruct Hi. split_and!; try done; try lia.
    intros. unfold target_set_checks. apply andb_true_iff. split; [by eapply (parse_name_canonical name)|done]. }
  split; intros; unfold safe; [unfold create_target_set|unfold update_target_set]; accept; try done.
  all: eapply wp_use; [apply members_accepted; intros; by accept|]; intros [] h _ _; accept.
  - apply (Hset name); try done; [by destruct x0|]. unfold validate_target_ids. by rewrite Heqb, Heqb0.
  - apply (Hset name); try done; [by destruct x0|by destruct x1].
Qed.

Lemma schedules_accepted :
  (forall ns input, str (cs_name input) -> u32 (cs_misfire_grace_seconds input) -> safe acceptable (create_schedule context ns input))
  /\ (forall id revision enabled, safe acceptable (set_schedule_enabled context id revision enabled)).
Proof.
  split; intros; unfold safe.
  - unfold create_schedule. accept; [done|]. eapply wp_use; [apply execution_targets_accepted|].
    intros [[sel set_inputs] targets] h _ _. accept. eapply wp_use; [apply wp_checks|]. intros [] h1 _ _. accept.
    destruct x1, x0. apply input_object in Hx0 as [_ Ho]. pose proof (parse_name_canonical _ _ H Hx) as Hn.
    destruct (cs_timing input); [apply wp_bind; accept|apply wp_store_end; [cbn [acceptable]|done]]; by apply schedule_valid.
  - unfold set_schedule_enabled, get_schedule. apply wp_bind. accept; [done|].
    eapply (wp_use _ _ _ _ (fun _ _ => True)); [|intros next h _ _; by accept].
    destruct enabled; [|done]. unfold for_each. repeat (apply wp_bind; accept).
    eapply wp_mono; [|apply execution_targets_accepted]. intros [[ns set_inputs] targets] h Hs _. accept.
    destruct (sch_timing (srec_schedule rec)); by accept.
Qed.

Lemma runs_accepted :
  (forall request job target inputs, safe acceptable (create_run context request job target inputs))
  /\ (forall source request, safe acceptable (rerun_run context source request)).
Proof.
  split; intros; unfold safe.
  - unfold create_run. accept; [done|]. eapply wp_use; [apply execution_targets_accepted|].
    intros [[sel set_inputs] targets] h _ _. accept. eapply wp_use; [apply wp_checks|]. intros [] h1 _ _.
    accept; [|by destruct rec0]. destruct x. by apply input_object in Hx as [Hi _].
  - unfold rerun_run, get_run. apply wp_bind. accept; try done. by destruct rec1.
Qed.

Lemma replay_accepted h run : wp acceptable h (authorize_workflow_replay context run) (fun _ _ => True).
Proof.
  unfold authorize_workflow_replay.
  eapply wp_use; [apply (wp_for_each _ _ (fun _ _ => True)); [done|]; intros; by accept|]. intros [] h1 _ _.
  eapply (wp_use _ _ _ _ (fun _ _ => True)); [destruct (wrr_target run); [done|by accept]|]. intros [] h2 _ _. accept; [done|].
  eapply wp_use; [apply (wp_for_each _ _ (fun _ _ => True)); [done|]; intros; by accept|]. intros [] h3 _ _. by accept.
Qed.

Lemma workflow_jobs_accepted h ns def c :
  wp acceptable h (validate_workflow_jobs context ns def c) (fun _ _ => True).
Proof. eapply wp_mono; [|apply (wp_for_each _ _ (fun _ _ => True)); [done|]]; [done|]. intros; by accept. Qed.

Lemma workflow_definition_valid input def : workflow_definition input = Ok def -> validate def = Ok ().
Proof.
  unfold workflow_definition. intros H. repeat (apply result_bind_ok in H as (? & ? & H)). injection H as <-.
  by destruct (validate _) as [[]|].
Qed.

Lemma workflows_accepted :
  (forall ns input, safe acceptable (create_workflow context ns input))
  /\ (forall id revision input, safe acceptable (update_workflow context id revision input))
  /\ (forall id request target inputs, safe acceptable (start_workflow context id request target inputs)).
Proof.
  split_and!; intros; unfold safe; [unfold create_workflow|unfold update_workflow|unfold start_workflow]; accept; try done.
  1-2: eapply wp_use; [apply workflow_jobs_accepted|]; intros [] h _ _; accept; by eapply workflow_definition_valid.
  destruct rec as [existing|]; accept; try done.
  { eapply wp_use; [apply replay_accepted|]. intros [] h _ _. by accept. }
  eapply wp_use; [apply execution_targets_accepted|]. intros [[ns set_inputs] targets] h _ _. accept.
  eapply wp_use; [apply workflow_jobs_accepted|]. intros [] h1 _ _.
  eapply wp_use; [apply (wp_for_each _ _ (fun _ _ => True)); [done|]; intros; accept; [done|by eapply wp_mono; [|apply wp_checks]]|].
  intros [] h2 _ _. accept.
  - destruct x. by apply input_object in Hx as [Hi _].
  - destruct rec0 as [record created]. eapply (wp_use _ _ _ _ (fun _ _ => True)); [|intros [] h3 _ _; by accept].
    destruct created; [done|]. apply replay_accepted.
Qed.

Lemma operation_accepted {A} (p : prog A) : operation context p -> safe acceptable p.
Proof.
  intros Hp. destruct Hp; try (by apply queues_accepted); try (by apply jobs_accepted); try (by apply targets_accepted);
    try (by apply target_sets_accepted); try (by apply schedules_accepted); try (by apply runs_accepted);
    try (by apply workflows_accepted); unfold safe.
  all: try (unfold get_namespace, delete_namespace, get_queue,
    delete_queue, get_job, get_target, delete_target, get_target_set, get_schedule, get_run,
    list_run_attempts, list_run_events, overview, get_workflow, delete_workflow,
    get_workflow_run; solve [accept; done]).
  all: try (unfold list_namespaces, list_queues, list_jobs, list_targets, list_target_sets, list_schedules, list_workflows, list_workers;
    solve [accept; (done || (split; [by eapply page_limit_bounds|by eapply page_cursor_canonical]))]).
  - unfold create_namespace. accept. intros t. by eapply parse_namespace_canonical.
  - unfold list_runs. accept. by eapply page_limit_bounds.
  - unfold get_worker. accept. unfold stored_worker_id in Hx. destruct (validate_resource_name worker) as [[]|] eqn:E; [|done].
    injection Hx as <-. by apply valid_name_canonical.
  - unfold monitor_snapshot. accept. split; [done|]. by intros [r|e] _.
  - unfold list_workflow_runs. accept; [done|]. by eapply page_limit_bounds.
  - unfold cancel_workflow_run, get_workflow_run. apply wp_bind. by accept.
Qed.

(** C20: What the services accept, the tables accept: on every execution of every service, each call
    to the store carries data that satisfies the constraints of the rows it writes - canonical names,
    executor settings, retry and catch-up bounds, members without repetition, valid graphs and
    inputs, the system Queue's identity - and pages of 1 to 100 rows after a canonical cursor. *)
Theorem services_validate {A} (p : prog A) tr r :
  operation context p -> executes p tr r -> Forall faithful_event tr ->
  forall pre B (c : Call B) x post, tr = pre ++ Ev c x :: post -> acceptable B (facts pre) c.
Proof. intros Hp%operation_accepted. by apply safe_executes. Qed.

End Operations.
