(* ===== verification/Service.v ===== *)
(** * Requests served by the store and the policy

    The services' calls get their meaning: the authorizer is the policy over
    the store's ownership rows, the store is the model of PostgreSQL.  A
    request is served while other calls change the database between its own. *)

From S2P Require Import Prelude RustStr Json Inputs Names Float Domain Auth Recurrence Workflow Db Snapshot TxLogic Store WorkflowStore Catalog Queries WorkflowDefinitions Lifecycle Refinement WorkflowRefinement StoreSystem CatalogTheorems Scenario StoreBehaviour PlannerTheorems Launch CatalogHistory Pagination Access Validation Application ApplicationSystem Authority Accepted.
From Stdlib Require Import String.
From stdpp Require Import base numbers strings sorting gmap list relations.

Local Open Scope Z_scope.

Section Serving.
Context {SJ : SerdeJson} {RF : RustFmt} {PG : PostgresServer} {TC : TimeCrate} {SE : SnapshotEncoding}
  {DJ : DiagnosticsJson} {CC : CronCrates}.

(** [impl ControlPlaneStore for PostgresStore] *)
Definition perform (probe : Probe) {A} (m : StoreCall A) : tx A :=
  match m with
  | WriteWorkflow ns existing def => write ns existing def
  | GetWorkflow id => WorkflowStore.get_workflow id
  | ListWorkflows ns v limit after => WorkflowDefinitions.list_workflows ns v limit after
  | DeleteWorkflow id => WorkflowDefinitions.delete_workflow id
  | StartWorkflow launch => start launch
  | WorkflowRunForRequest request inputs => for_request request inputs
  | WorkflowRunTargets id => run_targets id
  | GetWorkflowRun id v => WorkflowDefinitions.get_run id v
  | ListWorkflowRuns id v limit before => WorkflowDefinitions.list_runs id v limit before
  | CancelWorkflowRun id => cancel_run id
  | CreateNamespace name => Catalog.create_namespace name
  | ListNamespaces v limit after => Catalog.list_namespaces v limit after
  | GetNamespace id => Catalog.get_namespace id
  | DeleteNamespace id => Catalog.delete_namespace id
  | CreateQueue name description => Catalog.create_queue name description
  | ListQueues limit after => Catalog.list_queues limit after
  | GetQueue id => Catalog.get_queue id
  | UpdateQueue id name description enabled => Catalog.update_queue id name description enabled
  | DeleteQueue id => Catalog.delete_queue id
  | CreateJob ns name def => Catalog.create_job ns name def
  | ListJobs ns v limit after => Catalog.list_jobs ns v limit after
  | GetJob id => Catalog.get_job id
  | UpdateJob id name def => Catalog.update_job id name def
  | CreateTarget ns name def => Catalog.create_target ns name def
  | ListTargets ns v limit after => Catalog.list_targets ns v limit after
  | GetTarget id => Catalog.get_target id
  | UpdateTarget id name def => Catalog.update_target id name def
  | DeleteTarget id => Catalog.delete_target id
  | CreateTargetSet ns name ids inputs => Catalog.create_target_set ns name ids inputs
  | ListTargetSets ns v limit after => Catalog.list_target_sets ns v limit after
  | GetTargetSet id => Catalog.get_target_set id
  | UpdateTargetSet id name ids inputs => Catalog.update_target_set id name ids inputs
  | CreateSchedule schedule => Catalog.create_schedule schedule
  | ListSchedules ns v limit after => Catalog.list_schedules ns v limit after
  | GetSchedule id => Catalog.get_schedule id
  | SetScheduleEnabled id revision enabled next => Store.set_schedule_enabled id revision enabled next
  | CreateRuns request job target inputs => create_runs request job target inputs
  | ListRuns v filter limit before => Queries.list_runs v filter limit before
  | RerunRun source request => insert_rerun source request
  | GetRun id v => Queries.get_run id v
  | ListRunAttempts id v => Queries.list_run_attempts id v
  | ListRunEvents id v => Queries.list_run_events id v
  | ListWorkers limit after => Queries.list_workers limit after
  | GetWorker worker => Queries.get_worker worker
  | ReadOverview v => Queries.overview v
  | ReadMonitor => Queries.monitor_snapshot probe
  end.

(** One call answered at a database. *)
Inductive handles (d : DB) : forall {B : Type}, Call B -> B -> DB -> Prop :=
| HAuthorize context capability resource failed :
    handles d (Authorize context capability resource)
      (@authorize (@GrantAuthorizer (store_resolver d failed)) context capability resource) d
| HVisible context capability failed :
    handles d (Visible context capability) (@visibility (@GrantAuthorizer (store_resolver d failed)) context capability) d
| HNow t : handles d NowUtc t d
| HStore probe {A} (m : StoreCall A) x d' : call (perform probe m) d x d' -> handles d (CallStore m) x d'.

(** A request served, other calls in between. *)
Inductive serves {A} : DB -> prog A -> list event -> result A ApplicationError -> DB -> Prop :=
| serves_ret d r : serves d (Ret r) [] r d
| serves_do d d1 d2 d3 {B} (c : Call B) (k : B -> prog A) x tr r :
    rtc store_step d d1 -> handles d1 c x d2 -> serves d2 (k x) tr r d3 -> serves d (Do c k) (Ev c x :: tr) r d3.

(** ** Every call is a step of a history, or reads *)

Definition unchanged {A} (m : tx A) : Prop := keeps (fun d => d) m.

Lemma keeps_collect {X A B} (f : DB -> X) (g : A -> tx B) (l : list A) : (forall x, keeps f (g x)) -> keeps f (tx_collect g l).
Proof. intros Hg. induction l as [|x l IH]; simpl; [by apply keeps_step|]. apply keeps_bind; [done|]. intros b. apply keeps_bind; [done|]. intros bs. by apply keeps_step. Qed.

Lemma unchanged_nodes nodes : unchanged (node_records nodes).
Proof. unfold unchanged. induction nodes as [|node nodes IH]; simpl; keeps_tac. apply IH. Qed.

Lemma unchanged_invocation id v : unchanged (invocation id v).
Proof. unfold unchanged, invocation. keeps_tac. apply unchanged_nodes. Qed.

Lemma unchanged_catalog id : unchanged (WorkflowStore.catalog id).
Proof. unfold unchanged, WorkflowStore.catalog. keeps_tac. Qed.

Lemma unchanged_target_set row : unchanged (load_target_set_record row).
Proof. unfold unchanged, load_target_set_record. keeps_tac. Qed.

Lemma unchanged_get_run id v : unchanged (Queries.get_run id v).
Proof. unfold unchanged, Queries.get_run. keeps_tac. Qed.

(** The methods that change the database. *)
Definition writes {A} (m : StoreCall A) : bool :=
  match m with
  | WriteWorkflow _ _ _ | DeleteWorkflow _ | StartWorkflow _ | CancelWorkflowRun _ | CreateNamespace _ | DeleteNamespace _
  | CreateQueue _ _ | UpdateQueue _ _ _ _ | DeleteQueue _ | CreateJob _ _ _ | UpdateJob _ _ _ | CreateTarget _ _ _
  | UpdateTarget _ _ _ | DeleteTarget _ | CreateTargetSet _ _ _ _ | UpdateTargetSet _ _ _ _ | CreateSchedule _
  | SetScheduleEnabled _ _ _ _ | CreateRuns _ _ _ _ | RerunRun _ _ => true
  | _ => false
  end.

Lemma reads_unchanged probe {A} (m : StoreCall A) : writes m = false -> unchanged (perform probe m).
Proof.
  destruct m; intros Hw; try done; unfold unchanged; cbn [perform].
  all: try (unfold Catalog.list_namespaces, Catalog.get_namespace, Catalog.list_queues, Catalog.get_queue, Catalog.list_jobs,
    Catalog.get_job, Catalog.list_targets, Catalog.get_target, Catalog.list_schedules, Catalog.get_schedule,
    Queries.list_runs, Queries.list_workers, Queries.get_worker, Queries.overview, Queries.monitor_snapshot, metrics_snapshot,
    run_targets, list_page; keeps_tac; fail).
  all: unfold WorkflowStore.get_workflow, WorkflowDefinitions.list_workflows, for_request, json_inputs_equal,
    WorkflowDefinitions.get_run, WorkflowDefinitions.list_runs, Catalog.list_target_sets, Catalog.get_target_set,
    Queries.list_run_attempts, Queries.list_run_events, read_workflow.
  all: repeat first [ apply unchanged_invocation | apply unchanged_catalog | apply unchanged_target_set | apply unchanged_get_run
    | apply unchanged_nodes | apply keeps_transaction | apply keeps_collect; intros ? | progress keeps_tac | progress cbv zeta ].
Qed.

Lemma writes_step probe {A} (m : StoreCall A) d x d' : writes m = true -> call (perform probe m) d x d' -> store_step d d'.
Proof.
  destruct m; intros Hw H; try done; cbn [perform] in H.
  all: first [by eapply SSCreateRuns | by eapply SSRerun | by eapply SSSetEnabled | by eapply SSWorkflowStart | by eapply SSWorkflowCancel
    | apply SSCatalog; first [by eapply CCCreateNamespace | by eapply CCDeleteNamespace | by eapply CCCreateQueue | by eapply CCUpdateQueue
      | by eapply CCDeleteQueue | by eapply CCCreateJob | by eapply CCUpdateJob | by eapply CCCreateTarget | by eapply CCUpdateTarget
      | by eapply CCDeleteTarget | by eapply CCCreateTargetSet | by eapply CCUpdateTargetSet | by eapply CCCreateSchedule
      | by eapply CCWriteWorkflow | by eapply CCDeleteWorkflow] ].
Qed.

Lemma handles_step d {B} (c : Call B) x d' : handles d c x d' -> d' = d \/ store_step d d'.
Proof.
  destruct 1 as [| | |probe A m x d' Hc]; [by left..|]. destruct (writes m) eqn:Hw; [right; by eapply writes_step|left].
  destruct Hc as (env & n & u & s' & Hc & <-). exact (reads_unchanged probe m Hw _ _ _ _ Hc).
Qed.

Lemma serves_history {A} d (p : prog A) tr r d' : serves d p tr r d' -> rtc store_step d d'.
Proof.
  induction 1 as [|d d1 d2 d3 B c k x tr r Hs Hh _ IH]; [done|]. etrans; [exact Hs|].
  destruct (handles_step _ _ _ _ Hh) as [->|Hstep]; [done|]. by eapply rtc_l.
Qed.

Lemma serves_executes {A} d (p : prog A) tr r d' : serves d p tr r d' -> executes p tr r.
Proof. induction 1; by constructor. Qed.

(** ** The store answers with the rows it was asked for *)

Lemma call_lookup {A R} (row : DB -> option R) (f : R -> result A StoreError) d a d' :
  call (let! _ := statement in let! d := tx_get in let! r := tx_lift (ok_or (row d) NotFound) in tx_lift (f r)) d (Ok a) d' ->
  exists r, row d = Some r /\ f r = Ok a.
Proof.
  intros (env & n & u & s' & H & _). apply tx_bind_ok in H as (now & s1 & Hs & H).
  apply tx_bind_ok in H as (d1 & s2 & [= <- <-] & H). apply tx_bind_ok in H as (r & s3 & [Hr ->]%tx_lift_ok & [Hf ->]%tx_lift_ok).
  assert (tx_db s1 = d) as Hd by exact (keeps_statement (fun d => d) _ _ _ _ Hs). rewrite Hd in Hr.
  exists r. split; [|done]. by destruct (row d) as [r'|]; [injection Hr as ->|].
Qed.

Lemma get_run_faithful id v d x d' : call (Queries.get_run id v) d (Ok x) d' -> run_id (rec_run x) = id.
Proof.
  intros H. assert (exists row : DB -> option RunJoin, (forall d r, row d = Some r -> jn_id r = id)
    /\ exists r, row d = Some r /\ run_from_row r = Ok x) as (row & Hid & r & Hrow & Hr).
  { unfold Queries.get_run in H. destruct v; [| |by destruct H as (? & ? & ? & ? & ? & _)].
    all: match type of H with call (tx_bind _ (fun _ => tx_bind _ (fun d => tx_bind (tx_lift (ok_or (@?row d) _)) _))) _ _ _ =>
      exists row end; split; [|by apply call_lookup in H].
    all: cbv beta; intros d1 r Hr; destruct (runs (core d1) !! id) as [rr|]; [|done]; simpl in Hr;
      destruct (run_join d1 id rr) as [j|] eqn:Hj; [|done]; simpl in Hr.
    all: repeat case_match; try done; injection Hr as <-; unfold run_join in Hj.
    all: repeat (match goal with H : context [?m !! ?k] |- _ => destruct (m !! k); [|done] end; simpl in Hj).
    all: by injection Hj as <-. }
  rewrite <- (Hid d r Hrow). unfold run_from_row in Hr. repeat (apply result_bind_ok in Hr as (? & ? & Hr)). by injection Hr as <-.
Qed.

Lemma get_workflow_run_faithful id v d x d' : call (WorkflowDefinitions.get_run id v) d (Ok x) d' -> wrr_id x = id.
Proof.
  intros (env & n & u & s' & H & _). unfold WorkflowDefinitions.get_run, transaction in H.
  destruct (tx_bind statement _ env _) as [[out|e] s1] eqn:Hb; [|done].
  apply tx_bind_ok in Hb as (now & s2 & _ & Hb). apply tx_bind_ok in Hb as (r & s3 & Hi & [= <- <-]).
  destruct (e_fault env _); [done|]. injection H as <- <-. unfold invocation in Hi.
  repeat (apply tx_bind_ok in Hi as (? & ? & _ & Hi); try (destruct (negb _); [done|])). by injection Hi as <- <-.
Qed.

Lemma handles_faithful d {B} (c : Call B) x d' : catalog_typed d -> handles d c x d' -> faithful c x.
Proof.
  intros Ht. destruct 1 as [| | |probe A m x d' Hc]; try done. destruct x as [a|e]; [|by destruct m].
  destruct m; try done; cbn [perform] in Hc; simpl.
  - by eapply get_workflow_run_faithful.
  - apply (call_lookup (fun d => queues d !! id) (fun q => queue_from_row (id, q))) in Hc as (q & Hq & Hr).
    unfold queue_from_row in Hr. apply result_bind_ok in Hr as (name & Hn%as_str_queue & [= <-]). simpl.
    pose proof (ct_queue d Ht _ _ Hq) as Hc. unfold queue_checks in Hc. simp_bool.
    match goal with H : Bool.eqb _ _ = true |- _ => apply eqb_prop in H; rewrite <- H end.
    unfold QueueNameM.is_system. by rewrite Hn.
  - apply (call_lookup (fun d => t ← targets d !! id; target_join d id t) target_from_row) in Hc as (row & Hj & Hr).
    destruct (targets d !! id) as [t|] eqn:Hid; [|done]. simpl in Hj.
    destruct (target_record_of d id t row Ht (ct_target d Ht _ _ Hid) Hj) as (r & Hr' & _ & Hrid). congruence.
  - apply (call_lookup (fun d => s ← schedules d !! id; schedule_join d id s) schedule_record) in Hc as (row & Hj & Hr).
    destruct (schedules d !! id) as [t|] eqn:Hid; [|done]. simpl in Hj. unfold schedule_join in Hj.
    destruct (namespaces d !! _); [|done]. destruct (jobs d !! _); [|done]. injection Hj as <-.
    unfold schedule_record, schedule_from_row in Hr. apply result_bind_ok in Hr as (e & He & Hr).
    repeat (apply result_bind_ok in Hr as (? & ? & Hr)). injection Hr as <-.
    unfold schedule_entity in He. repeat (apply result_bind_ok in He as (? & ? & He)). by injection He as <-.
  - by eapply get_run_faithful.
Qed.

Lemma serves_faithful {A} d (p : prog A) tr r d' : catalog_typed d -> serves d p tr r d' -> Forall faithful_event tr.
Proof.
  intros Ht. induction 1 as [|d d1 d2 d3 B c k x tr r Hs Hh _ IH]; [constructor|].
  pose proof (history_typed _ _ Hs Ht) as Ht1. constructor; [by eapply handles_faithful|]. apply IH.
  destruct (handles_step _ _ _ _ Hh) as [->|Hstep]; [done|]. by eapply store_step_typed.
Qed.

(** A grant was decided by the policy at a database of the history. *)
Definition decided (d d' : DB) (context : RequestContext) (c : Capability) (resource : ResourceScope) : Prop :=
  exists d0 failed, rtc store_step d d0 /\ rtc store_step d0 d'
    /\ @authorize (@GrantAuthorizer (store_resolver d0 failed)) context c resource = Ok ().

Lemma grants_decided {A} d (p : prog A) tr r d' context c resource :
  serves d p tr r d' -> Granted context c resource ∈ facts tr -> decided d d' context c resource.
Proof.
  intros Hs. induction Hs as [d r|d d1 d2 d3 B call k x tr r Hs Hh Hserves IH]; intros Hin; [set_solver|].
  rewrite (facts_cons _ tr B x call eq_refl) in Hin. pose proof (serves_history _ _ _ _ _ Hserves) as Hrest.
  assert (rtc store_step d1 d2) as H12.
  { destruct (handles_step _ _ _ _ Hh) as [->|Hstep]; [done|by apply rtc_once]. }
  apply elem_of_app in Hin as [Hin|Hin].
  - destruct (IH Hin) as (d0 & failed & H1 & H2 & H3). exists d0, failed. split; [|done]. by do 2 (etrans; [eassumption|]).
  - exists d1. assert (exists failed, @authorize (@GrantAuthorizer (store_resolver d1 failed)) context c resource = Ok ()) as [failed Hf].
    { destruct Hh as [ctx c' res failed|ctx c' failed|t|probe X m y d' Hc]; simpl in Hin.
      - exists failed. destruct (grant_authorize ctx c' res) as [[]|] eqn:E; [|set_solver].
        apply list_elem_of_singleton in Hin as [= -> -> ->]. exact E.
      - destruct (grant_visibility ctx c') as [v|]; set_solver.
      - set_solver.
      - exfalso. destruct m; simpl in Hin; destruct y; simpl in Hin; set_solver. }
    exists failed. split_and!; [done|by etrans|done].
Qed.

(** C6: The services, the policy and the store together: a request served from a well-typed catalog,
    while any other calls change the database between its own, is itself a history of store calls
    and leaves the catalog well typed; each of its calls is authorized and carries valid data; and
    every authorization it relied on was decided by the policy, on the ownership rows of a
    database this history passed through. *)
Theorem requests_served {A} context d (p : prog A) tr r d' :
  catalog_typed d -> operation context p -> serves d p tr r d' ->
  rtc store_step d d' /\ catalog_typed d'
  /\ (forall pre B (c : Call B) x post, tr = pre ++ Ev c x :: post ->
        permitted context B (facts pre) c /\ acceptable B (facts pre) c)
  /\ (forall c resource, Granted context c resource ∈ facts tr -> decided d d' context c resource).
Proof.
  intros Ht Hp Hs. pose proof (serves_history _ _ _ _ _ Hs) as Hh. pose proof (serves_faithful _ _ _ _ _ Ht Hs) as Hf.
  pose proof (serves_executes _ _ _ _ _ Hs) as He. split_and!; [done|by eapply history_typed| |by intros; eapply grants_decided].
  intros pre B c x post E. split.
  - by eapply (safe_executes (permitted context)); [apply operation_authority|..].
  - by eapply (safe_executes acceptable); [eapply operation_accepted|..].
Qed.

End Serving.

(** ** Witnesses *)

#[export] Instance diagnostics_example : DiagnosticsJson := {| diagnostics_from_value := fun _ => None |}.

Definition operator_grants : GrantSet :=
  match grants_new [(GlobalScope, [NamespaceCreate; QueueRead])] with Ok g => g | Err _ => grants_default end.

Definition operator_context : RequestContext :=
  mkRequestContext 1 (mkAuthenticatedCaller (from_issuer "https://issuer.example" "operator" Human) operator_grants).

(** [" ops "] becomes the Namespace [ops]. *)
Definition ops : NamespaceName := MkNamespaceName "ops".

Definition ops_answer : result Namespace StoreError :=
  answer (Catalog.create_namespace ops) (quiet 1000 100) (Scenario.catalog true).
Definition ops_after : DB := after (Catalog.create_namespace ops) (quiet 1000 100) (Scenario.catalog true).

Definition ops_trace : list event :=
  [Ev (Authorize operator_context NamespaceCreate RSControlPlane) (Ok ()); Ev (CallStore (CreateNamespace ops)) ops_answer].

Lemma ops_operation : operation operator_context (create_namespace operator_context " ops ").
Proof. apply OpCreateNamespace. reflexivity. Qed.

Lemma ops_faithful : Forall faithful_event ops_trace.
Proof. repeat constructor. Qed.

Lemma ops_parsed : map_err invalid_name (NamespaceNameM.parse (trim " ops ")) = Ok ops.
Proof. vm_compute. reflexivity. Qed.

Lemma ops_executes : executes (create_namespace operator_context " ops ") ops_trace (map_err from_store_error ops_answer).
Proof.
  unfold create_namespace, require, lift. cbn [bind]. apply executes_do. cbn [map_err bind]. rewrite ops_parsed. cbn [bind].
  apply executes_do, executes_ret.
Qed.

Lemma ops_serves :
  serves (Scenario.catalog true) (create_namespace operator_context " ops ") ops_trace (map_err from_store_error ops_answer) ops_after.
Proof.
  unfold create_namespace, require, lift. cbn [bind]. eapply serves_do; [done| |].
  - exact (HAuthorize (Scenario.catalog true) operator_context NamespaceCreate RSControlPlane false).
  - cbn [map_err bind]. rewrite ops_parsed. cbn [bind]. eapply serves_do; [done| |apply serves_ret].
    apply (HStore _ (mkProbe 0 0 0 0 0 false) (CreateNamespace ops)). apply call_after.
Qed.

Lemma services_authorized_witness :
  permitted operator_context _ (facts (take 1 ops_trace)) (CallStore (CreateNamespace ops)).
Proof.
  exact (services_authorized operator_context (create_namespace operator_context " ops ") ops_trace
    (map_err from_store_error ops_answer) ops_operation ops_executes ops_faithful (take 1 ops_trace) _
    (CallStore (CreateNamespace ops)) ops_answer [] eq_refl).
Defined.

Lemma services_validate_witness : acceptable _ (facts (take 1 ops_trace)) (CallStore (CreateNamespace ops)).
Proof.
  exact (services_validate operator_context (create_namespace operator_context " ops ") ops_trace
    (map_err from_store_error ops_answer) ops_operation ops_executes ops_faithful (take 1 ops_trace) _
    (CallStore (CreateNamespace ops)) ops_answer [] eq_refl).
Defined.

Lemma requests_served_witness :
  catalog_typed ops_after /\ decided (Scenario.catalog true) ops_after operator_context NamespaceCreate RSControlPlane.
Proof.
  destruct (requests_served operator_context (Scenario.catalog true) (create_namespace operator_context " ops ") ops_trace
    (map_err from_store_error ops_answer) ops_after (example_catalog_typed true) ops_operation ops_serves) as (_ & Ht & _ & Hd).
  split; [exact Ht|]. apply Hd. simpl. left.
Defined.

(** The Namespace is there. *)
Example ops_created : map_err from_store_error ops_answer = Ok {| ns_id := 100; ns_name := ops; ns_created_at := 1000 * second |}.
Proof. vm_compute. reflexivity. Qed.
