(* ===== verification/Futures.v ===== *)
(** * Futures and background tasks

    The asynchronous programs of the server and of the worker: a value, or an
    awaited call and how the program goes on with its answer; their partial
    executions and the proof rules for what must hold at each await.  The
    loops and the message handlers the server spawns are such programs, of
    calls to [ControlPlaneStore], to NATS and to the clock.  What other tasks
    do between two awaits is left to [Server], which runs them. *)

From S2P Require Import Prelude RustStr Json Inputs Names Domain Recurrence Db Snapshot Store Planner.
From stdpp Require Import base list numbers strings sorting gmap.
From Stdlib Require Import String.

(** A future: its value, or the call it awaits next and how it goes on. *)
Inductive future (C : Type -> Type) (A : Type) : Type :=
| Return (a : A)
| Await {B : Type} (c : C B) (k : B -> future C A).
Arguments Return {C A} a.
Arguments Await {C A B} c k.

(** A call and its answer. *)
Inductive answered (C : Type -> Type) : Type :=
| Awaited {B : Type} (c : C B) (x : B).
Arguments Awaited {C B} c x.

Section Futures.
Context {C : Type -> Type}.

Fixpoint then_ {A B} (t : future C A) (k : A -> future C B) : future C B :=
  match t with
  | Return a => k a
  | Await c h => Await c (fun x => then_ (h x) k)
  end.

(** [for x in l { ... }] *)
Fixpoint for_task {A} (l : list A) (f : A -> future C unit) : future C unit :=
  match l with
  | [] => Return ()
  | x :: l => then_ (f x) (fun _ => for_task l f)
  end.

(** ** Executions of a future *)

(** A future run for a while, whatever the answers. *)
Inductive progresses {A} : future C A -> list (answered C) -> future C A -> Prop :=
| progresses_none t : progresses t [] t
| progresses_await {B} (c : C B) (k : B -> future C A) (x : B) tr t :
    progresses (k x) tr t -> progresses (Await c k) (Awaited c x :: tr) t.

(** Every call of [t], which runs after the events [h], is allowed by the events before it. *)
Fixpoint obeys (P : list (answered C) -> forall B, C B -> Prop) {A} (h : list (answered C)) (t : future C A) : Prop :=
  match t with
  | Return _ => True
  | Await c k => P h _ c /\ forall x, obeys P (h ++ [Awaited c x]) (k x)
  end.

(** [Q] holds of the value of [t] and the events before it. *)
Fixpoint ends {A} (Q : list (answered C) -> A -> Prop) (h : list (answered C)) (t : future C A) : Prop :=
  match t with
  | Return a => Q h a
  | Await c k => forall x, ends Q (h ++ [Awaited c x]) (k x)
  end.

Lemma ends_mono {A} (Q R : list (answered C) -> A -> Prop) (t : future C A) : forall h,
  (forall h' a, Q h' a -> R h' a) -> ends Q h t -> ends R h t.
Proof. induction t as [a|X c f IH]; intros h HR; simpl; [by apply HR|]. intros Ht x. by apply IH. Qed.

Section Obeys.
Context (P : list (answered C) -> forall B, C B -> Prop).

Lemma obeys_then {A B} (k : A -> future C B) (t : future C A) : forall h,
  obeys P h t -> (forall a h', h `prefix_of` h' -> obeys P h' (k a)) -> obeys P h (then_ t k).
Proof.
  induction t as [a|X c f IH]; intros h; simpl; [intros _ Hk; by apply Hk|].
  intros [Hc Ht] Hk. split; [done|]. intros x. apply IH; [apply Ht|]. intros a h' Hh. apply Hk.
  etrans; [|exact Hh]. by apply prefix_app_r.
Qed.

(** The rule of a sequence: what follows runs after what the first part did. *)
Lemma obeys_then_ends {A B} (k : A -> future C B) (t : future C A) : forall h,
  obeys P h t -> ends (fun h' a => obeys P h' (k a)) h t -> obeys P h (then_ t k).
Proof. induction t as [a|X c f IH]; intros h; simpl; [done|]. intros [Hc Ht] Hk. split; [done|]. intros x. by apply IH. Qed.

Lemma obeys_for {A} (f : A -> future C unit) (l : list A) : forall h,
  (forall x h', x ∈ l -> h `prefix_of` h' -> obeys P h' (f x)) -> obeys P h (for_task l f).
Proof.
  induction l as [|x l IH]; intros h Hf; simpl; [exact I|]. apply obeys_then; [apply Hf; [by left|done]|].
  intros _ h' Hh. apply IH. intros y h'' Hy Hh'. apply Hf; [by right|by etrans].
Qed.

Lemma obeys_progresses {A} (t t' : future C A) tr h :
  obeys P h t -> progresses t tr t' -> obeys P (h ++ tr) t'.
Proof.
  intros Ht Hp. revert h Ht. induction Hp as [t|B c k x tr t Hp IH]; intros h; [by rewrite app_nil_r|].
  intros [_ Hk]. specialize (IH _ (Hk x)). by rewrite <- (assoc_L app) in IH.
Qed.

(** Every call of every execution is allowed. *)
Lemma obeys_trace {A} (t t' : future C A) tr h pre B (c : C B) x post :
  obeys P h t -> progresses t tr t' -> tr = pre ++ Awaited c x :: post -> P (h ++ pre) B c.
Proof.
  intros Ht Hp. revert h pre Ht. induction Hp as [t|B' c' k x' tr t Hp IH]; intros h pre Ht E; [by destruct pre|].
  destruct Ht as [Hc Hk]. destruct pre as [|e pre].
  - assert (Awaited c' x' = Awaited c x) as E' by exact (f_equal (fun l => match l with e :: _ => e | [] => Awaited c' x' end) E).
    rewrite app_nil_r. change (match Awaited c x with @Awaited _ B0 c0 _ => P h B0 c0 end). by rewrite <- E'.
  - assert (e = Awaited c' x') as -> by exact (eq_sym (f_equal (fun l => match l with e :: _ => e | [] => e end) E)).
    assert (tr = pre ++ Awaited c x :: post) as Etr by exact (f_equal (@List.tl (answered C)) E).
    pose proof (IH _ _ (Hk x') Etr) as H. by rewrite <- (assoc_L app) in H.
Qed.

Lemma obeys_mono (R : list (answered C) -> forall B, C B -> Prop) {A} (t : future C A) : forall h,
  (forall h B (c : C B), P h B c -> R h B c) -> obeys P h t -> obeys R h t.
Proof. induction t as [a|X c f IH]; intros h HR; simpl; [done|]. intros [Hc Ht]. split; [by apply HR|]. intros x. by apply IH. Qed.

End Obeys.

Lemma ends_then {A B} (Q : list (answered C) -> B -> Prop) (k : A -> future C B) (t : future C A) : forall h,
  ends (fun h' a => ends Q h' (k a)) h t -> ends Q h (then_ t k).
Proof. induction t as [a|X c f IH]; intros h; simpl; [done|]. intros Ht x. by apply IH. Qed.

Lemma ends_progresses {A} (Q : list (answered C) -> A -> Prop) (t : future C A) tr a h :
  ends Q h t -> progresses t tr (Return a) -> Q (h ++ tr) a.
Proof.
  intros Ht Hp. remember (Return a) as t' eqn:E. revert h Ht.
  induction Hp as [t|B c k x tr t Hp IH]; intros h Ht; subst; [by rewrite app_nil_r|].
  specialize (IH eq_refl _ (Ht x)). by rewrite <- (assoc_L app) in IH.
Qed.

(** An execution of an awaited call: none yet, or its answer first. *)
Lemma progresses_inv {A} (t : future C A) tr u :
  progresses t tr u ->
  (tr = [] /\ u = t)
  \/ match t with
     | Return _ => False
     | Await c k => exists x tr', tr = Awaited c x :: tr' /\ progresses (k x) tr' u
     end.
Proof. intros []; [by left|right; eauto]. Qed.

(** An execution of a sequence is one of its first part, or completes it and goes on. *)
Lemma progresses_then {A B} (t : future C A) (k : A -> future C B) tr u :
  progresses (then_ t k) tr u ->
  (exists t', progresses t tr t' /\ u = then_ t' k)
  \/ exists a tr1 tr2, tr = tr1 ++ tr2 /\ progresses t tr1 (Return a) /\ progresses (k a) tr2 u.
Proof.
  revert tr u. induction t as [a|X c f IH]; intros tr u H.
  - right. exists a, [], tr. split_and!; [done|constructor|done].
  - apply progresses_inv in H as [[-> ->]|(x & tr' & -> & H)].
    + left. exists (Await c f). split; [constructor|done].
    + destruct (IH x _ _ H) as [(t' & Ht & ->)|(a & tr1 & tr2 & -> & H1 & H2)].
      * left. exists t'. split; [by constructor|done].
      * right. exists a, (Awaited c x :: tr1), tr2. split_and!; [done|by constructor|done].
Qed.

End Futures.

Local Open Scope Z_scope.

(** ** Messages *)

(** crates/api/src/lib.rs *)
Record QueueReference : Type := mkQueueReference { qref_id : Uuid; qref_name : string }.

Inductive QueueResolutionStatus : Type := QueueReady | QueueNotFound | QueueUnavailable.

Record QueueResolutionResponse : Type := mkQueueResolutionResponse {
  qres_status : QueueResolutionStatus;
  qres_queue : option QueueReference;
}.

(** What the handlers encode as the body of a reply. *)
Inductive Response : Type :=
| RClaim (response : ClaimResponse)
| RFlag (answer : bool)
| RQueue (response : QueueResolutionResponse).

(** A message on a Core NATS subject. *)
Record NatsMessage : Type := mkNatsMessage {
  nm_subject : string;
  nm_reply : option string;
  nm_payload : string;
}.

(** ** Awaited calls *)

(** The errors of the NATS client carry their text. *)
Inductive ServerCall : Type -> Type :=
| ClaimDueSchedules (owner : Uuid) (limit lease : Z) : ServerCall (result (list Schedule) StoreError)
| CommitSchedulePlan (plan : SchedulePlan) : ServerCall (result unit StoreError)
| ClaimOutbox (owner : Uuid) (limit lease : Z) : ServerCall (result (list OutboxRecord) StoreError)
| MarkPublished (owner : Uuid) (record : OutboxRecord) (sequence : Z) : ServerCall (result unit StoreError)
| RecordPublishFailure (owner dispatch_id : Uuid) (message : string) (next_attempt_at : Instant)
  : ServerCall (result unit StoreError)
| ClaimAttempt (request : ClaimRequest) : ServerCall (result ClaimResponse StoreError)
| RenewLease (request : LeaseRequest) : ServerCall (result bool StoreError)
| CompleteAttempt (request : CompletionRequest) : ServerCall (result bool StoreError)
| RecordAttemptOutput (request : OutputSnapshotRequest) : ServerCall (result bool StoreError)
| RecordWorkerHeartbeat (request : WorkerHeartbeatRequest) : ServerCall (result unit StoreError)
| FindQueue (id : Uuid) : ServerCall (result Queue StoreError)
| FindQueueByName (name : QueueName) : ServerCall (result Queue StoreError)
| Reconcile (limit : Z) : ServerCall (result Z StoreError)
| Publish (subject : string) (payload : DispatchEnvelope) (message_id : Uuid) : ServerCall (result Z string)
| Respond (reply : string) (body : Response) : ServerCall (result unit string)
| Clock : ServerCall Instant.

(** The futures of the server. *)
Notation task := (future ServerCall).
Notation awaited := (answered ServerCall).

(** ** The scheduler and the reconciler (scheduler/planner.rs, reconciliation/mod.rs) *)

Definition BATCH_SIZE : Z := 100.
Definition CLAIM_LEASE : Z := 30 * second.

Section Loops.
Context {CC : CronCrates}.

(** One Schedule of a claimed batch: planned at the clock's instant and committed. *)
Definition plan_one (owner : Uuid) (schedule : Schedule) : task unit :=
  Await Clock (fun now =>
    match plan schedule owner now with
    | Ok plan => Await (CommitSchedulePlan plan) (fun _ => Return ())
    | Err _ => Return ()
    end).

(** One tick of [run_scheduler]. *)
Definition scheduler_tick (owner : Uuid) : task unit :=
  Await (ClaimDueSchedules owner BATCH_SIZE CLAIM_LEASE) (fun claimed =>
    match claimed with
    | Ok schedules => for_task schedules (plan_one owner)
    | Err _ => Return ()
    end).

End Loops.

(** One tick of [run_reconciler]. *)
Definition reconciler_tick : task unit := Await (Reconcile 100) (fun _ => Return ()).
