(* ===== verification/Dispatcher.v ===== *)
(** * The dispatcher (infrastructure/dispatcher.rs)

    The transactional-outbox publisher: its configuration and bounds, the
    backoff of a failed publication and one batch, which claims rows under a
    lease, publishes each and marks only the acknowledged ones. *)

From S2P Require Import Prelude RustStr Json Inputs Names Domain Db Snapshot Store Futures.
From Stdlib Require Import Ascii String.
From stdpp Require Import base numbers strings sorting gmap list.

Local Open Scope Z_scope.

Definition millisecond : Z := 1000000.

(** [Duration::as_millis], [Duration::as_secs] *)
Definition as_millis (duration : Z) : Z := duration / millisecond.
Definition as_secs (duration : Z) : Z := duration / second.

(** ** Configuration *)

Record DispatcherConfig : Type := mkDispatcherConfig {
  dc_batch_size : Z;
  dc_max_in_flight : Z;
  dc_claim_lease : Z;
  dc_retry_initial : Z;
  dc_retry_max : Z;
}.

Definition config_default : DispatcherConfig :=
  {| dc_batch_size := 100; dc_max_in_flight := 32; dc_claim_lease := 60 * second;
     dc_retry_initial := second; dc_retry_max := 60 * second |}.

(** [FromStr] of the unsigned integers: an optional sign [+], then digits, within the type. *)
Fixpoint digits (acc : Z) (s : string) : option Z :=
  match s with
  | EmptyString => Some acc
  | String a s =>
      let c := Z.of_N (N_of_ascii a) in
      if is_ascii_digit c then digits (acc * 10 + (c - 48)) s else None
  end.

Definition parse_unsigned (inside : Z -> bool) (s : string) : option Z :=
  let body := match s with String "+"%char rest => rest | _ => s end in
  if (body =? "")%string then None
  else match digits 0 body with
  | Some n => if inside n then Some n else None
  | None => None
  end.

(** Why a configuration is refused. *)
Inductive ConfigError : Type := InvalidVariable (name : string) | OutsideSafeBounds.

Definition env_value (environment : string -> option string) (inside : Z -> bool) (name : string)
    (default : Z) : result Z ConfigError :=
  match environment name with
  | None => Ok default
  | Some value => ok_or (parse_unsigned inside value) (InvalidVariable name)
  end.

Definition unwrap_or (inside : Z -> bool) (default z : Z) : Z := if inside z then z else default.

Definition outside (lo hi z : Z) : bool := negb (in_range lo hi z).

(** [usize] is 64 bits wide. *)
Definition from_env (environment : string -> option string) : result DispatcherConfig ConfigError :=
  let defaults := config_default in
  let? batch_size := env_value environment in_u16 "CRONO_OUTBOX_BATCH_SIZE" (dc_batch_size defaults) in
  let? max_in_flight := env_value environment in_u64 "CRONO_OUTBOX_MAX_IN_FLIGHT" (dc_max_in_flight defaults) in
  let? claim_lease_seconds := env_value environment in_u64 "CRONO_OUTBOX_CLAIM_LEASE_SECONDS"
    (as_secs (dc_claim_lease defaults)) in
  let? retry_initial_ms := env_value environment in_u64 "CRONO_OUTBOX_RETRY_INITIAL_MS"
    (unwrap_or in_u64 1000 (as_millis (dc_retry_initial defaults))) in
  let? retry_max_ms := env_value environment in_u64 "CRONO_OUTBOX_RETRY_MAX_MS"
    (unwrap_or in_u64 60000 (as_millis (dc_retry_max defaults))) in
  if outside 1 1000 batch_size || outside 1 1024 max_in_flight || outside 10 600 claim_lease_seconds
     || outside 100 60000 retry_initial_ms || (retry_max_ms <? retry_initial_ms) || (3600000 <? retry_max_ms)
  then Err OutsideSafeBounds
  else Ok {| dc_batch_size := batch_size; dc_max_in_flight := max_in_flight;
             dc_claim_lease := claim_lease_seconds * second;
             dc_retry_initial := retry_initial_ms * millisecond;
             dc_retry_max := retry_max_ms * millisecond |}.

(** ** Backoff *)

(** The last byte of an identity. *)
Definition last_byte (id : Uuid) : Z := Z.of_N (N.modulo id 256).

(** [i64] division truncates towards zero.  [clamp] panics when its bounds are
    out of order, and the [* 4] on overflow; [backoff_bounded] shows that no
    configuration of [from_env] gets there. *)
Definition retry_delay (record : OutboxRecord) (config : DispatcherConfig) : Z :=
  let exponent := Z.min (or_attempt_count record) 6 in
  let multiplier := Z.shiftl 1 exponent in
  let base := Z.min (saturate 0 u64_max (unwrap_or in_u64 1000 (as_millis (dc_retry_initial config)) * multiplier))
                (unwrap_or in_u64 60000 (as_millis (dc_retry_max config))) in
  let jitter_percent := last_byte (or_id record) mod 41 - 20 in
  let millis := unwrap_or in_i64 60000 base in
  let jitter := Z.quot (saturate i64_min i64_max (millis * jitter_percent)) 100 in
  let minimum := Z.quot (unwrap_or in_i64 1000 (as_millis (dc_retry_initial config)) * 4) 5 in
  let maximum := unwrap_or in_i64 60000 (as_millis (dc_retry_max config)) in
  Z.min (Z.max (millis + jitter) minimum) maximum * millisecond.

(** ** One batch *)

Definition publish_one (owner : Uuid) (config : DispatcherConfig) (record : OutboxRecord) : task unit :=
  Await (Publish (or_subject record) (or_payload record) (or_attempt_id record)) (fun acknowledged =>
    match acknowledged with
    | Ok sequence => Await (MarkPublished owner record sequence) (fun _ => Return ())
    | Err publish_error =>
        Await Clock (fun now =>
          Await (RecordPublishFailure owner (or_id record) publish_error (now + retry_delay record config))
            (fun _ => Return ()))
    end).

(** The claim that starts [dispatch_batch]; the records it yields are then
    published by [for_each_concurrent] with at most [max_in_flight] at once. *)
Definition dispatch_batch (owner : Uuid) (config : DispatcherConfig) : task (list OutboxRecord) :=
  Await (ClaimOutbox owner (dc_batch_size config) (dc_claim_lease config)) (fun claimed =>
    match claimed with
    | Ok records => Return records
    | Err _ => Return []
    end).

(** ** What the environment can configure *)

Record safe_config (config : DispatcherConfig) : Prop := {
  safe_batch : 1 <= dc_batch_size config <= 1000;
  safe_in_flight : 1 <= dc_max_in_flight config <= 1024;
  safe_lease : 10 * second <= dc_claim_lease config <= 600 * second;
  safe_initial : 100 <= as_millis (dc_retry_initial config) <= 60000;
  safe_max : as_millis (dc_retry_initial config) <= as_millis (dc_retry_max config) <= 3600000;
}.

Lemma in_range_false lo hi z : outside lo hi z = false -> lo <= z <= hi.
Proof. unfold outside, in_range. intros H. simp_bool. lia. Qed.

Lemma millis_of ms : as_millis (ms * millisecond) = ms.
Proof. unfold as_millis, millisecond. apply Z.div_mul. lia. Qed.

Lemma from_env_safe environment config : from_env environment = Ok config -> safe_config config.
Proof.
  unfold from_env. intros H.
  apply result_bind_ok in H as (batch & _ & H). apply result_bind_ok in H as (flight & _ & H).
  apply result_bind_ok in H as (lease & _ & H). apply result_bind_ok in H as (initial & _ & H).
  apply result_bind_ok in H as (maximum & _ & H). destruct (_ || _) eqn:Hb; [done|]. injection H as <-.
  rewrite !orb_false_iff in Hb. destruct Hb as [[[[[H1%in_range_false H2%in_range_false] H3%in_range_false]
    H4%in_range_false] H5%Z.ltb_ge] H6%Z.ltb_ge].
  split; simpl; rewrite ?millis_of; unfold second; lia.
Qed.

(** The delay before jitter: doubling from the initial one, capped. *)
Definition nominal (config : DispatcherConfig) (attempts : Z) : Z :=
  Z.min (as_millis (dc_retry_initial config) * 2 ^ Z.min attempts 6) (as_millis (dc_retry_max config)).

Definition jitter_of (id : Uuid) : Z := last_byte id mod 41 - 20.

Lemma nominal_mono config n m :
  safe_config config -> 0 <= n <= m -> nominal config n <= nominal config m.
Proof.
  intros [_ _ _ Hi _] Hnm. unfold nominal. apply Z.min_le_compat_r, Z.mul_le_mono_nonneg_l; [lia|].
  apply Z.pow_le_mono_r; lia.
Qed.

Lemma nominal_bounds config n :
  safe_config config -> 0 <= n -> as_millis (dc_retry_initial config) <= nominal config n <= as_millis (dc_retry_max config).
Proof.
  intros Hs Hn. split; [|unfold nominal; lia]. transitivity (nominal config 0); [|by apply nominal_mono].
  destruct Hs as [_ _ _ Hi Hm]. unfold nominal. change (2 ^ Z.min 0 6) with 1. lia.
Qed.

Lemma inside_value (inside : Z -> bool) default z : inside z = true -> unwrap_or inside default z = z.
Proof. unfold unwrap_or. by intros ->. Qed.

Lemma saturate_inside lo hi z : lo <= z <= hi -> saturate lo hi z = z.
Proof. unfold saturate. lia. Qed.

Lemma retry_delay_jittered record config :
  safe_config config -> 0 <= or_attempt_count record ->
  let base := nominal config (or_attempt_count record) in
  let minimum := as_millis (dc_retry_initial config) * 4 / 5 in
  retry_delay record config
    = Z.min (Z.max (base + Z.quot (base * jitter_of (or_id record)) 100) minimum) (as_millis (dc_retry_max config)) * millisecond.
Proof.
  intros Hs Hn base minimum. pose proof (nominal_bounds config _ Hs Hn) as Hb. fold base in Hb.
  destruct Hs as [_ _ _ Hi Hm].
  assert (forall z, 0 <= z <= 3600000 -> in_u64 z = true /\ in_i64 z = true) as Hin.
  { intros z Hz. unfold in_u64, in_i64, in_range, u64_max, i64_min, i64_max. lia. }
  assert (-20 <= jitter_of (or_id record) <= 20) as Hj.
  { unfold jitter_of. pose proof (Z.mod_pos_bound (last_byte (or_id record)) 41). lia. }
  unfold retry_delay. fold (jitter_of (or_id record)).
  rewrite !(inside_value in_u64) by (apply Hin; lia). rewrite !(inside_value in_i64 _ (as_millis _)) by (apply Hin; lia).
  assert (2 ^ Z.min (or_attempt_count record) 6 <= 2 ^ 6) as Hp by (apply Z.pow_le_mono_r; lia).
  assert (0 < 2 ^ Z.min (or_attempt_count record) 6) as Hp0 by (apply Z.pow_pos_nonneg; lia).
  assert (0 <= as_millis (dc_retry_initial config) * 2 ^ Z.min (or_attempt_count record) 6 <= 60000 * 2 ^ 6) as Hi6 by nia.
  rewrite Z.shiftl_1_l, (saturate_inside 0 u64_max) by (unfold u64_max; lia).
  fold (nominal config (or_attempt_count record)). fold base. rewrite (inside_value in_i64 _ base) by (apply Hin; lia).
  assert (-72000000 <= base * jitter_of (or_id record) <= 72000000) as Hbj by nia.
  rewrite saturate_inside by (unfold i64_min, i64_max; lia).
  unfold minimum. by rewrite (Z.quot_div_nonneg (_ * 4)) by lia.
Qed.

(** The backoff of a failed publication is bounded for every configuration the
    environment can give: neither [clamp] nor a product can panic, the delay
    is at least four fifths of the initial one and at most the maximum, stays
    within a fifth of the doubling, capped delay of its attempt count, and
    that delay never shrinks as failures accumulate. *)
Theorem backoff_bounded environment config record :
  from_env environment = Ok config -> 0 <= or_attempt_count record ->
  let initial := as_millis (dc_retry_initial config) in
  let base := nominal config (or_attempt_count record) in
  let delay := as_millis (retry_delay record config) in
  in_i64 (initial * 4) = true
  /\ initial * 4 / 5 <= as_millis (dc_retry_max config)
  /\ retry_delay record config = delay * millisecond
  /\ initial * 4 / 5 <= delay <= as_millis (dc_retry_max config)
  /\ 5 * Z.abs (delay - base) <= base
  /\ (forall later, or_attempt_count record <= later -> base <= nominal config later).
Proof.
  intros Hs%from_env_safe Hn initial base delay. pose proof (nominal_bounds config _ Hs Hn) as Hb. fold base initial in Hb.
  pose proof (retry_delay_jittered record config Hs Hn) as Hd. simpl in Hd. fold base initial in Hd.
  assert (-20 <= jitter_of (or_id record) <= 20) as Hj.
  { unfold jitter_of. pose proof (Z.mod_pos_bound (last_byte (or_id record)) 41). lia. }
  unfold delay. rewrite Hd, millis_of. pose proof Hs as [_ _ _ Hi Hm]. fold initial in Hi, Hm.
  set (j := Z.quot (base * jitter_of (or_id record)) 100).
  assert (5 * Z.abs j <= base) as Hq.
  { assert (0 <= base) as H0 by lia. revert Hj H0. unfold j. clear. generalize base (jitter_of (or_id record)). clear.
    intros b p Hp Hb. assert (- (b * 20) <= b * p <= b * 20) as Hx by nia. revert Hx. generalize (b * p). intros x Hx. Z.to_euclidean_division_equations. lia. }
  assert (forall later, or_attempt_count record <= later -> base <= nominal config later) as Hl
    by (intros; apply nominal_mono; [done|lia]).
  clear Hd. clearbody j base initial.
  assert (0 <= initial * 4 / 5 <= initial) as H45 by (Z.to_euclidean_division_equations; lia).
  assert (initial * 4 <= 5 * (initial * 4 / 5) + 4) as H45' by (Z.to_euclidean_division_equations; lia).
  split_and!; [unfold in_i64, in_range, i64_min, i64_max; lia|lia|done|lia|lia| |done]. lia.
Qed.

Definition example_failed : OutboxRecord :=
  {| or_id := 255; or_run_id := 1; or_attempt_id := 2; or_subject := "crono.dispatch.default";
     or_payload := {| de_dispatch_id := 255; de_run_id := 1; de_attempt_id := 2; de_queue_id := 3 |};
     or_attempt_count := 20 |}.

(** Twenty failures with the default configuration: capped below the maximum by the jitter. *)
Lemma backoff_bounded_witness :
  retry_delay example_failed config_default = 53400 * millisecond
  /\ as_millis (retry_delay example_failed config_default) <= 60000.
Proof.
  split; [reflexivity|].
  destruct (backoff_bounded (fun _ => None) config_default example_failed eq_refl ltac:(done)) as (_ & _ & _ & [_ H] & _).
  exact H.
Defined.
