(* ===== verification/WorkerControl.v ===== *)
(** * Worker control (infrastructure/worker_control.rs)

    The handlers of the messages workers send over NATS: claims, renewals and
    completions, presence, live output and Queue resolution.  Each handler is
    a program of awaited calls; what it checks is checked before its first
    store call. *)

From S2P Require Import Prelude RustStr Json Inputs Names Domain Recurrence Db Snapshot TxLogic Store Planner Scenario Pagination Futures.
From Stdlib Require Import Ascii String.
From stdpp Require Import base numbers strings sorting gmap list.

Local Open Scope string_scope.
Local Open Scope Z_scope.

Definition MAX_OUTPUT_WRITES : Z := 32.
Definition MAX_LIVE_TAIL_BYTES : Z := 16384.
Definition MAX_OUTPUT_REQUEST_BYTES : Z := 262144.

(** crates/api/src/lib.rs *)
Record QueueResolutionRequest : Type := mkQueueResolutionRequest { qreq_name : string }.

(** [serde_json::from_slice] at the requests' derived implementations. *)
Class WireJson : Type := {
  claim_from_slice : string -> option ClaimRequest;
  lease_from_slice : string -> option LeaseRequest;
  completion_from_slice : string -> option CompletionRequest;
  output_from_slice : string -> option OutputSnapshotRequest;
  heartbeat_from_slice : string -> option WorkerHeartbeatRequest;
  resolution_from_slice : string -> option QueueResolutionRequest;
}.

(** Where the [anyhow::Error] of a handler comes from. *)
Inductive ControlError : Type :=
| Malformed
| Bail (message : string)
| InvalidName (error : ResourceNameError)
| StoreFailed (error : StoreError)
| NatsFailed (error : string).

(** [subject.split('.').nth(n).unwrap_or_default()] *)
Definition subject_token (n : nat) (subject : string) : string :=
  nth n (split_on "."%char subject) "".

Definition respond (reply : string) (body : Response) : task (result unit ControlError) :=
  Await (Respond reply body) (fun sent => Return (map_err NatsFailed sent)).

(** [store....await?] *)
Definition ask {A B} (c : ServerCall (result A StoreError)) (k : A -> task (result B ControlError))
  : task (result B ControlError) :=
  Await c (fun answer => match answer with Ok a => k a | Err e => Return (Err (StoreFailed e)) end).

(** [?] on a check that awaits nothing. *)
Definition unless {A B} (r : result A ControlError) (k : A -> task (result B ControlError))
  : task (result B ControlError) :=
  match r with Ok a => k a | Err e => Return (Err e) end.

Definition identity_mismatch : string := "worker identity does not match control subject".

Definition same_worker (worker_id subject_worker : string) : result unit ControlError :=
  if negb (worker_id =? subject_worker)%string then Err (Bail identity_mismatch) else Ok ().

(** ** Checks *)

Definition validate_output (request : OutputSnapshotRequest) (subject_worker : string)
  : result unit ControlError :=
  if negb (ou_worker_id request =? subject_worker)%string
     || is_err (validate_resource_name (ou_worker_id request))
     || (ou_sequence request =? 0)
     || (MAX_LIVE_TAIL_BYTES <? slen (ou_stdout_tail request))
     || (MAX_LIVE_TAIL_BYTES <? slen (ou_stderr_tail request))
  then Err (Bail "invalid live output request") else Ok ().

Definition has_control (s : string) : bool := existsb is_control (chars s).

(** The first [for] of [validate_heartbeat]. *)
Fixpoint check_identities (values : list string) : result unit ControlError :=
  match values with
  | [] => Ok ()
  | value :: values =>
      if (value =? "")%string || (255 <? slen value) || has_control value
      then Err (Bail "worker diagnostics contain an invalid identity or shell path")
      else check_identities values
  end.

(** The second [for]; [flatten] drops the absent values. *)
Fixpoint check_environment (values : list (option string)) : result unit ControlError :=
  match values with
  | [] => Ok ()
  | None :: values => check_environment values
  | Some value :: values =>
      if (128 <? slen value) || has_control value
      then Err (Bail "worker environment diagnostics are not bounded")
      else check_environment values
  end.

Definition check_diagnostics (details : WorkerDiagnostics) : result unit ControlError :=
  let? _ := check_identities [wd_hostname details; wd_os details; wd_architecture details;
                              wd_default_shell_path details] in
  if negb (String.prefix "/" (wd_default_shell_path details))
  then Err (Bail "worker default shell path must be absolute")
  else check_environment [wd_lang details; wd_lc_all details; wd_tz details].

Definition validate_heartbeat (request : WorkerHeartbeatRequest) (subject_worker : string)
  : result unit ControlError :=
  let? _ := same_worker (hb_worker_id request) subject_worker in
  let? _ := map_err InvalidName (validate_resource_name (hb_worker_id request)) in
  if negb (in_range 1 256 (hb_concurrency request))
  then Err (Bail "worker concurrency must be between 1 and 256")
  else if (hb_version request =? "")%string || (128 <? slen (hb_version request)) || contains_byte nul (hb_version request)
  then Err (Bail "worker version must be a bounded, NUL-free value")
  else match hb_diagnostics request with
  | Some details => check_diagnostics details
  | None => Ok ()
  end.

(** ** Handlers *)

Section Handlers.
Context {WJ : WireJson}.

Definition parsed {A} (r : option A) : result A ControlError := ok_or r Malformed.

Definition handle_control (message : NatsMessage) : task (result unit ControlError) :=
  match nm_reply message with
  | None => Return (Ok ())
  | Some reply =>
      let operation := subject_token 3 (nm_subject message) in
      let subject_worker := subject_token 4 (nm_subject message) in
      if (operation =? "claim")%string then
        unless (parsed (claim_from_slice (nm_payload message))) (fun request =>
        unless (same_worker (cl_worker_id request) subject_worker) (fun _ =>
        ask (ClaimAttempt request) (fun response => respond reply (RClaim response))))
      else if (operation =? "renew")%string then
        unless (parsed (lease_from_slice (nm_payload message))) (fun request =>
        unless (same_worker (le_worker_id request) subject_worker) (fun _ =>
        ask (RenewLease request) (fun renewed => respond reply (RFlag renewed))))
      else if (operation =? "complete")%string then
        unless (parsed (completion_from_slice (nm_payload message))) (fun request =>
        unless (same_worker (co_worker_id request) subject_worker) (fun _ =>
        ask (CompleteAttempt request) (fun completed => respond reply (RFlag completed))))
      else Return (Err (Bail "unsupported worker control operation"))
  end.

Definition handle_output (message : NatsMessage) : task (result unit ControlError) :=
  match nm_reply message with
  | None => Return (Ok ())
  | Some reply =>
      if MAX_OUTPUT_REQUEST_BYTES <? slen (nm_payload message)
      then Return (Err (Bail "live output request is too large"))
      else
        let subject_worker := subject_token 3 (nm_subject message) in
        unless (parsed (output_from_slice (nm_payload message))) (fun request =>
        unless (validate_output request subject_worker) (fun _ =>
        ask (RecordAttemptOutput request) (fun recorded => respond reply (RFlag recorded))))
  end.

(** [permit] says whether the semaphore had one left. *)
Definition dispatch_output (permit : bool) (message : NatsMessage) : task (result unit ControlError) :=
  if permit then handle_output message
  else match nm_reply message with
  | Some reply => then_ (respond reply (RFlag false)) (fun _ => Return (Ok ()))
  | None => Return (Ok ())
  end.

Definition handle_presence (message : NatsMessage) : task (result unit ControlError) :=
  match nm_reply message with
  | None => Return (Ok ())
  | Some reply =>
      let subject_worker := subject_token 3 (nm_subject message) in
      unless (parsed (heartbeat_from_slice (nm_payload message))) (fun request =>
      unless (validate_heartbeat request subject_worker) (fun _ =>
      ask (FindQueue (hb_queue_id request)) (fun _ =>
      ask (RecordWorkerHeartbeat request) (fun _ => respond reply (RFlag true)))))
  end.

Definition resolution_response (found : result Queue StoreError) : QueueResolutionResponse :=
  match found with
  | Ok queue =>
      {| qres_status := QueueReady;
         qres_queue := Some {| qref_id := q_id queue; qref_name := QueueNameM.as_str (q_name queue) |} |}
  | Err NotFound => {| qres_status := QueueNotFound; qres_queue := None |}
  | Err _ => {| qres_status := QueueUnavailable; qres_queue := None |}
  end.

Definition handle_queue_resolution (message : NatsMessage) : task (result unit ControlError) :=
  match nm_reply message with
  | None => Return (Ok ())
  | Some reply =>
      let subject_name := subject_token 4 (nm_subject message) in
      unless (parsed (resolution_from_slice (nm_payload message))) (fun request =>
      unless (map_err InvalidName (QueueNameM.parse (qreq_name request))) (fun name =>
      if negb (QueueNameM.as_str name =? subject_name)%string
      then Return (Err (Bail "Queue name does not match resolution subject"))
      else Await (FindQueueByName name) (fun found => respond reply (RQueue (resolution_response found)))))
  end.

End Handlers.

(** ** What a handler may call *)

Section Guards.

Definition bounded_text (limit : Z) (s : string) : Prop := slen s <= limit /\ has_control s = false.

(** What [validate_heartbeat] accepts. *)
Record heartbeat_ok (request : WorkerHeartbeatRequest) : Prop := {
  hb_name_ok : validate_resource_name (hb_worker_id request) = Ok ();
  hb_concurrency_ok : 1 <= hb_concurrency request <= 256;
  hb_version_ok : 1 <= slen (hb_version request) <= 128 /\ contains_byte nul (hb_version request) = false;
  hb_identities_ok : forall x, hb_diagnostics request = Some x ->
    Forall (fun s => s <> "" /\ bounded_text 255 s)
      [wd_hostname x; wd_os x; wd_architecture x; wd_default_shell_path x];
  hb_shell_ok : forall x, hb_diagnostics request = Some x -> String.prefix "/" (wd_default_shell_path x) = true;
  hb_environment_ok : forall x, hb_diagnostics request = Some x ->
    Forall (fun o => match o with Some s => bounded_text 128 s | None => True end) [wd_lang x; wd_lc_all x; wd_tz x];
}.

(** Which subscription a message came from; of live output, whether one of the
    permits of the semaphore was left. *)
Inductive Duty : Type := OnControl | OnPresence | OnOutput (permit : bool) | OnResolution.

(** What the reply to a message says: what the store answered to the one call
    the handler made of it, or, of output without a permit and of nothing
    else, that it was not taken. *)
Inductive reports : Duty -> list awaited -> Response -> Prop :=
| ReportClaim request response : reports OnControl [Awaited (ClaimAttempt request) (Ok response)] (RClaim response)
| ReportRenewal request renewed : reports OnControl [Awaited (RenewLease request) (Ok renewed)] (RFlag renewed)
| ReportCompletion request completed : reports OnControl [Awaited (CompleteAttempt request) (Ok completed)] (RFlag completed)
| ReportOutput request recorded : reports (OnOutput true) [Awaited (RecordAttemptOutput request) (Ok recorded)] (RFlag recorded)
| ReportPresence request queue :
    reports OnPresence [Awaited (FindQueue (hb_queue_id request)) (Ok queue); Awaited (RecordWorkerHeartbeat request) (Ok ())] (RFlag true)
| ReportQueue name found : reports OnResolution [Awaited (FindQueueByName name) found] (RQueue (resolution_response found))
| ReportBusy : reports (OnOutput false) [] (RFlag false).

Context {WJ : WireJson}.

(** The request of a control message: its payload, for the operation and the worker its subject names. *)
Definition control_request {A} (from_slice : string -> option A) (worker_id : A -> string) (operation : string)
    (message : NatsMessage) (r : A) : Prop :=
  from_slice (nm_payload message) = Some r /\ subject_token 3 (nm_subject message) = operation
  /\ worker_id r = subject_token 4 (nm_subject message).

(** The heartbeat of a presence message, of the worker its subject names and within the bounds. *)
Definition heartbeat_request (message : NatsMessage) (r : WorkerHeartbeatRequest) : Prop :=
  heartbeat_from_slice (nm_payload message) = Some r /\ hb_worker_id r = subject_token 3 (nm_subject message)
  /\ heartbeat_ok r.

(** What a handler of [message] may call after the events [h]: first the store
    call its payload asks for, for the worker or the Queue's name its subject
    names and within the bounds (a heartbeat only once its Queue was found),
    then the reply, to the message's inbox, of what the store answered. *)
Definition guarded (duty : Duty) (message : NatsMessage) (h : list awaited) (B : Type) (c : ServerCall B) : Prop :=
  match duty, c with
  | OnControl, ClaimAttempt r => h = [] /\ control_request claim_from_slice cl_worker_id "claim" message r
  | OnControl, RenewLease r => h = [] /\ control_request lease_from_slice le_worker_id "renew" message r
  | OnControl, CompleteAttempt r => h = [] /\ control_request completion_from_slice co_worker_id "complete" message r
  | OnOutput true, RecordAttemptOutput r =>
      h = [] /\ output_from_slice (nm_payload message) = Some r /\ ou_worker_id r = subject_token 3 (nm_subject message)
      /\ validate_resource_name (ou_worker_id r) = Ok () /\ ou_sequence r <> 0
      /\ slen (ou_stdout_tail r) <= 16384 /\ slen (ou_stderr_tail r) <= 16384
      /\ slen (nm_payload message) <= 262144
  | OnPresence, FindQueue id => h = [] /\ exists r, heartbeat_request message r /\ id = hb_queue_id r
  | OnPresence, RecordWorkerHeartbeat r =>
      (exists queue, h = [Awaited (FindQueue (hb_queue_id r)) (Ok queue)]) /\ heartbeat_request message r
  | OnResolution, FindQueueByName name =>
      h = [] /\ (exists r, resolution_from_slice (nm_payload message) = Some r /\ QueueNameM.parse (qreq_name r) = Ok name)
      /\ QueueNameM.as_str name = subject_token 4 (nm_subject message)
  | _, Respond reply body => nm_reply message = Some reply /\ reports duty h body
  | _, _ => False
  end.

(** A handler that ends well has sent its reply last; one of a message without an inbox did nothing. *)
Definition replied (message : NatsMessage) (h : list awaited) (outcome : result unit ControlError) : Prop :=
  match outcome, nm_reply message with
  | Ok _, Some reply => exists before body x, h = (before ++ [Awaited (Respond reply body) x])%list
  | Ok _, None => h = []
  | Err _, _ => True
  end.

(** ** Lemmas: the checks *)

Lemma same_worker_ok a b u : same_worker a b = Ok u -> a = b.
Proof. unfold same_worker. destruct (String.eqb_spec a b); [done|by intros]. Qed.

Lemma nonempty_length s : s <> "" -> 1 <= slen s.
Proof. destruct s; [done|]. unfold slen. simpl. lia. Qed.

Lemma identities_ok l : check_identities l = Ok () -> Forall (fun s => s <> "" /\ bounded_text 255 s) l.
Proof.
  induction l as [|s l IH]; simpl; [by constructor|]. intros H. destruct (_ || _) eqn:E; [done|].
  rewrite !orb_false_iff in E. destruct E as [[E1%String.eqb_neq E2%Z.ltb_ge] E3].
  constructor; [|by apply IH]. split; [done|]. by split.
Qed.

Lemma environment_ok l :
  check_environment l = Ok () -> Forall (fun o => match o with Some s => bounded_text 128 s | None => True end) l.
Proof.
  induction l as [|[s|] l IH]; simpl; [by constructor| |intros H; constructor; auto]. intros H. destruct (_ || _) eqn:E; [done|].
  rewrite orb_false_iff in E. destruct E as [E1%Z.ltb_ge E2]. constructor; [by split|by apply IH].
Qed.

Lemma heartbeat_valid request worker :
  validate_heartbeat request worker = Ok () -> hb_worker_id request = worker /\ heartbeat_ok request.
Proof.
  unfold validate_heartbeat. intros H. apply result_bind_ok in H as (u & Hw%same_worker_ok & H). split; [done|].
  apply result_bind_ok in H as (v & Hn & H).
  assert (validate_resource_name (hb_worker_id request) = Ok ()) as Hn' by (destruct (validate_resource_name _) as [[]|]; done).
  destruct (negb (in_range _ _ _)) eqn:Hc; [done|]. apply negb_false_iff, in_range_spec in Hc.
  destruct (_ || _) eqn:Hv in H; [done|]. rewrite !orb_false_iff in Hv. destruct Hv as [[V1%String.eqb_neq V2%Z.ltb_ge] V3].
  pose proof (nonempty_length _ V1).
  assert (forall x, hb_diagnostics request = Some x -> check_diagnostics x = Ok ()) as Hd by (intros x Hx; by rewrite Hx in H).
  split; [done|done|by repeat split| | |]; intros x Hx; specialize (Hd x Hx); unfold check_diagnostics in Hd;
    apply result_bind_ok in Hd as ([] & H1 & H2); destruct (String.prefix _ _) eqn:Hp in H2; try done.
  - by apply identities_ok.
  - by apply environment_ok.
Qed.

Lemma parsed_ok {A} (r : option A) a : parsed r = Ok a -> r = Some a.
Proof. destruct r; [by intros [= ->]|done]. Qed.

Lemma obeys_unless P {A B} h (r : result A ControlError) (k : A -> task (result B ControlError)) :
  (forall a, r = Ok a -> obeys P h (k a)) -> obeys P h (unless r k).
Proof. destruct r; simpl; auto. Qed.

Lemma obeys_ask (P : list awaited -> forall B, ServerCall B -> Prop) {A B} h (c : ServerCall (result A StoreError))
    (k : A -> task (result B ControlError)) :
  P h _ c -> (forall a, obeys P (h ++ [Awaited c (Ok a)]) (k a)) -> obeys P h (ask c k).
Proof. intros Hc Hk. split; [done|]. intros [a|e]; [apply Hk|exact I]. Qed.

Lemma ends_unless {A B} (Q : list awaited -> result B ControlError -> Prop) h (r : result A ControlError) (k : A -> task (result B ControlError)) :
  (forall e, Q h (Err e)) -> (forall a, ends Q h (k a)) -> ends Q h (unless r k).
Proof. destruct r; simpl; auto. Qed.

Lemma guarded_reply duty message h reply body :
  nm_reply message = Some reply -> reports duty h body -> guarded duty message h _ (Respond reply body).
Proof. intros H Hb. destruct duty as [| |[]|]; by split. Qed.

Lemma respond_guarded duty message h reply body :
  nm_reply message = Some reply -> reports duty h body -> obeys (guarded duty message) h (respond reply body).
Proof. intros H Hb. split; [by apply guarded_reply|]. by intros x. Qed.

Lemma respond_replied message h reply body : nm_reply message = Some reply -> ends (replied message) h (respond reply body).
Proof. intros H [u|e]; cbn; unfold replied; [|exact I]. rewrite H. eauto. Qed.

Ltac handler_steps := repeat first
  [ apply obeys_unless; intros ? ? | apply obeys_ask; [|intros ?]
  | apply respond_guarded; [done|apply ReportClaim || apply ReportRenewal || apply ReportCompletion || apply ReportOutput]
  | exact I ].

(** The calls of a handler that ends well end with its reply. *)
Ltac handler_ends := repeat first
  [ apply ends_unless; [by intros|intros ?] | by apply respond_replied | by intros
  | (intros [?|?]; [|exact I]) | exact I ].

Lemma control_guarded message : obeys (guarded OnControl message) [] (handle_control message).
Proof.
  unfold handle_control. destruct (nm_reply message) as [reply|] eqn:Hr; [|exact I].
  destruct (String.eqb_spec (subject_token 3 (nm_subject message)) "claim") as [E|_];
    [|destruct (String.eqb_spec (subject_token 3 (nm_subject message)) "renew") as [E|_];
    [|destruct (String.eqb_spec (subject_token 3 (nm_subject message)) "complete") as [E|_]; [|exact I]]]; handler_steps; simpl;
    (split; [done|split_and!; [by apply parsed_ok|done|by eapply same_worker_ok]]).
Qed.

Lemma output_guarded message : obeys (guarded (OnOutput true) message) [] (handle_output message).
Proof.
  unfold handle_output. destruct (nm_reply message) as [reply|] eqn:Hr; [|exact I].
  destruct (Z.ltb_spec MAX_OUTPUT_REQUEST_BYTES (slen (nm_payload message))) as [|Hl]; [exact I|]. handler_steps.
  simpl. match goal with H : validate_output _ _ = Ok _ |- _ => unfold validate_output in H; destruct (_ || _) eqn:E in H; [done|] end.
  rewrite !orb_false_iff in E. destruct E as [[[[E1 E2] E3] E4] E5].
  apply negb_false_iff, String.eqb_eq in E1. apply Z.eqb_neq in E3. apply Z.ltb_ge in E4, E5.
  split_and!; try done; [by apply parsed_ok|]. unfold is_err in E2. apply negb_false_iff in E2. by destruct (validate_resource_name _) as [[]|].
Qed.

Lemma presence_guarded message : obeys (guarded OnPresence message) [] (handle_presence message).
Proof.
  unfold handle_presence. destruct (nm_reply message) as [reply|] eqn:Hr; [|exact I].
  apply obeys_unless. intros r Hr1%parsed_ok. apply obeys_unless. intros [] [H1 H2]%heartbeat_valid.
  assert (heartbeat_request message r) as Hb by (by split_and!).
  apply obeys_ask; [split; [done|by exists r]|]. intros queue. apply obeys_ask; [split; [by exists queue|done]|].
  intros []. apply respond_guarded; [done|apply ReportPresence].
Qed.

Lemma resolution_guarded message : obeys (guarded OnResolution message) [] (handle_queue_resolution message).
Proof.
  unfold handle_queue_resolution. destruct (nm_reply message) as [reply|] eqn:Hr; [|exact I].
  apply obeys_unless. intros r Hr1%parsed_ok. apply obeys_unless. intros name Hn.
  match goal with |- context [negb ?b] => destruct b eqn:E; simpl; [|exact I] end.
  split; [split_and!; [done| |by apply String.eqb_eq]|].
  - exists r. split; [done|]. destruct (QueueNameM.parse _); [by injection Hn as ->|done].
  - intros x. split; [|by intros]. split; [exact Hr|apply ReportQueue].
Qed.

(** The handlers of the four subscriptions. *)
Inductive handler (message : NatsMessage) : Duty -> task (result unit ControlError) -> Prop :=
| HControl : handler message OnControl (handle_control message)
| HPresence : handler message OnPresence (handle_presence message)
| HOutput permit : handler message (OnOutput permit) (dispatch_output permit message)
| HResolution : handler message OnResolution (handle_queue_resolution message).

Lemma handler_guarded message duty t : handler message duty t -> obeys (guarded duty message) [] t.
Proof.
  destruct 1 as [| |permit|]; [apply control_guarded|apply presence_guarded| |apply resolution_guarded].
  unfold dispatch_output. destruct permit; [apply output_guarded|]. destruct (nm_reply message) as [reply|] eqn:Hr; [|exact I].
  apply obeys_then; [by apply respond_guarded, ReportBusy|by intros].
Qed.

Lemma handler_replied message duty t : handler message duty t -> ends (replied message) [] t.
Proof.
  destruct 1 as [| |permit|]; unfold handle_control, handle_presence, dispatch_output, handle_output, handle_queue_resolution;
    try destruct permit; destruct (nm_reply message) as [reply|] eqn:Hr;
    try (cbn; unfold replied; rewrite Hr; done); repeat case_match; handler_ends.
  - intros x. cbn. unfold replied. rewrite Hr. exists [], (RFlag false), x. done.
  - rename a0 into name. match goal with |- context [negb ?b] => destruct b end; simpl; [|exact I]. intros found. exact (respond_replied message [Awaited (FindQueueByName name) found] reply (RQueue (resolution_response found)) Hr).
Qed.

(** C29: Messages of workers act only within their subject: whatever the store and
    NATS answer, a handler makes at most the one store call its payload asks
    for, for the worker (or the Queue's name) and the operation in the subject,
    output and presence within the bounds, and records a heartbeat only after
    its own Queue was found.  A reply goes only to the message's inbox and
    says what the store answered to that very call; only live output that
    finds no permit is answered without one.  A handler that ends well has
    replied, or its message has no inbox. *)
Theorem handlers_guarded message duty t tr t' :
  handler message duty t -> progresses t tr t' ->
  (forall pre B (c : ServerCall B) x post, tr = (pre ++ Awaited c x :: post)%list -> guarded duty message pre B c)
  /\ (forall outcome, t' = Return outcome -> replied message tr outcome).
Proof.
  intros Ht Hp. split.
  - intros pre B c x post E. exact (obeys_trace _ _ _ _ [] _ _ _ _ _ (handler_guarded _ _ _ Ht) Hp E).
  - intros outcome ->. exact (ends_progresses _ _ _ _ [] (handler_replied _ _ _ Ht) Hp).
Qed.

End Guards.

(** ** What an accepted heartbeat does *)

Section Presence.

Definition opt_utf8 (o : option string) : bool := match o with Some s => is_utf8 s | None => true end.

(** The strings of a request are Rust strings. *)
Definition heartbeat_utf8 (r : WorkerHeartbeatRequest) : bool :=
  is_utf8 (hb_worker_id r) && is_utf8 (hb_version r)
  && match hb_diagnostics r with
     | None => true
     | Some x => is_utf8 (wd_hostname x) && is_utf8 (wd_os x) && is_utf8 (wd_architecture x)
                 && is_utf8 (wd_default_shell_path x) && opt_utf8 (wd_lang x) && opt_utf8 (wd_lc_all x) && opt_utf8 (wd_tz x)
     end.

(** The session's start: kept for the same session, reset for a new one. *)
Definition session_start (d : DB) (r : WorkerHeartbeatRequest) (now : Instant) : Instant :=
  match worker_presence d !! hb_worker_id r with
  | Some p => if (wp_session_id p =? hb_session_id r)%N then wp_started_at p else now
  | None => now
  end.

Definition presence_row (d : DB) (r : WorkerHeartbeatRequest) (now : Instant) : WorkerPresenceRow :=
  {| wp_session_id := hb_session_id r; wp_queue_id := hb_queue_id r; wp_concurrency := hb_concurrency r;
     wp_version := hb_version r; wp_diagnostics := option_map diagnostics_to_value (hb_diagnostics r);
     wp_started_at := session_start d r now; wp_last_seen_at := now |}.

Lemma no_control_storable s : is_utf8 s = true -> has_control s = false -> storable s = true.
Proof.
  intros Hu Hc. unfold storable. apply negb_true_iff. destruct (contains_byte nul s) eqn:Hn; [|done].
  apply (nul_char _ 0 s Hu) in Hn; [|done]. unfold has_control in Hc.
  assert (existsb is_control (chars s) = true); [|congruence]. apply existsb_exists. exists 0.
  split; [by apply list_elem_of_In|done].
Qed.

Lemma opt_storable o :
  opt_utf8 o = true -> match o with Some s => bounded_text 128 s | None => True end -> json_storable (opt_string_value o) = true.
Proof. destruct o as [s|]; [|done]. intros Hu [_ Hc]. by apply no_control_storable. Qed.

Lemma diagnostics_storable r x :
  heartbeat_ok r -> heartbeat_utf8 r = true -> hb_diagnostics r = Some x -> json_storable (diagnostics_to_value x) = true.
Proof.
  intros Hok Hu Hx. pose proof (hb_identities_ok _ Hok _ Hx) as Hi. pose proof (hb_environment_ok _ Hok _ Hx) as He.
  unfold heartbeat_utf8 in Hu. rewrite Hx in Hu. rewrite !andb_true_iff in Hu.
  destruct Hu as [_ [[[[[[U1 U2] U3] U4] U5] U6] U7]].
  rewrite !Forall_cons in Hi. destruct Hi as ((_ & _ & C1) & (_ & _ & C2) & (_ & _ & C3) & (_ & _ & C4) & _).
  apply Forall_cons in He as [E1 [E2 [E3 _]%Forall_cons]%Forall_cons]. cbn [json_storable diagnostics_to_value].
  rewrite !no_control_storable, !opt_storable by done. done.
Qed.

(** A heartbeat the handler accepts is recorded: in a database that does not fail
    and has its Queue, and with a clock that has not gone back behind the
    session's start, the insert violates no constraint and no encoding, keeps
    the start of the running session (or starts a new one now) and leaves
    every other worker's row and every other table alone. *)
Theorem accepted_heartbeat_recorded request worker env d :
  validate_heartbeat request worker = Ok () -> heartbeat_utf8 request = true -> fault_free env ->
  is_Some (queues d !! hb_queue_id request) -> session_start d request (e_timestamp env 0) <= e_timestamp env 0 ->
  answer (record_worker_heartbeat request) env d = Ok ()
  /\ after (record_worker_heartbeat request) env d
     = set_worker_presence (<[worker := presence_row d request (e_timestamp env 0)]>) d.
Proof.
  intros [<- Hok]%heartbeat_valid Hu Hf Hq Hst.
  assert (canonical_label (hb_worker_id request) = true) as Hn.
  { apply valid_name_canonical; [|apply Hok]. unfold heartbeat_utf8 in Hu. rewrite !andb_true_iff in Hu. tauto. }
  assert (record_worker_heartbeat request env (mkTx d 0 0)
    = (Ok (), mkTx (set_worker_presence (<[hb_worker_id request := presence_row d request (e_timestamp env 0)]>) d) 1 0)) as E.
  { unfold record_worker_heartbeat, tx_bind. rewrite statement_runs by done. unfold bind_texts, check.
    pose proof (hb_version_ok _ Hok) as [Hv Hnul].
    cbn [forallb]. rewrite canonical_storable by done. unfold storable. rewrite Hnul. cbn [andb negb].
    assert (forallb json_storable (match option_map diagnostics_to_value (hb_diagnostics request) with Some v => [v] | None => [] end) = true) as Hj.
    { destruct (hb_diagnostics request) as [x|] eqn:Hx; [|done]. cbn [option_map forallb]. by rewrite (diagnostics_storable request x). }
    unfold bind_jsons, check. rewrite Hj. cbv beta iota zeta delta [tx_get tx_ret tx_db tx_statements tx_uuids]. fold (session_start d request (e_timestamp env 0)).
    fold (presence_row d request (e_timestamp env 0)).
    assert (presence_checks (hb_worker_id request) (presence_row d request (e_timestamp env 0)) = true) as Hc.
    { unfold presence_checks. simpl. rewrite Hn. pose proof (hb_concurrency_ok _ Hok).
      pose proof (chars_count_le (hb_version request)). assert (1 <= chars_count (hb_version request)).
      { apply chars_count_pos. intros E. rewrite E in Hv. unfold slen in Hv. simpl in Hv. lia. }
      apply andb_true_iff; split; [|lia]. apply andb_true_iff; split; [lia|]. by destruct (hb_diagnostics request). }
    rewrite Hc. unfold has. rewrite bool_decide_true by done. done. }
  unfold answer, after. by rewrite E.
Qed.

End Presence.

(** ** Witnesses *)

(** The requests of a worker, whatever the bytes. *)
Definition example_heartbeat : WorkerHeartbeatRequest :=
  {| hb_worker_id := "worker-01"; hb_session_id := 900; hb_queue_id := 2; hb_concurrency := 8; hb_version := "0.1.0";
     hb_diagnostics := Some {| wd_hostname := "node"; wd_os := "linux"; wd_architecture := "x86_64";
       wd_default_shell_path := "/bin/sh"; wd_default_shell_present := true; wd_dry_run := false;
       wd_lang := Some "C.UTF-8"; wd_lc_all := None; wd_tz := None |} |}.

Lemma accepted_heartbeat_recorded_witness :
  option_map wp_started_at (worker_presence
    (after (record_worker_heartbeat example_heartbeat) (quiet 1000 100) (Scenario.catalog true)) !! "worker-01")
  = Some (1000 * second).
Proof.
  rewrite (proj2 (accepted_heartbeat_recorded example_heartbeat "worker-01" (quiet 1000 100) (Scenario.catalog true)
    eq_refl eq_refl (fun _ => eq_refl) (ex_intro _ _ eq_refl) ltac:(vm_compute; discriminate))).
  reflexivity.
Defined.

#[export] Instance wire_example : WireJson := {|
  claim_from_slice := fun s => if (s =? "claim")%string then Some (mkClaimRequest 100 101 2 "worker-01") else None;
  lease_from_slice := fun _ => Some {| le_attempt_id := 101; le_worker_id := "worker-01" |};
  completion_from_slice := fun _ => None;
  output_from_slice := fun _ => None;
  heartbeat_from_slice := fun _ => Some example_heartbeat;
  resolution_from_slice := fun _ => None;
|}.

Definition renew_message : NatsMessage :=
  {| nm_subject := "crono.worker.control.renew.worker-01"; nm_reply := Some "inbox"; nm_payload := "{}" |}.

(** A renewal, and the reply with its answer. *)
Lemma handlers_guarded_witness :
  guarded OnControl renew_message
    [Awaited (RenewLease {| le_attempt_id := 101; le_worker_id := "worker-01" |}) (Ok true)] _ (Respond "inbox" (RFlag true)).
Proof.
  refine (proj1 (handlers_guarded renew_message OnControl (handle_control renew_message)
    [Awaited (RenewLease {| le_attempt_id := 101; le_worker_id := "worker-01" |}) (Ok true); Awaited (Respond "inbox" (RFlag true)) (Ok ())]
    (Return (Ok ())) (HControl _) _)
    [Awaited (RenewLease {| le_attempt_id := 101; le_worker_id := "worker-01" |}) (Ok true)] _ (Respond "inbox" (RFlag true)) (Ok ()) [] eq_refl).
  vm_compute. apply progresses_await. apply progresses_await. apply progresses_none.
Defined.
