(* ===== verification/Publication.v ===== *)
(** * Which rows of the outbox are published

    Only [mark_published] stamps a dispatch as published: every other call of
    the store, in every interleaving and with every fault, leaves the stamped
    rows what they were and stamps none. *)

From S2P Require Import Prelude RustStr Json Inputs Names Float Domain Auth Workflow Db Snapshot TxLogic Store WorkflowStore Catalog WorkflowDefinitions Lifecycle Refinement WorkflowRefinement StoreSystem Scenario StoreBehaviour PlannerTheorems Orchestration Launch.
From Stdlib Require Import String.
From stdpp Require Import base numbers strings sorting gmap list relations.

Local Open Scope Z_scope.

Section Published.
(** What is to hold of the message of a published row: its subject, payload,
    attempt and stream sequence. *)
Context (Q : string -> DispatchEnvelope -> Uuid -> option Z -> Prop).

Definition row_published (o : OutboxRow) : Prop :=
  is_Some (o_published_at o) -> Q (o_subject o) (o_payload o) (o_attempt_id o) (o_nats_stream_sequence o).

Definition published_as (d : DB) : Prop := forall oid o, outbox (core d) !! oid = Some o -> row_published o.

Definition dispatches (d : DB) : gmap Uuid OutboxRow := outbox (core d).

(** A change that neither stamps nor touches what is stamped. *)
Definition unstamped (o o' : OutboxRow) : Prop :=
  o_subject o' = o_subject o /\ o_payload o' = o_payload o /\ o_attempt_id o' = o_attempt_id o
  /\ o_published_at o' = o_published_at o /\ o_nats_stream_sequence o' = o_nats_stream_sequence o.

Lemma unstamped_published o o' : unstamped o o' -> row_published o -> row_published o'.
Proof. unfold unstamped, row_published. intros (-> & -> & -> & -> & ->). done. Qed.

Lemma published_kept {A} (m : tx A) : keeps dispatches m -> all_pres published_as m.
Proof. intros Hm env s res s' H Hp oid o. fold (dispatches (tx_db s')). rewrite (Hm _ _ _ _ H). apply Hp. Qed.

Lemma published_insert oid o d :
  row_published o -> published_as d -> published_as (set_outbox (<[oid := o]>) d).
Proof.
  intros Ho Hd i r. cbn. intros [[<- <-]|[_ H]]%lookup_insert_Some; [done|by eapply Hd].
Qed.

Lemma pres_kept {A} (m : tx A) : keeps dispatches m -> pres published_as m.
Proof. intros Hm. by apply all_pres_pres, published_kept. Qed.

Lemma pub_update_outbox texts id cond f :
  (forall now o, cond now o = true -> unstamped o (f now o)) -> all_pres published_as (update_outbox texts id cond f).
Proof.
  intros Hf env s res s' H Hp. unfold update_outbox, tx_bind in H.
  destruct (statement env s) as [[now|e] s1] eqn:H1; pose proof (statement_db _ _ _ _ H1) as E; [|injection H as _ <-; by rewrite E].
  unfold bind_texts, check in H. destruct (forallb storable texts); [|injection H as _ <-; by rewrite E].
  cbn in H. destruct (outbox (core (tx_db s1)) !! id) as [o|] eqn:Ho; [|injection H as _ <-; by rewrite E].
  destruct (cond now o) eqn:Hc; [|injection H as _ <-; by rewrite E].
  destruct (outbox_checks (f now o)); injection H as _ <-; [|by rewrite E]. cbn. rewrite E in *.
  apply published_insert; [|done]. eapply unstamped_published; [by apply Hf|]. by eapply Hp.
Qed.

Lemma pub_insert_outbox id row :
  (forall now, o_published_at (row now) = None) -> all_pres published_as (insert_outbox id row).
Proof.
  intros Hr env s res s' H Hp. unfold insert_outbox, tx_bind in H.
  destruct (statement env s) as [[now|e] s1] eqn:H1; pose proof (statement_db _ _ _ _ H1) as E; [|injection H as _ <-; by rewrite E].
  cbn in H. unfold check in H. repeat (destruct (_ : bool) in H; cbn in H); injection H as _ <-; rewrite ?E; try done.
  cbn. apply published_insert; [|done]. intros [x Hx]. by rewrite Hr in Hx.
Qed.

Lemma kept_update_attempt texts id cond f : keeps dispatches (update_attempt texts id cond f).
Proof. unfold update_attempt, bind_texts. keeps_tac. Qed.

Lemma kept_update_run texts id cond f : keeps dispatches (update_run texts id cond f).
Proof.
  unfold update_run, bind_texts. keeps_tac. apply keeps_modify. intros d. unfold dispatches, enqueue_workflow_completion.
  by repeat case_match.
Qed.

Lemma kept_insert_run id dn row : keeps dispatches (insert_run id dn row).
Proof. unfold insert_run, bind_texts. keeps_tac. Qed.

Lemma kept_run_event run event detail : keeps dispatches (insert_run_event run event detail).
Proof. unfold insert_run_event, bind_texts. keeps_tac. Qed.

Lemma pub_dispatch run attempt queue deadline : pres published_as (create_attempt_and_outbox run attempt queue deadline).
Proof.
  unfold create_attempt_and_outbox. apply pres_bind; [apply pres_kept; keeps_tac|intros a].
  apply pres_bind; [apply pres_kept; keeps_tac|intros o]. apply pres_bind; [apply pres_kept; unfold insert_attempt; keeps_tac|intros []].
  by apply all_pres_pres, pub_insert_outbox.
Qed.

Lemma pub_create_normal_run p : pres published_as (create_normal_run p).
Proof.
  apply pres_bind; [apply pres_kept, kept_insert_run|intros i]. apply pres_bind; [apply pub_dispatch|intros []].
  apply pres_kept, kept_run_event.
Qed.

Lemma released_unstamped now o : unstamped o (release_claim now o).
Proof. unfold release_claim. case_match; by repeat split. Qed.

Lemma published_released now d : published_as d -> published_as (set_outbox (fmap (release_claim now)) d).
Proof.
  intros Hp oid o. cbn. rewrite lookup_fmap. destruct (outbox (core d) !! oid) as [r|] eqn:Hr; intros [= <-].
  eapply unstamped_published; [apply released_unstamped|by eapply Hp].
Qed.

Lemma published_claimed owner expires ids d :
  published_as d -> published_as (set_outbox (alter_all (outbox_claim owner expires) ids) d).
Proof.
  intros Hp. unfold alter_all, published_as. cbn. induction ids as [|i ids IH]; simpl; [exact Hp|].
  intros oid o. destruct (decide (oid = i)) as [->|].
  - rewrite lookup_alter_eq. destruct (foldr _ _ _ !! i) as [r|] eqn:Hr; intros [= <-].
    eapply unstamped_published; [|by eapply IH]. by repeat split.
  - rewrite lookup_alter_ne by done. apply IH.
Qed.

(** Statements that leave the outbox alone. *)
Ltac kept := apply pres_kept; unfold insert_schedule_event, insert_run_request, bind_texts; keeps_tac.

Ltac pub_ops := repeat first
  [ apply pub_dispatch | apply pub_create_normal_run | apply pres_kept, kept_update_attempt | apply pres_kept, kept_update_run
  | apply pres_kept, kept_insert_run | apply pres_kept, kept_run_event
  | apply all_pres_pres, pub_update_outbox; intros ? ? _; by repeat split
  | apply pres_bind; [|intros ?] | apply pres_for; intros ? | case_match | kept; fail ].

(** The row of a claimed record still is what the record says. *)
Definition row_matches (record : OutboxRecord) (d : DB) : Prop := forall o,
  outbox (core d) !! or_id record = Some o ->
  o_subject o = or_subject record /\ o_payload o = or_payload record /\ o_attempt_id o = or_attempt_id record.

(** [mark_published] stamps the row of its record alone. *)
Lemma mark_published_stamps owner record sequence :
  Q (or_subject record) (or_payload record) (or_attempt_id record) (Some sequence) ->
  all_pres (fun d => published_as d /\ row_matches record d) (mark_published owner record sequence).
Proof.
  intros HQ. assert (forall A (m : tx A), keeps dispatches m -> pres (fun d => published_as d /\ row_matches record d) m) as Hk.
  { intros A m Hm env s a s' H [Hp Hr]. pose proof (Hm _ _ _ _ H) as E. unfold dispatches in E. split.
    - intros oid o. rewrite E. apply Hp.
    - intros o. rewrite E. apply Hr. }
  intros env s res s' H Hs. unfold mark_published, tx_bind at 1, tx_lift in H.
  destruct (try_from in_i64 Internal sequence) as [q|e] eqn:Hq; [|by injection H as _ <-].
  assert (q = sequence) as -> by (unfold try_from in Hq; destruct (in_i64 sequence); by simplify_eq).
  revert H Hs. apply (all_pres_transaction (fun d => published_as d /\ row_matches record d)). apply pres_bind.
  - clear - HQ. intros env s a s' H [Hp Hr]. unfold update_outbox in H. apply tx_bind_ok in H as (now & s1 & H1 & H).
    pose proof (statement_db _ _ _ _ H1) as E. apply tx_bind_ok in H as ([] & s2 & [_ ->]%check_ok & H).
    apply tx_bind_ok in H as (d & s2 & [= <- <-] & H). rewrite E in H.
    destruct (outbox (core (tx_db s)) !! or_id record) as [o|] eqn:Ho; [|injection H as <- <-; by rewrite E].
    destruct (_ && _); [|injection H as <- <-; by rewrite E].
    apply tx_bind_ok in H as ([] & s2 & [_ ->]%check_ok & H). apply tx_bind_ok in H as ([] & s2 & [= <-] & [= _ <-]). cbn. rewrite E.
    destruct (Hr o Ho) as (E1 & E2 & E3). split.
    + apply published_insert; [|done]. intros _. cbn. by rewrite E1, E2, E3.
    + intros r. cbn. rewrite lookup_insert_eq. intros [= <-]. done.
  - intros [o|]; [|apply Hk; keeps_tac]. apply pres_bind; [apply Hk, kept_update_attempt|intros ?].
    apply pres_bind; [apply Hk, kept_update_run|intros ?]. apply pres_bind; [apply Hk, kept_run_event|intros ?]. apply Hk. keeps_tac.
Qed.

Section Operations.
Context {SJ : SerdeJson} {RF : RustFmt} {PG : PostgresServer} {TC : TimeCrate} {SE : SnapshotEncoding}.

Lemma kept_prepare_nodes id st launch : keeps dispatches (prepare_nodes id st launch).
Proof.
  unfold prepare_nodes. generalize (sw_nodes st). intros nodes.
  assert (forall ids bytes count, keeps dispatches (prepare_nodes_loop id (sw_namespace_id st) launch nodes ids bytes count)) as H; [|keeps_tac; apply H].
  induction nodes as [|node nodes IH]; intros ids bytes count; [by apply keeps_step|]. cbn [prepare_nodes_loop].
  apply keeps_bind; [apply keeps_fresh_uuid|intros x]. apply keeps_bind; [unfold insert_node_run; keeps_tac|intros []].
  apply keeps_bind; [by apply keeps_require_run_request|intros []].
  apply keeps_bind; [apply keeps_load_selection|intros [ex si]]. do 2 (apply keeps_bind; [apply keeps_check|intros []]).
  apply keeps_bind; [by apply keeps_prepare_executions|intros b]. apply IH.
Qed.

Lemma pub_create_runs r j t i : all_pres published_as (create_runs r j t i).
Proof.
  assert (all_pres published_as (create_runs_transaction r j t i)) as Hc.
  { apply all_pres_transaction. apply pres_bind; [apply pres_kept, keeps_load_selection|intros [ex si]].
    apply pres_bind; [apply pres_kept, keeps_render|intros snaps]. pub_ops. }
  unfold create_runs. apply all_pres_bind; [apply published_kept; unfold find_run_request; keeps_tac|intros [x|]].
  - apply published_kept. unfold compare_run_request, runs_for_request, json_inputs_equal. keeps_tac.
  - apply all_pres_bind; [exact Hc|intros b]. apply published_kept.
    unfold find_run_request, compare_run_request, runs_for_request, json_inputs_equal. keeps_tac.
Qed.

Lemma pub_rerun x r : all_pres published_as (insert_rerun x r).
Proof.
  unfold insert_rerun. apply all_pres_bind.
  { apply published_kept. unfold existing_rerun, find_run_request, runs_for_request. keeps_tac. }
  intros [e|]; [apply published_kept; keeps_tac|]. apply all_pres_bind.
  - apply all_pres_transaction. pub_ops.
  - intros b. apply published_kept. unfold existing_rerun, find_run_request, runs_for_request. keeps_tac.
Qed.

Lemma pub_commit_plan p : all_pres published_as (commit_schedule_plan p).
Proof.
  apply all_pres_transaction. apply pres_bind; [kept|intros now]. apply pres_bind; [kept|intros d].
  apply pres_bind; [kept|intros sch]. apply pres_bind; [kept|intros sel].
  apply pres_bind; [apply pres_kept, keeps_load_selection|intros [ex si]]. apply pres_bind.
  - apply pres_for. intros oc. apply pres_for. intros x. unfold insert_scheduled_occurrence. pub_ops.
  - intros []. pub_ops.
Qed.

Lemma pub_reconcile_transaction locked limit : all_pres published_as (reconcile_transaction locked limit).
Proof.
  apply all_pres_transaction. unfold reconcile_expired_dispatches, reconcile_due_retries, reconcile_expired_leases,
    remove_expired_worker_presence, expire_dispatch, expire_lease, start_retry. pub_ops.
  intros env s u s' [= _ <-] Hp. by apply published_released.
Qed.

Lemma pub_claim_outbox o l n : all_pres published_as (claim_outbox o l n).
Proof.
  unfold claim_outbox. apply all_pres_bind; [apply published_kept; keeps_tac|intros secs].
  apply all_pres_bind; [apply published_kept; keeps_tac|intros now]. apply all_pres_bind; [apply published_kept; keeps_tac|intros locked].
  apply all_pres_bind; [apply published_kept; keeps_tac|intros d]. apply all_pres_bind; [|intros u; apply published_kept; keeps_tac].
  intros env s res s' [= <- <-] Hp. by apply published_claimed.
Qed.

Lemma pub_publish_failure o i m n : all_pres published_as (record_publish_failure o i m n).
Proof.
  apply all_pres_bind; [apply pub_update_outbox; intros ? ? _; by repeat split|intros r]. apply published_kept. keeps_tac.
Qed.

Lemma pub_activate x : pres published_as (activate x).
Proof. unfold activate, update_node. pub_ops. Qed.

Lemma pub_reconcile_workflows limit : all_pres published_as (reconcile_workflows limit).
Proof.
  assert (forall l, keeps dispatches (complete_nodes l)) as H1.
  { induction l as [|x l IH]; simpl; unfold complete_node, update_node, outgoing; keeps_tac; exact IH. }
  assert (forall fuel l, pres published_as (propagate fuel l)) as H2.
  { induction fuel as [|fuel IH]; intros l; simpl; [kept|]. destruct l as [|x l]; [kept|].
    apply pres_bind; [|intros more; apply IH]. unfold propagate_one, update_node, outgoing.
    repeat first [apply pub_activate | apply pres_bind; [|intros ?] | case_match | kept; fail]. }
  assert (all_pres published_as reconcile_invocation) as H3.
  { apply all_pres_transaction. unfold finish.
    repeat first [apply H2 | apply pres_kept, H1 | apply pres_bind; [|intros ?] | case_match | kept; fail]. }
  induction limit as [|limit IH]; simpl; [apply published_kept; keeps_tac|].
  apply all_pres_bind; [exact H3|intros []; [|apply published_kept; keeps_tac]].
  apply all_pres_bind; [exact IH|intros n; apply published_kept; keeps_tac].
Qed.

Lemma pub_reconcile locked limit : all_pres published_as (reconcile locked limit).
Proof.
  apply all_pres_bind; [apply pub_reconcile_transaction|intros n]. apply all_pres_bind; [apply pub_reconcile_workflows|intros m].
  apply published_kept. keeps_tac.
Qed.

Lemma pub_cancel id : all_pres published_as (cancel_run id).
Proof.
  apply published_kept, keeps_transaction. unfold finish. keeps_tac; apply keeps_node_records.
Qed.

Lemma pub_start launch : all_pres published_as (start launch).
Proof.
  apply all_pres_transaction. apply pres_bind; [kept|intros n1]. apply pres_bind; [kept|intros n2].
  apply pres_bind; [kept|intros d]. destruct (invocation_for_request _ _) as [old|].
  { apply pres_bind; [apply pres_kept, keeps_replay|intros r; kept]. }
  apply pres_bind; [apply pres_kept, keeps_catalog|intros st]. destruct (negb _); [kept|].
  apply pres_bind; [kept|intros id]. apply pres_bind; [apply pres_kept; unfold insert_invocation; keeps_tac|intros []].
  apply pres_bind; [kept|intros n3]. apply pres_bind; [kept|intros n4].
  apply pres_bind; [apply pres_kept, kept_prepare_nodes|intros ids].
  apply pres_bind; [apply pres_kept; apply keeps_for; intros e; unfold insert_run_edge; keeps_tac|intros []].
  apply pres_bind; [apply pres_for; intros node; apply pres_bind; [kept|intros x; apply pub_activate]|intros []].
  apply pres_bind; [apply pres_kept, keeps_invocation|intros r; kept].
Qed.

Lemma pub_quiet :
  (forall o l n, all_pres published_as (claim_due_schedules o l n)) /\ (forall i r e n, all_pres published_as (set_schedule_enabled i r e n))
  /\ (forall r, all_pres published_as (claim_attempt r)) /\ (forall r, all_pres published_as (renew_lease r))
  /\ (forall r, all_pres published_as (record_attempt_output r)) /\ (forall r, all_pres published_as (complete_attempt r))
  /\ (forall r, all_pres published_as (record_worker_heartbeat r)).
Proof.
  split_and!; intros; apply published_kept;
    [unfold claim_due_schedules|unfold set_schedule_enabled|unfold claim_attempt|unfold renew_lease|unfold record_attempt_output
    |unfold complete_attempt|unfold record_worker_heartbeat];
    unfold bind_texts, bind_jsons;
    repeat first [apply kept_update_attempt | apply kept_update_run | apply kept_run_event | apply keeps_transaction
      | apply keeps_statement | apply keeps_check | apply keeps_bind; [|intros ?] | apply keeps_modify; intros ?; reflexivity
      | case_match | apply keeps_step; intros ? ?; reflexivity ].
Qed.

End Operations.
End Published.
