(* ===== verification/Server.v ===== *)
(** * The running server

    Any number of server processes over one database and one JetStream
    stream: ticks of the scheduler, dispatcher and reconciler, messages of
    workers and requests of users, interleaved at every await, cut off
    anywhere by a crash.  What they do together is a history of store calls,
    and a dispatch is marked published only for a message the stream
    persisted: one it holds, or one a worker's acknowledgement removed. *)

From S2P Require Import Prelude RustStr Json Inputs Names Float Domain Auth Recurrence Workflow Db Snapshot TxLogic Store Planner WorkflowStore Catalog Queries WorkflowDefinitions Lifecycle Refinement WorkflowRefinement StoreSystem Scenario PlannerTheorems Validation Application ApplicationSystem Service Futures Dispatcher WorkerControl Publication.
From Stdlib Require Import String.
From stdpp Require Import base numbers strings sorting gmap list relations.

Local Open Scope Z_scope.

(** A message of the stream [CRONO_DISPATCH], its sequence and when it was stored. *)
Record Message : Type := mkMessage {
  msg_subject : string;
  msg_payload : DispatchEnvelope;
  msg_id : Uuid;
  msg_sequence : Z;
  msg_stored_at : Instant;
}.

(** The stream as [connect_once] configures it: with the retention [WorkQueue]
    an acknowledged message is removed, and a publication whose identifier was
    stored within the duplicate window is answered with the stored sequence. *)
Record Stream : Type := mkStream {
  st_held : list Message;
  st_acknowledged : list Message;
  st_sequence : Z;
  st_now : Instant;
}.

Definition empty_stream : Stream := mkStream [] [] 0 0.

(** Every message it ever stored. *)
Definition accepted (st : Stream) : list Message := st_held st ++ st_acknowledged st.

Definition DUPLICATE_WINDOW : Z := 120 * second.

Definition duplicate_of (st : Stream) (id : Uuid) : option Message :=
  List.find (fun m => (msg_id m =? id)%N && (st_now st - msg_stored_at m <? DUPLICATE_WINDOW)) (accepted st).

(** A publication the stream takes, and the sequence it acknowledges. *)
Definition store_message (st : Stream) (subject : string) (payload : DispatchEnvelope) (id : Uuid) : Stream * Z :=
  match duplicate_of st id with
  | Some m => (st, msg_sequence m)
  | None =>
      let sequence := st_sequence st + 1 in
      (mkStream (st_held st ++ [mkMessage subject payload id sequence (st_now st)]) (st_acknowledged st) sequence (st_now st), sequence)
  end.

(** What happens to the stream beside publications: an acknowledgement, and time. *)
Inductive stream_step : Stream -> Stream -> Prop :=
| StreamAcknowledged l m r gone n now : stream_step (mkStream (l ++ m :: r) gone n now) (mkStream (l ++ r) (gone ++ [m]) n now)
| StreamTime held gone n now now' : now <= now' -> stream_step (mkStream held gone n now) (mkStream held gone n now').

(** What is running. *)
Inductive activity : Type :=
| Task (t : task unit)                                                (* a tick or a handler *)
| Batch (owner : Uuid) (config : DispatcherConfig) (t : task (list OutboxRecord))  (* claiming *)
| Pool (limit : Z) (waiting running : list (task unit))               (* [for_each_concurrent] *)
| Request {A : Type} (p : prog A).                                    (* a request of the API *)

Record server : Type := mkServer { sv_db : DB; sv_stream : Stream; sv_live : list activity }.

Section Server.
Context {SJ : SerdeJson} {RF : RustFmt} {PG : PostgresServer} {TC : TimeCrate} {SE : SnapshotEncoding}
  {DJ : DiagnosticsJson} {CC : CronCrates} {WJ : WireJson}.

(** ** Answers *)

(** What an awaited call answers, and what it changes.  A failed publication
    may have reached the stream all the same. *)
Inductive performs (d : DB) (st : Stream) : forall {B : Type}, ServerCall B -> B -> DB -> Stream -> Prop :=
| PClaimDue owner limit lease x d' :
    call (claim_due_schedules owner limit lease) d x d' -> performs d st (ClaimDueSchedules owner limit lease) x d' st
| PCommitPlan plan x d' : call (commit_schedule_plan plan) d x d' -> performs d st (CommitSchedulePlan plan) x d' st
| PClaimOutbox owner limit lease x d' :
    call (claim_outbox owner limit lease) d x d' -> performs d st (ClaimOutbox owner limit lease) x d' st
| PMarkPublished owner record sequence x d' :
    call (mark_published owner record sequence) d x d' -> performs d st (MarkPublished owner record sequence) x d' st
| PPublishFailure owner id message next x d' :
    call (record_publish_failure owner id message next) d x d' -> performs d st (RecordPublishFailure owner id message next) x d' st
| PClaimAttempt r x d' : call (claim_attempt r) d x d' -> performs d st (ClaimAttempt r) x d' st
| PRenewLease r x d' : call (renew_lease r) d x d' -> performs d st (RenewLease r) x d' st
| PComplete r x d' : call (complete_attempt r) d x d' -> performs d st (CompleteAttempt r) x d' st
| POutput r x d' : call (record_attempt_output r) d x d' -> performs d st (RecordAttemptOutput r) x d' st
| PHeartbeat r x d' : call (record_worker_heartbeat r) d x d' -> performs d st (RecordWorkerHeartbeat r) x d' st
| PFindQueue id x d' : call (Catalog.get_queue id) d x d' -> performs d st (FindQueue id) x d' st
| PFindQueueByName name x d' : call (get_queue_by_name name) d x d' -> performs d st (FindQueueByName name) x d' st
| PReconcile locked limit x d' : call (reconcile locked limit) d x d' -> performs d st (Reconcile limit) x d' st
| PPublished subject payload id :
    performs d st (Publish subject payload id) (Ok (store_message st subject payload id).2) d (store_message st subject payload id).1
| PPublishLost subject payload id e :
    performs d st (Publish subject payload id) (Err e) d (store_message st subject payload id).1
| PPublishFailed subject payload id e : performs d st (Publish subject payload id) (Err e) d st
| PRespond reply body x : performs d st (Respond reply body) x d st
| PClock t : performs d st Clock t d st.

(** ** Steps *)

(** One activity goes on. *)
Inductive advances (d : DB) (st : Stream) : activity -> activity -> DB -> Stream -> Prop :=
| AdvTask {B} (c : ServerCall B) k x d' st' : performs d st c x d' st' -> advances d st (Task (Await c k)) (Task (k x)) d' st'
| AdvBatch owner config {B} (c : ServerCall B) k x d' st' :
    performs d st c x d' st' -> advances d st (Batch owner config (Await c k)) (Batch owner config (k x)) d' st'
| AdvStream owner config records :
    advances d st (Batch owner config (Return records))
      (Pool (dc_max_in_flight config) (map (publish_one owner config) records) []) d st
| AdvStart limit t waiting running :
    Z.of_nat (length running) < limit -> advances d st (Pool limit (t :: waiting) running) (Pool limit waiting (running ++ [t])) d st
| AdvPool limit waiting l {B} (c : ServerCall B) k x r d' st' :
    performs d st c x d' st' -> advances d st (Pool limit waiting (l ++ Await c k :: r)) (Pool limit waiting (l ++ k x :: r)) d' st'
| AdvFinish limit waiting l r : advances d st (Pool limit waiting (l ++ Return () :: r)) (Pool limit waiting (l ++ r)) d st
| AdvRequest {A B} (c : Call B) (k : B -> prog A) x d' :
    handles d c x d' -> advances d st (Request (Do c k)) (Request (k x)) d' st.

(** What the processes start: ticks of their loops, handlers and requests. *)
Inductive starts : activity -> Prop :=
| StartScheduler owner : starts (Task (scheduler_tick owner))
| StartDispatcher owner config : starts (Batch owner config (dispatch_batch owner config))
| StartReconciler : starts (Task reconciler_tick)
| StartHandler message duty t : handler message duty t -> starts (Task (then_ t (fun _ => Return ())))
| StartRequest context {A} (p : prog A) : operation context p -> starts (Request p).

Inductive server_step : server -> server -> Prop :=
| StepStart d st live a : starts a -> server_step (mkServer d st live) (mkServer d st (live ++ [a]))
| StepAdvance d st l a r a' d' st' :
    advances d st a a' d' st' -> server_step (mkServer d st (l ++ a :: r)) (mkServer d' st' (l ++ a' :: r))
| StepEnd d st l a r : server_step (mkServer d st (l ++ a :: r)) (mkServer d st (l ++ r))
| StepStream d st st' live : stream_step st st' -> server_step (mkServer d st live) (mkServer d st' live).

(** ** What a task has learnt *)

(** The row of a record is there, and is what the record says. *)
Definition record_known (c : CoreTables) (record : OutboxRecord) : Prop := exists o,
  outbox c !! or_id record = Some o /\ o_subject o = or_subject record /\ o_payload o = or_payload record
  /\ o_attempt_id o = or_attempt_id record.

(** The stream stored the message under the sequence. *)
Definition persisted (st : Stream) (subject : string) (payload : DispatchEnvelope) (id : Uuid) (sequence : Z) : Prop :=
  exists t, mkMessage subject payload id sequence t ∈ accepted st.

(** What an event says about the tables and the stream, for ever. *)
Definition tells (c : CoreTables) (st : Stream) (e : awaited) : Prop :=
  let 'Awaited cl x := e in
  match cl in ServerCall B return B -> Prop with
  | ClaimOutbox _ _ _ => fun r => match r with Ok records => Forall (record_known c) records | Err _ => True end
  | Publish subject payload id => fun r =>
      match r with Ok sequence => persisted st subject payload id sequence | Err _ => True end
  | _ => fun _ => True
  end x.

(** A batch of the history claimed the record. *)
Definition claimed_record (h : list awaited) (record : OutboxRecord) : Prop :=
  exists owner limit lease records, Awaited (ClaimOutbox owner limit lease) (Ok records) ∈ h /\ record ∈ records.

(** A message is published for a record this task's batch claimed; a dispatch
    is marked with the sequence the stream acknowledged for that message. *)
Definition marks_published (h : list awaited) (B : Type) (c : ServerCall B) : Prop :=
  match c with
  | Publish subject payload id =>
      exists record, claimed_record h record /\ subject = or_subject record /\ payload = or_payload record
        /\ id = or_attempt_id record
  | MarkPublished _ record sequence =>
      claimed_record h record
      /\ Awaited (Publish (or_subject record) (or_payload record) (or_attempt_id record)) (Ok sequence) ∈ h
  | _ => True
  end.

(** The records of a batch are those it claimed. *)
Definition claimed (h : list awaited) (records : list OutboxRecord) : Prop :=
  records = [] \/ exists owner limit lease, Awaited (ClaimOutbox owner limit lease) (Ok records) ∈ h.

Definition task_ok (c : CoreTables) (st : Stream) {A} (t : task A) : Prop :=
  exists h, obeys marks_published h t /\ Forall (tells c st) h.

Definition activity_ok (c : CoreTables) (st : Stream) (a : activity) : Prop :=
  match a with
  | Task t => task_ok c st t
  | Batch _ _ t => exists h, obeys marks_published h t /\ ends claimed h t /\ Forall (tells c st) h
  | Pool limit waiting running =>
      Z.of_nat (length running) <= Z.max 0 limit /\ Forall (task_ok c st) waiting /\ Forall (task_ok c st) running
  | Request _ => True
  end.

(** Every published row has its message in the stream, with its sequence. *)
Definition in_stream (st : Stream) (subject : string) (payload : DispatchEnvelope) (id : Uuid) (sequence : option Z) : Prop :=
  exists n, sequence = Some n /\ persisted st subject payload id n.

(** A message is the dispatch of a row. *)
Definition in_outbox (c : CoreTables) (m : Message) : Prop := exists oid o,
  outbox c !! oid = Some o /\ o_subject o = msg_subject m /\ o_payload o = msg_payload m /\ o_attempt_id o = msg_id m.

(** Each message was stored once, under a sequence of its own, and not within
    the window of another of the same attempt. *)
Record stream_ok (st : Stream) : Prop := {
  stream_past : Forall (fun m => msg_sequence m <= st_sequence st /\ msg_stored_at m <= st_now st) (accepted st);
  stream_sequences : NoDup (map msg_sequence (accepted st));
  stream_window : forall m m', m ∈ accepted st -> m' ∈ accepted st -> msg_id m = msg_id m' ->
    m = m' \/ DUPLICATE_WINDOW <= Z.abs (msg_stored_at m - msg_stored_at m');
}.

Definition server_ok (s : server) : Prop :=
  core_inv (core (sv_db s)) /\ published_as (in_stream (sv_stream s)) (sv_db s)
  /\ Forall (in_outbox (core (sv_db s))) (accepted (sv_stream s)) /\ stream_ok (sv_stream s)
  /\ Forall (activity_ok (core (sv_db s)) (sv_stream s)) (sv_live s).

(** ** Lemmas: what stays true *)

Lemma record_known_mono c c' record : rtc core_step c c' -> record_known c record -> record_known c' record.
Proof.
  intros Hs (o & Ho & E1 & E2 & E3). destruct (core_steps_dispatch _ _ _ _ Hs Ho) as (o' & Ho' & _ & F1 & F2 & F3 & _).
  exists o'. split_and!; congruence.
Qed.

Lemma in_outbox_mono c c' m : rtc core_step c c' -> in_outbox c m -> in_outbox c' m.
Proof.
  intros Hs (oid & o & Ho & E1 & E2 & E3). destruct (core_steps_dispatch _ _ _ _ Hs Ho) as (o' & Ho' & _ & F1 & F2 & F3 & _).
  exists oid, o'. split_and!; congruence.
Qed.

(** What a task knows of the records its batch claimed. *)
Lemma claimed_record_known c st h record : Forall (tells c st) h -> claimed_record h record -> record_known c record.
Proof.
  intros Hh (o & l & n & records & Hin & Hrec). rewrite Forall_forall in Hh. specialize (Hh _ Hin). simpl in Hh.
  rewrite Forall_forall in Hh. by apply Hh.
Qed.

Lemma persisted_mono st st' subject payload id n :
  accepted st ⊆ accepted st' -> persisted st subject payload id n -> persisted st' subject payload id n.
Proof. intros H (t & Ht). exists t. by apply H. Qed.

Lemma tells_mono c c' st st' e : rtc core_step c c' -> accepted st ⊆ accepted st' -> tells c st e -> tells c' st' e.
Proof.
  intros Hs Hst. destruct e as [B cl x]. unfold tells. destruct cl; try done; destruct x as [x|?]; try done.
  - intros H. eapply Forall_impl; [exact H|]. intros r. by apply record_known_mono.
  - by apply persisted_mono.
Qed.

Lemma task_ok_mono c c' st st' {A} (t : task A) : rtc core_step c c' -> accepted st ⊆ accepted st' -> task_ok c st t -> task_ok c' st' t.
Proof. intros Hs Hst (h & Ht & Hh). exists h. split; [done|]. eapply Forall_impl; [exact Hh|]. intros e. by apply tells_mono. Qed.

Lemma activity_ok_mono c c' st st' a : rtc core_step c c' -> accepted st ⊆ accepted st' -> activity_ok c st a -> activity_ok c' st' a.
Proof.
  intros Hs Hst. destruct a as [t|owner config t|limit w r|A p]; simpl; [by apply task_ok_mono| | |done].
  - intros (h & Ht & He & Hh). exists h. split_and!; try done. eapply Forall_impl; [exact Hh|]. intros e. by apply tells_mono.
  - intros (Hl & Hw & Hr). split; [done|].
    split; (eapply Forall_impl; [eassumption|]); intros t; by apply task_ok_mono.
Qed.

Lemma published_mono st st' d : accepted st ⊆ accepted st' -> published_as (in_stream st) d -> published_as (in_stream st') d.
Proof. intros Hst Hp oid o Ho Hs. destruct (Hp oid o Ho Hs) as (n & Hn & Hm). exists n. split; [done|by eapply persisted_mono]. Qed.

(** ** Lemmas: answers *)

Lemma claimed_known owner limit lease d records d' :
  call (claim_outbox owner limit lease) d (Ok records) d' -> Forall (record_known (core d')) records.
Proof.
  intros (env & n & u & s' & H & <-). unfold claim_outbox in H. apply tx_bind_ok in H as (secs & s1 & _ & H).
  apply tx_bind_ok in H as (now & s2 & _ & H). apply tx_bind_ok in H as (locked & s3 & _ & H).
  apply tx_bind_ok in H as (d1 & s4 & _ & H). apply tx_bind_ok in H as ([] & s5 & _ & H).
  apply tx_bind_ok in H as (d2 & s6 & [= <- <-] & [Hc ->]%tx_lift_ok).
  apply collect_ok in Hc. apply Forall_forall. intros record Hin.
  apply list_elem_of_lookup_1 in Hin as [j Hj]. destruct (Forall2_lookup_r _ _ _ _ _ Hc Hj) as ([id o] & Ho%list_elem_of_lookup_2 & Hr). apply list_elem_of_omap in Ho as (i & _ & Ho).
  destruct (outbox (core (tx_db s5)) !! i) as [o'|] eqn:E; [|done]. injection Ho as -> ->.
  unfold outbox_record in Hr. apply result_bind_ok in Hr as (k & _ & [= <-]). exists o. by split_and!.
Qed.

(** What the methods the services call do to published rows. *)
Lemma perform_published Q probe {A} (m : StoreCall A) d x d' :
  call (perform probe m) d x d' -> published_as Q d -> published_as Q d'.
Proof.
  intros H Hp. pose proof (pub_quiet Q) as (_ & Hq & _). destruct (writes m) eqn:Hw.
  2:{ destruct H as (env & n & u & s' & H & <-). by rewrite (reads_unchanged probe m Hw _ _ _ _ H). }
  assert (forall B (op : tx B) res, all_pres (published_as Q) op -> call op d res d' -> published_as Q d') as Hk.
  { intros B op res Hm (env & n & u & s' & Hc & <-). exact (Hm _ _ _ _ Hc Hp). }
  assert (catalog_call d d' -> published_as Q d') as Hcat.
  { intros Hc%catalog_call_frame. injection Hc as Hc _ _ _ _ _. unfold published_as. by rewrite Hc. }
  destruct m; try done; cbn [perform] in H;
    first [ apply Hcat; first [by eapply CCCreateNamespace | by eapply CCDeleteNamespace | by eapply CCCreateQueue | by eapply CCUpdateQueue
      | by eapply CCDeleteQueue | by eapply CCCreateJob | by eapply CCUpdateJob | by eapply CCCreateTarget | by eapply CCUpdateTarget
      | by eapply CCDeleteTarget | by eapply CCCreateTargetSet | by eapply CCUpdateTargetSet | by eapply CCCreateSchedule
      | by eapply CCWriteWorkflow | by eapply CCDeleteWorkflow]
    | refine (Hk _ _ _ _ H); first [apply pub_start | apply pub_cancel | apply pub_create_runs | apply pub_rerun | apply Hq] ].
Qed.

(** One call: a step of a history, which never empties the stream and stamps only what is in it. *)
Record sound_call (d : DB) (st : Stream) {B} (c : ServerCall B) (x : B) (d' : DB) (st' : Stream) : Prop := {
  call_history : rtc store_step d d';
  call_stream : accepted st ⊆ accepted st';
  call_tells : tells (core d') st' (Awaited c x);
  call_published : published_as (in_stream st) d -> published_as (in_stream st') d';
  call_outbox : core_inv (core d) -> Forall (in_outbox (core d)) (accepted st) -> Forall (in_outbox (core d')) (accepted st');
  call_stream_ok : stream_ok st -> stream_ok st';
}.

Lemma stream_kept d d' st :
  rtc store_step d d' -> core_inv (core d) -> Forall (in_outbox (core d)) (accepted st) -> Forall (in_outbox (core d')) (accepted st).
Proof. intros Hs Hi H. eapply Forall_impl; [exact H|]. intros m. apply in_outbox_mono. by apply history_core. Qed.

(** A call that writes no message and leaves the published rows alone. *)
Lemma call_quiet_ok d st {B} (c : ServerCall B) x : tells (core d) st (Awaited c x) -> sound_call d st c x d st.
Proof. intros Ht. by split. Qed.

(** What the stream stored before stays stored. *)
Lemma store_accepted st subject payload id : accepted st ⊆ accepted (store_message st subject payload id).1.
Proof. unfold store_message. destruct (duplicate_of st id); [done|]. unfold accepted. cbn. set_solver. Qed.

Lemma duplicate_found st id m : duplicate_of st id = Some m -> m ∈ accepted st /\ msg_id m = id.
Proof. intros [H1%list_elem_of_In H2]%find_some. apply andb_true_iff in H2 as [H2%N.eqb_eq _]. done. Qed.

Lemma store_ok st subject payload id : stream_ok st -> stream_ok (store_message st subject payload id).1.
Proof.
  intros Hok. unfold store_message. destruct (duplicate_of st id) as [|] eqn:Hd; [done|]. destruct Hok as [Hp Hn Hw].
  set (m := mkMessage subject payload id (st_sequence st + 1) (st_now st)).
  set (st' := mkStream _ _ _ _). assert (accepted st' ≡ₚ m :: accepted st) as HP by (unfold accepted; cbn; solve_Permutation).
  assert (forall m', m' ∈ accepted st -> msg_id m' = id -> DUPLICATE_WINDOW <= st_now st - msg_stored_at m') as Hfar.
  { intros m' Hin Hid. apply list_elem_of_In in Hin. pose proof (find_none _ _ Hd m' Hin) as Hf.
    cbn in Hf. rewrite Hid, N.eqb_refl in Hf. cbn in Hf. by apply Z.ltb_ge in Hf. }
  split.
  - rewrite HP. constructor; [cbn; lia|]. eapply Forall_impl; [exact Hp|]. cbn. lia.
  - rewrite HP. cbn. constructor; [|done]. intros (m' & E & Hin)%list_elem_of_fmap. rewrite Forall_forall in Hp.
    specialize (Hp _ Hin). cbn in *. lia.
  - intros m1 m2. rewrite HP, !elem_of_cons. intros [->|H1] [->|H2] E; [by left| | |by apply Hw]; right; cbn in *.
    + specialize (Hfar _ H2 (eq_sym E)). lia.
    + specialize (Hfar _ H1 E). lia.
Qed.

Lemma stream_step_ok st st' : stream_step st st' -> accepted st ≡ₚ accepted st' /\ (stream_ok st -> stream_ok st').
Proof.
  destruct 1 as [l m r gone n now|held gone n now now' Hle].
  - assert (accepted (mkStream (l ++ m :: r) gone n now) ≡ₚ accepted (mkStream (l ++ r) (gone ++ [m]) n now)) as HP
      by (unfold accepted; cbn; solve_Permutation).
    split; [done|]. intros [H1 H2 H3]. split; [by rewrite <- HP|by rewrite <- HP|]. intros m1 m2. rewrite <- HP. apply H3.
  - split; [done|]. intros [H1 H2 H3]. split; [|done|done]. eapply Forall_impl; [exact H1|]. cbn. lia.
Qed.

(** A claimed record's publication, taken or answered as a duplicate, persists the record's message. *)
Lemma store_persists c st h record :
  core_inv c -> Forall (in_outbox c) (accepted st) -> Forall (tells c st) h -> claimed_record h record ->
  let '(st', n) := store_message st (or_subject record) (or_payload record) (or_attempt_id record) in
  persisted st' (or_subject record) (or_payload record) (or_attempt_id record) n /\ Forall (in_outbox c) (accepted st').
Proof.
  intros [Hsh _] Ho Hh Hrec. destruct (claimed_record_known _ _ _ _ Hh Hrec) as (row & Hrow & E1 & E2 & E3).
  unfold store_message. destruct (duplicate_of st _) as [m|] eqn:Hd.
  - apply duplicate_found in Hd as [Hin Hid]. split; [|done]. pose proof Ho as Ho'. rewrite Forall_forall in Ho'.
    destruct (Ho' _ Hin) as (oid & o & Hoid & F1 & F2 & F3).
    assert (oid = or_id record) as -> by (apply (inv_dispatch_unique _ Hsh _ _ _ _ Hoid Hrow); congruence).
    assert (o = row) as -> by congruence. exists (msg_stored_at m).
    destruct m as [ms mp mi mn mt]. cbn in F1, F2, F3, Hid |- *. congruence.
  - split.
    + exists (st_now st). unfold accepted. cbn. set_solver.
    + unfold accepted in *. cbn. rewrite <- (assoc_L app). rewrite !Forall_app in *. destruct Ho as [Ho1 Ho2].
      split_and!; [done| |done]. constructor; [|done]. by exists (or_id record), row.
Qed.

Lemma published_message_ok d st subject payload id x h :
  core_inv (core d) -> Forall (in_outbox (core d)) (accepted st) ->
  marks_published h _ (Publish subject payload id) -> Forall (tells (core d) st) h ->
  match x with Ok n => n = (store_message st subject payload id).2 | Err _ => True end ->
  sound_call d st (Publish subject payload id) x d (store_message st subject payload id).1.
Proof.
  intros Hi Ho (record & Hrec & -> & -> & ->) Hh Hx. pose proof (store_persists _ _ _ _ Hi Ho Hh Hrec) as Hp.
  pose proof (store_accepted st (or_subject record) (or_payload record) (or_attempt_id record)) as Hsub.
  pose proof (store_ok st (or_subject record) (or_payload record) (or_attempt_id record)) as Hok.
  destruct (store_message _ _ _ _) as [st' n]. destruct Hp as [Hp Ho']. cbn in *.
  split; [done|done| |by apply published_mono|done|done]. destruct x as [n'|e]; [|exact I]. by subst n'.
Qed.

Lemma call_op_ok {A} (m : tx A) d st {B} (c : ServerCall B) x res d' :
  (call m d res d' -> store_step d d') -> (forall Q, all_pres (published_as Q) m) -> tells (core d') st (Awaited c x) ->
  call m d res d' -> sound_call d st c x d' st.
Proof.
  intros Hs Hp Ht Hc. split; [by apply rtc_once, Hs|done|done| |by apply stream_kept, rtc_once, Hs|done].
  destruct Hc as (env & n & u & s' & Hc & <-). exact (Hp _ _ _ _ _ Hc).
Qed.

Lemma performs_ok d st {B} (c : ServerCall B) x d' st' h :
  core_inv (core d) -> Forall (in_outbox (core d)) (accepted st) -> marks_published h B c -> Forall (tells (core d) st) h -> performs d st c x d' st' -> sound_call d st c x d' st'.
Proof.
  intros Hi Ho Hm Hh Hp. destruct Hp as [? ? ? ? ? H|? ? ? H|? ? ? ? ? H|owner record sequence ? ? H|? ? ? ? ? ? H|? ? ? H|? ? ? H
    |? ? ? H|? ? ? H|? ? ? H|? ? ? H|? ? ? H|? ? ? ? H|subject payload id|subject payload id e| | |].
  all: try (refine (call_op_ok _ d st _ _ _ _ _ _ _ H);
    [first [by eapply SSClaimSchedules | by eapply SSCommitPlan | by eapply SSClaimOutbox | by eapply SSPublishFailure | by eapply SSClaimAttempt
       | by eapply SSRenewLease | by eapply SSComplete | by eapply SSOutput | by eapply SSHeartbeat | by eapply SSReconcile]
    |intros Q; pose proof (pub_quiet Q) as (Q1 & _ & Q2 & Q3 & Q4 & Q5 & Q6);
      first [apply Q1 | apply Q2 | apply Q3 | apply Q4 | apply Q5 | apply Q6 | apply pub_commit_plan | apply pub_claim_outbox | apply pub_publish_failure | apply pub_reconcile]
    |first [exact I | destruct x as [records|]; [by eapply claimed_known|exact I]]]; fail).
  - destruct Hm as [Hrec Hpub]. destruct (claimed_record_known _ _ _ _ Hh Hrec) as (row & Hrow & E1 & E2 & E3).
    rewrite Forall_forall in Hh. pose proof (Hh _ Hpub) as Hst. simpl in Hst.
    assert (store_step d d') as Hs by (eapply SSMarkPublished; [|exact H]; intros o' Ho'; congruence).
    split; [by apply rtc_once|done|exact I| |by apply stream_kept, rtc_once|done].
    intros Hp. destruct H as (env & k & u & s' & H & <-).
    refine (proj1 (mark_published_stamps _ owner record sequence _ env (mkTx d k u) _ s' H _)).
    + exists sequence. by split.
    + split; [exact Hp|]. intros o' Ho'. cbn in Ho'. assert (o' = row) as -> by congruence. done.
  - destruct H as (env & k & u & s' & H & <-). assert (tx_db s' = d) as ->; [|by apply call_quiet_ok].
    refine (keeps_bind (fun d => d) _ _ _ _ _ _ _ _ H); [apply keeps_statement|intros ?; keeps_tac].
  - destruct H as (env & k & u & s' & H & <-). assert (tx_db s' = d) as ->; [|by apply call_quiet_ok].
    refine (keeps_bind (fun d => d) _ _ _ _ _ _ _ _ H); [apply keeps_statement|intros ?; unfold bind_texts; keeps_tac].
  - by apply (published_message_ok _ _ _ _ _ _ h).
  - by apply (published_message_ok _ _ _ _ _ _ h).
  - by apply call_quiet_ok.
  - by apply call_quiet_ok.
  - by apply call_quiet_ok.
Qed.

(** ** Lemmas: what runs *)

Lemma publish_one_ok c st owner config record records :
  record ∈ records -> Forall (record_known c) records -> task_ok c st (publish_one owner config record).
Proof.
  intros Hin Hk. exists [Awaited (ClaimOutbox owner 0 0) (Ok records)]. split; [|by repeat constructor].
  assert (forall h, claimed_record ([Awaited (ClaimOutbox owner 0 0) (Ok records)] ++ h) record) as Hcl
    by (intros h; exists owner, 0, 0, records; split; [set_solver|done]).
  split; [exists record; split_and!; [exact (Hcl [])|done..]|]. intros [sequence|e].
  - split; [|by intros]. split; [apply Hcl|set_solver].
  - split; [exact I|]. intros now. split; [exact I|]. by intros.
Qed.

Lemma starts_ok c st a : starts a -> activity_ok c st a.
Proof.
  destruct 1 as [owner|owner config| |message duty t Ht|context A p Hp]; [| | | |exact I].
  - exists []. split; [|done]. split; [exact I|]. intros [schedules|e]; [|exact I]. apply obeys_for. intros schedule h _ _.
    split; [exact I|]. intros now. destruct (plan schedule owner now); [|exact I]. split; [exact I|]. by intros.
  - exists []. split_and!; [split; [exact I|]; by intros [|]| |done]. intros [records|e]; [right|by left].
    exists owner, (dc_batch_size config), (dc_claim_lease config). set_solver.
  - exists []. split; [|done]. split; [exact I|]. by intros.
  - exists []. split; [|done]. apply obeys_then; [|by intros]. eapply obeys_mono; [|by apply handler_guarded].
    intros h B c0. by destruct duty as [| |[]|], c0.
Qed.

Lemma events_advance d st {B} (c : ServerCall B) x d' st' h :
  core_inv (core d) -> sound_call d st c x d' st' -> Forall (tells (core d) st) h -> Forall (tells (core d') st') (h ++ [Awaited c x]).
Proof.
  intros Hi [H1 H2 H3 _ _ _] Hh. apply Forall_app. split; [|by constructor].
  eapply Forall_impl; [exact Hh|]. intros e. apply tells_mono; [by apply history_core|done].
Qed.

Lemma task_advances {A} d st {B} (c : ServerCall B) (k : B -> task A) x d' st' :
  core_inv (core d) -> Forall (in_outbox (core d)) (accepted st) -> task_ok (core d) st (Await c k) -> performs d st c x d' st' ->
  sound_call d st c x d' st' /\ task_ok (core d') st' (k x).
Proof.
  intros Hi Ho (h & [Hc Hk] & Hh) Hp. pose proof (performs_ok _ _ _ _ _ _ _ Hi Ho Hc Hh Hp) as Hok. split; [done|].
  exists (h ++ [Awaited c x]). split; [apply Hk|by eapply events_advance].
Qed.

Lemma pool_ok d st d' st' ts :
  core_inv (core d) -> rtc store_step d d' -> accepted st ⊆ accepted st' -> Forall (task_ok (core d) st) ts -> Forall (task_ok (A:=unit) (core d') st') ts.
Proof.
  intros Hi Hs Hst H. eapply Forall_impl; [exact H|]. intros t. apply task_ok_mono; [by apply history_core|done].
Qed.

Lemma advances_ok d st a a' d' st' :
  core_inv (core d) -> Forall (in_outbox (core d)) (accepted st) -> activity_ok (core d) st a -> advances d st a a' d' st' ->
  rtc store_step d d' /\ accepted st ⊆ accepted st' /\ activity_ok (core d') st' a'
  /\ (published_as (in_stream st) d -> published_as (in_stream st') d')
  /\ Forall (in_outbox (core d')) (accepted st') /\ (stream_ok st -> stream_ok st').
Proof.
  intros Hi Ho Ha Hs. destruct Hs as [B c k x d' st' Hp|owner config B c k x d' st' Hp|owner config records
    |limit t w r Hlt|limit w l B c k x r d' st' Hp|limit w l r|A B c k x d' Hh].
  - destruct (task_advances _ _ _ _ _ _ _ Hi Ho Ha Hp) as [[H1 H2 _ H4 H5 H6] Ht]. split_and!; auto.
  - destruct Ha as (h & [Hc Hk] & He & Hh). pose proof (performs_ok _ _ _ _ _ _ _ Hi Ho Hc Hh Hp) as Hok.
    pose proof Hok as [H1 H2 _ H4 H5 H6]. split_and!; auto. exists (h ++ [Awaited c x]).
    split_and!; [apply Hk|apply He|by eapply events_advance].
  - destruct Ha as (h & _ & Hcl & Hh). split_and!; try done. simpl. split_and!; [lia| |constructor].
    apply Forall_forall. intros t (record & -> & Hin)%list_elem_of_fmap.
    destruct Hcl as [->|(o & l & n & Hcl)]; [set_solver|]. rewrite Forall_forall in Hh. specialize (Hh _ Hcl). simpl in Hh.
    by eapply publish_one_ok.
  - destruct Ha as (Hl & [Ht Hw]%Forall_cons & Hr). split_and!; try done. simpl. rewrite length_app. simpl.
    split_and!; [lia|done|]. apply Forall_app. split; [done|by constructor].
  - destruct Ha as (Hl & Hw & [Hr1 [Ht Hr2]%Forall_cons]%Forall_app).
    destruct (task_advances _ _ _ _ _ _ _ Hi Ho Ht Hp) as [[H1 H2 _ H4 H5 H6] Ht']. split_and!; auto. simpl.
    rewrite length_app in Hl |- *. simpl in *. split_and!; [lia|by eapply pool_ok|]. apply Forall_app.
    split; [by eapply pool_ok|]. constructor; [done|by eapply pool_ok].
  - destruct Ha as (Hl & Hw & [Hr1 [Ht Hr2]%Forall_cons]%Forall_app). split_and!; try done. simpl.
    rewrite length_app in Hl |- *. simpl in *. split_and!; [lia|done|]. by apply Forall_app.
  - assert (rtc store_step d d') as Hs by (destruct (handles_step _ _ _ _ Hh) as [->|Hstep]; [done|by apply rtc_once]).
    split_and!; [done|done|done| |by apply (stream_kept d)|done].
    + destruct Hh as [| | |probe X m y d' Hc]; [done..|]. by eapply perform_published.
Qed.

Lemma server_step_ok s s' : server_ok s -> server_step s s' -> server_ok s' /\ rtc store_step (sv_db s) (sv_db s').
Proof.
  intros (Hi & Hp & Ho & Hok & Hl) Hs. destruct Hs as [d st live a Ha|d st l a r a' d' st' Ha|d st l a r|d st st' live Hst]; simpl in *.
  - split; [|done]. split_and!; try done. apply Forall_app. split; [done|]. constructor; [by apply starts_ok|done].
  - apply Forall_app in Hl as [Hl1 [Hl2 Hl3]%Forall_cons]. destruct (advances_ok _ _ _ _ _ _ Hi Ho Hl2 Ha) as (H1 & H2 & H3 & H4 & H5 & H6).
    split; [|done]. split_and!; [by eapply history_inv|by apply H4|done|by apply H6|].
    assert (forall l, Forall (activity_ok (core d) st) l -> Forall (activity_ok (core d') st') l) as Hmono.
    { intros l' H. eapply Forall_impl; [exact H|]. intros a0. apply activity_ok_mono; [by apply history_core|done]. }
    apply Forall_app. split; [by apply Hmono|]. constructor; [done|by apply Hmono].
  - split; [|done]. split_and!; try done. apply Forall_app in Hl as [Hl1 [_ Hl3]%Forall_cons]. by apply Forall_app.
  - destruct (stream_step_ok _ _ Hst) as [HP Hok']. assert (accepted st ⊆ accepted st') as Hsub by (intros m; by rewrite HP).
    split; [|done]. split_and!; [done|by eapply published_mono|by rewrite <- HP|by apply Hok'|].
    eapply Forall_impl; [exact Hl|]. intros a. by apply activity_ok_mono.
Qed.

Lemma server_steps_ok s s' : server_ok s -> rtc server_step s s' -> server_ok s' /\ rtc store_step (sv_db s) (sv_db s').
Proof.
  intros Hok Hs. induction Hs as [s|s1 s2 s3 H1 _ IH]; [done|]. destruct (server_step_ok _ _ Hok H1) as [H2 Hh].
  destruct (IH H2) as [H3 Hh']. split; [done|by etrans].
Qed.

(** Before any dispatch is published. *)
Definition unpublished (d : DB) : Prop := forall oid o, outbox (core d) !! oid = Some o -> o_published_at o = None.

Lemma unpublished_ok d : core_inv (core d) -> unpublished d -> server_ok (mkServer d empty_stream []).
Proof. intros Hi Hu. split_and!; [done| |constructor|split; [constructor|constructor|intros m m' H; by apply elem_of_nil in H]|constructor]. intros oid o Ho [t Ht]. by rewrite (Hu oid o Ho) in Ht. Qed.

(** An attempt past its dispatch is one whose row is published. *)
Lemma attempt_dispatched c aid a :
  core_inv c -> run_attempts c !! aid = Some a -> a_status a <> APendingDispatch -> a_status a <> ADead ->
  exists oid o, outbox c !! oid = Some o /\ o_attempt_id o = aid /\ dispatched o.
Proof.
  intros [Hsh Hcp] Ha Hp Hd. destruct (inv_attempt_dispatch _ Hsh _ _ Ha) as (oid & o & Ho & Hoa).
  exists oid, o. split_and!; [done|done|]. destruct (inv_attempt_run _ Hsh _ _ Ha) as (r & Hr & Hk).
  destruct (Hcp _ r aid a oid o Hr Ha Ho eq_refl Hoa) as [H1 H2].
  destruct (decide (a_attempt a = r_attempt_count r)) as [E|E]; [|by apply H2; lia].
  specialize (H1 E). unfold coupled, unleased in H1. destruct (r_status r); destruct_and?; destruct_or?; destruct_and?; try done; congruence.
Qed.

(** C7: The transactional outbox: in every state of the running server, whatever its
    ticks, handlers and requests interleave and however often they crash, an
    attempt that left [pending_dispatch] (but by its deadline) has its message
    in the stream, under the attempt's identity and the sequence its row
    records, or had it there until an acknowledgement removed it; every message
    the stream ever stored is the dispatch of a committed row; and the stream
    stores two messages of one attempt, under sequences of their own, at least
    the duplicate window apart.  A crash or a lost acknowledgement between
    publication and mark never queues a Run without its message. *)
Theorem queued_attempts_published d s :
  core_inv (core d) -> unpublished d -> rtc server_step (mkServer d empty_stream []) s ->
  (forall aid a, run_attempts (core (sv_db s)) !! aid = Some a -> a_status a <> APendingDispatch -> a_status a <> ADead ->
     exists m oid o, (m ∈ st_held (sv_stream s) \/ m ∈ st_acknowledged (sv_stream s))
       /\ outbox (core (sv_db s)) !! oid = Some o /\ o_attempt_id o = aid
       /\ msg_id m = aid /\ msg_subject m = o_subject o /\ msg_payload m = o_payload o
       /\ o_nats_stream_sequence o = Some (msg_sequence m))
  /\ Forall (in_outbox (core (sv_db s))) (accepted (sv_stream s))
  /\ NoDup (map msg_sequence (accepted (sv_stream s)))
  /\ (forall m m', m ∈ accepted (sv_stream s) -> m' ∈ accepted (sv_stream s) -> msg_id m = msg_id m' ->
        m = m' \/ 120 * second <= Z.abs (msg_stored_at m - msg_stored_at m')).
Proof.
  intros Hi Hu Hs. destruct (server_steps_ok _ _ (unpublished_ok _ Hi Hu) Hs) as [(Hi' & Hp & Ho & [_ Hn Hw] & _) _].
  split_and!; [|done|done|exact Hw].
  intros aid a Ha H1 H2. destruct (attempt_dispatched _ _ _ Hi' Ha H1 H2) as (oid & o & Hr & Hoa & Hd & _).
  destruct (Hp oid o Hr Hd) as (n & Hn' & t & Hm). eexists _, oid, o. split; [apply elem_of_app; exact Hm|]. simpl. by split_and!.
Qed.

End Server.

(** ** Witnesses *)

Definition example_dispatcher : DispatcherConfig :=
  {| dc_batch_size := 10; dc_max_in_flight := 4; dc_claim_lease := 60 * second; dc_retry_initial := second; dc_retry_max := 60 * second |}.

(** A tick of the dispatcher that publishes the one Run waiting for it. *)
Lemma example_tick :
  rtc server_step (mkServer (d_created true) empty_stream [])
    (mkServer (d_published true) (mkStream [mkMessage (or_subject example_record) (or_payload example_record) 101 1 0] [] 1 0)
       [Pool 4 [] [Return ()]]).
Proof.
  eapply rtc_l; [exact (StepStart _ _ [] _ (StartDispatcher 7 example_dispatcher))|].
  assert (answer (claim_outbox 7 10 (60 * second)) (quiet 1010 200) (d_created true) = Ok [example_record]) as Hc by (vm_compute; reflexivity).
  eapply rtc_l.
  { refine (StepAdvance _ _ [] _ [] _ _ _ (AdvBatch _ _ 7 example_dispatcher _ _ _ _ _ (PClaimOutbox _ _ 7 10 (60 * second) _ _ _))).
    exact (Scenario.call_ok _ _ _ _ Hc). }
  eapply rtc_l; [exact (StepAdvance _ _ [] _ [] _ _ _ (AdvStream _ _ 7 example_dispatcher [example_record]))|].
  eapply rtc_l; [exact (StepAdvance _ _ [] _ [] _ _ _ (AdvStart _ _ 4 (publish_one 7 example_dispatcher example_record) [] [] eq_refl))|].
  eapply rtc_l; [exact (StepAdvance _ _ [] _ [] _ _ _ (AdvPool _ _ 4 [] [] _ _ _ [] _ _ (PPublished _ _ _ _ _)))|].
  eapply rtc_l; [|reflexivity].
  exact (StepAdvance _ _ [] _ [] _ _ _ (AdvPool _ _ 4 [] [] _ _ _ [] _ _ (PMarkPublished _ _ 7 example_record 1 _ _
    (call_after (mark_published 7 example_record 1) (quiet 1020 200) (d_claimed true))))).
Qed.

Lemma example_created_inv : core_inv (core (d_created true)).
Proof.
  eapply history_inv; [apply (catalog_inv true)|]. apply rtc_once.
  exact (SSCreateRuns _ _ _ _ _ _ _ (call_after (create_runs 50 3 (SelTarget 4) (VObject [])) (quiet 1000 100) (catalog true))).
Qed.

Lemma example_unpublished : unpublished (d_created true).
Proof.
  intros oid o H. apply elem_of_map_to_list in H. revert H.
  assert (forallb (fun kv : Uuid * OutboxRow => is_null (o_published_at kv.2)) (map_to_list (outbox (core (d_created true)))) = true) as Hf
    by (vm_compute; reflexivity).
  intros H. rewrite forallb_forall in Hf. specialize (Hf (oid, o)). simpl in Hf. destruct (o_published_at o); [|done].
  discriminate Hf. by apply list_elem_of_In.
Qed.

(** The message is published, and then acknowledged by a worker. *)
Lemma queued_attempts_published_witness :
  exists m oid o, m ∈ [mkMessage (or_subject example_record) (or_payload example_record) 101 1 0]
    /\ outbox (core (d_published true)) !! oid = Some o /\ o_attempt_id o = 101%N
    /\ o_nats_stream_sequence o = Some (msg_sequence m).
Proof.
  assert (rtc server_step (mkServer (d_created true) empty_stream [])
    (mkServer (d_published true) (mkStream [] [mkMessage (or_subject example_record) (or_payload example_record) 101 1 0] 1 0)
       [Pool 4 [] [Return ()]])) as Hs.
  { eapply rtc_r; [exact example_tick|]. apply StepStream. exact (StreamAcknowledged [] _ [] [] 1 0). }
  destruct (run_attempts (core (d_published true)) !! 101%N) as [a|] eqn:Ha; [|by vm_compute in Ha].
  assert (a_status a = AQueued) as Hq by (vm_compute in Ha; injection Ha as <-; reflexivity).
  destruct (proj1 (queued_attempts_published (d_created true) _ example_created_inv example_unpublished Hs) 101%N a Ha
    ltac:(congruence) ltac:(congruence)) as (m & oid & o & Hm & H1 & H2 & _ & _ & _ & H3).
  exists m, oid, o. split; [|split; [exact H1|split; [exact H2|exact H3]]].
  destruct Hm as [Hm|Hm]; [destruct (not_elem_of_nil _ Hm)|exact Hm].
Defined.
