(* ===== verification/Redaction.v ===== *)
(** * Redaction (services/worker/src/execution/redaction.rs)

    What a worker shows of an execution: which values count as secrets, how
    their occurrences are replaced in text, inputs and arguments, and that
    none of them is left in what is shown. *)

From S2P Require Import Prelude RustStr Json Inputs Names Domain Db Scenario.
From Stdlib Require Import Ascii String.
From stdpp Require Import base numbers strings sorting gmap list.

Local Open Scope string_scope.
Local Open Scope Z_scope.

(** ** Standard library *)

(** [str::replace]; every round consumes the pattern, which is not empty. *)
Fixpoint replace_fuel (fuel : nat) (pat to s : string) : string :=
  match fuel with
  | O => s
  | S fuel =>
      match split_once pat s with
      | Some (before, rest) => before ++ to ++ replace_fuel fuel pat to rest
      | None => s
      end
  end.

Definition replace (pat to s : string) : string := replace_fuel (String.length s) pat to s.

(** [str::split] at any of some one-byte characters. *)
Fixpoint split_any (seps : list ascii) (s : string) : list string :=
  match s with
  | EmptyString => [EmptyString]
  | String a s =>
      if existsb (Ascii.eqb a) seps then EmptyString :: split_any seps s
      else match split_any seps s with
      | [] => [String a EmptyString]
      | piece :: pieces => String a piece :: pieces
      end
  end.

Definition newline : ascii := "010"%char.
Definition carriage_return : ascii := "013"%char.

(** [str::lines]: a terminated line loses one carriage return, an unterminated one none. *)
Fixpoint lines_of (pieces : list string) : list string :=
  match pieces with
  | [] => []
  | [last] => if (last =? "")%string then [] else [last]
  | line :: pieces => match strip_last carriage_return line with Some l => l | None => line end :: lines_of pieces
  end.

Definition lines (s : string) : list string := lines_of (split_any [newline] s).

(** [str::split_whitespace]: [word] is the word being read. *)
Fixpoint words_fuel (fuel : nat) (word s : string) : list string :=
  let flush := if (word =? "")%string then [] else [word] in
  match fuel with
  | O => flush
  | S fuel =>
      match next_char s with
      | None => flush
      | Some (c, rest) =>
          if is_whitespace c then (flush ++ words_fuel fuel "" rest)%list
          else words_fuel fuel (word ++ before s rest) rest
      end
  end.

Definition split_whitespace (s : string) : list string := words_fuel (S (String.length s)) "" s.

(** [char::to_lowercase] of an ASCII letter. *)
Definition lowercase (a : ascii) : ascii :=
  if is_ascii_uppercase (byte_of a) then ascii_of_N (N_of_ascii a + 32) else a.

(** [sort_by] with the longer first, then the smaller; [dedup]. *)
Definition longer_first (a b : string) : bool :=
  (slen b <? slen a) || ((slen a =? slen b) && negb (string_ltb b a)).

Fixpoint dedup (l : list string) : list string :=
  match l with
  | a :: l' => match dedup l' with
               | b :: r => if (a =? b)%string then b :: r else a :: b :: r
               | [] => [a]
               end
  | [] => []
  end.

(** ** Which keys and values are sensitive *)

Definition needles : list string :=
  ["password"; "passwd"; "secret"; "token"; "apikey"; "authorization"; "credential"; "privatekey"].

Definition normalized (key : string) : string :=
  string_of_list_ascii (map lowercase
    (List.filter (fun a => is_ascii_alphanumeric (byte_of a)) (list_ascii_of_string key))).

Definition sensitive_key (key : string) : bool :=
  existsb (fun needle => contains needle (normalized key)) needles.

Definition starts_with_dash (s : string) : bool := String.prefix "-" s.

Definition sensitive_switch (s : string) : bool :=
  starts_with_dash s
  && negb (existsb (fun c => contains_byte c s) ["="%char; ":"%char; "/"%char; "?"%char; " "%char])
  && sensitive_key s.

Definition collect_secret_text (s : string) : list string :=
  if (s =? "")%string then []
  else s :: List.filter (fun line => negb (line =? "")%string) (lines s).

(** The secrets of one argument that no switch announces. *)
Definition argument_secrets (argument : string) : list string :=
  (List.concat (map (fun part =>
     match split_once "=" part with
     | Some (key, v) => if sensitive_key key then collect_secret_text v else []
     | None => []
     end) (split_any ["?"%char; "&"%char] argument))
   ++ match split_once ":" argument with
      | Some (key, v) =>
          if sensitive_key key
          then collect_secret_text (trim v)
               ++ match last (split_whitespace v) with Some w => collect_secret_text w | None => [] end
          else []
      | None => []
      end)%list.

Fixpoint collect_argument_secrets (next_is_secret : bool) (arguments : list string) : list string :=
  match arguments with
  | [] => []
  | argument :: arguments =>
      if next_is_secret then (collect_secret_text argument ++ collect_argument_secrets false arguments)%list
      else (argument_secrets argument ++ collect_argument_secrets (sensitive_switch argument) arguments)%list
  end.

Definition redacted : string := "<redacted>".

Section Redactor.
Context {SJ : SerdeJson}.

Fixpoint collect_secrets (v : value) (inherited : bool) : list string :=
  match v with
  | VObject m => (fix members (m : list (string * value)) : list string :=
      match m with
      | [] => []
      | (key, child) :: m => (collect_secrets child (inherited || sensitive_key key) ++ members m)%list
      end) m
  | VArray l => (fix elements (l : list value) : list string :=
      match l with
      | [] => []
      | child :: l => (collect_secrets child inherited ++ elements l)%list
      end) l
  | VString s => if inherited then collect_secret_text s else []
  | VNumber n => if inherited then [number_to_string n] else []
  | VBool b => if inherited then [if b then "true" else "false"] else []
  | VNull => []
  end.

(** [Redactor::from_inputs_and_arguments] *)
Definition from_inputs_and_arguments (inputs : value) (arguments : list string) : list string :=
  dedup (sort_by longer_first (collect_secrets inputs false ++ collect_argument_secrets false arguments)%list).

(** [Redactor::text] *)
Definition redact_text (secrets : list string) (s : string) : string :=
  foldl (fun safe secret => replace secret redacted safe) s secrets.

(** [Redactor::values] *)
Fixpoint redact_values (secrets : list string) (inputs : value) : value :=
  match inputs with
  | VObject m => VObject (map (fun kv : string * value =>
      (kv.1, if sensitive_key kv.1 then VString redacted else redact_values secrets kv.2)) m)
  | VArray l => VArray (map (redact_values secrets) l)
  | VString s => VString (redact_text secrets s)
  | v => v
  end.

(** One argument of [Redactor::arguments]: what is shown, and whether it announces a secret. *)
Definition redact_argument (secrets : list string) (argument : string) : string * bool :=
  let safe := redact_text secrets argument in
  let other :=
    let plain := if sensitive_switch safe then (safe, true)
                 else if sensitive_key safe then (redacted, false) else (safe, false) in
    match split_once ":" safe with
    | Some (key, _) => if sensitive_key key then (key ++ ": <redacted>", false) else plain
    | None => plain
    end in
  match split_once "=" safe with
  | Some (key, _) => if sensitive_key key then (key ++ "=<redacted>", false) else other
  | None => other
  end.

Fixpoint redact_arguments (secrets : list string) (hide_next : bool) (arguments : list string) : list string :=
  match arguments with
  | [] => []
  | argument :: arguments =>
      if hide_next then redacted :: redact_arguments secrets false arguments
      else let '(shown, hide) := redact_argument secrets argument in
           shown :: redact_arguments secrets hide arguments
  end.

(** The values the source's tests expect. *)
Example hides_arguments :
  redact_arguments ["foo"; "bar"] false
    ["hello world"; "Bearer bar"; "--password=foo"; "Authorization: Bearer literal"; "--token"; "literal";
     "--url=https://example.test/?token=literal"]
  = ["hello world"; "Bearer <redacted>"; "--password=<redacted>"; "Authorization: <redacted>"; "--token"; "<redacted>"; "<redacted>"].
Proof. reflexivity. Qed.

Example hides_echoed_literals :
  from_inputs_and_arguments (VObject []) ["--token"; "literal"; "--url=https://example.test/?api_key=querysecret"]
  = ["querysecret"; "literal"].
Proof. reflexivity. Qed.

Example hides_lines :
  from_inputs_and_arguments (VObject [("ssh_private_key", VString ("first-line" ++ String newline "second-line"))]) []
  = ["first-line" ++ String newline "second-line"; "second-line"; "first-line"].
Proof. reflexivity. Qed.

(** ** Occurrences *)

Fixpoint occurs (p s : string) : bool :=
  String.prefix p s || match s with EmptyString => false | String _ s' => occurs p s' end.

Lemma contains_occurs p s : contains p s = occurs p s.
Proof.
  unfold contains. induction s as [|a s IH]; [by destruct p|]. cbn [split_once occurs].
  destruct (String.prefix p (String a s)); [done|]. rewrite <- IH. simpl. by destruct (split_once p s) as [[]|].
Qed.

Lemma prefix_nil_r p : String.prefix p "" = true -> p = "".
Proof. by destruct p. Qed.

Lemma prefix_sep (c : ascii) p x y :
  contains_byte c p = false -> String.prefix p (x ++ String c y) = true -> String.prefix p x = true.
Proof.
  revert x. induction p as [|a p IH]; intros x Hc H; [by destruct x|]. rewrite contains_byte_cons, orb_false_iff in Hc.
  destruct Hc as [Ha Hc]. destruct x as [|b x]; simpl in *.
  - destruct (ascii_dec a c) as [->|]; [by rewrite Ascii.eqb_refl in Ha|done].
  - destruct (ascii_dec a b); [by apply IH|done].
Qed.

(** A text without [c] lies on one side of it. *)
Lemma occurs_sep (c : ascii) p x y :
  contains_byte c p = false -> occurs p (x ++ String c y) = true -> occurs p x = true \/ occurs p y = true.
Proof.
  intros Hc. induction x as [|b x IH].
  - change ("" ++ String c y) with (String c y). cbn [occurs]. intros [H|H]%orb_true_iff; [|by right].
    left. rewrite (prefix_sep c p "" y Hc H). done.
  - change (String b x ++ String c y) with (String b (x ++ String c y)). cbn [occurs]. intros [H|H]%orb_true_iff.
    + left. by rewrite (prefix_sep c p (String b x) y Hc H).
    + destruct (IH H) as [H'|H']; [left; rewrite H'; apply orb_true_r|by right].
Qed.

Lemma prefix_app p x y : String.prefix p x = true -> String.prefix p (x ++ y) = true.
Proof.
  revert x. induction p as [|a p IH]; intros x H; [by destruct (x ++ y)|]. destruct x as [|b x]; [done|].
  simpl in *. destruct (ascii_dec a b); [by apply IH|done].
Qed.

Lemma occurs_app_l p x y : occurs p x = true -> occurs p (x ++ y) = true.
Proof.
  induction x as [|b x IH]; cbn [occurs].
  - rewrite orb_false_r. intros ->%prefix_nil_r. by destruct y.
  - change (String b x ++ y) with (String b (x ++ y)). cbn [occurs].
    intros [H|H]%orb_true_iff; apply orb_true_iff; [left; exact (prefix_app _ (String b x) y H)|right; by apply IH].
Qed.

Lemma occurs_app_r p x y : occurs p y = true -> occurs p (x ++ y) = true.
Proof. intros H. induction x as [|b x IH]; [done|]. simpl. rewrite IH. apply orb_true_r. Qed.

(** Nothing before the first occurrence. *)
Lemma split_once_first p s a q : p <> "" -> split_once p s = Some (a, q) -> occurs p a = false.
Proof.
  intros Hp. revert a q. induction s as [|c s IH]; intros a q H; cbn [split_once] in H.
  - destruct (String.prefix p "") eqn:E; [by apply prefix_nil_r in E|done].
  - pose proof (split_once_app p (String c s)) as Happ. cbn [split_once] in Happ.
    destruct (String.prefix p (String c s)) eqn:E; [injection H as <- <-; by destruct p|].
    destruct (split_once p s) as [[a' q']|] eqn:Es; [|done]. injection H as <- <-.
    cbn [occurs]. apply orb_false_iff. split; [|by eapply IH]. specialize (Happ _ _ eq_refl).
    destruct (String.prefix p (String c a')) eqn:E'; [|done].
    rewrite Happ, (prefix_app p (String c a') (p ++ q') E') in E. done.
Qed.

(** ** What replacing leaves *)

(** A text that no marker can contain or complete. *)
Definition plain (p : string) : bool :=
  negb (p =? "")%string && negb (contains_byte "<"%char p) && negb (contains_byte ">"%char p) && negb (contains p "redacted").

Lemma plain_spec p :
  plain p = true -> p <> "" /\ contains_byte "<"%char p = false /\ contains_byte ">"%char p = false /\ occurs p "redacted" = false.
Proof.
  unfold plain. rewrite !andb_true_iff, !negb_true_iff, contains_occurs. intros [[[H1%String.eqb_neq H2] H3] H4]. done.
Qed.

(** A plain text around a marker lies before or after it. *)
Lemma occurs_marker p x y :
  plain p = true -> occurs p (x ++ redacted ++ y) = true -> occurs p x = true \/ occurs p y = true.
Proof.
  intros (_ & H1 & H2 & H3)%plain_spec H. change (redacted ++ y) with (String "<" ("redacted" ++ String ">" y)) in H.
  apply occurs_sep in H as [H|H]; [by left| |done]. apply occurs_sep in H as [H|H]; [congruence|by right|done].
Qed.

(** Replacing brings no plain text about. *)
Lemma replace_fragment fuel p pat s :
  plain p = true -> occurs p (replace_fuel fuel pat redacted s) = true -> occurs p s = true.
Proof.
  intros Hp. revert s. induction fuel as [|fuel IH]; intros s H; [done|]. cbn [replace_fuel] in H.
  destruct (split_once pat s) as [[a q]|] eqn:E; [|done]. apply split_once_app in E as ->.
  apply occurs_marker in H as [H|H]; [by apply occurs_app_l| |done]. by apply occurs_app_r, occurs_app_r, IH.
Qed.

Lemma replace_removes fuel p s :
  plain p = true -> (String.length s <= fuel)%nat -> occurs p (replace_fuel fuel p redacted s) = false.
Proof.
  intros Hp. revert s. induction fuel as [|fuel IH]; intros s Hl; destruct (plain_spec _ Hp) as (Hne & _).
  - destruct s; [by destruct p|simpl in Hl; lia].
  - cbn [replace_fuel]. destruct (split_once p s) as [[a q]|] eqn:E.
    + destruct (occurs p (a ++ redacted ++ replace_fuel fuel p redacted q)) eqn:H; [|done].
      apply occurs_marker in H as [H|H]; [| |done].
      * by rewrite (split_once_first _ _ _ _ Hne E) in H.
      * rewrite IH in H; [done|]. pose proof (split_once_length _ _ _ _ E). destruct p; [done|simpl in *; lia].
    + rewrite <- contains_occurs. unfold contains. by rewrite E.
Qed.

Lemma redact_text_keeps p secrets s : plain p = true -> occurs p s = false -> occurs p (redact_text secrets s) = false.
Proof.
  intros Hp. unfold redact_text. revert s. induction secrets as [|x l IH]; intros s H; simpl; [done|]. apply IH.
  destruct (occurs p (replace x redacted s)) eqn:E; [|done]. apply replace_fragment in E; [congruence|done].
Qed.

Lemma redact_text_hides p secrets s : p ∈ secrets -> plain p = true -> occurs p (redact_text secrets s) = false.
Proof.
  intros Hin Hp. revert s. induction secrets as [|x l IH]; intros s; [by apply elem_of_nil in Hin|].
  unfold redact_text. simpl. fold (redact_text l (replace x redacted s)).
  apply elem_of_cons in Hin as [<-|Hin]; [|by apply IH]. apply redact_text_keeps; [done|]. by apply replace_removes.
Qed.

(** ** Which texts are secret *)

(** What the leaves below a sensitive key hold: a text and each of its lines, a number, a flag. *)
Inductive secret_leaf : bool -> value -> string -> Prop :=
| LeafText s : s <> "" -> secret_leaf true (VString s) s
| LeafLine s line : s <> "" -> line ∈ lines s -> line <> "" -> secret_leaf true (VString s) line
| LeafNumber n : secret_leaf true (VNumber n) (number_to_string n)
| LeafBool (b : bool) : secret_leaf true (VBool b) (if b then "true" else "false")
| LeafMember inherited m key child leaf :
    (key, child) ∈ m -> secret_leaf (inherited || sensitive_key key) child leaf -> secret_leaf inherited (VObject m) leaf
| LeafElement inherited l child leaf : child ∈ l -> secret_leaf inherited child leaf -> secret_leaf inherited (VArray l) leaf.

Lemma collect_secret_text_in s line :
  s <> "" -> line = s \/ line ∈ lines s /\ line <> "" -> line ∈ collect_secret_text s.
Proof.
  intros Hs H. unfold collect_secret_text. apply String.eqb_neq in Hs as ->. rewrite elem_of_cons.
  destruct H as [->|[H1 H2]]; [by left|right]. apply list_elem_of_In, filter_In. split; [by apply list_elem_of_In|].
  by apply negb_true_iff, String.eqb_neq.
Qed.

Lemma collect_secrets_in inherited v leaf : secret_leaf inherited v leaf -> leaf ∈ collect_secrets v inherited.
Proof.
  induction 1 as [s Hs|s line Hs Hl Hne|n|b|inherited m key child leaf Hin _ IH|inherited l child leaf Hin _ IH].
  - apply collect_secret_text_in; [done|by left].
  - apply collect_secret_text_in; [done|by right].
  - simpl. set_solver.
  - simpl. set_solver.
  - cbn [collect_secrets]. induction m as [|[k x] m IHm]; [by apply elem_of_nil in Hin|]. apply elem_of_app.
    apply elem_of_cons in Hin as [[= <- <-]|Hin]; [by left|right; auto].
  - cbn [collect_secrets]. induction l as [|x l IHl]; [by apply elem_of_nil in Hin|]. apply elem_of_app.
    apply elem_of_cons in Hin as [<-|Hin]; [by left|right; auto].
Qed.

Lemma dedup_in x l : x ∈ dedup l <-> x ∈ l.
Proof.
  induction l as [|a l IH]; [done|]. cbn [dedup]. rewrite (elem_of_cons l), <- IH. destruct (dedup l) as [|b r]; [set_solver|].
  destruct (String.eqb_spec a b) as [->|]; rewrite !elem_of_cons; tauto.
Qed.

Lemma redactor_secrets inputs arguments leaf :
  leaf ∈ from_inputs_and_arguments inputs arguments
  <-> leaf ∈ collect_secrets inputs false \/ leaf ∈ collect_argument_secrets false arguments.
Proof. unfold from_inputs_and_arguments. by rewrite dedup_in, elem_of_sort_by, elem_of_app. Qed.

(** ** What is shown *)

(** The texts of a value; keys are not values. *)
Inductive text_of : value -> string -> Prop :=
| TextString s : text_of (VString s) s
| TextMember m key child s : (key, child) ∈ m -> text_of child s -> text_of (VObject m) s
| TextElement l child s : child ∈ l -> text_of child s -> text_of (VArray l) s.

(** A member of an object, at any depth. *)
Inductive member_of : value -> string -> value -> Prop :=
| MemberHere m key child : (key, child) ∈ m -> member_of (VObject m) key child
| MemberInside m k child key v : (k, child) ∈ m -> member_of child key v -> member_of (VObject m) key v
| MemberElement l child key v : child ∈ l -> member_of child key v -> member_of (VArray l) key v.

Lemma redact_values_masks secrets key child : sensitive_key key = true ->
  forall v, member_of (redact_values secrets v) key child -> child = VString redacted.
Proof.
  intros Hk v. induction v as [| | |x|l IH|m IH] using value_nested_ind; intros H; try (by inversion H).
  - inversion H as [| |? c ? ? Hc Hm]; subst. apply list_elem_of_fmap in Hc as (x & -> & Hx). rewrite Forall_forall in IH. by eapply IH.
  - inversion H as [? ? ? Hc|? k c ? ? Hc Hm|]; subst; apply list_elem_of_fmap in Hc as ([k' x] & [= -> ->] & Hx); simpl in *.
    + by rewrite Hk.
    + destruct (sensitive_key k'); [by inversion Hm|]. rewrite Forall_forall in IH. by eapply (IH (k', x)).
Qed.

Lemma plain_marker p : plain p = true -> occurs p redacted = false.
Proof.
  intros Hp. destruct (plain_spec _ Hp) as (Hne & _). destruct (occurs p redacted) eqn:E; [|done].
  apply (occurs_marker p "" "" Hp) in E as [E|E]; simpl in E; rewrite orb_false_r in E; by apply prefix_nil_r in E.
Qed.

Lemma redact_values_hides p secrets v : p ∈ secrets -> plain p = true ->
  forall s, text_of (redact_values secrets v) s -> occurs p s = false.
Proof.
  intros Hin Hp. induction v as [| | |x|l IH|m IH] using value_nested_ind; intros s H; try (by inversion H).
  - inversion H; subst. by apply redact_text_hides.
  - inversion H as [| |? child ? Hc Ht]; subst. apply list_elem_of_fmap in Hc as (x & -> & Hx).
    rewrite Forall_forall in IH. by eapply IH.
  - inversion H as [|? key child ? Hc Ht|]; subst. apply list_elem_of_fmap in Hc as ([k x] & [= -> ->] & Hx). simpl in Ht.
    destruct (sensitive_key k); [inversion Ht; subst; by apply plain_marker|].
    rewrite Forall_forall in IH. by eapply (IH (k, x)).
Qed.

Lemma occurs_masked p key suffix y :
  plain p = true -> occurs p (key ++ suffix ++ redacted) = true -> occurs p ((key ++ suffix) ++ y) = true.
Proof.
  intros Hp H. rewrite string_app_assoc in H. rewrite <- (string_app_nil_r redacted) in H.
  apply occurs_marker in H as [H|H]; [by apply occurs_app_l| |done].
  destruct (plain_spec _ Hp) as (Hne & _). simpl in H. rewrite orb_false_r in H. by apply prefix_nil_r in H.
Qed.

Lemma redact_argument_hides p secrets argument :
  p ∈ secrets -> plain p = true -> contains_byte ":"%char p = false -> contains_byte " "%char p = false ->
  occurs p (redact_argument secrets argument).1 = false.
Proof.
  intros Hin Hp Hcolon Hblank. unfold redact_argument. set (safe := redact_text secrets argument).
  pose proof (redact_text_hides p secrets argument Hin Hp) as Hsafe. fold safe in Hsafe. destruct (plain_spec _ Hp) as (Hne & _).
  assert (occurs p (if sensitive_switch safe then (safe, true) else if sensitive_key safe then (redacted, false) else (safe, false)).1 = false) as Hplain.
  { destruct (sensitive_switch safe); [done|]. destruct (sensitive_key safe); [by apply plain_marker|done]. }
  assert (occurs p match split_once ":" safe with
    | Some (key, _) => if sensitive_key key then (key ++ ": <redacted>", false)
        else if sensitive_switch safe then (safe, true) else if sensitive_key safe then (redacted, false) else (safe, false)
    | None => if sensitive_switch safe then (safe, true) else if sensitive_key safe then (redacted, false) else (safe, false)
    end.1 = false) as Hother.
  { destruct (split_once ":" safe) as [[key v]|] eqn:E; [|done]. destruct (sensitive_key key); [|done]. simpl.
    destruct (occurs p (key ++ ": <redacted>")) eqn:H; [|done]. apply split_once_app in E.
    apply (occurs_sep ":"%char) in H as [H|H]; [| |done].
    - rewrite E in Hsafe. by rewrite (occurs_app_l _ _ _ H) in Hsafe.
    - apply (occurs_sep " "%char p "") in H as [H|H]; [| |done].
      + simpl in H. rewrite orb_false_r in H. by apply prefix_nil_r in H.
      + by rewrite plain_marker in H. }
  destruct (split_once "=" safe) as [[key v]|] eqn:E; [|exact Hother]. destruct (sensitive_key key); [|exact Hother]. simpl.
  destruct (occurs p (key ++ "=<redacted>")) eqn:H; [|done]. apply split_once_app in E.
  apply (occurs_masked p key "=" v Hp) in H. rewrite E, string_app_assoc, H in Hsafe. done.
Qed.

Lemma redact_arguments_hides p secrets arguments hide :
  p ∈ secrets -> plain p = true -> contains_byte ":"%char p = false -> contains_byte " "%char p = false ->
  Forall (fun shown => occurs p shown = false) (redact_arguments secrets hide arguments).
Proof.
  intros Hin Hp Hc Hb. revert hide. induction arguments as [|argument arguments IH]; intros hide; simpl; [constructor|].
  destruct hide; [constructor; [by apply plain_marker|apply IH]|].
  pose proof (redact_argument_hides p secrets argument Hin Hp Hc Hb) as H. destruct (redact_argument secrets argument) as [shown next].
  constructor; [exact H|apply IH].
Qed.

(** C9: What a worker shows of an execution.  In the redacted inputs every member
    with a sensitive key, at any depth, is the marker and nothing else.  Every
    text, line, number or flag below a sensitive key of the inputs is collected,
    and no redacted text (output lines, errors, commands), no text of the
    redacted inputs and no redacted argument contains it, whatever the other
    secrets are and in whichever order they are replaced, with these
    exceptions: a secret that contains an angle bracket or is part of the
    marker, and, in arguments, one with a colon or a blank.  Only texts of the
    redacted inputs are rewritten: a number or a flag under another key stays,
    also when it repeats a secret ([number_beside_secret]). *)
Theorem redaction_hides_secrets inputs arguments leaf :
  secret_leaf false inputs leaf -> plain leaf = true ->
  let secrets := from_inputs_and_arguments inputs arguments in
  (forall text, contains leaf (redact_text secrets text) = false)
  /\ (forall shown key child, member_of (redact_values secrets shown) key child -> sensitive_key key = true ->
      child = VString redacted)
  /\ (forall shown text, text_of (redact_values secrets shown) text -> contains leaf text = false)
  /\ (contains_byte ":"%char leaf = false -> contains_byte " "%char leaf = false ->
      forall shown hide, Forall (fun text => contains leaf text = false) (redact_arguments secrets hide shown)).
Proof.
  intros Hl Hp secrets. assert (leaf ∈ secrets) as Hin by (apply redactor_secrets; left; by apply collect_secrets_in).
  split_and!.
  - intros text. rewrite contains_occurs. by apply redact_text_hides.
  - intros shown key child Hm Hk. by eapply redact_values_masks.
  - intros shown text H. rewrite contains_occurs. by eapply redact_values_hides.
  - intros Hc Hb shown hide. eapply Forall_impl; [by apply (redact_arguments_hides leaf secrets shown hide)|].
    intros x. by rewrite contains_occurs.
Qed.

End Redactor.

(** ** Witnesses *)

Definition example_inputs : value := VObject [("name", VString "world"); ("nested", VObject [("VAULT_TOKEN", VString "s3cr3t")])].

(** A number that repeats a secret under another key is shown. *)
Example number_beside_secret :
  let inputs := VObject [("password", VNumber (PosInt 1234)); ("port", VNumber (PosInt 1234))] in
  redact_values (from_inputs_and_arguments inputs []) inputs
  = VObject [("password", VString "<redacted>"); ("port", VNumber (PosInt 1234))].
Proof. reflexivity. Qed.

(** The child echoes the secret twice, once inside a word. *)
Lemma redaction_hides_secrets_witness :
  redact_text (from_inputs_and_arguments example_inputs []) "token s3cr3t in s3cr3ts" = "token <redacted> in <redacted>s"
  /\ contains "s3cr3t" (redact_text (from_inputs_and_arguments example_inputs []) "token s3cr3t in s3cr3ts") = false.
Proof.
  split; [reflexivity|].
  refine (proj1 (redaction_hides_secrets example_inputs [] "s3cr3t" _ eq_refl) _).
  apply (LeafMember false _ "nested" (VObject [("VAULT_TOKEN", VString "s3cr3t")])); [right; left|].
  apply (LeafMember _ _ "VAULT_TOKEN" (VString "s3cr3t")); [left|]. by apply LeafText.
Defined.
