(* ===== verification/ExecutionOutput.v ===== *)
(** * Output of an execution (execution/runner.rs, execution/live.rs)

    How a worker drains a child's pipe: bytes to lines, lossy decoding,
    redaction, the bounded tail a completion carries and the bounded live
    snapshots it uploads. *)

From S2P Require Import Prelude RustStr Json Inputs Names Text Domain Db Snapshot Store Scenario Redaction.
From Stdlib Require Import Ascii String.
From stdpp Require Import base numbers strings sorting gmap list.

Local Open Scope string_scope.
Local Open Scope Z_scope.

(** ** [String::from_utf8_lossy] *)

Definition byte_in (lo hi : Z) (a : ascii) : bool := in_range lo hi (byte_of a).

Definition replacement : string := String "239" (String "191" (String "189" "")).

(** The second byte a first byte of a longer sequence allows. *)
Definition second_ok (first second : ascii) : bool :=
  let b := byte_of first in
  if b =? 224 then byte_in 160 191 second
  else if b =? 237 then byte_in 128 159 second
  else if b =? 240 then byte_in 144 191 second
  else if b =? 244 then byte_in 128 143 second
  else byte_in 128 191 second.

(** The bytes that follow the first one: how many it announces. *)
Definition announced (first : ascii) : nat :=
  if byte_in 194 223 first then 1 else if byte_in 224 239 first then 2 else if byte_in 240 244 first then 3 else 0.

(** The longest valid start of a sequence, after its first byte: what it reads and whether it is complete. *)
Fixpoint continuation (missing : nat) (ok : ascii -> bool) (s : string) : string * bool :=
  match missing with
  | O => ("", true)
  | S missing =>
      match s with
      | String a s =>
          if ok a then let '(rest, complete) := continuation missing (byte_in 128 191) s in (String a rest, complete)
          else ("", false)
      | EmptyString => ("", false)
      end
  end.

Fixpoint lossy_fuel (fuel : nat) (s : string) : string :=
  match fuel, s with
  | S fuel, String a s =>
      if byte_of a <? 128 then String a (lossy_fuel fuel s)
      else match announced a with
      | O => replacement ++ lossy_fuel fuel s
      | n =>
          let '(read, complete) := continuation n (second_ok a) s in
          let rest := drop_bytes (String.length read) s in
          (if complete then String a read else replacement) ++ lossy_fuel fuel rest
      end
  | _, _ => ""
  end.

Definition from_utf8_lossy (bytes : string) : string := lossy_fuel (String.length bytes) bytes.

(** An incomplete sequence, a surrogate and a lone continuation byte. *)
Example lossy_examples :
  map from_utf8_lossy ["caf" ++ String "195" (String "169" ""); "a" ++ String "226" (String "130" "b");
                       String "237" (String "160" (String "128" "")); String "128" "x"]
  = ["caf" ++ String "195" (String "169" ""); "a" ++ replacement ++ "b";
     replacement ++ replacement ++ replacement; replacement ++ "x"].
Proof. reflexivity. Qed.

(** The text from the first boundary that leaves at most [limit] bytes. *)
Definition keep_last (limit : nat) (s : string) : string :=
  if (limit <? String.length s)%nat
  then drop_bytes (next_boundary (S (String.length s)) s (String.length s - limit)) s
  else s.

(** ** Lines *)

Definition OUTPUT_LIMIT : Z := 65536.

Definition omitted_line : string := "[output line exceeded 64 KiB; content omitted]".
Definition omitted_decoded : string := "[decoded output line exceeded 64 KiB; content omitted]".

(** What [emit_line] shows of a line. *)
Definition shown_line (secrets : list string) (bytes : string) (oversized : bool) : string :=
  let decoded := if oversized then omitted_line else redact_text secrets (from_utf8_lossy bytes) in
  if OUTPUT_LIMIT <? slen decoded then omitted_decoded else trim_end_matches carriage_return decoded.

(** The locals of [read_output]; [rd_events] are the lines it has emitted. *)
Record Reader : Type := mkReader { rd_tail : string; rd_line : string; rd_oversized : bool; rd_events : list string }.

Definition emit_line (secrets : list string) (terminated : bool) (r : Reader) : Reader :=
  let line := shown_line secrets (rd_line r) (rd_oversized r) in
  {| rd_tail := keep_last (Z.to_nat OUTPUT_LIMIT) (rd_tail r ++ line ++ if terminated then String newline "" else "");
     rd_line := ""; rd_oversized := false; rd_events := (rd_events r ++ [line])%list |}.

(** One byte of a chunk. *)
Definition read_byte (secrets : list string) (r : Reader) (byte : ascii) : Reader :=
  if Ascii.eqb byte newline then emit_line secrets true r
  else if rd_oversized r then r
  else if slen (rd_line r) <? OUTPUT_LIMIT
  then {| rd_tail := rd_tail r; rd_line := rd_line r ++ String byte ""; rd_oversized := false; rd_events := rd_events r |}
  else {| rd_tail := rd_tail r; rd_line := ""; rd_oversized := true; rd_events := rd_events r |}.

Definition read_chunk (secrets : list string) (r : Reader) (chunk : string) : Reader :=
  foldl (read_byte secrets) r (list_ascii_of_string chunk).

(** [read_output] on the chunks the pipe delivers: its tail and the lines it emits. *)
Definition read_output (secrets : list string) (chunks : list string) : string * list string :=
  let r := foldl (read_chunk secrets) (mkReader "" "" false []) chunks in
  let r := if negb (rd_line r =? "")%string || rd_oversized r then emit_line secrets false r else r in
  (rd_tail r, rd_events r).

(** ** The dry run's command *)

Definition marker : string := String newline "[command truncated]".

(** [while !line.is_char_boundary(end) { end -= 1 }] *)
Fixpoint boundary_before (s : string) (i : nat) : nat :=
  if is_char_boundary s i then i else match i with O => O | S i => boundary_before s i end.

Definition bounded_command_prefix (line : string) : string :=
  if slen line <=? OUTPUT_LIMIT then line
  else
    let end_ := boundary_before line (Z.to_nat OUTPUT_LIMIT - String.length marker) in
    substring 0 end_ line ++ marker.

(** ** Live snapshots *)

Definition LIVE_TAIL_BYTES : Z := 16384.

Record Tails : Type := mkTails { tl_revision : Z; tl_stdout : string; tl_stderr : string }.

Definition tails_default : Tails := mkTails 0 "" "".

(** [LiveOutput::emit] on a line of either stream. *)
Definition live_emit (t : Tails) (stderr : bool) (line : string) : Tails :=
  let extend s := keep_last (Z.to_nat LIVE_TAIL_BYTES) (s ++ line ++ String newline "") in
  {| tl_revision := saturate 0 u64_max (tl_revision t + 1);
     tl_stdout := if stderr then tl_stdout t else extend (tl_stdout t);
     tl_stderr := if stderr then extend (tl_stderr t) else tl_stderr t |}.

(** ** What is read: a reference *)

(** The lines of a text one by one; the last one is not terminated. *)
Fixpoint emit_pieces (secrets : list string) (pieces : list string) (tail : string) (events : list string) : string * list string :=
  match pieces with
  | [] => (tail, events)
  | piece :: pieces =>
      let last := match pieces with [] => true | _ => false end in
      if last && (piece =? "")%string then (tail, events)
      else
        let line := shown_line secrets (if OUTPUT_LIMIT <? slen piece then "" else piece) (OUTPUT_LIMIT <? slen piece) in
        emit_pieces secrets pieces
          (keep_last (Z.to_nat OUTPUT_LIMIT) (tail ++ line ++ if last then "" else String newline ""))
          (events ++ [line])%list
  end.

Definition output_spec (secrets : list string) (output : string) : string * list string :=
  emit_pieces secrets (split_any [newline] output) "" [].

(** ** Lemmas: pieces *)

Lemma split_any_nonempty seps s : split_any seps s <> [].
Proof. destruct s as [|a s]; simpl; [done|]. destruct (existsb _ _); [done|]. by destruct (split_any seps s). Qed.

(** The first piece continues a text without separators. *)
Lemma split_any_app cur s :
  contains_byte newline cur = false ->
  split_any [newline] (cur ++ s)
  = match split_any [newline] s with [] => [cur] | piece :: pieces => (cur ++ piece) :: pieces end.
Proof.
  induction cur as [|a cur IH]; intros Hc.
  - change ("" ++ s) with s. destruct (split_any [newline] s) eqn:E; [by apply split_any_nonempty in E|done].
  - rewrite contains_byte_cons, orb_false_iff in Hc. destruct Hc as [Ha Hc].
    change (String a cur ++ s) with (String a (cur ++ s)). cbn [split_any existsb]. rewrite Ha, orb_false_r.
    rewrite IH by done. by destruct (split_any [newline] s).
Qed.

(** ** Lemmas: the reader *)

(** The state of the reader within a line that has read [cur]. *)
Definition reading (tail cur : string) (events : list string) : Reader :=
  let over := OUTPUT_LIMIT <? slen cur in mkReader tail (if over then "" else cur) over events.

Lemma slen_snoc s a : slen (s ++ String a "") = slen s + 1.
Proof. by rewrite slen_app. Qed.

Lemma read_byte_within secrets tail cur events a :
  Ascii.eqb a newline = false -> read_byte secrets (reading tail cur events) a = reading tail (cur ++ String a "") events.
Proof.
  intros Ha. unfold read_byte. rewrite Ha. unfold reading. rewrite slen_snoc.
  destruct (Z.ltb_spec OUTPUT_LIMIT (slen cur)); simpl.
  - destruct (Z.ltb_spec OUTPUT_LIMIT (slen cur + 1)); [done|lia].
  - destruct (Z.ltb_spec (slen cur) OUTPUT_LIMIT), (Z.ltb_spec OUTPUT_LIMIT (slen cur + 1)); try lia; done.
Qed.

Lemma read_newline secrets tail cur events :
  read_byte secrets (reading tail cur events) newline = emit_line secrets true (reading tail cur events).
Proof. unfold read_byte. by rewrite Ascii.eqb_refl. Qed.

Definition finish_reading (secrets : list string) (r : Reader) : string * list string :=
  let r := if negb (rd_line r =? "")%string || rd_oversized r then emit_line secrets false r else r in
  (rd_tail r, rd_events r).

Lemma finish_within secrets tail cur events :
  finish_reading secrets (reading tail cur events) = emit_pieces secrets [cur] tail events.
Proof.
  unfold finish_reading, reading. cbn [emit_pieces andb]. destruct (Z.ltb_spec OUTPUT_LIMIT (slen cur)) as [H|H]; simpl.
  - destruct (String.eqb_spec cur "") as [->|]; [unfold slen, OUTPUT_LIMIT in H; simpl in H; lia|done].
  - rewrite orb_false_r. by destruct (cur =? "")%string.
Qed.

Lemma read_pieces secrets bytes : forall tail cur events,
  contains_byte newline cur = false ->
  finish_reading secrets (foldl (read_byte secrets) (reading tail cur events) (list_ascii_of_string bytes))
  = emit_pieces secrets (split_any [newline] (cur ++ bytes)) tail events.
Proof.
  induction bytes as [|a bytes IH]; intros tail cur events Hc; cbn [list_ascii_of_string foldl].
  - rewrite split_any_app by done. simpl. rewrite string_app_nil_r. apply finish_within.
  - destruct (Ascii.eqb a newline) eqn:Ha.
    + apply Ascii.eqb_eq in Ha as ->. rewrite read_newline. rewrite split_any_app by done. cbn [split_any existsb].
      rewrite Ascii.eqb_refl. cbn [orb]. rewrite string_app_nil_r.
      change (emit_line secrets true (reading tail cur events)) with
        (reading (rd_tail (emit_line secrets true (reading tail cur events))) ""
           (rd_events (emit_line secrets true (reading tail cur events)))).
      rewrite IH by done. change ("" ++ bytes) with bytes. cbn [emit_pieces].
      pose proof (split_any_nonempty [newline] bytes). destruct (split_any [newline] bytes) as [|p ps] eqn:Ep; [done|].
      unfold reading, emit_line. simpl. by destruct (OUTPUT_LIMIT <? slen cur).
    + rewrite read_byte_within by done. rewrite IH by (rewrite contains_byte_app, Hc; simpl; by rewrite Ha).
      f_equal. f_equal. by rewrite <- string_app_assoc.
Qed.

Lemma read_chunks secrets chunks : forall r,
  foldl (read_chunk secrets) r chunks = foldl (read_byte secrets) r (list_ascii_of_string (String.concat "" chunks)).
Proof.
  assert (forall x y, list_ascii_of_string (x ++ y) = (list_ascii_of_string x ++ list_ascii_of_string y)%list) as Happ.
  { intros x y. induction x as [|a x IH]; [done|]. simpl. by rewrite IH. }
  assert (forall c l, String.concat "" (c :: l) = c ++ String.concat "" l) as Hcons.
  { intros c l. destruct l; simpl; [by rewrite string_app_nil_r|done]. }
  induction chunks as [|c chunks IH]; intros r; [done|]. rewrite Hcons, Happ, foldl_app. simpl. by rewrite IH.
Qed.

Lemma read_output_pieces secrets chunks :
  read_output secrets chunks = emit_pieces secrets (split_any [newline] (String.concat "" chunks)) "" [].
Proof. unfold read_output. rewrite read_chunks. exact (read_pieces secrets (String.concat "" chunks) "" "" [] eq_refl). Qed.

(** C30: What a worker keeps of a pipe does not depend on how the bytes arrive: reading
    in chunks, byte by byte, with a bounded line buffer, gives exactly the
    tail and the events of the reference that splits the whole output into
    lines first. *)
Theorem read_output_reference secrets chunks :
  read_output secrets chunks = output_spec secrets (String.concat "" chunks).
Proof. apply read_output_pieces. Qed.

(** ** Lemmas: bounds *)

Lemma keep_last_length limit s : (String.length (keep_last limit s) <= limit)%nat.
Proof.
  unfold keep_last. destruct (Nat.ltb_spec limit (String.length s)) as [H|H]; [|lia].
  pose proof (next_boundary_ge (S (String.length s)) s (String.length s - limit)).
  pose proof (next_boundary_le (S (String.length s)) s (String.length s - limit) ltac:(lia)).
  rewrite drop_bytes_length by lia. lia.
Qed.

Lemma substring_split n : forall s, s = substring 0 n s ++ substring n (String.length s - n) s.
Proof.
  induction n as [|n IH]; intros s; [by rewrite substring_0_0, Nat.sub_0_r, substring_full|].
  destruct s as [|a s]; [done|]. exact (f_equal (String a) (IH s)).
Qed.

(** What is kept is an end of the text. *)
Lemma keep_last_suffix limit s : exists dropped, s = dropped ++ keep_last limit s.
Proof.
  unfold keep_last. destruct (limit <? String.length s)%nat; [|by exists ""].
  eexists. apply substring_split.
Qed.

Lemma trim_end_matches_prefix b s : exists rest, s = trim_end_matches b s ++ rest.
Proof.
  induction s as [|a s [rest IH]]; [by exists ""|]. cbn [trim_end_matches].
  destruct (_ && _); [by exists (String a s)|]. exists rest. change (String a s = String a (trim_end_matches b s ++ rest)). by rewrite <- IH.
Qed.

Lemma shown_line_length secrets bytes oversized : slen (shown_line secrets bytes oversized) <= OUTPUT_LIMIT.
Proof.
  unfold shown_line. destruct (Z.ltb_spec OUTPUT_LIMIT (slen (if oversized then omitted_line else redact_text secrets (from_utf8_lossy bytes)))) as [H|H]; [by vm_compute|].
  set (d := if oversized then _ else _) in *. destruct (trim_end_matches_prefix carriage_return d) as [rest E].
  pose proof (slen_app (trim_end_matches carriage_return d) rest) as E'. rewrite <- E in E'. pose proof (slen_nonneg rest). lia.
Qed.

(** ** Lemmas: no secret is left *)

(** A secret the worker's own texts do not spell. *)
Definition concealable (p : string) : bool :=
  plain p && negb (contains_byte newline p) && negb (contains p omitted_line) && negb (contains p omitted_decoded).

Section Hidden.
Context (secrets : list string) (p : string) (Hin : p ∈ secrets) (Hp : concealable p = true).

Lemma concealable_spec :
  plain p = true /\ contains_byte newline p = false /\ occurs p omitted_line = false /\ occurs p omitted_decoded = false.
Proof. unfold concealable in Hp. by rewrite !andb_true_iff, !negb_true_iff, !contains_occurs in Hp; destruct_and!. Qed.

Lemma shown_line_hides bytes oversized : occurs p (shown_line secrets bytes oversized) = false.
Proof.
  destruct concealable_spec as (H1 & H2 & H3 & H4). unfold shown_line.
  set (d := if oversized then omitted_line else _). assert (occurs p d = false) as Hd.
  { unfold d. destruct oversized; [done|]. by apply redact_text_hides. }
  destruct (_ <? _); [done|]. destruct (trim_end_matches_prefix carriage_return d) as [rest E].
  destruct (occurs p (trim_end_matches carriage_return d)) eqn:Ht; [|done].
  apply (occurs_app_l _ _ rest) in Ht. rewrite <- E in Ht. congruence.
Qed.

(** Whatever follows the tail, the secret is not completed by it. *)
Definition hidden_before (tail : string) : Prop := forall y, occurs p (tail ++ y) = true -> occurs p y = true.

Lemma hidden_suffix a b : hidden_before (a ++ b) -> hidden_before b.
Proof. intros H y Hy. apply H. rewrite <- string_app_assoc. by apply occurs_app_r. Qed.

Lemma hidden_kept limit s : hidden_before s -> hidden_before (keep_last limit s).
Proof. intros H. destruct (keep_last_suffix limit s) as [dropped E]. rewrite E in H. by apply hidden_suffix in H. Qed.

Lemma hidden_line tail bytes oversized :
  hidden_before tail -> hidden_before (tail ++ shown_line secrets bytes oversized ++ String newline "").
Proof.
  intros H y Hy. rewrite <- string_app_assoc in Hy. apply H in Hy. rewrite <- string_app_assoc in Hy.
  destruct concealable_spec as (_ & Hn & _). apply (occurs_sep newline) in Hy as [Hy|Hy]; [|done|done].
  by rewrite shown_line_hides in Hy.
Qed.

Lemma hidden_tail tail : hidden_before tail -> occurs p tail = false.
Proof.
  intros H. destruct (occurs p tail) eqn:E; [|done]. rewrite <- (string_app_nil_r tail) in E. apply H in E.
  destruct concealable_spec as (H1 & _). destruct (plain_spec _ H1) as (Hne & _). simpl in E. rewrite orb_false_r in E.
  by apply prefix_nil_r in E.
Qed.

Lemma emit_pieces_hides pieces : forall tail events,
  hidden_before tail -> Forall (fun line => occurs p line = false /\ slen line <= OUTPUT_LIMIT) events ->
  slen tail <= OUTPUT_LIMIT ->
  let '(tail', events') := emit_pieces secrets pieces tail events in
  occurs p tail' = false /\ slen tail' <= OUTPUT_LIMIT
  /\ Forall (fun line => occurs p line = false /\ slen line <= OUTPUT_LIMIT) events'.
Proof.
  induction pieces as [|piece pieces IH]; intros tail events Ht He Hl; cbn [emit_pieces]; [split_and!; auto using hidden_tail|].
  assert (forall s, slen (keep_last (Z.to_nat OUTPUT_LIMIT) s) <= OUTPUT_LIMIT) as Hk.
  { intros s. pose proof (keep_last_length (Z.to_nat OUTPUT_LIMIT) s). unfold slen, OUTPUT_LIMIT in *. lia. }
  set (line := shown_line secrets _ _).
  assert (Forall (fun line => occurs p line = false /\ slen line <= OUTPUT_LIMIT) (events ++ [line])%list) as He'.
  { apply Forall_app. split; [done|]. constructor; [|done]. split; [apply shown_line_hides|apply shown_line_length]. }
  destruct pieces as [|p2 ps].
  - cbn [andb emit_pieces]. destruct (piece =? "")%string; [split_and!; auto using hidden_tail|].
    split_and!; [|apply Hk|done]. rewrite string_app_nil_r.
    destruct (occurs p (keep_last _ (tail ++ line))) eqn:E; [|done]. destruct (keep_last_suffix (Z.to_nat OUTPUT_LIMIT) (tail ++ line)) as [dr Edr].
    apply (occurs_app_r _ dr) in E. rewrite <- Edr in E. apply Ht in E. unfold line in E. by rewrite shown_line_hides in E.
  - apply IH; [by apply hidden_kept, hidden_line|done|apply Hk].
Qed.

End Hidden.

(** The tail a completion carries is bounded and clean: whatever bytes the child
    writes, in whichever chunks, the tail and each emitted line have at most
    65536 bytes, and neither contains a secret of the redactor, not even
    across lines or after the cut; the exceptions are secrets with a line
    break (whose lines are secrets themselves), those the marker brings about,
    and those spelled by the two texts that stand for an omitted line. *)
Theorem output_bounded_and_redacted secrets chunks leaf :
  leaf ∈ secrets -> concealable leaf = true ->
  let '(tail, events) := read_output secrets chunks in
  contains leaf tail = false /\ slen tail <= 65536
  /\ Forall (fun line => contains leaf line = false /\ slen line <= 65536) events.
Proof.
  intros Hin Hp. rewrite read_output_pieces.
  pose proof (emit_pieces_hides secrets leaf Hin Hp (split_any [newline] (String.concat "" chunks)) "" []) as H.
  destruct (emit_pieces secrets _ "" []) as [tail events]. destruct H as (H1 & H2 & H3); [by intros y|constructor|done|].
  rewrite contains_occurs. split_and!; [done|done|]. eapply Forall_impl; [exact H3|]. intros line. by rewrite contains_occurs.
Qed.

(** The secret split over two chunks, then echoed at the end of an unterminated line. *)
Lemma output_bounded_and_redacted_witness :
  read_output ["s3cr3t"] ["ok s3c"; "r3t" ++ String newline "bye s3cr3t"]
  = ("ok <redacted>" ++ String newline "bye <redacted>", ["ok <redacted>"; "bye <redacted>"])
  /\ contains "s3cr3t" (read_output ["s3cr3t"] ["ok s3c"; "r3t" ++ String newline "bye s3cr3t"]).1 = false.
Proof.
  split; [reflexivity|].
  exact (proj1 (output_bounded_and_redacted ["s3cr3t"] ["ok s3c"; "r3t" ++ String newline "bye s3cr3t"] "s3cr3t"
    ltac:(by left) eq_refl)).
Defined.
