(* ===== verification/Runner.v ===== *)
(** * The runner (execution/runner.rs)

    What a worker does with a claimed snapshot: the checks, the dry run, the
    command it spawns, and what it reports and shows.  The operating system
    (the input file, the child, its pipes) is an argument. *)

From S2P Require Import Prelude RustStr Json Inputs Names Domain Db Snapshot Store Scenario Redaction ExecutionOutput.
From Stdlib Require Import Ascii String.
From stdpp Require Import base numbers strings sorting gmap list.

Local Open Scope string_scope.
Local Open Scope Z_scope.

(** ** Events and results *)

Inductive ExecutionPhase : Type := PhaseContext | PhaseCommand | PhaseSpawn | PhaseExecution.

(** crates/execution/src/event.rs *)
Inductive ExecutionEvent : Type :=
| RunReceived (dispatch_id : Uuid) (trigger : option ExecutionTrigger) (scheduled_at : option Instant)
| RunStarted (dry_run : bool)
| ContextResolved (values : value)
| CommandResolved (executable : string) (shell_command : option string) (template arguments : list string)
| ProcessStarted (pid : option Z)
| StdoutLine (line : string)
| StderrLine (line : string)
| ProcessExited (exit_code signal : option Z) (duration_ms : Z)
| ProcessSkipped (reason : string)
| RunCompleted (total_duration_ms : Z)
| RunSkipped (reason : string) (total_duration_ms : Z)
| RunFailed (phase : ExecutionPhase) (error : string) (exit_code : option Z) (total_duration_ms : Z)
| ResultReportingFailed (error : string) (execution_succeeded execution_skipped : bool) (total_duration_ms : Z).

Record ExecutionResult : Type := mkExecutionResult {
  er_succeeded : bool;
  er_skipped : bool;
  er_exit_code : option Z;
  er_stdout_tail : string;
  er_stderr_tail : string;
  er_error : option string;
  er_failure_phase : option ExecutionPhase;
}.

(** [ExecutionResult::failed] *)
Definition failed_result (phase : ExecutionPhase) (error : string) : ExecutionResult :=
  {| er_succeeded := false; er_skipped := false; er_exit_code := None; er_stdout_tail := ""; er_stderr_tail := "";
     er_error := Some error; er_failure_phase := Some phase |}.

(** ** The operating system *)

Inductive ExitStatus : Type := Exited (code : Z) | Signaled (signal : Z).

Definition exit_code (s : ExitStatus) : option Z := match s with Exited c => Some c | Signaled _ => None end.
Definition exit_signal (s : ExitStatus) : option Z := match s with Exited _ => None | Signaled n => Some n end.
Definition exit_success (s : ExitStatus) : bool := match s with Exited c => c =? 0 | Signaled _ => false end.

(** What is spawned: the program and its argv, the content of [CRONO_INPUTS_FILE],
    [CRONO_RUN_ID] and the variables copied from the worker; the rest of the
    environment is cleared. *)
Record Command : Type := mkCommand {
  cmd_program : string;
  cmd_args : list string;
  cmd_inputs : value;
  cmd_run_id : Uuid;
  cmd_copied : list (string * string);
}.

(** The worker's environment; how the temporary file fails ([prepare_input_file]'s text), how the spawn
    does or which pid it gives, and otherwise what the child's pipes deliver and
    how it ends, after how many milliseconds: an error of the wait or of a
    read ends the execution with the chunks read until then. *)
Record System : Type := mkSystem {
  sys_var_os : string -> option string;
  sys_input_file : result unit string;
  sys_spawn : Command -> result (option Z) string;
  sys_run : Command -> list string * list string * result (ExitStatus * Z) string;
}.

(** What an execution leaves: its result, what it spawned and what it showed:
    the events before the child's lines, those lines, which interleave, and
    the events after them. *)
Record Execution : Type := mkExecution {
  ex_result : result ExecutionResult string;
  ex_spawned : option Command;
  ex_before : list ExecutionEvent;
  ex_stdout : list string;
  ex_stderr : list string;
  ex_after : list ExecutionEvent;
}.

Definition without_child (r : ExecutionResult) (events : list ExecutionEvent) : Execution :=
  mkExecution (Ok r) None events [] [] [].

Section Runner.
Context {SJ : SerdeJson} {RF : RustFmt}.

Definition is_absolute (path : string) : bool := String.prefix "/" path.

(** [Vec<String>::join] *)
Definition join (sep : string) (l : list string) : string := String.concat sep l.

(** The text a dry run prints, or why the snapshot is malformed. *)
Definition dry_run_command (secrets : list string) (execution : ExecutionSnapshot) : result string string :=
  match es_executor execution with
  | Noop => Ok "no-op executor (no command)"
  | kind =>
      let? executable := ok_or (es_executable execution) "process snapshot has no executable" in
      if negb (is_absolute executable) then Err "process executable is not absolute"
      else if match kind with Shell => is_null (es_shell_command execution) | _ => false end then Err "shell snapshot has no script"
      else
        let arguments := join " " (map debug_str (redact_arguments secrets false (es_arguments execution))) in
        let script := match es_shell_command execution with
                      | Some s => " -c " ++ debug_str (redact_text secrets s) ++ " crono-job"
                      | None => ""
                      end in
        Ok (trim_end (debug_str (redact_text secrets executable) ++ script ++ " " ++ arguments))
  end.

Definition dry_run_snapshot (secrets : list string) (execution : ExecutionSnapshot)
  : result (ExecutionResult * list ExecutionEvent) string :=
  let? command := dry_run_command secrets execution in
  let line := "DRY RUN (not executed): " ++ command in
  Ok ({| er_succeeded := true; er_skipped := true; er_exit_code := None;
         er_stdout_tail := bounded_command_prefix line; er_stderr_tail := ""; er_error := None;
         er_failure_phase := None |}, [ProcessSkipped "dry run"]).

(** [prepare_input_file]; the size was checked before, and is again. *)
Definition prepare_input_file (system : System) (execution : ExecutionSnapshot) : result unit ExecutionResult :=
  if encoded_len (es_inputs execution) >? MAX_INPUT_BYTES
  then Err (failed_result PhaseContext "execution inputs exceed the worker limit")
  else map_err (failed_result PhaseContext) (sys_input_file system).

(** The variables a child inherits. *)
Definition copied_variables (system : System) : list (string * string) :=
  omap (fun name => option_map (pair name) (sys_var_os system name)) ["LANG"; "LC_ALL"; "TZ"].

(** The argv of the child: the snapshot's arguments, after the script of a shell. *)
Definition child_command (system : System) (execution : ExecutionSnapshot) (executable : string) : result Command ExecutionResult :=
  let make prefix := Ok {| cmd_program := executable; cmd_args := (prefix ++ es_arguments execution)%list;
                           cmd_inputs := es_inputs execution; cmd_run_id := es_idempotency_key execution;
                           cmd_copied := copied_variables system |} in
  match es_executor execution with
  | Shell =>
      match es_shell_command execution with
      | Some script => make ["-c"; script; "crono-job"]
      | None => Err (failed_result PhaseCommand "shell snapshot has no script")
      end
  | _ => make []
  end.

(** The lines a reader has shown when it is dropped. *)
Definition lines_read (secrets : list string) (chunks : list string) : list string :=
  rd_events (foldl (read_chunk secrets) (mkReader "" "" false []) chunks).

Definition execute_process (system : System) (secrets : list string) (execution : ExecutionSnapshot)
    (events : list ExecutionEvent) : Execution :=
  match es_executable execution with
  | None => without_child (failed_result PhaseCommand "process snapshot has no executable") events
  | Some executable =>
      if negb (is_absolute executable)
      then without_child (failed_result PhaseCommand "process executable is not absolute") events
      else match prepare_input_file system execution with
      | Err r => without_child r events
      | Ok _ =>
          match child_command system execution executable with
          | Err r => without_child r events
          | Ok command =>
              match sys_spawn system command with
              | Err error =>
                  without_child (failed_result PhaseSpawn
                    ("failed to spawn executor " ++ debug_str executable ++ ": " ++ error)) events
              | Ok pid =>
                  let events := (events ++ [ProcessStarted pid])%list in
                  let '(stdout, stderr, ended) := sys_run system command in
                  match ended with
                  | Err error =>
                      mkExecution (Err error) (Some command) events (lines_read secrets stdout) (lines_read secrets stderr) []
                  | Ok (status, duration_ms) =>
                      let '(stdout_tail, stdout_lines) := read_output secrets stdout in
                      let '(stderr_tail, stderr_lines) := read_output secrets stderr in
                      let ok := exit_success status in
                      mkExecution
                        (Ok {| er_succeeded := ok; er_skipped := false; er_exit_code := exit_code status;
                               er_stdout_tail := stdout_tail; er_stderr_tail := stderr_tail;
                               er_error := if ok then None else Some "process exited unsuccessfully";
                               er_failure_phase := if ok then None else Some PhaseExecution |})
                        (Some command) events stdout_lines stderr_lines 
                        [ProcessExited (exit_code status) (exit_signal status) duration_ms]
                  end
              end
          end
      end
  end.

Definition noop_result : ExecutionResult :=
  {| er_succeeded := true; er_skipped := false; er_exit_code := Some 0; er_stdout_tail := ""; er_stderr_tail := "";
     er_error := None; er_failure_phase := None |}.

(** What is shown before anything runs. *)
Definition resolved_events (secrets : list string) (execution : ExecutionSnapshot) : list ExecutionEvent :=
  ContextResolved (redact_values secrets (es_inputs execution))
  :: match es_executable execution with
     | Some executable =>
         [CommandResolved (redact_text secrets executable) (option_map (redact_text secrets) (es_shell_command execution))
            (redact_arguments secrets false (es_argument_templates execution))
            (redact_arguments secrets false (es_arguments execution))]
     | None => []
     end.

Definition execute_snapshot (system : System) (secrets : list string) (execution : ExecutionSnapshot) (dry_run : bool) : Execution :=
  if encoded_len (es_inputs execution) >? MAX_INPUT_BYTES
  then without_child (failed_result PhaseContext "execution inputs exceed the worker limit") []
  else
    let events := resolved_events secrets execution in
    if dry_run then
      match dry_run_snapshot secrets execution with
      | Ok (r, shown) => without_child r (events ++ shown)%list
      | Err error => without_child (failed_result PhaseCommand error) events
      end
    else match es_executor execution with
    | Noop => without_child noop_result (events ++ [ProcessSkipped "no-op executor"])%list
    | _ => execute_process system secrets execution events
    end.

(** ** Properties *)

(** What every result has: tails within the server's limit, skipped exactly when
    a dry run succeeded, an error and a phase exactly when it failed.  The tails
    keep a NUL the child printed, which the completion refuses
    ([StoreBehaviour.nul_output_never_completes]). *)
Record result_ok (dry_run : bool) (r : ExecutionResult) : Prop := {
  result_stdout : slen (er_stdout_tail r) <= 65536;
  result_stderr : slen (er_stderr_tail r) <= 65536;
  result_skipped : er_skipped r = true -> er_succeeded r = true /\ dry_run = true;
  result_dry : dry_run = true -> er_succeeded r = true -> er_skipped r = true;
  result_error : er_succeeded r = false <-> is_Some (er_error r);
  result_phase : er_succeeded r = false <-> is_Some (er_failure_phase r);
}.

Lemma boundary_before_le s i : (boundary_before s i <= i)%nat.
Proof. induction i as [|i IH]; cbn [boundary_before]; case_match; lia. Qed.

Lemma bounded_command_prefix_length line : slen (bounded_command_prefix line) <= 65536.
Proof.
  unfold bounded_command_prefix. destruct (Z.leb_spec (slen line) OUTPUT_LIMIT) as [H|H]; [exact H|].
  rewrite slen_app. pose proof (boundary_before_le line (Z.to_nat OUTPUT_LIMIT - String.length marker)) as Hle.
  assert (String.length marker = 20)%nat as Em by reflexivity. unfold slen in *. rewrite Em in *. unfold OUTPUT_LIMIT in *.
  rewrite substring_length by lia. lia.
Qed.

Ltac result_fields := split; simpl; try done; (split; [by eauto|by try intros []]).

Lemma failed_result_ok dry_run phase error : result_ok dry_run (failed_result phase error).
Proof. split; simpl; try done. Qed.

Lemma read_output_length secrets chunks : slen (read_output secrets chunks).1 <= 65536.
Proof.
  rewrite read_output_pieces. generalize (split_any [newline] (String.concat "" chunks)). intros pieces.
  assert (forall tail events, slen tail <= 65536 -> slen (emit_pieces secrets pieces tail events).1 <= 65536) as H; [|by apply H].
  induction pieces as [|piece pieces IH]; intros tail events Ht; cbn [emit_pieces]; [done|].
  destruct (_ && _); [done|]. apply IH. pose proof (keep_last_length (Z.to_nat OUTPUT_LIMIT)) as Hk. unfold slen, OUTPUT_LIMIT in *.
  match goal with |- Z.of_nat (String.length (keep_last _ ?s)) <= _ => specialize (Hk s); lia end.
Qed.

(** The result is the child's: a child that was waited for is reported with its
    exit, only a dry run and a no-op succeed without one, and there is no result
    exactly when waiting for the child or reading from it failed. *)
Definition child_reported (system : System) (dry_run : bool) (execution : ExecutionSnapshot) (e : Execution) : Prop :=
  match ex_result e, ex_spawned e with
  | Ok r, Some command => exists status ms, (sys_run system command).2 = Ok (status, ms)
      /\ er_succeeded r = exit_success status /\ er_exit_code r = exit_code status
  | Ok r, None => er_succeeded r = true -> dry_run = true \/ es_executor execution = Noop
  | Err error, Some command => (sys_run system command).2 = Err error
  | Err _, None => False
  end.

Lemma execute_process_ok system secrets execution events :
  let e := execute_process system secrets execution events in
  match ex_result e with Ok r => result_ok false r | Err _ => True end /\ child_reported system false execution e.
Proof.
  intros e. unfold e, execute_process, child_reported. destruct (es_executable execution) as [executable|]; [|split; [apply failed_result_ok|by intros]].
  destruct (is_absolute executable); [|split; [apply failed_result_ok|by intros]]. cbn [negb].
  destruct (prepare_input_file system execution) as [u|r] eqn:Hf.
  2:{ unfold prepare_input_file in Hf. destruct (_ >? _); [injection Hf as <-; split; [apply failed_result_ok|by intros]|].
      destruct (sys_input_file system); [done|]. injection Hf as <-. split; [apply failed_result_ok|by intros]. }
  destruct (child_command system execution executable) as [command|r] eqn:Hc.
  2:{ unfold child_command in Hc. destruct (es_executor execution), (es_shell_command execution); try done.
      injection Hc as <-. split; [apply failed_result_ok|by intros]. }
  destruct (sys_spawn system command) as [v|spawn_error]; [|split; [apply failed_result_ok|by intros]].
  destruct (sys_run system command) as [[stdout stderr] [[status duration]|error]] eqn:Hrun; [|split; [exact I|cbn; by rewrite Hrun]].
  pose proof (read_output_length secrets stdout) as H1. pose proof (read_output_length secrets stderr) as H2.
  destruct (read_output secrets stdout) as [t1 l1], (read_output secrets stderr) as [t2 l2]. simpl in *.
  split; [destruct (exit_success status); result_fields|]. exists status, duration. by rewrite Hrun.
Qed.

Lemma execute_process_spawns system secrets execution events command :
  ex_spawned (execute_process system secrets execution events) = Some command ->
  exists executable, es_executable execution = Some executable /\ is_absolute executable = true
    /\ child_command system execution executable = Ok command.
Proof.
  unfold execute_process. destruct (es_executable execution) as [executable|]; [|done].
  destruct (is_absolute executable) eqn:Ha; [|done]. cbn [negb]. destruct (prepare_input_file system execution); [|done].
  destruct (child_command system execution executable) as [c|] eqn:Hc; [|done]. destruct (sys_spawn system c); [|done].
  intros H. exists executable. split_and!; [done|done|].
  destruct (sys_run system c) as [[stdout stderr] [[status duration]|e]]; [|by injection H as ->].
  destruct (read_output secrets stdout), (read_output secrets stderr). simpl in H. by injection H as ->.
Qed.

Lemma copied_from system : Forall (fun v => v.1 ∈ ["LANG"; "LC_ALL"; "TZ"] /\ sys_var_os system v.1 = Some v.2) (copied_variables system).
Proof.
  apply Forall_forall. intros [name text] (n & Hn & E)%list_elem_of_omap. destruct (sys_var_os system n) eqn:Hs; [|done].
  by injection E as <- <-.
Qed.


End Runner.

(** ** Witnesses *)

(** A system where the file and the spawn succeed and the child prints its secret and exits with 0. *)
Definition example_system : System :=
  {| sys_var_os := fun name => if (name =? "TZ")%string then Some "UTC" else None; sys_input_file := Ok (); sys_spawn := fun _ => Ok (Some 4711);
     sys_run := fun _ => (["s3cr3t" ++ String newline ""], [], Ok (Exited 0, 12)) |}.

Definition example_snapshot : ExecutionSnapshot :=
  {| es_executor := Shell; es_executable := Some "/bin/sh"; es_shell_command := Some "echo $1"; es_argument_templates := ["{{ token }}"];
     es_arguments := ["s3cr3t"]; es_inputs := VObject [("token", VString "s3cr3t")]; es_job_id := None; es_trigger := Some Manual;
     es_scheduled_at := None; es_idempotency_key := 100; es_queue_id := 2; es_queue := "default"; es_idempotent := true;
     es_dry_run := false; es_retry_initial_seconds := 1; es_retry_max_seconds := 60; es_retry_multiplier := Float.f64_of_Z 2;
     es_retry_jitter := Float.f64_of_Z 0 |}.

Definition example_command : Command :=
  {| cmd_program := "/bin/sh"; cmd_args := ["-c"; "echo $1"; "crono-job"; "s3cr3t"]; cmd_inputs := VObject [("token", VString "s3cr3t")];
     cmd_run_id := 100; cmd_copied := [("TZ", "UTC")] |}.

