(* ===== verification/Worker.v ===== *)
(** * The worker (services/worker/src/cli/actions/run.rs)

    The coordinator of one worker: how a delivery is claimed, executed under a
    renewed lease, completed and only then acknowledged; the upload of live
    output; its presence; the resolution of its Queue.  Its calls go to NATS
    and to the runner; what they answer is left open. *)

From S2P Require Import Prelude RustStr Json Inputs Names Text Domain Recurrence Db Snapshot Store Planner Scenario Pagination Futures WorkerControl Redaction ExecutionOutput Runner.
From Stdlib Require Import Ascii String.
From stdpp Require Import base numbers strings sorting gmap list.

Local Open Scope string_scope.
Local Open Scope Z_scope.

(** execution/event.rs *)
Inductive LogFormat : Type := LogPretty | LogJson.

Record Args : Type := mkArgs {
  ar_nats_url : string;
  ar_queue : string;
  ar_worker_id : string;
  ar_concurrency : Z;
  ar_dry_run : bool;
  ar_log_format : LogFormat;
}.

(** ** Awaited calls *)

Inductive AckKind : Type := Term | Nak (seconds : Z) | Progress.

(** What [select!] saw first. *)
Inductive WorkEvent : Type :=
| WorkFinished (r : result ExecutionResult string)
| HeartbeatTick.

(** The answer of a request whose reply may not come ([None]) or not decode. *)
Inductive Reply (A : Type) : Type := NoReply | Undecodable | Replied (a : A).
Arguments NoReply {A}.
Arguments Undecodable {A}.
Arguments Replied {A} a.

(** Requests carry the operation and the worker in their subject; a failed one
    answers with the text of its error.  [Emit] is the timeline's, [Elapsed] the
    clock since the delivery's start, [SpawnUploads] and [JoinUploads] start and
    await the task of [upload_live_output]; a tick is [false], and a heartbeat's
    answer [None], when the task was cancelled first. *)
Inductive WorkerCall : Type -> Type :=
| SendClaim (subject : string) (request : ClaimRequest) : WorkerCall (result ClaimResponse string)
| SendRenewal (subject : string) (request : LeaseRequest) : WorkerCall (result bool string)
| SendCompletion (subject : string) (request : CompletionRequest) : WorkerCall (result bool string)
| SendOutput (subject : string) (request : OutputSnapshotRequest) : WorkerCall (option bool)
| SendHeartbeat (subject : string) (request : WorkerHeartbeatRequest) : WorkerCall (option (result bool string))
| SendResolution (subject : string) (request : QueueResolutionRequest) : WorkerCall (Reply QueueResolutionResponse)
| StartExecution (secrets : list string) (execution : ExecutionSnapshot) (dry_run : bool) : WorkerCall unit
| NextWork : WorkerCall WorkEvent
| LiveSnapshot : WorkerCall Tails
| UploadTick : WorkerCall bool
| PresenceTick : WorkerCall bool
| SpawnUploads (attempt_id : Uuid) (worker_id : string) : WorkerCall unit
| JoinUploads : WorkerCall unit
| Emit (event : ExecutionEvent) : WorkerCall unit
| Elapsed : WorkerCall Z
| Sleep : WorkerCall unit
| AckWith (kind : AckKind) : WorkerCall (result unit string)
| DoubleAck : WorkerCall (result unit string).

Notation work := (future WorkerCall).

Definition control_subject (operation worker_id : string) : string :=
  "crono.worker.control." ++ operation ++ "." ++ worker_id.

(** [serde_json::from_slice::<DispatchEnvelope>] *)
Class EnvelopeJson : Type := { envelope_from_slice : string -> option DispatchEnvelope }.

Section Worker.
Context {SJ : SerdeJson} {EJ : EnvelopeJson}.

(** ** Execution under a lease *)

(** The loop of [run_with_heartbeat]; [None] while it still runs after [fuel] heartbeats. *)
Fixpoint heartbeat_loop (fuel : nat) (args : Args) (envelope : DispatchEnvelope)
  : work (option (result ExecutionResult string)) :=
  match fuel with
  | O => Return None
  | S fuel =>
      Await NextWork (fun event =>
        match event with
        | WorkFinished r => Return (Some r)
        | HeartbeatTick =>
            Await (SendRenewal (control_subject "renew" (ar_worker_id args))
                     {| le_attempt_id := de_attempt_id envelope; le_worker_id := ar_worker_id args |}) (fun renewed =>
              match renewed with
              | Err e => Return (Some (Err e))
              | Ok false => Return (Some (Err "worker lease expired during execution"))
              | Ok true =>
                  Await (AckWith Progress) (fun acked =>
                    match acked with
                    | Err e => Return (Some (Err ("failed to extend JetStream acknowledgement deadline: " ++ e)))
                    | Ok _ => heartbeat_loop fuel args envelope
                    end)
              end)
        end)
  end.

Definition run_with_heartbeat (fuel : nat) (args : Args) (envelope : DispatchEnvelope) (secrets : list string)
    (execution : ExecutionSnapshot) : work (option (result ExecutionResult string)) :=
  let dry_run := ar_dry_run args || es_dry_run execution in
  Await (StartExecution secrets execution dry_run) (fun _ => heartbeat_loop fuel args envelope).

(** An execution that could not be observed to its end. *)
Definition interrupted (error : string) : ExecutionResult :=
  {| er_succeeded := false; er_skipped := false; er_exit_code := None; er_stdout_tail := ""; er_stderr_tail := "";
     er_error := Some error; er_failure_phase := Some PhaseExecution |}.

Definition completion_of (args : Args) (envelope : DispatchEnvelope) (secrets : list string) (r : ExecutionResult)
  : CompletionRequest :=
  {| co_attempt_id := de_attempt_id envelope; co_worker_id := ar_worker_id args; co_succeeded := er_succeeded r;
     co_skipped := er_skipped r; co_exit_code := er_exit_code r; co_stdout_tail := er_stdout_tail r;
     co_stderr_tail := er_stderr_tail r; co_error := option_map (redact_text secrets) (er_error r) |}.

(** What [emit_result] shows. *)
Definition result_event (secrets : list string) (r : ExecutionResult) (elapsed_ms : Z) : ExecutionEvent :=
  if er_skipped r then RunSkipped "dry run" elapsed_ms
  else if er_succeeded r then RunCompleted elapsed_ms
  else RunFailed (default PhaseExecution (er_failure_phase r))
         (redact_text secrets (default "execution failed" (er_error r))) (er_exit_code r) elapsed_ms.

(** An event with the time since the start, then the acknowledgement. *)
Definition emit_and_settle (event : Z -> ExecutionEvent) (acknowledge : WorkerCall (result unit string)) : work bool :=
  Await Elapsed (fun elapsed_ms => Await (Emit (event elapsed_ms)) (fun _ => Await acknowledge (fun _ => Return true))).

(** The value: [false] while the execution still runs. *)
Definition execute_claimed (fuel : nat) (args : Args) (envelope : DispatchEnvelope) (execution : ExecutionSnapshot)
  : work bool :=
  Await (SpawnUploads (de_attempt_id envelope) (ar_worker_id args)) (fun _ =>
  Await (Emit (RunReceived (de_dispatch_id envelope) (es_trigger execution) (es_scheduled_at execution))) (fun _ =>
  Await (Emit (RunStarted (ar_dry_run args || es_dry_run execution))) (fun _ =>
  let secrets := from_inputs_and_arguments (es_inputs execution) (es_arguments execution) in
  then_ (run_with_heartbeat fuel args envelope secrets execution) (fun finished =>
    match finished with
    | None => Return false
    | Some finished =>
        Await JoinUploads (fun _ =>
        let r := match finished with Ok r => r | Err error => interrupted error end in
        Await (SendCompletion (control_subject "complete" (ar_worker_id args)) (completion_of args envelope secrets r))
          (fun confirmed =>
            match confirmed with
            | Ok true => emit_and_settle (result_event secrets r) DoubleAck
            | Ok false =>
                emit_and_settle (ResultReportingFailed "completion lost its worker lease" (er_succeeded r) (er_skipped r)) (AckWith Term)
            | Err _ =>
                emit_and_settle (ResultReportingFailed "completion was not confirmed" (er_succeeded r) (er_skipped r)) (AckWith (Nak 5))
            end))
    end)))).

(** ** Deliveries *)

(** [response.execution.filter(|_| response.claimed)] *)
Definition granted (response : ClaimResponse) : option ExecutionSnapshot :=
  if cr_claimed response then cr_execution response else None.

(** The value: [false] while the execution still runs. *)
Definition handle_message (fuel : nat) (args : Args) (queue_id : Uuid) (payload : string) : work bool :=
  match envelope_from_slice payload with
  | None => Await (AckWith Term) (fun _ => Return true)
  | Some envelope =>
      if negb (de_queue_id envelope =? queue_id)%N then Await (AckWith Term) (fun _ => Return true)
      else
        let claim := {| cl_run_id := de_run_id envelope; cl_attempt_id := de_attempt_id envelope; cl_queue_id := queue_id;
                        cl_worker_id := ar_worker_id args |} in
        Await (SendClaim (control_subject "claim" (ar_worker_id args)) claim) (fun answer =>
          match answer with
          | Err _ => Await (AckWith (Nak 5)) (fun _ => Return true)
          | Ok response =>
              match granted response with
              | None => Await DoubleAck (fun _ => Return true)
              | Some execution => execute_claimed fuel args envelope execution
              end
          end)
  end.

(** ** Live output *)

Definition output_subject (worker_id : string) : string := "crono.worker.output." ++ worker_id.

(** The loop of [upload_live_output]; a tick is [false] once it is cancelled. *)
Fixpoint upload_loop (fuel : nat) (attempt_id : Uuid) (worker_id : string) (acknowledged_revision sequence : Z) : work unit :=
  match fuel with
  | O => Return ()
  | S fuel =>
      Await UploadTick (fun running =>
        if negb running then Return ()
        else
          Await LiveSnapshot (fun tails =>
            if tl_revision tails =? acknowledged_revision
            then upload_loop fuel attempt_id worker_id acknowledged_revision sequence
            else
              let sequence := saturate 0 u64_max (sequence + 1) in
              let request := {| ou_attempt_id := attempt_id; ou_worker_id := worker_id; ou_sequence := sequence;
                                ou_stdout_tail := tl_stdout tails; ou_stderr_tail := tl_stderr tails |} in
              Await (SendOutput (output_subject worker_id) request) (fun accepted =>
                upload_loop fuel attempt_id worker_id
                  (match accepted with Some true => tl_revision tails | _ => acknowledged_revision end) sequence)))
  end.

Definition upload_live_output (fuel : nat) (attempt_id : Uuid) (worker_id : string) : work unit :=
  upload_loop fuel attempt_id worker_id 0 0.

(** ** The Queue of a worker *)

Definition QUEUE_RESOLUTION_ATTEMPTS : nat := 30.

Inductive ResolveError : Type :=
| NotAnswered | InvalidResolution | OmittedIdentity | QueueMissing | QueueUnresolved.

Fixpoint resolve_attempts (remaining : nat) (name : string) : work (result QueueReference ResolveError) :=
  match remaining with
  | O => Return (Err QueueUnresolved)
  | S remaining =>
      let retry e := match remaining with
                     | O => Return (Err e)
                     | S _ => Await Sleep (fun _ => resolve_attempts remaining name)
                     end in
      Await (SendResolution ("crono.worker.queue.resolve." ++ name) {| qreq_name := name |}) (fun reply =>
        match reply with
        | NoReply => retry NotAnswered
        | Undecodable => Return (Err InvalidResolution)
        | Replied response =>
            match qres_status response with
            | QueueReady => Return (ok_or (qres_queue response) OmittedIdentity)
            | QueueNotFound => Return (Err QueueMissing)
            | QueueUnavailable => retry QueueUnresolved
            end
        end)
  end.

Definition resolve_queue (name : string) : work (result QueueReference ResolveError) :=
  resolve_attempts QUEUE_RESOLUTION_ATTEMPTS name.

(** [validate_token] *)
Definition validate_token (s : string) : result unit ResourceNameError := validate_resource_name s.

(** ** What a delivery may do *)

Section Delivery.
Context (args : Args) (queue_id : Uuid) (payload : string).

Notation trace := (list (answered WorkerCall)).

(** A call that ends the delivery, one that reports the result, and one that only shows it. *)
Definition settles {B} (c : WorkerCall B) : bool :=
  match c with DoubleAck | AckWith Term | AckWith (Nak _) => true | _ => false end.
Definition completes {B} (c : WorkerCall B) : bool := match c with SendCompletion _ _ => true | _ => false end.
Definition shows {B} (c : WorkerCall B) : bool := match c with Emit _ | Elapsed | SpawnUploads _ _ => true | _ => false end.

Definition quiet_event (e : answered WorkerCall) : bool := let 'Awaited c _ := e in negb (settles c) && negb (completes c).
Definition settling_event (e : answered WorkerCall) : bool := let 'Awaited c _ := e in settles c.
Definition showing_event (e : answered WorkerCall) : bool := let 'Awaited c _ := e in shows c.

Definition the_claim (envelope : DispatchEnvelope) : ClaimRequest :=
  {| cl_run_id := de_run_id envelope; cl_attempt_id := de_attempt_id envelope; cl_queue_id := queue_id;
     cl_worker_id := ar_worker_id args |}.

(** The delivery decodes, belongs to the worker's Queue, and its claim was granted with this snapshot. *)
Definition claimed_with (h : trace) (envelope : DispatchEnvelope) (execution : ExecutionSnapshot) : Prop :=
  envelope_from_slice payload = Some envelope /\ de_queue_id envelope = queue_id
  /\ exists response shown, granted response = Some execution
     /\ h = Awaited (SendClaim (control_subject "claim" (ar_worker_id args)) (the_claim envelope)) (Ok response) :: shown
     /\ forallb showing_event shown = true.

(** The events since the execution of the claimed snapshot started. *)
Definition executing (h : trace) (envelope : DispatchEnvelope) : Prop :=
  exists execution claim secrets dry_run rest, claimed_with claim envelope execution
    /\ h = (claim ++ Awaited (StartExecution secrets execution dry_run) () :: rest)%list
    /\ forallb quiet_event h = true.

(** The completion was answered so; since then its result was only shown. *)
Definition reported (h : trace) (confirmed : result bool string) : Prop :=
  exists h' subject request shown, h = (h' ++ Awaited (SendCompletion subject request) confirmed :: shown)%list
    /\ forallb quiet_event h' = true /\ forallb showing_event shown = true.

(** What each call of a delivery needs to have happened. *)
Definition delivery_rule (h : trace) (B : Type) (c : WorkerCall B) : Prop :=
  match c with
  | SendClaim subject request =>
      h = [] /\ subject = control_subject "claim" (ar_worker_id args)
      /\ exists envelope, envelope_from_slice payload = Some envelope /\ de_queue_id envelope = queue_id
         /\ request = the_claim envelope
  | SpawnUploads attempt_id worker_id =>
      worker_id = ar_worker_id args /\ exists envelope execution, claimed_with h envelope execution /\ attempt_id = de_attempt_id envelope
  | Emit (RunReceived dispatch_id _ _) =>
      exists envelope execution, claimed_with h envelope execution /\ dispatch_id = de_dispatch_id envelope
  | Emit (RunStarted dry_run) =>
      exists envelope execution, claimed_with h envelope execution /\ dry_run = ar_dry_run args || es_dry_run execution
  | StartExecution secrets execution dry_run =>
      (exists envelope, claimed_with h envelope execution)
      /\ secrets = from_inputs_and_arguments (es_inputs execution) (es_arguments execution)
      /\ dry_run = ar_dry_run args || es_dry_run execution
  | NextWork | JoinUploads => exists envelope, executing h envelope
  | SendRenewal subject request =>
      subject = control_subject "renew" (ar_worker_id args) /\ le_worker_id request = ar_worker_id args
      /\ exists envelope, executing h envelope /\ le_attempt_id request = de_attempt_id envelope
  | AckWith Progress => exists h' subject request, h = (h' ++ [Awaited (SendRenewal subject request) (Ok true)])%list
  | SendCompletion subject request =>
      subject = control_subject "complete" (ar_worker_id args) /\ co_worker_id request = ar_worker_id args
      /\ exists envelope, executing h envelope /\ co_attempt_id request = de_attempt_id envelope
  | Elapsed => exists confirmed, reported h confirmed
  | Emit (RunCompleted _) | Emit (RunSkipped _ _) | Emit (RunFailed _ _ _ _) => reported h (Ok true)
  | Emit (ResultReportingFailed _ _ _ _) => exists confirmed, reported h confirmed /\ confirmed <> Ok true
  | DoubleAck =>
      reported h (Ok true)
      \/ (exists subject request response, h = [Awaited (SendClaim subject request) (Ok response)] /\ granted response = None)
  | AckWith Term =>
      (h = [] /\ forall envelope, envelope_from_slice payload = Some envelope -> de_queue_id envelope <> queue_id)
      \/ reported h (Ok false)
  | AckWith (Nak seconds) =>
      seconds = 5 /\ ((exists e, reported h (Err e)) \/ (exists subject request e, h = [Awaited (SendClaim subject request) (Err e)]))
  | _ => False
  end.

(** The delivery is settled by its last call and by no other. *)
Definition settled (h : trace) : Prop :=
  exists h' e, h = (h' ++ [e])%list /\ settling_event e = true /\ forallb (fun e => negb (settling_event e)) h' = true.

Lemma quiet_unsettled h : forallb quiet_event h = true -> forallb (fun e => negb (settling_event e)) h = true.
Proof. rewrite !forallb_forall. intros H [B c x] Hx. specialize (H _ Hx). simpl in *. by apply andb_true_iff in H as [H _]. Qed.

Lemma showing_quiet h : forallb showing_event h = true -> forallb quiet_event h = true.
Proof. rewrite !forallb_forall. intros H [B c x] Hx. specialize (H _ Hx). simpl in *. by destruct c as [| | | | | | | | | | | | | | | |[]|]. Qed.

Lemma claimed_snoc h envelope execution e :
  claimed_with h envelope execution -> showing_event e = true -> claimed_with (h ++ [e])%list envelope execution.
Proof.
  intros (H1 & H2 & response & shown & Hg & -> & Hs) He. split_and!; [done|done|]. exists response, (shown ++ [e])%list.
  split_and!; [done|done|]. rewrite forallb_app, Hs. simpl. by rewrite He.
Qed.

Lemma executing_snoc h envelope e : executing h envelope -> quiet_event e = true -> executing (h ++ [e])%list envelope.
Proof.
  intros (execution & claim & secrets & dry & rest & Hc & -> & Hq) He. exists execution, claim, secrets, dry, (rest ++ [e])%list.
  split; [done|]. split; [by rewrite <- (assoc_L app)|]. rewrite forallb_app, Hq. simpl. by rewrite He.
Qed.

Lemma reported_snoc h confirmed e : reported h confirmed -> showing_event e = true -> reported (h ++ [e])%list confirmed.
Proof.
  intros (h' & subject & request & shown & -> & Hq & Hs) He. exists h', subject, request, (shown ++ [e])%list.
  split; [by rewrite <- (assoc_L app)|]. split; [done|]. rewrite forallb_app, Hs. simpl. by rewrite He.
Qed.

Lemma reported_unsettled h confirmed : reported h confirmed -> forallb (fun e => negb (settling_event e)) h = true.
Proof.
  intros (h' & subject & request & shown & -> & Hq & Hs). rewrite forallb_app, quiet_unsettled by done. simpl.
  by apply quiet_unsettled, showing_quiet.
Qed.

Lemma heartbeat_loop_rule fuel envelope : forall h, executing h envelope ->
  obeys delivery_rule h (heartbeat_loop fuel args envelope)
  /\ ends (fun h' _ => executing h' envelope) h (heartbeat_loop fuel args envelope).
Proof.
  induction fuel as [|fuel IH]; intros h Hh; [by split|]. cbn [heartbeat_loop obeys ends].
  assert (forall x, executing (h ++ [Awaited NextWork x])%list envelope) as H1 by (intros x; by apply executing_snoc).
  split; [split; [by exists envelope|]|]; intros [r|]; cbn [obeys ends]; auto.
  - split; [split_and!; [done|done|by exists envelope]|]. intros [[|]|e]; cbn [obeys]; auto.
    split; [by eexists _, _, _|]. intros [[]|e]; [|exact I]. apply IH. by do 2 (apply executing_snoc; [|done]).
  - intros [[|]|e]; cbn [ends]; [|by apply executing_snoc..].
    intros [[]|e]; cbn [ends]; [apply IH|]; by do 2 (apply executing_snoc; [|done]).
Qed.

(** Showing and settling what the server answered. *)
Lemma emit_and_settle_rule h confirmed event acknowledge :
  reported h confirmed ->
  (forall h ms, reported h confirmed -> delivery_rule h _ (Emit (event ms))) ->
  (forall h, reported h confirmed -> delivery_rule h _ acknowledge) -> settles acknowledge = true ->
  obeys delivery_rule h (emit_and_settle event acknowledge)
  /\ ends (fun h' ended => ended = false \/ settled h') h (emit_and_settle event acknowledge).
Proof.
  intros Hr Hev Hack Hs. assert (forall ms u, reported ((h ++ [Awaited Elapsed ms]) ++ [Awaited (Emit (event ms)) u])%list confirmed) as Hr'
    by (intros ms u; by do 2 (apply reported_snoc; [|done])).
  split; cbn [emit_and_settle obeys ends].
  - split; [by exists confirmed|]. intros ms. split; [by apply Hev, reported_snoc|]. intros u. split; [by apply Hack|by intros].
  - intros ms u x. right. eexists _, _. split_and!; [reflexivity|done|]. by eapply reported_unsettled.
Qed.

Lemma result_event_rule h secrets r elapsed_ms : reported h (Ok true) -> delivery_rule h _ (Emit (result_event secrets r elapsed_ms)).
Proof. unfold result_event. by destruct (er_skipped r), (er_succeeded r). Qed.

(** What follows a claim that was granted. *)
Lemma execute_claimed_rule fuel envelope execution h :
  claimed_with h envelope execution ->
  obeys delivery_rule h (execute_claimed fuel args envelope execution)
  /\ ends (fun h' ended => ended = false \/ settled h') h (execute_claimed fuel args envelope execution).
Proof.
  intros Hc. unfold execute_claimed. cbn [obeys ends]. set (secrets := from_inputs_and_arguments (es_inputs execution) (es_arguments execution)).
  set (dry := ar_dry_run args || es_dry_run execution).
  assert (forall x, claimed_with (h ++ [Awaited (SpawnUploads (de_attempt_id envelope) (ar_worker_id args)) x])%list envelope execution) as Hc1
    by (intros x; by apply claimed_snoc).
  set (received := Emit (RunReceived (de_dispatch_id envelope) (es_trigger execution) (es_scheduled_at execution))).
  assert (forall x y, claimed_with ((h ++ [Awaited (SpawnUploads (de_attempt_id envelope) (ar_worker_id args)) x]) ++ [Awaited received y])%list
    envelope execution) as Hc2 by (intros x y; by apply claimed_snoc).
  assert (forall x y z, claimed_with (((h ++ [Awaited (SpawnUploads (de_attempt_id envelope) (ar_worker_id args)) x]) ++ [Awaited received y])
    ++ [Awaited (Emit (RunStarted dry)) z])%list envelope execution) as Hc3 by (intros x y z; by apply claimed_snoc).
  assert (forall h3, claimed_with h3 envelope execution -> executing (h3 ++ [Awaited (StartExecution secrets execution dry) ()])%list envelope) as Hx.
  { intros h3 H3. exists execution, h3, secrets, dry, []. split_and!; [done|done|].
    destruct H3 as (_ & _ & response & shown & _ & -> & Hs). rewrite forallb_app. simpl. by rewrite showing_quiet. }
  set (finish := fun finished => _).
  assert (forall h' finished, executing h' envelope ->
    obeys delivery_rule h' (finish finished) /\ ends (fun h'' ended => ended = false \/ settled h'') h' (finish finished)) as Hend.
  { intros h' [finished|] He; [|by split; [|left]]. unfold finish. cbn [obeys ends].
    assert (executing (h' ++ [Awaited JoinUploads ()])%list envelope) as He' by (by apply executing_snoc).
    match goal with |- context [SendCompletion ?s ?r] => assert (forall confirmed,
      reported ((h' ++ [Awaited JoinUploads ()]) ++ [Awaited (SendCompletion s r) confirmed])%list confirmed) as Hr end.
    { intros confirmed. eexists _, _, _, []. split_and!; [reflexivity| |done]. by destruct He' as (? & ? & ? & ? & ? & _ & _ & Hq). }
    split; [split; [by exists envelope|]; intros []; split; [split_and!; [done|done|by exists envelope]|]|intros []];
      intros [[|]|e]; (refine (proj1 (emit_and_settle_rule _ _ _ _ (Hr _) _ _ _)) || refine (proj2 (emit_and_settle_rule _ _ _ _ (Hr _) _ _ _)));
      try done; intros; first [by apply result_event_rule|simpl; eauto]. }
  assert (forall h3, claimed_with h3 envelope execution ->
    obeys delivery_rule h3 (then_ (run_with_heartbeat fuel args envelope secrets execution) finish)
    /\ ends (fun h'' ended => ended = false \/ settled h'') h3 (then_ (run_with_heartbeat fuel args envelope secrets execution) finish)) as Hrun.
  { intros h3 H3. unfold run_with_heartbeat. fold dry. cbn [then_ obeys ends].
    destruct (heartbeat_loop_rule fuel envelope _ (Hx _ H3)) as [Ho He]. split; [split; [split_and!; [by exists envelope|done|done]|]|]; intros [].
    - apply obeys_then_ends; [exact Ho|]. eapply ends_mono; [|exact He]. intros h' finished Hh. by apply Hend.
    - apply ends_then. eapply ends_mono; [|exact He]. intros h' finished Hh. by apply Hend. }
  split.
  - split; [split; [done|by eexists _, _]|]. intros x. split; [by eexists _, _|]. intros y. split; [by eexists _, _|]. intros z. by apply Hrun.
  - intros x y z. by apply Hrun.
Qed.

Lemma handle_message_rule fuel :
  obeys delivery_rule [] (handle_message fuel args queue_id payload)
  /\ ends (fun h ended => ended = false \/ settled h) [] (handle_message fuel args queue_id payload).
Proof.
  assert (forall h (c : WorkerCall (result unit string)) x, settles c = true -> forallb (fun e => negb (settling_event e)) h = true ->
    settled (h ++ [Awaited c x])%list) as Hset by (intros h c x Hc Hh; by eexists _, _).
  unfold handle_message. destruct (envelope_from_slice payload) as [envelope|] eqn:He.
  2:{ split; [split; [|by intros]; left; split; [done|]; intros ? ?; congruence|]. intros x. right. by apply (Hset []). }
  destruct (N.eqb_spec (de_queue_id envelope) queue_id) as [Hq|Hq]; simpl negb; cbv iota.
  2:{ split; [split; [|by intros]; left; split; [done|]; intros ? ?; congruence|]. intros x. right. by apply (Hset []). }
  cbn [obeys ends].
  assert (forall response execution, granted response = Some execution ->
    claimed_with [Awaited (SendClaim (control_subject "claim" (ar_worker_id args)) (the_claim envelope)) (Ok response)] envelope execution) as Hcl
    by (intros response execution Hg; split_and!; [done|done|by exists response, []]).
  split; [split; [split_and!; [done|done|by exists envelope]|]|]; intros [response|e].
  - destruct (granted response) as [execution|] eqn:Hg; [by apply execute_claimed_rule, Hcl|].
    split; [|by intros]. right. by eexists _, _, _.
  - split; [|by intros]. split; [done|]. right. by eexists _, _, _.
  - destruct (granted response) as [execution|] eqn:Hg; [|intros x; right; by apply (Hset [_])].
    by apply execute_claimed_rule, Hcl.
  - intros x. right. by apply (Hset [_]).
Qed.

(** C8: A delivery is executed only when claimed and acknowledged only when settled:
    whatever NATS, the server and the child do, the snapshot is executed at
    most for a granted claim of this worker on its own Queue, under renewals
    of that attempt; the message is acknowledged for good only after the
    server confirmed the completion (or refused the claim), is terminated
    only when malformed, misrouted or lost to another lease, and is returned
    when an answer did not come.  A delivery that ends has made exactly one
    of these calls, its last. *)
Theorem deliveries_settled fuel tr t :
  progresses (handle_message fuel args queue_id payload) tr t ->
  (forall pre B (c : WorkerCall B) x post, tr = (pre ++ Awaited c x :: post)%list -> delivery_rule pre B c)
  /\ (t = Return true -> settled tr).
Proof.
  intros Hp. destruct (handle_message_rule fuel) as [Ho He]. split.
  - intros pre B c x post E. exact (obeys_trace _ _ _ _ [] _ _ _ _ _ Ho Hp E).
  - intros ->. destruct (ends_progresses _ _ _ _ [] He Hp) as [|H]; [done|exact H].
Qed.

End Delivery.

End Worker.

(** ** Subjects *)

(** The server reads the operation and the worker back from the subject. *)
Lemma control_tokens operation worker :
  contains_byte "."%char operation = false -> contains_byte "."%char worker = false ->
  subject_token 3 (control_subject operation worker) = operation /\ subject_token 4 (control_subject operation worker) = worker.
Proof.
  intros Ho Hw. unfold subject_token, control_subject.
  change ("crono.worker.control." ++ operation ++ "." ++ worker)
    with ("crono" ++ String "." ("worker" ++ String "." ("control" ++ String "." (operation ++ String "." worker)))).
  rewrite !split_on_sep by done. rewrite split_on_last by done. done.
Qed.

Lemma output_token worker : contains_byte "."%char worker = false -> subject_token 3 (output_subject worker) = worker.
Proof.
  intros Hw. unfold subject_token, output_subject.
  change ("crono.worker.output." ++ worker) with ("crono" ++ String "." ("worker" ++ String "." ("output" ++ String "." worker))).
  rewrite !split_on_sep by done. rewrite split_on_last by done. done.
Qed.

Lemma resolution_token name : contains_byte "."%char name = false -> subject_token 4 ("crono.worker.queue.resolve." ++ name) = name.
Proof.
  intros Hw. unfold subject_token.
  change ("crono.worker.queue.resolve." ++ name)
    with ("crono" ++ String "." ("worker" ++ String "." ("queue" ++ String "." ("resolve" ++ String "." name)))).
  rewrite !split_on_sep by done. rewrite split_on_last by done. done.
Qed.

(** ** What the worker uploads *)

Definition tails_bounded (t : Tails) : Prop :=
  slen (tl_stdout t) <= LIVE_TAIL_BYTES /\ slen (tl_stderr t) <= LIVE_TAIL_BYTES.

Lemma live_emit_bounded t stderr line : tails_bounded t -> tails_bounded (live_emit t stderr line).
Proof.
  intros [H1 H2]. pose proof (keep_last_length (Z.to_nat LIVE_TAIL_BYTES)) as Hk.
  assert (forall s, slen (keep_last (Z.to_nat LIVE_TAIL_BYTES) s) <= LIVE_TAIL_BYTES) as Hs.
  { intros s. specialize (Hk s). unfold slen, LIVE_TAIL_BYTES in *. lia. }
  unfold live_emit. destruct stderr; split; simpl; auto.
Qed.

(** The tails of a live output that received some lines. *)
Definition live_tails (lines : list (bool * string)) : Tails :=
  foldl (fun t l => live_emit t l.1 l.2) tails_default lines.

Lemma live_tails_bounded lines : tails_bounded (live_tails lines).
Proof.
  unfold live_tails. assert (tails_bounded tails_default) as H by (split; by vm_compute). revert H. generalize tails_default.
  induction lines as [|[e l] lines IH]; intros t Ht; simpl; [done|]. by apply IH, live_emit_bounded.
Qed.

Section Uploads.
Context {WJ : WireJson} (attempt_id : Uuid) (worker : string).

(** The snapshots so far came from a live output. *)
Definition observed (h : list (answered WorkerCall)) : Prop :=
  forall t, Awaited LiveSnapshot t ∈ h -> exists lines, t = live_tails lines.

(** An upload the server's checks accept, with a sequence above those before it. *)
Definition upload_rule (h : list (answered WorkerCall)) (B : Type) (c : WorkerCall B) : Prop :=
  match c with
  | SendOutput subject request =>
      observed h -> ou_attempt_id request = attempt_id
      /\ validate_output request (subject_token 3 subject) = Ok ()
      /\ (forall subject' request' x, Awaited (SendOutput subject' request') x ∈ h -> ou_sequence request' < ou_sequence request)
  | _ => True
  end.

Lemma upload_loop_rule fuel : validate_resource_name worker = Ok () -> contains_byte "."%char worker = false ->
  forall h revision sequence, 0 <= sequence -> sequence + Z.of_nat fuel <= u64_max ->
  (forall s r x, Awaited (SendOutput s r) x ∈ h -> ou_sequence r <= sequence) ->
  obeys upload_rule h (upload_loop fuel attempt_id worker revision sequence).
Proof.
  intros Hn Hd. induction fuel as [|fuel IH]; intros h revision sequence H0 Hs Hh; [exact I|].
  cbn [upload_loop obeys]. split; [exact I|]. intros [|]; [|exact I]. cbn [negb obeys]. split; [exact I|]. intros t.
  assert (forall s r x, Awaited (SendOutput s r) x ∈ ((h ++ [Awaited UploadTick true]) ++ [Awaited LiveSnapshot t])%list -> ou_sequence r <= sequence) as Hh'.
  { intros s r x [[Hx|Hx%list_elem_of_singleton]%elem_of_app|Hx%list_elem_of_singleton]%elem_of_app; [by eapply Hh|done|done]. }
  destruct (tl_revision t =? revision); [apply IH; [done|lia|exact Hh']|].
  assert (saturate 0 u64_max (sequence + 1) = sequence + 1) as E by (unfold saturate; lia). rewrite E. cbn [obeys]. split.
  - intros Hob. destruct (Hob t) as [ls ->]; [set_solver|]. pose proof (live_tails_bounded ls) as [B1 B2]. split_and!; [done| |].
    + rewrite output_token by done. unfold validate_output. simpl. rewrite String.eqb_refl, Hn. simpl.
      unfold MAX_LIVE_TAIL_BYTES. unfold LIVE_TAIL_BYTES in *.
      destruct (Z.eqb_spec (sequence + 1) 0); [lia|]. destruct (Z.ltb_spec 16384 (slen (tl_stdout (live_tails ls)))); [lia|].
      destruct (Z.ltb_spec 16384 (slen (tl_stderr (live_tails ls)))); [lia|]. done.
    + intros s r x Hx. apply Hh' in Hx. simpl. lia.
  - intros accepted. apply IH; [lia|lia|]. intros s r x [Hx|Hx%list_elem_of_singleton]%elem_of_app; [apply Hh' in Hx; lia|].
    assert (r = {| ou_attempt_id := attempt_id; ou_worker_id := worker; ou_sequence := sequence + 1; ou_stdout_tail := tl_stdout t;
      ou_stderr_tail := tl_stderr t |}) as -> by (by inversion Hx). done.
Qed.

End Uploads.

(** What [execute] checks before it connects. *)
Definition valid_args (args : Args) : Prop :=
  validate_token (ar_queue args) = Ok () /\ is_utf8 (ar_queue args) = true
  /\ validate_token (ar_worker_id args) = Ok () /\ is_utf8 (ar_worker_id args) = true.

Lemma token_without_dot s : validate_token s = Ok () -> is_utf8 s = true -> contains_byte "."%char s = false.
Proof. intros Hv Hu. apply canonical_without; [by apply valid_name_canonical|done]. Qed.

Section Protocol.
Context {SJ : SerdeJson} {EJ : EnvelopeJson} {WJ : WireJson}.

Lemma same_worker_refl w : same_worker w w = Ok ().
Proof. unfold same_worker. by rewrite String.eqb_refl. Qed.

(** Worker and server agree on the protocol: for a worker whose name and Queue pass
    the checks of its start, the server reads the worker and the operation
    back from every control subject, so that a claim, a renewal or a
    completion that decodes to the worker's request is never refused for its
    identity but put to the store, and its answer sent back; the resolution
    of the worker's Queue asks the store for exactly that name. *)
Theorem protocol_agrees args reply payload :
  valid_args args ->
  let worker := ar_worker_id args in
  let message subject := {| nm_subject := subject; nm_reply := Some reply; nm_payload := payload |} in
  (forall r, claim_from_slice payload = Some r -> cl_worker_id r = worker ->
     handle_control (message (control_subject "claim" worker)) = ask (ClaimAttempt r) (fun x => respond reply (RClaim x)))
  /\ (forall r, lease_from_slice payload = Some r -> le_worker_id r = worker ->
     handle_control (message (control_subject "renew" worker)) = ask (RenewLease r) (fun x => respond reply (RFlag x)))
  /\ (forall r, completion_from_slice payload = Some r -> co_worker_id r = worker ->
     handle_control (message (control_subject "complete" worker)) = ask (CompleteAttempt r) (fun x => respond reply (RFlag x)))
  /\ (resolution_from_slice payload = Some {| qreq_name := ar_queue args |} ->
     handle_queue_resolution (message ("crono.worker.queue.resolve." ++ ar_queue args))
     = Await (FindQueueByName (MkQueueName (ar_queue args))) (fun found => respond reply (RQueue (resolution_response found)))).
Proof.
  intros (Hq & Hqu & Hw & Hwu) worker message. pose proof (token_without_dot _ Hw Hwu) as Hd. fold worker in Hd.
  unfold handle_control, handle_queue_resolution, message. cbn [nm_reply nm_subject nm_payload].
  destruct (control_tokens "claim" worker eq_refl Hd) as [-> ->]. destruct (control_tokens "renew" worker eq_refl Hd) as [-> ->].
  destruct (control_tokens "complete" worker eq_refl Hd) as [-> ->].
  split_and!; [intros r Hr Ew; simpl; rewrite Hr; simpl; by rewrite Ew, same_worker_refl..|].
  intros Hr. rewrite Hr. simpl. unfold QueueNameM.parse. unfold validate_token in Hq. rewrite Hq. simpl.
  rewrite resolution_token by (by apply token_without_dot). by rewrite String.eqb_refl.
Qed.

(** The server accepts what a worker uploads: whatever lines the child prints and
    whichever uploads are lost or refused, every live snapshot is within the
    server's bounds, names the worker of its subject and carries a sequence
    above every earlier one, so the store's increasing-sequence test never
    drops the latest snapshot for an older one. *)
Theorem uploads_accepted args fuel attempt_id tr t :
  valid_args args -> Z.of_nat fuel <= u64_max -> progresses (upload_live_output fuel attempt_id (ar_worker_id args)) tr t ->
  observed tr ->
  forall pre subject request x post, tr = (pre ++ Awaited (SendOutput subject request) x :: post)%list ->
    ou_attempt_id request = attempt_id /\ validate_output request (subject_token 3 subject) = Ok ()
    /\ (forall subject' request' x', Awaited (SendOutput subject' request') x' ∈ pre -> ou_sequence request' < ou_sequence request).
Proof.
  intros (_ & _ & Hw & Hwu) Hf Hp Hob pre subject request x post E.
  assert (obeys (upload_rule attempt_id) [] (upload_live_output fuel attempt_id (ar_worker_id args))) as Ho.
  { apply upload_loop_rule; [done|by apply token_without_dot|done|lia|]. intros s r y H. by apply elem_of_nil in H. }
  apply (obeys_trace _ _ _ _ _ _ _ _ _ _ Ho Hp E). intros t0 Ht. apply Hob. rewrite E. set_solver.
Qed.

End Protocol.

(** ** Witnesses *)

Definition example_args : Args := {| ar_nats_url := "nats://127.0.0.1:4222"; ar_queue := "default"; ar_worker_id := "worker-01"; ar_concurrency := 4; ar_dry_run := false;
  ar_log_format := LogPretty |}.

Lemma example_args_valid : valid_args example_args.
Proof. by vm_compute. Qed.

#[export] Instance envelope_example : EnvelopeJson := {|
  envelope_from_slice := fun s => if (s =? "dispatch")%string then Some (mkDispatchEnvelope 102 100 101 2) else None;
|}.

(** A renewal of the worker reaches the store. *)
Lemma protocol_agrees_witness :
  handle_control {| nm_subject := control_subject "renew" "worker-01"; nm_reply := Some "inbox"; nm_payload := "{}" |}
  = ask (RenewLease {| le_attempt_id := 101; le_worker_id := "worker-01" |}) (fun x => respond "inbox" (RFlag x)).
Proof.
  exact (proj1 (proj2 (protocol_agrees example_args "inbox" "{}" example_args_valid)) _ eq_refl eq_refl).
Defined.

(** A refused claim is acknowledged at once. *)
Lemma deliveries_settled_witness :
  settled [Awaited (SendClaim (control_subject "claim" "worker-01") (mkClaimRequest 100 101 2 "worker-01"))
             (Ok {| cr_claimed := false; cr_lease_seconds := 60; cr_execution := None |}); Awaited DoubleAck (Ok ())].
Proof.
  refine (proj2 (deliveries_settled example_args 2 "dispatch" 3
    [Awaited (SendClaim (control_subject "claim" "worker-01") (mkClaimRequest 100 101 2 "worker-01"))
       (Ok {| cr_claimed := false; cr_lease_seconds := 60; cr_execution := None |}); Awaited DoubleAck (Ok ())] (Return true) _) eq_refl).
  exact (progresses_await (SendClaim _ _) _ (Ok {| cr_claimed := false; cr_lease_seconds := 60; cr_execution := None |}) _ _
    (progresses_await DoubleAck _ (Ok ()) _ _ (progresses_none _))).
Defined.

(** The tails a snapshot answered. *)
Definition snapshot_of (e : answered WorkerCall) : option Tails :=
  let 'Awaited c x := e in
  match c in WorkerCall B return B -> option Tails with LiveSnapshot => Some | _ => fun _ => None end x.

(** One line, uploaded once. *)
Lemma uploads_accepted_witness :
  validate_output {| ou_attempt_id := 101; ou_worker_id := "worker-01"; ou_sequence := 1;
    ou_stdout_tail := "hello" ++ String newline ""; ou_stderr_tail := "" |} "worker-01" = Ok ().
Proof.
  refine (proj1 (proj2 (uploads_accepted example_args 1 101
    [Awaited UploadTick true; Awaited LiveSnapshot (live_tails [(false, "hello")]);
     Awaited (SendOutput (output_subject "worker-01") {| ou_attempt_id := 101; ou_worker_id := "worker-01"; ou_sequence := 1;
       ou_stdout_tail := "hello" ++ String newline ""; ou_stderr_tail := "" |}) (Some true)] (Return ())
    example_args_valid _ _ _ [Awaited UploadTick true; Awaited LiveSnapshot (live_tails [(false, "hello")])] _ _ (Some true) [] eq_refl))).
  - vm_compute. discriminate.
  - exact (progresses_await UploadTick _ true _ _ (progresses_await LiveSnapshot _ (live_tails [(false, "hello")]) _ _
      (progresses_await (SendOutput _ _) _ (Some true) _ _ (progresses_none _)))).
  - intros t Ht. exists [(false, "hello")]. rewrite !elem_of_cons in Ht. destruct Ht as [Ht|[Ht|[Ht|Ht]]]; [done| |done|by apply elem_of_nil in Ht].
    apply (f_equal snapshot_of) in Ht. by injection Ht as ->.
Defined.
