(* ===== verification/WorkerStart.v ===== *)
(** * Identity, presence and timeline of a worker

    services/worker/src/cli/dispatch/mod.rs (the identity a worker takes by
    default), cli/actions/run.rs (its presence heartbeats) and
    execution/event.rs (the numbered events of one execution). *)

From S2P Require Import Prelude RustStr Json Inputs Names Text Domain Recurrence Db Snapshot Store Planner Scenario Pagination Futures WorkerControl Redaction ExecutionOutput Runner Worker.
From Stdlib Require Import Ascii String.
From stdpp Require Import base numbers strings sorting gmap list.

Local Open Scope string_scope.
Local Open Scope Z_scope.

(** ** The default identity *)

Definition hyphen : ascii := "-"%char.

Definition sanitized (character : Z) : ascii :=
  if is_ascii_alphanumeric character then ascii_of_N (Z.to_N (to_ascii_lowercase character)) else hyphen.

(** [hostname] is [None] when the platform reports none; [random] is a fresh UUID. *)
Definition default_worker_id (hostname : option string) (random : Uuid) : string :=
  let hostname := default "worker" hostname in
  let prefix := string_of_list_ascii (map sanitized (chars hostname)) in
  let prefix := trim_matches hyphen (substring 0 46 prefix) in
  let prefix := if (prefix =? "")%string then "worker" else prefix in
  let random := hex_digits 32 random "" in
  prefix ++ "-" ++ drop_bytes 16 random.

Example default_worker_ids :
  map (fun host => default_worker_id host 1) [Some "Build_Host.example"; Some "---"; None]
  = ["build-host-example-0000000000000001"; "worker-0000000000000001"; "worker-0000000000000001"].
Proof. reflexivity. Qed.

(** ** Presence *)

(** What the worker reads of its host. *)
Record Host : Type := mkHost {
  host_hostname : option string;
  host_os : string;
  host_architecture : string;
  host_shell_present : bool;
  host_var : string -> option string;
}.

Definition safe_variable (host : Host) (name : string) : option string :=
  match host_var host name with
  | Some value => if (slen value <=? 128) && negb (has_control value) then Some value else None
  | None => None
  end.

Definition worker_diagnostics (host : Host) (dry_run : bool) : WorkerDiagnostics :=
  {| wd_hostname := default "unknown" (host_hostname host); wd_os := host_os host; wd_architecture := host_architecture host;
     wd_default_shell_path := "/bin/sh"; wd_default_shell_present := host_shell_present host; wd_dry_run := dry_run;
     wd_lang := safe_variable host "LANG"; wd_lc_all := safe_variable host "LC_ALL"; wd_tz := safe_variable host "TZ" |}.

(** [env!("CARGO_PKG_VERSION")] *)
Definition CARGO_PKG_VERSION : string := "0.1.10".

Definition presence_subject (worker_id : string) : string := "crono.worker.presence." ++ worker_id.

Definition presence_of (args : Args) (host : Host) (queue_id session_id : Uuid) : WorkerHeartbeatRequest :=
  {| hb_worker_id := ar_worker_id args; hb_session_id := session_id; hb_queue_id := queue_id;
     hb_concurrency := ar_concurrency args; hb_version := CARGO_PKG_VERSION;
     hb_diagnostics := Some (worker_diagnostics host (ar_dry_run args)) |}.

(** The loop of [run_presence_heartbeat], for [fuel] heartbeats; a refused or failed one is only logged. *)
Fixpoint presence_loop (fuel : nat) (subject : string) (request : WorkerHeartbeatRequest) : work unit :=
  match fuel with
  | O => Return ()
  | S fuel =>
      Await PresenceTick (fun running =>
        if negb running then Return ()
        else Await (SendHeartbeat subject request) (fun answer =>
          match answer with
          | None => Return ()
          | Some _ => presence_loop fuel subject request
          end))
  end.

Definition run_presence_heartbeat (fuel : nat) (args : Args) (host : Host) (queue_id session_id : Uuid) : work unit :=
  presence_loop fuel (presence_subject (ar_worker_id args)) (presence_of args host queue_id session_id).

(** ** The timeline of an execution *)

Record ExecutionEventEnvelope : Type := mkExecutionEventEnvelope {
  ee_timestamp : Instant;
  ee_observation_id : Uuid;
  ee_sequence : Z;
  ee_run_id : Uuid;
  ee_attempt_id : Uuid;
  ee_job_id : option Uuid;
  ee_worker_id : string;
  ee_queue : string;
  ee_event : ExecutionEvent;
}.

(** Without its sink, which gets what [timeline_emit] answers, in the same order. *)
Record ExecutionTimeline : Type := mkExecutionTimeline {
  tm_observation_id : Uuid;
  tm_run_id : Uuid;
  tm_attempt_id : Uuid;
  tm_job_id : option Uuid;
  tm_worker_id : string;
  tm_queue : string;
  tm_next_sequence : Z;
}.

Definition timeline_new (observation_id run_id attempt_id : Uuid) (job_id : option Uuid) (worker_id queue : string) : ExecutionTimeline :=
  mkExecutionTimeline observation_id run_id attempt_id job_id worker_id queue 1.

Definition timeline_emit (now : Instant) (event : ExecutionEvent) (t : ExecutionTimeline) : ExecutionEventEnvelope * ExecutionTimeline :=
  ({| ee_timestamp := now; ee_observation_id := tm_observation_id t; ee_sequence := tm_next_sequence t; ee_run_id := tm_run_id t;
      ee_attempt_id := tm_attempt_id t; ee_job_id := tm_job_id t; ee_worker_id := tm_worker_id t; ee_queue := tm_queue t;
      ee_event := event |},
   mkExecutionTimeline (tm_observation_id t) (tm_run_id t) (tm_attempt_id t) (tm_job_id t) (tm_worker_id t) (tm_queue t)
     (saturate 0 u64_max (tm_next_sequence t + 1))).

(** [LiveOutput::emit]: the events that are lines. *)
Definition live_sink (t : Tails) (envelope : ExecutionEventEnvelope) : Tails :=
  match ee_event envelope with
  | StdoutLine line => live_emit t false line
  | StderrLine line => live_emit t true line
  | _ => t
  end.

(** ** The default identity is a valid one *)

Lemma bytes_app s t : bytes (s ++ t) = (bytes s ++ bytes t)%list.
Proof. induction s as [|a s IH]; [done|]. exact (f_equal (cons (byte_of a)) IH). Qed.

Lemma sanitized_character c : is_name_character (byte_of (sanitized c)) = true.
Proof.
  unfold sanitized. destruct (is_ascii_alphanumeric c) eqn:Ha; [|done].
  unfold is_ascii_alphanumeric, is_ascii_lowercase, is_ascii_uppercase, is_ascii_digit in Ha.
  unfold to_ascii_lowercase, is_ascii_uppercase. rewrite !orb_true_iff, !andb_true_iff, !Z.leb_le in Ha.
  assert (forall z, 48 <= z <= 57 \/ 97 <= z <= 122 -> is_name_character (byte_of (ascii_of_N (Z.to_N z))) = true) as Hz.
  { intros z Hz. unfold byte_of. rewrite N_ascii_embedding by lia. rewrite Z2N.id by lia.
    unfold is_name_character, is_name_boundary, is_ascii_lowercase, is_ascii_digit. lia. }
  apply Hz. destruct ((65 <=? c) && (c <=? 90)) eqn:Hu; [lia|]. lia.
Qed.

Lemma sanitized_bytes l : forallb is_name_character (bytes (string_of_list_ascii (map sanitized l))) = true.
Proof. unfold bytes. rewrite list_ascii_of_string_of_list_ascii. induction l as [|c l IH]; [done|]. simpl. by rewrite sanitized_character. Qed.

Lemma substring_bytes p n s : forallb p (bytes s) = true -> forallb p (bytes (substring 0 n s)) = true /\ (String.length (substring 0 n s) <= n)%nat.
Proof.
  revert n. induction s as [|a s IH]; intros [|n] H; try (split; [done|simpl; lia]). simpl in *. apply andb_true_iff in H as [Ha Hs].
  destruct (IH n Hs) as [H1 H2]. rewrite Ha. split; [exact H1|lia].
Qed.

Lemma name_not_hyphen a : is_name_character (byte_of a) = true -> Ascii.eqb a hyphen = false -> is_name_boundary (byte_of a) = true.
Proof.
  unfold is_name_character. rewrite orb_true_iff. intros [H|H] Ha; [done|]. apply Z.eqb_eq in H. exfalso.
  assert (a = hyphen) as ->; [|by rewrite Ascii.eqb_refl in Ha]. rewrite <- (ascii_N_embedding a). unfold byte_of in H.
  replace (N_of_ascii a) with 45%N by lia. reflexivity.
Qed.

Lemma trim_end_last s d : forallb is_name_character (bytes s) = true -> is_name_boundary d = true ->
  forallb is_name_character (bytes (trim_end_matches hyphen s)) = true
  /\ is_name_boundary (List.last (bytes (trim_end_matches hyphen s)) d) = true.
Proof.
  revert d. induction s as [|a s IH]; intros d Hs Hd; [done|]. cbn [bytes list_ascii_of_string map forallb] in Hs.
  apply andb_true_iff in Hs as [Ha Hs]. cbn [trim_end_matches].
  destruct (trim_end_matches hyphen s =? "")%string eqn:He; cbn [andb].
  - destruct (Ascii.eqb a hyphen) eqn:Eh; [done|]. apply String.eqb_eq in He. rewrite He. simpl. by rewrite Ha, name_not_hyphen.
  - destruct (IH d Hs Hd) as [H1 H2]. change (bytes (String a (trim_end_matches hyphen s))) with (byte_of a :: bytes (trim_end_matches hyphen s)).
    cbn [forallb]. rewrite Ha. split; [exact H1|]. destruct (bytes (trim_end_matches hyphen s)) as [|b l] eqn:Eb; [|exact H2].
    by destruct (trim_end_matches hyphen s).
Qed.

Lemma trim_end_length b s : (String.length (trim_end_matches b s) <= String.length s)%nat.
Proof. destruct (trim_end_matches_prefix b s) as [rest E]. rewrite E at 2. rewrite string_length_app. lia. Qed.

Lemma trim_label s : forallb is_name_character (bytes s) = true ->
  trim_matches hyphen s = "" \/ label_list (bytes (trim_matches hyphen s)).
Proof.
  unfold trim_matches. induction s as [|a s IH]; intros Hs; [by left|]. cbn [bytes list_ascii_of_string map forallb] in Hs.
  apply andb_true_iff in Hs as [Ha Hs]. cbn [trim_start_matches]. destruct (Ascii.eqb a hyphen) eqn:Eh; [by apply IH|].
  right. cbn [trim_end_matches]. rewrite Eh, andb_false_r. pose proof (name_not_hyphen a Ha Eh) as Hb.
  destruct (trim_end_last s (byte_of a) Hs Hb) as [H1 H2]. by split_and!.
Qed.

Lemma trim_length s : (String.length (trim_matches hyphen s) <= String.length s)%nat.
Proof.
  unfold trim_matches. etransitivity; [apply trim_end_length|].
  induction s as [|a s IH]; [done|]. cbn [trim_start_matches]. destruct (Ascii.eqb a hyphen); simpl; lia.
Qed.

Lemma hex_digits_boundary count n acc : forallb is_name_boundary (bytes acc) = true ->
  forallb is_name_boundary (bytes (hex_digits count n acc)) = true
  /\ String.length (hex_digits count n acc) = (count + String.length acc)%nat.
Proof.
  revert n acc. induction count as [|count IH]; intros n acc Ha; [done|]. cbn [hex_digits].
  set (d := (n mod 16)%N). assert (d < 16)%N as Hd by (by apply N.mod_lt). clearbody d.
  destruct (IH (N.div n 16) (hex_digit d ++ acc)) as [H1 H2].
  - unfold hex_digit. cbn [append bytes list_ascii_of_string map forallb]. apply andb_true_iff. split; [|exact Ha].
    unfold byte_of. destruct (N.ltb_spec d 10); rewrite N_ascii_embedding by lia;
      unfold is_name_boundary, is_ascii_lowercase, is_ascii_digit; rewrite orb_true_iff, !andb_true_iff, !Z.leb_le; lia.
  - split; [exact H1|]. rewrite H2, string_length_app. change (String.length (hex_digit d)) with 1%nat. lia.
Qed.

Lemma boundary_label l : l <> [] -> forallb is_name_boundary l = true -> label_list l.
Proof.
  destruct l as [|c l]; [done|]. intros _ H. cbn [forallb] in H. apply andb_true_iff in H as [Hc Hl]. split_and!; [done| |].
  - rewrite forallb_forall in *. intros x Hx. by apply boundary_character, Hl.
  - destruct (last l) as [x|] eqn:El; [|by apply last_None in El as ->]. apply last_Some in El as [l' ->].
    rewrite List.last_last. rewrite forallb_app in Hl. simpl in Hl. by rewrite !andb_true_iff in Hl; destruct Hl as (_ & ? & _).
Qed.

Lemma hyphenated_label l l' : label_list l -> label_list l' -> label_list (l ++ 45 :: l')%list.
Proof.
  destruct l as [|c l]; [done|]. destruct l' as [|c' l']; [done|]. intros (Hc & Hl & _) (Hc' & Hl' & Hlast). cbn [app].
  split_and!; [done| |].
  - rewrite forallb_app, Hl. cbn [forallb]. by rewrite (boundary_character c') by done.
  - rewrite (last_default _ c 0) by (by destruct l). change (45 :: c' :: l')%list with ([45; c'] ++ l')%list. destruct l' as [|x l'] using rev_ind.
    + rewrite app_nil_r. change [45; c'] with ([45] ++ [c'])%list. by rewrite (assoc_L app), List.last_last.
    + rewrite !(assoc_L app), List.last_last. by rewrite List.last_last in Hlast.
Qed.

(** A worker that is not named takes an identity that passes its own check and the server's. *)
Theorem default_worker_valid hostname random : validate_token (default_worker_id hostname random) = Ok ().
Proof.
  unfold default_worker_id, validate_token. set (prefix := string_of_list_ascii _).
  destruct (substring_bytes is_name_character 46 prefix (sanitized_bytes _)) as [H1 H2].
  pose proof (trim_label _ H1) as Hl. pose proof (trim_length (substring 0 46 prefix)) as Hn.
  set (name := trim_matches hyphen (substring 0 46 prefix)) in *. set (shown := if (name =? "")%string then "worker" else name).
  assert (label_list (bytes shown) /\ slen shown <= 46) as [Hs Hs'].
  { unfold shown, slen. destruct (String.eqb_spec name "") as [->|Hne]; [split; [by vm_compute|simpl; lia]|]. destruct Hl; [done|]. split; [done|lia]. }
  destruct (hex_digits_boundary 32 random "" eq_refl) as [Hh Hd]. pose proof (substring_split 16 (hex_digits 32 random "")) as E.
  set (digits := hex_digits 32 random "") in *. fold (drop_bytes 16 digits) in E. rewrite E, bytes_app, forallb_app in Hh.
  apply andb_true_iff in Hh as [_ Hh]. rewrite Nat.add_0_r in Hd.
  pose proof (drop_bytes_length 16 digits ltac:(rewrite Hd; lia)) as Hdl. rewrite Hd in Hdl.
  apply canonical_label_valid, canonical_label_spec. change (slen (shown ++ "-" ++ drop_bytes 16 digits) <= 63 /\ label_list (bytes (shown ++ "-" ++ drop_bytes 16 digits))).
  split.
  - rewrite !slen_app. unfold slen in *. change (String.length "-") with 1%nat. lia.
  - rewrite !bytes_app. apply hyphenated_label; [done|]. apply boundary_label; [|done]. intros E0.
    apply (f_equal (fun l => Z.of_nat (length l))) in E0. rewrite length_bytes in E0. unfold slen in E0. simpl in E0. lia.
Qed.

(** ** The server accepts the presence of a worker *)

Section Presence.
Context {WJ : WireJson}.

(** A name the platform reports: not empty, at most 255 bytes, no control characters. *)
Definition platform_name (s : string) : bool := negb (s =? "")%string && (slen s <=? 255) && negb (has_control s).

(** The host's names are such, and the concurrency is one the command line accepts. *)
Definition presentable (args : Args) (host : Host) : Prop :=
  valid_args args /\ in_range 1 256 (ar_concurrency args) = true
  /\ platform_name (default "unknown" (host_hostname host)) = true /\ platform_name (host_os host) = true
  /\ platform_name (host_architecture host) = true.

Lemma check_identities_platform values : Forall (fun s => platform_name s = true) values -> check_identities values = Ok ().
Proof.
  induction 1 as [|s values Hs _ IH]; [done|]. cbn [check_identities]. unfold platform_name in Hs.
  rewrite !andb_true_iff, !negb_true_iff, Z.leb_le in Hs. destruct Hs as [[-> Hl] ->]. by rewrite (proj2 (Z.ltb_ge _ _) Hl).
Qed.

Lemma check_environment_safe host names : check_environment (map (safe_variable host) names) = Ok ().
Proof.
  induction names as [|name names IH]; [done|]. cbn [map]. unfold safe_variable at 1.
  destruct (host_var host name) as [value|]; [|done]. destruct (slen value <=? 128) eqn:Hl; [|done]. destruct (has_control value) eqn:Hc; [done|].
  cbn [andb negb check_environment]. rewrite Hc. apply Z.leb_le in Hl. by rewrite (proj2 (Z.ltb_ge _ _) Hl).
Qed.

Lemma diagnostics_valid host dry_run :
  platform_name (default "unknown" (host_hostname host)) = true -> platform_name (host_os host) = true ->
  platform_name (host_architecture host) = true -> check_diagnostics (worker_diagnostics host dry_run) = Ok ().
Proof.
  intros Hh Ho Ha. unfold check_diagnostics, worker_diagnostics.
  cbn [wd_hostname wd_os wd_architecture wd_default_shell_path wd_lang wd_lc_all wd_tz].
  rewrite check_identities_platform by (by repeat constructor). exact (check_environment_safe host ["LANG"; "LC_ALL"; "TZ"]).
Qed.

Lemma presence_valid args host queue_id session_id :
  presentable args host ->
  validate_heartbeat (presence_of args host queue_id session_id) (ar_worker_id args) = Ok ().
Proof.
  intros ((_ & _ & Hw & _) & Hc & Hh & Ho & Ha). unfold validate_heartbeat, presence_of.
  cbn [hb_worker_id hb_concurrency hb_version hb_diagnostics]. unfold validate_token in Hw.
  rewrite same_worker_refl, Hw, Hc, diagnostics_valid by done. reflexivity.
Qed.

Lemma presence_token worker : contains_byte "."%char worker = false -> subject_token 3 (presence_subject worker) = worker.
Proof.
  intros Hw. unfold subject_token, presence_subject.
  change ("crono.worker.presence." ++ worker) with ("crono" ++ String "." ("worker" ++ String "." ("presence" ++ String "." worker))).
  rewrite !split_on_sep by done. rewrite split_on_last by done. done.
Qed.

Definition presence_rule (subject : string) (request : WorkerHeartbeatRequest) (h : list (answered WorkerCall)) (B : Type)
    (c : WorkerCall B) : Prop :=
  match c with SendHeartbeat s r => s = subject /\ r = request | _ => True end.

Lemma presence_loop_rule fuel subject request : forall h, obeys (presence_rule subject request) h (presence_loop fuel subject request).
Proof.
  induction fuel as [|fuel IH]; intros h; [exact I|]. cbn [presence_loop obeys]. split; [exact I|]. intros [|]; [|exact I].
  cbn [negb obeys]. split; [done|]. intros [answer|]; [apply IH|exact I].
Qed.

(** A running worker is visible: every heartbeat it sends, however many are lost
    or refused, carries its session, Queue and canonical identity, and the
    server's presence handler accepts it whenever it reads the request back:
    its checks pass, so it asks for the Queue and records the heartbeat. *)
Theorem presence_accepted args host queue_id session_id fuel tr t pre subject request x post :
  presentable args host -> progresses (run_presence_heartbeat fuel args host queue_id session_id) tr t ->
  tr = (pre ++ Awaited (SendHeartbeat subject request) x :: post)%list ->
  request = presence_of args host queue_id session_id
  /\ forall reply payload, heartbeat_from_slice payload = Some request ->
     handle_presence {| nm_subject := subject; nm_reply := Some reply; nm_payload := payload |}
     = ask (FindQueue queue_id) (fun _ => ask (RecordWorkerHeartbeat request) (fun _ => respond reply (RFlag true))).
Proof.
  intros Hp Ht E. pose proof (obeys_trace _ _ _ _ [] _ _ _ _ _ (presence_loop_rule fuel _ _ []) Ht E) as [-> ->]. split; [done|].
  intros reply payload Hr. unfold handle_presence. cbn [nm_reply nm_subject nm_payload]. rewrite Hr.
  destruct Hp as [(Hq & Hqu & Hw & Hwu) Hp]. rewrite presence_token by (by apply token_without_dot).
  cbn [parsed ok_or unless]. by rewrite presence_valid.
Qed.

End Presence.

(** ** Events are numbered without gaps *)

Fixpoint timeline_run (events : list (Instant * ExecutionEvent)) (t : ExecutionTimeline) : list ExecutionEventEnvelope :=
  match events with
  | [] => []
  | (now, event) :: events => let '(envelope, t) := timeline_emit now event t in envelope :: timeline_run events t
  end.

(** One execution's events get the numbers from 1 on, in their order, and the
    identities of that execution. *)
Lemma timeline_sequences observation_id run_id attempt_id job_id worker_id queue events :
  Z.of_nat (length events) < u64_max ->
  let envelopes := timeline_run events (timeline_new observation_id run_id attempt_id job_id worker_id queue) in
  map ee_sequence envelopes = seqZ 1 (Z.of_nat (length events)) /\ map ee_event envelopes = map snd events
  /\ Forall (fun e => ee_attempt_id e = attempt_id /\ ee_observation_id e = observation_id /\ ee_worker_id e = worker_id) envelopes.
Proof.
  intros Hn envelopes. unfold envelopes, timeline_new.
  assert (forall events n, 0 <= n -> n + Z.of_nat (length events) < u64_max + 1 ->
    let l := timeline_run events (mkExecutionTimeline observation_id run_id attempt_id job_id worker_id queue n) in
    map ee_sequence l = seqZ n (Z.of_nat (length events)) /\ map ee_event l = map snd events
    /\ Forall (fun e => ee_attempt_id e = attempt_id /\ ee_observation_id e = observation_id /\ ee_worker_id e = worker_id) l) as H;
    [|apply H; lia].
  clear. induction events as [|[now event] events IH]; intros n H0 Hn; [done|]. cbn [timeline_run timeline_emit]. simpl in Hn.
  unfold tm_next_sequence, tm_observation_id, tm_run_id, tm_attempt_id, tm_job_id, tm_worker_id, tm_queue.
  destruct (IH (n + 1)) as (H1 & H2 & H3); [lia|lia|]. replace (saturate 0 u64_max (n + 1)) with (n + 1) by (unfold saturate; lia).
  cbn [map]. rewrite H1, H2. split_and!; [|done|by constructor]. cbn [length ee_sequence].
  rewrite (seqZ_cons n) by lia. f_equal. f_equal; lia.
Qed.

Definition example_host : Host :=
  {| host_hostname := Some "build-01"; host_os := "linux"; host_architecture := "x86_64"; host_shell_present := true;
     host_var := fun name => if (name =? "TZ")%string then Some "UTC" else None |}.

Lemma presence_accepted_witness :
  presence_of example_args example_host 2 7 = presence_of example_args example_host 2 7
  /\ forall reply payload, heartbeat_from_slice payload = Some (presence_of example_args example_host 2 7) ->
     handle_presence {| nm_subject := presence_subject "worker-01"; nm_reply := Some reply; nm_payload := payload |}
     = ask (FindQueue 2) (fun _ => ask (RecordWorkerHeartbeat (presence_of example_args example_host 2 7)) (fun _ => respond reply (RFlag true))).
Proof.
  apply (presence_accepted example_args example_host 2 7 1
    [Awaited PresenceTick true; Awaited (SendHeartbeat (presence_subject "worker-01") (presence_of example_args example_host 2 7)) (Some (Ok true))]
    (Return ()) [Awaited PresenceTick true] _ _ (Some (Ok true)) []).
  - split; [apply example_args_valid|]. by vm_compute.
  - exact (progresses_await PresenceTick _ true _ _ (progresses_await (SendHeartbeat _ _) _ (Some (Ok true)) _ _ (progresses_none _))).
  - reflexivity.
Defined.
