(* ===== verification/Cluster.v ===== *)
(** * The cluster: servers, NATS and workers

    Any number of servers over one database and of workers, joined by the
    dispatch stream and by requests over Core NATS.  A message of the stream
    may be delivered any number of times, to any worker, or be garbage; a
    request may be lost, handled or answered late; a handler, a worker or a
    server may crash at any await.  Whatever happens, an attempt is executed
    at most once, and what is executed is the snapshot its Run recorded. *)

From S2P Require Import Prelude RustStr Json Inputs Names Float Domain Auth Recurrence Workflow Db Snapshot TxLogic Store Planner WorkflowStore Catalog Queries WorkflowDefinitions Lifecycle Refinement WorkflowRefinement StoreSystem Scenario PlannerTheorems Validation Application ApplicationSystem Service Futures Dispatcher WorkerControl Publication Server Redaction ExecutionOutput Runner Worker.
From Stdlib Require Import String.
From stdpp Require Import base numbers strings sorting gmap list relations.

Local Open Scope Z_scope.

(** ** State *)

(** A handler of worker control: its message, the events so far and what is left of it. *)
Record Handling : Type := mkHandling { hd_message : NatsMessage; hd_events : list awaited; hd_task : task (result unit ControlError) }.

(** A delivery a worker is handling; [dl_waiting] is the request whose reply it awaits. *)
Record Delivery : Type := mkDelivery {
  dl_args : Args;
  dl_queue_id : Uuid;
  dl_payload : string;
  dl_events : list (answered WorkerCall);
  dl_task : work bool;
  dl_waiting : option NatsMessage;
}.

(** [cs_sent] are all requests ever sent, [cs_requests] those not yet handled,
    [cs_replies] the replies under way, each with the request it answers, and
    [cs_executed] the executions started so far: attempt and snapshot. *)
Record cluster : Type := mkCluster {
  cs_server : server;
  cs_sent : list NatsMessage;
  cs_requests : list NatsMessage;
  cs_handlers : list Handling;
  cs_replies : list (NatsMessage * Response);
  cs_deliveries : list Delivery;
  cs_executed : list (Uuid * ExecutionSnapshot);
}.

Section Cluster.
Context {SJ : SerdeJson} {RF : RustFmt} {PG : PostgresServer} {TC : TimeCrate} {SE : SnapshotEncoding}
  {DJ : DiagnosticsJson} {CC : CronCrates} {WJ : WireJson} {EJ : EnvelopeJson}.

(** ** Steps *)

(** The request of a call, as its handler reads it. *)
Definition encodes {B} (c : WorkerCall B) (m : NatsMessage) : Prop :=
  match c with
  | SendClaim subject r => nm_subject m = subject /\ claim_from_slice (nm_payload m) = Some r
  | SendRenewal subject r => nm_subject m = subject /\ lease_from_slice (nm_payload m) = Some r
  | SendCompletion subject r => nm_subject m = subject /\ completion_from_slice (nm_payload m) = Some r
  | _ => False
  end.

(** How a reply is read: the body the call expects. *)
Definition reads_as {B} (c : WorkerCall B) (body : Response) : B -> Prop :=
  match c in WorkerCall B return B -> Prop with
  | SendClaim _ _ => fun x => match body with RClaim response => x = Ok response | _ => exists e, x = Err e end
  | SendRenewal _ _ => fun x => match body with RFlag flag => x = Ok flag | _ => exists e, x = Err e end
  | SendCompletion _ _ => fun x => match body with RFlag flag => x = Ok flag | _ => exists e, x = Err e end
  | _ => fun _ => False
  end.

(** A request that fails: no responder, a timeout or a lost connection. *)
Definition fails {B} (c : WorkerCall B) : B -> Prop :=
  match c in WorkerCall B return B -> Prop with
  | SendClaim _ _ => fun x => exists e, x = Err e
  | SendRenewal _ _ => fun x => exists e, x = Err e
  | SendCompletion _ _ => fun x => exists e, x = Err e
  | _ => fun _ => False
  end.

(** A call that is no request: of the worker's own process or an acknowledgement. *)
Definition is_local {B} (c : WorkerCall B) : bool :=
  match c with SendClaim _ _ | SendRenewal _ _ | SendCompletion _ _ => false | _ => true end.

(** What a call executes, for the attempt its delivery names. *)
Definition executes (payload : string) {B} (c : WorkerCall B) : list (Uuid * ExecutionSnapshot) :=
  match c, envelope_from_slice payload with
  | StartExecution _ execution _, Some envelope => [(de_attempt_id envelope, execution)]
  | _, _ => []
  end.

(** The reply a call sends, addressed as the handled message is but for its inbox. *)
Definition sends (m : NatsMessage) {B} (c : ServerCall B) : list (NatsMessage * Response) :=
  match c with
  | Respond reply body => [({| nm_subject := nm_subject m; nm_reply := Some reply; nm_payload := nm_payload m |}, body)]
  | _ => []
  end.

Inductive cluster_step : cluster -> cluster -> Prop :=
| CServer sv sv' sent reqs hs reps ds ex :
    server_step sv sv' -> cluster_step (mkCluster sv sent reqs hs reps ds ex) (mkCluster sv' sent reqs hs reps ds ex)
| CDeliver sv sent reqs hs reps ds ex args queue_id payload fuel :
    cluster_step (mkCluster sv sent reqs hs reps ds ex)
      (mkCluster sv sent reqs hs reps
         (ds ++ [mkDelivery args queue_id payload [] (handle_message fuel args queue_id payload) None]) ex)
| CSend sv sent reqs hs reps l r ex args queue_id payload events {B} (c : WorkerCall B) k m :
    encodes c m -> nm_reply m ∉ map nm_reply sent ->
    cluster_step (mkCluster sv sent reqs hs reps (l ++ mkDelivery args queue_id payload events (Await c k) None :: r) ex)
      (mkCluster sv (sent ++ [m]) (reqs ++ [m]) hs reps (l ++ mkDelivery args queue_id payload events (Await c k) (Some m) :: r) ex)
| CHandle sv sent l m r hs reps ds ex duty t :
    handler m duty t ->
    cluster_step (mkCluster sv sent (l ++ m :: r) hs reps ds ex)
      (mkCluster sv sent (l ++ r) (hs ++ [mkHandling m [] t]) reps ds ex)
| CCall d st live sent reqs l r reps reps' ds ex m events {B} (c : ServerCall B) k x d' st' :
    performs d st c x d' st' -> (reps' = [] \/ reps' = sends m c) ->
    cluster_step (mkCluster (mkServer d st live) sent reqs (l ++ mkHandling m events (Await c k) :: r) reps ds ex)
      (mkCluster (mkServer d' st' live) sent reqs (l ++ mkHandling m (events ++ [Awaited c x]) (k x) :: r) (reps ++ reps') ds ex)
| CHandled sv sent reqs l h r reps ds ex :
    cluster_step (mkCluster sv sent reqs (l ++ h :: r) reps ds ex) (mkCluster sv sent reqs (l ++ r) reps ds ex)
| CReply sv sent reqs hs rl m body rr l r ex args queue_id payload events {B} (c : WorkerCall B) k m' x :
    nm_reply m = nm_reply m' -> reads_as c body x ->
    cluster_step
      (mkCluster sv sent reqs hs (rl ++ (m, body) :: rr) (l ++ mkDelivery args queue_id payload events (Await c k) (Some m') :: r) ex)
      (mkCluster sv sent reqs hs (rl ++ rr) (l ++ mkDelivery args queue_id payload (events ++ [Awaited c x]) (k x) None :: r) ex)
| CFail sv sent reqs hs reps l r ex args queue_id payload events {B} (c : WorkerCall B) k w x :
    fails c x ->
    cluster_step (mkCluster sv sent reqs hs reps (l ++ mkDelivery args queue_id payload events (Await c k) w :: r) ex)
      (mkCluster sv sent reqs hs reps (l ++ mkDelivery args queue_id payload (events ++ [Awaited c x]) (k x) None :: r) ex)
| CLocal sv sent reqs hs reps l r ex args queue_id payload events {B} (c : WorkerCall B) k x :
    is_local c = true ->
    cluster_step (mkCluster sv sent reqs hs reps (l ++ mkDelivery args queue_id payload events (Await c k) None :: r) ex)
      (mkCluster sv sent reqs hs reps (l ++ mkDelivery args queue_id payload (events ++ [Awaited c x]) (k x) None :: r)
         (ex ++ executes payload c))
| CDelivered sv sent reqs hs reps l x r ex :
    cluster_step (mkCluster sv sent reqs hs reps (l ++ x :: r) ex) (mkCluster sv sent reqs hs reps (l ++ r) ex).

(** ** Grants under way *)

(** A grant: the attempt and the snapshot to execute. *)
Notation grant := (Uuid * ExecutionSnapshot)%type.

Definition grant_of (attempt_id : Uuid) (response : ClaimResponse) : list grant :=
  match granted response with Some execution => [(attempt_id, execution)] | None => [] end.

(** The store just granted a claim, and the handler has not yet replied. *)
Definition store_grant (e : awaited) : list grant :=
  let 'Awaited c x := e in
  match c in ServerCall B return B -> list grant with
  | ClaimAttempt r => fun x => match x with Ok response => grant_of (cl_attempt_id r) response | Err _ => [] end
  | _ => fun _ => []
  end x.

Definition handler_grants (h : Handling) : list grant :=
  match last (hd_events h) with Some e => store_grant e | None => [] end.

(** A reply under way that grants the claim of its request. *)
Definition reply_grants (reply : NatsMessage * Response) : list grant :=
  match reply.2, claim_from_slice (nm_payload reply.1) with
  | RClaim response, Some r => grant_of (cl_attempt_id r) response
  | _, _ => []
  end.

Definition claim_grants (e : answered WorkerCall) : list grant :=
  let 'Awaited c x := e in
  match c in WorkerCall B return B -> list grant with
  | SendClaim _ r => fun x => match x with Ok response => grant_of (cl_attempt_id r) response | Err _ => [] end
  | _ => fun _ => []
  end x.

Definition starts_execution (e : answered WorkerCall) : bool :=
  let 'Awaited c _ := e in match c with StartExecution _ _ _ => true | _ => false end.

(** A delivery that holds a grant it has not yet executed. *)
Definition delivery_grants (x : Delivery) : list grant :=
  if existsb starts_execution (dl_events x) then [] else concat (map claim_grants (dl_events x)).

(** Every grant is in one place: at a handler, in a reply, at a delivery or executed. *)
Definition grants (s : cluster) : list grant :=
  (concat (map handler_grants (cs_handlers s)) ++ concat (map reply_grants (cs_replies s))
   ++ concat (map delivery_grants (cs_deliveries s)) ++ cs_executed s)%list.

(** ** Invariant *)

(** The attempt was claimed, and the snapshot is the one its Run recorded. *)
Definition grant_ok (c : CoreTables) (g : grant) : Prop := exists a r,
  run_attempts c !! g.1 = Some a /\ (attempt_rank ARunning <= attempt_rank (a_status a))%nat
  /\ runs c !! a_run_id a = Some r /\ r_execution_snapshot r = Rendered g.2.

(** A handler claims what its message asks for. *)
Definition claims_message (m : NatsMessage) (e : awaited) : Prop :=
  let 'Awaited c _ := e in match c with ClaimAttempt r => claim_from_slice (nm_payload m) = Some r | _ => True end.

Definition handling_ok (sent : list NatsMessage) (h : Handling) : Prop :=
  hd_message h ∈ sent /\ (exists duty, obeys (guarded duty (hd_message h)) (hd_events h) (hd_task h))
  /\ Forall (claims_message (hd_message h)) (hd_events h).

Definition delivery_ok (sent : list NatsMessage) (x : Delivery) : Prop :=
  obeys (delivery_rule (dl_args x) (dl_queue_id x) (dl_payload x)) (dl_events x) (dl_task x)
  /\ match dl_waiting x with
     | Some m => m ∈ sent /\ match dl_task x with Await c _ => encodes c m | Return _ => False end
     | None => True
     end.

Record cluster_ok (s : cluster) : Prop := {
  ok_server : server_ok (cs_server s);
  ok_inboxes : NoDup (map nm_reply (cs_sent s));
  ok_requests : Forall (fun m => m ∈ cs_sent s) (cs_requests s);
  ok_handlers : Forall (handling_ok (cs_sent s)) (cs_handlers s);
  ok_replies : Forall (fun reply => reply.1 ∈ cs_sent s) (cs_replies s);
  ok_deliveries : Forall (delivery_ok (cs_sent s)) (cs_deliveries s);
  ok_once : NoDup (map fst (grants s));
  ok_grants : Forall (grant_ok (core (sv_db (cs_server s)))) (grants s);
}.

Lemma grant_ok_mono d d' g : core_inv (core d) -> rtc store_step d d' -> grant_ok (core d) g -> grant_ok (core d') g.
Proof.
  intros Hi Hs (a & r & Ha & Hk & Hr & Hx).
  destruct (core_steps_attempt _ _ _ _ Hi (history_core _ _ Hi Hs) Ha) as (a' & Ha' & (Hid & _) & He).
  destruct (core_steps_run _ _ _ _ Hi (history_core _ _ Hi Hs) Hr) as (r' & Hr' & (_ & _ & _ & _ & _ & _ & _ & Hsn & _) & _).
  exists a', r'. split_and!; [done| |by rewrite Hid|congruence]. pose proof (attempt_edges_rank _ _ He). lia.
Qed.

(** Fewer grants are as good. *)
Lemma fewer_grants c g g' :
  g' ⊆+ g -> NoDup (map fst g) /\ Forall (grant_ok c) g -> NoDup (map fst g') /\ Forall (grant_ok c) g'.
Proof.
  intros [k Hk]%submseteq_Permutation [Hn Hf]. rewrite Hk in Hf. apply Forall_app in Hf as [Hf _]. split; [|done].
  rewrite Hk, map_app in Hn. by apply NoDup_app in Hn as [Hn _].
Qed.

Lemma exchange {A} (new old rest l l' : list A) : new ⊆+ old -> l' ≡ₚ new ++ rest -> l ≡ₚ old ++ rest -> l' ⊆+ l.
Proof. intros H -> ->. by apply submseteq_skips_r. Qed.

Lemma concat_map_split {A B} (f : A -> list B) l x r :
  concat (map f (l ++ x :: r)) = concat (map f l) ++ f x ++ concat (map f r).
Proof. by rewrite map_app, concat_app. Qed.

Lemma concat_map_snoc {A B} (f : A -> list B) l x : concat (map f (l ++ [x])) = concat (map f l) ++ f x.
Proof. rewrite concat_map_split. simpl. by rewrite app_nil_r. Qed.

(** ** Lemmas: the steps *)

(** A call of a handler is a history of the store. *)
Lemma handler_call_ok d st live {B} (c : ServerCall B) x d' st' duty m h :
  server_ok (mkServer d st live) -> guarded duty m h B c -> performs d st c x d' st' ->
  server_ok (mkServer d' st' live) /\ rtc store_step d d'.
Proof.
  intros (Hi & Hp & Ho & Hok & Hl) Hg Hc. assert (marks_published [] B c) as Hm by (by destruct duty as [| |[]|], c).
  destruct (performs_ok _ _ _ _ _ _ [] Hi Ho Hm (Forall_nil_2 _) Hc) as [H1 H2 _ H4 H5 H6]. split; [|done]. simpl in *.
  split_and!; [by eapply history_inv|by apply H4|by apply H5|by apply H6|].
  eapply Forall_impl; [exact Hl|]. intros a. apply activity_ok_mono; [by apply history_core|done].
Qed.

(** What a claim of the store that was granted adds. *)
Lemma claim_fresh d r res d' g gs :
  call (claim_attempt r) d (Ok res) d' -> g ∈ grant_of (cl_attempt_id r) res -> Forall (grant_ok (core d)) gs ->
  grant_of (cl_attempt_id r) res = [g] /\ g.1 ∉ map fst gs /\ grant_ok (core d') g.
Proof.
  intros Hc Hg Hgs. unfold grant_of in *. destruct (granted res) as [exec|] eqn:He; [|by apply elem_of_nil in Hg].
  apply list_elem_of_singleton in Hg as ->. split; [done|]. unfold granted in He. destruct (cr_claimed res) eqn:Hcl; [|done].
  destruct (claimed_moves _ _ _ _ Hc Hcl) as (a & a' & Ha & Hq & Ha' & Hr & _ & exec' & run & Hx & Hrun & Hsn). split.
  - intros ([aid e] & E & Hin)%list_elem_of_fmap. simpl in E. subst aid. rewrite Forall_forall in Hgs.
    destruct (Hgs _ Hin) as (b & rb & Hb & Hk & _). simpl in Hb. rewrite Ha in Hb. injection Hb as <-. rewrite Hq in Hk. simpl in Hk. lia.
  - exists a', run. rewrite Hr. assert (exec' = exec) as -> by congruence. by split_and!.
Qed.

Lemma handler_grants_snoc m events e t : handler_grants (mkHandling m (events ++ [e]) t) = store_grant e.
Proof. unfold handler_grants. cbn [hd_events]. by rewrite last_snoc. Qed.

(** The reply of a handler passes on the grant it holds. *)
Lemma reply_passes_grant duty m events {B} (c : ServerCall B) t :
  Forall (claims_message m) events -> guarded duty m events B c ->
  concat (map reply_grants (sends m c)) ⊆+ handler_grants (mkHandling m events t).
Proof.
  intros He Hg. destruct c; simpl; try apply submseteq_nil_l.
  assert (reports duty events body) as Hr by (destruct duty as [| |[]|]; apply Hg). rewrite app_nil_r.
  unfold reply_grants. cbn [fst snd nm_payload]. destruct body as [response| |]; try apply submseteq_nil_l.
  inversion Hr as [request response' Eh| | | | | |]; subst. apply Forall_cons in He as [He _]. simpl in He. by rewrite He.
Qed.

(** Only a granted claim makes a new grant. *)
Lemma performs_grant d st {B} (c : ServerCall B) x d' st' gs :
  performs d st c x d' st' -> Forall (grant_ok (core d)) gs ->
  store_grant (Awaited c x) = []
  \/ exists g, store_grant (Awaited c x) = [g] /\ g.1 ∉ map fst gs /\ grant_ok (core d') g.
Proof.
  intros Hp Hgs. destruct Hp as [| | | | |r res d' Hc| | | | | | | | | | | |]; try by left.
  destruct res as [res|]; [|by left]. simpl. destruct (grant_of (cl_attempt_id r) res) as [|g l] eqn:E; [by left|right].
  exists g. rewrite <- E. apply (claim_fresh _ _ _ _ _ _ Hc); [|done]. rewrite E. by left.
Qed.

Lemma call_grants d st {B} (c : ServerCall B) x d' st' gs gs' :
  core_inv (core d) -> rtc store_step d d' -> performs d st c x d' st' -> gs' ⊆+ store_grant (Awaited c x) ++ gs ->
  NoDup (map fst gs) /\ Forall (grant_ok (core d)) gs -> NoDup (map fst gs') /\ Forall (grant_ok (core d')) gs'.
Proof.
  intros Hi Hs Hp Hsub [Hn Hf]. apply (fewer_grants _ _ _ Hsub).
  assert (Forall (grant_ok (core d')) gs) as Hf' by (eapply Forall_impl; [exact Hf|]; intros g; by apply grant_ok_mono).
  destruct (performs_grant _ _ _ _ _ _ _ Hp Hf) as [->|(g & -> & Hg & Hok)]; [done|]. cbn [app map]. split; [by constructor|by constructor].
Qed.

(** Who awaits a reply gets the one to its own request. *)
Lemma same_inbox sent m m' : NoDup (map nm_reply sent) -> m ∈ sent -> m' ∈ sent -> nm_reply m = nm_reply m' -> m = m'.
Proof.
  intros Hn Hm Hm' E. apply list_elem_of_lookup_1 in Hm as [i Hi]. apply list_elem_of_lookup_1 in Hm' as [j Hj].
  assert (i = j) as ->; [|congruence].
  apply (NoDup_lookup (nm_reply <$> sent) _ _ (nm_reply m)); [exact Hn|by rewrite list_lookup_fmap, Hi|].
  rewrite list_lookup_fmap, Hj. simpl. by rewrite E.
Qed.

Lemma existsb_snoc {A} (f : A -> bool) l x : existsb f (l ++ [x]) = existsb f l || f x.
Proof. rewrite existsb_app. simpl. by rewrite orb_false_r. Qed.

(** An event that neither grants nor starts changes nothing. *)
Lemma delivery_grants_snoc args queue_id payload events e t t' w w' :
  delivery_grants (mkDelivery args queue_id payload (events ++ [e]) t w)
  ⊆+ delivery_grants (mkDelivery args queue_id payload events t' w') ++ claim_grants e.
Proof.
  unfold delivery_grants. cbn [dl_events]. rewrite existsb_snoc, concat_map_snoc.
  destruct (existsb starts_execution events); [apply submseteq_nil_l|]. simpl. destruct (starts_execution e); [apply submseteq_nil_l|done].
Qed.

(** A reply hands its grant to the delivery that claimed. *)
Lemma reply_grants_read {B} (c : WorkerCall B) m body x :
  encodes c m -> reads_as c body x -> claim_grants (Awaited c x) ⊆+ reply_grants (m, body).
Proof.
  intros He Hx. destruct c; try apply submseteq_nil_l. destruct He as [_ He]. unfold reply_grants. cbn [fst snd]. rewrite He. simpl in *.
  destruct body; [by subst|by destruct Hx as [e ->]..].
Qed.

Lemma local_no_grant {B} (c : WorkerCall B) x : is_local c = true -> claim_grants (Awaited c x) = [].
Proof. by destruct c. Qed.

Lemma failed_no_grant {B} (c : WorkerCall B) x : fails c x -> claim_grants (Awaited c x) = [].
Proof. destruct c; try done. by intros [e ->]. Qed.

(** Starting an execution uses up the grant of the delivery. *)
Lemma execution_uses_grant args queue_id payload events {B} (c : WorkerCall B) x t t' w :
  delivery_rule args queue_id payload events B c -> is_local c = true ->
  delivery_grants (mkDelivery args queue_id payload (events ++ [Awaited c x]) t w) ++ executes payload c
  ⊆+ delivery_grants (mkDelivery args queue_id payload events t' w).
Proof.
  intros Hr Hl. destruct (starts_execution (Awaited c x)) eqn:Hs.
  - destruct c; try done. destruct Hr as [(envelope & He & Hq & response & shown & Hg & -> & Hsh) _].
    unfold delivery_grants, executes. cbn [dl_events]. rewrite existsb_snoc, Hs, orb_true_r, He. cbn [app].
    assert (existsb starts_execution shown = false /\ concat (map claim_grants shown) = []) as [Hns Hnc].
    { clear -Hsh. induction shown as [|[B c y] shown IH]; [done|]. simpl in Hsh. apply andb_true_iff in Hsh as [Hc Hsh].
      destruct (IH Hsh) as [H1 H2]. simpl. rewrite H1, H2. by destruct c. }
    cbn [existsb map concat starts_execution claim_grants orb]. rewrite Hns, Hnc, app_nil_r. unfold grant_of. by rewrite Hg.
  - assert (executes payload c = []) as -> by (unfold executes; destruct c; try done; by destruct (envelope_from_slice payload)).
    rewrite app_nil_r. etrans; [apply (delivery_grants_snoc _ _ _ _ _ _ t' _ w)|]. by rewrite local_no_grant, app_nil_r.
Qed.

Lemma handling_ok_more sent m h : handling_ok sent h -> handling_ok (sent ++ [m]) h.
Proof. intros (H1 & H2). split; [set_solver|done]. Qed.

Lemma delivery_ok_more sent m x : delivery_ok sent x -> delivery_ok (sent ++ [m]) x.
Proof. intros [H1 H2]. split; [done|]. destruct (dl_waiting x); [|done]. destruct H2 as [H2 H3]. split; [set_solver|done]. Qed.

(** The invariant from its parts, when the server stands still and grants only move or vanish. *)
Lemma quiet_ok s s' :
  cluster_ok s -> cs_server s' = cs_server s -> cs_sent s' = cs_sent s ->
  Forall (fun m => m ∈ cs_sent s) (cs_requests s') -> Forall (handling_ok (cs_sent s)) (cs_handlers s') ->
  Forall (fun reply => reply.1 ∈ cs_sent s) (cs_replies s') -> Forall (delivery_ok (cs_sent s)) (cs_deliveries s') ->
  grants s' ⊆+ grants s -> cluster_ok s'.
Proof.
  intros [] E1 E2 H1 H2 H3 H4 Hg. destruct (fewer_grants _ _ _ Hg (conj ok_once0 ok_grants0)) as [Hn Hf].
  split; rewrite ?E1, ?E2; done.
Qed.

Ltac cluster_grants := unfold grants; cbn [cs_handlers cs_replies cs_deliveries cs_executed];
  rewrite ?concat_map_split, ?concat_map_snoc, ?app_nil_r.

Ltac cluster_split := repeat match goal with
  | H : Forall _ (_ ++ _) |- _ => apply Forall_app in H as [? ?]
  | H : Forall _ (_ :: _) |- _ => apply Forall_cons in H as [? ?]
  end.

Ltac cluster_forall := repeat first [assumption | apply Forall_app; split | apply Forall_cons; split | apply Forall_nil_2].

Lemma delivery_step_ok args queue_id payload events {B} (c : WorkerCall B) k x sent w :
  delivery_ok sent (mkDelivery args queue_id payload events (Await c k) w) ->
  delivery_rule args queue_id payload events B c
  /\ delivery_ok sent (mkDelivery args queue_id payload (events ++ [Awaited c x]) (k x) None).
Proof. intros [[Hc Hk] _]. split; [done|]. split; [apply Hk|done]. Qed.

Lemma reply_step_ok sv sent reqs hs rl m body rr l r ex args queue_id payload events {B} (c : WorkerCall B) k m' x :
  cluster_ok (mkCluster sv sent reqs hs (rl ++ (m, body) :: rr) (l ++ mkDelivery args queue_id payload events (Await c k) (Some m') :: r) ex) ->
  nm_reply m = nm_reply m' -> reads_as c body x ->
  cluster_ok (mkCluster sv sent reqs hs (rl ++ rr) (l ++ mkDelivery args queue_id payload (events ++ [Awaited c x]) (k x) None :: r) ex).
Proof.
  intros Hok Em Hx. pose proof Hok as [_ Hn Hreq Hh Hrep Hd _ _]. cbn [cs_server cs_sent cs_requests cs_handlers cs_replies cs_deliveries] in *.
  cluster_split. destruct (delivery_step_ok _ _ _ _ _ _ x _ _ ltac:(eassumption)) as [_ Hd'].
  match goal with H : delivery_ok _ (mkDelivery _ _ _ _ (Await c k) _) |- _ => destruct H as [_ [Hm' He]] end. cbn [dl_task dl_waiting] in *.
  assert (m = m') as -> by (by eapply same_inbox).
  apply (quiet_ok _ _ Hok); cbn [cs_server cs_sent cs_requests cs_handlers cs_replies cs_deliveries]; [done|done|cluster_forall..|].
  cluster_grants. pose proof (delivery_grants_snoc args queue_id payload events (Awaited c x) (k x) (Await c k) None (Some m')) as HG1.
  pose proof (reply_grants_read c m' body x He Hx) as HG2.
  set (A := concat (map handler_grants hs)). set (R1 := concat (map reply_grants rl)) in *. set (R2 := concat (map reply_grants rr)) in *.
  set (D1 := concat (map delivery_grants l)). set (D2 := concat (map delivery_grants r)).
  rewrite map_app, concat_app. fold R1 R2.
  refine (exchange _ _ (A ++ R1 ++ R2 ++ D1 ++ D2 ++ ex) _ _ (transitivity HG1 (submseteq_skips_l _ _ _ HG2)) _ _); solve_Permutation.
Qed.

Lemma call_step_ok d st live sent reqs l r reps reps' ds ex m events {B} (c : ServerCall B) k x d' st' :
  cluster_ok (mkCluster (mkServer d st live) sent reqs (l ++ mkHandling m events (Await c k) :: r) reps ds ex) ->
  performs d st c x d' st' -> (reps' = [] \/ reps' = sends m c) ->
  cluster_ok (mkCluster (mkServer d' st' live) sent reqs (l ++ mkHandling m (events ++ [Awaited c x]) (k x) :: r) (reps ++ reps') ds ex).
Proof.
  intros [Hsv Hn Hreq Hh Hrep Hd Ho Hg] Hp Hr. cbn [cs_server cs_sent cs_requests cs_handlers cs_replies cs_deliveries] in *. cluster_split.
  match goal with H : handling_ok _ (mkHandling m _ _) |- _ => destruct H as (Hm & (duty & Hc & Hk) & He) end. cbn [hd_message hd_events hd_task] in *.
  destruct (handler_call_ok _ _ _ _ _ _ _ _ _ _ Hsv Hc Hp) as [Hsv' Hst].
  assert (concat (map reply_grants reps') ⊆+ handler_grants (mkHandling m events (Await c k))) as Hrg.
  { destruct Hr as [->| ->]; [apply submseteq_nil_l|by apply (reply_passes_grant duty)]. }
  assert (Forall (fun reply => reply.1 ∈ sent) reps') as Hrs.
  { destruct Hr as [->| ->]; [constructor|]. destruct c; try constructor; [|constructor].
    assert (nm_reply m = Some reply) as Hc' by (destruct duty as [| |[]|]; apply Hc). destruct m. simpl in *. by rewrite <- Hc'. }
  assert (claims_message m (Awaited c x)) as Hcm
    by (destruct duty as [| |[]|], c; try done; apply Hc).
  match goal with |- cluster_ok ?s' => set (after := s') end.
  assert (NoDup (map fst (grants after)) /\ Forall (grant_ok (core d')) (grants after)) as [Hn' Hg'].
  { refine (call_grants _ _ _ _ _ _ _ _ (proj1 Hsv) Hst Hp _ (conj Ho Hg)). unfold after. cluster_grants.
    rewrite handler_grants_snoc. rewrite (map_app reply_grants), concat_app. set (g := store_grant _).
    refine (exchange _ _ (g ++ concat (map handler_grants l) ++ concat (map handler_grants r) ++ concat (map reply_grants reps)
      ++ concat (map delivery_grants ds) ++ ex) _ _ Hrg _ _); solve_Permutation. }
  split; try done; cbn [cs_server cs_sent cs_requests cs_handlers cs_replies cs_deliveries after]; [|cluster_forall].
  cluster_forall. split_and!; [done|exists duty; apply Hk|]. cbn [hd_events hd_message]. cluster_forall.
Qed.

Lemma send_step_ok sv sent reqs hs reps l r ex args queue_id payload events {B} (c : WorkerCall B) k m :
  cluster_ok (mkCluster sv sent reqs hs reps (l ++ mkDelivery args queue_id payload events (Await c k) None :: r) ex) ->
  encodes c m -> nm_reply m ∉ map nm_reply sent ->
  cluster_ok (mkCluster sv (sent ++ [m]) (reqs ++ [m]) hs reps (l ++ mkDelivery args queue_id payload events (Await c k) (Some m) :: r) ex).
Proof.
  intros [Hs Hn Hreq Hh Hrep Hd Ho Hg] He Hm. cbn [cs_server cs_sent cs_requests cs_handlers cs_replies cs_deliveries] in *. cluster_split.
  assert (forall l, Forall (delivery_ok sent) l -> Forall (delivery_ok (sent ++ [m])) l) as Hmore
    by (intros l' H'; eapply Forall_impl; [exact H'|]; apply delivery_ok_more).
  split; cbn [cs_server cs_sent cs_requests cs_handlers cs_replies cs_deliveries]; try done.
  - rewrite map_app. apply NoDup_app. split_and!; [done| |by apply NoDup_singleton]. intros i Hi ->%list_elem_of_singleton. done.
  - cluster_forall; [|set_solver]. eapply Forall_impl; [exact Hreq|]. set_solver.
  - eapply Forall_impl; [exact Hh|]. apply handling_ok_more.
  - eapply Forall_impl; [exact Hrep|]. set_solver.
  - cluster_forall; [by apply Hmore| |by apply Hmore]. split; [|split; [set_solver|exact He]].
    match goal with H : delivery_ok _ (mkDelivery _ _ _ _ (Await c k) _) |- _ => apply H end.
  - revert Ho. cluster_grants. done.
  - revert Hg. cluster_grants. done.
Qed.

(** A delivery goes on by itself: its grant stays, is executed or is lost. *)
Lemma delivery_moves_ok sv sent reqs hs reps l x ys r ex exs :
  cluster_ok (mkCluster sv sent reqs hs reps (l ++ x :: r) ex) -> Forall (delivery_ok sent) ys ->
  concat (map delivery_grants ys) ++ exs ⊆+ delivery_grants x ->
  cluster_ok (mkCluster sv sent reqs hs reps (l ++ ys ++ r) (ex ++ exs)).
Proof.
  intros Hok Hys HG. pose proof Hok as [_ _ Hreq Hh Hrep Hd _ _]. cbn [cs_sent cs_deliveries] in *. cluster_split.
  apply (quiet_ok _ _ Hok); try done; [by cluster_forall|]. cluster_grants. rewrite !map_app, !concat_app.
  refine (exchange _ _ (concat (map handler_grants hs) ++ concat (map reply_grants reps) ++ concat (map delivery_grants l)
    ++ concat (map delivery_grants r) ++ ex) _ _ HG _ _); solve_Permutation.
Qed.

(** A handler starts or is cut off. *)
Lemma handling_moves_ok sv sent reqs reqs' l hs hs' r reps ds ex :
  cluster_ok (mkCluster sv sent reqs (l ++ hs ++ r) reps ds ex) -> Forall (handling_ok sent) hs' -> Forall (fun m => m ∈ sent) reqs' ->
  concat (map handler_grants hs') ⊆+ concat (map handler_grants hs) ->
  cluster_ok (mkCluster sv sent reqs' (l ++ hs' ++ r) reps ds ex).
Proof.
  intros Hok Hhs Hrs HG. pose proof Hok as [_ _ Hreq Hh Hrep Hd _ _]. cbn [cs_sent cs_handlers] in *. cluster_split.
  apply (quiet_ok _ _ Hok); try done; [by cluster_forall|]. cluster_grants. rewrite !map_app, !concat_app.
  refine (exchange _ _ (concat (map handler_grants l) ++ concat (map handler_grants r) ++ concat (map reply_grants reps)
    ++ concat (map delivery_grants ds) ++ ex) _ _ HG _ _); solve_Permutation.
Qed.

Lemma cluster_step_ok s s' : cluster_ok s -> cluster_step s s' -> cluster_ok s'.
Proof.
  intros Hok Hs. destruct Hs as [sv sv' sent reqs hs reps ds ex Hsv|sv sent reqs hs reps ds ex args queue_id payload fuel
    |sv sent reqs hs reps l r ex args queue_id payload events B c k m He Hm|sv sent l m r hs reps ds ex duty t Ht
    |d st live sent reqs l r reps reps' ds ex m events B c k x d' st' Hp Hr|sv sent reqs l h r reps ds ex
    |sv sent reqs hs rl m body rr l r ex args queue_id payload events B c k m' x Em Hx
    |sv sent reqs hs reps l r ex args queue_id payload events B c k w x Hx
    |sv sent reqs hs reps l r ex args queue_id payload events B c k x Hx|sv sent reqs hs reps l x r ex].
  - destruct Hok as [Hs Hn Hreq Hh Hrep Hd Ho Hg]. destruct (server_step_ok _ _ Hs Hsv) as [Hs' Hst]. split; try done.
    eapply Forall_impl; [exact Hg|]. intros g. apply grant_ok_mono; [apply Hs|done].
  - pose proof Hok as [_ _ Hreq Hh Hrep Hd _ _]. apply (quiet_ok _ _ Hok); try done.
    + cbn [cs_deliveries cs_sent] in *. cluster_forall. split; [apply handle_message_rule|done].
    + cluster_grants. done.
  - by eapply send_step_ok.
  - pose proof (ok_requests _ Hok) as Hreq. cbn [cs_sent cs_requests] in Hreq. cluster_split. rewrite <- (app_nil_r hs) in Hok.
    rewrite <- (app_nil_r (hs ++ _)), <- (assoc_L app). refine (handling_moves_ok _ _ _ _ hs [] _ [] _ _ _ Hok _ _ _); [| |done].
    + cluster_forall. split_and!; [done|eexists; by apply handler_guarded|constructor].
    + by cluster_forall.
  - by eapply call_step_ok.
  - refine (handling_moves_ok _ _ _ _ l [h] [] r _ _ _ Hok _ (ok_requests _ Hok) _); [constructor|apply submseteq_nil_l].
  - by eapply reply_step_ok.
  - rewrite <- (app_nil_r ex). refine (delivery_moves_ok _ _ _ _ _ l _ [_] r _ [] Hok _ _).
    + pose proof (ok_deliveries _ Hok) as Hd. cbn [cs_sent cs_deliveries] in Hd. cluster_split. cluster_forall. by eapply delivery_step_ok.
    + simpl. rewrite !app_nil_r. etrans; [eapply delivery_grants_snoc|]. by rewrite failed_no_grant, app_nil_r.
  - pose proof (ok_deliveries _ Hok) as Hd. cbn [cs_sent cs_deliveries] in Hd. cluster_split.
    destruct (delivery_step_ok _ _ _ _ _ _ x _ _ ltac:(eassumption)) as [Hrule Hd'].
    refine (delivery_moves_ok _ _ _ _ _ l _ [_] r _ _ Hok _ _); [by cluster_forall|]. simpl. rewrite app_nil_r. by apply execution_uses_grant.
  - rewrite <- (app_nil_r ex). refine (delivery_moves_ok _ _ _ _ _ l _ [] r _ [] Hok _ _); [constructor|apply submseteq_nil_l].
Qed.

Lemma cluster_steps_ok s s' : cluster_ok s -> rtc cluster_step s s' -> cluster_ok s'.
Proof. intros Hok Hs. induction Hs as [s|s1 s2 s3 H1 _ IH]; [done|]. by apply IH, (cluster_step_ok s1). Qed.

(** A database and nothing running. *)
Definition cluster_start (d : DB) : cluster := mkCluster (mkServer d empty_stream []) [] [] [] [] [] [].

Lemma cluster_start_ok d : core_inv (core d) -> unpublished d -> cluster_ok (cluster_start d).
Proof. intros Hi Hu. split; [by apply unpublished_ok|constructor..]. Qed.

(** ** Executions *)

(** The executions of a Run. *)
Definition executions_of (c : CoreTables) (run_id : Uuid) (executed : list grant) : list grant :=
  List.filter (fun g => match run_attempts c !! g.1 with Some a => (a_run_id a =? run_id)%N | None => false end) executed.

(** The number of an attempt. *)
Definition number_of (c : CoreTables) (g : grant) : Z :=
  match run_attempts c !! g.1 with Some a => a_attempt a | None => 0 end.

(** Distinct attempts of a Run have distinct numbers, all within its count. *)
Lemma executions_counted c run_id r executed :
  core_inv c -> runs c !! run_id = Some r -> NoDup (map fst executed) ->
  Z.of_nat (length (executions_of c run_id executed)) <= r_attempt_count r.
Proof.
  intros [Hsh _] Hr Hn. set (l := executions_of c run_id executed).
  assert (forall g, g ∈ l -> exists a, run_attempts c !! g.1 = Some a /\ a_run_id a = run_id /\ 1 <= a_attempt a <= r_attempt_count r) as Hin.
  { intros g Hg. apply list_elem_of_In, filter_In in Hg as [_ Hg]. destruct (run_attempts c !! g.1) as [a|] eqn:Ha; [|done].
    apply N.eqb_eq in Hg. exists a. destruct (inv_attempt_run _ Hsh _ _ Ha) as (r' & Hr' & Hk). rewrite Hg in Hr'.
    assert (r' = r) as -> by congruence. split; [done|]. split; [done|exact Hk]. }
  assert (NoDup (map fst l)) as Hl.
  { unfold l, executions_of. clear -Hn. induction executed as [|g gs IH]; [constructor|]. cbn [map] in Hn. apply NoDup_cons in Hn as [Hg Hgs]. simpl.
    case_match; [|by apply IH]. cbn [map]. apply NoDup_cons. split; [|by apply IH]. intros (x & E & Hx)%list_elem_of_fmap. apply Hg.
    rewrite E. apply list_elem_of_fmap_2. apply list_elem_of_In, filter_In in Hx as [Hx _]. by apply list_elem_of_In. }
  assert (NoDup (map (number_of c) l)) as Hnum.
  { clearbody l. induction l as [|g l IH]; [constructor|]. cbn [map] in *. apply NoDup_cons in Hl as [Hg Hl]. apply NoDup_cons.
    split; [|apply IH; [set_solver|done]]. intros (g' & E & Hg')%list_elem_of_fmap. apply Hg.
    destruct (Hin g ltac:(set_solver)) as (a & Ha & Hid & _). destruct (Hin g' ltac:(set_solver)) as (a' & Ha' & Hid' & _).
    unfold number_of in E. rewrite Ha, Ha' in E. rewrite (inv_attempt_unique _ Hsh g.1 g'.1 a a' Ha Ha' ltac:(congruence) E).
    by apply list_elem_of_fmap_2. }
  pose proof (NoDup_submseteq _ (seqZ 1 (r_attempt_count r)) Hnum) as Hsub. apply submseteq_length in Hsub.
  - rewrite length_map, length_seqZ in Hsub. pose proof (inv_run _ Hsh _ _ Hr) as (Hc & _). lia.
  - intros k (g & -> & Hg)%list_elem_of_fmap. destruct (Hin g Hg) as (a & Ha & _ & Hk). unfold number_of. rewrite Ha. apply elem_of_seqZ. lia.
Qed.

(** C3: Execution is at most once: however the messages of the stream are
    redelivered, duplicated or forged, requests and replies lost or late,
    servers, handlers and workers interleaved and crashed, no attempt is
    executed twice, in the whole cluster; what is executed is the snapshot
    its Run recorded, under a claim; a Run is executed at most as often as
    its retry budget says, and at most once when its Job is not idempotent. *)
Theorem executed_at_most_once d s :
  core_inv (core d) -> unpublished d -> rtc cluster_step (cluster_start d) s ->
  let c := core (sv_db (cs_server s)) in
  NoDup (map fst (cs_executed s))
  /\ (forall attempt_id execution, (attempt_id, execution) ∈ cs_executed s ->
       exists a r, run_attempts c !! attempt_id = Some a /\ a_status a <> AQueued /\ a_status a <> APendingDispatch
         /\ runs c !! a_run_id a = Some r /\ r_execution_snapshot r = Rendered execution)
  /\ (forall run_id r, runs c !! run_id = Some r ->
       let n := Z.of_nat (length (executions_of c run_id (cs_executed s))) in
       n <= r_max_attempts r <= 100 /\ (snapshot_idempotent (r_execution_snapshot r) = false -> n <= 1)).
Proof.
  intros Hi Hu Hs c. pose proof (cluster_steps_ok _ _ (cluster_start_ok d Hi Hu) Hs) as [Hsv _ _ _ _ _ Ho Hg].
  destruct Hsv as [Hci _]. unfold grants in Ho, Hg. rewrite !map_app in Ho.
  assert (NoDup (map fst (cs_executed s))) as Hn by (by apply NoDup_app in Ho as (_ & _ & (_ & _ & (_ & _ & Ho)%NoDup_app)%NoDup_app)).
  rewrite !Forall_app in Hg. destruct Hg as (_ & _ & _ & Hg). split_and!; [done| |].
  - intros attempt_id execution Hin. rewrite Forall_forall in Hg. destruct (Hg _ Hin) as (a & r & Ha & Hk & Hr & Hx).
    exists a, r. split_and!; try done; intros E; rewrite E in Hk; simpl in Hk; lia.
  - intros run_id r Hr n. pose proof (executions_counted _ _ _ _ Hci Hr Hn) as Hc. fold c n in Hc.
    pose proof Hci as [Hsh _]. destruct (inv_run _ Hsh _ _ Hr) as (H1 & H2 & _ & _ & Hidem & _). split; [lia|].
    intros Hno. destruct (decide (2 <= r_attempt_count r)) as [Htwo|]; [|lia]. apply Hidem in Htwo. unfold idempotent in Htwo. congruence.
Qed.

End Cluster.

(** ** Witness *)

(** A Run is published, delivered to a worker, claimed and its execution started. *)
Lemma example_execution : exists s execution,
  rtc cluster_step (cluster_start (d_created true)) s /\ cs_executed s = [(101%N, execution)].
Proof.
  set (claim := mkClaimRequest 100 101 2 "worker-01"). set (subject := control_subject "claim" "worker-01").
  assert (exists execution, answer (claim_attempt claim) (quiet 1030 200) (d_published true)
    = Ok {| cr_claimed := true; cr_lease_seconds := 60; cr_execution := Some execution |}) as [execution Ha]
    by (vm_compute; eexists; reflexivity).
  set (response := {| cr_claimed := true; cr_lease_seconds := 60; cr_execution := Some execution |}) in *.
  set (m := {| nm_subject := subject; nm_reply := Some "inbox-1"%string; nm_payload := "claim" |}).
  eexists _, execution. split.
  - etrans.
    { assert (forall sv sv', rtc server_step sv sv' ->
        rtc cluster_step (mkCluster sv [] [] [] [] [] []) (mkCluster sv' [] [] [] [] [] [])) as Hlift
        by (induction 1 as [|x y z H _ IH]; [done|]; eapply rtc_l; [by apply CServer|done]).
      exact (Hlift _ _ example_tick). }
    eapply rtc_l; [exact (CDeliver _ _ _ _ _ [] _ example_args 2 "dispatch" 1)|].
    eapply rtc_l; [refine (CSend _ _ _ _ _ [] [] _ _ _ _ _ _ _ m _ _); [by split|apply not_elem_of_nil]|].
    eapply rtc_l; [exact (CHandle _ _ [] m [] [] _ _ _ _ _ (HControl m))|].
    eapply rtc_l; [refine (CCall _ _ _ _ _ [] [] _ [] _ _ m [] (ClaimAttempt claim) _ (Ok response) _ _ _ (or_introl eq_refl));
      exact (PClaimAttempt _ _ claim _ _ (Scenario.call_ok _ _ _ _ Ha))|].
    eapply rtc_l; [exact (CCall _ _ _ _ _ [] [] _ _ _ _ m _ (Respond "inbox-1" (RClaim response)) _ (Ok ()) _ _
      (PRespond _ _ _ _ _) (or_intror eq_refl))|].
    eapply rtc_l; [exact (CReply _ _ _ _ [] m (RClaim response) [] [] [] _ _ _ _ _ (SendClaim subject claim) _ m (Ok response) eq_refl eq_refl)|].
    do 3 (eapply rtc_l; [refine (CLocal _ _ _ _ _ [] [] _ _ _ _ _ _ _ () _); reflexivity|]).
    eapply rtc_l; [refine (CLocal _ _ _ _ _ [] [] _ _ _ _ _ (StartExecution _ _ _) _ () _); reflexivity|]. apply rtc_refl.
  - reflexivity.
Qed.

Lemma executed_at_most_once_witness : exists s,
  rtc cluster_step (cluster_start (d_created true)) s /\ map fst (cs_executed s) = [101%N] /\ NoDup (map fst (cs_executed s)).
Proof.
  destruct example_execution as (s & execution & Hs & He). exists s. split; [exact Hs|]. split; [by rewrite He|].
  exact (proj1 (executed_at_most_once (d_created true) s example_created_inv example_unpublished Hs)).
Defined.
