(* ===== verification/Nats.v ===== *)
(** * The NATS connection (crates/nats/src/lib.rs, infrastructure/nats.rs)

    The configuration the server and the worker share: which identity and
    which transport security a process connects with, what it reads of its
    secret files and what it says about them; and the server's connection
    manager.  async-nats, nkeys and the file system are parameters. *)

From S2P Require Import Prelude RustStr Inputs Names Dispatcher Redaction.
From Stdlib Require Import Ascii String.
From stdpp Require Import base numbers strings list relations.

Local Open Scope string_scope.
Local Open Scope Z_scope.

(** ** Configuration *)

Definition TLS_CA_FILE_ENV : string := "CRONO_NATS_TLS_CA_FILE".
Definition NKEY_SEED_FILE_ENV : string := "CRONO_NATS_NKEY_SEED_FILE".
Definition CREDS_FILE_ENV : string := "CRONO_NATS_CREDS_FILE".
Definition USER_ENV : string := "CRONO_NATS_USER".
Definition PASSWORD_ENV : string := "CRONO_NATS_PASSWORD".
Definition REDACTED : string := "<redacted>".

Inductive NatsAuth : Type :=
| Anonymous
| NKeySeedFile (path : string)
| CredentialsFile (path : string)
| UserPassword (user password : string).

Record NatsClientConfig : Type := mkNatsClientConfig {
  nc_url : string;
  nc_tls_ca_file : option string;
  nc_auth : NatsAuth;
}.

(** [NatsAuth::source] *)
Definition source (self : NatsAuth) : string :=
  match self with
  | Anonymous => "none"
  | NKeySeedFile _ => NKEY_SEED_FILE_ENV
  | CredentialsFile _ => CREDS_FILE_ENV
  | UserPassword _ _ => "CRONO_NATS_USER/CRONO_NATS_PASSWORD"
  end.

Definition anonymous (url : string) : NatsClientConfig := mkNatsClientConfig url None Anonymous.

(** A variable that is set and not empty. *)
Definition lookup_value (lookup : string -> option string) (name : string) : option string :=
  match lookup name with
  | Some value => if (value =? "")%string then None else Some value
  | None => None
  end.

(** The configured modes, in the order they are pushed. *)
Definition file_modes (lookup : string -> option string) : list NatsAuth :=
  (match lookup_value lookup NKEY_SEED_FILE_ENV with Some path => [NKeySeedFile path] | None => [] end
   ++ match lookup_value lookup CREDS_FILE_ENV with Some path => [CredentialsFile path] | None => [] end)%list.

Definition from_lookup (url : string) (lookup : string -> option string) : result NatsClientConfig string :=
  let tls_ca_file := lookup_value lookup TLS_CA_FILE_ENV in
  let modes := file_modes lookup in
  let? modes := match lookup_value lookup USER_ENV, lookup_value lookup PASSWORD_ENV with
    | Some user, Some password => Ok (modes ++ [UserPassword user password])%list
    | Some _, None => Err (USER_ENV ++ " is set but " ++ PASSWORD_ENV ++ " is not; set both")
    | None, Some _ => Err (PASSWORD_ENV ++ " is set but " ++ USER_ENV ++ " is not; set both")
    | None, None => Ok modes
    end in
  if (1 <? length modes)%nat
  then Err ("configure at most one NATS authentication mode; found " ++ String.concat ", " (map source modes))
  else Ok (mkNatsClientConfig url tls_ca_file (default Anonymous (last modes))).

(** ** Servers *)

(** Trimmed, non-empty entries. *)
Definition server_urls (url : string) : list string :=
  List.filter (fun entry => negb (entry =? "")%string) (map trim (split_on "," url)).

Definition requires_tls (urls : list string) : bool :=
  existsb (fun url =>
    match split_once "://" url with
    | Some (scheme, _) => eq_ignore_ascii_case scheme "tls" || eq_ignore_ascii_case scheme "wss"
    | None => false
    end) urls.

(** ** What the operator sees *)

Section Debug.
Context {RF : RustFmt}.

Definition debug_auth (self : NatsAuth) : string :=
  match self with
  | Anonymous => "Anonymous"
  | NKeySeedFile path => "NKeySeedFile(" ++ debug_str path ++ ")"
  | CredentialsFile path => "CredentialsFile(" ++ debug_str path ++ ")"
  | UserPassword user _ => "UserPassword { user: " ++ debug_str user ++ ", password: " ++ debug_str REDACTED ++ " }"
  end.

(** [{:?}]: the URL is left out. *)
Definition debug_config (self : NatsClientConfig) : string :=
  "NatsClientConfig { tls_ca_file: "
  ++ match nc_tls_ca_file self with Some path => "Some(" ++ debug_str path ++ ")" | None => "None" end
  ++ ", auth: " ++ debug_auth (nc_auth self) ++ ", .. }".

End Debug.

(** ** Secret files *)

Definition ends_with (pat s : string) : bool :=
  (String.length pat <=? String.length s)%nat && (drop_bytes (String.length s - String.length pat) s =? pat)%string.

(** A dashed decoration line. *)
Definition is_marker (line : string) : bool := String.prefix "---" line && ends_with "---" line.

Definition begins_block (line : string) : bool := is_marker line && contains "BEGIN" line.

(** [Iterator::find] on what is left of the lines. *)
Fixpoint find_line (p : string -> bool) (lines : list string) : option (string * list string) :=
  match lines with
  | [] => None
  | line :: lines => if p line then Some (line, lines) else find_line p lines
  end.

(** The value of the next block, and the lines after it. *)
Definition next_block (label : string) (lines : list string) : result (string * list string) string :=
  let? (_, lines) := ok_or (find_line begins_block lines) ("missing the " ++ label ++ " block") in
  match find_line (fun line => negb (line =? "")%string) lines with
  | Some (line, lines) => if is_marker line then Err ("the " ++ label ++ " block is empty") else Ok (line, lines)
  | None => Err ("the " ++ label ++ " block is empty")
  end.

Definition parse_credentials (contents : string) : result (string * string) string :=
  let lines := map trim (Redaction.lines contents) in
  let? (jwt, lines) := next_block "user JWT" lines in
  let? (seed, _) := next_block "NKey seed" lines in
  Ok (jwt, seed).

(** What a connection presents to the server. *)
Record Auth : Type := mkAuth {
  au_signature : option string;
  au_nkey : option string;
  au_jwt : option string;
}.

(** The crate [nkeys]. *)
Class NKeys : Type := {
  KeyPair : Type;
  from_seed : string -> option KeyPair;
  sign : KeyPair -> string -> option string;
  public_key : KeyPair -> string;
}.

Section Files.
Context {NK : NKeys} {RF : RustFmt}.

(** [std::fs::read_to_string] at the time of the connection: the text, or the error's. *)
Variable read_to_string : string -> result string string.

(** An error as [{:#}] shows it: the context, then the cause. *)
Definition read_secret_file (path label : string) : result string string :=
  map_err (fun error => "failed to read the NATS " ++ label ++ " file " ++ path ++ ": " ++ error) (read_to_string path).

Definition key_pair_from_seed (seed path : string) : result KeyPair string :=
  ok_or (from_seed seed) (path ++ " does not contain a valid NATS NKey seed").

Definition sign_nonce (key_pair : KeyPair) (nonce : string) : result string string :=
  ok_or (sign key_pair nonce) "failed to sign the NATS server nonce".

Definition nkey_auth (path nonce : string) : result Auth string :=
  let? seed := read_secret_file path "NKey seed" in
  let? key_pair := key_pair_from_seed (trim seed) path in
  let? signature := sign_nonce key_pair nonce in
  Ok (mkAuth (Some signature) (Some (public_key key_pair)) None).

Definition credentials_auth (path nonce : string) : result Auth string :=
  let? contents := read_secret_file path "credentials" in
  let? (jwt, seed) := map_err (fun error => "invalid NATS credentials file " ++ path ++ ": " ++ error) (parse_credentials contents) in
  let? key_pair := key_pair_from_seed seed path in
  let? signature := sign_nonce key_pair nonce in
  Ok (mkAuth (Some signature) None (Some jwt)).

(** ** Connecting *)

(** The identity the options carry: none, a fixed pair, or a callback on the server's nonce. *)
Inductive Identity : Type :=
| NoIdentity
| FixedIdentity (user password : string)
| SignedIdentity (callback : string -> result Auth string).

Record ConnectOptions : Type := mkConnectOptions {
  op_identity : Identity;
  op_max_reconnects : option Z;
  op_require_tls : bool;
  op_root_certificates : list string;
  op_servers : list string;
}.

(** What [connect] hands to async-nats. *)
Definition connect_options (self : NatsClientConfig) : ConnectOptions :=
  let identity := match nc_auth self with
    | Anonymous => NoIdentity
    | UserPassword user password => FixedIdentity user password
    | NKeySeedFile path => SignedIdentity (nkey_auth path)
    | CredentialsFile path => SignedIdentity (credentials_auth path)
    end in
  let urls := server_urls (nc_url self) in
  mkConnectOptions identity None (bool_decide (is_Some (nc_tls_ca_file self)) || requires_tls urls)
    (match nc_tls_ca_file self with Some ca => [ca] | None => [] end) urls.

End Files.

(** ** The server's connection manager (infrastructure/nats.rs) *)

Definition STREAM_NAME : string := "CRONO_DISPATCH".
Definition DISPATCH_SUBJECTS : string := "crono.dispatch.*".

(** The settings [connect_once] gives the stream; the other fields are async-nats' defaults. *)
Record StreamConfig : Type := mkStreamConfig {
  st_name : string;
  st_description : option string;
  st_subjects : list string;
  st_work_queue : bool;
  st_file_storage : bool;
  st_discard_new : bool;
  st_max_bytes : Z;
  st_max_message_size : Z;
  st_duplicate_window_seconds : Z;
  st_num_replicas : Z;
}.

Definition nats_replicas (var : string -> option string) : Z :=
  match value ← var "CRONO_NATS_REPLICAS"; parse_unsigned in_u64 value with
  | Some value => if (value =? 1) || (value =? 3) || (value =? 5) then value else 1
  | None => 1
  end.

Definition stream_config (var : string -> option string) : StreamConfig :=
  mkStreamConfig STREAM_NAME (Some "Crono durable execution dispatches") [DISPATCH_SUBJECTS] true true true (8 * 1024 * 1024 * 1024) (64 * 1024) 120 (nats_replicas var).

Section Manager.
(** A JetStream context, and what is asked of it. *)
Context {Context_ : Type}.

(** The shared slot and the gauge [nats_connected]; no holder of the lock panics, so it is never poisoned. *)
Record NatsPublisher : Type := mkNatsPublisher {
  np_context : option Context_;
  np_connected : Z;
}.

Definition publisher_new : NatsPublisher := mkNatsPublisher None 0.

Definition current (self : NatsPublisher) : result Context_ string := ok_or (np_context self) "NATS is not connected".

Definition replace_context (context : Context_) (self : NatsPublisher) : NatsPublisher := mkNatsPublisher (Some context) 1.
Definition clear (self : NatsPublisher) : NatsPublisher := mkNatsPublisher None 0.

(** [get_stream] finds the stream through a context. *)
Definition publisher_ready (has_stream : Context_ -> bool) (self : NatsPublisher) : bool :=
  match current self with Ok context => has_stream context | Err _ => false end.

(** [connect_once]: a client, then the stream with its settings. *)
Definition connect_once (connect : result Context_ string)
    (create_or_update_stream : Context_ -> StreamConfig -> result unit string) (var : string -> option string)
  : result Context_ string :=
  let? context := connect in
  let? _ := map_err (fun error => "failed to ensure the Crono execution stream: " ++ error)
    (create_or_update_stream context (stream_config var)) in
  Ok context.

(** What happened in one round of the loop. *)
Inductive round : Type :=
| Cancelled_
| Slept (has_stream : Context_ -> bool) (connected : result Context_ string).

(** One round of [run_connection_manager], and whether the loop goes on. *)
Definition manager_round (r : round) (self : NatsPublisher) : NatsPublisher * bool :=
  match r with
  | Cancelled_ => (clear self, false)
  | Slept has_stream connected =>
      if publisher_ready has_stream self then (self, true)
      else
        let self := clear self in
        match connected with
        | Ok context => (replace_context context self, true)
        | Err _ => (self, true)
        end
  end.

(** The whole loop over the rounds that happen. *)
Fixpoint run_connection_manager (rounds : list round) (self : NatsPublisher) : NatsPublisher :=
  match rounds with
  | [] => self
  | r :: rounds =>
      let '(self, continues) := manager_round r self in
      if continues then run_connection_manager rounds self else self
  end.

(** The gauge tells whether there is a connection, from the start to the end of the loop. *)
Lemma gauge_faithful rounds : forall self,
  (np_connected self = if np_context self then 1 else 0) ->
  let self' := run_connection_manager rounds self in np_connected self' = if np_context self' then 1 else 0.
Proof.
  induction rounds as [|r rounds IH]; intros self Hs; [done|]. cbn [run_connection_manager manager_round].
  destruct r as [|has_stream connected]; [done|]. cbn [manager_round].
  destruct (publisher_ready has_stream self); [by apply IH|]. destruct connected; by apply IH.
Qed.

End Manager.

(** ** Which identity a process connects with *)

(** The variables that select an identity, and nothing else set. *)
Inductive selects (lookup : string -> option string) : NatsAuth -> Prop :=
| SelectsNone :
    lookup_value lookup NKEY_SEED_FILE_ENV = None -> lookup_value lookup CREDS_FILE_ENV = None ->
    lookup_value lookup USER_ENV = None -> lookup_value lookup PASSWORD_ENV = None -> selects lookup Anonymous
| SelectsSeed path :
    lookup_value lookup NKEY_SEED_FILE_ENV = Some path -> lookup_value lookup CREDS_FILE_ENV = None ->
    lookup_value lookup USER_ENV = None -> lookup_value lookup PASSWORD_ENV = None -> selects lookup (NKeySeedFile path)
| SelectsCreds path :
    lookup_value lookup NKEY_SEED_FILE_ENV = None -> lookup_value lookup CREDS_FILE_ENV = Some path ->
    lookup_value lookup USER_ENV = None -> lookup_value lookup PASSWORD_ENV = None -> selects lookup (CredentialsFile path)
| SelectsPair user password :
    lookup_value lookup NKEY_SEED_FILE_ENV = None -> lookup_value lookup CREDS_FILE_ENV = None ->
    lookup_value lookup USER_ENV = Some user -> lookup_value lookup PASSWORD_ENV = Some password ->
    selects lookup (UserPassword user password).

Lemma from_lookup_spec url lookup config :
  from_lookup url lookup = Ok config <->
  exists auth, selects lookup auth /\ config = mkNatsClientConfig url (lookup_value lookup TLS_CA_FILE_ENV) auth.
Proof.
  unfold from_lookup, file_modes. split.
  - destruct (lookup_value lookup NKEY_SEED_FILE_ENV) eqn:H1, (lookup_value lookup CREDS_FILE_ENV) eqn:H2,
      (lookup_value lookup USER_ENV) eqn:H3, (lookup_value lookup PASSWORD_ENV) eqn:H4; cbn; try done; intros [= <-];
      eexists; (split; [|reflexivity]); by constructor.
  - intros (auth & Hs & ->). destruct Hs as [H1 H2 H3 H4|path H1 H2 H3 H4|path H1 H2 H3 H4|user password H1 H2 H3 H4];
      rewrite H1, H2, H3, H4; reflexivity.
Qed.

(** A server of the list whose scheme is TLS. *)
Definition tls_server (url : string) : Prop := exists entry scheme rest,
  entry ∈ server_urls url /\ split_once "://" entry = Some (scheme, rest)
  /\ (eq_ignore_ascii_case scheme "tls" = true \/ eq_ignore_ascii_case scheme "wss" = true).

Lemma requires_tls_spec url : requires_tls (server_urls url) = true <-> tls_server url.
Proof.
  unfold requires_tls, tls_server. rewrite existsb_exists. split.
  - intros (entry & Hin & H). destruct (split_once "://" entry) as [[scheme rest]|] eqn:E; [|done].
    exists entry, scheme, rest. split_and!; [by apply list_elem_of_In|done|by apply orb_true_iff].
  - intros (entry & scheme & rest & Hin & E & H). exists entry. split; [by apply list_elem_of_In|]. rewrite E. by apply orb_true_iff.
Qed.

(** ** The layout of a credentials file *)

Lemma find_line_spec p lines line rest :
  find_line p lines = Some (line, rest) <->
  exists before, lines = (before ++ line :: rest)%list /\ Forall (fun l => p l = false) before /\ p line = true.
Proof.
  split.
  - revert line rest. induction lines as [|l lines IH]; intros line rest; cbn; [done|]. destruct (p l) eqn:E.
    + intros [= <- <-]. exists []. by split_and!.
    + intros (before & -> & Hb & Hp)%IH. exists (l :: before). split_and!; [done|by constructor|done].
  - intros (before & -> & Hb & Hp). induction Hb as [|l before Hl _ IH]; cbn; [by rewrite Hp|by rewrite Hl].
Qed.

(** A block: lines before it, the opening marker, blank lines, the value. *)
Definition block (value : string) (lines rest : list string) : Prop := exists before marker blanks,
  lines = (before ++ marker :: blanks ++ value :: rest)%list
  /\ Forall (fun l => begins_block l = false) before /\ begins_block marker = true
  /\ Forall (fun l => l = "") blanks /\ value <> "" /\ is_marker value = false.

Lemma next_block_spec label lines value rest : next_block label lines = Ok (value, rest) <-> block value lines rest.
Proof.
  unfold next_block, block. split.
  - destruct (find_line begins_block lines) as [[marker lines']|] eqn:E; [|done].
    apply find_line_spec in E as (before & -> & Hb & Hm). cbn.
    destruct (find_line _ lines') as [[line lines'']|] eqn:E; [|done].
    apply find_line_spec in E as (blanks & -> & Hbl & Hl). destruct (is_marker line) eqn:Hk; [done|]. intros [= -> ->].
    exists before, marker, blanks. split_and!; try done.
    + eapply Forall_impl; [exact Hbl|]. cbn. intros l ?%negb_false_iff. by apply String.eqb_eq.
    + by apply negb_true_iff, String.eqb_neq in Hl.
  - intros (before & marker & blanks & -> & Hb & Hm & Hbl & Hv & Hk).
    rewrite (proj2 (find_line_spec begins_block _ marker (blanks ++ value :: rest)%list)); [|by eexists]. cbn.
    rewrite (proj2 (find_line_spec _ _ value rest)); [by rewrite Hk|]. exists blanks. split_and!; [done| |].
    + eapply Forall_impl; [exact Hbl|]. by intros l ->.
    + by apply negb_true_iff, String.eqb_neq.
Qed.

(** The file is read as two blocks, the JWT's first and the seed's after it. *)
Theorem credentials_layout contents jwt seed :
  parse_credentials contents = Ok (jwt, seed) <->
  exists middle rest, block jwt (map trim (Redaction.lines contents)) middle /\ block seed middle rest.
Proof.
  unfold parse_credentials. split.
  - destruct (next_block "user JWT" _) as [[jwt' middle]|] eqn:E1; [|done]. cbn.
    destruct (next_block "NKey seed" middle) as [[seed' rest]|] eqn:E2; [|done]. intros [= -> ->].
    exists middle, rest. by rewrite <- !next_block_spec.
  - intros (middle & rest & H1%(next_block_spec "user JWT") & H2%(next_block_spec "NKey seed")). rewrite H1. cbn. by rewrite H2.
Qed.

(** ** Identity and transport security *)

(** Why a configuration is refused, from which of the variables are set: the
    environment's values have no part in it. *)
Definition configuration_error (seed creds user password : bool) : option string :=
  match user, password with
  | true, false => Some (USER_ENV ++ " is set but " ++ PASSWORD_ENV ++ " is not; set both")
  | false, true => Some (PASSWORD_ENV ++ " is set but " ++ USER_ENV ++ " is not; set both")
  | _, _ =>
      let sources := ((if seed then [NKEY_SEED_FILE_ENV] else []) ++ (if creds then [CREDS_FILE_ENV] else [])
        ++ (if user then ["CRONO_NATS_USER/CRONO_NATS_PASSWORD"] else []))%list in
      if (1 <? length sources)%nat
      then Some ("configure at most one NATS authentication mode; found " ++ String.concat ", " sources) else None
  end.

Definition configured (lookup : string -> option string) (name : string) : bool :=
  bool_decide (is_Some (lookup_value lookup name)).

Lemma from_lookup_error url lookup :
  match from_lookup url lookup with Ok _ => None | Err error => Some error end =
  configuration_error (configured lookup NKEY_SEED_FILE_ENV) (configured lookup CREDS_FILE_ENV)
    (configured lookup USER_ENV) (configured lookup PASSWORD_ENV).
Proof.
  unfold from_lookup, file_modes, configured.
  destruct (lookup_value lookup NKEY_SEED_FILE_ENV), (lookup_value lookup CREDS_FILE_ENV),
    (lookup_value lookup USER_ENV), (lookup_value lookup PASSWORD_ENV); reflexivity.
Qed.

(** What the options present for an identity. *)
Definition presents `{NKeys} (read_to_string : string -> result string string) (auth : NatsAuth) (identity : Identity) : Prop :=
  match auth with
  | Anonymous => identity = NoIdentity
  | UserPassword user password => identity = FixedIdentity user password
  | NKeySeedFile path => exists callback, identity = SignedIdentity callback /\ forall nonce presented,
      callback nonce = Ok presented -> exists text pair signature, read_to_string path = Ok text
        /\ from_seed (trim text) = Some pair /\ sign pair nonce = Some signature
        /\ presented = mkAuth (Some signature) (Some (public_key pair)) None
  | CredentialsFile path => exists callback, identity = SignedIdentity callback /\ forall nonce presented,
      callback nonce = Ok presented -> exists text jwt seed middle rest pair signature, read_to_string path = Ok text
        /\ block jwt (map trim (Redaction.lines text)) middle /\ block seed middle rest
        /\ from_seed seed = Some pair /\ sign pair nonce = Some signature
        /\ presented = mkAuth (Some signature) None (Some jwt)
  end.

Section Theorems.
Context {NK : NKeys} {RF : RustFmt}.

Lemma nkey_auth_ok read path nonce presented :
  nkey_auth read path nonce = Ok presented -> exists text pair signature, read path = Ok text
    /\ from_seed (trim text) = Some pair /\ sign pair nonce = Some signature
    /\ presented = mkAuth (Some signature) (Some (public_key pair)) None.
Proof.
  unfold nkey_auth, read_secret_file, key_pair_from_seed, sign_nonce.
  destruct (read path) as [text|]; cbn; [|done]. destruct (from_seed (trim text)) as [pair|] eqn:E; cbn; [|done].
  destruct (sign pair nonce) as [signature|] eqn:E2; cbn; [|done]. intros [= <-]. by exists text, pair, signature.
Qed.

Lemma credentials_auth_ok read path nonce presented :
  credentials_auth read path nonce = Ok presented -> exists text jwt seed middle rest pair signature, read path = Ok text
    /\ block jwt (map trim (Redaction.lines text)) middle /\ block seed middle rest
    /\ from_seed seed = Some pair /\ sign pair nonce = Some signature
    /\ presented = mkAuth (Some signature) None (Some jwt).
Proof.
  unfold credentials_auth, read_secret_file, key_pair_from_seed, sign_nonce.
  destruct (read path) as [text|]; cbn; [|done]. destruct (parse_credentials text) as [[jwt seed]|] eqn:Hp; cbn; [|done].
  destruct (from_seed seed) as [pair|] eqn:E; cbn; [|done]. destruct (sign pair nonce) as [signature|] eqn:E2; cbn; [|done].
  intros [= <-]. apply credentials_layout in Hp as (middle & rest & H1 & H2). by exists text, jwt, seed, middle, rest, pair, signature.
Qed.

Lemma presents_identity read config : presents read (nc_auth config) (op_identity (connect_options read config)).
Proof.
  destruct config as [url ca [|path|path|user password]]; cbn; try done; eexists; (split; [reflexivity|]); intros nonce presented.
  - apply nkey_auth_ok.
  - apply credentials_auth_ok.
Qed.

(** C40: A process connects to NATS with the identity its environment names
    and with nothing else.  The environment is accepted exactly when it
    selects one identity (or none) unambiguously; the options built from it
    present that identity, a seed or credentials file being read at the time
    of the connection and its nonce signed with the key the file holds, the
    credentials file being a JWT block followed by a seed block; TLS is
    required exactly when a private CA is configured or a server of the list
    has a TLS scheme, and then the configured CA is the only root added. *)
Theorem nats_identity read url lookup config :
  from_lookup url lookup = Ok config <->
  exists auth, selects lookup auth /\ config = mkNatsClientConfig url (lookup_value lookup TLS_CA_FILE_ENV) auth
    /\ let options := connect_options read config in
       presents read auth (op_identity options)
       /\ (op_require_tls options = true <-> (exists ca, lookup_value lookup TLS_CA_FILE_ENV = Some ca) \/ tls_server url)
       /\ op_root_certificates options = option_list (lookup_value lookup TLS_CA_FILE_ENV)
       /\ op_servers options = server_urls url /\ op_max_reconnects options = None.
Proof.
  rewrite from_lookup_spec. split; [|intros (auth & Hs & Hc & _); by exists auth].
  intros (auth & Hs & ->). exists auth. split_and!; [done|done|]. cbn zeta. split_and!; try done.
  - apply (presents_identity read (mkNatsClientConfig _ _ auth)).
  - cbn [connect_options op_require_tls nc_tls_ca_file nc_url].
    rewrite orb_true_iff, bool_decide_eq_true, requires_tls_spec. done.
Qed.

(** What is said when the seed file can be read and is not accepted. *)
Definition seed_failures (path : string) : list string :=
  [path ++ " does not contain a valid NATS NKey seed"; "failed to sign the NATS server nonce"].

Definition credentials_failures (path : string) : list string :=
  (map (fun what => ("invalid NATS credentials file " ++ path ++ ": " ++ what)%string)
    ["missing the user JWT block"; "the user JWT block is empty"; "missing the NKey seed block"; "the NKey seed block is empty"]
   ++ seed_failures path)%list.

Lemma next_block_error label lines error :
  next_block label lines = Err error ->
  error = "missing the " ++ label ++ " block" \/ error = "the " ++ label ++ " block is empty".
Proof.
  unfold next_block. destruct (find_line begins_block lines) as [[marker lines']|]; cbn; [|intros [= <-]; by left].
  destruct (find_line _ lines') as [[line rest]|]; [|intros [= <-]; by right].
  destruct (is_marker line); [|done]. intros [= <-]; by right.
Qed.

Lemma parse_credentials_error contents error :
  parse_credentials contents = Err error ->
  error ∈ ["missing the user JWT block"; "the user JWT block is empty"; "missing the NKey seed block"; "the NKey seed block is empty"].
Proof.
  unfold parse_credentials. destruct (next_block "user JWT" _) as [[jwt rest]|e] eqn:E; cbn.
  - destruct (next_block "NKey seed" rest) as [[seed rest']|e] eqn:E2; cbn; [done|]. intros [= <-].
    apply next_block_error in E2 as [-> | ->]; set_solver.
  - intros [= <-]. apply next_block_error in E as [-> | ->]; set_solver.
Qed.

Lemma nkey_auth_error read path nonce text error :
  read path = Ok text -> nkey_auth read path nonce = Err error -> error ∈ seed_failures path.
Proof.
  intros Hr. unfold nkey_auth, read_secret_file, key_pair_from_seed, sign_nonce, seed_failures. rewrite Hr. cbn.
  destruct (from_seed (trim text)) as [pair|]; cbn; [|intros [= <-]; set_solver].
  destruct (sign pair nonce); cbn; [done|]. intros [= <-]; set_solver.
Qed.

Lemma credentials_auth_error read path nonce text error :
  read path = Ok text -> credentials_auth read path nonce = Err error -> error ∈ credentials_failures path.
Proof.
  intros Hr. unfold credentials_auth, read_secret_file, key_pair_from_seed, sign_nonce, credentials_failures, seed_failures.
  rewrite Hr. cbn [map_err result_bind]. destruct (parse_credentials text) as [[jwt seed]|e] eqn:E; cbn [map_err result_bind].
  - destruct (from_seed seed) as [pair|]; cbn; [|intros [= <-]; set_solver].
    destruct (sign pair nonce); cbn; [done|]. intros [= <-]; set_solver.
  - intros [= <-]. apply elem_of_app. left. apply list_elem_of_fmap. exists e. split; [done|]. by apply parse_credentials_error in E.
Qed.

(** The credentials a process connects with never appear in what it
    says.  The debug form of a configuration does not depend on the URL nor
    on the static password; a refused environment is explained from which
    variables are set and not from their values; and once a secret file could
    be read, what can be said of it is one of a few texts that its path alone
    determines, whatever it holds. *)
Theorem nats_secrets_hidden :
  (forall url url' ca user password password',
     debug_config (mkNatsClientConfig url ca (UserPassword user password))
     = debug_config (mkNatsClientConfig url' ca (UserPassword user password')))
  /\ (forall url url' ca auth, debug_config (mkNatsClientConfig url ca auth) = debug_config (mkNatsClientConfig url' ca auth))
  /\ (forall url url' lookup lookup' error,
       (forall name, configured lookup name = configured lookup' name) ->
       from_lookup url lookup = Err error -> from_lookup url' lookup' = Err error)
  /\ (forall read path text nonce error, read path = Ok text ->
       (nkey_auth read path nonce = Err error -> error ∈ seed_failures path)
       /\ (credentials_auth read path nonce = Err error -> error ∈ credentials_failures path)).
Proof.
  split_and!; [done|done| |].
  - intros url url' lookup lookup' error Hc He. pose proof (from_lookup_error url' lookup') as H'.
    pose proof (from_lookup_error url lookup) as H. rewrite He in H. rewrite !Hc, <- H' in H.
    destruct (from_lookup url' lookup'); [done|]. by injection H as ->.
  - intros read path text nonce error Hr. split; intros He; [by eapply nkey_auth_error|by eapply credentials_auth_error].
Qed.

End Theorems.

(** ** Examples *)

(** Seeds start with [SU]; the signature is the nonce under the seed's length. *)
#[local] Instance nkeys_example : NKeys := {|
  KeyPair := string;
  from_seed := fun seed => if String.prefix "SU" seed then Some seed else None;
  sign := fun pair nonce => Some (pair ++ "/" ++ nonce);
  public_key := fun pair => "U" ++ pair |}.

#[local] Instance nats_fmt_example : RustFmt := {| debug_str := fun s => s; debug_char := fun _ => "?" |}.

(** The layout [nsc] writes, with the seed's block decorated. *)
Definition creds_example : string :=
  let nl := String (ascii_of_nat 10) "" in
  "-----BEGIN NATS USER JWT-----" ++ nl ++ "eyJ0" ++ nl ++ "------END NATS USER JWT------" ++ nl ++ nl
  ++ "-----BEGIN USER NKEY SEED-----" ++ nl ++ "SUAB" ++ nl ++ "------END USER NKEY SEED------" ++ nl.

Definition environment_example (name : string) : option string :=
  if (name =? CREDS_FILE_ENV)%string then Some "/run/nats.creds"
  else if (name =? USER_ENV)%string then Some "" else None.

Definition read_example (path : string) : result string string :=
  if (path =? "/run/nats.creds")%string then Ok creds_example else Err "No such file or directory (os error 2)".

Definition config_example : NatsClientConfig :=
  mkNatsClientConfig "nats://a:4222, TLS://b:4222" None (CredentialsFile "/run/nats.creds").

(** The environment of the example is accepted, asks for TLS and answers the nonce from the file. *)
Lemma nats_identity_witness :
  from_lookup "nats://a:4222, TLS://b:4222" environment_example = Ok config_example
  /\ op_require_tls (connect_options read_example config_example) = true
  /\ credentials_auth read_example "/run/nats.creds" "n" = Ok (mkAuth (Some "SUAB/n") None (Some "eyJ0")).
Proof.
  split_and!; [|reflexivity|reflexivity].
  apply (nats_identity read_example). exists (CredentialsFile "/run/nats.creds"). split_and!; [by constructor|reflexivity|].
  cbn zeta. split_and!; [apply (presents_identity read_example config_example)| |reflexivity|reflexivity|reflexivity].
  split; [|done]. intros _. right. exists "TLS://b:4222", "TLS", "b:4222". split_and!; [by apply list_elem_of_In; right; left|reflexivity|by left].
Defined.

Lemma nats_secrets_hidden_witness :
  nkey_auth read_example "/run/nats.creds" "n" = Err "/run/nats.creds does not contain a valid NATS NKey seed"
  /\ "/run/nats.creds does not contain a valid NATS NKey seed" ∈ seed_failures "/run/nats.creds".
Proof.
  split; [reflexivity|].
  by apply (proj2 (proj2 (proj2 nats_secrets_hidden)) read_example "/run/nats.creds" creds_example "n").
Defined.
