(* ===== verification/ApiTypes.v ===== *)
(** * The HTTP contracts (crates/api/src/lib.rs, crates/api/src/workflow.rs)

    The request bodies and resources of the API, one record or enumeration per
    type of the crate [crono_api], in the module [api] as the server writes
    them.  Timestamps are RFC 3339 texts. *)

From S2P Require Import Prelude Json Domain Db Store.
From Stdlib Require Import SpecFloat String.
From stdpp Require Import base numbers.

Local Open Scope Z_scope.

Module api.

Record Page (T : Type) : Type := mkPage {
  pg_items : list T;
  pg_next_cursor : option string;
}.
Arguments mkPage {T}.
Arguments pg_items {T}.
Arguments pg_next_cursor {T}.

Record CreateNamespaceRequest : Type := mkCreateNamespaceRequest {
  cnr_name : string;
}.

Record NamespaceResource : Type := mkNamespaceResource {
  nr_id : Uuid;
  nr_name : string;
  nr_created_at : string;
}.

Record CreateQueueRequest : Type := mkCreateQueueRequest {
  cqr_name : string;
  cqr_description : option string;
}.

Record UpdateQueueRequest : Type := mkUpdateQueueRequest {
  uqr_name : string;
  uqr_description : option string;
  uqr_enabled : bool;
}.

Record QueueResource : Type := mkQueueResource {
  qr_id : Uuid;
  qr_name : string;
  qr_description : option string;
  qr_enabled : bool;
  qr_system : bool;
  qr_created_at : string;
  qr_updated_at : string;
}.

Inductive ExecutorKind : Type := EK_Noop | EK_Process | EK_Shell.

Record CreateJobRequest : Type := mkCreateJobRequest {
  cjr_name : string;
  cjr_queue_id : Uuid;
  cjr_executor : ExecutorKind;
  cjr_executable : option string;
  cjr_shell_command : option string;
  cjr_arguments : list string;
  cjr_inputs : value;
  cjr_idempotent : bool;
  cjr_dry_run : bool;
  cjr_max_attempts : Z;
  cjr_retry_initial_seconds : Z;
  cjr_retry_max_seconds : Z;
  cjr_retry_multiplier : spec_float;
  cjr_retry_jitter : spec_float;
}.

Record UpdateJobRequest : Type := mkUpdateJobRequest {
  ujr_name : string;
  ujr_queue_id : Uuid;
  ujr_executor : ExecutorKind;
  ujr_executable : option string;
  ujr_shell_command : option string;
  ujr_arguments : list string;
  ujr_inputs : value;
  ujr_idempotent : bool;
  ujr_dry_run : bool;
  ujr_max_attempts : Z;
  ujr_retry_initial_seconds : Z;
  ujr_retry_max_seconds : Z;
  ujr_retry_multiplier : spec_float;
  ujr_retry_jitter : spec_float;
}.

Record JobResource : Type := mkJobResource {
  jr_id : Uuid;
  jr_namespace_id : Uuid;
  jr_namespace : string;
  jr_name : string;
  jr_qualified_name : string;
  jr_executor : ExecutorKind;
  jr_queue_id : Uuid;
  jr_queue : string;
  jr_executable : option string;
  jr_shell_command : option string;
  jr_arguments : list string;
  jr_inputs : value;
  jr_idempotent : bool;
  jr_dry_run : bool;
  jr_max_attempts : Z;
  jr_retry_initial_seconds : Z;
  jr_retry_max_seconds : Z;
  jr_retry_multiplier : spec_float;
  jr_retry_jitter : spec_float;
  jr_created_at : string;
  jr_updated_at : string;
}.

Record CreateTargetRequest : Type := mkCreateTargetRequest {
  ctr_name : string;
  ctr_arguments : list string;
  ctr_inputs : value;
}.

Record UpdateTargetRequest : Type := mkUpdateTargetRequest {
  utr_name : string;
  utr_arguments : list string;
  utr_inputs : value;
}.

Record TargetResource : Type := mkTargetResource {
  tr_id : Uuid;
  tr_namespace_id : Uuid;
  tr_namespace : string;
  tr_name : string;
  tr_qualified_name : string;
  tr_arguments : list string;
  tr_inputs : value;
  tr_created_at : string;
  tr_updated_at : string;
}.

Record CreateTargetSetRequest : Type := mkCreateTargetSetRequest {
  ctsr_name : string;
  ctsr_target_ids : list Uuid;
  ctsr_inputs : value;
}.

Record UpdateTargetSetRequest : Type := mkUpdateTargetSetRequest {
  utsr_name : string;
  utsr_target_ids : list Uuid;
  utsr_inputs : value;
}.

Record TargetReference : Type := mkTargetReference {
  tref_id : Uuid;
  tref_name : string;
}.

Record TargetSetResource : Type := mkTargetSetResource {
  tsr_id : Uuid;
  tsr_namespace_id : Uuid;
  tsr_namespace : string;
  tsr_name : string;
  tsr_qualified_name : string;
  tsr_targets : list TargetReference;
  tsr_inputs : value;
  tsr_created_at : string;
  tsr_updated_at : string;
}.

Inductive ExecutionTarget : Type :=
| ET_Target (id : Uuid)
| ET_TargetSet (id : Uuid).

Inductive ExecutionTargetResource : Type :=
| ETR_Target (id : Uuid) (name : string)
| ETR_TargetSet (id : Uuid) (name : string).

Inductive MisfirePolicy : Type := MP_RunLate | MP_Skip | MP_GracePeriod.

Inductive CatchupPolicy : Type := CP_Skip | CP_RunOnce | CP_CatchUp.

Record CreateScheduleRequest : Type := mkCreateScheduleRequest {
  csr_name : string;
  csr_job_id : Uuid;
  csr_target : ExecutionTarget;
  csr_inputs : value;
  csr_cron_expression : option string;
  csr_execute_at : option string;
  csr_timezone : string;
  csr_misfire_policy : MisfirePolicy;
  csr_misfire_grace_seconds : option Z;
  csr_catchup_policy : CatchupPolicy;
  csr_max_catchup_runs : Z;
  csr_max_catchup_age_seconds : Z;
}.

Record ScheduleResource : Type := mkScheduleResource {
  sr_id : Uuid;
  sr_namespace_id : Uuid;
  sr_namespace : string;
  sr_name : string;
  sr_job_id : Uuid;
  sr_job : string;
  sr_target : ExecutionTargetResource;
  sr_inputs : value;
  sr_cron_expression : option string;
  sr_execute_at : option string;
  sr_timezone : string;
  sr_enabled : bool;
  sr_next_run_at : option string;
  sr_last_run_at : option string;
  sr_misfire_policy : MisfirePolicy;
  sr_misfire_grace_seconds : option Z;
  sr_catchup_policy : CatchupPolicy;
  sr_max_catchup_runs : Z;
  sr_max_catchup_age_seconds : Z;
  sr_revision : Z;
  sr_created_at : string;
  sr_updated_at : string;
}.

Record UpdateScheduleRequest : Type := mkUpdateScheduleRequest {
  usr_revision : Z;
  usr_enabled : bool;
}.

Record CreateRunRequest : Type := mkCreateRunRequest {
  crr_request_id : Uuid;
  crr_job_id : Uuid;
  crr_target : ExecutionTarget;
  crr_inputs : value;
}.

Record RerunRequest : Type := mkRerunRequest {
  rr_request_id : Uuid;
}.

Inductive RunTriggerSource : Type := TS_Unknown | TS_Api | TS_Scheduler | TS_Rerun.

Inductive RunStatus : Type := RS_PendingDispatch | RS_Queued | RS_Running | RS_RetryWait | RS_Succeeded | RS_Failed | RS_Dead | RS_Skipped | RS_Cancelled | RS_Unknown.

Record RunResource : Type := mkRunResource {
  run_id : Uuid;
  run_request_id : option Uuid;
  run_schedule_id : option Uuid;
  run_job_id : Uuid;
  run_job : string;
  run_namespace : string;
  run_job_name : string;
  run_target_id : Uuid;
  run_target : string;
  run_target_name : string;
  run_target_set : option string;
  run_queue : string;
  run_trigger_source : RunTriggerSource;
  run_trigger_actor : option string;
  run_rerun_of_run_id : option Uuid;
  run_rerunnable : bool;
  run_status : RunStatus;
  run_scheduled_at : string;
  run_created_at : string;
  run_triggered_at : string;
  run_queued_at : option string;
  run_started_at : option string;
  run_completed_at : option string;
  run_duration_ms : option Z;
  run_attempt_count : Z;
  run_max_attempts : Z;
  run_lateness_seconds : Z;
  run_terminal_reason : option string;
}.

Record RunEventResource : Type := mkRunEventResource {
  rer_event_type : string;
  rer_created_at : string;
}.

Inductive AttemptStatus : Type := AS_PendingDispatch | AS_Queued | AS_Running | AS_Succeeded | AS_Skipped | AS_Failed | AS_Dead | AS_Unknown.

Record RunAttemptResource : Type := mkRunAttemptResource {
  rar_id : Uuid;
  rar_worker_id : option string;
  rar_attempt : Z;
  rar_status : AttemptStatus;
  rar_started_at : option string;
  rar_completed_at : option string;
  rar_exit_code : option Z;
  rar_stdout_tail : option string;
  rar_stderr_tail : option string;
  rar_error : option string;
}.

Record RunBatchResource : Type := mkRunBatchResource {
  rbr_request_id : Uuid;
  rbr_runs : list RunResource;
}.

Inductive WorkerStatus : Type := WS_Online | WS_Stale | WS_Offline.

Record WorkerResource : Type := mkWorkerResource {
  wr_worker_id : string;
  wr_queue_id : Uuid;
  wr_queue : string;
  wr_concurrency : Z;
  wr_version : string;
  wr_status : WorkerStatus;
  wr_started_at : string;
  wr_last_seen_at : string;
  wr_active_executions : Z;
}.

Record WorkerDetailsResource : Type := mkWorkerDetailsResource {
  wdr_worker : WorkerResource;
  wdr_diagnostics : option WorkerDiagnostics;
}.

Record OverviewResource : Type := mkOverviewResource {
  or_namespaces : Z;
  or_jobs : Z;
  or_targets : Z;
  or_target_sets : Z;
  or_schedules : Z;
  or_runs : Z;
}.

Record DatabaseMonitorResource : Type := mkDatabaseMonitorResource {
  dmr_size_bytes : Z;
  dmr_connections : Z;
  dmr_pool_connections : Z;
  dmr_pool_idle_connections : Z;
  dmr_pool_max_connections : Z;
}.

Record PipelineMonitorResource : Type := mkPipelineMonitorResource {
  pmr_enabled_schedules : Z;
  pmr_due_schedules : Z;
  pmr_earliest_next_run_at : option string;
  pmr_outbox_pending : Z;
  pmr_outbox_oldest_seconds : Z;
  pmr_runs_queued : Z;
  pmr_runs_running : Z;
  pmr_active_worker_leases : Z;
  pmr_online_workers : Z;
}.

Record InstanceMonitorResource : Type := mkInstanceMonitorResource {
  imr_scheduler_last_poll_at : option string;
  imr_publisher_last_poll_at : option string;
}.

Record MonitorResource : Type := mkMonitorResource {
  mr_sampled_at : string;
  mr_database_available : bool;
  mr_nats_available : bool;
  mr_database : option DatabaseMonitorResource;
  mr_pipeline : option PipelineMonitorResource;
  mr_instance : InstanceMonitorResource;
}.

Record ErrorBody : Type := mkErrorBody {
  eb_code : string;
  eb_message : string;
  eb_field : option string;
}.

Record ErrorEnvelope : Type := mkErrorEnvelope {
  ee_error : ErrorBody;
}.

Inductive DependencyCondition : Type := DC_Success | DC_Failure | DC_Always.

Record WorkflowNodeRequest : Type := mkWorkflowNodeRequest {
  wnr_name : string;
  wnr_job_id : Uuid;
}.

Record WorkflowEdgeRequest : Type := mkWorkflowEdgeRequest {
  wer_from : string;
  wer_to : string;
  wer_condition : DependencyCondition;
}.

Record CreateWorkflowRequest : Type := mkCreateWorkflowRequest {
  cwr_name : string;
  cwr_description : option string;
  cwr_nodes : list WorkflowNodeRequest;
  cwr_edges : list WorkflowEdgeRequest;
}.

Record UpdateWorkflowRequest : Type := mkUpdateWorkflowRequest {
  uwr_revision : Z;
  uwr_name : string;
  uwr_description : option string;
  uwr_nodes : list WorkflowNodeRequest;
  uwr_edges : list WorkflowEdgeRequest;
}.

Record StartWorkflowRequest : Type := mkStartWorkflowRequest {
  swr_request_id : Uuid;
  swr_target : ExecutionTarget;
  swr_inputs : value;
}.

Record WorkflowNodeResource : Type := mkWorkflowNodeResource {
  wn_id : Uuid;
  wn_name : string;
  wn_job_id : Uuid;
}.

Record WorkflowEdgeResource : Type := mkWorkflowEdgeResource {
  we_from : string;
  we_to : string;
  we_condition : DependencyCondition;
}.

Record WorkflowResource : Type := mkWorkflowResource {
  wf_id : Uuid;
  wf_namespace_id : Uuid;
  wf_namespace : string;
  wf_name : string;
  wf_description : option string;
  wf_revision : Z;
  wf_nodes : list WorkflowNodeResource;
  wf_edges : list WorkflowEdgeResource;
  wf_created_at : string;
  wf_updated_at : string;
}.

Inductive WorkflowRunState : Type := WRS_Pending | WRS_Running | WRS_Succeeded | WRS_Failed | WRS_Cancelled.

Inductive WorkflowNodeRunState : Type := NRS_Pending | NRS_Ready | NRS_Running | NRS_Succeeded | NRS_Failed | NRS_Skipped | NRS_Cancelled | NRS_Unknown.

Record WorkflowChildRunResource : Type := mkWorkflowChildRunResource {
  wcrr_target_id : Uuid;
  wcrr_run_id : Uuid;
}.

Record WorkflowNodeRunResource : Type := mkWorkflowNodeRunResource {
  wnrr_id : Uuid;
  wnrr_workflow_node_id : Uuid;
  wnrr_name : string;
  wnrr_job_id : Uuid;
  wnrr_state : WorkflowNodeRunState;
  wnrr_runs : list WorkflowChildRunResource;
  wnrr_started_at : option string;
  wnrr_finished_at : option string;
}.

Record WorkflowRunResource : Type := mkWorkflowRunResource {
  wrun_id : Uuid;
  wrun_request_id : Uuid;
  wrun_workflow : WorkflowResource;
  wrun_target : ExecutionTarget;
  wrun_inputs : value;
  wrun_state : WorkflowRunState;
  wrun_cancellation_requested : bool;
  wrun_nodes : list WorkflowNodeRunResource;
  wrun_created_at : string;
  wrun_started_at : option string;
  wrun_finished_at : option string;
}.

(** [impl From<&WorkflowEdgeResource> for WorkflowEdgeRequest] *)
Definition edge_request (edge : WorkflowEdgeResource) : WorkflowEdgeRequest :=
  mkWorkflowEdgeRequest (we_from edge) (we_to edge) (we_condition edge).

End api.
