(* ===== verification/Authentication.v ===== *)
(** * Authentication (authentication.rs, authentication/config.rs, api/authentication.rs)

    Bearer credentials: their syntax, the one header they come from, and the
    development verifier with its configuration.  The middleware that uses
    them is in [Api]. *)

From S2P Require Import Prelude RustStr Names Auth.
From Stdlib Require Import Ascii String.
From stdpp Require Import base numbers strings list.

Local Open Scope string_scope.
Local Open Scope Z_scope.

(** ** Headers *)

(** Names in lower case, values as bytes, in the order of the request. *)
Notation HeaderMap := (list (string * string)) (only parsing).

(** [HeaderMap::get_all] and [HeaderMap::insert] *)
Definition get_all (headers : HeaderMap) (name : string) : list string :=
  omap (fun header : string * string => if (header.1 =? name)%string then Some header.2 else None) headers.

Definition header_insert (name value : string) (headers : HeaderMap) : HeaderMap :=
  (filter (fun header : string * string => header.1 <> name) headers ++ [(name, value)])%list.

(** The crate [http]: [HeaderValue::to_str] and [HeaderValue::from_str]. *)
Class HeaderValues : Type := {
  header_to_str : string -> option string;
  header_from_str : string -> option string;
}.

Definition is_visible_ascii (byte : Z) : bool := (32 <=? byte) && (byte <? 127).

(** A value shows only as itself; one of visible ASCII characters does. *)
Class HeaderValueLaws `{HeaderValues} : Prop := {
  to_str_same value text : header_to_str value = Some text -> text = value;
  to_str_visible value : forallb is_visible_ascii (bytes value) = true -> header_to_str value = Some value;
  from_str_same value text : header_from_str value = Some text -> text = value;
  from_str_visible value : forallb is_visible_ascii (bytes value) = true -> header_from_str value = Some value;
}.

(** ** Credentials *)

Definition MAX_BEARER_TOKEN_BYTES : Z := 8192.

Inductive AuthenticationError : Type := InvalidCredentials | VerifierUnavailable.

Definition display_authentication_error (self : AuthenticationError) : string :=
  match self with
  | InvalidCredentials => "valid authentication credentials are required"
  | VerifierUnavailable => "authentication provider is unavailable"
  end.

Inductive BearerToken : Type := MkBearerToken (value : string).

Definition expose_secret (self : BearerToken) : string := let 'MkBearerToken value := self in value.

Definition is_token_byte (byte : Z) : bool :=
  is_ascii_alphanumeric byte || (byte =? 45) || (byte =? 46) || (byte =? 95) || (byte =? 126) || (byte =? 43) || (byte =? 47).

Definition bearer_token_new (value : string) : result BearerToken AuthenticationError :=
  let unpadded := trim_end_matches "=" value in
  if (MAX_BEARER_TOKEN_BYTES <? slen value) || (unpadded =? "")%string || negb (forallb is_token_byte (bytes unpadded))
  then Err InvalidCredentials
  else Ok (MkBearerToken value).

Inductive RequestCredentials : Type := Bearer (token : BearerToken).

Section Header.
Context {HV : HeaderValues}.

(** Exactly one Authorization header, of the scheme Bearer. *)
Definition credentials (headers : HeaderMap) : result RequestCredentials AuthenticationError :=
  match get_all headers "authorization" with
  | [value] =>
      let? value := ok_or (header_to_str value) InvalidCredentials in
      let? (scheme, token) := ok_or (split_once " " value) InvalidCredentials in
      if negb (eq_ignore_ascii_case scheme "Bearer") then Err InvalidCredentials
      else let? token := bearer_token_new (trim_start_matches " " token) in Ok (Bearer token)
  | _ => Err InvalidCredentials
  end.

End Header.

(** ** The development verifier *)

Inductive AuthConfigError : Type := MissingDevelopmentToken | InvalidDevelopmentToken | OidcNotImplemented.

Record DevelopmentAuthProvider : Type := mkDevelopmentAuthProvider { dev_token : BearerToken }.

Definition development_new (token : BearerToken) : result DevelopmentAuthProvider AuthConfigError :=
  if slen (expose_secret token) <? 32 then Err InvalidDevelopmentToken else Ok (mkDevelopmentAuthProvider token).

Definition development_caller : AuthenticatedCaller :=
  mkAuthenticatedCaller (principal_new "development/local" Development) development.

(** [ct_eq] compares the bytes. *)
Definition authenticate (self : DevelopmentAuthProvider) (credentials : RequestCredentials)
  : result AuthenticatedCaller AuthenticationError :=
  let 'Bearer token := credentials in
  if negb (expose_secret token =? expose_secret (dev_token self))%string then Err InvalidCredentials
  else Ok development_caller.

(** ** Configuration *)

Inductive AuthMode : Type := ModeDevelopment | ModeOidc.

Definition auth_mode_from_str (value : string) : result AuthMode string :=
  if (value =? "development")%string then Ok ModeDevelopment
  else if (value =? "oidc")%string then Ok ModeOidc
  else Err "expected development or oidc".

Inductive AuthConfig : Type := ConfigDevelopment (provider : DevelopmentAuthProvider).

(** [var] is [std::env::var]: nothing when the variable is absent or not Unicode. *)
Definition auth_config_from_env (var : string -> option string) (mode : AuthMode) : result AuthConfig AuthConfigError :=
  match mode with
  | ModeDevelopment =>
      let? value := ok_or (var "CRONO_AUTH_DEVELOPMENT_TOKEN") MissingDevelopmentToken in
      let? token := map_err (fun _ => InvalidDevelopmentToken) (bearer_token_new value) in
      let? provider := development_new token in
      Ok (ConfigDevelopment provider)
  | ModeOidc => Err OidcNotImplemented
  end.

Definition into_provider (self : AuthConfig) : DevelopmentAuthProvider := let 'ConfigDevelopment provider := self in provider.

Definition display_auth_config_error (self : AuthConfigError) : string :=
  match self with
  | MissingDevelopmentToken => "CRONO_AUTH_DEVELOPMENT_TOKEN is required in development mode"
  | InvalidDevelopmentToken => "CRONO_AUTH_DEVELOPMENT_TOKEN must be a random Bearer token of 32 to 8192 bytes"
  | OidcNotImplemented => "OIDC authentication is not implemented; select development with a configured token"
  end.

(** ** The syntax of a token *)

Fixpoint repeat_byte (b : ascii) (n : nat) : string := match n with O => "" | S n => String b (repeat_byte b n) end.

(** RFC 6750, [b64token], of at most 8 KiB. *)
Definition b64token (value : string) : Prop :=
  slen value <= MAX_BEARER_TOKEN_BYTES
  /\ exists body padding, value = body ++ repeat_byte "=" padding /\ body <> "" /\ forallb is_token_byte (bytes body) = true.

Lemma bytes_cons a s : bytes (String a s) = byte_of a :: bytes s.
Proof. done. Qed.

Lemma bytes_concat s t : bytes (s ++ t) = (bytes s ++ bytes t)%list.
Proof. induction s as [|a s IH]; [done|]. exact (f_equal (cons (byte_of a)) IH). Qed.

(** A byte satisfies [P] wherever it is in a text all of whose bytes do. *)
Lemma refused_byte (P : Z -> bool) (b a : ascii) : P (byte_of b) = false -> P (byte_of a) = true -> Ascii.eqb a b = false.
Proof. intros Hb Ha. destruct (Ascii.eqb_spec a b) as [->|]; congruence. Qed.

Lemma trim_end_shape b s : exists n, s = trim_end_matches b s ++ repeat_byte b n.
Proof.
  induction s as [|a s [n IH]]; [by exists O|]. cbn [trim_end_matches].
  destruct ((trim_end_matches b s =? "")%string) eqn:E; simpl.
  - apply String.eqb_eq in E. rewrite E in *. destruct (Ascii.eqb_spec a b) as [->|].
    + exists (S n). simpl. by rewrite IH at 1.
    + exists n. simpl. by rewrite IH at 1.
  - exists n. by rewrite IH at 1.
Qed.

Lemma trim_end_repeat b n : trim_end_matches b (repeat_byte b n) = "".
Proof. induction n as [|n IH]; [done|]. cbn [repeat_byte trim_end_matches]. rewrite IH, Ascii.eqb_refl. done. Qed.

Lemma trim_end_stops (P : Z -> bool) b n s :
  P (byte_of b) = false -> forallb P (bytes s) = true -> trim_end_matches b (s ++ repeat_byte b n) = s.
Proof.
  intros Hb. induction s as [|a s IH]; [intros _; apply trim_end_repeat|]. rewrite bytes_cons.
  change (String a s ++ repeat_byte b n) with (String a (s ++ repeat_byte b n)). cbn [forallb trim_end_matches].
  intros [Ha Hs]%andb_true_iff. rewrite (IH Hs), (refused_byte P b a Hb Ha). by rewrite andb_false_r.
Qed.

Lemma trim_start_shape b s : exists n, s = repeat_byte b n ++ trim_start_matches b s.
Proof.
  induction s as [|a s [n IH]]; [by exists O|]. cbn [trim_start_matches]. destruct (Ascii.eqb_spec a b) as [->|]; [|by exists O].
  exists (S n). simpl. by rewrite IH at 1.
Qed.

Lemma trim_start_stops (P : Z -> bool) b n s :
  P (byte_of b) = false -> forallb P (bytes s) = true -> trim_start_matches b (repeat_byte b n ++ s) = s.
Proof.
  intros Hb Hs. induction n as [|n IH]; [|simpl; by rewrite Ascii.eqb_refl].
  destruct s as [|a s]; [done|]. rewrite bytes_cons in Hs. cbn [forallb] in Hs. apply andb_true_iff in Hs as [Ha _].
  simpl. by rewrite (refused_byte P b a Hb Ha).
Qed.

(** The check accepts exactly the syntax. *)
Lemma bearer_token_spec value token : bearer_token_new value = Ok token <-> token = MkBearerToken value /\ b64token value.
Proof.
  unfold bearer_token_new, b64token. destruct (trim_end_shape "=" value) as [n Hn]. split.
  - destruct (_ || _) eqn:E; [done|]. intros [= <-]. apply orb_false_iff in E as [[Hl He]%orb_false_iff Ht].
    apply Z.ltb_ge in Hl. apply String.eqb_neq in He. apply negb_false_iff in Ht. split; [done|]. split; [done|]. by exists (trim_end_matches "=" value), n.
  - intros (-> & Hl & body & padding & Hv & He & Ht). rewrite Hv, (trim_end_stops is_token_byte) by done. rewrite <- Hv, Ht.
    apply String.eqb_neq in He. rewrite He. destruct (Z.ltb_spec MAX_BEARER_TOKEN_BYTES (slen value)); [lia|done].
Qed.

(** ** The header *)

Lemma lowercase_bearer_space a : to_ascii_lowercase (byte_of a) <> 32 -> Ascii.eqb a " " = false.
Proof. destruct (Ascii.eqb_spec a " ") as [->|]; [done|done]. Qed.

Lemma split_at_space scheme rest :
  (forall a s t, scheme = s ++ String a t -> Ascii.eqb a " " = false) -> split_once " " (scheme ++ " " ++ rest) = Some (scheme, rest).
Proof.
  induction scheme as [|a scheme IH]; intros Hs.
  - change ("" ++ " " ++ rest) with (String " " rest). cbn [split_once].
    replace (String.prefix " " (String " " rest)) with true by (simpl; by destruct rest).
    simpl. by rewrite Nat.sub_0_r, substring_full.
  - pose proof (Hs a "" scheme eq_refl) as Ha. 
    change (String a scheme ++ " " ++ rest) with (String a (scheme ++ " " ++ rest)). cbn [split_once String.prefix].
    destruct (ascii_dec " " a) as [<-|]; [done|]. rewrite IH; [done|]. intros b s t ->. by apply (Hs b (String a s) t).
Qed.

Lemma bearer_without_space : forall scheme text,
  eq_ignore_ascii_case scheme text = true -> forallb (fun b => negb (to_ascii_lowercase b =? 32)) (bytes text) = true ->
  forall a s t, scheme = s ++ String a t -> Ascii.eqb a " " = false.
Proof.
  induction scheme as [|c scheme IH]; intros text He Ht a s t E; [by destruct s|].
  destruct text as [|d text]; [done|]. cbn [eq_ignore_ascii_case] in He. apply andb_true_iff in He as [Hc He].
  rewrite bytes_cons in Ht. cbn [forallb] in Ht. apply andb_true_iff in Ht as [Hd Ht].
  destruct s as [|x s]; injection E as -> ->; [|by eapply IH].
  apply lowercase_bearer_space. apply Z.eqb_eq in Hc. apply negb_true_iff, Z.eqb_neq in Hd. congruence.
Qed.

Section HeaderSpec.
Context {HV : HeaderValues} {HL : HeaderValueLaws}.

(** The request carries one Authorization header, of the scheme in any case, some spaces and the token. *)
Definition carries (headers : HeaderMap) (token : string) : Prop :=
  exists scheme spaces value, get_all headers "authorization" = [value] /\ header_to_str value = Some value
    /\ value = scheme ++ repeat_byte " " (S spaces) ++ token /\ eq_ignore_ascii_case scheme "Bearer" = true.

Lemma credentials_spec headers token :
  credentials headers = Ok (Bearer (MkBearerToken token)) <-> carries headers token /\ b64token token.
Proof.
  unfold credentials, carries. split.
  - destruct (get_all headers "authorization") as [|value [|]]; [done| |done]. simpl.
    destruct (header_to_str value) as [text|] eqn:Hv; [|done]. pose proof (to_str_same _ _ Hv) as ->. simpl.
    destruct (split_once " " value) as [[scheme rest]|] eqn:Hs; [|done]. apply split_once_app in Hs. simpl.
    destruct (eq_ignore_ascii_case scheme "Bearer") eqn:He; [|done]. simpl.
    destruct (bearer_token_new (trim_start_matches " " rest)) as [tok|] eqn:Ht; [|done]. simpl. intros [= ->].
    apply bearer_token_spec in Ht as [[= ->] Hb]. split; [|done]. destruct (trim_start_shape " " rest) as [n Hn].
    exists scheme, n, value. split_and!; [done|done| |done]. rewrite Hs. rewrite Hn at 1. done.
  - intros [(scheme & n & value & -> & Hv & Hval & He) Hb]. cbn. rewrite Hv. simpl.
    assert (split_once " " value = Some (scheme, repeat_byte " " n ++ token)) as ->.
    { rewrite Hval. apply (split_at_space scheme (repeat_byte " " n ++ token)). by apply (bearer_without_space _ _ He). }
    simpl. rewrite He. simpl.
    assert (trim_start_matches " " (repeat_byte " " n ++ token) = token) as ->.
    { destruct Hb as (_ & body & padding & -> & Hne & Hbody). 
      apply (trim_start_stops (fun z => is_token_byte z || (z =? 61))); [done|]. rewrite bytes_concat, forallb_app.
      apply andb_true_iff. split.
      - clear -Hbody. induction (bytes body) as [|z l IH]; [done|]. simpl in *. apply andb_true_iff in Hbody as [-> H]. by rewrite IH.
      - clear. induction padding as [|p IH]; [done|]. exact IH. }
    destruct (bearer_token_new token) as [tok|] eqn:Ht.
    + by apply bearer_token_spec in Ht as [-> _].
    + destruct (bearer_token_spec token (MkBearerToken token)) as [_ H]. by rewrite H in Ht.
Qed.

Lemma credentials_refused headers e : credentials headers = Err e -> e = InvalidCredentials.
Proof.
  unfold credentials. destruct (get_all headers "authorization") as [|v [|]]; [congruence| |congruence]. simpl.
  destruct (header_to_str v); simpl; [|congruence]. destruct (split_once _ _) as [[? ?]|]; simpl; [|congruence].
  destruct (negb _); [congruence|]. unfold bearer_token_new. destruct (_ || _); simpl; congruence.
Qed.

(** C17: The development verifier started from the environment accepts exactly the configured token:
    a configuration is accepted only with a token of 32 to 8192 bytes of the Bearer syntax, and a
    request is then authenticated, as the development operator, when its one Authorization header
    carries that very token, and refused in every other case. *)
Theorem development_access var config headers :
  auth_config_from_env var ModeDevelopment = Ok config ->
  exists secret, var "CRONO_AUTH_DEVELOPMENT_TOKEN" = Some secret /\ b64token secret /\ 32 <= slen secret
  /\ (carries headers secret <->
      result_bind (credentials headers) (authenticate (into_provider config)) = Ok development_caller)
  /\ (~ carries headers secret ->
      result_bind (credentials headers) (authenticate (into_provider config)) = Err InvalidCredentials).
Proof.
  unfold auth_config_from_env, development_new. destruct (var _) as [secret|]; [|done]. simpl.
  destruct (bearer_token_new secret) as [token|] eqn:Ht; [|done]. apply bearer_token_spec in Ht as [-> Hb]. simpl.
  destruct (Z.ltb_spec (slen secret) 32); [done|]. intros [= <-]. exists secret. split_and!; [done|done|lia|..].
  - split.
    + intros Hc. rewrite (proj2 (credentials_spec headers secret) (conj Hc Hb)). simpl. by rewrite String.eqb_refl.
    + destruct (credentials headers) as [[[token]]|] eqn:Hc; [|done]. simpl.
      destruct (String.eqb_spec token secret) as [->|]; [|done]. intros _. by apply credentials_spec in Hc as [].
  - intros Hn. destruct (credentials headers) as [[[token]]|e] eqn:Hc.
    + simpl. destruct (String.eqb_spec token secret) as [->|]; [|done]. by apply credentials_spec in Hc as [].
    + by rewrite (credentials_refused _ _ Hc).
Qed.

End HeaderSpec.

(** ** Witness *)

#[export] Instance header_values_example : HeaderValues := {|
  header_to_str := fun v => if forallb is_visible_ascii (bytes v) then Some v else None;
  header_from_str := fun v => if forallb is_visible_ascii (bytes v) then Some v else None |}.

#[export] Instance header_laws_example : HeaderValueLaws.
Proof.
  split; intros value; unfold header_to_str, header_from_str, header_values_example;
    destruct (forallb is_visible_ascii (bytes value)); congruence.
Qed.

Definition example_secret : string := "local-development-secret-0123456789==".
Definition example_headers : HeaderMap := [("host", "crono"); ("authorization", "bearer   " ++ example_secret)].
Definition example_config : AuthConfig := ConfigDevelopment (mkDevelopmentAuthProvider (MkBearerToken example_secret)).

Lemma development_access_witness :
  result_bind (credentials example_headers) (authenticate (into_provider example_config)) = Ok development_caller.
Proof.
  destruct (development_access (fun _ => Some example_secret) example_config example_headers eq_refl)
    as (secret & [= <-] & _ & _ & H & _).
  apply H. by exists "bearer", 2%nat, ("bearer   " ++ example_secret).
Defined.
