(* ===== verification/Processes.v ===== *)
(** * Starting and stopping the processes

    infrastructure/database.rs: the bounds of the connection pool.
    cli/actions/server.rs and the listener, the tasks and the shutdown of
    api/mod.rs: the order in which the server checks its configuration,
    touches its dependencies and stops.  apps/cli: the address a command line
    client accepts.  crates/telemetry: whether traces are exported.  The
    worker's execution/output.rs: the lines of its console; its actions/run.rs
    and the server's worker_control.rs: the loops that take their messages. *)

From S2P Require Import Prelude RustStr Json Names Inputs Domain Text Float Recurrence Auth Db Snapshot Store Futures Dispatcher WorkerControl Redaction Runner Worker WorkerStart Nats Authentication.
From Stdlib Require Import Ascii String.
From stdpp Require Import base numbers strings list pretty.

Local Open Scope string_scope.
Local Open Scope Z_scope.

(** ** The connection pool (database.rs) *)

Record DatabasePoolConfig : Type := mkDatabasePoolConfig {
  dp_max_connections : Z;
  dp_min_connections : Z;
  dp_acquire_timeout : Z;
  dp_idle_timeout : Z;
  dp_max_lifetime : Z;
}.

Definition DEFAULT_MAX_CONNECTIONS : Z := 20.
Definition DEFAULT_MIN_CONNECTIONS : Z := 2.
Definition DEFAULT_ACQUIRE_TIMEOUT_MS : Z := 3000.
Definition DEFAULT_IDLE_TIMEOUT_SECONDS : Z := 10 * 60.
Definition DEFAULT_MAX_LIFETIME_SECONDS : Z := 30 * 60.
Definition MAX_CONNECTIONS_LIMIT : Z := 200.

Definition pool_default : DatabasePoolConfig :=
  mkDatabasePoolConfig DEFAULT_MAX_CONNECTIONS DEFAULT_MIN_CONNECTIONS (DEFAULT_ACQUIRE_TIMEOUT_MS * millisecond)
    (DEFAULT_IDLE_TIMEOUT_SECONDS * second) (DEFAULT_MAX_LIFETIME_SECONDS * second).

(** What is wrong with a pool. *)
Inductive PoolError : Type :=
| PoolVariable (error : ConfigError)
| PoolBounds (message : string).

Definition pool_validate (self : DatabasePoolConfig) : result unit PoolError :=
  if negb (in_range 1 MAX_CONNECTIONS_LIMIT (dp_max_connections self))
  then Err (PoolBounds "CRONO_DATABASE_MAX_CONNECTIONS must be between 1 and 200")
  else if dp_max_connections self <? dp_min_connections self
  then Err (PoolBounds "CRONO_DATABASE_MIN_CONNECTIONS must not exceed CRONO_DATABASE_MAX_CONNECTIONS")
  else if negb (in_range (100 * millisecond) (30 * second) (dp_acquire_timeout self))
  then Err (PoolBounds "CRONO_DATABASE_ACQUIRE_TIMEOUT_MS must be between 100 and 30000")
  else if negb (in_range (60 * second) (86400 * second) (dp_max_lifetime self))
  then Err (PoolBounds "CRONO_DATABASE_MAX_LIFETIME_SECONDS must be between 60 and 86400")
  else if (dp_idle_timeout self <? 10 * second) || (dp_max_lifetime self <=? dp_idle_timeout self)
  then Err (PoolBounds "CRONO_DATABASE_IDLE_TIMEOUT_SECONDS must be at least 10 and below CRONO_DATABASE_MAX_LIFETIME_SECONDS")
  else Ok ().

Definition pool_from_env (environment : string -> option string) : result DatabasePoolConfig PoolError :=
  let read inside name default := map_err PoolVariable (env_value environment inside name default) in
  let? max_connections := read in_u32 "CRONO_DATABASE_MAX_CONNECTIONS" DEFAULT_MAX_CONNECTIONS in
  let? min_connections := read in_u32 "CRONO_DATABASE_MIN_CONNECTIONS" DEFAULT_MIN_CONNECTIONS in
  let? acquire_timeout := read in_u64 "CRONO_DATABASE_ACQUIRE_TIMEOUT_MS" DEFAULT_ACQUIRE_TIMEOUT_MS in
  let? idle_timeout := read in_u64 "CRONO_DATABASE_IDLE_TIMEOUT_SECONDS" DEFAULT_IDLE_TIMEOUT_SECONDS in
  let? max_lifetime := read in_u64 "CRONO_DATABASE_MAX_LIFETIME_SECONDS" DEFAULT_MAX_LIFETIME_SECONDS in
  let config := mkDatabasePoolConfig max_connections min_connections (acquire_timeout * millisecond) (idle_timeout * second) (max_lifetime * second) in
  let? _ := pool_validate config in
  Ok config.

(** The shapes that are accepted. *)
Definition pool_safe (c : DatabasePoolConfig) : Prop :=
  1 <= dp_max_connections c <= 200 /\ 0 <= dp_min_connections c <= dp_max_connections c
  /\ 100 * millisecond <= dp_acquire_timeout c <= 30 * second
  /\ 10 * second <= dp_idle_timeout c < dp_max_lifetime c /\ 60 * second <= dp_max_lifetime c <= 86400 * second.

Lemma pool_validate_spec c : 0 <= dp_min_connections c -> pool_validate c = Ok () <-> pool_safe c.
Proof.
  intros Hm. unfold pool_validate, pool_safe, MAX_CONNECTIONS_LIMIT. split.
  - repeat (case_match; [done|]). intros _. repeat match goal with H : negb _ = false |- _ => apply negb_false_iff, in_range_spec in H end.
    repeat match goal with H : _ || _ = false |- _ => apply orb_false_iff in H as [? ?] end. lia.
  - intros (H1 & H2 & H3 & H4 & H5).
    repeat match goal with |- context [in_range ?a ?b ?c] => rewrite (proj2 (in_range_spec a b c)) by lia end. cbn [negb].
    replace (dp_max_connections c <? dp_min_connections c) with false by (symmetry; lia).
    replace (dp_idle_timeout c <? 10 * second) with false by (symmetry; lia).
    replace (dp_max_lifetime c <=? dp_idle_timeout c) with false by (symmetry; lia). done.
Qed.

Lemma env_value_in environment inside name fallback z :
  inside fallback = true -> env_value environment inside name fallback = Ok z -> inside z = true.
Proof.
  intros Hf. unfold env_value, parse_unsigned. destruct (environment name) as [value|]; [|by intros [= <-]].
  destruct (_ =? "")%string; [done|]. destruct (digits 0 _) as [n|]; [|done]. destruct (inside n) eqn:Hn; [|done]. cbn. by intros [= <-].
Qed.

Lemma pool_from_env_safe environment config : pool_from_env environment = Ok config -> pool_safe config.
Proof.
  unfold pool_from_env. intros H. apply result_bind_ok in H as (mx & _ & H). apply result_bind_ok in H as (mn & Hmn & H).
  do 3 apply result_bind_ok in H as (? & _ & H). apply result_bind_ok in H as ([] & Hv & [= <-]).
  apply pool_validate_spec in Hv; [done|]. cbn. destruct (env_value _ _ "CRONO_DATABASE_MIN_CONNECTIONS" _) as [z|] eqn:E; [|done].
  injection Hmn as ->. apply env_value_in in E; [|done]. apply in_range_spec in E. lia.
Qed.

(** ** The server (cli/actions/server.rs) *)

Record ServerArgs : Type := mkServerArgs { sa_port : Z; sa_auth_mode : AuthMode }.

(** What start-up awaits. *)
Inductive StartCall : Type -> Type :=
| ConnectDatabase (url : string) (pool : DatabasePoolConfig) : StartCall (result unit string)
| Serve (port : Z) (nats : NatsClientConfig) (dispatcher : DispatcherConfig) (provider : DevelopmentAuthProvider) : StartCall (result unit string)
| ClosePool : StartCall bool.

Inductive StartError : Type :=
| AuthenticationConfiguration (error : AuthConfigError)
| NatsConfiguration (error : string)
| PoolConfiguration (error : PoolError)
| OutboxConfiguration (error : ConfigError)
| DatabaseUnreachable (error : string)
| ServerFailed (error : string).

(** The configuration of a server, read before anything is touched. *)
Definition server_configuration (var : string -> option string) (args : ServerArgs)
  : result (DevelopmentAuthProvider * string * NatsClientConfig * DatabasePoolConfig * DispatcherConfig) StartError :=
  let? auth := map_err AuthenticationConfiguration (auth_config_from_env var (sa_auth_mode args)) in
  let database_url := default "postgres://crono_runtime@127.0.0.1:5432/crono" (var "CRONO_DATABASE_URL") in
  let nats_url := default "nats://127.0.0.1:4222" (var "CRONO_NATS_URL") in
  let? nats := map_err NatsConfiguration (from_lookup nats_url var) in
  let? pool := map_err PoolConfiguration (pool_from_env var) in
  let? dispatcher := map_err OutboxConfiguration (from_env var) in
  Ok (into_provider auth, database_url, nats, pool, dispatcher).

(** [execute] *)
Definition execute_server (var : string -> option string) (args : ServerArgs) : future StartCall (result unit StartError) :=
  match server_configuration var args with
  | Err error => Return (Err error)
  | Ok (provider, database_url, nats, pool, dispatcher) =>
      Await (ConnectDatabase database_url pool) (fun connected =>
        match connected with
        | Err error => Return (Err (DatabaseUnreachable error))
        | Ok _ =>
            Await (Serve (sa_port args) nats dispatcher provider) (fun served =>
              Await ClosePool (fun _ => Return (map_err ServerFailed served)))
        end)
  end.

(** What must have happened before a call. *)
Definition start_rule (h : list (answered StartCall)) (B : Type) (c : StartCall B) : Prop :=
  match c with
  | ConnectDatabase _ pool => h = [] /\ pool_safe pool
  | Serve _ _ dispatcher provider =>
      exists url pool, h = [Awaited (ConnectDatabase url pool) (Ok ())] /\ 1 <= dc_batch_size dispatcher <= 1000
        /\ 1 <= dc_max_in_flight dispatcher <= 1024
  | ClosePool => exists url pool port nats dispatcher provider served,
      h = [Awaited (ConnectDatabase url pool) (Ok ()); Awaited (Serve port nats dispatcher provider) served]
  end.

Definition start_end (var : string -> option string) (args : ServerArgs) (h : list (answered StartCall)) (r : result unit StartError) : Prop :=
  match h with
  | [] => exists error, r = Err error /\ server_configuration var args = Err error
  | [Awaited (ConnectDatabase _ _) _] => exists error, r = Err (DatabaseUnreachable error)
  | [Awaited (ConnectDatabase _ _) _; Awaited (Serve _ _ _ _) served; Awaited ClosePool _] => r = map_err ServerFailed served
  | _ => False
  end.

Lemma from_env_bounds var config : from_env var = Ok config ->
  1 <= dc_batch_size config <= 1000 /\ 1 <= dc_max_in_flight config <= 1024.
Proof.
  unfold from_env. intros H. do 5 apply result_bind_ok in H as (? & _ & H). case_match eqn:E; [done|]. injection H as <-. cbn.
  repeat match goal with H : _ || _ = false |- _ => apply orb_false_iff in H as [? ?] end. unfold outside in *.
  repeat match goal with H : negb _ = false |- _ => apply negb_false_iff, in_range_spec in H end. lia.
Qed.

(** The server touches no dependency before its whole configuration was
    accepted: an invalid token, NATS identity, pool or outbox setting ends the
    process without a call; otherwise it connects to PostgreSQL first, with a
    pool within its bounds, serves only when that succeeded, closes the pool
    after serving whatever the outcome, and ends with the outcome of serving. *)
Theorem startup_order var args :
  obeys start_rule [] (execute_server var args) /\ ends (start_end var args) [] (execute_server var args).
Proof.
  unfold execute_server. destruct (server_configuration var args) as [[[[[provider url] nats] pool] dispatcher]|error] eqn:Hc; [|by split; [|exists error]].
  assert (pool_safe pool /\ 1 <= dc_batch_size dispatcher <= 1000 /\ 1 <= dc_max_in_flight dispatcher <= 1024) as (Hp & Hb & Hf).
  { unfold server_configuration in Hc. apply result_bind_ok in Hc as (auth & _ & Hc). apply result_bind_ok in Hc as (n & _ & Hc).
    apply result_bind_ok in Hc as (p & Hp & Hc). apply result_bind_ok in Hc as (d & Hd & Hc). injection Hc as <- <- <- <- <-.
    destruct (pool_from_env var) eqn:E1; [|done]. injection Hp as ->. destruct (from_env var) eqn:E2; [|done]. injection Hd as ->.
    split; [by eapply pool_from_env_safe|by eapply from_env_bounds]. }
  split; cbn.
  - split; [done|]. intros [[]|e]; cbn; [|done]. split; [by exists url, pool|]. intros served. split; [|done]. by exists url, pool, (sa_port args), nats, dispatcher, provider, served.
  - intros [[]|e]; cbn; [done|by exists e].
Qed.

(** ** The listener and the shutdown (api/mod.rs) *)

(** [io::ErrorKind], the kinds that matter here, and the number of the system's error. *)
Inductive ErrorKind : Type := AddrNotAvailable | PermissionDenied | Unsupported | OtherKind.
Record IoError : Type := mkIoError { io_kind : ErrorKind; io_raw_os_error : option Z }.

(** [anyhow::Error]: its chain of sources, outermost first; some are [io::Error]s. *)
Definition AnyError : Type := list (option IoError).

Definition io_error_is_ipv6_unavailable (error : IoError) : bool :=
  match io_kind error with AddrNotAvailable | PermissionDenied | Unsupported => true | OtherKind => false end
  || match io_raw_os_error error with Some code => bool_decide (code ∈ [1; 43; 47; 49; 93; 97; 99]) | None => false end.

Definition ipv6_unavailable (error : AnyError) : bool :=
  existsb (fun source => match source with Some error => io_error_is_ipv6_unavailable error | None => false end) error.

(** [socket2] and the standard listener: each call may fail with an [io::Error]. *)
Inductive SocketDomain : Type := IPV4 | IPV6.

Class Sockets (Socket Address : Type) : Type := {
  socket_new : SocketDomain -> result Socket IoError;
  set_only_v6 : bool -> Socket -> result Socket IoError;
  set_reuse_address : bool -> Socket -> result Socket IoError;
  socket_bind : SocketDomain -> Z -> Socket -> result Socket IoError;
  socket_listen : Z -> Socket -> result Socket IoError;
  set_nonblocking : bool -> Socket -> result Socket IoError;
  local_addr : Socket -> result Address IoError;
}.

(** [?] on an [io::Error], and [context]: one more error in front of the chain. *)
Definition lift_io {A} (r : result A IoError) : result A AnyError := map_err (fun e => [Some e]) r.
Definition with_context {A} (r : result A AnyError) : result A AnyError := map_err (cons None) r.

Section Listener.
Context {Socket Address : Type} {SK : Sockets Socket Address}.

(** The address is the unspecified one of the domain, with the port. *)
Definition bind_configured_socket (socket : Socket) (address : SocketDomain * Z) : result Socket AnyError :=
  let? socket := with_context (lift_io (set_reuse_address true socket)) in
  let? socket := lift_io (socket_bind address.1 address.2 socket) in
  let? socket := lift_io (socket_listen 1024 socket) in
  lift_io (set_nonblocking true socket).

Definition bind_ipv6_dual_stack (address : SocketDomain * Z) : result Socket AnyError :=
  let? socket := with_context (lift_io (socket_new IPV6)) in
  let? socket := with_context (lift_io (set_only_v6 false socket)) in
  with_context (bind_configured_socket socket address).

Definition bind_socket (domain : SocketDomain) (address : SocketDomain * Z) : result Socket AnyError :=
  let? socket := with_context (lift_io (socket_new domain)) in
  bind_configured_socket socket address.

Definition bind_listener (port : Z) : result (Socket * Address) AnyError :=
  match bind_ipv6_dual_stack (IPV6, port) with
  | Ok listener => let? address := with_context (lift_io (local_addr listener)) in Ok (listener, address)
  | Err error =>
      if ipv6_unavailable error
      then
        let? listener := with_context (bind_socket IPV4 (IPV4, port)) in
        let? address := with_context (lift_io (local_addr listener)) in
        Ok (listener, address)
      else Err error
  end.

(** A host that has IPv6 and whose port is taken (98 on Linux, 48 on macOS): the listener is not
    opened on IPv4 beside the other process, the failure is reported. *)
Lemma port_in_use_reported port code socket v6 reusable : code = 98 \/ code = 48 ->
  socket_new IPV6 = Ok socket -> set_only_v6 false socket = Ok v6 -> set_reuse_address true v6 = Ok reusable ->
  socket_bind IPV6 port reusable = Err (mkIoError OtherKind (Some code)) ->
  bind_listener port = Err [None; Some (mkIoError OtherKind (Some code))].
Proof.
  intros Hcode H1 H2 H3 H4. unfold bind_listener, bind_ipv6_dual_stack, bind_configured_socket.
  rewrite H1. cbn. rewrite H2. cbn. rewrite H3. cbn. rewrite H4. by destruct Hcode as [->| ->].
Qed.

(** A host without IPv6 (97 on Linux): the listener is the one of IPv4. *)
Lemma ipv4_fallback port : socket_new IPV6 = Err (mkIoError OtherKind (Some 97)) ->
  bind_listener port = let? listener := with_context (bind_socket IPV4 (IPV4, port)) in
    let? address := with_context (lift_io (local_addr listener)) in Ok (listener, address).
Proof. intros H. unfold bind_listener, bind_ipv6_dual_stack. by rewrite H. Qed.

(** ** The life of the server (api/mod.rs) *)

Inductive Background : Type := NatsManager | WorkerControlTask | DispatcherTask | SchedulerTask | ReconcilerTask.

#[export] Instance background_dec : EqDecision Background.
Proof. solve_decision. Defined.

(** What [serve] asks of the runtime: the listener as an asynchronous one, a task, the HTTP server
    until a signal stops it, the cancellation, the end of a task. *)
Inductive Lifecycle : Type -> Type :=
| FromStd (listener : Socket) : Lifecycle (result unit IoError)
| Spawn (task : Background) : Lifecycle unit
| AxumServe : Lifecycle (result unit IoError)
| Cancel : Lifecycle unit
| Join (task : Background) : Lifecycle (result unit string).

Inductive ServeError : Type :=
| BindFailed (error : AnyError)
| ListenerFailed (error : IoError)
| HttpFailed (error : IoError)
| TaskFailed (task : Background) (error : string).

(** The order in which the tasks are started, and in which they are joined. *)
Definition spawned : list Background := [NatsManager; WorkerControlTask; DispatcherTask; SchedulerTask; ReconcilerTask].
Definition joined : list Background := [DispatcherTask; WorkerControlTask; SchedulerTask; ReconcilerTask; NatsManager].

Fixpoint join_all (tasks : list Background) (server : result unit ServeError) : future Lifecycle (result unit ServeError) :=
  match tasks with
  | [] => Return server
  | task :: rest => Await (Join task) (fun ended =>
      match ended with Ok _ => join_all rest server | Err error => Return (Err (TaskFailed task error)) end)
  end.

Fixpoint spawn_all (tasks : list Background) (k : future Lifecycle (result unit ServeError)) : future Lifecycle (result unit ServeError) :=
  match tasks with [] => k | task :: rest => Await (Spawn task) (fun _ => spawn_all rest k) end.

Definition serve (port : Z) : future Lifecycle (result unit ServeError) :=
  match bind_listener port with
  | Err error => Return (Err (BindFailed error))
  | Ok (listener, _) =>
      Await (FromStd listener) (fun converted =>
        match converted with
        | Err error => Return (Err (ListenerFailed error))
        | Ok _ =>
            spawn_all spawned
              (Await AxumServe (fun server =>
                 Await Cancel (fun _ => join_all joined (map_err HttpFailed server))))
        end)
  end.

(** The tasks started and joined so far, and whether the cancellation was sent. *)
Definition started (h : list (answered Lifecycle)) : list Background := omap (fun e => match e with Awaited (Spawn task) _ => Some task | _ => None end) h.
Definition stopped (h : list (answered Lifecycle)) : list Background := omap (fun e => match e with Awaited (Join task) _ => Some task | _ => None end) h.
Definition cancelled (h : list (answered Lifecycle)) : bool := existsb (fun e => match e with Awaited Cancel _ => true | _ => false end) h.

Definition serve_rule (h : list (answered Lifecycle)) (B : Type) (c : Lifecycle B) : Prop :=
  match c with
  | FromStd _ => h = []
  | Spawn task => task ∉ started h /\ cancelled h = false
  | AxumServe => started h ≡ₚ [DispatcherTask; WorkerControlTask; SchedulerTask; ReconcilerTask; NatsManager] /\ cancelled h = false
  | Cancel => cancelled h = false
  | Join task => task ∈ started h /\ task ∉ stopped h /\ cancelled h = true
  end.

(** However it ends, a server that started its tasks cancelled them, and one that ends well joined them all. *)
Definition serve_end (h : list (answered Lifecycle)) (r : result unit ServeError) : Prop :=
  (started h <> [] -> cancelled h = true) /\ (r = Ok () -> stopped h ≡ₚ started h /\ length (started h) = 5%nat).

Lemma serve_lifecycle port : obeys serve_rule [] (serve port) /\ ends serve_end [] (serve port).
Proof.
  unfold serve. destruct (bind_listener port) as [[listener ?]|error]; [|by split].
  split; cbn.
  - split; [done|]. intros [[]|e]; cbn; [|done].
    repeat (split; [first [done | split; [apply (bool_decide_unpack _); by vm_compute|done] | split; [|split]; [apply (bool_decide_unpack _); by vm_compute..|done]]|];
      first [intros [[]|] | intros []]; cbn; try done).
  - intros [[]|e]; cbn; [|by split]. do 5 intros []. intros [[]|e]; intros []; cbn;
    repeat (intros [[]|]; cbn; [|by split]); (split; [done|]); try done.
    intros _. split; [|done]. apply (bool_decide_unpack _). by vm_compute.
Qed.
End Listener.

(** ** The command line client (apps/cli) *)

Inductive Host : Type :=
| HostDomain (domain : string)
| HostIpv4 (a b c d : Z)
| HostIpv6 (address : N).

Record Url : Type := mkUrl {
  url_scheme : string;
  url_host : option Host;
  url_username : string;
  url_password : option string;
  url_query : option string;
  url_fragment : option string;
}.

(** The url crate. *)
Class UrlCrate : Type := { url_parse : string -> result Url string }.

Definition is_loopback (url : Url) : bool :=
  match url_host url with
  | Some (HostDomain domain) => (domain =? "localhost")%string
  | Some (HostIpv4 a _ _ _) => a =? 127
  | Some (HostIpv6 address) => (address =? 1)%N
  | None => false
  end.

Section CommandLine.
Context {UC : UrlCrate}.

(** [ClientConfig::parse] *)
Definition client_config_parse (address : string) : result Url string :=
  let? base_url := map_err (fun _ => "invalid Crono server address") (url_parse address) in
  if negb ((url_scheme base_url =? "http")%string || (url_scheme base_url =? "https")%string)
  then Err "Crono server address must use http or https"
  else if negb (bool_decide (is_Some (url_host base_url))) then Err "Crono server address must include a host"
  else if (url_scheme base_url =? "http")%string && negb (is_loopback base_url)
  then Err "http Crono server addresses are limited to loopback development hosts"
  else if negb (url_username base_url =? "")%string || bool_decide (is_Some (url_password base_url))
  then Err "Crono server address must not include user-info"
  else if bool_decide (is_Some (url_query base_url)) || bool_decide (is_Some (url_fragment base_url))
  then Err "Crono server address must not include a query or fragment"
  else Ok base_url.

Definition DEFAULT_ADDRESS : string := "http://127.0.0.1:8080".

(** [env::var]: absent, not Unicode, or a text. *)
Inductive EnvVar : Type := VarText (value : string) | VarNotPresent | VarNotUnicode.

(** [Config::load] *)
Definition config_load (explicit_address : option string) (crono_addr : EnvVar) : result Url string :=
  let? address := match explicit_address with
    | Some address => Ok address
    | None =>
        match crono_addr with
        | VarText address => Ok address
        | VarNotPresent => Ok DEFAULT_ADDRESS
        | VarNotUnicode => Err "CRONO_ADDR must contain valid Unicode"
        end
    end in
  client_config_parse address.

(** The process: the client is built, and no operation exists yet. *)
Definition run_cli (explicit_address : option string) (crono_addr : EnvVar) : result unit string :=
  let? _ := config_load explicit_address crono_addr in
  Err "crono operational commands are not implemented; use --help".

(** An address a client may keep: nothing travels in the clear beyond this host, and nothing is smuggled in. *)
Definition safe_address (url : Url) : Prop :=
  (url_scheme url = "https" \/ url_scheme url = "http" /\ is_loopback url = true)
  /\ is_Some (url_host url) /\ url_username url = "" /\ url_password url = None /\ url_query url = None /\ url_fragment url = None.

(** The client accepts exactly the safe addresses. *)
Lemma client_address_safe address url : client_config_parse address = Ok url <-> url_parse address = Ok url /\ safe_address url.
Proof.
  unfold client_config_parse, safe_address. destruct (url_parse address) as [u|e]; cbn; [|split; [done|by intros []]].
  destruct u as [scheme host username password query fragment]. cbn. split.
  - repeat match goal with |- context [(?x =? ?y)%string] => destruct (String.eqb_spec x y); subst end;
      destruct host, password, query, fragment; cbn; try done;
      repeat (case_match; try done); intros [= <-]; cbn;
      repeat match goal with H : negb _ = false |- _ => apply negb_false_iff in H end; naive_solver.
  - intros ([= <-] & Hs & [h Hh] & Hu & Hp & Hq & Hf). cbn in *. subst. cbn.
    destruct Hs as [->|[-> Hl]]; cbn; [done|]. destruct h; cbn in *; by rewrite Hl.
Qed.
End CommandLine.

(** ** Telemetry (crates/telemetry) *)

Inductive Level : Type := LevelError | LevelInfo | LevelDebug | LevelTrace.

Definition verbosity_level (count : Z) : Level :=
  if count =? 0 then LevelError else if count =? 1 then LevelInfo else if count =? 2 then LevelDebug else LevelTrace.

Section Telemetry.
Context {UC : UrlCrate}.

(** [endpoint] *)
Definition trace_endpoint (value : string) : result Url string :=
  let? url := map_err (fun _ => "invalid OTEL_EXPORTER_OTLP_ENDPOINT URL") (url_parse value) in
  if negb ((url_scheme url =? "http")%string || (url_scheme url =? "https")%string) || negb (bool_decide (is_Some (url_host url)))
  then Err "OTEL_EXPORTER_OTLP_ENDPOINT requires an http:// or https:// host"
  else if negb (url_username url =? "")%string || bool_decide (is_Some (url_password url))
  then Err "use OTEL_EXPORTER_OTLP_HEADERS for credentials, not endpoint user information"
  else Ok url.

Definition grpc_only (var : string -> EnvVar) (key : string) : result unit string :=
  match var key with
  | VarText value => if (value =? "grpc")%string then Ok () else Err (key ++ " must be grpc; only gRPC trace export is supported")
  | VarNotPresent => Ok ()
  | VarNotUnicode => Err (key ++ " must be grpc; only gRPC trace export is supported")
  end.

(** [provider] up to the exporter: where traces go, and whether over TLS. *)
Definition trace_provider (var : string -> EnvVar) : result (option (Url * bool)) string :=
  match var "OTEL_EXPORTER_OTLP_ENDPOINT" with
  | VarNotPresent => Ok None
  | VarNotUnicode => Err "OTEL_EXPORTER_OTLP_ENDPOINT must contain Unicode text"
  | VarText value =>
      let? endpoint := trace_endpoint value in
      let? _ := grpc_only var "OTEL_EXPORTER_OTLP_PROTOCOL" in
      let? _ := grpc_only var "OTEL_EXPORTER_OTLP_TRACES_PROTOCOL" in
      Ok (Some (endpoint, (url_scheme endpoint =? "https")%string))
  end.
End Telemetry.

(** ** The life of a worker (services/worker/src/cli/actions/run.rs) *)

Record ConsumerConfig : Type := mkConsumerConfig {
  cc_durable_name : string;
  cc_description : string;
  cc_ack_wait : Z;
  cc_max_ack_pending : Z;
  cc_filter_subject : string;
}.

(** What [execute] awaits.  [ResolveQueue] is [Worker.resolve_queue]; a fetch answers the payloads of
    its messages, some of which fail; [HandleConcurrently] runs [Worker.handle_message] on each
    message, at most [limit] at a time, to the end of them all. *)
Inductive LifeCall : Type -> Type :=
| ConnectNats (config : NatsClientConfig) : LifeCall (result unit string)
| ResolveQueue (name : string) : LifeCall (result QueueReference ResolveError)
| GetStream (name : string) : LifeCall (result unit string)
| EnsureConsumer (config : ConsumerConfig) : LifeCall (result unit string)
| SpawnPresence (queue_id : Uuid) : LifeCall unit
| IsCancelled : LifeCall bool
| Fetch (max_messages max_bytes : Z) : LifeCall (result (list (result string string)) string)
| HandleConcurrently (limit : Z) (queue_id : Uuid) (payloads : list string) : LifeCall unit
| Pause (duration : Z) : LifeCall unit
| CancelPresence : LifeCall unit
| JoinPresence : LifeCall (result unit string).

Inductive LifeError : Type :=
| InvalidToken (error : ResourceNameError)
| WorkerNats (error : string)
| WorkerQueue (error : ResolveError)
| PresenceFailed (error : string).

Definition consumer_config (args : Args) (queue : QueueReference) : ConsumerConfig :=
  mkConsumerConfig ("crono-" ++ uuid_to_string (qref_id queue)) ("Crono workers for Queue " ++ qref_name queue)
    (90 * second) (ar_concurrency args) ("crono.dispatch." ++ uuid_to_string (qref_id queue)).

Definition received (items : list (result string string)) : list string :=
  omap (fun item => match item with Ok payload => Some payload | Err _ => None end) items.

(** The loop, for at most [rounds] of it: [false] while it goes on. *)
Fixpoint poll_loop (rounds : nat) (args : Args) (queue_id : Uuid) : future LifeCall bool :=
  match rounds with
  | O => Return false
  | S rounds =>
      Await IsCancelled (fun (cancelled : bool) =>
        if cancelled then Return true
        else Await (Fetch (ar_concurrency args) (ar_concurrency args * 65536)) (fun messages =>
          match messages with
          | Err _ => Await (Pause second) (fun _ => poll_loop rounds args queue_id)
          | Ok items =>
              match received items with
              | [] => Await (Pause (100 * millisecond)) (fun _ => poll_loop rounds args queue_id)
              | batch => Await (HandleConcurrently (ar_concurrency args) queue_id batch) (fun _ => poll_loop rounds args queue_id)
              end
          end))
  end.

(** [execute]; [None] while the loop goes on. *)
Definition execute_worker (var : string -> option string) (rounds : nat) (args : Args) : future LifeCall (option (result unit LifeError)) :=
  match validate_token (ar_queue args), validate_token (ar_worker_id args) with
  | Err error, _ | Ok _, Err error => Return (Some (Err (InvalidToken error)))
  | Ok _, Ok _ =>
      match from_lookup (ar_nats_url args) var with
      | Err error => Return (Some (Err (WorkerNats error)))
      | Ok config =>
          Await (ConnectNats config) (fun connected => match connected with Err error => Return (Some (Err (WorkerNats error))) | Ok _ =>
          Await (ResolveQueue (ar_queue args)) (fun resolved => match resolved with Err error => Return (Some (Err (WorkerQueue error))) | Ok queue =>
          Await (GetStream Nats.STREAM_NAME) (fun stream => match stream with Err error => Return (Some (Err (WorkerNats error))) | Ok _ =>
          Await (EnsureConsumer (consumer_config args queue)) (fun consumer => match consumer with Err error => Return (Some (Err (WorkerNats error))) | Ok _ =>
          Await (SpawnPresence (qref_id queue)) (fun _ =>
          then_ (poll_loop rounds args (qref_id queue)) (fun stopped =>
            if stopped
            then Await CancelPresence (fun _ => Await JoinPresence (fun ended => Return (Some (map_err PresenceFailed ended))))
            else Return None)) end) end) end) end)
      end
  end.

(** The messages received and the ones handled so far. *)
Definition fetched_now (e : answered LifeCall) : list string :=
  match e with Awaited c x => match c in LifeCall B return B -> list string with Fetch _ _ => fun x => match x with Ok items => received items | Err _ => [] end | _ => fun _ => [] end x end.
Definition handled_now (e : answered LifeCall) : list string := match e with Awaited (HandleConcurrently _ _ payloads) _ => payloads | _ => [] end.
Definition fetched (h : list (answered LifeCall)) : list string := concat (map fetched_now h).
Definition handled (h : list (answered LifeCall)) : list string := concat (map handled_now h).

(** The Queue that was resolved. *)
Definition resolved_now (e : answered LifeCall) : option QueueReference :=
  match e with Awaited c x => match c in LifeCall B return B -> option QueueReference with ResolveQueue _ => fun x => match x with Ok queue => Some queue | Err _ => None end | _ => fun _ => None end x end.
Definition resolved (h : list (answered LifeCall)) : list QueueReference := omap resolved_now h.

Definition life_rule (args : Args) (h : list (answered LifeCall)) (B : Type) (c : LifeCall B) : Prop :=
  match c with
  | ConnectNats _ => h = [] /\ validate_token (ar_queue args) = Ok () /\ validate_token (ar_worker_id args) = Ok ()
  | ResolveQueue name => name = ar_queue args
  | EnsureConsumer config => exists queue, resolved h = [queue] /\ cc_filter_subject config = dispatch_subject (qref_id queue)
      /\ cc_max_ack_pending config = ar_concurrency args
  | SpawnPresence queue_id => exists queue, resolved h = [queue] /\ queue_id = qref_id queue
  | IsCancelled => fetched h = handled h
  | Fetch max_messages _ => fetched h = handled h /\ max_messages = ar_concurrency args
  | HandleConcurrently limit queue_id payloads => (exists queue, resolved h = [queue] /\ queue_id = qref_id queue)
      /\ limit = ar_concurrency args /\ payloads <> [] /\ fetched h = (handled h ++ payloads)%list
  | CancelPresence | JoinPresence => fetched h = handled h
  | _ => True
  end.

(** Both rules of a call at once. *)
Lemma await_rule {C : Type -> Type} {A B : Type} P (Q : list (answered C) -> A -> Prop) h (c : C B) (k : B -> future C A) :
  P h B c -> (forall x, obeys P (h ++ [Awaited c x]) (k x) /\ ends Q (h ++ [Awaited c x]) (k x)) -> obeys P h (Await c k) /\ ends Q h (Await c k).
Proof. intros Hc H. split; [split; [done|]|]; intros x; apply H. Qed.

Lemma history_app h e :
  fetched (h ++ [e]) = (fetched h ++ fetched_now e)%list /\ handled (h ++ [e]) = (handled h ++ handled_now e)%list
  /\ resolved (h ++ [e]) = (resolved h ++ resolved [e])%list.
Proof. unfold fetched, handled, resolved. rewrite !map_app, !concat_app, omap_app. cbn. by rewrite !app_nil_r. Qed.

(** Between rounds everything received was handled. *)
Definition caught_up (queue : QueueReference) (h : list (answered LifeCall)) : Prop := resolved h = [queue] /\ fetched h = handled h.

Lemma caught_up_app queue h e : caught_up queue h -> resolved [e] = [] -> fetched_now e = handled_now e -> caught_up queue (h ++ [e]).
Proof. intros [Hr Hf] H1 H2. destruct (history_app h e) as (E1 & E2 & E3). unfold caught_up. rewrite E1, E2, E3, Hr, H1, Hf, H2. by split. Qed.

Lemma caught_up_handled queue h limit queue_id payloads x : resolved h = [queue] -> fetched h = (handled h ++ payloads)%list ->
  caught_up queue (h ++ [Awaited (HandleConcurrently limit queue_id payloads) x]).
Proof.
  intros Hr Hf. destruct (history_app h (Awaited (HandleConcurrently limit queue_id payloads) x)) as (E1 & E2 & E3).
  unfold caught_up. rewrite E1, E2, E3, Hr, Hf. cbn. by rewrite app_nil_r.
Qed.

Lemma poll_loop_rule args queue rounds : forall h, caught_up queue h ->
  obeys (life_rule args) h (poll_loop rounds args (qref_id queue)) /\ ends (fun h' _ => caught_up queue h') h (poll_loop rounds args (qref_id queue)).
Proof.
  induction rounds as [|rounds IH]; intros h Hh; [by split|]. cbn [poll_loop].
  apply await_rule; [apply Hh|]. intros cancelled. assert (Hx : caught_up queue (h ++ [Awaited IsCancelled cancelled])) by (by apply caught_up_app).
  destruct cancelled; [by split|]. apply await_rule; [by split; [apply Hx|]|]. set (h1 := (h ++ _)%list) in *. clearbody h1. destruct Hx as [Hq He].
  intros messages. match goal with |- context [(h1 ++ [?e])%list] => destruct (history_app h1 e) as (E1 & E2 & E3); set (h2 := (h1 ++ [e])%list) in * end.
  clearbody h2. cbn in E1, E2, E3. rewrite app_nil_r in E2. rewrite Hq in E3.
  destruct messages as [items|error]; [destruct (received items) as [|payload batch] eqn:Hr|].
  - apply await_rule; [done|]. intros []. apply IH, caught_up_app; [split; [done|]|done..]. rewrite app_nil_r in E1. congruence.
  - apply await_rule; [split_and!; [by exists queue|done|done|congruence]|]. intros []. apply IH.
    apply caught_up_handled; [done|congruence].
  - rewrite app_nil_r in E1. apply await_rule; [done|]. intros []. apply IH, caught_up_app; [split; [done|congruence]|done..].
Qed.

(** What a worker that stopped has done. *)
Definition life_end (h : list (answered LifeCall)) (r : option (result unit LifeError)) : Prop :=
  match r with
  | Some (Ok _) => exists before, h = (before ++ [Awaited CancelPresence tt; Awaited JoinPresence (Ok tt)])%list /\ fetched h = handled h
  | Some (Err (PresenceFailed _)) => fetched h = handled h
  | Some (Err _) => fetched h = []
  | None => fetched h = handled h
  end.

(** The life of a worker: it connects only when its names are valid; consumes only the subject
    that the server publishes its Queue's executions on, with as many unacknowledged deliveries as
    it runs at once; asks for no more before every message it received was handled, nothing
    received being left; and stops only then, after the presence task. *)
Lemma worker_lifecycle var rounds args : obeys (life_rule args) [] (execute_worker var rounds args) /\ ends life_end [] (execute_worker var rounds args).
Proof.
  unfold execute_worker. destruct (validate_token (ar_queue args)) as [[]|e] eqn:Hv; [|by split].
  destruct (validate_token (ar_worker_id args)) as [[]|e] eqn:Hw; [|by split]. destruct (from_lookup _ _) as [config|e]; [|by split].
  apply await_rule; [done|]. intros [[]|e]; [|by split]. apply await_rule; [done|]. intros [queue|e]; [|by split].
  apply await_rule; [done|]. intros [[]|e]; [|by split]. apply await_rule; [by exists queue|]. intros [[]|e]; [|by split].
  apply await_rule; [by exists queue|]. intros []. match goal with |- obeys _ ?h _ /\ _ => assert (Hh : caught_up queue h) by done; set (h1 := h) in * end.
  clearbody h1. destruct (poll_loop_rule args queue rounds h1 Hh) as [Ho He].
  enough (H : forall h stopped, caught_up queue h -> obeys (life_rule args) h (if (stopped : bool)
      then Await CancelPresence (fun _ => Await JoinPresence (fun ended => Return (Some (map_err PresenceFailed ended)))) else Return None)
    /\ ends life_end h (if stopped
      then Await CancelPresence (fun _ => Await JoinPresence (fun ended => Return (Some (map_err PresenceFailed ended)))) else Return None)).
  { split; [apply obeys_then_ends; [done|]|apply ends_then]; (eapply ends_mono; [|exact He]); intros h stopped Hc; by apply H. }
  intros h [] [Hq Hf]; [|by split]. apply await_rule; [done|]. intros []. assert (H1 : caught_up queue (h ++ [Awaited CancelPresence ()])) by (by apply caught_up_app).
  apply await_rule; [apply H1|]. intros ended. split; [done|]. cbn.
  assert (H2 : caught_up queue ((h ++ [Awaited CancelPresence ()]) ++ [Awaited JoinPresence ended])) by (by apply caught_up_app).
  destruct ended as [[]|error]; cbn; [|apply H2]. exists h. split; [by rewrite <- (assoc_L app)|apply H2].
Qed.

(** ** The subscriptions of worker control (infrastructure/worker_control.rs) *)

Inductive Subscription : Type := ControlMessages | PresenceMessages | OutputMessages | ResolutionMessages.

#[export] Instance subscription_dec : EqDecision Subscription.
Proof. solve_decision. Defined.

(** Subject and queue group. *)
Definition subscription_subject (s : Subscription) : string * string :=
  match s with
  | ControlMessages => ("crono.worker.control.*.*", "crono-server-control")
  | PresenceMessages => ("crono.worker.presence.*", "crono-server-presence")
  | OutputMessages => ("crono.worker.output.*", "crono-server-output")
  | ResolutionMessages => ("crono.worker.queue.resolve.*", "crono-server-queue-resolution")
  end.

(** What is run for a message; [permit] is whether one of the output writes is free. *)
Definition subscription_task {WJ : WireJson} (s : Subscription) (permit : bool) (message : NatsMessage) : task (result unit ControlError) :=
  match s with
  | ControlMessages => handle_control message
  | PresenceMessages => handle_presence message
  | OutputMessages => dispatch_output permit message
  | ResolutionMessages => handle_queue_resolution message
  end.

(** What [select!] saw: the cancellation, or a subscription's next message ([None] once it ended). *)
Inductive Wake : Type := Stopping | Delivered (s : Subscription) (message : option NatsMessage).

(** [HandleMessage] runs [subscription_task] and logs its error; the pause for a client ends early on cancellation. *)
Inductive LoopCall : Type -> Type :=
| CheckCancelled : LoopCall bool
| CurrentClient : LoopCall bool
| Subscribe (s : Subscription) : LoopCall (result unit string)
| RetryPause : LoopCall unit
| NextMessage : LoopCall Wake
| HandleMessage (s : Subscription) (message : NatsMessage) : LoopCall unit.

(** The subscriptions in order; the rest of the loop with all of them, or after a pause. *)
Fixpoint subscribe_all (wanted : list Subscription) (ready retry : future LoopCall bool) : future LoopCall bool :=
  match wanted with
  | [] => ready
  | s :: wanted => Await (Subscribe s) (fun answer =>
      match answer with Ok _ => subscribe_all wanted ready retry | Err _ => Await RetryPause (fun _ => retry) end)
  end.

Definition subscriptions : list Subscription := [ControlMessages; PresenceMessages; OutputMessages; ResolutionMessages].

(** [run_worker_control]: the outer loop, and with [connected] the inner one; [false] while it goes
    on after [fuel] rounds of either. *)
Fixpoint run_worker_control (fuel : nat) (connected : bool) : future LoopCall bool :=
  match fuel with
  | O => Return false
  | S fuel =>
      if connected
      then Await NextMessage (fun wake =>
        match wake with
        | Stopping | Delivered _ None => run_worker_control fuel false
        | Delivered s (Some message) => Await (HandleMessage s message) (fun _ => run_worker_control fuel true)
        end)
      else Await CheckCancelled (fun (cancelled : bool) =>
        if cancelled then Return true
        else Await CurrentClient (fun (client : bool) =>
          if client then subscribe_all subscriptions (run_worker_control fuel true) (run_worker_control fuel false)
          else Await RetryPause (fun _ => run_worker_control fuel false)))
  end.

(** The subscriptions made with the current client. *)
Definition subscribe_event (made : list Subscription) (e : answered LoopCall) : list Subscription :=
  match e with Awaited c x =>
    match c in LoopCall B return B -> list Subscription with
    | CurrentClient => fun _ => []
    | Subscribe s => fun x => match x with Ok _ => (made ++ [s])%list | Err _ => made end
    | _ => fun _ => made
    end x
  end.
Definition made (h : list (answered LoopCall)) : list Subscription := fold_left subscribe_event h [].

Definition loop_rule (h : list (answered LoopCall)) (B : Type) (c : LoopCall B) : Prop :=
  match c with
  | NextMessage => made h = subscriptions
  | HandleMessage s message => made h = subscriptions /\ exists before, h = (before ++ [Awaited NextMessage (Delivered s (Some message))])%list
  | Subscribe s => s ∉ made h
  | _ => True
  end.

Definition loop_end (h : list (answered LoopCall)) (stopped : bool) : Prop :=
  stopped = true -> exists before, h = (before ++ [Awaited CheckCancelled true])%list.

Lemma made_app h e : made (h ++ [e]) = subscribe_event (made h) e.
Proof. unfold made. by rewrite fold_left_app. Qed.

Lemma subscribe_all_rule ready retry wanted :
  (forall h, made h = subscriptions -> obeys loop_rule h ready /\ ends loop_end h ready) ->
  (forall h, obeys loop_rule h retry /\ ends loop_end h retry) ->
  forall done h, (done ++ wanted)%list = subscriptions -> made h = done ->
  obeys loop_rule h (subscribe_all wanted ready retry) /\ ends loop_end h (subscribe_all wanted ready retry).
Proof.
  intros Hready Hretry. induction wanted as [|s wanted IH]; intros made_ h Hd Hh; cbn [subscribe_all].
  - apply Hready. by rewrite Hh, <- Hd, app_nil_r.
  - apply await_rule.
    + cbn. rewrite Hh. assert (NoDup (made_ ++ s :: wanted)) as Hn by (rewrite Hd; apply (bool_decide_unpack _); by vm_compute).
      intros Hs. apply NoDup_app in Hn as (_ & Hn & _). by apply (Hn s Hs), list_elem_of_here.
    + intros [[]|e]; [|apply await_rule; [done|intros []; apply Hretry]].
      apply (IH (made_ ++ [s])%list); [by rewrite <- (assoc_L app)|]. by rewrite made_app, Hh.
Qed.

(** The server takes no message before all four subscriptions of its current client stand, handles
    each message it takes once and by the handler of its subscription, subscribes to nothing twice,
    and stops only when cancelled. *)
Lemma control_loop_rule fuel : forall connected h, (connected = true -> made h = subscriptions) ->
  obeys loop_rule h (run_worker_control fuel connected) /\ ends loop_end h (run_worker_control fuel connected).
Proof.
  induction fuel as [|fuel IH]; intros connected h Hh; [by split|]. cbn [run_worker_control]. destruct connected.
  - specialize (Hh eq_refl). apply await_rule; [done|]. intros [|s [message|]]; [by apply IH| |by apply IH].
    apply await_rule; [split; [by rewrite made_app|by eexists]|]. intros []. apply IH. intros _. by rewrite !made_app.
  - apply await_rule; [done|]. intros []; [by split; [|intros _; eexists]|]. apply await_rule; [done|]. intros [].
    + apply (subscribe_all_rule _ _ _) with (done := []); [| |done|by rewrite made_app]; intros; by apply IH.
    + apply await_rule; [done|]. intros []. by apply IH.
Qed.

Lemma subscription_handler {WJ : WireJson} s permit message : exists duty, handler message duty (subscription_task s permit message).
Proof. destruct s; eexists; constructor. Qed.

(** ** The worker's console (execution/output.rs) *)

Local Open Scope string_scope.

(** [str::escape_debug], chrono's and time's texts of an instant, serde_json's of a value and of an envelope. *)
Class ConsoleText : Type := {
  escape_debug : string -> string;
  stamp_text : Instant -> string;
  instant_text : Instant -> string;
  value_text : value -> string;
  envelope_json : ExecutionEventEnvelope -> option string;
}.

Definition bool_text (b : bool) : string := if b then "true" else "false".
Definition newline : string := String (ascii_of_N 10) "".

Section Console.
Context {RF : RustFmt} {CT : ConsoleText}.

Definition terminal_safe (s : string) : string := escape_debug s.

Definition option_display {T} (display : T -> string) (o : option T) : string := match o with Some item => display item | None => "-" end.

Definition trigger_label (trigger : ExecutionTrigger) : string :=
  match trigger with Manual => "manual" | Schedule_ => "schedule" | Rerun => "rerun" end.

Definition phase_label (phase : ExecutionPhase) : string :=
  match phase with PhaseContext => "context" | PhaseCommand => "command" | PhaseSpawn => "spawn" | PhaseExecution => "execution" end.

(** [{:?}] of an option and of a list of texts. *)
Definition debug_option (o : option string) : string := match o with Some s => "Some(" ++ debug_str s ++ ")" | None => "None" end.
Definition debug_list (l : list string) : string := "[" ++ String.concat ", " (map debug_str l) ++ "]".

Definition received_detail (envelope : ExecutionEventEnvelope) (dispatch_id : Uuid) (trigger : option ExecutionTrigger) (scheduled_at : option Instant) : string :=
  "dispatch=" ++ uuid_to_string dispatch_id ++ " job=" ++ option_display uuid_to_string (ee_job_id envelope)
  ++ " queue=" ++ ee_queue envelope ++ " worker=" ++ ee_worker_id envelope
  ++ " trigger=" ++ match trigger with Some t => trigger_label t | None => "unknown" end
  ++ " scheduled_at=" ++ option_display instant_text scheduled_at.

Definition event_detail (envelope : ExecutionEventEnvelope) : string * string :=
  match ee_event envelope with
  | RunReceived dispatch_id trigger scheduled_at => ("run received", received_detail envelope dispatch_id trigger scheduled_at)
  | RunStarted dry_run => ("run started", "dry_run=" ++ bool_text dry_run)
  | ContextResolved values => ("context resolved", value_text values)
  | CommandResolved executable shell_command template arguments =>
      ("command resolved", "executable=" ++ debug_str executable ++ " shell_command=" ++ debug_option shell_command
        ++ " template=" ++ debug_list template ++ " argv=" ++ debug_list arguments)
  | ProcessStarted pid => ("process started", "pid=" ++ option_display pretty pid)
  | StdoutLine line => ("stdout │", terminal_safe line)
  | StderrLine line => ("stderr │", terminal_safe line)
  | ProcessExited exit_code signal duration_ms =>
      ("process exited", "exit=" ++ option_display pretty exit_code ++ " signal=" ++ option_display pretty signal
        ++ " duration=" ++ pretty duration_ms ++ "ms")
  | ProcessSkipped reason => ("process skipped", reason)
  | RunCompleted total_duration_ms => ("✓ completed", "in " ++ pretty total_duration_ms ++ "ms")
  | RunSkipped reason total_duration_ms => ("run skipped", reason ++ " in " ++ pretty total_duration_ms ++ "ms")
  | RunFailed phase error exit_code total_duration_ms =>
      ("ERROR run failed", "phase=" ++ phase_label phase ++ " exit=" ++ option_display pretty exit_code
        ++ " duration=" ++ pretty total_duration_ms ++ "ms error=" ++ terminal_safe error)
  | ResultReportingFailed error execution_succeeded execution_skipped total_duration_ms =>
      ("ERROR result report", "execution_succeeded=" ++ bool_text execution_succeeded ++ " execution_skipped=" ++ bool_text execution_skipped
        ++ " duration=" ++ pretty total_duration_ms ++ "ms error=" ++ terminal_safe error)
  end.

(** [{:<18}] counts characters. *)
Fixpoint spaces (n : nat) : string := match n with O => "" | S n => String " " (spaces n) end.
Definition pad_left_aligned (width : Z) (s : string) : string := s ++ spaces (Z.to_nat (width - chars_count s)).

(** A UUID's text has 36 ASCII bytes, so [get(..8)] answers. *)
Definition short_run (run_id : Uuid) : string := String.substring 0 8 (uuid_to_string run_id).

Definition pretty_line (envelope : ExecutionEventEnvelope) : string :=
  let '(kind, detail) := event_detail envelope in
  stamp_text (ee_timestamp envelope) ++ " [" ++ short_run (ee_run_id envelope) ++ "] " ++ pad_left_aligned 18 kind ++ " " ++ detail.

(** [ConsoleSink::emit]: what it writes. *)
Definition console_emit (format : LogFormat) (envelope : ExecutionEventEnvelope) : string :=
  match format with
  | LogJson => match envelope_json envelope with Some line => line ++ newline | None => "" end
  | LogPretty => pretty_line envelope ++ newline
  end.
End Console.

(** No control character: no byte below 32, no DEL, and no C2 before a byte of
    80 to 9F, which is U+0080 to U+009F.  [after_c2] is whether the byte before was a C2. *)
Fixpoint quiet_after (after_c2 : bool) (s : string) : bool :=
  match s with
  | "" => true
  | String a s =>
      let byte := byte_of a in
      (32 <=? byte)%Z && negb (byte =? 127)%Z && negb (after_c2 && (128 <=? byte)%Z && (byte <=? 159)%Z)
      && quiet_after (byte =? 194)%Z s
  end.

(** Nothing a terminal takes as a command.  No text starts inside a character,
    so a C2 may stand before it, and texts can be joined. *)
Definition quiet_text (s : string) : bool := quiet_after true s.

(** One line without a byte below 32. *)
Fixpoint one_line (s : string) : bool := match s with "" => true | String a s => (32 <=? byte_of a)%Z && one_line s end.

(** What the texts are documented to escape: [escape_debug] and [{:?}] every
    control character, JSON only those below 32. *)
Class ConsoleLaws `{RustFmt} `{ConsoleText} : Prop := {
  escape_debug_quiet s : quiet_text (escape_debug s) = true;
  debug_str_quiet s : quiet_text (debug_str s) = true;
  stamp_quiet t : quiet_text (stamp_text t) = true;
  instant_quiet t : quiet_text (instant_text t) = true;
  value_line v : one_line (value_text v) = true;
}.

(** The reasons that the worker gives are its own texts. *)
Definition worker_reason (event : ExecutionEvent) : Prop :=
  match event with
  | ProcessSkipped reason => reason = "no-op executor" \/ reason = "dry run"
  | RunSkipped reason _ => reason = "dry run"
  | _ => True
  end.

Lemma quiet_weaken b s : quiet_after true s = true -> quiet_after b s = true.
Proof. destruct b; [done|]. destruct s as [|a s]; [done|]. cbn [quiet_after].
  intros [[H1 _]%andb_true_iff H2]%andb_true_iff. by rewrite H1, H2.
Qed.

Lemma quiet_after_app b s t : quiet_after b s = true -> quiet_text t = true -> quiet_after b (s ++ t) = true.
Proof.
  revert b. induction s as [|a s IH]; intros b Hs Ht; [by apply quiet_weaken|].
  change (String a s ++ t) with (String a (s ++ t)). cbn [quiet_after] in *. apply andb_true_iff in Hs as [-> Hs]. by apply IH.
Qed.

Lemma quiet_app_intro s t : quiet_text s = true -> quiet_text t = true -> quiet_text (s ++ t) = true.
Proof. apply quiet_after_app. Qed.

Lemma quiet_one_line s : quiet_text s = true -> one_line s = true.
Proof.
  assert (forall b, quiet_after b s = true -> one_line s = true) as H; [|apply H].
  induction s as [|a s IH]; intros b; [done|]. cbn [quiet_after one_line].
  intros [[[-> _]%andb_true_iff _]%andb_true_iff H]%andb_true_iff. by eapply IH.
Qed.

Lemma one_line_app s t : one_line (s ++ t) = one_line s && one_line t.
Proof. induction s as [|a s IH]; [done|]. change (String a s ++ t) with (String a (s ++ t)). cbn [one_line]. by rewrite IH, andb_assoc. Qed.

(** Printable ASCII is quiet. *)
Lemma quiet_cons b a s : (32 <= byte_of a <= 126)%Z -> quiet_text s = true -> quiet_after b (String a s) = true.
Proof.
  intros Ha Hs. cbn [quiet_after]. rewrite (quiet_weaken _ _ Hs), andb_true_r, !andb_true_iff, !negb_true_iff, andb_false_iff.
  rewrite andb_false_iff. lia.
Qed.

Lemma quiet_pretty (z : Z) : quiet_text (pretty z) = true.
Proof.
  assert (Hn : forall n s, quiet_text s = true -> quiet_text (pretty_N_go n s) = true).
  { intros n. induction (N.lt_wf_0 n) as [n _ IH]. intros s Hs. destruct (N.eq_dec n 0%N) as [->|Hx]; [by rewrite pretty_N_go_0|].
    rewrite pretty_N_go_step by lia. apply IH; [apply N.div_lt; lia|]. apply quiet_cons; [|done].
    unfold pretty_N_char. repeat case_match; (split; vm_compute; discriminate). }
  destruct z as [|p|p]; [done| |].
  - change (pretty (Z.pos p)) with (pretty_N_go (N.pos p) ""). by apply Hn.
  - change (pretty (Z.neg p)) with ("-" ++ pretty_N_go (N.pos p) ""). apply quiet_app_intro; [done|by apply Hn].
Qed.

Lemma quiet_free s : (forall c, byte_of c < 32 \/ 126 < byte_of c -> contains_byte c s = false)%Z -> quiet_text s = true.
Proof.
  induction s as [|a s IH]; intros H; [done|]. apply quiet_cons.
  - destruct (decide (32 <= byte_of a <= 126)%Z) as [|Ha]; [done|]. specialize (H a ltac:(lia)). by rewrite contains_byte_cons, Ascii.eqb_refl in H.
  - apply IH. intros c Hc. specialize (H c Hc). rewrite contains_byte_cons in H. by apply orb_false_iff in H as [_ H].
Qed.

Lemma quiet_uuid u : quiet_text (uuid_to_string u) = true.
Proof.
  apply quiet_free. intros c Hc. apply uuid_free. unfold is_uuid_byte, is_ascii_digit.
  repeat (apply orb_false_iff; split); rewrite ?andb_false_iff; lia.
Qed.

Lemma quiet_substring n s : quiet_text s = true -> quiet_text (String.substring 0 n s) = true.
Proof.
  assert (forall b, quiet_after b s = true -> quiet_after b (String.substring 0 n s) = true) as H; [|apply H].
  revert n. induction s as [|a s IH]; intros [|n] b H; try done.
  cbn [quiet_after String.substring] in *. apply andb_true_iff in H as [-> H]. by apply IH.
Qed.

Lemma quiet_spaces n : quiet_text (spaces n) = true.
Proof. induction n as [|n IH]; [done|]. apply quiet_cons; [split; vm_compute; discriminate|done]. Qed.

Lemma quiet_concat l : Forall (fun s => quiet_text s = true) l -> quiet_text (String.concat ", " l) = true.
Proof.
  induction 1 as [|s [|t l] Hs _ IH]; [done|done|]. change (String.concat ", " (s :: t :: l)) with (s ++ ", " ++ String.concat ", " (t :: l)).
  by apply quiet_app_intro, quiet_app_intro.
Qed.

Create HintDb quiet_db discriminated.
#[export] Hint Resolve quiet_app_intro quiet_pretty quiet_uuid quiet_spaces : quiet_db.
#[export] Hint Extern 1 (quiet_text _ = true) => reflexivity : quiet_db.

Section Quiet.
Context {RF : RustFmt} {CT : ConsoleText} {CL : ConsoleLaws}.

#[local] Hint Extern 0 (quiet_text _ = true) =>
  first [apply escape_debug_quiet | apply debug_str_quiet | apply stamp_quiet | apply instant_quiet] : quiet_db.

Lemma quiet_debug_list l : quiet_text (debug_list l) = true.
Proof.
  unfold debug_list. apply quiet_app_intro; [done|]. apply quiet_app_intro; [|done]. apply quiet_concat, Forall_map, Forall_forall. intros s _. apply debug_str_quiet.
Qed.

Lemma quiet_debug_option o : quiet_text (debug_option o) = true.
Proof. destruct o; cbn [debug_option]; auto with quiet_db. Qed.

Lemma quiet_option {T} (display : T -> string) o : (forall x, quiet_text (display x) = true) -> quiet_text (option_display display o) = true.
Proof. by destruct o; cbn. Qed.

Lemma quiet_labels : (forall t, quiet_text (trigger_label t) = true) /\ (forall p, quiet_text (phase_label p) = true) /\ forall b, quiet_text (bool_text b) = true.
Proof. by repeat split; intros []. Qed.

#[local] Hint Resolve quiet_debug_list quiet_debug_option : quiet_db.

(** Every part of a formatted text in turn. *)
Ltac quiet_parts := match goal with
  | |- quiet_text (_ ++ _) = true => apply quiet_app_intro; quiet_parts
  | |- quiet_text (option_display _ _) = true => apply quiet_option; intros; quiet_parts
  | |- _ => auto with quiet_db
  end.

(** The one event whose detail is JSON. *)
Definition shows_inputs (event : ExecutionEvent) : bool := match event with ContextResolved _ => true | _ => false end.

Lemma quiet_event envelope :
  quiet_text (ee_queue envelope) = true -> quiet_text (ee_worker_id envelope) = true -> worker_reason (ee_event envelope) ->
  if shows_inputs (ee_event envelope) then one_line (event_detail envelope).2 = true else quiet_text (event_detail envelope).2 = true.
Proof.
  intros Hq Hw Hr. destruct quiet_labels as (Ht & Hp & Hb). unfold event_detail.
  destruct (ee_event envelope); cbn [snd worker_reason shows_inputs] in *;
    unfold received_detail, terminal_safe; repeat match goal with H : _ \/ _ |- _ => destruct H as [->| ->] end; subst;
    try apply value_line; quiet_parts.
  destruct trigger; auto with quiet_db.
Qed.

(** C39: What the console prints in its readable format: each event is one line,
    without a byte below 32 before its final newline, when the worker's
    identity and the name of its Queue have no control character.  But for the
    event that shows the inputs as JSON, the line has no control character at
    all (C0, DEL or C1), whatever a process printed, whatever its command
    contains and whatever an error says, so nothing in it can command the
    terminal; JSON leaves DEL and C1 as they are ([csi_in_inputs]). *)
Theorem console_line_quiet envelope :
  quiet_text (ee_queue envelope) = true -> quiet_text (ee_worker_id envelope) = true -> worker_reason (ee_event envelope) ->
  exists line, console_emit LogPretty envelope = line ++ newline /\ one_line line = true
    /\ ((forall values, ee_event envelope <> ContextResolved values) -> quiet_text line = true).
Proof.
  intros Hq Hw Hr. exists (pretty_line envelope). split; [done|]. pose proof (quiet_event envelope Hq Hw Hr) as He.
  unfold pretty_line, pad_left_aligned, short_run.
  assert (Hk : quiet_text (event_detail envelope).1 = true) by (unfold event_detail; by destruct (ee_event envelope)).
  destruct (event_detail envelope) as [kind detail]. cbn [fst snd] in *.
  pose proof (quiet_substring 8 _ (quiet_uuid (ee_run_id envelope))) as Hu.
  assert (Hpre : forall t, quiet_text t = true -> quiet_text (stamp_text (ee_timestamp envelope) ++ " ["
    ++ String.substring 0 8 (uuid_to_string (ee_run_id envelope)) ++ "] " ++ (kind ++ spaces (Z.to_nat (18 - chars_count kind))) ++ " " ++ t) = true)
    by (intros t Hq'; quiet_parts; done).
  destruct (shows_inputs (ee_event envelope)) eqn:Hs.
  - split; [|intros Hno; destruct (ee_event envelope); try done; by destruct (Hno values)].
    pose proof (quiet_one_line _ (Hpre "" eq_refl)) as Hl. rewrite !one_line_app in *. rewrite !andb_true_iff in *. tauto.
  - split; [by apply quiet_one_line, Hpre|intros _; by apply Hpre].
Qed.
End Quiet.

(** ** A console at a concrete input *)

(** A text that keeps printable ASCII and shows every other byte as a dot, and
    one that does so only below 32, as JSON does. *)
Fixpoint hide (s : string) : string :=
  match s with "" => "" | String a s => String (if (32 <=? byte_of a)%Z && (byte_of a <=? 126)%Z then a else ".") (hide s) end.
Fixpoint hide_low (s : string) : string := match s with "" => "" | String a s => String (if (32 <=? byte_of a)%Z then a else ".") (hide_low s) end.

Lemma hide_quiet s : quiet_text (hide s) = true.
Proof.
  induction s as [|a s IH]; [done|]. cbn [hide]. apply quiet_cons; [|done]. destruct (_ && _) eqn:E; [lia|split; vm_compute; discriminate].
Qed.

Lemma hide_low_line s : one_line (hide_low s) = true.
Proof. induction s as [|a s IH]; [done|]. cbn [hide_low one_line]. rewrite IH, andb_true_r. by destruct (32 <=? byte_of a)%Z eqn:E. Qed.

Definition example_fmt : RustFmt := {| debug_str := hide; debug_char := fun c => pretty c |}.
Definition example_text : ConsoleText := {|
  escape_debug := hide; stamp_text := fun t => pretty t; instant_text := fun t => pretty t;
  value_text := fun v => match v with VString s => hide_low s | _ => "{}" end; envelope_json := fun _ => None |}.

Lemma example_laws : @ConsoleLaws example_fmt example_text.
Proof.
  split; intros; cbn; try apply hide_quiet; try apply quiet_pretty. destruct v; try reflexivity. apply hide_low_line.
Qed.

(** A child that tries to clear the screen. *)
Definition clearing : ExecutionEventEnvelope :=
  mkExecutionEventEnvelope 7 1 1 2 3 None "worker-01" "default" (StdoutLine (String (ascii_of_N 27) "[2J")).

Lemma console_line_quiet_witness : exists line,
  @console_emit example_fmt example_text LogPretty clearing = line ++ newline /\ quiet_text line = true /\ quiet_text (String (ascii_of_N 27) "[2J") = false.
Proof.
  destruct (@console_line_quiet example_fmt example_text example_laws clearing) as (line & H1 & _ & H2).
  - vm_compute. reflexivity.
  - vm_compute. reflexivity.
  - exact I.
  - exists line. split; [exact H1|]. split; [apply H2; discriminate|]. vm_compute. reflexivity.
Defined.

(** Inputs with U+009B, which opens a terminal's control sequences: it reaches the line. *)
Example csi_in_inputs :
  let csi := String (ascii_of_N 194) (String (ascii_of_N 155) "2J") in
  let line := @pretty_line example_fmt example_text
    (mkExecutionEventEnvelope 7 1 1 2 3 None "worker-01" "default" (ContextResolved (VString csi))) in
  contains csi line = true /\ one_line line = true /\ quiet_text line = false.
Proof. vm_compute. repeat split; reflexivity. Qed.
