(* ===== verification/Web.v ===== *)
(** * Requests, responses and errors of the HTTP API

    services/server/src/api: error.rs, extract.rs, request_id.rs, state.rs.
    Handlers are futures of awaited calls: to the ports of the application, to
    the verifier of credentials, to the clock and to the process's metrics.
    axum, http, serde and time are parameters. *)

From S2P Require Import Prelude RustStr Json Inputs Names Float Domain Auth Recurrence Workflow Db Snapshot Store WorkflowStore Catalog Queries Validation Application ApplicationSystem Futures ApiTypes Authentication.
From Stdlib Require Import Ascii String.
From stdpp Require Import base numbers strings sorting gmap list.

Local Open Scope string_scope.
Local Open Scope Z_scope.

(** ** Awaited calls *)

Inductive HttpCall : Type -> Type :=
| NewRequestId : HttpCall Uuid                                            (* [Uuid::now_v7()] *)
| Authenticate (credentials : RequestCredentials) : HttpCall (result AuthenticatedCaller AuthenticationError)
| Port {B : Type} (c : Call B) : HttpCall B
| Now : HttpCall Instant                                                  (* [OffsetDateTime::now_utc()] *)
| StoreReady : HttpCall bool
| NatsReady : HttpCall bool
| StoreReadyWithin (seconds : Z) : HttpCall (option bool)                 (* [tokio::time::timeout] *)
| NatsReadyWithin (seconds : Z) : HttpCall (option bool)
| SampleMetrics : HttpCall (result MetricsSnapshot StoreError)
| SetGauges (snapshot : MetricsSnapshot) : HttpCall unit
| EncodeMetrics : HttpCall (result string unit)
| SchedulerLastPoll : HttpCall Z
| OutboxLastPoll : HttpCall Z.

(** A handler's [Result<_, ApiError>]. *)
Inductive ApiError : Type :=
| ApiAuthentication (error : AuthenticationError)
| ApiApplication (error : ApplicationError)
| ApiRejected (status : Z) (code message : string).

Definition web (A : Type) : Type := future HttpCall (result A ApiError).

(** [?] on an awaited result, and on a result. *)
Definition web_bind {A B} (m : web A) (k : A -> web B) : web B :=
  then_ m (fun r => match r with Ok a => k a | Err e => Return (Err e) end).

Notation "'let~' x := m 'in' k" := (web_bind m (fun x => k))
  (at level 10, x pattern, m at level 100, k at level 200) : crono_scope.

Definition pure {A} (r : result A ApiError) : web A := Return r.
Definition await {B} (c : HttpCall B) : web B := Await c (fun x => Return (Ok x)).

(** [state.application()....await?]: a service, its error converted. *)
Fixpoint service {A} (p : prog A) : web A :=
  match p with
  | Ret r => Return (map_err ApiApplication r)
  | Do c k => Await (Port c) (fun x => service (k x))
  end.

(** ** Responses *)

(** The bodies the API answers with. *)
Inductive Body : Type :=
| NoBody
| Text (text : string)
| JError (error : api.ErrorEnvelope)
| JNamespace (resource : api.NamespaceResource) | JNamespaces (page : api.Page api.NamespaceResource)
| JQueue (resource : api.QueueResource) | JQueues (page : api.Page api.QueueResource)
| JJob (resource : api.JobResource) | JJobs (page : api.Page api.JobResource)
| JTarget (resource : api.TargetResource) | JTargets (page : api.Page api.TargetResource)
| JTargetSet (resource : api.TargetSetResource) | JTargetSets (page : api.Page api.TargetSetResource)
| JSchedule (resource : api.ScheduleResource) | JSchedules (page : api.Page api.ScheduleResource)
| JRunBatch (resource : api.RunBatchResource) | JRun (resource : api.RunResource) | JRuns (page : api.Page api.RunResource)
| JRunEvents (events : list api.RunEventResource) | JRunAttempts (attempts : list api.RunAttemptResource)
| JWorkers (page : api.Page api.WorkerResource) | JWorker (resource : api.WorkerDetailsResource)
| JOverview (resource : api.OverviewResource) | JMonitor (resource : api.MonitorResource)
| JWorkflow (resource : api.WorkflowResource) | JWorkflows (page : api.Page api.WorkflowResource)
| JWorkflowRun (resource : api.WorkflowRunResource) | JWorkflowRuns (page : api.Page api.WorkflowRunResource)
| JHealth (commit name version database nats : string).

Record Response : Type := mkResponse {
  rs_status : Z;
  rs_headers : HeaderMap;
  rs_body : Body;
}.

(** [(status, Json(body)).into_response()] and [status.into_response()] *)
Definition json_response (status : Z) (body : Body) : Response :=
  mkResponse status [("content-type", "application/json")] body.
Definition status_response (status : Z) : Response := mkResponse status [] NoBody.

(** ** Errors (error.rs) *)

Definition REJECTION_MESSAGE_MAX_CHARS : nat := 256.

(** [ApiError::rejected] *)
Definition api_rejected (status : Z) (code message : string) : ApiError :=
  ApiRejected status code (take_chars REJECTION_MESSAGE_MAX_CHARS message).

(** [Bearer realm="crono"] *)
Definition WWW_AUTHENTICATE : string := "Bearer realm=" ++ String "034" ("crono" ++ String "034" "").

Definition envelope (status : Z) (code message : string) (field : option string) : Response :=
  let response := json_response status (JError (api.mkErrorEnvelope (api.mkErrorBody code message field))) in
  if status =? 401
  then mkResponse (rs_status response) (header_insert "www-authenticate" WWW_AUTHENTICATE (rs_headers response)) (rs_body response)
  else response.

Definition into_response (self : ApiError) : Response :=
  match self with
  | ApiAuthentication InvalidCredentials =>
      envelope 401 "unauthenticated" "valid authentication credentials are required" None
  | ApiAuthentication VerifierUnavailable =>
      envelope 503 "dependency_unavailable" "a required service is unavailable" None
  | ApiRejected status code message => envelope status code message None
  | ApiApplication application =>
      match application with
      | AppInvalidInput field message => envelope 400 "invalid_request" message field
      | AppNotFound | AppAuthorization Hidden => envelope 404 "not_found" "resource was not found" None
      | AppConflict => envelope 409 "already_exists" "resource already exists" None
      | AppInUse => envelope 409 "resource_in_use" "resource is still in use and cannot be deleted" None
      | AppIdempotencyConflict => envelope 409 "idempotency_conflict" "request ID was reused with different inputs" None
      | AppAuthorization Unauthenticated => envelope 401 "unauthenticated" "authentication is required" None
      | AppAuthorization Forbidden => envelope 403 "forbidden" "operation is not authorized" None
      | AppAuthorization PolicyUnavailable | AppUnavailable =>
          envelope 503 "dependency_unavailable" "a required service is unavailable" None
      | AppInternal => envelope 500 "internal_error" "internal server error" None
      end
  end.

(** ** Requests *)

Inductive Method : Type := GET | HEAD | POST | PUT | PATCH | DELETE | OtherMethod (name : string).

#[global] Instance method_eq : EqDecision Method.
Proof. solve_decision. Defined.

Record Request : Type := mkRequest {
  rq_method : Method;
  rq_path : string;
  rq_query : string;
  rq_headers : HeaderMap;
  rq_body : string;
}.

(** ** Parameters of the routes (handlers/control_plane.rs, handlers/workflows.rs) *)

Record PageQuery : Type := mkPageQuery { pq_limit : option Z; pq_after : option string }.

Record RunPageQuery : Type := mkRunPageQuery {
  rp_limit : option Z;
  rp_before : option Uuid;
  rp_namespace_id : option Uuid;
  rp_status : option api.RunStatus;
  rp_job_id : option Uuid;
  rp_target_id : option Uuid;
  rp_target_set_id : option Uuid;
}.

Record WorkflowRunQuery : Type := mkWorkflowRunQuery { wq_limit : option Z; wq_before : option Uuid }.

(** The types a body and a query string are decoded at. *)
Inductive BodyType : Type -> Type :=
| BCreateNamespace : BodyType api.CreateNamespaceRequest
| BCreateQueue : BodyType api.CreateQueueRequest
| BUpdateQueue : BodyType api.UpdateQueueRequest
| BCreateJob : BodyType api.CreateJobRequest
| BUpdateJob : BodyType api.UpdateJobRequest
| BCreateTarget : BodyType api.CreateTargetRequest
| BUpdateTarget : BodyType api.UpdateTargetRequest
| BCreateTargetSet : BodyType api.CreateTargetSetRequest
| BUpdateTargetSet : BodyType api.UpdateTargetSetRequest
| BCreateSchedule : BodyType api.CreateScheduleRequest
| BUpdateSchedule : BodyType api.UpdateScheduleRequest
| BCreateRun : BodyType api.CreateRunRequest
| BRerun : BodyType api.RerunRequest
| BCreateWorkflow : BodyType api.CreateWorkflowRequest
| BUpdateWorkflow : BodyType api.UpdateWorkflowRequest
| BStartWorkflow : BodyType api.StartWorkflowRequest.

Inductive QueryType : Type -> Type :=
| QPage : QueryType PageQuery
| QRunPage : QueryType RunPageQuery
| QWorkflowRun : QueryType WorkflowRunQuery.

(** axum's rejection of a request: its status and its text. *)
Record Rejection : Type := mkRejection { rj_status : Z; rj_body_text : string }.

(** The extractors and the router of axum, with serde's decoders at the derived
    implementations.  [matched_path] is the registered path a request's path
    matches, with the values of its parameters. *)
Class Axum : Type := {
  matched_path : list string -> string -> option (string * list string);
  allow_header : list Method -> string;
  missing_extension : string;
  path_uuid : list string -> result Uuid Rejection;
  path_string : list string -> result string Rejection;
  query_string {A : Type} : QueryType A -> string -> result A Rejection;
  json_body {A : Type} : BodyType A -> Request -> result A Rejection;
}.

(** What the types of the decoded values say: Rust's strings are UTF-8, its integers bounded. *)
Definition query_typed {A} (kind : QueryType A) : A -> Prop :=
  match kind with
  | QPage => fun q => u16 (pq_limit q) /\ ostr (pq_after q)
  | QRunPage => fun q => u16 (rp_limit q)
  | QWorkflowRun => fun q => u16 (wq_limit q)
  end.

Definition workflow_typed (name : string) (description : option string) (nodes : list api.WorkflowNodeRequest)
    (edges : list api.WorkflowEdgeRequest) : Prop :=
  str name /\ ostr description /\ (forall n, n ∈ nodes -> str (api.wnr_name n))
  /\ (forall e, e ∈ edges -> str (api.wer_from e) /\ str (api.wer_to e)).

Definition body_typed {A} (kind : BodyType A) : A -> Prop :=
  match kind with
  | BCreateNamespace => fun r => str (api.cnr_name r)
  | BCreateQueue => fun r => str (api.cqr_name r)
  | BUpdateQueue => fun r => str (api.uqr_name r)
  | BCreateJob => fun r => str (api.cjr_name r)
  | BUpdateJob => fun r => str (api.ujr_name r)
  | BCreateTarget => fun r => str (api.ctr_name r)
  | BUpdateTarget => fun r => str (api.utr_name r)
  | BCreateTargetSet => fun r => str (api.ctsr_name r)
  | BUpdateTargetSet => fun r => str (api.utsr_name r)
  | BCreateSchedule => fun r => str (api.csr_name r) /\ u32 (api.csr_misfire_grace_seconds r)
  | BCreateWorkflow => fun r => workflow_typed (api.cwr_name r) (api.cwr_description r) (api.cwr_nodes r) (api.cwr_edges r)
  | BUpdateWorkflow => fun r => workflow_typed (api.uwr_name r) (api.uwr_description r) (api.uwr_nodes r) (api.uwr_edges r)
  | _ => fun _ => True
  end.

(** A path without parameters matches exactly itself; a matched path is a registered one. *)
Class AxumLaws `{Axum} : Prop := {
  matched_registered registered path found captures :
    matched_path registered path = Some (found, captures) -> found ∈ registered;
  matched_static registered path :
    path ∈ registered -> contains "{" path = false -> matched_path registered path = Some (path, []);
  matched_exact registered path found captures :
    matched_path registered path = Some (found, captures) -> contains "{" found = false -> found = path;
  path_string_typed captures value : path_string captures = Ok value -> str value;
  query_string_typed {A} (kind : QueryType A) text value : query_string kind text = Ok value -> query_typed kind value;
  json_body_typed {A} (kind : BodyType A) request value : json_body kind request = Ok value -> body_typed kind value;
}.

(** ** Extraction (extract.rs) *)

Definition is_server_error (status : Z) : bool := (500 <=? status) && (status <? 600).

Definition rejected (status : Z) (detail : string) : ApiError :=
  if status =? 413 then api_rejected status "payload_too_large" detail
  else if status =? 415 then api_rejected status "unsupported_media_type" detail
  else if is_server_error status then ApiApplication AppInternal
  else api_rejected 400 "invalid_request" detail.

Definition from_rejection (rejection : Rejection) : ApiError := rejected (rj_status rejection) (rj_body_text rejection).

Section Extract.
Context {AX : Axum}.

Definition ApiPath (captures : list string) : result Uuid ApiError := map_err from_rejection (path_uuid captures).
Definition ApiPathString (captures : list string) : result string ApiError := map_err from_rejection (path_string captures).
Definition ApiQuery {A} (kind : QueryType A) (request : Request) : result A ApiError :=
  map_err from_rejection (query_string kind (rq_query request)).
Definition ApiJson {A} (kind : BodyType A) (request : Request) : result A ApiError :=
  map_err from_rejection (json_body kind request).

End Extract.

(** ** Correlation (request_id.rs) *)

Definition REQUEST_ID_HEADER : string := "x-request-id".
Definition CLIENT_REQUEST_ID_MAX_LEN : Z := 128.

Section Correlation.
Context {HV : HeaderValues}.

(** What is logged of the client's own identifier: the first value of the header. *)
Definition client_request_id (headers : HeaderMap) : option string :=
  value ← head (get_all headers REQUEST_ID_HEADER);
  text ← header_to_str value;
  if negb (text =? "")%string && (slen text <=? CLIENT_REQUEST_ID_MAX_LEN) then Some text else None.

(** The response of [assign]. *)
Definition with_request_id (request_id : Uuid) (response : Response) : Response :=
  match header_from_str (uuid_to_string request_id) with
  | Some value =>
      mkResponse (rs_status response) (header_insert REQUEST_ID_HEADER value (rs_headers response)) (rs_body response)
  | None => response
  end.

End Correlation.
