(* ===== verification/Resources.v ===== *)
(** * Resources of the HTTP API

    The conversions between the records of the application and the contracts
    of the API: services/server/src/api/handlers/control_plane.rs,
    workflows.rs and monitor.rs. *)

From S2P Require Import Prelude RustStr Json Inputs Names Float Domain Auth Recurrence Workflow Db Snapshot Store WorkflowStore Catalog Queries Validation Application Futures Dispatcher ApiTypes Authentication Web.
From Stdlib Require Import Ascii String.
From stdpp Require Import base numbers strings sorting gmap list.

Local Open Scope string_scope.
Local Open Scope Z_scope.

(** The crate [time]: RFC 3339 texts of an instant, and instants of a Unix time. *)
Class Rfc3339 : Type := {
  format_rfc3339 : Instant -> option string;
  parse_rfc3339 : string -> option Instant;
  from_unix_timestamp : Z -> option Instant;
}.

(** ** Enumerations *)

Definition domain_executor (value : api.ExecutorKind) : ExecutorKind :=
  match value with api.EK_Noop => Noop | api.EK_Process => Process | api.EK_Shell => Shell end.

Definition api_executor (value : ExecutorKind) : api.ExecutorKind :=
  match value with Noop => api.EK_Noop | Process => api.EK_Process | Shell => api.EK_Shell end.

Definition domain_misfire (value : api.MisfirePolicy) : MisfirePolicy :=
  match value with api.MP_RunLate => RunLate | api.MP_Skip => MisfireSkip | api.MP_GracePeriod => GracePeriod end.

Definition api_misfire (value : MisfirePolicy) : api.MisfirePolicy :=
  match value with RunLate => api.MP_RunLate | MisfireSkip => api.MP_Skip | GracePeriod => api.MP_GracePeriod end.

Definition domain_catchup (value : api.CatchupPolicy) : CatchupPolicy :=
  match value with api.CP_Skip => CatchupSkip | api.CP_RunOnce => RunOnce | api.CP_CatchUp => CatchUp end.

Definition api_catchup (value : CatchupPolicy) : api.CatchupPolicy :=
  match value with CatchupSkip => api.CP_Skip | RunOnce => api.CP_RunOnce | CatchUp => api.CP_CatchUp end.

Definition domain_target (value : api.ExecutionTarget) : TargetSelection :=
  match value with api.ET_Target id => SelTarget id | api.ET_TargetSet id => SelTargetSet id end.

Definition domain_run_status (status : api.RunStatus) : RunStatus :=
  match status with
  | api.RS_PendingDispatch => PendingDispatch
  | api.RS_Queued => Queued
  | api.RS_Running => Running
  | api.RS_RetryWait => RetryWait
  | api.RS_Succeeded => Succeeded
  | api.RS_Failed => Failed
  | api.RS_Dead => Dead
  | api.RS_Skipped => Skipped
  | api.RS_Cancelled => Cancelled
  | api.RS_Unknown => Unknown
  end.

Definition api_run_status (status : RunStatus) : api.RunStatus :=
  match status with
  | PendingDispatch => api.RS_PendingDispatch
  | Queued => api.RS_Queued
  | Running => api.RS_Running
  | RetryWait => api.RS_RetryWait
  | Succeeded => api.RS_Succeeded
  | Failed => api.RS_Failed
  | Dead => api.RS_Dead
  | Skipped => api.RS_Skipped
  | Cancelled => api.RS_Cancelled
  | Unknown => api.RS_Unknown
  end.

Definition domain_condition (value : api.DependencyCondition) : DependencyCondition :=
  match value with api.DC_Success => Success | api.DC_Failure => Failure | api.DC_Always => Always end.

Definition api_condition (value : DependencyCondition) : api.DependencyCondition :=
  match value with Success => api.DC_Success | Failure => api.DC_Failure | Always => api.DC_Always end.

Definition run_state (value : WorkflowState) : api.WorkflowRunState :=
  match value with
  | WPending => api.WRS_Pending
  | WRunning => api.WRS_Running
  | WSucceeded => api.WRS_Succeeded
  | WFailed => api.WRS_Failed
  | WCancelled => api.WRS_Cancelled
  end.

Definition node_run_state (value : WorkflowNodeState) : api.WorkflowNodeRunState :=
  match value with
  | NPending => api.NRS_Pending
  | NReady => api.NRS_Ready
  | NRunning => api.NRS_Running
  | NSucceeded => api.NRS_Succeeded
  | NFailed => api.NRS_Failed
  | NSkipped => api.NRS_Skipped
  | NCancelled => api.NRS_Cancelled
  | NUnknown => api.NRS_Unknown
  end.

Definition internal {A} : result A ApiError := Err (ApiApplication AppInternal).

(** [format!("{}/{}", namespace, name)] *)
Definition qualified (namespace name : string) : string := namespace ++ "/" ++ name.

(** ** Values *)

(** Classify presence using server time. *)
Definition worker_status (last_seen now : Instant) : api.WorkerStatus :=
  let age_seconds := Z.max (Z.quot (now - last_seen) second) 0 in
  if age_seconds <=? 30 then api.WS_Online
  else if age_seconds <=? 120 then api.WS_Stale
  else api.WS_Offline.

(** An impossible negative count is an internal failure. *)
Definition nonnegative (value : Z) : result Z ApiError := try_from in_u64 (ApiApplication AppInternal) value.

Definition duration_ms (start finish : option Instant) : option Z :=
  match start, finish with
  | Some start, Some finish =>
      let milliseconds := Z.quot (finish - start) millisecond in
      if in_u64 milliseconds then Some milliseconds else None
  | _, _ => None
  end.

Definition attempt_status (value : string) : result api.AttemptStatus ApiError :=
  if (value =? "pending_dispatch")%string then Ok api.AS_PendingDispatch
  else if (value =? "queued")%string then Ok api.AS_Queued
  else if (value =? "running")%string then Ok api.AS_Running
  else if (value =? "succeeded")%string then Ok api.AS_Succeeded
  else if (value =? "skipped")%string then Ok api.AS_Skipped
  else if (value =? "failed")%string then Ok api.AS_Failed
  else if (value =? "dead")%string then Ok api.AS_Dead
  else if (value =? "unknown")%string then Ok api.AS_Unknown
  else internal.

(** [option.map(f).transpose()] *)
Definition transpose {A B} (f : A -> result B ApiError) (o : option A) : result (option B) ApiError :=
  match o with
  | Some a => let? b := f a in Ok (Some b)
  | None => Ok None
  end.

Definition map_page {T U} (page : Page T) (mapper : T -> result U ApiError) : result (api.Page U) ApiError :=
  let? converted := collect mapper (items page) in
  Ok (api.mkPage converted (next_cursor page)).

Section Resources.
Context {RC : Rfc3339}.

Definition timestamp (value : Instant) : result string ApiError := ok_or (format_rfc3339 value) (ApiApplication AppInternal).

(** Omit a local poll time until the loop has successfully touched PostgreSQL. *)
Definition poll_timestamp (unix_seconds : Z) : result (option string) ApiError :=
  if unix_seconds =? 0 then Ok None
  else
    let? value := ok_or (from_unix_timestamp unix_seconds) (ApiApplication AppInternal) in
    let? text := timestamp value in
    Ok (Some text).

(** ** The catalog *)

Definition namespace_resource (namespace : Namespace) : result api.NamespaceResource ApiError :=
  let? created_at := timestamp (ns_created_at namespace) in
  Ok (api.mkNamespaceResource (ns_id namespace) (NamespaceNameM.as_str (ns_name namespace)) created_at).

Definition queue_resource (queue : Queue) : result api.QueueResource ApiError :=
  let? created_at := timestamp (q_created_at queue) in
  let? updated_at := timestamp (q_updated_at queue) in
  Ok {| api.qr_id := q_id queue; api.qr_name := QueueNameM.as_str (q_name queue); api.qr_description := q_description queue;
        api.qr_enabled := q_enabled queue; api.qr_system := q_system queue; api.qr_created_at := created_at;
        api.qr_updated_at := updated_at |}.

Definition job_resource (record : JobRecord) : result api.JobResource ApiError :=
  let job := jr_job record in
  let namespace := NamespaceNameM.as_str (jr_namespace record) in
  let name := ResourceNameM.as_str (job_name job) in
  let? created_at := timestamp (job_created_at job) in
  let? updated_at := timestamp (job_updated_at job) in
  Ok {| api.jr_id := job_id job; api.jr_namespace_id := job_namespace_id job; api.jr_namespace := namespace;
        api.jr_name := name; api.jr_qualified_name := qualified namespace name; api.jr_executor := api_executor (job_executor job);
        api.jr_queue_id := job_queue_id job; api.jr_queue := QueueNameM.as_str (jr_queue_name record);
        api.jr_executable := job_executable job; api.jr_shell_command := job_shell_command job;
        api.jr_arguments := job_arguments job; api.jr_inputs := job_inputs job; api.jr_idempotent := job_idempotent job;
        api.jr_dry_run := job_dry_run job; api.jr_max_attempts := job_max_attempts job;
        api.jr_retry_initial_seconds := job_retry_initial_seconds job; api.jr_retry_max_seconds := job_retry_max_seconds job;
        api.jr_retry_multiplier := job_retry_multiplier job; api.jr_retry_jitter := job_retry_jitter job;
        api.jr_created_at := created_at; api.jr_updated_at := updated_at |}.

Definition target_resource (record : TargetRecord) : result api.TargetResource ApiError :=
  let target := tr_target record in
  let namespace := NamespaceNameM.as_str (tr_namespace record) in
  let name := ResourceNameM.as_str (tgt_name target) in
  let? created_at := timestamp (tgt_created_at target) in
  let? updated_at := timestamp (tgt_updated_at target) in
  Ok {| api.tr_id := tgt_id target; api.tr_namespace_id := tgt_namespace_id target; api.tr_namespace := namespace;
        api.tr_name := name; api.tr_qualified_name := qualified namespace name; api.tr_arguments := tgt_arguments target;
        api.tr_inputs := tgt_inputs target; api.tr_created_at := created_at; api.tr_updated_at := updated_at |}.

Definition target_set_resource (record : TargetSetRecord) : result api.TargetSetResource ApiError :=
  let target_set := tsrec_target_set record in
  let namespace := NamespaceNameM.as_str (tsrec_namespace record) in
  let name := ResourceNameM.as_str (ts_name target_set) in
  let targets := map (fun target => api.mkTargetReference (tgt_id target) (ResourceNameM.as_str (tgt_name target)))
    (tsrec_targets record) in
  let? created_at := timestamp (ts_created_at target_set) in
  let? updated_at := timestamp (ts_updated_at target_set) in
  Ok {| api.tsr_id := ts_id target_set; api.tsr_namespace_id := ts_namespace_id target_set; api.tsr_namespace := namespace;
        api.tsr_name := name; api.tsr_qualified_name := qualified namespace name; api.tsr_targets := targets;
        api.tsr_inputs := ts_inputs target_set; api.tsr_created_at := created_at; api.tsr_updated_at := updated_at |}.

Definition schedule_resource (record : ScheduleRecord) : result api.ScheduleResource ApiError :=
  let schedule := srec_schedule record in
  let namespace := NamespaceNameM.as_str (srec_namespace record) in
  let target_name := qualified namespace (ResourceNameM.as_str (srec_target_name record)) in
  let? (cron_expression, execute_at, timezone) := match sch_timing schedule with
    | Cron expression timezone => Ok (Some expression, None, timezone)
    | Once execute_at => let? execute_at := timestamp execute_at in Ok (None, Some execute_at, "UTC")
    end in
  let? next_run_at := transpose timestamp (sch_next_run_at schedule) in
  let? last_run_at := transpose timestamp (sch_last_run_at schedule) in
  let? created_at := timestamp (sch_created_at schedule) in
  let? updated_at := timestamp (sch_updated_at schedule) in
  Ok {| api.sr_id := sch_id schedule; api.sr_namespace_id := sch_namespace_id schedule; api.sr_namespace := namespace;
        api.sr_name := ResourceNameM.as_str (sch_name schedule); api.sr_job_id := sch_job_id schedule;
        api.sr_job := qualified namespace (ResourceNameM.as_str (srec_job_name record));
        api.sr_target := match sch_target schedule with
                         | SelTarget id => api.ETR_Target id target_name
                         | SelTargetSet id => api.ETR_TargetSet id target_name
                         end;
        api.sr_inputs := sch_inputs schedule; api.sr_cron_expression := cron_expression; api.sr_execute_at := execute_at;
        api.sr_timezone := timezone; api.sr_enabled := sch_enabled schedule; api.sr_next_run_at := next_run_at;
        api.sr_last_run_at := last_run_at; api.sr_misfire_policy := api_misfire (sch_misfire_policy schedule);
        api.sr_misfire_grace_seconds := sch_misfire_grace_seconds schedule;
        api.sr_catchup_policy := api_catchup (sch_catchup_policy schedule);
        api.sr_max_catchup_runs := sch_max_catchup_runs schedule;
        api.sr_max_catchup_age_seconds := sch_max_catchup_age_seconds schedule; api.sr_revision := sch_revision schedule;
        api.sr_created_at := created_at; api.sr_updated_at := updated_at |}.

(** ** Runs *)

Definition trigger_source (run : Run) : api.RunTriggerSource :=
  match run_rerun_of_run_id run, run_schedule_id run with
  | Some _, _ => api.TS_Rerun
  | None, Some _ => api.TS_Scheduler
  | None, None => api.TS_Api
  end.

Definition run_resource (record : RunRecord) : result api.RunResource ApiError :=
  let run := rec_run record in
  let namespace := NamespaceNameM.as_str (rec_job_namespace record) in
  let job_name := ResourceNameM.as_str (rec_job_name record) in
  let target_name := ResourceNameM.as_str (rec_target_name record) in
  let? scheduled_at := timestamp (run_scheduled_at run) in
  let? created_at := timestamp (run_created_at run) in
  let? triggered_at := timestamp (run_created_at run) in
  let? queued_at := transpose timestamp (run_queued_at run) in
  let? started_at := transpose timestamp (run_started_at run) in
  let? completed_at := transpose timestamp (run_completed_at run) in
  Ok {| api.run_id := run_id run; api.run_request_id := run_request_id run; api.run_schedule_id := run_schedule_id run;
        api.run_job_id := run_job_id run; api.run_job := qualified namespace job_name; api.run_namespace := namespace;
        api.run_job_name := job_name; api.run_target_id := run_target_id run;
        api.run_target := qualified (NamespaceNameM.as_str (rec_target_namespace record)) target_name;
        api.run_target_name := target_name; api.run_target_set := option_map ResourceNameM.as_str (rec_target_set_name record);
        api.run_queue := QueueNameM.as_str (rec_queue_name record); api.run_trigger_source := trigger_source run;
        api.run_trigger_actor := None; api.run_rerun_of_run_id := run_rerun_of_run_id run;
        api.run_rerunnable := is_repeatable (run_status run) && rec_has_execution_snapshot record;
        api.run_status := api_run_status (run_status run); api.run_scheduled_at := scheduled_at;
        api.run_created_at := created_at; api.run_triggered_at := triggered_at; api.run_queued_at := queued_at;
        api.run_started_at := started_at; api.run_completed_at := completed_at;
        api.run_duration_ms := duration_ms (run_started_at run) (run_completed_at run);
        api.run_attempt_count := run_attempt_count run; api.run_max_attempts := run_max_attempts run;
        api.run_lateness_seconds := run_lateness_seconds run; api.run_terminal_reason := run_terminal_reason run |}.

Definition run_event_resource (record : RunEventRecord) : result api.RunEventResource ApiError :=
  let? created_at := timestamp (ev_created_at record) in
  Ok (api.mkRunEventResource (ev_event_type record) created_at).

Definition run_attempt_resource (record : RunAttemptRecord) : result api.RunAttemptResource ApiError :=
  let? status := attempt_status (ra_status record) in
  let? started_at := transpose timestamp (ra_started_at record) in
  let? completed_at := transpose timestamp (ra_completed_at record) in
  Ok {| api.rar_id := ra_id record; api.rar_worker_id := ra_worker_id record; api.rar_attempt := ra_attempt record;
        api.rar_status := status; api.rar_started_at := started_at; api.rar_completed_at := completed_at;
        api.rar_exit_code := ra_exit_code record; api.rar_stdout_tail := ra_stdout_tail record;
        api.rar_stderr_tail := ra_stderr_tail record; api.rar_error := ra_error record |}.

(** ** Workers *)

Definition worker_resource (record : WorkerRecord) (now : Instant) : result api.WorkerResource ApiError :=
  let? started_at := timestamp (wk_started_at record) in
  let? last_seen_at := timestamp (wk_last_seen_at record) in
  Ok {| api.wr_worker_id := wk_worker_id record; api.wr_queue_id := wk_queue_id record; api.wr_queue := wk_queue record;
        api.wr_concurrency := wk_concurrency record; api.wr_version := wk_version record;
        api.wr_status := worker_status (wk_last_seen_at record) now; api.wr_started_at := started_at;
        api.wr_last_seen_at := last_seen_at; api.wr_active_executions := wk_active_executions record |}.

(** ** Workflows *)

Definition workflow_resource (record : WorkflowRecord) : result api.WorkflowResource ApiError :=
  let definition := wrec_definition record in
  let? nodes := collect (fun node =>
    let name := ResourceNameM.as_str (wn_name node) in
    let? id := ok_or (wrec_node_ids record !! name) (ApiApplication AppInternal) in
    Ok (api.mkWorkflowNodeResource id name (wn_job_id node))) (wd_nodes definition) in
  let? created_at := timestamp (wrec_created_at record) in
  let? updated_at := timestamp (wrec_updated_at record) in
  Ok {| api.wf_id := wrec_id record; api.wf_namespace_id := wrec_namespace_id record;
        api.wf_namespace := NamespaceNameM.as_str (wrec_namespace record);
        api.wf_name := ResourceNameM.as_str (wd_name definition); api.wf_description := wd_description definition;
        api.wf_revision := wrec_revision record; api.wf_nodes := nodes;
        api.wf_edges := map (fun edge => api.mkWorkflowEdgeResource (ResourceNameM.as_str (we_from edge))
          (ResourceNameM.as_str (we_to edge)) (api_condition (we_condition edge))) (wd_edges definition);
        api.wf_created_at := created_at; api.wf_updated_at := updated_at |}.

Definition workflow_run_resource (record : WorkflowRunRecord) : result api.WorkflowRunResource ApiError :=
  let? nodes := collect (fun node =>
    let? started_at := transpose timestamp (nrr_started_at node) in
    let? finished_at := transpose timestamp (nrr_finished_at node) in
    Ok {| api.wnrr_id := nrr_id node; api.wnrr_workflow_node_id := nrr_workflow_node_id node;
          api.wnrr_name := ResourceNameM.as_str (nrr_name node); api.wnrr_job_id := nrr_job_id node;
          api.wnrr_state := node_run_state (nrr_state node);
          api.wnrr_runs := map (fun child => api.mkWorkflowChildRunResource (wc_target_id child) (wc_run_id child)) (nrr_runs node);
          api.wnrr_started_at := started_at; api.wnrr_finished_at := finished_at |}) (wrr_nodes record) in
  let target := match wrr_target record with SelTarget id => api.ET_Target id | SelTargetSet id => api.ET_TargetSet id end in
  let? workflow := workflow_resource (wrr_workflow record) in
  let? created_at := timestamp (wrr_created_at record) in
  let? started_at := transpose timestamp (wrr_started_at record) in
  let? finished_at := transpose timestamp (wrr_finished_at record) in
  Ok {| api.wrun_id := wrr_id record; api.wrun_request_id := wrr_request_id record; api.wrun_workflow := workflow;
        api.wrun_target := target; api.wrun_inputs := wrr_inputs record; api.wrun_state := run_state (wrr_state record);
        api.wrun_cancellation_requested := wrr_cancellation_requested record; api.wrun_nodes := nodes;
        api.wrun_created_at := created_at; api.wrun_started_at := started_at; api.wrun_finished_at := finished_at |}.

(** ** The monitor *)

Definition database_resource (snapshot : MonitorSnapshot) : result api.DatabaseMonitorResource ApiError :=
  let? size_bytes := nonnegative (mo_database_size_bytes snapshot) in
  let? connections := nonnegative (mo_database_connections snapshot) in
  Ok (api.mkDatabaseMonitorResource size_bytes connections (mo_pool_connections snapshot)
        (mo_pool_idle_connections snapshot) (mo_pool_max_connections snapshot)).

Definition pipeline_resource (snapshot : MonitorSnapshot) : result api.PipelineMonitorResource ApiError :=
  let? enabled_schedules := nonnegative (mo_enabled_schedules snapshot) in
  let? due_schedules := nonnegative (mo_due_schedules snapshot) in
  let? earliest_next_run_at := transpose timestamp (mo_earliest_next_run_at snapshot) in
  let? outbox_pending := nonnegative (ms_outbox_pending (mo_metrics snapshot)) in
  let? outbox_oldest_seconds := nonnegative (ms_outbox_oldest_seconds (mo_metrics snapshot)) in
  let? runs_queued := nonnegative (ms_execution_queued (mo_metrics snapshot)) in
  let? runs_running := nonnegative (ms_execution_running (mo_metrics snapshot)) in
  let? active_worker_leases := nonnegative (ms_worker_active (mo_metrics snapshot)) in
  let? online_workers := nonnegative (mo_online_workers snapshot) in
  Ok (api.mkPipelineMonitorResource enabled_schedules due_schedules earliest_next_run_at outbox_pending
        outbox_oldest_seconds runs_queued runs_running active_worker_leases online_workers).

(** The database's values and what was sampled of this process. *)
Definition monitor_resource (snapshot : option MonitorSnapshot) (database_available nats_available : bool)
    (sampled_at : string) : web api.MonitorResource :=
  let~ (database, pipeline) := pure match snapshot with
    | None => Ok (None, None)
    | Some snapshot =>
        let? database := database_resource snapshot in
        let? pipeline := pipeline_resource snapshot in
        Ok (Some database, Some pipeline)
    end in
  let~ scheduler := await SchedulerLastPoll in
  let~ scheduler_last_poll_at := pure (poll_timestamp scheduler) in
  let~ publisher := await OutboxLastPoll in
  let~ publisher_last_poll_at := pure (poll_timestamp publisher) in
  pure (Ok {| api.mr_sampled_at := sampled_at; api.mr_database_available := database_available;
              api.mr_nats_available := nats_available; api.mr_database := database; api.mr_pipeline := pipeline;
              api.mr_instance := api.mkInstanceMonitorResource scheduler_last_poll_at publisher_last_poll_at |}).

End Resources.

(** Translate untrusted graph values without interpreting them. *)
Definition definition_input (request : api.CreateWorkflowRequest) : WorkflowInput :=
  {| wi_name := api.cwr_name request; wi_description := api.cwr_description request;
     wi_nodes := map (fun node => (api.wnr_name node, api.wnr_job_id node)) (api.cwr_nodes request);
     wi_edges := map (fun edge => (api.wer_from edge, api.wer_to edge, domain_condition (api.wer_condition edge)))
       (api.cwr_edges request) |}.
