(* ===== verification/Handlers.v ===== *)
(** * The handlers of the HTTP API

    services/server/src/api/handlers: control_plane.rs, workflows.rs,
    monitor.rs and health.rs.  A handler gets its extracted arguments, calls
    one service of the application and converts its answer. *)

From S2P Require Import Prelude RustStr Json Inputs Names Float Domain Auth Recurrence Workflow Db Snapshot Store WorkflowStore Catalog Queries Validation Application Futures ApiTypes Authentication Web Resources.
From Stdlib Require Import Ascii String.
From stdpp Require Import base numbers strings sorting gmap list.

Local Open Scope string_scope.
Local Open Scope Z_scope.

Section Handlers.
Context {SJ : SerdeJson} {RF : RustFmt} {CC : CronCrates} {RC : Rfc3339}.

(** ** Namespaces *)

Definition create_namespace (context : RequestContext) (request : api.CreateNamespaceRequest)
  : web (Z * api.NamespaceResource) :=
  let~ namespace := service (Application.create_namespace context (api.cnr_name request)) in
  let~ resource := pure (namespace_resource namespace) in
  pure (Ok (201, resource)).

Definition list_namespaces (context : RequestContext) (query : PageQuery) : web (api.Page api.NamespaceResource) :=
  let~ page := service (Application.list_namespaces context (pq_limit query) (pq_after query)) in
  pure (map_page page namespace_resource).

Definition get_namespace (context : RequestContext) (namespace_id : Uuid) : web api.NamespaceResource :=
  let~ namespace := service (Application.get_namespace context namespace_id) in
  pure (namespace_resource namespace).

Definition delete_namespace (context : RequestContext) (namespace_id : Uuid) : web Z :=
  let~ _ := service (Application.delete_namespace context namespace_id) in
  pure (Ok 204).

(** ** Queues *)

Definition create_queue (context : RequestContext) (request : api.CreateQueueRequest) : web (Z * api.QueueResource) :=
  let~ queue := service (Application.create_queue context
    {| cq_name := api.cqr_name request; cq_description := api.cqr_description request |}) in
  let~ resource := pure (queue_resource queue) in
  pure (Ok (201, resource)).

Definition list_queues (context : RequestContext) (query : PageQuery) : web (api.Page api.QueueResource) :=
  let~ page := service (Application.list_queues context (pq_limit query) (pq_after query)) in
  pure (map_page page queue_resource).

Definition get_queue (context : RequestContext) (queue_id : Uuid) : web api.QueueResource :=
  let~ queue := service (Application.get_queue context queue_id) in
  pure (queue_resource queue).

Definition update_queue (context : RequestContext) (queue_id : Uuid) (request : api.UpdateQueueRequest)
  : web api.QueueResource :=
  let~ queue := service (Application.update_queue context queue_id
    {| uq_name := api.uqr_name request; uq_description := api.uqr_description request; uq_enabled := api.uqr_enabled request |}) in
  pure (queue_resource queue).

Definition delete_queue (context : RequestContext) (queue_id : Uuid) : web Z :=
  let~ _ := service (Application.delete_queue context queue_id) in
  pure (Ok 204).

(** ** Jobs *)

Definition create_job (context : RequestContext) (namespace_id : Uuid) (request : api.CreateJobRequest)
  : web (Z * api.JobResource) :=
  let~ job := service (Application.create_job context namespace_id
    {| cj_name := api.cjr_name request; cj_queue_id := api.cjr_queue_id request;
       cj_executor := match api.cjr_executor request with
                      | api.EK_Noop => Noop | api.EK_Process => Process | api.EK_Shell => Shell
                      end;
       cj_executable := api.cjr_executable request; cj_shell_command := api.cjr_shell_command request;
       cj_arguments := api.cjr_arguments request; cj_inputs := api.cjr_inputs request;
       cj_idempotent := api.cjr_idempotent request; cj_dry_run := api.cjr_dry_run request;
       cj_max_attempts := api.cjr_max_attempts request; cj_retry_initial_seconds := api.cjr_retry_initial_seconds request;
       cj_retry_max_seconds := api.cjr_retry_max_seconds request; cj_retry_multiplier := api.cjr_retry_multiplier request;
       cj_retry_jitter := api.cjr_retry_jitter request |}) in
  let~ resource := pure (job_resource job) in
  pure (Ok (201, resource)).

Definition list_jobs (context : RequestContext) (namespace_id : Uuid) (query : PageQuery) : web (api.Page api.JobResource) :=
  let~ page := service (Application.list_jobs context namespace_id (pq_limit query) (pq_after query)) in
  pure (map_page page job_resource).

Definition get_job (context : RequestContext) (job_id : Uuid) : web api.JobResource :=
  let~ job := service (Application.get_job context job_id) in
  pure (job_resource job).

Definition update_job (context : RequestContext) (job_id : Uuid) (request : api.UpdateJobRequest) : web api.JobResource :=
  let~ job := service (Application.update_job context job_id
    {| cj_name := api.ujr_name request; cj_queue_id := api.ujr_queue_id request;
       cj_executor := domain_executor (api.ujr_executor request);
       cj_executable := api.ujr_executable request; cj_shell_command := api.ujr_shell_command request;
       cj_arguments := api.ujr_arguments request; cj_inputs := api.ujr_inputs request;
       cj_idempotent := api.ujr_idempotent request; cj_dry_run := api.ujr_dry_run request;
       cj_max_attempts := api.ujr_max_attempts request; cj_retry_initial_seconds := api.ujr_retry_initial_seconds request;
       cj_retry_max_seconds := api.ujr_retry_max_seconds request; cj_retry_multiplier := api.ujr_retry_multiplier request;
       cj_retry_jitter := api.ujr_retry_jitter request |}) in
  pure (job_resource job).

(** ** Targets *)

Definition create_target (context : RequestContext) (namespace_id : Uuid) (request : api.CreateTargetRequest)
  : web (Z * api.TargetResource) :=
  let~ target := service (Application.create_target context namespace_id (api.ctr_name request) (api.ctr_arguments request)
    (api.ctr_inputs request)) in
  let~ resource := pure (target_resource target) in
  pure (Ok (201, resource)).

Definition list_targets (context : RequestContext) (namespace_id : Uuid) (query : PageQuery)
  : web (api.Page api.TargetResource) :=
  let~ page := service (Application.list_targets context namespace_id (pq_limit query) (pq_after query)) in
  pure (map_page page target_resource).

Definition get_target (context : RequestContext) (target_id : Uuid) : web api.TargetResource :=
  let~ target := service (Application.get_target context target_id) in
  pure (target_resource target).

Definition update_target (context : RequestContext) (target_id : Uuid) (request : api.UpdateTargetRequest)
  : web api.TargetResource :=
  let~ target := service (Application.update_target context target_id (api.utr_name request) (api.utr_arguments request)
    (api.utr_inputs request)) in
  pure (target_resource target).

Definition delete_target (context : RequestContext) (target_id : Uuid) : web Z :=
  let~ _ := service (Application.delete_target context target_id) in
  pure (Ok 204).

(** ** Target Sets *)

Definition create_target_set (context : RequestContext) (namespace_id : Uuid) (request : api.CreateTargetSetRequest)
  : web (Z * api.TargetSetResource) :=
  let~ target_set := service (Application.create_target_set context namespace_id (api.ctsr_name request)
    (api.ctsr_target_ids request) (api.ctsr_inputs request)) in
  let~ resource := pure (target_set_resource target_set) in
  pure (Ok (201, resource)).

Definition list_target_sets (context : RequestContext) (namespace_id : Uuid) (query : PageQuery)
  : web (api.Page api.TargetSetResource) :=
  let~ page := service (Application.list_target_sets context namespace_id (pq_limit query) (pq_after query)) in
  pure (map_page page target_set_resource).

Definition get_target_set (context : RequestContext) (target_set_id : Uuid) : web api.TargetSetResource :=
  let~ target_set := service (Application.get_target_set context target_set_id) in
  pure (target_set_resource target_set).

Definition update_target_set (context : RequestContext) (target_set_id : Uuid) (request : api.UpdateTargetSetRequest)
  : web api.TargetSetResource :=
  let~ target_set := service (Application.update_target_set context target_set_id (api.utsr_name request)
    (api.utsr_target_ids request) (api.utsr_inputs request)) in
  pure (target_set_resource target_set).

(** ** Schedules *)

(** Exactly one of a cron expression and an instant. *)
Definition requested_timing (request : api.CreateScheduleRequest) : result ScheduleTiming ApiError :=
  match api.csr_cron_expression request, api.csr_execute_at request with
  | Some expression, None => Ok (Cron expression (api.csr_timezone request))
  | None, Some execute_at =>
      let? execute_at := ok_or (parse_rfc3339 (trim execute_at))
        (ApiApplication (invalid "execute_at" "execute_at must be an RFC 3339 timestamp")) in
      Ok (Once execute_at)
  | _, _ => Err (ApiApplication (invalid_request "exactly one of cron_expression or execute_at is required"))
  end.

Definition create_schedule (context : RequestContext) (namespace_id : Uuid) (request : api.CreateScheduleRequest)
  : web (Z * api.ScheduleResource) :=
  let~ timing := pure (requested_timing request) in
  let~ schedule := service (Application.create_schedule context namespace_id
    {| cs_name := api.csr_name request; cs_job_id := api.csr_job_id request;
       cs_target := domain_target (api.csr_target request); cs_inputs := api.csr_inputs request; cs_timing := timing;
       cs_misfire_policy := domain_misfire (api.csr_misfire_policy request);
       cs_misfire_grace_seconds := api.csr_misfire_grace_seconds request;
       cs_catchup_policy := domain_catchup (api.csr_catchup_policy request);
       cs_max_catchup_runs := api.csr_max_catchup_runs request;
       cs_max_catchup_age_seconds := api.csr_max_catchup_age_seconds request |}) in
  let~ resource := pure (schedule_resource schedule) in
  pure (Ok (201, resource)).

Definition list_schedules (context : RequestContext) (namespace_id : Uuid) (query : PageQuery)
  : web (api.Page api.ScheduleResource) :=
  let~ page := service (Application.list_schedules context namespace_id (pq_limit query) (pq_after query)) in
  pure (map_page page schedule_resource).

Definition get_schedule (context : RequestContext) (schedule_id : Uuid) : web api.ScheduleResource :=
  let~ record := service (Application.get_schedule context schedule_id) in
  pure (schedule_resource record).

Definition update_schedule (context : RequestContext) (schedule_id : Uuid) (request : api.UpdateScheduleRequest)
  : web api.ScheduleResource :=
  let~ record := service (Application.set_schedule_enabled context schedule_id (api.usr_revision request)
    (api.usr_enabled request)) in
  pure (schedule_resource record).

(** ** Runs *)

Definition create_run (context : RequestContext) (request : api.CreateRunRequest) : web (Z * api.RunBatchResource) :=
  let~ outcome := service (Application.create_run context (api.crr_request_id request) (api.crr_job_id request)
    (domain_target (api.crr_target request)) (api.crr_inputs request)) in
  let status := if cro_created outcome then 201 else 200 in
  let~ runs := pure (collect run_resource (cro_runs outcome)) in
  pure (Ok (status, api.mkRunBatchResource (api.crr_request_id request) runs)).

Definition list_runs (context : RequestContext) (query : RunPageQuery) : web (api.Page api.RunResource) :=
  let~ page := service (Application.list_runs context
    {| rf_namespace_id := rp_namespace_id query; rf_status := option_map domain_run_status (rp_status query);
       rf_job_id := rp_job_id query; rf_target_id := rp_target_id query; rf_target_set_id := rp_target_set_id query |}
    (rp_limit query) (rp_before query)) in
  pure (map_page page run_resource).

Definition get_run (context : RequestContext) (run_id : Uuid) : web api.RunResource :=
  let~ run := service (Application.get_run context run_id) in
  pure (run_resource run).

Definition rerun_run (context : RequestContext) (run_id : Uuid) (request : api.RerunRequest) : web (Z * api.RunResource) :=
  let~ outcome := service (Application.rerun_run context run_id (api.rr_request_id request)) in
  let~ run := pure (ok_or (head (cro_runs outcome)) (ApiApplication AppInternal)) in
  let status := if cro_created outcome then 201 else 200 in
  let~ resource := pure (run_resource run) in
  pure (Ok (status, resource)).

Definition list_run_events (context : RequestContext) (run_id : Uuid) : web (list api.RunEventResource) :=
  let~ events := service (Application.list_run_events context run_id) in
  pure (collect run_event_resource events).

Definition list_run_attempts (context : RequestContext) (run_id : Uuid) : web (list api.RunAttemptResource) :=
  let~ attempts := service (Application.list_run_attempts context run_id) in
  pure (collect run_attempt_resource attempts).

(** ** Workers and the overview *)

Definition list_workers (context : RequestContext) (query : PageQuery) : web (api.Page api.WorkerResource) :=
  let~ page := service (Application.list_workers context (pq_limit query) (pq_after query)) in
  let~ now := await Now in
  pure (map_page page (fun worker => worker_resource worker now)).

Definition get_worker (context : RequestContext) (worker_id : string) : web api.WorkerDetailsResource :=
  let~ record := service (Application.get_worker context worker_id) in
  let~ now := await Now in
  let~ worker := pure (worker_resource record now) in
  pure (Ok (api.mkWorkerDetailsResource worker (wk_diagnostics record))).

Definition overview (context : RequestContext) : web api.OverviewResource :=
  let~ overview := service (Application.overview context) in
  pure (Ok (api.mkOverviewResource (ov_namespaces overview) (ov_jobs overview) (ov_targets overview)
    (ov_target_sets overview) (ov_schedules overview) (ov_runs overview))).

(** The two probes are awaited together; here one after the other. *)
Definition monitor (context : RequestContext) : web api.MonitorResource :=
  let~ snapshot := service (Application.monitor_snapshot context) in
  let~ database_available := await (StoreReadyWithin 3) in
  let~ nats_available := await (NatsReadyWithin 3) in
  let database_available := default false database_available in
  let nats_available := default false nats_available in
  let~ now := await Now in
  let~ sampled_at := pure (timestamp now) in
  let snapshot := if database_available then snapshot else None in
  monitor_resource snapshot database_available nats_available sampled_at.

(** ** Workflows *)

Definition create_workflow (context : RequestContext) (namespace_id : Uuid) (request : api.CreateWorkflowRequest)
  : web (Z * api.WorkflowResource) :=
  let~ record := service (Application.create_workflow context namespace_id (definition_input request)) in
  let~ resource := pure (workflow_resource record) in
  pure (Ok (201, resource)).

Definition list_workflows (context : RequestContext) (namespace_id : Uuid) (query : PageQuery)
  : web (api.Page api.WorkflowResource) :=
  let~ page := service (Application.list_workflows context namespace_id (pq_limit query) (pq_after query)) in
  pure (map_page page workflow_resource).

Definition get_workflow (context : RequestContext) (id : Uuid) : web api.WorkflowResource :=
  let~ record := service (Application.get_workflow context id) in
  pure (workflow_resource record).

Definition update_workflow (context : RequestContext) (id : Uuid) (request : api.UpdateWorkflowRequest)
  : web api.WorkflowResource :=
  let input := definition_input (api.mkCreateWorkflowRequest (api.uwr_name request) (api.uwr_description request)
    (api.uwr_nodes request) (api.uwr_edges request)) in
  let~ record := service (Application.update_workflow context id (api.uwr_revision request) input) in
  pure (workflow_resource record).

Definition delete_workflow (context : RequestContext) (id : Uuid) : web Z :=
  let~ _ := service (Application.delete_workflow context id) in
  pure (Ok 204).

Definition start_workflow (context : RequestContext) (id : Uuid) (request : api.StartWorkflowRequest)
  : web (Z * api.WorkflowRunResource) :=
  let~ (record, created) := service (Application.start_workflow context id (api.swr_request_id request)
    (domain_target (api.swr_target request)) (api.swr_inputs request)) in
  let~ resource := pure (workflow_run_resource record) in
  pure (Ok (if (created : bool) then 201 else 200, resource)).

Definition list_workflow_runs (context : RequestContext) (id : Uuid) (query : WorkflowRunQuery)
  : web (api.Page api.WorkflowRunResource) :=
  let~ page := service (Application.list_workflow_runs context id (wq_limit query) (wq_before query)) in
  pure (map_page page workflow_run_resource).

Definition get_workflow_run (context : RequestContext) (id : Uuid) : web api.WorkflowRunResource :=
  let~ record := service (Application.get_workflow_run context id) in
  pure (workflow_run_resource record).

Definition cancel_workflow_run (context : RequestContext) (id : Uuid) : web api.WorkflowRunResource :=
  let~ record := service (Application.cancel_workflow_run context id) in
  pure (workflow_run_resource record).

End Handlers.

(** ** Operational endpoints (health.rs, state.rs) *)

(** What the build embeds: built_info and Cargo's package metadata. *)
Class Build : Type := {
  GIT_COMMIT_HASH : option string;
  CARGO_PKG_NAME : string;
  CARGO_PKG_VERSION : string;
}.

Section Operational.
Context {BI : Build} {HV : HeaderValues}.

Definition commit_hash : string := default "unknown" GIT_COMMIT_HASH.

Definition x_app_headers (commit name version : string) : HeaderMap :=
  let short_commit := take_chars 7 commit in
  match header_from_str (name ++ ":" ++ version ++ ":" ++ short_commit) with
  | Some value => [("x-app", value)]
  | None => []
  end.

Definition live : future HttpCall Response := Return (status_response 200).

Definition ready : future HttpCall Response :=
  Await StoreReady (fun ready : bool => Return (status_response (if ready then 200 else 503))).

Definition health : future HttpCall Response :=
  Await StoreReady (fun database_ready : bool =>
  Await NatsReady (fun nats_ready : bool =>
    let database := if database_ready then "available" else "unavailable" in
    let nats := if nats_ready then "available" else "degraded" in
    let response := json_response 200 (JHealth commit_hash CARGO_PKG_NAME CARGO_PKG_VERSION database nats) in
    Return (mkResponse 200 (rs_headers response ++ x_app_headers commit_hash CARGO_PKG_NAME CARGO_PKG_VERSION)%list
      (rs_body response)))).

(** [AppState::refresh_metrics] *)
Definition refresh_metrics : future HttpCall bool :=
  Await SampleMetrics (fun sample =>
    match sample with
    | Ok snapshot => Await (SetGauges snapshot) (fun _ => Return true)
    | Err _ => Return false
    end).

Definition metrics : future HttpCall Response :=
  then_ refresh_metrics (fun _ =>
  Await EncodeMetrics (fun encoded =>
    match encoded with
    | Ok output =>
        Return (mkResponse 200 [("content-type", "application/openmetrics-text; version=1.0.0; charset=utf-8")] (Text output))
    | Err _ => Return (mkResponse 500 [("content-type", "text/plain; charset=utf-8")] (Text "metrics encoding failed"))
    end)).

End Operational.
