(* ===== verification/Api.v ===== *)
(** * The HTTP boundary (api/mod.rs, api/openapi.rs, api/authentication.rs, api/request_id.rs)

    The registered routes, the fallbacks and the transport layers: a request
    gets a server-issued identifier, is authenticated, and reaches the handler
    of its route with the verified caller. *)

From S2P Require Import Prelude RustStr Json Inputs Names Float Domain Auth Recurrence Workflow Db Snapshot Store WorkflowStore Catalog Queries Validation Application ApplicationSystem Authority Futures ApiTypes Authentication Web Resources Handlers.
From Stdlib Require Import Ascii String.
From stdpp Require Import base numbers strings sorting gmap list.

Local Open Scope string_scope.
Local Open Scope Z_scope.

Section Boundary.
Context {SJ : SerdeJson} {RF : RustFmt} {CC : CronCrates} {RC : Rfc3339} {BI : Build} {HV : HeaderValues} {AX : Axum}.

(** ** Endpoints *)

(** A handler behind its extractors: the request, the verified context of its
    extensions and the values of the path's parameters. *)
Definition Endpoint : Type := Request -> option RequestContext -> list string -> future HttpCall Response.

(** axum's rejection of [Extension<RequestContext>]. *)
Definition without_extension : Response :=
  mkResponse 500 [("content-type", "text/plain; charset=utf-8")] (Text missing_extension).

(** [Result<T, ApiError>::into_response] *)
Definition respond {A} (f : A -> Response) (h : web A) : future HttpCall Response :=
  then_ h (fun r => Return (match r with Ok a => f a | Err e => into_response e end)).

(** [Json(x)], [(status, Json(x))] and a bare status. *)
Definition ok {A} (f : A -> Body) (a : A) : Response := json_response 200 (f a).
Definition with_status {A} (f : A -> Body) (a : Z * A) : Response := json_response a.1 (f a.2).

Definition extracted {A} (r : result A ApiError) (k : A -> future HttpCall Response) : future HttpCall Response :=
  match r with Ok a => k a | Err e => Return (into_response e) end.

(** Extractors run in the order of the handler's parameters. *)
Definition on_context {A} (f : A -> Response) (h : RequestContext -> web A) : Endpoint := fun _ extension _ =>
  match extension with
  | None => Return without_extension
  | Some context => respond f (h context)
  end.

Definition on_query {Q A} (kind : QueryType Q) (f : A -> Response) (h : RequestContext -> Q -> web A) : Endpoint :=
  fun request extension _ =>
  match extension with
  | None => Return without_extension
  | Some context => extracted (ApiQuery kind request) (fun query => respond f (h context query))
  end.

Definition on_body {R A} (kind : BodyType R) (f : A -> Response) (h : RequestContext -> R -> web A) : Endpoint :=
  fun request extension _ =>
  match extension with
  | None => Return without_extension
  | Some context => extracted (ApiJson kind request) (fun body => respond f (h context body))
  end.

Definition on_id {A} (f : A -> Response) (h : RequestContext -> Uuid -> web A) : Endpoint := fun _ extension captures =>
  match extension with
  | None => Return without_extension
  | Some context => extracted (ApiPath captures) (fun id => respond f (h context id))
  end.

Definition on_name {A} (f : A -> Response) (h : RequestContext -> string -> web A) : Endpoint := fun _ extension captures =>
  match extension with
  | None => Return without_extension
  | Some context => extracted (ApiPathString captures) (fun name => respond f (h context name))
  end.

Definition on_id_query {Q A} (kind : QueryType Q) (f : A -> Response) (h : RequestContext -> Uuid -> Q -> web A) : Endpoint :=
  fun request extension captures =>
  match extension with
  | None => Return without_extension
  | Some context => extracted (ApiPath captures) (fun id =>
      extracted (ApiQuery kind request) (fun query => respond f (h context id query)))
  end.

Definition on_id_body {R A} (kind : BodyType R) (f : A -> Response) (h : RequestContext -> Uuid -> R -> web A) : Endpoint :=
  fun request extension captures =>
  match extension with
  | None => Return without_extension
  | Some context => extracted (ApiPath captures) (fun id =>
      extracted (ApiJson kind request) (fun body => respond f (h context id body)))
  end.

Definition public (h : future HttpCall Response) : Endpoint := fun _ _ _ => h.

(** ** Routes (openapi.rs, with the paths of the handlers' [utoipa::path]) *)

Definition api_router : list (string * list (Method * Endpoint)) := [
  ("/live", [(GET, public live)]);
  ("/ready", [(GET, public Handlers.ready)]);
  ("/health", [(GET, public health)]);
  ("/metrics", [(GET, public metrics)]);
  ("/api/namespaces", [(POST, on_body BCreateNamespace (with_status JNamespace) Handlers.create_namespace);
                       (GET, on_query QPage (ok JNamespaces) Handlers.list_namespaces)]);
  ("/api/namespaces/{namespace_id}", [(GET, on_id (ok JNamespace) Handlers.get_namespace);
                                      (DELETE, on_id status_response Handlers.delete_namespace)]);
  ("/api/queues", [(POST, on_body BCreateQueue (with_status JQueue) Handlers.create_queue);
                   (GET, on_query QPage (ok JQueues) Handlers.list_queues)]);
  ("/api/queues/{queue_id}", [(GET, on_id (ok JQueue) Handlers.get_queue);
                              (PUT, on_id_body BUpdateQueue (ok JQueue) Handlers.update_queue);
                              (DELETE, on_id status_response Handlers.delete_queue)]);
  ("/api/namespaces/{namespace_id}/jobs", [(POST, on_id_body BCreateJob (with_status JJob) Handlers.create_job);
                                           (GET, on_id_query QPage (ok JJobs) Handlers.list_jobs)]);
  ("/api/jobs/{job_id}", [(GET, on_id (ok JJob) Handlers.get_job);
                          (PUT, on_id_body BUpdateJob (ok JJob) Handlers.update_job)]);
  ("/api/namespaces/{namespace_id}/targets", [(POST, on_id_body BCreateTarget (with_status JTarget) Handlers.create_target);
                                              (GET, on_id_query QPage (ok JTargets) Handlers.list_targets)]);
  ("/api/targets/{target_id}", [(GET, on_id (ok JTarget) Handlers.get_target);
                                (PUT, on_id_body BUpdateTarget (ok JTarget) Handlers.update_target);
                                (DELETE, on_id status_response Handlers.delete_target)]);
  ("/api/namespaces/{namespace_id}/target-sets",
     [(POST, on_id_body BCreateTargetSet (with_status JTargetSet) Handlers.create_target_set);
      (GET, on_id_query QPage (ok JTargetSets) Handlers.list_target_sets)]);
  ("/api/target-sets/{target_set_id}", [(GET, on_id (ok JTargetSet) Handlers.get_target_set);
                                        (PUT, on_id_body BUpdateTargetSet (ok JTargetSet) Handlers.update_target_set)]);
  ("/api/namespaces/{namespace_id}/schedules",
     [(POST, on_id_body BCreateSchedule (with_status JSchedule) Handlers.create_schedule);
      (GET, on_id_query QPage (ok JSchedules) Handlers.list_schedules)]);
  ("/api/schedules/{schedule_id}", [(GET, on_id (ok JSchedule) Handlers.get_schedule);
                                    (PATCH, on_id_body BUpdateSchedule (ok JSchedule) Handlers.update_schedule)]);
  ("/api/runs", [(POST, on_body BCreateRun (with_status JRunBatch) Handlers.create_run);
                 (GET, on_query QRunPage (ok JRuns) Handlers.list_runs)]);
  ("/api/runs/{run_id}", [(GET, on_id (ok JRun) Handlers.get_run)]);
  ("/api/runs/{run_id}/rerun", [(POST, on_id_body BRerun (with_status JRun) Handlers.rerun_run)]);
  ("/api/runs/{run_id}/events", [(GET, on_id (ok JRunEvents) Handlers.list_run_events)]);
  ("/api/runs/{run_id}/attempts", [(GET, on_id (ok JRunAttempts) Handlers.list_run_attempts)]);
  ("/api/workers", [(GET, on_query QPage (ok JWorkers) Handlers.list_workers)]);
  ("/api/workers/{worker_id}", [(GET, on_name (ok JWorker) Handlers.get_worker)]);
  ("/api/overview", [(GET, on_context (ok JOverview) Handlers.overview)]);
  ("/api/monitor", [(GET, on_context (ok JMonitor) monitor)]);
  ("/api/namespaces/{namespace_id}/workflows",
     [(POST, on_id_body BCreateWorkflow (with_status JWorkflow) Handlers.create_workflow);
      (GET, on_id_query QPage (ok JWorkflows) Handlers.list_workflows)]);
  ("/api/workflows/{workflow_id}", [(GET, on_id (ok JWorkflow) Handlers.get_workflow);
                                    (PUT, on_id_body BUpdateWorkflow (ok JWorkflow) Handlers.update_workflow);
                                    (DELETE, on_id status_response Handlers.delete_workflow)]);
  ("/api/workflows/{workflow_id}/runs",
     [(POST, on_id_body BStartWorkflow (with_status JWorkflowRun) Handlers.start_workflow);
      (GET, on_id_query QWorkflowRun (ok JWorkflowRuns) Handlers.list_workflow_runs)]);
  ("/api/workflow-runs/{workflow_run_id}", [(GET, on_id (ok JWorkflowRun) Handlers.get_workflow_run)]);
  ("/api/workflow-runs/{workflow_run_id}/cancel", [(POST, on_id (ok JWorkflowRun) Handlers.cancel_workflow_run)])
].

(** ** Dispatch and fallbacks (mod.rs) *)

Definition route_not_found : ApiError := api_rejected 404 "not_found" "no API route matches this path".

Definition method_not_allowed : ApiError :=
  api_rejected 405 "method_not_allowed" "this route does not support the requested HTTP method".

(** The handlers of a path by method; axum's [get] serves HEAD too. *)
Fixpoint method_endpoint (method : Method) (endpoints : list (Method * Endpoint)) : option Endpoint :=
  match endpoints with
  | [] => None
  | (m, endpoint) :: endpoints =>
      if bool_decide (m = method) || (bool_decide (m = GET) && bool_decide (method = HEAD))
      then Some endpoint else method_endpoint method endpoints
  end.

Fixpoint endpoints_of (path : string) (routes : list (string * list (Method * Endpoint))) : option (list (Method * Endpoint)) :=
  match routes with
  | [] => None
  | (p, endpoints) :: routes => if (p =? path)%string then Some endpoints else endpoints_of path routes
  end.

Definition with_allow (methods : list Method) (response : Response) : Response :=
  mkResponse (rs_status response) (header_insert "allow" (allow_header methods) (rs_headers response)) (rs_body response).

Definition dispatch (request : Request) (extension : option RequestContext) : future HttpCall Response :=
  match matched_path (map fst api_router) (rq_path request) with
  | None => Return (into_response route_not_found)
  | Some (path, captures) =>
      match endpoints_of path api_router with
      | None => Return (into_response route_not_found)
      | Some endpoints =>
          match method_endpoint (rq_method request) endpoints with
          | Some endpoint => endpoint request extension captures
          | None => Return (with_allow (map fst endpoints) (into_response method_not_allowed))
          end
      end
  end.

(** ** The transport layers *)

Definition public_paths : list string := ["/live"; "/ready"; "/health"; "/metrics"].

(** [matches!(method, GET | HEAD) && matches!(path, ...)] *)
Definition bypasses (request : Request) : bool :=
  match rq_method request with GET | HEAD => true | _ => false end && bool_decide (rq_path request ∈ public_paths).

Definition establish (request : Request) (request_id : option Uuid) : future HttpCall Response :=
  if bypasses request then dispatch request None
  else match request_id with
  | None => Return (into_response (ApiApplication AppInternal))
  | Some request_id =>
      then_ (match credentials (rq_headers request) with
             | Ok credentials => Await (Authenticate credentials) (fun caller => Return caller)
             | Err error => Return (Err error)
             end)
        (fun caller => match caller with
         | Ok caller => dispatch request (Some (mkRequestContext request_id caller))
         | Err error => Return (into_response (ApiAuthentication error))
         end)
  end.

(** axum sends no body to HEAD. *)
Definition for_method (method : Method) (response : Response) : Response :=
  match method with HEAD => mkResponse (rs_status response) (rs_headers response) NoBody | _ => response end.

(** [assign] around [establish] around the routes. *)
Definition app (request : Request) : future HttpCall Response :=
  Await NewRequestId (fun request_id =>
    then_ (establish request (Some request_id)) (fun response =>
      Return (for_method (rq_method request) (with_request_id request_id response)))).

End Boundary.
