(* ===== verification/ApiTheorems.v ===== *)
(** * What the HTTP boundary guarantees

    Every request reaches the application through one service, in the context
    of the caller the verifier vouched for; every failure is the same error
    envelope with a stable code. *)

From S2P Require Import Prelude RustStr Json Inputs Names Float Domain Auth Recurrence Workflow Db Snapshot Store WorkflowStore Catalog Queries Validation Application ApplicationSystem Authority Accepted Futures ApiTypes Authentication Web Resources Handlers Api.
From Stdlib Require Import Ascii String.
From stdpp Require Import base numbers strings sorting gmap list.

Local Open Scope Z_scope.

(** ** Calls of the application's ports *)

Definition port (e : answered HttpCall) : option event :=
  let 'Awaited c x := e in
  match c in HttpCall B return B -> option event with
  | Port c => fun x => Some (Ev c x)
  | _ => fun _ => None
  end x.

Definition ports (tr : list (answered HttpCall)) : list event := omap port tr.

(** A service run for a while. *)
Inductive runs {A} : prog A -> list event -> prog A -> Prop :=
| runs_none p : runs p [] p
| runs_do {B} (c : Call B) (k : B -> prog A) (x : B) tr p : runs (k x) tr p -> runs (Do c k) (Ev c x :: tr) p.

Lemma safe_runs allowed {A} (p : prog A) : forall tr p' h Q,
  wp allowed h p Q -> runs p tr p' -> Forall faithful_event tr ->
  forall pre B (c : Call B) x post, tr = pre ++ Ev c x :: post -> allowed B (facts pre ++ h) c.
Proof.
  intros tr p' h Q Hp Hr. revert h Hp. induction Hr as [p|B c k x tr p Hr IH]; intros h Hp Hf pre B' c' x' post E; [by destruct pre|].
  destruct Hp as [Hc Hk]. apply Forall_cons in Hf as [Hx Hf]. destruct pre as [|e pre].
  - assert (Ev c x = Ev c' x') as E' by exact (f_equal (fun l => match l with e :: _ => e | [] => Ev c x end) E).
    change (match Ev c' x' with @Ev B0 c0 _ => allowed B0 h c0 end). by rewrite <- E'.
  - assert (e = Ev c x) as -> by exact (eq_sym (f_equal (fun l => match l with e :: _ => e | [] => e end) E)).
    assert (tr = pre ++ Ev c' x' :: post) as Etr by exact (f_equal (@List.tl event) E).
    rewrite (facts_cons _ pre B x c eq_refl), <- (assoc_L List.app). by eapply (IH (learn c x ++ h) (Hk x Hx) Hf).
Qed.

(** ** Futures that make no call of a port *)

Definition is_port {B} (c : HttpCall B) : bool := match c with Port _ => true | _ => false end.

Definition quiet {A} (t : future HttpCall A) : Prop := forall tr u, progresses t tr u -> ports tr = [].

Lemma quiet_return {A} (a : A) : quiet (Return a).
Proof. intros tr u [[-> _]|[]]%progresses_inv. done. Qed.

Lemma quiet_await {A B} (c : HttpCall B) (k : B -> future HttpCall A) :
  is_port c = false -> (forall x, quiet (k x)) -> quiet (Await c k).
Proof.
  intros Hc Hk tr u [[-> _]|(x & tr' & -> & H)]%progresses_inv; [done|]. unfold ports. cbn [omap list_omap].
  destruct c; try discriminate Hc; exact (Hk _ _ _ H).
Qed.

Lemma ports_app tr1 tr2 : ports (tr1 ++ tr2) = ports tr1 ++ ports tr2.
Proof. apply omap_app. Qed.

Lemma quiet_then {A B} (t : future HttpCall A) (k : A -> future HttpCall B) :
  quiet t -> (forall a, quiet (k a)) -> quiet (then_ t k).
Proof.
  intros Ht Hk tr u [(t' & H & _)|(a & tr1 & tr2 & -> & H1 & H2)]%progresses_then; [by eapply Ht|].
  by rewrite ports_app, (Ht _ _ H1), (Hk _ _ _ H2).
Qed.

(** ** Futures that serve one operation *)

Section Boundary.
Context {SJ : SerdeJson} {RF : RustFmt} {CC : CronCrates} {RC : Rfc3339} {BI : Build} {HV : HeaderValues}
  {AX : Axum} {AL : AxumLaws}.

(** Its calls of the ports are those of one service, called in [context]. *)
Definition serves_one (context : RequestContext) (calls : list event) : Prop :=
  calls = [] \/ exists X (p p' : prog X), operation context p /\ runs p calls p'.

Definition one_service (context : RequestContext) {A} (t : future HttpCall A) : Prop :=
  forall tr u, progresses t tr u -> serves_one context (ports tr).

Lemma quiet_one context {A} (t : future HttpCall A) : quiet t -> one_service context t.
Proof. intros Ht tr u H. left. by eapply Ht. Qed.

Lemma service_runs {A} (p : prog A) : forall tr u, progresses (service p) tr u -> exists p', runs p (ports tr) p'.
Proof.
  induction p as [r|B c k IH]; intros tr u H; cbn [service] in H.
  - apply progresses_inv in H as [[-> _]|[]]. eexists. constructor.
  - apply progresses_inv in H as [[-> _]|(x & tr' & -> & H)]; [eexists; constructor|].
    destruct (IH _ _ _ H) as [p' Hp]. exists p'. by constructor.
Qed.

Lemma one_operation context {A} (p : prog A) : operation context p -> one_service context (service p).
Proof. intros Hp tr u [p' H]%service_runs. right. by exists A, p, p'. Qed.

Lemma one_then context {A B} (t : future HttpCall A) (k : A -> future HttpCall B) :
  one_service context t -> (forall a, quiet (k a)) -> one_service context (then_ t k).
Proof.
  intros Ht Hk tr u [(t' & H & _)|(a & tr1 & tr2 & -> & H1 & H2)]%progresses_then; [by eapply Ht|].
  rewrite ports_app, (Hk _ _ _ H2), app_nil_r. by eapply Ht.
Qed.

Lemma one_web context {A B} (m : web A) (k : A -> web B) :
  one_service context m -> (forall a, quiet (k a)) -> one_service context (web_bind m k).
Proof. intros Hm Hk. apply one_then; [done|]. intros [a|e]; [apply Hk|apply quiet_return]. Qed.

Lemma one_pure context {A B} (r : result A ApiError) (k : A -> web B) :
  (forall a, one_service context (k a)) -> one_service context (web_bind (pure r) k).
Proof. destruct r as [a|e]; intros Hk; [exact (Hk a)|]. apply quiet_one, quiet_return. Qed.

Lemma quiet_web {A B} (m : web A) (k : A -> web B) : quiet m -> (forall a, quiet (k a)) -> quiet (web_bind m k).
Proof. intros Hm Hk. apply quiet_then; [done|]. intros [a|e]; [apply Hk|apply quiet_return]. Qed.

End Boundary.

(** A part of a handler that calls no port. *)
Ltac quietly :=
  repeat first
    [ apply quiet_return
    | apply quiet_web; [|intros ?]
    | apply quiet_then; [|intros ?]
    | apply quiet_await; [reflexivity|intros ?]
    | progress (unfold pure, await, monitor_resource)
    | match goal with |- quiet (match ?x with _ => _ end) => destruct x end
    | progress cbv zeta beta ].

Ltac head_of t := lazymatch t with ?f _ => head_of f | _ => t end.

(** A handler: one service, then its answer. *)
Ltac one_call := apply one_web; [apply one_operation|intros ?; quietly].

Section Guarded.
Context {SJ : SerdeJson} {RF : RustFmt} {CC : CronCrates} {RC : Rfc3339} {BI : Build} {HV : HeaderValues}
  {AX : Axum} {AL : AxumLaws}.

(** Without a context an endpoint calls no port; with one it serves one operation in it. *)
Definition guarded_endpoint (endpoint : Endpoint) : Prop :=
  forall request captures, quiet (endpoint request None captures)
    /\ forall context, one_service context (endpoint request (Some context) captures).

Lemma one_respond context {A} (f : A -> Response) (h : web A) : one_service context h -> one_service context (respond f h).
Proof. intros Hh. apply one_then; [done|]. intros r. apply quiet_return. Qed.

Lemma one_extracted context {A} (r : result A ApiError) k :
  (forall a, r = Ok a -> one_service context (k a)) -> one_service context (extracted r k).
Proof. destruct r; intros Hk; [by apply Hk|apply quiet_one, quiet_return]. Qed.

Lemma api_query_typed {A} (kind : QueryType A) request a : ApiQuery kind request = Ok a -> query_typed kind a.
Proof. unfold ApiQuery. destruct (query_string _ _) eqn:E; [|done]. intros [= <-]. by eapply query_string_typed. Qed.

Lemma api_json_typed {A} (kind : BodyType A) request a : ApiJson kind request = Ok a -> body_typed kind a.
Proof. unfold ApiJson. destruct (json_body _ _) eqn:E; [|done]. intros [= <-]. by eapply json_body_typed. Qed.

Lemma api_name_typed captures a : ApiPathString captures = Ok a -> str a.
Proof. unfold ApiPathString. destruct (path_string _) eqn:E; [|done]. intros [= <-]. by eapply path_string_typed. Qed.

Lemma guarded_public h : quiet h -> guarded_endpoint (public h).
Proof. intros Hh request captures. split; [done|]. intros context. by apply quiet_one. Qed.

Lemma guarded_context {A} (f : A -> Response) h :
  (forall context, one_service context (h context)) -> guarded_endpoint (on_context f h).
Proof. intros Hh request captures. split; [apply quiet_return|]. intros context. by apply one_respond. Qed.

Lemma guarded_query {Q A} (kind : QueryType Q) (f : A -> Response) h :
  (forall context q, query_typed kind q -> one_service context (h context q)) -> guarded_endpoint (on_query kind f h).
Proof.
  intros Hh request captures. split; [apply quiet_return|]. intros context. apply one_extracted. intros q Hq%api_query_typed.
  by apply one_respond, Hh.
Qed.

Lemma guarded_body {R A} (kind : BodyType R) (f : A -> Response) h :
  (forall context r, body_typed kind r -> one_service context (h context r)) -> guarded_endpoint (on_body kind f h).
Proof.
  intros Hh request captures. split; [apply quiet_return|]. intros context. apply one_extracted. intros q Hq%api_json_typed.
  by apply one_respond, Hh.
Qed.

Lemma guarded_id {A} (f : A -> Response) h :
  (forall context id, one_service context (h context id)) -> guarded_endpoint (on_id f h).
Proof.
  intros Hh request captures. split; [apply quiet_return|]. intros context. apply one_extracted. intros id _.
  by apply one_respond, Hh.
Qed.

Lemma guarded_name {A} (f : A -> Response) h :
  (forall context name, str name -> one_service context (h context name)) -> guarded_endpoint (on_name f h).
Proof.
  intros Hh request captures. split; [apply quiet_return|]. intros context. apply one_extracted. intros id Hid%api_name_typed.
  by apply one_respond, Hh.
Qed.

Lemma guarded_id_query {Q A} (kind : QueryType Q) (f : A -> Response) h :
  (forall context id q, query_typed kind q -> one_service context (h context id q)) -> guarded_endpoint (on_id_query kind f h).
Proof.
  intros Hh request captures. split; [apply quiet_return|]. intros context. apply one_extracted. intros id _.
  apply one_extracted. intros q Hq%api_query_typed. by apply one_respond, Hh.
Qed.

Lemma guarded_id_body {R A} (kind : BodyType R) (f : A -> Response) h :
  (forall context id r, body_typed kind r -> one_service context (h context id r)) -> guarded_endpoint (on_id_body kind f h).
Proof.
  intros Hh request captures. split; [apply quiet_return|]. intros context. apply one_extracted. intros id _.
  apply one_extracted. intros r Hr%api_json_typed. by apply one_respond, Hh.
Qed.

Lemma definition_input_strs r :
  workflow_typed (api.cwr_name r) (api.cwr_description r) (api.cwr_nodes r) (api.cwr_edges r) -> workflow_strs (definition_input r).
Proof.
  intros (Hn & Hd & Hnodes & Hedges). split_and!; [done|done| |].
  - intros n (node & -> & Hin)%list_elem_of_fmap. by apply Hnodes.
  - intros e (edge & -> & Hin)%list_elem_of_fmap. by apply Hedges.
Qed.

(** Every registered endpoint serves one operation of the application. *)
Lemma routes_guarded : Forall (fun route => Forall (fun entry => guarded_endpoint entry.2) route.2) api_router.
Proof.
  unfold api_router.
  repeat (apply Forall_cons; split; [|]); try apply Forall_nil_2; cbn [fst snd].
  all: repeat (apply Forall_cons; split; [|]); try apply Forall_nil_2; cbn [fst snd].
  all: first [ apply guarded_public; unfold live, Handlers.ready, health, metrics, refresh_metrics; solve [quietly]
             | apply guarded_context; intros context
             | apply guarded_query; intros context q Hq
             | apply guarded_body; intros context r Hr
             | apply guarded_id; intros context id
             | apply guarded_name; intros context name Hname
             | apply guarded_id_query; intros context id q Hq
             | apply guarded_id_body; intros context id r Hr ].
  all: match goal with |- one_service _ ?t => let h := head_of t in unfold h end.
  all: cbv zeta.
  all: try solve [one_call; constructor; first [done | apply Hq | apply Hr | by apply definition_input_strs]].
  apply one_pure. intros timing. one_call. constructor; apply Hr.
Qed.

Lemma endpoints_registered path endpoints : endpoints_of path api_router = Some endpoints ->
  Forall (fun entry => guarded_endpoint entry.2) endpoints.
Proof.
  assert (forall routes, Forall (fun route => Forall (fun entry => guarded_endpoint entry.2) route.2) routes ->
    endpoints_of path routes = Some endpoints -> Forall (fun entry => guarded_endpoint entry.2) endpoints) as H.
  { induction routes as [|[p e] routes IH]; [done|]. intros [He Hr]%Forall_cons. cbn [endpoints_of].
    destruct (_ =? _)%string; [by intros [= <-]|by apply IH]. }
  apply H, routes_guarded.
Qed.

Lemma method_guarded method endpoints endpoint : Forall (fun entry => guarded_endpoint entry.2) endpoints ->
  method_endpoint method endpoints = Some endpoint -> guarded_endpoint endpoint.
Proof.
  induction endpoints as [|[m e] endpoints IH]; [done|]. intros [He Hr]%Forall_cons. cbn [method_endpoint].
  destruct (_ || _); [by intros [= <-]|by apply IH].
Qed.

Lemma dispatch_guarded request : quiet (dispatch request None)
  /\ forall context, one_service context (dispatch request (Some context)).
Proof.
  unfold dispatch. destruct (matched_path _ _) as [[path captures]|]; [|split; intros; [|apply quiet_one]; apply quiet_return].
  destruct (endpoints_of path api_router) as [endpoints|] eqn:He; [|split; intros; [|apply quiet_one]; apply quiet_return].
  destruct (method_endpoint _ endpoints) as [endpoint|] eqn:Hm; [|split; intros; [|apply quiet_one]; apply quiet_return].
  apply (method_guarded _ _ _ (endpoints_registered _ _ He)) in Hm. apply (Hm request captures).
Qed.

(** The first events of a request that reached the application. *)
Definition verified (request : Request) (context : RequestContext) (tr : list (answered HttpCall)) : Prop :=
  exists token rest, bypasses request = false /\ credentials (rq_headers request) = Ok token
    /\ tr = Awaited NewRequestId (rc_request_id context) :: Awaited (Authenticate token) (Ok (rc_caller context)) :: rest.

Lemma app_guarded request tr u : progresses (Api.app request) tr u ->
  ports tr = [] \/ exists context, verified request context tr /\ serves_one context (ports tr).
Proof.
  unfold Api.app. intros [[-> _]|(id & tr1 & -> & H)]%progresses_inv; [by left|].
  assert (exists v, progresses (establish request (Some id)) tr1 v) as [v Hv].
  { apply progresses_then in H as [(t' & Ht & _)|(a & x & y & -> & Hx & [[-> _]|[]]%progresses_inv)]; [by eexists|].
    rewrite app_nil_r. by eexists. }
  clear H. change (ports (Awaited NewRequestId id :: tr1)) with (ports tr1). unfold establish in Hv.
  destruct (bypasses request) eqn:Hb; [left; by eapply (proj1 (dispatch_guarded request))|].
  destruct (credentials (rq_headers request)) as [token|e] eqn:Hc; cbn [then_] in Hv.
  - apply progresses_inv in Hv as [[-> _]|(answer & tr2 & -> & Hv)]; [by left|].
    change (ports (Awaited (Authenticate token) answer :: tr2)) with (ports tr2).
    destruct answer as [caller|e]; [|left; by eapply quiet_return].
    right. exists (mkRequestContext id caller). split; [by exists token, tr2|]. by eapply (proj2 (dispatch_guarded request)).
  - left. by eapply quiet_return.
Qed.

(** C4: A request reaches the application only for a verified caller.  On every execution of the
    HTTP boundary, whatever the request and the answers, the application's ports are called only
    after the one Authorization header was parsed and the verifier vouched for it; the calls are
    those of one service, in a context made of exactly that caller and of the identifier this
    server issued; and each of them is permitted to that caller by the policy's answers and
    carries data the tables accept. *)
Theorem requests_guarded request tr u :
  progresses (Api.app request) tr u ->
  ports tr = []
  \/ exists context X (p p' : prog X), verified request context tr /\ operation context p /\ runs p (ports tr) p'
     /\ (Forall faithful_event (ports tr) -> forall pre B (c : Call B) x post, ports tr = pre ++ Ev c x :: post ->
          permitted context B (facts pre) c /\ acceptable B (facts pre) c).
Proof.
  intros [H|(context & Hv & [H|(X & p & p' & Hp & Hr)])]%app_guarded; [by left|by left|]. right.
  exists context, X, p, p'. split_and!; [done|done|done|]. intros Hf pre B c x post E. rewrite <- (app_nil_r (facts pre)). split.
  - eapply (safe_runs (permitted context)); [exact (operation_authority context p Hp)|exact Hr|done|exact E].
  - eapply (safe_runs acceptable); [exact (operation_accepted context p Hp)|exact Hr|done|exact E].
Qed.

End Guarded.
