(* ===== verification/ApiResponses.v ===== *)
(** * The responses of the HTTP boundary

    Every failure is one error envelope with a stable code, a bounded message
    and no internal detail; every response carries the server's identifier of
    its request. *)

From S2P Require Import Prelude RustStr Json Inputs Names Float Domain Auth Recurrence Workflow Db Snapshot Store WorkflowStore Catalog Queries Validation Application ApplicationSystem Authority Accepted Futures ApiTypes Authentication Web Resources Handlers Api ApiTheorems.
From Stdlib Require Import Ascii String.
From stdpp Require Import base numbers strings sorting gmap list.

Local Open Scope Z_scope.

(** ** What a future answers *)

Definition answers {A} (P : A -> Prop) (t : future HttpCall A) : Prop :=
  forall tr a, progresses t tr (Return a) -> P a.

Lemma answers_return {A} (P : A -> Prop) a : P a -> answers P (Return a).
Proof. intros Ha tr b [[_ [= ->]]|[]]%progresses_inv. done. Qed.

Lemma answers_await {A B} (P : A -> Prop) (c : HttpCall B) k : (forall x, answers P (k x)) -> answers P (Await c k).
Proof. intros Hk tr a [[_ E]|(x & tr' & _ & H)]%progresses_inv; [done|by eapply Hk]. Qed.

Lemma answers_then {A B} (Q : A -> Prop) (P : B -> Prop) (t : future HttpCall A) k :
  answers Q t -> (forall a, Q a -> answers P (k a)) -> answers P (then_ t k).
Proof.
  intros Ht Hk tr b [(t' & H & E)|(a & tr1 & tr2 & _ & H1 & H2)]%progresses_then.
  - destruct t' as [a|X c f]; [|done]. simpl in E. apply (Hk a (Ht _ _ H) []). rewrite <- E. constructor.
  - by eapply Hk; [eapply Ht|].
Qed.

Lemma answers_mono {A} (P Q : A -> Prop) t : (forall a, P a -> Q a) -> answers P t -> answers Q t.
Proof. intros H Ht tr a Ha. by eapply H, Ht. Qed.

(** ** Failures *)

(** The codes of the transport's own rejections, and all the codes of the API. *)
Definition transport_codes : list (Z * string) :=
  [(400, "invalid_request"); (404, "not_found"); (405, "method_not_allowed"); (413, "payload_too_large");
   (415, "unsupported_media_type")]%string.

Definition error_codes : list (Z * string) :=
  transport_codes ++ [(401, "unauthenticated"); (403, "forbidden"); (409, "already_exists"); (409, "resource_in_use");
   (409, "idempotency_conflict"); (500, "internal_error"); (503, "dependency_unavailable")]%string.

Definition safe_messages : list string := ["internal server error"; "a required service is unavailable"]%string.

(** A rejection has a transport code and a bounded message. *)
Definition error_ok (e : ApiError) : Prop :=
  match e with ApiRejected status code message => (status, code) ∈ transport_codes /\ slen message <= 1024 | _ => True end.

Definition fails_ok {A} (r : result A ApiError) : Prop := match r with Err e => error_ok e | Ok _ => True end.

Lemma next_char_width s c rest : next_char s = Some (c, rest) -> (String.length s <= String.length rest + 4)%nat.
Proof.
  unfold next_char. intros H. repeat (case_match; try done; simplify_eq); simpl; lia.
Qed.

Lemma take_chars_length n : forall s, (String.length (take_chars n s) <= 4 * n)%nat.
Proof.
  induction n as [|n IH]; intros s; [simpl; lia|]. cbn [take_chars]. destruct (next_char s) as [[c rest]|] eqn:E; [|simpl; lia].
  rewrite string_length_app. pose proof (next_char_width _ _ _ E). specialize (IH rest). unfold before.
  rewrite substring_length by lia. lia.
Qed.

Lemma api_rejected_ok status code message : (status, code) ∈ transport_codes -> error_ok (api_rejected status code message).
Proof. intros H. split; [done|]. unfold slen. pose proof (take_chars_length REJECTION_MESSAGE_MAX_CHARS message). unfold REJECTION_MESSAGE_MAX_CHARS in *. lia. Qed.

Lemma rejection_ok r : error_ok (from_rejection r).
Proof.
  unfold from_rejection, rejected. destruct (Z.eqb_spec (rj_status r) 413) as [->|]; [apply api_rejected_ok; set_solver|].
  destruct (Z.eqb_spec (rj_status r) 415) as [->|]; [apply api_rejected_ok; set_solver|].
  destruct (is_server_error _); [done|]. apply api_rejected_ok. set_solver.
Qed.

(** A failure's response. *)
Definition enveloped (response : Response) : Prop := exists code message field,
  rs_body response = JError (api.mkErrorEnvelope (api.mkErrorBody code message field))
  /\ (rs_status response, code) ∈ error_codes
  /\ get_all (rs_headers response) "www-authenticate" = (if rs_status response =? 401 then [WWW_AUTHENTICATE] else [])
  /\ (500 <= rs_status response -> message ∈ safe_messages).

Lemma envelope_ok status code message field :
  (status, code) ∈ error_codes -> (500 <= status -> message ∈ safe_messages) -> enveloped (envelope status code message field).
Proof.
  intros Hc Hm. exists code, message, field. unfold envelope. destruct (Z.eqb_spec status 401) as [->|Hn]; cbn; [done|].
  split_and!; [done|done| |done]. by destruct (Z.eqb_spec status 401).
Qed.

Lemma into_response_ok e : error_ok e -> enveloped (into_response e).
Proof.
  destruct e as [[|]|[| | | | |[| | |]| |]|status code message]; cbn [into_response error_ok].
  all: try (intros _; apply envelope_ok; [set_solver|intros; (lia || set_solver)]).
  intros [Hc _]. apply envelope_ok; [set_solver|]. intros Hs. exfalso. unfold transport_codes in Hc.
  repeat (apply elem_of_cons in Hc as [[= -> ->]|Hc]; [lia|]). set_solver.
Qed.

(** ** The conversions fail only with an internal error *)

Lemma fails_bind {A B} (r : result A ApiError) (k : A -> result B ApiError) :
  fails_ok r -> (forall a, fails_ok (k a)) -> fails_ok (result_bind r k).
Proof. destruct r; simpl; auto. Qed.

Lemma fails_ok_or {A} (o : option A) : fails_ok (ok_or o (ApiApplication AppInternal)).
Proof. by destruct o. Qed.

Lemma fails_collect {A B} (f : A -> result B ApiError) l : (forall a, fails_ok (f a)) -> fails_ok (collect f l).
Proof. intros Hf. induction l as [|a l IH]; [done|]. simpl. apply fails_bind; [done|]. intros b. by apply fails_bind. Qed.

Lemma fails_transpose {A B} (f : A -> result B ApiError) o : (forall a, fails_ok (f a)) -> fails_ok (transpose f o).
Proof. intros Hf. destruct o; [|done]. by apply fails_bind. Qed.

Lemma fails_nonnegative z : fails_ok (nonnegative z).
Proof. unfold nonnegative, try_from. by destruct (in_u64 z). Qed.

Lemma fails_attempt_status v : fails_ok (attempt_status v).
Proof. unfold attempt_status. by repeat case_match. Qed.

Create HintDb api_failures.
#[export] Hint Resolve fails_bind fails_ok_or fails_collect fails_transpose fails_nonnegative fails_attempt_status : api_failures.
#[export] Hint Extern 1 (fails_ok (Ok _)) => exact I : api_failures.
#[export] Hint Extern 1 (fails_ok (Err (ApiApplication _))) => exact I : api_failures.

(** The shape of every conversion: steps that fail with an internal error, then a value. *)
Ltac failing :=
  cbv zeta;
  repeat first
    [ exact I
    | apply fails_ok_or
    | apply fails_nonnegative
    | apply fails_attempt_status
    | apply fails_bind; [|intros ?]
    | apply fails_collect; intros ?
    | apply fails_transpose; intros ?
    | match goal with |- fails_ok (match ?x with _ => _ end) => destruct x end
    | match goal with |- fails_ok ?t => let h := head_of t in progress unfold h end
    | progress cbv zeta beta ].

Section Responses.
Context {SJ : SerdeJson} {RF : RustFmt} {CC : CronCrates} {RC : Rfc3339} {BI : Build} {HV : HeaderValues} {AX : Axum}.

(** A handler's answer, or an error the API reports. *)
Definition handled {A} (P : A -> Prop) (h : web A) : Prop :=
  answers (fun r => match r with Ok a => P a | Err e => error_ok e end) h.

Lemma handled_pure {A} (P : A -> Prop) (r : result A ApiError) :
  fails_ok r -> (forall a, r = Ok a -> P a) -> handled P (pure r).
Proof. intros Hf Hp. apply answers_return. destruct r; [by apply Hp|done]. Qed.

Lemma handled_bind {A B} (Q : A -> Prop) (P : B -> Prop) (m : web A) k :
  handled Q m -> (forall a, Q a -> handled P (k a)) -> handled P (web_bind m k).
Proof. intros Hm Hk. eapply answers_then; [exact Hm|]. intros [a|e] H; [by apply Hk|by apply answers_return]. Qed.

Lemma handled_service {A} (p : prog A) : handled (fun _ => True) (service p).
Proof.
  induction p as [[a|e]|B c k IH]; cbn [service]; [by apply answers_return|by apply answers_return|].
  apply answers_await. intros x. apply IH.
Qed.

Lemma handled_await {B} (c : HttpCall B) : handled (fun _ => True) (await c).
Proof. apply answers_await. intros x. by apply answers_return. Qed.

Lemma conversions_fail :
  (forall x, fails_ok (namespace_resource x)) /\ (forall x, fails_ok (queue_resource x)) /\ (forall x, fails_ok (job_resource x))
  /\ (forall x, fails_ok (target_resource x)) /\ (forall x, fails_ok (target_set_resource x))
  /\ (forall x, fails_ok (schedule_resource x)) /\ (forall x, fails_ok (run_resource x))
  /\ (forall x, fails_ok (run_event_resource x)) /\ (forall x, fails_ok (run_attempt_resource x))
  /\ (forall x now, fails_ok (worker_resource x now)) /\ (forall x, fails_ok (workflow_resource x)).
Proof. split_and!; intros; failing. Qed.

(** The boundary's answer to an authenticated request. *)
Definition succeeded (response : Response) : Prop :=
  rs_status response ∈ [200; 201; 204] /\ get_all (rs_headers response) "www-authenticate" = [].

Definition good (response : Response) : Prop := succeeded response \/ enveloped response.

Definition answered_endpoint (endpoint : Endpoint) : Prop :=
  forall request context captures, answers good (endpoint request (Some context) captures).

Lemma good_respond {A} (P : A -> Prop) (f : A -> Response) (h : web A) :
  handled P h -> (forall a, P a -> succeeded (f a)) -> answers good (respond f h).
Proof.
  intros Hh Hf. eapply answers_then; [exact Hh|]. intros [a|e] H; apply answers_return; [left; by apply Hf|right; by apply into_response_ok].
Qed.

Lemma good_extracted {A B} (r : result A B) (g : B -> ApiError) k :
  (forall e, error_ok (g e)) -> (forall a, answers good (k a)) -> answers good (extracted (map_err g r) k).
Proof. intros Hg Hk. destruct r; [apply Hk|]. apply answers_return. right. apply into_response_ok, Hg. Qed.

Lemma ok_succeeded {A} (f : A -> Body) a : succeeded (ok f a).
Proof. split; [set_solver|done]. Qed.

Lemma with_status_succeeded {A} (f : A -> Body) (a : Z * A) : a.1 ∈ [200; 201] -> succeeded (with_status f a).
Proof. intros H. split; [simpl; set_solver|done]. Qed.

Lemma status_succeeded status : status = 204 -> succeeded (status_response status).
Proof. intros ->. split; [set_solver|done]. Qed.

End Responses.

(** A handler: services and clocks answer anything, conversions fail internally. *)
Ltac handling :=
  repeat first
    [ eapply handled_bind; [apply handled_service|intros ? _]
    | eapply handled_bind; [apply handled_await|intros ? _]
    | eapply (handled_bind (fun _ => True)); [apply handled_pure; [failing|intros; exact I]|intros ? _]
    | apply handled_pure; [failing|intros ? [= <-]; (exact I || done || (simpl; repeat case_match; set_solver))]
    | apply handled_pure; [failing|intros; exact I]
    | match goal with |- handled _ (match ?x with _ => _ end) => destruct x end
    | match goal with |- handled _ (if ?x then _ else _) => destruct x end
    | match goal with |- handled _ ?t => let h := head_of t in progress unfold h end
    | progress cbv zeta beta ].

Section Failures.
Context {SJ : SerdeJson} {RF : RustFmt} {CC : CronCrates} {RC : Rfc3339} {BI : Build} {HV : HeaderValues} {AX : Axum}.

Ltac endpoint :=
  intros request context captures;
  lazymatch goal with |- answers _ (?e _ _ _) => let h := head_of e in unfold h end;
  repeat (apply good_extracted; [exact rejection_ok|intros ?]);
  first [ eapply (good_respond (fun _ => True)); [|intros; apply ok_succeeded]
        | eapply (good_respond (fun a => a.1 ∈ [200; 201])); [|intros; by apply with_status_succeeded]
        | eapply (good_respond (fun a => a = 204)); [|intros; by apply status_succeeded] ].

(** The routes behind authentication. *)
Lemma routes_answered : Forall (fun route => (route.1 ∈ public_paths) \/ Forall (fun entry => answered_endpoint entry.2) route.2) api_router.
Proof.
  unfold api_router, public_paths.
  repeat (apply Forall_cons; split; [|]); try apply Forall_nil_2; cbn [fst snd].
  1-4: left; set_solver.
  all: right; repeat (apply Forall_cons; split; [|]); try apply Forall_nil_2; cbn [fst snd]; endpoint.
  all: handling.
Qed.

Lemma find_endpoints path endpoints routes : endpoints_of path routes = Some endpoints -> (path, endpoints) ∈ routes.
Proof.
  induction routes as [|[p e] routes IH]; [done|]. cbn [endpoints_of]. destruct (String.eqb_spec p path) as [->|].
  - intros [= ->]. left.
  - intros H. right. by apply IH.
Qed.

Lemma find_endpoint method endpoint endpoints : method_endpoint method endpoints = Some endpoint -> exists m, (m, endpoint) ∈ endpoints
  /\ (m = method \/ m = GET /\ method = HEAD).
Proof.
  induction endpoints as [|[m e] endpoints IH]; [done|]. cbn [method_endpoint].
  destruct (_ || _) eqn:E; [|intros H; destruct (IH H) as (x & Hx & Hm); exists x; split; [by right|done]].
  intros [= ->]. exists m. split; [left|]. apply orb_true_iff in E as [E|[E1 E2]%andb_true_iff]; [left|right; split];
    by eapply bool_decide_eq_true.
Qed.

(** The public paths answer GET only, and have no parameters. *)
Lemma public_routes path endpoints : path ∈ public_paths -> (path, endpoints) ∈ api_router ->
  contains "{" path = false /\ exists endpoint, endpoints = [(GET, public endpoint)]
    /\ answers (fun response => rs_status response ∈ [200; 500; 503]) endpoint.
Proof.
  intros Hp Hr. unfold public_paths in Hp. unfold api_router in Hr.
  repeat (apply elem_of_cons in Hp as [->|Hp]); [..|by apply not_elem_of_nil in Hp].
  all: repeat (apply elem_of_cons in Hr as [[=]|Hr]); try (by apply not_elem_of_nil in Hr); subst endpoints.
  all: split; [reflexivity|]; eexists; split; [reflexivity|].
  all: unfold live, Handlers.ready, health, metrics, refresh_metrics.
  all: repeat first [apply answers_await; intros ? | apply answers_return; simpl; repeat case_match; set_solver
    | eapply (answers_then (fun _ => True)); [|intros ? _]
    | match goal with |- answers _ (match ?x with _ => _ end) => destruct x end
    | by apply answers_return].
Qed.

Context {AL : AxumLaws}.

Lemma not_found_good : good (into_response route_not_found).
Proof. right. apply into_response_ok, api_rejected_ok. set_solver. Qed.

Lemma not_allowed_good methods : good (with_allow methods (into_response method_not_allowed)).
Proof.
  right. assert (enveloped (into_response method_not_allowed)) as (code & message & field & Hb & Hc & Hw & Hm)
    by (apply into_response_ok, api_rejected_ok; set_solver).
  exists code, message, field. by split_and!.
Qed.

Lemma dispatch_good request context : bypasses request = false -> answers good (dispatch request (Some context)).
Proof.
  intros Hb. unfold dispatch. destruct (matched_path _ _) as [[path captures]|] eqn:Hm; [|apply answers_return, not_found_good].
  destruct (endpoints_of path api_router) as [endpoints|] eqn:He; [|apply answers_return, not_found_good].
  destruct (method_endpoint _ endpoints) as [endpoint|] eqn:Hme; [|apply answers_return, not_allowed_good].
  apply find_endpoints in He. apply find_endpoint in Hme as (m & Hin & Hmethod).
  pose proof routes_answered as Hall. rewrite Forall_forall in Hall. destruct (Hall _ He) as [Hp|Hends].
  - exfalso. cbn [fst] in Hp. destruct (public_routes _ _ Hp He) as (Hs & e & -> & _).
    pose proof (matched_exact _ _ _ _ Hm Hs) as ->. apply list_elem_of_singleton in Hin as [= -> ->].
    unfold bypasses in Hb. rewrite bool_decide_eq_true_2 in Hb by done. destruct Hmethod as [E|[_ E]]; [rewrite <- E in Hb|rewrite E in Hb]; done.
  - cbn [snd] in Hends. rewrite Forall_forall in Hends. by apply (Hends _ Hin).
Qed.

Lemma dispatch_public request : bypasses request = true ->
  answers (fun response => rs_status response ∈ [200; 500; 503]) (dispatch request None).
Proof.
  unfold bypasses. intros [Hm Hp%bool_decide_eq_true]%andb_true_iff. unfold dispatch.
  assert (exists endpoints, (rq_path request, endpoints) ∈ api_router /\ endpoints_of (rq_path request) api_router = Some endpoints)
    as (endpoints & Hin & He).
  { unfold public_paths in Hp. repeat (apply elem_of_cons in Hp as [->|Hp]); [..|by apply not_elem_of_nil in Hp];
      eexists; (split; [|reflexivity]); apply find_endpoints; reflexivity. }
  destruct (public_routes _ _ Hp Hin) as (Hs & e & -> & Ha).
  rewrite matched_static, He; [|by apply list_elem_of_fmap; exists (rq_path request, [(GET, public e)])|done].
  assert (method_endpoint (rq_method request) [(GET, public e)] = Some (public e)) as -> by (by destruct (rq_method request)).
  exact Ha.
Qed.

(** ** The identifier of the request *)

Lemma visible_concat s t : forallb is_visible_ascii (bytes s) = true -> forallb is_visible_ascii (bytes t) = true ->
  forallb is_visible_ascii (bytes (s ++ t)) = true.
Proof. intros Hs Ht. by rewrite bytes_concat, forallb_app, Hs, Ht. Qed.

Lemma hex_visible count : forall n acc, forallb is_visible_ascii (bytes acc) = true ->
  forallb is_visible_ascii (bytes (hex_digits count n acc)) = true.
Proof.
  induction count as [|count IH]; intros n acc Ha; [done|]. cbn [hex_digits]. apply IH, visible_concat; [|done].
  set (d := (n mod 16)%N). assert (d < 16)%N as Hd by (by apply N.mod_lt). clearbody d.
  unfold hex_digit. rewrite bytes_cons. cbn [forallb]. rewrite andb_true_r. unfold is_visible_ascii, byte_of.
  destruct (N.ltb_spec d 10); rewrite N_ascii_embedding by lia; apply andb_true_iff; split; [apply Z.leb_le|apply Z.ltb_lt|apply Z.leb_le|apply Z.ltb_lt]; lia.
Qed.

Lemma uuid_visible id : forallb is_visible_ascii (bytes (uuid_to_string id)) = true.
Proof. unfold uuid_to_string. repeat (apply visible_concat; [first [by apply hex_visible | done]|]). by apply hex_visible. Qed.

Lemma get_all_inserted name value headers : get_all (header_insert name value headers) name = [value].
Proof.
  unfold get_all, header_insert. rewrite omap_app. cbn. rewrite String.eqb_refl.
  assert (omap (fun header : string * string => if (header.1 =? name)%string then Some header.2 else None)
    (filter (fun header : string * string => header.1 <> name) headers) = []) as ->; [|done].
  induction headers as [|[n v] headers IH]; [done|]. rewrite filter_cons. case_decide as E; [|exact IH]. cbn.
  destruct (String.eqb_spec n name); [done|exact IH].
Qed.

Lemma get_all_kept name other value headers : name <> other -> get_all (header_insert name value headers) other = get_all headers other.
Proof.
  intros Hn. unfold get_all, header_insert. rewrite omap_app. cbn. destruct (String.eqb_spec name other); [done|]. rewrite app_nil_r.
  induction headers as [|[n' v] headers IH]; [done|]. rewrite filter_cons. cbn. case_decide as E; cbn.
  - destruct (n' =? other)%string; [f_equal|]; exact IH.
  - destruct (String.eqb_spec n' name) as [->|Hd]; [|by destruct E]. destruct (String.eqb_spec name other); [done|exact IH].
Qed.

Context {HL : HeaderValueLaws}.

Lemma with_request_id_spec id response :
  with_request_id id response
  = mkResponse (rs_status response) (header_insert REQUEST_ID_HEADER (uuid_to_string id) (rs_headers response)) (rs_body response).
Proof. unfold with_request_id. by rewrite (from_str_visible _ (uuid_visible id)). Qed.

Lemma establish_good request id : bypasses request = false -> answers good (establish request (Some id)).
Proof.
  intros Hb. unfold establish. rewrite Hb. eapply (answers_then (fun _ => True)).
  { destruct (credentials _); [apply answers_await; intros ?|]; by apply answers_return. }
  intros [caller|e] _; [by apply dispatch_good|]. apply answers_return. right. by apply into_response_ok.
Qed.

(** A failure as its client sees it: HEAD gets no body. *)
Definition failure_shown (method : Method) (response : Response) : Prop := exists code message field,
  rs_body response = match method with
                     | HEAD => NoBody
                     | _ => JError (api.mkErrorEnvelope (api.mkErrorBody code message field))
                     end
  /\ (rs_status response, code) ∈ error_codes
  /\ get_all (rs_headers response) "www-authenticate" = (if rs_status response =? 401 then [WWW_AUTHENTICATE] else [])
  /\ (500 <= rs_status response -> message ∈ safe_messages).

(** C16: Failures have one shape.  Every response carries the identifier this server issued for the
    request, and no other.  To a request of a protected path the boundary answers 200, 201 or 204,
    or the error envelope: a status and a code of the documented table, the Bearer challenge
    exactly with 401, and for a failure of the server one of two fixed messages, so that no
    internal detail leaks; an authentication that fails is such an answer.  The operational
    endpoints answer 200, 500 or 503. *)
Theorem failures_enveloped request tr response :
  progresses (Api.app request) tr (Return response) ->
  (exists id rest, tr = Awaited NewRequestId id :: rest
     /\ get_all (rs_headers response) REQUEST_ID_HEADER = [uuid_to_string id])
  /\ (bypasses request = true -> rs_status response ∈ [200; 500; 503])
  /\ (bypasses request = false -> succeeded response \/ failure_shown (rq_method request) response).
Proof.
  unfold Api.app. intros [[_ E]|(id & rest & -> & H)]%progresses_inv; [done|].
  set (shown := fun inner : Response => for_method (rq_method request) (with_request_id id inner)).
  assert (exists inner, response = shown inner
    /\ (bypasses request = true -> rs_status inner ∈ [200; 500; 503]) /\ (bypasses request = false -> good inner)) as (inner & -> & Hp & Hg).
  { revert rest response H. change (answers (fun response => exists inner, response = shown inner
      /\ (bypasses request = true -> rs_status inner ∈ [200; 500; 503]) /\ (bypasses request = false -> good inner))
      (then_ (establish request (Some id)) (fun inner => Return (shown inner)))).
    eapply (answers_then (fun inner => (bypasses request = true -> rs_status inner ∈ [200; 500; 503])
      /\ (bypasses request = false -> good inner))); [|intros inner Hi; apply answers_return; by exists inner].
    destruct (bypasses request) eqn:Hb.
    - unfold establish. rewrite Hb. eapply answers_mono; [|by apply dispatch_public]. by intros a Ha.
    - eapply answers_mono; [|by apply establish_good]. by intros a Ha. }
  unfold shown. rewrite with_request_id_spec.
  assert (forall r : Response, rs_status (for_method (rq_method request) r) = rs_status r
    /\ rs_headers (for_method (rq_method request) r) = rs_headers r) as Hm by (intros r; by destruct (rq_method request)).
  destruct (Hm (mkResponse (rs_status inner) (header_insert REQUEST_ID_HEADER (uuid_to_string id) (rs_headers inner)) (rs_body inner)))
    as [Hs Hh]. cbn [rs_status rs_headers] in Hs, Hh. split_and!.
  - exists id, rest. split; [done|]. rewrite Hh. apply get_all_inserted.
  - rewrite Hs. exact Hp.
  - intros Hb. unfold succeeded, failure_shown. rewrite Hs, Hh, get_all_kept by done.
    destruct (Hg Hb) as [?|(code & message & field & Hbody & Hrest)]; [by left|right].
    exists code, message, field. split; [|done]. destruct (rq_method request); simpl; done.
Qed.

End Failures.
