(* ===== verification/ApiExample.v ===== *)
(** * Requests at concrete parameters

    A small router, decoder and clock, and two requests: the creation of a
    Namespace by a verified operator, and a request without credentials. *)

From S2P Require Import Prelude RustStr Json Inputs Names Float Domain Auth Recurrence Workflow Db Snapshot Store WorkflowStore Catalog Queries Scenario PlannerTheorems Validation Application ApplicationSystem Authority Accepted Service Futures ApiTypes Authentication Web Resources Handlers Api ApiTheorems ApiResponses.
From Stdlib Require Import Ascii String.
From stdpp Require Import base numbers strings sorting gmap list.

Local Open Scope Z_scope.

(** A router that knows the paths without parameters, and a decoder of one body. *)
#[export] Instance axum_example : Axum := {|
  matched_path := fun registered path => if bool_decide (path ∈ registered) then Some (path, []) else None;
  allow_header := fun _ => "GET"%string;
  missing_extension := "Missing request extension"%string;
  path_uuid := fun _ => Err (mkRejection 400 "Invalid URL");
  path_string := fun _ => Err (mkRejection 400 "Invalid URL");
  query_string := fun A _ _ => Err (mkRejection 400 "Failed to deserialize query string");
  json_body := fun A kind _ =>
    match kind in BodyType A return result A Rejection with
    | BCreateNamespace => Ok (api.mkCreateNamespaceRequest " ops ")
    | _ => Err (mkRejection 415 "Expected request with `Content-Type: application/json`")
    end |}.

#[export] Instance axum_laws_example : AxumLaws.
Proof.
  split; unfold matched_path, path_string, query_string, json_body, axum_example.
  - intros registered path found captures. case_bool_decide; [|done]. by intros [= <- <-].
  - intros registered path Hp _. by rewrite bool_decide_eq_true_2.
  - intros registered path found captures. case_bool_decide; [|done]. by intros [= <- <-].
  - done.
  - done.
  - intros A [] request value; try discriminate. intros [= <-]. reflexivity.
Qed.

#[export] Instance rfc3339_example : Rfc3339 := {|
  format_rfc3339 := fun _ => Some "2026-01-01T00:00:00Z"%string;
  parse_rfc3339 := fun _ => None;
  from_unix_timestamp := fun seconds => Some (seconds * second) |}.

#[export] Instance build_example : Build := {|
  GIT_COMMIT_HASH := None; CARGO_PKG_NAME := "crono"; CARGO_PKG_VERSION := "0.1.0" |}%string.

(** ** A verified operator creates a Namespace *)

Definition create_request : Request :=
  mkRequest POST "/api/namespaces" "" example_headers "{}".

Definition example_token : RequestCredentials := Bearer (MkBearerToken example_secret).

Definition create_trace : list (answered HttpCall) :=
  [Awaited NewRequestId 1%N; Awaited (Authenticate example_token) (Ok (rc_caller operator_context));
   Awaited (Port (Authorize operator_context NamespaceCreate RSControlPlane)) (Ok ());
   Awaited (Port (CallStore (CreateNamespace ops))) ops_answer].

Lemma create_dispatched : dispatch create_request (Some operator_context)
  = respond (with_status JNamespace) (Handlers.create_namespace operator_context (api.mkCreateNamespaceRequest " ops ")).
Proof. reflexivity. Qed.

Lemma create_credentials : credentials (rq_headers create_request) = Ok example_token.
Proof. vm_compute. reflexivity. Qed.

Lemma create_progresses : exists u, progresses (Api.app create_request) create_trace u.
Proof.
  eexists. unfold Api.app. apply progresses_await. unfold establish.
  change (bypasses create_request) with false. rewrite create_credentials. cbn [then_]. apply progresses_await. cbn [then_].
  change (mkRequestContext 1 (rc_caller operator_context)) with operator_context. rewrite create_dispatched.
  unfold respond, Handlers.create_namespace, web_bind, Application.create_namespace, require, lift. cbn [bind service then_].
  apply progresses_await. cbn [map_err bind service then_ api.cnr_name]. rewrite ops_parsed. cbn [bind service then_].
  apply progresses_await, progresses_none.
Qed.

Lemma requests_guarded_witness : exists context, verified create_request context create_trace
  /\ permitted context _ (facts (take 1 ops_trace)) (CallStore (CreateNamespace ops)).
Proof.
  destruct create_progresses as [u Hu].
  destruct (requests_guarded create_request create_trace u Hu) as [H|(context & X & p & p' & Hv & _ & _ & Hp)]; [discriminate H|].
  exists context. split; [exact Hv|].
  exact (proj1 (Hp ops_faithful (take 1 ops_trace) _ (CallStore (CreateNamespace ops)) ops_answer [] eq_refl)).
Defined.

(** ** A request without credentials *)

Definition bare_request : Request := mkRequest GET "/api/overview" "" [] "".

Lemma failures_enveloped_witness :
  let response := with_request_id 5 (into_response (ApiAuthentication InvalidCredentials)) in
  get_all (rs_headers response) REQUEST_ID_HEADER = [uuid_to_string 5] /\ failure_shown GET response.
Proof.
  assert (progresses (Api.app bare_request) [Awaited NewRequestId 5%N]
    (Return (with_request_id 5 (into_response (ApiAuthentication InvalidCredentials))))) as H.
  { unfold Api.app. apply progresses_await. apply progresses_none. }
  destruct (failures_enveloped bare_request _ _ H) as (_ & _ & Hf). cbv zeta. split; [reflexivity|].
  destruct (Hf eq_refl) as [[Hs _]|Hshown]; [|exact Hshown]. exfalso. vm_compute in Hs.
  repeat (apply elem_of_cons in Hs as [[=]|Hs]). by apply not_elem_of_nil in Hs.
Defined.
