(* ===== verification/Layout.v ===== *)
(** * The workflow preview's layout (apps/web/src/workflow_layout.rs)

    Kahn's traversal over the indices of a draft's nodes, then the
    coordinates of the cards.  Indices, counters and depths are naturals;
    pixels are integers with the width a browser's [usize] has, 32 bits.
    The traversal takes fuel: one more than the number of nodes, which
    [traverse_settles] shows is enough. *)

From S2P Require Import Prelude.
From stdpp Require Import base numbers list sets sorting.

Local Open Scope nat_scope.

Definition NODE_WIDTH : Z := 224.
Definition NODE_HEIGHT : Z := 128.
Definition COLUMN_GAP : Z := 88.
Definition ROW_GAP : Z := 96.
Definition PADDING : Z := 72.

Record NodePosition : Type := mkNodePosition {
  np_index : nat;
  np_depth : nat;
  np_x : Z;
  np_y : Z;
}.

Record GraphLayout : Type := mkGraphLayout {
  gl_nodes : list NodePosition;
  gl_width : Z;
  gl_height : Z;
  gl_unresolved : bool;
}.

(** ** The traversal *)

(** The number of edges into each node, and the ends of the edges out of it;
    an edge with a missing end is passed over. *)
Definition incidence (count : nat) (edges : list (nat * nat)) : list nat * list (list nat) :=
  foldl (fun '(incoming, outgoing) '(from, to) =>
      if (count <=? from) || (count <=? to) then (incoming, outgoing)
      else (alter S to incoming, alter (fun values => values ++ [to]) from outgoing))
    (replicate count 0, replicate count []) edges.

(** The nodes without a predecessor, in their order. *)
Definition sources (incoming : list nat) : list nat :=
  omap (fun '(index, value) => if (value =? 0) then Some index else None) (imap pair incoming).

(** The inner loop, for one edge. *)
Definition relax (next_depth : nat) (st : list nat * list nat * list nat) (downstream : nat) : list nat * list nat * list nat :=
  let '(incoming, depths, ready) := st in
  let depths := alter (fun depth => depth `max` next_depth) downstream depths in
  match incoming !! downstream with
  | Some value =>
      let value := value - 1 in
      (<[downstream := value]> incoming, depths, if value =? 0 then ready ++ [downstream] else ready)
  | None => (incoming, depths, ready)
  end.

Record traversal : Type := mkTraversal {
  t_incoming : list nat;
  t_depths : list nat;
  t_visited : list bool;
  t_ready : list nat;
}.

(** The [while let] loop. *)
Fixpoint traverse (fuel : nat) (outgoing : list (list nat)) (t : traversal) : option traversal :=
  match t_ready t with
  | [] => Some t
  | index :: ready =>
      match fuel with
      | 0 => None
      | S fuel =>
          let visited := <[index := true]> (t_visited t) in
          let next_depth := default 0 (t_depths t !! index) + 1 in
          let '(incoming, depths, ready) :=
            foldl (relax next_depth) (t_incoming t, t_depths t, ready) (default [] (outgoing !! index)) in
          traverse fuel outgoing (mkTraversal incoming depths visited ready)
      end
  end.

Definition initial_traversal (count : nat) (incoming : list nat) : traversal :=
  mkTraversal incoming (replicate count 0) (replicate count false) (sources incoming).

(** ** Coordinates *)

Definition max_list_opt (l : list nat) : option nat :=
  match l with
  | [] => None
  | x :: l => Some (foldl Nat.max x l)
  end.

(** The depth that the nodes the traversal has not reached are given. *)
Definition draft_depth (depths : list nat) (visited : list bool) : nat :=
  match max_list_opt (omap (fun '(depth, seen) => if seen : bool then Some depth else None) (zip depths visited)) with
  | Some depth => depth + 1
  | None => 0
  end.

Definition settle (depths : list nat) (visited : list bool) : list nat :=
  zip_with (fun depth (seen : bool) => if seen then depth else draft_depth depths visited) depths visited.

Definition USIZE_MAX : Z := 4294967295.
Definition saturating_mul (a b : Z) : Z := (a * b) `min` USIZE_MAX.
Definition saturating_sub (a b : Z) : Z := (a - b) `max` 0.

Definition row_width (size : nat) : Z :=
  saturating_sub (saturating_mul (Z.of_nat size) (NODE_WIDTH + COLUMN_GAP)) COLUMN_GAP.

Definition layer_sizes (layers : nat) (depths : list nat) : list nat :=
  foldl (fun sizes depth => alter S depth sizes) (replicate layers 0) depths.

(** The closure that places one node and takes its slot. *)
Definition place (sizes : list nat) (widest : Z) (slots : list nat) (index depth : nat) : NodePosition * list nat :=
  let offset := default 0 (slots !! depth) in
  let slots := alter S depth slots in
  let width := row_width (default 0 (sizes !! depth)) in
  (mkNodePosition index depth
     (PADDING + saturating_sub widest width `div` 2 + Z.of_nat offset * (NODE_WIDTH + COLUMN_GAP))%Z
     (PADDING + Z.of_nat depth * (NODE_HEIGHT + ROW_GAP))%Z, slots).

Fixpoint place_all (sizes : list nat) (widest : Z) (slots : list nat) (index : nat) (depths : list nat) : list NodePosition :=
  match depths with
  | [] => []
  | depth :: depths =>
      let '(node, slots) := place sizes widest slots index depth in
      node :: place_all sizes widest slots (S index) depths
  end.

Definition layers_of (depths : list nat) : nat :=
  match max_list_opt depths with Some depth => depth + 1 | None => 1 end.

(** What is drawn once the traversal is over. *)
Definition draw (depths : list nat) (visited : list bool) : GraphLayout :=
  let unresolved := existsb negb visited in
  let depths := settle depths visited in
  let layers := layers_of depths in
  let sizes := layer_sizes layers depths in
  let widest := row_width (default 1 (max_list_opt sizes)) in
  let nodes := place_all sizes widest (replicate layers 0) 0 depths in
  mkGraphLayout nodes (widest + 2 * PADDING) (Z.of_nat layers * (NODE_HEIGHT + ROW_GAP) - ROW_GAP + 2 * PADDING) unresolved.

Definition layered_layout (count : nat) (edges : list (nat * nat)) : option GraphLayout :=
  let '(incoming, outgoing) := incidence count edges in
  t ← traverse (S count) outgoing (initial_traversal count incoming);
  Some (draw (t_depths t) (t_visited t)).

Example linear_join : layered_layout 3 [(0, 1); (1, 2); (0, 2)] = Some (mkGraphLayout
  [mkNodePosition 0 0 72 72; mkNodePosition 1 1 72 296; mkNodePosition 2 2 72 520] 368 720 false).
Proof. reflexivity. Qed.

Example cyclic_draft : gl_unresolved <$> layered_layout 3 [(0, 1); (1, 0); (4, 2)] = Some true.
Proof. reflexivity. Qed.

(** ** The graph that is laid out *)

(** An edge whose ends are both nodes. *)
Definition inner (count : nat) (e : nat * nat) : Prop := e.1 < count /\ e.2 < count.
#[export] Instance inner_dec count e : Decision (inner count e).
Proof. unfold inner. apply _. Defined.

Definition inner_edges (count : nat) (edges : list (nat * nat)) : list (nat * nat) := filter (inner count) edges.

Definition occ (v : nat) (l : list nat) : nat := length (filter (fun w => w = v) l).

#[local] Arguments occ : simpl never.

Lemma occ_cons v w l : occ v (w :: l) = (if decide (w = v) then 1 else 0) + occ v l.
Proof. unfold occ. rewrite filter_cons. by destruct (decide (w = v)). Qed.

Lemma occ_app v l l' : occ v (l ++ l') = occ v l + occ v l'.
Proof. unfold occ. by rewrite filter_app, length_app. Qed.

Lemma occ_pos v l : 0 < occ v l <-> v ∈ l.
Proof.
  induction l as [|w l IH]; [split; [unfold occ; cbn; lia|set_solver]|]. rewrite occ_cons. destruct (decide (w = v)) as [->|Hn].
  - split; [set_solver|lia].
  - rewrite Nat.add_0_l, IH. set_solver.
Qed.

(** The ends of the edges out of a node, in the order of the edges. *)
Definition ends (E : list (nat * nat)) (u : nat) : list nat := (filter (fun e => e.1 = u) E).*2.

Lemma ends_app E E' u : ends (E ++ E') u = ends E u ++ ends E' u.
Proof. unfold ends. by rewrite filter_app, fmap_app. Qed.

Lemma elem_of_ends E u v : v ∈ ends E u <-> (u, v) ∈ E.
Proof.
  unfold ends. rewrite list_elem_of_fmap. split.
  - intros ([a b] & -> & [Ha Hin]%list_elem_of_filter). cbn in *. by subst.
  - intros Hin. exists (u, v). split; [done|]. by apply list_elem_of_filter.
Qed.

#[local] Arguments ends : simpl never.

(** A walk of a given number of edges that ends in a node. *)
Inductive walk (E : list (nat * nat)) : nat -> nat -> Prop :=
| WalkNil v : walk E 0 v
| WalkSnoc n u v : walk E n u -> (u, v) ∈ E -> walk E (S n) v.

(** The length of the longest walk to a node, where there is one. *)
Definition longest (E : list (nat * nat)) (v d : nat) : Prop := walk E d v /\ forall n, walk E n v -> n <= d.

(** ** The traversal's counters *)

Definition degrees (count : nat) (E : list (nat * nat)) (incoming : list nat) (outgoing : list (list nat)) : Prop :=
  length incoming = count /\ length outgoing = count
  /\ (forall v, v < count -> incoming !! v = Some (occ v E.*2))
  /\ (forall u, u < count -> outgoing !! u = Some (ends E u)).

Lemma alter_lookup {A} (f : A -> A) (i j : nat) (l : list A) :
  alter f i l !! j = (if decide (i = j) then f <$> l !! j else l !! j).
Proof. destruct (decide (i = j)) as [->|Hn]; [apply list_lookup_alter_eq|by apply list_lookup_alter_ne]. Qed.

Lemma incidence_spec count edges :
  degrees count (inner_edges count edges) (incidence count edges).1 (incidence count edges).2.
Proof.
  unfold incidence. induction edges as [|[from to] edges IH] using rev_ind.
  - cbn. split_and!; try apply length_replicate; intros; by rewrite lookup_replicate_2.
  - rewrite foldl_app. cbn [foldl]. destruct (foldl _ _ edges) as [incoming outgoing]. cbn [fst snd] in IH.
    destruct IH as (Hi & Ho & Hin & Hout). unfold inner_edges in *. rewrite filter_app.
    destruct (decide (inner count (from, to))) as [[Hf Ht]|Hn]; cbn in Hf, Ht || idtac.
    + rewrite (proj2 (Nat.leb_gt count from)), (proj2 (Nat.leb_gt count to)) by done. cbn [orb fst snd].
      rewrite filter_cons_True, filter_nil by done. split_and!; rewrite ?length_alter; try done; intros w Hw; rewrite alter_lookup.
      * rewrite Hin, fmap_app, occ_app by done. cbn [fmap list_fmap snd]. rewrite occ_cons. change (occ w []) with 0. generalize (occ w (filter (inner count) edges).*2). intros n.
        destruct (decide (to = w)); cbn; f_equal; lia.
      * rewrite Hout, ends_app by done. assert (He : ends [(from, to)] w = if decide (from = w) then [to] else []).
        { unfold ends. rewrite filter_cons, filter_nil. cbn. by destruct (decide (from = w)). }
        rewrite He. destruct (decide (from = w)); cbn; [done|by rewrite app_nil_r].
    + replace ((count <=? from) || (count <=? to)) with true.
      * rewrite filter_cons_False, filter_nil, app_nil_r by done. cbn. done.
      * symmetry. apply orb_true_iff. rewrite !Nat.leb_le. unfold inner in Hn. cbn in Hn. lia.
Qed.

Lemma elem_of_sources incoming v : v ∈ sources incoming <-> incoming !! v = Some 0.
Proof.
  unfold sources. rewrite list_elem_of_omap. split.
  - intros ([i x] & Hin & H). apply list_elem_of_lookup in Hin as [k Hk]. rewrite list_lookup_imap in Hk.
    destruct (incoming !! k) as [y|] eqn:E; [|done]. cbn in Hk. injection Hk as -> ->.
    destruct (Nat.eqb_spec x 0); [|done]. by injection H as ->; subst.
  - intros H. exists (v, 0). split; [|done]. apply list_elem_of_lookup. exists v. by rewrite list_lookup_imap, H.
Qed.

Lemma NoDup_sources incoming : NoDup (sources incoming).
Proof.
  unfold sources. cut (forall k, NoDup (omap (fun '(i, x) => if x =? 0 then Some i else None) (imap (fun i x => (k + i, x)) incoming))).
  { intros H. specialize (H 0). done. }
  induction incoming as [|x incoming IH]; intros k; cbn; [constructor|].
  assert (Heq : imap ((fun i y => (k + i, y)) ∘ S) incoming = imap (fun i y => (S k + i, y)) incoming).
  { apply imap_ext. intros i y _. cbn. f_equal. lia. }
  rewrite Heq. destruct (x =? 0); [|apply IH]. constructor; [|apply IH].
  rewrite list_elem_of_omap. intros ([i y] & Hin & H). apply list_elem_of_lookup in Hin as [j Hj].
  rewrite list_lookup_imap in Hj. destruct (incoming !! j); [|done]. cbn in Hj. injection Hj as <- <-.
  destruct (_ =? 0); [|done]. injection H. lia.
Qed.

(** A vector that holds a function's values on the nodes. *)
Definition rep {A} (count : nat) (l : list A) (f : nat -> A) : Prop :=
  length l = count /\ forall v, v < count -> l !! v = Some (f v).

Definition upd {A} (f : nat -> A) (i : nat) (x : A) : nat -> A := fun j => if decide (i = j) then x else f j.

Lemma rep_ext {A} count (l : list A) f g : (forall v, v < count -> f v = g v) -> rep count l f -> rep count l g.
Proof. intros Hfg [Hl H]. split; [done|]. intros v Hv. by rewrite H, Hfg. Qed.

Lemma rep_insert {A} count (l : list A) f i x : i < count -> rep count l f -> rep count (<[i := x]> l) (upd f i x).
Proof.
  intros Hi [Hl H]. split; [by rewrite length_insert|]. intros v Hv. unfold upd. destruct (decide (i = v)) as [->|Hn].
  - by rewrite list_lookup_insert_eq by lia.
  - by rewrite list_lookup_insert_ne, H.
Qed.

Lemma rep_alter {A} count (l : list A) f i (g : A -> A) : i < count -> rep count l f -> rep count (alter g i l) (upd f i (g (f i))).
Proof.
  intros Hi [Hl H]. split; [by rewrite length_alter|]. intros v Hv. rewrite alter_lookup, H by done.
  unfold upd. by destruct (decide (i = v)) as [->|Hn].
Qed.

(** What the inner loop does to the counters, the depths and the queue. *)
Lemma relax_all count next_depth ds : forall li ld inc dep ready,
  rep count li inc -> rep count ld dep -> Forall (fun d => d < count) ds -> (forall v, occ v ds <= inc v) ->
  exists li' ld' new, foldl (relax next_depth) (li, ld, ready) ds = (li', ld', ready ++ new)
    /\ rep count li' (fun v => inc v - occ v ds)
    /\ rep count ld' (fun v => if decide (v ∈ ds) then dep v `max` next_depth else dep v)
    /\ NoDup new /\ (forall v, v ∈ new <-> v ∈ ds /\ inc v = occ v ds).
Proof.
  induction ds as [|d ds IH]; intros li ld inc dep ready Hli Hld Hds Hocc.
  - exists li, ld, []. rewrite app_nil_r. split_and!; [done| |done|constructor|].
    + eapply rep_ext; [|exact Hli]. intros v _. unfold occ; cbn; lia.
    + intros v. set_solver.
  - apply Forall_cons in Hds as [Hd Hds]. cbn [foldl relax]. rewrite (proj2 Hli) by done.
    pose proof (Hocc d) as Hocc_d. rewrite occ_cons, decide_True in Hocc_d by done.
    edestruct (IH _ _ _ _ (if inc d - 1 =? 0 then ready ++ [d] else ready)
      (rep_insert _ _ _ d (inc d - 1) Hd Hli) (rep_alter _ _ _ d (fun depth => depth `max` next_depth) Hd Hld) Hds)
      as (li' & ld' & new & -> & Hli' & Hld' & Hnew & Hin).
    { intros v. pose proof (Hocc v) as Hv. rewrite occ_cons in Hv. unfold upd. destruct (decide (d = v)) as [->|]; lia. }
    exists li', ld', ((if inc d - 1 =? 0 then [d] else []) ++ new). split_and!.
    + destruct (inc d - 1 =? 0); cbn; [|done]. by rewrite <- app_assoc.
    + eapply rep_ext; [|exact Hli']. intros v _. cbn. unfold upd. rewrite occ_cons. destruct (decide (d = v)) as [->|]; lia.
    + eapply rep_ext; [|exact Hld']. intros v _. cbn. unfold upd.
      destruct (decide (d = v)) as [->|Hn], (decide (v ∈ ds)), (decide (v ∈ _ :: ds)); set_solver by lia.
    + destruct (Nat.eqb_spec (inc d - 1) 0) as [H0|_]; [|done]. cbn. constructor; [|done]. rewrite Hin.
      intros [Hd' _]. apply occ_pos in Hd'. lia.
    + intros v. rewrite elem_of_app, Hin, elem_of_cons, occ_cons. unfold upd. destruct (decide (d = v)) as [->|Hn].
      * destruct (Nat.eqb_spec (inc v - 1) 0) as [H0|H0].
        -- rewrite list_elem_of_singleton. split; [|by left]. intros _. split; [by left|]. lia.
        -- split; [intros [?%not_elem_of_nil|[Hv Heq]]; [done|split; [by left|lia]]|].
           intros [_ Heq]. right. split; [apply occ_pos; lia|lia].
      * destruct (_ =? 0); set_solver.
Qed.

(** The edges into a node that the traversal has not followed. *)
Definition pending (E : list (nat * nat)) (vis : nat -> bool) (v : nat) : nat :=
  length (filter (fun e => e.2 = v /\ vis e.1 = false) E).
#[local] Arguments pending : simpl never.

Lemma pending_visit E vis i v :
  vis i = false -> pending E vis v = pending E (upd vis i true) v + occ v (ends E i).
Proof.
  intros Hi. unfold pending, ends, occ. induction E as [|[a b] E IH]; [done|]. rewrite !filter_cons. cbn [fst snd].
  assert (Ha : upd vis i true a = false <-> a <> i /\ vis a = false) by (unfold upd; case_decide; naive_solver).
  destruct (decide (a = i)) as [->|Hai].
  - rewrite fmap_cons, filter_cons. cbn [snd]. rewrite (decide_False (P := b = v /\ upd vis i true i = false)) by naive_solver.
    destruct (decide (b = v)); [rewrite decide_True by done|rewrite decide_False by naive_solver]; cbn [length]; lia.
  - destruct (decide (b = v /\ vis a = false)); [rewrite decide_True by naive_solver|rewrite decide_False by naive_solver];
      cbn [length]; lia.
Qed.

Lemma pending_start E v : pending E (fun _ => false) v = occ v E.*2.
Proof.
  unfold pending, occ. induction E as [|[a b] E IH]; [done|]. rewrite fmap_cons, !filter_cons. cbn [snd fst].
  destruct (decide (b = v)); [rewrite decide_True by done|rewrite decide_False by naive_solver]; cbn [length]; lia.
Qed.

Lemma pending_pos E vis v : 0 < pending E vis v <-> exists u, (u, v) ∈ E /\ vis u = false.
Proof.
  unfold pending. destruct (filter _ E) as [|[u w] l] eqn:H; cbn [length].
  - split; [lia|]. intros (u & Hin & Hu). cut ((u, v) ∈ filter (fun e : nat * nat => e.2 = v /\ vis e.1 = false) E).
    + rewrite H. by intros ?%not_elem_of_nil.
    + by apply list_elem_of_filter.
  - split; [|lia]. intros _. exists u. assert (Hin : (u, w) ∈ filter (fun e : nat * nat => e.2 = v /\ vis e.1 = false) E).
    { rewrite H. left. }
    apply list_elem_of_filter in Hin as [[<- Hu] Hin]. done.
Qed.

Definition unvisited (t : traversal) : nat := length (filter (fun seen => seen = false) (t_visited t)).

Lemma filter_insert_true (l : list bool) i :
  l !! i = Some false -> S (length (filter (fun seen => seen = false) (<[i := true]> l))) = length (filter (fun seen => seen = false) l).
Proof.
  revert i. induction l as [|b l IH]; intros [|i] Hi; try done.
  - injection Hi as ->. change (<[0 := true]> (false :: l)) with (true :: l). by rewrite !filter_cons, decide_False, decide_True.
  - specialize (IH i Hi). change (<[S i := true]> (b :: l)) with (b :: <[i := true]> l). rewrite !filter_cons.
    destruct (decide (b = false)); cbn [length]; lia.
Qed.

Section Traversal.
Context (count : nat) (E : list (nat * nat)) (outgoing : list (list nat)).
Hypothesis Hinner : Forall (inner count) E.
Hypothesis Houtgoing : forall u, u < count -> outgoing !! u = Some (ends E u).

Record inv (t : traversal) (inc dep : nat -> nat) (vis : nat -> bool) : Prop := mkInv {
  i_incoming : rep count (t_incoming t) inc;
  i_depths : rep count (t_depths t) dep;
  i_visited : rep count (t_visited t) vis;
  i_pending : forall v, v < count -> inc v = pending E vis v;
  i_nodup : NoDup (t_ready t);
  i_ready : forall v, v ∈ t_ready t <-> v < count /\ vis v = false /\ inc v = 0;
  i_seen : forall v, v < count -> vis v = true -> inc v = 0;
  i_upper : forall u v, (u, v) ∈ E -> vis u = true -> dep u + 1 <= dep v;
  i_bound : forall v, v < count -> dep v + unvisited t <= count;
  i_attained : forall v, v < count -> dep v = 0 \/ exists u, (u, v) ∈ E /\ vis u = true /\ dep v = dep u + 1;
}.

Lemma inner_ends u v : (u, v) ∈ E -> u < count /\ v < count.
Proof. intros Hin. exact (proj1 (Forall_forall _ _) Hinner (u, v) Hin). Qed.

Section Round.
Context (t : traversal) (inc dep : nat -> nat) (vis : nat -> bool) (index : nat) (ready : list nat).
Hypothesis Ht : inv t inc dep vis.
Hypothesis Hready : t_ready t = index :: ready.

Lemma popped : index < count /\ vis index = false /\ inc index = 0.
Proof. apply Ht. rewrite Hready. left. Qed.

(** The edges into a node are those still pending and those this round follows. *)
Lemma followed v : v < count -> inc v = pending E (upd vis index true) v + occ v (ends E index).
Proof. intros Hv. rewrite (i_pending _ _ _ _ Ht) by done. apply pending_visit, popped. Qed.

(** This round touches neither a node that was popped before nor the one it pops. *)
Lemma not_followed v : v < count -> inc v = 0 -> v ∉ ends E index.
Proof. intros Hv H0 Hin%occ_pos. pose proof (followed v Hv). lia. Qed.

Lemma seen_not_followed v : vis v = true \/ v = index -> v ∉ ends E index.
Proof.
  intros H Hin. pose proof (proj2 (inner_ends _ _ (proj1 (elem_of_ends _ _ _) Hin))) as Hlt.
  revert Hin. apply not_followed; [done|]. destruct H as [H|H]; subst; [by apply (i_seen _ _ _ _ Ht)|apply popped].
Qed.

Lemma ends_within v : occ v (ends E index) <= inc v.
Proof.
  destruct (decide (v < count)) as [Hlt|Hge]; [pose proof (followed v Hlt); lia|].
  cut (~ 0 < occ v (ends E index)); [lia|]. rewrite occ_pos, elem_of_ends. intros Hin. apply Hge, (inner_ends _ _ Hin).
Qed.

Lemma elem_of_rest v : v ∈ ready <-> v < count /\ vis v = false /\ inc v = 0 /\ v <> index.
Proof.
  pose proof (i_nodup _ _ _ _ Ht) as Hnd. rewrite Hready in Hnd. apply NoDup_cons in Hnd as [Hnew _].
  pose proof (i_ready _ _ _ _ Ht v) as Hr. rewrite Hready, elem_of_cons in Hr. split; [|naive_solver].
  intros Hin. destruct (proj1 Hr (or_intror Hin)) as (H1 & H2 & H3). split_and!; try done. by intros ->.
Qed.

(** The nodes that this round makes ready join the queue, and no other. *)
Lemma queue_step new :
  NoDup new -> (forall v, v ∈ new <-> v ∈ ends E index /\ inc v = occ v (ends E index)) ->
  NoDup (ready ++ new)
  /\ forall v, v ∈ ready ++ new <-> v < count /\ upd vis index true v = false /\ inc v - occ v (ends E index) = 0.
Proof.
  intros Hnn Hin. split.
  - pose proof (i_nodup _ _ _ _ Ht) as Hnd. rewrite Hready in Hnd. apply NoDup_cons in Hnd as [_ Hnd].
    apply NoDup_app. split_and!; [done| |done]. intros v (_ & _ & Hz & _)%elem_of_rest [Hv2 Hv3]%Hin. apply occ_pos in Hv2. lia.
  - intros v. rewrite elem_of_app, elem_of_rest, Hin. unfold upd. destruct (decide (index = v)) as [<-|Hn].
    + split; [|naive_solver]. intros [(_ & _ & _ & []) |[Hx _]]; [done|]. by apply seen_not_followed in Hx; [|right].
    + split.
      * intros [(H1 & H2 & H3 & _)|[H1 H2]]; [split_and!; [done|done|lia]|].
        split_and!; [exact (proj2 (inner_ends _ _ (proj1 (elem_of_ends _ _ _) H1)))| |lia].
        destruct (vis v) eqn:Ev; [|done]. by apply seen_not_followed in H1; [|left].
      * intros (H1 & H2 & H3). pose proof (followed v H1). destruct (decide (inc v = 0)) as [H0|H0]; [left; naive_solver|].
        right. split; [apply occ_pos; lia|lia].
Qed.

(** The depths stay one more than the greatest visited predecessor's. *)
Lemma depth_step (dep' : nat -> nat) :
  dep' = (fun v => if decide (v ∈ ends E index) then dep v `max` (dep index + 1) else dep v) ->
  (forall u v, (u, v) ∈ E -> upd vis index true u = true -> dep' u + 1 <= dep' v)
  /\ (forall v, v < count -> dep' v = 0 \/ exists u, (u, v) ∈ E /\ upd vis index true u = true /\ dep' v = dep' u + 1).
Proof.
  intros Hdep'.
  assert (Hkeep : forall u, vis u = true \/ u = index -> dep' u = dep u).
  { intros u Hu. subst dep'. cbn. by rewrite decide_False by (by apply seen_not_followed). }
  assert (Hvis : forall u, upd vis index true u = true <-> vis u = true \/ u = index).
  { intros u. unfold upd. destruct (decide (index = u)); naive_solver. }
  split.
  - intros u v Huv Hu%Hvis. rewrite (Hkeep u Hu). subst dep'. cbn. destruct Hu as [Hu|Hu].
    + pose proof (i_upper _ _ _ _ Ht _ _ Huv Hu). destruct (decide _); lia.
    + subst u. rewrite decide_True by (by apply elem_of_ends). lia.
  - intros v Hlt.
    assert (Hold : dep' v = dep v -> dep' v = 0 \/ exists u, (u, v) ∈ E /\ upd vis index true u = true /\ dep' v = dep' u + 1).
    { intros Heq. rewrite Heq. destruct (i_attained _ _ _ _ Ht v Hlt) as [H0|(u & Huv & Hu & Hd)]; [by left|].
      right. exists u. rewrite Hvis, (Hkeep u) by (by left). naive_solver. }
    destruct (decide (dep' v = dep v)) as [Heq|Hne]; [by apply Hold|]. right. exists index.
    rewrite Hvis, (Hkeep index) by (by right). subst dep'. cbn in *. destruct (decide (v ∈ _)) as [Hx|]; [|done].
    apply elem_of_ends in Hx. split_and!; [done|by right|lia].
Qed.

(** One round of the loop. *)
Lemma inv_step : exists li ld ready' inc' dep',
  foldl (relax (default 0 (t_depths t !! index) + 1)) (t_incoming t, t_depths t, ready) (default [] (outgoing !! index))
    = (li, ld, ready')
  /\ inv (mkTraversal li ld (<[index := true]> (t_visited t)) ready') inc' dep' (upd vis index true).
Proof.
  destruct popped as (Hix & Hvi & Hii). rewrite (proj2 (i_depths _ _ _ _ Ht)), Houtgoing by done. cbn [default].
  edestruct (relax_all count (dep index + 1) (ends E index) _ _ _ _ ready (i_incoming _ _ _ _ Ht) (i_depths _ _ _ _ Ht))
    as (li & ld & new & Heq & Hli & Hld & Hnn & Hin).
  { apply Forall_forall. intros v Hin%elem_of_ends. exact (proj2 (inner_ends _ _ Hin)). }
  { apply ends_within. }
  eexists li, ld, (ready ++ new), _, _. split; [exact Heq|].
  destruct (queue_step new Hnn Hin) as [Hq1 Hq2]. destruct (depth_step _ eq_refl) as [Hd1 Hd2].
  assert (Hun : S (length (filter (fun seen => seen = false) (<[index := true]> (t_visited t)))) = unvisited t).
  { apply filter_insert_true. by rewrite (proj2 (i_visited _ _ _ _ Ht)), Hvi. }
  constructor; cbn [t_incoming t_depths t_visited t_ready]; try done.
  - apply rep_insert; [done|apply Ht].
  - intros v Hlt. cbn. pose proof (followed v Hlt). lia.
  - intros v Hlt. unfold upd. destruct (decide (index = v)) as [->|Hn]; [intros _; lia|].
    intros Hvis. rewrite (i_seen _ _ _ _ Ht v Hlt Hvis). lia.
  - intros v Hlt. unfold unvisited. cbn [t_visited].
    pose proof (i_bound _ _ _ _ Ht v Hlt). pose proof (i_bound _ _ _ _ Ht index Hix). destruct (decide _); lia.
Qed.

End Round.

(** The loop ends, with the queue empty and the invariant kept. *)
Lemma traverse_settles fuel : forall t inc dep vis,
  inv t inc dep vis -> unvisited t <= fuel ->
  exists t' inc' dep' vis', traverse fuel outgoing t = Some t' /\ t_ready t' = [] /\ inv t' inc' dep' vis'.
Proof.
  induction fuel as [|fuel IH]; intros t inc dep vis Ht Hm; cbn [traverse]; destruct (t_ready t) as [|index ready] eqn:Hr.
  1, 3: by exists t, inc, dep, vis.
  all: assert (Hix : index < count /\ vis index = false /\ inc index = 0) by (apply Ht; rewrite Hr; left).
  all: destruct Hix as (Hix & Hvi & _); pose proof (proj2 (i_visited _ _ _ _ Ht) _ Hix) as Hl; rewrite Hvi in Hl;
    apply filter_insert_true in Hl; unfold unvisited in Hm.
  - lia.
  - destruct (inv_step _ _ _ _ _ _ Ht Hr) as (li & ld & ready' & inc' & dep' & -> & Ht').
    apply (IH _ _ _ _ Ht'). unfold unvisited. cbn [t_visited]. lia.
Qed.

Lemma inv_initial incoming :
  rep count incoming (fun v => occ v E.*2) ->
  inv (initial_traversal count incoming) (fun v => occ v E.*2) (fun _ => 0) (fun _ => false).
Proof.
  intros Hi. constructor; cbn; try done.
  - split; [apply length_replicate|]. intros v Hv. by rewrite lookup_replicate_2.
  - split; [apply length_replicate|]. intros v Hv. by rewrite lookup_replicate_2.
  - intros v _. symmetry. apply pending_start.
  - apply NoDup_sources.
  - intros v. rewrite elem_of_sources. split.
    + intros H. assert (Hlt : v < count). { rewrite <- (proj1 Hi). by apply lookup_lt_is_Some. }
      rewrite (proj2 Hi) in H by done. by injection H as ->.
    + intros (Hlt & _ & H). by rewrite (proj2 Hi), H.
  - intros v Hv. unfold unvisited. cbn [t_visited initial_traversal]. apply Nat.le_trans with (length (replicate count false)).
    + apply length_filter.
    + by rewrite length_replicate.
  - by left.
Qed.

(** What the depths mean once the queue is empty. *)
Lemma settled_depths t inc dep vis :
  inv t inc dep vis -> t_ready t = [] -> forall v, v < count ->
  if vis v then longest E v (dep v) else forall n, walk E n v.
Proof.
  intros [Hi Hd Hv Hp Hnd Hr Hs Hu _ Ha] Hready.
  assert (Hpred : forall u v, (u, v) ∈ E -> vis v = true -> vis u = true).
  { intros u v Huv Hvis. destruct (vis u) eqn:Eu; [done|]. pose proof (proj2 (inner_ends _ _ Huv)) as Hlt.
    pose proof (proj2 (pending_pos E vis v) (ex_intro _ u (conj Huv Eu))) as Hpos. rewrite <- Hp, (Hs v) in Hpos by done. lia. }
  assert (Hstuck : forall v, v < count -> vis v = false -> exists u, (u, v) ∈ E /\ vis u = false).
  { intros v Hlt Hvis. apply pending_pos. rewrite <- Hp by done. destruct (decide (inc v = 0)) as [H0|]; [|lia].
    cut (v ∈ t_ready t); [rewrite Hready; by intros ?%not_elem_of_nil|]. by apply Hr. }
  intros v Hlt. destruct (vis v) eqn:Hvis.
  - split.
    + remember (dep v) as d eqn:Hdv. revert v Hlt Hvis Hdv.
      induction d as [|d IH]; intros v Hlt Hvis Hdv; [constructor|].
      destruct (Ha v Hlt) as [H0|(u & Huv & Hvu & Heq)]; [lia|]. econstructor; [|exact Huv].
      apply IH; [exact (proj1 (inner_ends _ _ Huv))|done|lia].
    + intros n Hw. revert Hvis. induction Hw as [v|n u v Hw IH Huv]; intros Hvis; [lia|].
      pose proof (Hpred _ _ Huv Hvis) as Hvu. specialize (Hu _ _ Huv Hvu). specialize (IH (proj1 (inner_ends _ _ Huv)) Hvu). lia.
  - intros n. revert v Hlt Hvis. induction n as [|n IH]; intros v Hlt Hvis; [constructor|].
    destruct (Hstuck v Hlt Hvis) as (u & Huv & Hvu). econstructor; [|exact Huv]. apply IH; [exact (proj1 (inner_ends _ _ Huv))|done].
Qed.

End Traversal.

(** ** The cards *)

Lemma foldl_max l : forall x, x <= foldl Nat.max x l /\ (forall y, y ∈ l -> y <= foldl Nat.max x l) /\ foldl Nat.max x l ∈ x :: l.
Proof.
  induction l as [|z l IH]; intros x; cbn; [split_and!; [lia|set_solver|left]|].
  destruct (IH (x `max` z)) as (H1 & H2 & H3). split_and!; [lia| |].
  - intros y [->|Hy]%elem_of_cons; [lia|by apply H2].
  - apply elem_of_cons in H3 as [->|H3]; [|set_solver]. destruct (Nat.max_spec x z) as [[_ ->]|[_ ->]]; set_solver.
Qed.

Lemma max_list_opt_some l m : max_list_opt l = Some m -> m ∈ l /\ forall y, y ∈ l -> y <= m.
Proof.
  destruct l as [|x l]; [done|]. cbn. intros [= <-]. destruct (foldl_max l x) as (H1 & H2 & H3). split; [done|].
  intros y [->|Hy]%elem_of_cons; [done|by apply H2].
Qed.

Lemma layers_of_above ds d : d ∈ ds -> d < layers_of ds.
Proof.
  unfold layers_of. destruct (max_list_opt ds) as [m|] eqn:Hm; [intros Hd%(proj2 (max_list_opt_some _ _ Hm)); lia|].
  destruct ds; [set_solver|done].
Qed.

Lemma layers_of_below ds bound : Forall (fun d => d < bound) ds -> layers_of ds <= bound `max` 1.
Proof.
  unfold layers_of. destruct (max_list_opt ds) as [m|] eqn:Hm; [|lia].
  intros Hall. apply max_list_opt_some in Hm as [Hm _]. pose proof (proj1 (Forall_forall _ _) Hall _ Hm) as Hb. cbn in Hb. lia.
Qed.

Lemma layer_sizes_spec layers ds : Forall (fun d => d < layers) ds -> rep layers (layer_sizes layers ds) (fun d => occ d ds).
Proof.
  unfold layer_sizes. induction ds as [|d ds IH] using rev_ind; intros Hall.
  - split; [apply length_replicate|]. intros v Hv. cbn [foldl]. by rewrite lookup_replicate_2.
  - apply Forall_app in Hall as [Hall [Hd _]%Forall_cons]. rewrite foldl_app. cbn [foldl].
    eapply rep_ext; [|apply (rep_alter _ _ _ d S Hd (IH Hall))]. intros v Hv. cbn. unfold upd.
    rewrite occ_app, occ_cons. destruct (decide (d = v)) as [->|]; unfold occ; cbn; lia.
Qed.

Lemma occ_le d ds : occ d ds <= length ds.
Proof. unfold occ. apply length_filter. Qed.

(** The widest layer. *)
Definition widest_layer (layers : nat) (ds : list nat) : nat := default 1 (max_list_opt (layer_sizes layers ds)).

Lemma widest_layer_spec layers ds :
  Forall (fun d => d < layers) ds ->
  (forall d, d < layers -> occ d ds <= widest_layer layers ds) /\ widest_layer layers ds <= length ds `max` 1.
Proof.
  intros Hall. pose proof (layer_sizes_spec _ _ Hall) as [Hl Hs]. unfold widest_layer.
  destruct (max_list_opt (layer_sizes layers ds)) as [m|] eqn:Hm; cbn.
  - apply max_list_opt_some in Hm as [Hm1 Hm2]. split.
    + intros d Hd. apply Hm2, list_elem_of_lookup. exists d. by apply Hs.
    + apply list_elem_of_lookup in Hm1 as [d Hd]. assert (Hlt : d < layers) by (rewrite <- Hl; by apply lookup_lt_is_Some).
      rewrite Hs in Hd by done. injection Hd as <-. pose proof (occ_le d ds). lia.
  - destruct (layer_sizes layers ds) eqn:E; [|done]. cbn in Hl. split; [intros; lia|lia].
Qed.

(** The card of a node at a depth, after some others of the same layer. *)
Definition card (sizes : list nat) (widest : Z) (index depth offset : nat) : NodePosition :=
  mkNodePosition index depth
    (PADDING + saturating_sub widest (row_width (default 0%nat (sizes !! depth))) `div` 2 + Z.of_nat offset * (NODE_WIDTH + COLUMN_GAP))%Z
    (PADDING + Z.of_nat depth * (NODE_HEIGHT + ROW_GAP))%Z.

Lemma place_all_length sizes widest ds : forall slots index, length (place_all sizes widest slots index ds) = length ds.
Proof. induction ds as [|d ds IH]; intros slots index; cbn; [done|]. by rewrite IH. Qed.

Lemma place_all_spec layers sizes widest ds : forall before slots,
  rep layers slots (fun d => occ d before) -> Forall (fun d => d < layers) ds ->
  forall k, place_all sizes widest slots (length before) ds !! k
    = (fun d => card sizes widest (length before + k) d (occ d (before ++ take k ds))) <$> ds !! k.
Proof.
  induction ds as [|d ds IH]; intros before slots Hslots Hall k; cbn [place_all place]; [done|].
  apply Forall_cons in Hall as [Hd Hall]. destruct k as [|k]; cbn [lookup list_lookup take].
  - cbn. by rewrite (proj2 Hslots), app_nil_r, Nat.add_0_r.
  - replace (S (length before)) with (length (before ++ [d])) by (rewrite length_app; cbn; lia).
    change (list_lookup k) with (lookup (M := list NodePosition) k). change (list_lookup k ds) with (ds !! k).
    rewrite IH; [|eapply rep_ext; [|apply (rep_alter _ _ _ d S Hd Hslots)]|done].
    + rewrite length_app. cbn [length]. destruct (ds !! k); cbn; [|done]. by rewrite <- app_assoc, <- Nat.add_assoc.
    + intros v Hv. cbn. unfold upd. rewrite occ_app, occ_cons. destruct (decide (d = v)) as [->|]; unfold occ; cbn; lia.
Qed.

Lemma row_width_exact size : size <= 64 -> row_width size = ((Z.of_nat size * 312 - 88) `max` 0)%Z.
Proof. intros H. unfold row_width, saturating_sub, saturating_mul, NODE_WIDTH, COLUMN_GAP, USIZE_MAX. lia. Qed.

Lemma occ_take_lt d ds i : ds !! i = Some d -> occ d (take i ds) < occ d ds.
Proof.
  intros H. rewrite <- (take_drop_middle ds i d H) at 2. rewrite occ_app, occ_cons, decide_True by done. lia.
Qed.

Lemma occ_take_step d ds i j : i < j -> ds !! i = Some d -> occ d (take i ds) < occ d (take j ds).
Proof.
  intros Hij H. assert (Ht : take i ds = take i (take j ds)) by (rewrite take_take; f_equal; lia).
  rewrite Ht. apply occ_take_lt. by rewrite lookup_take_lt.
Qed.

(** ** The whole layout *)

(** The state the traversal stops in. *)
Record settled (count : nat) (E : list (nat * nat)) (depths : list nat) (visited : list bool)
    (dep : nat -> nat) (vis : nat -> bool) : Prop := mkSettled {
  s_depths : rep count depths dep;
  s_visited : rep count visited vis;
  s_meaning : forall v, v < count -> if vis v then longest E v (dep v) else forall n, walk E n v;
  s_bound : forall v, v < count -> dep v + length (filter (fun seen => seen = false) visited) <= count;
}.

Lemma layout_computed count edges : exists depths visited dep vis,
  layered_layout count edges = Some (draw depths visited)
  /\ settled count (inner_edges count edges) depths visited dep vis.
Proof.
  unfold layered_layout. pose proof (incidence_spec count edges) as H.
  destruct (incidence count edges) as [incoming outgoing]. cbn [fst snd] in H. destruct H as (Hi & Ho & Hin & Hout).
  assert (Hinner : Forall (inner count) (inner_edges count edges)).
  { apply Forall_forall. intros e [He _]%list_elem_of_filter. done. }
  destruct (traverse_settles count _ outgoing Hinner Hout (S count) _ _ _ _ (inv_initial count _ incoming (conj Hi Hin)))
    as (t & inc & dep & vis & -> & Hr & Ht).
  { unfold unvisited. cbn. apply Nat.le_trans with (length (replicate count false)); [apply length_filter|rewrite length_replicate; lia]. }
  exists (t_depths t), (t_visited t), dep, vis. cbn. split; [done|]. constructor; [apply Ht|apply Ht| |apply Ht].
  by apply (settled_depths count _ Hinner t inc).
Qed.

Lemma elem_of_rep {A} count (l : list A) f x : rep count l f -> x ∈ l <-> exists v, v < count /\ x = f v.
Proof.
  intros [Hl H]. rewrite list_elem_of_lookup. split.
  - intros [v Hv]. assert (Hlt : v < count) by (rewrite <- Hl; by apply lookup_lt_is_Some). exists v.
    rewrite H in Hv by done. naive_solver.
  - intros (v & Hv & ->). exists v. by apply H.
Qed.

Section Drawn.
Context (count : nat) (E : list (nat * nat)) (depths : list nat) (visited : list bool) (dep : nat -> nat) (vis : nat -> bool).
Hypothesis Hs : settled count E depths visited dep vis.

Lemma unresolved_spec : gl_unresolved (draw depths visited) = true <-> exists v, v < count /\ forall n, walk E n v.
Proof.
  cbn. rewrite existsb_exists. split.
  - intros (seen & Hin & Hn). apply list_elem_of_In, (elem_of_rep _ _ _ _ (s_visited _ _ _ _ _ _ Hs)) in Hin as (v & Hv & ->).
    exists v. split; [done|]. pose proof (s_meaning _ _ _ _ _ _ Hs v Hv) as H. by destruct (vis v).
  - intros (v & Hv & Hw). exists (vis v). split.
    + apply list_elem_of_In, (elem_of_rep _ _ _ _ (s_visited _ _ _ _ _ _ Hs)). by exists v.
    + pose proof (s_meaning _ _ _ _ _ _ Hs v Hv) as H. destruct (vis v); [|done].
      destruct H as [_ H]. specialize (H _ (Hw (S (dep v)))). lia.
Qed.

Lemma elem_of_seen_depths d :
  d ∈ omap (fun '(depth, seen) => if seen : bool then Some depth else None) (zip depths visited)
  <-> exists v, v < count /\ vis v = true /\ d = dep v.
Proof.
  rewrite list_elem_of_omap. split.
  - intros ([d' seen] & Hin & H). destruct seen; [|done]. injection H as ->.
    apply list_elem_of_lookup in Hin as [v Hv]. apply lookup_zip_with_Some in Hv as (x & y & [= <- <-] & Hx & Hy).
    assert (Hlt : v < count) by (rewrite <- (proj1 (s_depths _ _ _ _ _ _ Hs)); by apply lookup_lt_is_Some).
    rewrite (proj2 (s_depths _ _ _ _ _ _ Hs)) in Hx by done. rewrite (proj2 (s_visited _ _ _ _ _ _ Hs)) in Hy by done.
    exists v. naive_solver.
  - intros (v & Hv & Hvis & ->). exists (dep v, vis v). rewrite Hvis. split; [|done].
    apply list_elem_of_lookup. exists v. apply lookup_zip_with_Some. exists (dep v), true.
    by rewrite (proj2 (s_depths _ _ _ _ _ _ Hs)), (proj2 (s_visited _ _ _ _ _ _ Hs)), Hvis.
Qed.

(** The unresolved nodes' layer is the first after the resolved ones. *)
Lemma draft_depth_spec :
  (forall v, v < count -> vis v = true -> dep v < draft_depth depths visited)
  /\ (draft_depth depths visited = 0 \/ exists v, v < count /\ vis v = true /\ draft_depth depths visited = dep v + 1).
Proof.
  unfold draft_depth. destruct (max_list_opt _) as [m|] eqn:Hm.
  - apply max_list_opt_some in Hm as [Hm1 Hm2]. split.
    + intros v Hv Hvis. assert (Hin : dep v <= m) by (apply Hm2, elem_of_seen_depths; by exists v). lia.
    + right. apply elem_of_seen_depths in Hm1 as (v & Hv & Hvis & ->). by exists v.
  - destruct (omap _ _) eqn:Ho; [|done]. split; [|by left]. intros v Hv Hvis.
    pose proof (proj2 (elem_of_seen_depths (dep v)) (ex_intro _ v (conj Hv (conj Hvis eq_refl)))) as Hin. rewrite Ho in Hin. set_solver.
Qed.

Definition shown (v : nat) : nat := if vis v then dep v else draft_depth depths visited.

Lemma settle_spec : rep count (settle depths visited) shown.
Proof.
  destruct (s_depths _ _ _ _ _ _ Hs) as [H1 H2], (s_visited _ _ _ _ _ _ Hs) as [H3 H4]. unfold settle. split.
  - rewrite length_zip_with. lia.
  - intros v Hv. apply lookup_zip_with_Some. exists (dep v), (vis v). unfold shown. naive_solver.
Qed.

Lemma shown_bound v : v < count -> shown v <= count.
Proof.
  intros Hv. unfold shown. destruct (vis v) eqn:Hvis; [pose proof (s_bound _ _ _ _ _ _ Hs v Hv); lia|].
  destruct (proj2 draft_depth_spec) as [->|(u & Hu & _ & ->)]; [lia|]. pose proof (s_bound _ _ _ _ _ _ Hs u Hu) as Hb.
  cut (0 < length (filter (fun seen => seen = false) visited)); [lia|].
  pose proof (proj2 (s_visited _ _ _ _ _ _ Hs) v Hv) as Hl. rewrite Hvis in Hl.
  apply list_elem_of_lookup_2 in Hl. assert (Hin : false ∈ filter (fun seen => seen = false) visited) by (by apply list_elem_of_filter).
  destruct (filter _ visited); [set_solver|cbn; lia].
Qed.

Definition node_card (v : nat) : NodePosition :=
  let ds := settle depths visited in
  let sizes := layer_sizes (layers_of ds) ds in
  card sizes (row_width (widest_layer (layers_of ds) ds)) v (shown v) (occ (shown v) (take v ds)).

Lemma nodes_spec : rep count (gl_nodes (draw depths visited)) node_card.
Proof.
  destruct settle_spec as [Hl Hd]. cbn [draw gl_nodes]. set (ds := settle depths visited) in *.
  assert (Hall : Forall (fun d => d < layers_of ds) ds) by (apply Forall_forall, layers_of_above).
  assert (H0 : rep (layers_of ds) (replicate (layers_of ds) 0) (fun d => occ d [])).
  { split; [apply length_replicate|]. intros v Hv. by rewrite lookup_replicate_2. }
  pose proof (place_all_spec _ (layer_sizes (layers_of ds) ds) (row_width (widest_layer (layers_of ds) ds)) ds [] _ H0 Hall) as Hp.
  cbn [length] in Hp. split.
  - by rewrite place_all_length.
  - intros v Hv. unfold widest_layer in Hp. rewrite Hp, Hd by done. reflexivity.
Qed.

Lemma settled_layers : Forall (fun d => d < layers_of (settle depths visited)) (settle depths visited).
Proof. apply Forall_forall, layers_of_above. Qed.

Lemma layers_bound : 1 <= layers_of (settle depths visited) <= count + 1.
Proof.
  split; [unfold layers_of; destruct (max_list_opt _); lia|].
  transitivity ((count + 1) `max` 1); [|lia]. apply layers_of_below, Forall_forall.
  intros d (v & Hv & ->)%(elem_of_rep _ _ _ _ settle_spec). pose proof (shown_bound v Hv). lia.
Qed.

(** The slot of a node, and its layer's size. *)
Definition slot (v : nat) : nat := occ (shown v) (take v (settle depths visited)).
Definition size (v : nat) : nat := occ (shown v) (settle depths visited).
Definition widest : nat := widest_layer (layers_of (settle depths visited)) (settle depths visited).

Lemma slot_bounds v : v < count -> slot v < size v /\ size v <= widest /\ shown v < layers_of (settle depths visited).
Proof.
  intros Hv. pose proof (proj2 settle_spec v Hv) as Hd. unfold slot, size, widest.
  assert (Hlt : shown v < layers_of (settle depths visited)) by (apply layers_of_above; by eapply list_elem_of_lookup_2).
  split_and!; [by apply occ_take_lt| |done]. by apply (widest_layer_spec _ _ settled_layers).
Qed.

Lemma widest_bound : widest <= count `max` 1.
Proof. pose proof (proj2 (widest_layer_spec _ _ settled_layers)) as H. by rewrite (proj1 settle_spec) in H. Qed.

Lemma node_card_x v : v < count -> count <= 64 ->
  np_x (node_card v) = (72 + (Z.of_nat widest - Z.of_nat (size v)) * 156 + Z.of_nat (slot v) * 312)%Z.
Proof.
  intros Hv Hc. destruct (slot_bounds v Hv) as (H1 & H2 & H3). pose proof widest_bound as H4.
  unfold node_card. cbn [card np_x]. fold (slot v) widest.
  rewrite (proj2 (layer_sizes_spec _ _ settled_layers) _ H3). unfold default, id. fold (size v). rewrite !row_width_exact by lia.
  unfold saturating_sub, PADDING, NODE_WIDTH, COLUMN_GAP.
  replace (((Z.of_nat widest * 312 - 88) `max` 0 - (Z.of_nat (size v) * 312 - 88) `max` 0) `max` 0)%Z
    with ((Z.of_nat widest - Z.of_nat (size v)) * 156 * 2)%Z by lia.
  rewrite Z.div_mul by done. lia.
Qed.

Lemma slot_step i j : i < j -> i < count -> shown i = shown j -> slot i < slot j.
Proof. intros Hij Hi Heq. unfold slot. rewrite <- Heq. apply occ_take_step; [done|]. by apply settle_spec. Qed.

End Drawn.

(** The workflow preview places every draft, whatever its edges.  The
    traversal ends within one round per node, cycles, self edges and edges
    with missing ends included; each node keeps its index; a node that no
    cycle feeds is shown at the length of the longest walk that ends in it,
    so every join comes after all its predecessors; the nodes a cycle feeds
    (those that walks of every length end in) share one layer below all the
    others; and the preview is marked unresolved exactly when there is one. *)
Theorem layout_depths count edges : exists layout,
  layered_layout count edges = Some layout
  /\ length (gl_nodes layout) = count
  /\ (gl_unresolved layout = true <-> exists v, v < count /\ forall n, walk (inner_edges count edges) n v)
  /\ forall v p, gl_nodes layout !! v = Some p -> np_index p = v /\
       (longest (inner_edges count edges) v (np_depth p)
        \/ (forall n, walk (inner_edges count edges) n v)
           /\ forall w q, gl_nodes layout !! w = Some q -> np_depth q < np_depth p \/
                np_depth q = np_depth p /\ forall n, walk (inner_edges count edges) n w).
Proof.
  destruct (layout_computed count edges) as (depths & visited & dep & vis & -> & Hs).
  exists (draw depths visited). destruct (nodes_spec _ _ _ _ _ _ Hs) as [Hl Hn]. split_and!; [done|done|by eapply unresolved_spec|].
  assert (Hcard : forall v p, gl_nodes (draw depths visited) !! v = Some p -> v < count /\ p = node_card depths visited dep vis v).
  { intros v p Hp. assert (Hv : v < count) by (rewrite <- Hl; by apply lookup_lt_is_Some). rewrite Hn in Hp by done. naive_solver. }
  intros v p [Hv ->]%Hcard. split; [done|]. cbn [node_card card np_depth]. unfold shown.
  pose proof (s_meaning _ _ _ _ _ _ Hs v Hv) as Hm. destruct (vis v) eqn:Ev; [by left|]. right. split; [done|].
  intros w q [Hw ->]%Hcard. cbn [node_card card np_depth]. unfold shown.
  pose proof (s_meaning _ _ _ _ _ _ Hs w Hw) as Hmw. destruct (vis w) eqn:Ew; [left|by right].
  by apply (draft_depth_spec _ _ _ _ _ _ Hs).
Qed.

(** Two cards with no pixel in common. *)
Definition apart (p q : NodePosition) : Prop :=
  (np_x p + NODE_WIDTH <= np_x q \/ np_x q + NODE_WIDTH <= np_x p
   \/ np_y p + NODE_HEIGHT <= np_y q \/ np_y q + NODE_HEIGHT <= np_y p)%Z.

(** A card inside the drawing, its padding left free. *)
Definition framed (layout : GraphLayout) (p : NodePosition) : Prop :=
  (PADDING <= np_x p /\ np_x p + NODE_WIDTH + PADDING <= gl_width layout
   /\ PADDING <= np_y p /\ np_y p + NODE_HEIGHT + PADDING <= gl_height layout)%Z.

(** The cards of a workflow within the editor's limit of 64 nodes never
    overlap, whatever its edges, and all lie inside the drawing with the
    padding around them; the drawing's sides fit the width of a browser's
    integers, so none of the products and sums of the layout overflows. *)
Theorem layout_cards count edges : count <= 64 -> exists layout,
  layered_layout count edges = Some layout
  /\ (forall i p, gl_nodes layout !! i = Some p -> framed layout p)
  /\ (forall i j p q, gl_nodes layout !! i = Some p -> gl_nodes layout !! j = Some q -> i <> j -> apart p q)
  /\ (0 < gl_width layout <= 64 * 312 + 144)%Z /\ (0 < gl_height layout <= 65 * 224 + 144)%Z.
Proof.
  intros Hcount. destruct (layout_computed count edges) as (depths & visited & dep & vis & -> & Hs).
  exists (draw depths visited). split; [done|]. destruct (nodes_spec _ _ _ _ _ _ Hs) as [Hl Hn].
  pose proof (layers_bound _ _ _ _ _ _ Hs) as Hlayers. pose proof (widest_bound _ _ _ _ _ _ Hs) as Hwide.
  assert (Hcard : forall v p, gl_nodes (draw depths visited) !! v = Some p -> v < count /\ p = node_card depths visited dep vis v).
  { intros v p Hp. assert (Hv : v < count) by (rewrite <- Hl; by apply lookup_lt_is_Some). rewrite Hn in Hp by done. naive_solver. }
  assert (Hwidth : gl_width (draw depths visited) = ((Z.of_nat (widest depths visited) * 312 - 88) `max` 0 + 144)%Z).
  { change (gl_width _) with (row_width (widest depths visited) + 2 * PADDING)%Z.
    rewrite row_width_exact by lia. unfold PADDING. lia. }
  assert (Hheight : gl_height (draw depths visited) = (Z.of_nat (layers_of (settle depths visited)) * 224 - 96 + 144)%Z) by done.
  rewrite Hwidth, Hheight. split_and!; try lia.
  - intros i p [Hi ->]%Hcard. destruct (slot_bounds _ _ _ _ _ _ Hs i Hi) as (H1 & H2 & H3). unfold framed.
    rewrite Hwidth, Hheight, (node_card_x _ _ _ _ _ _ Hs) by done. cbn [node_card card np_y].
    unfold PADDING, NODE_WIDTH, NODE_HEIGHT, ROW_GAP. lia.
  - assert (Hlt : forall i j, i < j -> j < count -> apart (node_card depths visited dep vis i) (node_card depths visited dep vis j)).
    { intros i j Hij Hj. unfold apart. rewrite !(node_card_x _ _ _ _ _ _ Hs) by lia. cbn [node_card card np_y].
      unfold PADDING, NODE_WIDTH, NODE_HEIGHT, ROW_GAP.
      destruct (Nat.lt_trichotomy (shown depths visited dep vis i) (shown depths visited dep vis j)) as [H|[H|H]]; [lia| |lia].
      pose proof (slot_step _ _ _ _ _ _ Hs i j Hij ltac:(lia) H) as Hslot. left.
      unfold size. rewrite H. lia. }
    intros i j p q [Hi ->]%Hcard [Hj ->]%Hcard Hij. destruct (Nat.lt_total i j) as [H|[H|H]]; [by apply Hlt|done|].
    destruct (Hlt j i H Hi) as [?|[?|[?|?]]]; unfold apart; tauto.
Qed.

(** The preview depends on which edges there are, not on their order nor on
    how often one is drawn. *)
Lemma walk_ext E E' n v : (forall e, e ∈ E <-> e ∈ E') -> walk E n v -> walk E' n v.
Proof. intros H Hw. induction Hw as [v|n u v Hw IH Huv]; [constructor|]. econstructor; [exact IH|by apply H]. Qed.

Lemma settled_unique count E E' depths visited dep vis depths' visited' dep' vis' :
  (forall e, e ∈ E <-> e ∈ E') -> settled count E depths visited dep vis -> settled count E' depths' visited' dep' vis' ->
  forall v, v < count -> vis v = vis' v /\ (vis v = true -> dep v = dep' v).
Proof.
  intros HE Hs Hs' v Hv. pose proof (s_meaning _ _ _ _ _ _ Hs v Hv) as H. pose proof (s_meaning _ _ _ _ _ _ Hs' v Hv) as H'.
  assert (HE' : forall e, e ∈ E' <-> e ∈ E) by naive_solver.
  destruct (vis v), (vis' v); try done.
  - split; [done|]. intros _. destruct H as [H1 H2], H' as [H1' H2'].
    apply Nat.le_antisymm; [eapply H2', walk_ext|eapply H2, walk_ext]; eauto.
  - destruct H as [_ H]. specialize (H _ (walk_ext _ _ _ _ HE' (H' (S (dep v))))). lia.
  - destruct H' as [_ H']. specialize (H' _ (walk_ext _ _ _ _ HE (H (S (dep' v))))). lia.
Qed.

Lemma rep_unique {A} count (l l' : list A) f g : rep count l f -> rep count l' g -> (forall v, v < count -> f v = g v) -> l = l'.
Proof.
  intros [Hl H] [Hl' H'] Hfg. apply list_eq. intros v. destruct (decide (v < count)) as [Hv|Hv].
  - by rewrite H, H', Hfg.
  - by rewrite !lookup_ge_None_2 by lia.
Qed.

Theorem layout_edge_set count edges edges' :
  (forall e, e ∈ edges <-> e ∈ edges') -> layered_layout count edges = layered_layout count edges'.
Proof.
  intros He. destruct (layout_computed count edges) as (depths & visited & dep & vis & -> & Hs).
  destruct (layout_computed count edges') as (depths' & visited' & dep' & vis' & -> & Hs').
  assert (HE : forall e, e ∈ inner_edges count edges <-> e ∈ inner_edges count edges').
  { intros e. unfold inner_edges. by rewrite !list_elem_of_filter, He. }
  pose proof (settled_unique _ _ _ _ _ _ _ _ _ _ _ HE Hs Hs') as Hu.
  assert (Hd : draft_depth depths visited = draft_depth depths' visited').
  { destruct (draft_depth_spec _ _ _ _ _ _ Hs) as [H1 H2], (draft_depth_spec _ _ _ _ _ _ Hs') as [H1' H2'].
    apply Nat.le_antisymm.
    - destruct H2 as [->|(v & Hv & Hvis & ->)]; [lia|]. destruct (Hu v Hv) as [Hvv Hdd].
      rewrite Hdd by done. rewrite Hvis in Hvv. specialize (H1' v Hv (eq_sym Hvv)). lia.
    - destruct H2' as [->|(v & Hv & Hvis & ->)]; [lia|]. destruct (Hu v Hv) as [Hvv Hdd].
      rewrite Hvis in Hvv. rewrite <- Hdd by done. specialize (H1 v Hv Hvv). lia. }
  assert (Hvis : visited = visited').
  { eapply rep_unique; [apply Hs|apply Hs'|]. intros v Hv. by apply Hu. }
  assert (Hsettle : settle depths visited = settle depths' visited').
  { eapply rep_unique; [eapply settle_spec, Hs|eapply settle_spec, Hs'|]. intros v Hv. unfold shown.
    destruct (Hu v Hv) as [Hvv Hdd]. rewrite <- Hvv, Hd. destruct (vis v); [by apply Hdd|done]. }
  unfold draw. by rewrite Hsettle, Hvis.
Qed.

(** A draft of four nodes with a cycle and an edge to a missing one. *)
Lemma layout_cards_witness : exists layout,
  layered_layout 4 [(0, 1); (1, 2); (2, 1); (3, 9); (0, 3)] = Some layout /\ gl_unresolved layout = true
  /\ np_depth <$> gl_nodes layout = [0; 2; 2; 1]
  /\ (forall i j p q, gl_nodes layout !! i = Some p -> gl_nodes layout !! j = Some q -> i <> j -> apart p q).
Proof.
  destruct (layout_cards 4 [(0, 1); (1, 2); (2, 1); (3, 9); (0, 3)] ltac:(lia)) as (layout & Hl & _ & Hap & _).
  exists layout. split_and!; [done| | |exact Hap]; vm_compute in Hl; injection Hl as <-; reflexivity.
Defined.
