(* ===== verification/WebClient.v ===== *)
(** * The browser's client of the HTTP API (apps/web/src/api.rs)

    Every function of the client as the request it sends: verb, URL and body.
    The same-origin transport, the session's credential and the decoding of
    answers are functions of what the browser gives; the browser, gloo-net
    and serde are parameters. *)

From S2P Require Import Prelude RustStr Json Inputs Names Float Domain Auth Recurrence Workflow Db Snapshot Store WorkflowStore Catalog Queries Validation Application ApplicationSystem Futures ApiTypes Authentication Web.
From Stdlib Require Import Ascii String.
From stdpp Require Import base numbers strings list pretty.

Local Open Scope string_scope.
Local Open Scope Z_scope.

(** The record [ApiError] of api.rs. *)
Record ClientError : Type := mkClientError {
  ce_code : string;
  ce_message : string;
  ce_field : option string;
}.

Definition client_error (message : string) : ClientError := mkClientError "client_error" message None.

(** What a verb sends: nothing, a typed body, or the empty object. *)
Inductive Payload : Type :=
| NoPayload
| EmptyObject
| Encoded {A : Type} (kind : BodyType A) (body : A).

Record Outgoing : Type := mkOutgoing {
  og_method : Method;
  og_url : string;
  og_payload : Payload;
}.

Module client.

Definition API_ROOT : string := "/api".
Definition MAX_COLLECTION_PAGES : nat := 100.
Definition ACCESS_TOKEN_KEY : string := "crono.access_token".

(** ** Verbs *)

Definition get (url : string) : Outgoing := mkOutgoing GET url NoPayload.
Definition post {B} (url : string) (kind : BodyType B) (body : B) : Outgoing := mkOutgoing POST url (Encoded kind body).
Definition put {B} (url : string) (kind : BodyType B) (body : B) : Outgoing := mkOutgoing PUT url (Encoded kind body).
Definition patch {B} (url : string) (kind : BodyType B) (body : B) : Outgoing := mkOutgoing PATCH url (Encoded kind body).
Definition delete_empty (url : string) : Outgoing := mkOutgoing DELETE url NoPayload.

Definition jobs_path (namespace_id : Uuid) : string := API_ROOT ++ "/namespaces/" ++ uuid_to_string namespace_id ++ "/jobs".
Definition targets_path (namespace_id : Uuid) : string := API_ROOT ++ "/namespaces/" ++ uuid_to_string namespace_id ++ "/targets".

(** ** Calls *)

Definition overview : Outgoing := get (API_ROOT ++ "/overview").
Definition monitor : Outgoing := get (API_ROOT ++ "/monitor").
Definition list_namespaces : Outgoing := get (API_ROOT ++ "/namespaces?limit=100").
Definition create_namespace (name : string) : Outgoing :=
  post (API_ROOT ++ "/namespaces") BCreateNamespace (api.mkCreateNamespaceRequest name).
Definition list_queues : Outgoing := get (API_ROOT ++ "/queues?limit=100").
Definition delete_namespace (id : Uuid) : Outgoing := delete_empty (API_ROOT ++ "/namespaces/" ++ uuid_to_string id).
Definition create_queue (name : string) (description : option string) : Outgoing :=
  post (API_ROOT ++ "/queues") BCreateQueue (api.mkCreateQueueRequest name description).
Definition update_queue (id : Uuid) (name : string) (description : option string) (enabled : bool) : Outgoing :=
  put (API_ROOT ++ "/queues/" ++ uuid_to_string id) BUpdateQueue (api.mkUpdateQueueRequest name description enabled).
Definition delete_queue (id : Uuid) : Outgoing := delete_empty (API_ROOT ++ "/queues/" ++ uuid_to_string id).
Definition list_jobs (namespace_id : Uuid) : Outgoing := get (jobs_path namespace_id ++ "?limit=100").

Definition list_workflows (namespace_id : Uuid) (after : option string) : Outgoing :=
  let url := API_ROOT ++ "/namespaces/" ++ uuid_to_string namespace_id ++ "/workflows?limit=25" in
  get (match after with Some cursor => url ++ "&after=" ++ cursor | None => url end).
Definition get_workflow (id : Uuid) : Outgoing := get (API_ROOT ++ "/workflows/" ++ uuid_to_string id).
Definition create_workflow (namespace_id : Uuid) (request : api.CreateWorkflowRequest) : Outgoing :=
  post (API_ROOT ++ "/namespaces/" ++ uuid_to_string namespace_id ++ "/workflows") BCreateWorkflow request.
Definition update_workflow (id : Uuid) (request : api.UpdateWorkflowRequest) : Outgoing :=
  put (API_ROOT ++ "/workflows/" ++ uuid_to_string id) BUpdateWorkflow request.
Definition delete_workflow (id : Uuid) : Outgoing := delete_empty (API_ROOT ++ "/workflows/" ++ uuid_to_string id).
Definition create_workflow_run (id : Uuid) (request : api.StartWorkflowRequest) : Outgoing :=
  post (API_ROOT ++ "/workflows/" ++ uuid_to_string id ++ "/runs") BStartWorkflow request.
Definition list_workflow_runs (id : Uuid) (before : option Uuid) : Outgoing :=
  let url := API_ROOT ++ "/workflows/" ++ uuid_to_string id ++ "/runs?limit=25" in
  get (match before with Some cursor => url ++ "&before=" ++ uuid_to_string cursor | None => url end).
Definition get_workflow_run (id : Uuid) : Outgoing := get (API_ROOT ++ "/workflow-runs/" ++ uuid_to_string id).
Definition cancel_workflow_run (id : Uuid) : Outgoing :=
  mkOutgoing POST (API_ROOT ++ "/workflow-runs/" ++ uuid_to_string id ++ "/cancel") EmptyObject.

Definition get_job (id : Uuid) : Outgoing := get (API_ROOT ++ "/jobs/" ++ uuid_to_string id).
Definition create_job (namespace_id : Uuid) (request : api.CreateJobRequest) : Outgoing :=
  post (jobs_path namespace_id) BCreateJob request.
Definition update_job (id : Uuid) (request : api.UpdateJobRequest) : Outgoing :=
  put (API_ROOT ++ "/jobs/" ++ uuid_to_string id) BUpdateJob request.

Definition list_targets (namespace_id : Uuid) (after : option string) : Outgoing :=
  let base := targets_path namespace_id ++ "?limit=25" in
  get (match after with Some cursor => base ++ "&after=" ++ cursor | None => base end).
Definition get_target (id : Uuid) : Outgoing := get (API_ROOT ++ "/targets/" ++ uuid_to_string id).
Definition create_target (namespace_id : Uuid) (request : api.CreateTargetRequest) : Outgoing :=
  post (targets_path namespace_id) BCreateTarget request.
Definition update_target (id : Uuid) (request : api.UpdateTargetRequest) : Outgoing :=
  put (API_ROOT ++ "/targets/" ++ uuid_to_string id) BUpdateTarget request.
Definition delete_target (id : Uuid) : Outgoing := delete_empty (API_ROOT ++ "/targets/" ++ uuid_to_string id).

Definition list_target_sets (namespace_id : Uuid) : Outgoing :=
  get (API_ROOT ++ "/namespaces/" ++ uuid_to_string namespace_id ++ "/target-sets?limit=100").
Definition create_target_set (namespace_id : Uuid) (request : api.CreateTargetSetRequest) : Outgoing :=
  post (API_ROOT ++ "/namespaces/" ++ uuid_to_string namespace_id ++ "/target-sets") BCreateTargetSet request.
Definition update_target_set (id : Uuid) (request : api.UpdateTargetSetRequest) : Outgoing :=
  put (API_ROOT ++ "/target-sets/" ++ uuid_to_string id) BUpdateTargetSet request.

Definition list_schedules (namespace_id : Uuid) : Outgoing :=
  get (API_ROOT ++ "/namespaces/" ++ uuid_to_string namespace_id ++ "/schedules?limit=100").
Definition create_schedule (namespace_id : Uuid) (request : api.CreateScheduleRequest) : Outgoing :=
  post (API_ROOT ++ "/namespaces/" ++ uuid_to_string namespace_id ++ "/schedules") BCreateSchedule request.
Definition update_schedule (id : Uuid) (request : api.UpdateScheduleRequest) : Outgoing :=
  patch (API_ROOT ++ "/schedules/" ++ uuid_to_string id) BUpdateSchedule request.

Definition list_runs : Outgoing := get (API_ROOT ++ "/runs?limit=100").

Definition run_status_parameter (status : api.RunStatus) : string :=
  match status with
  | api.RS_PendingDispatch => "pending_dispatch"
  | api.RS_Queued => "queued"
  | api.RS_Running => "running"
  | api.RS_RetryWait => "retry_wait"
  | api.RS_Succeeded => "succeeded"
  | api.RS_Failed => "failed"
  | api.RS_Dead => "dead"
  | api.RS_Skipped => "skipped"
  | api.RS_Cancelled => "cancelled"
  | api.RS_Unknown => "unknown"
  end.

(** [write!(url, "&name={}", value)] when there is a value. *)
Definition with_parameter {A} (name : string) (show : A -> string) (value : option A) (url : string) : string :=
  match value with Some v => url ++ "&" ++ name ++ "=" ++ show v | None => url end.

Definition filtered_runs (namespace_id : option Uuid) (status : option api.RunStatus)
    (job_id target_id target_set_id before : option Uuid) : Outgoing :=
  let url := API_ROOT ++ "/runs?limit=50" in
  let url := with_parameter "namespace_id" uuid_to_string namespace_id url in
  let url := with_parameter "status" run_status_parameter status url in
  let url := with_parameter "job_id" uuid_to_string job_id url in
  let url := with_parameter "target_id" uuid_to_string target_id url in
  let url := with_parameter "target_set_id" uuid_to_string target_set_id url in
  let url := with_parameter "before" uuid_to_string before url in
  get url.

Definition get_run (run_id : Uuid) : Outgoing := get (API_ROOT ++ "/runs/" ++ uuid_to_string run_id).
Definition rerun_run (run_id request_id : Uuid) : Outgoing :=
  post (API_ROOT ++ "/runs/" ++ uuid_to_string run_id ++ "/rerun") BRerun (api.mkRerunRequest request_id).
Definition list_run_events (run_id : Uuid) : Outgoing := get (API_ROOT ++ "/runs/" ++ uuid_to_string run_id ++ "/events").
Definition list_run_attempts (run_id : Uuid) : Outgoing := get (API_ROOT ++ "/runs/" ++ uuid_to_string run_id ++ "/attempts").
Definition create_run (request_id job_id : Uuid) (target : api.ExecutionTarget) (inputs : value) : Outgoing :=
  post (API_ROOT ++ "/runs") BCreateRun (api.mkCreateRunRequest request_id job_id target inputs).
Definition list_workers : Outgoing := get (API_ROOT ++ "/workers?limit=100").
Definition get_worker (worker_id : string) : Outgoing := get (API_ROOT ++ "/workers/" ++ worker_id).

(** ** Collections *)

(** The URL of a page of [get_all]. *)
Definition page_url (base_url : string) (after : option string) : string :=
  let separator := if contains "?" base_url then "&" else "?" in
  match after with
  | None => base_url ++ separator ++ "limit=100"
  | Some cursor => base_url ++ separator ++ "limit=100&after=" ++ cursor
  end.

(** The loop of [get_all]; [fetch n] is the answer to its [n]th request. *)
Fixpoint get_pages {T} (pages : nat) (fetch : nat -> Outgoing -> result (api.Page T) ClientError) (base_url : string) (n : nat)
    (after : option string) (items : list T) : result (list T) ClientError :=
  match pages with
  | O => Err (client_error "Crono API returned more collection pages than the browser will load")
  | S pages =>
      let? page := fetch n (get (page_url base_url after)) in
      let items := (items ++ api.pg_items page)%list in
      match api.pg_next_cursor page with
      | None => Ok items
      | Some cursor => get_pages pages fetch base_url (S n) (Some cursor) items
      end
  end.

Definition get_all {T} (fetch : nat -> Outgoing -> result (api.Page T) ClientError) (base_url : string) : result (list T) ClientError :=
  get_pages MAX_COLLECTION_PAGES fetch base_url 0 None [].

Definition namespaces_url : string := API_ROOT ++ "/namespaces".
Definition queues_url : string := API_ROOT ++ "/queues".
Definition target_sets_url (namespace_id : Uuid) : string := API_ROOT ++ "/namespaces/" ++ uuid_to_string namespace_id ++ "/target-sets".

Definition all_namespaces fetch : result (list api.NamespaceResource) ClientError := get_all fetch namespaces_url.
Definition all_queues fetch : result (list api.QueueResource) ClientError := get_all fetch queues_url.
Definition all_jobs fetch (namespace_id : Uuid) : result (list api.JobResource) ClientError := get_all fetch (jobs_path namespace_id).
Definition all_targets fetch (namespace_id : Uuid) : result (list api.TargetResource) ClientError := get_all fetch (targets_path namespace_id).
Definition all_target_sets fetch (namespace_id : Uuid) : result (list api.TargetSetResource) ClientError :=
  get_all fetch (target_sets_url namespace_id).

(** ** Credentials *)

(** What the browser has: a window or none; its session storage or an error;
    the storage may be absent; the item, or an error. *)
Definition Window : Type := option (result (option (result (option string) unit)) unit).

Section Browser.
(** [Headers::new] succeeds; [Headers::set] accepts the value of the header Authorization. *)
Variable headers_new : bool.
Variable settable : string -> bool.

Definition with_bearer (token : option string) : result HeaderMap ClientError :=
  if negb headers_new then Err (client_error "Could not prepare API headers")
  else match token with
  | None => Ok []
  | Some token =>
      if settable ("Bearer " ++ token) then Ok [("authorization", "Bearer " ++ token)]
      else Err (client_error "The API credential cannot be used as a header")
  end.

Definition authenticated (window : Window) : result HeaderMap ClientError :=
  let? storage := ok_or window (client_error "Browser session storage is unavailable") in
  let? storage := map_err (fun _ => client_error "Browser session storage is unavailable") storage in
  let? token := match storage with
    | None => Ok None
    | Some item => map_err (fun _ => client_error "Could not read the API credential") item
    end in
  with_bearer token.

(** [serde_json::to_string] of a payload, when it can be encoded. *)
Variable encode : Payload -> result string string.

(** The request the browser puts on the wire: [json] sets the media type. *)
Definition transmitted (window : Window) (outgoing : Outgoing) : result Request ClientError :=
  let? headers := authenticated window in
  let '(path, query) := default (og_url outgoing, "") (split_once "?" (og_url outgoing)) in
  match og_payload outgoing with
  | NoPayload => Ok (mkRequest (og_method outgoing) path query headers "")
  | payload =>
      let? text := map_err (fun error => client_error ("Could not encode the request: " ++ error)) (encode payload) in
      Ok (mkRequest (og_method outgoing) path query (headers ++ [("content-type", "application/json")])%list text)
  end.

End Browser.

(** ** Answers *)

Definition response_ok (response : Response) : bool := (200 <=? rs_status response) && (rs_status response <=? 299).

Definition decode_error (response : Response) : ClientError :=
  match rs_body response with
  | JError envelope =>
      let error := api.ee_error envelope in
      mkClientError (api.eb_code error) (api.eb_message error) (api.eb_field error)
  | _ => client_error ("Crono API request failed with HTTP " ++ pretty (rs_status response))
  end.

(** The awaited [send]: an answer, or the browser's error. *)
Definition sent {T} (decode : Response -> result T ClientError) (answer : result Response string) : result T ClientError :=
  let? response := map_err (fun error => client_error ("Crono API is unreachable: " ++ error)) answer in
  decode response.

(** [read] is serde's decoding of the body at the type of the call. *)
Definition decode {T} (read : Body -> result T string) (response : Response) : result T ClientError :=
  if response_ok response
  then map_err (fun error => client_error ("Crono API returned invalid JSON: " ++ error)) (read (rs_body response))
  else Err (decode_error response).

Definition decode_empty (response : Response) : result unit ClientError :=
  if response_ok response then Ok () else Err (decode_error response).

End client.
