(* ===== verification/WebRoutes.v ===== *)
(** * The browser's calls at the server's routes

    Every call of the client (apps/web/src/api.rs) reaches the handler it
    means, with the arguments it was given: the verbs, paths, query strings
    and bodies of the two programs agree.  What is assumed of axum's router
    and decoders and of serde is the class [ApiCodec]. *)

From S2P Require Import Prelude RustStr Json Inputs Names Text Float Domain Auth Recurrence Workflow Db Snapshot Store WorkflowStore Catalog Queries Validation Application ApplicationSystem Futures ApiTypes Authentication Web Resources Handlers Api WebClient.
From Stdlib Require Import Ascii String.
From stdpp Require Import base numbers strings list sets pretty.

Local Open Scope string_scope.
Local Open Scope Z_scope.

(** ** Paths *)

Definition segments (path : string) : list string := split_on "/" path.

Definition is_parameter (segment : string) : bool := String.prefix "{" segment.

(** A template and a path, segment by segment; a parameter takes one non-empty segment. *)
Fixpoint match_segments (template path : list string) : option (list string) :=
  match template, path with
  | [], [] => Some []
  | t :: template, p :: path =>
      if is_parameter t then
        if (p =? "")%string then None else captures ← match_segments template path; Some (p :: captures)
      else if (t =? p)%string then match_segments template path else None
  | _, _ => None
  end.

(** The registered templates that match the segments of a path. *)
Definition matching (registered : list string) (path : list string) : list (string * list string) :=
  omap (fun template => captures ← match_segments (segments template) path; Some (template, captures)) registered.

(** ** Query strings *)

Fixpoint query_text (pairs : list (string * string)) : string :=
  match pairs with
  | [] => ""
  | [(name, value)] => name ++ "=" ++ value
  | (name, value) :: pairs => name ++ "=" ++ value ++ "&" ++ query_text pairs
  end.

Definition pair_of {A} (name : string) (show : A -> string) (o : option A) : list (string * string) :=
  match o with Some v => [(name, show v)] | None => [] end.

(** [RunStatus] as serde names it ([rename_all = "snake_case"]). *)
Definition status_name (status : api.RunStatus) : string :=
  match status with
  | api.RS_PendingDispatch => "pending_dispatch"
  | api.RS_Queued => "queued"
  | api.RS_Running => "running"
  | api.RS_RetryWait => "retry_wait"
  | api.RS_Succeeded => "succeeded"
  | api.RS_Failed => "failed"
  | api.RS_Dead => "dead"
  | api.RS_Skipped => "skipped"
  | api.RS_Cancelled => "cancelled"
  | api.RS_Unknown => "unknown"
  end.

(** The fields of the queries, the absent ones left out. *)
Definition page_pairs (q : PageQuery) : list (string * string) :=
  (pair_of "limit" pretty (pq_limit q) ++ pair_of "after" id (pq_after q))%list.
Definition run_pairs (q : RunPageQuery) : list (string * string) :=
  (pair_of "limit" pretty (rp_limit q) ++ pair_of "namespace_id" uuid_to_string (rp_namespace_id q)
   ++ pair_of "status" status_name (rp_status q) ++ pair_of "job_id" uuid_to_string (rp_job_id q)
   ++ pair_of "target_id" uuid_to_string (rp_target_id q) ++ pair_of "target_set_id" uuid_to_string (rp_target_set_id q)
   ++ pair_of "before" uuid_to_string (rp_before q))%list.
Definition workflow_run_pairs (q : WorkflowRunQuery) : list (string * string) :=
  (pair_of "limit" pretty (wq_limit q) ++ pair_of "before" uuid_to_string (wq_before q))%list.

Definition is_uuid (u : Uuid) : Prop := (u < 2 ^ 128)%N.
Definition are_uuids (l : list (option Uuid)) : Prop := forall u, Some u ∈ l -> is_uuid u.
(** The page sizes the browser asks for. *)
Definition page_size (limit : option Z) : Prop := limit = Some 25 \/ limit = Some 50 \/ limit = Some 100.

Definition is_cursor (after : option string) : Prop := match after with Some name => canonical_label name = true | None => True end.

(** A path that one template matches is routed to it; a UUID's text and a label
    are decoded as themselves; a query string of plain values is decoded at the
    fields it names. *)
Class ApiCodec `{Axum} : Prop := {
  matched_unique registered path template captures :
    matching registered (segments path) = [(template, captures)] -> matched_path registered path = Some (template, captures);
  path_uuid_text id : is_uuid id -> path_uuid [uuid_to_string id] = Ok id;
  path_string_label name : canonical_label name = true -> path_string [name] = Ok name;
  page_query_text q : page_size (pq_limit q) -> is_cursor (pq_after q) -> query_string QPage (query_text (page_pairs q)) = Ok q;
  run_query_text q : page_size (rp_limit q) ->
    are_uuids [rp_before q; rp_namespace_id q; rp_job_id q; rp_target_id q; rp_target_set_id q] ->
    query_string QRunPage (query_text (run_pairs q)) = Ok q;
  workflow_run_query_text q : page_size (wq_limit q) -> are_uuids [wq_before q] ->
    query_string QWorkflowRun (query_text (workflow_run_pairs q)) = Ok q;
}.

(** ** The calls *)

(** The collections that are read page by page. *)
Inductive Collection : Type := AllNamespaces | AllQueues | AllJobs (ns : Uuid) | AllTargets (ns : Uuid) | AllTargetSets (ns : Uuid).

Definition collection_url (c : Collection) : string :=
  match c with
  | AllNamespaces => client.namespaces_url
  | AllQueues => client.queues_url
  | AllJobs ns => client.jobs_path ns
  | AllTargets ns => client.targets_path ns
  | AllTargetSets ns => client.target_sets_url ns
  end.

Inductive ClientCall : Type :=
| COverview | CMonitor
| CListNamespaces | CCreateNamespace (name : string) | CDeleteNamespace (id : Uuid)
| CListQueues | CCreateQueue (name : string) (description : option string)
| CUpdateQueue (id : Uuid) (name : string) (description : option string) (enabled : bool) | CDeleteQueue (id : Uuid)
| CListJobs (ns : Uuid) | CGetJob (id : Uuid) | CCreateJob (ns : Uuid) (request : api.CreateJobRequest)
| CUpdateJob (id : Uuid) (request : api.UpdateJobRequest)
| CListWorkflows (ns : Uuid) (after : option string) | CGetWorkflow (id : Uuid)
| CCreateWorkflow (ns : Uuid) (request : api.CreateWorkflowRequest)
| CUpdateWorkflow (id : Uuid) (request : api.UpdateWorkflowRequest) | CDeleteWorkflow (id : Uuid)
| CCreateWorkflowRun (id : Uuid) (request : api.StartWorkflowRequest) | CListWorkflowRuns (id : Uuid) (before : option Uuid)
| CGetWorkflowRun (id : Uuid) | CCancelWorkflowRun (id : Uuid)
| CListTargets (ns : Uuid) (after : option string) | CGetTarget (id : Uuid)
| CCreateTarget (ns : Uuid) (request : api.CreateTargetRequest)
| CUpdateTarget (id : Uuid) (request : api.UpdateTargetRequest) | CDeleteTarget (id : Uuid)
| CListTargetSets (ns : Uuid) | CCreateTargetSet (ns : Uuid) (request : api.CreateTargetSetRequest)
| CUpdateTargetSet (id : Uuid) (request : api.UpdateTargetSetRequest)
| CListSchedules (ns : Uuid) | CCreateSchedule (ns : Uuid) (request : api.CreateScheduleRequest)
| CUpdateSchedule (id : Uuid) (request : api.UpdateScheduleRequest)
| CListRuns
| CFilteredRuns (namespace_id : option Uuid) (status : option api.RunStatus) (job_id target_id target_set_id before : option Uuid)
| CGetRun (id : Uuid) | CRerunRun (id request_id : Uuid) | CListRunEvents (id : Uuid) | CListRunAttempts (id : Uuid)
| CCreateRun (request_id job_id : Uuid) (target : api.ExecutionTarget) (inputs : value)
| CListWorkers | CGetWorker (id : string)
| CPage (c : Collection) (after : option string).

Definition outgoing (call : ClientCall) : Outgoing :=
  match call with
  | COverview => client.overview
  | CMonitor => client.monitor
  | CListNamespaces => client.list_namespaces
  | CCreateNamespace name => client.create_namespace name
  | CDeleteNamespace id => client.delete_namespace id
  | CListQueues => client.list_queues
  | CCreateQueue name description => client.create_queue name description
  | CUpdateQueue id name description enabled => client.update_queue id name description enabled
  | CDeleteQueue id => client.delete_queue id
  | CListJobs ns => client.list_jobs ns
  | CGetJob id => client.get_job id
  | CCreateJob ns request => client.create_job ns request
  | CUpdateJob id request => client.update_job id request
  | CListWorkflows ns after => client.list_workflows ns after
  | CGetWorkflow id => client.get_workflow id
  | CCreateWorkflow ns request => client.create_workflow ns request
  | CUpdateWorkflow id request => client.update_workflow id request
  | CDeleteWorkflow id => client.delete_workflow id
  | CCreateWorkflowRun id request => client.create_workflow_run id request
  | CListWorkflowRuns id before => client.list_workflow_runs id before
  | CGetWorkflowRun id => client.get_workflow_run id
  | CCancelWorkflowRun id => client.cancel_workflow_run id
  | CListTargets ns after => client.list_targets ns after
  | CGetTarget id => client.get_target id
  | CCreateTarget ns request => client.create_target ns request
  | CUpdateTarget id request => client.update_target id request
  | CDeleteTarget id => client.delete_target id
  | CListTargetSets ns => client.list_target_sets ns
  | CCreateTargetSet ns request => client.create_target_set ns request
  | CUpdateTargetSet id request => client.update_target_set id request
  | CListSchedules ns => client.list_schedules ns
  | CCreateSchedule ns request => client.create_schedule ns request
  | CUpdateSchedule id request => client.update_schedule id request
  | CListRuns => client.list_runs
  | CFilteredRuns ns status job target set before => client.filtered_runs ns status job target set before
  | CGetRun id => client.get_run id
  | CRerunRun id request_id => client.rerun_run id request_id
  | CListRunEvents id => client.list_run_events id
  | CListRunAttempts id => client.list_run_attempts id
  | CCreateRun request_id job_id target inputs => client.create_run request_id job_id target inputs
  | CListWorkers => client.list_workers
  | CGetWorker id => client.get_worker id
  | CPage c after => client.get (client.page_url (collection_url c) after)
  end.

(** The identifiers and cursors a call carries are of their types. *)
Definition call_typed (call : ClientCall) : Prop :=
  match call with
  | CDeleteNamespace id | CUpdateQueue id _ _ _ | CDeleteQueue id | CListJobs id | CGetJob id | CCreateJob id _ | CUpdateJob id _
  | CGetWorkflow id | CCreateWorkflow id _ | CUpdateWorkflow id _ | CDeleteWorkflow id | CCreateWorkflowRun id _
  | CGetWorkflowRun id | CCancelWorkflowRun id | CGetTarget id | CCreateTarget id _ | CUpdateTarget id _ | CDeleteTarget id
  | CListTargetSets id | CCreateTargetSet id _ | CUpdateTargetSet id _ | CListSchedules id | CCreateSchedule id _ | CUpdateSchedule id _
  | CGetRun id | CRerunRun id _ | CListRunEvents id | CListRunAttempts id => is_uuid id
  | CListWorkflows ns after | CListTargets ns after => is_uuid ns /\ is_cursor after
  | CListWorkflowRuns id before => is_uuid id /\ are_uuids [before]
  | CFilteredRuns ns _ job target set before => are_uuids [before; ns; job; target; set]
  | CGetWorker id => canonical_label id = true
  | CPage (AllJobs ns | AllTargets ns | AllTargetSets ns) after => is_uuid ns /\ is_cursor after
  | CPage _ after => is_cursor after
  | _ => True
  end.

(** ** The shape of the URLs *)

(** A path of segments, and its query string. *)
Fixpoint path_of (segs : list string) : string :=
  match segs with
  | [] => ""
  | s :: segs => "/" ++ s ++ path_of segs
  end.

Definition url_of (segs : list string) (pairs : list (string * string)) : string :=
  path_of segs ++ match pairs with [] => "" | _ => "?" ++ query_text pairs end.

Definition shape (call : ClientCall) : list string * list (string * string) :=
  let at_ns ns x := ["api"; "namespaces"; uuid_to_string ns; x] in
  let at_id x id := ["api"; x; uuid_to_string id] in
  let under x id y := ["api"; x; uuid_to_string id; y] in
  match call with
  | COverview => (["api"; "overview"], [])
  | CMonitor => (["api"; "monitor"], [])
  | CListNamespaces => (["api"; "namespaces"], page_pairs (mkPageQuery (Some 100) None))
  | CCreateNamespace _ => (["api"; "namespaces"], [])
  | CDeleteNamespace id => (at_id "namespaces" id, [])
  | CListQueues => (["api"; "queues"], page_pairs (mkPageQuery (Some 100) None))
  | CCreateQueue _ _ => (["api"; "queues"], [])
  | CUpdateQueue id _ _ _ | CDeleteQueue id => (at_id "queues" id, [])
  | CListJobs ns => (at_ns ns "jobs", page_pairs (mkPageQuery (Some 100) None))
  | CGetJob id | CUpdateJob id _ => (at_id "jobs" id, [])
  | CCreateJob ns _ => (at_ns ns "jobs", [])
  | CListWorkflows ns after => (at_ns ns "workflows", page_pairs (mkPageQuery (Some 25) after))
  | CGetWorkflow id | CUpdateWorkflow id _ | CDeleteWorkflow id => (at_id "workflows" id, [])
  | CCreateWorkflow ns _ => (at_ns ns "workflows", [])
  | CCreateWorkflowRun id _ => (under "workflows" id "runs", [])
  | CListWorkflowRuns id before => (under "workflows" id "runs", workflow_run_pairs (mkWorkflowRunQuery (Some 25) before))
  | CGetWorkflowRun id => (at_id "workflow-runs" id, [])
  | CCancelWorkflowRun id => (under "workflow-runs" id "cancel", [])
  | CListTargets ns after => (at_ns ns "targets", page_pairs (mkPageQuery (Some 25) after))
  | CGetTarget id | CUpdateTarget id _ | CDeleteTarget id => (at_id "targets" id, [])
  | CCreateTarget ns _ => (at_ns ns "targets", [])
  | CListTargetSets ns => (at_ns ns "target-sets", page_pairs (mkPageQuery (Some 100) None))
  | CCreateTargetSet ns _ => (at_ns ns "target-sets", [])
  | CUpdateTargetSet id _ => (at_id "target-sets" id, [])
  | CListSchedules ns => (at_ns ns "schedules", page_pairs (mkPageQuery (Some 100) None))
  | CCreateSchedule ns _ => (at_ns ns "schedules", [])
  | CUpdateSchedule id _ => (at_id "schedules" id, [])
  | CListRuns => (["api"; "runs"], run_pairs (mkRunPageQuery (Some 100) None None None None None None))
  | CFilteredRuns ns status job target set before =>
      (["api"; "runs"], run_pairs (mkRunPageQuery (Some 50) before ns status job target set))
  | CGetRun id => (at_id "runs" id, [])
  | CRerunRun id _ => (under "runs" id "rerun", [])
  | CListRunEvents id => (under "runs" id "events", [])
  | CListRunAttempts id => (under "runs" id "attempts", [])
  | CCreateRun _ _ _ _ => (["api"; "runs"], [])
  | CListWorkers => (["api"; "workers"], page_pairs (mkPageQuery (Some 100) None))
  | CGetWorker id => (["api"; "workers"; id], [])
  | CPage c after =>
      (match c with
       | AllNamespaces => ["api"; "namespaces"]
       | AllQueues => ["api"; "queues"]
       | AllJobs ns => at_ns ns "jobs"
       | AllTargets ns => at_ns ns "targets"
       | AllTargetSets ns => at_ns ns "target-sets"
       end, page_pairs (mkPageQuery (Some 100) after))
  end.

Lemma query_text_cons name value pair pairs :
  query_text ((name, value) :: pair :: pairs) = name ++ "=" ++ value ++ "&" ++ query_text (pair :: pairs).
Proof. done. Qed.

Lemma query_text_snoc pairs name value :
  pairs <> [] -> query_text (pairs ++ [(name, value)]) = query_text pairs ++ "&" ++ name ++ "=" ++ value.
Proof.
  induction pairs as [|[n v] pairs IH]; [done|]. intros _. destruct pairs as [|p pairs].
  - cbn [app query_text]. by rewrite <- !string_app_assoc.
  - change (((n, v) :: p :: pairs) ++ [(name, value)])%list with ((n, v) :: p :: (pairs ++ [(name, value)]))%list.
    rewrite !query_text_cons. change (p :: (pairs ++ [(name, value)]))%list with ((p :: pairs) ++ [(name, value)])%list.
    rewrite IH by done. by rewrite <- !string_app_assoc.
Qed.

Lemma with_parameter_text {A} name (show : A -> string) o base pairs :
  pairs <> [] -> client.with_parameter name show o (base ++ query_text pairs) = base ++ query_text (pairs ++ pair_of name show o).
Proof.
  intros Hp. destruct o as [v|]; cbn [client.with_parameter pair_of]; [|by rewrite app_nil_r].
  by rewrite query_text_snoc, <- !string_app_assoc.
Qed.

Lemma status_parameter status : client.run_status_parameter status = status_name status.
Proof. by destruct status. Qed.

Lemma filtered_url ns status job target set before :
  og_url (client.filtered_runs ns status job target set before)
  = "/api/runs?" ++ query_text (run_pairs (mkRunPageQuery (Some 50) before ns status job target set)).
Proof.
  unfold client.filtered_runs, client.get, run_pairs. cbn [og_url rp_limit rp_namespace_id rp_status rp_job_id rp_target_id rp_target_set_id rp_before].
  change (client.API_ROOT ++ "/runs?limit=50") with ("/api/runs?" ++ query_text (pair_of "limit" pretty (Some 50))).
  replace (client.with_parameter "status" client.run_status_parameter status)
    with (client.with_parameter "status" status_name status) by (destruct status as [s|]; [by destruct s|done]).
  rewrite !with_parameter_text by (destruct_and?; repeat (destruct ns || destruct status || destruct job || destruct target || destruct set); done).
  by rewrite <- !app_assoc.
Qed.

(** A segment: neither a separator nor the start of a query. *)
Definition plain_segment (s : string) : Prop := contains_byte "/" s = false /\ contains_byte "?" s = false.

Lemma uuid_segment u : plain_segment (uuid_to_string u).
Proof. split; by apply uuid_free. Qed.

Lemma label_segment s : canonical_label s = true -> plain_segment s.
Proof. intros H. split; by apply canonical_without. Qed.

Lemma path_plain segs : Forall plain_segment segs -> contains_byte "?" (path_of segs) = false.
Proof.
  induction 1 as [|s segs [_ Hs] _ IH]; [done|]. cbn [path_of]. by rewrite !contains_byte_app, Hs, IH.
Qed.

Lemma page_url_text segs after :
  Forall plain_segment segs ->
  client.page_url (path_of segs) after = url_of segs (page_pairs (mkPageQuery (Some 100) after)).
Proof.
  intros H%path_plain. unfold client.page_url, contains. rewrite split_once_absent by done. by destruct after.
Qed.

Lemma collection_path c : collection_url c = path_of (shape (CPage c None)).1 /\ Forall plain_segment (shape (CPage c None)).1.
Proof.
  destruct c; (split; [lazy -[uuid_to_string]; reflexivity|]); cbn [shape fst];
    repeat (constructor; [first [by apply uuid_segment | by split]|]); constructor.
Qed.

(** The URL of every call. *)
Lemma outgoing_url call : og_url (outgoing call) = url_of (shape call).1 (shape call).2.
Proof.
  destruct call as [| | | | | | | | | | | | |ns [c|]|id|ns request|id request|id|id request|id [b|]|id|id|ns [c|]|id|ns request|id request|id|ns
    |ns request|id request|ns|ns request|id request| |ns status job target set before|id|id rid|id|id|rid jid target inputs| |id
    |[| |ns|ns|ns] [c|]]; cbn [outgoing shape fst snd].
  all: try (lazy -[uuid_to_string]; reflexivity).
  all: first [rewrite filtered_url; reflexivity | unfold url_of; cbn [path_of]; rewrite !string_app_nil_r; reflexivity
    | match goal with |- og_url (client.get (client.page_url (collection_url ?c) _)) = _ =>
        destruct (collection_path c) as [-> H]; by apply page_url_text end].
Qed.

Lemma split_path segs : Forall plain_segment segs -> split_on "/" (path_of segs) = match segs with [] => [""] | _ => "" :: segs end.
Proof.
  induction 1 as [|s segs [Hs _] Hall IH]; [done|]. cbn [path_of].
  change ("/" ++ s ++ path_of segs) with ("" ++ String "/" (s ++ path_of segs)). rewrite split_on_sep by done. f_equal.
  destruct Hall as [|s' segs Hs' Hall].
  - cbn [path_of]. rewrite string_app_nil_r. by apply split_on_last.
  - cbn [path_of] in *. change ("/" ++ s' ++ path_of segs) with (String "/" (s' ++ path_of segs)) in *.
    rewrite split_on_sep by done. f_equal.
    change (String "/" (s' ++ path_of segs)) with ("" ++ String "/" (s' ++ path_of segs)) in IH.
    rewrite split_on_sep in IH by done. by injection IH.
Qed.

Lemma url_parts segs pairs :
  Forall plain_segment segs ->
  default (url_of segs pairs, "") (split_once "?" (url_of segs pairs)) = (path_of segs, query_text pairs).
Proof.
  intros H%path_plain. unfold url_of. destruct pairs as [|p pairs].
  - rewrite string_app_nil_r, split_once_absent by done. done.
  - change ("?" ++ query_text (p :: pairs)) with (String "?" (query_text (p :: pairs))). by rewrite split_once_byte.
Qed.

Lemma shape_plain call : call_typed call -> Forall plain_segment (shape call).1.
Proof.
  intros Ht. destruct call; try destruct c; cbn [shape fst];
    repeat (constructor; [first [by apply uuid_segment | by apply label_segment | by split]|]); constructor.
Qed.

(** ** Collections *)

(** The pages a collection was read in: each asked for with the cursor of the one before, the last without a cursor. *)
Fixpoint page_chain {T} (fetch : nat -> Outgoing -> result (api.Page T) ClientError) (base_url : string) (n : nat)
    (after : option string) (pages : list (api.Page T)) : Prop :=
  match pages with
  | [] => False
  | page :: pages =>
      fetch n (client.get (client.page_url base_url after)) = Ok page
      /\ match pages with
         | [] => api.pg_next_cursor page = None
         | _ => exists cursor, api.pg_next_cursor page = Some cursor /\ page_chain fetch base_url (S n) (Some cursor) pages
         end
  end.

Lemma get_pages_spec {T} fetch base_url left : forall n after (items result : list T),
  client.get_pages left fetch base_url n after items = Ok result <->
  exists pages, (length pages <= left)%nat /\ page_chain fetch base_url n after pages
    /\ result = (items ++ concat (map api.pg_items pages))%list.
Proof.
  induction left as [|left IH]; intros n after items result; cbn [client.get_pages].
  - split; [done|]. intros (pages & Hl & Hc & _). destruct pages; [done|]. cbn in Hl. lia.
  - destruct (fetch n _) as [page|e] eqn:Hf; cbn [result_bind].
    2:{ split; [done|]. intros ([|p pages] & _ & Hc & _); [done|]. destruct Hc as [Hp _]. congruence. }
    destruct (api.pg_next_cursor page) as [cursor|] eqn:Hn.
    + rewrite IH. split.
      * intros (pages & Hl & Hc & ->). exists (page :: pages). cbn. split; [lia|]. split; [|by rewrite app_assoc].
        split; [done|]. destruct pages; [done|]. by exists cursor.
      * intros ([|p pages] & Hl & Hc & ->); [done|]. destruct Hc as [Hp Hc]. assert (p = page) as -> by congruence.
        destruct pages as [|p' pages]; [congruence|]. destruct Hc as (c & Hc' & Hc). assert (c = cursor) as -> by congruence.
        exists (p' :: pages). split; [cbn in *; lia|]. split; [done|]. cbn. by rewrite <- app_assoc.
    + split.
      * intros [= <-]. exists [page]. split; [cbn; lia|]. split; [done|]. cbn. by rewrite app_nil_r.
      * intros ([|p pages] & Hl & Hc & ->); [done|]. destruct Hc as [Hp Hc]. assert (p = page) as -> by congruence.
        destruct pages as [|p' pages]; [cbn; by rewrite app_nil_r|]. destruct Hc as (c & Hc' & _). congruence.
Qed.

(** A collection is read completely, in at most a hundred pages, or refused. *)
Theorem get_all_complete {T} fetch base_url (items : list T) :
  client.get_all fetch base_url = Ok items <->
  exists pages, (length pages <= 100)%nat /\ page_chain fetch base_url 0 None pages /\ items = concat (map api.pg_items pages).
Proof. unfold client.get_all. by rewrite get_pages_spec. Qed.

(** ** The handlers the calls mean *)

Section Served.
Context {SJ : SerdeJson} {RF : RustFmt} {CC : CronCrates} {RC : Rfc3339} {BI : Build} {HV : HeaderValues} {AX : Axum}.

Definition first_page (limit : Z) : PageQuery := mkPageQuery (Some limit) None.

Definition served (call : ClientCall) (context : RequestContext) : future HttpCall Response :=
  match call with
  | COverview => respond (ok JOverview) (Handlers.overview context)
  | CMonitor => respond (ok JMonitor) (Handlers.monitor context)
  | CListNamespaces => respond (ok JNamespaces) (Handlers.list_namespaces context (first_page 100))
  | CCreateNamespace name => respond (with_status JNamespace) (Handlers.create_namespace context (api.mkCreateNamespaceRequest name))
  | CDeleteNamespace id => respond status_response (Handlers.delete_namespace context id)
  | CListQueues => respond (ok JQueues) (Handlers.list_queues context (first_page 100))
  | CCreateQueue name description => respond (with_status JQueue) (Handlers.create_queue context (api.mkCreateQueueRequest name description))
  | CUpdateQueue id name description enabled =>
      respond (ok JQueue) (Handlers.update_queue context id (api.mkUpdateQueueRequest name description enabled))
  | CDeleteQueue id => respond status_response (Handlers.delete_queue context id)
  | CListJobs ns => respond (ok JJobs) (Handlers.list_jobs context ns (first_page 100))
  | CGetJob id => respond (ok JJob) (Handlers.get_job context id)
  | CCreateJob ns request => respond (with_status JJob) (Handlers.create_job context ns request)
  | CUpdateJob id request => respond (ok JJob) (Handlers.update_job context id request)
  | CListWorkflows ns after => respond (ok JWorkflows) (Handlers.list_workflows context ns (mkPageQuery (Some 25) after))
  | CGetWorkflow id => respond (ok JWorkflow) (Handlers.get_workflow context id)
  | CCreateWorkflow ns request => respond (with_status JWorkflow) (Handlers.create_workflow context ns request)
  | CUpdateWorkflow id request => respond (ok JWorkflow) (Handlers.update_workflow context id request)
  | CDeleteWorkflow id => respond status_response (Handlers.delete_workflow context id)
  | CCreateWorkflowRun id request => respond (with_status JWorkflowRun) (Handlers.start_workflow context id request)
  | CListWorkflowRuns id before => respond (ok JWorkflowRuns) (Handlers.list_workflow_runs context id (mkWorkflowRunQuery (Some 25) before))
  | CGetWorkflowRun id => respond (ok JWorkflowRun) (Handlers.get_workflow_run context id)
  | CCancelWorkflowRun id => respond (ok JWorkflowRun) (Handlers.cancel_workflow_run context id)
  | CListTargets ns after => respond (ok JTargets) (Handlers.list_targets context ns (mkPageQuery (Some 25) after))
  | CGetTarget id => respond (ok JTarget) (Handlers.get_target context id)
  | CCreateTarget ns request => respond (with_status JTarget) (Handlers.create_target context ns request)
  | CUpdateTarget id request => respond (ok JTarget) (Handlers.update_target context id request)
  | CDeleteTarget id => respond status_response (Handlers.delete_target context id)
  | CListTargetSets ns => respond (ok JTargetSets) (Handlers.list_target_sets context ns (first_page 100))
  | CCreateTargetSet ns request => respond (with_status JTargetSet) (Handlers.create_target_set context ns request)
  | CUpdateTargetSet id request => respond (ok JTargetSet) (Handlers.update_target_set context id request)
  | CListSchedules ns => respond (ok JSchedules) (Handlers.list_schedules context ns (first_page 100))
  | CCreateSchedule ns request => respond (with_status JSchedule) (Handlers.create_schedule context ns request)
  | CUpdateSchedule id request => respond (ok JSchedule) (Handlers.update_schedule context id request)
  | CListRuns => respond (ok JRuns) (Handlers.list_runs context (mkRunPageQuery (Some 100) None None None None None None))
  | CFilteredRuns ns status job target set before =>
      respond (ok JRuns) (Handlers.list_runs context (mkRunPageQuery (Some 50) before ns status job target set))
  | CGetRun id => respond (ok JRun) (Handlers.get_run context id)
  | CRerunRun id request_id => respond (with_status JRun) (Handlers.rerun_run context id (api.mkRerunRequest request_id))
  | CListRunEvents id => respond (ok JRunEvents) (Handlers.list_run_events context id)
  | CListRunAttempts id => respond (ok JRunAttempts) (Handlers.list_run_attempts context id)
  | CCreateRun request_id job_id target inputs =>
      respond (with_status JRunBatch) (Handlers.create_run context (api.mkCreateRunRequest request_id job_id target inputs))
  | CListWorkers => respond (ok JWorkers) (Handlers.list_workers context (first_page 100))
  | CGetWorker id => respond (ok JWorker) (Handlers.get_worker context id)
  | CPage AllNamespaces after => respond (ok JNamespaces) (Handlers.list_namespaces context (mkPageQuery (Some 100) after))
  | CPage AllQueues after => respond (ok JQueues) (Handlers.list_queues context (mkPageQuery (Some 100) after))
  | CPage (AllJobs ns) after => respond (ok JJobs) (Handlers.list_jobs context ns (mkPageQuery (Some 100) after))
  | CPage (AllTargets ns) after => respond (ok JTargets) (Handlers.list_targets context ns (mkPageQuery (Some 100) after))
  | CPage (AllTargetSets ns) after => respond (ok JTargetSets) (Handlers.list_target_sets context ns (mkPageQuery (Some 100) after))
  end.

Context {CD : ApiCodec}.

(** The body that was encoded is decoded at the type it was encoded at. *)
Definition payload_decodes (call : ClientCall) (request : Request) : Prop :=
  match og_payload (outgoing call) with
  | Encoded kind body => json_body kind request = Ok body
  | _ => True
  end.

Lemma dispatch_route request context template captures endpoint :
  matching (map fst api_router) (segments (rq_path request)) = [(template, captures)] ->
  (endpoints ← endpoints_of template api_router; method_endpoint (rq_method request) endpoints) = Some endpoint ->
  dispatch request context = endpoint request context captures.
Proof.
  intros Hm He. unfold dispatch. rewrite (matched_unique _ _ _ _ Hm).
  destruct (endpoints_of template api_router); [|done]. cbn in He. by rewrite He.
Qed.

(** The endpoints once their arguments decode. *)
Lemma at_id {A} (f : A -> Response) h request context id : is_uuid id ->
  on_id f h request (Some context) [uuid_to_string id] = respond f (h context id).
Proof. intros H. unfold on_id, ApiPath. by rewrite path_uuid_text. Qed.

Lemma at_name {A} (f : A -> Response) h request context name : canonical_label name = true ->
  on_name f h request (Some context) [name] = respond f (h context name).
Proof. intros H. unfold on_name, ApiPathString. by rewrite path_string_label. Qed.

Lemma at_query {Q A} (kind : QueryType Q) (f : A -> Response) h request context captures q :
  query_string kind (rq_query request) = Ok q -> on_query kind f h request (Some context) captures = respond f (h context q).
Proof. intros H. unfold on_query, ApiQuery. by rewrite H. Qed.

Lemma at_body {R A} (kind : BodyType R) (f : A -> Response) h request context captures body :
  json_body kind request = Ok body -> on_body kind f h request (Some context) captures = respond f (h context body).
Proof. intros H. unfold on_body, ApiJson. by rewrite H. Qed.

Lemma at_id_query {Q A} (kind : QueryType Q) (f : A -> Response) h request context id q :
  is_uuid id -> query_string kind (rq_query request) = Ok q ->
  on_id_query kind f h request (Some context) [uuid_to_string id] = respond f (h context id q).
Proof. intros Hid H. unfold on_id_query, ApiPath, ApiQuery. by rewrite path_uuid_text, H by done. Qed.

Lemma at_id_body {R A} (kind : BodyType R) (f : A -> Response) h request context id body :
  is_uuid id -> json_body kind request = Ok body ->
  on_id_body kind f h request (Some context) [uuid_to_string id] = respond f (h context id body).
Proof. intros Hid H. unfold on_id_body, ApiPath, ApiJson. by rewrite path_uuid_text, H by done. Qed.

Lemma uuid_text_cons u : exists a s, uuid_to_string u = String a s.
Proof. pose proof (uuid_text_length u). destruct (uuid_to_string u); [done|eauto]. Qed.

Lemma label_cons name : canonical_label name = true -> exists a s, name = String a s.
Proof. destruct name; [done|eauto]. Qed.

(** Reading a query back. *)
Lemma queried {Q} (kind : QueryType Q) request text q :
  rq_query request = text -> query_string kind text = Ok q -> query_string kind (rq_query request) = Ok q.
Proof. by intros ->. Qed.

(** The route of a call: the segments in [Hp] are literals but for one text that is not empty. *)
Ltac route Hp Hm :=
  etransitivity; [eapply dispatch_route; [rewrite Hp; reflexivity|rewrite Hm; reflexivity]|].
Ltac route_id id Hp Hm :=
  let E := fresh "E" in destruct (uuid_text_cons id) as (? & ? & E); rewrite E in Hp; route Hp Hm; rewrite <- E.
Ltac read_page Hq Ht := eapply queried; [exact Hq|apply page_query_text; [unfold page_size; auto|first [done | apply Ht]]].

Lemma call_dispatched call context request :
  call_typed call -> rq_method request = og_method (outgoing call) -> segments (rq_path request) = "" :: (shape call).1 ->
  rq_query request = query_text (shape call).2 -> payload_decodes call request ->
  dispatch request (Some context) = served call context.
Proof.
  intros Ht Hm Hp Hq Hb.
  destruct call as [| | |name|id| |name d|id name d e|id|ns|id|ns r|id r|ns c|id|ns r|id r|id|id r|id b|id|id|ns c|id|ns r|id r|id|ns
    |ns r|id r|ns|ns r|id r| |ns status job target set before|id|id rid|id|id|rid jid target inputs| |id|[| |ns|ns|ns] c];
    cbn [shape fst snd] in Hp, Hq; cbn [outgoing og_method] in Hm; cbn [call_typed] in Ht; unfold payload_decodes in Hb;
    cbn [outgoing og_payload] in Hb.
  all: try (route_id id Hp Hm; first [by apply at_id | by apply at_id_body]).
  all: try (route_id ns Hp Hm; first [by apply at_id | by apply at_id_body | apply at_id_query; [first [exact Ht | exact (proj1 Ht)]|read_page Hq Ht]]).
  all: try (route Hp Hm; first [reflexivity | by apply at_body | apply at_query; read_page Hq Ht]).
  - destruct Ht as [Hid Hbefore]. route_id id Hp Hm. apply at_id_query; [exact Hid|]. eapply queried; [exact Hq|]. apply workflow_run_query_text; [unfold page_size; auto|done].
  - route Hp Hm. apply at_query. eapply queried; [exact Hq|]. apply run_query_text; [unfold page_size; auto|]. intros u Hu. set_solver.
  - route Hp Hm. apply at_query. eapply queried; [exact Hq|]. apply run_query_text; [unfold page_size; auto|done].
  - destruct (label_cons id Ht) as (a & s & ->). route Hp Hm. by apply at_name.
Qed.

Context {HL : HeaderValueLaws}.

Lemma bearer_carried token rest :
  b64token token -> get_all rest "authorization" = [] -> carries (("authorization", "Bearer " ++ token) :: rest) token.
Proof.
  intros (_ & body & padding & -> & _ & Hb) Hr. exists "Bearer", O, ("Bearer " ++ body ++ repeat_byte "=" padding).
  split_and!; [|apply to_str_visible|done|done].
  - unfold get_all. cbn [omap list_omap fst snd]. change (("authorization" =? "authorization")%string) with true. cbn [omap list_omap].
    f_equal. exact Hr.
  - rewrite !bytes_concat, !forallb_app. change (forallb is_visible_ascii (bytes "Bearer ")) with true. cbn [andb].
    apply andb_true_iff. split; [|clear; induction padding as [|n IH]; [done|exact IH]].
    eapply forallb_forall. intros b Hin. eapply forallb_forall in Hb; [|exact Hin]. revert Hb. unfold is_token_byte, is_visible_ascii,
      is_ascii_alphanumeric, is_ascii_lowercase, is_ascii_uppercase, is_ascii_digit.
    rewrite !orb_true_iff, !andb_true_iff, !Z.leb_le, Z.ltb_lt, !Z.eqb_eq. lia.
Qed.

(** What the wire carries of a call. *)
Lemma transmitted_spec headers_new settable encode token call request :
  call_typed call ->
  client.transmitted headers_new settable encode (Some (Ok (Some (Ok (Some token))))) (outgoing call) = Ok request ->
  rq_method request = og_method (outgoing call) /\ segments (rq_path request) = "" :: (shape call).1
  /\ rq_query request = query_text (shape call).2
  /\ exists rest, rq_headers request = ("authorization", "Bearer " ++ token) :: rest /\ get_all rest "authorization" = [].
Proof.
  intros Ht. unfold client.transmitted, client.authenticated, client.with_bearer. cbn [ok_or map_err result_bind].
  destruct headers_new; cbn [negb]; [|done]. destruct (settable _); cbn [result_bind]; [|done].
  rewrite outgoing_url, url_parts by (by apply shape_plain).
  assert (Hseg : segments (path_of (shape call).1) = "" :: (shape call).1).
  { unfold segments. rewrite split_path by (by apply shape_plain). destruct call as [| | | | | | | | | | | | | | | | | | | | | | | | | | | | | | | | | | | | | | | | | | [] ?]; done. }
  destruct (og_payload (outgoing call)) as [| |A kind body]; [intros [= <-]; cbn; split_and!; try done; by exists []| |];
    (destruct (encode _) as [text|]; cbn [map_err result_bind]; [|done]; intros [= <-]; cbn; split_and!; try done; by eexists).
Qed.

(** C32: Every call of the browser's client is the call of the handler it
    means.  A request built by any of its functions with the session's Bearer
    token, sent over the wire, is authenticated by the server with that very
    token, and, once the verifier accepts it, is dispatched to the handler of
    the resource and verb the function is named for, with the identifiers,
    page limits, cursors, filters and body the caller gave; a refused token
    never reaches a handler. *)
Theorem client_calls_served headers_new settable encode token call request request_id :
  call_typed call -> b64token token ->
  client.transmitted headers_new settable encode (Some (Ok (Some (Ok (Some token))))) (outgoing call) = Ok request ->
  payload_decodes call request ->
  exists continue, establish request (Some request_id) = Await (Authenticate (Bearer (MkBearerToken token))) continue
    /\ (forall caller, continue (Ok caller) = served call (mkRequestContext request_id caller))
    /\ (forall error, continue (Err error) = Return (into_response (ApiAuthentication error))).
Proof.
  intros Ht Hb Hsent Hd. destruct (transmitted_spec _ _ _ _ _ _ Ht Hsent) as (Hm & Hp & Hq & rest & Hh & Hrest).
  assert (Hby : bypasses request = false).
  { unfold bypasses. apply andb_false_iff. right. apply bool_decide_eq_false. intros Hin. unfold public_paths in Hin.
    assert (Hone : length (segments (rq_path request)) = 2%nat) by (repeat (apply elem_of_cons in Hin as [->|Hin]; [reflexivity|]); by apply not_elem_of_nil in Hin).
    rewrite Hp in Hone. destruct call as [| | | | | | | | | | | | | | | | | | | | | | | | | | | | | | | | | | | | | | | | | | [] ?]; discriminate. }
  unfold establish. rewrite Hby, Hh, (proj2 (credentials_spec _ token) (conj (bearer_carried token rest Hb Hrest) Hb)).
  eexists. split; [reflexivity|]. split; [|done]. intros caller. cbn [then_]. by apply call_dispatched.
Qed.

End Served.
