(* ===== verification/Forms.v ===== *)
(** * The controls of the forms (apps/web/src/components)

    forms.rs, resource_dialogs.rs and timezone_select.rs: the checks that
    every form shares, the feedback after a save, the list of arguments, the
    comboboxes for a resource and for a time zone, and the list of
    checkboxes.  A control's signals belong to one page, so its state is a
    record; what is rendered and how focus moves are left out. *)

From S2P Require Import Prelude RustStr Json Inputs Names Text Domain Validation.
From Stdlib Require Import Ascii String.
From stdpp Require Import base numbers strings gmap list pretty.

Local Open Scope Z_scope.

(** ** Options and feedback *)

Record ResourceOption : Type := mkResourceOption {
  ro_id : Uuid;
  ro_label : string;
}.

Record ResourceFeedback : Type := mkResourceFeedback {
  rf_message : string;
  rf_succeeded : bool;
  rf_continue_label : string;
  rf_view_on_error : bool;
}.

Definition feedback_saved (message continue_label : string) : ResourceFeedback :=
  mkResourceFeedback message true continue_label false.
Definition feedback_failed (message : string) : ResourceFeedback := mkResourceFeedback message false "Back to form" false.

(** ** Checks of one field *)

(** serde_json: reading a text, and printing a value over several lines. *)
Class JsonText : Type := {
  from_str : string -> result value string;
  to_string_pretty : value -> result string string;
}.

(** The same in every page that shows stored inputs. *)
Definition pretty_json `{JsonText} (v : value) : string :=
  match to_string_pretty v with Ok text => text | Err _ => "{}" end.

Section Checks.
Context {SJ : SerdeJson} {RF : RustFmt}.

Definition name_validation_message (value : string) (required : bool) : option string :=
  let value := trim value in
  if (value =? "")%string && negb required then None
  else match validate_resource_name value with
       | Ok _ => None
       | Err error => Some (display_name_error error)
       end.

Definition visible_name_validation (value : string) (attempted : bool) : option string :=
  if (trim value =? "")%string && negb attempted then None else name_validation_message value true.

Definition parse_input_object `{JsonText} (value : string) : result Json.value string :=
  let? parsed := map_err (fun error => "Invalid JSON: " ++ error)%string (from_str value) in
  let? _ := map_err display_input_error (validate_inputs parsed) in
  Ok parsed.

(** A field the server named in its last refusal. *)
Definition server_error (server_field : option (string * string)) (field : string) : option string :=
  '(name, message) ← server_field; if (name =? field)%string then Some message else None.

Definition or_else {A} (o : option A) (other : option A) : option A := match o with Some x => Some x | None => other end.

(** A combobox that must be chosen from once submission was attempted. *)
Definition missing_choice (attempted : bool) (selected : option Uuid) (message : string) : option string :=
  if attempted && negb (bool_decide (is_Some selected)) then Some message else None.

End Checks.

(** ** The list of arguments *)

Inductive argument_edit : Type :=
| TypeArgument (index : nat) (text : string)
| RemoveArgument (index : nat)
| AddArgument.

Definition edit_arguments (edit : argument_edit) (items : list string) : list string :=
  match edit with
  | TypeArgument index text => <[index := text]> items
  | RemoveArgument index => delete index items
  | AddArgument => items ++ [""%string]
  end.

(** ** Comboboxes *)

Definition ascii_lowercase (s : string) : string :=
  string_of_list_ascii (map (fun a => ascii_of_N (Z.to_N (to_ascii_lowercase (byte_of a)))) (list_ascii_of_string s)).

Record Combobox : Type := mkCombobox {
  cb_query : string;
  cb_open : bool;
  cb_active : nat;
}.

Definition combobox_new : Combobox := mkCombobox "" false 0.

Section Combobox.
Context {O : Type}.

Definition focus (self : Combobox) : Combobox := mkCombobox "" true 0.
Definition type_query (text : string) (self : Combobox) : Combobox := mkCombobox text true 0.
Definition blur (self : Combobox) : Combobox := mkCombobox (cb_query self) false (cb_active self).
Definition chosen (self : Combobox) : Combobox := mkCombobox "" false (cb_active self).

(** [select_keydown] and [timezone_keydown]; the latter moves to an end only while the list is open. *)
Definition keydown (only_open : bool) (filtered : list O) (key : string) (self : Combobox) : Combobox * option O :=
  let last := (length filtered - 1)%nat in
  let moves := negb only_open || cb_open self in
  if (key =? "ArrowDown")%string then (mkCombobox (cb_query self) true (Nat.min (S (cb_active self)) last), None)
  else if (key =? "ArrowUp")%string then (mkCombobox (cb_query self) true (cb_active self - 1), None)
  else if (key =? "Home")%string && moves then (mkCombobox (cb_query self) (cb_open self) 0, None)
  else if (key =? "End")%string && moves then (mkCombobox (cb_query self) (cb_open self) last, None)
  else if (key =? "Enter")%string && cb_open self then
    match filtered !! cb_active self with
    | Some option => (chosen self, Some option)
    | None => (self, None)
    end
  else if (key =? "Escape")%string then (mkCombobox (cb_query self) false (cb_active self), None)
  else (self, None).

End Combobox.

(** ** One resource *)

Record Select : Type := mkSelect {
  sl_box : Combobox;
  sl_selected : option Uuid;
  sl_previous_ids : option (list Uuid);
}.

(** The collection a select shows: still loading, failed, or loaded. *)
Record Choices : Type := mkChoices {
  ch_options : list ResourceOption;
  ch_loading : bool;
  ch_load_error : option string;
}.

Definition option_ids (options : list ResourceOption) : list Uuid := map ro_id options.

Definition select_new (selected : option Uuid) : Select := mkSelect combobox_new selected None.

Definition filtered_options (query : string) (options : list ResourceOption) : list ResourceOption :=
  List.filter (fun option => contains (ascii_lowercase query) (ro_label option)) options.

(** The effect of [synchronize_selection]. *)
Definition synchronize_selection (select_single : bool) (choices : Choices) (self : Select) : Select :=
  if ch_loading choices || bool_decide (is_Some (ch_load_error choices)) then self
  else
    let available := ch_options choices in
    let ids := option_ids available in
    let options_changed := negb (bool_decide (sl_previous_ids self = Some ids)) in
    let previous := if options_changed then Some ids else sl_previous_ids self in
    let current := sl_selected self in
    let stale := match current with Some id => negb (existsb (fun option => (ro_id option =? id)%N) available) | None => false end in
    let selected := if stale then None else current in
    let selected :=
      if select_single && options_changed && (negb (bool_decide (is_Some current)) || stale)
      then match available with [only] => Some (ro_id only) | _ => selected end
      else selected in
    mkSelect (sl_box self) selected previous.

(** What the user does to a select; a click chooses one of the options shown. *)
Inductive select_event : Type :=
| SelectFocus
| SelectInput (text : string)
| SelectKey (key : string)
| SelectPick (index : nat)
| SelectBlur.

Definition select_on (choices : Choices) (event : select_event) (self : Select) : Select :=
  let filtered := filtered_options (cb_query (sl_box self)) (ch_options choices) in
  let choose box option := mkSelect box (Some (ro_id option)) (sl_previous_ids self) in
  let with_box box := mkSelect box (sl_selected self) (sl_previous_ids self) in
  match event with
  | SelectFocus => with_box (focus (sl_box self))
  | SelectInput text => mkSelect (type_query text (sl_box self)) None (sl_previous_ids self)
  | SelectKey key =>
      match keydown false filtered key (sl_box self) with
      | (box, Some option) => choose box option
      | (box, None) => with_box box
      end
  | SelectPick index =>
      match filtered !! index with
      | Some option => choose (chosen (sl_box self)) option
      | None => self
      end
  | SelectBlur => with_box (blur (sl_box self))
  end.

(** The text of a closed select. *)
Definition display_value (options : list ResourceOption) (self : Select) : string :=
  if cb_open (sl_box self) then cb_query (sl_box self)
  else default ""%string (id ← sl_selected self; ro_label <$> List.find (fun option => (ro_id option =? id)%N) options).

(** ** Several resources *)

(** The effect of [ResourceMultiSelect], and one of its checkboxes. *)
Definition retain_members (choices : Choices) (selected : list Uuid) : list Uuid :=
  if negb (ch_loading choices) && negb (bool_decide (is_Some (ch_load_error choices)))
  then List.filter (fun id => existsb (fun option => (ro_id option =? id)%N) (ch_options choices)) selected
  else selected.

Definition toggle_member (id : Uuid) (checked : bool) (selected : list Uuid) : list Uuid :=
  if checked && negb (existsb (N.eqb id) selected) then selected ++ [id]
  else if negb checked then List.filter (fun candidate => negb (candidate =? id)%N) selected
  else selected.

(** ** Time zones (timezone_select.rs) *)

Record TimezoneOption : Type := mkTimezoneOption {
  tzo_id : string;
  tzo_label : string;
  tzo_offset_minutes : Z;
}.

Definition two_digits (n : Z) : string := if n <? 10 then ("0" ++ pretty n)%string else pretty n.

Definition format_offset (minutes : Z) : string :=
  let magnitude := Z.abs minutes in
  ("UTC" ++ (if (minutes <? 0)%Z then "-" else "+") ++ two_digits (magnitude / 60)%Z ++ ":" ++ two_digits (magnitude mod 60)%Z)%string.

Definition before_option (left right : TimezoneOption) : bool :=
  (tzo_offset_minutes left <? tzo_offset_minutes right)
  || ((tzo_offset_minutes left =? tzo_offset_minutes right) && negb (string_ltb (tzo_id right) (tzo_id left))).

(** The catalog of chrono-tz, by name, with the offset in seconds at the present instant. *)
Definition timezone_options (catalog : list (string * Z)) : list TimezoneOption :=
  mkTimezoneOption "UTC" "UTC (UTC+00:00)" 0
  :: sort_by before_option
       (map (fun '(name, local_minus_utc) =>
               let offset_minutes := Z.quot local_minus_utc 60 in
               mkTimezoneOption name ("(" ++ format_offset offset_minutes ++ " now) " ++ name)%string offset_minutes)
          (List.filter (fun zone => negb (zone.1 =? "UTC")%string) catalog)).

Definition timezone_matches (option : TimezoneOption) (needle : string) : bool :=
  contains needle (ascii_lowercase (tzo_id option))
  || ((String.prefix "utc+" needle || String.prefix "utc-" needle || String.prefix "+" needle || String.prefix "-" needle)
      && contains needle (ascii_lowercase (format_offset (tzo_offset_minutes option)))).

Definition filtered_timezones (query : string) (options : list TimezoneOption) : list TimezoneOption :=
  List.filter (fun option => timezone_matches option (ascii_lowercase (trim query))) options.

(** The box and the chosen identifier; search text never replaces it. *)
Definition timezone_on (options : list TimezoneOption) (event : select_event) (self : Combobox * string) : Combobox * string :=
  let '(box, selected) := self in
  let filtered := filtered_timezones (cb_query box) options in
  match event with
  | SelectFocus => (focus box, selected)
  | SelectInput text => (type_query text box, selected)
  | SelectKey key =>
      match keydown true filtered key box with
      | (box, Some option) => (box, tzo_id option)
      | (box, None) => (box, selected)
      end
  | SelectPick index =>
      match filtered !! index with
      | Some option => (chosen box, tzo_id option)
      | None => self
      end
  | SelectBlur => (blur box, selected)
  end.

(** ** The selection follows its collection *)

Definition loaded (choices : Choices) : Prop := ch_loading choices = false /\ ch_load_error choices = None.

(** A collection arrives or the user acts; then the effect runs. *)
Definition select_step (select_single : bool) (st : Choices * Select) (e : Choices + select_event) : Choices * Select :=
  match e with
  | inl choices => (choices, synchronize_selection select_single choices st.2)
  | inr event => (st.1, synchronize_selection select_single st.1 (select_on st.1 event st.2))
  end.

Definition available (choices : Choices) (selected : option Uuid) : Prop :=
  forall id, selected = Some id -> id ∈ option_ids (ch_options choices).

Lemma existsb_option id options : existsb (fun option => (ro_id option =? id)%N) options = true <-> id ∈ option_ids options.
Proof.
  rewrite existsb_exists. unfold option_ids. rewrite list_elem_of_In, in_map_iff. split.
  - intros (o & Ho & Heq%N.eqb_eq). by exists o.
  - intros (o & Heq & Ho). exists o. split; [done|]. by apply N.eqb_eq.
Qed.

Lemma synchronize_loaded select_single choices self : loaded choices ->
  let self' := synchronize_selection select_single choices self in
  available choices (sl_selected self') /\ sl_previous_ids self' = Some (option_ids (ch_options choices)).
Proof.
  intros [Hl He]. unfold synchronize_selection. rewrite Hl, He. cbn [orb]. cbn.
  set (ids := option_ids _). case_bool_decide as Hp; cbn [negb].
  - rewrite andb_false_r. cbn [andb sl_selected sl_previous_ids]. split; [|done]. intros id.
    destruct (sl_selected self) as [current|]; [|done].
    destruct (existsb _ (ch_options choices)) eqn:Hx; cbn [negb]; [|done]. intros [= ->]. by apply existsb_option.
  - split; [|done]. cbn [sl_selected]. intros id.
    destruct (sl_selected self) as [current|]; cbn.
    + destruct (existsb _ (ch_options choices)) eqn:Hx; cbn [negb].
      * rewrite andb_false_r. intros [= ->]. by apply existsb_option.
      * destruct select_single; [|done]. destruct (ch_options choices) as [|o [|]] eqn:Ho; try done. cbn. intros [= <-].
        unfold ids, option_ids. rewrite ?Ho. left.
    + destruct select_single; [|done]. destruct (ch_options choices) as [|o [|]] eqn:Ho; try done. cbn. intros [= <-]. left.
Qed.

Lemma synchronize_keeps select_single choices self : loaded choices -> is_Some (sl_selected self) ->
  available choices (sl_selected self) -> sl_selected (synchronize_selection select_single choices self) = sl_selected self.
Proof.
  intros [Hl He] [id Hid] Ha. unfold synchronize_selection. rewrite Hl, He, Hid in *. cbn.
  rewrite (proj2 (existsb_option id _)) by (by apply Ha). cbn [negb]. rewrite andb_false_r. done.
Qed.

Lemma synchronize_stable select_single choices self : loaded choices -> sl_previous_ids self = Some (option_ids (ch_options choices)) ->
  available choices (sl_selected self) -> synchronize_selection select_single choices self = self.
Proof.
  intros Hl Hp Ha. unfold synchronize_selection. destruct Hl as [-> ->]. cbn [orb]. cbn. rewrite bool_decide_eq_true_2 by done.
  cbn [negb]. rewrite andb_false_r. cbn [andb]. destruct self as [box selected previous]. cbn in *. f_equal.
  destruct selected as [id|]; [|done]. by rewrite (proj2 (existsb_option id _)) by (by apply Ha).
Qed.

(** A reachable state of a control has the selection of its loaded collection. *)
Lemma select_reached select_single steps : forall st,
  let '(choices, self) := fold_left (select_step select_single) steps st in
  steps <> [] -> loaded choices -> available choices (sl_selected self) /\ sl_previous_ids self = Some (option_ids (ch_options choices)).
Proof.
  induction steps as [|e steps IH] using rev_ind; intros st; [by destruct st|]. rewrite fold_left_app. cbn [fold_left].
  destruct (fold_left _ steps st) as [choices self]. destruct e as [choices'|event]; cbn [select_step fst snd];
    intros _ Hl; by apply synchronize_loaded.
Qed.

(** A selection of the forms is never stale.  Whatever collections
    arrive and whatever the user types, clicks or presses, as soon as a
    collection is loaded the selection is empty or one of its entries; the
    effect then has nothing left to do; a selection that the new collection
    still holds is kept; the sole entry of a collection is chosen once when
    it arrives, if the form asks for it and nothing else is chosen; and it
    stays cleared when the user clears it. *)
Theorem selection_current select_single initial steps :
  let '(choices, self) := fold_left (select_step select_single) steps (mkChoices [] true None, select_new initial) in
  (steps <> [] -> loaded choices ->
     available choices (sl_selected self) /\ synchronize_selection select_single choices self = self)
  /\ (forall choices', loaded choices' ->
        let self' := (select_step select_single (choices, self) (inl choices')).2 in
        (is_Some (sl_selected self) -> available choices' (sl_selected self) -> sl_selected self' = sl_selected self)
        /\ (forall only, select_single = true -> ch_options choices' = [only] -> sl_selected self = None ->
              sl_previous_ids self <> Some [ro_id only] -> sl_selected self' = Some (ro_id only)))
  /\ (steps <> [] -> loaded choices ->
        forall text, sl_selected (select_step select_single (choices, self) (inr (SelectInput text))).2 = None).
Proof.
  pose proof (select_reached select_single steps (mkChoices [] true None, select_new initial)) as Hr.
  destruct (fold_left _ steps _) as [choices self]. split_and!.
  - intros Hs Hl. destruct (Hr Hs Hl) as [Ha Hp]. split; [done|]. by apply synchronize_stable.
  - intros choices' Hl. cbn [select_step snd]. split; [by apply synchronize_keeps|].
    intros only -> Ho Hn Hp. unfold synchronize_selection. destruct Hl as [-> ->]. rewrite Ho, Hn. cbn [orb]. cbn.
    rewrite bool_decide_eq_false_2 by done. done.
  - intros Hs Hl text. destruct (Hr Hs Hl) as [_ Hp]. cbn [select_step snd fst select_on].
    rewrite synchronize_stable; [done|done|done|]. by intros id.
Qed.

(** A label that starts with capital letters is never found by them: the search text is lowered, the label is not. *)
Example destination_prefix_not_found :
  filtered_options "Target" [mkResourceOption 1 "Target · web"; mkResourceOption 2 "Target Set · fleet"] = []
  /\ map ro_id (filtered_options "web" [mkResourceOption 1 "Target · web"; mkResourceOption 2 "Target Set · fleet"]) = [1%N].
Proof. by vm_compute. Qed.

(** A time zone is only ever one of the catalog, UTC, or the one the form started with. *)
Lemma timezone_from_catalog catalog events : forall box selected,
  let '(_, selected') := fold_left (fun self event => timezone_on (timezone_options catalog) event self) events (box, selected) in
  selected' = selected \/ selected' = "UTC"%string \/ selected' ∈ map fst catalog.
Proof.
  assert (Hin : forall option, option ∈ timezone_options catalog -> tzo_id option = "UTC"%string \/ tzo_id option ∈ map fst catalog).
  { intros option. unfold timezone_options. rewrite elem_of_cons. intros [->|Ho]; [by left|]. right.
    rewrite elem_of_sort_by in Ho. apply list_elem_of_In, in_map_iff in Ho as ([name offset] & <- & [Hz _]%filter_In). cbn [tzo_id].
    apply list_elem_of_In, in_map_iff. by exists (name, offset). }
  assert (Hf : forall query index option, filtered_timezones query (timezone_options catalog) !! index = Some option ->
    tzo_id option = "UTC"%string \/ tzo_id option ∈ map fst catalog).
  { intros query index option Ho%list_elem_of_lookup_2. apply Hin. apply list_elem_of_In. apply list_elem_of_In, filter_In in Ho. tauto. }
  induction events as [|event events IH]; intros box selected; [by left|]. cbn [fold_left].
  assert (Hs : (timezone_on (timezone_options catalog) event (box, selected)).2 = selected
    \/ (timezone_on (timezone_options catalog) event (box, selected)).2 = "UTC"%string
    \/ (timezone_on (timezone_options catalog) event (box, selected)).2 ∈ map fst catalog).
  { destruct event as [|text|key|index|]; cbn [timezone_on]; try by left.
    - unfold keydown. repeat (case_match; try by left). all: repeat match goal with H : (_, _) = (_, _) |- _ => injection H as <- <- end; eauto.
      all: try discriminate; simplify_eq; right; eapply Hf; eassumption.
    - case_match eqn:E; [|by left]. right. by eapply Hf. }
  destruct (timezone_on _ event _) as [box' selected']. cbn [snd] in Hs. specialize (IH box' selected'). destruct (fold_left _ _ _) as [box'' selected''].
  destruct IH as [->|IH]; [done|by right].
Qed.
