(* ===== verification/JobForm.v ===== *)
(** * The Job form (apps/web/src/pages/jobs/form.rs)

    The page that creates or edits a Job: the fields a user fills in, the
    messages beside them, whether the button is enabled, what is sent and
    what the answer does to the form. *)

From S2P Require Import Prelude RustStr Json Inputs Names Text Float Domain Validation Dispatcher ApiTypes WebClient Forms.
From Stdlib Require Import SpecFloat Ascii String.
From stdpp Require Import base numbers strings gmap list pretty relations.

Local Open Scope Z_scope.

(** ** Numbers in fields *)

Lemma digit_char n : (n < 10)%N -> byte_of (pretty_N_char n) = 48 + Z.of_N n.
Proof.
  intros H. destruct n as [|p]; [reflexivity|].
  do 4 (destruct p as [p|p|]; try reflexivity); exfalso; lia.
Qed.

Lemma digits_pretty_go x : forall s, digits 0 (pretty_N_go x s) = digits (Z.of_N x) s.
Proof.
  induction (N.lt_wf_0 x) as [x _ IH]. intros s. destruct (N.eq_dec x 0%N) as [->|Hx]; [by rewrite pretty_N_go_0|].
  rewrite pretty_N_go_step by lia. rewrite IH by (apply N.div_lt; lia). cbn [digits].
  fold (byte_of (pretty_N_char (x mod 10)%N)). rewrite digit_char by (apply N.mod_lt; lia).
  assert (Hm : (x mod 10 < 10)%N) by (apply N.mod_lt; lia). pose proof (N.div_mod x 10%N ltac:(lia)) as Hx'.
  revert Hm Hx'. generalize (x mod 10)%N (x / 10)%N. intros m q Hm Hx'.
  replace (is_ascii_digit (48 + Z.of_N m)) with true by (unfold is_ascii_digit; symmetry; apply andb_true_iff; split; apply Z.leb_le; lia).
  f_equal. lia.
Qed.

Lemma digits_pretty_Z z : 0 <= z -> digits 0 (pretty z) = Some z.
Proof.
  intros Hz. destruct z as [|p|p]; [done| |lia]. change (pretty (Z.pos p)) with (pretty_N_go (N.pos p) "").
  rewrite digits_pretty_go. done.
Qed.

(** A text of digits. *)
Lemma digits_text acc s z : digits acc s = Some z -> forallb is_ascii_digit (bytes s) = true.
Proof.
  revert acc. induction s as [|a s IH]; intros acc H; [done|]. cbn [digits] in H. fold (byte_of a) in H.
  unfold bytes. cbn [list_ascii_of_string map forallb]. destruct (is_ascii_digit (byte_of a)); [|done]. eapply IH, H.
Qed.

Lemma digits_trim s : forallb is_ascii_digit (bytes s) = true -> trim s = s.
Proof.
  intros H. apply trim_plain. change (forallb is_plain (bytes s) = true). rewrite forallb_forall in H |- *. intros b Hb%H.
  unfold is_plain, is_whitespace, is_ascii_digit in *. lia.
Qed.

Lemma parse_digits inside s z : digits 0 s = Some z -> s <> ""%string -> inside z = true -> parse_unsigned inside s = Some z.
Proof.
  intros Hd Hs Hi. pose proof (digits_text _ _ _ Hd) as Ht. unfold parse_unsigned.
  replace (match s with String "+" rest => rest | _ => s end) with s.
  - destruct (String.eqb_spec s ""); [done|]. by rewrite Hd, Hi.
  - destruct s as [|a s]; [done|]. destruct a as [[] [] [] [] [] [] [] []]; try done. 
Qed.

Lemma parse_pretty inside z : 0 <= z -> inside z = true -> parse_unsigned inside (trim (pretty z)) = Some z.
Proof.
  intros Hz Hi. pose proof (digits_pretty_Z z Hz) as Hd. rewrite digits_trim by (by eapply digits_text).
  apply parse_digits; [done| |done]. intros He. rewrite He in Hd. injection Hd as <-. discriminate He.
Qed.

(** ** The form *)

Record JobFields : Type := mkJobFields {
  jf_name : string;
  jf_queue_id : option Uuid;
  jf_executor : api.ExecutorKind;
  jf_executable : string;
  jf_shell_command : string;
  jf_arguments : list string;
  jf_inputs : string;
  jf_idempotent : bool;
  jf_dry_run : bool;
  jf_max_attempts : string;
  jf_retry_initial : string;
  jf_retry_max : string;
  jf_retry_multiplier : string;
  jf_retry_jitter : string;
}.

Record JobState : Type := mkJobState {
  js_namespace_id : option Uuid;
  js_fields : JobFields;
  js_preview_target : option Uuid;
  js_attempted : bool;
  js_submitting : bool;
  js_server_field : option (string * string);
  js_feedback : option ResourceFeedback;
}.

Definition executor_eqb (a b : api.ExecutorKind) : bool :=
  match a, b with
  | api.EK_Noop, api.EK_Noop | api.EK_Process, api.EK_Process | api.EK_Shell, api.EK_Shell => true
  | _, _ => false
  end.

#[local] Opaque trim.

Section JobForm.
Context {SJ : SerdeJson} {RF : RustFmt} {JT : JsonText}.

(** The fields of an empty form. *)
Definition blank_fields (queue_id : option Uuid) : JobFields :=
  mkJobFields "" queue_id api.EK_Noop "" "" [] "{}" false false "1" "1" "60" "2.0" "0.2".

Definition fields_of (job : api.JobResource) : JobFields :=
  mkJobFields (api.jr_name job) (Some (api.jr_queue_id job)) (api.jr_executor job) (default ""%string (api.jr_executable job))
    (default ""%string (api.jr_shell_command job)) (api.jr_arguments job) (pretty_json (api.jr_inputs job)) (api.jr_idempotent job)
    (api.jr_dry_run job) (pretty (api.jr_max_attempts job)) (pretty (api.jr_retry_initial_seconds job))
    (pretty (api.jr_retry_max_seconds job)) (display_f64 (api.jr_retry_multiplier job)) (display_f64 (api.jr_retry_jitter job)).

(** [JobState::new] *)
Definition job_state_new (initial : option api.JobResource) : JobState :=
  mkJobState (api.jr_namespace_id <$> initial) (from_option fields_of (blank_fields None) initial) None false false None None.

Definition with_fields (f : JobFields -> JobFields) (self : JobState) : JobState :=
  mkJobState (js_namespace_id self) (f (js_fields self)) (js_preview_target self) (js_attempted self) (js_submitting self)
    (js_server_field self) (js_feedback self).

(** [initialize_default_queue], once its collection is loaded. *)
Definition initialize_default_queue (choices : Choices) (initialized : bool) (self : JobState) : bool * JobState :=
  if negb initialized && negb (ch_loading choices) then
    (true, match List.find (fun item => (ro_label item =? "default")%string) (ch_options choices) with
           | Some queue => with_fields (fun f => mkJobFields (jf_name f) (Some (ro_id queue)) (jf_executor f) (jf_executable f)
               (jf_shell_command f) (jf_arguments f) (jf_inputs f) (jf_idempotent f) (jf_dry_run f) (jf_max_attempts f)
               (jf_retry_initial f) (jf_retry_max f) (jf_retry_multiplier f) (jf_retry_jitter f)) self
           | None => self
           end)
  else (initialized, self).

(** ** Requests *)

Definition parse_integer (inside : Z -> bool) (s : string) : result Z unit := ok_or (parse_unsigned inside (trim s)) ().
Definition parse_float (s : string) : result spec_float unit := ok_or (parse_f64 (trim s)) ().

(** [job_request] *)
Definition job_request (fields : JobFields) : result api.CreateJobRequest unit :=
  let? queue_id := ok_or (jf_queue_id fields) () in
  let executable := if executor_eqb (jf_executor fields) api.EK_Noop then None else Some (trim (jf_executable fields)) in
  let shell_command := if executor_eqb (jf_executor fields) api.EK_Shell then Some (jf_shell_command fields) else None in
  let? inputs := map_err (fun _ => ()) (parse_input_object (jf_inputs fields)) in
  let? max_attempts := parse_integer in_u16 (jf_max_attempts fields) in
  let? retry_initial := parse_integer in_u32 (jf_retry_initial fields) in
  let? retry_max := parse_integer in_u32 (jf_retry_max fields) in
  let? retry_multiplier := parse_float (jf_retry_multiplier fields) in
  let? retry_jitter := parse_float (jf_retry_jitter fields) in
  Ok (api.mkCreateJobRequest (trim (jf_name fields)) queue_id (jf_executor fields) executable shell_command (jf_arguments fields)
        inputs (jf_idempotent fields) (jf_dry_run fields) max_attempts retry_initial retry_max retry_multiplier retry_jitter).

Definition update_job_request (value : api.CreateJobRequest) : api.UpdateJobRequest :=
  api.mkUpdateJobRequest (api.cjr_name value) (api.cjr_queue_id value) (api.cjr_executor value) (api.cjr_executable value)
    (api.cjr_shell_command value) (api.cjr_arguments value) (api.cjr_inputs value) (api.cjr_idempotent value) (api.cjr_dry_run value)
    (api.cjr_max_attempts value) (api.cjr_retry_initial_seconds value) (api.cjr_retry_max_seconds value)
    (api.cjr_retry_multiplier value) (api.cjr_retry_jitter value).

(** ** Messages *)

Record JobErrors : Type := mkJobErrors {
  je_name : option string;
  je_inputs : option string;
  je_arguments : option string;
  je_namespace : option string;
  je_queue : option string;
  je_executable : option string;
  je_shell_command : option string;
}.

Definition job_errors (self : JobState) : JobErrors :=
  let fields := js_fields self in
  let server field := server_error (js_server_field self) field in
  mkJobErrors
    (or_else (server "name"%string) (visible_name_validation (jf_name fields) (js_attempted self)))
    (or_else (server "inputs"%string) (match parse_input_object (jf_inputs fields) with Ok _ => None | Err e => Some e end))
    (or_else (server "arguments"%string) (match validate_argument_templates (jf_arguments fields) with Ok _ => None | Err e => Some (display_input_error e) end))
    (or_else (server "namespace_id"%string) (missing_choice (js_attempted self) (js_namespace_id self) "Select a Namespace."))
    (or_else (server "queue_id"%string) (missing_choice (js_attempted self) (jf_queue_id fields) "Select a Queue."))
    (or_else (server "executable"%string)
       (if negb (executor_eqb (jf_executor fields) api.EK_Noop) && (trim (jf_executable fields) =? "")%string
        then Some "An absolute executable or interpreter path is required."%string else None))
    (or_else (server "shell_command"%string)
       (if executor_eqb (jf_executor fields) api.EK_Shell
           && ((trim (jf_shell_command fields) =? "")%string || contains "{{" (jf_shell_command fields))
        then Some "Enter a literal script; put input templates in Arguments and use $1, $2, etc."%string else None)).

(** [job_form_disabled] *)
Definition job_form_disabled (self : JobState) : bool :=
  let errors := job_errors self in
  js_submitting self
  || negb (bool_decide (is_Some (js_namespace_id self)))
  || bool_decide (is_Some (name_validation_message (jf_name (js_fields self)) true))
  || bool_decide (is_Some (je_inputs errors))
  || bool_decide (is_Some (je_arguments errors))
  || bool_decide (is_Some (je_executable errors))
  || bool_decide (is_Some (je_shell_command errors))
  || is_err (job_request (js_fields self)).

Definition job_feedback_error (error : ClientError) : ResourceFeedback :=
  let duplicate := (ce_code error =? "already_exists")%string in
  let message := if duplicate
    then "A Job with this name already exists in the selected Namespace. Choose another name or edit the existing Job."%string
    else ce_message error in
  mkResourceFeedback message false "Back to form" duplicate.

(** ** Submission *)

(** [job_reset]: the Namespace, the Queue and the preview's destination stay. *)
Definition job_reset (self : JobState) : JobState :=
  mkJobState (js_namespace_id self) (blank_fields (jf_queue_id (js_fields self))) (js_preview_target self) false (js_submitting self)
    None (js_feedback self).

Definition save_job (edit_id : option Uuid) (namespace : Uuid) (request : api.CreateJobRequest) : Outgoing :=
  match edit_id with
  | Some id => client.update_job id (update_job_request request)
  | None => client.create_job namespace request
  end.

(** [job_submit] up to the call. *)
Definition job_submit (edit_id : option Uuid) (self : JobState) : JobState * option Outgoing :=
  if js_submitting self then (self, None)
  else
    let attempted submitting := mkJobState (js_namespace_id self) (js_fields self) (js_preview_target self) true submitting None None in
    match js_namespace_id self, job_request (js_fields self) with
    | Some namespace, Ok request => (attempted true, Some (save_job edit_id namespace request))
    | _, _ => (attempted false, None)
    end.

Definition job_settled (self : JobState) (server_field : option (string * string)) (feedback : ResourceFeedback) : JobState :=
  mkJobState (js_namespace_id self) (js_fields self) (js_preview_target self) (js_attempted self) false server_field (Some feedback).

(** The answer to the call. *)
Definition job_answer (edit_id : option Uuid) (answer : result api.JobResource ClientError) (self : JobState) : JobState :=
  match answer with
  | Ok job =>
      let message := ("Saved " ++ api.jr_qualified_name job ++ ".")%string in
      match edit_id with
      | Some _ => job_settled self (js_server_field self) (feedback_saved message "Continue editing")
      | None => let self := job_reset self in job_settled self (js_server_field self) (feedback_saved message "Create another Job")
      end
  | Err error =>
      let server_field := match ce_field error with
        | Some field => Some (field, ce_message error)
        | None => if (ce_code error =? "already_exists")%string
                  then Some ("name", "This name is already used in the selected Namespace.")%string
                  else js_server_field self
        end in
      job_settled self server_field (job_feedback_error error)
  end.

(** ** What a user does *)

Inductive number_field : Type := MaxAttempts | RetryInitial | RetryMax | RetryMultiplier | RetryJitter.

Inductive job_edit : Type :=
| TypeName (text : string)
| LeaveName
| ChooseNamespace (selected : option Uuid)
| ChooseQueue (selected : option Uuid)
| ChooseExecutor (option_value : string)
| TypeExecutable (text : string)
| LeaveExecutable
| TypeScript (text : string)
| EditArgument (edit : argument_edit)
| TypeInputs (text : string)
| CheckIdempotent (checked : bool)
| CheckDryRun (checked : bool)
| TypeNumber (field : number_field) (text : string)
| LeaveNumber (field : number_field)
| ChoosePreview (selected : option Uuid).

Definition update_number (field : number_field) (g : string -> string) (f : JobFields) : JobFields :=
  let at_field x v := if match field, x with
    | MaxAttempts, MaxAttempts | RetryInitial, RetryInitial | RetryMax, RetryMax | RetryMultiplier, RetryMultiplier | RetryJitter, RetryJitter => true
    | _, _ => false end then g v else v in
  mkJobFields (jf_name f) (jf_queue_id f) (jf_executor f) (jf_executable f) (jf_shell_command f) (jf_arguments f) (jf_inputs f)
    (jf_idempotent f) (jf_dry_run f) (at_field MaxAttempts (jf_max_attempts f)) (at_field RetryInitial (jf_retry_initial f))
    (at_field RetryMax (jf_retry_max f)) (at_field RetryMultiplier (jf_retry_multiplier f)) (at_field RetryJitter (jf_retry_jitter f)).

Definition selected_executor (option_value : string) : api.ExecutorKind :=
  if (option_value =? "process")%string then api.EK_Process else if (option_value =? "shell")%string then api.EK_Shell else api.EK_Noop.

Definition edit_fields (edit : job_edit) (f : JobFields) : JobFields :=
  let name g := mkJobFields (g (jf_name f)) (jf_queue_id f) (jf_executor f) (jf_executable f) (jf_shell_command f) (jf_arguments f)
    (jf_inputs f) (jf_idempotent f) (jf_dry_run f) (jf_max_attempts f) (jf_retry_initial f) (jf_retry_max f) (jf_retry_multiplier f) (jf_retry_jitter f) in
  let command executor executable script := mkJobFields (jf_name f) (jf_queue_id f) executor executable script (jf_arguments f)
    (jf_inputs f) (jf_idempotent f) (jf_dry_run f) (jf_max_attempts f) (jf_retry_initial f) (jf_retry_max f) (jf_retry_multiplier f) (jf_retry_jitter f) in
  let rest queue arguments inputs idempotent dry_run := mkJobFields (jf_name f) queue (jf_executor f) (jf_executable f) (jf_shell_command f)
    arguments inputs idempotent dry_run (jf_max_attempts f) (jf_retry_initial f) (jf_retry_max f) (jf_retry_multiplier f) (jf_retry_jitter f) in
  match edit with
  | TypeName text => name (fun _ => text)
  | LeaveName => name trim
  | ChooseQueue selected => rest selected (jf_arguments f) (jf_inputs f) (jf_idempotent f) (jf_dry_run f)
  | ChooseExecutor option_value =>
      let selected := selected_executor option_value in
      let executable := if executor_eqb selected api.EK_Shell && negb (executor_eqb (jf_executor f) api.EK_Shell)
                        then "/bin/sh"%string else jf_executable f in
      command selected executable (jf_shell_command f)
  | TypeExecutable text => command (jf_executor f) text (jf_shell_command f)
  | LeaveExecutable => command (jf_executor f) (trim (jf_executable f)) (jf_shell_command f)
  | TypeScript text => command (jf_executor f) (jf_executable f) text
  | EditArgument edit => rest (jf_queue_id f) (edit_arguments edit (jf_arguments f)) (jf_inputs f) (jf_idempotent f) (jf_dry_run f)
  | TypeInputs text => rest (jf_queue_id f) (jf_arguments f) text (jf_idempotent f) (jf_dry_run f)
  | CheckIdempotent checked => rest (jf_queue_id f) (jf_arguments f) (jf_inputs f) checked (jf_dry_run f)
  | CheckDryRun checked => rest (jf_queue_id f) (jf_arguments f) (jf_inputs f) (jf_idempotent f) checked
  | TypeNumber field text => update_number field (fun _ => text) f
  | LeaveNumber field => update_number field trim f
  | ChooseNamespace _ | ChoosePreview _ => f
  end.

(** One edit; another Namespace clears the preview's destination. *)
Definition edit_job (edit : job_edit) (self : JobState) : JobState :=
  let with_choices namespace preview := mkJobState namespace (js_fields self) preview (js_attempted self) (js_submitting self)
    (js_server_field self) (js_feedback self) in
  match edit with
  | ChooseNamespace selected =>
      with_choices selected (if bool_decide (js_namespace_id self = selected) then js_preview_target self else None)
  | ChoosePreview selected => with_choices (js_namespace_id self) selected
  | _ => with_fields (edit_fields edit) self
  end.

(** The page: an edit, a press of the enabled button, or the answer to the call that is under way. *)
Inductive job_page (edit_id : option Uuid) : JobState -> JobState -> Prop :=
| page_edit self edit : job_page edit_id self (edit_job edit self)
| page_queue self choices initialized : job_page edit_id self (initialize_default_queue choices initialized self).2
| page_submit self : job_form_disabled self = false -> job_page edit_id self (job_submit edit_id self).1
| page_answer self answer : js_submitting self = true -> job_page edit_id self (job_answer edit_id answer self).

Lemma edit_job_server edit self :
  js_server_field (edit_job edit self) = js_server_field self /\ js_submitting (edit_job edit self) = js_submitting self.
Proof. by destruct edit. Qed.

Lemma default_queue_server choices initialized self :
  let self' := (initialize_default_queue choices initialized self).2 in
  js_server_field self' = js_server_field self /\ js_submitting self' = js_submitting self.
Proof. unfold initialize_default_queue. repeat case_match; done. Qed.

(** The fields whose messages hold the button back. *)
Definition blocking_fields : list string := ["inputs"; "arguments"; "executable"; "shell_command"].

Lemma blocked self field message : js_server_field self = Some (field, message) -> field ∈ blocking_fields -> job_form_disabled self = true.
Proof.
  intros Hs Hf. unfold job_form_disabled, job_errors. rewrite Hs. cbn [je_inputs je_arguments je_executable je_shell_command].
  unfold server_error. cbn. unfold blocking_fields in Hf. rewrite !elem_of_cons in Hf.
  destruct Hf as [->|[->|[->|[->|Hf]]]]; [..|by inversion Hf]; cbn; rewrite ?(bool_decide_eq_true_2 (is_Some (Some message))) by done;
    rewrite ?orb_true_r; done.
Qed.

Lemma blocked_step edit_id self self' field message : job_page edit_id self self' ->
  js_server_field self = Some (field, message) -> field ∈ blocking_fields -> js_submitting self = false ->
  js_server_field self' = Some (field, message) /\ js_submitting self' = false.
Proof.
  intros Hstep Hs Hf Hb. destruct Hstep as [self edit|self choices initialized|self Hd|self answer Ha].
  - destruct (edit_job_server edit self) as [-> ->]. done.
  - destruct (default_queue_server choices initialized self) as [-> ->]. done.
  - by rewrite (blocked self field message) in Hd.
  - congruence.
Qed.

(** C38: A refusal that names the inputs, the arguments, the executable or
    the script blocks the Job form for good.  The message of the server is
    part of what disables the button, and only pressing that button clears
    it: whatever the user changes afterwards, the corrected Job cannot be
    sent. *)
Theorem rejected_field_blocks_form edit_id self error field : ce_field error = Some field -> field ∈ blocking_fields ->
  forall self', rtc (job_page edit_id) (job_answer edit_id (Err error) self) self' -> job_form_disabled self' = true.
Proof.
  intros He Hf self' Hsteps.
  cut (js_server_field self' = Some (field, ce_message error) /\ js_submitting self' = false); [intros [Hs _]; by eapply blocked|].
  remember (job_answer edit_id (Err error) self) as start eqn:Hstart.
  assert (H : js_server_field start = Some (field, ce_message error) /\ js_submitting start = false).
  { subst. unfold job_answer. by rewrite He. }
  clear Hstart. induction Hsteps as [start|start middle last Hstep _ IH]; [done|]. apply IH. destruct H. by eapply blocked_step.
Qed.

(** ** Editing a stored Job *)

(** A number the form shows and reads back. *)
Definition number_kept (x : spec_float) : bool := match parse_float (display_f64 x) with Ok y => f64_eqb x y | Err _ => false end.

(** The request that stores the Job again. *)
Definition stored_request (job : api.JobResource) : api.CreateJobRequest :=
  api.mkCreateJobRequest (api.jr_name job) (api.jr_queue_id job) (api.jr_executor job) (api.jr_executable job) (api.jr_shell_command job)
    (api.jr_arguments job) (api.jr_inputs job) (api.jr_idempotent job) (api.jr_dry_run job) (api.jr_max_attempts job)
    (api.jr_retry_initial_seconds job) (api.jr_retry_max_seconds job) (api.jr_retry_multiplier job) (api.jr_retry_jitter job).

(** The input the handlers of a Job take from a request. *)
Definition job_input (r : api.CreateJobRequest) : CreateJobInput :=
  {| cj_name := api.cjr_name r; cj_queue_id := api.cjr_queue_id r;
     cj_executor := match api.cjr_executor r with api.EK_Noop => Noop | api.EK_Process => Process | api.EK_Shell => Shell end;
     cj_executable := api.cjr_executable r; cj_shell_command := api.cjr_shell_command r; cj_arguments := api.cjr_arguments r;
     cj_inputs := api.cjr_inputs r; cj_idempotent := api.cjr_idempotent r; cj_dry_run := api.cjr_dry_run r;
     cj_max_attempts := api.cjr_max_attempts r; cj_retry_initial_seconds := api.cjr_retry_initial_seconds r;
     cj_retry_max_seconds := api.cjr_retry_max_seconds r; cj_retry_multiplier := api.cjr_retry_multiplier r;
     cj_retry_jitter := api.cjr_retry_jitter r |}.

(** A Job as the server stores it, whose inputs and numbers survive the form's texts. *)
Record stored_job (job : api.JobResource) : Prop := {
  sj_name : canonical_label (api.jr_name job) = true;
  sj_valid : validate_job (job_input (stored_request job)) = Ok ();
  sj_normal : normalize_job_input (job_input (stored_request job)) = job_input (stored_request job);
  sj_inputs : from_str (pretty_json (api.jr_inputs job)) = Ok (api.jr_inputs job);
  sj_multiplier : number_kept (api.jr_retry_multiplier job) = true;
  sj_jitter : number_kept (api.jr_retry_jitter job) = true;
}.

Lemma number_kept_eq x : number_kept x = true -> parse_float (display_f64 x) = Ok x.
Proof. unfold number_kept. destruct (parse_float _) as [y|]; [|done]. by intros <-%f64_eqb_eq. Qed.

(** What the server's validation says of the fields. *)
Lemma validate_job_fields input : validate_job input = Ok () ->
  validate_argument_templates (cj_arguments input) = Ok () /\ validate_inputs (cj_inputs input) = Ok ()
  /\ 1 <= cj_max_attempts input <= 100 /\ 1 <= cj_retry_initial_seconds input <= cj_retry_max_seconds input
  /\ cj_retry_max_seconds input <= 86400 /\ validate_executor input = Ok ().
Proof.
  unfold validate_job, validate_arguments, validate_input_object. intros H.
  apply result_bind_ok in H as ([] & Ha & H). apply result_bind_ok in H as ([] & Hi & H).
  destruct (_ || _) in Ha; [discriminate|]. destruct (validate_argument_templates _) as [[]|]; [|discriminate Ha].
  destruct (validate_inputs _) as [[]|]; [|discriminate Hi].
  destruct (in_range 1 100 _) eqn:Hm; [|discriminate]. cbn [negb] in H. apply in_range_spec in Hm.
  destruct (in_range 1 86400 _) eqn:Hr; [|discriminate]. cbn [negb orb] in H. apply in_range_spec in Hr.
  destruct (cj_retry_max_seconds input <? _) eqn:Hlt; [discriminate|]. destruct (86400 <? _) eqn:Hlt'; [discriminate|].
  apply Z.ltb_ge in Hlt, Hlt'. cbn [orb] in H. case_match; [discriminate|]. split_and!; try done; lia.
Qed.

Lemma stored_request_built job : stored_job job -> job_request (fields_of job) = Ok (stored_request job).
Proof.
  intros [Hn Hv Hm Hi Hmul Hj]. pose proof (validate_job_fields _ Hv) as (_ & Hin & Ha & Hr & Hx & He).
  cbn in Hin, Ha, Hr, Hx. unfold job_request, parse_input_object, parse_integer. cbn [fields_of jf_queue_id jf_inputs jf_executor jf_executable
    jf_shell_command jf_max_attempts jf_retry_initial jf_retry_max jf_retry_multiplier jf_retry_jitter ok_or result_bind].
  rewrite Hi. cbn [map_err result_bind]. rewrite Hin. cbn [map_err result_bind].
  rewrite !parse_pretty by (lia || (apply in_range_spec; unfold u16_max, u32_max; lia)). cbn [ok_or result_bind].
  rewrite (number_kept_eq _ Hmul), (number_kept_eq _ Hj). cbn [result_bind jf_name jf_arguments jf_idempotent jf_dry_run].
  rewrite trim_canonical by done. unfold stored_request. do 2 f_equal.
  - injection Hm as Hm. unfold validate_executor in He. cbn in He. destruct (api.jr_executor job); cbn.
    + by destruct (api.jr_executable job).
    + destruct (api.jr_executable job); [exact Hm|done].
    + destruct (api.jr_executable job); [exact Hm|done].
  - unfold validate_executor in He. cbn in He. destruct (api.jr_executor job); cbn.
    + by destruct (api.jr_executable job), (api.jr_shell_command job).
    + destruct (path_valid _), (api.jr_shell_command job); done.
    + destruct (path_valid _), (api.jr_shell_command job); done.
Qed.

Lemma prefix_nonempty path : String.prefix "/" path = true -> (path =? "")%string = false.
Proof. by destruct path. Qed.

(** The local checks of the command pass for an executor the server accepted. *)
Lemma stored_executor job : stored_job job ->
  negb (executor_eqb (api.jr_executor job) api.EK_Noop) && (trim (default ""%string (api.jr_executable job)) =? "")%string = false
  /\ executor_eqb (api.jr_executor job) api.EK_Shell
     && ((trim (default ""%string (api.jr_shell_command job)) =? "")%string || contains "{{" (default ""%string (api.jr_shell_command job))) = false.
Proof.
  intros [_ Hv Hm _ _ _]. pose proof (validate_job_fields _ Hv) as (_ & _ & _ & _ & _ & He).
  injection Hm as Hm. unfold validate_executor in He. cbn in He.
  destruct (api.jr_executor job); cbn [executor_eqb negb andb]; [done|..];
    (destruct (api.jr_executable job) as [path|]; [|done]); cbn in He; injection Hm as Hm; change (default ""%string (Some path)) with path; rewrite Hm.
  - destruct (String.prefix "/" path) eqn:Hp; [|done]. split; [by apply prefix_nonempty|done].
  - destruct (String.prefix "/" path) eqn:Hp; [|done]. split; [by apply prefix_nonempty|].
    destruct (_ && _) in He; [|done]. destruct (api.jr_shell_command job) as [script|]; [|done].
    change (default ""%string (Some script)) with script. destruct (trim script =? "")%string; [done|]. cbn [orb andb] in He |- *. destruct (_ || _) in He; [done|]. by destruct (contains "{{" script).
Qed.

(** Opening a stored Job in the form and saving it unchanged stores the
    same Job again.  The form of any Job the server accepted starts enabled,
    and pressing its button sends one update of that Job whose body carries
    every field of the stored definition, provided that serde_json reads its
    own text of the inputs back and the two decimals read back too. *)
Theorem job_edit_roundtrip job : stored_job job ->
  let self := job_state_new (Some job) in
  job_form_disabled self = false
  /\ (job_submit (Some (api.jr_id job)) self).2 = Some (client.update_job (api.jr_id job) (update_job_request (stored_request job))).
Proof.
  intros Hjob. pose proof (stored_request_built job Hjob) as Hr. destruct (stored_executor job Hjob) as [Hx Hs].
  destruct Hjob as [Hn Hv _ Hi _ _]. pose proof (validate_job_fields _ Hv) as (Ha & Hin & _). cbn in Ha, Hin. split.
  - unfold job_form_disabled, job_errors. change (js_fields (job_state_new (Some job))) with (fields_of job). rewrite Hr.
    unfold server_error, parse_input_object. cbn. rewrite Hi. cbn. rewrite Hin, Ha. cbn. rewrite Hx, Hs. cbn.
    unfold name_validation_message. by rewrite trim_canonical, (canonical_label_valid (api.jr_name job) Hn), andb_false_r by done.
  - unfold job_submit. change (js_fields (job_state_new (Some job))) with (fields_of job). by rewrite Hr.
Qed.
End JobForm.
