(* ===== verification/JobPreview.v ===== *)
(** * The preview of a Job (apps/web/src/pages/jobs/preview.rs)

    The command and the inputs the form shows for a destination, and the
    agreement of that text with what the store records and a worker executes
    for a Run of the saved Job. *)

From S2P Require Import Prelude RustStr Json Inputs Names Text Float Domain Db Snapshot Store Catalog CatalogTheorems Validation Application Dispatcher Runner ApiTypes Web Resources Handlers WebClient Forms JobForm.
From Stdlib Require Import Ascii String.
From stdpp Require Import base numbers strings gmap list.

Local Open Scope Z_scope.
#[local] Opaque trim.

Definition newline_text : string := String "010" "".

Section JobPreview.
Context {SJ : SerdeJson} {RF : RustFmt} {JT : JsonText}.

(** [job_preview_options]: what is loaded so far. *)
Definition loaded_items {A} (resource : option (result (list A) ClientError)) : list A :=
  match resource with Some (Ok items) => items | _ => [] end.

Definition job_preview_options (targets : option (result (list api.TargetResource) ClientError))
    (sets : option (result (list api.TargetSetResource) ClientError)) : list ResourceOption :=
  map (fun target => mkResourceOption (api.tr_id target) ("Target · " ++ api.tr_name target)%string) (loaded_items targets)
  ++ map (fun set => mkResourceOption (api.tsr_id set) ("Target Set · " ++ api.tsr_name set)%string) (loaded_items sets).

(** The Targets of the destination, each with the inputs of the set it comes through. *)
Definition selected_targets (selected : Uuid) (targets : list api.TargetResource) (sets : list api.TargetSetResource)
  : option (list (api.TargetResource * option value)) :=
  match List.find (fun target => (api.tr_id target =? selected)%N) targets with
  | Some target => Some [(target, None)]
  | None =>
      set ← List.find (fun set => (api.tsr_id set =? selected)%N) sets;
      Some (omap (fun member => target ← List.find (fun target => (api.tr_id target =? api.tref_id member)%N) targets;
                                Some (target, Some (api.tsr_inputs set))) (api.tsr_targets set))
  end.

(** The text of one Target. *)
Definition preview_entry (fields : JobFields) (job_inputs : value) (entry : api.TargetResource * option value) : string :=
  let '(target, set_inputs) := entry in
  let executable := if executor_eqb (jf_executor fields) api.EK_Noop then "noop"%string else debug_str (trim (jf_executable fields)) in
  let merged :=
    let? inputs := merge_inputs [job_inputs; default (VObject []) set_inputs; api.tr_inputs target] in
    let? argv := render_arguments (jf_arguments fields ++ api.tr_arguments target) inputs in
    Ok (inputs, argv) in
  match merged with
  | Ok (merged_inputs, argv) =>
      (api.tr_name target ++ newline_text ++ "$ " ++ executable
       ++ (if executor_eqb (jf_executor fields) api.EK_Shell then " -c " ++ debug_str (jf_shell_command fields) ++ " crono-job" else "")
       ++ " " ++ Runner.join " " (map debug_str argv) ++ newline_text ++ "inputs: " ++ pretty_json merged_inputs)%string
  | Err error => (api.tr_name target ++ newline_text ++ "Preview error: " ++ display_input_error error)%string
  end.

Definition preview_text (fields : JobFields) (selected : option Uuid)
    (targets : option (result (list api.TargetResource) ClientError))
    (sets : option (result (list api.TargetSetResource) ClientError)) : string :=
  match selected with
  | None => "Select a Target or Target Set to preview its command and inputs."
  | Some selected =>
      match parse_input_object (jf_inputs fields) with
      | Err _ => "Fix the Job inputs to preview."
      | Ok job_inputs =>
          match selected_targets selected (loaded_items targets) (loaded_items sets) with
          | Some chosen => Runner.join (newline_text ++ newline_text) (map (preview_entry fields job_inputs) chosen)
          | None => "The selected preview destination is no longer available."
          end
      end
  end.

(** Destinations are loaded once a Namespace is selected. *)
Definition load_targets (fetch : nat -> Outgoing -> result (api.Page api.TargetResource) ClientError) (namespace : option Uuid)
  : result (list api.TargetResource) ClientError :=
  match namespace with Some id => client.all_targets fetch id | None => Ok [] end.
Definition load_target_sets (fetch : nat -> Outgoing -> result (api.Page api.TargetSetResource) ClientError) (namespace : option Uuid)
  : result (list api.TargetSetResource) ClientError :=
  match namespace with Some id => client.all_target_sets fetch id | None => Ok [] end.

(** ** What is executed *)

(** The command of a snapshot, written the way the preview writes it. *)
Definition shown_command (snapshot : ExecutionSnapshot) : string :=
  (match es_executor snapshot with
   | Noop => "noop"
   | Process => debug_str (default "" (es_executable snapshot))
   | Shell => debug_str (default "" (es_executable snapshot)) ++ " -c " ++ debug_str (default "" (es_shell_command snapshot)) ++ " crono-job"
   end ++ " " ++ Runner.join " " (map debug_str (es_arguments snapshot)))%string.

(** A child that was started is the command shown: the program, and its arguments one by one. *)
Definition shows_child (executor : ExecutorKind) (text : string) (command : Command) : Prop :=
  match executor with
  | Noop => False
  | Process => text = (debug_str (cmd_program command) ++ " " ++ Runner.join " " (map debug_str (cmd_args command)))%string
  | Shell => exists script argv, cmd_args command = ["-c"; script; "crono-job"]%string ++ argv
      /\ text = (debug_str (cmd_program command) ++ " -c " ++ debug_str script ++ " crono-job " ++ Runner.join " " (map debug_str argv))%string
  end.

(** Merging the empty object changes nothing. *)
Lemma merge_value_object base overlay : is_object base = true -> is_object overlay = true -> is_object (merge_value base overlay) = true.
Proof. by destruct base, overlay. Qed.

Lemma valid_layer_object v : validate_inputs v = Ok () -> is_object v = true.
Proof. unfold validate_inputs. by destruct (is_object v). Qed.

Lemma merge_layers_empty layers : validate_inputs (VObject []) = Ok () -> forall merged, is_object merged = true ->
  merge_layers merged (layers ++ [VObject []]) = merge_layers merged layers.
Proof.
  intros He. induction layers as [|layer layers IH]; intros merged Hm; cbn [app merge_layers].
  - rewrite He. cbn [result_bind]. by destruct merged.
  - destruct (validate_inputs layer) as [[]|] eqn:Hl; cbn [result_bind]; [|done]. apply IH. apply merge_value_object; [done|by apply valid_layer_object].
Qed.

Lemma merge_inputs_empty layers : encoded_len (VObject []) <= MAX_INPUT_BYTES -> merge_inputs (layers ++ [VObject []]) = merge_inputs layers.
Proof.
  intros He. unfold merge_inputs. rewrite merge_layers_empty; [done| |done].
  unfold validate_inputs. cbn. rewrite Z.gtb_ltb. by rewrite (proj2 (Z.ltb_ge _ _)) by lia.
Qed.

(** The parts of the saved Job that the preview reads. *)
Lemma request_fields fields r : job_request fields = Ok r ->
  parse_input_object (jf_inputs fields) = Ok (api.cjr_inputs r) /\ api.cjr_executor r = jf_executor fields
  /\ api.cjr_arguments r = jf_arguments fields
  /\ api.cjr_executable r = (if executor_eqb (jf_executor fields) api.EK_Noop then None else Some (trim (jf_executable fields)))
  /\ api.cjr_shell_command r = (if executor_eqb (jf_executor fields) api.EK_Shell then Some (jf_shell_command fields) else None)
  /\ in_u32 (api.cjr_retry_initial_seconds r) = true /\ in_u32 (api.cjr_retry_max_seconds r) = true.
Proof.
  unfold job_request. intros H. repeat (apply result_bind_ok in H as (? & ? & H)). injection H as <-. cbn.
  assert (Hu : forall s z, parse_integer in_u32 s = Ok z -> in_u32 z = true).
  { intros s z. unfold parse_integer, parse_unsigned. repeat (case_match; try done). all: intros [= <-]; done. }
  split_and!; eauto. destruct (parse_input_object _) eqn:E; [|done]. simplify_eq/=. done.
Qed.

(** A child is started only from a snapshot whose command it is. *)
Lemma spawned_shown system secrets snapshot dry_run command :
  ex_spawned (execute_snapshot system secrets snapshot dry_run) = Some command ->
  shows_child (es_executor snapshot) (shown_command snapshot) command /\ cmd_inputs command = es_inputs snapshot.
Proof.
  intros Hs.
  assert (exists executable, es_executor snapshot <> Noop /\ es_executable snapshot = Some executable /\ child_command system snapshot executable = Ok command)
    as (executable & Hn & He & Hc).
  { revert Hs. unfold execute_snapshot, execute_process. repeat (case_match; try discriminate); cbn; intros [= <-]; eexists; split_and!; try done; congruence. }
  unfold child_command in Hc. unfold shown_command. rewrite He. change (default ""%string (Some executable)) with executable.
  destruct (es_executor snapshot); [done|..].
  - injection Hc as <-. done.
  - destruct (es_shell_command snapshot) as [script|]; [|done]. injection Hc as <-. cbn. split; [|done].
    exists script, (es_arguments snapshot). split; [done|]. by rewrite <- !string_app_assoc.
Qed.

Section Run.
Context {RT : Rfc3339}.
Context (fields : JobFields) (r : api.CreateJobRequest) (d : DB) (job_id target_id namespace_id : Uuid) (name : ResourceName) (c u : Instant).
Context (x : ExecutionRow) (trow : TargetRow) (ns : string) (record : TargetRecord) (target : api.TargetResource).
Context (Hrequest : job_request fields = Ok r).
Context (Hjob : jobs d !! job_id = Some (job_row namespace_id name (job_definition (normalize_job_input (job_input r))) c u)).
Context (Hx : execution_row d job_id target_id = Some x).
Context (Htarget : targets d !! target_id = Some trow) (Hrecord : target_from_row (mkTargetJoin target_id trow ns) = Ok record).
Context (Hresource : target_resource record = Ok target).

Lemma target_fields : strings_of_value (t_arguments trow) = Some (api.tr_arguments target) /\ t_inputs trow = api.tr_inputs target.
Proof.
  unfold target_from_row in Hrecord. repeat (apply result_bind_ok in Hrecord as (? & ? & Hrecord)). injection Hrecord as <-.
  unfold target_resource in Hresource. repeat (apply result_bind_ok in Hresource as (? & ? & Hresource)). injection Hresource as <-. cbn.
  destruct (strings_of_value _); [|done]. simplify_eq/=. done.
Qed.

(** The row a Run of the saved Job is made from. *)
Lemma execution_fields : 
  x_executor x = executor_name (cj_executor (job_input r)) /\ x_executable x = api.cjr_executable r
  /\ x_shell_command x = api.cjr_shell_command r /\ strings_of_value (x_job_arguments x) = Some (jf_arguments fields)
  /\ strings_of_value (x_target_arguments x) = Some (api.tr_arguments target)
  /\ x_job_inputs x = api.cjr_inputs r /\ x_target_inputs x = api.tr_inputs target
  /\ x_retry_initial_seconds x = api.cjr_retry_initial_seconds r /\ x_retry_max_seconds x = api.cjr_retry_max_seconds r.
Proof.
  destruct target_fields as [Ha Hi]. destruct (request_fields _ _ Hrequest) as (_ & _ & Hargs & He & _).
  unfold execution_row in Hx. rewrite Hjob in Hx. cbn [mbind option_bind] in Hx.
  destruct (queues d !! _) as [q|]; [|done]. cbn [mbind option_bind] in Hx. rewrite Htarget in Hx. cbn in Hx.
  destruct (_ =? _)%N in Hx; [|done]. injection Hx as <-. cbn -[strings_of_value value_of_strings]. rewrite <- Hargs, (strings_roundtrip (api.cjr_arguments r)).
  split_and!; try done. rewrite He. destruct (executor_eqb _ _); [done|]. cbn. by rewrite trim_idem.
Qed.

(** The command of the saved Job is the one the fields show. *)
Lemma shown_fields snapshot : es_executor snapshot = cj_executor (job_input r) -> es_executable snapshot = api.cjr_executable r ->
  es_shell_command snapshot = api.cjr_shell_command r ->
  shown_command snapshot =
    ((if executor_eqb (jf_executor fields) api.EK_Noop then "noop" else debug_str (trim (jf_executable fields)))
     ++ (if executor_eqb (jf_executor fields) api.EK_Shell then " -c " ++ debug_str (jf_shell_command fields) ++ " crono-job" else "")
     ++ " " ++ Runner.join " " (map debug_str (es_arguments snapshot)))%string.
Proof.
  intros He Hx' Hs. destruct (request_fields _ _ Hrequest) as (_ & Hk & _ & Hexe & Hsh & _).
  unfold shown_command. rewrite He, Hx', Hs, Hexe, Hsh. cbn [job_input cj_executor]. rewrite Hk.
  destruct (jf_executor fields); cbn [executor_eqb]; [done..|]. change (default ""%string (Some ?s)) with s. cbn. by rewrite <- !string_app_assoc.
Qed.

Lemma preview_of_row set_inputs run_id trigger at_ : encoded_len (VObject []) <= MAX_INPUT_BYTES ->
  match execution_snapshot_with_inputs run_id x set_inputs empty_object trigger at_ with
  | Ok snapshot =>
      preview_entry fields (api.cjr_inputs r) (target, set_inputs)
      = (api.tr_name target ++ newline_text ++ "$ " ++ shown_command snapshot ++ newline_text ++ "inputs: " ++ pretty_json (es_inputs snapshot))%string
  | Err error => preview_entry fields (api.cjr_inputs r) (target, set_inputs) = (api.tr_name target ++ newline_text ++ "Preview error: " ++ error)%string
  end.
Proof.
  intros Hempty. destruct execution_fields as (He & Hexe & Hsh & Hja & Hta & Hji & Hti & Hri & Hrm).
  destruct (request_fields _ _ Hrequest) as (_ & _ & _ & _ & _ & Hui & Hum).
  unfold execution_snapshot_with_inputs, effective_inputs. rewrite Hja, Hta. cbn [ok_or result_bind]. rewrite Hji, Hti.
  change [api.cjr_inputs r; default empty_object set_inputs; api.tr_inputs target; empty_object]
    with ([api.cjr_inputs r; default empty_object set_inputs; api.tr_inputs target] ++ [VObject []]).
  rewrite merge_inputs_empty by done. unfold preview_entry. fold empty_object.
  destruct (merge_inputs _) as [inputs|e]; cbn [map_err result_bind]; [|done].
  destruct (render_arguments _ _) as [argv|e]; cbn [map_err result_bind]; [|done].
  rewrite He, Hri, Hrm. unfold try_from. rewrite Hui, Hum.
  replace (if (executor_name (cj_executor (job_input r)) =? "noop")%string then Ok Noop else _)
    with (Ok (cj_executor (job_input r)) : result ExecutorKind string) by (by destruct (cj_executor (job_input r))).
  cbn [result_bind]. rewrite shown_fields by done. cbn. by rewrite <- !string_app_assoc.
Qed.
End Run.

(** C35: The preview of the Job form is what a Run of the saved Job does.
    For every destination the form can show, the preview is one entry per
    Target of the destination.  Once the Job is saved as the form submits it,
    the entry of a stored Target shows the command and the inputs of the very
    snapshot that the store records for a Run without further inputs, through
    the same Target Set or directly; a worker that starts a child from that
    snapshot starts the program and the arguments shown, with the inputs
    shown; and the entry shows an error exactly when no snapshot can be made,
    with the reason the Run is refused for. *)
Theorem preview_matches_run `{RT : Rfc3339} fields r d job_id target_id namespace_id name c u x trow ns record target set_inputs
    selected targets_ sets_ chosen run_id trigger at_ :
  encoded_len (VObject []) <= MAX_INPUT_BYTES ->
  job_request fields = Ok r ->
  jobs d !! job_id = Some (job_row namespace_id name (job_definition (normalize_job_input (job_input r))) c u) ->
  targets d !! target_id = Some trow -> target_from_row (mkTargetJoin target_id trow ns) = Ok record -> target_resource record = Ok target ->
  execution_row d job_id target_id = Some x ->
  selected_targets selected targets_ sets_ = Some chosen -> (target, set_inputs) ∈ chosen ->
  preview_text fields (Some selected) (Some (Ok targets_)) (Some (Ok sets_))
  = Runner.join (newline_text ++ newline_text) (map (preview_entry fields (api.cjr_inputs r)) chosen)
  /\ match execution_snapshot_with_inputs run_id x set_inputs empty_object trigger at_ with
     | Ok snapshot =>
         preview_entry fields (api.cjr_inputs r) (target, set_inputs)
         = (api.tr_name target ++ newline_text ++ "$ " ++ shown_command snapshot ++ newline_text
            ++ "inputs: " ++ pretty_json (es_inputs snapshot))%string
         /\ forall system secrets dry_run command, ex_spawned (execute_snapshot system secrets snapshot dry_run) = Some command ->
              shows_child (es_executor snapshot) (shown_command snapshot) command /\ cmd_inputs command = es_inputs snapshot
     | Err error =>
         preview_entry fields (api.cjr_inputs r) (target, set_inputs)
         = (api.tr_name target ++ newline_text ++ "Preview error: " ++ error)%string
     end.
Proof.
  intros Hempty Hr Hj Ht Hrec Hres Hx Hsel _. split.
  - unfold preview_text. destruct (request_fields _ _ Hr) as [-> _]. cbn [loaded_items]. by rewrite Hsel.
  - pose proof (preview_of_row _ _ _ _ _ _ _ _ _ _ _ _ _ _ Hr Hj Hx Ht Hrec Hres set_inputs run_id trigger at_ Hempty) as H.
    destruct (execution_snapshot_with_inputs _ _ _ _ _ _) as [snapshot|error]; [|done]. split; [done|]. intros. by eapply spawned_shown.
Qed.
End JobPreview.
