(* ===== verification/ResourceForms.v ===== *)
(** * The other forms (apps/web/src/pages)

    Targets (targets/form.rs), Target Sets (target_sets.rs), Schedules
    (schedules.rs) and manual Runs (runs/new.rs): their fields, messages,
    requests and answers, and what the server's validation says of the
    requests they send. *)

From S2P Require Import Prelude RustStr Json Inputs Names Text Domain Validation ApiTypes Web Resources Handlers WebClient Forms.
From Stdlib Require Import Ascii String.
From stdpp Require Import base numbers strings gmap list pretty relations.

Local Open Scope Z_scope.
#[local] Opaque trim.

Section ResourceForms.
Context {SJ : SerdeJson} {RF : RustFmt} {JT : JsonText}.

Definition arguments_error (server_field : option (string * string)) (arguments : list string) : option string :=
  or_else (server_error server_field "arguments")
    (match validate_argument_templates arguments with Ok _ => None | Err e => Some (display_input_error e) end).

Definition inputs_error (server_field : option (string * string)) (inputs : string) : option string :=
  or_else (server_error server_field "inputs") (match parse_input_object inputs with Ok _ => None | Err e => Some e end).

(** ** Targets (targets/form.rs) *)

Record TargetForm : Type := mkTargetForm {
  tf_namespace_id : option Uuid;
  tf_name : string;
  tf_arguments : list string;
  tf_inputs : string;
  tf_attempted : bool;
  tf_submitting : bool;
  tf_server_field : option (string * string);
  tf_feedback : option ResourceFeedback;
}.

Definition target_form_new (initial : option api.TargetResource) : TargetForm :=
  mkTargetForm (api.tr_namespace_id <$> initial) (from_option api.tr_name ""%string initial) (from_option api.tr_arguments [] initial)
    (from_option (fun target => pretty_json (api.tr_inputs target)) "{}"%string initial) false false None None.

(** The starter Target keeps its name. *)
Definition editing_default (initial : option api.TargetResource) : bool :=
  from_option (fun target => (api.tr_namespace target =? "default")%string && (api.tr_name target =? "default")%string) false initial.

Record TargetErrors : Type := mkTargetErrors {
  te_namespace : option string;
  te_name : option string;
  te_inputs : option string;
  te_arguments : option string;
}.

Definition target_errors (self : TargetForm) : TargetErrors :=
  mkTargetErrors
    (or_else (server_error (tf_server_field self) "namespace_id") (missing_choice (tf_attempted self) (tf_namespace_id self) "Select a Namespace."))
    (or_else (server_error (tf_server_field self) "name") (visible_name_validation (tf_name self) (tf_attempted self)))
    (inputs_error (tf_server_field self) (tf_inputs self))
    (arguments_error (tf_server_field self) (tf_arguments self)).

Definition target_form_disabled (self : TargetForm) : bool :=
  tf_submitting self || negb (bool_decide (is_Some (tf_namespace_id self)))
  || bool_decide (is_Some (name_validation_message (tf_name self) true))
  || bool_decide (is_Some (te_inputs (target_errors self))) || bool_decide (is_Some (te_arguments (target_errors self))).

Definition save_target (edit_id : option Uuid) (namespace : Uuid) (create : api.CreateTargetRequest) : Outgoing :=
  match edit_id with
  | Some id => client.update_target id (api.mkUpdateTargetRequest (api.ctr_name create) (api.ctr_arguments create) (api.ctr_inputs create))
  | None => client.create_target namespace create
  end.

(** The checks and the request of [target_submit]; the server's messages were cleared before. *)
Definition target_request (self : TargetForm) : option (Uuid * api.CreateTargetRequest) :=
  namespace ← tf_namespace_id self;
  match parse_input_object (tf_inputs self) with
  | Err _ => None
  | Ok inputs =>
      if bool_decide (is_Some (name_validation_message (tf_name self) true)) || bool_decide (is_Some (arguments_error None (tf_arguments self)))
      then None
      else Some (namespace, api.mkCreateTargetRequest (trim (tf_name self)) (tf_arguments self) inputs)
  end.

Definition target_submit (edit_id : option Uuid) (self : TargetForm) : TargetForm * option Outgoing :=
  if tf_submitting self then (self, None)
  else
    let attempted submitting := mkTargetForm (tf_namespace_id self) (tf_name self) (tf_arguments self) (tf_inputs self) true submitting None None in
    match target_request self with
    | Some (namespace, create) => (attempted true, Some (save_target edit_id namespace create))
    | None => (attempted false, None)
    end.

(** The answer: an edit shows what was stored, a creation clears the form. *)
Definition target_answer (edit_id : option Uuid) (answer : result api.TargetResource ClientError) (self : TargetForm) : TargetForm :=
  match answer with
  | Ok target =>
      let message := ("Saved Target " ++ api.tr_qualified_name target ++ ".")%string in
      match edit_id with
      | Some _ => mkTargetForm (tf_namespace_id self) (api.tr_name target) (api.tr_arguments target) (pretty_json (api.tr_inputs target))
          (tf_attempted self) false (tf_server_field self) (Some (feedback_saved message "Continue editing"))
      | None => mkTargetForm (tf_namespace_id self) "" [] "{}" false false None (Some (feedback_saved message "Create another Target"))
      end
  | Err error =>
      let server_field := match ce_field error with Some field => Some (field, ce_message error) | None => tf_server_field self end in
      mkTargetForm (tf_namespace_id self) (tf_name self) (tf_arguments self) (tf_inputs self) (tf_attempted self) false server_field
        (Some (feedback_failed (ce_message error)))
  end.

(** ** Target Sets (target_sets.rs) *)

Record TargetSetForm : Type := mkTargetSetForm {
  sf_namespace_id : option Uuid;
  sf_editing_id : option Uuid;
  sf_name : string;
  sf_target_ids : list Uuid;
  sf_inputs : string;
  sf_attempted : bool;
  sf_submitting : bool;
  sf_server_field : option (string * string);
  sf_feedback : option ResourceFeedback;
}.

Definition target_set_form_new : TargetSetForm := mkTargetSetForm None None "" [] "{}" false false None None.

Definition target_set_reset (self : TargetSetForm) : TargetSetForm :=
  mkTargetSetForm (sf_namespace_id self) None "" [] "{}" false (sf_submitting self) None (sf_feedback self).

Definition member_error (self : TargetSetForm) : option string :=
  or_else (server_error (sf_server_field self) "target_ids")
    (if sf_attempted self && (length (sf_target_ids self) =? 0)%nat then Some "Select at least one Target."%string else None).

Definition target_set_form_disabled (self : TargetSetForm) : bool :=
  sf_submitting self || negb (bool_decide (is_Some (sf_namespace_id self))) || (length (sf_target_ids self) =? 0)%nat
  || bool_decide (is_Some (name_validation_message (sf_name self) true))
  || bool_decide (is_Some (inputs_error (sf_server_field self) (sf_inputs self))).

(** [clear_target_set_selection]: another Namespace clears the members and the edited set. *)
Definition choose_set_namespace (selected : option Uuid) (self : TargetSetForm) : TargetSetForm :=
  if bool_decide (sf_namespace_id self = selected) then self
  else mkTargetSetForm selected None (sf_name self) [] (sf_inputs self) (sf_attempted self) (sf_submitting self) (sf_server_field self) (sf_feedback self).

(** The button that edits a set of the list, which shows the selected Namespace. *)
Definition edit_target_set (set : api.TargetSetResource) (self : TargetSetForm) : TargetSetForm :=
  mkTargetSetForm (Some (api.tsr_namespace_id set)) (Some (api.tsr_id set)) (api.tsr_name set) (map api.tref_id (api.tsr_targets set))
    (pretty_json (api.tsr_inputs set)) (sf_attempted self) (sf_submitting self) (sf_server_field self) (sf_feedback self).

Definition target_set_request (self : TargetSetForm) : option (Uuid * api.CreateTargetSetRequest) :=
  namespace ← sf_namespace_id self;
  match parse_input_object (sf_inputs self) with
  | Err _ => None
  | Ok inputs =>
      let request := api.mkCreateTargetSetRequest (trim (sf_name self)) (sf_target_ids self) inputs in
      if bool_decide (is_Some (name_validation_message (api.ctsr_name request) true)) || (length (api.ctsr_target_ids request) =? 0)%nat
      then None else Some (namespace, request)
  end.

Definition save_target_set (current_edit : option Uuid) (namespace : Uuid) (request : api.CreateTargetSetRequest) : Outgoing :=
  match current_edit with
  | Some id => client.update_target_set id
      (api.mkUpdateTargetSetRequest (api.ctsr_name request) (api.ctsr_target_ids request) (api.ctsr_inputs request))
  | None => client.create_target_set namespace request
  end.

Definition target_set_submit (self : TargetSetForm) : TargetSetForm * option Outgoing :=
  if sf_submitting self then (self, None)
  else
    let attempted submitting := mkTargetSetForm (sf_namespace_id self) (sf_editing_id self) (sf_name self) (sf_target_ids self)
      (sf_inputs self) true submitting None None in
    match target_set_request self with
    | Some (namespace, request) => (attempted true, Some (save_target_set (sf_editing_id self) namespace request))
    | None => (attempted false, None)
    end.

(** The answer to the call that was made for [current_edit]. *)
Definition target_set_answer (current_edit : option Uuid) (answer : result api.TargetSetResource ClientError) (self : TargetSetForm)
  : TargetSetForm :=
  let settled self server_field feedback := mkTargetSetForm (sf_namespace_id self) (sf_editing_id self) (sf_name self) (sf_target_ids self)
    (sf_inputs self) (sf_attempted self) false server_field (Some feedback) in
  match answer with
  | Ok set =>
      let self := target_set_reset self in
      settled self (sf_server_field self) (feedback_saved ("Saved " ++ api.tsr_qualified_name set ++ ".")%string
        (match current_edit with Some _ => "Done" | None => "Create another Target Set" end)%string)
  | Err error =>
      let server_field := match ce_field error with
        | Some field => Some (field, ce_message error)
        | None => if (ce_code error =? "already_exists")%string then Some ("name"%string, ce_message error) else sf_server_field self
        end in
      settled self server_field (feedback_failed (ce_message error))
  end.

(** ** Destinations *)

(** [schedule_destinations] and [destination_options] *)
Definition destinations (targets sets : list ResourceOption) : list ResourceOption :=
  map (fun option => mkResourceOption (ro_id option) ("Target · " ++ ro_label option)%string) targets
  ++ map (fun option => mkResourceOption (ro_id option) ("Target Set · " ++ ro_label option)%string) sets.

(** A destination is a Target Set when the sets hold it. *)
Definition execution_target (sets : list ResourceOption) (destination : Uuid) : api.ExecutionTarget :=
  if existsb (fun option => (ro_id option =? destination)%N) sets then api.ET_TargetSet destination else api.ET_Target destination.

(** ** Schedules (schedules.rs) *)

Record ScheduleForm : Type := mkScheduleForm {
  cf_namespace_id : option Uuid;
  cf_name : string;
  cf_job_id : option Uuid;
  cf_destination_id : option Uuid;
  cf_timing : string;
  cf_cron_expression : string;
  cf_execute_at : string;
  cf_timezone : string;
  cf_inputs : string;
  cf_attempted : bool;
  cf_submitting : bool;
  cf_feedback : option ResourceFeedback;
  cf_server_field : option (string * string);
}.

Definition schedule_form_new : ScheduleForm := mkScheduleForm None "" None None "cron" "0 * * * *" "" "UTC" "{}" false false None None.

Definition schedule_reset (self : ScheduleForm) : ScheduleForm :=
  mkScheduleForm (cf_namespace_id self) "" None None (cf_timing self) (cf_cron_expression self) (cf_execute_at self) (cf_timezone self)
    "{}" false (cf_submitting self) (cf_feedback self) None.

(** [clear_schedule_selections] *)
Definition choose_schedule_namespace (selected : option Uuid) (self : ScheduleForm) : ScheduleForm :=
  if bool_decide (cf_namespace_id self = selected) then self
  else mkScheduleForm selected (cf_name self) None None (cf_timing self) (cf_cron_expression self) (cf_execute_at self) (cf_timezone self)
    (cf_inputs self) (cf_attempted self) (cf_submitting self) (cf_feedback self) (cf_server_field self).

Definition choice_error (self : ScheduleForm) (selected : option Uuid) (field : string) : option string :=
  or_else (server_error (cf_server_field self) field)
    (missing_choice (cf_attempted self) selected
       (if (field =? "namespace_id")%string then "Select a Namespace."
        else if (field =? "job_id")%string then "Select a Job." else "Select a Target or Target Set.")).

Definition schedule_form_disabled (self : ScheduleForm) : bool :=
  cf_submitting self || negb (bool_decide (is_Some (cf_namespace_id self))) || negb (bool_decide (is_Some (cf_job_id self)))
  || negb (bool_decide (is_Some (cf_destination_id self))) || bool_decide (is_Some (name_validation_message (cf_name self) true))
  || bool_decide (is_Some (inputs_error (cf_server_field self) (cf_inputs self)))
  || ((cf_timing self =? "cron")%string && (trim (cf_cron_expression self) =? "")%string)
  || ((cf_timing self =? "once")%string && (trim (cf_execute_at self) =? "")%string).

Definition schedule_request (sets : list ResourceOption) (self : ScheduleForm) : option (Uuid * api.CreateScheduleRequest) :=
  namespace ← cf_namespace_id self;
  job ← cf_job_id self;
  destination ← cf_destination_id self;
  match parse_input_object (cf_inputs self) with
  | Err _ => None
  | Ok inputs =>
      let is_cron := (cf_timing self =? "cron")%string in
      let request := api.mkCreateScheduleRequest (trim (cf_name self)) job (execution_target sets destination) inputs
        (if is_cron then Some (trim (cf_cron_expression self)) else None) (if is_cron then None else Some (trim (cf_execute_at self)))
        (trim (cf_timezone self)) api.MP_RunLate None api.CP_RunOnce 100 86400 in
      if bool_decide (is_Some (name_validation_message (api.csr_name request) true)) then None else Some (namespace, request)
  end.

Definition schedule_submit (sets : list ResourceOption) (self : ScheduleForm) : ScheduleForm * option Outgoing :=
  if cf_submitting self then (self, None)
  else
    let attempted submitting := mkScheduleForm (cf_namespace_id self) (cf_name self) (cf_job_id self) (cf_destination_id self)
      (cf_timing self) (cf_cron_expression self) (cf_execute_at self) (cf_timezone self) (cf_inputs self) true submitting None None in
    match schedule_request sets self with
    | Some (namespace, request) => (attempted true, Some (client.create_schedule namespace request))
    | None => (attempted false, None)
    end.

Definition schedule_answer (answer : result api.ScheduleResource ClientError) (self : ScheduleForm) : ScheduleForm :=
  let settled self server_field feedback := mkScheduleForm (cf_namespace_id self) (cf_name self) (cf_job_id self) (cf_destination_id self)
    (cf_timing self) (cf_cron_expression self) (cf_execute_at self) (cf_timezone self) (cf_inputs self) (cf_attempted self) false
    (Some feedback) server_field in
  match answer with
  | Ok schedule =>
      let self := schedule_reset self in
      settled self (cf_server_field self)
        (feedback_saved ("Created " ++ api.sr_namespace schedule ++ "/" ++ api.sr_name schedule ++ ".")%string "Create another Schedule")
  | Err error =>
      let server_field := match ce_field error with
        | Some field => Some (field, ce_message error)
        | None => if (ce_code error =? "already_exists")%string then Some ("name"%string, ce_message error) else cf_server_field self
        end in
      settled self server_field (feedback_failed (ce_message error))
  end.

(** The button that enables or disables a Schedule of the list, unless one is being updated. *)
Definition toggle_schedule (updating : bool) (schedule : api.ScheduleResource) : option Outgoing :=
  if updating then None
  else Some (client.update_schedule (api.sr_id schedule) (api.mkUpdateScheduleRequest (api.sr_revision schedule) (negb (api.sr_enabled schedule)))).

Definition toggle_feedback (answer : result api.ScheduleResource ClientError) : ResourceFeedback :=
  match answer with
  | Ok _ => feedback_saved "Schedule updated." "Done"
  | Err error => mkResourceFeedback (ce_message error) false "Close" false
  end.

(** ** Manual Runs (runs/new.rs) *)

Record RunForm : Type := mkRunForm {
  nf_namespace_id : option Uuid;
  nf_job_id : option Uuid;
  nf_target_id : option Uuid;
  nf_inputs : string;
  nf_attempted : bool;
  nf_submitting : bool;
  nf_feedback : option string;
  nf_created_id : option Uuid;
}.

Definition run_form_new : RunForm := mkRunForm None None None "{}" false false None None.

Definition reset_form (self : RunForm) : RunForm := mkRunForm (nf_namespace_id self) None None "{}" false (nf_submitting self) None None.

Definition choose_run_namespace (selected : option Uuid) (self : RunForm) : RunForm :=
  if bool_decide (nf_namespace_id self = selected) then self
  else mkRunForm selected None None (nf_inputs self) (nf_attempted self) (nf_submitting self) (nf_feedback self) (nf_created_id self).

Definition run_form_disabled (self : RunForm) : bool :=
  nf_submitting self || negb (bool_decide (is_Some (nf_job_id self))) || negb (bool_decide (is_Some (nf_target_id self)))
  || is_err (parse_input_object (nf_inputs self)).

(** The request identifier is drawn by the call. *)
Definition run_request (sets : list ResourceOption) (request_id : Uuid) (self : RunForm) : option api.CreateRunRequest :=
  job ← nf_job_id self;
  target ← nf_target_id self;
  match parse_input_object (nf_inputs self) with
  | Err _ => None
  | Ok inputs => Some (api.mkCreateRunRequest request_id job (execution_target sets target) inputs)
  end.

Definition run_submit (sets : list ResourceOption) (request_id : Uuid) (self : RunForm) : RunForm * option Outgoing :=
  let attempted submitting := mkRunForm (nf_namespace_id self) (nf_job_id self) (nf_target_id self) (nf_inputs self) true submitting None None in
  match run_request sets request_id self with
  | Some r => (attempted true, Some (client.create_run (api.crr_request_id r) (api.crr_job_id r) (api.crr_target r) (api.crr_inputs r)))
  | None => (attempted (nf_submitting self), None)
  end.

Definition run_answer (answer : result api.RunBatchResource ClientError) (self : RunForm) : RunForm :=
  let settled feedback created := mkRunForm (nf_namespace_id self) (nf_job_id self) (nf_target_id self) (nf_inputs self) (nf_attempted self)
    false (Some feedback) created in
  match answer with
  | Ok batch => settled ("Created " ++ pretty (length (api.rbr_runs batch)) ++ " Run(s).")%string (api.run_id <$> head (api.rbr_runs batch))
  | Err error => settled (ce_message error) (nf_created_id self)
  end.

(** ** What the server says of the requests *)

Lemma name_accepted name : bool_decide (is_Some (name_validation_message name true)) = false ->
  parse_resource_name (trim name) = Ok (MkResourceName (trim name)).
Proof.
  intros H%bool_decide_eq_false. unfold name_validation_message in H. cbn [negb] in H. rewrite andb_false_r in H.
  unfold parse_resource_name, ResourceNameM.parse. rewrite trim_idem. destruct (validate_resource_name (trim name)) as [[]|]; [done|].
  exfalso. apply H. by eexists.
Qed.

Lemma inputs_accepted text inputs : parse_input_object text = Ok inputs -> validate_input_object inputs = Ok ().
Proof.
  unfold parse_input_object, validate_input_object. intros H. apply result_bind_ok in H as (parsed & _ & H).
  apply result_bind_ok in H as ([] & Hv & [= <-]). by destruct (validate_inputs parsed) as [[]|].
Qed.

Lemma arguments_accepted arguments : bool_decide (is_Some (arguments_error None arguments)) = false -> validate_argument_templates arguments = Ok ().
Proof.
  intros H%bool_decide_eq_false. unfold arguments_error, server_error in H. cbn in H.
  destruct (validate_argument_templates arguments) as [[]|]; [done|]. exfalso. apply H. by eexists.
Qed.

(** The page of Target Sets: its fields, its list, its button and its answers. *)
Inductive target_set_page : TargetSetForm -> TargetSetForm -> Prop :=
| set_types self name inputs : target_set_page self (mkTargetSetForm (sf_namespace_id self) (sf_editing_id self) name (sf_target_ids self) inputs
    (sf_attempted self) (sf_submitting self) (sf_server_field self) (sf_feedback self))
| set_members self ids choices id checked : ids = retain_members choices (sf_target_ids self) \/ ids = toggle_member id checked (sf_target_ids self) ->
    target_set_page self (mkTargetSetForm (sf_namespace_id self) (sf_editing_id self) (sf_name self) ids (sf_inputs self)
      (sf_attempted self) (sf_submitting self) (sf_server_field self) (sf_feedback self))
| set_namespace self selected : target_set_page self (choose_set_namespace selected self)
| set_edit self set : NoDup (map api.tref_id (api.tsr_targets set)) -> target_set_page self (edit_target_set set self)
| set_cancel self : target_set_page self (target_set_reset self)
| set_submit self : target_set_page self (target_set_submit self).1
| set_answer self current_edit answer : target_set_page self (target_set_answer current_edit answer self).

Lemma list_filter_NoDup {A} (p : A -> bool) l : NoDup l -> NoDup (List.filter p l).
Proof. rewrite !NoDup_ListNoDup. apply List.NoDup_filter. Qed.

Lemma toggle_member_NoDup id checked selected : NoDup selected -> NoDup (toggle_member id checked selected).
Proof.
  intros H. unfold toggle_member. destruct checked; cbn [andb negb].
  - destruct (existsb (N.eqb id) selected) eqn:E; cbn [negb]; [done|]. apply NoDup_app. split_and!; [done| |apply NoDup_singleton].
    intros x Hx ->%list_elem_of_singleton. enough (existsb (N.eqb id) selected = true) by congruence.
    apply existsb_exists. exists id. split; [by apply list_elem_of_In|apply N.eqb_refl].
  - by apply list_filter_NoDup.
Qed.

Lemma set_page_NoDup self self' : target_set_page self self' -> NoDup (sf_target_ids self) -> NoDup (sf_target_ids self').
Proof.
  intros H Hn. destruct H as [| self ids choices id checked [->| ->] | | self set Hset | | |self current_edit answer]; cbn; try done.
  - unfold retain_members. destruct (_ && _); [by apply list_filter_NoDup|done].
  - by apply toggle_member_NoDup.
  - unfold choose_set_namespace. case_bool_decide; [done|constructor].
  - constructor.
  - unfold target_set_submit. repeat (case_match; try done).
  - unfold target_set_answer. destruct answer; [constructor|done].
Qed.

(** What the server asks of arguments and the forms do not check. *)
Definition bounded_arguments (arguments : list string) : Prop :=
  (length arguments <= 128)%nat /\ Forall (fun a => (slen a <= 4096)%Z /\ contains_nul a = false) arguments.

Lemma templates_bounded arguments :
  validate_argument_templates arguments = Ok () -> validate_arguments arguments = Ok () <-> bounded_arguments arguments.
Proof.
  intros Ht. unfold validate_arguments. rewrite Ht. cbn [map_err].
  assert (existsb (fun a => (4096 <? slen a)%Z || contains_nul a) arguments = false
    <-> Forall (fun a => (slen a <= 4096)%Z /\ contains_nul a = false) arguments) as Hf.
  { clear Ht. induction arguments as [|a l IH]; [done|]. cbn [existsb]. rewrite !orb_false_iff, Forall_cons, Z.ltb_ge. tauto. }
  unfold bounded_arguments. rewrite <- Hf. destruct (Nat.ltb_spec 128 (length arguments)) as [H|H]; cbn [orb]; [split; [done|lia]|].
  destruct (existsb _ _); split; try done. by intros [_ ?].
Qed.

Lemma target_request_valid self namespace r : target_request self = Some (namespace, r) ->
  parse_resource_name (api.ctr_name r) = Ok (MkResourceName (api.ctr_name r))
  /\ (validate_arguments (api.ctr_arguments r) = Ok () <-> bounded_arguments (api.ctr_arguments r))
  /\ validate_input_object (api.ctr_inputs r) = Ok ().
Proof.
  unfold target_request. intros (ns & _ & H)%bind_Some. destruct (parse_input_object _) as [inputs|] eqn:Hi; [|done].
  destruct (_ || _) eqn:Hc; [done|]. apply orb_false_iff in Hc as [Hn Ha]. injection H as <- <-. cbn.
  split_and!; [by apply name_accepted|by apply templates_bounded, arguments_accepted|by eapply inputs_accepted].
Qed.

Lemma target_set_request_valid self namespace r : NoDup (sf_target_ids self) -> target_set_request self = Some (namespace, r) ->
  parse_resource_name (api.ctsr_name r) = Ok (MkResourceName (api.ctsr_name r)) /\ validate_input_object (api.ctsr_inputs r) = Ok ()
  /\ (validate_target_ids (api.ctsr_target_ids r) = Ok () <-> (length (api.ctsr_target_ids r) <= 1000)%nat).
Proof.
  intros Hd. unfold target_set_request. intros (ns & _ & H)%bind_Some. destruct (parse_input_object _) as [inputs|] eqn:Hi; [|done].
  cbn [api.ctsr_name api.ctsr_target_ids] in H. destruct (_ || _) eqn:Hc; [done|]. apply orb_false_iff in Hc as [Hn Ha]. injection H as <- <-. cbn.
  split_and!; [|by eapply inputs_accepted|].
  - rewrite <- (trim_idem (sf_name self)) at 1. rewrite name_accepted by done. by rewrite trim_idem.
  - unfold validate_target_ids. rewrite Ha, size_list_to_set by done. rewrite Nat.eqb_refl. cbn [orb negb]. change MAX_TARGET_SET_MEMBERS with 1000%nat.
    by destruct (Nat.ltb_spec 1000 (length (sf_target_ids self))) as [H|H]; (split; [done || (intros; lia)|done || (intros; lia)]).
Qed.

Lemma schedule_request_valid sets self namespace r : schedule_request sets self = Some (namespace, r) ->
  parse_resource_name (api.csr_name r) = Ok (MkResourceName (api.csr_name r)) /\ validate_input_object (api.csr_inputs r) = Ok ()
  /\ validate_schedule_policy (domain_misfire (api.csr_misfire_policy r)) (api.csr_misfire_grace_seconds r)
       (api.csr_max_catchup_runs r) (api.csr_max_catchup_age_seconds r) = Ok ()
  /\ (is_Some (api.csr_cron_expression r) <-> api.csr_execute_at r = None).
Proof.
  unfold schedule_request. intros (ns & _ & H)%bind_Some. apply bind_Some in H as (job & _ & H). apply bind_Some in H as (destination & _ & H).
  destruct (parse_input_object _) as [inputs|] eqn:Hi; [|done]. cbn [api.csr_name] in H. destruct (bool_decide _) eqn:Hn; [done|].
  injection H as <- <-. cbn. split_and!; [|by eapply inputs_accepted|done|].
  - rewrite <- (trim_idem (cf_name self)) at 1. rewrite name_accepted by done. by rewrite trim_idem.
  - destruct (_ =? _)%string; split; try done.
Qed.

(** C36: What the forms send is never refused for something the form itself
    checked.  The name and the inputs of every Target, Target Set, Schedule
    and manual Run that a form sends pass the server's validation of them, and
    so does the policy of a Schedule, which names exactly one of a cron
    expression and an instant.  The arguments of a Target are refused exactly
    when they are more than 128, or one is longer than 4096 bytes or holds a
    NUL, which no form checks; the members of a Target Set, of which, whatever
    was clicked, none is listed twice and at least one is, exactly when they
    are more than 1000. *)
Theorem forms_pass_validation edit_id sets request_id :
  (forall self self' call, target_submit edit_id self = (self', Some call) -> exists namespace r,
     call = save_target edit_id namespace r /\ parse_resource_name (api.ctr_name r) = Ok (MkResourceName (api.ctr_name r))
     /\ (validate_arguments (api.ctr_arguments r) = Ok () <-> bounded_arguments (api.ctr_arguments r))
     /\ validate_input_object (api.ctr_inputs r) = Ok ())
  /\ (forall self self' call, rtc target_set_page target_set_form_new self -> target_set_submit self = (self', Some call) -> exists namespace r,
     call = save_target_set (sf_editing_id self) namespace r /\ parse_resource_name (api.ctsr_name r) = Ok (MkResourceName (api.ctsr_name r))
     /\ validate_input_object (api.ctsr_inputs r) = Ok ()
     /\ (validate_target_ids (api.ctsr_target_ids r) = Ok () <-> (length (api.ctsr_target_ids r) <= 1000)%nat))
  /\ (forall self self' call, schedule_submit sets self = (self', Some call) -> exists namespace r,
     call = client.create_schedule namespace r /\ parse_resource_name (api.csr_name r) = Ok (MkResourceName (api.csr_name r))
     /\ validate_input_object (api.csr_inputs r) = Ok ()
     /\ validate_schedule_policy (domain_misfire (api.csr_misfire_policy r)) (api.csr_misfire_grace_seconds r)
          (api.csr_max_catchup_runs r) (api.csr_max_catchup_age_seconds r) = Ok ()
     /\ (is_Some (api.csr_cron_expression r) <-> api.csr_execute_at r = None))
  /\ (forall self self' call, run_submit sets request_id self = (self', Some call) -> exists job target inputs,
     call = client.create_run request_id job target inputs /\ validate_input_object inputs = Ok ()).
Proof.
  split_and!.
  - intros self self' call. unfold target_submit. destruct (tf_submitting self); [done|]. destruct (target_request self) as [[namespace r]|] eqn:Hr; [|done].
    intros [= _ <-]. exists namespace, r. split; [done|]. by eapply target_request_valid.
  - intros self self' call Hsteps. assert (Hd : NoDup (sf_target_ids self)).
    { remember target_set_form_new as start eqn:Hs. assert (H : NoDup (sf_target_ids start)) by (subst; constructor). clear Hs.
      induction Hsteps; [done|]. by eauto using set_page_NoDup. }
    unfold target_set_submit. destruct (sf_submitting self); [done|]. destruct (target_set_request self) as [[namespace r]|] eqn:Hr; [|done].
    intros [= _ <-]. exists namespace, r. split; [done|]. by eapply target_set_request_valid.
  - intros self self' call. unfold schedule_submit. destruct (cf_submitting self); [done|].
    destruct (schedule_request sets self) as [[namespace r]|] eqn:Hr; [|done]. intros [= _ <-]. exists namespace, r. split; [done|].
    by eapply schedule_request_valid.
  - intros self self' call. unfold run_submit. destruct (run_request sets request_id self) as [r|] eqn:Hr; [|done]. intros [= _ <-].
    unfold run_request in Hr. apply bind_Some in Hr as (job & _ & Hr). apply bind_Some in Hr as (target & _ & Hr).
    destruct (parse_input_object _) as [inputs|] eqn:Hi; [|done]. injection Hr as <-. cbn. do 3 eexists. split; [done|]. by eapply inputs_accepted.
Qed.
End ResourceForms.
