(* ===== verification/Navigation.v ===== *)
(** * Navigation of the console (apps/web/src/navigation.rs)

    The routes of the browser's shell, their paths, labels and symbols, the
    groups of the sidebar, which of its entries a location activates, and the
    links to single resources. *)

From S2P Require Import Prelude RustStr.
From Stdlib Require Import Ascii String.
From stdpp Require Import base numbers strings list.

Inductive AppRoute : Type :=
| Overview
| Namespaces
| Queues
| Jobs
| JobsNew
| Targets
| TargetsNew
| TargetSets
| Schedules
| Runs
| RunsNew
| Workflows
| WorkflowsNew
| Workers
| Monitor
| Settings.

#[global] Instance AppRoute_eq_dec : EqDecision AppRoute.
Proof. solve_decision. Defined.

Definition path (self : AppRoute) : string :=
  match self with
  | Overview => "/"
  | Namespaces => "/namespaces"
  | Queues => "/queues"
  | Jobs => "/jobs"
  | JobsNew => "/jobs/new"
  | Targets => "/targets"
  | TargetsNew => "/targets/new"
  | TargetSets => "/target-sets"
  | Schedules => "/schedules"
  | Runs => "/runs"
  | RunsNew => "/runs/new"
  | Workflows => "/workflows"
  | WorkflowsNew => "/workflows/new"
  | Workers => "/workers"
  | Monitor => "/monitor"
  | Settings => "/settings"
  end.

Definition label (self : AppRoute) : string :=
  match self with
  | Overview => "Overview"
  | Namespaces => "Namespaces"
  | Queues => "Queues"
  | Jobs => "Jobs"
  | JobsNew => "Create Job"
  | Targets => "Targets"
  | TargetsNew => "Create Target"
  | TargetSets => "Target Sets"
  | Schedules => "Schedules"
  | Runs => "Runs"
  | RunsNew => "Run a Job"
  | Workflows => "Workflows"
  | WorkflowsNew => "Create Workflow"
  | Workers => "Workers"
  | Monitor => "Monitor"
  | Settings => "Settings"
  end.

Inductive MaterialSymbol : Type :=
| SAccountTree
| SCalendarMonth
| SCheck
| SDashboard
| SDelete
| SDns
| SError
| SExpandMore
| SInfo
| SLan
| SLightMode
| SMemory
| SMonitoring
| SPlayCircle
| SQueue
| SRefresh
| SReplay
| SSearchOff
| SSettings
| STerminal
| STimer
| SWork.

Definition symbol_name (self : MaterialSymbol) : string :=
  match self with
  | SAccountTree => "account_tree"
  | SCalendarMonth => "calendar_month"
  | SCheck => "check"
  | SDashboard => "dashboard"
  | SDelete => "delete"
  | SDns => "dns"
  | SError => "error"
  | SExpandMore => "expand_more"
  | SInfo => "info"
  | SLan => "lan"
  | SLightMode => "light_mode"
  | SMemory => "memory"
  | SMonitoring => "monitoring"
  | SPlayCircle => "play_circle"
  | SQueue => "queue"
  | SRefresh => "refresh"
  | SReplay => "replay"
  | SSearchOff => "search_off"
  | SSettings => "settings"
  | STerminal => "terminal"
  | STimer => "timer"
  | SWork => "work"
  end.

Definition symbol (self : AppRoute) : MaterialSymbol :=
  match self with
  | Overview => SDashboard
  | Namespaces => SAccountTree
  | Queues => SQueue
  | Jobs => SWork
  | JobsNew => SWork
  | Targets => SDns
  | TargetsNew => SDns
  | TargetSets => SLan
  | Schedules => SCalendarMonth
  | Runs => SPlayCircle
  | RunsNew => SPlayCircle
  | Workflows => SAccountTree
  | WorkflowsNew => SAccountTree
  | Workers => SMemory
  | Monitor => SMonitoring
  | Settings => SSettings
  end.

Definition ALL_ROUTES : list AppRoute :=
  [Overview; Namespaces; Queues; Jobs; JobsNew; Targets; TargetsNew; TargetSets; Schedules; Runs; RunsNew; Workflows; WorkflowsNew; Workers; Monitor; Settings].

Definition from_path (location : string) : option AppRoute := List.find (fun route => (path route =? location)%string) ALL_ROUTES.

(** ** Submenus *)

Record NavigationChild : Type := mkNavigationChild { nc_route : AppRoute; nc_label : string }.

Definition children (self : AppRoute) : list NavigationChild :=
  match self with
  | Jobs => [mkNavigationChild Jobs "All Jobs"; mkNavigationChild JobsNew "Create Job"]
  | Targets => [mkNavigationChild Targets "All Targets"; mkNavigationChild TargetsNew "Create Target"]
  | Runs => [mkNavigationChild Runs "All Runs"; mkNavigationChild RunsNew "Run a Job"]
  | Workflows => [mkNavigationChild Workflows "All Workflows"; mkNavigationChild WorkflowsNew "Create Workflow"]
  | _ => []
  end.

Definition submenu_id (self : AppRoute) : string :=
  match self with
  | Jobs => "jobs-submenu"
  | Targets => "targets-submenu"
  | Runs => "runs-submenu"
  | Workflows => "workflows-submenu"
  | _ => ""
  end.

Record NavigationGroup : Type := mkNavigationGroup { ng_label : option string; ng_routes : list AppRoute }.

Definition NAVIGATION_GROUPS : list NavigationGroup :=
  [mkNavigationGroup None [Overview];
   mkNavigationGroup (Some "Resources"%string) [Namespaces; Queues; Jobs; Targets; TargetSets];
   mkNavigationGroup (Some "Execution"%string) [Schedules; Runs; Workflows; Workers];
   mkNavigationGroup (Some "System"%string) [Monitor; Settings]].

(** ** The active entry *)

Definition is_active_path (location : string) (route : AppRoute) : bool := bool_decide (from_path location = Some route).

(** [str::strip_prefix] *)
Definition strip_prefix (pat s : string) : option string :=
  if String.prefix pat s then Some (substring (String.length pat) (String.length s - String.length pat) s) else None.

Definition is_section_active_path (location : string) (route : AppRoute) : bool :=
  is_active_path location route
  || (negb (match children route with [] => true | _ => false end)
      && match strip_prefix (path route) location with Some suffix => String.prefix "/" suffix | None => false end)
  || (bool_decide (route = Workflows) && String.prefix "/workflow-runs/" location).

(** ** Links to one resource *)

Definition job_edit_path (id : string) : string := "/jobs/" ++ id ++ "/edit".
Definition target_edit_path (id : string) : string := "/targets/" ++ id ++ "/edit".
Definition run_details_path (id : string) : string := "/runs/" ++ id.
Definition worker_details_path (id : string) : string := "/workers/" ++ id.
Definition workflow_details_path (id : string) : string := "/workflows/" ++ id.
Definition workflow_edit_path (id : string) : string := "/workflows/" ++ id ++ "/edit".
Definition workflow_launch_path (id : string) : string := "/workflows/" ++ id ++ "/run".
Definition workflow_run_details_path (id : string) : string := "/workflow-runs/" ++ id.

(** ** Properties *)

Definition sidebar : list AppRoute := concat (map ng_routes NAVIGATION_GROUPS).

Lemma from_path_path route : from_path (path route) = Some route.
Proof. by destruct route. Qed.

Lemma from_path_some location route : from_path location = Some route <-> location = path route.
Proof.
  split; [|intros ->; apply from_path_path]. unfold from_path. intros H%find_some. destruct H as [_ H]. by apply String.eqb_eq in H.
Qed.

(** Where a location is below an entry. *)
Definition below (location : string) (route : AppRoute) : Prop :=
  location = path route \/ (children route <> [] /\ String.prefix (path route ++ "/") location = true)
  \/ (route = Workflows /\ String.prefix "/workflow-runs/" location = true).

Lemma prefix_append p s : String.prefix p (p ++ s) = true.
Proof. induction p as [|a p IH]; [by destruct s|]. change (String a p ++ s)%string with (String a (p ++ s)). cbn [String.prefix]. by destruct (ascii_dec a a). Qed.

Lemma strip_prefix_slash pat s :
  match strip_prefix pat s with Some suffix => String.prefix "/" suffix | None => false end = String.prefix (pat ++ "/") s.
Proof.
  revert s. induction pat as [|a pat IH]; intros s.
  - unfold strip_prefix. destruct s as [|b s]; [done|]. cbn [String.prefix String.length]. rewrite Nat.sub_0_r.
    change (substring 0 (S (String.length s)) (String b s)) with (substring 0 (String.length (String b s)) (String b s)). by rewrite substring_full.
  - change (String a pat ++ "/")%string with (String a (pat ++ "/")). destruct s as [|b s]; [done|]. unfold strip_prefix in *.
    cbn [String.prefix String.length]. destruct (ascii_dec a b); [|done].
    cbn [substring]. specialize (IH s). cbn [Nat.sub]. exact IH.
Qed.

Lemma section_below location route : is_section_active_path location route = true <-> below location route.
Proof.
  unfold is_section_active_path, below, is_active_path. rewrite strip_prefix_slash, !orb_true_iff, !andb_true_iff, !bool_decide_eq_true, from_path_some.
  assert (negb (match children route with [] => true | _ => false end) = true <-> children route <> []) as -> by (destruct (children route); cbn; naive_solver).
  tauto.
Qed.

Lemma prefixes_comparable p : forall q s, String.prefix p s = true -> String.prefix q s = true -> String.prefix p q = true \/ String.prefix q p = true.
Proof.
  induction p as [|a p IH]; intros q s Hp Hq; [by left; destruct q|]. destruct q as [|b q]; [by right|]. destruct s as [|c s]; [done|].
  cbn [String.prefix] in *. destruct (ascii_dec a c) as [->|]; [|done]. destruct (ascii_dec b c) as [->|]; [|done].
  destruct (ascii_dec c c); [|done]. eauto.
Qed.

(** The texts below which an entry is active. *)
Definition roots_below (route : AppRoute) : list string :=
  match children route with [] => [] | _ => [(path route ++ "/")%string] end ++ (if bool_decide (route = Workflows) then ["/workflow-runs/"%string] else []).

Lemma below_roots location route : below location route <-> location = path route \/ exists root, root ∈ roots_below route /\ String.prefix root location = true.
Proof.
  unfold below, roots_below. split.
  - intros [H|[[Hc H]|[-> H]]]; [by left|right..].
    + eexists. split; [|exact H]. destruct (children route); [done|]. apply elem_of_app. left. left.
    + eexists. split; [|exact H]. rewrite bool_decide_eq_true_2 by done. apply elem_of_app. right. left.
  - intros [H|(root & Hr & H)]; [by left|right]. apply elem_of_app in Hr as [Hr|Hr].
    + left. destruct (children route); [by inversion Hr|]. apply list_elem_of_singleton in Hr as ->. done.
    + right. case_bool_decide; [|by inversion Hr]. apply list_elem_of_singleton in Hr as ->. done.
Qed.

Definition disjoint_entries (r1 r2 : AppRoute) : bool :=
  bool_decide (r1 = r2)
  || (forallb (fun root => negb (String.prefix root (path r1))) (roots_below r2)
      && forallb (fun root => negb (String.prefix root (path r2))) (roots_below r1)
      && forallb (fun p => forallb (fun q => negb (String.prefix p q) && negb (String.prefix q p)) (roots_below r2)) (roots_below r1)).

Lemma sidebar_disjoint : forallb (fun r1 => forallb (disjoint_entries r1) sidebar) sidebar = true.
Proof. by vm_compute. Qed.

Lemma entries_disjoint r1 r2 location : r1 ∈ sidebar -> r2 ∈ sidebar -> below location r1 -> below location r2 -> r1 = r2.
Proof.
  intros H1 H2 B1%below_roots B2%below_roots. pose proof sidebar_disjoint as H. rewrite forallb_forall in H.
  specialize (H r1 ltac:(by apply list_elem_of_In)). rewrite forallb_forall in H. specialize (H r2 ltac:(by apply list_elem_of_In)).
  unfold disjoint_entries in H. apply orb_true_iff in H as [H%bool_decide_eq_true|H]; [done|].
  destruct (decide (r1 = r2)) as [|Hne]; [done|]. exfalso. apply andb_true_iff in H as [[Ha Hb]%andb_true_iff Hc]. rewrite forallb_forall in Ha, Hb, Hc.
  destruct B1 as [->|(p & Hp & Bp)], B2 as [B2|(q & Hq & Bq)].
  - apply Hne. apply (f_equal from_path) in B2. rewrite !from_path_path in B2. congruence.
  - specialize (Ha q ltac:(by apply list_elem_of_In)). by rewrite Bq in Ha.
  - subst. specialize (Hb p ltac:(by apply list_elem_of_In)). by rewrite Bp in Hb.
  - specialize (Hc p ltac:(by apply list_elem_of_In)). rewrite forallb_forall in Hc. specialize (Hc q ltac:(by apply list_elem_of_In)).
    destruct (prefixes_comparable p q location Bp Bq) as [E|E]; rewrite E in Hc; [done|by rewrite andb_false_r in Hc].
Qed.

(** The sidebar marks where the user is.  A location is the page of at
    most one route, whose path it is; at most one entry of the sidebar is
    active for any location; and the links to a Job, a Target, a Run, a
    Workflow, its editor and launch pages and one of its invocations activate
    the entry of their kind, whatever the identifier. *)
Theorem sidebar_active :
  (forall location route, from_path location = Some route <-> location = path route)
  /\ (forall location r1 r2, r1 ∈ sidebar -> r2 ∈ sidebar ->
        is_section_active_path location r1 = true -> is_section_active_path location r2 = true -> r1 = r2)
  /\ (forall id, is_section_active_path (job_edit_path id) Jobs = true /\ is_section_active_path (target_edit_path id) Targets = true
        /\ is_section_active_path (run_details_path id) Runs = true /\ is_section_active_path (workflow_details_path id) Workflows = true
        /\ is_section_active_path (workflow_edit_path id) Workflows = true /\ is_section_active_path (workflow_launch_path id) Workflows = true
        /\ is_section_active_path (workflow_run_details_path id) Workflows = true).
Proof.
  split_and!; [apply from_path_some|intros location r1 r2 H1 H2 B1%section_below B2%section_below; by eapply entries_disjoint|].
  assert (H : forall root suffix route, root ∈ roots_below route -> is_section_active_path (root ++ suffix) route = true).
  { intros root suffix route Hr. apply section_below, below_roots. right. exists root. split; [done|apply prefix_append]. }
  intros id. split_and!; [apply (H "/jobs/")|apply (H "/targets/")|apply (H "/runs/")|apply (H "/workflows/")|apply (H "/workflows/")
    |apply (H "/workflows/")|apply (H "/workflow-runs/")]; try left. right. left.
Qed.
