(* ===== verification/RunPages.v ===== *)
(** * Lists of pages and repeated Runs (apps/web/src/pages)

    runs/history.rs, runs/notice.rs, runs.rs, targets/list.rs,
    workflows/list.rs, workflows/detail.rs and resource_options.rs: the lists
    that are read page by page, the filters of the Run history, the dialog
    that repeats a Run, and how a Run is labelled. *)

From S2P Require Import Prelude RustStr Json Inputs Names Text Domain Auth Nats ApiTypes WebClient Forms.
From Stdlib Require Import Ascii String.
From stdpp Require Import base numbers strings gmap list pretty.

Local Open Scope Z_scope.

(** ** Pages *)

(** The cursor of the page shown and the cursors of the pages before it, the
    latest at the end. *)
Record Pager (C : Type) : Type := mkPager {
  pgr_cursor : option C;
  pgr_stack : list (option C);
}.
Arguments mkPager {C}.
Arguments pgr_cursor {C}.
Arguments pgr_stack {C}.

Section Pager.
Context {C : Type}.

Definition first_page : Pager C := mkPager None [].

Definition next_page (cursor : C) (self : Pager C) : Pager C := mkPager (Some cursor) (pgr_stack self ++ [pgr_cursor self]).

Definition previous_page (self : Pager C) : Pager C := mkPager (mjoin (last (pgr_stack self))) (removelast (pgr_stack self)).

Definition previous_disabled (self : Pager C) : bool := match pgr_stack self with [] => true | _ => false end.

(** "Page n" *)
Definition page_number (self : Pager C) : nat := S (length (pgr_stack self)).

(** The pages from the first to the one shown. *)
Definition trail (self : Pager C) : list (option C) := pgr_stack self ++ [pgr_cursor self].

Definition paged (self : Pager C) : Prop :=
  head (trail self) = Some None /\ Forall is_Some (tail (trail self)).

Lemma trail_next cursor self : trail (next_page cursor self) = trail self ++ [Some cursor].
Proof. done. Qed.

Lemma previous_next cursor self : previous_page (next_page cursor self) = self.
Proof.
  unfold previous_page, next_page. cbn [pgr_stack]. rewrite last_snoc, removelast_last. by destruct self.
Qed.

Lemma trail_previous self : previous_disabled self = false -> trail (previous_page self) = removelast (trail self).
Proof.
  unfold previous_disabled, previous_page, trail. destruct self as [cursor stack]. cbn [pgr_stack pgr_cursor].
  rewrite removelast_last. induction stack as [|x stack _] using rev_ind; [done|]. intros _. by rewrite last_snoc, removelast_last.
Qed.

Lemma paged_next cursor self : paged self -> paged (next_page cursor self).
Proof.
  intros [Hh Ht]. unfold paged. rewrite trail_next. destruct (trail self) as [|x l]; [done|]. cbn in *. split; [done|].
  apply Forall_app. split; [done|]. by repeat constructor.
Qed.

Lemma paged_previous self : paged self -> paged (previous_page self).
Proof.
  intros [Hh Ht]. destruct (previous_disabled self) eqn:Hd.
  - destruct self as [cursor stack]. by destruct stack.
  - unfold paged. rewrite trail_previous by done. unfold trail in *. rewrite removelast_last.
    unfold previous_disabled in Hd. destruct (pgr_stack self) as [|x l]; [done|]. cbn [app head tail] in *.
    apply Forall_app in Ht as [Ht _]. done.
Qed.
End Pager.
Arguments first_page {C}.

(** ** Lists of a Namespace (targets/list.rs, workflows/list.rs) *)

Record NamespaceList : Type := mkNamespaceList {
  nl_namespace : option Uuid;
  nl_pager : Pager string;
}.

Definition namespace_list_new : NamespaceList := mkNamespaceList None first_page.

Definition choose_list_namespace (selected : option Uuid) (self : NamespaceList) : NamespaceList :=
  if bool_decide (nl_namespace self = selected) then self else mkNamespaceList selected first_page.

(** The list without a Namespace is empty and needs no call. *)
Definition list_request (list_in : Uuid -> option string -> Outgoing) (self : NamespaceList) : option Outgoing :=
  id ← nl_namespace self; Some (list_in id (pgr_cursor (nl_pager self))).

(** ** The Run history (runs/history.rs) *)

Definition parse_status (value : string) : option api.RunStatus :=
  if (value =? "pending_dispatch")%string then Some api.RS_PendingDispatch
  else if (value =? "queued")%string then Some api.RS_Queued
  else if (value =? "running")%string then Some api.RS_Running
  else if (value =? "retry_wait")%string then Some api.RS_RetryWait
  else if (value =? "succeeded")%string then Some api.RS_Succeeded
  else if (value =? "failed")%string then Some api.RS_Failed
  else if (value =? "dead")%string then Some api.RS_Dead
  else if (value =? "skipped")%string then Some api.RS_Skipped
  else if (value =? "cancelled")%string then Some api.RS_Cancelled
  else if (value =? "unknown")%string then Some api.RS_Unknown
  else None.

Record RunFilters : Type := mkRunFilters {
  rf_job_id : option Uuid;
  rf_target_id : option Uuid;
  rf_target_set_id : option Uuid;
  rf_status : option api.RunStatus;
}.

Record RunsPage : Type := mkRunsPage {
  rp_namespace_id : option Uuid;
  rp_filters : RunFilters;
  rp_pager : Pager Uuid;
}.

Definition no_filters : RunFilters := mkRunFilters None None None None.
Definition runs_page_new : RunsPage := mkRunsPage None no_filters first_page.

#[export] Instance run_status_eq : EqDecision api.RunStatus.
Proof. solve_decision. Defined.
#[export] Instance run_filters_eq : EqDecision RunFilters.
Proof. solve_decision. Defined.

(** The effects: another Namespace forgets its resources; other filters start over. *)
Definition filters_effect (before : RunFilters) (self : RunsPage) : RunsPage :=
  if bool_decide (before = rp_filters self) then self else mkRunsPage (rp_namespace_id self) (rp_filters self) first_page.

Definition choose_runs_namespace (selected : option Uuid) (self : RunsPage) : RunsPage :=
  if bool_decide (rp_namespace_id self = selected) then self
  else mkRunsPage selected (mkRunFilters None None None (rf_status (rp_filters self))) first_page.

Inductive runs_event : Type :=
| FilterNamespace (selected : option Uuid)
| FilterJob (selected : option Uuid)
| FilterTarget (selected : option Uuid)
| FilterTargetSet (selected : option Uuid)
| FilterStatus (text : string)
| PressNext (cursor : Uuid)
| PressPrevious.

Definition with_filters (filters : RunFilters) (self : RunsPage) : RunsPage :=
  filters_effect (rp_filters self) (mkRunsPage (rp_namespace_id self) filters (rp_pager self)).

Definition runs_on (event : runs_event) (self : RunsPage) : RunsPage :=
  let f := rp_filters self in
  match event with
  | FilterNamespace selected => choose_runs_namespace selected self
  | FilterJob selected => with_filters (mkRunFilters selected (rf_target_id f) (rf_target_set_id f) (rf_status f)) self
  | FilterTarget selected => with_filters (mkRunFilters (rf_job_id f) selected (rf_target_set_id f) (rf_status f)) self
  | FilterTargetSet selected => with_filters (mkRunFilters (rf_job_id f) (rf_target_id f) selected (rf_status f)) self
  | FilterStatus text =>
      mkRunsPage (rp_namespace_id self) (mkRunFilters (rf_job_id f) (rf_target_id f) (rf_target_set_id f) (parse_status text)) first_page
  | PressNext cursor => mkRunsPage (rp_namespace_id self) f (next_page cursor (rp_pager self))
  | PressPrevious => mkRunsPage (rp_namespace_id self) f (previous_page (rp_pager self))
  end.

Definition runs_request (self : RunsPage) : Outgoing :=
  let f := rp_filters self in
  client.filtered_runs (rp_namespace_id self) (rf_status f) (rf_job_id f) (rf_target_id f) (rf_target_set_id f)
    (pgr_cursor (rp_pager self)).

(** What is asked for, apart from the page. *)
Definition asked (self : RunsPage) := (rp_namespace_id self, rp_filters self).

Lemma runs_on_paged event self : paged (rp_pager self) -> paged (rp_pager (runs_on event self)).
Proof.
  assert (paged (@first_page Uuid)) as Hf by done. intros Hp.
  destruct event; cbn [runs_on]; unfold with_filters, choose_runs_namespace, filters_effect; try case_bool_decide; cbn [rp_pager];
    auto using paged_next, paged_previous.
Qed.

Lemma runs_on_asked event self : asked (runs_on event self) <> asked self -> pgr_cursor (rp_pager (runs_on event self)) = None.
Proof.
  intros Ha. destruct self as [ns f pager]; destruct event; cbn [runs_on rp_filters rp_namespace_id] in *; unfold with_filters, choose_runs_namespace, filters_effect, asked in *;
    cbn [rp_filters rp_namespace_id] in *; try case_bool_decide; cbn [rp_filters rp_namespace_id] in *; try done; simplify_eq/=; try done.
  all: exfalso; apply Ha; by rewrite <- ?H.
Qed.

(** The Run history stays consistent whatever is clicked: the pages
    visited begin with the first one and each later one has a cursor, so
    "Previous" always leads back to the first page; "Previous" undoes "Next";
    and when the Namespace, a resource or the status asked for changes, the
    next call asks for a first page, never for a cursor of the former list. *)
Theorem history_pages events event cursor :
  let page := fold_left (fun self event => runs_on event self) events runs_page_new in
  paged (rp_pager page)
  /\ runs_on PressPrevious (runs_on (PressNext cursor) page) = page
  /\ (asked (runs_on event page) = asked page \/ pgr_cursor (rp_pager (runs_on event page)) = None)
  /\ (asked (runs_on PressPrevious page) = asked page /\ asked (runs_on (PressNext cursor) page) = asked page).
Proof.
  cbv zeta. set (page := fold_left _ _ _). assert (paged (rp_pager page)) as Hp.
  { unfold page. assert (paged (rp_pager runs_page_new)) as H0 by done. revert H0. generalize runs_page_new.
    induction events as [|e events IH]; intros self Hs; [done|]. cbn [fold_left]. by apply IH, runs_on_paged. }
  split; [done|]. split; [|split; [|by destruct page]].
  - destruct page as [ns f pager]. cbn [runs_on rp_pager rp_filters rp_namespace_id]. by rewrite previous_next.
  - destruct (decide (asked (runs_on event page) = asked page)); [by left|right]. by apply runs_on_asked.
Qed.

(** ** Repeating a Run *)

Record RerunAction : Type := mkRerunAction {
  ra_confirming : bool;
  ra_submitting : bool;
  ra_error : option string;
  ra_request_id : Uuid;
}.

Definition rerun_action_new (now_v7 : Uuid) : RerunAction := mkRerunAction false false None now_v7.

Inductive rerun_event : Type :=
| RerunOpen (now_v7 : Uuid)
| RerunCancel
| RerunConfirm
| RerunAnswer (answer : result api.RunResource ClientError).

(** The buttons that are disabled or not shown do nothing. *)
Definition rerun_on (run_id : Uuid) (event : rerun_event) (self : RerunAction) : RerunAction * option Outgoing :=
  match event with
  | RerunOpen now_v7 =>
      if ra_submitting self then (self, None) else (mkRerunAction true (ra_submitting self) None now_v7, None)
  | RerunCancel =>
      if ra_confirming self then (mkRerunAction false (ra_submitting self) None (ra_request_id self), None) else (self, None)
  | RerunConfirm =>
      if ra_confirming self && negb (ra_submitting self)
      then (mkRerunAction (ra_confirming self) true None (ra_request_id self), Some (client.rerun_run run_id (ra_request_id self)))
      else (self, None)
  | RerunAnswer (Ok _) => (mkRerunAction false false (ra_error self) (ra_request_id self), None)
  | RerunAnswer (Err failure) => (mkRerunAction (ra_confirming self) false (Some (ce_message failure)) (ra_request_id self), None)
  end.

(** [show_created_run], [expire_notice] and the notice's own button *)
Definition show_created_run (id : Uuid) (notice : option Uuid) : option Uuid := Some id.
Definition expire_notice (id : Uuid) (notice : option Uuid) : option Uuid := if bool_decide (notice = Some id) then None else notice.

Fixpoint rerun_session (run_id : Uuid) (events : list rerun_event) (self : RerunAction) : list Outgoing :=
  match events with
  | [] => []
  | event :: events =>
      let '(self, sent) := rerun_on run_id event self in
      option_list sent ++ rerun_session run_id events self
  end.

(** However often a dialog is confirmed after failures, every call repeats the same request. *)
Lemma rerun_dialog_one_request run_id events : forall self,
  Forall (fun event => match event with RerunOpen _ => False | _ => True end) events ->
  Forall (eq (client.rerun_run run_id (ra_request_id self))) (rerun_session run_id events self).
Proof.
  induction events as [|event events IH]; intros self He; [constructor|]. inversion_clear He as [|? ? H1 H2]. cbn [rerun_session].
  destruct event as [| | |answer]; [done|..]; cbn [rerun_on].
  - destruct (ra_confirming self); [exact (IH (mkRerunAction _ _ _ _) H2)|exact (IH self H2)].
  - destruct (_ && _); [|exact (IH self H2)]. constructor; [done|]. exact (IH (mkRerunAction _ _ _ _) H2).
  - destruct answer; exact (IH (mkRerunAction _ _ _ _) H2).
Qed.

(** ** How a Run is shown (runs.rs) *)

(** [value.get(start..stop)] *)
Definition str_get (start stop : nat) (value : string) : option string :=
  if (start <=? stop)%nat && (stop <=? String.length value)%nat && is_char_boundary value start && is_char_boundary value stop
  then Some (substring start (stop - start) value) else None.

Definition status_label (status : api.RunStatus) : string :=
  match status with
  | api.RS_PendingDispatch => "Pending dispatch"
  | api.RS_Queued => "Queued"
  | api.RS_Running => "Running"
  | api.RS_RetryWait => "Retry wait"
  | api.RS_Succeeded => "Succeeded"
  | api.RS_Failed => "Failed"
  | api.RS_Dead => "Dead"
  | api.RS_Skipped => "Skipped"
  | api.RS_Cancelled => "Cancelled"
  | api.RS_Unknown => "Unknown"
  end.

Definition status_can_change (status : api.RunStatus) : bool :=
  match status with
  | api.RS_PendingDispatch | api.RS_Queued | api.RS_Running | api.RS_RetryWait => true
  | _ => false
  end.

Definition trigger_label (run : api.RunResource) : string :=
  match api.run_trigger_actor run with
  | Some actor => actor
  | None =>
      match api.run_trigger_source run with
      | api.TS_Unknown => "Unknown"
      | api.TS_Api => "API"
      | api.TS_Scheduler => "Scheduler"
      | api.TS_Rerun => "Re-run"
      end
  end.

Definition run_namespace (run : api.RunResource) : string :=
  if (api.run_namespace run =? "")%string
  then match split_once "/" (api.run_job run) with Some (namespace, _) => namespace | None => "—" end
  else api.run_namespace run.

(** [rsplit('/').next()] *)
Definition after_last_slash (text : string) : string := List.last (split_on "/" text) text.

Definition run_job_name (run : api.RunResource) : string :=
  if (api.run_job_name run =? "")%string then after_last_slash (api.run_job run) else api.run_job_name run.
Definition run_target_name (run : api.RunResource) : string :=
  if (api.run_target_name run =? "")%string then after_last_slash (api.run_target run) else api.run_target_name run.
Definition run_triggered_at (run : api.RunResource) : string :=
  if (api.run_triggered_at run =? "")%string then api.run_created_at run else api.run_triggered_at run.

Definition display_time (value : string) : string :=
  match str_get 0 10 value, String.get 10 value, str_get 11 16 value with
  | Some date, Some "T"%char, Some clock => (date ++ " " ++ clock ++ " UTC")%string
  | _, _, _ => value
  end.

Definition display_event_time (value : string) : string :=
  match or_else (str_get 11 23 value) (str_get 11 19 value) with
  | Some clock => (clock ++ " UTC")%string
  | None => value
  end.

Definition display_duration (milliseconds : option Z) : string :=
  match milliseconds with
  | None => "—"
  | Some ms =>
      if ms <? 1000 then (pretty ms ++ "ms")%string
      else if ms <? 60000 then (pretty (ms / 1000)%Z ++ "." ++ pretty (ms mod 1000 / 100)%Z ++ "s")%string
      else (pretty (ms / 60000)%Z ++ "m " ++ pretty (ms mod 60000 / 1000)%Z ++ "s")%string
  end.

Definition history_time_parts (value : string) : string * string :=
  match str_get 0 10 value, String.get 10 value, str_get 11 19 value with
  | Some date, Some "T"%char, Some clock =>
      if ends_with "Z" value then ((clock ++ " UTC")%string, date) else (value, ""%string)
  | _, _, _ => (value, ""%string)
  end.

(** [format_bytes] (monitor.rs) *)
Definition format_bytes (value : Z) : string :=
  match List.find (fun unit => (unit.2 <=? value)%Z) [("TiB"%string, 2 ^ 40); ("GiB"%string, 2 ^ 30); ("MiB"%string, 2 ^ 20); ("KiB"%string, 2 ^ 10)] with
  | Some (unit, divisor) =>
      let tenths := value mod divisor * 10 / divisor in
      (pretty (value / divisor)%Z ++ "." ++ pretty tenths ++ " " ++ unit)%string
  | None => (pretty value ++ " B")%string
  end.

(** The cases of the program's own tests. *)
Example history_time_keeps_seconds :
  history_time_parts "2026-09-25T12:28:01.123456Z" = ("12:28:01 UTC", "2026-09-25")%string
  /\ history_time_parts "2026-09-25T12:28:01+02:00" = ("2026-09-25T12:28:01+02:00", "")%string
  /\ display_time "2026-09-25T12:28:01Z" = "2026-09-25 12:28 UTC"%string /\ display_duration (Some 59999) = "59.9s"%string
  /\ format_bytes 1536 = "1.5 KiB"%string.
Proof. repeat split; reflexivity. Qed.


(** ** Choices of a form (resource_options.rs) *)

(** A collection that is being read, failed or was read. *)
Definition resource_choices {T} (option_of : T -> ResourceOption) (waiting : bool) (resources : option (result (list T) ClientError)) : Choices :=
  mkChoices (match resources with Some (Ok items) => map option_of items | _ => [] end)
    (waiting && negb (bool_decide (is_Some resources)))
    (match resources with Some (Err error) => Some (ce_message error) | _ => None end).

Definition namespace_choices (resources : option (result (list api.NamespaceResource) ClientError)) : Choices :=
  resource_choices (fun namespace => mkResourceOption (api.nr_id namespace) (api.nr_name namespace)) true resources.

(** Disabled Queues are offered only when the edited Job has one. *)
Definition queue_choices (current : option Uuid) (resources : option (result (list api.QueueResource) ClientError)) : Choices :=
  resource_choices (fun queue => mkResourceOption (api.qr_id queue) (api.qr_name queue)) true
    (match resources with
     | Some (Ok queues) => Some (Ok (List.filter (fun queue => api.qr_enabled queue || bool_decide (Some (api.qr_id queue) = current)) queues))
     | other => other
     end).

Definition job_choices (namespace_id : option Uuid) (resources : option (result (list api.JobResource) ClientError)) : Choices :=
  resource_choices (fun job => mkResourceOption (api.jr_id job) (api.jr_name job)) (bool_decide (is_Some namespace_id)) resources.
Definition target_choices (namespace_id : option Uuid) (resources : option (result (list api.TargetResource) ClientError)) : Choices :=
  resource_choices (fun target => mkResourceOption (api.tr_id target) (api.tr_name target)) (bool_decide (is_Some namespace_id)) resources.
Definition target_set_choices (namespace_id : option Uuid) (resources : option (result (list api.TargetSetResource) ClientError)) : Choices :=
  resource_choices (fun set => mkResourceOption (api.tsr_id set) (api.tsr_name set)) (bool_decide (is_Some namespace_id)) resources.
