(* ===== verification/CatalogPages.v ===== *)
(** * Namespaces, Queues and deletions in the browser (apps/web/src)

    pages/namespaces.rs and pages/queues.rs: the forms that create a Namespace
    or a Queue, the row that edits a Queue; components/resource_dialogs.rs:
    the dialog that every deletion goes through. *)

From S2P Require Import Prelude RustStr Json Names Text Inputs Domain Auth Validation Application ApiTypes WebClient Forms.
From Stdlib Require Import Ascii String.
From stdpp Require Import base numbers strings gmap list pretty.

Local Open Scope Z_scope.

#[local] Opaque trim.

(** ** Deletions (DeleteControl) *)

Record Deletion : Type := mkDeletion {
  dl_open : bool;
  dl_busy : bool;
  dl_error : option string;
}.

Definition deletion_new : Deletion := mkDeletion false false None.

(** What a row shows of a refusal: its own text for a resource in use. *)
Definition deletion_message (in_use : option string) (error : ClientError) : string :=
  match in_use with
  | Some text => if (ce_code error =? "resource_in_use")%string then text else ce_message error
  | None => ce_message error
  end.

Definition namespace_in_use : string :=
  "This Namespace still contains resources or Run requests and cannot be deleted. Remove its resources first.".
Definition queue_in_use : string :=
  "This Queue is still referenced by Jobs, Run history, or worker presence and cannot be deleted.".
Definition target_in_use : string :=
  "This Target is still referenced by a Target Set, Schedule, Run request, or Run history and cannot be deleted.".

Inductive deletion_event : Type :=
| DeleteOpen
| DeleteDismiss
| DeleteConfirm
| DeleteAnswer (answer : result unit ClientError).

(** The dialog's buttons, its dismissal and the answer; [call] deletes the row's resource. *)
Definition deletion_on (call : Outgoing) (in_use : option string) (event : deletion_event) (self : Deletion) : Deletion * option Outgoing :=
  match event with
  | DeleteOpen => if dl_busy self then (self, None) else (mkDeletion true (dl_busy self) None, None)
  | DeleteDismiss => if dl_busy self then (self, None) else (mkDeletion false (dl_busy self) (dl_error self), None)
  | DeleteConfirm =>
      if dl_open self && negb (dl_busy self) then (mkDeletion (dl_open self) true None, Some call) else (self, None)
  | DeleteAnswer (Ok _) => (mkDeletion false false (dl_error self), None)
  | DeleteAnswer (Err error) => (mkDeletion (dl_open self) false (Some (deletion_message in_use error)), None)
  end.

(** The rows that have no such control. *)
Definition namespace_protected (namespace : api.NamespaceResource) : bool := (api.nr_name namespace =? "default")%string.
Definition target_protected (target : api.TargetResource) : bool :=
  (api.tr_namespace target =? "default")%string && (api.tr_name target =? "default")%string.
Definition queue_protected (queue : api.QueueResource) : bool := api.qr_system queue.

Section Forms.
Context {SJ : SerdeJson} {RF : RustFmt}.

(** ** Namespaces *)

Record NamespaceForm : Type := mkNamespaceForm {
  sp_name : string;
  sp_attempted : bool;
  sp_submitting : bool;
  sp_server_error : option string;
  sp_feedback : option ResourceFeedback;
}.

Definition namespace_form_new : NamespaceForm := mkNamespaceForm "" false false None None.

Definition namespace_name_error (self : NamespaceForm) : option string :=
  or_else (sp_server_error self) (visible_name_validation (sp_name self) (sp_attempted self)).

Definition namespace_form_disabled (self : NamespaceForm) : bool :=
  sp_submitting self || bool_decide (is_Some (name_validation_message (sp_name self) true)).

Definition namespace_reset (self : NamespaceForm) : NamespaceForm := mkNamespaceForm "" false (sp_submitting self) None None.

Definition namespace_submit (self : NamespaceForm) : NamespaceForm * option Outgoing :=
  if sp_submitting self then (self, None)
  else
    let requested_name := trim (sp_name self) in
    if bool_decide (is_Some (name_validation_message requested_name true))
    then (mkNamespaceForm (sp_name self) true false None None, None)
    else (mkNamespaceForm (sp_name self) true true None None, Some (client.create_namespace requested_name)).

Definition namespace_answer (answer : result api.NamespaceResource ClientError) (self : NamespaceForm) : NamespaceForm :=
  match answer with
  | Ok namespace =>
      mkNamespaceForm "" false false (sp_server_error self)
        (Some (feedback_saved ("Created Namespace " ++ api.nr_name namespace ++ ".")%string "Create another Namespace"))
  | Err error =>
      let server_error := if bool_decide (ce_field error = Some "name"%string) || (ce_code error =? "already_exists")%string
        then Some (ce_message error) else sp_server_error self in
      mkNamespaceForm (sp_name self) (sp_attempted self) false server_error (Some (feedback_failed (ce_message error)))
  end.

(** ** Queues *)

Definition description_validation (value : string) : option string :=
  if contains_nul value || (500 <? chars_count value)
  then Some "Description must be NUL-free and no longer than 500 characters."%string else None.

Definition optional_description (value : string) : option string := if (value =? "")%string then None else Some value.

Record QueueForm : Type := mkQueueForm {
  qf_name : string;
  qf_description : string;
  qf_attempted : bool;
  qf_submitting : bool;
  qf_name_error : option string;
  qf_description_error : option string;
  qf_feedback : option ResourceFeedback;
}.

Definition queue_form_new : QueueForm := mkQueueForm "" "" false false None None None.

Definition queue_name_error (self : QueueForm) : option string :=
  or_else (qf_name_error self) (visible_name_validation (qf_name self) (qf_attempted self)).
Definition queue_description_error (self : QueueForm) : option string :=
  or_else (qf_description_error self) (description_validation (qf_description self)).

Definition queue_form_disabled (self : QueueForm) : bool :=
  qf_submitting self || bool_decide (is_Some (name_validation_message (qf_name self) true))
  || bool_decide (is_Some (description_validation (qf_description self))).

Definition queue_reset (self : QueueForm) : QueueForm := mkQueueForm "" "" false (qf_submitting self) None None None.

(** What the create form and the row's editor send. *)
Definition queue_fields (name description : string) : option (string * option string) :=
  let requested_name := trim name in
  if bool_decide (is_Some (name_validation_message requested_name true)) || bool_decide (is_Some (description_validation description))
  then None else Some (requested_name, optional_description description).

Definition queue_submit (self : QueueForm) : QueueForm * option Outgoing :=
  if qf_submitting self then (self, None)
  else
    let attempted submitting := mkQueueForm (qf_name self) (qf_description self) true submitting None None None in
    match queue_fields (qf_name self) (qf_description self) with
    | None => (attempted false, None)
    | Some (name, description) => (attempted true, Some (client.create_queue name description))
    end.

Definition queue_create_error (error : ClientError) (self : QueueForm) : option string * option string :=
  if bool_decide (ce_field error = Some "name"%string) then (Some (ce_message error), qf_description_error self)
  else if bool_decide (ce_field error = Some "description"%string) then (qf_name_error self, Some (ce_message error))
  else if (ce_code error =? "already_exists")%string then (Some (ce_message error), qf_description_error self)
  else (qf_name_error self, qf_description_error self).

Definition queue_answer (answer : result api.QueueResource ClientError) (self : QueueForm) : QueueForm :=
  match answer with
  | Ok queue =>
      mkQueueForm "" "" false false (qf_name_error self) (qf_description_error self)
        (Some (feedback_saved ("Created Queue " ++ api.qr_name queue ++ ".")%string "Create another Queue"))
  | Err error =>
      let '(name_error, description_error) := queue_create_error error self in
      mkQueueForm (qf_name self) (qf_description self) (qf_attempted self) false name_error description_error
        (Some (feedback_failed (ce_message error)))
  end.

(** *** A row and its editor *)

Record QueueRow : Type := mkQueueRow {
  qw_name : string;
  qw_description : string;
  qw_enabled : bool;
  qw_editing : bool;
  qw_busy : bool;
  qw_error : option string;
}.

Definition queue_row_new (queue : api.QueueResource) : QueueRow :=
  mkQueueRow (api.qr_name queue) (default ""%string (api.qr_description queue)) (api.qr_enabled queue) false false None.

(** Cancel restores what the row was opened with. *)
Definition queue_row_cancel (queue : api.QueueResource) (self : QueueRow) : QueueRow :=
  if qw_busy self then self else queue_row_new queue.

Definition queue_row_save (id : Uuid) (self : QueueRow) : QueueRow * option Outgoing :=
  if qw_busy self then (self, None)
  else
    let with_error busy error := mkQueueRow (qw_name self) (qw_description self) (qw_enabled self) (qw_editing self) busy error in
    match or_else (name_validation_message (trim (qw_name self)) true) (description_validation (qw_description self)) with
    | Some message => (with_error false (Some message), None)
    | None => (with_error true None,
               Some (client.update_queue id (trim (qw_name self)) (optional_description (qw_description self)) (qw_enabled self)))
    end.

Definition queue_row_answer (answer : result api.QueueResource ClientError) (self : QueueRow) : QueueRow * ResourceFeedback :=
  match answer with
  | Ok queue => (mkQueueRow (qw_name self) (qw_description self) (qw_enabled self) false false (qw_error self),
                 feedback_saved ("Saved Queue " ++ api.qr_name queue ++ ".")%string "Done")
  | Err error => (mkQueueRow (qw_name self) (qw_description self) (qw_enabled self) (qw_editing self) false (Some (ce_message error)),
                  feedback_failed (ce_message error))
  end.

(** ** The browser's checks and the server's *)

Lemma name_message_trim name : name_validation_message (trim name) true = name_validation_message name true.
Proof. unfold name_validation_message. by rewrite trim_idem. Qed.

Lemma name_shown name : name_validation_message name true = None <-> validate_resource_name (trim name) = Ok ().
Proof.
  unfold name_validation_message. cbn [negb]. rewrite andb_false_r.
  destruct (validate_resource_name (trim name)) as [[]|]; split; done.
Qed.

Lemma namespace_name_server name :
  is_ok (NamespaceNameM.parse (trim name)) = true <-> validate_resource_name (trim name) = Ok ().
Proof. unfold NamespaceNameM.parse. destruct (validate_resource_name (trim name)) as [[]|]; split; done. Qed.

Lemma queue_name_server name :
  is_ok (parse_queue_name name) = true <-> validate_resource_name (trim name) = Ok ().
Proof. unfold parse_queue_name, QueueNameM.parse. destruct (validate_resource_name (trim name)) as [[]|]; split; done. Qed.

Lemma description_server value :
  description_validation value = None <-> validate_queue_description (optional_description value) = Ok ().
Proof.
  unfold description_validation, optional_description, validate_queue_description.
  destruct (String.eqb_spec value ""); [subst; vm_compute; done|]. change MAX_QUEUE_DESCRIPTION_CHARACTERS with 500.
  destruct (_ || _); done.
Qed.

Lemma no_message {A} (o : option A) : bool_decide (is_Some o) = false <-> o = None.
Proof. rewrite bool_decide_eq_false, eq_None_not_Some. done. Qed.

(** The buttons that create a Namespace or a Queue are enabled exactly
    when the server's checks of the same fields succeed (and no call is in
    flight): the names and descriptions the browser refuses are the ones the
    server refuses, and what an enabled button sends is the trimmed name and
    the description the server then accepts. *)
Theorem create_forms_agree (space : NamespaceForm) (queue : QueueForm) :
  (namespace_form_disabled space = false <-> sp_submitting space = false /\ is_ok (NamespaceNameM.parse (trim (sp_name space))) = true)
  /\ (namespace_form_disabled space = false ->
      (namespace_submit space).2 = Some (client.create_namespace (trim (sp_name space)))
      /\ is_ok (NamespaceNameM.parse (trim (trim (sp_name space)))) = true)
  /\ (queue_form_disabled queue = false <->
      qf_submitting queue = false /\ is_ok (parse_queue_name (qf_name queue)) = true
      /\ validate_queue_description (optional_description (qf_description queue)) = Ok ())
  /\ (queue_form_disabled queue = false ->
      (queue_submit queue).2 = Some (client.create_queue (trim (qf_name queue)) (optional_description (qf_description queue)))
      /\ is_ok (parse_queue_name (trim (qf_name queue))) = true).
Proof.
  assert (namespace_form_disabled space = false <-> sp_submitting space = false /\ name_validation_message (sp_name space) true = None) as Hs
    by (unfold namespace_form_disabled; rewrite orb_false_iff, no_message; done).
  assert (queue_form_disabled queue = false <-> qf_submitting queue = false /\ name_validation_message (qf_name queue) true = None
    /\ description_validation (qf_description queue) = None) as Hq
    by (unfold queue_form_disabled; rewrite !orb_false_iff, !no_message; tauto).
  rewrite namespace_name_server, queue_name_server, <- !name_shown, <- description_server, Hs, Hq.
  split; [done|]. split; [|split; [done|]].
  - intros [Hb Hn]. rewrite namespace_name_server, trim_idem, <- name_shown. split; [|done].
    unfold namespace_submit. rewrite Hb, name_message_trim, Hn. done.
  - intros (Hb & Hn & Hd). rewrite queue_name_server, trim_idem, <- name_shown. split; [|done].
    unfold queue_submit, queue_fields. rewrite Hb, name_message_trim, Hn, Hd. done.
Qed.
End Forms.

(** ** What a deletion dialog sends *)

Fixpoint deletion_session (call : Outgoing) (in_use : option string) (events : list deletion_event) (self : Deletion) : Deletion * list Outgoing :=
  match events with
  | [] => (self, [])
  | event :: events =>
      let '(self, sent) := deletion_on call in_use event self in
      let '(self, rest) := deletion_session call in_use events self in
      (self, option_list sent ++ rest)
  end.

(** Nothing is deleted before the dialog was opened and confirmed. *)
Lemma deletion_needs_confirmation call in_use events : forall self,
  dl_open self = false \/ Forall (fun event => event <> DeleteConfirm) events ->
  Forall (fun event => event <> DeleteOpen) events \/ Forall (fun event => event <> DeleteConfirm) events ->
  (deletion_session call in_use events self).2 = [].
Proof.
  induction events as [|event events IH]; intros self Ho He; [done|]. cbn [deletion_session].
  assert (Hnow : (deletion_on call in_use event self).2 = None).
  { destruct event as [| | |[]]; cbn [deletion_on]; try (by destruct (dl_busy self)).
    destruct Ho as [->|Ho]; [done|]. by inversion_clear Ho. }
  assert (Hnext : dl_open (deletion_on call in_use event self).1 = false \/ Forall (fun event => event <> DeleteConfirm) events).
  { destruct Ho as [Ho|Ho]; [|by inversion_clear Ho; right]. destruct He as [He|He]; [|by inversion_clear He; right].
    inversion_clear He as [|? ? H1 H2]. left. destruct event as [| | |[]]; cbn [deletion_on]; [done|..]; try rewrite Ho; try done; by destruct (dl_busy self). }
  destruct (deletion_on call in_use event self) as [self' sent]. cbn in Hnow, Hnext. subst sent.
  destruct (deletion_session call in_use events self') as [s l] eqn:E. cbn. specialize (IH self' Hnext). rewrite E in IH. apply IH.
  destruct He as [He|He]; inversion_clear He; [by left|by right].
Qed.
