(* ===== verification/WorkflowPages.v ===== *)
(** * Pages of Workflow invocations (apps/web/src/pages/workflows)

    run.rs, run_detail.rs, node_list.rs and mod.rs: the form that launches a
    Workflow and may send the same launch again, the page that follows an
    invocation and cancels it, and the text that explains why a node was
    skipped. *)

From S2P Require Import Prelude RustStr Json Inputs Names Text Domain Auth Workflow Db Snapshot Store WorkflowStore Refinement Service ApiTypes Web Resources WebClient Forms ResourceForms Navigation RunPages.
From Stdlib Require Import Ascii String.
From stdpp Require Import base numbers strings gmap list pretty.

Local Open Scope Z_scope.

(** ** The launch form (run.rs) *)

Definition target_eqb (a b : api.ExecutionTarget) : bool :=
  match a, b with
  | api.ET_Target x, api.ET_Target y | api.ET_TargetSet x, api.ET_TargetSet y => (x =? y)%N
  | _, _ => false
  end.

(** [Uuid::now_v7()] is drawn when no identifier is kept. *)
Definition retry_request (now_v7 : Uuid) (prior : option api.StartWorkflowRequest) (target : api.ExecutionTarget) (inputs : value)
  : api.StartWorkflowRequest :=
  let request_id := match prior with
    | Some prior =>
        if target_eqb (api.swr_target prior) target && value_eqb (api.swr_inputs prior) inputs then api.swr_request_id prior else now_v7
    | None => now_v7
    end in
  api.mkStartWorkflowRequest request_id target inputs.

Record LaunchForm : Type := mkLaunchForm {
  lf_destination : option Uuid;
  lf_inputs : string;
  lf_busy : bool;
  lf_error : option string;
  lf_prior : option api.StartWorkflowRequest;
}.

Definition launch_form_new : LaunchForm := mkLaunchForm None "{}" false None None.

Section Launch.
Context {SJ : SerdeJson} {RF : RustFmt} {JT : JsonText}.

Definition launch_form_disabled (self : LaunchForm) : bool := lf_busy self || is_err (parse_input_object (lf_inputs self)).

(** [submit]: the request that is sent, if one is. *)
Definition launch_submit (sets : list ResourceOption) (now_v7 : Uuid) (self : LaunchForm) : LaunchForm * option api.StartWorkflowRequest :=
  if lf_busy self then (self, None)
  else
    match lf_destination self with
    | None => (mkLaunchForm None (lf_inputs self) false (Some "Select a Target or Target Set."%string) (lf_prior self), None)
    | Some target_id =>
        match parse_input_object (lf_inputs self) with
        | Err _ => (mkLaunchForm (Some target_id) (lf_inputs self) false None (lf_prior self), None)
        | Ok values =>
            let request := retry_request now_v7 (lf_prior self) (execution_target sets target_id) values in
            (mkLaunchForm (Some target_id) (lf_inputs self) true None (Some request), Some request)
        end
    end.

(** The answer: the page to open, or the form again. *)
Definition launch_answer (answer : result api.WorkflowRunResource ClientError) (self : LaunchForm) : LaunchForm * option string :=
  match answer with
  | Ok run => (self, Some (workflow_run_details_path (uuid_to_string (api.wrun_id run))))
  | Err failure => (mkLaunchForm (lf_destination self) (lf_inputs self) false (Some (ce_message failure)) (lf_prior self), None)
  end.

Inductive launch_event : Type :=
| LaunchDestination (selected : option Uuid)
| LaunchInputs (text : string)
| LaunchSubmit (sets : list ResourceOption) (now_v7 : Uuid)
| LaunchAnswer (answer : result api.WorkflowRunResource ClientError).

(** The fields are disabled while a call is in flight. *)
Definition launch_on (event : launch_event) (self : LaunchForm) : LaunchForm * option api.StartWorkflowRequest :=
  match event with
  | LaunchDestination selected =>
      if lf_busy self then (self, None)
      else (mkLaunchForm selected (lf_inputs self) (lf_busy self) (lf_error self) (lf_prior self), None)
  | LaunchInputs text =>
      if lf_busy self then (self, None)
      else (mkLaunchForm (lf_destination self) text (lf_busy self) (lf_error self) (lf_prior self), None)
  | LaunchSubmit sets now_v7 => launch_submit sets now_v7 self
  | LaunchAnswer answer => ((launch_answer answer self).1, None)
  end.

(** What a page sends over time, and the identifier drawn for each. *)
Definition drawn (event : launch_event) : Uuid := match event with LaunchSubmit _ now_v7 => now_v7 | _ => 0%N end.

Fixpoint launches (events : list launch_event) (self : LaunchForm) : list (Uuid * api.StartWorkflowRequest) :=
  match events with
  | [] => []
  | event :: events =>
      let '(self, sent) := launch_on event self in
      map (fun request => (drawn event, request)) (option_list sent) ++ launches events self
  end.

Definition same_payload (a b : api.StartWorkflowRequest) : bool :=
  target_eqb (api.swr_target a) (api.swr_target b) && value_eqb (api.swr_inputs a) (api.swr_inputs b).

(** Each launch keeps the identifier of the one before when nothing changed, and has a new one otherwise. *)
Fixpoint identities_kept (prior : option api.StartWorkflowRequest) (sent : list (Uuid * api.StartWorkflowRequest)) : Prop :=
  match sent with
  | [] => True
  | (now_v7, request) :: sent =>
      api.swr_request_id request
      = (if from_option (fun prior => same_payload prior request) false prior
         then from_option api.swr_request_id 0%N prior else now_v7)
      /\ identities_kept (Some request) sent
  end.

Lemma launch_on_prior event self :
  (lf_prior (launch_on event self).1 = match (launch_on event self).2 with Some request => Some request | None => lf_prior self end)
  /\ forall request, (launch_on event self).2 = Some request ->
       exists target inputs, request = retry_request (drawn event) (lf_prior self) target inputs.
Proof.
  destruct event as [selected|text|sets now_v7|answer]; cbn [launch_on].
  - destruct (lf_busy self); by split.
  - destruct (lf_busy self); by split.
  - unfold launch_submit. destruct (lf_busy self); [by split|]. destruct (lf_destination self) as [id|]; [|by split].
    destruct (parse_input_object (lf_inputs self)) as [values|e]; [|by split]. split; [done|]. intros request [= <-]. by eexists _, _.
  - by destruct answer.
Qed.

Lemma retry_kept now_v7 prior target inputs :
  let request := retry_request now_v7 prior target inputs in
  api.swr_request_id request
  = (if from_option (fun prior => same_payload prior request) false prior
     then from_option api.swr_request_id 0%N prior else now_v7).
Proof. by destruct prior. Qed.

Lemma launches_kept_from events : forall self, identities_kept (lf_prior self) (launches events self).
Proof.
  induction events as [|event events IH]; intros self; [done|]. cbn [launches].
  destruct (launch_on_prior event self) as [Hp Hs]. destruct (launch_on event self) as [self' sent]. cbn [fst snd] in Hp, Hs.
  destruct sent as [request|]; cbn [option_list map app identities_kept]; [|rewrite <- Hp; apply IH].
  destruct (Hs request eq_refl) as (target & inputs & ->). split; [apply retry_kept|]. rewrite <- Hp. apply IH.
Qed.

(** Whatever is edited, submitted and answered on the launch page, a
    launch with the same destination and inputs as the one sent before it
    carries the same identifier (so the server can recognise it), a launch
    with another payload carries a freshly drawn one, and while a launch is
    unanswered nothing more is sent. *)
Theorem launch_identity_kept events :
  identities_kept None (launches events launch_form_new)
  /\ forall event self, lf_busy self = true -> (launch_on event self).2 = None.
Proof.
  split; [exact (launches_kept_from events launch_form_new)|].
  intros [selected|text|sets now_v7|answer] self Hb; cbn [launch_on]; unfold launch_submit; by rewrite ?Hb.
Qed.
End Launch.

(** ** Labels (mod.rs) *)

Definition condition_label (condition : api.DependencyCondition) : string :=
  match condition with api.DC_Success => "On success" | api.DC_Failure => "On failure" | api.DC_Always => "Always" end.

Definition node_state_label (state : api.WorkflowNodeRunState) : string :=
  match state with
  | api.NRS_Pending => "Pending"
  | api.NRS_Ready => "Ready"
  | api.NRS_Running => "Running"
  | api.NRS_Succeeded => "Succeeded"
  | api.NRS_Failed => "Failed"
  | api.NRS_Skipped => "Skipped"
  | api.NRS_Cancelled => "Cancelled"
  | api.NRS_Unknown => "Unknown"
  end.

(** [workflow_state]: the badge of an invocation. *)
Definition badge_state (state : api.WorkflowRunState) : api.WorkflowNodeRunState :=
  match state with
  | api.WRS_Pending => api.NRS_Pending
  | api.WRS_Running => api.NRS_Running
  | api.WRS_Succeeded => api.NRS_Succeeded
  | api.WRS_Failed => api.NRS_Failed
  | api.WRS_Cancelled => api.NRS_Cancelled
  end.

(** [invalid_url] *)
Definition invalid_url : ClientError := mkClientError "invalid_workflow_id" "Invalid Workflow URL." None.

(** ** Why a node was skipped (node_list.rs) *)

#[export] Instance node_run_state_eq : EqDecision api.WorkflowNodeRunState.
Proof. solve_decision. Defined.

Definition shown_terminal (state : api.WorkflowNodeRunState) : bool :=
  match state with api.NRS_Pending | api.NRS_Ready | api.NRS_Running => false | _ => true end.

Definition shown_matches (condition : api.DependencyCondition) (state : api.WorkflowNodeRunState) : bool :=
  match condition with
  | api.DC_Success => bool_decide (state = api.NRS_Succeeded)
  | api.DC_Failure => match state with api.NRS_Failed | api.NRS_Unknown => true | _ => false end
  | api.DC_Always => shown_terminal state
  end.

(** One round of the loop: the text, when the edge explains the skip. *)
Definition edge_explains (value : api.WorkflowRunResource) (node : api.WorkflowNodeRunResource) (edge : api.WorkflowEdgeResource) : option string :=
  if (api.we_to edge =? api.wnrr_name node)%string then
    predecessor ← List.find (fun previous => (api.wnrr_name previous =? api.we_from edge)%string) (api.wrun_nodes value);
    let state := api.wnrr_state predecessor in
    if shown_terminal state && negb (shown_matches (api.we_condition edge) state)
    then Some ("Expected branch skip: " ++ api.wnrr_name predecessor ++ " ended " ++ ascii_lowercase (node_state_label state)
               ++ " and did not match " ++ condition_label (api.we_condition edge) ++ ".")%string
    else None
  else None.

Definition skip_reason (value : api.WorkflowRunResource) (node : api.WorkflowNodeRunResource) : option string :=
  head (omap (edge_explains value node) (api.wf_edges (api.wrun_workflow value))).

Definition skip_explanation (value : api.WorkflowRunResource) (node : api.WorkflowNodeRunResource) : string :=
  default "This node was skipped by normal execution. Follow any associated Run for its outcome."%string (skip_reason value node).

(** The notes of [NodeExecutions], one for each node: only a node that the server has skipped has one. *)
Definition node_notes (value : api.WorkflowRunResource) : list (option string) :=
  map (fun node => match api.wnrr_state node with api.NRS_Skipped => Some (skip_explanation value node) | _ => None end)
    (api.wrun_nodes value).

(** The edges into a node of an invocation, with the states they come from. *)
Definition incoming_edge (record : WorkflowRunRecord) (name : string) (edge : WorkflowEdge) : option (DependencyCondition * WorkflowNodeState) :=
  if (ResourceNameM.as_str (we_to edge) =? name)%string
  then n ← List.find (fun n => (ResourceNameM.as_str (nrr_name n) =? ResourceNameM.as_str (we_from edge))%string) (wrr_nodes record);
       Some (we_condition edge, nrr_state n)
  else None.

Definition incoming (record : WorkflowRunRecord) (name : string) : list (DependencyCondition * WorkflowNodeState) :=
  omap (incoming_edge record name) (wd_edges (wrec_definition (wrr_workflow record))).

Section Explanations.
Context {RF : RustFmt} {RFC : Rfc3339}.

Lemma find_map {A B} (g : A -> B) (p : B -> bool) l : g <$> List.find (fun x => p (g x)) l = List.find p (map g l).
Proof. induction l as [|x l IH]; [done|]. cbn. by destruct (p (g x)). Qed.

Lemma head_omap {A B} (f : A -> option B) l : is_Some (head (omap f l)) <-> exists x, x ∈ l /\ is_Some (f x).
Proof.
  split.
  - intros [y (x & Hx & Hy)%head_Some_elem_of%list_elem_of_omap]. eauto.
  - intros (x & Hx & y & Hy). assert (y ∈ omap f l) as H by (apply list_elem_of_omap; eauto).
    destruct (omap f l); [by apply elem_of_nil in H|done].
Qed.

Lemma shown_mismatch c s :
  shown_terminal (node_run_state s) && negb (shown_matches (api_condition c) (node_run_state s)) = true <-> mismatch (c, s).
Proof. unfold mismatch. destruct c, s; vm_compute; intuition congruence. Qed.

Lemma resource_nodes record value : workflow_run_resource record = Ok value ->
  map (fun n => (api.wnrr_name n, api.wnrr_state n)) (api.wrun_nodes value)
  = map (fun n => (ResourceNameM.as_str (nrr_name n), node_run_state (nrr_state n))) (wrr_nodes record)
  /\ api.wf_edges (api.wrun_workflow value)
     = map (fun edge => api.mkWorkflowEdgeResource (ResourceNameM.as_str (we_from edge))
              (ResourceNameM.as_str (we_to edge)) (api_condition (we_condition edge))) (wd_edges (wrec_definition (wrr_workflow record))).
Proof.
  unfold workflow_run_resource. intros H. apply result_bind_ok in H as (nodes & Hn & H).
  apply result_bind_ok in H as (wf & Hw & H). do 3 apply result_bind_ok in H as (? & _ & H). injection H as <-. cbn. split.
  - eapply collect_map; [|exact Hn]. intros node shown Hy. do 2 apply result_bind_ok in Hy as (? & _ & Hy). by injection Hy as <-.
  - unfold workflow_resource in Hw. do 3 apply result_bind_ok in Hw as (? & _ & Hw). by injection Hw as <-.
Qed.

Lemma edge_explained record value node edge : workflow_run_resource record = Ok value ->
  is_Some (edge_explains value node (api.mkWorkflowEdgeResource (ResourceNameM.as_str (we_from edge))
    (ResourceNameM.as_str (we_to edge)) (api_condition (we_condition edge))))
  <-> exists e, incoming_edge record (api.wnrr_name node) edge = Some e /\ mismatch e.
Proof.
  intros [Hnodes _]%resource_nodes. unfold edge_explains, incoming_edge. cbn [api.we_to api.we_from api.we_condition].
  destruct (ResourceNameM.as_str (we_to edge) =? api.wnrr_name node)%string; [|split; [by intros []|by intros (e & ? & _)]].
  set (from := ResourceNameM.as_str (we_from edge)).
  pose proof (find_map (fun n => (api.wnrr_name n, api.wnrr_state n)) (fun n => (n.1 =? from)%string) (api.wrun_nodes value)) as H1.
  rewrite Hnodes, <- find_map in H1. cbn [fst] in H1.
  destruct (List.find _ (api.wrun_nodes value)) as [shown|], (List.find _ (wrr_nodes record)) as [n|]; try done;
    [|split; [by intros []|by intros (e & ? & _)]].
  cbn in H1. injection H1 as _ Hstate. cbn [mbind option_bind]. rewrite Hstate.
  pose proof (shown_mismatch (we_condition edge) (nrr_state n)) as Hm. destruct (_ && _).
  - split; [|by intros _]. intros _. eexists. split; [done|]. by apply Hm.
  - split; [by intros []|]. intros (e & [= <-] & He). by apply Hm in He.
Qed.

Lemma skip_reason_rule record value node :
  workflow_run_resource record = Ok value ->
  is_Some (skip_reason value node) <-> dependency_decision (incoming record (api.wnrr_name node)) = Skipped_.
Proof.
  intros Hr. pose proof (resource_nodes _ _ Hr) as [_ Hedges]. unfold skip_reason.
  rewrite head_omap, (proj1 (decision_cases _)), Hedges. unfold incoming. setoid_rewrite list_elem_of_omap. split.
  - intros (shown & (edge & <- & Hedge)%list_elem_of_In%in_map_iff & H%(edge_explained record)); [|done].
    destruct H as (e & He & Hm). exists e. split; [|done]. exists edge. split; [by apply list_elem_of_In|done].
  - intros (e & (edge & Hedge & He) & Hm). eexists. split; [by apply list_elem_of_In, in_map, list_elem_of_In|].
    apply (edge_explained record); eauto.
Qed.

(** The sentence about one edge: its predecessor has ended in a state that does not satisfy its condition. *)
Definition names_edge (value : api.WorkflowRunResource) (node : api.WorkflowNodeRunResource) (note : string) : Prop :=
  exists edge predecessor, edge ∈ api.wf_edges (api.wrun_workflow value) /\ api.we_to edge = api.wnrr_name node
    /\ predecessor ∈ api.wrun_nodes value /\ api.wnrr_name predecessor = api.we_from edge
    /\ shown_terminal (api.wnrr_state predecessor) = true
    /\ shown_matches (api.we_condition edge) (api.wnrr_state predecessor) = false
    /\ edge_explains value node edge = Some note.

Lemma reason_names_edge value node note : skip_reason value node = Some note -> names_edge value node note.
Proof.
  intros (edge & Hin & He)%head_Some_elem_of%list_elem_of_omap. pose proof He as He'. unfold edge_explains in He.
  destruct (String.eqb_spec (api.we_to edge) (api.wnrr_name node)) as [Hto|]; [|done].
  apply bind_Some in He as (predecessor & [Hp Hn%String.eqb_eq]%find_some & He). apply list_elem_of_In in Hp.
  destruct (_ && _) eqn:E in He; [|done]. apply andb_true_iff in E as [E1 E2%negb_true_iff]. by exists edge, predecessor.
Qed.

(** C37: The page that shows an invocation has a note for a node exactly when the
    server has skipped it, and the note is the server's rule: it names an edge
    whose predecessor ended without matching its condition if and only if
    [dependency_decision], over the states and conditions of the record the page
    was sent, answers that the node is skipped, and is the general sentence
    otherwise. *)
Theorem skip_explained record value :
  workflow_run_resource record = Ok value ->
  Forall2 (fun node note =>
      (is_Some note <-> api.wnrr_state node = api.NRS_Skipped)
      /\ (forall text, note = Some text ->
           match dependency_decision (incoming record (api.wnrr_name node)) with
           | Skipped_ => names_edge value node text
           | _ => text = "This node was skipped by normal execution. Follow any associated Run for its outcome."%string
           end))
    (api.wrun_nodes value) (node_notes value).
Proof.
  intros Hr. unfold node_notes. apply Forall2_fmap_r, Forall_Forall2_diag, Forall_forall. intros node _. split.
  - destruct (api.wnrr_state node); (split; [by intros [? ?]|by intros]) || (split; [done|by intros _; eexists]).
  - intros text Ht. assert (text = skip_explanation value node) as -> by (destruct (api.wnrr_state node); congruence).
    pose proof (skip_reason_rule record value node Hr) as Hrule. unfold skip_explanation.
    destruct (skip_reason value node) as [note|] eqn:Hn; cbn [default].
    + rewrite (proj1 Hrule) by eauto. by apply reason_names_edge.
    + destruct (dependency_decision _); try done. by destruct (proj2 Hrule eq_refl).
Qed.
End Explanations.

(** ** Following an invocation (run_detail.rs) *)

(** [is_active] *)
Definition is_active (state : api.WorkflowRunState) : bool :=
  match state with api.WRS_Pending | api.WRS_Running => true | _ => false end.

(** The signals of the page of one address; [ip_timer] tells whether the interval runs. *)
Record InvocationPage : Type := mkInvocationPage {
  ip_pending : bool;
  ip_mutating : bool;
  ip_snapshot : option api.WorkflowRunResource;
  ip_error : option string;
  ip_timer : bool;
  ip_open : bool;
  ip_cancel_error : option string;
}.

(** The effect that starts and stops the interval. *)
Definition timer_effect (self : InvocationPage) : InvocationPage :=
  mkInvocationPage (ip_pending self) (ip_mutating self) (ip_snapshot self) (ip_error self)
    (from_option (fun value => is_active (api.wrun_state value)) false (ip_snapshot self)) (ip_open self) (ip_cancel_error self).

Definition cancel_allowed (self : InvocationPage) : bool :=
  from_option (fun run => is_active (api.wrun_state run) && negb (api.wrun_cancellation_requested run)) false (ip_snapshot self).

Section InvocationPage.
Context (id : option Uuid).

(** A fetch: an address that is no identifier is refused without a call. *)
Definition fetch_run : option Outgoing := client.get_workflow_run <$> id.

Definition invocation_page_new : InvocationPage * option Outgoing :=
  (mkInvocationPage true false None None false false None, fetch_run).

(** [refresh] *)
Definition refresh (self : InvocationPage) : InvocationPage * option Outgoing :=
  if negb (ip_pending self) && negb (ip_mutating self)
  then (mkInvocationPage true (ip_mutating self) (ip_snapshot self) (ip_error self) (ip_timer self) (ip_open self) (ip_cancel_error self), fetch_run)
  else (self, None).

Inductive invocation_event : Type :=
| RunLoaded (answer : result api.WorkflowRunResource ClientError)
| PressRefresh
| TimerTick
| OpenCancel
| CloseCancel
| ConfirmCancel
| CancelAnswered (answer : result api.WorkflowRunResource ClientError).

Definition run_loaded (answer : result api.WorkflowRunResource ClientError) (self : InvocationPage) : InvocationPage :=
  match answer with
  | Ok value => mkInvocationPage false (ip_mutating self) (Some value) None (ip_timer self) (ip_open self) (ip_cancel_error self)
  | Err failure => mkInvocationPage false (ip_mutating self) (ip_snapshot self) (Some (ce_message failure)) (ip_timer self) (ip_open self) (ip_cancel_error self)
  end.

(** [confirm] *)
Definition confirm_cancel (self : InvocationPage) : InvocationPage * option Outgoing :=
  if ip_mutating self || ip_pending self || negb (cancel_allowed self) then (self, None)
  else match ip_snapshot self with
       | None => (self, None)
       | Some run =>
           (mkInvocationPage (ip_pending self) true (ip_snapshot self) (ip_error self) (ip_timer self) (ip_open self) None,
            Some (client.cancel_workflow_run (api.wrun_id run)))
       end.

Definition cancel_answered (answer : result api.WorkflowRunResource ClientError) (self : InvocationPage) : InvocationPage * option Outgoing :=
  match answer with
  | Ok value => refresh (mkInvocationPage (ip_pending self) false (Some value) (ip_error self) (ip_timer self) false (ip_cancel_error self))
  | Err failure =>
      (mkInvocationPage (ip_pending self) false (ip_snapshot self) (ip_error self) (ip_timer self) (ip_open self) (Some (ce_message failure)), None)
  end.

(** The handlers; an answer is handled only while its call is in flight. *)
Definition invocation_handle (event : invocation_event) (self : InvocationPage) : InvocationPage * option Outgoing :=
    match event with
    | RunLoaded answer => if ip_pending self then (run_loaded answer self, None) else (self, None)
    | PressRefresh => refresh self
    | TimerTick => if ip_timer self then refresh self else (self, None)
    | OpenCancel =>
        if cancel_allowed self && negb (ip_pending self || ip_mutating self)
        then (mkInvocationPage (ip_pending self) (ip_mutating self) (ip_snapshot self) (ip_error self) (ip_timer self) true None, None)
        else (self, None)
    | CloseCancel =>
        if ip_mutating self then (self, None)
        else (mkInvocationPage (ip_pending self) (ip_mutating self) (ip_snapshot self) (ip_error self) (ip_timer self) false (ip_cancel_error self), None)
    | ConfirmCancel => if ip_open self then confirm_cancel self else (self, None)
    | CancelAnswered answer => if ip_mutating self then cancel_answered answer self else (self, None)
    end.

(** A handler and then the effect. *)
Definition invocation_on (event : invocation_event) (self : InvocationPage) : InvocationPage * option Outgoing :=
  let '(self, sent) := invocation_handle event self in (timer_effect self, sent).

Definition polls (self : InvocationPage) : Prop :=
  ip_timer self = from_option (fun value => is_active (api.wrun_state value)) false (ip_snapshot self)
  /\ (ip_pending self && ip_mutating self = false).

Lemma invocation_on_polls event self : ip_pending self && ip_mutating self = false -> polls (invocation_on event self).1.
Proof.
  intros Hp. unfold invocation_on. destruct (invocation_handle event self) as [self' sent] eqn:H. split; [done|].
  change (ip_pending self' && ip_mutating self' = false). revert H. destruct self as [pending mutating snapshot error timer opened ce].
  cbn [ip_pending ip_mutating] in Hp. destruct event as [[]| | | | | |[]], pending, mutating; try done; cbn;
    unfold confirm_cancel, refresh; cbn; repeat case_match; by intros [= <- <-].
Qed.

Fixpoint invocation_session (events : list invocation_event) (self : InvocationPage) : InvocationPage :=
  match events with [] => self | event :: events => invocation_session events (invocation_on event self).1 end.

(** The page of an invocation polls exactly as long as the invocation it
    shows is pending or running, and its calls never overlap: in every session
    the interval runs if and only if the snapshot is active, a fetch and a
    cancellation are never in flight together, nothing is sent while one of
    them is, and a cancellation is sent only for an active invocation that was
    not asked to cancel before. *)
Theorem polling_follows_state events event :
  let page := invocation_session events (invocation_page_new).1 in
  polls page
  /\ (ip_pending page || ip_mutating page = true ->
      (invocation_on event page).2 <> None -> exists answer, event = CancelAnswered answer)
  /\ (forall url, (invocation_on ConfirmCancel page).2 = Some url ->
      exists run, ip_snapshot page = Some run /\ is_active (api.wrun_state run) = true
        /\ api.wrun_cancellation_requested run = false /\ url = client.cancel_workflow_run (api.wrun_id run)).
Proof.
  cbv zeta. set (page := invocation_session _ _). assert (polls page) as Hp.
  { unfold page. assert (polls (invocation_page_new).1) as H0 by done. revert H0. generalize (invocation_page_new).1.
    induction events as [|e events IH]; intros self Hs; [done|]. cbn [invocation_session]. apply IH, invocation_on_polls, Hs. }
  split; [done|]. destruct Hp as [_ Hp]. clearbody page. destruct page as [pending mutating snapshot error timer opened ce]. cbn in Hp. split.
  - unfold invocation_on. cbn [ip_pending ip_mutating]. intros Hb Hsent. destruct event as [[]| | | | | |answer]; try (by eexists); exfalso; apply Hsent; revert Hb; clear Hsent;
      destruct pending, mutating; try done; cbn; unfold confirm_cancel, refresh, cancel_allowed; cbn; intros _; repeat case_match; simplify_eq; done.
  - intros url. unfold invocation_on. cbn. destruct opened; [|done]. unfold confirm_cancel, cancel_allowed. cbn.
    destruct pending, mutating; try done. cbn. destruct snapshot as [run|]; [|done]. cbn. destruct (is_active (api.wrun_state run)) eqn:Ha; [|done].
    destruct (api.wrun_cancellation_requested run) eqn:Hc; [done|]. cbn. intros [= <-]. eauto.
Qed.
End InvocationPage.
