(* ===== verification/WorkflowEditor.v ===== *)
(** * The workflow editor (apps/web/src/pages/workflows)

    The draft a browser holds while a Workflow is written: editor.rs, the
    preview's input in graph.rs, and the parts of form.rs that change the
    draft or send it.  A row's fields are signals, shared by every copy of
    the row, so the model keeps them in a store and a row holds references
    into it; the editor's own signals are never shared and are fields.
    Rendering, focus and event wiring are left out. *)

From S2P Require Import Prelude RustStr Json Inputs Names Text Domain Workflow Validation ApiTypes Resources Layout WebClient Forms.
From Stdlib Require Import Ascii String.
From stdpp Require Import base numbers strings gmap list pretty.

Local Open Scope Z_scope.

(** ** Signals *)

(** The signals of rows by kind, the next free reference, and how many UUIDs were drawn. *)
Record Signals : Type := mkSignals {
  sg_text : gmap nat string;
  sg_reference : gmap nat (option Uuid);
  sg_condition : gmap nat api.DependencyCondition;
  sg_next : nat;
  sg_uuids : nat;
}.

Definition no_signals : Signals := mkSignals ∅ ∅ ∅ 0 0.

Definition new_text (v : string) (st : Signals) : nat * Signals :=
  (sg_next st, mkSignals (<[sg_next st := v]> (sg_text st)) (sg_reference st) (sg_condition st) (S (sg_next st)) (sg_uuids st)).
Definition new_reference (v : option Uuid) (st : Signals) : nat * Signals :=
  (sg_next st, mkSignals (sg_text st) (<[sg_next st := v]> (sg_reference st)) (sg_condition st) (S (sg_next st)) (sg_uuids st)).
Definition new_condition (v : api.DependencyCondition) (st : Signals) : nat * Signals :=
  (sg_next st, mkSignals (sg_text st) (sg_reference st) (<[sg_next st := v]> (sg_condition st)) (S (sg_next st)) (sg_uuids st)).

(** [get]; a row's signals live as long as the page. *)
Definition get_text (st : Signals) (r : nat) : string := default ""%string (sg_text st !! r).
Definition get_reference (st : Signals) (r : nat) : option Uuid := default None (sg_reference st !! r).
Definition get_condition (st : Signals) (r : nat) : api.DependencyCondition := default api.DC_Success (sg_condition st !! r).

Definition set_text (r : nat) (v : string) (st : Signals) : Signals :=
  mkSignals (<[r := v]> (sg_text st)) (sg_reference st) (sg_condition st) (sg_next st) (sg_uuids st).
Definition set_reference (r : nat) (v : option Uuid) (st : Signals) : Signals :=
  mkSignals (sg_text st) (<[r := v]> (sg_reference st)) (sg_condition st) (sg_next st) (sg_uuids st).
Definition set_condition (r : nat) (v : api.DependencyCondition) (st : Signals) : Signals :=
  mkSignals (sg_text st) (sg_reference st) (<[r := v]> (sg_condition st)) (sg_next st) (sg_uuids st).

(** An iterator's [map] whose closure creates or sets signals. *)
Fixpoint map_signals {A B} (f : A -> Signals -> B * Signals) (l : list A) (st : Signals) : list B * Signals :=
  match l with
  | [] => ([], st)
  | x :: l =>
      let '(y, st) := f x st in
      let '(ys, st) := map_signals f l st in
      (y :: ys, st)
  end.

(** ** The draft *)

Record JobRow : Type := mkJobRow {
  jr_key : Uuid;
  jr_name : nat;
  jr_job : nat;
}.

Record EdgeRow : Type := mkEdgeRow {
  er_key : Uuid;
  er_from : nat;
  er_to : nat;
  er_condition : nat;
}.

Record Editor : Type := mkEditor {
  ed_edit_id : option Uuid;
  ed_namespace : option Uuid;
  ed_namespace_label : string;
  ed_name : string;
  ed_description : string;
  ed_nodes : list JobRow;
  ed_edges : list EdgeRow;
  ed_revision : Z;
  ed_attempted : bool;
  ed_busy : bool;
  ed_error : option string;
  ed_feedback : option ResourceFeedback;
  ed_saved_id : option Uuid;
  ed_saved : option api.CreateWorkflowRequest;
}.

Section WorkflowEditor.
Context {RF : RustFmt}.

(** [Uuid::now_v7], at each call. *)
Variable now_v7 : nat -> Uuid.

Definition draw_uuid (st : Signals) : Uuid * Signals :=
  (now_v7 (sg_uuids st), mkSignals (sg_text st) (sg_reference st) (sg_condition st) (sg_next st) (S (sg_uuids st))).

(** [JobRow::empty], [EdgeRow::empty] *)
Definition job_row_empty (st : Signals) : JobRow * Signals :=
  let '(key, st) := draw_uuid st in
  let '(name, st) := new_text "" st in
  let '(job, st) := new_reference None st in
  (mkJobRow key name job, st).

Definition edge_row_empty (st : Signals) : EdgeRow * Signals :=
  let '(key, st) := draw_uuid st in
  let '(from, st) := new_reference None st in
  let '(to, st) := new_reference None st in
  let '(condition, st) := new_condition api.DC_Success st in
  (mkEdgeRow key from to condition, st).

Definition node_row (node : api.WorkflowNodeResource) (st : Signals) : JobRow * Signals :=
  let '(name, st) := new_text (api.wn_name node) st in
  let '(job, st) := new_reference (Some (api.wn_job_id node)) st in
  (mkJobRow (api.wn_id node) name job, st).

(** The row whose name an edge's end is. *)
Definition row_named (st : Signals) (nodes : list JobRow) (name : string) : option Uuid :=
  jr_key <$> List.find (fun node => (get_text st (jr_name node) =? name)%string) nodes.

Definition edge_row (nodes : list JobRow) (edge : api.WorkflowEdgeResource) (st : Signals) : EdgeRow * Signals :=
  let '(key, st) := draw_uuid st in
  let '(from, st) := new_reference (row_named st nodes (api.we_from edge)) st in
  let '(to, st) := new_reference (row_named st nodes (api.we_to edge)) st in
  let '(condition, st) := new_condition (api.we_condition edge) st in
  (mkEdgeRow key from to condition, st).

(** The request an unchanged draft of the resource stands for. *)
Definition saved_request (workflow : api.WorkflowResource) : api.CreateWorkflowRequest :=
  api.mkCreateWorkflowRequest (api.wf_name workflow) (api.wf_description workflow)
    (map (fun node => api.mkWorkflowNodeRequest (api.wn_name node) (api.wn_job_id node)) (api.wf_nodes workflow))
    (map api.edge_request (api.wf_edges workflow)).

(** [Editor::new] *)
Definition editor_new (initial : option api.WorkflowResource) (st : Signals) : Editor * Signals :=
  let '(nodes, st) := match initial with
    | None => let '(row, st) := job_row_empty st in ([row], st)
    | Some workflow => map_signals node_row (api.wf_nodes workflow) st
    end in
  let '(edges, st) := match initial with
    | None => ([], st)
    | Some workflow => map_signals (edge_row nodes) (api.wf_edges workflow) st
    end in
  (mkEditor (api.wf_id <$> initial) (api.wf_namespace_id <$> initial) (from_option api.wf_namespace ""%string initial)
     (from_option api.wf_name ""%string initial)
     (default ""%string (workflow ← initial; api.wf_description workflow)) nodes edges
     (from_option api.wf_revision 0 initial) false false None None (api.wf_id <$> initial) (saved_request <$> initial), st).

(** One loaded row: an existing row with its key takes its contents. *)
Definition replace_row (existing : list JobRow) (loaded : JobRow) (st : Signals) : JobRow * Signals :=
  match List.find (fun row => (jr_key row =? jr_key loaded)%N) existing with
  | Some row =>
      let st := set_text (jr_name row) (get_text st (jr_name loaded)) st in
      let st := set_reference (jr_job row) (get_reference st (jr_job loaded)) st in
      (row, st)
  | None => (loaded, st)
  end.

(** [Editor::replace] *)
Definition editor_replace (self : Editor) (workflow : api.WorkflowResource) (st : Signals) : Editor * Signals :=
  let '(loaded, st) := editor_new (Some workflow) st in
  let '(nodes, st) := map_signals (replace_row (ed_nodes self)) (ed_nodes loaded) st in
  (mkEditor (ed_edit_id self) (ed_namespace loaded) (ed_namespace_label self) (ed_name loaded) (ed_description loaded)
     nodes (ed_edges loaded) (api.wf_revision workflow) false (ed_busy self) None None (Some (api.wf_id workflow))
     (ed_saved loaded), st).

(** ** The request *)

(** The loop over the rows. *)
Fixpoint request_nodes (st : Signals) (rows : list JobRow) (names : gmap Uuid string) (unique : gset string)
    (nodes : list api.WorkflowNodeRequest) : result (gmap Uuid string * list api.WorkflowNodeRequest) string :=
  match rows with
  | [] => Ok (names, nodes)
  | row :: rows =>
      let node_name := trim (get_text st (jr_name row)) in
      match name_validation_message node_name true with
      | Some error => Err ("Job node name: " ++ error)%string
      | None =>
          if bool_decide (node_name ∈ unique) then Err "Job node names must be unique within the Workflow."%string
          else
            let? job_id := ok_or (get_reference st (jr_job row)) "Choose an existing Job for every node."%string in
            request_nodes st rows (<[jr_key row := node_name]> names) ({[node_name]} ∪ unique)
              (nodes ++ [api.mkWorkflowNodeRequest node_name job_id])
      end
  end.

(** The closure of [request_edges], until it fails. *)
Fixpoint resolve_edges (st : Signals) (rows : list EdgeRow) (names : gmap Uuid string) (pairs : gset (string * string))
  : result (list api.WorkflowEdgeRequest) string :=
  match rows with
  | [] => Ok []
  | row :: rows =>
      let? from := ok_or (id ← get_reference st (er_from row); names !! id) "Choose a From Job for every dependency."%string in
      let? to := ok_or (id ← get_reference st (er_to row); names !! id) "Choose a To Job for every dependency."%string in
      if (from =? to)%string then Err "A Job cannot depend on itself."%string
      else if bool_decide ((from, to) ∈ pairs)
      then Err "These Jobs already have a dependency. Each From/To pair must be unique."%string
      else
        let? edges := resolve_edges st rows names ({[(from, to)]} ∪ pairs) in
        Ok (api.mkWorkflowEdgeRequest from to (get_condition st (er_condition row)) :: edges)
  end.

Definition request_edges (st : Signals) (rows : list EdgeRow) (names : gmap Uuid string)
  : result (list api.WorkflowEdgeRequest) string :=
  if (256 <? length rows)%nat then Err "A Workflow supports at most 256 dependencies."%string
  else resolve_edges st rows names ∅.

(** [Editor::request] *)
Definition request (st : Signals) (self : Editor) : result api.CreateWorkflowRequest string :=
  let name := trim (ed_name self) in
  match name_validation_message name true with
  | Some error => Err error
  | None =>
      match ed_namespace self with
      | None => Err "Select a Namespace."%string
      | Some _ =>
          let rows := ed_nodes self in
          if (length rows =? 0)%nat || (64 <? length rows)%nat then Err "Choose 1–64 Jobs for this Workflow."%string
          else
            let? (names, nodes) := request_nodes st rows ∅ ∅ [] in
            let? edges := request_edges st (ed_edges self) names in
            let description := ed_description self in
            if 500 <? chars_count description then Err "Description must be at most 500 characters."%string
            else Ok (api.mkCreateWorkflowRequest name (if (description =? "")%string then None else Some description) nodes edges)
      end
  end.

(** ** Edits *)

Definition with_rows (nodes : list JobRow) (edges : list EdgeRow) (self : Editor) : Editor :=
  mkEditor (ed_edit_id self) (ed_namespace self) (ed_namespace_label self) (ed_name self) (ed_description self) nodes edges
    (ed_revision self) (ed_attempted self) (ed_busy self) (ed_error self) (ed_feedback self) (ed_saved_id self) (ed_saved self).

(** [Editor::remove_node] *)
Definition remove_node (st : Signals) (self : Editor) (key : Uuid) : Editor :=
  with_rows (List.filter (fun node => negb (jr_key node =? key)%N) (ed_nodes self))
    (List.filter (fun edge => negb (bool_decide (get_reference st (er_from edge) = Some key))
                              && negb (bool_decide (get_reference st (er_to edge) = Some key))) (ed_edges self)) self.

(** [Editor::clear_jobs] *)
Definition clear_jobs (self : Editor) (st : Signals) : Signals :=
  fold_left (fun st row => set_reference (jr_job row) None st) (ed_nodes self) st.

(** The buttons that add a row and remove a dependency (form.rs). *)
Definition add_job (self : Editor) (st : Signals) : Editor * Signals :=
  let '(row, st) := job_row_empty st in (with_rows (ed_nodes self ++ [row]) (ed_edges self) self, st).
Definition add_dependency (self : Editor) (st : Signals) : Editor * Signals :=
  let '(row, st) := edge_row_empty st in (with_rows (ed_nodes self) (ed_edges self ++ [row]) self, st).
Definition remove_dependency (self : Editor) (key : Uuid) : Editor :=
  with_rows (ed_nodes self) (List.filter (fun edge => negb (er_key edge =? key)%N) (ed_edges self)) self.

(** [base.get(..n)]: [None] past the end or inside a character. *)
Definition get_prefix (n : nat) (s : string) : option string :=
  if (n <=? String.length s)%nat && match String.get n s with Some a => negb (is_continuation a) | None => true end
  then Some (substring 0 n s) else None.

(** The candidate with a number, of at most 63 bytes. *)
Definition numbered_name (base : string) (number : Z) : string :=
  let suffix := ("-" ++ pretty number)%string in
  let prefix := trim_end_matches "-" (default base (get_prefix (63 - String.length suffix) base)) in
  (prefix ++ suffix)%string.

(** [unique_node_name], over the names of the rows *)
Definition unique_node_name (existing : list string) (base : string) : string :=
  if negb (existsb (fun name => (name =? base)%string) existing) then base
  else default ""%string (List.find (fun candidate => negb (bool_decide (candidate ∈ existing)))
                     (map (fun number => numbered_name base number) (seqZ 2 64))).

Definition row_names (st : Signals) (self : Editor) : list string := map (fun row => get_text st (jr_name row)) (ed_nodes self).

(** The effect on a row whose Job changed: an empty name is derived from the Job's. *)
Definition job_chosen (st : Signals) (self : Editor) (row : JobRow) (options : list ResourceOption) : Signals :=
  if (get_text st (jr_name row) =? "")%string then
    match List.find (fun job => bool_decide (Some (ro_id job) = get_reference st (jr_job row))) options with
    | Some job => set_text (jr_name row) (unique_node_name (row_names st self) (ro_label job)) st
    | None => st
    end
  else st.

(** ** The preview (graph.rs) *)

Record GraphNode : Type := mkGraphNode {
  gn_key : string;
  gn_name : string;
  gn_job : string;
  gn_state : option api.WorkflowNodeRunState;
  gn_runs : list Uuid;
}.

Record GraphEdge : Type := mkGraphEdge {
  ge_from : string;
  ge_to : string;
  ge_condition : api.DependencyCondition;
}.

Definition graph_nodes (st : Signals) (self : Editor) (jobs : list ResourceOption) : list GraphNode :=
  map (fun row => mkGraphNode (uuid_to_string (jr_key row)) (trim (get_text st (jr_name row)))
    (match List.find (fun job => bool_decide (Some (ro_id job) = get_reference st (jr_job row))) jobs with
     | Some job => ro_label job
     | None => "Select a Job"%string
     end) None []) (ed_nodes self).

Definition graph_edges (st : Signals) (self : Editor) : list GraphEdge :=
  omap (fun edge =>
    from ← get_reference st (er_from edge);
    to ← get_reference st (er_to edge);
    Some (mkGraphEdge (uuid_to_string from) (uuid_to_string to) (get_condition st (er_condition edge)))) (ed_edges self).

(** The preview of a stored definition, with the progress of its nodes. *)
Definition definition_nodes (workflow : api.WorkflowResource) (jobs : list ResourceOption)
    (states : list api.WorkflowNodeRunResource) : list GraphNode :=
  map (fun node =>
    let progress := List.find (fun state => (api.wnrr_workflow_node_id state =? api.wn_id node)%N) states in
    mkGraphNode (uuid_to_string (api.wn_id node)) (api.wn_name node)
      (match List.find (fun job => (ro_id job =? api.wn_job_id node)%N) jobs with
       | Some job => ro_label job
       | None => ("Job " ++ uuid_to_string (api.wn_job_id node))%string
       end) (api.wnrr_state <$> progress)
      (from_option (fun state => map api.wcrr_run_id (api.wnrr_runs state)) [] progress)) (api.wf_nodes workflow).

Definition definition_edges (workflow : api.WorkflowResource) : list GraphEdge :=
  omap (fun edge =>
    from ← List.find (fun node => (api.wn_name node =? api.we_from edge)%string) (api.wf_nodes workflow);
    to ← List.find (fun node => (api.wn_name node =? api.we_to edge)%string) (api.wf_nodes workflow);
    Some (mkGraphEdge (uuid_to_string (api.wn_id from)) (uuid_to_string (api.wn_id to)) (api.we_condition edge)))
    (api.wf_edges workflow).

(** [Iterator::position] *)
Fixpoint position {A} (p : A -> bool) (l : list A) : option nat :=
  match l with
  | [] => None
  | x :: l => if p x then Some O else S <$> position p l
  end.

Definition links (items : list GraphNode) (edges : list GraphEdge) : list (nat * nat) :=
  omap (fun edge =>
    from ← position (fun node => (gn_key node =? ge_from edge)%string) items;
    to ← position (fun node => (gn_key node =? ge_to edge)%string) items;
    Some (from, to)) edges.

(** The layout of [WorkflowGraph]. *)
Definition preview (items : list GraphNode) (edges : list GraphEdge) : option GraphLayout :=
  layered_layout (length items) (links items edges).

(** ** Saving (form.rs) *)

Definition with_outcome (busy : bool) (error : option string) (attempted : bool) (self : Editor) : Editor :=
  mkEditor (ed_edit_id self) (ed_namespace self) (ed_namespace_label self) (ed_name self) (ed_description self) (ed_nodes self)
    (ed_edges self) (ed_revision self) attempted busy error (ed_feedback self) (ed_saved_id self) (ed_saved self).

(** The call of [save]: an update of the revision that was loaded, or a creation. *)
Definition save_call (self : Editor) (namespace : Uuid) (request : api.CreateWorkflowRequest) : Outgoing :=
  match ed_edit_id self with
  | Some id => client.update_workflow id (api.mkUpdateWorkflowRequest (ed_revision self) (api.cwr_name request)
      (api.cwr_description request) (api.cwr_nodes request) (api.cwr_edges request))
  | None => client.create_workflow namespace request
  end.

(** The submission: what is sent, if anything, and the form while it is. *)
Definition submit (st : Signals) (self : Editor) : Editor * option (api.CreateWorkflowRequest * Outgoing) :=
  if ed_busy self then (self, None)
  else
    let self := with_outcome false None true self in
    match request st self, ed_namespace self with
    | Ok request, Some namespace => (with_outcome true None true self, Some (request, save_call self namespace request))
    | _, _ => (self, None)
    end.

(** The answer to [save]. *)
Definition save_answer (self : Editor) (request : api.CreateWorkflowRequest)
    (answer : result api.WorkflowResource ClientError) (st : Signals) : Editor * Signals :=
  match answer with
  | Ok workflow =>
      let feedback := Some (feedback_saved ("Saved Workflow " ++ api.wf_name workflow ++ ".")%string
        (match ed_edit_id self with Some _ => "Keep editing" | None => "Create another" end)%string) in
      match ed_edit_id self with
      | Some _ =>
          (mkEditor (ed_edit_id self) (ed_namespace self) (ed_namespace_label self) (ed_name self) (ed_description self)
             (ed_nodes self) (ed_edges self) (api.wf_revision workflow) (ed_attempted self) false (ed_error self) feedback
             (Some (api.wf_id workflow)) (Some request), st)
      | None =>
          let '(row, st) := job_row_empty st in
          (mkEditor None (ed_namespace self) (ed_namespace_label self) "" "" [row] [] (api.wf_revision workflow) false false
             (ed_error self) feedback (Some (api.wf_id workflow)) (Some request), st)
      end
  | Err error =>
      let message := match ed_edit_id self with
        | Some _ =>
            if (ce_code error =? "already_exists")%string
            then (ce_message error ++ " The name may be in use or the Workflow may have changed. Choose another name, or use Reload latest to review the current revision.")%string
            else ce_message error
        | None => ce_message error
        end in
      (mkEditor (ed_edit_id self) (ed_namespace self) (ed_namespace_label self) (ed_name self) (ed_description self)
         (ed_nodes self) (ed_edges self) (ed_revision self) (ed_attempted self) false (Some message)
         (Some (feedback_failed message)) (ed_saved_id self) (ed_saved self), st)
  end.

(** [dirty]: an edited definition that differs from what is saved. *)
Definition dirty (st : Signals) (self : Editor) : Prop :=
  is_Some (ed_edit_id self) /\ match request st self with Ok r => Some r | Err _ => None end <> ed_saved self.

End WorkflowEditor.
