(* ===== verification/EditorTheorems.v ===== *)
(** * The workflow editor against the server

    What the editor submits is what the server's validation expects but for
    cycles, and the preview shows exactly those; opening a stored definition
    and submitting it unchanged gives it back; reloading gives the draft a
    fresh editor would have. *)

From S2P Require Import Prelude RustStr Json Inputs Names Text Domain Workflow Db Snapshot Store WorkflowStore Validation ApiTypes Web Resources Layout WebClient WebRoutes Forms WorkflowEditor.
From Stdlib Require Import Ascii String.
From stdpp Require Import base numbers strings gmap list relations sets.

Local Open Scope Z_scope.

(** ** Cycles by name and by index *)

Section Indices.
Context (ns : list string) (es : list (string * string)) (ls : list (nat * nat)).
Hypothesis Hns : NoDup ns.
Hypothesis Hes : Forall2 (fun e l => ns !! l.1 = Some e.1 /\ ns !! l.2 = Some e.2) es ls.

Definition link (i j : nat) : Prop := (i, j) ∈ ls.

Lemma link_named i j : link i j -> exists a b, ns !! i = Some a /\ ns !! j = Some b /\ edge_rel es a b.
Proof.
  intros [k Hk]%list_elem_of_lookup. destruct (Forall2_lookup_r _ _ _ _ _ Hes Hk) as ([a b] & He & H1 & H2). cbn in *.
  exists a, b. split_and!; [done|done|]. by eapply list_elem_of_lookup_2.
Qed.

Lemma named_link a b : edge_rel es a b -> exists i j, ns !! i = Some a /\ ns !! j = Some b /\ link i j.
Proof.
  intros [k Hk]%list_elem_of_lookup. destruct (Forall2_lookup_l _ _ _ _ _ Hes Hk) as ([i j] & He & H1 & H2). cbn in *.
  exists i, j. split_and!; [done|done|]. by eapply list_elem_of_lookup_2.
Qed.

Lemma links_tc i j : tc link i j -> exists a b, ns !! i = Some a /\ ns !! j = Some b /\ tc (edge_rel es) a b.
Proof.
  induction 1 as [i j (a & b & Ha & Hb & H)%link_named|i j k (a & b & Ha & Hb & H)%link_named _ (b' & c & Hb' & Hc & IH)].
  - exists a, b. split_and!; [done|done|by apply tc_once].
  - assert (b' = b) as -> by congruence. exists a, c. split_and!; [done|done|by eapply tc_l].
Qed.

Lemma tc_links a b : tc (edge_rel es) a b -> exists i j, ns !! i = Some a /\ ns !! j = Some b /\ tc link i j.
Proof.
  induction 1 as [a b (i & j & Hi & Hj & H)%named_link|a b c (i & j & Hi & Hj & H)%named_link _ (j' & k & Hj' & Hk & IH)].
  - exists i, j. split_and!; [done|done|by apply tc_once].
  - assert (j' = j) as -> by (eapply NoDup_lookup; done). exists i, k. split_and!; [done|done|by eapply tc_l].
Qed.

Lemma acyclic_links : acyclic es <-> forall i, ~ tc link i i.
Proof.
  split.
  - intros H i (a & b & Ha & Hb & Ht)%links_tc. assert (b = a) as -> by congruence. by apply (H a).
  - intros H a (i & j & Hi & Hj & Ht)%tc_links. assert (j = i) as -> by (eapply NoDup_lookup; done). by apply (H i).
Qed.

Lemma link_inner i j : link i j -> (i < length ns)%nat /\ (j < length ns)%nat.
Proof. intros (a & b & Ha & Hb & _)%link_named. split; by eapply lookup_lt_Some. Qed.

Lemma inner_links : inner_edges (length ns) ls = ls.
Proof.
  assert (H : Forall (inner (length ns)) ls) by (apply Forall_forall; intros [i j] Hin; by apply link_inner).
  clear Hes. unfold inner_edges. induction H as [|l ls' Hl _ IH]; [done|]. by rewrite filter_cons_True, IH.
Qed.

(** The nodes of a walk, from its end back. *)
Inductive trail : list nat -> Prop :=
| TrailOne v : (v < length ns)%nat -> trail [v]
| TrailCons u v l : link u v -> trail (u :: l) -> trail (v :: u :: l).

Lemma walk_trail n v : (v < length ns)%nat -> walk ls n v -> exists l, trail (v :: l) /\ length l = n.
Proof.
  intros Hv Hw. induction Hw as [v|n u v Hw IH Huv]; [exists []; split; [by constructor|done]|].
  destruct (IH (proj1 (link_inner _ _ Huv))) as (l & Hl & Hlen). exists (u :: l). split; [by constructor|cbn; lia].
Qed.

Lemma trail_reaches l x v : trail (v :: l) -> x ∈ l -> tc link x v.
Proof.
  revert v. induction l as [|u l IH]; intros v Ht; [set_solver|]. inversion Ht as [|? ? ? Huv Htl]; subst.
  intros [->|Hx]%elem_of_cons; [by apply tc_once|]. eapply tc_r; [|exact Huv]. by apply IH.
Qed.

Lemma trail_bounded l : (forall i, ~ tc link i i) -> trail l -> (length l <= length ns)%nat.
Proof.
  intros Hacyclic Ht. assert (Hnd : NoDup l).
  { induction Ht as [v Hv|u v l Huv Ht IH]; [apply NoDup_singleton|]. constructor; [|done].
    intros Hin. apply (Hacyclic v). by eapply trail_reaches; [constructor|]. }
  assert (Hsub : l ⊆ seq 0 (length ns)).
  { clear Hnd. induction Ht as [v Hv|u v l Huv Ht IH]; intros x Hx; [apply list_elem_of_singleton in Hx as ->; apply elem_of_seq; lia|].
    apply elem_of_cons in Hx as [->|Hx]; [|by apply IH]. apply link_inner in Huv. apply elem_of_seq. lia. }
  replace (length ns) with (length (seq 0 (length ns))) by apply length_seq. by apply submseteq_length, NoDup_submseteq.
Qed.

(** A node on a cycle ends walks of every length. *)
Lemma cycle_walks i n : tc link i i -> walk ls n i.
Proof.
  intros Hi. cut (forall j, tc link i j -> tc link j i -> walk ls n j); [by intros H; apply H|].
  induction n as [|n IH]; intros j Hij Hji; [constructor|].
  assert (Hlast : link i j \/ exists k, tc link i k /\ link k j).
  { clear -Hij. induction Hij as [i j H|i k j Hik Hkj [H|(m & Hm & Hmj)]]; [by left| |].
    - right. exists k. split; [by apply tc_once|done].
    - right. exists m. split; [by eapply tc_l|done]. }
  destruct Hlast as [H|(k & Hk & H)]; (econstructor; [|exact H]).
  - by apply IH.
  - apply IH; [done|]. by eapply tc_l.
Qed.

(** The server's notion of a cycle is the preview's. *)
Lemma acyclic_resolved :
  acyclic es <-> ~ exists v, (v < length ns)%nat /\ forall n, walk (inner_edges (length ns) ls) n v.
Proof.
  rewrite acyclic_links, inner_links. split.
  - intros Ha (v & Hv & Hw). destruct (walk_trail _ _ Hv (Hw (length ns))) as (l & Hl & Hlen).
    apply trail_bounded in Hl; [|done]. cbn in Hl. lia.
  - intros Hn i Hi. apply Hn. exists i. split; [|intros n; by apply cycle_walks].
    apply links_tc in Hi as (a & _ & Ha & _). by eapply lookup_lt_Some.
Qed.

End Indices.

(** ** What a request holds *)

Section Request.
Context {RF : RustFmt}.

Lemma message_none v : name_validation_message v true = None <-> validate_resource_name (trim v) = Ok ().
Proof.
  unfold name_validation_message. rewrite andb_false_r. destruct (validate_resource_name (trim v)) as [[]|]; by split.
Qed.

Definition node_name (st : Signals) (row : JobRow) : string := trim (get_text st (jr_name row)).

Definition name_rows (st : Signals) (rows : list JobRow) (names : gmap Uuid string) : gmap Uuid string :=
  foldl (fun m row => <[jr_key row := node_name st row]> m) names rows.

Lemma request_nodes_ok st rows : forall names unique nodes names' nodes',
  request_nodes st rows names unique nodes = Ok (names', nodes') <->
  Forall (fun n => validate_resource_name n = Ok ()) (map (node_name st) rows) /\ NoDup (map (node_name st) rows)
  /\ (forall n, n ∈ map (node_name st) rows -> n ∉ unique) /\ names' = name_rows st rows names
  /\ exists jobs, map (fun row => get_reference st (jr_job row)) rows = map Some jobs
       /\ nodes' = (nodes ++ zip_with api.mkWorkflowNodeRequest (map (node_name st) rows) jobs)%list.
Proof.
  induction rows as [|row rows IH]; intros names unique nodes names' nodes'; cbn [request_nodes].
  - split.
    + intros [= <- <-]. split_and!; [constructor|constructor|set_solver|done|]. exists []. by rewrite app_nil_r.
    + intros (_ & _ & _ & -> & jobs & Hj & ->). destruct jobs; [|done]. cbn. by rewrite app_nil_r.
  - fold (node_name st row). cbn [map]. destruct (name_validation_message (node_name st row) true) as [e|] eqn:Hm.
    { split; [done|]. intros ([Hv _]%Forall_cons & _). assert (Hn : name_validation_message (node_name st row) true = None); [|congruence].
      apply message_none. unfold node_name. by rewrite trim_idem. }
    apply message_none in Hm. unfold node_name in Hm. rewrite trim_idem in Hm. fold (node_name st row) in Hm.
    case_bool_decide as Hu.
    { split; [done|]. intros (_ & _ & Hnu & _). destruct (Hnu (node_name st row)); [left|done]. }
    destruct (get_reference st (jr_job row)) as [job|] eqn:Hj; cbn [ok_or result_bind].
    2:{ split; [done|]. intros (_ & _ & _ & _ & jobs & Hjobs & _). destruct jobs; [done|]. cbn in Hjobs. congruence. }
    rewrite IH. split.
    + intros (Hv & Hnd & Hfresh & -> & jobs & Hjobs & ->). split_and!; [by constructor| |set_solver|done|].
      * constructor; [|done]. intros Hin. specialize (Hfresh _ Hin). set_solver.
      * exists (job :: jobs). cbn. split; [by rewrite Hjobs|]. by rewrite <- app_assoc.
    + intros ([_ Hv]%Forall_cons & [Hn Hnd]%NoDup_cons & Hfresh & -> & [|job' jobs] & Hjobs & ->); [done|].
      cbn in Hjobs. assert (job' = job) as -> by congruence. split_and!; [done|done| |done|].
      * intros n Hin. specialize (Hfresh n). set_solver.
      * exists jobs. split; [congruence|]. cbn. by rewrite <- app_assoc.
Qed.

Lemma name_rows_other st rows : forall m k, k ∉ map jr_key rows -> name_rows st rows m !! k = m !! k.
Proof.
  induction rows as [|row rows IH]; intros m k Hk; [done|]. cbn. unfold name_rows in IH. rewrite IH by set_solver.
  apply lookup_insert_ne. set_solver.
Qed.

Lemma name_rows_spec st rows : forall m, NoDup (map jr_key rows) ->
  (forall row, row ∈ rows -> name_rows st rows m !! jr_key row = Some (node_name st row))
  /\ (forall k n, name_rows st rows m !! k = Some n -> (exists row, row ∈ rows /\ jr_key row = k /\ node_name st row = n) \/ m !! k = Some n).
Proof.
  induction rows as [|row rows IH]; intros m Hnd; [split; [set_solver|by right]|]. cbn in Hnd. apply NoDup_cons in Hnd as [Hk Hnd].
  destruct (IH (<[jr_key row := node_name st row]> m) Hnd) as [H1 H2]. split.
  - intros r [->|Hr]%elem_of_cons; [|by apply H1]. change (name_rows st (row :: rows) m) with (name_rows st rows (<[jr_key row := node_name st row]> m)).
    rewrite name_rows_other by done. by rewrite lookup_insert_eq.
  - intros k n Hkn. destruct (H2 k n Hkn) as [(r & Hr & Hk' & Hn)|Hm]; [left; exists r; split_and!; [by right|done|done]|].
    destruct (decide (jr_key row = k)) as [<-|Hne].
    + rewrite lookup_insert_eq in Hm. injection Hm as <-. left. exists row. split_and!; [by left|done|done].
    + rewrite lookup_insert_ne in Hm by done. by right.
Qed.

(** A dependency row and the edge it is submitted as. *)
Definition resolves (st : Signals) (names : gmap Uuid string) (row : EdgeRow) (edge : api.WorkflowEdgeRequest) : Prop :=
  exists from to, get_reference st (er_from row) = Some from /\ names !! from = Some (api.wer_from edge)
    /\ get_reference st (er_to row) = Some to /\ names !! to = Some (api.wer_to edge)
    /\ api.wer_from edge <> api.wer_to edge /\ api.wer_condition edge = get_condition st (er_condition row).

Definition edge_ends (edge : api.WorkflowEdgeRequest) : string * string := (api.wer_from edge, api.wer_to edge).

Lemma resolve_edges_ok st names rows : forall pairs edges,
  resolve_edges st rows names pairs = Ok edges <->
  Forall2 (resolves st names) rows edges /\ NoDup (map edge_ends edges) /\ forall p, p ∈ map edge_ends edges -> p ∉ pairs.
Proof.
  induction rows as [|row rows IH]; intros pairs edges; cbn [resolve_edges].
  - split; [intros [= <-]; split_and!; [constructor|constructor|set_solver]|]. intros (H & _). by inversion H.
  - split.
    + destruct (get_reference st (er_from row)) as [kf|] eqn:Hf; cbn; [|done]. destruct (names !! kf) as [from|] eqn:Hnf; cbn; [|done].
      destruct (get_reference st (er_to row)) as [kt|] eqn:Ht; cbn; [|done]. destruct (names !! kt) as [to|] eqn:Hnt; cbn; [|done].
      destruct (String.eqb_spec from to) as [|Hne]; [done|]. case_bool_decide as Hp; [done|].
      destruct (resolve_edges st rows names _) as [rest|] eqn:E; cbn; [|done]. intros [= <-].
      apply IH in E as (H1 & H2 & H3). split_and!.
      * constructor; [|done]. by exists kf, kt.
      * cbn. constructor; [|done]. intros Hin. specialize (H3 _ Hin). unfold edge_ends in H3. cbn in H3. set_solver.
      * cbn. intros p [->|Hp']%elem_of_cons; [done|]. specialize (H3 _ Hp'). set_solver.
    + intros (H & Hnd & Hfresh). inversion H as [|? edge ? edges' (kf & kt & Hf & Hnf & Ht & Hnt & Hne & Hc) Hrest]; subst.
      rewrite Hf, Ht. cbn. rewrite Hnf, Hnt. cbn. apply String.eqb_neq in Hne. rewrite Hne.
      cbn in Hnd, Hfresh. apply NoDup_cons in Hnd as [Hn Hnd].
      rewrite bool_decide_eq_false_2 by (apply (Hfresh (edge_ends edge)); left).
      rewrite (proj2 (IH _ edges')); [cbn; rewrite <- Hc; by destruct edge|]. split_and!; [done|done|].
      intros p Hp. assert (Hp' : p ∉ pairs) by (apply Hfresh; by right).
      apply not_elem_of_union. split; [|done]. apply not_elem_of_singleton. intros ->. by apply Hn.
Qed.

(** The draft behind a request. *)
Record submits (st : Signals) (self : Editor) (r : api.CreateWorkflowRequest) : Prop := mkSubmits {
  sub_name : validate_resource_name (trim (ed_name self)) = Ok () /\ api.cwr_name r = trim (ed_name self);
  sub_namespace : is_Some (ed_namespace self);
  sub_count : (1 <= length (ed_nodes self) <= 64)%nat /\ (length (ed_edges self) <= 256)%nat;
  sub_valid : Forall (fun n => validate_resource_name n = Ok ()) (map (node_name st) (ed_nodes self));
  sub_unique : NoDup (map (node_name st) (ed_nodes self));
  sub_nodes : exists jobs, map (fun row => get_reference st (jr_job row)) (ed_nodes self) = map Some jobs
    /\ api.cwr_nodes r = zip_with api.mkWorkflowNodeRequest (map (node_name st) (ed_nodes self)) jobs;
  sub_edges : Forall2 (resolves st (name_rows st (ed_nodes self) ∅)) (ed_edges self) (api.cwr_edges r);
  sub_pairs : NoDup (map edge_ends (api.cwr_edges r));
  sub_description : chars_count (ed_description self) <= 500
    /\ api.cwr_description r = if (ed_description self =? "")%string then None else Some (ed_description self);
}.

Lemma request_ok st self r : request st self = Ok r <-> submits st self r.
Proof.
  unfold request. destruct (name_validation_message (trim (ed_name self)) true) as [e|] eqn:Hm.
  { split; [done|]. intros [[Hn _] _ _ _ _ _ _ _ _]. assert (H : name_validation_message (trim (ed_name self)) true = None); [|congruence].
    apply message_none. by rewrite trim_idem. }
  apply message_none in Hm. rewrite trim_idem in Hm.
  destruct (ed_namespace self) as [ns|] eqn:Hns; [|split; [done|]; intros []; rewrite Hns in *; by destruct sub_namespace0].
  destruct (_ || _) eqn:Hc.
  { split; [done|]. intros []. apply orb_true_iff in Hc as [Hc%Nat.eqb_eq|Hc%Nat.ltb_lt]; lia. }
  apply orb_false_iff in Hc as [Hc1%Nat.eqb_neq Hc2%Nat.ltb_ge].
  destruct (request_nodes st (ed_nodes self) ∅ ∅ []) as [[names nodes]|e] eqn:Hr; cbn [result_bind].
  2:{ split; [done|]. intros [? ? ? Hv Hu (jobs & Hj & _) _ _ _].
      assert (request_nodes st (ed_nodes self) ∅ ∅ [] = Ok (name_rows st (ed_nodes self) ∅, zip_with api.mkWorkflowNodeRequest (map (node_name st) (ed_nodes self)) jobs))
        as Hok; [|congruence]. apply request_nodes_ok. split_and!; [done|done|set_solver|done|by exists jobs]. }
  apply request_nodes_ok in Hr as (Hv & Hu & _ & -> & jobs & Hj & Hnodes). rewrite app_nil_l in Hnodes. subst nodes.
  unfold request_edges. destruct (Nat.ltb_spec 256 (length (ed_edges self))) as [He|He]; cbn [result_bind].
  { split; [done|]. intros []. lia. }
  destruct (resolve_edges st (ed_edges self) _ ∅) as [edges|e] eqn:Hre; cbn [result_bind].
  2:{ split; [done|]. intros [? ? ? ? ? ? H1 H2 _]. assert (resolve_edges st (ed_edges self) (name_rows st (ed_nodes self) ∅) ∅ = Ok (api.cwr_edges r)) as Hok; [|congruence].
      apply resolve_edges_ok. split_and!; [done|done|set_solver]. }
  pose proof Hre as (He1 & He2 & _)%resolve_edges_ok. destruct (Z.ltb_spec 500 (chars_count (ed_description self))) as [Hd|Hd].
  { split; [done|]. intros []. lia. }
  split.
  - intros [= <-]. constructor; cbn; try done; try lia. by exists jobs.
  - intros [[_ H1] _ _ _ _ (jobs' & Hj' & H2) H3 H3' [_ H4]]. destruct r as [n d nodes' edges']. cbn in *. subst. f_equal. f_equal.
    + f_equal. rewrite Hj in Hj'. by apply (inj (map Some)) in Hj'.
    + assert (resolve_edges st (ed_edges self) (name_rows st (ed_nodes self) ∅) ∅ = Ok edges') as Hok; [|congruence].
      apply resolve_edges_ok. split_and!; [done|done|set_solver].
Qed.

(** What the server makes of the request. *)
Definition definition_of (r : api.CreateWorkflowRequest) : WorkflowDefinition :=
  mkWorkflowDefinition (MkResourceName (api.cwr_name r)) (api.cwr_description r)
    (map (fun node => mkWorkflowNode (MkResourceName (api.wnr_name node)) (api.wnr_job_id node)) (api.cwr_nodes r))
    (map (fun edge => mkWorkflowEdge (MkResourceName (api.wer_from edge)) (MkResourceName (api.wer_to edge)) (domain_condition (api.wer_condition edge)))
      (api.cwr_edges r)).

Lemma parse_trimmed n : validate_resource_name n = Ok () -> trim n = n -> parse_resource_name n = Ok (MkResourceName n).
Proof. intros H Ht. unfold parse_resource_name, ResourceNameM.parse. by rewrite Ht, H. Qed.

Lemma collect_all_ok {A B E} (f : A -> result B E) (g : A -> B) l : (forall x, x ∈ l -> f x = Ok (g x)) -> collect f l = Ok (map g l).
Proof.
  intros H. apply collect_ok. induction l as [|x l IH]; constructor; [apply H; left|]. apply IH. intros y Hy. apply H. by right.
Qed.

Section Server.
Context (st : Signals) (self : Editor) (r : api.CreateWorkflowRequest).
Hypothesis Hsub : submits st self r.
Hypothesis Hkeys : NoDup (map jr_key (ed_nodes self)).

Lemma requested_names : map api.wnr_name (api.cwr_nodes r) = map (node_name st) (ed_nodes self).
Proof.
  destruct (sub_nodes _ _ _ Hsub) as (jobs & Hj & ->). assert (Hl : length (map (node_name st) (ed_nodes self)) = length jobs).
  { apply (f_equal length) in Hj. by rewrite !length_map in *. }
  revert Hl. generalize (map (node_name st) (ed_nodes self)). intros l. revert jobs Hj. clear.
  intros jobs _. revert jobs. induction l as [|n l IH]; intros [|j jobs] Hl; try done. cbn. f_equal. apply IH. by injection Hl.
Qed.

Lemma row_name_ok row : row ∈ ed_nodes self -> validate_resource_name (node_name st row) = Ok () /\ trim (node_name st row) = node_name st row.
Proof.
  intros Hr. split; [|unfold node_name; by rewrite trim_idem].
  apply (proj1 (Forall_forall _ _) (sub_valid _ _ _ Hsub)). apply list_elem_of_fmap. by exists row.
Qed.

Lemma edge_named edge : edge ∈ api.cwr_edges r -> exists a b, a ∈ ed_nodes self /\ b ∈ ed_nodes self
  /\ api.wer_from edge = node_name st a /\ api.wer_to edge = node_name st b /\ api.wer_from edge <> api.wer_to edge.
Proof.
  intros [k Hk]%list_elem_of_lookup. destruct (Forall2_lookup_r _ _ _ _ _ (sub_edges _ _ _ Hsub) Hk) as (row & _ & kf & kt & _ & Hf & _ & Ht & Hne & _).
  apply (name_rows_spec st _ ∅ Hkeys) in Hf as [(a & Ha & _ & Hfa)|Hx]; [|by rewrite lookup_empty in Hx].
  apply (name_rows_spec st _ ∅ Hkeys) in Ht as [(b & Hb & _ & Htb)|Hx]; [|by rewrite lookup_empty in Hx].
  by exists a, b.
Qed.

Lemma definition_requested :
  workflow_definition (definition_input r)
  = let? _ := map_err invalid_request (validate (definition_of r)) in Ok (definition_of r).
Proof.
  destruct (sub_name _ _ _ Hsub) as [Hn Hr]. unfold workflow_definition, definition_input. cbn [wi_name wi_nodes wi_edges wi_description].
  rewrite parse_trimmed by (rewrite Hr; first [done | apply trim_idem]). cbn [result_bind].
  rewrite (collect_all_ok _ (fun node => mkWorkflowNode (MkResourceName node.1) node.2)).
  2:{ intros [n j] (node & [= -> ->] & Hin)%list_elem_of_fmap.
      assert (Hx : api.wnr_name node ∈ map api.wnr_name (api.cwr_nodes r)) by (apply list_elem_of_fmap; eauto).
      rewrite requested_names in Hx. apply list_elem_of_fmap in Hx as (row & -> & Hrow). destruct (row_name_ok row Hrow) as [H1 H2].
      by rewrite parse_trimmed. }
  cbn [result_bind].
  rewrite (collect_all_ok _ (fun edge => mkWorkflowEdge (MkResourceName edge.1.1) (MkResourceName edge.1.2) edge.2)).
  2:{ intros [[f t] c] (edge & [= -> -> ->] & Hin)%list_elem_of_fmap. destruct (edge_named edge Hin) as (a & b & Ha & Hb & -> & -> & _).
      destruct (row_name_ok a Ha), (row_name_ok b Hb). by rewrite !parse_trimmed. }
  cbn [result_bind]. unfold definition_of. rewrite !map_map. done.
Qed.

Lemma definition_names : node_names (definition_of r) = map (node_name st) (ed_nodes self).
Proof. unfold node_names, definition_of. cbn. rewrite map_map. apply requested_names. Qed.

Lemma definition_pairs : edge_pairs (definition_of r) = map edge_ends (api.cwr_edges r).
Proof. unfold edge_pairs, definition_of. cbn. by rewrite map_map. Qed.

(** Only the description's bytes and the cycles are left for the server to refuse. *)
Lemma definition_admissible :
  description_ok (api.cwr_description r) = true -> admissible (definition_of r) <-> acyclic (map edge_ends (api.cwr_edges r)).
Proof.
  intros Hd. unfold admissible. rewrite definition_names, definition_pairs. destruct (sub_count _ _ _ Hsub) as [Hc1 Hc2].
  split; [by intros (_ & _ & _ & _ & ?)|]. intros Ha.
  assert (Hl : length (wd_nodes (definition_of r)) = length (ed_nodes self)).
  { pose proof (f_equal length definition_names) as H. unfold node_names in H. by rewrite !length_map in H. }
  unfold well_formed. split_and!; [lia|lia| |done|apply Hsub|apply Hsub| |done].
  - unfold definition_of. cbn. rewrite length_map. rewrite <- (Forall2_length _ _ _ (sub_edges _ _ _ Hsub)). lia.
  - apply Forall_forall. intros e (edge & -> & Hin)%list_elem_of_fmap. destruct (edge_named edge Hin) as (a & b & Hina & Hinb & Hfa & Htb & Hne).
    split_and!; [cbn; rewrite Hfa|cbn; rewrite Htb|done]; apply list_elem_of_fmap; eauto.
Qed.

(** *** The preview of the same draft *)

Hypothesis Huuids : Forall is_uuid (map jr_key (ed_nodes self)).

Lemma key_uuid row : row ∈ ed_nodes self -> is_uuid (jr_key row).
Proof. intros H. apply (proj1 (Forall_forall _ _) Huuids). apply list_elem_of_fmap. eauto. Qed.

Lemma position_key (rows : list JobRow) i row (show : JobRow -> GraphNode) :
  (forall row, gn_key (show row) = uuid_to_string (jr_key row)) ->
  NoDup (map jr_key rows) -> Forall is_uuid (map jr_key rows) -> rows !! i = Some row ->
  position (fun node => (gn_key node =? uuid_to_string (jr_key row))%string) (map show rows) = Some i.
Proof.
  intros Hshow. revert i. induction rows as [|x rows IH]; intros i; [done|]. cbn [map]. intros [Hx Hnd]%NoDup_cons [Hux Hu]%Forall_cons.
  cbn [position]. rewrite Hshow. destruct i as [|i]; cbn.
  - intros [= ->]. by rewrite String.eqb_refl.
  - intros Hi. assert (Hin : jr_key row ∈ map jr_key rows) by (apply list_elem_of_fmap; exists row; split; [done|by eapply list_elem_of_lookup_2]).
    destruct (String.eqb_spec (uuid_to_string (jr_key x)) (uuid_to_string (jr_key row))) as [E|_].
    + apply uuid_to_string_inj in E; [by rewrite E in Hx|done|]. by apply (proj1 (Forall_forall _ _) Hu).
    + by rewrite (IH i Hnd Hu Hi).
Qed.

Lemma links_named jobs : Forall2 (fun e l => map (node_name st) (ed_nodes self) !! l.1 = Some e.1 /\ map (node_name st) (ed_nodes self) !! l.2 = Some e.2)
  (map edge_ends (api.cwr_edges r)) (links (graph_nodes st self jobs) (graph_edges st self)).
Proof.
  unfold graph_edges, links. induction (sub_edges _ _ _ Hsub) as [|row edge rows edges (kf & kt & Hf & Hnf & Ht & Hnt & _) _ IH]; [constructor|].
  apply (name_rows_spec st _ ∅ Hkeys) in Hnf as [(a & Ha & <- & Hfa)|Hx]; [|by rewrite lookup_empty in Hx].
  apply (name_rows_spec st _ ∅ Hkeys) in Hnt as [(b & Hb & <- & Htb)|Hx]; [|by rewrite lookup_empty in Hx].
  apply list_elem_of_lookup in Ha as [i Hi]. apply list_elem_of_lookup in Hb as [j Hj].
  cbn [map omap list_omap]. rewrite Hf, Ht. cbn [mbind option_bind omap list_omap ge_from ge_to].
  unfold graph_nodes at 1 2. rewrite (position_key _ i a), (position_key _ j b) by done. cbn [mbind option_bind].
  constructor; [|exact IH]. cbn [fst snd edge_ends]. rewrite !list_lookup_fmap, Hi, Hj. cbn. by rewrite Hfa, Htb.
Qed.

End Server.

(** C33: The preview of a Workflow draft tells what the server will say of
    it.  Once the editor's own checks pass and the description holds no NUL,
    the preview is drawn, and it is marked unresolved exactly when the server
    refuses the submitted definition: names, references, counts and
    duplicates cannot be at fault any more, only a cycle can. *)
Theorem preview_verdict st self r jobs :
  request st self = Ok r -> NoDup (map jr_key (ed_nodes self)) -> Forall is_uuid (map jr_key (ed_nodes self)) ->
  contains_byte nul (ed_description self) = false ->
  exists layout, preview (graph_nodes st self jobs) (graph_edges st self) = Some layout
    /\ (gl_unresolved layout = false <-> workflow_definition (definition_input r) = Ok (definition_of r)).
Proof.
  intros Hsub%request_ok Hkeys Huuids Hnul. unfold preview.
  assert (Hlen : length (graph_nodes st self jobs) = length (map (node_name st) (ed_nodes self))) by (unfold graph_nodes; by rewrite !length_map).
  destruct (layout_computed (length (graph_nodes st self jobs)) (links (graph_nodes st self jobs) (graph_edges st self)))
    as (depths & visited & dep & vis & Hl & Hs).
  exists (draw depths visited). split; [exact Hl|]. pose proof (unresolved_spec _ _ _ _ _ _ Hs) as Hu. rewrite Hlen in Hu.
  pose proof (acyclic_resolved _ _ _ (sub_unique _ _ _ Hsub) (links_named st self r Hsub Hkeys Huuids jobs)) as Ha.
  assert (Hd : description_ok (api.cwr_description r) = true).
  { destruct (sub_description _ _ _ Hsub) as [Hc ->]. destruct (_ =? _)%string; [done|]. unfold description_ok. rewrite Hnul.
    destruct (Z.ltb_spec 500 (chars_count (ed_description self))); [lia|done]. }
  rewrite (definition_requested st self r Hsub Hkeys).
  destruct (try_validate_spec (definition_of r)) as (v & Hv & Hiff). unfold validate. rewrite Hv. cbn [default].
  rewrite (definition_admissible st self r Hsub Hkeys Hd), Ha, <- Hu in Hiff. clear -Hiff.
  destruct (gl_unresolved (draw depths visited)), v as [[]|]; cbn; split; intros H; try done; by destruct Hiff as [H1 H2]; first [specialize (H1 eq_refl) | specialize (H2 ltac:(done))].
Qed.

End Request.
