(* ===== verification/EditorDrafts.v ===== *)
(** * The workflow editor's drafts

    A draft as its signals show it; what opening and reloading a stored
    definition leave in it, for every arrangement of shared signals; and the
    names it derives: a node added for a Job takes the Job's name, with a
    number when the name is taken ([unique_node_name] of
    pages/workflows/form.rs). *)

From S2P Require Import Prelude RustStr Json Inputs Names Text Domain Workflow Db Snapshot Store WorkflowStore Validation ExecutionOutput WorkerStart ApiTypes Web Resources Layout WebClient WebRoutes Forms WorkflowEditor EditorTheorems.
From Stdlib Require Import Ascii String.
From stdpp Require Import base numbers strings gmap list sets pretty.

Local Open Scope Z_scope.

(** ** Views *)

Definition node_view (st : Signals) (row : JobRow) : Uuid * string * option Uuid :=
  (jr_key row, get_text st (jr_name row), get_reference st (jr_job row)).
Definition edge_view (st : Signals) (row : EdgeRow) : option Uuid * option Uuid * api.DependencyCondition :=
  (get_reference st (er_from row), get_reference st (er_to row), get_condition st (er_condition row)).

Section Drafts.
Context {RF : RustFmt} (now_v7 : nat -> Uuid).

Lemma request_nodes_view st st' rows : forall rows' names unique nodes,
  map (node_view st) rows = map (node_view st') rows' ->
  request_nodes st rows names unique nodes = request_nodes st' rows' names unique nodes.
Proof.
  induction rows as [|row rows IH]; intros [|row' rows'] names unique nodes; try done. cbn [map]. intros [= Hk Hn Hj Hr].
  cbn [request_nodes]. rewrite Hn, Hj, Hk. destruct (name_validation_message _ _); [done|]. case_bool_decide; [done|].
  destruct (get_reference st' (jr_job row')); cbn; [|done]. by apply IH.
Qed.

Lemma resolve_edges_view st st' names rows : forall rows' pairs,
  map (edge_view st) rows = map (edge_view st') rows' -> resolve_edges st rows names pairs = resolve_edges st' rows' names pairs.
Proof.
  induction rows as [|row rows IH]; intros [|row' rows'] pairs; try done. cbn [map]. intros [= Hf Ht Hc Hr]. cbn [resolve_edges].
  rewrite Hf, Ht, Hc. destruct (ok_or _ _) as [from|]; [|done]. cbn. destruct (ok_or _ _) as [to|]; [|done]. cbn.
  destruct (_ =? _)%string; [done|]. case_bool_decide; [done|]. by rewrite (IH _ _ Hr).
Qed.

(** What is submitted depends on the draft as it is shown. *)
Lemma request_view st st' self self' :
  ed_name self = ed_name self' -> ed_description self = ed_description self' ->
  ed_namespace self = ed_namespace self' ->
  map (node_view st) (ed_nodes self) = map (node_view st') (ed_nodes self') ->
  map (edge_view st) (ed_edges self) = map (edge_view st') (ed_edges self') -> request st self = request st' self'.
Proof.
  intros Hn Hd Hns Hnodes Hedges. unfold request. rewrite Hn, Hd, Hns.
  assert (Hl : length (ed_nodes self) = length (ed_nodes self')) by (apply (f_equal length) in Hnodes; by rewrite !length_map in Hnodes).
  assert (Hle : length (ed_edges self) = length (ed_edges self')) by (apply (f_equal length) in Hedges; by rewrite !length_map in Hedges).
  rewrite Hl, (request_nodes_view st st' _ _ _ _ _ Hnodes). destruct (name_validation_message _ _); [done|].
  destruct (ed_namespace self'); [|done]. destruct (_ || _); [done|]. destruct (request_nodes _ _ _ _ _) as [[names nodes]|]; [|done]. cbn.
  unfold request_edges. by rewrite Hle, (resolve_edges_view st st' names _ _ _ Hedges).
Qed.

(** ** Allocation *)

(** The signals below a reference are as they were. *)
Definition agree (n : nat) (st st' : Signals) : Prop :=
  (sg_next st <= sg_next st')%nat /\ forall i, (i < n)%nat ->
    sg_text st' !! i = sg_text st !! i /\ sg_reference st' !! i = sg_reference st !! i /\ sg_condition st' !! i = sg_condition st !! i.

Lemma agree_refl n st : agree n st st.
Proof. by split. Qed.

Lemma agree_trans n m st st' st'' : (n <= m)%nat -> agree n st st' -> agree m st' st'' -> agree n st st''.
Proof.
  intros Hnm [H1 H2] [H3 H4]. split; [lia|]. intros i Hi. destruct (H2 i Hi) as (E1 & E2 & E3), (H4 i ltac:(lia)) as (E4 & E5 & E6).
  split_and!; congruence.
Qed.

Lemma agree_text n st st' i : agree n st st' -> (i < n)%nat -> get_text st' i = get_text st i.
Proof. intros [_ H] Hi. unfold get_text. by destruct (H i Hi) as (-> & _). Qed.
Lemma agree_reference n st st' i : agree n st st' -> (i < n)%nat -> get_reference st' i = get_reference st i.
Proof. intros [_ H] Hi. unfold get_reference. by destruct (H i Hi) as (_ & -> & _). Qed.
Lemma agree_condition n st st' i : agree n st st' -> (i < n)%nat -> get_condition st' i = get_condition st i.
Proof. intros [_ H] Hi. unfold get_condition. by destruct (H i Hi) as (_ & _ & ->). Qed.

(** A row's signals lie between two references. *)
Definition row_within (lo hi : nat) (row : JobRow) : Prop := (lo <= jr_name row < hi)%nat /\ (lo <= jr_job row < hi)%nat.
Definition edge_within (lo hi : nat) (row : EdgeRow) : Prop :=
  (lo <= er_from row < hi)%nat /\ (lo <= er_to row < hi)%nat /\ (lo <= er_condition row < hi)%nat.

Lemma node_view_agree n st st' rows lo : agree n st st' -> Forall (row_within lo n) rows -> map (node_view st') rows = map (node_view st) rows.
Proof.
  intros Ha. induction 1 as [|row rows [H1 H2] _ IH]; [done|]. cbn [map]. rewrite IH. f_equal. unfold node_view.
  by rewrite (agree_text n st st'), (agree_reference n st st') by (done || lia).
Qed.

Lemma edge_view_agree n st st' rows lo : agree n st st' -> Forall (edge_within lo n) rows -> map (edge_view st') rows = map (edge_view st) rows.
Proof.
  intros Ha. induction 1 as [|row rows (H1 & H2 & H3) _ IH]; [done|]. cbn [map]. rewrite IH. f_equal. unfold edge_view.
  by rewrite !(agree_reference n st st'), (agree_condition n st st') by (done || lia).
Qed.

Lemma node_row_spec node st :
  let '(row, st') := node_row node st in
  node_view st' row = (api.wn_id node, api.wn_name node, Some (api.wn_job_id node)) /\ agree (sg_next st) st st'
  /\ row_within (sg_next st) (sg_next st') row /\ jr_name row <> jr_job row.
Proof.
  cbn. unfold node_view, get_text, get_reference, agree, row_within. cbn. rewrite !lookup_insert_eq. split_and!; try done; try lia.
  intros i Hi. by rewrite !lookup_insert_ne by lia.
Qed.

Lemma node_rows_spec nodes : forall st,
  let '(rows, st') := map_signals node_row nodes st in
  map (node_view st') rows = map (fun node => (api.wn_id node, api.wn_name node, Some (api.wn_job_id node))) nodes
  /\ agree (sg_next st) st st' /\ Forall (row_within (sg_next st) (sg_next st')) rows
  /\ NoDup (map jr_name rows) /\ NoDup (map jr_job rows).
Proof.
  induction nodes as [|node nodes IH]; intros st; cbn [map_signals].
  { split_and!; [done|apply agree_refl|constructor|constructor|constructor]. }
  pose proof (node_row_spec node st) as H1. destruct (node_row node st) as [row st1]. destruct H1 as (Hv & Ha & [Hw1 Hw2] & _).
  pose proof (IH st1) as H2. destruct (map_signals node_row nodes st1) as [rows st2]. destruct H2 as (Hv2 & Ha2 & Hw & Hn & Hj).
  pose proof (proj1 Ha) as L1. pose proof (proj1 Ha2) as L2. cbn [map]. split_and!.
  - rewrite Hv2. f_equal. rewrite <- Hv. unfold node_view. by rewrite (agree_text _ _ _ _ Ha2), (agree_reference _ _ _ _ Ha2) by lia.
  - by eapply agree_trans; [|exact Ha|exact Ha2].
  - constructor; [split; lia|]. eapply Forall_impl; [exact Hw|]. intros r [? ?]. split; lia.
  - constructor; [|done]. intros (r & E & Hin)%list_elem_of_fmap. apply (proj1 (Forall_forall _ _) Hw) in Hin as [? ?]. lia.
  - constructor; [|done]. intros (r & E & Hin)%list_elem_of_fmap. apply (proj1 (Forall_forall _ _) Hw) in Hin as [? ?]. lia.
Qed.
(** The rows by the name an edge gives. *)
Definition key_named (nodes : list api.WorkflowNodeResource) (name : string) : option Uuid :=
  api.wn_id <$> List.find (fun node => (api.wn_name node =? name)%string) nodes.

Lemma row_named_view st nodes rows name :
  map (node_view st) rows = map (fun node => (api.wn_id node, api.wn_name node, Some (api.wn_job_id node))) nodes ->
  row_named st rows name = key_named nodes name.
Proof.
  unfold row_named, key_named. revert rows. induction nodes as [|node nodes IH]; intros [|row rows]; try done. cbn [map List.find].
  intros [= Hk Hn _ Hr]. rewrite Hn. destruct (_ =? _)%string; [cbn; by rewrite Hk|by apply IH].
Qed.

Lemma edge_rows_spec nodes rows edges : forall st,
  Forall (row_within 0 (sg_next st)) rows ->
  map (node_view st) rows = map (fun node => (api.wn_id node, api.wn_name node, Some (api.wn_job_id node))) nodes ->
  let '(erows, st') := map_signals (edge_row now_v7 rows) edges st in
  map (edge_view st') erows
    = map (fun edge => (key_named nodes (api.we_from edge), key_named nodes (api.we_to edge), api.we_condition edge)) edges
  /\ agree (sg_next st) st st' /\ Forall (edge_within (sg_next st) (sg_next st')) erows.
Proof.
  induction edges as [|edge edges IH]; intros st Hr Hv; cbn [map_signals]; [split_and!; [done|apply agree_refl|constructor]|].
  destruct (edge_row now_v7 rows edge st) as [erow st1] eqn:E. unfold edge_row, draw_uuid, new_reference, new_condition in E.
  injection E as <- Est1.
  assert (Ha : agree (sg_next st) st st1).
  { subst st1. split; [cbn; lia|]. intros i Hi. cbn. by rewrite !lookup_insert_ne by lia. }
  assert (Hnext : sg_next st1 = S (S (S (sg_next st)))) by (by subst st1).
  assert (Hr1 : Forall (row_within 0 (sg_next st1)) rows).
  { eapply Forall_impl; [exact Hr|]. intros r [? ?]. split; lia. }
  assert (Hv1 : map (node_view st1) rows = map (fun node => (api.wn_id node, api.wn_name node, Some (api.wn_job_id node))) nodes).
  { rewrite <- Hv. by eapply node_view_agree. }
  pose proof (IH st1 Hr1 Hv1) as H2. destruct (map_signals (edge_row now_v7 rows) edges st1) as [erows st2].
  destruct H2 as (Hev & Ha2 & Hw). pose proof (proj1 Ha2) as L2. cbn [map]. split_and!.
  - rewrite Hev. f_equal. unfold edge_view. cbn [er_from er_to er_condition].
    rewrite !(agree_reference _ _ _ _ Ha2), (agree_condition _ _ _ _ Ha2) by lia.
    rewrite <- !(row_named_view st nodes rows) by done. subst st1. unfold get_reference, get_condition. cbn.
    rewrite !lookup_insert_eq, lookup_insert_ne, lookup_insert_eq by lia. cbn. done.
  - by eapply agree_trans; [|exact Ha|exact Ha2]; lia.
  - constructor; [unfold edge_within; cbn; lia|]. eapply Forall_impl; [exact Hw|]. intros r (? & ? & ?). unfold edge_within. lia.
Qed.

(** ** Opening a definition *)

(** The draft of a stored definition. *)
Record opens (n : nat) (w : api.WorkflowResource) (self : Editor) (st : Signals) : Prop := mkOpens {
  o_name : ed_name self = api.wf_name w /\ ed_description self = default ""%string (api.wf_description w);
  o_namespace : ed_namespace self = Some (api.wf_namespace_id w);
  o_revision : ed_revision self = api.wf_revision w /\ ed_saved self = Some (saved_request w) /\ ed_saved_id self = Some (api.wf_id w);
  o_nodes : map (node_view st) (ed_nodes self)
    = map (fun node => (api.wn_id node, api.wn_name node, Some (api.wn_job_id node))) (api.wf_nodes w);
  o_edges : map (edge_view st) (ed_edges self)
    = map (fun edge => (key_named (api.wf_nodes w) (api.we_from edge), key_named (api.wf_nodes w) (api.we_to edge), api.we_condition edge))
        (api.wf_edges w);
  o_edge_signals : Forall (edge_within n (sg_next st)) (ed_edges self);
}.

Lemma editor_new_opens w st :
  let '(self, st') := editor_new now_v7 (Some w) st in
  opens (sg_next st) w self st' /\ ed_edit_id self = Some (api.wf_id w) /\ agree (sg_next st) st st'
  /\ Forall (row_within (sg_next st) (sg_next st')) (ed_nodes self)
  /\ NoDup (map jr_name (ed_nodes self)) /\ NoDup (map jr_job (ed_nodes self)).
Proof.
  unfold editor_new. pose proof (node_rows_spec (api.wf_nodes w) st) as H1.
  destruct (map_signals node_row (api.wf_nodes w) st) as [rows st1]. destruct H1 as (Hv & Ha & Hw & Hn & Hj).
  assert (Hr : Forall (row_within 0 (sg_next st1)) rows) by (eapply Forall_impl; [exact Hw|]; intros r [? ?]; split; lia).
  pose proof (edge_rows_spec (api.wf_nodes w) rows (api.wf_edges w) st1 Hr Hv) as H2.
  destruct (map_signals (edge_row now_v7 rows) (api.wf_edges w) st1) as [erows st2]. destruct H2 as (Hev & Ha2 & Hew).
  pose proof (proj1 Ha) as L1. pose proof (proj1 Ha2) as L2. split_and!.
  - constructor; cbn; try done.
    + rewrite <- Hv. by eapply node_view_agree.
    + eapply Forall_impl; [exact Hew|]. intros r (? & ? & ?). unfold edge_within. lia.
  - done.
  - by eapply agree_trans; [|exact Ha|exact Ha2].
  - cbn. eapply Forall_impl; [exact Hw|]. intros r [? ?]. split; lia.
  - done.
  - done.
Qed.

(** ** Reloading a definition *)

(** Rows that share no signal and no key. *)
Record separate (st : Signals) (rows : list JobRow) : Prop := mkSeparate {
  sep_keys : NoDup (map jr_key rows);
  sep_names : NoDup (map jr_name rows);
  sep_jobs : NoDup (map jr_job rows);
  sep_bound : Forall (row_within 0 (sg_next st)) rows;
}.

Lemma row_unique {A} `{EqDecision A} (f : JobRow -> A) rows a b : NoDup (map f rows) -> a ∈ rows -> b ∈ rows -> f a = f b -> a = b.
Proof.
  intros Hnd [i Hi]%list_elem_of_lookup [j Hj]%list_elem_of_lookup Hab.
  assert (i = j) as ->; [|congruence]. eapply NoDup_lookup; [exact Hnd| |]; rewrite list_lookup_fmap; [by rewrite Hi|by rewrite Hj, Hab].
Qed.

Lemma find_key rows key row :
  List.find (fun r => (jr_key r =? key)%N) rows = Some row -> row ∈ rows /\ jr_key row = key.
Proof. intros [Hin Hk]%find_some. split; [by apply list_elem_of_In|by apply N.eqb_eq]. Qed.

(** Putting loaded rows into a draft: kept rows take the loaded contents, and
    only their signals change. *)
Lemma replace_rows_spec existing loaded : forall st,
  separate st existing -> NoDup (map jr_key loaded) ->
  Forall (fun l => forall e, e ∈ existing -> jr_name l <> jr_name e /\ jr_job l <> jr_job e) loaded ->
  let '(rows, st') := map_signals (replace_row existing) loaded st in
  map (node_view st') rows = map (node_view st) loaded
  /\ sg_next st' = sg_next st /\ sg_condition st' = sg_condition st
  /\ (forall i, (forall e, e ∈ existing -> jr_key e ∈ map jr_key loaded -> i <> jr_name e) -> sg_text st' !! i = sg_text st !! i)
  /\ (forall i, (forall e, e ∈ existing -> jr_key e ∈ map jr_key loaded -> i <> jr_job e) -> sg_reference st' !! i = sg_reference st !! i)
  /\ Forall2 (fun l row => row = l /\ (forall e, e ∈ existing -> jr_key e <> jr_key l)
                           \/ row ∈ existing /\ jr_key row = jr_key l) loaded rows.
Proof.
  induction loaded as [|l loaded IH]; intros st Hsep Hnd Hfree; cbn [map_signals]; [by split_and!|].
  cbn [map] in Hnd. apply NoDup_cons in Hnd as [Hl Hnd]. apply Forall_cons in Hfree as [Hfl Hfree].
  unfold replace_row at 1. destruct (List.find _ existing) as [e|] eqn:Hfind.
  - apply find_key in Hfind as [He Hk]. set (st1 := set_reference _ _ _).
    assert (Hsep1 : separate st1 existing) by (by destruct Hsep).
    pose proof (IH st1 Hsep1 Hnd Hfree) as H. destruct (map_signals (replace_row existing) loaded st1) as [rows st2].
    destruct H as (Hv & Hnext & Hcond & Ht & Hr & Hk2).
    assert (Hother : forall f, f ∈ existing -> jr_key f ∈ map jr_key loaded -> f <> e) by (intros f _ Hf ->; by rewrite Hk in Hf).
    split_and!; try done.
    + cbn [map]. f_equal.
      * unfold node_view. rewrite Hk. unfold get_text, get_reference. rewrite Ht, Hr.
        -- unfold st1. cbn. rewrite !lookup_insert_eq. cbn. done.
        -- intros f Hf Hfk E. apply (Hother f Hf Hfk). symmetry. by apply (row_unique jr_job existing); [apply Hsep|..].
        -- intros f Hf Hfk E. apply (Hother f Hf Hfk). symmetry. by apply (row_unique jr_name existing); [apply Hsep|..].
      * rewrite Hv. apply map_ext_in. intros x Hx%list_elem_of_In.
        destruct (proj1 (Forall_forall _ _) Hfree x Hx e He) as [Hx1 Hx2]. unfold node_view, get_text, get_reference, st1. cbn. by rewrite !lookup_insert_ne.
    + intros i Hi. rewrite Ht; [|intros f Hf Hfk; apply (Hi f Hf); by right]. unfold st1. cbn.
      apply lookup_insert_ne. intros E. apply (Hi e He); [rewrite Hk; by left|done].
    + intros i Hi. rewrite Hr; [|intros f Hf Hfk; apply (Hi f Hf); by right]. unfold st1. cbn.
      apply lookup_insert_ne. intros E. apply (Hi e He); [rewrite Hk; by left|done].
    + constructor; [by right|done].
  - pose proof (IH st Hsep Hnd Hfree) as H. destruct (map_signals (replace_row existing) loaded st) as [rows st2].
    destruct H as (Hv & Hnext & Hcond & Ht & Hr & Hk2). split_and!; try done.
    + cbn [map]. rewrite Hv. f_equal. unfold node_view, get_text, get_reference.
      rewrite Ht, Hr; [done|intros e He _; by apply Hfl|intros e He _; by apply Hfl].
    + intros i Hi. apply Ht. intros e He Hek. apply (Hi e He). by right.
    + intros i Hi. apply Hr. intros e He Hek. apply (Hi e He). by right.
    + constructor; [|done]. left. split; [done|]. intros e He E.
      pose proof (find_none _ _ Hfind e (proj1 (list_elem_of_In _ _) He)) as Hne. by apply N.eqb_neq in Hne.
Qed.

(** The rows of a reloaded draft share no signal. *)
Lemma replaced_separate existing loaded rows st st' :
  separate st existing -> NoDup (map jr_key rows) -> NoDup (map jr_name loaded) -> NoDup (map jr_job loaded) ->
  Forall (fun l => forall e, e ∈ existing -> jr_name l <> jr_name e /\ jr_job l <> jr_job e) loaded ->
  Forall (row_within 0 (sg_next st)) loaded -> sg_next st' = sg_next st ->
  Forall2 (fun l row => row = l /\ (forall e, e ∈ existing -> jr_key e <> jr_key l) \/ row ∈ existing /\ jr_key row = jr_key l) loaded rows ->
  separate st' rows.
Proof.
  intros Hsep Hk Hn Hj Hfree Hb Hnext H2.
  assert (Hcase : forall i row, rows !! i = Some row -> row ∈ existing \/ loaded !! i = Some row).
  { intros i row Hi. destruct (Forall2_lookup_r _ _ _ _ _ H2 Hi) as (l & Hl & [[-> _]|[Hin _]]); auto. }
  assert (Hdistinct : forall (f : JobRow -> nat),
    NoDup (map f existing) -> NoDup (map f loaded) -> (forall l e, l ∈ loaded -> e ∈ existing -> f l <> f e) -> NoDup (map f rows)).
  { intros f Hfe Hfl Hfree'. apply NoDup_alt. intros i j x Hi Hj'. rewrite list_lookup_fmap in Hi, Hj'.
    destruct (rows !! i) as [a|] eqn:Ea; [|done]. destruct (rows !! j) as [b|] eqn:Eb; [|done]. cbn in Hi, Hj'. injection Hi as <-. injection Hj' as Hab.
    destruct (Hcase i a Ea) as [Ha|Ha], (Hcase j b Eb) as [Hb'|Hb'].
    - assert (a = b) as <- by (by apply (row_unique f existing)). eapply NoDup_lookup; [exact Hk| |]; rewrite list_lookup_fmap; [by rewrite Ea|by rewrite Eb].
    - destruct (Hfree' b a); [by eapply list_elem_of_lookup_2|done|done].
    - destruct (Hfree' a b); [by eapply list_elem_of_lookup_2|done|done].
    - eapply NoDup_lookup; [exact Hfl| |]; rewrite list_lookup_fmap; [by rewrite Ha|by rewrite Hb', <- Hab]. }
  constructor; [done| | |].
  - apply Hdistinct; [apply Hsep|done|]. intros l e Hl He. by apply (proj1 (Forall_forall _ _) Hfree l Hl e He).
  - apply Hdistinct; [apply Hsep|done|]. intros l e Hl He. by apply (proj1 (Forall_forall _ _) Hfree l Hl e He).
  - apply Forall_forall. intros row [i Hi]%list_elem_of_lookup. rewrite Hnext. destruct (Hcase i row Hi) as [He|Hl].
    + by apply (proj1 (Forall_forall _ _) (sep_bound _ _ Hsep)).
    + apply (proj1 (Forall_forall _ _) Hb). by eapply list_elem_of_lookup_2.
Qed.

(** The whole effect of a reload. *)
Lemma reload_spec self w st :
  separate st (ed_nodes self) -> NoDup (map api.wn_id (api.wf_nodes w)) ->
  let '(fresh, st_fresh) := editor_new now_v7 (Some w) st in
  let '(self', st') := editor_replace now_v7 self w st in
  request st' self' = request st_fresh fresh
  /\ ed_revision self' = api.wf_revision w /\ ed_saved self' = ed_saved fresh /\ ed_edit_id self' = ed_edit_id self
  /\ separate st' (ed_nodes self')
  /\ (forall row, row ∈ ed_nodes self -> jr_key row ∈ map api.wn_id (api.wf_nodes w) -> row ∈ ed_nodes self').
Proof.
  intros Hsep Hids. unfold editor_replace. pose proof (editor_new_opens w st) as Hnew.
  destruct (editor_new now_v7 (Some w) st) as [fresh st1]. destruct Hnew as (Ho & _ & Ha & Hw & Hn & Hj). pose proof (proj1 Ha) as L1.
  assert (Hkeys : map jr_key (ed_nodes fresh) = map api.wn_id (api.wf_nodes w)).
  { pose proof (f_equal (map (fun v : Uuid * string * option Uuid => v.1.1)) (o_nodes _ _ _ _ Ho)) as H. by rewrite !map_map in H. }
  assert (Hsep1 : separate st1 (ed_nodes self)).
  { destruct Hsep as [S1 S2 S3 S4]. constructor; try done. eapply Forall_impl; [exact S4|]. intros r [? ?]. split; lia. }
  assert (Hfree : Forall (fun l => forall e, e ∈ ed_nodes self -> jr_name l <> jr_name e /\ jr_job l <> jr_job e) (ed_nodes fresh)).
  { eapply Forall_impl; [exact Hw|]. intros l [? ?] e He. destruct (proj1 (Forall_forall _ _) (sep_bound _ _ Hsep) e He). lia. }
  pose proof (replace_rows_spec (ed_nodes self) (ed_nodes fresh) st1 Hsep1 ltac:(by rewrite Hkeys) Hfree) as Hrep.
  destruct (map_signals (replace_row (ed_nodes self)) (ed_nodes fresh) st1) as [rows st2].
  destruct Hrep as (Hv & Hnext & Hcond & Ht & Hr & Hk). 
  assert (Hkeys2 : map jr_key rows = map api.wn_id (api.wf_nodes w)).
  { rewrite <- Hkeys. pose proof (f_equal (map (fun v : Uuid * string * option Uuid => v.1.1)) Hv) as H. by rewrite !map_map in H. }
  split_and!; cbn [ed_revision ed_saved ed_edit_id ed_nodes]; try done.
  - apply request_view; cbn [ed_name ed_description ed_namespace ed_nodes ed_edges]; try done.
    apply map_ext_in. intros e He%list_elem_of_In. destruct (proj1 (Forall_forall _ _) (o_edge_signals _ _ _ _ Ho) e He) as (E1 & E2 & E3).
    unfold edge_view, get_reference, get_condition. rewrite Hcond, !Hr; [done|..];
      intros x Hx _; destruct (proj1 (Forall_forall _ _) (sep_bound _ _ Hsep) x Hx); lia.
  - eapply (replaced_separate (ed_nodes self) (ed_nodes fresh) rows st1); try done; [by rewrite Hkeys2|].
    eapply Forall_impl; [exact Hw|]. intros r [? ?]. split; lia.
  - intros row Hrow Hin. rewrite <- Hkeys in Hin. apply list_elem_of_fmap in Hin as (l & Hkl & Hl). apply list_elem_of_lookup in Hl as [i Hi].
    destruct (Forall2_lookup_l _ _ _ _ _ Hk Hi) as (row' & Hi' & [[_ Hne]|[Hin Hk']]); [by destruct (Hne row Hrow)|].
    assert (row = row') as -> by (apply (row_unique jr_key (ed_nodes self)); [apply Hsep|done|done|congruence]). by eapply list_elem_of_lookup_2.
Qed.

(** Reloading a Workflow in the editor replaces the whole draft by the
    stored definition, whatever was typed, added or removed before: what would
    be submitted then is what an editor freshly opened on the definition would
    submit, at the stored revision, even though the rows of the nodes that
    stay keep their signals (and so their controls); no row shares a signal
    with another afterwards. *)
Theorem reload_restores_definition self w st :
  separate st (ed_nodes self) -> NoDup (map api.wn_id (api.wf_nodes w)) ->
  let '(fresh, st_fresh) := editor_new now_v7 (Some w) st in
  let '(self', st') := editor_replace now_v7 self w st in
  request st' self' = request st_fresh fresh
  /\ ed_revision self' = api.wf_revision w /\ ed_saved self' = ed_saved fresh /\ ed_edit_id self' = ed_edit_id self
  /\ separate st' (ed_nodes self')
  /\ (forall row, row ∈ ed_nodes self -> jr_key row ∈ map api.wn_id (api.wf_nodes w) -> row ∈ ed_nodes self').
Proof. apply reload_spec. Qed.

(** ** Submitting a definition unchanged *)

(** An empty description is submitted as none. *)
Definition described (d : option string) : option string :=
  match d with Some text => if (text =? "")%string then None else Some text | None => None end.

Definition resubmitted (d : WorkflowDefinition) : WorkflowDefinition :=
  mkWorkflowDefinition (wd_name d) (described (wd_description d)) (wd_nodes d) (wd_edges d).

(** The request an editor opened on a resource stands for. *)
Definition unchanged (w : api.WorkflowResource) : api.CreateWorkflowRequest :=
  api.mkCreateWorkflowRequest (api.wf_name w) (described (api.wf_description w))
    (api.cwr_nodes (saved_request w)) (api.cwr_edges (saved_request w)).

(** A resource whose names, references and counts the editor accepts. *)
Record editable (w : api.WorkflowResource) : Prop := mkEditable {
  e_name : canonical_label (api.wf_name w) = true;
  e_description : match api.wf_description w with Some text => chars_count text <= 500 | None => True end;
  e_count : (1 <= length (api.wf_nodes w) <= 64)%nat /\ (length (api.wf_edges w) <= 256)%nat;
  e_labels : Forall (fun node => canonical_label (api.wn_name node) = true) (api.wf_nodes w);
  e_names : NoDup (map api.wn_name (api.wf_nodes w));
  e_ids : NoDup (map api.wn_id (api.wf_nodes w));
  e_pairs : NoDup (map (fun edge => (api.we_from edge, api.we_to edge)) (api.wf_edges w));
  e_ends : Forall (fun edge => api.we_from edge ∈ map api.wn_name (api.wf_nodes w) /\ api.we_to edge ∈ map api.wn_name (api.wf_nodes w)
    /\ api.we_from edge <> api.we_to edge) (api.wf_edges w);
}.

Section Unchanged.
Context (n : nat) (w : api.WorkflowResource) (self : Editor) (st : Signals).
Hypothesis Ho : opens n w self st.
Hypothesis He : editable w.

Lemma opened_names : map (node_name st) (ed_nodes self) = map api.wn_name (api.wf_nodes w).
Proof.
  pose proof (f_equal (map (fun v : Uuid * string * option Uuid => v.1.2)) (o_nodes _ _ _ _ Ho)) as H. rewrite !map_map in H. cbn in H.
  replace (map (node_name st) (ed_nodes self)) with (map trim (map (fun row => get_text st (jr_name row)) (ed_nodes self))) by (by rewrite map_map).
  rewrite H, map_map. apply map_ext_in. intros node Hin%list_elem_of_In. by apply trim_canonical, (proj1 (Forall_forall _ _) (e_labels _ He)).
Qed.

Lemma opened_keys : map jr_key (ed_nodes self) = map api.wn_id (api.wf_nodes w).
Proof. pose proof (f_equal (map (fun v : Uuid * string * option Uuid => v.1.1)) (o_nodes _ _ _ _ Ho)) as H. by rewrite !map_map in H. Qed.

Lemma opened_lookup node : node ∈ api.wf_nodes w -> name_rows st (ed_nodes self) ∅ !! api.wn_id node = Some (api.wn_name node).
Proof.
  intros [i Hi]%list_elem_of_lookup. pose proof (f_equal (fun l => l !! i) opened_names) as H1. pose proof (f_equal (fun l => l !! i) opened_keys) as H2.
  cbn beta in H1, H2. rewrite !list_lookup_fmap, Hi in H1. rewrite !list_lookup_fmap, Hi in H2.
  destruct (ed_nodes self !! i) as [row|] eqn:Hr; [|done]. cbn in H1, H2.
  injection H1 as <-. injection H2 as <-. apply name_rows_spec; [|by eapply list_elem_of_lookup_2]. rewrite opened_keys. apply He.
Qed.

Lemma key_named_found name : name ∈ map api.wn_name (api.wf_nodes w) ->
  exists key, key_named (api.wf_nodes w) name = Some key /\ name_rows st (ed_nodes self) ∅ !! key = Some name.
Proof.
  intros (node & -> & Hin)%list_elem_of_fmap. unfold key_named.
  destruct (List.find (fun x => (api.wn_name x =? api.wn_name node)%string) (api.wf_nodes w)) as [found|] eqn:E.
  - apply find_some in E as [Hf <-%String.eqb_eq]. exists (api.wn_id found). split; [done|]. apply opened_lookup. by apply list_elem_of_In.
  - pose proof (find_none _ _ E node (proj1 (list_elem_of_In _ _) Hin)) as Hne. cbn in Hne. by rewrite String.eqb_refl in Hne.
Qed.

Lemma unchanged_submits : submits st self (unchanged w).
Proof.
  destruct (o_name _ _ _ _ Ho) as [Hname Hdesc]. constructor; cbn [unchanged api.cwr_name api.cwr_description api.cwr_nodes api.cwr_edges].
  - rewrite Hname, trim_canonical by apply He. split; [by apply canonical_label_valid, He|done].
  - rewrite (o_namespace _ _ _ _ Ho). done.
  - pose proof (f_equal length (o_nodes _ _ _ _ Ho)) as H1. pose proof (f_equal length (o_edges _ _ _ _ Ho)) as H2. rewrite !length_map in H1, H2.
    destruct (e_count _ He). lia.
  - rewrite opened_names. apply Forall_forall. intros x (node & -> & Hin)%list_elem_of_fmap.
    by apply canonical_label_valid, (proj1 (Forall_forall _ _) (e_labels _ He)).
  - rewrite opened_names. apply He.
  - exists (map api.wn_job_id (api.wf_nodes w)). split.
    + pose proof (f_equal (map (fun v : Uuid * string * option Uuid => v.2)) (o_nodes _ _ _ _ Ho)) as H. rewrite !map_map in H. by rewrite map_map.
    + rewrite opened_names. unfold saved_request. cbn. clear. induction (api.wf_nodes w) as [|x l IH]; [done|]. cbn. by rewrite IH.
  - unfold saved_request. cbn. pose proof (o_edges _ _ _ _ Ho) as Hv. pose proof (e_ends _ He) as Hends. revert Hv Hends.
    generalize (api.wf_edges w). generalize (ed_edges self). intros rows. induction rows as [|row rows IH]; intros [|edge edges]; try done.
    cbn [map]. intros [= Hf Ht Hc Hv] [(H1 & H2 & H3) Hends]%Forall_cons. constructor; [|by apply IH].
    destruct (key_named_found _ H1) as (kf & Kf & Nf), (key_named_found _ H2) as (kt & Kt & Nt). exists kf, kt. cbn. rewrite Hf, Ht, Hc. done.
  - unfold saved_request. cbn. rewrite map_map. apply He.
  - rewrite Hdesc. pose proof (e_description _ He) as Hd. destruct (api.wf_description w) as [text|]; cbn; [done|]. done.
Qed.

End Unchanged.

Context {RC : Rfc3339}.

Lemma resource_parts record w :
  workflow_resource record = Ok w ->
  let d := wrec_definition record in
  map api.wn_name (api.wf_nodes w) = node_names d /\ map api.wn_job_id (api.wf_nodes w) = map wn_job_id (wd_nodes d)
  /\ api.wf_edges w = map (fun edge => api.mkWorkflowEdgeResource (ResourceNameM.as_str (we_from edge)) (ResourceNameM.as_str (we_to edge))
       (api_condition (we_condition edge))) (wd_edges d)
  /\ api.wf_name w = ResourceNameM.as_str (wd_name d) /\ api.wf_description w = wd_description d
  /\ api.wf_id w = wrec_id record /\ api.wf_revision w = wrec_revision record.
Proof.
  unfold workflow_resource. intros (nodes & Hn & H)%result_bind_ok. apply result_bind_ok in H as (created & _ & H).
  apply result_bind_ok in H as (updated & _ & [= <-]). cbn. apply collect_ok in Hn.
  assert (Hmap : map api.wn_name nodes = node_names (wrec_definition record) /\ map api.wn_job_id nodes = map wn_job_id (wd_nodes (wrec_definition record))).
  { unfold node_names. induction Hn as [|node res ns rs Hnode _ [IH1 IH2]]; [done|]. cbn [map].
    apply result_bind_ok in Hnode as (id & _ & [= <-]). cbn. by rewrite IH1, IH2. }
  destruct Hmap. by split_and!.
Qed.

Lemma resource_editable record w :
  workflow_resource record = Ok w -> admissible (wrec_definition record) ->
  canonical_label (ResourceNameM.as_str (wd_name (wrec_definition record))) = true ->
  Forall (fun name => canonical_label name = true) (node_names (wrec_definition record)) ->
  NoDup (map api.wn_id (api.wf_nodes w)) -> editable w.
Proof.
  intros Hw (Hc1 & Hc2 & Hd & (Hnd & Hne & Hends) & _) Hname Hlabels Hids. destruct (resource_parts record w Hw) as (N & J & E & Nm & D & _ & _).
  assert (Hl : length (api.wf_nodes w) = length (wd_nodes (wrec_definition record))).
  { apply (f_equal length) in N. unfold node_names in N. by rewrite !length_map in N. }
  constructor.
  - by rewrite Nm.
  - rewrite D. destruct (wd_description (wrec_definition record)) as [text|]; [|done]. unfold description_ok in Hd.
    apply negb_true_iff, orb_false_iff in Hd as [_ Hd]. by apply Z.ltb_ge in Hd.
  - rewrite E, length_map. lia.
  - apply Forall_forall. intros node Hin. apply (proj1 (Forall_forall _ _) Hlabels). rewrite <- N. apply list_elem_of_fmap. eauto.
  - by rewrite N.
  - done.
  - rewrite E, map_map. exact Hne.
  - rewrite E, N. apply Forall_forall. intros e (edge & -> & Hin)%list_elem_of_fmap. cbn.
    apply (proj1 (Forall_forall _ _) Hends (ResourceNameM.as_str (we_from edge), ResourceNameM.as_str (we_to edge))).
    apply list_elem_of_fmap. by exists edge.
Qed.

Lemma resubmitted_definition record w :
  workflow_resource record = Ok w -> definition_of (unchanged w) = resubmitted (wrec_definition record).
Proof.
  intros Hw. destruct (resource_parts record w Hw) as (N & J & E & Nm & D & _ & _). unfold definition_of, resubmitted, unchanged, saved_request. cbn.
  rewrite Nm, D, E, !map_map. f_equal.
  - by destruct (wd_name (wrec_definition record)).
  - revert N J. unfold node_names. generalize (wd_nodes (wrec_definition record)). generalize (api.wf_nodes w).
    induction l as [|x l IH]; intros [|y l']; try done. cbn [map]. intros [= Hn N] [= Hj J]. f_equal; [|by apply IH].
    cbn. rewrite Hn, Hj. by destruct y as [[name] job].
  - rewrite <- (map_id (wd_edges (wrec_definition record))) at 2. apply map_ext. intros [[f] [t] c]. cbn. by destruct c.
Qed.

(** C34: Opening a stored Workflow in the editor and submitting it unchanged
    stores the same definition again.  The draft of any stored definition
    passes the editor's checks; what it submits is an update of that Workflow
    at the revision that was opened; and the server builds from it the very
    definition that was stored, name, nodes, Jobs, dependencies and conditions
    in their order, an empty description excepted, which becomes none. *)
Theorem editor_roundtrip record w st namespace :
  workflow_resource record = Ok w -> validate (wrec_definition record) = Ok () ->
  canonical_label (ResourceNameM.as_str (wd_name (wrec_definition record))) = true ->
  Forall (fun name => canonical_label name = true) (node_names (wrec_definition record)) ->
  NoDup (map api.wn_id (api.wf_nodes w)) ->
  let '(self, st') := editor_new now_v7 (Some w) st in
  exists r, request st' self = Ok r
    /\ save_call self namespace r = client.update_workflow (wrec_id record)
         (api.mkUpdateWorkflowRequest (wrec_revision record) (api.cwr_name r) (api.cwr_description r) (api.cwr_nodes r) (api.cwr_edges r))
    /\ workflow_definition (definition_input r) = Ok (resubmitted (wrec_definition record))
    /\ (dirty st' self <-> wd_description (wrec_definition record) = Some ""%string).
Proof.
  intros Hw Hval Hname Hlabels Hids. destruct (try_validate_spec (wrec_definition record)) as (v & Hv & Hiff).
  unfold validate in Hval. rewrite Hv in Hval. cbn in Hval. apply Hiff in Hval as Hadm.
  pose proof (resource_editable record w Hw Hadm Hname Hlabels Hids) as He.
  pose proof (editor_new_opens w st) as Hnew. destruct (editor_new now_v7 (Some w) st) as [self st']. destruct Hnew as (Ho & Hid & _).
  pose proof (unchanged_submits _ w self st' Ho He) as Hsub. destruct (resource_parts record w Hw) as (_ & _ & _ & _ & D & Hi & Hr).
  exists (unchanged w). split_and!.
  - by apply request_ok.
  - unfold save_call. destruct (o_revision _ _ _ _ Ho) as [-> _]. by rewrite Hid, Hi, Hr.
  - rewrite (definition_requested st' self (unchanged w) Hsub), (resubmitted_definition record w Hw).
    + destruct (try_validate_spec (resubmitted (wrec_definition record))) as (v' & Hv' & Hiff'). unfold validate. rewrite Hv'. cbn.
      destruct v' as [[]|e]; [done|]. assert (Hx : Err e = Ok ()); [|done]. apply Hiff'. destruct Hadm as (A1 & A2 & A3 & A4 & A5).
      assert (A3' : description_ok (described (wd_description (wrec_definition record))) = true).
      { destruct (wd_description (wrec_definition record)) as [text|]; [|done]. cbn [described]. destruct (text =? "")%string; [done|exact A3]. }
      exact (conj A1 (conj A2 (conj A3' (conj A4 A5)))).
    + rewrite (opened_keys _ w self st' Ho). apply He.
  - unfold dirty. rewrite (proj2 (request_ok _ _ _) Hsub), Hid. destruct (o_revision _ _ _ _ Ho) as (_ & -> & _).
    rewrite <- D. unfold unchanged, saved_request. cbn. destruct (api.wf_description w) as [text|]; cbn.
    + destruct (String.eqb_spec text "") as [->|Hne]; [split; [done|intros _; split; [eauto|congruence]]|].
      split; [intros [_ H]; by destruct H|congruence].
    + split; [intros [_ H]; by destruct H|done].
Qed.

(** ** Every reachable draft *)

(** What the form does to a draft: fields are typed, Jobs chosen, rows added
    and removed, the definition reloaded, the answer to a save shown. *)
Inductive edited : Editor * Signals -> Editor * Signals -> Prop :=
| EditText self st row v : row ∈ ed_nodes self -> edited (self, st) (self, set_text (jr_name row) v st)
| EditJob self st row v : row ∈ ed_nodes self -> edited (self, st) (self, set_reference (jr_job row) v st)
| EditChosen self st row options : row ∈ ed_nodes self -> edited (self, st) (self, job_chosen st self row options)
| EditEnd self st row r v : row ∈ ed_edges self -> r = er_from row \/ r = er_to row -> edited (self, st) (self, set_reference r v st)
| EditCondition self st row v : row ∈ ed_edges self -> edited (self, st) (self, set_condition (er_condition row) v st)
| EditClear self st : edited (self, st) (self, clear_jobs self st)
| EditAddJob self st : now_v7 (sg_uuids st) ∉ map jr_key (ed_nodes self) -> edited (self, st) (add_job now_v7 self st)
| EditAddDependency self st : edited (self, st) (add_dependency now_v7 self st)
| EditRemoveNode self st key : edited (self, st) (remove_node st self key, st)
| EditRemoveDependency self st key : edited (self, st) (remove_dependency self key, st)
| EditReload self st w : NoDup (map api.wn_id (api.wf_nodes w)) -> edited (self, st) (editor_replace now_v7 self w st)
| EditSubmit self st : edited (self, st) ((submit st self).1, st)
| EditSaved self st r answer : edited (self, st) (save_answer now_v7 self r answer st).

Lemma separate_next st st' rows : (sg_next st <= sg_next st')%nat -> separate st rows -> separate st' rows.
Proof.
  intros Hn [S1 S2 S3 S4]. constructor; try done. eapply Forall_impl; [exact S4|]. intros r [? ?]. split; lia.
Qed.

Lemma separate_empty_row st : separate (job_row_empty now_v7 st).2 [(job_row_empty now_v7 st).1].
Proof. constructor; cbn; try apply NoDup_singleton. repeat constructor; cbn; lia. Qed.

Lemma clear_jobs_next self st : sg_next (clear_jobs self st) = sg_next st.
Proof. unfold clear_jobs. revert st. induction (ed_nodes self) as [|row rows IH]; intros st; [done|]. cbn. by rewrite IH. Qed.

Lemma separate_filter st rows (p : JobRow -> bool) : separate st rows -> separate st (List.filter p rows).
Proof.
  assert (Hsub : List.filter p rows `sublist_of` rows).
  { induction rows as [|row rows IH]; [constructor|]. cbn. destruct (p row); by constructor. }
  intros [S1 S2 S3 S4]. assert (Hmap : forall {A} (f : JobRow -> A), NoDup (map f rows) -> NoDup (map f (List.filter p rows))).
  { intros A f Hf. eapply sublist_NoDup; [exact Hf|]. by apply (fmap_sublist f). }
  constructor; [by apply Hmap..|].
  apply Forall_forall. intros row [Hin _]%list_elem_of_In%filter_In. apply (proj1 (Forall_forall _ _) S4). by apply list_elem_of_In.
Qed.

(** Rows never come to share a key or a signal. *)
Theorem edited_separate before after : edited before after -> separate before.2 (ed_nodes before.1) -> separate after.2 (ed_nodes after.1).
Proof.
  intros Hstep Hsep. destruct Hstep as [| |self st row options| | | |self st Hfresh| | | |self st w Hids|self st|self st r answer]; cbn [fst snd] in *;
    try done; try (by apply separate_filter); try (by (eapply separate_next; [|exact Hsep]; cbn; lia)).
  - unfold job_chosen. destruct (get_text _ _ =? _)%string; [|done]. destruct (List.find _ _); [|done]. by (eapply separate_next; [|exact Hsep]; cbn; lia).
  - eapply separate_next; [|exact Hsep]. rewrite clear_jobs_next. lia.
  - destruct Hsep as [S1 S2 S3 S4]. cbn. constructor; rewrite ?fmap_app, ?map_app; cbn.
    + apply NoDup_app. split_and!; [done| |apply NoDup_singleton]. intros k Hk ->%list_elem_of_singleton. done.
    + apply NoDup_app. split_and!; [done| |apply NoDup_singleton]. intros k (row & -> & Hin)%list_elem_of_fmap E%list_elem_of_singleton.
      destruct (proj1 (Forall_forall _ _) S4 row Hin). lia.
    + apply NoDup_app. split_and!; [done| |apply NoDup_singleton]. intros k (row & -> & Hin)%list_elem_of_fmap E%list_elem_of_singleton.
      destruct (proj1 (Forall_forall _ _) S4 row Hin). lia.
    + apply Forall_app. split; [eapply Forall_impl; [exact S4|]; intros r [? ?]; split; lia|]. repeat constructor; cbn; lia.
  - pose proof (reload_spec self w st Hsep Hids) as H. destruct (editor_new now_v7 (Some w) st), (editor_replace now_v7 self w st). apply H.
  - unfold submit. destruct (ed_busy self); [done|]. destruct (request _ _); [|done]. cbn. by destruct (ed_namespace self).
  - unfold save_answer. destruct answer; [|done]. destruct (ed_edit_id self); [done|]. apply separate_empty_row.
Qed.

End Drafts.

Local Open Scope string_scope.
Local Open Scope Z_scope.

Lemma hyphen_dash : hyphen = "-"%char.
Proof. reflexivity. Qed.

(** The numbers as they are shown: one or two digits. *)
Definition number_ok (i : Z) : bool :=
  forallb is_ascii_digit (bytes (pretty i)) && negb (pretty i =? "")%string && (String.length (pretty i) <=? 2)%nat.

Lemma numbers_ok i : i ∈ seqZ 2 64 -> number_ok i = true.
Proof.
  intros Hi. assert (H : forallb number_ok (seqZ 2 64) = true) by (vm_compute; reflexivity).
  apply (proj1 (forallb_forall _ _) H). by apply list_elem_of_In.
Qed.

Lemma digits_boundary l : forallb is_ascii_digit l = true -> forallb is_name_boundary l = true.
Proof.
  intros H. apply forallb_forall. intros b Hb. eapply forallb_forall in H; [|exact Hb]. unfold is_name_boundary. rewrite H. apply orb_true_r.
Qed.

Lemma digits_free s : forallb is_ascii_digit (bytes s) = true -> contains_byte "-" s = false.
Proof.
  induction s as [|a s IH]; [done|]. unfold bytes. cbn [list_ascii_of_string map forallb]. intros [Ha Hs]%andb_true_iff.
  cbn [contains_byte]. fold (bytes s) in Hs. rewrite (IH Hs), orb_false_r. destruct (Ascii.eqb_spec a "-") as [->|]; [done|done].
Qed.

(** What comes after the last hyphen. *)
Lemma last_part p q d e : contains_byte "-" d = false -> contains_byte "-" e = false -> p ++ "-" ++ d = q ++ "-" ++ e -> d = e.
Proof.
  intros Hd He. revert q. induction p as [|a p IH]; intros q H.
  - destruct q as [|b q]; [by injection H|]. change (String "-" d = String b (q ++ "-" ++ e)) in H. injection H as _ Hde.
    rewrite Hde, contains_byte_app in Hd. apply orb_false_iff in Hd as [_ Hd]. discriminate Hd.
  - destruct q as [|b q].
    + change (String a (p ++ "-" ++ d) = String "-" e) in H. injection H as _ Hde.
      rewrite <- Hde, contains_byte_app in He. apply orb_false_iff in He as [_ He]. discriminate He.
    + change (String a (p ++ "-" ++ d) = String b (q ++ "-" ++ e)) in H. injection H as _ H. by apply (IH q).
Qed.

Lemma numbered_inj base i j : i ∈ seqZ 2 64 -> j ∈ seqZ 2 64 -> numbered_name base i = numbered_name base j -> i = j.
Proof.
  intros Hi%numbers_ok Hj%numbers_ok H. unfold number_ok in Hi, Hj. rewrite !andb_true_iff in Hi, Hj.
  destruct Hi as [[Hi _] _], Hj as [[Hj _] _]. unfold numbered_name in H.
  apply last_part in H; [by apply (inj pretty) in H|by apply digits_free|by apply digits_free].
Qed.

Lemma ascii_not_continuation a : byte_of a < 128 -> is_continuation a = false.
Proof. destruct a as [[] [] [] [] [] [] [] []]; intros H; first [reflexivity | exfalso; vm_compute in H; discriminate]. Qed.

Lemma get_byte (p : Z -> bool) s : forall n a, forallb p (bytes s) = true -> String.get n s = Some a -> p (byte_of a) = true.
Proof.
  induction s as [|c s IH]; intros n a; [done|]. unfold bytes. cbn [list_ascii_of_string map forallb]. fold (bytes s).
  intros [Hc Hs]%andb_true_iff. destruct n as [|n]; cbn; [by intros [= <-]|]. by apply IH.
Qed.

Lemma numbered_canonical base i : canonical_label base = true -> i ∈ seqZ 2 64 -> canonical_label (numbered_name base i) = true.
Proof.
  intros Hb Hi%numbers_ok. unfold number_ok in Hi. rewrite !andb_true_iff, negb_true_iff, Nat.leb_le in Hi. destruct Hi as [[Hd Hne] Hlen].
  apply canonical_label_spec in Hb as [_ Hb]. change (label_list (bytes base)) in Hb. pose proof (label_list_characters _ Hb) as Hall.
  unfold numbered_name. set (suffix := "-" ++ pretty i). assert (Hsl : String.length suffix = S (String.length (pretty i))) by done.
  set (cut := default base (get_prefix (63 - String.length suffix) base)).
  assert (Hcut : exists a rest, cut = String a rest /\ is_name_boundary (byte_of a) = true /\ forallb is_name_character (bytes rest) = true
    /\ (String.length cut <= 63 - String.length suffix)%nat).
  { destruct base as [|a base]; [done|]. destruct Hb as (Ha & Hrest & _). unfold cut, get_prefix.
    destruct (Nat.leb_spec (63 - String.length suffix) (String.length (String a base))) as [Hle|Hgt]; cbn [andb].
    - destruct (match _ with Some _ => _ | None => true end) eqn:Hbd.
      + cbn [default id]. destruct (63 - String.length suffix)%nat as [|k] eqn:Ek; [lia|]. cbn [substring]. exists a, (substring 0 k base).
        destruct (substring_bytes is_name_character k base Hrest) as [H1 H2]. split_and!; [done|done|done|cbn; lia].
      + exfalso. destruct (String.get _ _) as [c|] eqn:Hget; [|done]. apply negb_false_iff in Hbd.
        apply (get_byte is_name_character) in Hget; [|exact Hall].
        apply name_character_ascii, ascii_not_continuation in Hget. congruence.
    - cbn [default]. exists a, base. split_and!; [done|done|done|lia]. }
  destruct Hcut as (a & rest & -> & Ha & Hrest & Hcl).
  assert (Htrim : trim_end_matches "-" (String a rest) = String a (trim_end_matches "-" rest)).
  { cbn [trim_end_matches]. destruct (Ascii.eqb_spec a "-") as [->|_]; [done|]. by rewrite andb_false_r. }
  destruct (trim_end_last rest (byte_of a) Hrest Ha) as [H1 H2]. rewrite hyphen_dash in H1, H2.
  apply canonical_label_spec. rewrite Htrim. change (slen (String a (trim_end_matches "-" rest) ++ suffix) <= 63
    /\ label_list (bytes (String a (trim_end_matches "-" rest) ++ suffix))). split.
  - rewrite slen_app. unfold slen. pose proof (trim_end_length "-" rest). cbn [String.length] in *. lia.
  - unfold suffix. rewrite !bytes_app. apply hyphenated_label; [by split_and!|]. apply boundary_label; [|by apply digits_boundary].
    destruct (pretty i); done.
Qed.

(** The name a node is given when a Job is chosen for it is always one
    the Workflow can be saved with: a label of at most 63 characters that no
    other node of the draft has, in every draft within the limit of 64 nodes,
    even when the Job's own name and its numbered forms are taken. *)
Theorem derived_name_unique existing base :
  canonical_label base = true -> "" ∈ existing -> (length existing <= 64)%nat ->
  canonical_label (unique_node_name existing base) = true /\ unique_node_name existing base ∉ existing.
Proof.
  intros Hb Hempty Hlen. unfold unique_node_name. destruct (existsb _ existing) eqn:Hx; cbn [negb].
  2:{ split; [done|]. intros Hin. assert (Ht : existsb (fun name => (name =? base)%string) existing = true); [|congruence].
      apply existsb_exists. exists base. split; [by apply list_elem_of_In|apply String.eqb_refl]. }
  destruct (List.find _ _) as [candidate|] eqn:Hf; cbn [default id].
  - apply find_some in Hf as [Hin Hfree]. apply negb_true_iff, bool_decide_eq_false in Hfree. split; [|done].
    apply in_map_iff in Hin as (i & <- & Hi). apply numbered_canonical; [done|by apply list_elem_of_In].
  - exfalso. set (candidates := map (numbered_name base) (seqZ 2 64)) in *.
    assert (Hall : "" :: candidates ⊆ existing).
    { intros c [->|Hc]%elem_of_cons; [done|]. pose proof (find_none _ _ Hf c (proj1 (list_elem_of_In _ _) Hc)) as Hn.
      apply negb_false_iff, bool_decide_eq_true in Hn. done. }
    assert (Hnd : NoDup ("" :: candidates)).
    { constructor.
      - intros (i & Hi & Hin)%list_elem_of_fmap. pose proof (numbered_canonical base i Hb Hin) as Hc. by rewrite <- Hi in Hc.
      - apply NoDup_fmap_2_strong; [|apply NoDup_seqZ]. intros i j Hi Hj. by apply numbered_inj. }
    apply NoDup_submseteq, submseteq_length in Hall; [|done]. cbn [length] in Hall. unfold candidates in Hall.
    rewrite length_map, length_seqZ in Hall. lia.
Qed.

(** A Job chosen twice, beside a node whose name is still empty. *)
Lemma derived_name_unique_witness :
  unique_node_name ["build"; ""; "build-2"] "build" = "build-3"
  /\ unique_node_name ["build"; ""; "build-2"] "build" ∉ ["build"; ""; "build-2"].
Proof.
  split; [vm_compute; reflexivity|]. apply derived_name_unique; [vm_compute; reflexivity| |cbn; lia].
  apply list_elem_of_In. right. left. reflexivity.
Defined.
