(* ===== verification/PagesExample.v ===== *)
(** * The browser at concrete inputs

    A router and a query decoder with a browser's call through it; a Job
    previewed, refused and saved again; a Workflow opened, edited and
    reloaded. *)

From S2P Require Import Prelude RustStr Json Inputs Names Text Float Domain Auth Recurrence Workflow Db Snapshot Store WorkflowStore Catalog Queries Scenario PlannerTheorems Validation Application ApplicationSystem Futures Dispatcher Runner ApiTypes Authentication Web Resources Handlers Api ApiExample Layout WebClient WebRoutes Forms JobForm JobPreview ResourceForms WorkflowPages WorkflowEditor EditorTheorems EditorDrafts.
From Stdlib Require Import Ascii String SpecFloat.
From stdpp Require Import base numbers strings list sets pretty gmap relations.

Local Open Scope Z_scope.

(** A reader and a printer that know the empty object. *)
#[local] Instance json_text_example : JsonText := {|
  from_str := fun s => if (s =? "{}")%string then Ok (VObject []) else Err "expected value"%string;
  to_string_pretty := fun v => match v with VObject [] => Ok "{}"%string | _ => Err "unsupported"%string end;
|}.

Definition float_of (text : string) : spec_float := default S754_nan (parse_f64 text).

Definition greet_fields (executable : string) : JobFields :=
  mkJobFields " greet " (Some 2%N) api.EK_Process executable "" ["--host={{ host }}"]%string "{}" true false "3" "1" "60" "2.0" "0.2".

Definition greet_request (executable : string) : api.CreateJobRequest :=
  api.mkCreateJobRequest "greet" 2 api.EK_Process (Some executable) None ["--host={{ host }}"]%string (VObject []) true false 3 1 60
    (float_of "2.0") (float_of "0.2").

(** ** The preview *)

Definition web_row : TargetRow :=
  target_row 1 (MkResourceName "web") {| td_arguments := ["-v"]%string; td_inputs := VObject [("host"%string, VString "web01")] |} 0 0.

Definition greet_catalog : DB :=
  set_jobs (<[3%N := job_row 1 (MkResourceName "greet") (job_definition (normalize_job_input (job_input (greet_request "/bin/echo")))) 0 0]>)
    (set_targets (<[4%N := web_row]>) (catalog true)).

Definition web_target : api.TargetResource :=
  api.mkTargetResource 4 1 "default" "web" "default/web" ["-v"]%string (VObject [("host"%string, VString "web01")])
    "2026-01-01T00:00:00Z" "2026-01-01T00:00:00Z".

Definition greet_execution : option ExecutionRow := execution_row greet_catalog 3 4.

Lemma preview_matches_run_witness : exists x, greet_execution = Some x
  /\ preview_text (greet_fields " /bin/echo ") (Some 4%N) (Some (Ok [web_target])) (Some (Ok []))
     = preview_entry (greet_fields " /bin/echo ") (VObject []) (web_target, None)
  /\ exists snapshot, execution_snapshot_with_inputs 9 x None empty_object Manual None = Ok snapshot
  /\ preview_entry (greet_fields " /bin/echo ") (VObject []) (web_target, None)
     = ("web" ++ newline_text ++ "$ " ++ "/bin/echo --host=web01 -v" ++ newline_text ++ "inputs: {}")%string.
Proof.
  destruct greet_execution as [x|] eqn:Hx; [|vm_compute in Hx; discriminate Hx]. exists x. split; [reflexivity|].
  pose proof (preview_matches_run (greet_fields " /bin/echo ") (greet_request "/bin/echo") greet_catalog 3 4 1 (MkResourceName "greet") 0 0 x
    web_row "default" {| tr_namespace := MkNamespaceName "default"; tr_target := {| tgt_id := 4; tgt_namespace_id := 1; tgt_name := MkResourceName "web";
      tgt_arguments := ["-v"]%string; tgt_inputs := VObject [("host"%string, VString "web01")]; tgt_created_at := 0; tgt_updated_at := 0 |} |}
    web_target None 4 [web_target] [] [(web_target, None)] 9 Manual None) as H.
  destruct H as [Ht H].
  - vm_compute. discriminate.
  - vm_compute. reflexivity.
  - vm_compute. reflexivity.
  - vm_compute. reflexivity.
  - vm_compute. reflexivity.
  - vm_compute. reflexivity.
  - exact Hx.
  - reflexivity.
  - left.
  - split; [exact Ht|]. vm_compute in Hx. injection Hx as <-.
    destruct (execution_snapshot_with_inputs _ _ _ _ _ _) as [snapshot|] eqn:Hs; [|vm_compute in Hs; discriminate Hs].
    exists snapshot. split; [reflexivity|]. destruct H as [H _]. change (api.cjr_inputs (greet_request "/bin/echo")) with (VObject []) in H.
    rewrite H. vm_compute in Hs. injection Hs as <-. vm_compute. reflexivity.
Defined.

(** ** The refusal *)

Definition greet_form (executable : string) : JobState := mkJobState (Some 1%N) (greet_fields executable) None false false None None.

Definition executable_refused : ClientError :=
  mkClientError "invalid_request" "Process and Shell Jobs require one absolute executable path; No-op Jobs require none." (Some "executable"%string).

(** A relative path passes the form's own checks and not the server's; the corrected form stays disabled. *)
Lemma rejected_field_blocks_form_witness :
  job_form_disabled (greet_form "echo") = false
  /\ (job_submit None (greet_form "echo")).2 = Some (client.create_job 1 (greet_request "echo"))
  /\ validate_job (normalize_job_input (job_input (greet_request "echo")))
     = Err (invalid "executable" (ce_message executable_refused))
  /\ let refused := job_answer None (Err executable_refused) (job_submit None (greet_form "echo")).1 in
     job_form_disabled (edit_job (TypeExecutable "/bin/echo") refused) = true.
Proof.
  split; [vm_compute; reflexivity|]. split; [vm_compute; reflexivity|]. split; [vm_compute; reflexivity|].
  apply (rejected_field_blocks_form None (job_submit None (greet_form "echo")).1 executable_refused "executable").
  - reflexivity.
  - right. right. left.
  - apply rtc_once. apply page_edit.
Defined.

(** ** A stored Job saved again *)

Definition greet_resource : api.JobResource :=
  api.mkJobResource 3 1 "default" "greet" "default/greet" api.EK_Shell 2 "default" (Some "/bin/sh"%string) (Some "printf '%s' $1"%string)
    ["--host={{ host }}"]%string (VObject []) true false 3 1 60 (float_of "2.5") (float_of "0.1") "2026-01-01T00:00:00Z" "2026-01-01T00:00:00Z".

Lemma job_edit_roundtrip_witness :
  job_form_disabled (job_state_new (Some greet_resource)) = false
  /\ (job_submit (Some 3%N) (job_state_new (Some greet_resource))).2
     = Some (client.update_job 3 (update_job_request (stored_request greet_resource))).
Proof. apply (job_edit_roundtrip greet_resource). constructor; vm_compute; reflexivity. Defined.

Local Open Scope Z_scope.

Definition node_named (name : string) (job : Uuid) : WorkflowNode := mkWorkflowNode (MkResourceName name) job.

Definition release : WorkflowDefinition := mkWorkflowDefinition (MkResourceName "release") (Some "")
  [node_named "build" 1; node_named "deploy" 2]
  [mkWorkflowEdge (MkResourceName "build") (MkResourceName "deploy") Workflow.Success].

Definition release_record : WorkflowRecord :=
  mkWorkflowRecord 7 3 (MkNamespaceName "ops") 4 release (<["build"%string := 11%N]> (<["deploy"%string := 12%N]> ∅)) 0 0.

Definition release_resource : api.WorkflowResource :=
  api.mkWorkflowResource 7 3 "ops" "release" (Some "") 4
    [api.mkWorkflowNodeResource 11 "build" 1; api.mkWorkflowNodeResource 12 "deploy" 2]
    [api.mkWorkflowEdgeResource "build" "deploy" api.DC_Success] "2026-01-01T00:00:00Z" "2026-01-01T00:00:00Z".

(** An invocation of the Workflow: the build was reported as failed, so the deployment is skipped. *)
Definition release_run : WorkflowRunRecord :=
  mkWorkflowRunRecord 20 21 release_record (SelTarget 4) (VObject []) WFailed false
    [mkWorkflowNodeRunRecord 31 11 (MkResourceName "build") 1 NFailed [mkWorkflowChildRun 4 41] (Some 0) (Some 0);
     mkWorkflowNodeRunRecord 32 12 (MkResourceName "deploy") 2 NSkipped [] None (Some 0)] 0 (Some 0) (Some 0).

Definition deploy_node : api.WorkflowNodeRunResource :=
  api.mkWorkflowNodeRunResource 32 12 "deploy" 2 api.NRS_Skipped [] None (Some "2026-01-01T00:00:00Z"%string).

Lemma skip_explained_witness : exists value note, workflow_run_resource release_run = Ok value
  /\ node_notes value = [None; Some note] /\ names_edge value deploy_node note.
Proof.
  destruct (workflow_run_resource release_run) as [value|e] eqn:Hr; [|vm_compute in Hr; discriminate Hr].
  pose proof (skip_explained release_run value Hr) as H.
  assert (Hd : dependency_decision (incoming release_run "deploy") = Skipped_) by (vm_compute; reflexivity).
  exists value, "Expected branch skip: build ended failed and did not match On success."%string. split; [reflexivity|].
  vm_compute in Hr. injection Hr as <-. split; [vm_compute; reflexivity|].
  destruct (Forall2_lookup_lr _ _ _ 1%nat deploy_node (Some "Expected branch skip: build ended failed and did not match On success."%string) H eq_refl ltac:(vm_compute; reflexivity)) as [_ Ht].
  specialize (Ht _ eq_refl). change (api.wnrr_name deploy_node) with "deploy"%string in Ht. rewrite Hd in Ht. exact Ht.
Defined.

(** A new Target with one argument, as the form sends it. *)
Definition edge_form : TargetForm := mkTargetForm (Some 3%N) "edge" ["--host={{ host }}"]%string "{}" false false None None.

Lemma forms_pass_validation_witness : exists self' call namespace r,
  target_submit None edge_form = (self', Some call) /\ call = save_target None namespace r
  /\ parse_resource_name (api.ctr_name r) = Ok (MkResourceName (api.ctr_name r)) /\ validate_input_object (api.ctr_inputs r) = Ok ().
Proof.
  destruct (target_submit None edge_form) as [self' [call|]] eqn:H; [|vm_compute in H; discriminate H].
  destruct (proj1 (forms_pass_validation None [] 0) _ _ _ H) as (namespace & r & H1 & H2 & _ & H3).
  exists self', call, namespace, r. split; [reflexivity|]. split; [exact H1|]. split; [exact H2|exact H3].
Defined.

Definition keys (n : nat) : Uuid := (100 + N.of_nat n)%N.

Definition opened : Editor * Signals := editor_new keys (Some release_resource) no_signals.

(** Opened and submitted unchanged: the same definition, without its empty description. *)
Lemma editor_roundtrip_witness : exists r, request opened.2 opened.1 = Ok r
  /\ workflow_definition (definition_input r) = Ok (resubmitted release) /\ dirty opened.2 opened.1.
Proof.
  pose proof (editor_roundtrip keys release_record release_resource no_signals 3) as H.
  specialize (H eq_refl). specialize (H ltac:(vm_compute; reflexivity)). specialize (H ltac:(vm_compute; reflexivity)).
  specialize (H ltac:(repeat constructor)). specialize (H ltac:(apply (bool_decide_unpack _); vm_compute; exact I)).
  unfold opened. destruct (editor_new keys (Some release_resource) no_signals) as [self st]. destruct H as (r & H1 & _ & H2 & H3).
  exists r. split_and!; [exact H1|exact H2|by apply H3].
Defined.

(** The draft after a dependency back was added: submitted, and shown unresolved. *)
Definition looped : Editor * Signals :=
  let '(self, st) := add_dependency keys opened.1 opened.2 in
  match last (ed_edges self) with
  | Some row => (self, set_reference (er_to row) (Some 11%N) (set_reference (er_from row) (Some 12%N) st))
  | None => (self, st)
  end.

Definition looped_request : api.CreateWorkflowRequest :=
  api.mkCreateWorkflowRequest "release" None [api.mkWorkflowNodeRequest "build" 1; api.mkWorkflowNodeRequest "deploy" 2]
    [api.mkWorkflowEdgeRequest "build" "deploy" api.DC_Success; api.mkWorkflowEdgeRequest "deploy" "build" api.DC_Success].

Lemma preview_verdict_witness : exists layout,
  preview (graph_nodes looped.2 looped.1 []) (graph_edges looped.2 looped.1) = Some layout /\ gl_unresolved layout = true
  /\ workflow_definition (definition_input looped_request) <> Ok (definition_of looped_request).
Proof.
  destruct (preview_verdict looped.2 looped.1 looped_request []) as (layout & Hl & Hiff).
  - vm_compute. reflexivity.
  - apply (bool_decide_unpack _). vm_compute. exact I.
  - repeat constructor.
  - reflexivity.
  - exists layout. split; [exact Hl|]. assert (Hu : gl_unresolved layout = true) by (vm_compute in Hl; injection Hl as <-; reflexivity).
    split; [exact Hu|]. intros H%Hiff. congruence.
Defined.

(** The same draft, reloaded. *)
Lemma reload_restores_definition_witness :
  let '(self, st) := editor_replace keys looped.1 release_resource looped.2 in
  request st self = Ok (unchanged release_resource) /\ separate st (ed_nodes self).
Proof.
  pose proof (reload_restores_definition keys looped.1 release_resource looped.2) as H.
  assert (Hsep : separate looped.2 (ed_nodes looped.1)).
  { constructor; try (apply (bool_decide_unpack _); vm_compute; exact I). }
  specialize (H Hsep ltac:(apply (bool_decide_unpack _); vm_compute; exact I)).
  assert (Hf : request (editor_new keys (Some release_resource) looped.2).2 (editor_new keys (Some release_resource) looped.2).1
    = Ok (unchanged release_resource)) by (vm_compute; reflexivity).
  destruct (editor_new keys (Some release_resource) looped.2) as [fresh st1].
  destruct (editor_replace keys looped.1 release_resource looped.2) as [self st2]. destruct H as (H1 & _ & _ & _ & H2 & _).
  split; [by rewrite H1|exact H2].
Defined.

Local Open Scope string_scope.
Local Open Scope Z_scope.

(** ** Query strings *)

Definition parse_pair (text : string) : string * string := default (text, "") (split_once "=" text).
Definition parse_pairs (text : string) : list (string * string) := map parse_pair (split_on "&" text).

Fixpoint field (name : string) (pairs : list (string * string)) : option string :=
  match pairs with
  | [] => None
  | (n, v) :: pairs => if (n =? name)%string then Some v else field name pairs
  end.

Definition status_of (text : string) : option api.RunStatus :=
  List.find (fun s => (status_name s =? text)%string)
    [api.RS_PendingDispatch; api.RS_Queued; api.RS_Running; api.RS_RetryWait; api.RS_Succeeded; api.RS_Failed;
     api.RS_Dead; api.RS_Skipped; api.RS_Cancelled; api.RS_Unknown].

Definition number_field (pairs : list (string * string)) : option Z := v ← field "limit" pairs; parse_unsigned in_u16 v.
Definition uuid_field (name : string) (pairs : list (string * string)) : option Uuid := v ← field name pairs; uuid_of_string v.

Definition read_query {A} (kind : QueryType A) (text : string) : result A Rejection :=
  let pairs := parse_pairs text in
  match kind in QueryType A return result A Rejection with
  | QPage => Ok (mkPageQuery (number_field pairs) (field "after" pairs))
  | QRunPage => Ok (mkRunPageQuery (number_field pairs) (uuid_field "before" pairs) (uuid_field "namespace_id" pairs)
      (v ← field "status" pairs; status_of v) (uuid_field "job_id" pairs) (uuid_field "target_id" pairs) (uuid_field "target_set_id" pairs))
  | QWorkflowRun => Ok (mkWorkflowRunQuery (number_field pairs) (uuid_field "before" pairs))
  end.

Definition plain_pair (p : string * string) : Prop :=
  contains_byte "&" p.1 = false /\ contains_byte "=" p.1 = false /\ contains_byte "&" p.2 = false.

Lemma parse_pair_text n v : contains_byte "=" n = false -> parse_pair (n ++ "=" ++ v) = (n, v).
Proof. intros H. unfold parse_pair. change ("=" ++ v) with (String "=" v). by rewrite split_once_byte. Qed.

Lemma pair_text_plain n v : plain_pair (n, v) -> contains_byte "&" (n ++ "=" ++ v) = false.
Proof. intros (Hn & _ & Hv). cbn in Hn, Hv. by rewrite !contains_byte_app, Hn, Hv. Qed.

Lemma parse_query_text pairs : pairs <> [] -> Forall plain_pair pairs -> parse_pairs (query_text pairs) = pairs.
Proof.
  unfold parse_pairs. intros Hne H. induction H as [|[n v] pairs Hp Hall IH]; [done|]. destruct pairs as [|p pairs].
  - cbn [query_text]. rewrite split_on_last by (by apply pair_text_plain). cbn [map]. by rewrite parse_pair_text by apply Hp.
  - rewrite query_text_cons. replace (n ++ "=" ++ v ++ "&" ++ query_text (p :: pairs))
      with ((n ++ "=" ++ v) ++ String "&" (query_text (p :: pairs))) by (by rewrite <- !string_app_assoc).
    rewrite split_on_sep by (by apply pair_text_plain). cbn [map]. rewrite IH by done. by rewrite parse_pair_text by apply Hp.
Qed.

(** ** The router and the decoders *)

Definition unreadable : Rejection := mkRejection 400 "Invalid request".

#[local] Instance web_axum : Axum := {|
  matched_path := fun registered path => head (matching registered (segments path));
  allow_header := fun _ => "GET";
  missing_extension := "Missing request extension";
  path_uuid := fun captures => match captures with [text] => ok_or (uuid_of_string text) unreadable | _ => Err unreadable end;
  path_string := fun captures => match captures with [text] => Ok text | _ => Err unreadable end;
  query_string := fun A kind text => read_query kind text;
  json_body := fun A kind _ =>
    match kind in BodyType A return result A Rejection with
    | BCreateNamespace => Ok (api.mkCreateNamespaceRequest "ops")
    | _ => Err (mkRejection 415 "Expected request with `Content-Type: application/json`")
    end |}.

(** The values of the fields that are present. *)
Lemma uuid_pair name (o : option Uuid) : contains_byte "&" name = false -> contains_byte "=" name = false ->
  Forall plain_pair (pair_of name uuid_to_string o).
Proof. intros H1 H2. destruct o; repeat constructor; cbn; try done. by apply uuid_free. Qed.

Lemma limit_pair limit : page_size limit -> exists z, limit = Some z /\ Forall plain_pair (pair_of "limit" pretty limit)
  /\ parse_unsigned in_u16 (pretty z) = Some z.
Proof. intros [->|[->| ->]]; eexists; (split; [reflexivity|]); (split; [repeat constructor|reflexivity]). Qed.

Lemma status_pair status : Forall plain_pair (pair_of "status" status_name status).
Proof. destruct status as [[]|]; repeat constructor. Qed.

Lemma status_of_name status : status_of (status_name status) = Some status.
Proof. by destruct status. Qed.

Lemma field_uuid l (o : option Uuid) : are_uuids l -> o ∈ l ->
  (v ← (match o with Some u => Some (uuid_to_string u) | None => None end); uuid_of_string v) = o.
Proof. intros Hl Ho. destruct o as [u|]; [|done]. cbn. by rewrite uuid_of_to by (by apply Hl). Qed.

Lemma field_status (o : option api.RunStatus) :
  (v ← (match o with Some s => Some (status_name s) | None => None end); status_of v) = o.
Proof. destruct o; [|done]. apply status_of_name. Qed.

Lemma field_pair {A} name other (show : A -> string) o pairs :
  field name (pair_of other show o ++ pairs) = if (other =? name)%string then (match o with Some v => Some (show v) | None => field name pairs end) else field name pairs.
Proof. destruct o; cbn; by destruct (other =? name)%string. Qed.

#[local] Instance web_codec : ApiCodec.
Proof.
  split.
  - intros registered path template captures H. cbn. by rewrite H.
  - intros id Hid. cbn. by rewrite uuid_of_to.
  - done.
  - intros [limit after] Hl Ha. cbn [pq_limit pq_after] in *. destruct (limit_pair limit Hl) as (z & -> & Hp & Hz).
    change (read_query QPage (query_text (page_pairs (mkPageQuery (Some z) after))) = Ok (mkPageQuery (Some z) after)).
    unfold read_query. rewrite parse_query_text; [|done|].
    + unfold number_field, page_pairs. destruct after as [c|]; cbn; by rewrite Hz.
    + apply Forall_app. split; [exact Hp|]. destruct after as [c|]; [|constructor]. repeat constructor; cbn; try done. by apply canonical_without.
  - intros [limit before ns status job target set] Hl Hu. cbn in Hl, Hu. destruct (limit_pair limit Hl) as (z & -> & Hp & Hz).
    match goal with |- query_string QRunPage ?t = Ok ?q => change (read_query QRunPage t = Ok q) end.
    unfold read_query. rewrite parse_query_text; [|done|].
    + unfold number_field, uuid_field, run_pairs. cbn [rp_limit rp_namespace_id rp_status rp_job_id rp_target_id rp_target_set_id rp_before].
      rewrite <- (app_nil_r (pair_of "before" uuid_to_string before)), !field_pair.
      cbn -[uuid_to_string uuid_of_string parse_unsigned status_name status_of pretty mbind]. rewrite field_status, !(field_uuid _ _ Hu) by set_solver.
      cbn [mbind option_bind]. by rewrite Hz.
    + unfold run_pairs. repeat (apply Forall_app; split); try done; first [by apply uuid_pair | apply status_pair].
  - intros [limit before] Hl Hu. cbn in Hl, Hu. destruct (limit_pair limit Hl) as (z & -> & Hp & Hz).
    match goal with |- query_string QWorkflowRun ?t = Ok ?q => change (read_query QWorkflowRun t = Ok q) end.
    unfold read_query. rewrite parse_query_text; [|done|].
    + unfold number_field, uuid_field, workflow_run_pairs. cbn [wq_limit wq_before].
      rewrite <- (app_nil_r (pair_of "before" uuid_to_string before)), !field_pair.
      cbn -[uuid_to_string uuid_of_string parse_unsigned pretty mbind]. rewrite (field_uuid _ _ Hu) by set_solver.
      cbn [mbind option_bind]. by rewrite Hz.
    + apply Forall_app. split; [done|]. by apply uuid_pair.
Qed.

(** ** A page of Workflows *)

Definition page_call : ClientCall := CListWorkflows 7 (Some "nightly").

Definition page_request : Request :=
  mkRequest GET "/api/namespaces/00000000-0000-0000-0000-000000000007/workflows" "limit=25&after=nightly"
    [("authorization", "Bearer " ++ example_secret)] "".

Lemma client_calls_served_witness : exists continue,
  establish page_request (Some 5%N) = Await (Authenticate (Bearer (MkBearerToken example_secret))) continue
  /\ forall caller, continue (Ok caller)
       = respond (ok JWorkflows) (Handlers.list_workflows (mkRequestContext 5 caller) 7 (mkPageQuery (Some 25) (Some "nightly"))).
Proof.
  assert (Hb : b64token example_secret).
  { split; [vm_compute; discriminate|]. by exists "local-development-secret-0123456789", 2%nat. }
  destruct (client_calls_served true (fun _ => true) (fun _ => Ok "") example_secret page_call page_request 5
    (conj eq_refl eq_refl) Hb eq_refl I) as (continue & H1 & H2 & _).
  exists continue. split; [exact H1|exact H2].
Defined.
